(* ===== verification/_CoqProject ===== *)
-Q . S2P
Prelude.v
Errors.v
Utf8.v
Interfaces.v
Buffer.v
BufferRefine.v
InputStream.v
InputStreamSpec.v
Entities.v
Detect.v
DetectSpec.v
Tokens.v
TokeniserState.v
TokeniserMonad.v
TokeniserEntities.v
TokeniserTags.v
TokeniserMarkup.v
Tokeniser.v
TokeniserWp.v
TokeniserEmit.v
TokeniserInv.v
TokeniserRules.v
TokeniserSafeData.v
TokeniserSafeEntities.v
TokeniserSafe.v
TokeniserSettled.v
StreamSettled.v
Parser.v
Concrete.v
StreamProperties.v
TokeniserProperties.v
Wapcaplet.v
WapcapletInv.v
WapcapletSpec.v
WapcapletProperties.v
Lzw.v
LzwRead.v
LzwRef.v
LzwTable.v
LzwSpec.v
LzwProperties.v
ElementType.v
TreeState.v
TreeStack.v
TreeAdoption.v
TreeForeign.v
TreeBody.v
TreeModes.v
TreeBuilder.v
TreeRepr.v
TreeRules.v
TreeInv.v
TreeSteps.v
TreePops.v
TreeRounds.v
TreeFlow.v
TreeInBody.v
TreePlaces.v
TreeBodyTags.v
TreeOutcome.v
TreeHeadSafe.v
TreeTablesSafe.v
TreeLateSafe.v
TreeSession.v
TreeTokens.v
TreeConcrete.v
ParserSpec.v
TreeProperties.v
CssLexState.v
CssLexer.v
CssLexRef.v
CssLexRules.v
CssLexEscape.v
CssLexRuns.v
CssLexHandlers.v
CssLexStates.v
CssLexProperties.v
Bmp.v
BmpSafe.v
BmpProperties.v
