(* ===== verification/Prelude.v ===== *)
(** * A verification of the HTML and CSS front ends of the besra browser

    The repository holds the NetSurf browser and its libraries.  This library
    models, function by function, the code between the bytes of a page and the
    nodes of its document, the lexer of its style sheets, and three leaf
    libraries, and proves that the code is memory safe, ends, and does what its interfaces
    promise.

    ** The program and its model

    A page is fed in chunks to hubbub_parser_parse_chunk.  The parser appends
    them to an input stream, whose filter turns them into UTF-8; the tokeniser
    reads the stream through peek and advance and emits tokens; the tree
    builder takes a token at a time and calls its client to make nodes.  The
    files follow this path:

    - Errors.v: the result codes of libparserutils and libhubbub;
    - Utf8.v: libparserutils/src/charset/encodings/utf8impl.h;
    - Buffer.v: libparserutils/src/utils/buffer.c;
    - InputStream.v: libparserutils/src/input/filter.c and inputstream.c;
    - Entities.v: libhubbub/src/tokeniser/entities.c;
    - Tokens.v, TokeniserState.v, TokeniserMonad.v, TokeniserEntities.v,
      TokeniserTags.v, TokeniserMarkup.v, Tokeniser.v:
      libhubbub/src/tokeniser/tokeniser.c;
    - Detect.v: libhubbub/src/charset/detect.c;
    - Parser.v: libhubbub/src/parser.c;
    - ElementType.v, TreeState.v, TreeStack.v, TreeAdoption.v, TreeForeign.v,
      TreeBody.v, TreeModes.v, TreeBuilder.v: libhubbub/src/treebuilder/;
    - CssLexState.v, CssLexer.v: libcss/src/lex/lex.c, which reads a style sheet
      through the same input stream and byte buffer;
    - Wapcaplet.v: libwapcaplet/src/libwapcaplet.c, string internment, which
      shares nothing with the parser but its clients;
    - Lzw.v: libnsgif/src/lzw.c, the decoder of GIF image data;
    - Bmp.v: libnsbmp/src/libnsbmp.c, Windows bitmaps and icons.

    Functions keep their names; a loop of a function is a Fixpoint of its own.
    Integers are integers with the wrap-around of their type written out (u8 to
    u64 below).  Memory is checked: reading outside what a pointer designates,
    reading a cell that was never written, using an entry or a string that was
    freed, and a failed assert are all the same result, [Stuck] or [None], and
    so is a loop that has not ended within its fuel.  That a run is not stuck
    is therefore a theorem about memory safety, assertions and termination at
    once.  Allocation can fail wherever the code allocates: malloc and realloc
    are parameters that may answer as they like.

    Where components meet there is an interface.  Interfaces.v states what a
    byte buffer and an input stream promise; the theorems about the
    tokeniser and the CSS lexer are proved against it, and BufferRefine.v and
    InputStreamSpec.v discharge it.  The client of the tree builder is the
    class TreeHandler (TreeState.v) with the laws TreeHandlerLaws (TreeRepr.v),
    of which TreeConcrete.v is an instance, a small document tree.  These laws
    say that a node the client makes is none it has made before: a client that
    gives the handle of a destroyed node out again is not covered.  The token
    handler of a tokeniser is a parameter, which TreeTokens.v instantiates with
    the tree builder.  iconv, iconv_open and the tables that the build generates
    are parameters; Concrete.v gives an environment in which the hypotheses about
    them hold, for the witnesses of the theorems.

    ** The theorems

    - Text: decoding UTF-8 inverts encoding and accepts only shortest forms
      (Utf8.v); the buffer refines sequences of octets (BufferRefine.v); the
      filter always ends and writes well-formed text, and the stream shows,
      consumes and inserts text as a list does (StreamProperties.v).
    - Charset: detection stays inside the chunk, and finds the charset of a
      document that begins with <meta charset="NAME" (DetectSpec.v); after the
      first chunk the charset is settled, so the assertion of the parser's
      fallback holds (StreamSettled.v, TokeniserSettled.v, ParserSpec.v).
    - Tokeniser: the invariant of the state machine is TokeniserInv.v; every
      handler keeps it and decreases the measure 32 * unread + rank
      (TokeniserSafe*.v), so hubbub_tokeniser_run returns from every state of
      the invariant (TokeniserProperties.v).  The invariant has two coverages
      (TokeniserWp.v).  With [pcdata_coverage] the content model is PCDATA and
      the handler, which may pause, does not change it.  With [every_model] the
      handler may set the model at start tags, to RCDATA and CDATA at those with
      an ASCII name of at most nine octets, the names the tokeniser can match
      again; then two outcomes are excepted, in which the code reads outside
      what it may: escaped text ("<!--" in RCDATA or CDATA) and text that ends
      between the name of the closing end tag and the next octet.  CDATA
      sections are in neither coverage, since an empty one fails an assertion.
      The executions at the end of TokeniserProperties.v show all three.
      Duplicate attributes: TokeniserEmit.v.
    - Parser: a chunk that is fed to an open parser is answered, and the end of
      the input is told to the handler, provided that no raw input is left (an
      input that ends inside a character leaves some, and then the end is never
      told: [cut_character_hides_end]).  TreeTokens.v proves that the tree
      builder is a handler as [every_model] asks for, so the theorems apply to
      the parser with its own tree builder, and ParserSpec.v ends with a page
      that such a parser turns into a document.
    - Tree builder: TreeRepr.v relates a state to a list of open elements and, by way
      of the linked entries, to a list of formatting elements;
      TreeRules.v shows that the primitives are operations on these lists,
      TreeInv.v states the invariant that ties them together, and TreeSteps.v,
      TreePops.v and TreeRounds.v show that insertion,
      reconstruction and the adoption agency keep it and end.  What is left after
      an error can be destroyed (TreeSession.v).  The handlers of the modes
      are then judged by the types of the open elements alone: TreeFlow.v has
      the triples and, with TreePlaces.v, says which stacks the modes stand on,
      TreeInBody.v and TreeBodyTags.v treat the body's tags, TreePlaces.v those of the head, TreeHeadSafe.v, TreeTablesSafe.v and
      TreeLateSafe.v the other modes, with the ranks of TreeOutcome.v for
      tokens that are handled again, and TreeSession.v puts them together: from
      its creation on, every token is answered.  The tokens ([tame], [takes])
      are all but the start tags of captions, svg and math and of an isindex
      with an attribute whose value is empty; while text is collected they are
      text, end tags and the end of file.  TreeProperties.v collects the
      results, concrete documents, and a document with a caption, whose marker
      goes stale so that an assertion fails.
    - CSS lexer: CssLexRef.v says what a token is, by scanners that see a whole
      text and keep no state; a lexer that has stopped in the middle of a token
      stands for the scanner of the rest of it ([pending], CssLexHandlers.v).
      CssLexRules.v has the rules for the primitives and treats emission,
      CssLexEscape.v and CssLexRuns.v escapes and the loops over characters, and
      CssLexStates.v every state function: it goes on as its scanner does, whether it emits a token or pauses.  CssLexProperties.v:
      every call answers, and a token that was read from any chunks is that of
      the whole text.  Three pauses are excepted ([broken]); there the code
      forgets where it was, and executions at the end of that file show it.
    - Internment: the intern table keeps its invariant over all calls that are
      [allowed]: on references the client holds, with texts without NUL, sums of
      offset and length below 2^64 and counts that do not wrap.  Then equal
      texts are equal pointers and nothing leaks (Wapcaplet*.v).  With a NUL, or
      a sum that wraps, it is not so, as executions at the end of
      WapcapletProperties.v show.
    - LZW: decoding by sub-blocks, with its table and its partial outputs, is
      the decoding of the bits by a reference without these (LzwRef.v,
      LzwSpec.v, LzwProperties.v).  The reference is LZW but for three things
      that the library does in its own way, which LzwRef.v names.
    - Bitmaps: analysis makes an image decodable or leaves nothing allocated, and
      the decoders of a decodable image stay within the file and the bitmap, but
      for one octet that BmpSafe.v counts ([overread]); executions that read it
      are at the end of BmpProperties.v.  The uncompressed formats show, pixel by
      pixel, what a reference function of the file's octets says.  A client's
      bitmap is taken to be shorter than 4 GB: the sizes of rows are computed in
      32 bits.

    ** Fuel

    Loops over a list are structural.  Otherwise the fuel is a bound that the
    theorems show to be enough: for [total] octets that can still be read, more
    than [total] turns of the loops of the CSS lexer and 32 * total + 21 steps of
    the tokeniser (TokeniserState.v); 64 doublings of a buffer (GROW_FUEL), 7
    advances in the slow path of an LZW read (SLOW_FUEL), as many turns of the
    run-length decoders as there are octets, as many steps as there are entries for
    the walks over the formatting list, and 64 + 4 per open element for the modes that pass a token on
    (token_fuel), of which 31 are enough outside foreign content; for foreign
    content there is no such proof yet.

    ** Not modelled

    The charset codecs and aliases of libparserutils are used by another build
    or generated.  Of libnsgif only the LZW decoder; of libhubbub the error
    handler, which is never called, and the debugging dumps are left out; of
    libcss all but the lexer.  consumeUnicode keeps a pointer into the stream's
    buffer over a peek that may move it; what it reads through it is taken to be
    what was there, which is so while the buffer does not move.  libdom, GIF
    frames, SVG and the browser itself (layout, caches, front ends) are separate
    systems, and the JavaScript engines, libutf8proc and the generated tables are
    third-party code. *)

(** Machine integers, byte strings and the shared automation. *)
From Stdlib Require Export ZArith Lia Bool.
From stdpp Require Export base list numbers tactics.

#[global] Set Default Goal Selector "1".
#[global] Open Scope Z_scope.

Declare Scope besra_scope.
Delimit Scope besra_scope with besra.

(** Byte strings are lists of integers; [wf_bytes] says each is an octet. *)
Abbreviation bytes := (list Z).

Definition is_byte (b : Z) : Prop := 0 <= b < 256.
Abbreviation wf_bytes := (Forall is_byte).

(** Unsigned wrap-around at the machine widths the C code uses. *)
Definition u8 (x : Z) : Z := x mod 2 ^ 8.
Definition u16 (x : Z) : Z := x mod 2 ^ 16.
Definition u32 (x : Z) : Z := x mod 2 ^ 32.
Definition u64 (x : Z) : Z := x mod 2 ^ 64.

(** A memory cell that was allocated and never written. *)
Definition UNINIT : Z := -1.

(** Lists indexed and measured by integers. *)
Definition zlen {A} (l : list A) : Z := Z.of_nat (length l).
Definition ztake {A} (n : Z) (l : list A) : list A := take (Z.to_nat n) l.
Definition zdrop {A} (n : Z) (l : list A) : list A := drop (Z.to_nat n) l.
Definition znth {A} (l : list A) (i : Z) : option A :=
  if i <? 0 then None else l !! Z.to_nat i.
Definition zrep {A} (n : Z) (x : A) : list A := replicate (Z.to_nat n) x.

(** [zwrite off d m] overwrites the cells of [m] from [off] on with [d]:
    what memcpy and memmove do to their destination. *)
Definition zwrite {A} (off : Z) (d m : list A) : list A :=
  ztake off m ++ d ++ zdrop (off + zlen d) m.

(** ** Equality and comparison of byte strings, as strncmp and memcmp use them. *)
Definition bytes_eqb (a b : bytes) : bool := bool_decide (a = b).

Create Rewrite HintDb zlist.
Create HintDb zlist.

Section Lists.
Context {A : Type}.
Implicit Types l m d : list A.

Lemma zlen_nonneg l : 0 <= zlen l.
Proof. unfold zlen; lia. Qed.

Lemma zlen_nil : zlen (@nil A) = 0.
Proof. reflexivity. Qed.

Lemma zlen_cons x l : zlen (x :: l) = 1 + zlen l.
Proof. unfold zlen; cbn [length]; lia. Qed.

Lemma zlen_app l m : zlen (l ++ m) = zlen l + zlen m.
Proof. unfold zlen; rewrite length_app; lia. Qed.

Lemma zlen_ztake n l : zlen (ztake n l) = Z.max 0 (Z.min n (zlen l)).
Proof. unfold zlen, ztake; rewrite length_take; lia. Qed.

Lemma zlen_zdrop n l : zlen (zdrop n l) = Z.max 0 (zlen l - Z.max 0 n).
Proof. unfold zlen, zdrop; rewrite length_drop; lia. Qed.

Lemma zlen_zrep n (x : A) : zlen (zrep n x) = Z.max 0 n.
Proof. unfold zlen, zrep; rewrite length_replicate; lia. Qed.

Lemma zlen_zero_inv l : zlen l = 0 -> l = [].
Proof. destruct l; [done|]. rewrite zlen_cons. pose proof (zlen_nonneg l); lia. Qed.

Lemma ztake_ge n l : zlen l <= n -> ztake n l = l.
Proof. unfold zlen, ztake; intros; apply take_ge; lia. Qed.

Lemma zdrop_ge n l : zlen l <= n -> zdrop n l = [].
Proof. unfold zlen, zdrop; intros; apply drop_ge; lia. Qed.

Lemma ztake_le0 n l : n <= 0 -> ztake n l = [].
Proof. intros; unfold ztake; replace (Z.to_nat n) with 0%nat by lia; done. Qed.

Lemma zdrop_le0 n l : n <= 0 -> zdrop n l = l.
Proof. intros; unfold zdrop; replace (Z.to_nat n) with 0%nat by lia; done. Qed.

Lemma ztake_zdrop n l : ztake n l ++ zdrop n l = l.
Proof. apply take_drop. Qed.

Lemma zdrop_zdrop a b l : 0 <= a -> 0 <= b -> zdrop a (zdrop b l) = zdrop (b + a) l.
Proof. intros; unfold zdrop; rewrite drop_drop; f_equal; lia. Qed.

Lemma ztake_ztake a b l : ztake a (ztake b l) = ztake (Z.min a b) l.
Proof. unfold ztake; rewrite take_take; f_equal; lia. Qed.

Lemma ztake_app_le n l m : n <= zlen l -> ztake n (l ++ m) = ztake n l.
Proof. unfold zlen, ztake; intros; apply take_app_le; lia. Qed.

Lemma ztake_app_ge n l m :
  zlen l <= n -> ztake n (l ++ m) = l ++ ztake (n - zlen l) m.
Proof.
  unfold zlen, ztake; intros; rewrite take_app_ge by lia; do 2 f_equal; lia.
Qed.

Lemma zdrop_app_le n l m : n <= zlen l -> zdrop n (l ++ m) = zdrop n l ++ m.
Proof. unfold zlen, zdrop; intros; apply drop_app_le; lia. Qed.

Lemma zdrop_app_ge n l m :
  zlen l <= n -> zdrop n (l ++ m) = zdrop (n - zlen l) m.
Proof. unfold zlen, zdrop; intros; rewrite drop_app_ge by lia; f_equal; lia. Qed.

Lemma ztake_zdrop_comm a b l :
  0 <= a -> 0 <= b -> ztake a (zdrop b l) = zdrop b (ztake (b + a) l).
Proof.
  intros; unfold ztake, zdrop; rewrite take_drop_commute; do 2 f_equal; lia.
Qed.

Lemma znth_nonneg l i : 0 <= i -> znth l i = l !! Z.to_nat i.
Proof. intros; unfold znth; destruct (Z.ltb_spec i 0); [lia|done]. Qed.

Lemma znth_Some_range l i x : znth l i = Some x -> 0 <= i < zlen l.
Proof.
  unfold znth, zlen; destruct (Z.ltb_spec i 0); [done|].
  intros ?%lookup_lt_Some; lia.
Qed.

Lemma znth_is_Some l i : 0 <= i < zlen l -> exists x, znth l i = Some x.
Proof.
  intros; rewrite znth_nonneg by lia. unfold zlen in *.
  destruct (l !! Z.to_nat i) eqn:E; [eauto|].
  apply lookup_ge_None in E; lia.
Qed.

Lemma znth_app_l l m i : i < zlen l -> znth (l ++ m) i = znth l i.
Proof.
  unfold znth, zlen; intros; destruct (Z.ltb_spec i 0); [done|].
  apply lookup_app_l; lia.
Qed.

Lemma znth_app_r l m i : zlen l <= i -> znth (l ++ m) i = znth m (i - zlen l).
Proof.
  unfold znth, zlen; intros.
  destruct (Z.ltb_spec i 0); [lia|].
  destruct (Z.ltb_spec (i - Z.of_nat (length l)) 0); [lia|].
  rewrite lookup_app_r by lia; f_equal; lia.
Qed.

Lemma znth_zdrop n l i : 0 <= n -> 0 <= i -> znth (zdrop n l) i = znth l (n + i).
Proof.
  intros; rewrite !znth_nonneg by lia; unfold zdrop; rewrite lookup_drop.
  f_equal; lia.
Qed.

Lemma zdrop_cons_znth n l x :
  0 <= n -> znth l n = Some x -> zdrop n l = x :: zdrop (n + 1) l.
Proof.
  intros ?; rewrite znth_nonneg by done; intros H'.
  unfold zdrop; rewrite (drop_S _ _ _ H'); do 2 f_equal; lia.
Qed.

Lemma znth_ztake n l i : 0 <= i < n -> znth (ztake n l) i = znth l i.
Proof.
  intros; rewrite !znth_nonneg by lia; unfold ztake.
  apply lookup_take_lt; lia.
Qed.

Lemma zlen_zwrite off d m :
  0 <= off -> off + zlen d <= zlen m -> zlen (zwrite off d m) = zlen m.
Proof.
  intros; unfold zwrite. pose proof (zlen_nonneg d).
  rewrite !zlen_app, zlen_ztake, zlen_zdrop; lia.
Qed.

Lemma Forall_ztake (P : A -> Prop) n l : Forall P l -> Forall P (ztake n l).
Proof. apply Forall_take. Qed.

Lemma Forall_zdrop (P : A -> Prop) n l : Forall P l -> Forall P (zdrop n l).
Proof. apply Forall_drop. Qed.

Lemma Forall_znth (P : A -> Prop) l i x : Forall P l -> znth l i = Some x -> P x.
Proof.
  intros HF; unfold znth; destruct (i <? 0); [done|].
  intros; by eapply Forall_lookup_1.
Qed.
End Lists.

#[export] Hint Rewrite @zlen_nil @zlen_cons @zlen_app @zlen_ztake @zlen_zdrop
  @zlen_zrep : zlist.
#[export] Hint Resolve zlen_nonneg Forall_ztake Forall_zdrop : zlist.

(** ** Automation *)

(** Turn boolean tests of the code, as hypotheses, into propositions. *)
Ltac zbool :=
  repeat match goal with
  | H : (_ && _)%bool = true |- _ => apply andb_prop in H; destruct H
  | H : (_ && _)%bool = false |- _ => apply andb_false_iff in H
  | H : (_ || _)%bool = true |- _ => apply orb_prop in H
  | H : (_ || _)%bool = false |- _ => apply orb_false_elim in H; destruct H
  | H : negb _ = true |- _ => apply negb_true_iff in H
  | H : negb _ = false |- _ => apply negb_false_iff in H
  | H : (_ =? _) = true |- _ => apply Z.eqb_eq in H
  | H : (_ =? _) = false |- _ => apply Z.eqb_neq in H
  | H : (_ <? _) = true |- _ => apply Z.ltb_lt in H
  | H : (_ <? _) = false |- _ => apply Z.ltb_ge in H
  | H : (_ <=? _) = true |- _ => apply Z.leb_le in H
  | H : (_ <=? _) = false |- _ => apply Z.leb_gt in H
  | H : (_ >? _) = true |- _ => rewrite Z.gtb_ltb in H; apply Z.ltb_lt in H
  | H : (_ >? _) = false |- _ => rewrite Z.gtb_ltb in H; apply Z.ltb_ge in H
  | H : (_ >=? _) = true |- _ => rewrite Z.geb_leb in H; apply Z.leb_le in H
  | H : (_ >=? _) = false |- _ => rewrite Z.geb_leb in H; apply Z.leb_gt in H
  | H : bool_decide _ = true |- _ => apply bool_decide_eq_true in H
  | H : bool_decide _ = false |- _ => apply bool_decide_eq_false in H
  end.

(** Every length in sight is non-negative. *)
Ltac zlens :=
  repeat match goal with
  | |- context [zlen ?l] =>
      lazymatch goal with _ : 0 <= zlen l |- _ => fail | _ => pose proof (zlen_nonneg l) end
  | _ : context [zlen ?l] |- _ =>
      lazymatch goal with _ : 0 <= zlen l |- _ => fail | _ => pose proof (zlen_nonneg l) end
  end.

Ltac zlia := zlens; autorewrite with zlist in *; zlens; lia.

(** ** Memory

    A block of memory is the list of its cells.  A read or a write that leaves
    the block is a fault, [None]. *)
Definition mem_read (off n : Z) (m : bytes) : option bytes :=
  if (0 <=? off) && (0 <=? n) && (off + n <=? zlen m)
  then Some (ztake n (zdrop off m)) else None.

Definition mem_write (off : Z) (d m : bytes) : option bytes :=
  if (0 <=? off) && (off + zlen d <=? zlen m)
  then Some (zwrite off d m) else None.

(** realloc keeps the common prefix; the new cells are indeterminate. *)
Definition mem_resize (n : Z) (m : bytes) : bytes :=
  ztake n m ++ zrep (n - zlen m) UNINIT.

Lemma mem_read_in off n m :
  0 <= off -> 0 <= n -> off + n <= zlen m ->
  mem_read off n m = Some (ztake n (zdrop off m)).
Proof.
  intros; unfold mem_read.
  destruct (Z.leb_spec 0 off), (Z.leb_spec 0 n), (Z.leb_spec (off + n) (zlen m));
    try lia; done.
Qed.

Lemma mem_write_in off d m :
  0 <= off -> off + zlen d <= zlen m -> mem_write off d m = Some (zwrite off d m).
Proof.
  intros; unfold mem_write.
  destruct (Z.leb_spec 0 off), (Z.leb_spec (off + zlen d) (zlen m)); try lia; done.
Qed.

Lemma zlen_mem_resize n m : 0 <= n -> zlen (mem_resize n m) = n.
Proof.
  intros; unfold mem_resize. pose proof (zlen_nonneg m).
  rewrite zlen_app, zlen_ztake, zlen_zrep; lia.
Qed.

(** The window [off, off+n) after a write: what was written when the windows
    coincide, the old contents when the write starts at or after its end. *)
Lemma window_zwrite_before off n k (d m : bytes) :
  0 <= off -> 0 <= n -> off + n <= k -> k <= zlen m ->
  ztake n (zdrop off (zwrite k d m)) = ztake n (zdrop off m).
Proof.
  intros; unfold zwrite.
  assert (Hk : zlen (ztake k m) = k) by (rewrite zlen_ztake; lia).
  rewrite zdrop_app_le by lia.
  rewrite ztake_app_le by (rewrite zlen_zdrop; lia).
  rewrite !ztake_zdrop_comm by lia. rewrite ztake_ztake. do 2 f_equal; lia.
Qed.

Lemma window_zwrite_extend off n (d m : bytes) :
  0 <= off -> 0 <= n -> off + n + zlen d <= zlen m ->
  ztake (n + zlen d) (zdrop off (zwrite (off + n) d m)) = ztake n (zdrop off m) ++ d.
Proof.
  intros; unfold zwrite. pose proof (zlen_nonneg d).
  assert (Hk : zlen (ztake (off + n) m) = off + n) by (rewrite zlen_ztake; lia).
  rewrite zdrop_app_le by lia.
  assert (Hn : zlen (zdrop off (ztake (off + n) m)) = n) by (rewrite zlen_zdrop; lia).
  rewrite ztake_app_ge by lia. rewrite Hn.
  replace (n + zlen d - n) with (zlen d) by lia.
  rewrite ztake_app_le by lia. rewrite (ztake_ge (zlen d) d) by lia.
  f_equal. by rewrite ztake_zdrop_comm by lia.
Qed.

Lemma window_resize off n k (m : bytes) :
  0 <= off -> 0 <= n -> off + n <= zlen m -> off + n <= k ->
  ztake n (zdrop off (mem_resize k m)) = ztake n (zdrop off m).
Proof.
  intros; unfold mem_resize.
  assert (Hk : zlen (ztake k m) = Z.min k (zlen m)) by (rewrite zlen_ztake; zlens; lia).
  rewrite zdrop_app_le by lia.
  rewrite ztake_app_le by (rewrite zlen_zdrop; lia).
  rewrite !ztake_zdrop_comm by lia. rewrite ztake_ztake. do 2 f_equal; lia.
Qed.

(** ** Wrap-around *)
Lemma u8_range x : 0 <= u8 x < 256.
Proof. apply Z.mod_pos_bound; lia. Qed.
Lemma u8_small x : 0 <= x < 256 -> u8 x = x.
Proof. intros; apply Z.mod_small; lia. Qed.
Lemma u16_small x : 0 <= x < 2 ^ 16 -> u16 x = x.
Proof. intros; apply Z.mod_small; lia. Qed.
Lemma u32_range x : 0 <= u32 x < 2 ^ 32.
Proof. apply Z.mod_pos_bound; lia. Qed.
Lemma u32_small x : 0 <= x < 2 ^ 32 -> u32 x = x.
Proof. intros; apply Z.mod_small; lia. Qed.
Lemma u64_range x : 0 <= u64 x < 2 ^ 64.
Proof. apply Z.mod_pos_bound; lia. Qed.
Lemma u64_small x : 0 <= x < 2 ^ 64 -> u64 x = x.
Proof. intros; apply Z.mod_small; lia. Qed.
#[export] Hint Resolve u8_range u32_range u64_range : zlist.

(** ** Ranges checked by computation

    A property of every octet (or of any bounded integer) is decided by
    running its boolean form over the range. *)
Fixpoint forallb_upto (n : nat) (f : Z -> bool) : bool :=
  match n with
  | O => true
  | S n => f (Z.of_nat n) && forallb_upto n f
  end.

Lemma forallb_upto_spec n f :
  forallb_upto n f = true -> forall z, 0 <= z < Z.of_nat n -> f z = true.
Proof.
  induction n as [|n IH]; [lia|]. cbn [forallb_upto]; intros [Hn Hr]%andb_prop z Hz.
  destruct (decide (z = Z.of_nat n)) as [->|]; [done|]. apply IH; [done|lia].
Qed.

Lemma byte_forallb f :
  forallb_upto 256 f = true -> forall b, is_byte b -> f b = true.
Proof. intros H b Hb; eapply forallb_upto_spec; [exact H|]; unfold is_byte in Hb; lia. Qed.

(** ** C strings of bounded length *)

(** [strncmp(a, b, n) == 0]: equal up to [n] bytes or a common terminator. *)
Fixpoint strncmp_eq (n : nat) (a b : bytes) : bool :=
  match n, a, b with
  | O, _, _ => true
  | S n, x :: a, y :: b => if x =? y then (x =? 0) || strncmp_eq n a b else false
  | _, _, _ => false
  end.

(** What [strncpy(dst, src, n)] writes to [dst]. *)
Fixpoint strncpy_bytes (n : nat) (src : bytes) : bytes :=
  match n, src with
  | O, _ => []
  | S n, x :: src => if x =? 0 then zrep (Z.of_nat (S n)) 0 else x :: strncpy_bytes n src
  | S n, [] => zrep (Z.of_nat (S n)) 0
  end.

(** ** Windows split and shifted *)
Lemma ztake_add {A} a b (l : list A) :
  0 <= a -> 0 <= b -> ztake (a + b) l = ztake a l ++ ztake b (zdrop a l).
Proof.
  intros; unfold ztake, zdrop. rewrite Z2Nat.inj_add by lia. symmetry; apply take_take_drop.
Qed.

Lemma zdrop_zwrite_after {A} off k (d m : list A) :
  0 <= k -> k + zlen d <= off -> k <= zlen m -> zdrop off (zwrite k d m) = zdrop off m.
Proof.
  intros; unfold zwrite. pose proof (zlen_nonneg d).
  assert (Hk : zlen (ztake k m) = k) by (rewrite zlen_ztake; lia).
  rewrite zdrop_app_ge by lia. rewrite zdrop_app_ge by lia.
  rewrite zdrop_zdrop by lia. f_equal; lia.
Qed.

Lemma window_zwrite_at off (d m : bytes) :
  0 <= off -> off + zlen d <= zlen m -> ztake (zlen d) (zdrop off (zwrite off d m)) = d.
Proof.
  intros. pose proof (window_zwrite_extend off 0 d m) as Hw.
  rewrite Z.add_0_r, Z.add_0_l in Hw. rewrite Hw by lia. by rewrite ztake_le0.
Qed.

(** Opening a gap of [zlen d] cells at [off + o] inside the window
    [off, off + n) and filling it with [d]: memmove then memcpy. *)
Lemma window_insert off n o (d m : bytes) :
  0 <= off -> 0 <= o <= n -> off + n + zlen d <= zlen m ->
  ztake (n + zlen d) (zdrop off
    (zwrite (off + o) d
      (zwrite (off + o + zlen d) (ztake (n - o) (zdrop (off + o) m)) m)))
  = ztake o (zdrop off m) ++ d ++ ztake (n - o) (zdrop (off + o) m).
Proof.
  intros. pose proof (zlen_nonneg d).
  set (t := ztake (n - o) (zdrop (off + o) m)).
  assert (Ht : zlen t = n - o) by (unfold t; rewrite zlen_ztake, zlen_zdrop; lia).
  set (m1 := zwrite (off + o + zlen d) t m).
  assert (Hm1 : zlen m1 = zlen m) by (unfold m1; rewrite zlen_zwrite; lia).
  replace (n + zlen d) with ((o + zlen d) + (n - o)) by lia.
  rewrite ztake_add, window_zwrite_extend by lia.
  rewrite zdrop_zdrop, zdrop_zwrite_after by lia.
  rewrite <- app_assoc. f_equal; [|f_equal].
  - unfold m1. rewrite window_zwrite_before; lia || done.
  - unfold m1. replace (off + (o + zlen d)) with (off + o + zlen d) by lia.
    rewrite <- Ht. apply window_zwrite_at; lia.
Qed.

(** Closing the gap [off + o, off + o + k) of the window [off, off + n). *)
Lemma window_discard off n o k (m : bytes) :
  0 <= off -> 0 <= o -> 0 <= k -> o + k <= n -> off + n <= zlen m ->
  ztake (n - k) (zdrop off
    (zwrite (off + o) (ztake (n - (k + o)) (zdrop (off + o + k) m)) m))
  = ztake o (zdrop off m) ++ ztake (n - (k + o)) (zdrop (off + o + k) m).
Proof.
  intros. set (t := ztake (n - (k + o)) (zdrop (off + o + k) m)).
  assert (Ht : zlen t = n - (k + o)) by (unfold t; rewrite zlen_ztake, zlen_zdrop; lia).
  replace (n - k) with (o + zlen t) by lia.
  apply window_zwrite_extend; lia.
Qed.

(** ** Bit operations *)
Lemma land_ones_mod x n : 0 <= n -> Z.land x (2 ^ n - 1) = x mod 2 ^ n.
Proof.
  intros; rewrite <- Z.land_ones by done; f_equal.
  rewrite Z.ones_equiv; lia.
Qed.

(** Disjoint bit fields: or-ing a multiple of [2^n] with a smaller number adds. *)
Lemma lor_add_disjoint a b n :
  0 <= n -> 0 <= b < 2 ^ n -> a mod 2 ^ n = 0 -> Z.lor a b = a + b.
Proof.
  intros Hn Hb Ha.
  rewrite <- Z.lxor_lor, <- Z.add_nocarry_lxor; try done;
    apply Z.bits_inj'; intros i Hi; rewrite Z.land_spec, Z.bits_0;
    destruct (Z.ltb_spec i n) as [Hin|Hin].
  1,3: replace (Z.testbit a i) with false; [done|];
    symmetry; rewrite <- (Z.mod_pow2_bits_low a n i) by lia; rewrite Ha; apply Z.bits_0.
  all: replace (Z.testbit b i) with false; [apply andb_false_r|]; symmetry;
    rewrite <- (Z.mod_small b (2 ^ n)) by done; apply Z.mod_pow2_bits_high; lia.
Qed.
