(* ===== verification/Errors.v ===== *)
(** * Errors: the result codes of libparserutils and libhubbub.

    [parserutils_error] is the enumeration of
    libparserutils/include/parserutils/errors.h, [hubbub_error] that of
    libhubbub/include/hubbub/errors.h, and
    [hubbub_error_from_parserutils_error] the conversion of
    libhubbub/src/utils/parserutilserror.h. *)
From S2P Require Import Prelude.

Inductive parserutils_error :=
  | PARSERUTILS_OK
  | PARSERUTILS_NOMEM
  | PARSERUTILS_BADPARM
  | PARSERUTILS_INVALID
  | PARSERUTILS_FILENOTFOUND
  | PARSERUTILS_NEEDDATA
  | PARSERUTILS_BADENCODING
  | PARSERUTILS_EOF.

#[export] Instance parserutils_error_eq_dec : EqDecision parserutils_error.
Proof. solve_decision. Defined.

Inductive hubbub_error :=
  | HUBBUB_OK
  | HUBBUB_REPROCESS
  | HUBBUB_ENCODINGCHANGE
  | HUBBUB_PAUSED
  | HUBBUB_NOMEM
  | HUBBUB_BADPARM
  | HUBBUB_INVALID
  | HUBBUB_FILENOTFOUND
  | HUBBUB_NEEDDATA
  | HUBBUB_BADENCODING
  | HUBBUB_UNKNOWN.

#[export] Instance hubbub_error_eq_dec : EqDecision hubbub_error.
Proof. solve_decision. Defined.

Definition hubbub_error_from_parserutils_error (error : parserutils_error) : hubbub_error :=
  match error with
  | PARSERUTILS_OK => HUBBUB_OK
  | PARSERUTILS_NOMEM => HUBBUB_NOMEM
  | PARSERUTILS_BADPARM => HUBBUB_BADPARM
  | PARSERUTILS_INVALID => HUBBUB_INVALID
  | PARSERUTILS_FILENOTFOUND => HUBBUB_FILENOTFOUND
  | PARSERUTILS_NEEDDATA => HUBBUB_NEEDDATA
  | PARSERUTILS_BADENCODING => HUBBUB_BADENCODING
  | PARSERUTILS_EOF => HUBBUB_OK
  end.

(** Only success and the end of input become [HUBBUB_OK]. *)
Lemma hubbub_error_ok_inv e :
  hubbub_error_from_parserutils_error e = HUBBUB_OK ->
  e = PARSERUTILS_OK \/ e = PARSERUTILS_EOF.
Proof. destruct e; naive_solver. Qed.
