(* ===== verification/Utf8.v ===== *)
(** * Utf8: the UTF-8 primitives of libparserutils
    (src/charset/encodings/utf8impl.h, wrapped by utf8.c).

    A bounded input [s, len] is the list of its [len] octets; an output buffer
    is described by the space that is left in it, and the octets written are
    returned.  Object pointers are non-null: the guards that answer
    PARSERUTILS_BADPARM to a null argument have no counterpart here, except
    where the guard tests an offset. *)
From S2P Require Import Prelude Errors.

(** Number of continuation bytes for a given start byte. *)
Definition numContinuations : list Z :=
  zrep 192 0 ++ zrep 32 1 ++ zrep 16 2 ++ zrep 8 3 ++ zrep 4 4 ++ zrep 4 5.

Definition num_continuations (c : Z) : Z := default 0 (znth numContinuations c).

(** The start byte: its payload bits, the length of the sequence and the least
    code point that needs that length. *)
Definition utf8_start (c : Z) : option (Z * Z * Z) :=
  if c <? 0x80 then Some (c, 1, 0)
  else if Z.land c 0xE0 =? 0xC0 then Some (Z.land c 0x1F, 2, 0x80)
  else if Z.land c 0xF0 =? 0xE0 then Some (Z.land c 0x0F, 3, 0x800)
  else if Z.land c 0xF8 =? 0xF0 then Some (Z.land c 0x07, 4, 0x10000)
  else if Z.land c 0xFC =? 0xF8 then Some (Z.land c 0x03, 5, 0x200000)
  else if Z.land c 0xFE =? 0xFC then Some (Z.land c 0x01, 6, 0x4000000)
  else None.

(** The loop over the continuation bytes. *)
Fixpoint utf8_continue (c : Z) (ts : bytes) : option Z :=
  match ts with
  | [] => Some c
  | t :: ts =>
      if negb (Z.land t 0xC0 =? 0x80) then None
      else utf8_continue (Z.lor (u32 (Z.shiftl c 6)) (Z.land t 0x3F)) ts
  end.

(** UTF8_TO_UCS4 *)
Definition utf8_to_ucs4 (s : bytes) : parserutils_error * option (Z * Z) :=
  match s with
  | [] => (PARSERUTILS_NEEDDATA, None)
  | c :: ts =>
      match utf8_start c with
      | None => (PARSERUTILS_INVALID, None)
      | Some (c, n, min) =>
          if zlen s <? n then (PARSERUTILS_NEEDDATA, None) else
          match utf8_continue c (ztake (n - 1) ts) with
          | None => (PARSERUTILS_INVALID, None)
          | Some c =>
              if (c <? min) || ((0xD800 <=? c) && (c <=? 0xDFFF)) ||
                 (c =? 0xFFFE) || (c =? 0xFFFF)
              then (PARSERUTILS_INVALID, None)
              else (PARSERUTILS_OK, Some (c, n))
          end
      end
  end.

(** Length of the encoding of a code point, [None] above 0x7FFFFFFF. *)
Definition utf8_encoded_length (ucs4 : Z) : option Z :=
  if ucs4 <? 0x80 then Some 1
  else if ucs4 <? 0x800 then Some 2
  else if ucs4 <? 0x10000 then Some 3
  else if ucs4 <? 0x200000 then Some 4
  else if ucs4 <? 0x4000000 then Some 5
  else if ucs4 <=? 0x7FFFFFFF then Some 6
  else None.

(** The loop that fills buf[k], ..., buf[1] from the low bits up; it returns
    what is left of the code point and the octets buf[1..]. *)
Fixpoint utf8_fill (k : nat) (ucs4 : Z) (acc : bytes) : Z * bytes :=
  match k with
  | O => (ucs4, acc)
  | S k => utf8_fill k (Z.shiftr ucs4 6) (Z.lor 0x80 (Z.land ucs4 0x3F) :: acc)
  end.

(** UTF8_FROM_UCS4; [len] is the space left. *)
Definition utf8_from_ucs4 (ucs4 len : Z) : parserutils_error * bytes :=
  match utf8_encoded_length ucs4 with
  | None => (PARSERUTILS_INVALID, [])
  | Some l =>
      if len <? l then (PARSERUTILS_NOMEM, []) else
      if l =? 1 then (PARSERUTILS_OK, [u8 ucs4]) else
      let '(rest, conts) := utf8_fill (Z.to_nat (l - 1)) ucs4 [] in
      (PARSERUTILS_OK,
       u8 (Z.lor (Z.lnot (Z.shiftl 1 (8 - l) - 1)) rest) :: conts)
  end.

(** UTF8_LENGTH: skips over each sequence by its start byte alone, so the last
    step may overshoot the end. *)
Fixpoint utf8_length_loop (fuel : nat) (s : bytes) (l : Z) : parserutils_error * Z :=
  match fuel, s with
  | _, [] => (PARSERUTILS_OK, l)
  | O, _ => (PARSERUTILS_NOMEM, l)
  | S fuel, c :: _ =>
      if Z.land c 0x80 =? 0x00 then utf8_length_loop fuel (zdrop 1 s) (l + 1)
      else if Z.land c 0xE0 =? 0xC0 then utf8_length_loop fuel (zdrop 2 s) (l + 1)
      else if Z.land c 0xF0 =? 0xE0 then utf8_length_loop fuel (zdrop 3 s) (l + 1)
      else if Z.land c 0xF8 =? 0xF0 then utf8_length_loop fuel (zdrop 4 s) (l + 1)
      else if Z.land c 0xFC =? 0xF8 then utf8_length_loop fuel (zdrop 5 s) (l + 1)
      else if Z.land c 0xFE =? 0xFC then utf8_length_loop fuel (zdrop 6 s) (l + 1)
      else (PARSERUTILS_INVALID, l)
  end.

Definition utf8_length (s : bytes) : parserutils_error * option Z :=
  match utf8_length_loop (List.length s) s 0 with
  | (PARSERUTILS_OK, l) => (PARSERUTILS_OK, Some l)
  | (error, _) => (error, None)
  end.

(** UTF8_CHAR_BYTE_LENGTH *)
Definition utf8_char_byte_length (s : bytes) : option (parserutils_error * Z) :=
  match s with
  | [] => None
  | c :: _ => Some (PARSERUTILS_OK, num_continuations c + 1)
  end.

Definition is_continuation (c : Z) : bool := Z.land c 0xC0 =? 0x80.

(** UTF8_PREV: back over continuation bytes; [n] is the offset. *)
Fixpoint utf8_prev_loop (s : bytes) (n : nat) : option nat :=
  match n with
  | O => Some O
  | S n =>
      match s !! n with
      | None => None
      | Some c => if is_continuation c then utf8_prev_loop s n else Some n
      end
  end.

Definition utf8_prev (s : bytes) (off : Z) : option (parserutils_error * Z) :=
  n ← utf8_prev_loop s (Z.to_nat off);
  Some (PARSERUTILS_OK, Z.of_nat n).

(** The number of continuation bytes at the front of a string: how far the
    [while] of UTF8_NEXT moves. *)
Fixpoint skip_continuations (s : bytes) : Z :=
  match s with
  | c :: s => if is_continuation c then 1 + skip_continuations s else 0
  | [] => 0
  end.

(** UTF8_NEXT *)
Definition utf8_next (s : bytes) (off : Z) : parserutils_error * option Z :=
  if zlen s <=? off then (PARSERUTILS_BADPARM, None) else
  let c := default 0 (znth s off) in
  let off := if (c <? 0x80) || (Z.land c 0xC0 =? 0xC0) then off + 1 else off in
  (PARSERUTILS_OK, Some (off + skip_continuations (zdrop off s))).

(** UTF8_NEXT_PARANOID: the loop verifying the continuation bytes stops after
    [nCont] of them or at the first byte that is none. *)
Fixpoint skip_at_most (k : nat) (s : bytes) : Z :=
  match k, s with
  | S k, c :: s => if is_continuation c then 1 + skip_at_most k s else 0
  | _, _ => 0
  end.

Definition utf8_next_paranoid (s : bytes) (off : Z) : parserutils_error * option Z :=
  if zlen s <=? off then (PARSERUTILS_BADPARM, None) else
  let c := default 0 (znth s off) in
  if negb ((c <? 0x80) || (Z.land c 0xC0 =? 0xC0))
  then (PARSERUTILS_OK, Some (u32 (off + 1)))
  else
    let nCont := num_continuations c in
    if zlen s <=? u32 (off + nCont + 1) then (PARSERUTILS_NEEDDATA, None)
    else
      let nToSkip := 1 + skip_at_most (Z.to_nat nCont) (zdrop (off + 1) s) in
      (PARSERUTILS_OK, Some (u32 (off + nToSkip))).

(** ** The code points the codec round-trips *)

Definition ucs4_valid (c : Z) : bool :=
  (0 <=? c) && (c <=? 0x7FFFFFFF) &&
  negb ((0xD800 <=? c) && (c <=? 0xDFFF)) && negb (c =? 0xFFFE) && negb (c =? 0xFFFF).

(** What a text of complete sequences looks like to code that trusts start
    bytes: from every offset, the sequence its byte announces lies inside. *)
Definition char_len (c : Z) : Z := num_continuations c + 1.

Definition closed_text (s : bytes) : Prop :=
  forall i c, znth s i = Some c -> i + char_len c <= zlen s.

(** Octets that can occur in UTF-8: the tokeniser asserts that 0xff does not. *)
Definition text_byte (c : Z) : Prop := 0 <= c < 255.

Definition utf8_text (s : bytes) : Prop := closed_text s /\ Forall text_byte s.

(** ** Bit facts about octets, by computation *)

Definition cont_byte (r : Z) : Z := 128 + r.

Lemma continuation_bits t :
  is_byte t -> is_continuation t = true ->
  128 <= t < 192 /\ Z.land t 0x3F = t - 128.
Proof.
  intros Hb Hc.
  pose proof (byte_forallb (fun t => implb (is_continuation t)
    ((128 <=? t) && (t <? 192) && (Z.land t 0x3F =? t - 128))) eq_refl t Hb) as H.
  cbv beta in H; rewrite Hc in H; cbn [implb] in H. zbool. lia.
Qed.

Lemma is_continuation_range t : 128 <= t < 192 -> is_continuation t = true.
Proof.
  intros Ht.
  pose proof (byte_forallb (fun t => implb ((128 <=? t) && (t <? 192))
    (is_continuation t)) eq_refl t ltac:(unfold is_byte; lia)) as H.
  cbv beta in H; destruct (Z.leb_spec 128 t), (Z.ltb_spec t 192); try lia. exact H.
Qed.

Lemma fill_byte u : 0 <= u -> Z.lor 0x80 (Z.land u 0x3F) = cont_byte (u mod 64).
Proof.
  intros. change 0x3F with (Z.ones 6). rewrite Z.land_ones by lia.
  change (2 ^ 6) with 64. unfold cont_byte.
  apply (lor_add_disjoint _ _ 6); [lia|apply Z.mod_pos_bound; lia|reflexivity].
Qed.

(** The continuation bytes of the low [6 * k] bits of [u]. *)
Fixpoint conts (k : nat) (u : Z) : bytes :=
  match k with
  | O => []
  | S k => conts k (u / 64) ++ [cont_byte (u mod 64)]
  end.

Lemma zlen_conts k u : zlen (conts k u) = Z.of_nat k.
Proof.
  revert u; induction k as [|k IH]; intros; cbn [conts]; [done|].
  rewrite zlen_app, IH. change (zlen [_]) with 1. lia.
Qed.

Lemma pow64_succ k : 64 ^ Z.of_nat (S k) = 64 * 64 ^ Z.of_nat k.
Proof. rewrite Nat2Z.inj_succ, Z.pow_succ_r by lia; lia. Qed.

Lemma utf8_fill_spec k u acc :
  0 <= u -> utf8_fill k u acc = (u / 64 ^ Z.of_nat k, conts k u ++ acc).
Proof.
  revert u acc; induction k as [|k IH]; intros u acc Hu; cbn [utf8_fill conts].
  { by rewrite Z.div_1_r. }
  rewrite Z.shiftr_div_pow2 by lia. change (2 ^ 6) with 64.
  rewrite IH by (apply Z.div_pos; lia). rewrite fill_byte, <- app_assoc by lia.
  f_equal. rewrite Z.div_div, pow64_succ by lia. done.
Qed.

Lemma utf8_continue_app c s1 s2 :
  utf8_continue c (s1 ++ s2) = (c ← utf8_continue c s1; utf8_continue c s2).
Proof.
  revert c; induction s1 as [|t s1 IH]; intros; [done|].
  cbn [utf8_continue app]. destruct (negb _); [done|apply IH].
Qed.

Lemma continue_step c r :
  0 <= c < 2 ^ 26 -> 0 <= r < 64 ->
  Z.lor (u32 (Z.shiftl c 6)) (Z.land (cont_byte r) 0x3F) = c * 64 + r.
Proof.
  intros Hc Hr. rewrite Z.shiftl_mul_pow2 by lia. change (2 ^ 6) with 64.
  rewrite u32_small by lia.
  destruct (continuation_bits (cont_byte r)) as [_ ->].
  { unfold is_byte, cont_byte; lia. }
  { apply is_continuation_range; unfold cont_byte; lia. }
  rewrite (lor_add_disjoint _ _ 6); unfold cont_byte; try lia.
  change (2 ^ 6) with 64. apply Z.mod_mul; lia.
Qed.

Lemma utf8_continue_conts k c u :
  0 <= c -> 0 <= u -> (c + 1) * 64 ^ Z.of_nat k <= 2 ^ 31 ->
  utf8_continue c (conts k u) = Some (c * 64 ^ Z.of_nat k + u mod 64 ^ Z.of_nat k).
Proof.
  revert c u; induction k as [|k IH]; intros c u Hc Hu Hb; cbn [conts].
  { cbn [utf8_continue]. rewrite Z.mod_1_r. do 2 f_equal; cbn; lia. }
  rewrite pow64_succ in *.
  assert (0 < 64 ^ Z.of_nat k) by (apply Z.pow_pos_nonneg; lia).
  rewrite utf8_continue_app, IH by (try apply Z.div_pos; lia).
  cbn [mbind option_bind utf8_continue].
  pose proof (Z.mod_pos_bound u 64 eq_refl).
  pose proof (Z.mod_pos_bound (u / 64) (64 ^ Z.of_nat k) ltac:(lia)).
  set (v := c * 64 ^ Z.of_nat k + (u / 64) mod 64 ^ Z.of_nat k) in *.
  change (Z.land (cont_byte (u mod 64)) 0xC0 =? 0x80) with (is_continuation (cont_byte (u mod 64))).
  rewrite is_continuation_range by (unfold cont_byte; lia). cbn [negb].
  assert (0 <= v < 2 ^ 26) by (unfold v; nia).
  rewrite continue_step by lia. unfold v. f_equal.
  rewrite Z.rem_mul_r by lia. lia.
Qed.

Lemma utf8_continue_inv ts c0 c :
  wf_bytes ts -> 0 <= c0 -> (c0 + 1) * 64 ^ zlen ts <= 2 ^ 31 ->
  utf8_continue c0 ts = Some c ->
  ts = conts (List.length ts) c /\ c / 64 ^ zlen ts = c0 /\ 0 <= c.
Proof.
  revert c; induction ts as [|t ts IH] using rev_ind; intros c Hw Hc0 Hb.
  { cbn. intros [= <-]. rewrite Z.div_1_r. done. }
  apply Forall_app in Hw as [Hw Ht]; inversion Ht as [|? ? Hbt _]; subst.
  rewrite zlen_app in *. change (zlen [t]) with 1 in *.
  unfold zlen in *.
  replace (Z.of_nat (List.length ts) + 1) with (Z.of_nat (S (List.length ts))) in * by lia.
  rewrite pow64_succ in *.
  assert (0 < 64 ^ Z.of_nat (List.length ts)) by (apply Z.pow_pos_nonneg; lia).
  rewrite utf8_continue_app.
  destruct (utf8_continue c0 ts) as [v|] eqn:E; [|done]. cbn [mbind option_bind utf8_continue].
  destruct (IH v Hw Hc0 ltac:(lia) eq_refl) as (Hts & Hdiv & Hv).
  change (Z.land t 0xC0 =? 0x80) with (is_continuation t).
  destruct (is_continuation t) eqn:Hct; [|done]. cbn [negb]. intros [= <-].
  destruct (continuation_bits t Hbt Hct) as [Hr Hland].
  assert (v < 2 ^ 26).
  { pose proof (Z.mod_pos_bound v (64 ^ Z.of_nat (List.length ts)) ltac:(lia)).
    pose proof (Z.div_mod v (64 ^ Z.of_nat (List.length ts)) ltac:(lia)). nia. }
  replace t with (cont_byte (t - 128)) by (unfold cont_byte; lia).
  rewrite continue_step by lia.
  assert (Hq : (v * 64 + (t - 128)) / 64 = v) by (symmetry; apply (Z.div_unique _ _ _ (t - 128)); lia).
  assert (Hm : (v * 64 + (t - 128)) mod 64 = t - 128) by (symmetry; apply (Z.mod_unique _ _ v); lia).
  split; [|split; [|lia]].
  - rewrite length_app, Nat.add_1_r. cbn [conts]. rewrite Hq, Hm, <- Hts. done.
  - rewrite <- Z.div_div by lia. by rewrite Hq.
Qed.

(** ** Start bytes *)

Definition start_byte (l rest : Z) : Z := u8 (Z.lor (Z.lnot (Z.shiftl 1 (8 - l) - 1)) rest).

Definition utf8_min (l : Z) : Z :=
  match l with 2 => 0x80 | 3 => 0x800 | 4 => 0x10000 | 5 => 0x200000 | _ => 0x4000000 end.

Ltac multi_lengths l :=
  let H := fresh in
  assert (H : l = 2 \/ l = 3 \/ l = 4 \/ l = 5 \/ l = 6) by lia;
  destruct H as [->|[->|[->|[->| ->]]]].

Lemma start_byte_start l r :
  2 <= l <= 6 -> 0 <= r < 2 ^ (7 - l) ->
  utf8_start (start_byte l r) = Some (r, l, utf8_min l).
Proof.
  intros Hl Hr.
  assert (H : forallb_upto (Z.to_nat (2 ^ (7 - l))) (fun r =>
    bool_decide (utf8_start (start_byte l r) = Some (r, l, utf8_min l))) = true)
    by (multi_lengths l; vm_compute; reflexivity).
  eapply forallb_upto_spec in H; [|rewrite Z2Nat.id by (apply Z.pow_nonneg; lia); exact Hr].
  by apply bool_decide_eq_true in H.
Qed.

Lemma start_byte_inv b c n m :
  is_byte b -> utf8_start b = Some (c, n, m) ->
  n = 1 /\ c = b /\ 0 <= b < 128 /\ m = 0 \/
  2 <= n <= 6 /\ 0 <= c < 2 ^ (7 - n) /\ b = start_byte n c /\ m = utf8_min n.
Proof.
  intros Hb Hs.
  pose proof (byte_forallb (fun b => match utf8_start b with
    | None => true
    | Some (c, n, m) =>
        (n =? 1) && (c =? b) && (b <? 128) && (m =? 0) ||
        (2 <=? n) && (n <=? 6) && (0 <=? c) && (c <? 2 ^ (7 - n)) &&
        (b =? start_byte n c) && (m =? utf8_min n)
    end) eq_refl b Hb) as H.
  cbv beta in H; rewrite Hs in H. unfold is_byte in Hb.
  apply orb_prop in H as [H|H]; zbool; [left|right]; intuition lia.
Qed.

Lemma start_byte_conts l r :
  2 <= l <= 6 -> 0 <= r < 2 ^ (7 - l) -> num_continuations (start_byte l r) = l - 1.
Proof.
  intros Hl Hr.
  assert (H : forallb_upto (Z.to_nat (2 ^ (7 - l))) (fun r =>
    num_continuations (start_byte l r) =? l - 1) = true)
    by (multi_lengths l; vm_compute; reflexivity).
  eapply forallb_upto_spec in H; [|rewrite Z2Nat.id by (apply Z.pow_nonneg; lia); exact Hr].
  by apply Z.eqb_eq in H.
Qed.

Lemma char_len_range c : 1 <= char_len c <= 6.
Proof.
  unfold char_len, num_continuations.
  destruct (znth numContinuations c) as [x|] eqn:E; cbn [default from_option id]; [|lia].
  assert (H : Forall (fun x => 0 <= x <= 5) numContinuations)
    by (apply (bool_decide_unpack _); vm_compute; exact I).
  pose proof (Forall_znth _ _ _ _ H E); cbv beta in *; lia.
Qed.

Lemma char_len_ascii c : 0 <= c < 128 -> char_len c = 1.
Proof.
  intros; pose proof (forallb_upto_spec 128 (fun c => char_len c =? 1) eq_refl c) as H'.
  apply Z.eqb_eq, H'; lia.
Qed.

(** The length class of a code point and its bounds. *)
Lemma encoded_length_inv u l :
  0 <= u -> utf8_encoded_length u = Some l ->
  l = 1 /\ u < 128 \/ 2 <= l <= 6 /\ utf8_min l <= u < 2 ^ (7 - l) * 64 ^ (l - 1).
Proof.
  intros Hu; unfold utf8_encoded_length; repeat case_match; intros [= <-]; zbool;
    cbn -[Z.lt Z.le]; lia.
Qed.

Lemma encoded_length_multi u l :
  2 <= l <= 6 -> utf8_min l <= u < 2 ^ (7 - l) * 64 ^ (l - 1) ->
  utf8_encoded_length u = Some l.
Proof.
  intros Hl Hu; multi_lengths l; cbn -[Z.lt Z.le] in Hu; unfold utf8_encoded_length;
    repeat case_match; zbool; lia || done.
Qed.

(** The encoder's output in closed form. *)
Lemma from_ucs4_multi u l len :
  2 <= l <= 6 -> l <= len -> utf8_min l <= u < 2 ^ (7 - l) * 64 ^ (l - 1) ->
  utf8_from_ucs4 u len =
    (PARSERUTILS_OK, start_byte l (u / 64 ^ (l - 1)) :: conts (Z.to_nat (l - 1)) u).
Proof.
  intros Hl Hlen Hu. assert (0 <= u) by (multi_lengths l; cbn -[Z.le Z.lt] in *; lia).
  unfold utf8_from_ucs4. rewrite (encoded_length_multi u l) by done.
  destruct (Z.ltb_spec len l); [lia|]. destruct (Z.eqb_spec l 1); [lia|].
  rewrite utf8_fill_spec, app_nil_r, Z2Nat.id by lia. done.
Qed.

Lemma payload_range u l :
  2 <= l <= 6 -> 0 <= u < 2 ^ (7 - l) * 64 ^ (l - 1) ->
  0 <= u / 64 ^ (l - 1) < 2 ^ (7 - l) /\
  (u / 64 ^ (l - 1) + 1) * 64 ^ (l - 1) <= 2 ^ 31.
Proof.
  intros Hl Hu. assert (Hp : 0 < 64 ^ (l - 1)) by (apply Z.pow_pos_nonneg; lia).
  assert (Hq : 0 <= u / 64 ^ (l - 1) < 2 ^ (7 - l)).
  { split; [apply Z.div_pos; lia|apply Z.div_lt_upper_bound; lia]. }
  split; [done|].
  assert (Hm : 2 ^ (7 - l) * 64 ^ (l - 1) <= 2 ^ 31) by (multi_lengths l; vm_compute; done).
  nia.
Qed.

Lemma ucs4_valid_inv u :
  ucs4_valid u = true ->
  0 <= u <= 0x7FFFFFFF /\ ~ (0xD800 <= u <= 0xDFFF) /\ u <> 0xFFFE /\ u <> 0xFFFF.
Proof.
  unfold ucs4_valid; intros H; zbool.
  split_and!; lia.
Qed.

Lemma ucs4_reject_false u m :
  ucs4_valid u = true -> m <= u ->
  (u <? m) || ((0xD800 <=? u) && (u <=? 0xDFFF)) || (u =? 0xFFFE) || (u =? 0xFFFF) = false.
Proof.
  intros Hv Hm; apply ucs4_valid_inv in Hv.
  destruct (Z.ltb_spec u m), (Z.leb_spec 0xD800 u), (Z.leb_spec u 0xDFFF),
    (Z.eqb_spec u 0xFFFE), (Z.eqb_spec u 0xFFFF); lia || done.
Qed.

(** ** The properties of the codec *)

(** C36: decoding inverts encoding, whatever follows the encoded character. *)
Theorem utf8_roundtrip (u len : Z) (rest : bytes) :
  ucs4_valid u = true -> 6 <= len ->
  exists bs, utf8_from_ucs4 u len = (PARSERUTILS_OK, bs) /\ utf8_to_ucs4 (bs ++ rest) = (PARSERUTILS_OK, Some (u, zlen bs)).
Proof.
  intros Hv Hlen. pose proof (ucs4_valid_inv u Hv) as Hu.
  destruct (utf8_encoded_length u) as [l|] eqn:El.
  2:{ exfalso; revert El; unfold utf8_encoded_length; repeat case_match; zbool; lia || done. }
  destruct (encoded_length_inv u l ltac:(lia) El) as [[-> Hs]|[Hl Hb]].
  - exists [u]. split.
    + unfold utf8_from_ucs4. rewrite El. destruct (Z.ltb_spec len 1); [lia|]. cbn.
      by rewrite u8_small by lia.
    + cbn [app utf8_to_ucs4]. unfold utf8_start. destruct (Z.ltb_spec u 0x80); [|lia].
      destruct (Z.ltb_spec (zlen (u :: rest)) 1); [rewrite zlen_cons in *; zlens; lia|].
      change (ztake (1 - 1) rest) with (@nil Z). cbn [utf8_continue].
      by rewrite ucs4_reject_false by (done || lia).
  - exists (start_byte l (u / 64 ^ (l - 1)) :: conts (Z.to_nat (l - 1)) u).
    split; [apply from_ucs4_multi; lia|].
    destruct (payload_range u l Hl ltac:(lia)) as [Hr Hr2].
    assert (Hc : zlen (conts (Z.to_nat (l - 1)) u) = l - 1) by (rewrite zlen_conts; lia).
    cbn [app utf8_to_ucs4]. rewrite start_byte_start by done.
    rewrite !zlen_cons, zlen_app, Hc.
    destruct (Z.ltb_spec (1 + (l - 1 + zlen rest)) l); [zlens; lia|].
    rewrite ztake_app_le, (ztake_ge (l - 1)) by lia.
    pose proof (Z2Nat.id (l - 1) ltac:(lia)) as Hid.
    rewrite utf8_continue_conts by (rewrite ?Hid; lia). rewrite Hid.
    pose proof (Z.div_mod u (64 ^ (l - 1)) ltac:(lia)) as Hdm.
    replace (u / 64 ^ (l - 1) * 64 ^ (l - 1) + u mod 64 ^ (l - 1)) with u by lia.
    rewrite ucs4_reject_false by (done || lia). do 4 f_equal. lia.
Qed.

(** C37: whatever the decoder accepts is the shortest encoding of a valid code
    point, so overlong forms, surrogates and U+FFFE/U+FFFF never get through. *)
Theorem utf8_decode_canonical (s : bytes) (u n : Z) :
  wf_bytes s -> utf8_to_ucs4 s = (PARSERUTILS_OK, Some (u, n)) ->
  ucs4_valid u = true /\ utf8_from_ucs4 u n = (PARSERUTILS_OK, ztake n s) /\ n <= zlen s.
Proof.
  intros Hw. destruct s as [|b ts]; [done|]. inversion Hw as [|? ? Hb Hts]; subst.
  cbn [utf8_to_ucs4]. destruct (utf8_start b) as [[[c k] m]|] eqn:Es; [|done].
  destruct (Z.ltb_spec (zlen (b :: ts)) k) as [|Hk]; [done|].
  destruct (utf8_continue c (ztake (k - 1) ts)) as [v|] eqn:Ec; [|done].
  destruct (_ || _) eqn:Ej; [done|]. intros [= -> ->]. rewrite zlen_cons in Hk.
  destruct (start_byte_inv b c n m Hb Es) as [(-> & -> & Hr & ->)|(Hn & Hc & -> & ->)].
  - change (ztake (1 - 1) ts) with (@nil Z) in Ec. injection Ec as ->.
    split; [|split].
    + unfold ucs4_valid. zbool.
      destruct (Z.leb_spec 0 u), (Z.leb_spec u 0x7FFFFFFF), (Z.leb_spec 0xD800 u),
        (Z.leb_spec u 0xDFFF), (Z.eqb_spec u 0xFFFE), (Z.eqb_spec u 0xFFFF); lia || done.
    + unfold utf8_from_ucs4, utf8_encoded_length.
      destruct (Z.ltb_spec u 0x80); [|lia]. cbn. by rewrite u8_small by lia.
    + rewrite zlen_cons; zlens; lia.
  - set (cs := ztake (n - 1) ts) in *.
    assert (Hcs : zlen cs = n - 1) by (unfold cs; rewrite zlen_ztake; zlens; lia).
    assert (Hp : 0 < 64 ^ (n - 1)) by (apply Z.pow_pos_nonneg; lia).
    assert (Hm : 2 ^ (7 - n) * 64 ^ (n - 1) <= 2 ^ 31) by (multi_lengths n; vm_compute; done).
    destruct (utf8_continue_inv cs c u) as (Hcts & Hdiv & Hu);
      [unfold cs; auto with zlist|lia|rewrite Hcs; nia|done|].
    rewrite Hcs in Hdiv.
    assert (Hub : u < 2 ^ (7 - n) * 64 ^ (n - 1)).
    { pose proof (Z.mod_pos_bound u (64 ^ (n - 1)) Hp).
      pose proof (Z.div_mod u (64 ^ (n - 1)) ltac:(lia)). nia. }
    zbool.
    split; [|split].
    + unfold ucs4_valid.
      destruct (Z.leb_spec 0 u), (Z.leb_spec u 0x7FFFFFFF), (Z.leb_spec 0xD800 u),
        (Z.leb_spec u 0xDFFF), (Z.eqb_spec u 0xFFFE), (Z.eqb_spec u 0xFFFF);
        cbn [andb orb] in *; lia || done.
    + rewrite (from_ucs4_multi u n) by lia. rewrite Hdiv. f_equal.
      unfold ztake. replace (Z.to_nat n) with (S (Z.to_nat (n - 1))) by lia. cbn [take].
      fold (ztake (n - 1) ts). fold cs. rewrite Hcts. do 2 f_equal.
      unfold zlen in Hcs; lia.
    + rewrite zlen_cons; lia.
Qed.

(** ** Texts: sequences of encoded code points *)

Definition utf8_enc (u : Z) : bytes := (utf8_from_ucs4 u 6).2.
Definition utf8_encode (us : list Z) : bytes := concat (map utf8_enc us).

(** A character as the encoder lays it out: a start byte that announces exactly
    the continuation bytes that follow it. *)
Definition char_shape (bs : bytes) : Prop :=
  exists c cs, bs = c :: cs /\ text_byte c /\ is_continuation c = false /\
    (c < 0x80 \/ Z.land c 0xC0 = 0xC0) /\ char_len c = 1 + zlen cs /\
    Forall (fun t => 128 <= t < 192) cs.

Lemma conts_range k u : Forall (fun t => 128 <= t < 192) (conts k u).
Proof.
  revert u; induction k as [|k IH]; intros u; cbn [conts]; [constructor|].
  apply Forall_app; split; [apply IH|]. repeat constructor;
  pose proof (Z.mod_pos_bound u 64); unfold cont_byte; lia.
Qed.

Lemma start_byte_shape l r :
  2 <= l <= 6 -> 0 <= r < 2 ^ (7 - l) ->
  let c := start_byte l r in
  text_byte c /\ is_continuation c = false /\ Z.land c 0xC0 = 0xC0.
Proof.
  intros Hl Hr.
  assert (H : forallb_upto (Z.to_nat (2 ^ (7 - l))) (fun r =>
    let c := start_byte l r in
    (0 <=? c) && (c <? 255) && negb (is_continuation c) && (Z.land c 0xC0 =? 0xC0)) = true)
    by (multi_lengths l; vm_compute; reflexivity).
  eapply forallb_upto_spec in H; [|rewrite Z2Nat.id by (apply Z.pow_nonneg; lia); exact Hr].
  cbv zeta in *; zbool; unfold text_byte; auto.
Qed.

Lemma ascii_shape c : 0 <= c < 128 -> char_shape [c].
Proof.
  intros Hc. exists c, []. split; [done|]. split; [unfold text_byte; lia|].
  pose proof (forallb_upto_spec 128 (fun c => negb (is_continuation c)) eq_refl c) as Hn.
  rewrite char_len_ascii by done. split_and!; [|left; lia|done|constructor].
  apply negb_true_iff, Hn; lia.
Qed.

Lemma utf8_enc_shape u : 0 <= u <= 0x7FFFFFFF -> char_shape (utf8_enc u).
Proof.
  intros Hu. unfold utf8_enc.
  destruct (utf8_encoded_length u) as [l|] eqn:El.
  2:{ exfalso; revert El; unfold utf8_encoded_length; repeat case_match; zbool; lia || done. }
  destruct (encoded_length_inv u l ltac:(lia) El) as [[-> Hs]|[Hl Hb]].
  - unfold utf8_from_ucs4; rewrite El. cbn. rewrite u8_small by lia. apply ascii_shape; lia.
  - rewrite (from_ucs4_multi u l) by lia. cbn [snd].
    destruct (payload_range u l Hl ltac:(lia)) as [Hr _].
    destruct (start_byte_shape l _ Hl Hr) as (Ht & Hc & Hs).
    exists (start_byte l (u / 64 ^ (l - 1))), (conts (Z.to_nat (l - 1)) u).
    split_and!; [done|done|done|by right| |apply conts_range].
    unfold char_len. rewrite start_byte_conts, zlen_conts by done. lia.
Qed.

(** Strings built of whole characters. *)
Definition text_of (bss : list bytes) : Prop := Forall char_shape bss.

Lemma utf8_encode_text us :
  Forall (fun u => ucs4_valid u = true) us -> text_of (map utf8_enc us).
Proof.
  induction 1 as [|u us Hu _ IH]; cbn; constructor; [|done].
  apply utf8_enc_shape. by apply ucs4_valid_inv.
Qed.

Lemma char_shape_text bs : char_shape bs -> Forall text_byte bs /\ 1 <= zlen bs.
Proof.
  intros (c & cs & -> & Hc & _ & _ & _ & Hcs). split; [|rewrite zlen_cons; zlens; lia].
  constructor; [done|]. induction Hcs; constructor; [unfold text_byte; lia|done].
Qed.

Lemma skip_continuations_all cs rest :
  Forall (fun t => 128 <= t < 192) cs ->
  skip_continuations (cs ++ rest) = zlen cs + skip_continuations rest.
Proof.
  induction 1 as [|t cs Ht _ IH]; cbn [app skip_continuations]; [rewrite zlen_nil; lia|].
  rewrite is_continuation_range, IH, zlen_cons by done. lia.
Qed.

Lemma skip_continuations_text bss :
  text_of bss -> skip_continuations (concat bss) = 0.
Proof.
  destruct 1 as [|bs bss (c & cs & -> & _ & Hc & _) _]; [done|].
  cbn [concat app skip_continuations]. by rewrite Hc.
Qed.

(** C38: at a character boundary, UTF8_NEXT moves to the next one and UTF8_PREV
    moves back. *)
Theorem utf8_next_prev (before : list bytes) (bs : bytes) (after : list bytes) :
  text_of before -> char_shape bs -> text_of after ->
  let s := concat before ++ bs ++ concat after in
  let off := zlen (concat before) in
  utf8_next s off = (PARSERUTILS_OK, Some (off + zlen bs)) /\
  utf8_prev s (off + zlen bs) = Some (PARSERUTILS_OK, off).
Proof.
  intros Hbefore (c & cs & -> & Ht & Hc & Hstart & _ & Hcs) Hafter s off.
  assert (Hs : zdrop off s = (c :: cs) ++ concat after).
  { unfold s, off. by rewrite zdrop_app_ge, Z.sub_diag, zdrop_le0 by lia. }
  assert (Hoff : 0 <= off) by apply zlen_nonneg.
  split.
  - unfold utf8_next.
    destruct (Z.leb_spec (zlen s) off).
    { unfold s, off in *. rewrite !zlen_app, zlen_cons in *. zlens. lia. }
    assert (Hn : znth s off = Some c).
    { rewrite <- (Z.add_0_r off), <- znth_zdrop, Hs by lia. done. }
    rewrite Hn. cbn [default from_option id].
    replace ((c <? 128) || (Z.land c 192 =? 192)) with true
      by (symmetry; apply orb_true_iff; rewrite Z.ltb_lt, Z.eqb_eq; tauto).
    replace (zdrop (off + 1) s) with (cs ++ concat after)
      by (rewrite <- zdrop_zdrop by lia; by rewrite Hs).
    rewrite skip_continuations_all, skip_continuations_text by done.
    rewrite zlen_cons. do 2 f_equal. lia.
  - unfold utf8_prev.
    enough (Hl : forall k, (k <= List.length cs)%nat ->
      utf8_prev_loop s (Z.to_nat off + 1 + k) = Some (Z.to_nat off)).
    { replace (Z.to_nat (off + zlen (c :: cs))) with (Z.to_nat off + 1 + List.length cs)%nat
        by (unfold zlen; cbn [List.length]; lia).
      rewrite Hl by lia. cbn. by rewrite Z2Nat.id. }
    assert (Hat : forall i, s !! (Z.to_nat off + i)%nat = ((c :: cs) ++ concat after) !! i).
    { intros i. rewrite <- Hs. unfold zdrop. by rewrite lookup_drop. }
    induction k as [|k IH]; intros Hk.
    + rewrite Nat.add_0_r, Nat.add_1_r. cbn [utf8_prev_loop].
      pose proof (Hat 0%nat) as H0. rewrite Nat.add_0_r in H0. rewrite H0. cbn. by rewrite Hc.
    + replace (Z.to_nat off + 1 + S k)%nat with (S (Z.to_nat off + (1 + k)))%nat by lia.
      cbn [utf8_prev_loop]. rewrite Hat.
      change (((c :: cs) ++ concat after) !! (1 + k)%nat) with ((cs ++ concat after) !! k).
      rewrite lookup_app_l by lia.
      destruct (cs !! k) as [t|] eqn:Et; [|apply lookup_ge_None in Et; lia].
      rewrite Forall_lookup in Hcs. rewrite is_continuation_range by eauto.
      rewrite <- IH by lia. f_equal; lia.
Qed.

(** ** The theorems at concrete inputs *)

Lemma utf8_roundtrip_witness :
  exists bs, utf8_from_ucs4 0x20AC 6 = (PARSERUTILS_OK, bs) /\
    utf8_to_ucs4 (bs ++ [97]) = (PARSERUTILS_OK, Some (0x20AC, zlen bs)).
Proof. apply (utf8_roundtrip 0x20AC 6 [97]); [reflexivity|lia]. Defined.

Lemma utf8_decode_canonical_witness :
  ucs4_valid 0xE9 = true /\ utf8_from_ucs4 0xE9 2 = (PARSERUTILS_OK, ztake 2 [0xC3; 0xA9; 97]) /\
  2 <= zlen [0xC3; 0xA9; 97].
Proof.
  apply (utf8_decode_canonical [0xC3; 0xA9; 97] 0xE9 2); [|reflexivity].
  repeat constructor; unfold is_byte; lia.
Defined.

Lemma utf8_next_prev_witness :
  let s := concat [[97]] ++ [0xC3; 0xA9] ++ concat [[98]] in
  utf8_next s 1 = (PARSERUTILS_OK, Some (1 + 2)) /\
  utf8_prev s (1 + 2) = Some (PARSERUTILS_OK, 1).
Proof.
  apply (utf8_next_prev [[97]] [0xC3; 0xA9] [[98]]).
  - repeat constructor. apply ascii_shape; lia.
  - exists 0xC3, [0xA9]. do 2 (split; [done|]). split; [reflexivity|].
    split; [right; reflexivity|]. split; [reflexivity|]. repeat constructor; lia.
  - repeat constructor. apply ascii_shape; lia.
Defined.
