(* ===== verification/Interfaces.v ===== *)
(** * Interfaces: what the byte buffer and the input stream promise to the
    tokeniser.

    [ByteBufferOps] and [InputStreamOps] are the operations the tokeniser calls;
    [ByteBuffer] and [InputStream] add the laws its theorems rely on.  Buffer.v
    and InputStreamSpec.v discharge the laws for the models of
    src/utils/buffer.c and src/input/inputstream.c of libparserutils. *)
From S2P Require Import Prelude Errors Utf8.

(** ** Byte buffers *)

Class ByteBufferOps (B : Type) := {
  bb_bytes : B -> bytes;                    (* buffer->data, buffer->length *)
  bb_append : B -> bytes -> option (parserutils_error * B);
  bb_discard : B -> Z -> Z -> option (parserutils_error * B)
}.

Class ByteBuffer (B : Type) `{!ByteBufferOps B} := {
  bb_wf : B -> Prop;
  bb_bound b : bb_wf b -> zlen (bb_bytes b) < 2 ^ 63;
  bb_append_ok b d : bb_wf b ->
    exists e b', bb_append b d = Some (e, b') /\ bb_wf b' /\
      (e = PARSERUTILS_OK /\ bb_bytes b' = bb_bytes b ++ d \/
       e = PARSERUTILS_NOMEM /\ bb_bytes b' = bb_bytes b);
  bb_discard_all b : bb_wf b -> bb_bytes b <> [] ->
    exists b', bb_discard b 0 (zlen (bb_bytes b)) = Some (PARSERUTILS_OK, b') /\
      bb_wf b' /\ bb_bytes b' = []
}.

(** A client that makes buffers of its own, and empties them by writing their
    length. *)
Class ByteBufferMakeOps (B : Type) := {
  bb_create : parserutils_error * option B;
  bb_clear : B -> B
}.

Class ByteBufferMake (B : Type) `{!ByteBufferOps B} `{!ByteBuffer B}
    `{!ByteBufferMakeOps B} := {
  bb_create_ok e r : @bb_create B _ = (e, r) ->
    match r with
    | Some b => e = PARSERUTILS_OK /\ bb_wf b /\ bb_bytes b = []
    | None => e = PARSERUTILS_NOMEM
    end;
  bb_clear_ok b : bb_wf b -> bb_wf (bb_clear b) /\ bb_bytes (bb_clear b) = []
}.

(** ** Input streams *)

(** The answer of a peek: on success the pointer [ptr], as the memory that can
    be read from it on, and the length of the character it points to. *)
Inductive peek_result :=
  | PeekOk (ptr : bytes) (len : Z)
  | PeekErr (error : parserutils_error).

Class InputStreamOps (S : Type) := {
  is_peek : S -> Z -> option (peek_result * S);
  is_advance : S -> Z -> S;
  is_insert : S -> bytes -> option (parserutils_error * S)
}.

(** [is_avail s] is the text between the cursor and the end of the UTF-8 buffer,
    [is_total s] bounds what can ever become available without new input, and
    [is_ended s] says that nothing more is to come. *)
Class InputStream (S : Type) `{!InputStreamOps S} := {
  is_wf : S -> Prop;
  is_avail : S -> bytes;
  is_total : S -> Z;
  is_ended : S -> Prop;
  is_avail_text s : is_wf s -> utf8_text (is_avail s);
  is_avail_total s : is_wf s -> zlen (is_avail s) <= is_total s;
  is_avail_bound s : is_wf s -> zlen (is_avail s) < 2 ^ 32;
  (** A character that is available is seen without touching the stream. *)
  is_peek_avail s off c : is_wf s -> znth (is_avail s) off = Some c ->
    exists stale,
      is_peek s off = Some (PeekOk (zdrop off (is_avail s) ++ stale) (char_len c), s);
  (** At the end of what is available, a peek converts more input. *)
  is_peek_end s : is_wf s ->
    exists r s', is_peek s (zlen (is_avail s)) = Some (r, s') /\
      match r with
      | PeekOk ptr len =>
          is_wf s' /\ is_total s' <= is_total s /\
          exists c more stale, is_avail s' = is_avail s ++ c :: more /\
            ptr = (c :: more) ++ stale /\ len = char_len c
      | PeekErr error =>
          error <> PARSERUTILS_OK /\
          (error = PARSERUTILS_NEEDDATA \/ error = PARSERUTILS_EOF ->
           is_wf s' /\ is_total s' <= is_total s /\ is_avail s' = is_avail s) /\
          (error = PARSERUTILS_EOF -> is_ended s')
      end;
  is_peek_valid s s' : is_wf s ->
    is_peek s (zlen (is_avail s)) <> Some (PeekErr PARSERUTILS_INVALID, s');
  is_peek_ended s : is_wf s -> is_ended s ->
    is_peek s (zlen (is_avail s)) = Some (PeekErr PARSERUTILS_EOF, s);
  is_advance_ok s n : is_wf s -> 0 <= n <= zlen (is_avail s) ->
    is_wf (is_advance s n) /\
    is_avail (is_advance s n) = zdrop n (is_avail s) /\
    is_total (is_advance s n) = is_total s - n /\
    (is_ended s -> is_ended (is_advance s n));
  is_insert_ok s d : is_wf s -> utf8_text d ->
    exists e s', is_insert s d = Some (e, s') /\ is_wf s' /\
      (e = PARSERUTILS_OK /\ is_avail s' = d ++ is_avail s \/
       e = PARSERUTILS_NOMEM /\ is_avail s' = is_avail s)
}.
