(* ===== verification/Buffer.v ===== *)
(** * Buffer: the growable byte buffer of libparserutils (src/utils/buffer.c).

    The allocation is a list of cells, [buf_data] the offset of the first live byte
    in it, [buf_length] the number of live bytes and [buf_allocated] the size the code
    believes the allocation has.  The allocator is an argument: [malloc_ok n]
    and [realloc_ok n] say whether a request for [n] bytes succeeds.  An
    operation yields [None] when it would touch memory outside the allocation
    or fail to terminate. *)
From S2P Require Import Prelude Errors Utf8 Interfaces.

Definition DEFAULT_SIZE : Z := 4096.
Definition SIZEOF_BUFFER : Z := 32.
(** The largest object malloc and realloc can return (PTRDIFF_MAX). *)
Definition ALLOC_MAX : Z := 2 ^ 63 - 1.

Record parserutils_buffer := {
  buf_alloc : bytes;
  buf_data : Z;
  buf_length : Z;
  buf_allocated : Z
}.

Definition parserutils_buffer_create (malloc_ok : Z -> bool)
  : parserutils_error * option parserutils_buffer :=
  if negb (malloc_ok SIZEOF_BUFFER) then (PARSERUTILS_NOMEM, None) else
  if negb (malloc_ok DEFAULT_SIZE) then (PARSERUTILS_NOMEM, None) else
  (PARSERUTILS_OK,
   Some {| buf_alloc := zrep DEFAULT_SIZE UNINIT; buf_data := 0; buf_length := 0;
           buf_allocated := DEFAULT_SIZE |}).

(** The live bytes: what [buffer->data, buffer->length] denotes. *)
Definition buf_bytes (b : parserutils_buffer) : bytes :=
  ztake (buf_length b) (zdrop (buf_data b) (buf_alloc b)).

Definition get_offset (buffer : parserutils_buffer) : Z := buf_data buffer.

Definition try_rebase (buffer : parserutils_buffer) : option parserutils_buffer :=
  if buf_length buffer <=? get_offset buffer then
    d ← mem_read (buf_data buffer) (buf_length buffer) (buf_alloc buffer);
    m ← mem_write 0 d (buf_alloc buffer);
    Some {| buf_alloc := m; buf_data := 0; buf_length := buf_length buffer;
            buf_allocated := buf_allocated buffer |}
  else Some buffer.

Definition parserutils_buffer_grow (realloc_ok : Z -> bool) (buffer : parserutils_buffer)
  : parserutils_error * parserutils_buffer :=
  let offset := get_offset buffer in
  let size := u64 (buf_allocated buffer * 2) in
  if negb (realloc_ok size) then (PARSERUTILS_NOMEM, buffer) else
  (PARSERUTILS_OK,
   {| buf_alloc := mem_resize size (buf_alloc buffer); buf_data := offset;
      buf_length := buf_length buffer; buf_allocated := size |}).

(** The [while] of ensure_space; [fuel] bounds the number of doublings. *)
Fixpoint ensure_space_loop (realloc_ok : Z -> bool) (fuel : nat) (len : Z)
    (buffer : parserutils_buffer) : option (parserutils_error * parserutils_buffer) :=
  if u64 (buf_allocated buffer - buf_length buffer - get_offset buffer) <=? len then
    match fuel with
    | O => None
    | S fuel =>
        match parserutils_buffer_grow realloc_ok buffer with
        | (PARSERUTILS_OK, buffer) => ensure_space_loop realloc_ok fuel len buffer
        | (error, buffer) => Some (error, buffer)
        end
    end
  else Some (PARSERUTILS_OK, buffer).

(** A size that doubles from at least 1 leaves the range of size_t after 64
    steps. *)
Definition GROW_FUEL : nat := 64.

Definition ensure_space (realloc_ok : Z -> bool) (buffer : parserutils_buffer) (len : Z)
  : option (parserutils_error * parserutils_buffer) :=
  buffer ← try_rebase buffer;
  ensure_space_loop realloc_ok GROW_FUEL len buffer.

Definition parserutils_buffer_append (realloc_ok : Z -> bool) (buffer : parserutils_buffer)
    (d : bytes) : option (parserutils_error * parserutils_buffer) :=
  '(error, buffer) ← ensure_space realloc_ok buffer (zlen d);
  match error with
  | PARSERUTILS_OK =>
      m ← mem_write (buf_data buffer + buf_length buffer) d (buf_alloc buffer);
      Some (PARSERUTILS_OK,
            {| buf_alloc := m; buf_data := buf_data buffer;
               buf_length := u64 (buf_length buffer + zlen d);
               buf_allocated := buf_allocated buffer |})
  | _ => Some (error, buffer)
  end.

(** The variadic append: the pairs of the argument list, in order, until one
    fails. *)
Fixpoint parserutils_buffer_appendv (realloc_ok : Z -> bool) (buffer : parserutils_buffer)
    (ds : list bytes) : option (parserutils_error * parserutils_buffer) :=
  match ds with
  | [] => Some (PARSERUTILS_OK, buffer)
  | d :: ds =>
      '(error, buffer) ← parserutils_buffer_append realloc_ok buffer d;
      match error with
      | PARSERUTILS_OK => parserutils_buffer_appendv realloc_ok buffer ds
      | _ => Some (error, buffer)
      end
  end.

Definition parserutils_buffer_insert (realloc_ok : Z -> bool) (buffer : parserutils_buffer)
    (offset : Z) (d : bytes) : option (parserutils_error * parserutils_buffer) :=
  if buf_length buffer <? offset then Some (PARSERUTILS_BADPARM, buffer) else
  if offset =? buf_length buffer then parserutils_buffer_append realloc_ok buffer d else
  '(error, buffer) ← ensure_space realloc_ok buffer (zlen d);
  match error with
  | PARSERUTILS_OK =>
      tail ← mem_read (buf_data buffer + offset) (buf_length buffer - offset) (buf_alloc buffer);
      m ← mem_write (buf_data buffer + offset + zlen d) tail (buf_alloc buffer);
      m ← mem_write (buf_data buffer + offset) d m;
      Some (PARSERUTILS_OK,
            {| buf_alloc := m; buf_data := buf_data buffer;
               buf_length := u64 (buf_length buffer + zlen d);
               buf_allocated := buf_allocated buffer |})
  | _ => Some (error, buffer)
  end.

Definition parserutils_buffer_discard (buffer : parserutils_buffer) (offset len : Z)
  : option (parserutils_error * parserutils_buffer) :=
  if (buf_length buffer <=? offset) || (buf_length buffer <? u64 (offset + len))
  then Some (PARSERUTILS_BADPARM, buffer) else
  if offset =? 0 then
    buffer ← try_rebase {| buf_alloc := buf_alloc buffer; buf_data := buf_data buffer + len;
                            buf_length := u64 (buf_length buffer - len);
                            buf_allocated := buf_allocated buffer |};
    Some (PARSERUTILS_OK, buffer)
  else
    tail ← mem_read (buf_data buffer + offset + len)
                     (u64 (buf_length buffer - u64 (len + offset))) (buf_alloc buffer);
    m ← mem_write (buf_data buffer + offset) tail (buf_alloc buffer);
    Some (PARSERUTILS_OK,
          {| buf_alloc := m; buf_data := buf_data buffer; buf_length := u64 (buf_length buffer - len);
             buf_allocated := buf_allocated buffer |}).

(** ** The well-formed buffers *)

Record wf_buffer (b : parserutils_buffer) : Prop := {
  wf_alloc : zlen (buf_alloc b) = buf_allocated b;
  wf_size : 0 < buf_allocated b <= ALLOC_MAX;
  wf_data : 0 <= buf_data b;
  wf_length : 0 <= buf_length b;
  wf_fits : buf_data b + buf_length b <= buf_allocated b
}.

(** What the theorems assume of realloc: it never returns an object larger than
    the address space allows. *)
Definition realloc_bounded (realloc_ok : Z -> bool) : Prop :=
  forall n, realloc_ok n = true -> n <= ALLOC_MAX.

Ltac wf_buf :=
  repeat match goal with H : wf_buffer _ |- _ => destruct H end;
  unfold ALLOC_MAX in *; cbn [buf_alloc buf_data buf_length buf_allocated] in *.

Lemma zlen_buf_bytes b : wf_buffer b -> zlen (buf_bytes b) = buf_length b.
Proof. intros; wf_buf; unfold buf_bytes. rewrite zlen_ztake, zlen_zdrop; lia. Qed.

Lemma create_wf malloc_ok b :
  parserutils_buffer_create malloc_ok = (PARSERUTILS_OK, Some b) ->
  wf_buffer b /\ buf_bytes b = [].
Proof.
  unfold parserutils_buffer_create; repeat case_match; intros [= <-].
  split; [split; unfold ALLOC_MAX, DEFAULT_SIZE; cbn -[zrep]; rewrite ?zlen_zrep; lia|reflexivity].
Qed.

(** Rebasing moves the live bytes to the front of the allocation when they fit
    in the gap before them, so memcpy's regions are disjoint. *)
Lemma try_rebase_spec b :
  wf_buffer b ->
  exists b', try_rebase b = Some b' /\ wf_buffer b' /\ buf_bytes b' = buf_bytes b /\
             buf_length b' = buf_length b /\ buf_allocated b' = buf_allocated b.
Proof.
  intros Hwf; pose proof (zlen_buf_bytes _ Hwf) as Hl; wf_buf.
  unfold try_rebase, get_offset; destruct (Z.leb_spec (buf_length b) (buf_data b)); [|eauto 10 using Build_wf_buffer].
  rewrite mem_read_in by lia. cbn [mbind option_bind].
  change (ztake (buf_length b) (zdrop (buf_data b) (buf_alloc b))) with (buf_bytes b).
  rewrite mem_write_in by lia. eexists; split; [reflexivity|].
  split; [|split; [|done]].
  - split; cbn; rewrite ?zlen_zwrite; unfold ALLOC_MAX in *; lia.
  - unfold buf_bytes at 1; cbn [buf_alloc buf_data buf_length].
    pose proof (window_zwrite_extend 0 0 (buf_bytes b) (buf_alloc b)) as Hw.
    rewrite Hl, !Z.add_0_l in Hw. rewrite Hw by lia. done.
Qed.

Lemma grow_spec realloc_ok b :
  wf_buffer b -> realloc_bounded realloc_ok ->
  match parserutils_buffer_grow realloc_ok b with
  | (PARSERUTILS_OK, b') =>
      wf_buffer b' /\ buf_bytes b' = buf_bytes b /\ buf_length b' = buf_length b /\
      buf_data b' = buf_data b /\ buf_allocated b' = 2 * buf_allocated b
  | (e, b') => e = PARSERUTILS_NOMEM /\ b' = b
  end.
Proof.
  intros Hwf Hr; unfold parserutils_buffer_grow, get_offset.
  destruct (negb (realloc_ok _)) eqn:E; [done|]; zbool. apply Hr in E.
  wf_buf. unfold ALLOC_MAX in *.
  assert (Hu : u64 (buf_allocated b * 2) = buf_allocated b * 2) by (apply u64_small; lia).
  rewrite Hu in *.
  split; [split; cbn [buf_alloc buf_data buf_length buf_allocated]; unfold ALLOC_MAX;
          rewrite ?zlen_mem_resize by lia; lia|].
  cbn [buf_alloc buf_data buf_length buf_allocated]. split; [|lia].
  unfold buf_bytes; cbn [buf_alloc buf_data buf_length]. apply window_resize; lia.
Qed.

(** The specification every space-reserving step meets. *)
Definition reserved (b : parserutils_buffer) (len : Z)
    (r : option (parserutils_error * parserutils_buffer)) : Prop :=
  exists e b', r = Some (e, b') /\ wf_buffer b' /\ buf_bytes b' = buf_bytes b /\
    buf_length b' = buf_length b /\ buf_allocated b <= buf_allocated b' /\
    (e = PARSERUTILS_NOMEM \/
     e = PARSERUTILS_OK /\ buf_data b' + buf_length b' + len < buf_allocated b').

Lemma ensure_space_loop_spec realloc_ok fuel len b :
  wf_buffer b -> realloc_bounded realloc_ok ->
  2 ^ 64 <= buf_allocated b * 2 ^ Z.of_nat fuel ->
  reserved b len (ensure_space_loop realloc_ok fuel len b).
Proof.
  intros Hwf Hr; revert b Hwf; induction fuel as [|fuel IH]; intros b Hwf Hf.
  { exfalso; wf_buf; lia. }
  cbn [ensure_space_loop]; unfold get_offset.
  pose proof (grow_spec realloc_ok b Hwf Hr) as Hg.
  destruct (Z.leb_spec (u64 (buf_allocated b - buf_length b - buf_data b)) len) as [Hs|Hs].
  - destruct (parserutils_buffer_grow realloc_ok b) as [e b'].
    destruct e;
      try (destruct Hg as [? ->]; try done; eexists _, b; eauto 10 with lia).
    destruct Hg as (Hwf' & Hb & Hl & Hd & Ha).
    destruct (IH b' Hwf') as (e & b2 & -> & ? & ? & ? & ? & Hres).
    { rewrite Nat2Z.inj_succ, Z.pow_succ_r in Hf by lia. rewrite Ha; lia. }
    apply wf_size in Hwf.
    exists e, b2; split_and!; [done|done|congruence|congruence|lia|exact Hres].
  - exists PARSERUTILS_OK, b. repeat (split; [done || lia|]). right; split; [done|].
    wf_buf; rewrite u64_small in Hs by lia; lia.
Qed.

Lemma ensure_space_spec realloc_ok len b :
  wf_buffer b -> realloc_bounded realloc_ok ->
  reserved b len (ensure_space realloc_ok b len).
Proof.
  intros Hwf Hr; unfold ensure_space.
  destruct (try_rebase_spec b Hwf) as (b' & -> & Hwf' & Hb & Hl & Ha). cbn [mbind option_bind].
  destruct (ensure_space_loop_spec realloc_ok GROW_FUEL len b' Hwf' Hr)
    as (e & b2 & -> & ? & ? & ? & ? & Hres).
  { wf_buf. change (2 ^ Z.of_nat GROW_FUEL) with (2 ^ 64). lia. }
  exists e, b2; split_and!; [done|done|congruence|congruence|lia|exact Hres].
Qed.

(** ** What the operations promise *)

(** An operation on [b] that either fails for want of memory and leaves the
    live bytes alone, or succeeds and makes them [bs]. *)
Definition buffer_result (b : parserutils_buffer) (bs : bytes)
    (r : option (parserutils_error * parserutils_buffer)) : Prop :=
  exists e b', r = Some (e, b') /\ wf_buffer b' /\ buf_allocated b <= buf_allocated b' /\
    (e = PARSERUTILS_OK /\ buf_bytes b' = bs \/
     e = PARSERUTILS_NOMEM /\ buf_bytes b' = buf_bytes b).

Lemma append_spec realloc_ok b d :
  wf_buffer b -> realloc_bounded realloc_ok ->
  buffer_result b (buf_bytes b ++ d) (parserutils_buffer_append realloc_ok b d).
Proof.
  intros Hwf Hr; unfold parserutils_buffer_append.
  destruct (ensure_space_spec realloc_ok (zlen d) b Hwf Hr)
    as (e & b1 & -> & Hwf1 & Hb & Hl & Ha & Hres). cbn [mbind option_bind].
  destruct Hres as [->|[-> Hs]].
  { exists PARSERUTILS_NOMEM, b1; split_and!; auto. }
  pose proof (zlen_nonneg d). pose proof Hwf1 as Hwf1'. wf_buf.
  rewrite mem_write_in by lia. cbn [mbind option_bind].
  rewrite u64_small by lia.
  eexists _, _; split; [reflexivity|]. split; [|split; [cbn; lia|left; split; [done|]]].
  - split; cbn [buf_alloc buf_data buf_length buf_allocated]; unfold ALLOC_MAX;
      rewrite ?zlen_zwrite; lia.
  - rewrite <- Hb. unfold buf_bytes; cbn [buf_alloc buf_data buf_length].
    apply window_zwrite_extend; lia.
Qed.

Lemma insert_spec realloc_ok b o d :
  wf_buffer b -> realloc_bounded realloc_ok -> 0 <= o <= buf_length b ->
  buffer_result b (ztake o (buf_bytes b) ++ d ++ zdrop o (buf_bytes b))
    (parserutils_buffer_insert realloc_ok b o d).
Proof.
  intros Hwf Hr Ho; pose proof (zlen_buf_bytes b Hwf) as Hlen.
  unfold parserutils_buffer_insert.
  destruct (Z.ltb_spec (buf_length b) o); [lia|].
  destruct (Z.eqb_spec o (buf_length b)) as [->|].
  { rewrite ztake_ge, zdrop_ge, app_nil_r by lia. by apply append_spec. }
  destruct (ensure_space_spec realloc_ok (zlen d) b Hwf Hr)
    as (e & b1 & -> & Hwf1 & Hb & Hl & Ha & Hres). cbn [mbind option_bind].
  destruct Hres as [->|[-> Hs]].
  { exists PARSERUTILS_NOMEM, b1; split_and!; auto. }
  pose proof (zlen_nonneg d). wf_buf.
  rewrite mem_read_in by lia. cbn [mbind option_bind].
  set (t := ztake (buf_length b1 - o) _).
  assert (Ht : zlen t = buf_length b1 - o) by (unfold t; rewrite zlen_ztake, zlen_zdrop; lia).
  rewrite mem_write_in by lia. cbn [mbind option_bind].
  rewrite mem_write_in by (rewrite ?zlen_zwrite; lia). cbn [mbind option_bind].
  rewrite u64_small by lia.
  eexists _, _; split; [reflexivity|]. split; [|split; [cbn; lia|left; split; [done|]]].
  - split; cbn [buf_alloc buf_data buf_length buf_allocated]; unfold ALLOC_MAX;
      rewrite ?zlen_zwrite; rewrite ?zlen_zwrite; lia.
  - rewrite <- Hb. unfold buf_bytes; cbn [buf_alloc buf_data buf_length].
    unfold t. rewrite window_insert by lia. f_equal; [|f_equal].
    + rewrite ztake_ztake. f_equal; lia.
    + rewrite <- (zdrop_zdrop o) by lia. rewrite ztake_zdrop_comm by lia.
      do 2 f_equal; lia.
Qed.

(** A discard inside the buffer removes exactly the section named; one that
    reaches outside is refused. *)
Lemma discard_spec b o k :
  wf_buffer b -> 0 <= o < buf_length b -> 0 <= k -> o + k <= buf_length b ->
  exists b', parserutils_buffer_discard b o k = Some (PARSERUTILS_OK, b') /\ wf_buffer b' /\
    buf_allocated b' = buf_allocated b /\
    buf_bytes b' = ztake o (buf_bytes b) ++ zdrop (o + k) (buf_bytes b).
Proof.
  intros Hwf Ho Hk Hok; unfold parserutils_buffer_discard. pose proof Hwf as Hwf'. wf_buf.
  rewrite !u64_small by (rewrite ?u64_small; lia).
  destruct (Z.leb_spec (buf_length b) o); [lia|].
  destruct (Z.ltb_spec (buf_length b) (o + k)); [lia|]. cbn [orb].
  destruct (Z.eqb_spec o 0) as [->|].
  - set (b0 := Build_parserutils_buffer _ _ _ _).
    destruct (try_rebase_spec b0) as (b' & -> & ? & Hb & ? & ?).
    { split; cbn; unfold ALLOC_MAX; lia. }
    cbn [mbind option_bind]. exists b'; split_and!; [done|done|done|].
    rewrite Hb, ztake_le0 by lia. unfold buf_bytes, b0; cbn.
    rewrite <- (zdrop_zdrop k) by lia. rewrite ztake_zdrop_comm by lia.
    do 2 f_equal; lia.
  - rewrite mem_read_in by lia. cbn [mbind option_bind].
    rewrite mem_write_in by (rewrite ?zlen_ztake, ?zlen_zdrop; lia). cbn [mbind option_bind].
    eexists; split; [reflexivity|]. split; [|split; [done|]].
    + split; cbn [buf_alloc buf_data buf_length buf_allocated]; unfold ALLOC_MAX;
        rewrite ?zlen_zwrite; rewrite ?zlen_ztake, ?zlen_zdrop; lia.
    + unfold buf_bytes; cbn [buf_alloc buf_data buf_length].
      rewrite window_discard by lia. f_equal.
      * rewrite ztake_ztake. f_equal; lia.
      * replace (buf_data b + o + k) with (buf_data b + (o + k)) by lia.
        rewrite <- (zdrop_zdrop (o + k)) by lia. rewrite ztake_zdrop_comm by lia.
        do 2 f_equal; lia.
Qed.

(** ** The data pointer

    A buffer whose data starts its allocation keeps doing so: what the input
    stream relies on when it fills its UTF-8 buffer. *)
Lemma ensure_space_data realloc_ok b len e b' :
  buf_data b = 0 -> wf_buffer b -> ensure_space realloc_ok b len = Some (e, b') ->
  buf_data b' = 0.
Proof.
  unfold ensure_space. intros Hd Hwf He.
  destruct (try_rebase b) as [b1|] eqn:Er; [|done]. cbn [mbind option_bind] in He.
  assert (Hb1 : buf_data b1 = 0).
  { unfold try_rebase in Er. destruct (_ <=? _); [|by injection Er as <-].
    destruct (mem_read _ _ _); [|done]. cbn [mbind option_bind] in Er.
    destruct (mem_write _ _ _); [|done]. by injection Er as <-. }
  clear Er Hwf Hd. revert b1 Hb1 He. generalize GROW_FUEL as fuel.
  induction fuel as [|fuel IH]; intros b1 Hb1; cbn [ensure_space_loop]; destruct (_ <=? _);
    try done; try (by intros [= _ <-]).
  unfold parserutils_buffer_grow. destruct (negb _); [by intros [= _ <-]|]. by apply IH.
Qed.

Lemma append_data realloc_ok b d e b' :
  buf_data b = 0 -> wf_buffer b -> parserutils_buffer_append realloc_ok b d = Some (e, b') ->
  buf_data b' = 0.
Proof.
  unfold parserutils_buffer_append. intros Hd Hwf.
  destruct (ensure_space _ _ _) as [[e1 b1]|] eqn:Ee; [|done]. cbn [mbind option_bind].
  pose proof (ensure_space_data _ _ _ _ _ Hd Hwf Ee) as H1.
  destruct e1; try (by intros [= _ <-]).
  destruct (mem_write _ _ _); [|done]. cbn [mbind option_bind]. by intros [= _ <-].
Qed.

Lemma insert_data realloc_ok b o d e b' :
  buf_data b = 0 -> wf_buffer b -> parserutils_buffer_insert realloc_ok b o d = Some (e, b') ->
  buf_data b' = 0.
Proof.
  unfold parserutils_buffer_insert. intros Hd Hwf.
  destruct (_ <? _); [by intros [= _ <-]|]. destruct (_ =? _); [by apply append_data|].
  destruct (ensure_space _ _ _) as [[e1 b1]|] eqn:Ee; [|done]. cbn [mbind option_bind].
  pose proof (ensure_space_data _ _ _ _ _ Hd Hwf Ee) as H1.
  destruct e1; try (by intros [= _ <-]).
  destruct (mem_read _ _ _); [|done]. cbn [mbind option_bind].
  destruct (mem_write _ _ _); [|done]. cbn [mbind option_bind].
  destruct (mem_write _ _ _); [|done]. cbn [mbind option_bind]. by intros [= _ <-].
Qed.

(** The allocation stays below any bound realloc respects. *)
Definition realloc_below (limit : Z) (realloc_ok : Z -> bool) : Prop :=
  forall n, realloc_ok n = true -> n < limit.

Lemma grow_below limit realloc_ok b e b' :
  realloc_below limit realloc_ok -> buf_allocated b < limit ->
  parserutils_buffer_grow realloc_ok b = (e, b') -> buf_allocated b' < limit.
Proof.
  unfold parserutils_buffer_grow. intros Hr Hl.
  destruct (realloc_ok (u64 (buf_allocated b * 2))) eqn:E; cbn [negb]; intros [= _ <-]; auto.
Qed.

Lemma ensure_space_below limit realloc_ok b len e b' :
  realloc_below limit realloc_ok -> buf_allocated b < limit ->
  ensure_space realloc_ok b len = Some (e, b') -> buf_allocated b' < limit.
Proof.
  unfold ensure_space. intros Hr Hl He.
  destruct (try_rebase b) as [b1|] eqn:Er; [|done]. cbn [mbind option_bind] in He.
  assert (Hb1 : buf_allocated b1 < limit).
  { unfold try_rebase in Er. destruct (_ <=? _); [|by injection Er as <-].
    destruct (mem_read _ _ _); [|done]. cbn [mbind option_bind] in Er.
    destruct (mem_write _ _ _); [|done]. by injection Er as <-. }
  clear Er Hl. revert b1 Hb1 He. generalize GROW_FUEL as fuel.
  induction fuel as [|fuel IH]; intros b1 Hb1; cbn [ensure_space_loop]; destruct (_ <=? _);
    try done; try (by intros [= _ <-]).
  unfold parserutils_buffer_grow.
  destruct (realloc_ok (u64 (buf_allocated b1 * 2))) eqn:Eg; cbn [negb]; [|by intros [= _ <-]].
  apply IH. cbn [buf_allocated]. by apply Hr.
Qed.

Lemma insert_below limit realloc_ok b o d e b' :
  realloc_below limit realloc_ok -> buf_allocated b < limit ->
  parserutils_buffer_insert realloc_ok b o d = Some (e, b') -> buf_allocated b' < limit.
Proof.
  unfold parserutils_buffer_insert, parserutils_buffer_append. intros Hr Hl.
  destruct (_ <? _); [by intros [= _ <-]|].
  destruct (ensure_space _ _ _) as [[e1 b1]|] eqn:Ee; [|destruct (_ =? _); done].
  pose proof (ensure_space_below _ _ _ _ _ _ Hr Hl Ee) as H1. cbn [mbind option_bind].
  destruct (_ =? _); destruct e1; try (by intros [= _ <-]);
    repeat (match goal with |- context [mem_read ?a ?b ?c] => destruct (mem_read a b c); [|done]
            | |- context [mem_write ?a ?b ?c] => destruct (mem_write a b c); [|done] end;
            cbn [mbind option_bind]);
    by intros [= _ <-].
Qed.

(** ** The buffer implements the interface of the tokeniser

    The allocator is fixed; everything else is the operations above. *)
Section Interface.
Context (realloc_ok : Z -> bool).

#[export] Instance parserutils_buffer_ops : ByteBufferOps parserutils_buffer := {
  bb_bytes := buf_bytes;
  bb_append := parserutils_buffer_append realloc_ok;
  bb_discard := parserutils_buffer_discard
}.

Hypothesis Hbounded : realloc_bounded realloc_ok.

#[export] Program Instance parserutils_buffer_iface : ByteBuffer parserutils_buffer := {
  bb_wf := wf_buffer
}.
Next Obligation.
  intros b Hwf; cbn. pose proof (zlen_buf_bytes b Hwf). wf_buf; lia.
Qed.
Next Obligation.
  intros b d Hwf. destruct (append_spec realloc_ok b d Hwf Hbounded)
    as (e & b' & ? & ? & _ & ?); eauto.
Qed.
Next Obligation.
  intros b Hwf Hne; cbn in *.
  assert (0 < buf_length b).
  { rewrite <- zlen_buf_bytes by done. destruct (buf_bytes b); [done|].
    rewrite zlen_cons; zlens; lia. }
  rewrite zlen_buf_bytes by done.
  destruct (discard_spec b 0 (buf_length b) Hwf) as (b' & Hd & Hwf' & _ & Hb); [lia..|].
  exists b'. split; [exact Hd|]. split; [exact Hwf'|].
  pose proof (zlen_buf_bytes b Hwf). rewrite Hb, ztake_le0, zdrop_ge; [done|lia|lia].
Qed.
End Interface.

(** A client of its own buffer empties it by setting [length] to 0. *)
Definition buffer_clear (b : parserutils_buffer) : parserutils_buffer :=
  {| buf_alloc := buf_alloc b; buf_data := buf_data b; buf_length := 0;
     buf_allocated := buf_allocated b |}.

Section Make.
Context (malloc_ok realloc_ok : Z -> bool) (Hbounded : realloc_bounded realloc_ok).

#[export] Instance parserutils_buffer_make_ops : ByteBufferMakeOps parserutils_buffer := {
  bb_create := parserutils_buffer_create malloc_ok;
  bb_clear := buffer_clear
}.

#[export] Program Instance parserutils_buffer_make :
  @ByteBufferMake parserutils_buffer (parserutils_buffer_ops realloc_ok)
    (parserutils_buffer_iface realloc_ok Hbounded) parserutils_buffer_make_ops.
Next Obligation.
  intros e r. unfold bb_create. cbn. intros Hc. destruct r as [b|].
  - assert (e = PARSERUTILS_OK) as ->.
    { unfold parserutils_buffer_create in Hc. repeat case_match; congruence. }
    split; [done|]. by apply (create_wf malloc_ok).
  - unfold parserutils_buffer_create in Hc. repeat case_match; congruence.
Qed.
Next Obligation.
  intros b Hwf; cbn in *. split.
  - wf_buf. split; unfold ALLOC_MAX; cbn [buffer_clear buf_alloc buf_data buf_length buf_allocated]; lia.
  - unfold buf_bytes, buffer_clear; cbn. by rewrite ztake_le0.
Qed.
End Make.
