(* ===== verification/BufferRefine.v ===== *)
(** * BufferRefine: the byte buffer implements sequences of octets.

    The abstract buffer is a list; [edit] says what each operation may do to it
    and answer.  Any sequence of calls on a well-formed buffer is matched by the
    same sequence of edits of the list it holds. *)
From S2P Require Import Prelude Errors Buffer.

(** A call on a buffer, with the arguments a client gives it. *)
Inductive buffer_op :=
  | Append (d : bytes)
  | Appendv (ds : list bytes)
  | Insert (offset : Z) (d : bytes)
  | Discard (offset len : Z).

Definition run_op (realloc_ok : Z -> bool) (op : buffer_op) (b : parserutils_buffer)
  : option (parserutils_error * parserutils_buffer) :=
  match op with
  | Append d => parserutils_buffer_append realloc_ok b d
  | Appendv ds => parserutils_buffer_appendv realloc_ok b ds
  | Insert offset d => parserutils_buffer_insert realloc_ok b offset d
  | Discard offset len => parserutils_buffer_discard b offset len
  end.

Fixpoint run_ops (realloc_ok : Z -> bool) (ops : list buffer_op) (b : parserutils_buffer)
  : option (list parserutils_error * parserutils_buffer) :=
  match ops with
  | [] => Some ([], b)
  | op :: ops =>
      '(e, b) ← run_op realloc_ok op b;
      '(es, b) ← run_ops realloc_ok ops b;
      Some (e :: es, b)
  end.

(** ** The specification *)

Inductive edit : buffer_op -> bytes -> parserutils_error -> bytes -> Prop :=
  | edit_append d s : edit (Append d) s PARSERUTILS_OK (s ++ d)
  | edit_append_fails d s : edit (Append d) s PARSERUTILS_NOMEM s
  | edit_appendv ds s : edit (Appendv ds) s PARSERUTILS_OK (s ++ concat ds)
  | edit_appendv_fails ds n s : (n < length ds)%nat ->
      edit (Appendv ds) s PARSERUTILS_NOMEM (s ++ concat (take n ds))
  | edit_insert o d s : 0 <= o <= zlen s ->
      edit (Insert o d) s PARSERUTILS_OK (ztake o s ++ d ++ zdrop o s)
  | edit_insert_fails o d s : 0 <= o <= zlen s -> edit (Insert o d) s PARSERUTILS_NOMEM s
  | edit_insert_outside o d s : zlen s < o -> edit (Insert o d) s PARSERUTILS_BADPARM s
  | edit_discard o k s : 0 <= o < zlen s -> 0 <= k -> o + k <= zlen s ->
      edit (Discard o k) s PARSERUTILS_OK (ztake o s ++ zdrop (o + k) s)
  | edit_discard_outside o k s : zlen s <= o \/ zlen s < o + k ->
      edit (Discard o k) s PARSERUTILS_BADPARM s.

Inductive edits : list buffer_op -> bytes -> list parserutils_error -> bytes -> Prop :=
  | edits_nil s : edits [] s [] s
  | edits_cons op ops s e s1 es s2 :
      edit op s e s1 -> edits ops s1 es s2 -> edits (op :: ops) s (e :: es) s2.

(** Offsets and lengths are of type size_t, and their sum is too. *)
Definition op_in_range (op : buffer_op) : Prop :=
  match op with
  | Append _ | Appendv _ => True
  | Insert o _ => 0 <= o < 2 ^ 64
  | Discard o k => 0 <= o /\ 0 <= k /\ o + k < 2 ^ 64
  end.

Section Refine.
Context (realloc_ok : Z -> bool).
Hypothesis bounded : realloc_bounded realloc_ok.

Lemma appendv_refines ds b :
  wf_buffer b ->
  exists e b', parserutils_buffer_appendv realloc_ok b ds = Some (e, b') /\ wf_buffer b' /\
    edit (Appendv ds) (buf_bytes b) e (buf_bytes b').
Proof.
  revert b; induction ds as [|d ds IH]; intros b Hw; cbn [parserutils_buffer_appendv].
  { exists PARSERUTILS_OK, b. split; [done|]. split; [done|].
    rewrite <- (app_nil_r (buf_bytes b)) at 2. apply (edit_appendv []). }
  destruct (append_spec realloc_ok b d Hw bounded) as (e & b1 & -> & Hw1 & _ & He).
  cbn [mbind option_bind]. destruct He as [[-> Hb]|[-> Hb]].
  - destruct (IH b1 Hw1) as (e & b2 & -> & Hw2 & Hed). exists e, b2.
    split; [done|]. split; [done|]. rewrite Hb in Hed.
    inversion Hed as [| |? ? E|? n ? Hn E| | | | |]; subst; rewrite <- !app_assoc.
    + apply (edit_appendv (d :: ds)).
    + apply (edit_appendv_fails (d :: ds) (S n)). cbn. lia.
  - exists PARSERUTILS_NOMEM, b1. split; [done|]. split; [done|]. rewrite Hb.
    rewrite <- (app_nil_r (buf_bytes b)) at 2.
    apply (edit_appendv_fails (d :: ds) 0). cbn. lia.
Qed.

Lemma discard_outside b o k :
  wf_buffer b -> 0 <= o -> 0 <= k -> o + k < 2 ^ 64 ->
  buf_length b <= o \/ buf_length b < o + k ->
  parserutils_buffer_discard b o k = Some (PARSERUTILS_BADPARM, b).
Proof.
  intros Hw Ho Hk Hok Hout. unfold parserutils_buffer_discard. rewrite u64_small by lia.
  destruct (Z.leb_spec (buf_length b) o); [done|].
  destruct (Z.ltb_spec (buf_length b) (o + k)); [done|lia].
Qed.

Lemma op_refines op b :
  wf_buffer b -> op_in_range op ->
  exists e b', run_op realloc_ok op b = Some (e, b') /\ wf_buffer b' /\
    edit op (buf_bytes b) e (buf_bytes b').
Proof.
  intros Hw Hop. pose proof (zlen_buf_bytes b Hw) as Hl. destruct op as [d|ds|o d|o k]; cbn [run_op].
  - destruct (append_spec realloc_ok b d Hw bounded) as (e & b1 & -> & Hw1 & _ & [[-> Hb]|[-> Hb]]);
      eexists _, b1; (split; [done|]; split; [done|]); rewrite Hb; constructor.
  - by apply appendv_refines.
  - cbn in Hop. destruct (Z_le_gt_dec o (buf_length b)) as [Hi|Ho].
    + destruct (insert_spec realloc_ok b o d Hw bounded) as (e & b1 & -> & Hw1 & _ & [[-> Hb]|[-> Hb]]);
        [lia|..]; eexists _, b1; (split; [done|]; split; [done|]); rewrite Hb; constructor; lia.
    + exists PARSERUTILS_BADPARM, b. unfold parserutils_buffer_insert.
      destruct (Z.ltb_spec (buf_length b) o); [|lia].
      split; [done|]. split; [done|]. constructor; lia.
  - destruct Hop as (Ho & Hk & Hok).
    destruct (Z_lt_le_dec o (buf_length b)); [destruct (Z_le_gt_dec (o + k) (buf_length b))|].
    + destruct (discard_spec b o k Hw) as (b1 & -> & Hw1 & _ & Hb); [lia..|].
      eexists _, b1. split; [done|]. split; [done|]. rewrite Hb. constructor; lia.
    + rewrite discard_outside by (done || lia). eexists _, b. split; [done|]. split; [done|].
      constructor; lia.
    + rewrite discard_outside by (done || lia). eexists _, b. split; [done|]. split; [done|].
      constructor; lia.
Qed.

Lemma ops_refine ops b :
  wf_buffer b -> Forall op_in_range ops ->
  exists es b', run_ops realloc_ok ops b = Some (es, b') /\ wf_buffer b' /\
    edits ops (buf_bytes b) es (buf_bytes b').
Proof.
  intros Hw Hops. revert b Hw. induction Hops as [|op ops Hop _ IH]; intros b Hw; cbn [run_ops].
  { exists [], b. split; [done|]. split; [done|]. constructor. }
  destruct (op_refines op b Hw Hop) as (e & b1 & -> & Hw1 & He). cbn [mbind option_bind].
  destruct (IH b1 Hw1) as (es & b2 & -> & Hw2 & Hes). cbn [mbind option_bind].
  exists (e :: es), b2. split; [done|]. split; [done|]. by econstructor.
Qed.

(** C34: every sequence of calls on a buffer that parserutils_buffer_create
    returned refines the same edits of a list of octets: no call reads or
    writes outside the allocation or loops, a failing call changes nothing but
    an incomplete appendv, and the live octets are those of the list. *)
Theorem buffer_refines_list malloc_ok ops b :
  parserutils_buffer_create malloc_ok = (PARSERUTILS_OK, Some b) ->
  Forall op_in_range ops ->
  exists es b', run_ops realloc_ok ops b = Some (es, b') /\ wf_buffer b' /\
    edits ops [] es (buf_bytes b').
Proof.
  intros Hc Hops. destruct (create_wf _ _ Hc) as [Hw Hb]. rewrite <- Hb.
  by apply ops_refine.
Qed.
End Refine.

(** The theorem at a run of five calls, one of them refused. *)
Lemma buffer_refines_list_witness :
  exists b, parserutils_buffer_create (fun _ => true) = (PARSERUTILS_OK, Some b) /\
  exists es b',
    run_ops (fun n => n <=? ALLOC_MAX)
      [Append [1; 2; 3]; Insert 1 [9]; Insert 7 [8]; Discard 0 2; Appendv [[4]; [5]]] b
      = Some (es, b') /\ wf_buffer b' /\
    edits [Append [1; 2; 3]; Insert 1 [9]; Insert 7 [8]; Discard 0 2; Appendv [[4]; [5]]] [] es
      (buf_bytes b').
Proof.
  eexists. split; [reflexivity|].
  apply (buffer_refines_list (fun n => n <=? ALLOC_MAX)) with (malloc_ok := fun _ => true).
  - intros n. apply Z.leb_le.
  - reflexivity.
  - repeat constructor; cbn; lia.
Defined.
