(* ===== verification/InputStream.v ===== *)
(** * InputStream: the character-set filter and the input stream of
    libparserutils (src/input/filter.c, as built with iconv, and
    src/input/inputstream.c).

    iconv, iconv_open and the character-set name table (generated into
    aliases.inc) are arguments.  A descriptor of type [CD] is what iconv_open
    returns.  Object pointers are non-null. *)
From S2P Require Import Prelude Errors Utf8 Interfaces Buffer.

Inductive iconv_errno := E2BIG | EILSEQ | EINVAL.

(** The effect of one call of iconv: how much input it consumed, what it wrote,
    errno when it returned -1, and the descriptor's new state. *)
Record iconv_result {CD : Type} := {
  ir_consumed : Z;
  ir_output : bytes;
  ir_error : option iconv_errno;
  ir_cd : CD
}.
Arguments iconv_result : clear implicits.

Record parserutils_filter {CD : Type} := {
  f_cd : option CD;               (* None: (iconv_t) -1 *)
  f_int_enc : Z;
  f_encoding : Z                  (* settings.encoding *)
}.
Arguments parserutils_filter : clear implicits.

(** A charset detector: the data, the charset and its source, updated.  [None]
    when it would read outside the data. *)
Definition detect_fn : Type := bytes -> Z -> Z -> option (parserutils_error * Z * Z).

(** Private and public part of the stream. *)
Record parserutils_inputstream {CD : Type} := {
  is_utf8 : parserutils_buffer;
  is_cursor : Z;
  is_had_eof : bool;
  is_raw : parserutils_buffer;
  is_done_first_chunk : bool;
  is_mibenum : Z;
  is_encsrc : Z;
  is_filter : parserutils_filter CD;
  is_csdetect : option detect_fn
}.
Arguments parserutils_inputstream : clear implicits.

Section Stream.
Context {CD : Type}.
Context (iconv_open : bytes -> bytes -> CD + iconv_errno)
        (iconv : CD -> bytes -> Z -> iconv_result CD).
Context (mibenum_from_name : bytes -> Z) (mibenum_to_name : Z -> bytes).
Context (malloc_ok realloc_ok : Z -> bool).

Local Abbreviation filter := (parserutils_filter CD).
Local Abbreviation stream := (parserutils_inputstream CD).

(** "UTF-8", "UTF-16" and the other names the stream asks the table for. *)
Definition name_utf8 : bytes := [85; 84; 70; 45; 56].
Definition name_utf16 : bytes := [85; 84; 70; 45; 49; 54].
Definition name_utf16be : bytes := name_utf16 ++ [66; 69].
Definition name_utf16le : bytes := name_utf16 ++ [76; 69].
Definition name_utf32 : bytes := [85; 84; 70; 45; 51; 50].
Definition name_utf32be : bytes := name_utf32 ++ [66; 69].
Definition name_utf32le : bytes := name_utf32 ++ [76; 69].

(** ** The filter *)

(** filter_set_encoding.  When iconv_open fails the old descriptor is already
    closed. *)
Definition filter_set_encoding (input : filter) (enc : bytes) : parserutils_error * filter :=
  let mibenum := mibenum_from_name enc in
  if mibenum =? 0 then (PARSERUTILS_BADENCODING, input) else
  if f_encoding input =? mibenum then (PARSERUTILS_OK, input) else
  match iconv_open (mibenum_to_name (f_int_enc input)) (mibenum_to_name mibenum) with
  | inl cd =>
      (PARSERUTILS_OK,
       {| f_cd := Some cd; f_int_enc := f_int_enc input; f_encoding := mibenum |})
  | inr errno =>
      (match errno with EINVAL => PARSERUTILS_BADENCODING | _ => PARSERUTILS_NOMEM end,
       {| f_cd := None; f_int_enc := f_int_enc input; f_encoding := f_encoding input |})
  end.

(** filter_set_defaults *)
Definition filter_set_defaults (input : filter) : parserutils_error * filter :=
  filter_set_encoding
    {| f_cd := f_cd input; f_int_enc := f_int_enc input; f_encoding := 0 |} name_utf8.

Definition SIZEOF_FILTER : Z := 16.

Definition parserutils__filter_create (int_enc : bytes) : parserutils_error * option filter :=
  if negb (malloc_ok SIZEOF_FILTER) then (PARSERUTILS_NOMEM, None) else
  let enc := mibenum_from_name int_enc in
  if enc =? 0 then (PARSERUTILS_BADENCODING, None) else
  match filter_set_defaults {| f_cd := None; f_int_enc := enc; f_encoding := 0 |} with
  | (PARSERUTILS_OK, f) => (PARSERUTILS_OK, Some f)
  | (error, _) => (error, None)
  end.

(** parserutils__filter_setopt, whose only option is the encoding. *)
Definition parserutils__filter_setopt (input : filter) (enc : bytes)
  : parserutils_error * filter := filter_set_encoding input enc.

Definition replacement : bytes := [0xef; 0xbf; 0xbd].

(** One call of iconv on what is left of the input: the descriptor, the rest
    of the input, the output so far and the space left change. *)
Record conversion := {
  cv_cd : CD;
  cv_data : bytes;
  cv_output : bytes;
  cv_outlen : Z
}.

Definition convert (c : conversion) : option iconv_errno * conversion :=
  let r := iconv (cv_cd c) (cv_data c) (cv_outlen c) in
  (ir_error r,
   {| cv_cd := ir_cd r; cv_data := zdrop (ir_consumed r) (cv_data c);
      cv_output := cv_output c ++ ir_output r;
      cv_outlen := cv_outlen c - zlen (ir_output r) |}).

(** U+FFFD for the offending byte. *)
Definition replace_byte (c : conversion) : conversion :=
  {| cv_cd := cv_cd c; cv_data := zdrop 1 (cv_data c);
     cv_output := cv_output c ++ replacement; cv_outlen := cv_outlen c - 3 |}.

(** The [while] after an illegal sequence; [fuel] is the input left. *)
Fixpoint replace_loop (fuel : nat) (c : conversion) : option (parserutils_error * conversion) :=
  match cv_data c, fuel with
  | [], _ => Some (PARSERUTILS_OK, c)
  | _, O => None
  | _, S fuel =>
      match convert c with
      | (Some EILSEQ, c) =>
          if cv_outlen c <? 3 then Some (PARSERUTILS_NOMEM, c)
          else replace_loop fuel (replace_byte c)
      | (Some E2BIG, c) => Some (PARSERUTILS_NOMEM, c)
      | (_, c) => Some (PARSERUTILS_OK, c)
      end
  end.

Definition process_conversion (c : conversion) : option (parserutils_error * conversion) :=
  match convert c with
  | (Some E2BIG, c) => Some (PARSERUTILS_NOMEM, c)
  | (Some EILSEQ, c) =>
      if cv_outlen c <? 3 then Some (PARSERUTILS_NOMEM, c)
      else let c := replace_byte c in replace_loop (List.length (cv_data c)) c
  | (_, c) => Some (PARSERUTILS_OK, c)
  end.

(** parserutils__filter_process_chunk: the rest of [data], what was written
    and the space left.  Without a descriptor iconv has nothing to act on. *)
Definition parserutils__filter_process_chunk (input : filter) (data : bytes) (outlen : Z)
  : option (parserutils_error * filter * bytes * bytes * Z) :=
  cd ← f_cd input;
  '(error, c) ← process_conversion
    {| cv_cd := cd; cv_data := data; cv_output := []; cv_outlen := outlen |};
  Some (error,
        {| f_cd := Some (cv_cd c); f_int_enc := f_int_enc input;
           f_encoding := f_encoding input |},
        cv_data c, cv_output c, cv_outlen c).

(** ** The stream *)

Definition SIZEOF_STREAM : Z := 80.

Definition parserutils_inputstream_create (enc : option bytes) (encsrc : Z)
    (csdetect : option detect_fn)
  : parserutils_error * option stream :=
  if negb (malloc_ok SIZEOF_STREAM) then (PARSERUTILS_NOMEM, None) else
  match parserutils_buffer_create malloc_ok with
  | (PARSERUTILS_OK, Some raw) =>
  match parserutils_buffer_create malloc_ok with
  | (PARSERUTILS_OK, Some utf8) =>
  match parserutils__filter_create name_utf8 with
  | (PARSERUTILS_OK, Some input) =>
      let s mibenum encsrc input :=
        {| is_utf8 := utf8; is_cursor := 0; is_had_eof := false; is_raw := raw;
           is_done_first_chunk := false; is_mibenum := mibenum; is_encsrc := encsrc;
           is_filter := input; is_csdetect := csdetect |} in
      match enc with
      | Some enc =>
          let mibenum := mibenum_from_name enc in
          if mibenum =? 0 then (PARSERUTILS_BADENCODING, None) else
          match parserutils__filter_setopt input enc with
          | (PARSERUTILS_OK, input) => (PARSERUTILS_OK, Some (s mibenum encsrc input))
          | (error, _) => (error, None)
          end
      | None => (PARSERUTILS_OK, Some (s 0 0 input))
      end
  | (error, _) => (error, None)
  end
  | (error, _) => (error, None)
  end
  | (error, _) => (error, None)
  end.

Definition set_raw (raw : parserutils_buffer) (s : stream) : stream :=
  {| is_utf8 := is_utf8 s; is_cursor := is_cursor s; is_had_eof := is_had_eof s;
     is_raw := raw; is_done_first_chunk := is_done_first_chunk s;
     is_mibenum := is_mibenum s; is_encsrc := is_encsrc s; is_filter := is_filter s;
     is_csdetect := is_csdetect s |}.
Definition set_utf8 (utf8 : parserutils_buffer) (cursor : Z) (s : stream) : stream :=
  {| is_utf8 := utf8; is_cursor := cursor; is_had_eof := is_had_eof s;
     is_raw := is_raw s; is_done_first_chunk := is_done_first_chunk s;
     is_mibenum := is_mibenum s; is_encsrc := is_encsrc s; is_filter := is_filter s;
     is_csdetect := is_csdetect s |}.
Definition set_charset (mibenum encsrc : Z) (s : stream) : stream :=
  {| is_utf8 := is_utf8 s; is_cursor := is_cursor s; is_had_eof := is_had_eof s;
     is_raw := is_raw s; is_done_first_chunk := is_done_first_chunk s;
     is_mibenum := mibenum; is_encsrc := encsrc; is_filter := is_filter s;
     is_csdetect := is_csdetect s |}.
Definition set_filter (input : filter) (s : stream) : stream :=
  {| is_utf8 := is_utf8 s; is_cursor := is_cursor s; is_had_eof := is_had_eof s;
     is_raw := is_raw s; is_done_first_chunk := is_done_first_chunk s;
     is_mibenum := is_mibenum s; is_encsrc := is_encsrc s; is_filter := input;
     is_csdetect := is_csdetect s |}.
Definition set_flags (had_eof done_first_chunk : bool) (s : stream) : stream :=
  {| is_utf8 := is_utf8 s; is_cursor := is_cursor s; is_had_eof := had_eof;
     is_raw := is_raw s; is_done_first_chunk := done_first_chunk;
     is_mibenum := is_mibenum s; is_encsrc := is_encsrc s; is_filter := is_filter s;
     is_csdetect := is_csdetect s |}.

(** Data, or [None] to flag the end of input. *)
Definition parserutils_inputstream_append (s : stream) (data : option bytes)
  : option (parserutils_error * stream) :=
  match data with
  | None => Some (PARSERUTILS_OK, set_flags true (is_done_first_chunk s) s)
  | Some d =>
      '(error, raw) ← parserutils_buffer_append realloc_ok (is_raw s) d;
      Some (error, set_raw raw s)
  end.

Definition parserutils_inputstream_insert (s : stream) (d : bytes)
  : option (parserutils_error * stream) :=
  '(error, utf8) ← parserutils_buffer_insert realloc_ok (is_utf8 s) (is_cursor s) d;
  Some (error, set_utf8 utf8 (is_cursor s) s).

(** Does the buffer start with [bom]?  The length is tested first. *)
Definition has_bom (bom : bytes) (buffer : parserutils_buffer) : bool :=
  (zlen bom <=? buf_length buffer) && bool_decide (ztake (zlen bom) (buf_bytes buffer) = bom).

Definition BOM_UTF8 : bytes := [0xEF; 0xBB; 0xBF].
Definition BOM_UTF16BE : bytes := [0xFE; 0xFF].
Definition BOM_UTF16LE : bytes := [0xFF; 0xFE].
Definition BOM_UTF32BE : bytes := [0x00; 0x00; 0xFE; 0xFF].
Definition BOM_UTF32LE : bytes := [0xFF; 0xFE; 0x00; 0x00].

Definition discard_bom (bom : bytes) (mibenum : Z) (buffer : parserutils_buffer)
  : option (parserutils_error * Z * parserutils_buffer) :=
  '(error, buffer) ← parserutils_buffer_discard buffer 0 (zlen bom);
  Some (error, mibenum, buffer).

(** parserutils_inputstream_strip_bom *)
Definition parserutils_inputstream_strip_bom (mibenum : Z) (buffer : parserutils_buffer)
  : option (parserutils_error * Z * parserutils_buffer) :=
  let utf8 := mibenum_from_name name_utf8 in
  let utf16 := mibenum_from_name name_utf16 in
  let utf16be := mibenum_from_name name_utf16be in
  let utf16le := mibenum_from_name name_utf16le in
  let utf32 := mibenum_from_name name_utf32 in
  let utf32be := mibenum_from_name name_utf32be in
  let utf32le := mibenum_from_name name_utf32le in
  let strip bom mibenum :=
    if has_bom bom buffer then discard_bom bom mibenum buffer
    else Some (PARSERUTILS_OK, mibenum, buffer) in
  if mibenum =? utf8 then strip BOM_UTF8 mibenum
  else if mibenum =? utf16be then strip BOM_UTF16BE mibenum
  else if mibenum =? utf16le then strip BOM_UTF16LE mibenum
  else if mibenum =? utf16 then
    if has_bom BOM_UTF16BE buffer then discard_bom BOM_UTF16BE utf16be buffer
    else if has_bom BOM_UTF16LE buffer then discard_bom BOM_UTF16LE utf16le buffer
    else Some (PARSERUTILS_OK, utf16be, buffer)
  else if mibenum =? utf32be then strip BOM_UTF32BE mibenum
  else if mibenum =? utf32le then strip BOM_UTF32LE mibenum
  else if mibenum =? utf32 then
    if has_bom BOM_UTF32BE buffer then discard_bom BOM_UTF32BE utf32be buffer
    else if has_bom BOM_UTF32LE buffer then discard_bom BOM_UTF32LE utf32le buffer
    else Some (PARSERUTILS_OK, utf32be, buffer)
  else Some (PARSERUTILS_OK, mibenum, buffer).

(** The first part of refill: charset detection and the BOM. *)
Definition detect_charset (s : stream) : option (parserutils_error * stream) :=
  match is_csdetect s with
  | None => Some (PARSERUTILS_OK, s)
  | Some detect =>
      '(error, mibenum, encsrc) ← detect (buf_bytes (is_raw s)) (is_mibenum s) (is_encsrc s);
      let s := set_charset mibenum encsrc s in
      match error with
      | PARSERUTILS_OK => Some (PARSERUTILS_OK, s)
      | PARSERUTILS_NEEDDATA =>
          Some (if is_had_eof s then PARSERUTILS_OK else error, s)
      | _ => Some (error, s)
      end
  end.

(** With the charset known: strip the mark and set up the filter. *)
Definition settle_charset (s : stream) : option (parserutils_error * stream) :=
  let s := if is_mibenum s =? 0
           then set_charset (mibenum_from_name name_utf8) 0 s else s in
  if is_mibenum s =? 0 then None  (* assert *) else
  '(error, mibenum, raw) ←
    parserutils_inputstream_strip_bom (is_mibenum s) (is_raw s);
  let s := set_raw raw (set_charset mibenum (is_encsrc s) s) in
  match error with
  | PARSERUTILS_OK =>
      let '(error, input) :=
        parserutils__filter_setopt (is_filter s) (mibenum_to_name (is_mibenum s)) in
      let s := set_filter input s in
      match error with
      | PARSERUTILS_OK => Some (PARSERUTILS_OK, set_flags (is_had_eof s) true s)
      | _ => Some (error, s)
      end
  | _ => Some (error, s)
  end.

Definition first_chunk (s : stream) : option (parserutils_error * stream) :=
  '(error, s) ← detect_charset s;
  match error with
  | PARSERUTILS_OK => settle_charset s
  | _ => Some (error, s)
  end.

(** Make room in the UTF-8 buffer: reuse it when all of it has been read, else
    move what is unread to its bottom and extend it when it is over half
    full.  When the extension fails the text has already been moved. *)
Definition make_room (s : stream) : option (parserutils_error * stream) :=
  let utf8 := is_utf8 s in
  if is_cursor s =? buf_length utf8 then Some (PARSERUTILS_OK, s) else
  rest ← mem_read (buf_data utf8 + is_cursor s) (u64 (buf_length utf8 - is_cursor s))
                  (buf_alloc utf8);
  m ← mem_write (buf_data utf8) rest (buf_alloc utf8);
  let utf8 :=
    {| buf_alloc := m; buf_data := buf_data utf8;
       buf_length := u64 (buf_length utf8 - is_cursor s);
       buf_allocated := buf_allocated utf8 |} in
  if buf_allocated utf8 / 2 <? buf_length utf8 then
    let '(error, utf8) := parserutils_buffer_grow realloc_ok utf8 in
    Some (error, set_utf8 utf8 (is_cursor s) s)
  else Some (PARSERUTILS_OK, set_utf8 utf8 (is_cursor s) s).

(** Convert raw data into the UTF-8 buffer, after the [kept] bytes of it that
    have not been read. *)
Definition fill_utf8 (kept : Z) (s : stream) : option (parserutils_error * stream) :=
  let utf8 := is_utf8 s in
  let space := u64 (buf_allocated utf8 - kept) in
  '(error, input, raw_rest, out, space) ←
    parserutils__filter_process_chunk (is_filter s) (buf_bytes (is_raw s)) space;
  m ← mem_write (buf_data utf8 + kept) out (buf_alloc utf8);
  let utf8 := {| buf_alloc := m; buf_data := buf_data utf8;
                 buf_length := buf_length utf8; buf_allocated := buf_allocated utf8 |} in
  let s := set_filter input (set_utf8 utf8 (is_cursor s) s) in
  match error with
  | PARSERUTILS_OK | PARSERUTILS_NOMEM =>
      '(error, raw) ← parserutils_buffer_discard (is_raw s) 0
                        (buf_length (is_raw s) - zlen raw_rest);
      let s := set_raw raw s in
      match error with
      | PARSERUTILS_OK =>
          let utf8 := {| buf_alloc := m; buf_data := buf_data utf8;
                         buf_length := u64 (buf_allocated utf8 - space);
                         buf_allocated := buf_allocated utf8 |} in
          Some (PARSERUTILS_OK, set_utf8 utf8 0 s)
      | _ => Some (error, s)
      end
  | _ => Some (error, s)
  end.

Definition parserutils_inputstream_refill_buffer (s : stream)
  : option (parserutils_error * stream) :=
  '(error, s) ← (if is_done_first_chunk s then Some (PARSERUTILS_OK, s) else first_chunk s);
  match error with
  | PARSERUTILS_OK =>
      let all_read := is_cursor s =? buf_length (is_utf8 s) in
      '(error, s) ← make_room s;
      match error with
      | PARSERUTILS_OK => fill_utf8 (if all_read then 0 else buf_length (is_utf8 s)) s
      | _ => Some (error, s)
      end
  | _ => Some (error, s)
  end.

(** The character at offset [off] of the UTF-8 buffer: a pointer to it and the
    length its first byte announces. *)
Definition peek_at (utf8 : parserutils_buffer) (off : Z) : option peek_result :=
  c ← znth (buf_alloc utf8) (buf_data utf8 + off);
  let ptr := zdrop (buf_data utf8 + off) (buf_alloc utf8) in
  if Z.land c 0x80 =? 0 then Some (PeekOk ptr 1)
  else
    '(error, len) ← utf8_char_byte_length ptr;
    Some (match error with
          | PARSERUTILS_OK => PeekOk ptr len
          | _ => PeekErr error
          end).

Definition parserutils_inputstream_peek_slow (s : stream) (offset : Z)
  : option (peek_result * stream) :=
  if buf_length (is_raw s) =? 0 then
    Some (PeekErr (if is_had_eof s then PARSERUTILS_EOF else PARSERUTILS_NEEDDATA), s)
  else
    '(error, s) ← parserutils_inputstream_refill_buffer s;
    match error with
    | PARSERUTILS_OK =>
        let off := u64 (is_cursor s + offset) in
        if off =? buf_length (is_utf8 s) then Some (PeekErr PARSERUTILS_NEEDDATA, s)
        else r ← peek_at (is_utf8 s) off; Some (r, s)
    | _ => Some (PeekErr error, s)
    end.

Definition parserutils_inputstream_peek (s : stream) (offset : Z)
  : option (peek_result * stream) :=
  let off := u64 (is_cursor s + offset) in
  if off <? buf_length (is_utf8 s) then
    r ← peek_at (is_utf8 s) off;
    match r with
    | PeekErr PARSERUTILS_NEEDDATA => parserutils_inputstream_peek_slow s offset
    | _ => Some (r, s)
    end
  else parserutils_inputstream_peek_slow s offset.

Definition parserutils_inputstream_advance (s : stream) (bytes : Z) : stream :=
  let room := u64 (buf_length (is_utf8 s) - is_cursor s) in
  let bytes := if room <? bytes then room else bytes in
  if is_cursor s =? buf_length (is_utf8 s) then s
  else set_utf8 (is_utf8 s) (u32 (is_cursor s + bytes)) s.

(** The charset's name and where it comes from. *)
Definition parserutils_inputstream_read_charset (s : stream) : bytes * Z :=
  (if is_encsrc s =? 0 then name_utf8 else mibenum_to_name (is_mibenum s), is_encsrc s).

Definition parserutils_inputstream_change_charset (s : stream) (enc : bytes) (source : Z)
  : parserutils_error * stream :=
  if is_done_first_chunk s then (PARSERUTILS_INVALID, s) else
  let temp := mibenum_from_name enc in
  if temp =? 0 then (PARSERUTILS_BADENCODING, s) else
  match parserutils__filter_setopt (is_filter s) enc with
  | (PARSERUTILS_OK, input) => (PARSERUTILS_OK, set_charset temp source (set_filter input s))
  | (error, input) => (error, set_filter input s)
  end.
End Stream.
