(* ===== verification/InputStreamSpec.v ===== *)
(** * InputStreamSpec: the input stream implements the interface of the
    tokeniser (src/input/filter.c and src/input/inputstream.c of libparserutils).

    What the stream relies on of iconv is stated by [iconv_law]; the sections
    below follow the code from one call of iconv up to the peek that refills the
    buffer. *)
From S2P Require Import Prelude.
From S2P Require Import Errors.
From S2P Require Import Utf8.
From S2P Require Import Interfaces.
From S2P Require Import Buffer.
From S2P Require Import InputStream.

(** ** Text *)

Lemma closed_text_app a b : closed_text a -> closed_text b -> closed_text (a ++ b).
Proof.
  intros Ha Hb i c Hc. pose proof (znth_Some_range _ _ _ Hc) as Hr. rewrite zlen_app in *.
  destruct (Z_lt_le_dec i (zlen a)).
  - rewrite znth_app_l in Hc by lia. specialize (Ha i c Hc). zlens; lia.
  - rewrite znth_app_r in Hc by lia. specialize (Hb _ c Hc). lia.
Qed.

Lemma utf8_text_app a b : utf8_text a -> utf8_text b -> utf8_text (a ++ b).
Proof.
  intros [? ?] [? ?]. split; [by apply closed_text_app|by apply Forall_app].
Qed.

Lemma utf8_text_nil : utf8_text [].
Proof. split; [|constructor]. intros i c Hc. apply znth_Some_range in Hc. change (zlen (@nil Z)) with 0 in Hc; lia. Qed.

Lemma utf8_text_zdrop n s : 0 <= n -> utf8_text s -> utf8_text (zdrop n s).
Proof.
  intros Hn [Hc Ht]. split; [|by apply Forall_zdrop].
  intros i c Hi. pose proof (znth_Some_range _ _ _ Hi) as Hr. rewrite zlen_zdrop in *.
  rewrite znth_zdrop in Hi by lia. specialize (Hc _ _ Hi). lia.
Qed.

Lemma replacement_text : utf8_text replacement.
Proof.
  split.
  - intros i c Hc. pose proof (znth_Some_range _ _ _ Hc) as Hr.
    change (zlen replacement) with 3 in *.
    assert (i = 0 \/ i = 1 \/ i = 2) as [->|[->| ->]] by lia; injection Hc as <-; vm_compute; discriminate.
  - repeat constructor; lia.
Qed.

Section Filter.
Context {CD : Type}.
Context (iconv : CD -> bytes -> Z -> iconv_result CD).
(** Output the descriptor still owes for input it has consumed, and the most
    octets it writes for one octet of input. *)
Context (cd_pending : CD -> Z) (K : Z).

(** iconv to UTF-8, as documented: it consumes a prefix of the input, writes
    whole characters within the space given, at most [K] octets for each it
    consumes, and stops at an illegal sequence before consuming it. *)
Record iconv_law : Prop := {
  il_pending cd : 0 <= cd_pending cd;
  il_consumed cd data space : 0 <= space ->
    0 <= ir_consumed (iconv cd data space) <= zlen data;
  il_space cd data space : 0 <= space -> zlen (ir_output (iconv cd data space)) <= space;
  il_text cd data space : 0 <= space -> utf8_text (ir_output (iconv cd data space));
  il_growth cd data space : 0 <= space ->
    zlen (ir_output (iconv cd data space)) + cd_pending (ir_cd (iconv cd data space))
    <= K * ir_consumed (iconv cd data space) + cd_pending cd;
  il_illegal cd data space : 0 <= space ->
    ir_error (iconv cd data space) = Some EILSEQ ->
    ir_consumed (iconv cd data space) < zlen data
}.

Hypothesis law : iconv_law.
Hypothesis growth : 3 <= K.

(** From [c] to [c'], [k] octets were consumed and [out] was written. *)
Definition converted (c c' : conversion) : Prop :=
  exists k out, 0 <= k <= zlen (cv_data c) /\ cv_data c' = zdrop k (cv_data c) /\
    cv_output c' = cv_output c ++ out /\ utf8_text out /\
    cv_outlen c' = cv_outlen c - zlen out /\ 0 <= cv_outlen c' /\
    zlen out + cd_pending (cv_cd c') <= K * k + cd_pending (cv_cd c).

Lemma converted_trans c1 c2 c3 : converted c1 c2 -> converted c2 c3 -> converted c1 c3.
Proof.
  intros (k & out & Hk & Hd & Ho & Ht & Hl & Hp & Hg)
         (k' & out' & Hk' & Hd' & Ho' & Ht' & Hl' & Hp' & Hg').
  assert (Hz : zlen (cv_data c2) = zlen (cv_data c1) - k) by (rewrite Hd, zlen_zdrop; lia).
  exists (k + k'), (out ++ out'). split; [lia|]. split.
  { rewrite Hd', Hd, zdrop_zdrop by lia. done. }
  split; [by rewrite Ho', Ho, app_assoc|]. split; [by apply utf8_text_app|].
  rewrite zlen_app. split; [lia|]. split; [lia|lia].
Qed.

Lemma convert_spec c :
  0 <= cv_outlen c ->
  let r := convert iconv c in
  converted c r.2 /\ (r.1 = Some EILSEQ -> cv_data r.2 <> []).
Proof.
  intros Hc r. unfold r, convert. cbn [fst snd].
  pose proof (il_consumed law (cv_cd c) (cv_data c) (cv_outlen c) Hc).
  pose proof (il_space law (cv_cd c) (cv_data c) (cv_outlen c) Hc).
  pose proof (il_text law (cv_cd c) (cv_data c) (cv_outlen c) Hc).
  pose proof (il_growth law (cv_cd c) (cv_data c) (cv_outlen c) Hc).
  split.
  - eexists _, _. cbn [cv_data cv_output cv_outlen cv_cd].
    split; [|split; [reflexivity|]]; [done|]. split; [reflexivity|].
    split; [done|]. split; [done|]. split; [lia|done].
  - intros He Hn. pose proof (il_illegal law _ _ _ Hc He). cbn [cv_data] in Hn.
    apply (f_equal zlen) in Hn. rewrite zlen_zdrop in Hn. change (zlen (@nil Z)) with 0 in Hn. lia.
Qed.

Lemma replace_byte_spec c :
  cv_data c <> [] -> 3 <= cv_outlen c ->
  converted c (replace_byte c) /\ length (cv_data c) = S (length (cv_data (replace_byte c))).
Proof.
  intros Hn Hl. destruct (cv_data c) as [|b d] eqn:Ed; [done|]. split.
  - exists 1, replacement. unfold replace_byte. cbn [cv_data cv_output cv_outlen cv_cd].
    rewrite Ed, zlen_cons. pose proof (zlen_nonneg d). change (zlen replacement) with 3.
    split; [lia|]. split; [done|]. split; [done|]. split; [apply replacement_text|]. lia.
  - unfold replace_byte. cbn [cv_data]. by rewrite Ed.
Qed.

(** The conversion ends, with success or for want of space. *)
Definition conversion_post (c : conversion) (r : option (parserutils_error * conversion)) : Prop :=
  exists e c', r = Some (e, c') /\ converted c c' /\
    (e = PARSERUTILS_OK \/ e = PARSERUTILS_NOMEM).

Lemma conversion_post_trans c c1 r : converted c c1 -> conversion_post c1 r -> conversion_post c r.
Proof.
  intros H (e & c' & -> & H' & He). exists e, c'. split; [done|]. split; [|done].
  by eapply converted_trans.
Qed.

Lemma converted_shrinks c c' :
  converted c c' -> (length (cv_data c') <= length (cv_data c))%nat /\ 0 <= cv_outlen c'.
Proof.
  intros (k & out & Hk & -> & _ & _ & _ & ? & _). split; [|done].
  unfold zdrop. rewrite length_drop. lia.
Qed.

Lemma replace_loop_spec fuel c :
  (length (cv_data c) <= fuel)%nat -> 0 <= cv_outlen c ->
  conversion_post c (replace_loop iconv fuel c).
Proof.
  revert c; induction fuel as [|fuel IH]; intros c Hf Hl.
  - assert (cv_data c = []) as E by (destruct (cv_data c); [done|cbn in Hf; lia]).
    cbn [replace_loop]. rewrite E. exists PARSERUTILS_OK, c. split; [done|]. split; [|by left].
    exists 0, []. rewrite zdrop_le0, app_nil_r by lia. change (zlen (@nil Z)) with 0. zlens.
    split; [lia|]. do 2 (split; [done|]). split; [apply utf8_text_nil|]. lia.
  - cbn [replace_loop]. destruct (cv_data c) as [|b d] eqn:Ed.
    { exists PARSERUTILS_OK, c. split; [done|]. split; [|by left].
      exists 0, []. rewrite zdrop_le0, app_nil_r by lia. change (zlen (@nil Z)) with 0. zlens.
      split; [lia|]. do 2 (split; [done|]). split; [apply utf8_text_nil|]. lia. }
    rewrite <- Ed in Hf. destruct (convert_spec c Hl) as [Hc He].
    destruct (converted_shrinks _ _ Hc) as [Hs Hp].
    destruct (convert iconv c) as [err c1]. cbn [fst snd] in *.
    destruct err as [[]|]; try (eexists _, c1; split; [done|]; split; [done|]; auto).
    destruct (Z.ltb_spec (cv_outlen c1) 3).
    { exists PARSERUTILS_NOMEM, c1. auto. }
    destruct (replace_byte_spec c1 (He eq_refl) ltac:(lia)) as [Hr Hsz].
    eapply conversion_post_trans; [exact Hc|]. eapply conversion_post_trans; [exact Hr|].
    apply IH; [lia|]. by destruct (converted_shrinks _ _ Hr).
Qed.

Lemma process_conversion_spec c :
  0 <= cv_outlen c -> conversion_post c (process_conversion iconv c).
Proof.
  intros Hl. unfold process_conversion. destruct (convert_spec c Hl) as [Hc He].
  destruct (convert iconv c) as [err c1]. cbn [fst snd] in *.
  destruct err as [[]|]; try (eexists _, c1; split; [done|]; split; [done|]; auto).
  destruct (Z.ltb_spec (cv_outlen c1) 3); [exists PARSERUTILS_NOMEM, c1; auto|].
  destruct (replace_byte_spec c1 (He eq_refl) ltac:(lia)) as [Hr Hsz].
  eapply conversion_post_trans; [exact Hc|]. eapply conversion_post_trans; [exact Hr|].
  apply replace_loop_spec; [done|]. by destruct (converted_shrinks _ _ Hr).
Qed.

(** A chunk is converted until the input or the space runs out: the filter
    consumes a prefix of the input, writes well-formed text into the space it
    was given and replaces every illegal octet. *)
Lemma process_chunk_ok (input : parserutils_filter CD) cd data outlen :
  f_cd input = Some cd -> 0 <= outlen ->
  exists e input' rest out k,
    parserutils__filter_process_chunk iconv input data outlen
      = Some (e, input', rest, out, outlen - zlen out) /\
    (e = PARSERUTILS_OK \/ e = PARSERUTILS_NOMEM) /\
    0 <= k <= zlen data /\ rest = zdrop k data /\ utf8_text out /\ zlen out <= outlen /\
    exists cd', f_cd input' = Some cd' /\
      zlen out + cd_pending cd' <= K * k + cd_pending cd.
Proof.
  intros Hcd Hl. unfold parserutils__filter_process_chunk. rewrite Hcd. cbn [mbind option_bind].
  destruct (process_conversion_spec
    {| cv_cd := cd; cv_data := data; cv_output := []; cv_outlen := outlen |} Hl)
    as (e & c' & -> & (k & out & Hk & Hd & Ho & Ht & Hz & Hp & Hg) & He).
  cbn [cv_cd cv_data cv_output cv_outlen] in *. cbn [mbind option_bind].
  eexists e, _, _, out, k. rewrite Hd, Ho, Hz. cbn [app]. split; [reflexivity|].
  split; [done|]. split; [done|]. split; [done|]. split; [done|]. split; [lia|].
  eexists; split; [reflexivity|]. exact Hg.
Qed.
End Filter.

(** ** The stream *)
Section Stream.
Context {CD : Type}.
Context (iconv_open : bytes -> bytes -> CD + iconv_errno)
        (iconv : CD -> bytes -> Z -> iconv_result CD).
Context (mibenum_from_name : bytes -> Z) (mibenum_to_name : Z -> bytes).
Context (realloc_ok : Z -> bool) (cd_pending : CD -> Z) (K : Z).
Local Abbreviation stream := (parserutils_inputstream CD).
Implicit Types s : stream.

(** The environment: iconv, a fresh descriptor that owes nothing, a charset
    table that knows UTF-8, and memory of less than 4 GB, the range of the
    32-bit cursor. *)
Record stream_env : Prop := {
  se_iconv : iconv_law iconv cd_pending K;
  se_growth : 3 <= K;
  se_open a b cd : iconv_open a b = inl cd -> cd_pending cd = 0;
  se_utf8 : mibenum_from_name name_utf8 <> 0;
  se_memory : realloc_below (2 ^ 32) realloc_ok
}.

(** A charset detector reads only its data and never answers that the input has
    ended or is invalid. *)
Definition detector_ok (f : option detect_fn) : Prop :=
  match f with
  | None => True
  | Some detect => forall d m src, exists e m' src',
      detect d m src = Some (e, m', src') /\ e <> PARSERUTILS_EOF /\
      e <> PARSERUTILS_INVALID
  end.

(** The text between the cursor and the end of the UTF-8 buffer. *)
Definition unread s : bytes := zdrop (is_cursor s) (buf_bytes (is_utf8 s)).

(** What the descriptor still owes. *)
Definition owed s : Z :=
  match f_cd (is_filter s) with Some cd => cd_pending cd | None => 0 end.

Definition stream_total s : Z := zlen (unread s) + K * buf_length (is_raw s) + owed s.

Definition stream_ended s : Prop := is_had_eof s = true /\ buf_length (is_raw s) = 0.

Record stream_wf s : Prop := {
  sw_raw : wf_buffer (is_raw s);
  sw_utf8 : wf_buffer (is_utf8 s);
  sw_data : buf_data (is_utf8 s) = 0;
  sw_cursor : 0 <= is_cursor s <= buf_length (is_utf8 s);
  sw_text : utf8_text (unread s);
  sw_memory : buf_allocated (is_utf8 s) < 2 ^ 32;
  sw_filter : exists cd, f_cd (is_filter s) = Some cd;
  sw_detector : detector_ok (is_csdetect s)
}.

Hypothesis env : stream_env.

Lemma memory_bounded : realloc_bounded realloc_ok.
Proof. intros n Hn. apply (se_memory env) in Hn. unfold ALLOC_MAX. lia. Qed.

Lemma owed_nonneg s : 0 <= owed s.
Proof. unfold owed. destruct (f_cd _); [apply (il_pending _ _ _ (se_iconv env))|lia]. Qed.

Lemma unread_length s :
  stream_wf s -> zlen (unread s) = buf_length (is_utf8 s) - is_cursor s.
Proof.
  intros []. unfold unread. rewrite zlen_zdrop, zlen_buf_bytes by done. lia.
Qed.

Lemma stream_sizes s :
  stream_wf s ->
  0 <= is_cursor s /\ is_cursor s + zlen (unread s) = buf_length (is_utf8 s) /\
  buf_length (is_utf8 s) < 2 ^ 32 /\ 0 <= buf_length (is_raw s) /\
  zlen (unread s) <= stream_total s.
Proof.
  intros Hw. pose proof (unread_length s Hw). pose proof (owed_nonneg s).
  pose proof (se_growth env). destruct Hw as [[] [] ? ? ? ? ? ?].
  unfold stream_total. split_and!; nia.
Qed.

(** ** Reading a character *)

Lemma peek_at_spec s off c :
  stream_wf s -> znth (unread s) off = Some c ->
  exists stale, peek_at (is_utf8 s) (is_cursor s + off) =
    Some (PeekOk (zdrop off (unread s) ++ stale) (char_len c)).
Proof.
  intros Hw Hc. pose proof (znth_Some_range _ _ _ Hc) as Hr.
  pose proof (unread_length s Hw). destruct Hw as [_ [] Hd ? Ht _ _ _].
  set (b := is_utf8 s) in *. exists (zdrop (buf_length b) (buf_alloc b)).
  assert (Ha : buf_alloc b = buf_bytes b ++ zdrop (buf_length b) (buf_alloc b)).
  { unfold buf_bytes. rewrite Hd, (zdrop_le0 0) by lia. by rewrite ztake_zdrop. }
  assert (Hl : zlen (buf_bytes b) = buf_length b) by (apply zlen_buf_bytes; by split).
  assert (Hn : znth (buf_alloc b) (is_cursor s + off) = Some c).
  { rewrite Ha, znth_app_l by lia. unfold unread in Hc. fold b in Hc.
    by rewrite znth_zdrop in Hc by lia. }
  assert (Hp : zdrop (is_cursor s + off) (buf_alloc b)
               = zdrop off (unread s) ++ zdrop (buf_length b) (buf_alloc b)).
  { rewrite Ha at 1. rewrite zdrop_app_le by lia. unfold unread. fold b.
    by rewrite zdrop_zdrop by lia. }
  unfold peek_at. rewrite Hd, Z.add_0_l, Hn. cbn [mbind option_bind]. rewrite Hp.
  pose proof (Forall_znth text_byte _ _ _ (proj2 Ht) Hc) as Hb. unfold text_byte in Hb.
  destruct (Z.eqb_spec (Z.land c 0x80) 0) as [E|E].
  - assert (char_len c = 1) as ->; [|done]. apply char_len_ascii.
    pose proof (byte_forallb (fun c => negb (Z.land c 0x80 =? 0) || (c <? 128))
      ltac:(by vm_compute) c ltac:(unfold is_byte; lia)) as Hf. cbn beta in Hf.
    rewrite E in Hf. cbn in Hf. zbool. lia.
  - rewrite (zdrop_cons_znth off (unread s) c) by (done || lia).
    cbn [app utf8_char_byte_length mbind option_bind]. done.
Qed.

Lemma peek_available s off c :
  stream_wf s -> znth (unread s) off = Some c ->
  exists stale, parserutils_inputstream_peek iconv_open iconv mibenum_from_name
      mibenum_to_name realloc_ok s off =
    Some (PeekOk (zdrop off (unread s) ++ stale) (char_len c), s).
Proof.
  intros Hw Hc. destruct (peek_at_spec s off c Hw Hc) as [stale Hp]. exists stale.
  pose proof (znth_Some_range _ _ _ Hc). pose proof (stream_sizes s Hw).
  unfold parserutils_inputstream_peek. rewrite u64_small by lia.
  destruct (Z.ltb_spec (is_cursor s + off) (buf_length (is_utf8 s))); [|lia].
  rewrite Hp. done.
Qed.

(** ** Making room *)

(** The unread text, moved to the bottom of the buffer and followed by room. *)
Definition room (s s' : stream) (kept : Z) : Prop :=
  wf_buffer (is_utf8 s') /\ buf_data (is_utf8 s') = 0 /\
  buf_allocated (is_utf8 s') < 2 ^ 32 /\ kept = zlen (unread s) /\
  ztake kept (buf_alloc (is_utf8 s')) = unread s /\ kept <= buf_allocated (is_utf8 s') /\
  is_raw s' = is_raw s /\ is_filter s' = is_filter s /\ is_csdetect s' = is_csdetect s /\
  is_had_eof s' = is_had_eof s /\ is_done_first_chunk s' = is_done_first_chunk s.

Lemma make_room_spec s :
  stream_wf s ->
  exists e s', make_room realloc_ok s = Some (e, s') /\
    (e = PARSERUTILS_NOMEM \/
     e = PARSERUTILS_OK /\
     room s s' (if is_cursor s =? buf_length (is_utf8 s) then 0 else buf_length (is_utf8 s'))).
Proof.
  intros Hw. pose proof (unread_length s Hw) as Hul. pose proof (stream_sizes s Hw).
  pose proof Hw as [_ Hwu Hd ? _ Hmem _ _].
  unfold make_room. set (b := is_utf8 s) in *.
  destruct (Z.eqb_spec (is_cursor s) (buf_length b)) as [E|E].
  { exists PARSERUTILS_OK, s. split; [done|]. right. split; [done|].
    assert (unread s = []) as Hu by (apply zlen_zero_inv; lia).
    unfold room. rewrite Hu, ztake_le0 by lia. fold b.
    pose proof (wf_size _ Hwu). split_and!; done || lia. }
  assert (Hm : mem_read (buf_data b + is_cursor s) (u64 (buf_length b - is_cursor s))
                 (buf_alloc b) = Some (unread s)).
  { destruct Hwu. rewrite u64_small, mem_read_in by lia. f_equal. unfold unread, buf_bytes.
    fold b. rewrite Hd, (zdrop_le0 0), Z.add_0_l by lia.
    rewrite ztake_zdrop_comm by lia. do 2 f_equal; lia. }
  rewrite Hm. cbn [mbind option_bind]. pose proof Hwu as [].
  rewrite mem_write_in by lia. cbn [mbind option_bind].
  rewrite u64_small by lia. cbn [buf_allocated buf_length].
  set (m := zwrite (buf_data b) (unread s) (buf_alloc b)).
  assert (Hzm : zlen m = buf_allocated b) by (unfold m; rewrite zlen_zwrite; lia).
  assert (Htm : ztake (zlen (unread s)) m = unread s).
  { unfold m, zwrite. rewrite Hd, (ztake_le0 0) by lia. cbn [app].
    rewrite ztake_app_le by lia. apply ztake_ge; lia. }
  set (b1 := Build_parserutils_buffer _ _ _ _).
  assert (Hw1 : wf_buffer b1) by (split; cbn; lia).
  assert (Hb1 : buf_bytes b1 = unread s).
  { unfold buf_bytes. cbn [b1 buf_length buf_data buf_alloc].
    rewrite Hd, (zdrop_le0 0), <- Hul by lia. exact Htm. }
  assert (Hroom : forall b2, wf_buffer b2 -> buf_data b2 = 0 -> buf_allocated b2 < 2 ^ 32 ->
            buf_bytes b2 = unread s -> buf_length b2 = zlen (unread s) ->
            room s (set_utf8 b2 (is_cursor s) s) (buf_length b2)).
  { intros b2 Hw2 Hd2 Ha2 Hb2 Hl2. unfold room. cbn [set_utf8 is_utf8 is_raw is_filter
      is_csdetect is_had_eof is_done_first_chunk].
    split; [done|]. split; [done|]. split; [done|]. split; [done|]. split.
    - rewrite <- Hb2. unfold buf_bytes. by rewrite Hd2, (zdrop_le0 0) by lia.
    - destruct Hw2. split_and!; done || lia. }
  destruct (_ <? _).
  - pose proof (grow_spec realloc_ok b1 Hw1 memory_bounded) as Hg.
    destruct (parserutils_buffer_grow realloc_ok b1) as [e b2] eqn:Eg.
    apply (grow_below (2 ^ 32)) in Eg; [|apply env|done].
    eexists _, _. split; [reflexivity|]. destruct e; try (left; apply Hg). right.
    destruct Hg as (Hw2 & Hb2 & Hl2 & Hd2 & _). split; [done|].
    apply (Hroom b2); [done|by rewrite Hd2|done|by rewrite Hb2|rewrite Hl2; cbn; lia].
  - eexists _, _. split; [reflexivity|]. right. split; [done|].
    apply (Hroom b1); done || lia.
Qed.

(** ** Filling the buffer *)

Definition failure (e : parserutils_error) : Prop :=
  e <> PARSERUTILS_OK /\ e <> PARSERUTILS_NEEDDATA /\ e <> PARSERUTILS_EOF /\
  e <> PARSERUTILS_INVALID.

(** [s'] is [s] after some input was converted: text was added at the end. *)
Definition refilled (s s' : stream) : Prop :=
  stream_wf s' /\ stream_total s' <= stream_total s /\ is_cursor s' = 0 /\
  exists out, unread s' = unread s ++ out.

Lemma zlen_zdrop_sub (l : bytes) k : 0 <= k <= zlen l -> zlen l - zlen (zdrop k l) = k.
Proof. intros. rewrite zlen_zdrop. lia. Qed.

(** The UTF-8 buffer once [out] was written after the text kept. *)
Lemma filled_buffer s s1 kept out :
  room s s1 kept -> zlen out <= buf_allocated (is_utf8 s1) - kept ->
  let b := {| buf_alloc := zwrite kept out (buf_alloc (is_utf8 s1)); buf_data := 0;
              buf_length := kept + zlen out; buf_allocated := buf_allocated (is_utf8 s1) |} in
  wf_buffer b /\ buf_bytes b = unread s ++ out.
Proof.
  intros ([] & Hd & _ & Hk & Ht & Hle & _) Ho b. pose proof (zlen_nonneg (unread s)).
  pose proof (zlen_nonneg out). split.
  - split; cbn; rewrite ?zlen_zwrite; unfold ALLOC_MAX in *; lia.
  - unfold buf_bytes. cbn [b buf_alloc buf_data buf_length].
    pose proof (window_zwrite_extend 0 kept out (buf_alloc (is_utf8 s1))) as Hw.
    rewrite Z.add_0_l, (zdrop_le0 0 (buf_alloc _)), Ht in Hw by lia. apply Hw; lia.
Qed.

(** A stream whose buffer holds the unread text and what [k] octets of raw data
    were converted to. *)
Lemma refilled_intro s s2 out k cd cd' :
  stream_wf s -> wf_buffer (is_utf8 s2) -> buf_data (is_utf8 s2) = 0 ->
  buf_allocated (is_utf8 s2) < 2 ^ 32 -> buf_bytes (is_utf8 s2) = unread s ++ out ->
  utf8_text out -> wf_buffer (is_raw s2) ->
  buf_length (is_raw s2) = buf_length (is_raw s) - k -> is_cursor s2 = 0 ->
  is_csdetect s2 = is_csdetect s ->
  f_cd (is_filter s) = Some cd -> f_cd (is_filter s2) = Some cd' ->
  zlen out + cd_pending cd' <= K * k + cd_pending cd -> refilled s s2.
Proof.
  intros Hw Hwb Hd Hm Hb Ho Hwr Hl Hc Hdet Hcd Hcd' Hg.
  pose proof (zlen_nonneg (buf_bytes (is_utf8 s2))) as Hn.
  rewrite zlen_buf_bytes in Hn by done.
  assert (Hu : unread s2 = unread s ++ out) by (unfold unread at 1; by rewrite Hc, zdrop_le0).
  split; [split; eauto|split; [|eauto]].
  - lia.
  - rewrite Hu. apply utf8_text_app; [apply Hw|done].
  - rewrite Hdet. apply Hw.
  - unfold stream_total, owed. rewrite Hu, Hl, Hcd, Hcd', zlen_app. lia.
Qed.

Lemma fill_utf8_spec s s1 kept cd :
  stream_wf s -> room s s1 kept -> f_cd (is_filter s) = Some cd ->
  exists e s2, fill_utf8 iconv kept s1 = Some (e, s2) /\
    (failure e \/ e = PARSERUTILS_OK /\ refilled s s2).
Proof.
  intros Hw Hroom Hcd. pose proof Hroom as (Hwu & Hd & Hmem & Hk & Ht & Hle & Hr & Hf & Hcs & _).
  pose proof (zlen_nonneg (unread s)). pose proof Hw as [Hwr _ _ _ Htxt _ _ Hdet].
  unfold fill_utf8. rewrite Hd, Hr, Hf. pose proof Hwu as [].
  rewrite u64_small by (unfold ALLOC_MAX in *; lia).
  destruct (process_chunk_ok iconv cd_pending K (se_iconv env) (se_growth env) (is_filter s) cd
    (buf_bytes (is_raw s)) (buf_allocated (is_utf8 s1) - kept) Hcd ltac:(lia))
    as (e & input & rest & out & k & -> & He & Hkr & -> & Hto & Hlo & cd' & Hcd' & Hg).
  cbn [mbind option_bind]. pose proof (zlen_nonneg out).
  rewrite mem_write_in by lia. cbn [mbind option_bind].
  cbn [set_filter set_utf8 is_raw]. rewrite Hr.
  pose proof (zlen_buf_bytes _ Hwr) as Hlr.
  assert (Hkz : buf_length (is_raw s) - zlen (zdrop k (buf_bytes (is_raw s))) = k)
    by (rewrite <- Hlr; by apply zlen_zdrop_sub).
  rewrite Hkz.
  destruct (filled_buffer s s1 kept out Hroom Hlo) as [Hwb Hbb].
  destruct (Z.eq_dec (buf_length (is_raw s)) 0) as [Hz|Hz].
  { (* nothing to discard from: the code answers BADPARM *)
    assert (Hdis : parserutils_buffer_discard (is_raw s) 0 k = Some (PARSERUTILS_BADPARM, is_raw s)).
    { unfold parserutils_buffer_discard.
      destruct (Z.leb_spec (buf_length (is_raw s)) 0); [done|lia]. }
    rewrite Hdis. destruct He as [->| ->]; cbn [mbind option_bind];
      (eexists _, _; split; [reflexivity|]; left; done). }
  destruct (discard_spec (is_raw s) 0 k Hwr) as (raw & Hdis & Hwraw & _ & Hbraw);
    [pose proof (zlen_nonneg (buf_bytes (is_raw s))); lia|lia|lia|].
  rewrite Hdis. rewrite Z.add_0_l, ztake_le0 in Hbraw by lia. cbn [app] in Hbraw.
  assert (Hlraw : buf_length raw = buf_length (is_raw s) - k).
  { rewrite <- (zlen_buf_bytes raw Hwraw), Hbraw, zlen_zdrop. lia. }
  destruct He as [->| ->]; cbn [mbind option_bind];
    (eexists _, _; split; [reflexivity|]; right; split; [done|]).
  all: cbn [set_raw set_utf8 set_filter is_utf8 buf_allocated buf_alloc].
  all: rewrite u64_small by (unfold ALLOC_MAX in *; lia).
  all: replace (buf_allocated (is_utf8 s1) - (buf_allocated (is_utf8 s1) - kept - zlen out))
         with (kept + zlen out) by lia.
  all: rewrite Z.add_0_l.
  all: by eapply (refilled_intro s _ out k cd cd').
Qed.

(** ** The first chunk *)

(** Everything but the text may have changed; less may be to come. *)
Definition undisturbed s s' : Prop :=
  stream_wf s' /\ stream_total s' <= stream_total s /\ unread s' = unread s.

Lemma undisturbed_refl s : stream_wf s -> undisturbed s s.
Proof. intros. split; [done|]. split; [lia|done]. Qed.

Lemma undisturbed_trans s1 s2 s3 : undisturbed s1 s2 -> undisturbed s2 s3 -> undisturbed s1 s3.
Proof. intros (? & ? & ?) (? & ? & ?). split; [done|]. split; [lia|congruence]. Qed.

Lemma undisturbed_refilled s1 s2 s3 : undisturbed s1 s2 -> refilled s2 s3 -> refilled s1 s3.
Proof.
  intros (? & ? & Hu) (? & ? & ? & out & Ho). split; [done|]. split; [lia|]. split; [done|].
  exists out. congruence.
Qed.

(** A step of the stream that fails, waits for data, or goes on. *)
Definition answered (s : stream) (more : stream -> Prop)
    (r : option (parserutils_error * stream)) : Prop :=
  exists e s', r = Some (e, s') /\
    (failure e \/ e = PARSERUTILS_NEEDDATA /\ undisturbed s s' \/ e = PARSERUTILS_OK /\ more s').

(** Replacing the raw data by a suffix of it, or the charset, keeps the text. *)
Lemma undisturbed_intro s s' :
  stream_wf s -> is_utf8 s' = is_utf8 s -> is_cursor s' = is_cursor s ->
  is_csdetect s' = is_csdetect s -> wf_buffer (is_raw s') ->
  buf_length (is_raw s') <= buf_length (is_raw s) ->
  (exists cd, f_cd (is_filter s') = Some cd) -> owed s' <= owed s -> undisturbed s s'.
Proof.
  intros [] Hu Hc Hdet Hr Hl Hf Ho.
  assert (Hun : unread s' = unread s) by (unfold unread; by rewrite Hu, Hc).
  split; [|split; [|done]].
  - split; rewrite ?Hun, ?Hu, ?Hc, ?Hdet; done.
  - unfold stream_total. rewrite Hun. pose proof (se_growth env). nia.
Qed.

Lemma detect_charset_spec s :
  stream_wf s ->
  exists e s', detect_charset s = Some (e, s') /\
    undisturbed s s' /\ is_raw s' = is_raw s /\ e <> PARSERUTILS_EOF /\
    e <> PARSERUTILS_INVALID.
Proof.
  intros Hw. unfold detect_charset. pose proof (sw_detector s Hw) as Hd.
  destruct (is_csdetect s) as [detect|].
  2:{ eexists _, s. split; [reflexivity|]. split; [by apply undisturbed_refl|done]. }
  destruct (Hd (buf_bytes (is_raw s)) (is_mibenum s) (is_encsrc s)) as (e & m & src & -> & He & He').
  cbn [mbind option_bind].
  assert (Hu : undisturbed s (set_charset m src s)).
  { apply undisturbed_intro; try done; try apply Hw; done. }
  destruct e; (eexists _, _; split; [reflexivity|]); split; try done.
  by destruct (is_had_eof _).
Qed.

Lemma has_bom_length bom b : has_bom bom b = true -> zlen bom <= buf_length b.
Proof. unfold has_bom. rewrite andb_true_iff. intros [Hl _]. by apply Z.leb_le. Qed.

Lemma discard_bom_spec bom m b :
  wf_buffer b -> has_bom bom b = true -> 0 < zlen bom ->
  exists b', discard_bom bom m b = Some (PARSERUTILS_OK, m, b') /\ wf_buffer b' /\
    buf_bytes b' = zdrop (zlen bom) (buf_bytes b).
Proof.
  intros Hw Hb Hp. apply has_bom_length in Hb. unfold discard_bom.
  destruct (discard_spec b 0 (zlen bom) Hw) as (b' & -> & Hw' & _ & Hb'); [lia..|].
  exists b'. rewrite Hb', ztake_le0, Z.add_0_l by lia. done.
Qed.

(** A prefix of [b] was discarded. *)
Definition stripped (b : parserutils_buffer)
    (r : option (parserutils_error * Z * parserutils_buffer)) : Prop :=
  exists m b' k, r = Some (PARSERUTILS_OK, m, b') /\ wf_buffer b' /\
    0 <= k <= 4 /\ buf_bytes b' = zdrop k (buf_bytes b) /\ buf_length b' = buf_length b - k.

Lemma stripped_nothing m b : wf_buffer b -> stripped b (Some (PARSERUTILS_OK, m, b)).
Proof. exists m, b, 0. rewrite zdrop_le0 by lia. split_and!; done || lia. Qed.

Lemma stripped_bom bom m b :
  wf_buffer b -> has_bom bom b = true -> 0 < zlen bom <= 4 -> stripped b (discard_bom bom m b).
Proof.
  intros Hw Hb Hz. destruct (discard_bom_spec bom m b Hw Hb) as (b' & -> & Hw' & Hb'); [lia|].
  exists m, b', (zlen bom). split; [done|]. split; [done|]. split; [lia|]. split; [done|].
  rewrite <- (zlen_buf_bytes b'), <- (zlen_buf_bytes b), Hb', zlen_zdrop by done.
  apply has_bom_length in Hb. rewrite <- (zlen_buf_bytes b) in Hb by done. lia.
Qed.

Lemma strip_bom_spec m b :
  wf_buffer b -> stripped b (parserutils_inputstream_strip_bom mibenum_from_name m b).
Proof.
  intros Hw. unfold parserutils_inputstream_strip_bom.
  repeat case_match; first [by apply stripped_nothing|apply stripped_bom; done].
Qed.

Lemma setopt_spec (f : parserutils_filter CD) enc :
  (exists cd, f_cd f = Some cd) ->
  let r := parserutils__filter_setopt iconv_open mibenum_from_name mibenum_to_name f enc in
  failure r.1 \/ r.1 = PARSERUTILS_OK /\
    exists cd, f_cd r.2 = Some cd /\ (r.2 = f \/ cd_pending cd = 0).
Proof.
  intros [cd Hcd]. unfold parserutils__filter_setopt, filter_set_encoding.
  repeat case_match; cbn; try (left; done); right; split; try done; eauto.
  eexists; split; [done|]. right. by eapply (se_open env).
Qed.

Lemma first_chunk_spec s :
  stream_wf s ->
  answered s (undisturbed s) (first_chunk iconv_open mibenum_from_name mibenum_to_name s).
Proof.
  intros Hw. unfold first_chunk. destruct (detect_charset_spec s Hw) as (e & s1 & -> & Hu & Hr & He & He').
  cbn [mbind option_bind].
  destruct e; try (eexists _, s1; split; [reflexivity|]; first [by destruct He|by destruct He'|by left|by right; left]).
  unfold settle_charset. set (s2 := if is_mibenum s1 =? 0 then _ else s1).
  assert (Hu2 : undisturbed s s2 /\ is_mibenum s2 <> 0 /\ is_raw s2 = is_raw s).
  { unfold s2. destruct (Z.eqb_spec (is_mibenum s1) 0); [|done].
    split; [|split; [apply (se_utf8 env)|done]].
    eapply undisturbed_trans; [exact Hu|]. apply undisturbed_intro; try done; by apply Hu. }
  destruct Hu2 as (Hu2 & Hm2 & Hr2). clearbody s2.
  destruct (Z.eqb_spec (is_mibenum s2) 0); [done|].
  rewrite Hr2. destruct (strip_bom_spec (is_mibenum s2) (is_raw s) (sw_raw s Hw))
    as (m & raw & k & -> & Hwr & Hk & _ & Hl). cbn [mbind option_bind].
  set (s3 := set_raw raw _).
  pose proof Hu2 as (Hw2 & _).
  destruct (setopt_spec (is_filter s3) (mibenum_to_name (is_mibenum s3)) (sw_filter _ Hw2)) as [Hf|Hf].
  all: destruct (parserutils__filter_setopt _ _ _ _ _) as [e input]; cbn [fst snd] in Hf.
  { destruct e; (eexists _, _; split; [reflexivity|left; exact Hf]). }
  destruct Hf as (-> & cd & Hcd & Hp). eexists _, _. split; [reflexivity|]. right; right.
  split; [done|]. eapply undisturbed_trans; [exact Hu2|]. apply undisturbed_intro; try done.
  - cbn. rewrite Hl, Hr2. lia.
  - by exists cd.
  - unfold owed. cbn [set_flags set_filter is_filter]. rewrite Hcd. destruct Hp as [->|Hp].
    + cbn in Hcd. rewrite Hcd. lia.
    + rewrite Hp. apply owed_nonneg.
Qed.

(** ** Refilling *)

Lemma refill_spec s :
  stream_wf s ->
  answered s (refilled s) (parserutils_inputstream_refill_buffer iconv_open iconv
    mibenum_from_name mibenum_to_name realloc_ok s).
Proof.
  intros Hw. unfold parserutils_inputstream_refill_buffer.
  assert (Hfirst : answered s (undisturbed s) (if is_done_first_chunk s
            then Some (PARSERUTILS_OK, s)
            else first_chunk iconv_open mibenum_from_name mibenum_to_name s)).
  { destruct (is_done_first_chunk s); [|by apply first_chunk_spec].
    eexists _, s. split; [done|]. right; right. split; [done|]. by apply undisturbed_refl. }
  destruct Hfirst as (e & s1 & -> & He). cbn [mbind option_bind].
  destruct He as [He|[[-> Hu]|[-> Hu]]].
  { destruct e; try (eexists _, _; split; [reflexivity|by left]). by destruct He. }
  { eexists _, _. split; [reflexivity|]. by right; left. }
  pose proof Hu as (Hw1 & _). destruct (make_room_spec s1 Hw1) as (e & s2 & -> & He).
  cbn [mbind option_bind]. destruct He as [->|[-> Hroom]].
  { eexists _, _. split; [reflexivity|by left]. }
  destruct (sw_filter _ Hw1) as [cd Hcd].
  destruct (fill_utf8_spec s1 s2 _ cd Hw1 Hroom Hcd) as (e & s3 & -> & He).
  eexists _, _. split; [reflexivity|]. destruct He as [He|[-> Hr]]; [by left|].
  right; right. split; [done|]. by eapply undisturbed_refilled.
Qed.

(** ** Peeking past what is available *)

Definition end_answer (s : stream) (r : peek_result) (s' : stream) : Prop :=
  match r with
  | PeekOk ptr len =>
      stream_wf s' /\ stream_total s' <= stream_total s /\
      exists c more stale, unread s' = unread s ++ c :: more /\
        ptr = (c :: more) ++ stale /\ len = char_len c
  | PeekErr error =>
      error <> PARSERUTILS_OK /\ error <> PARSERUTILS_INVALID /\
      (error = PARSERUTILS_NEEDDATA \/ error = PARSERUTILS_EOF -> undisturbed s s') /\
      (error = PARSERUTILS_EOF -> stream_ended s')
  end.

(** After a refill the offset is where the new text starts. *)
Lemma peek_refilled s s' :
  stream_wf s -> refilled s s' ->
  exists r, (let off := u64 (is_cursor s' + zlen (unread s)) in
      if off =? buf_length (is_utf8 s') then Some (PeekErr PARSERUTILS_NEEDDATA, s')
      else r ← peek_at (is_utf8 s') off; Some (r, s')) = Some (r, s') /\ end_answer s r s'.
Proof.
  intros Hw (Hw' & Ht & Hc & out & Hu). cbv zeta. pose proof (stream_sizes s Hw).
  pose proof (stream_sizes s' Hw'). pose proof (f_equal zlen Hu) as Hl.
  rewrite zlen_app in Hl. pose proof (zlen_nonneg out).
  pose proof (zlen_nonneg (unread s)). rewrite u64_small by lia.
  destruct (Z.eqb_spec (is_cursor s' + zlen (unread s)) (buf_length (is_utf8 s'))) as [E|E].
  { eexists. split; [reflexivity|]. split; [done|]. split; [done|]. split; [|done]. intros _.
    assert (out = []) as -> by (apply zlen_zero_inv; lia). rewrite app_nil_r in Hu.
    split; [done|]. split; [lia|done]. }
  destruct out as [|c more]; [change (zlen (@nil Z)) with 0 in Hl; lia|].
  destruct (peek_at_spec s' (zlen (unread s)) c Hw') as [stale ->].
  { rewrite Hu, znth_app_r by lia. by rewrite Z.sub_diag. }
  cbn [mbind option_bind]. eexists. split; [reflexivity|]. split; [done|]. split; [lia|].
  exists c, more, stale. split; [done|]. split; [|done]. f_equal.
  rewrite Hu, zdrop_app_ge, Z.sub_diag, zdrop_le0 by lia. done.
Qed.

Lemma peek_end s :
  stream_wf s ->
  exists r s', parserutils_inputstream_peek iconv_open iconv mibenum_from_name mibenum_to_name
      realloc_ok s (zlen (unread s)) = Some (r, s') /\ end_answer s r s'.
Proof.
  intros Hw. pose proof (stream_sizes s Hw) as (? & Hsz & ? & ? & ?).
  unfold parserutils_inputstream_peek. pose proof (zlen_nonneg (unread s)).
  rewrite u64_small by lia. rewrite Hsz, Z.ltb_irrefl. unfold parserutils_inputstream_peek_slow.
  destruct (Z.eqb_spec (buf_length (is_raw s)) 0) as [E|E].
  { eexists _, s. split; [reflexivity|]. pose proof (undisturbed_refl s Hw).
    destruct (is_had_eof s) eqn:Eh; (split; [done|]; split; [done|]; split; [done|]; first [done|intros _; by split]). }
  destruct (refill_spec s Hw) as (e & s' & -> & He). cbn [mbind option_bind].
  destruct He as [(? & ? & ? & ?)|[[-> Hu]|[-> Hr]]].
  - destruct e; try done; (eexists _, _; split; [reflexivity|]; split; [done|]; split; [done|]);
      (split; [by intros [?|?]|done]).
  - eexists _, _. split; [reflexivity|]. split; [done|]. split; [done|]. split; done.
  - destruct (peek_refilled s s' Hw Hr) as (r & Hp & Ha). exists r, s'. split; [exact Hp|done].
Qed.

Lemma peek_ended s :
  stream_wf s -> stream_ended s ->
  parserutils_inputstream_peek iconv_open iconv mibenum_from_name mibenum_to_name
    realloc_ok s (zlen (unread s)) = Some (PeekErr PARSERUTILS_EOF, s).
Proof.
  intros Hw [Hh Hr]. pose proof (stream_sizes s Hw) as (? & Hsz & ? & ? & ?).
  unfold parserutils_inputstream_peek. pose proof (zlen_nonneg (unread s)).
  rewrite u64_small by lia. rewrite Hsz, Z.ltb_irrefl. unfold parserutils_inputstream_peek_slow. by rewrite Hr, Hh.
Qed.

(** ** Advancing and inserting *)

Lemma advance_spec s n :
  stream_wf s -> 0 <= n <= zlen (unread s) ->
  let s' := parserutils_inputstream_advance s n in
  stream_wf s' /\ unread s' = zdrop n (unread s) /\ stream_total s' = stream_total s - n /\
  (stream_ended s -> stream_ended s').
Proof.
  intros Hw Hn s'. pose proof (stream_sizes s Hw) as (? & Hsz & ? & ? & ?).
  unfold s', parserutils_inputstream_advance. rewrite u64_small by lia.
  destruct (Z.ltb_spec (buf_length (is_utf8 s) - is_cursor s) n); [lia|].
  destruct (Z.eqb_spec (is_cursor s) (buf_length (is_utf8 s))).
  { assert (n = 0) as -> by lia. rewrite zdrop_le0, Z.sub_0_r by lia. done. }
  rewrite u32_small by lia. set (s1 := set_utf8 _ _ _).
  assert (Hu : unread s1 = zdrop n (unread s)).
  { unfold unread, s1. cbn [set_utf8 is_utf8 is_cursor]. by rewrite zdrop_zdrop by lia. }
  split; [|split; [done|split]].
  - destruct Hw. split; try done; [|]; cbn.
    + lia.
    + rewrite Hu. apply utf8_text_zdrop; [lia|done].
  - unfold stream_total. rewrite Hu, zlen_zdrop. change (owed s1) with (owed s).
    change (is_raw s1) with (is_raw s). lia.
  - done.
Qed.

Lemma insert_stream_spec s d :
  stream_wf s -> utf8_text d ->
  exists e s', parserutils_inputstream_insert realloc_ok s d = Some (e, s') /\ stream_wf s' /\
    (e = PARSERUTILS_OK /\ unread s' = d ++ unread s \/
     e = PARSERUTILS_NOMEM /\ unread s' = unread s).
Proof.
  intros Hw Hd. unfold parserutils_inputstream_insert.
  pose proof (sw_cursor s Hw) as Hc.
  destruct (insert_spec realloc_ok (is_utf8 s) (is_cursor s) d (sw_utf8 s Hw) memory_bounded Hc)
    as (e & b & Hi & Hwb & _ & He).
  pose proof (insert_data _ _ _ _ _ _ (sw_data s Hw) (sw_utf8 s Hw) Hi) as Hdata.
  pose proof (insert_below _ _ _ _ _ _ _ (se_memory env) (sw_memory s Hw) Hi) as Hbelow.
  rewrite Hi. cbn [mbind option_bind]. eexists _, _. split; [reflexivity|].
  set (s1 := set_utf8 _ _ _). pose proof (zlen_buf_bytes _ (sw_utf8 s Hw)) as Hl.
  pose proof (zlen_buf_bytes _ Hwb) as Hlb.
  assert (Hu : e = PARSERUTILS_OK /\ unread s1 = d ++ unread s \/
               e = PARSERUTILS_NOMEM /\ unread s1 = unread s).
  { unfold unread, s1. cbn [set_utf8 is_utf8 is_cursor].
    destruct He as [[-> Hb]|[-> Hb]]; [left|right]; split; try done; rewrite Hb; [|done].
    rewrite zdrop_app_ge by (rewrite zlen_ztake; lia).
    rewrite zlen_ztake. replace (is_cursor s - _) with 0 by lia. by rewrite zdrop_le0 by lia. }
  split; [|done]. split; try done; try apply Hw.
  - cbn. rewrite <- Hlb. destruct He as [[_ Hb]|[_ Hb]]; rewrite Hb; [|lia].
    rewrite !zlen_app, zlen_ztake, zlen_zdrop. pose proof (zlen_nonneg d). lia.
  - destruct Hu as [[_ ->]|[_ ->]]; [|apply Hw]. apply utf8_text_app; [done|apply Hw].
Qed.
End Stream.

(** * The laws of the input stream, discharged, and what its
    owner can do with it: create it, feed it, end it and choose its charset. *)

Section Interface.
Context {CD : Type}.
Context (iconv_open : bytes -> bytes -> CD + iconv_errno)
        (iconv : CD -> bytes -> Z -> iconv_result CD).
Context (mibenum_from_name : bytes -> Z) (mibenum_to_name : Z -> bytes).
Context (realloc_ok : Z -> bool) (cd_pending : CD -> Z) (K : Z).
Local Abbreviation stream := (parserutils_inputstream CD).
Implicit Types s : stream.

#[export] Instance parserutils_inputstream_ops : InputStreamOps stream := {
  is_peek := parserutils_inputstream_peek iconv_open iconv mibenum_from_name
               mibenum_to_name realloc_ok;
  is_advance := parserutils_inputstream_advance;
  is_insert := parserutils_inputstream_insert realloc_ok
}.

Hypothesis env : stream_env iconv_open iconv mibenum_from_name realloc_ok cd_pending K.

#[export] Program Instance parserutils_inputstream_iface : InputStream stream := {
  is_wf := stream_wf;
  is_avail := unread;
  is_total := stream_total cd_pending K;
  is_ended := stream_ended
}.
Next Obligation. intros s Hw. apply Hw. Qed.
Next Obligation. intros s Hw. by eapply stream_sizes. Qed.
Next Obligation. intros s Hw. pose proof (stream_sizes _ _ _ _ _ _ env s Hw). lia. Qed.
Next Obligation. intros s off c Hw Hc. by eapply peek_available. Qed.
Next Obligation.
  intros s Hw. destruct (peek_end _ _ _ mibenum_to_name _ _ _ env s Hw) as (r & s' & Hp & Ha).
  exists r, s'. split; [exact Hp|]. destruct r; [exact Ha|]. by destruct Ha as (? & _ & ?).
Qed.
Next Obligation.
  intros s s1 Hw Hp1. destruct (peek_end _ _ _ mibenum_to_name _ _ _ env s Hw) as (r & s' & Hp & Ha).
  unfold is_peek in Hp1. cbn in Hp1. rewrite Hp in Hp1. injection Hp1 as -> _. by destruct Ha as (_ & [] & _).
Qed.
Next Obligation. intros s Hw He. by eapply peek_ended. Qed.
Next Obligation. intros s n Hw Hn. by eapply advance_spec. Qed.
Next Obligation. intros s d Hw Hd. by eapply insert_stream_spec. Qed.

(** ** Creating, feeding and ending a stream *)

Lemma set_encoding_opens f enc f' :
  f_encoding f = 0 \/ (exists cd, f_cd f = Some cd) ->
  filter_set_encoding iconv_open mibenum_from_name mibenum_to_name f enc
    = (PARSERUTILS_OK, f') ->
  exists cd, f_cd f' = Some cd /\ (cd_pending cd = 0 \/ f_cd f = Some cd).
Proof.
  intros Hf. unfold filter_set_encoding. destruct (Z.eqb_spec (mibenum_from_name enc) 0); [done|].
  destruct (Z.eqb_spec (f_encoding f) (mibenum_from_name enc)) as [E|E].
  { intros [= <-]. destruct Hf as [?|[cd Hcd]]; [congruence|]. exists cd. auto. }
  destruct (iconv_open _ _) eqn:Eo; [|by destruct i]. intros [= <-].
  eexists. split; [done|]. left. by eapply (se_open _ _ _ _ _ _ env).
Qed.

Lemma create_spec malloc_ok enc encsrc csdetect s :
  parserutils_inputstream_create iconv_open mibenum_from_name mibenum_to_name malloc_ok
    enc encsrc csdetect = (PARSERUTILS_OK, Some s) ->
  detector_ok csdetect ->
  stream_wf s /\ stream_total cd_pending K s = 0 /\ unread s = [] /\ buf_bytes (is_raw s) = [].
Proof.
  unfold parserutils_inputstream_create. intros Hc Hd.
  destruct (malloc_ok SIZEOF_STREAM); cbn [negb] in Hc; [|done].
  destruct (parserutils_buffer_create malloc_ok) as [e b] eqn:Eb.
  destruct e; try done. destruct b as [b|]; [|done].
  pose proof (create_wf _ _ Eb) as [Hwb Hbb].
  assert (Hb0 : buf_data b = 0 /\ buf_allocated b < 2 ^ 32 /\ buf_length b = 0).
  { unfold parserutils_buffer_create in Eb. repeat case_match; by simplify_eq/=. }
  destruct Hb0 as (Hb0 & Hba & Hbl).
  destruct (parserutils__filter_create _ _ _ _ _) as [e f] eqn:Ef.
  destruct e; try done. destruct f as [f|]; [|done].
  assert (Hf : exists cd, f_cd f = Some cd /\ cd_pending cd = 0).
  { unfold parserutils__filter_create, filter_set_defaults in Ef.
    destruct (malloc_ok _); cbn [negb] in Ef; [|done]. destruct (_ =? 0); [done|].
    destruct (filter_set_encoding _ _ _ _ _) as [e f'] eqn:Es. destruct e; try done.
    injection Ef as ->. apply set_encoding_opens in Es; [|by left].
    destruct Es as (cd & Hcd & [Hp|Hp]); [by exists cd|done]. }
  clear Ef Eb.
  assert (Hmk : forall f' m src, (exists cd, f_cd f' = Some cd /\ cd_pending cd = 0) ->
    let s := {| is_utf8 := b; is_cursor := 0; is_had_eof := false; is_raw := b;
           is_done_first_chunk := false; is_mibenum := m; is_encsrc := src;
           is_filter := f'; is_csdetect := csdetect |} in
    stream_wf s /\ stream_total cd_pending K s = 0 /\ unread s = [] /\ buf_bytes (is_raw s) = []).
  { intros f' m src (cd & Hcd & Hp) s1.
    assert (Hu : unread s1 = []) by (unfold unread; cbn; by rewrite Hbb).
    split; [|split; [|done]].
    - split; try done; [cbn; lia|by rewrite Hu; apply utf8_text_nil|by exists cd].
    - unfold stream_total, owed. rewrite Hu. cbn. rewrite Hcd, Hbl, Hp. change (zlen (@nil Z)) with 0. lia. }
  destruct enc as [enc|].
  - destruct (_ =? 0); [done|]. unfold parserutils__filter_setopt in Hc.
    destruct (filter_set_encoding _ _ _ f enc) as [e f'] eqn:Es.
    destruct e; try done. injection Hc as <-. apply Hmk.
    destruct Hf as (cd & Hcd & Hp).
    apply set_encoding_opens in Es; [|right; by exists cd].
    destruct Es as (cd' & Hcd' & [Hp'|Hp']); exists cd'; [done|].
    split; [done|congruence].
  - injection Hc as <-. by apply Hmk.
Qed.

(** What feeding a stream promises: nothing already decoded changes, and each
    octet fed makes at most [K] octets available. *)
Definition fed s (data : option bytes) (e : parserutils_error) s' : Prop :=
  stream_wf s' /\ unread s' = unread s /\
  match data with
  | None => e = PARSERUTILS_OK /\ is_had_eof s' = true /\ buf_length (is_raw s') = buf_length (is_raw s)
  | Some d =>
      is_had_eof s' = is_had_eof s /\
      (e = PARSERUTILS_OK /\ buf_bytes (is_raw s') = buf_bytes (is_raw s) ++ d /\
       stream_total cd_pending K s' = stream_total cd_pending K s + K * zlen d \/
       e = PARSERUTILS_NOMEM /\ buf_bytes (is_raw s') = buf_bytes (is_raw s) /\
       stream_total cd_pending K s' = stream_total cd_pending K s)
  end.

Lemma feed_spec s data :
  stream_wf s ->
  exists e s', parserutils_inputstream_append realloc_ok s data = Some (e, s') /\
    fed s data e s'.
Proof.
  intros Hw. unfold parserutils_inputstream_append. destruct data as [d|].
  - destruct (append_spec realloc_ok (is_raw s) d (sw_raw s Hw)) as (e & raw & -> & Hwr & _ & He).
    { eapply memory_bounded, env. }
    cbn [mbind option_bind]. eexists _, _. split; [reflexivity|].
    split; [by destruct Hw|]. split; [done|]. split; [done|].
    pose proof (zlen_buf_bytes _ Hwr) as Hl. pose proof (zlen_buf_bytes _ (sw_raw s Hw)) as Hl0.
    unfold stream_total. cbn [set_raw is_raw]. unfold unread, owed. cbn [set_raw is_utf8 is_cursor is_filter].
    destruct He as [[-> Hb]|[-> Hb]]; [left|right]; (split; [done|split; [done|]]);
      rewrite Hb in Hl; rewrite ?zlen_app in Hl; lia.
  - eexists _, _. split; [reflexivity|]. split; [by destruct Hw|done].
Qed.
End Interface.
