(* ===== verification/Entities.v ===== *)
(** * Entities: the step-wise search for character-entity names
    (libhubbub/src/tokeniser/entities.c).

    The table [dict] and its root come from entities.inc, which the build
    generates: they are arguments.  The search yields [None] when it leaves the
    table or its tree does not end. *)
From S2P Require Import Prelude Errors.

Record hubbub_entity_node := {
  node_split : Z;      (* data to split on *)
  node_lt : Z;         (* subtree for data less than split *)
  node_eq : Z;         (* subtree for data equal to split *)
  node_gt : Z;         (* subtree for data greater than split *)
  node_value : Z       (* data for this node *)
}.

Section Search.
Context (dict : list hubbub_entity_node) (dict_root : Z).

(** The [while] over the nodes of one level; the answer is the match found,
    with its result, and the node to go on from. *)
Fixpoint entity_tree_walk (fuel : nat) (c : Z) (p : Z) : option (option (option Z) * Z) :=
  if p =? -1 then Some (None, p) else
  match fuel with
  | O => None
  | S fuel =>
      n ← znth dict p;
      if c <? node_split n then entity_tree_walk fuel c (node_lt n)
      else if c =? node_split n then
        if node_split n =? 0 then Some (Some None, -1)
        else
          (* the node below is only read when there is one *)
          below ← (if node_eq n =? -1 then Some None else e ← znth dict (node_eq n); Some (Some e));
          match below with
          | Some e =>
              if node_split e =? 0 then Some (Some (Some (node_value e)), node_eq n)
              else if negb (node_value n =? 0) then Some (Some (Some (node_value n)), node_eq n)
              else Some (None, node_eq n)
          | None =>
              if negb (node_value n =? 0) then Some (Some (Some (node_value n)), node_eq n)
              else Some (None, node_eq n)
          end
      else entity_tree_walk fuel c (node_gt n)
  end.

(** hubbub_entity_tree_search_step: [context] in and out, [result] updated on
    a match that carries a value. *)
Definition hubbub_entity_tree_search_step (c result context : Z)
  : option (hubbub_error * Z * Z) :=
  let p := if context =? -1 then dict_root else context in
  '(found, p) ← entity_tree_walk (S (List.length dict)) c p;
  let result := match found with Some (Some v) => v | _ => result end in
  Some (match found with
        | Some _ => HUBBUB_OK
        | None => if p =? -1 then HUBBUB_INVALID else HUBBUB_NEEDDATA
        end, result, p).

(** hubbub_entities_search_step *)
Definition hubbub_entities_search_step (c context : Z) : option (hubbub_error * Z * Z) :=
  hubbub_entity_tree_search_step c 0xFFFD context.

(** The contexts a search can be at. *)
Inductive entity_reachable : Z -> Prop :=
  | reach_root : entity_reachable (-1)
  | reach_step c ctx e v ctx' :
      entity_reachable ctx -> is_byte c -> hubbub_entities_search_step c ctx = Some (e, v, ctx') ->
      entity_reachable ctx'.

(** What the tokeniser relies on of the generated table: wherever a search can
    be, its next step stays in the table and finds a Unicode code point. *)
Definition entities_ok : Prop :=
  forall c ctx, entity_reachable ctx -> is_byte c ->
    exists e v ctx', hubbub_entities_search_step c ctx = Some (e, v, ctx') /\
      0 <= v <= 0x10FFFF.

Lemma entities_ok_step :
  entities_ok -> forall c ctx, entity_reachable ctx -> is_byte c ->
  exists e v ctx', hubbub_entities_search_step c ctx = Some (e, v, ctx') /\
    entity_reachable ctx' /\ 0 <= v <= 0x10FFFF.
Proof.
  intros Hok c ctx Hr Hc. destruct (Hok c ctx Hr Hc) as (e & v & ctx' & Hs & Hv).
  exists e, v, ctx'. split; [done|]. split; [|done]. by eapply reach_step.
Qed.

(** A check of a table: from every context and for every octet the search
    stays in the table and what it finds is a code point. *)
Definition step_in_table (c ctx : Z) : bool :=
  match hubbub_entities_search_step c ctx with
  | Some (_, v, ctx') =>
      (0 <=? v) && (v <=? 0x10FFFF) && (-1 <=? ctx') && (ctx' <? zlen dict)
  | None => false
  end.

Definition table_ok : bool :=
  forallb (fun ctx => forallb (fun c => step_in_table c ctx) (seqZ 0 256))
    (seqZ (-1) (zlen dict + 1)).

Lemma table_ok_entities : table_ok = true -> entities_ok.
Proof.
  intros Hok.
  assert (Hstep : forall c ctx, -1 <= ctx < zlen dict -> is_byte c -> step_in_table c ctx = true).
  { intros c ctx Hctx Hc. unfold table_ok in Hok. rewrite forallb_forall in Hok.
    specialize (Hok ctx). rewrite forallb_forall in Hok.
    apply Hok; apply list_elem_of_In, elem_of_seqZ; unfold is_byte in *; lia. }
  assert (Hin : forall ctx, entity_reachable ctx -> -1 <= ctx < zlen dict).
  { induction 1 as [|c ctx e v ctx' _ IH Hc Hs]; [zlens; lia|].
    specialize (Hstep c ctx IH Hc). unfold step_in_table in Hstep. rewrite Hs in Hstep. zbool. lia. }
  intros c ctx Hr Hc. specialize (Hstep c ctx (Hin _ Hr) Hc). unfold step_in_table in Hstep.
  destruct (hubbub_entities_search_step c ctx) as [[[e v] ctx']|]; [|done].
  exists e, v, ctx'. split; [done|]. zbool. lia.
Qed.
End Search.
