(* ===== verification/Detect.v ===== *)
(** * Detect: finding the character set of a document
    (libhubbub/src/charset/detect.c).

    Pointers into the data are offsets; a read outside the data yields [None],
    and so does a failed assertion.  The table of character-set names is
    generated: it is an argument. *)
From Stdlib Require Ascii String.
From S2P Require Import Prelude Errors.

Import String.StringSyntax.
Local Open Scope string_scope.

(** The octets of a C string literal. *)
Definition chars (s : String.string) : bytes :=
  map (fun c => Z.of_nat (Ascii.nat_of_ascii c)) (String.list_ascii_of_string s).

(** hubbub_charset_source *)
Definition HUBBUB_CHARSET_UNKNOWN : Z := 0.
Definition HUBBUB_CHARSET_TENTATIVE : Z := 1.
Definition HUBBUB_CHARSET_CONFIDENT : Z := 2.

Definition ISSPACE (a : Z) : bool :=
  (a =? 0x09) || (a =? 0x0a) || (a =? 0x0c) || (a =? 0x0d) || (a =? 0x20) || (a =? 0x2f).

(** [(0x41 <= (c & ~0x20) && (c & ~0x20) <= 0x5A)] *)
Definition is_letter (c : Z) : bool :=
  (0x41 <=? Z.land c (Z.lnot 0x20)) && (Z.land c (Z.lnot 0x20) <=? 0x5A).

(** tolower in the C locale. *)
Definition lower (c : Z) : Z := if (65 <=? c) && (c <=? 90) then c + 32 else c.

(** What get_attribute reports; the value is "" when it is [None]. *)
Record attribute := {
  at_name : Z;
  at_namelen : Z;
  at_value : option Z;
  at_valuelen : Z
}.

Section Scan.
Context (mibenum_from_name : bytes -> Z).
(** The buffer and the offset at which scanning stops. *)
Context (data : bytes) (end_ : Z).

Definition at_ (pos : Z) : option Z := znth data pos.

(** strncasecmp with a literal, compared with 0: it reads no further than the
    first difference. *)
Fixpoint strncasecmp_eq (pos : Z) (s : bytes) : option bool :=
  match s with
  | [] => Some true
  | a :: s =>
      c ← at_ pos;
      if lower c =? lower a then strncasecmp_eq (pos + 1) s else Some false
  end.

Definition PEEK (pos : Z) (a : bytes) : option bool :=
  if pos <? end_ - zlen a then strncasecmp_eq pos a else Some false.

(** [while (pos < end && f( *pos)) pos++], the number of turns being at most
    the distance to the end. *)
Fixpoint skip_loop (f : Z -> bool) (n : nat) (pos : Z) : option Z :=
  match n with
  | O => Some pos
  | S n => c ← at_ pos; if f c then skip_loop f n (pos + 1) else Some pos
  end.

Definition skip (f : Z -> bool) (pos : Z) : option Z :=
  skip_loop f (Z.to_nat (end_ - pos)) pos.

(** The loop of ADVANCE, and its answer: [None] when the scan is to end. *)
Fixpoint advance_loop (a : bytes) (n : nat) (pos : Z) : option Z :=
  match n with
  | O => Some pos
  | S n => b ← PEEK pos a; if (b : bool) then Some pos else advance_loop a n (pos + 1)
  end.

Definition ADVANCE (a : bytes) (pos : Z) : option (option Z) :=
  pos ← advance_loop a (Z.to_nat (end_ - zlen a - pos)) pos;
  Some (if pos =? end_ - zlen a then None else Some pos).

(** An attribute of a value, and where to go on. *)
Definition found (name namelen : Z) (value : option Z) (valuelen pos : Z)
  : option (option attribute * Z) :=
  Some (Some {| at_name := name; at_namelen := namelen; at_value := value;
                at_valuelen := valuelen |}, pos).

(** Steps 9 to 12 of get_attribute, from the equals sign on. *)
Definition attribute_value (name namelen pos : Z) : option (option attribute * Z) :=
  (* 9. and 10. *)
  pos ← skip ISSPACE (pos + 1);
  if end_ <=? pos then Some (None, pos) else
  quote ← at_ pos;
  (* 11. a *)
  if (quote =? 0x27) || (quote =? 0x22) then
    close ← skip (fun c => negb (c =? quote)) (pos + 1);
    if end_ <=? close then Some (None, close)
    else found name namelen (Some (pos + 1)) (close - (pos + 1)) (close + 1)
  (* b *)
  else if (quote =? 0x3c) || (quote =? 0x3e) then found name namelen None 0 pos
  else
    (* d and 12. *)
    stop ← skip (fun c => negb (ISSPACE c || (c =? 0x3c) || (c =? 0x3e))) pos;
    if end_ <=? stop then Some (None, stop)
    else found name namelen (Some pos) (stop - pos) stop.

(** hubbub_charset_get_attribute: the attribute, when true is returned, and the
    new position. *)
Definition hubbub_charset_get_attribute (pos : Z) : option (option attribute * Z) :=
  (* 1. *)
  pos ← skip (fun c => ISSPACE c || (c =? 0x2f)) pos;
  if end_ <=? pos then Some (None, pos) else
  c ← at_ pos;
  (* 2. *)
  if c =? 0x3c then Some (None, pos - 1) else
  (* 3. *)
  if c =? 0x3e then Some (None, pos) else
  (* 4. and 5. *)
  let name := pos in
  pos ← skip (fun c => negb ((c =? 0x3d) || ISSPACE c || (c =? 0x2f) || (c =? 0x3c) || (c =? 0x3e)))
          pos;
  let namelen := pos - name in
  if end_ <=? pos then Some (None, pos) else
  c ← at_ pos;
  if negb ((c =? 0x3d) || ISSPACE c) then found name namelen None 0 pos
  else if c =? 0x3d then attribute_value name namelen pos
  else
    (* 7. and 8. *)
    pos ← skip ISSPACE pos;
    if end_ <=? pos then Some (None, pos) else
    c ← at_ pos;
    if negb (c =? 0x3d) then found name namelen None 0 (pos - 1)
    else attribute_value name namelen pos.

Definition read (pos n : Z) : option bytes := mem_read pos n data.

(** hubbub_charset_parse_content; [end] is that of the value. *)
Definition skip_to (stop : Z) (f : Z -> bool) (pos : Z) : option Z :=
  skip_loop f (Z.to_nat (stop - pos)) pos.

(** Steps 1 and 2: the start of what follows the first semicolon or, when that
    is nothing, the first space. *)
Definition content_start (value stop : Z) : option Z :=
  let restart := value in
  (* 1 *)
  value ← skip_to stop (fun c => negb (c =? 0x3b)) value;
  let value := if value <? stop then value + 1 else value in
  value ← (if stop <=? value then
             value ← skip_to stop (fun c => negb (ISSPACE c && negb (c =? 0x2f))) restart;
             Some (if value <? stop then value + 1 else value)
           else Some value);
  (* 2 *)
  skip_to stop ISSPACE value.

(** Steps 7 to 9: the name, quoted or not. *)
Definition content_name (value stop : Z) : option Z :=
  quote ← at_ value;
  if (quote =? 0x22) || (quote =? 0x27) then
    close ← skip_to stop (fun c => negb (c =? quote)) (value + 1);
    if close <? stop then
      name ← read (value + 1) (close - (value + 1)); Some (mibenum_from_name name)
    else Some 0
  else
    stop' ← skip_to stop (fun c => negb (ISSPACE c)) value;
    name ← read value (stop' - value);
    Some (mibenum_from_name name).

Definition hubbub_charset_parse_content (value valuelen : Z) : option Z :=
  let stop := value + valuelen in
  value ← content_start value stop;
  if stop <=? value then Some 0 else
  (* 3 *)
  is_charset ← (if value <? stop - 7 then strncasecmp_eq value (chars "charset") else Some true);
  if negb (is_charset : bool) then Some 0 else
  (* 4 *)
  value ← skip_to stop ISSPACE (value + 7);
  if stop <=? value then Some 0 else
  (* 5 *)
  c ← at_ value;
  if negb (c =? 0x3d) then Some 0 else
  (* 6 *)
  value ← skip_to stop ISSPACE (value + 1);
  if stop <=? value then Some 0 else
  content_name value stop.

(** [while (ISSPACE( *value)) { value++; valuelen--; }]: only the data ends it. *)
Fixpoint strip_front (n : nat) (value valuelen : Z) : option (Z * Z) :=
  c ← at_ value;
  if ISSPACE c then
    match n with
    | O => None
    | S n => strip_front n (value + 1) (u32 (valuelen - 1))
    end
  else Some (value, valuelen).

(** [while (valuelen > 0 && ISSPACE(value[valuelen - 1])) valuelen--;] *)
Fixpoint strip_back (n : nat) (value valuelen : Z) : option Z :=
  if valuelen <=? 0 then Some valuelen else
  c ← at_ (value + (valuelen - 1));
  if ISSPACE c then
    match n with
    | O => None
    | S n => strip_back n value (valuelen - 1)
    end
  else Some valuelen.

(** Steps 4 and 5 of parse_attributes: the encoding an attribute names; the
    value left by an earlier attribute stays otherwise. *)
Definition attribute_mibenum (a : attribute) (mibenum : Z) : option Z :=
  match at_value a with
  | Some value =>
      if 0 <? at_valuelen a then
        is_charset ← (if at_namelen a =? 7 then strncasecmp_eq (at_name a) (chars "charset")
                      else Some false);
        if (is_charset : bool) then
          '(value, valuelen) ← strip_front (length data) value (at_valuelen a);
          valuelen ← strip_back (length data) value valuelen;
          name ← read value valuelen;
          Some (mibenum_from_name name)
        else
          is_content ← (if at_namelen a =? 7 then strncasecmp_eq (at_name a) (chars "content")
                        else Some false);
          if (is_content : bool) then hubbub_charset_parse_content value (at_valuelen a)
          else Some mibenum
      else Some mibenum
  | None => Some mibenum
  end.

(** Step 6: a document read as ASCII is not UTF-16. *)
Definition not_utf16 (mibenum : Z) : Z :=
  if (mibenum =? mibenum_from_name (chars "UTF-16LE"))
     || (mibenum =? mibenum_from_name (chars "UTF-16BE"))
     || (mibenum =? mibenum_from_name (chars "UTF-16"))
  then mibenum_from_name (chars "UTF-8") else mibenum.

(** hubbub_charset_parse_attributes *)
Fixpoint parse_attributes_loop (n : nat) (pos mibenum : Z) : option (Z * Z) :=
  match n with
  | O => None
  | S n =>
      '(found, pos) ← hubbub_charset_get_attribute pos;
      match found with
      | None => Some (0, pos)
      | Some a =>
          mibenum ← attribute_mibenum a mibenum;
          let mibenum := not_utf16 mibenum in
          if negb (mibenum =? 0) then Some (mibenum, pos)
          else parse_attributes_loop n pos mibenum
      end
  end.

Definition hubbub_charset_parse_attributes (pos : Z) : option (Z * Z) :=
  parse_attributes_loop (S (Z.to_nat (end_ - pos))) pos 0.

(** [while (hubbub_charset_get_attribute(...)) ;] *)
Fixpoint skip_attributes (n : nat) (pos : Z) : option Z :=
  match n with
  | O => None
  | S n =>
      '(found, pos) ← hubbub_charset_get_attribute pos;
      match found with
      | None => Some pos
      | Some _ => skip_attributes n pos
      end
  end.

(** The test of branch c: a tag, closing or opening. *)
Definition at_tag (pos : Z) : option bool :=
  close ← PEEK pos (chars "</");
  closes ← (if (close : bool) && (pos <? end_ - 3)
            then c ← at_ (pos + 2); Some (is_letter c) else Some false);
  if (closes : bool) then Some true else
  if pos <? end_ - 2 then
    c ← at_ pos;
    if c =? 0x3c then c ← at_ (pos + 1); Some (is_letter c) else Some false
  else Some false.

(** Branch b of the main loop: a meta element.  A turn of the loop gives the
    answer, or says where the next turn starts. *)
Definition scan_meta_tag (pos : Z) : option (Z + Z) :=
  if end_ - 1 <=? pos + 5 then Some (inl 0) else
  c ← at_ (pos + 5);
  if ISSPACE c then
    '(mibenum, pos) ← hubbub_charset_parse_attributes (pos + 5);
    if negb (mibenum =? 0) then Some (inl mibenum)
    else if end_ <=? pos then Some (inl 0) else Some (inr (pos + 1))
  else Some (inr (pos + 1)).

(** Branch c: another element. *)
Definition scan_tag (pos : Z) : option (Z + Z) :=
  pos ← skip (fun c => negb (ISSPACE c || (c =? 0x3e) || (c =? 0x3c))) (pos + 1);
  if end_ <=? pos then Some (inl 0) else
  c ← at_ pos;
  if negb (c =? 0x3c) then
    pos ← skip_attributes (S (Z.to_nat (end_ - pos))) pos;
    Some (inr (pos + 1))
  else Some (inr pos).

(** One turn of the main loop. *)
Definition scan_step (pos : Z) : option (Z + Z) :=
  comment ← PEEK pos (chars "<!--");
  if (comment : bool) then
    r ← ADVANCE (chars "-->") (pos + 4);
    Some (match r with None => inl 0 | Some pos => inr (pos + 1) end)
  else
  meta ← PEEK pos (chars "<meta");
  if (meta : bool) then scan_meta_tag pos else
  tag ← at_tag pos;
  if (tag : bool) then scan_tag pos else
  bang ← PEEK pos (chars "<!");
  close ← (if (bang : bool) then Some true else PEEK pos (chars "</"));
  other ← (if (close : bool) then Some true else PEEK pos (chars "<?"));
  if (other : bool) then
    r ← ADVANCE (chars ">") (pos + 1);
    Some (match r with None => inl 0 | Some pos => inr (pos + 1) end)
  else Some (inr (pos + 1)).

Fixpoint scan_loop (n : nat) (pos : Z) : option Z :=
  if end_ <=? pos then Some 0 else
  match n with
  | O => None
  | S n =>
      r ← scan_step pos;
      match r with
      | inl mibenum => Some mibenum
      | inr pos => scan_loop n pos
      end
  end.
End Scan.

(** hubbub_charset_scan_meta *)
Definition hubbub_charset_scan_meta (mibenum_from_name : bytes -> Z) (data : bytes) : option Z :=
  let end_ := Z.min 512 (zlen data) in
  scan_loop mibenum_from_name data end_ (Z.to_nat end_) 0.

Section Extract.
Context (mibenum_from_name : bytes -> Z).

(** hubbub_charset_read_bom *)
Definition hubbub_charset_read_bom (data : bytes) : option Z :=
  if zlen data <? 3 then Some 0 else
  c0 ← znth data 0; c1 ← znth data 1; c2 ← znth data 2;
  Some (if (c0 =? 0xFE) && (c1 =? 0xFF) then mibenum_from_name (chars "UTF-16BE")
        else if (c0 =? 0xFF) && (c1 =? 0xFE) then mibenum_from_name (chars "UTF-16LE")
        else if (c0 =? 0xEF) && (c1 =? 0xBB) && (c2 =? 0xBF) then mibenum_from_name (chars "UTF-8")
        else 0).

(** The overrides of HTML5: charsets with any of the names on the left are taken
    for the one on the right. *)
Definition overrides : list (list bytes * bytes) := [
  ([chars "ISO-8859-1"], chars "Windows-1252");
  ([chars "ISO-8859-9"], chars "Windows-1254");
  ([chars "ISO-8859-11"], chars "Windows-874");
  ([chars "KS_C_5601-1987"; chars "EUC-KR"], chars "Windows-949");
  ([chars "TIS-620"], chars "Windows-874");
  ([chars "x-x-big5"], chars "Big5");
  ([chars "GB2312"; chars "GB_2312-80"], chars "GBK")
].

(** The if-else chain: the first entry that names the charset. *)
Fixpoint override (entries : list (list bytes * bytes)) (charset : Z) : option bytes :=
  match entries with
  | [] => None
  | (names, to) :: entries =>
      if existsb (fun name => charset =? mibenum_from_name name) names then Some to
      else override entries charset
  end.

(** hubbub_charset_fix_charset.  It asserts that there is a charset, and that
    Windows-1252 is known when it is the replacement. *)
Definition hubbub_charset_fix_charset (charset : Z) : option Z :=
  if charset =? 0 then None else
  let tmp := match override overrides charset with
             | Some to => mibenum_from_name to | None => 0 end in
  if (charset =? mibenum_from_name (chars "ISO-8859-1")) && (tmp =? 0) then None
  else Some (if negb (tmp =? 0) then tmp else charset).

(** The fallback at [default_encoding]. *)
Definition default_encoding : Z :=
  let charset := mibenum_from_name (chars "Windows-1252") in
  if charset =? 0 then mibenum_from_name (chars "ISO-8859-1") else charset.

(** hubbub_charset_extract *)
Definition hubbub_charset_extract (data : bytes) (mibenum source : Z)
  : option (parserutils_error * Z * Z) :=
  if (source =? HUBBUB_CHARSET_CONFIDENT) || (source =? HUBBUB_CHARSET_TENTATIVE)
  then Some (PARSERUTILS_OK, mibenum, source) else
  let fallback := Some (PARSERUTILS_OK, default_encoding, HUBBUB_CHARSET_TENTATIVE) in
  if zlen data <? 3 then fallback else
  charset ← hubbub_charset_read_bom data;
  if negb (charset =? 0) then Some (PARSERUTILS_OK, charset, HUBBUB_CHARSET_CONFIDENT) else
  charset ← hubbub_charset_scan_meta mibenum_from_name data;
  if negb (charset =? 0) then
    charset ← hubbub_charset_fix_charset charset;
    if negb (charset =? mibenum_from_name (chars "UTF-32"))
       && negb (charset =? mibenum_from_name (chars "UTF-32LE"))
       && negb (charset =? mibenum_from_name (chars "UTF-32BE"))
    then Some (PARSERUTILS_OK, charset, HUBBUB_CHARSET_TENTATIVE)
    else fallback
  else fallback.
End Extract.
