(* ===== verification/DetectSpec.v ===== *)
(** * DetectSpec: charset detection never reads outside the data, trips no
    assertion and always ends; the precedence of what it finds.

    The scanning functions move between positions; each lemma bounds the
    position it returns, which is what makes the loops above it end. *)
From S2P Require Import Prelude Errors Detect.
From Stdlib Require String.
Import String.StringSyntax.
Local Open Scope string_scope.

Section Safe.
Context (mibenum_from_name : bytes -> Z) (data : bytes) (end_ : Z).
Hypothesis end_in_data : 0 <= end_ <= zlen data.
Hypothesis end_short : end_ <= 512.

Lemma at_in pos : 0 <= pos < zlen data -> exists c, at_ data pos = Some c.
Proof. intros. apply znth_is_Some. lia. Qed.

Lemma strncasecmp_in s pos :
  0 <= pos -> pos + zlen s <= zlen data -> exists b, strncasecmp_eq data pos s = Some b.
Proof.
  revert pos; induction s as [|a s IH]; intros pos Hp Hs; cbn [strncasecmp_eq]; [eauto|].
  rewrite zlen_cons in Hs. destruct (at_in pos) as [c ->]; [zlens; lia|]. cbn [mbind option_bind].
  destruct (_ =? _); [|eauto]. apply IH; lia.
Qed.

Lemma PEEK_in a pos :
  0 <= pos -> exists b, PEEK data end_ pos a = Some b /\ (b = true -> pos < end_ - zlen a).
Proof.
  intros Hp. unfold PEEK. destruct (Z.ltb_spec pos (end_ - zlen a)); [|by exists false].
  destruct (strncasecmp_in a pos) as [b Hb]; [lia..|]. by exists b.
Qed.

(** What a skipping loop finds: the first position where it may stop. *)
Lemma skip_loop_spec f n pos :
  0 <= pos -> pos + Z.of_nat n <= zlen data ->
  exists p, skip_loop data f n pos = Some p /\ pos <= p <= pos + Z.of_nat n /\
    (forall i c, pos <= i < p -> znth data i = Some c -> f c = true) /\
    (p < pos + Z.of_nat n -> exists c, znth data p = Some c /\ f c = false).
Proof.
  revert pos; induction n as [|n IH]; intros pos Hp Hn; cbn [skip_loop].
  { exists pos. split; [done|]. split; [lia|]. split; intros; lia. }
  destruct (at_in pos) as [c Hc]; [lia|]. rewrite Hc. cbn [mbind option_bind].
  unfold at_ in Hc. destruct (f c) eqn:Ef.
  - destruct (IH (pos + 1)) as (p & -> & Hr & Ht & Hs); [lia..|]. exists p.
    split; [done|]. split; [lia|]. split; [|intros; apply Hs; lia].
    intros i c' Hi Hc'. destruct (Z.eq_dec i pos) as [->|]; [congruence|]. apply (Ht i c'); [lia|done].
  - exists pos. split; [done|]. split; [lia|]. split; [intros; lia|]. eauto.
Qed.

Lemma skip_to_spec stop f pos :
  0 <= pos -> stop <= zlen data ->
  exists p, skip_to data stop f pos = Some p /\ pos <= p /\ (pos <= stop -> p <= stop) /\
    (forall i c, pos <= i < p -> znth data i = Some c -> f c = true) /\
    (p < stop -> exists c, znth data p = Some c /\ f c = false).
Proof.
  intros Hp Hs. unfold skip_to.
  destruct (Z_le_gt_dec pos stop) as [Hl|Hl].
  - destruct (skip_loop_spec f (Z.to_nat (stop - pos)) pos) as (p & -> & Hr & Ht & Hq); [lia..|].
    exists p. split; [done|]. split; [lia|]. split; [lia|]. split; [done|]. intros; apply Hq; lia.
  - replace (Z.to_nat (stop - pos)) with 0%nat by lia. exists pos. cbn [skip_loop].
    split; [done|]. split; [lia|]. split; [lia|]. split; intros; lia.
Qed.

Lemma skip_spec f pos :
  0 <= pos ->
  exists p, skip data end_ f pos = Some p /\ pos <= p /\ (pos <= end_ -> p <= end_) /\
    (forall i c, pos <= i < p -> znth data i = Some c -> f c = true) /\
    (p < end_ -> exists c, znth data p = Some c /\ f c = false).
Proof. intros. apply skip_to_spec; lia. Qed.

(** ** Attributes *)

(** An attribute in the data: where its name is, and a value that is followed by
    something other than a space or is not empty of other characters. *)
Record attribute_in (a : attribute) : Prop := {
  ai_name : 0 <= at_name a /\ 0 <= at_namelen a /\ at_name a + at_namelen a <= end_;
  ai_value : forall v, at_value a = Some v ->
    0 <= v /\ 0 <= at_valuelen a /\ v + at_valuelen a < end_ /\
    exists i c, v <= i <= v + at_valuelen a /\ znth data i = Some c /\ ISSPACE c = false
}.

(** Where get_attribute leaves the position. *)
Definition attribute_post (pos : Z) (r : option (option attribute * Z)) : Prop :=
  exists found p, r = Some (found, p) /\ p <= end_ /\
    match found with
    | Some a => pos < p /\ attribute_in a
    | None => pos <= p \/ p = pos - 1 /\ znth data pos = Some 0x3c
    end.

(** Take the next call of skip. *)
Ltac skip_at p :=
  match goal with
  | |- context [skip data end_ ?f ?pos] =>
      let Hr := fresh "Hr" in let Hl := fresh "Hl" in
      let Ht := fresh "Ht" in let Hs := fresh "Hs" in
      destruct (skip_spec f pos ltac:(lia)) as (p & -> & Hr & Hl & Ht & Hs);
      specialize (Hl ltac:(lia)); cbn [mbind option_bind]
  end.

(** The position has not reached the end: what made skip stop there. *)
Ltac read_at p c :=
  let Hc := fresh "Hc" in
  destruct (Z.leb_spec end_ p);
  [eexists None, _; split; [reflexivity|]; split; [lia|left; lia]|];
  match goal with
  | Hs : p < end_ -> exists c, znth data p = Some c /\ _ = false |- _ =>
      let Hf := fresh "Hf" in
      destruct (Hs ltac:(lia)) as (c & Hc & Hf); cbn beta in Hf
  end;
  unfold at_; rewrite Hc; cbn [mbind option_bind].

Ltac found_at :=
  eexists (Some _), _; split; [reflexivity|]; split; [lia|]; split; [lia|];
  split; cbn [at_name at_namelen at_value at_valuelen]; [lia|].

(** Steps 9 to 12: from the equals sign to the end of the value. *)
Lemma attribute_value_in pos name namelen eq :
  0 <= pos <= eq -> eq < end_ -> 0 <= name -> 0 <= namelen -> name + namelen <= end_ ->
  attribute_post pos (attribute_value data end_ name namelen eq).
Proof.
  intros Hpos Heq Hn1 Hn2 Hn3. unfold attribute_value.
  skip_at p. read_at p quote.
  destruct ((quote =? 0x27) || (quote =? 0x22)).
  { skip_at close. destruct (Z.leb_spec end_ close).
    { eexists None, _. split; [reflexivity|]. split; [lia|left; lia]. }
    found_at. intros v [= <-]. destruct (Hs0 ltac:(lia)) as (c & Hc' & Hq).
    split; [lia|]. split; [lia|]. split; [lia|]. exists close, c.
    split; [lia|]. split; [done|]. zbool. subst c. done. }
  destruct ((quote =? 0x3c) || (quote =? 0x3e)); [by found_at|].
  skip_at stop. destruct (Z.leb_spec end_ stop).
  { eexists None, _. split; [reflexivity|]. split; [lia|left; lia]. }
  found_at. intros v [= <-]. split; [lia|]. split; [lia|]. split; [lia|].
  exists p, quote. split; [lia|done].
Qed.

Lemma get_attribute_in pos :
  0 <= pos <= end_ -> attribute_post pos (hubbub_charset_get_attribute data end_ pos).
Proof.
  intros Hpos. unfold hubbub_charset_get_attribute.
  skip_at p. read_at p c. apply orb_false_elim in Hf as [Hsp _].
  destruct (Z.eqb_spec c 0x3c) as [->|].
  { eexists None, _. split; [reflexivity|]. split; [lia|].
    destruct (Z.eq_dec p pos) as [->|]; [by right|left; lia]. }
  destruct (Z.eqb_spec c 0x3e); [eexists None, _; split; [reflexivity|]; split; [lia|left; lia]|].
  skip_at q. read_at q d. apply negb_false_iff in Hf.
  destruct ((d =? 0x3d) || ISSPACE d) eqn:Ed; cbn [negb].
  2:{ assert (p <> q).
      { intros <-. assert (c = d) as -> by congruence. cbn [orb] in Hf.
        destruct (Z.eqb_spec d 0x2f) as [->|]; [done|]. cbn [orb] in Hf.
        apply orb_prop in Hf as [?|?]; zbool; lia. }
      by found_at. }
  destruct (Z.eqb_spec d 0x3d); cbn [negb].
  { apply attribute_value_in; lia. }
  assert (p <> q) by (intros <-; assert (c = d) as -> by congruence; cbn in Ed; congruence).
  skip_at q'. read_at q' e.
  assert (q <> q') by (intros <-; assert (d = e) as -> by congruence; cbn in Ed; congruence).
  destruct (Z.eqb_spec e 0x3d); cbn [negb]; [|by found_at].
  apply attribute_value_in; lia.
Qed.

(** ** The value of a content attribute *)

Ltac skip_to_at p :=
  match goal with
  | |- context [skip_to data ?stop ?f ?pos] =>
      let Hr := fresh "Hr" in let Hl := fresh "Hl" in
      destruct (skip_to_spec stop f pos ltac:(lia) ltac:(lia)) as (p & -> & Hr & Hl & _ & _);
      cbn [mbind option_bind]
  end.

Lemma at_stop {A} value stop (x : A) (k : Z -> option A) :
  0 <= value -> stop <= zlen data -> (forall c, exists y, k c = Some y) ->
  exists y, (if stop <=? value then Some x else c ← at_ data value; k c) = Some y.
Proof.
  intros Hv Hs Hk. destruct (Z.leb_spec stop value); [eauto|].
  destruct (at_in value) as [c ->]; [lia|]. apply Hk.
Qed.

Lemma read_in value n :
  0 <= value -> 0 <= n -> value + n <= zlen data -> exists d, read data value n = Some d.
Proof. intros. unfold read. rewrite mem_read_in by lia. eauto. Qed.

Lemma content_start_in value stop :
  0 <= value <= stop -> stop <= zlen data ->
  exists v, content_start data value stop = Some v /\ value <= v.
Proof.
  intros Hv Hs. unfold content_start.
  destruct (skip_to_spec stop (fun c => negb (c =? 0x3b)) value) as (p & -> & Hr & Hl & _ & _); [lia..|].
  cbn [mbind option_bind].
  set (v := if p <? stop then p + 1 else p). assert (value <= v) by (unfold v; case_match; lia).
  destruct (Z.leb_spec stop v); cbn [mbind option_bind].
  - skip_to_at q. destruct (q <? stop); cbn [mbind option_bind]; skip_to_at r; exists r; split; done || lia.
  - skip_to_at r. exists r; split; done || lia.
Qed.

Lemma content_name_in value stop :
  0 <= value < stop -> stop <= zlen data ->
  exists m, content_name mibenum_from_name data value stop = Some m.
Proof.
  intros Hv Hs. unfold content_name. destruct (at_in value) as [c ->]; [lia|].
  cbn [mbind option_bind]. destruct (_ || _).
  - skip_to_at close. destruct (Z.ltb_spec close stop); [|eauto].
    destruct (read_in (value + 1) (close - (value + 1))) as [d ->]; [lia..|]. eauto.
  - skip_to_at close. destruct (read_in value (close - value)) as [d ->]; [lia..|]. eauto.
Qed.

Lemma parse_content_in value valuelen :
  0 <= value -> 0 <= valuelen -> value + valuelen <= zlen data ->
  exists m, hubbub_charset_parse_content mibenum_from_name data value valuelen = Some m.
Proof.
  intros Hv Hn Hs. unfold hubbub_charset_parse_content. set (stop := value + valuelen) in *.
  destruct (content_start_in value stop) as (v & -> & Hvv); [lia..|]. cbn [mbind option_bind].
  destruct (Z.leb_spec stop v); [eauto|].
  assert (exists b, (if v <? stop - 7 then strncasecmp_eq data v (chars "charset") else Some true)
                    = Some b) as [b ->].
  { destruct (Z.ltb_spec v (stop - 7)); [|eauto]. apply strncasecmp_in; [lia|].
    change (zlen (chars "charset")) with 7. lia. }
  cbn [mbind option_bind]. destruct b; cbn [negb]; [|eauto].
  skip_to_at p. apply at_stop; [lia..|]. intros c. destruct (_ =? _); cbn [negb]; [|eauto].
  skip_to_at q. destruct (Z.leb_spec stop q); [eauto|]. apply content_name_in; lia.
Qed.

(** ** The encoding an attribute names *)

Lemma strip_front_in n value valuelen i c :
  0 <= value <= i -> i <= value + valuelen -> valuelen < 2 ^ 32 ->
  znth data i = Some c -> ISSPACE c = false -> i - value <= Z.of_nat n ->
  exists v vl, strip_front data n value valuelen = Some (v, vl) /\
    value <= v /\ 0 <= vl /\ v + vl = value + valuelen.
Proof.
  revert value valuelen; induction n as [|n IH]; intros value valuelen Hv Hi Hl Hc Hsp Hn;
    pose proof (znth_Some_range _ _ _ Hc); cbn [strip_front];
    destruct (at_in value) as [d Hd]; try lia; rewrite Hd; cbn [mbind option_bind]; unfold at_ in Hd.
  - assert (i = value) as -> by lia. assert (d = c) as -> by congruence. rewrite Hsp.
    exists value, valuelen. split; [done|]. lia.
  - destruct (ISSPACE d) eqn:Ed; [|exists value, valuelen; split; [done|lia]].
    assert (i <> value) by (intros ->; congruence).
    rewrite u32_small by lia.
    destruct (IH (value + 1) (valuelen - 1)) as (v & vl & -> & ? & ? & ?); try done; try lia.
    exists v, vl. split; [done|lia].
Qed.

Lemma strip_back_in n value valuelen :
  0 <= value -> 0 <= valuelen -> value + valuelen <= zlen data -> valuelen <= Z.of_nat n ->
  exists vl, strip_back data n value valuelen = Some vl /\ 0 <= vl <= valuelen.
Proof.
  revert valuelen; induction n as [|n IH]; intros valuelen Hv Hl Hs Hn; cbn [strip_back];
    (destruct (Z.leb_spec valuelen 0); [exists valuelen; split; [done|lia]|]); [lia|].
  destruct (at_in (value + (valuelen - 1))) as [c ->]; [lia|]. cbn [mbind option_bind].
  destruct (ISSPACE c); [|exists valuelen; split; [done|lia]].
  destruct (IH (valuelen - 1)) as (vl & -> & ?); [lia..|]. exists vl. split; [done|lia].
Qed.

Lemma attribute_mibenum_in a mibenum :
  attribute_in a -> exists m, attribute_mibenum mibenum_from_name data a mibenum = Some m.
Proof.
  intros [Hn Hv]. unfold attribute_mibenum. destruct (at_value a) as [v|]; [|eauto].
  destruct (Hv v eq_refl) as (Hv0 & Hl & He & i & c & Hi & Hc & Hsp).
  destruct (0 <? at_valuelen a); [|eauto].
  assert (Hname : forall s, zlen s = 7 -> exists b : bool, (if at_namelen a =? 7
    then strncasecmp_eq data (at_name a) s else Some false) = Some b).
  { intros s Hs. destruct (Z.eqb_spec (at_namelen a) 7); [|eauto]. apply strncasecmp_in; lia. }
  destruct (Hname (chars "charset") eq_refl) as [b ->]. cbn [mbind option_bind]. destruct b.
  - destruct (strip_front_in (length data) v (at_valuelen a) i c) as (v' & vl & -> & ? & ? & ?);
      try done; try lia; [fold (zlen data); lia|]. cbn [mbind option_bind].
    destruct (strip_back_in (length data) v' vl) as (vl' & -> & ?); [lia..|fold (zlen data); lia|].
    cbn [mbind option_bind]. destruct (read_in v' vl') as [d ->]; [lia..|]. eauto.
  - destruct (Hname (chars "content") eq_refl) as [b ->]. cbn [mbind option_bind].
    destruct b; [|eauto]. apply parse_content_in; lia.
Qed.

(** ** The loops over attributes *)

(** A position reached from [pos] by going over attributes. *)
Definition beyond (pos p : Z) : Prop :=
  p <= end_ /\ pos - 1 <= p /\ (znth data pos <> Some 0x3c -> pos <= p).

Lemma beyond_found pos p q : pos < p -> beyond p q -> beyond pos q.
Proof. intros Hp (? & ? & _). split; [done|]. split; lia. Qed.

Lemma beyond_stop pos p :
  p <= end_ -> pos <= p \/ p = pos - 1 /\ znth data pos = Some 0x3c -> beyond pos p.
Proof. intros Hp [?|[-> ?]]; (split; [done|]; split; [lia|]); [lia|done]. Qed.

Lemma parse_attributes_loop_in n pos mibenum :
  0 <= pos <= end_ -> end_ - pos < Z.of_nat n ->
  exists m p, parse_attributes_loop mibenum_from_name data end_ n pos mibenum = Some (m, p) /\
    beyond pos p.
Proof.
  revert pos mibenum; induction n as [|n IH]; intros pos mibenum Hp Hn; [lia|].
  cbn [parse_attributes_loop].
  destruct (get_attribute_in pos Hp) as (found & p & -> & Hpe & Hf). cbn [mbind option_bind].
  destruct found as [a|]; [|exists 0, p; split; [done|by apply beyond_stop]].
  destruct Hf as [Hlt Ha]. destruct (attribute_mibenum_in a mibenum Ha) as [m ->].
  cbn [mbind option_bind]. destruct (negb _).
  - eexists _, p. split; [done|]. split; [done|]. split; lia.
  - destruct (IH p (not_utf16 mibenum_from_name m)) as (m' & q & -> & Hq); [lia..|].
    exists m', q. split; [done|]. by eapply beyond_found.
Qed.

Lemma skip_attributes_in n pos :
  0 <= pos <= end_ -> end_ - pos < Z.of_nat n ->
  exists p, skip_attributes data end_ n pos = Some p /\ beyond pos p.
Proof.
  revert pos; induction n as [|n IH]; intros pos Hp Hn; [lia|]. cbn [skip_attributes].
  destruct (get_attribute_in pos Hp) as (found & p & -> & Hpe & Hf). cbn [mbind option_bind].
  destruct found as [a|]; [|exists p; split; [done|by apply beyond_stop]].
  destruct Hf as [Hlt _]. destruct (IH p) as (q & -> & Hq); [lia..|].
  exists q. split; [done|]. by eapply beyond_found.
Qed.

Lemma parse_attributes_in pos :
  0 <= pos <= end_ ->
  exists m p, hubbub_charset_parse_attributes mibenum_from_name data end_ pos = Some (m, p) /\
    beyond pos p.
Proof. intros. apply parse_attributes_loop_in; lia. Qed.

(** ** The main loop *)

Lemma advance_loop_in a n pos :
  0 <= pos -> exists p, advance_loop data end_ a n pos = Some p /\ pos <= p.
Proof.
  revert pos; induction n as [|n IH]; intros pos Hp; cbn [advance_loop]; [exists pos; split; done || lia|].
  destruct (PEEK_in a pos Hp) as (b & -> & _). cbn [mbind option_bind].
  destruct b; [exists pos; split; done || lia|].
  destruct (IH (pos + 1)) as (p & -> & ?); [lia|]. exists p; split; done || lia.
Qed.

Lemma ADVANCE_in a pos :
  0 <= pos -> exists r, ADVANCE data end_ a pos = Some r /\ (forall p, r = Some p -> pos <= p).
Proof.
  intros Hp. unfold ADVANCE. destruct (advance_loop_in a (Z.to_nat (end_ - zlen a - pos)) pos Hp)
    as (p & -> & Hle). cbn [mbind option_bind]. eexists. split; [reflexivity|].
  intros q. case_match; [done|]. by intros [= <-].
Qed.

Lemma at_tag_in pos : 0 <= pos < end_ -> exists b, at_tag data end_ pos = Some b.
Proof.
  intros Hp. unfold at_tag. destruct (PEEK_in (chars "</") pos) as (b & -> & _); [lia|].
  cbn [mbind option_bind].
  assert (exists b' : bool, (if b && (pos <? end_ - 3)
    then c ← at_ data (pos + 2); Some (is_letter c) else Some false) = Some b') as [b' ->].
  { destruct b; cbn [andb]; [|eauto]. destruct (Z.ltb_spec pos (end_ - 3)); [|eauto].
    destruct (at_in (pos + 2)) as [c ->]; [lia|]. cbn; eauto. }
  cbn [mbind option_bind]. destruct b'; [eauto|].
  destruct (Z.ltb_spec pos (end_ - 2)); [|eauto].
  destruct (at_in pos) as [c ->]; [lia|]. cbn [mbind option_bind]. destruct (_ =? _); [|eauto].
  destruct (at_in (pos + 1)) as [d ->]; [lia|]. cbn; eauto.
Qed.

(** One turn gives an answer or moves forward. *)
Definition turned (pos : Z) (r : option (Z + Z)) : Prop :=
  exists x, r = Some x /\ forall p, x = inr p -> pos < p.

Lemma turned_answer pos m : turned pos (Some (inl m)).
Proof. by exists (inl m). Qed.

Lemma turned_on pos p : pos < p -> turned pos (Some (inr p)).
Proof. exists (inr p). split; [done|]. by intros ? [= <-]. Qed.

Lemma scan_advance_in a pos start :
  0 <= pos -> pos <= start ->
  turned pos (r ← ADVANCE data end_ a start;
              Some (match r with None => inl 0 | Some pos => inr (pos + 1) end)).
Proof.
  intros Hp Hs. destruct (ADVANCE_in a start) as (r & -> & Hr); [lia|]. cbn [mbind option_bind].
  destruct r as [p|]; [|apply turned_answer]. apply turned_on. specialize (Hr p eq_refl). lia.
Qed.

Lemma scan_meta_tag_in pos : 0 <= pos < end_ -> turned pos (scan_meta_tag mibenum_from_name data end_ pos).
Proof.
  intros Hp. unfold scan_meta_tag.
  destruct (Z.leb_spec (end_ - 1) (pos + 5)); [apply turned_answer|].
  destruct (at_in (pos + 5)) as [c Hc]; [lia|]. rewrite Hc. cbn [mbind option_bind].
  destruct (ISSPACE c) eqn:Ec; [|apply turned_on; lia].
  destruct (parse_attributes_in (pos + 5)) as (m & p & -> & Hb1 & Hb2 & Hb3); [lia|].
  cbn [mbind option_bind]. repeat case_match; try apply turned_answer. apply turned_on.
  assert (pos + 5 <= p); [|lia]. apply Hb3. unfold at_ in Hc. rewrite Hc. by intros [= ->].
Qed.

Lemma scan_tag_in pos : 0 <= pos < end_ -> turned pos (scan_tag data end_ pos).
Proof.
  intros Hp. unfold scan_tag. skip_at p. destruct (Z.leb_spec end_ p); [apply turned_answer|].
  destruct (at_in p) as [c Hc]; [lia|]. rewrite Hc. cbn [mbind option_bind].
  destruct (Z.eqb_spec c 0x3c); cbn [negb]; [apply turned_on; lia|].
  destruct (skip_attributes_in (S (Z.to_nat (end_ - p))) p) as (q & -> & Hb1 & Hb2 & Hb3); [lia..|].
  cbn [mbind option_bind]. apply turned_on. assert (p <= q); [|lia].
  apply Hb3. unfold at_ in Hc. rewrite Hc. congruence.
Qed.

Lemma scan_step_in pos : 0 <= pos < end_ -> turned pos (scan_step mibenum_from_name data end_ pos).
Proof.
  intros Hp. unfold scan_step.
  destruct (PEEK_in (chars "<!--") pos) as (b1 & -> & _); [lia|]. cbn [mbind option_bind].
  destruct b1; [apply scan_advance_in; lia|].
  destruct (PEEK_in (chars "<meta") pos) as (b2 & -> & _); [lia|]. cbn [mbind option_bind].
  destruct b2; [by apply scan_meta_tag_in|].
  destruct (at_tag_in pos Hp) as (b3 & ->). cbn [mbind option_bind].
  destruct b3; [by apply scan_tag_in|].
  destruct (PEEK_in (chars "<!") pos) as (b4 & -> & _); [lia|].
  destruct (PEEK_in (chars "</") pos) as (b5 & -> & _); [lia|].
  destruct (PEEK_in (chars "<?") pos) as (b6 & -> & _); [lia|].
  cbn [mbind option_bind].
  destruct b4, b5, b6; cbn [mbind option_bind];
    first [apply scan_advance_in; lia|apply turned_on; lia].
Qed.

Lemma scan_loop_in n pos :
  0 <= pos -> end_ - pos <= Z.of_nat n ->
  exists m, scan_loop mibenum_from_name data end_ n pos = Some m.
Proof.
  revert pos; induction n as [|n IH]; intros pos Hp Hn; cbn [scan_loop];
    (destruct (Z.leb_spec end_ pos); [eauto|]); [lia|].
  destruct (scan_step_in pos) as (x & -> & Hx); [lia|]. cbn [mbind option_bind].
  destruct x as [m|p]; [eauto|]. specialize (Hx p eq_refl). apply IH; lia.
Qed.
End Safe.

Lemma scan_meta_in mibenum_from_name data :
  exists m, hubbub_charset_scan_meta mibenum_from_name data = Some m.
Proof.
  unfold hubbub_charset_scan_meta. pose proof (zlen_nonneg data).
  apply scan_loop_in; lia.
Qed.

(** ** The whole detector *)

Lemma read_bom_in mibenum_from_name data :
  3 <= zlen data -> exists m, hubbub_charset_read_bom mibenum_from_name data = Some m.
Proof.
  intros Hl. unfold hubbub_charset_read_bom. destruct (Z.ltb_spec (zlen data) 3); [lia|].
  destruct (at_in data 0) as [c0 H0]; [lia|]. destruct (at_in data 1) as [c1 H1]; [lia|].
  destruct (at_in data 2) as [c2 H2]; [lia|]. unfold at_ in *. rewrite H0, H1, H2. cbn; eauto.
Qed.

Lemma fix_charset_in mibenum_from_name charset :
  mibenum_from_name (chars "Windows-1252") <> 0 -> charset <> 0 ->
  exists m, hubbub_charset_fix_charset mibenum_from_name charset = Some m /\ m <> 0.
Proof.
  intros Hw Hc. unfold hubbub_charset_fix_charset. destruct (Z.eqb_spec charset 0); [done|].
  set (tmp := match override _ _ _ with Some _ => _ | None => _ end).
  destruct (Z.eqb_spec charset (mibenum_from_name (chars "ISO-8859-1"))) as [E|E]; cbn [andb].
  - assert (Ht : tmp = mibenum_from_name (chars "Windows-1252")).
    { unfold tmp. cbn [override overrides existsb]. by rewrite E, Z.eqb_refl. }
    destruct (Z.eqb_spec tmp 0); [congruence|]. cbn [negb]. eauto.
  - destruct (Z.eqb_spec tmp 0); cbn [negb]; eauto.
Qed.

(** What detection may answer: a charset that was given is kept; otherwise a
    mark decides for good, and what is found without one is tentative. *)
Definition detected (mibenum_from_name : bytes -> Z) (data : bytes) (mibenum source m src : Z)
  : Prop :=
  if (source =? HUBBUB_CHARSET_CONFIDENT) || (source =? HUBBUB_CHARSET_TENTATIVE)
  then m = mibenum /\ src = source
  else m <> 0 /\
    match hubbub_charset_read_bom mibenum_from_name data with
    | Some bom =>
        if bom =? 0 then src = HUBBUB_CHARSET_TENTATIVE
        else m = bom /\ src = HUBBUB_CHARSET_CONFIDENT
    | None => False
    end.

Ltac answered := eexists _, _; (split; [reflexivity|]); (split; [done|]); done.

Lemma extract_detects mibenum_from_name data mibenum source :
  mibenum_from_name (chars "Windows-1252") <> 0 ->
  exists m src, hubbub_charset_extract mibenum_from_name data mibenum source
      = Some (PARSERUTILS_OK, m, src) /\
    detected mibenum_from_name data mibenum source m src.
Proof.
  intros Hw. unfold hubbub_charset_extract, detected.
  destruct (_ || _); [eauto|].
  assert (Hd : default_encoding mibenum_from_name <> 0)
    by (unfold default_encoding; by rewrite (proj2 (Z.eqb_neq _ _) Hw)).
  destruct (Z.ltb_spec (zlen data) 3) as [Hl|Hl].
  { unfold hubbub_charset_read_bom. destruct (Z.ltb_spec (zlen data) 3); [|lia]. answered. }
  destruct (read_bom_in mibenum_from_name data Hl) as [bom Hb]. rewrite Hb. cbn [mbind option_bind].
  destruct (Z.eqb_spec bom 0) as [->|]; cbn [negb]; [|answered].
  destruct (scan_meta_in mibenum_from_name data) as [m Hm]. rewrite Hm. cbn [mbind option_bind].
  destruct (Z.eqb_spec m 0); cbn [negb]; [answered|].
  destruct (fix_charset_in mibenum_from_name m) as (m' & -> & Hm'); [done..|].
  cbn [mbind option_bind]. case_match; answered.
Qed.

(** C12: charset detection reads only the data it is given, trips no assertion
    and ends, whatever the data; a charset the client gave is kept, a byte order
    mark decides with confidence, and anything else found is tentative and a
    charset. *)
Theorem charset_extract_total mibenum_from_name data mibenum source :
  mibenum_from_name (chars "Windows-1252") <> 0 ->
  exists m src, hubbub_charset_extract mibenum_from_name data mibenum source
      = Some (PARSERUTILS_OK, m, src) /\
    detected mibenum_from_name data mibenum source m src.
Proof. apply extract_detects. Qed.

Lemma charset_extract_total_witness :
  exists m src, hubbub_charset_extract (fun _ => 7) (chars "<meta charset=") 0 0
      = Some (PARSERUTILS_OK, m, src) /\
    detected (fun _ => 7) (chars "<meta charset=") 0 0 m src.
Proof. apply (charset_extract_total (fun _ => 7)). discriminate. Defined.

(** ** A declared charset is found *)

(** Reading at known positions of the data. *)
Section Found.
Context (data : bytes) (end_ : Z).
Hypothesis end_in_data : 0 <= end_ <= zlen data.

Lemma skip_stops f pos p c :
  0 <= pos <= p -> p < end_ ->
  (forall i d, pos <= i < p -> znth data i = Some d -> f d = true) ->
  znth data p = Some c -> f c = false ->
  skip data end_ f pos = Some p.
Proof.
  intros Hp He Hf Hc Hs. unfold skip.
  destruct (skip_loop_spec data f (Z.to_nat (end_ - pos)) pos) as (q & -> & Hr & Ht & Hq); [lia..|].
  f_equal. destruct (Z.lt_trichotomy q p) as [Hlt|[->|Hgt]]; [|done|].
  - destruct (Hq ltac:(lia)) as (d & Hd & Hfd). rewrite (Hf q d) in Hfd; done || lia.
  - rewrite (Ht p c) in Hs; done || lia.
Qed.
End Found.

Lemma strncasecmp_prefix pre rest pos s :
  0 <= pos -> pos + zlen s <= zlen pre ->
  strncasecmp_eq (pre ++ rest) pos s = strncasecmp_eq pre pos s.
Proof.
  revert pos; induction s as [|a s IH]; intros pos Hp Hs; cbn [strncasecmp_eq]; [done|].
  rewrite zlen_cons in Hs. pose proof (zlen_nonneg s). unfold at_. rewrite znth_app_l by lia.
  destruct (znth pre pos); [|done]. cbn [mbind option_bind]. rewrite IH by lia. done.
Qed.

(** A name such as a quoted value holds. *)
Definition plain_name (name : bytes) : Prop :=
  name <> [] /\ Forall (fun c => ISSPACE c = false /\ c <> 0x22) name.

Definition declaration (name rest : bytes) : bytes :=
  chars "<meta charset=" ++ 0x22 :: name ++ 0x22 :: rest.

Section Declared.
Context (mibenum_from_name : bytes -> Z) (name rest : bytes).
Hypothesis name_plain : plain_name name.
Hypothesis name_short : zlen name <= 480.
Local Abbreviation data := (declaration name rest).
Local Abbreviation end_ := (Z.min 512 (zlen (declaration name rest))).
Local Abbreviation close := (15 + zlen name).

Lemma declaration_length : zlen data = 16 + zlen name + zlen rest.
Proof.
  unfold declaration. rewrite zlen_app, zlen_cons, zlen_app, zlen_cons.
  change (zlen (chars "<meta charset=")) with 14. lia.
Qed.

Lemma declaration_end : close < end_ /\ 0 <= end_ <= zlen data.
Proof. pose proof declaration_length. zlens. lia. Qed.

(** The octets of the declaration. *)
Lemma declaration_prefix i : 0 <= i < 15 -> znth data i = znth (chars "<meta charset=" ++ [0x22]) i.
Proof.
  intros Hi. unfold declaration.
  replace (chars "<meta charset=" ++ 0x22 :: name ++ 0x22 :: rest)
    with ((chars "<meta charset=" ++ [0x22]) ++ name ++ 0x22 :: rest) by (by rewrite <- app_assoc).
  by rewrite znth_app_l by (change (zlen (chars "<meta charset=" ++ [0x22])) with 15; lia).
Qed.

Lemma declaration_name : ztake (zlen name) (zdrop 15 data) = name.
Proof.
  unfold declaration.
  replace (chars "<meta charset=" ++ 0x22 :: name ++ 0x22 :: rest)
    with ((chars "<meta charset=" ++ [0x22]) ++ name ++ 0x22 :: rest) by (by rewrite <- app_assoc).
  rewrite zdrop_app_ge by (change (zlen (chars "<meta charset=" ++ [0x22])) with 15; lia).
  change (15 - zlen (chars "<meta charset=" ++ [0x22])) with 0. rewrite (zdrop_le0 0) by lia.
  rewrite ztake_app_le by lia. by rewrite ztake_ge by lia.
Qed.

Lemma declaration_at_name i c :
  15 <= i < close -> znth data i = Some c -> ISSPACE c = false /\ c <> 0x22.
Proof.
  intros Hi Hc. apply (Forall_znth (fun c => ISSPACE c = false /\ c <> 0x22) name (i - 15)); [apply name_plain|].
  rewrite <- declaration_name, znth_ztake, znth_zdrop by lia. rewrite <- Hc. f_equal. lia.
Qed.

Lemma declaration_close : znth data close = Some 0x22.
Proof.
  unfold declaration. pose proof (zlen_nonneg name).
  replace (chars "<meta charset=" ++ 0x22 :: name ++ 0x22 :: rest)
    with ((chars "<meta charset=" ++ 0x22 :: name) ++ 0x22 :: rest)
    by (by rewrite <- app_assoc).
  assert (zlen (chars "<meta charset=" ++ 0x22 :: name) = close) as Hz.
  { rewrite zlen_app, zlen_cons. change (zlen (chars "<meta charset=")) with 14. lia. }
  rewrite znth_app_r, Hz by lia. by rewrite Z.sub_diag.
Qed.

Lemma declaration_attribute :
  hubbub_charset_get_attribute data end_ 5
  = Some (Some {| at_name := 6; at_namelen := 7; at_value := Some 15; at_valuelen := zlen name |},
          16 + zlen name).
Proof.
  destruct declaration_end as [Hc He]. pose proof (zlen_nonneg name).
  unfold hubbub_charset_get_attribute, at_.
  assert (Hpre : forall i, 0 <= i < 15 -> znth data i = znth (chars "<meta charset=" ++ [0x22]) i)
    by apply declaration_prefix.
  rewrite (skip_stops data end_ He _ 5 6 99); [|lia|lia| |by rewrite Hpre by lia|done].
  2:{ intros i d Hi. rewrite Hpre by lia. replace i with 5 by lia. by intros [= <-]. }
  cbn [mbind option_bind]. destruct (Z.leb_spec end_ 6); [lia|].
  rewrite (Hpre 6) by lia. change (znth (chars "<meta charset=" ++ [0x22]) 6) with (Some 99).
  cbn [mbind option_bind Z.eqb Pos.eqb].
  rewrite (skip_stops data end_ He _ 6 13 61); [|lia|lia| |by rewrite Hpre by lia|done].
  2:{ intros i d Hi. rewrite Hpre by lia.
      assert (i = 6 \/ i = 7 \/ i = 8 \/ i = 9 \/ i = 10 \/ i = 11 \/ i = 12)
        as [->|[->|[->|[->|[->|[->| ->]]]]]] by lia; by intros [= <-]. }
  cbn [mbind option_bind]. destruct (Z.leb_spec end_ 13); [lia|].
  rewrite (Hpre 13) by lia. change (znth (chars "<meta charset=" ++ [0x22]) 13) with (Some 61).
  cbn [mbind option_bind Z.eqb Pos.eqb orb negb]. unfold attribute_value, at_.
  rewrite (skip_stops data end_ He _ (13 + 1) 14 0x22); [|lia|lia|intros; lia|by rewrite Hpre by lia|done].
  cbn [mbind option_bind]. destruct (Z.leb_spec end_ 14); [lia|].
  rewrite (Hpre 14) by lia. change (znth (chars "<meta charset=" ++ [0x22]) 14) with (Some 0x22).
  cbn [mbind option_bind Z.eqb Pos.eqb orb negb].
  rewrite (skip_stops data end_ He _ (14 + 1) close 0x22); [|lia|lia| |apply declaration_close|done].
  2:{ intros i d Hi Hd. destruct (declaration_at_name i d) as [_ Hn]; [lia|done|].
      by rewrite (proj2 (Z.eqb_neq d 0x22) Hn). }
  cbn [mbind option_bind]. destruct (Z.leb_spec end_ close); [lia|].
  unfold found. replace (close - (14 + 1)) with (zlen name) by lia.
  by replace (close + 1) with (16 + zlen name) by lia.
Qed.

Lemma strip_front_stays n v vl c :
  znth data v = Some c -> ISSPACE c = false -> strip_front data n v vl = Some (v, vl).
Proof. intros Hc Hs. destruct n; cbn [strip_front]; unfold at_; rewrite Hc; cbn; by rewrite Hs. Qed.

Lemma strip_back_stays n v vl c :
  0 < vl -> znth data (v + (vl - 1)) = Some c -> ISSPACE c = false ->
  strip_back data n v vl = Some vl.
Proof.
  intros Hl Hc Hs. destruct n; cbn [strip_back]; destruct (Z.leb_spec vl 0); try lia;
    unfold at_; rewrite Hc; cbn; by rewrite Hs.
Qed.

Lemma declaration_mibenum mibenum :
  attribute_mibenum mibenum_from_name data
    {| at_name := 6; at_namelen := 7; at_value := Some 15; at_valuelen := zlen name |} mibenum
  = Some (mibenum_from_name name).
Proof.
  destruct declaration_end as [Hc He]. destruct name_plain as [Hne _].
  assert (Hl : 0 < zlen name) by (zlens; pose proof (zlen_zero_inv name); destruct (Z.eq_dec (zlen name) 0); tauto || lia).
  unfold attribute_mibenum. cbn [at_value at_valuelen at_namelen at_name].
  destruct (Z.ltb_spec 0 (zlen name)); [|lia]. cbn [Z.eqb Pos.eqb].
  assert (Hs : strncasecmp_eq data 6 (chars "charset") = Some true).
  { unfold declaration. rewrite strncasecmp_prefix by (vm_compute; discriminate). reflexivity. }
  rewrite Hs. cbn [mbind option_bind].
  destruct (at_in data 15) as [c Hf]; [lia|]. destruct (at_in data (15 + (zlen name - 1))) as [d Hd]; [lia|].
  destruct (declaration_at_name 15 c) as [Hc1 _]; [lia|done|].
  destruct (declaration_at_name (15 + (zlen name - 1)) d) as [Hd1 _]; [lia|done|].
  rewrite (strip_front_stays _ _ _ c) by done. cbn [mbind option_bind].
  rewrite (strip_back_stays _ _ _ d) by done. cbn [mbind option_bind].
  unfold read. rewrite mem_read_in by lia. cbn [mbind option_bind]. by rewrite declaration_name.
Qed.

Lemma declaration_scanned :
  not_utf16 mibenum_from_name (mibenum_from_name name) <> 0 ->
  hubbub_charset_scan_meta mibenum_from_name data
  = Some (not_utf16 mibenum_from_name (mibenum_from_name name)).
Proof.
  intros Hm. destruct declaration_end as [Hc He]. pose proof (zlen_nonneg name).
  unfold hubbub_charset_scan_meta.
  destruct (Z.to_nat end_) as [|n] eqn:En; [lia|]. cbn [scan_loop].
  destruct (Z.leb_spec end_ 0); [lia|]. unfold scan_step, PEEK.
  change (zlen (chars "<!--")) with 4. change (zlen (chars "<meta")) with 5.
  destruct (Z.ltb_spec 0 (end_ - 4)); [|lia]. destruct (Z.ltb_spec 0 (end_ - 5)); [|lia].
  unfold declaration. rewrite !strncasecmp_prefix by (vm_compute; discriminate).
  change (strncasecmp_eq (chars "<meta charset=") 0 (chars "<!--")) with (Some false).
  change (strncasecmp_eq (chars "<meta charset=") 0 (chars "<meta")) with (Some true).
  cbn [mbind option_bind]. change (chars "<meta charset=" ++ 34 :: name ++ 34 :: rest) with data.
  unfold scan_meta_tag. destruct (Z.leb_spec (end_ - 1) (0 + 5)); [lia|].
  unfold at_. rewrite declaration_prefix by lia.
  change (znth (chars "<meta charset=" ++ [34]) (0 + 5)) with (Some 32). cbn [mbind option_bind].
  change (ISSPACE 32) with true. cbn iota. change (0 + 5) with 5.
  unfold hubbub_charset_parse_attributes. cbn [parse_attributes_loop].
  rewrite declaration_attribute. cbn [mbind option_bind].
  rewrite declaration_mibenum. cbn [mbind option_bind].
  rewrite (proj2 (Z.eqb_neq _ _) Hm). cbn [negb mbind option_bind].
  by rewrite (proj2 (Z.eqb_neq _ _) Hm).
Qed.
End Declared.

(** C13: a document whose first octets are <meta charset="NAME", with a NAME
    without quotes of at most 480 octets, is scanned to the charset the table has
    for NAME, whatever follows; for the UTF-16 names, which a document read octet
    by octet cannot have, it is scanned to UTF-8.  Other ways to declare a
    charset (other spelling, other attributes before, a meta element further
    on) are not in this theorem. *)
Theorem charset_declaration_found mibenum_from_name name rest :
  plain_name name -> zlen name <= 480 ->
  not_utf16 mibenum_from_name (mibenum_from_name name) <> 0 ->
  hubbub_charset_scan_meta mibenum_from_name (declaration name rest)
  = Some (not_utf16 mibenum_from_name (mibenum_from_name name)).
Proof. apply declaration_scanned. Qed.

Lemma charset_declaration_found_witness :
  hubbub_charset_scan_meta (fun name => zlen name) (declaration (chars "utf-8") (chars "/><body>"))
  = Some 5.
Proof.
  apply (charset_declaration_found (fun name => zlen name) (chars "utf-8") (chars "/><body>")).
  - split; [discriminate|]. repeat constructor; discriminate.
  - vm_compute. discriminate.
  - vm_compute. discriminate.
Defined.
