(* ===== verification/Tokens.v ===== *)
(** * Tokens: the data of the HTML tokeniser
    (libhubbub/include/hubbub/types.h and the types of
    libhubbub/src/tokeniser/tokeniser.c). *)
From S2P Require Import Prelude Errors.

Inductive hubbub_content_model :=
  | HUBBUB_CONTENT_MODEL_PCDATA
  | HUBBUB_CONTENT_MODEL_RCDATA
  | HUBBUB_CONTENT_MODEL_CDATA
  | HUBBUB_CONTENT_MODEL_PLAINTEXT.

#[export] Instance content_model_eq_dec : EqDecision hubbub_content_model.
Proof. solve_decision. Defined.

Inductive hubbub_token_type :=
  | HUBBUB_TOKEN_DOCTYPE
  | HUBBUB_TOKEN_START_TAG
  | HUBBUB_TOKEN_END_TAG
  | HUBBUB_TOKEN_COMMENT
  | HUBBUB_TOKEN_CHARACTER
  | HUBBUB_TOKEN_EOF.

Inductive hubbub_ns :=
  | HUBBUB_NS_NULL
  | HUBBUB_NS_HTML
  | HUBBUB_NS_MATHML
  | HUBBUB_NS_SVG
  | HUBBUB_NS_XLINK
  | HUBBUB_NS_XML
  | HUBBUB_NS_XMLNS.

(** ** Tokens as the handler receives them *)

Record hubbub_attribute := {
  attr_ns : hubbub_ns;
  attr_name : bytes;
  attr_value : bytes
}.

Record hubbub_tag := {
  tag_ns : hubbub_ns;
  tag_name : bytes;
  tag_attributes : list hubbub_attribute;
  tag_self_closing : bool
}.

Record hubbub_doctype := {
  doctype_name : bytes;
  doctype_public_missing : bool;
  doctype_public_id : bytes;
  doctype_system_missing : bool;
  doctype_system_id : bytes;
  doctype_force_quirks : bool
}.

Inductive hubbub_token :=
  | TokenDoctype (d : hubbub_doctype)
  | TokenStartTag (t : hubbub_tag)
  | TokenEndTag (t : hubbub_tag)
  | TokenComment (s : bytes)
  | TokenCharacter (s : bytes)
  | TokenEOF.

#[export] Instance hubbub_ns_eq_dec : EqDecision hubbub_ns.
Proof. solve_decision. Defined.
#[export] Instance hubbub_attribute_eq_dec : EqDecision hubbub_attribute.
Proof. solve_decision. Defined.
#[export] Instance hubbub_tag_eq_dec : EqDecision hubbub_tag.
Proof. solve_decision. Defined.
#[export] Instance hubbub_doctype_eq_dec : EqDecision hubbub_doctype.
Proof. solve_decision. Defined.
#[export] Instance hubbub_token_eq_dec : EqDecision hubbub_token.
Proof. solve_decision. Defined.

(** ** States *)

Inductive hubbub_tokeniser_state :=
  | STATE_DATA
  | STATE_CHARACTER_REFERENCE_DATA
  | STATE_TAG_OPEN
  | STATE_CLOSE_TAG_OPEN
  | STATE_TAG_NAME
  | STATE_BEFORE_ATTRIBUTE_NAME
  | STATE_ATTRIBUTE_NAME
  | STATE_AFTER_ATTRIBUTE_NAME
  | STATE_BEFORE_ATTRIBUTE_VALUE
  | STATE_ATTRIBUTE_VALUE_DQ
  | STATE_ATTRIBUTE_VALUE_SQ
  | STATE_ATTRIBUTE_VALUE_UQ
  | STATE_CHARACTER_REFERENCE_IN_ATTRIBUTE_VALUE
  | STATE_AFTER_ATTRIBUTE_VALUE_Q
  | STATE_SELF_CLOSING_START_TAG
  | STATE_BOGUS_COMMENT
  | STATE_MARKUP_DECLARATION_OPEN
  | STATE_MATCH_COMMENT
  | STATE_COMMENT_START
  | STATE_COMMENT_START_DASH
  | STATE_COMMENT
  | STATE_COMMENT_END_DASH
  | STATE_COMMENT_END
  | STATE_MATCH_DOCTYPE
  | STATE_DOCTYPE
  | STATE_BEFORE_DOCTYPE_NAME
  | STATE_DOCTYPE_NAME
  | STATE_AFTER_DOCTYPE_NAME
  | STATE_MATCH_PUBLIC
  | STATE_BEFORE_DOCTYPE_PUBLIC
  | STATE_DOCTYPE_PUBLIC_DQ
  | STATE_DOCTYPE_PUBLIC_SQ
  | STATE_AFTER_DOCTYPE_PUBLIC
  | STATE_MATCH_SYSTEM
  | STATE_BEFORE_DOCTYPE_SYSTEM
  | STATE_DOCTYPE_SYSTEM_DQ
  | STATE_DOCTYPE_SYSTEM_SQ
  | STATE_AFTER_DOCTYPE_SYSTEM
  | STATE_BOGUS_DOCTYPE
  | STATE_MATCH_CDATA
  | STATE_CDATA_BLOCK
  | STATE_NUMBERED_ENTITY
  | STATE_NAMED_ENTITY.

#[export] Instance tokeniser_state_eq_dec : EqDecision hubbub_tokeniser_state.
Proof. solve_decision. Defined.
