(* ===== verification/TokeniserState.v ===== *)
(** * TokeniserState: the state of the HTML tokeniser, the monad its functions
    run in, and the emission of tokens (libhubbub/src/tokeniser/tokeniser.c).

    A [hubbub_string] under construction is only its length: its pointer is set
    when the token is emitted, from the offset of its text in the buffer. *)
From S2P Require Import Prelude Errors Utf8 Interfaces Entities Tokens.

(** ** The context (hubbub_tokeniser_context) *)

(** Attribute data of the tag being collected: lengths of name and value. *)
Record current_attribute := {
  ca_name : Z;
  ca_value : Z
}.

(** The tag being collected; [n_attributes] is the length of the list, which
    holds the entries of the array that the code has set since it last reset
    [n_attributes]. *)
Record current_tag := {
  ct_name : Z;
  ct_attributes : list current_attribute;
  ct_self_closing : bool
}.

(** The doctype being collected. *)
Record current_doctype := {
  cd_name : Z;
  cd_public_missing : bool;
  cd_public_id : Z;
  cd_system_missing : bool;
  cd_system_id : Z;
  cd_force_quirks : bool
}.

(** State of matching a character reference (match_entity). *)
Record entity_match := {
  me_offset : Z;
  me_length : Z;
  me_codepoint : Z;
  me_complete : bool;
  me_poss_length : Z;
  me_base : Z;
  me_context : Z;
  me_prev_len : Z;
  me_had_data : bool;
  me_overflow : bool;
  me_return_state : hubbub_tokeniser_state
}.

Record tokeniser_context := {
  cx_pending : Z;
  cx_current_comment : Z;
  cx_current_tag_type : hubbub_token_type;
  cx_current_tag : current_tag;
  cx_current_doctype : current_doctype;
  cx_prev_state : hubbub_tokeniser_state;
  cx_last_start_tag_name : bytes;
  cx_last_start_tag_len : Z;
  cx_close_tag_count : Z;
  cx_close_tag_match : bool;
  cx_match_doctype_count : Z;
  cx_match_cdata_count : Z;
  cx_match_cdata_end : Z;
  cx_match_entity : entity_match;
  cx_allowed_char : Z
}.

(** ** The tokeniser *)

(** What a token handler may ask of the tokeniser while it handles a token: the
    calls of hubbub_tokeniser_setopt and hubbub_tokeniser_insert_chunk it
    makes, in order. *)
Inductive tokeniser_command :=
  | CmdContentModel (model : hubbub_content_model)
  | CmdProcessCdata (process : bool)
  | CmdPause
  | CmdInsert (d : bytes).

Definition token_handler_fn (P : Type) : Type :=
  P -> hubbub_token -> hubbub_error * list tokeniser_command * P.

Record hubbub_tokeniser {St B P : Type} := {
  tk_state : hubbub_tokeniser_state;
  tk_content_model : hubbub_content_model;
  tk_escape_flag : bool;
  tk_process_cdata_section : bool;
  tk_paused : bool;
  tk_input : St;
  tk_buffer : B;
  tk_insert_buf : B;
  tk_context : tokeniser_context;
  tk_token_handler : option (token_handler_fn P);
  tk_token_pw : P
}.
Arguments hubbub_tokeniser : clear implicits.

(** ** Field assignment *)
Definition set_ca_name (v : Z) (r : current_attribute) : current_attribute :=
  {| ca_name := v; ca_value := ca_value r |}.
Definition set_ca_value (v : Z) (r : current_attribute) : current_attribute :=
  {| ca_name := ca_name r; ca_value := v |}.
Definition set_ct_name (v : Z) (r : current_tag) : current_tag :=
  {| ct_name := v; ct_attributes := ct_attributes r; ct_self_closing := ct_self_closing r
     |}.
Definition set_ct_attributes (v : list current_attribute) (r : current_tag) : current_tag :=
  {| ct_name := ct_name r; ct_attributes := v; ct_self_closing := ct_self_closing r |}.
Definition set_ct_self_closing (v : bool) (r : current_tag) : current_tag :=
  {| ct_name := ct_name r; ct_attributes := ct_attributes r; ct_self_closing := v |}.
Definition set_cd_name (v : Z) (r : current_doctype) : current_doctype :=
  {| cd_name := v; cd_public_missing := cd_public_missing r; cd_public_id := cd_public_id
     r; cd_system_missing := cd_system_missing r; cd_system_id := cd_system_id r;
     cd_force_quirks := cd_force_quirks r |}.
Definition set_cd_public_missing (v : bool) (r : current_doctype) : current_doctype :=
  {| cd_name := cd_name r; cd_public_missing := v; cd_public_id := cd_public_id r;
     cd_system_missing := cd_system_missing r; cd_system_id := cd_system_id r;
     cd_force_quirks := cd_force_quirks r |}.
Definition set_cd_public_id (v : Z) (r : current_doctype) : current_doctype :=
  {| cd_name := cd_name r; cd_public_missing := cd_public_missing r; cd_public_id := v;
     cd_system_missing := cd_system_missing r; cd_system_id := cd_system_id r;
     cd_force_quirks := cd_force_quirks r |}.
Definition set_cd_system_missing (v : bool) (r : current_doctype) : current_doctype :=
  {| cd_name := cd_name r; cd_public_missing := cd_public_missing r; cd_public_id :=
     cd_public_id r; cd_system_missing := v; cd_system_id := cd_system_id r;
     cd_force_quirks := cd_force_quirks r |}.
Definition set_cd_system_id (v : Z) (r : current_doctype) : current_doctype :=
  {| cd_name := cd_name r; cd_public_missing := cd_public_missing r; cd_public_id :=
     cd_public_id r; cd_system_missing := cd_system_missing r; cd_system_id := v;
     cd_force_quirks := cd_force_quirks r |}.
Definition set_cd_force_quirks (v : bool) (r : current_doctype) : current_doctype :=
  {| cd_name := cd_name r; cd_public_missing := cd_public_missing r; cd_public_id :=
     cd_public_id r; cd_system_missing := cd_system_missing r; cd_system_id :=
     cd_system_id r; cd_force_quirks := v |}.
Definition set_me_offset (v : Z) (r : entity_match) : entity_match :=
  {| me_offset := v; me_length := me_length r; me_codepoint := me_codepoint r; me_complete
     := me_complete r; me_poss_length := me_poss_length r; me_base := me_base r;
     me_context := me_context r; me_prev_len := me_prev_len r; me_had_data := me_had_data
     r; me_overflow := me_overflow r; me_return_state := me_return_state r |}.
Definition set_me_length (v : Z) (r : entity_match) : entity_match :=
  {| me_offset := me_offset r; me_length := v; me_codepoint := me_codepoint r; me_complete
     := me_complete r; me_poss_length := me_poss_length r; me_base := me_base r;
     me_context := me_context r; me_prev_len := me_prev_len r; me_had_data := me_had_data
     r; me_overflow := me_overflow r; me_return_state := me_return_state r |}.
Definition set_me_codepoint (v : Z) (r : entity_match) : entity_match :=
  {| me_offset := me_offset r; me_length := me_length r; me_codepoint := v; me_complete :=
     me_complete r; me_poss_length := me_poss_length r; me_base := me_base r; me_context
     := me_context r; me_prev_len := me_prev_len r; me_had_data := me_had_data r;
     me_overflow := me_overflow r; me_return_state := me_return_state r |}.
Definition set_me_complete (v : bool) (r : entity_match) : entity_match :=
  {| me_offset := me_offset r; me_length := me_length r; me_codepoint := me_codepoint r;
     me_complete := v; me_poss_length := me_poss_length r; me_base := me_base r;
     me_context := me_context r; me_prev_len := me_prev_len r; me_had_data := me_had_data
     r; me_overflow := me_overflow r; me_return_state := me_return_state r |}.
Definition set_me_poss_length (v : Z) (r : entity_match) : entity_match :=
  {| me_offset := me_offset r; me_length := me_length r; me_codepoint := me_codepoint r;
     me_complete := me_complete r; me_poss_length := v; me_base := me_base r; me_context
     := me_context r; me_prev_len := me_prev_len r; me_had_data := me_had_data r;
     me_overflow := me_overflow r; me_return_state := me_return_state r |}.
Definition set_me_base (v : Z) (r : entity_match) : entity_match :=
  {| me_offset := me_offset r; me_length := me_length r; me_codepoint := me_codepoint r;
     me_complete := me_complete r; me_poss_length := me_poss_length r; me_base := v;
     me_context := me_context r; me_prev_len := me_prev_len r; me_had_data := me_had_data
     r; me_overflow := me_overflow r; me_return_state := me_return_state r |}.
Definition set_me_context (v : Z) (r : entity_match) : entity_match :=
  {| me_offset := me_offset r; me_length := me_length r; me_codepoint := me_codepoint r;
     me_complete := me_complete r; me_poss_length := me_poss_length r; me_base := me_base
     r; me_context := v; me_prev_len := me_prev_len r; me_had_data := me_had_data r;
     me_overflow := me_overflow r; me_return_state := me_return_state r |}.
Definition set_me_prev_len (v : Z) (r : entity_match) : entity_match :=
  {| me_offset := me_offset r; me_length := me_length r; me_codepoint := me_codepoint r;
     me_complete := me_complete r; me_poss_length := me_poss_length r; me_base := me_base
     r; me_context := me_context r; me_prev_len := v; me_had_data := me_had_data r;
     me_overflow := me_overflow r; me_return_state := me_return_state r |}.
Definition set_me_had_data (v : bool) (r : entity_match) : entity_match :=
  {| me_offset := me_offset r; me_length := me_length r; me_codepoint := me_codepoint r;
     me_complete := me_complete r; me_poss_length := me_poss_length r; me_base := me_base
     r; me_context := me_context r; me_prev_len := me_prev_len r; me_had_data := v;
     me_overflow := me_overflow r; me_return_state := me_return_state r |}.
Definition set_me_overflow (v : bool) (r : entity_match) : entity_match :=
  {| me_offset := me_offset r; me_length := me_length r; me_codepoint := me_codepoint r;
     me_complete := me_complete r; me_poss_length := me_poss_length r; me_base := me_base
     r; me_context := me_context r; me_prev_len := me_prev_len r; me_had_data :=
     me_had_data r; me_overflow := v; me_return_state := me_return_state r |}.
Definition set_me_return_state (v : hubbub_tokeniser_state) (r : entity_match) : entity_match :=
  {| me_offset := me_offset r; me_length := me_length r; me_codepoint := me_codepoint r;
     me_complete := me_complete r; me_poss_length := me_poss_length r; me_base := me_base
     r; me_context := me_context r; me_prev_len := me_prev_len r; me_had_data :=
     me_had_data r; me_overflow := me_overflow r; me_return_state := v |}.
Definition set_cx_pending (v : Z) (r : tokeniser_context) : tokeniser_context :=
  {| cx_pending := v; cx_current_comment := cx_current_comment r; cx_current_tag_type :=
     cx_current_tag_type r; cx_current_tag := cx_current_tag r; cx_current_doctype :=
     cx_current_doctype r; cx_prev_state := cx_prev_state r; cx_last_start_tag_name :=
     cx_last_start_tag_name r; cx_last_start_tag_len := cx_last_start_tag_len r;
     cx_close_tag_count := cx_close_tag_count r; cx_close_tag_match := cx_close_tag_match
     r; cx_match_doctype_count := cx_match_doctype_count r; cx_match_cdata_count :=
     cx_match_cdata_count r; cx_match_cdata_end := cx_match_cdata_end r; cx_match_entity
     := cx_match_entity r; cx_allowed_char := cx_allowed_char r |}.
Definition set_cx_current_comment (v : Z) (r : tokeniser_context) : tokeniser_context :=
  {| cx_pending := cx_pending r; cx_current_comment := v; cx_current_tag_type :=
     cx_current_tag_type r; cx_current_tag := cx_current_tag r; cx_current_doctype :=
     cx_current_doctype r; cx_prev_state := cx_prev_state r; cx_last_start_tag_name :=
     cx_last_start_tag_name r; cx_last_start_tag_len := cx_last_start_tag_len r;
     cx_close_tag_count := cx_close_tag_count r; cx_close_tag_match := cx_close_tag_match
     r; cx_match_doctype_count := cx_match_doctype_count r; cx_match_cdata_count :=
     cx_match_cdata_count r; cx_match_cdata_end := cx_match_cdata_end r; cx_match_entity
     := cx_match_entity r; cx_allowed_char := cx_allowed_char r |}.
Definition set_cx_current_tag_type (v : hubbub_token_type) (r : tokeniser_context) : tokeniser_context :=
  {| cx_pending := cx_pending r; cx_current_comment := cx_current_comment r;
     cx_current_tag_type := v; cx_current_tag := cx_current_tag r; cx_current_doctype :=
     cx_current_doctype r; cx_prev_state := cx_prev_state r; cx_last_start_tag_name :=
     cx_last_start_tag_name r; cx_last_start_tag_len := cx_last_start_tag_len r;
     cx_close_tag_count := cx_close_tag_count r; cx_close_tag_match := cx_close_tag_match
     r; cx_match_doctype_count := cx_match_doctype_count r; cx_match_cdata_count :=
     cx_match_cdata_count r; cx_match_cdata_end := cx_match_cdata_end r; cx_match_entity
     := cx_match_entity r; cx_allowed_char := cx_allowed_char r |}.
Definition set_cx_current_tag (v : current_tag) (r : tokeniser_context) : tokeniser_context :=
  {| cx_pending := cx_pending r; cx_current_comment := cx_current_comment r;
     cx_current_tag_type := cx_current_tag_type r; cx_current_tag := v; cx_current_doctype
     := cx_current_doctype r; cx_prev_state := cx_prev_state r; cx_last_start_tag_name :=
     cx_last_start_tag_name r; cx_last_start_tag_len := cx_last_start_tag_len r;
     cx_close_tag_count := cx_close_tag_count r; cx_close_tag_match := cx_close_tag_match
     r; cx_match_doctype_count := cx_match_doctype_count r; cx_match_cdata_count :=
     cx_match_cdata_count r; cx_match_cdata_end := cx_match_cdata_end r; cx_match_entity
     := cx_match_entity r; cx_allowed_char := cx_allowed_char r |}.
Definition set_cx_current_doctype (v : current_doctype) (r : tokeniser_context) : tokeniser_context :=
  {| cx_pending := cx_pending r; cx_current_comment := cx_current_comment r;
     cx_current_tag_type := cx_current_tag_type r; cx_current_tag := cx_current_tag r;
     cx_current_doctype := v; cx_prev_state := cx_prev_state r; cx_last_start_tag_name :=
     cx_last_start_tag_name r; cx_last_start_tag_len := cx_last_start_tag_len r;
     cx_close_tag_count := cx_close_tag_count r; cx_close_tag_match := cx_close_tag_match
     r; cx_match_doctype_count := cx_match_doctype_count r; cx_match_cdata_count :=
     cx_match_cdata_count r; cx_match_cdata_end := cx_match_cdata_end r; cx_match_entity
     := cx_match_entity r; cx_allowed_char := cx_allowed_char r |}.
Definition set_cx_prev_state (v : hubbub_tokeniser_state) (r : tokeniser_context) : tokeniser_context :=
  {| cx_pending := cx_pending r; cx_current_comment := cx_current_comment r;
     cx_current_tag_type := cx_current_tag_type r; cx_current_tag := cx_current_tag r;
     cx_current_doctype := cx_current_doctype r; cx_prev_state := v;
     cx_last_start_tag_name := cx_last_start_tag_name r; cx_last_start_tag_len :=
     cx_last_start_tag_len r; cx_close_tag_count := cx_close_tag_count r;
     cx_close_tag_match := cx_close_tag_match r; cx_match_doctype_count :=
     cx_match_doctype_count r; cx_match_cdata_count := cx_match_cdata_count r;
     cx_match_cdata_end := cx_match_cdata_end r; cx_match_entity := cx_match_entity r;
     cx_allowed_char := cx_allowed_char r |}.
Definition set_cx_last_start_tag_name (v : bytes) (r : tokeniser_context) : tokeniser_context :=
  {| cx_pending := cx_pending r; cx_current_comment := cx_current_comment r;
     cx_current_tag_type := cx_current_tag_type r; cx_current_tag := cx_current_tag r;
     cx_current_doctype := cx_current_doctype r; cx_prev_state := cx_prev_state r;
     cx_last_start_tag_name := v; cx_last_start_tag_len := cx_last_start_tag_len r;
     cx_close_tag_count := cx_close_tag_count r; cx_close_tag_match := cx_close_tag_match
     r; cx_match_doctype_count := cx_match_doctype_count r; cx_match_cdata_count :=
     cx_match_cdata_count r; cx_match_cdata_end := cx_match_cdata_end r; cx_match_entity
     := cx_match_entity r; cx_allowed_char := cx_allowed_char r |}.
Definition set_cx_last_start_tag_len (v : Z) (r : tokeniser_context) : tokeniser_context :=
  {| cx_pending := cx_pending r; cx_current_comment := cx_current_comment r;
     cx_current_tag_type := cx_current_tag_type r; cx_current_tag := cx_current_tag r;
     cx_current_doctype := cx_current_doctype r; cx_prev_state := cx_prev_state r;
     cx_last_start_tag_name := cx_last_start_tag_name r; cx_last_start_tag_len := v;
     cx_close_tag_count := cx_close_tag_count r; cx_close_tag_match := cx_close_tag_match
     r; cx_match_doctype_count := cx_match_doctype_count r; cx_match_cdata_count :=
     cx_match_cdata_count r; cx_match_cdata_end := cx_match_cdata_end r; cx_match_entity
     := cx_match_entity r; cx_allowed_char := cx_allowed_char r |}.
Definition set_cx_close_tag_count (v : Z) (r : tokeniser_context) : tokeniser_context :=
  {| cx_pending := cx_pending r; cx_current_comment := cx_current_comment r;
     cx_current_tag_type := cx_current_tag_type r; cx_current_tag := cx_current_tag r;
     cx_current_doctype := cx_current_doctype r; cx_prev_state := cx_prev_state r;
     cx_last_start_tag_name := cx_last_start_tag_name r; cx_last_start_tag_len :=
     cx_last_start_tag_len r; cx_close_tag_count := v; cx_close_tag_match :=
     cx_close_tag_match r; cx_match_doctype_count := cx_match_doctype_count r;
     cx_match_cdata_count := cx_match_cdata_count r; cx_match_cdata_end :=
     cx_match_cdata_end r; cx_match_entity := cx_match_entity r; cx_allowed_char :=
     cx_allowed_char r |}.
Definition set_cx_close_tag_match (v : bool) (r : tokeniser_context) : tokeniser_context :=
  {| cx_pending := cx_pending r; cx_current_comment := cx_current_comment r;
     cx_current_tag_type := cx_current_tag_type r; cx_current_tag := cx_current_tag r;
     cx_current_doctype := cx_current_doctype r; cx_prev_state := cx_prev_state r;
     cx_last_start_tag_name := cx_last_start_tag_name r; cx_last_start_tag_len :=
     cx_last_start_tag_len r; cx_close_tag_count := cx_close_tag_count r;
     cx_close_tag_match := v; cx_match_doctype_count := cx_match_doctype_count r;
     cx_match_cdata_count := cx_match_cdata_count r; cx_match_cdata_end :=
     cx_match_cdata_end r; cx_match_entity := cx_match_entity r; cx_allowed_char :=
     cx_allowed_char r |}.
Definition set_cx_match_doctype_count (v : Z) (r : tokeniser_context) : tokeniser_context :=
  {| cx_pending := cx_pending r; cx_current_comment := cx_current_comment r;
     cx_current_tag_type := cx_current_tag_type r; cx_current_tag := cx_current_tag r;
     cx_current_doctype := cx_current_doctype r; cx_prev_state := cx_prev_state r;
     cx_last_start_tag_name := cx_last_start_tag_name r; cx_last_start_tag_len :=
     cx_last_start_tag_len r; cx_close_tag_count := cx_close_tag_count r;
     cx_close_tag_match := cx_close_tag_match r; cx_match_doctype_count := v;
     cx_match_cdata_count := cx_match_cdata_count r; cx_match_cdata_end :=
     cx_match_cdata_end r; cx_match_entity := cx_match_entity r; cx_allowed_char :=
     cx_allowed_char r |}.
Definition set_cx_match_cdata_count (v : Z) (r : tokeniser_context) : tokeniser_context :=
  {| cx_pending := cx_pending r; cx_current_comment := cx_current_comment r;
     cx_current_tag_type := cx_current_tag_type r; cx_current_tag := cx_current_tag r;
     cx_current_doctype := cx_current_doctype r; cx_prev_state := cx_prev_state r;
     cx_last_start_tag_name := cx_last_start_tag_name r; cx_last_start_tag_len :=
     cx_last_start_tag_len r; cx_close_tag_count := cx_close_tag_count r;
     cx_close_tag_match := cx_close_tag_match r; cx_match_doctype_count :=
     cx_match_doctype_count r; cx_match_cdata_count := v; cx_match_cdata_end :=
     cx_match_cdata_end r; cx_match_entity := cx_match_entity r; cx_allowed_char :=
     cx_allowed_char r |}.
Definition set_cx_match_cdata_end (v : Z) (r : tokeniser_context) : tokeniser_context :=
  {| cx_pending := cx_pending r; cx_current_comment := cx_current_comment r;
     cx_current_tag_type := cx_current_tag_type r; cx_current_tag := cx_current_tag r;
     cx_current_doctype := cx_current_doctype r; cx_prev_state := cx_prev_state r;
     cx_last_start_tag_name := cx_last_start_tag_name r; cx_last_start_tag_len :=
     cx_last_start_tag_len r; cx_close_tag_count := cx_close_tag_count r;
     cx_close_tag_match := cx_close_tag_match r; cx_match_doctype_count :=
     cx_match_doctype_count r; cx_match_cdata_count := cx_match_cdata_count r;
     cx_match_cdata_end := v; cx_match_entity := cx_match_entity r; cx_allowed_char :=
     cx_allowed_char r |}.
Definition set_cx_match_entity (v : entity_match) (r : tokeniser_context) : tokeniser_context :=
  {| cx_pending := cx_pending r; cx_current_comment := cx_current_comment r;
     cx_current_tag_type := cx_current_tag_type r; cx_current_tag := cx_current_tag r;
     cx_current_doctype := cx_current_doctype r; cx_prev_state := cx_prev_state r;
     cx_last_start_tag_name := cx_last_start_tag_name r; cx_last_start_tag_len :=
     cx_last_start_tag_len r; cx_close_tag_count := cx_close_tag_count r;
     cx_close_tag_match := cx_close_tag_match r; cx_match_doctype_count :=
     cx_match_doctype_count r; cx_match_cdata_count := cx_match_cdata_count r;
     cx_match_cdata_end := cx_match_cdata_end r; cx_match_entity := v; cx_allowed_char :=
     cx_allowed_char r |}.
Definition set_cx_allowed_char (v : Z) (r : tokeniser_context) : tokeniser_context :=
  {| cx_pending := cx_pending r; cx_current_comment := cx_current_comment r;
     cx_current_tag_type := cx_current_tag_type r; cx_current_tag := cx_current_tag r;
     cx_current_doctype := cx_current_doctype r; cx_prev_state := cx_prev_state r;
     cx_last_start_tag_name := cx_last_start_tag_name r; cx_last_start_tag_len :=
     cx_last_start_tag_len r; cx_close_tag_count := cx_close_tag_count r;
     cx_close_tag_match := cx_close_tag_match r; cx_match_doctype_count :=
     cx_match_doctype_count r; cx_match_cdata_count := cx_match_cdata_count r;
     cx_match_cdata_end := cx_match_cdata_end r; cx_match_entity := cx_match_entity r;
     cx_allowed_char := v |}.

Section Setters.
Context {St B P : Type}.
Local Abbreviation T := (hubbub_tokeniser St B P).
Definition set_tk_state (v : hubbub_tokeniser_state) (r : T) : T :=
  {| tk_state := v; tk_content_model := tk_content_model r; tk_escape_flag :=
     tk_escape_flag r; tk_process_cdata_section := tk_process_cdata_section r; tk_paused
     := tk_paused r; tk_input := tk_input r; tk_buffer := tk_buffer r; tk_insert_buf :=
     tk_insert_buf r; tk_context := tk_context r; tk_token_handler := tk_token_handler
     r; tk_token_pw := tk_token_pw r |}.
Definition set_tk_content_model (v : hubbub_content_model) (r : T) : T :=
  {| tk_state := tk_state r; tk_content_model := v; tk_escape_flag := tk_escape_flag r;
     tk_process_cdata_section := tk_process_cdata_section r; tk_paused := tk_paused r;
     tk_input := tk_input r; tk_buffer := tk_buffer r; tk_insert_buf := tk_insert_buf r;
     tk_context := tk_context r; tk_token_handler := tk_token_handler r; tk_token_pw :=
     tk_token_pw r |}.
Definition set_tk_escape_flag (v : bool) (r : T) : T :=
  {| tk_state := tk_state r; tk_content_model := tk_content_model r; tk_escape_flag :=
     v; tk_process_cdata_section := tk_process_cdata_section r; tk_paused := tk_paused
     r; tk_input := tk_input r; tk_buffer := tk_buffer r; tk_insert_buf := tk_insert_buf
     r; tk_context := tk_context r; tk_token_handler := tk_token_handler r; tk_token_pw
     := tk_token_pw r |}.
Definition set_tk_process_cdata_section (v : bool) (r : T) : T :=
  {| tk_state := tk_state r; tk_content_model := tk_content_model r; tk_escape_flag :=
     tk_escape_flag r; tk_process_cdata_section := v; tk_paused := tk_paused r; tk_input
     := tk_input r; tk_buffer := tk_buffer r; tk_insert_buf := tk_insert_buf r;
     tk_context := tk_context r; tk_token_handler := tk_token_handler r; tk_token_pw :=
     tk_token_pw r |}.
Definition set_tk_paused (v : bool) (r : T) : T :=
  {| tk_state := tk_state r; tk_content_model := tk_content_model r; tk_escape_flag :=
     tk_escape_flag r; tk_process_cdata_section := tk_process_cdata_section r; tk_paused
     := v; tk_input := tk_input r; tk_buffer := tk_buffer r; tk_insert_buf :=
     tk_insert_buf r; tk_context := tk_context r; tk_token_handler := tk_token_handler
     r; tk_token_pw := tk_token_pw r |}.
Definition set_tk_input (v : St) (r : T) : T :=
  {| tk_state := tk_state r; tk_content_model := tk_content_model r; tk_escape_flag :=
     tk_escape_flag r; tk_process_cdata_section := tk_process_cdata_section r; tk_paused
     := tk_paused r; tk_input := v; tk_buffer := tk_buffer r; tk_insert_buf :=
     tk_insert_buf r; tk_context := tk_context r; tk_token_handler := tk_token_handler
     r; tk_token_pw := tk_token_pw r |}.
Definition set_tk_buffer (v : B) (r : T) : T :=
  {| tk_state := tk_state r; tk_content_model := tk_content_model r; tk_escape_flag :=
     tk_escape_flag r; tk_process_cdata_section := tk_process_cdata_section r; tk_paused
     := tk_paused r; tk_input := tk_input r; tk_buffer := v; tk_insert_buf :=
     tk_insert_buf r; tk_context := tk_context r; tk_token_handler := tk_token_handler
     r; tk_token_pw := tk_token_pw r |}.
Definition set_tk_insert_buf (v : B) (r : T) : T :=
  {| tk_state := tk_state r; tk_content_model := tk_content_model r; tk_escape_flag :=
     tk_escape_flag r; tk_process_cdata_section := tk_process_cdata_section r; tk_paused
     := tk_paused r; tk_input := tk_input r; tk_buffer := tk_buffer r; tk_insert_buf :=
     v; tk_context := tk_context r; tk_token_handler := tk_token_handler r; tk_token_pw
     := tk_token_pw r |}.
Definition set_tk_context (v : tokeniser_context) (r : T) : T :=
  {| tk_state := tk_state r; tk_content_model := tk_content_model r; tk_escape_flag :=
     tk_escape_flag r; tk_process_cdata_section := tk_process_cdata_section r; tk_paused
     := tk_paused r; tk_input := tk_input r; tk_buffer := tk_buffer r; tk_insert_buf :=
     tk_insert_buf r; tk_context := v; tk_token_handler := tk_token_handler r;
     tk_token_pw := tk_token_pw r |}.
Definition set_tk_token_handler (v : option (token_handler_fn P)) (r : T) : T :=
  {| tk_state := tk_state r; tk_content_model := tk_content_model r; tk_escape_flag :=
     tk_escape_flag r; tk_process_cdata_section := tk_process_cdata_section r; tk_paused
     := tk_paused r; tk_input := tk_input r; tk_buffer := tk_buffer r; tk_insert_buf :=
     tk_insert_buf r; tk_context := tk_context r; tk_token_handler := v; tk_token_pw :=
     tk_token_pw r |}.
Definition set_tk_token_pw (v : P) (r : T) : T :=
  {| tk_state := tk_state r; tk_content_model := tk_content_model r; tk_escape_flag :=
     tk_escape_flag r; tk_process_cdata_section := tk_process_cdata_section r; tk_paused
     := tk_paused r; tk_input := tk_input r; tk_buffer := tk_buffer r; tk_insert_buf :=
     tk_insert_buf r; tk_context := tk_context r; tk_token_handler := tk_token_handler
     r; tk_token_pw := v |}.
End Setters.
