(* ===== verification/TokeniserMonad.v ===== *)
(** * TokeniserMonad: how the tokeniser's functions run, and the emission of
    tokens (libhubbub/src/tokeniser/tokeniser.c).

    A C function of type hubbub_error over the tokeniser is a computation that
    yields its value, returns early with an error code, or is stuck: a failed
    assert, a read outside the memory a pointer designates, or a loop that has
    not ended within its fuel. *)
From S2P Require Import Prelude Errors Utf8 Interfaces Entities Tokens TokeniserState.

Inductive outcome (T A : Type) :=
  | Ok (a : A) (t : T)
  | Early (e : hubbub_error) (t : T)
  | Stuck.
Arguments Ok {T A}.
Arguments Early {T A}.
Arguments Stuck {T A}.

Definition comp (T A : Type) : Type := T -> outcome T A.

Section Monad.
Context {T : Type}.

Definition ret {A} (a : A) : comp T A := fun t => Ok a t.
Definition bind {A C} (m : comp T A) (k : A -> comp T C) : comp T C := fun t =>
  match m t with
  | Ok a t => k a t
  | Early e t => Early e t
  | Stuck => Stuck
  end.
Definition return_early {A} (e : hubbub_error) : comp T A := fun t => Early e t.
Definition stuck {A} : comp T A := fun _ => Stuck.
Definition gets {A} (f : T -> A) : comp T A := fun t => Ok (f t) t.
Definition modify (f : T -> T) : comp T unit := fun t => Ok tt (f t).
Definition assert (b : bool) : comp T unit := if b then ret tt else stuck.

(** Calling a function: its early return is its value. *)
Definition call (m : comp T hubbub_error) : comp T hubbub_error := fun t =>
  match m t with
  | Ok e t | Early e t => Ok e t
  | Stuck => Stuck
  end.

(** Running one from outside. *)
Definition run_comp (m : comp T hubbub_error) (t : T) : option (hubbub_error * T) :=
  match m t with
  | Ok e t | Early e t => Some (e, t)
  | Stuck => None
  end.

Definition of_option {A} (o : option A) : comp T A :=
  match o with Some a => ret a | None => stuck end.
End Monad.

Declare Scope tok_scope.
Delimit Scope tok_scope with tok.
Notation "'let!' x ':=' m 'in' k" := (bind m (fun x => k))
  (at level 10, x pattern, m at level 100, k at level 200) : tok_scope.
Notation "'do!' m 'in' k" := (bind m (fun _ => k))
  (at level 10, m at level 100, k at level 200) : tok_scope.
#[global] Open Scope tok_scope.

Definition u_fffd : bytes := [0xEF; 0xBF; 0xBD].
Definition lf : bytes := [10].
Definition SIZEOF_ATTRIBUTE : Z := 40.

(** The characters the handlers test for. *)
Definition is_space (c : Z) : bool :=
  (c =? 9) || (c =? 10) || (c =? 12) || (c =? 32) || (c =? 13).
Definition is_upper (c : Z) : bool := (65 <=? c) && (c <=? 90).
Definition is_lower (c : Z) : bool := (97 <=? c) && (c <=? 122).
Definition fold_case (c : Z) : Z := Z.land c (Z.lnot 0x20).

Section Primitives.
Context {St B P : Type} `{!InputStreamOps St} `{!ByteBufferOps B}.
Local Abbreviation T := (hubbub_tokeniser St B P).
Local Abbreviation M := (comp (hubbub_tokeniser St B P)).

Definition upd_context (f : tokeniser_context -> tokeniser_context) : M unit :=
  modify (fun t => set_tk_context (f (tk_context t)) t).
Definition set_state (s : hubbub_tokeniser_state) : M unit := modify (set_tk_state s).
Definition get_state : M hubbub_tokeniser_state := gets tk_state.
Definition get_pending : M Z := gets (fun t => cx_pending (tk_context t)).
Definition set_pending (n : Z) : M unit := upd_context (set_cx_pending n).
Definition add_pending (n : Z) : M unit :=
  upd_context (fun c => set_cx_pending (u64 (cx_pending c + n)) c).
Definition get_me : M entity_match := gets (fun t => cx_match_entity (tk_context t)).
Definition upd_me (f : entity_match -> entity_match) : M unit :=
  upd_context (fun c => set_cx_match_entity (f (cx_match_entity c)) c).
Definition upd_tag (f : current_tag -> current_tag) : M unit :=
  upd_context (fun c => set_cx_current_tag (f (cx_current_tag c)) c).
Definition upd_doctype (f : current_doctype -> current_doctype) : M unit :=
  upd_context (fun c => set_cx_current_doctype (f (cx_current_doctype c)) c).

(** parserutils_inputstream_peek and _advance on the tokeniser's input. *)
Definition peek (off : Z) : M peek_result := fun t =>
  match is_peek (tk_input t) off with
  | Some (r, s) => Ok r (set_tk_input s t)
  | None => Stuck
  end.
Definition peek_pending : M peek_result := let! n := get_pending in peek n.
Definition advance (n : Z) : M unit :=
  modify (fun t => set_tk_input (is_advance (tk_input t) n) t).

(** Reading [n] bytes through a pointer, and the byte it points to. *)
Definition read_bytes (ptr : bytes) (n : Z) : M bytes := of_option (mem_read 0 n ptr).
Definition deref (ptr : bytes) : M Z := of_option (znth ptr 0).

(** parserutils_buffer_append to the tokeniser's buffer. *)
Definition buffer_append (d : bytes) : M parserutils_error := fun t =>
  match bb_append (tk_buffer t) d with
  | Some (e, b) => Ok e (set_tk_buffer b t)
  | None => Stuck
  end.

(** Append, or return the error the append answers. *)
Definition append_or_return (ptr : bytes) (len : Z) : M unit :=
  let! d := read_bytes ptr len in
  let! error := buffer_append d in
  match error with
  | PARSERUTILS_OK => ret tt
  | _ => return_early (hubbub_error_from_parserutils_error error)
  end.

(** ** START_BUF, COLLECT and COLLECT_MS

    The string is given by how its length is read from and written to the
    context. *)
Record string_field := {
  sf_get : tokeniser_context -> option Z;
  sf_set : Z -> tokeniser_context -> tokeniser_context
}.

Definition get_len (f : string_field) : M Z :=
  let! c := gets tk_context in of_option (sf_get f c).

Definition START_BUF (f : string_field) (ptr : bytes) (len : Z) : M unit :=
  do! append_or_return ptr len in
  upd_context (sf_set f len).

Definition COLLECT_MS (f : string_field) (ptr : bytes) (len : Z) : M unit :=
  do! append_or_return ptr len in
  let! n := get_len f in
  upd_context (sf_set f (u64 (n + len))).

Definition COLLECT (f : string_field) (ptr : bytes) (len : Z) : M unit :=
  let! n := get_len f in
  do! assert (negb (n =? 0)) in
  COLLECT_MS f ptr len.

Definition tag_name_field : string_field := {|
  sf_get c := Some (ct_name (cx_current_tag c));
  sf_set n c := set_cx_current_tag (set_ct_name n (cx_current_tag c)) c
|}.

(** The last entry of the attribute array, attributes[n_attributes - 1]. *)
Definition upd_last_attribute (f : current_attribute -> current_attribute)
    (l : list current_attribute) : list current_attribute :=
  match List.rev l with
  | [] => []
  | a :: r => List.rev (f a :: r)
  end.
Definition last_attribute (c : tokeniser_context) : option current_attribute :=
  head (List.rev (ct_attributes (cx_current_tag c))).

Definition attr_name_field : string_field := {|
  sf_get c := ca_name <$> last_attribute c;
  sf_set n c :=
    set_cx_current_tag (set_ct_attributes
      (upd_last_attribute (set_ca_name n) (ct_attributes (cx_current_tag c)))
      (cx_current_tag c)) c
|}.
Definition attr_value_field : string_field := {|
  sf_get c := ca_value <$> last_attribute c;
  sf_set n c :=
    set_cx_current_tag (set_ct_attributes
      (upd_last_attribute (set_ca_value n) (ct_attributes (cx_current_tag c)))
      (cx_current_tag c)) c
|}.
Definition doctype_name_field : string_field := {|
  sf_get c := Some (cd_name (cx_current_doctype c));
  sf_set n c := set_cx_current_doctype (set_cd_name n (cx_current_doctype c)) c
|}.
Definition public_id_field : string_field := {|
  sf_get c := Some (cd_public_id (cx_current_doctype c));
  sf_set n c := set_cx_current_doctype (set_cd_public_id n (cx_current_doctype c)) c
|}.
Definition system_id_field : string_field := {|
  sf_get c := Some (cd_system_id (cx_current_doctype c));
  sf_set n c := set_cx_current_doctype (set_cd_system_id n (cx_current_doctype c)) c
|}.
End Primitives.

(** ** Emitting tokens *)

Section Emission.
Context {St B P : Type} `{!InputStreamOps St} `{!ByteBufferOps B}.
Local Abbreviation T := (hubbub_tokeniser St B P).
Local Abbreviation M := (comp (hubbub_tokeniser St B P)).

(** The sanity check of hubbub_tokeniser_emit_token: memchr finds no 0xff. *)
Definition no_ff (s : bytes) : bool := forallb (fun c => negb (c =? 0xFF)) s.

Definition token_sane (token : hubbub_token) : bool :=
  match token with
  | TokenDoctype d =>
      no_ff (doctype_name d) &&
      (doctype_public_missing d || no_ff (doctype_public_id d)) &&
      (doctype_system_missing d || no_ff (doctype_system_id d))
  | TokenStartTag t | TokenEndTag t =>
      no_ff (tag_name t) &&
      forallb (fun a => no_ff (attr_name a) && no_ff (attr_value a)) (tag_attributes t)
  | TokenComment s | TokenCharacter s => no_ff s
  | TokenEOF => true
  end.

(** A call the handler makes back into the tokeniser: setopt on the content
    model, on CDATA processing or to pause, and insert_chunk. *)
Definition run_command (cmd : tokeniser_command) : M unit :=
  match cmd with
  | CmdContentModel model => modify (set_tk_content_model model)
  | CmdProcessCdata process => modify (set_tk_process_cdata_section process)
  | CmdPause => modify (set_tk_paused true)
  | CmdInsert d => fun t =>
      match bb_append (tk_insert_buf t) d with
      | Some (_, b) => Ok tt (set_tk_insert_buf b t)
      | None => Stuck
      end
  end.

Fixpoint run_commands (cmds : list tokeniser_command) : M unit :=
  match cmds with
  | [] => ret tt
  | cmd :: cmds => do! run_command cmd in run_commands cmds
  end.

Definition call_handler (token : hubbub_token) : M hubbub_error := fun t =>
  match tk_token_handler t with
  | None => Ok HUBBUB_OK t
  | Some handler =>
      let '(err, cmds, pw) := handler (tk_token_pw t) token in
      bind (run_commands cmds) (fun _ => ret err) (set_tk_token_pw pw t)
  end.

(** Discard the whole of a buffer, if there is anything in it. *)
Definition discard_buffer : M unit := fun t =>
  let n := zlen (bb_bytes (tk_buffer t)) in
  if n =? 0 then Ok tt t else
  match bb_discard (tk_buffer t) 0 n with
  | Some (_, b) => Ok tt (set_tk_buffer b t)
  | None => Stuck
  end.

Definition advance_pending : M unit :=
  let! n := get_pending in
  if n =? 0 then ret tt else
  do! advance n in set_pending 0.

(** Move what was written during the call into the stream. *)
Definition flush_insert_buf : M unit := fun t =>
  let d := bb_bytes (tk_insert_buf t) in
  if zlen d =? 0 then Ok tt t else
  match is_insert (tk_input t) d, bb_discard (tk_insert_buf t) 0 (zlen d) with
  | Some (_, s), Some (_, b) => Ok tt (set_tk_insert_buf b (set_tk_input s t))
  | _, _ => Stuck
  end.

Definition hubbub_tokeniser_emit_token (token : hubbub_token) : M hubbub_error :=
  let! t := gets id in
  do! assert (zlen (bb_bytes (tk_insert_buf t)) =? 0) in
  do! assert (token_sane token) in
  let! err := call_handler token in
  do! discard_buffer in
  do! advance_pending in
  do! flush_insert_buf in
  do! (if bool_decide (err = HUBBUB_PAUSED) then modify (set_tk_paused true) else ret tt) in
  ret err.

Definition emit_character_token (chars : bytes) : M hubbub_error :=
  call (hubbub_tokeniser_emit_token (TokenCharacter chars)).

Definition emit_current_chars : M hubbub_error :=
  let! pending := get_pending in
  do! assert (0 <? pending) in
  let! r := peek 0 in
  match r with
  | PeekErr error => ret (hubbub_error_from_parserutils_error error)
  | PeekOk cptr _ =>
      let! chars := read_bytes cptr pending in
      call (hubbub_tokeniser_emit_token (TokenCharacter chars))
  end.

(** The text of the attributes, laid out one after the other in the buffer
    from [ptr] on. *)
Fixpoint place_attributes (data : bytes) (ptr : Z) (attrs : list current_attribute)
  : option (list hubbub_attribute) :=
  match attrs with
  | [] => Some []
  | a :: attrs =>
      name ← mem_read ptr (ca_name a) data;
      value ← mem_read (ptr + ca_name a) (ca_value a) data;
      rest ← place_attributes data (ptr + ca_name a + ca_value a) attrs;
      Some ({| attr_ns := HUBBUB_NS_NULL; attr_name := name; attr_value := value |} :: rest)
  end.

Definition same_name (a b : hubbub_attribute) : bool :=
  (zlen (attr_name a) =? zlen (attr_name b)) &&
  strncmp_eq (List.length (attr_name a)) (attr_name a) (attr_name b).

(** The inner loop discarding the duplicates of attribute [i]; deleting entry
    [j] and stepping [j] back and on again stays at [j]. *)
Fixpoint dedup_inner (fuel : nat) (i j : nat) (attrs : list hubbub_attribute)
  : option (list hubbub_attribute) :=
  match attrs !! j with
  | None => Some attrs
  | Some b =>
      match fuel with
      | O => None
      | S fuel =>
          a ← attrs !! i;
          if (i =? j)%nat || negb (same_name a b) then dedup_inner fuel i (j + 1) attrs
          else if (i <? j)%nat then dedup_inner fuel i j (delete j attrs)
          else None
      end
  end.

Fixpoint dedup_outer (fuel : nat) (i : nat) (attrs : list hubbub_attribute)
  : option (list hubbub_attribute) :=
  match attrs !! i with
  | None => Some attrs
  | Some _ =>
      match fuel with
      | O => None
      | S fuel =>
          attrs ← dedup_inner (List.length attrs) i 0 attrs;
          dedup_outer fuel (i + 1) attrs
      end
  end.

Definition dedup_attributes (attrs : list hubbub_attribute) : option (list hubbub_attribute) :=
  dedup_outer (List.length attrs) 0 attrs.

Definition SIZEOF_LAST_START_TAG_NAME : Z := 10.

(** Remember the name of a start tag that fits, for R?CDATA. *)
Definition save_start_tag (name : bytes) : M unit :=
  if zlen name <? SIZEOF_LAST_START_TAG_NAME then
    upd_context (fun c =>
      set_cx_last_start_tag_len (zlen name)
        (set_cx_last_start_tag_name
           (zwrite 0 (strncpy_bytes (List.length name) name) (cx_last_start_tag_name c)) c))
  else
    upd_context (fun c =>
      set_cx_last_start_tag_len 0
        (set_cx_last_start_tag_name (zwrite 0 [0] (cx_last_start_tag_name c)) c)).

Definition emit_current_tag : M hubbub_error :=
  let! t := gets id in
  let ctag := cx_current_tag (tk_context t) in
  let data := bb_bytes (tk_buffer t) in
  let! name := of_option (mem_read 0 (ct_name ctag) data) in
  let! attrs := of_option (place_attributes data (ct_name ctag) (ct_attributes ctag)) in
  let! attrs := of_option (dedup_attributes attrs) in
  let tag := {| tag_ns := HUBBUB_NS_HTML; tag_name := name; tag_attributes := attrs;
                tag_self_closing := ct_self_closing ctag |} in
  let! err :=
    match cx_current_tag_type (tk_context t) with
    | HUBBUB_TOKEN_START_TAG =>
        let! err := call (hubbub_tokeniser_emit_token (TokenStartTag tag)) in
        do! save_start_tag name in ret err
    | HUBBUB_TOKEN_END_TAG =>
        let! err := call (hubbub_tokeniser_emit_token (TokenEndTag tag)) in
        do! modify (set_tk_content_model HUBBUB_CONTENT_MODEL_PCDATA) in ret err
    | _ => stuck
    end in
  do! upd_tag (set_ct_self_closing false) in
  ret err.

Definition emit_current_comment : M hubbub_error :=
  let! t := gets id in
  call (hubbub_tokeniser_emit_token (TokenComment (bb_bytes (tk_buffer t)))).

Definition emit_current_doctype (force_quirks : bool) : M hubbub_error :=
  let! t := gets id in
  let d := cx_current_doctype (tk_context t) in
  let data := bb_bytes (tk_buffer t) in
  let! name := of_option (mem_read 0 (cd_name d) data) in
  let! public_id := of_option
    (if cd_public_missing d then Some []
     else mem_read (cd_name d) (cd_public_id d) data) in
  let! system_id := of_option
    (if cd_system_missing d then Some []
     else mem_read (cd_name d + cd_public_id d) (cd_system_id d) data) in
  call (hubbub_tokeniser_emit_token (TokenDoctype
    {| doctype_name := name;
       doctype_public_missing := cd_public_missing d;
       doctype_public_id := public_id;
       doctype_system_missing := cd_system_missing d;
       doctype_system_id := system_id;
       doctype_force_quirks := force_quirks || cd_force_quirks d |})).
End Emission.
