(* ===== verification/TokeniserEntities.v ===== *)
(** * TokeniserEntities: character references
    (hubbub_tokeniser_consume_character_reference, _handle_numbered_entity and
    _handle_named_entity of libhubbub/src/tokeniser/tokeniser.c). *)
From S2P Require Import Prelude Errors Utf8 Interfaces Entities Tokens TokeniserState.
From S2P Require Import TokeniserMonad.

(** Table of mappings between Windows-1252 codepoints 128-159 and UCS4. *)
Definition cp1252Table : list Z := [
  0x20AC; 0xFFFD; 0x201A; 0x0192; 0x201E; 0x2026; 0x2020; 0x2021;
  0x02C6; 0x2030; 0x0160; 0x2039; 0x0152; 0xFFFD; 0x017D; 0xFFFD;
  0xFFFD; 0x2018; 0x2019; 0x201C; 0x201D; 0x2022; 0x2013; 0x2014;
  0x02DC; 0x2122; 0x0161; 0x203A; 0x0153; 0xFFFD; 0x017E; 0x0178].

(** One digit of a numeric reference: the codepoint with the digit appended, in
    32 bits, if [c] is a digit of the base. *)
Definition entity_digit (base codepoint c : Z) : option Z :=
  if (base =? 10) && ((48 <=? c) && (c <=? 57)) then
    Some (u32 (codepoint * 10 + (c - 48)))
  else if (base =? 16) &&
          (((48 <=? c) && (c <=? 57)) || ((65 <=? fold_case c) && (fold_case c <=? 70))) then
    let codepoint := u32 (codepoint * 16) in
    if (48 <=? c) && (c <=? 57) then Some (u32 (codepoint + (c - 48)))
    else Some (u32 (codepoint + (fold_case c - 65 + 10)))
  else None.

(** The code point a complete numeric reference stands for. *)
Definition entity_codepoint (overflow : bool) (cp : Z) : Z :=
  if (0x80 <=? cp) && (cp <=? 0x9F) then default 0 (znth cp1252Table (cp - 0x80))
  else if cp =? 0x0D then 0x000A
  else if overflow || (cp <=? 0x0008) || (cp =? 0x000B) ||
          ((0x000E <=? cp) && (cp <=? 0x001F)) ||
          ((0x007F <=? cp) && (cp <=? 0x009F)) ||
          ((0xD800 <=? cp) && (cp <=? 0xDFFF)) ||
          ((0xFDD0 <=? cp) && (cp <=? 0xFDEF)) ||
          (Z.land cp 0xFFFE =? 0xFFFE) then 0xFFFD
  else cp.

Section Entities.
Context {St B P : Type} `{!InputStreamOps St} `{!ByteBufferOps B}.
Context (dict : list hubbub_entity_node) (dict_root : Z).
Local Abbreviation M := (comp (hubbub_tokeniser St B P)).

Definition hubbub_tokeniser_consume_character_reference (pos : Z) : M hubbub_error :=
  let! t := gets id in
  let allowed_char := cx_allowed_char (tk_context t) in
  let! r := peek pos in
  match r with
  | PeekErr _ => stuck
  | PeekOk cptr len =>
  let! amp := deref cptr in
  do! assert ((len =? 1) && (amp =? 38)) in
  let off := u64 (pos + len) in
  let! r := peek off in
  match r with
  | PeekErr PARSERUTILS_EOF =>
      do! upd_me (fun m => set_me_codepoint 0 (set_me_complete true m)) in
      ret HUBBUB_OK
  | PeekErr error => ret (hubbub_error_from_parserutils_error error)
  | PeekOk cptr len =>
      let! c := deref cptr in
      let! state := get_state in
      do! upd_me (fun _ =>
        {| me_offset := off; me_length := 0; me_codepoint := 0; me_complete := false;
           me_poss_length := 0; me_base := 0; me_context := -1; me_prev_len := len;
           me_had_data := false; me_overflow := false; me_return_state := state |}) in
      do! upd_context (set_cx_allowed_char 0) in
      if (c =? 9) || (c =? 10) || (c =? 12) || (c =? 32) || (c =? 60) || (c =? 38) ||
         (negb (allowed_char =? 0) && (c =? allowed_char)) then
        do! upd_me (fun m => set_me_codepoint 0 (set_me_complete true m)) in
        ret HUBBUB_OK
      else if c =? 35 then
        do! upd_me (fun m => set_me_length (u32 (me_length m + len)) m) in
        do! set_state STATE_NUMBERED_ENTITY in
        ret HUBBUB_OK
      else
        do! set_state STATE_NAMED_ENTITY in
        ret HUBBUB_OK
  end
  end.

(** The offset of the next character of a reference. *)
Definition peek_entity (length : entity_match -> Z) : M peek_result :=
  let! m := get_me in peek (u64 (me_offset m + length m)).

(** The [while] over the digits; it yields the peek that ended it. *)
Fixpoint number_loop (fuel : nat) : M peek_result :=
  match fuel with
  | O => stuck
  | S fuel =>
      let! r := peek_entity me_length in
      match r with
      | PeekErr error => ret (PeekErr error)
      | PeekOk cptr len =>
          let! c := deref cptr in
          let! m := get_me in
          match entity_digit (me_base m) (me_codepoint m) c with
          | None => ret (PeekOk cptr len)
          | Some codepoint =>
              do! upd_me (fun m =>
                set_me_overflow (me_overflow m || (0x10FFFF <=? codepoint))
                  (set_me_length (u32 (me_length m + len))
                    (set_me_codepoint codepoint (set_me_had_data true m)))) in
              number_loop fuel
          end
      end
  end.

(** The error of a peek that is neither a character nor the end of input. *)
Definition return_unless_eof (error : parserutils_error) : M unit :=
  match error with
  | PARSERUTILS_EOF => ret tt
  | _ => return_early (hubbub_error_from_parserutils_error error)
  end.

(** [fuel] bounds the iterations of the loops over the characters of a
    reference. *)
Definition hubbub_tokeniser_handle_numbered_entity (fuel : nat) : M hubbub_error :=
  let! r := peek_entity me_length in
  let! m := get_me in
  do! match r with
      | PeekErr error => return_unless_eof error
      | PeekOk cptr len =>
          if me_base m =? 0 then
            let! c := deref cptr in
            if fold_case c =? 88 then
              upd_me (fun m => set_me_length (u32 (me_length m + len)) (set_me_base 16 m))
            else upd_me (set_me_base 10)
          else ret tt
      end in
  let! r := number_loop fuel in
  do! match r with
      | PeekErr error => return_unless_eof error
      | PeekOk cptr len =>
          let! c := deref cptr in
          if c =? 59 then upd_me (fun m => set_me_length (u32 (me_length m + len)) m)
          else ret tt
      end in
  do! upd_me (fun m =>
    if me_had_data m
    then set_me_codepoint (entity_codepoint (me_overflow m) (me_codepoint m)) m
    else m) in
  do! upd_me (set_me_complete true) in
  let! m := get_me in
  do! set_state (me_return_state m) in
  ret HUBBUB_OK.

(** The [while] over the characters of a name; it yields the peek that ended
    it, which is a character when the loop was left by a break. *)
Fixpoint name_loop (fuel : nat) : M peek_result :=
  match fuel with
  | O => stuck
  | S fuel =>
      let! r := peek_entity me_poss_length in
      match r with
      | PeekErr error => ret (PeekErr error)
      | PeekOk cptr len =>
          let! c := deref cptr in
          if 0x7F <? c then ret (PeekOk cptr len) else
          let! m := get_me in
          let! step := of_option (hubbub_entities_search_step dict dict_root c (me_context m)) in
          let '(error, cp, context) := step in
          do! upd_me (set_me_context context) in
          match error with
          | HUBBUB_OK =>
              do! upd_me (fun m =>
                let length := u32 (me_poss_length m + len) in
                set_me_poss_length length (set_me_length length (set_me_codepoint cp m))) in
              name_loop fuel
          | HUBBUB_INVALID => ret (PeekOk cptr len)
          | _ =>
              do! upd_me (fun m => set_me_poss_length (u32 (me_poss_length m + len)) m) in
              name_loop fuel
          end
      end
  end.

Definition is_alnum (c : Z) : bool :=
  ((0x30 <=? c) && (c <=? 0x39)) || ((0x41 <=? c) && (c <=? 0x5A)) ||
  ((0x61 <=? c) && (c <=? 0x7A)).

(** Inside an attribute value, a name that does not end in ';' and is followed by
    a letter or a digit is not a reference. *)
Definition check_in_attribute (m : entity_match) : M unit :=
  if 0 <? me_length m then
    let! r := peek (u64 (me_offset m + me_length m - 1)) in
    match r with
    | PeekErr _ => stuck
    | PeekOk cptr len =>
        let! c := deref cptr in
        if bool_decide (me_return_state m = STATE_CHARACTER_REFERENCE_IN_ATTRIBUTE_VALUE) &&
           negb (c =? 59) then
          let! r := peek (u64 (me_offset m + me_length m)) in
          let! c :=
            match r with
            | PeekOk cptr _ => deref cptr
            | PeekErr PARSERUTILS_EOF => do! upd_me (set_me_codepoint 0) in ret c
            | PeekErr _ => stuck
            end in
          if is_alnum c then upd_me (set_me_codepoint 0) else ret tt
        else ret tt
    end
  else ret tt.

Definition hubbub_tokeniser_handle_named_entity (fuel : nat) : M hubbub_error :=
  let! r := name_loop fuel in
  do! match r with PeekErr error => return_unless_eof error | PeekOk _ _ => ret tt end in
  let! m := get_me in
  do! check_in_attribute m in
  do! upd_me (set_me_complete true) in
  let! m := get_me in
  do! set_state (me_return_state m) in
  ret HUBBUB_OK.
End Entities.
