(* ===== verification/TokeniserTags.v ===== *)
(** * TokeniserTags: the data, tag and attribute states
    (libhubbub/src/tokeniser/tokeniser.c, hubbub_tokeniser_handle_data to
    hubbub_tokeniser_handle_self_closing_start_tag). *)
From S2P Require Import Prelude Errors Utf8 Interfaces Entities Tokens TokeniserState.
From S2P Require Import TokeniserMonad TokeniserEntities.

Section Handlers.
Context {St B P : Type} `{!InputStreamOps St} `{!ByteBufferOps B}.
Context (realloc_ok : Z -> bool).
Local Abbreviation M := (comp (hubbub_tokeniser St B P)).

(** What almost every handler starts with: peek at the pending offset, answer
    the end of input with [eof] and any other error with its translation, and
    go on with the character. *)
Definition peek_char (eof : M hubbub_error) (k : bytes -> Z -> Z -> M hubbub_error)
  : M hubbub_error :=
  let! r := peek_pending in
  match r with
  | PeekErr PARSERUTILS_EOF => eof
  | PeekErr error => ret (hubbub_error_from_parserutils_error error)
  | PeekOk cptr len => let! c := deref cptr in k cptr len c
  end.

(** [state = s; return emit_current_tag(tokeniser);] *)
Definition emit_tag_in_data : M hubbub_error :=
  do! set_state STATE_DATA in call emit_current_tag.

Definition goto (s : hubbub_tokeniser_state) : M hubbub_error :=
  do! set_state s in ret HUBBUB_OK.
Definition consume (len : Z) : M hubbub_error :=
  do! add_pending len in ret HUBBUB_OK.
Definition consume_goto (len : Z) (s : hubbub_tokeniser_state) : M hubbub_error :=
  do! add_pending len in goto s.

(** ** The data state *)

Definition model_is (t : hubbub_tokeniser St B P) (m : hubbub_content_model) : bool :=
  bool_decide (tk_content_model t = m).
Definition in_rcdata_or_cdata (t : hubbub_tokeniser St B P) : bool :=
  model_is t HUBBUB_CONTENT_MODEL_RCDATA || model_is t HUBBUB_CONTENT_MODEL_CDATA.

Definition emit_pending_if_any : M unit :=
  let! pending := get_pending in
  if 0 <? pending then let! _ := call emit_current_chars in ret tt else ret tt.

(** One turn of the [while] of handle_data: [None] when the loop goes on,
    otherwise the error it is left with. *)
Definition data_turn : M (option parserutils_error) :=
  let! r := peek_pending in
  match r with
  | PeekErr error => ret (Some error)
  | PeekOk cptr len =>
  let! c := deref cptr in
  let! t := gets id in
  let pending := cx_pending (tk_context t) in
  if (c =? 38) &&
     (model_is t HUBBUB_CONTENT_MODEL_PCDATA || model_is t HUBBUB_CONTENT_MODEL_RCDATA) &&
     negb (tk_escape_flag t) then
    do! set_state STATE_CHARACTER_REFERENCE_DATA in
    ret (Some PARSERUTILS_OK)
  else if (c =? 45) && negb (tk_escape_flag t) && in_rcdata_or_cdata t &&
          (3 <=? pending) then
    let! r := peek (u64 (pending - 3)) in
    match r with
    | PeekErr _ => stuck
    | PeekOk cptr _ =>
        do! (if strncmp_eq 4 cptr [60; 33; 45; 45]
             then modify (set_tk_escape_flag true) else ret tt) in
        do! add_pending len in
        ret None
    end
  else if (c =? 60) &&
          (model_is t HUBBUB_CONTENT_MODEL_PCDATA ||
           (in_rcdata_or_cdata t && negb (tk_escape_flag t))) then
    do! emit_pending_if_any in
    do! set_pending len in
    do! set_state STATE_TAG_OPEN in
    ret (Some PARSERUTILS_OK)
  else if (c =? 62) && tk_escape_flag t && in_rcdata_or_cdata t then
    (* this peek also overwrites len *)
    let! r := peek (u64 (pending - 2)) in
    match r with
    | PeekErr _ => stuck
    | PeekOk cptr len =>
        do! (if strncmp_eq 3 cptr [45; 45; 62]
             then modify (set_tk_escape_flag false) else ret tt) in
        do! add_pending len in
        ret None
    end
  else if c =? 0 then
    do! emit_pending_if_any in
    do! emit_character_token u_fffd in
    do! advance 1 in
    ret None
  else if c =? 13 then
    let! r := peek (u64 (pending + len)) in
    match r with
    | PeekErr PARSERUTILS_EOF =>
        do! emit_pending_if_any in
        do! emit_character_token lf in
        do! advance 1 in
        ret None
    | PeekErr error => ret (Some error)
    | PeekOk cptr _ =>
        let! next := deref cptr in
        do! emit_pending_if_any in
        do! (if negb (next =? 10) then let! _ := emit_character_token lf in ret tt
             else ret tt) in
        do! advance 1 in
        ret None
    end
  else
    do! add_pending len in
    ret None
  end.

Fixpoint data_loop (fuel : nat) : M parserutils_error :=
  match fuel with
  | O => stuck
  | S fuel =>
      let! r := data_turn in
      match r with
      | Some error => ret error
      | None => data_loop fuel
      end
  end.

Definition hubbub_tokeniser_handle_data (fuel : nat) : M hubbub_error :=
  let! error := data_loop fuel in
  let! t := gets id in
  do! (if negb (bool_decide (tk_state t = STATE_TAG_OPEN)) &&
          (negb (bool_decide (tk_state t = STATE_DATA)) ||
           bool_decide (error = PARSERUTILS_EOF)) &&
          (0 <? cx_pending (tk_context t)) then
         let! _ := call emit_current_chars in ret tt
       else ret tt) in
  if bool_decide (error = PARSERUTILS_EOF) then
    let! _ := call (hubbub_tokeniser_emit_token TokenEOF) in
    ret HUBBUB_NEEDDATA
  else ret (hubbub_error_from_parserutils_error error).

Definition hubbub_tokeniser_handle_character_reference_data : M hubbub_error :=
  let! t := gets id in
  let pending := cx_pending (tk_context t) in
  let m := cx_match_entity (tk_context t) in
  do! assert (pending =? 0) in
  if negb (me_complete m) then
    call (hubbub_tokeniser_consume_character_reference pending)
  else
    do! (if negb (me_codepoint m =? 0) then
           (* the code point does not exceed 0x10FFFF, so six bytes are enough *)
           let '(_, utf8) := utf8_from_ucs4 (me_codepoint m) 6 in
           let! _ := call (hubbub_tokeniser_emit_token (TokenCharacter utf8)) in
           let! m := get_me in
           advance (u32 (me_length m + 1))
         else
           let! r := peek pending in
           match r with
           | PeekErr error => return_early (hubbub_error_from_parserutils_error error)
           | PeekOk cptr len =>
               let! chars := read_bytes cptr len in
               let! _ := call (hubbub_tokeniser_emit_token (TokenCharacter chars)) in
               advance len
           end) in
    do! upd_me (set_me_complete false) in
    goto STATE_DATA.

(** ** Tags *)

(** Start collecting a tag name. *)
Definition start_tag_name (type : hubbub_token_type) (ptr : bytes) (len : Z) : M unit :=
  do! START_BUF tag_name_field ptr len in
  do! upd_tag (set_ct_attributes []) in
  upd_context (set_cx_current_tag_type type).

Definition hubbub_tokeniser_handle_tag_open : M hubbub_error :=
  let! t := gets id in
  do! assert (cx_pending (tk_context t) =? 1) in
  peek_char (goto STATE_DATA) (fun cptr len c =>
    let! t := gets id in
    if c =? 47 then
      do! add_pending len in
      do! upd_context (fun cx => set_cx_close_tag_count 0 (set_cx_close_tag_match false cx)) in
      goto STATE_CLOSE_TAG_OPEN
    else if in_rcdata_or_cdata t then goto STATE_DATA
    else if model_is t HUBBUB_CONTENT_MODEL_PCDATA then
      if c =? 33 then
        do! advance 2 in
        do! set_pending 0 in
        goto STATE_MARKUP_DECLARATION_OPEN
      else if is_upper c then
        do! start_tag_name HUBBUB_TOKEN_START_TAG [u8 (c + 0x20)] len in
        consume_goto len STATE_TAG_NAME
      else if is_lower c then
        do! start_tag_name HUBBUB_TOKEN_START_TAG cptr len in
        consume_goto len STATE_TAG_NAME
      else if c =? 62 then consume_goto len STATE_DATA
      else if c =? 63 then
        do! advance 1 in
        do! set_pending 0 in
        goto STATE_BOGUS_COMMENT
      else goto STATE_DATA
    else ret HUBBUB_OK).

(** The [while] matching the name of the last start tag; it yields the error
    of the last peek. *)
Fixpoint close_tag_loop (fuel : nat) : M parserutils_error :=
  match fuel with
  | O => stuck
  | S fuel =>
      let! t := gets id in
      let ctx := tk_context t in
      let! r := peek (u64 (cx_pending ctx + cx_close_tag_count ctx)) in
      match r with
      | PeekErr error => ret error
      | PeekOk cptr len =>
          let! c := deref cptr in
          let! s := of_option (znth (cx_last_start_tag_name ctx) (cx_close_tag_count ctx)) in
          if negb (fold_case s =? fold_case c) then ret PARSERUTILS_OK else
          let count := u32 (cx_close_tag_count ctx + len) in
          do! upd_context (set_cx_close_tag_count count) in
          if count =? cx_last_start_tag_len ctx then
            do! upd_context (set_cx_close_tag_match true) in
            ret PARSERUTILS_OK
          else close_tag_loop fuel
      end
  end.

Definition match_close_tag (fuel : nat) : M unit :=
  let! error := close_tag_loop fuel in
  do! match error with
      | PARSERUTILS_OK => ret tt
      | _ => return_unless_eof error
      end in
  let! t := gets id in
  let ctx := tk_context t in
  if cx_close_tag_match ctx then
    let! r := peek (u64 (cx_pending ctx + cx_close_tag_count ctx)) in
    match r with
    | PeekErr error => return_unless_eof error
    | PeekOk cptr _ =>
        let! c := deref cptr in
        if negb (c =? 9) && negb (c =? 10) && negb (c =? 12) && negb (c =? 32) &&
           negb (c =? 62) && negb (c =? 47)
        then upd_context (set_cx_close_tag_match false) else ret tt
    end
  else ret tt.

Definition hubbub_tokeniser_handle_close_tag_open (fuel : nat) : M hubbub_error :=
  let! t := gets id in
  do! assert (cx_pending (tk_context t) =? 2) in
  do! (if in_rcdata_or_cdata t then match_close_tag fuel else ret tt) in
  let! t := gets id in
  if negb (cx_close_tag_match (tk_context t)) &&
     negb (model_is t HUBBUB_CONTENT_MODEL_PCDATA)
  then goto STATE_DATA
  else
    peek_char (goto STATE_DATA) (fun cptr len c =>
      if is_upper c then
        do! start_tag_name HUBBUB_TOKEN_END_TAG [u8 (c + 0x20)] len in
        consume_goto len STATE_TAG_NAME
      else if is_lower c then
        do! start_tag_name HUBBUB_TOKEN_END_TAG cptr len in
        consume_goto len STATE_TAG_NAME
      else if c =? 62 then
        do! add_pending len in
        let! pending := get_pending in
        do! advance pending in
        do! set_pending 0 in
        goto STATE_DATA
      else
        let! pending := get_pending in
        do! advance pending in
        do! set_pending 0 in
        goto STATE_BOGUS_COMMENT).

Definition hubbub_tokeniser_handle_tag_name : M hubbub_error :=
  let! t := gets id in
  do! assert (0 <? cx_pending (tk_context t)) in
  do! assert (0 <? ct_name (cx_current_tag (tk_context t))) in
  peek_char emit_tag_in_data (fun cptr len c =>
    if is_space c then consume_goto len STATE_BEFORE_ATTRIBUTE_NAME
    else if c =? 62 then do! add_pending len in emit_tag_in_data
    else if c =? 0 then do! COLLECT tag_name_field u_fffd 3 in consume len
    else if c =? 47 then consume_goto len STATE_SELF_CLOSING_START_TAG
    else if is_upper c then
      do! COLLECT tag_name_field [u8 (c + 0x20)] len in consume len
    else do! COLLECT tag_name_field cptr len in consume len).

(** ** Attributes *)

(** Extend the attribute array by one entry and start its name. *)
Definition start_attribute (cptr : bytes) (len c : Z) : M hubbub_error :=
  let! t := gets id in
  let attrs := ct_attributes (cx_current_tag (tk_context t)) in
  if negb (realloc_ok (u64 (u32 (zlen attrs + 1) * SIZEOF_ATTRIBUTE)))
  then ret HUBBUB_NOMEM else
  let '(ptr, n) :=
    if is_upper c then ([u8 (c + 0x20)], len)
    else if c =? 0 then (u_fffd, 3)
    else (cptr, len) in
  do! append_or_return ptr n in
  do! upd_tag (fun ctag =>
    set_ct_attributes (ct_attributes ctag ++ [{| ca_name := n; ca_value := 0 |}]) ctag) in
  consume_goto len STATE_ATTRIBUTE_NAME.

Definition hubbub_tokeniser_handle_before_attribute_name : M hubbub_error :=
  peek_char emit_tag_in_data (fun cptr len c =>
    if is_space c then consume len
    else if c =? 62 then do! add_pending len in emit_tag_in_data
    else if c =? 47 then consume_goto len STATE_SELF_CLOSING_START_TAG
    else start_attribute cptr len c).

Definition hubbub_tokeniser_handle_attribute_name : M hubbub_error :=
  let! n := get_len attr_name_field in
  do! assert (0 <? n) in
  peek_char emit_tag_in_data (fun cptr len c =>
    if is_space c then consume_goto len STATE_AFTER_ATTRIBUTE_NAME
    else if c =? 61 then consume_goto len STATE_BEFORE_ATTRIBUTE_VALUE
    else if c =? 62 then do! add_pending len in emit_tag_in_data
    else if c =? 47 then consume_goto len STATE_SELF_CLOSING_START_TAG
    else if c =? 0 then do! COLLECT attr_name_field u_fffd 3 in consume len
    else if is_upper c then
      do! COLLECT attr_name_field [u8 (c + 0x20)] len in consume len
    else do! COLLECT attr_name_field cptr len in consume len).

Definition hubbub_tokeniser_handle_after_attribute_name : M hubbub_error :=
  peek_char emit_tag_in_data (fun cptr len c =>
    if is_space c then consume len
    else if c =? 61 then consume_goto len STATE_BEFORE_ATTRIBUTE_VALUE
    else if c =? 62 then do! add_pending len in emit_tag_in_data
    else if c =? 47 then consume_goto len STATE_SELF_CLOSING_START_TAG
    else start_attribute cptr len c).

Definition hubbub_tokeniser_handle_before_attribute_value : M hubbub_error :=
  peek_char emit_tag_in_data (fun cptr len c =>
    if is_space c then consume len
    else if c =? 34 then consume_goto len STATE_ATTRIBUTE_VALUE_DQ
    else if c =? 38 then goto STATE_ATTRIBUTE_VALUE_UQ
    else if c =? 39 then consume_goto len STATE_ATTRIBUTE_VALUE_SQ
    else if c =? 62 then do! add_pending len in emit_tag_in_data
    else if c =? 0 then
      do! START_BUF attr_value_field u_fffd 3 in
      consume_goto len STATE_ATTRIBUTE_VALUE_UQ
    else
      do! START_BUF attr_value_field cptr len in
      consume_goto len STATE_ATTRIBUTE_VALUE_UQ).

(** The common part of the two quoted states: they differ in the quote. *)
Definition attribute_value_quoted (quote : Z) : M hubbub_error :=
  peek_char emit_tag_in_data (fun cptr len c =>
    if c =? quote then consume_goto len STATE_AFTER_ATTRIBUTE_VALUE_Q
    else if c =? 38 then
      let! state := get_state in
      do! upd_context (set_cx_prev_state state) in
      do! set_state STATE_CHARACTER_REFERENCE_IN_ATTRIBUTE_VALUE in
      do! upd_context (set_cx_allowed_char quote) in
      ret HUBBUB_OK
    else if c =? 0 then
      do! COLLECT_MS attr_value_field u_fffd 3 in consume len
    else if c =? 13 then
      let! pending := get_pending in
      let! r := peek (u64 (pending + len)) in
      match r with
      | PeekErr PARSERUTILS_EOF =>
          do! COLLECT_MS attr_value_field lf 1 in consume 1
      | PeekErr error => ret (hubbub_error_from_parserutils_error error)
      | PeekOk cptr _ =>
          let! next := deref cptr in
          do! (if negb (next =? 10) then COLLECT_MS attr_value_field lf 1 else ret tt) in
          consume 1
      end
    else do! COLLECT_MS attr_value_field cptr len in consume len).

Definition hubbub_tokeniser_handle_attribute_value_dq : M hubbub_error :=
  attribute_value_quoted 34.

Definition hubbub_tokeniser_handle_attribute_value_sq : M hubbub_error :=
  attribute_value_quoted 39.

Definition hubbub_tokeniser_handle_attribute_value_uq : M hubbub_error :=
  peek_char emit_tag_in_data (fun cptr len c =>
    do! (if c =? 38 then ret tt
         else let! n := get_len attr_value_field in assert (1 <=? n)) in
    if is_space c then consume_goto len STATE_BEFORE_ATTRIBUTE_NAME
    else if c =? 38 then
      let! state := get_state in
      do! upd_context (set_cx_prev_state state) in
      goto STATE_CHARACTER_REFERENCE_IN_ATTRIBUTE_VALUE
    else if c =? 62 then do! add_pending len in emit_tag_in_data
    else if c =? 0 then do! COLLECT attr_value_field u_fffd 3 in consume len
    else do! COLLECT attr_value_field cptr len in consume len).

Definition hubbub_tokeniser_handle_character_reference_in_attribute_value : M hubbub_error :=
  let! t := gets id in
  let pending := cx_pending (tk_context t) in
  let m := cx_match_entity (tk_context t) in
  if negb (me_complete m) then
    call (hubbub_tokeniser_consume_character_reference pending)
  else
    do! (if negb (me_codepoint m =? 0) then
           let '(_, utf8) := utf8_from_ucs4 (me_codepoint m) 6 in
           do! COLLECT_MS attr_value_field utf8 (zlen utf8) in
           add_pending (u32 (me_length m + 1))
         else
           let! r := peek pending in
           match r with
           | PeekErr error => return_early (hubbub_error_from_parserutils_error error)
           | PeekOk cptr len =>
               do! COLLECT_MS attr_value_field cptr len in
               add_pending len
           end) in
    do! upd_me (set_me_complete false) in
    let! t := gets id in
    goto (cx_prev_state (tk_context t)).

Definition hubbub_tokeniser_handle_after_attribute_value_q : M hubbub_error :=
  peek_char emit_tag_in_data (fun cptr len c =>
    if is_space c then consume_goto len STATE_BEFORE_ATTRIBUTE_NAME
    else if c =? 62 then do! add_pending len in emit_tag_in_data
    else if c =? 47 then consume_goto len STATE_SELF_CLOSING_START_TAG
    else goto STATE_BEFORE_ATTRIBUTE_NAME).

Definition hubbub_tokeniser_handle_self_closing_start_tag : M hubbub_error :=
  peek_char emit_tag_in_data (fun cptr len c =>
    if c =? 62 then
      do! add_pending len in
      do! set_state STATE_DATA in
      do! upd_tag (set_ct_self_closing true) in
      call emit_current_tag
    else goto STATE_BEFORE_ATTRIBUTE_NAME).
End Handlers.
