(* ===== verification/TokeniserMarkup.v ===== *)
(** * TokeniserMarkup: comments, doctypes and CDATA blocks
    (libhubbub/src/tokeniser/tokeniser.c, hubbub_tokeniser_handle_bogus_comment
    to hubbub_tokeniser_handle_cdata_block). *)
From S2P Require Import Prelude Errors Utf8 Interfaces Entities Tokens TokeniserState.
From S2P Require Import TokeniserMonad TokeniserEntities TokeniserTags.

(** The strings the match states compare with. *)
Definition DOCTYPE : bytes := [68; 79; 67; 84; 89; 80; 69].
Definition PUBLIC : bytes := [80; 85; 66; 76; 73; 67].
Definition SYSTEM : bytes := [83; 89; 83; 84; 69; 77].
Definition CDATA : bytes := [91; 67; 68; 65; 84; 65; 91].

Section Handlers.
Context {St B P : Type} `{!InputStreamOps St} `{!ByteBufferOps B}.
Local Abbreviation M := (comp (hubbub_tokeniser St B P)).

(** parserutils_buffer_append of a literal, returning its error. *)
Definition append_literal (d : bytes) : M unit := append_or_return d (zlen d).

Definition reset_comment_goto (s : hubbub_tokeniser_state) : M hubbub_error :=
  do! upd_context (fun c => set_cx_pending 0 (set_cx_current_comment 0 c)) in
  goto s.

(** ** Comments *)

Definition hubbub_tokeniser_handle_bogus_comment : M hubbub_error :=
  peek_char (do! set_state STATE_DATA in call emit_current_comment) (fun cptr len c =>
    if c =? 62 then
      do! add_pending len in
      do! set_state STATE_DATA in
      call emit_current_comment
    else if c =? 0 then do! append_literal u_fffd in consume len
    else if c =? 13 then
      (* the code peeks at the carriage return itself once more *)
      let! r := peek_pending in
      match r with
      | PeekErr PARSERUTILS_EOF => do! append_literal lf in consume len
      | PeekErr error => ret (hubbub_error_from_parserutils_error error)
      | PeekOk cptr len =>
          let! next := deref cptr in
          do! (if negb (next =? 10) then append_literal lf else ret tt) in
          consume len
      end
    else do! append_or_return cptr len in consume len).

Definition hubbub_tokeniser_handle_markup_declaration_open : M hubbub_error :=
  let! t := gets id in
  do! assert (cx_pending (tk_context t) =? 0) in
  let! r := peek 0 in
  match r with
  | PeekErr PARSERUTILS_EOF => goto STATE_BOGUS_COMMENT
  | PeekErr error => ret (hubbub_error_from_parserutils_error error)
  | PeekOk cptr len =>
      let! c := deref cptr in
      if c =? 45 then
        do! set_pending len in goto STATE_MATCH_COMMENT
      else if fold_case c =? 68 then
        do! set_pending len in
        do! upd_context (set_cx_match_doctype_count (u32 len)) in
        goto STATE_MATCH_DOCTYPE
      else if tk_process_cdata_section t && (c =? 91) then
        do! set_pending len in
        do! upd_context (set_cx_match_cdata_count (u32 len)) in
        goto STATE_MATCH_CDATA
      else goto STATE_BOGUS_COMMENT
  end.

Definition hubbub_tokeniser_handle_match_comment : M hubbub_error :=
  peek_char (reset_comment_goto STATE_BOGUS_COMMENT) (fun cptr len c =>
    do! upd_context (fun cx => set_cx_pending 0 (set_cx_current_comment 0 cx)) in
    if c =? 45 then do! advance 2 in goto STATE_COMMENT_START
    else goto STATE_BOGUS_COMMENT).

(** The state a '-' leads to, and whether it is text after all. *)
Definition comment_dash (s : hubbub_tokeniser_state) : M unit :=
  match s with
  | STATE_COMMENT_START => set_state STATE_COMMENT_START_DASH
  | STATE_COMMENT_START_DASH => set_state STATE_COMMENT_END
  | STATE_COMMENT => set_state STATE_COMMENT_END_DASH
  | STATE_COMMENT_END_DASH => set_state STATE_COMMENT_END
  | STATE_COMMENT_END => append_literal [45]
  | _ => ret tt
  end.

(** The dashes that turn out to be text. *)
Definition comment_pending_dashes (s : hubbub_tokeniser_state) : M unit :=
  match s with
  | STATE_COMMENT_START_DASH | STATE_COMMENT_END_DASH => append_literal [45]
  | STATE_COMMENT_END => append_literal [45; 45]
  | _ => ret tt
  end.

Definition comment_closes (s : hubbub_tokeniser_state) : bool :=
  match s with
  | STATE_COMMENT_START_DASH | STATE_COMMENT_START | STATE_COMMENT_END => true
  | _ => false
  end.

Definition hubbub_tokeniser_handle_comment : M hubbub_error :=
  peek_char (do! set_state STATE_DATA in call emit_current_comment) (fun cptr len c =>
    let! s := get_state in
    if (c =? 62) && comment_closes s then
      do! add_pending len in
      do! set_state STATE_DATA in
      call emit_current_comment
    else if c =? 45 then
      do! comment_dash s in consume len
    else
      do! comment_pending_dashes s in
      do! (if c =? 0 then append_literal u_fffd
           else if c =? 13 then
             let! pending := get_pending in
             let! r := peek (u64 (pending + len)) in
             match r with
             | PeekErr PARSERUTILS_EOF => ret tt
             | PeekErr error => return_early (hubbub_error_from_parserutils_error error)
             | PeekOk cptr _ =>
                 let! next := deref cptr in
                 if negb (next =? 10) then append_literal lf else ret tt
             end
           else append_or_return cptr len) in
      consume_goto len STATE_COMMENT).

(** ** Doctypes *)

(** Does [c], case folded, match entry [count] of [word]?  The assert on
    [count] precedes the read. *)
Definition match_word (word : bytes) (count c : Z) : M bool :=
  do! assert (count <=? zlen word - 1) in
  let! w := of_option (znth word count) in
  ret (w =? fold_case c).

Definition hubbub_tokeniser_handle_match_doctype : M hubbub_error :=
  let! t := gets id in
  let! r := peek (cx_match_doctype_count (tk_context t)) in
  match r with
  | PeekErr PARSERUTILS_EOF => reset_comment_goto STATE_BOGUS_COMMENT
  | PeekErr error => ret (hubbub_error_from_parserutils_error error)
  | PeekOk cptr len =>
      let! c := deref cptr in
      let count := cx_match_doctype_count (tk_context t) in
      let! ok := match_word DOCTYPE count c in
      if negb ok then reset_comment_goto STATE_BOGUS_COMMENT else
      do! add_pending len in
      do! (if count =? zlen DOCTYPE - 1 then
             let! pending := get_pending in
             do! advance pending in
             do! upd_doctype (fun _ =>
               {| cd_name := 0; cd_public_missing := true; cd_public_id := 0;
                  cd_system_missing := true; cd_system_id := 0;
                  cd_force_quirks := false |}) in
             do! set_pending 0 in
             set_state STATE_DOCTYPE
           else ret tt) in
      do! upd_context (fun c =>
        set_cx_match_doctype_count (u32 (cx_match_doctype_count c + 1)) c) in
      ret HUBBUB_OK
  end.

(** [state = STATE_DATA; return emit_current_doctype(tokeniser, force);] *)
Definition emit_doctype_in_data (force : bool) : M hubbub_error :=
  do! set_state STATE_DATA in call (emit_current_doctype force).

Definition bogus_doctype_quirks : M hubbub_error :=
  do! upd_doctype (set_cd_force_quirks true) in
  goto STATE_BOGUS_DOCTYPE.

Definition hubbub_tokeniser_handle_doctype : M hubbub_error :=
  peek_char (goto STATE_BEFORE_DOCTYPE_NAME) (fun cptr len c =>
    do! (if is_space c then add_pending len else ret tt) in
    goto STATE_BEFORE_DOCTYPE_NAME).

Definition hubbub_tokeniser_handle_before_doctype_name : M hubbub_error :=
  peek_char (emit_doctype_in_data true) (fun cptr len c =>
    if is_space c then consume len
    else if c =? 62 then do! add_pending len in emit_doctype_in_data true
    else
      do! (if c =? 0 then START_BUF doctype_name_field u_fffd 3
           else if is_upper c then START_BUF doctype_name_field [u8 (c + 0x20)] len
           else START_BUF doctype_name_field cptr len) in
      consume_goto len STATE_DOCTYPE_NAME).

Definition hubbub_tokeniser_handle_doctype_name : M hubbub_error :=
  peek_char (emit_doctype_in_data true) (fun cptr len c =>
    if is_space c then consume_goto len STATE_AFTER_DOCTYPE_NAME
    else if c =? 62 then do! add_pending len in emit_doctype_in_data false
    else if c =? 0 then do! COLLECT doctype_name_field u_fffd 3 in consume len
    else if is_upper c then
      do! COLLECT doctype_name_field [u8 (c + 0x20)] len in consume len
    else do! COLLECT doctype_name_field cptr len in consume len).

Definition hubbub_tokeniser_handle_after_doctype_name : M hubbub_error :=
  peek_char (emit_doctype_in_data true) (fun cptr len c =>
    do! add_pending len in
    if is_space c then ret HUBBUB_OK
    else if c =? 62 then emit_doctype_in_data false
    else if fold_case c =? 80 then
      do! upd_context (set_cx_match_doctype_count 1) in goto STATE_MATCH_PUBLIC
    else if fold_case c =? 83 then
      do! upd_context (set_cx_match_doctype_count 1) in goto STATE_MATCH_SYSTEM
    else
      do! set_state STATE_BOGUS_DOCTYPE in
      do! upd_doctype (set_cd_force_quirks true) in
      ret HUBBUB_OK).

(** handle_match_public and handle_match_system differ in the word and in the
    state its end leads to. *)
Definition match_identifier (word : bytes) (next : hubbub_tokeniser_state) : M hubbub_error :=
  peek_char bogus_doctype_quirks (fun cptr len c =>
    let! t := gets id in
    let count := cx_match_doctype_count (tk_context t) in
    let! ok := match_word word count c in
    if negb ok then bogus_doctype_quirks else
    do! add_pending len in
    do! (if count =? zlen word - 1 then set_state next else ret tt) in
    do! upd_context (fun c =>
      set_cx_match_doctype_count (u32 (cx_match_doctype_count c + 1)) c) in
    ret HUBBUB_OK).

Definition hubbub_tokeniser_handle_match_public : M hubbub_error :=
  match_identifier PUBLIC STATE_BEFORE_DOCTYPE_PUBLIC.

Definition hubbub_tokeniser_handle_match_system : M hubbub_error :=
  match_identifier SYSTEM STATE_BEFORE_DOCTYPE_SYSTEM.

(** Start of an identifier: present, and empty so far. *)
Definition start_public_id (s : hubbub_tokeniser_state) : M hubbub_error :=
  do! upd_doctype (fun d => set_cd_public_id 0 (set_cd_public_missing false d)) in goto s.
Definition start_system_id (s : hubbub_tokeniser_state) : M hubbub_error :=
  do! upd_doctype (fun d => set_cd_system_id 0 (set_cd_system_missing false d)) in goto s.

Definition hubbub_tokeniser_handle_before_doctype_public : M hubbub_error :=
  peek_char (emit_doctype_in_data true) (fun cptr len c =>
    do! add_pending len in
    if is_space c then ret HUBBUB_OK
    else if c =? 34 then start_public_id STATE_DOCTYPE_PUBLIC_DQ
    else if c =? 39 then start_public_id STATE_DOCTYPE_PUBLIC_SQ
    else if c =? 62 then emit_doctype_in_data true
    else bogus_doctype_quirks).

(** The four quoted identifier states: they differ in the quote, in the string
    collected and in the state that follows. *)
Definition doctype_id_quoted (quote : Z) (f : string_field)
    (next : hubbub_tokeniser_state) : M hubbub_error :=
  peek_char (emit_doctype_in_data true) (fun cptr len c =>
    if c =? quote then consume_goto len next
    else if c =? 62 then do! add_pending len in emit_doctype_in_data true
    else if c =? 0 then do! COLLECT_MS f u_fffd 3 in consume len
    else if c =? 13 then
      (* the code peeks at the carriage return itself once more *)
      let! r := peek_pending in
      match r with
      | PeekErr PARSERUTILS_EOF => do! COLLECT_MS f lf 1 in consume 1
      | PeekErr error => ret (hubbub_error_from_parserutils_error error)
      | PeekOk cptr _ =>
          let! next := deref cptr in
          do! (if negb (next =? 10) then COLLECT_MS f lf 1 else ret tt) in
          consume 1
      end
    else do! COLLECT_MS f cptr len in consume len).

Definition hubbub_tokeniser_handle_doctype_public_dq : M hubbub_error :=
  doctype_id_quoted 34 public_id_field STATE_AFTER_DOCTYPE_PUBLIC.
Definition hubbub_tokeniser_handle_doctype_public_sq : M hubbub_error :=
  doctype_id_quoted 39 public_id_field STATE_AFTER_DOCTYPE_PUBLIC.

Definition hubbub_tokeniser_handle_after_doctype_public : M hubbub_error :=
  peek_char (emit_doctype_in_data true) (fun cptr len c =>
    do! add_pending len in
    if is_space c then ret HUBBUB_OK
    else if c =? 34 then start_system_id STATE_DOCTYPE_SYSTEM_DQ
    else if c =? 39 then start_system_id STATE_DOCTYPE_SYSTEM_SQ
    else if c =? 62 then emit_doctype_in_data false
    else bogus_doctype_quirks).

Definition hubbub_tokeniser_handle_before_doctype_system : M hubbub_error :=
  peek_char (emit_doctype_in_data true) (fun cptr len c =>
    do! add_pending len in
    if is_space c then ret HUBBUB_OK
    else if c =? 34 then start_system_id STATE_DOCTYPE_SYSTEM_DQ
    else if c =? 39 then start_system_id STATE_DOCTYPE_SYSTEM_SQ
    else if c =? 62 then emit_doctype_in_data true
    else bogus_doctype_quirks).

Definition hubbub_tokeniser_handle_doctype_system_dq : M hubbub_error :=
  doctype_id_quoted 34 system_id_field STATE_AFTER_DOCTYPE_SYSTEM.
Definition hubbub_tokeniser_handle_doctype_system_sq : M hubbub_error :=
  doctype_id_quoted 39 system_id_field STATE_AFTER_DOCTYPE_SYSTEM.

Definition hubbub_tokeniser_handle_after_doctype_system : M hubbub_error :=
  peek_char (emit_doctype_in_data true) (fun cptr len c =>
    do! add_pending len in
    if is_space c then ret HUBBUB_OK
    else if c =? 62 then emit_doctype_in_data false
    else goto STATE_BOGUS_DOCTYPE).

Definition hubbub_tokeniser_handle_bogus_doctype : M hubbub_error :=
  peek_char (emit_doctype_in_data false) (fun cptr len c =>
    do! add_pending len in
    if c =? 62 then emit_doctype_in_data false else ret HUBBUB_OK).

(** ** CDATA blocks *)

Definition hubbub_tokeniser_handle_match_cdata : M hubbub_error :=
  peek_char (reset_comment_goto STATE_BOGUS_COMMENT) (fun cptr len c =>
    let! t := gets id in
    let count := cx_match_cdata_count (tk_context t) in
    let! ok := match_word CDATA count c in
    if negb ok then reset_comment_goto STATE_BOGUS_COMMENT else
    do! add_pending len in
    do! (if count =? zlen CDATA - 1 then
           do! advance (u64 (count + len)) in
           do! upd_context (fun c => set_cx_match_cdata_end 0 (set_cx_pending 0 c)) in
           set_state STATE_CDATA_BLOCK
         else ret tt) in
    do! upd_context (fun c =>
      set_cx_match_cdata_count (u32 (cx_match_cdata_count c + len)) c) in
    ret HUBBUB_OK).

Definition hubbub_tokeniser_handle_cdata_block : M hubbub_error :=
  (* at the end of input, emit_current_chars is called whatever is pending *)
  peek_char (do! set_state STATE_DATA in call emit_current_chars) (fun cptr len c =>
    let! t := gets id in
    let count := cx_match_cdata_end (tk_context t) in
    if (c =? 93) && ((count =? 0) || (count =? 1)) then
      do! add_pending len in
      do! upd_context (fun c => set_cx_match_cdata_end (u32 (cx_match_cdata_end c + len)) c) in
      ret HUBBUB_OK
    else if (c =? 62) && (count =? 2) then
      do! upd_context (fun c => set_cx_pending (u64 (cx_pending c - 2)) c) in
      let! _ := call emit_current_chars in
      do! advance 3 in
      goto STATE_DATA
    else if c =? 0 then
      do! emit_pending_if_any in
      do! emit_character_token u_fffd in
      do! advance len in
      do! upd_context (set_cx_match_cdata_end 0) in
      ret HUBBUB_OK
    else if c =? 13 then
      let! pending := get_pending in
      let! r := peek (u64 (pending + len)) in
      let! emit_lf :=
        match r with
        | PeekErr PARSERUTILS_EOF => ret true
        | PeekErr error => return_early (hubbub_error_from_parserutils_error error)
        | PeekOk cptr _ => let! next := deref cptr in ret (negb (next =? 10))
        end in
      do! emit_pending_if_any in
      do! (if emit_lf then let! _ := emit_character_token lf in ret tt else ret tt) in
      do! advance 1 in
      do! upd_context (set_cx_match_cdata_end 0) in
      ret HUBBUB_OK
    else
      do! add_pending len in
      do! upd_context (set_cx_match_cdata_end 0) in
      ret HUBBUB_OK).
End Handlers.
