(* ===== verification/Tokeniser.v ===== *)
(** * Tokeniser: creating, configuring, feeding and running the HTML tokeniser
    (libhubbub/src/tokeniser/tokeniser.c). *)
From S2P Require Import Prelude Errors Utf8 Interfaces Entities Tokens TokeniserState.
From S2P Require Import TokeniserMonad TokeniserEntities TokeniserTags TokeniserMarkup.

(** hubbub_tokeniser_optparams, by the option it belongs to.  The error handler
    is stored by the code and never called; it is not modelled. *)
Inductive tokeniser_option (P : Type) :=
  | HUBBUB_TOKENISER_TOKEN_HANDLER (handler : option (token_handler_fn P)) (pw : P)
  | HUBBUB_TOKENISER_ERROR_HANDLER
  | HUBBUB_TOKENISER_CONTENT_MODEL (model : hubbub_content_model)
  | HUBBUB_TOKENISER_PROCESS_CDATA (process : bool)
  | HUBBUB_TOKENISER_PAUSE (pause : bool).
Arguments HUBBUB_TOKENISER_TOKEN_HANDLER {P}.
Arguments HUBBUB_TOKENISER_ERROR_HANDLER {P}.
Arguments HUBBUB_TOKENISER_CONTENT_MODEL {P}.
Arguments HUBBUB_TOKENISER_PROCESS_CDATA {P}.
Arguments HUBBUB_TOKENISER_PAUSE {P}.

(** The context memset leaves. *)
Definition zero_context : tokeniser_context := {|
  cx_pending := 0;
  cx_current_comment := 0;
  cx_current_tag_type := HUBBUB_TOKEN_DOCTYPE;
  cx_current_tag := {| ct_name := 0; ct_attributes := []; ct_self_closing := false |};
  cx_current_doctype :=
    {| cd_name := 0; cd_public_missing := false; cd_public_id := 0;
       cd_system_missing := false; cd_system_id := 0; cd_force_quirks := false |};
  cx_prev_state := STATE_DATA;
  cx_last_start_tag_name := zrep 10 0;
  cx_last_start_tag_len := 0;
  cx_close_tag_count := 0;
  cx_close_tag_match := false;
  cx_match_doctype_count := 0;
  cx_match_cdata_count := 0;
  cx_match_cdata_end := 0;
  cx_match_entity :=
    {| me_offset := 0; me_length := 0; me_codepoint := 0; me_complete := false;
       me_poss_length := 0; me_base := 0; me_context := 0; me_prev_len := 0;
       me_had_data := false; me_overflow := false; me_return_state := STATE_DATA |};
  cx_allowed_char := 0
|}.

Section Tokeniser.
Context {St B P : Type} `{!InputStreamOps St} `{!ByteBufferOps B}.
Context (dict : list hubbub_entity_node) (dict_root : Z) (realloc_ok : Z -> bool).
Local Abbreviation T := (hubbub_tokeniser St B P).
Local Abbreviation M := (comp (hubbub_tokeniser St B P)).

(** hubbub_tokeniser_create; [create_buffer] is parserutils_buffer_create and
    [tok_ok] says whether malloc finds room for the tokeniser itself. *)
Definition hubbub_tokeniser_create (tok_ok : bool)
    (create_buffer : unit -> parserutils_error * option B) (input : St) (pw : P)
  : hubbub_error * option T :=
  if negb tok_ok then (HUBBUB_NOMEM, None) else
  match create_buffer tt with
  | (PARSERUTILS_OK, Some buffer) =>
      match create_buffer tt with
      | (PARSERUTILS_OK, Some insert_buf) =>
          (HUBBUB_OK, Some
            {| tk_state := STATE_DATA;
               tk_content_model := HUBBUB_CONTENT_MODEL_PCDATA;
               tk_escape_flag := false;
               tk_process_cdata_section := false;
               tk_paused := false;
               tk_input := input;
               tk_buffer := buffer;
               tk_insert_buf := insert_buf;
               tk_context := zero_context;
               tk_token_handler := None;
               tk_token_pw := pw |})
      | (perror, _) => (hubbub_error_from_parserutils_error perror, None)
      end
  | (perror, _) => (hubbub_error_from_parserutils_error perror, None)
  end.

(** The switch of hubbub_tokeniser_run; [fuel] bounds the loops inside the
    handlers. *)
Definition hubbub_tokeniser_step (fuel : nat) : M hubbub_error :=
  let! state := get_state in
  match state with
  | STATE_DATA => hubbub_tokeniser_handle_data fuel
  | STATE_CHARACTER_REFERENCE_DATA => hubbub_tokeniser_handle_character_reference_data
  | STATE_TAG_OPEN => hubbub_tokeniser_handle_tag_open
  | STATE_CLOSE_TAG_OPEN => hubbub_tokeniser_handle_close_tag_open fuel
  | STATE_TAG_NAME => hubbub_tokeniser_handle_tag_name
  | STATE_BEFORE_ATTRIBUTE_NAME => hubbub_tokeniser_handle_before_attribute_name realloc_ok
  | STATE_ATTRIBUTE_NAME => hubbub_tokeniser_handle_attribute_name
  | STATE_AFTER_ATTRIBUTE_NAME => hubbub_tokeniser_handle_after_attribute_name realloc_ok
  | STATE_BEFORE_ATTRIBUTE_VALUE => hubbub_tokeniser_handle_before_attribute_value
  | STATE_ATTRIBUTE_VALUE_DQ => hubbub_tokeniser_handle_attribute_value_dq
  | STATE_ATTRIBUTE_VALUE_SQ => hubbub_tokeniser_handle_attribute_value_sq
  | STATE_ATTRIBUTE_VALUE_UQ => hubbub_tokeniser_handle_attribute_value_uq
  | STATE_CHARACTER_REFERENCE_IN_ATTRIBUTE_VALUE =>
      hubbub_tokeniser_handle_character_reference_in_attribute_value
  | STATE_AFTER_ATTRIBUTE_VALUE_Q => hubbub_tokeniser_handle_after_attribute_value_q
  | STATE_SELF_CLOSING_START_TAG => hubbub_tokeniser_handle_self_closing_start_tag
  | STATE_BOGUS_COMMENT => hubbub_tokeniser_handle_bogus_comment
  | STATE_MARKUP_DECLARATION_OPEN => hubbub_tokeniser_handle_markup_declaration_open
  | STATE_MATCH_COMMENT => hubbub_tokeniser_handle_match_comment
  | STATE_COMMENT_START | STATE_COMMENT_START_DASH | STATE_COMMENT
  | STATE_COMMENT_END_DASH | STATE_COMMENT_END => hubbub_tokeniser_handle_comment
  | STATE_MATCH_DOCTYPE => hubbub_tokeniser_handle_match_doctype
  | STATE_DOCTYPE => hubbub_tokeniser_handle_doctype
  | STATE_BEFORE_DOCTYPE_NAME => hubbub_tokeniser_handle_before_doctype_name
  | STATE_DOCTYPE_NAME => hubbub_tokeniser_handle_doctype_name
  | STATE_AFTER_DOCTYPE_NAME => hubbub_tokeniser_handle_after_doctype_name
  | STATE_MATCH_PUBLIC => hubbub_tokeniser_handle_match_public
  | STATE_BEFORE_DOCTYPE_PUBLIC => hubbub_tokeniser_handle_before_doctype_public
  | STATE_DOCTYPE_PUBLIC_DQ => hubbub_tokeniser_handle_doctype_public_dq
  | STATE_DOCTYPE_PUBLIC_SQ => hubbub_tokeniser_handle_doctype_public_sq
  | STATE_AFTER_DOCTYPE_PUBLIC => hubbub_tokeniser_handle_after_doctype_public
  | STATE_MATCH_SYSTEM => hubbub_tokeniser_handle_match_system
  | STATE_BEFORE_DOCTYPE_SYSTEM => hubbub_tokeniser_handle_before_doctype_system
  | STATE_DOCTYPE_SYSTEM_DQ => hubbub_tokeniser_handle_doctype_system_dq
  | STATE_DOCTYPE_SYSTEM_SQ => hubbub_tokeniser_handle_doctype_system_sq
  | STATE_AFTER_DOCTYPE_SYSTEM => hubbub_tokeniser_handle_after_doctype_system
  | STATE_BOGUS_DOCTYPE => hubbub_tokeniser_handle_bogus_doctype
  | STATE_MATCH_CDATA => hubbub_tokeniser_handle_match_cdata
  | STATE_CDATA_BLOCK => hubbub_tokeniser_handle_cdata_block
  | STATE_NUMBERED_ENTITY => hubbub_tokeniser_handle_numbered_entity fuel
  | STATE_NAMED_ENTITY => hubbub_tokeniser_handle_named_entity dict dict_root fuel
  end.

(** [while (cont == HUBBUB_OK)], with [n] the bound on its iterations. *)
Fixpoint run_loop (fuel n : nat) (t : T) : option (hubbub_error * T) :=
  match n with
  | O => None
  | S n =>
      match run_comp (hubbub_tokeniser_step fuel) t with
      | Some (HUBBUB_OK, t) => run_loop fuel n t
      | Some (cont, t) => Some (cont, t)
      | None => None
      end
  end.

Definition hubbub_tokeniser_run (fuel : nat) (t : T) : option (hubbub_error * T) :=
  if tk_paused t then Some (HUBBUB_PAUSED, t) else
  '(cont, t) ← run_loop fuel fuel t;
  Some (if bool_decide (cont = HUBBUB_NEEDDATA) then HUBBUB_OK else cont, t).

Definition hubbub_tokeniser_setopt (fuel : nat) (type : tokeniser_option P) (t : T)
  : option (hubbub_error * T) :=
  match type with
  | HUBBUB_TOKENISER_TOKEN_HANDLER handler pw =>
      Some (HUBBUB_OK, set_tk_token_pw pw (set_tk_token_handler handler t))
  | HUBBUB_TOKENISER_ERROR_HANDLER => Some (HUBBUB_OK, t)
  | HUBBUB_TOKENISER_CONTENT_MODEL model => Some (HUBBUB_OK, set_tk_content_model model t)
  | HUBBUB_TOKENISER_PROCESS_CDATA process =>
      Some (HUBBUB_OK, set_tk_process_cdata_section process t)
  | HUBBUB_TOKENISER_PAUSE true => Some (HUBBUB_OK, set_tk_paused true t)
  | HUBBUB_TOKENISER_PAUSE false =>
      if tk_paused t then
        match flush_insert_buf (set_tk_paused false t) with
        | Ok _ t | Early _ t => hubbub_tokeniser_run fuel t
        | Stuck => None
        end
      else Some (HUBBUB_OK, t)
  end.

(** hubbub_tokeniser_insert_chunk *)
Definition hubbub_tokeniser_insert_chunk (d : bytes) (t : T) : option (hubbub_error * T) :=
  '(perror, b) ← bb_append (tk_insert_buf t) d;
  Some (hubbub_error_from_parserutils_error perror, set_tk_insert_buf b t).
End Tokeniser.
