(* ===== verification/TokeniserWp.v ===== *)
(** * TokeniserWp: weakest preconditions for the functions of the tokeniser.

    [wp m Q E t]: run in [t], [m] is not stuck, a value it yields satisfies [Q]
    and an early return satisfies [E].  The rules below execute the code of
    TokeniserMonad.v symbolically, against the interfaces of Interfaces.v. *)
From S2P Require Import Prelude Errors Utf8 Interfaces Entities Tokens TokeniserState.
From S2P Require Import TokeniserMonad.

Section Wp.
Context {T : Type}.

Definition wp {A} (m : comp T A) (Q : A -> T -> Prop) (E : hubbub_error -> T -> Prop)
    (t : T) : Prop :=
  match m t with
  | Ok a t => Q a t
  | Early e t => E e t
  | Stuck => False
  end.

Implicit Types E : hubbub_error -> T -> Prop.

Lemma wp_ret {A} (a : A) (Q : A -> T -> Prop) E t : Q a t -> wp (ret a) Q E t.
Proof. done. Qed.

Lemma wp_bind {A C} (m : comp T A) (k : A -> comp T C) Q E t :
  wp m (fun a => wp (k a) Q E) E t -> wp (bind m k) Q E t.
Proof. unfold wp, bind; destruct (m t); done. Qed.

Lemma wp_call (m : comp T hubbub_error) Q E t : wp m Q Q t -> wp (call m) Q E t.
Proof. unfold wp, call; destruct (m t); done. Qed.

Lemma wp_return_early {A} e (Q : A -> T -> Prop) E t : E e t -> wp (return_early e) Q E t.
Proof. done. Qed.

Lemma wp_gets {A} (f : T -> A) Q E t : Q (f t) t -> wp (gets f) Q E t.
Proof. done. Qed.

Lemma wp_modify (f : T -> T) Q E t : Q tt (f t) -> wp (modify f) Q E t.
Proof. done. Qed.

Lemma wp_assert (b : bool) Q E (t : T) : b = true -> Q tt t -> wp (assert b) Q E t.
Proof. intros ->; done. Qed.

Lemma wp_of_option {A} (o : option A) a Q E (t : T) :
  o = Some a -> Q a t -> wp (of_option o) Q E t.
Proof. intros ->; done. Qed.

Lemma wp_mono {A} (m : comp T A) (Q Q' : A -> T -> Prop) (E E' : hubbub_error -> T -> Prop) t :
  wp m Q E t -> (forall a t, Q a t -> Q' a t) -> (forall e t, E e t -> E' e t) ->
  wp m Q' E' t.
Proof. unfold wp; destruct (m t); auto. Qed.

Lemma wp_run (m : comp T hubbub_error) (Q : hubbub_error -> T -> Prop) t :
  wp m Q Q t -> exists e t', run_comp m t = Some (e, t') /\ Q e t'.
Proof. unfold wp, run_comp; destruct (m t); naive_solver. Qed.
End Wp.

(** ** The fields at hand *)
Section Views.
Context {St B P : Type} `{!InputStreamOps St} `{!InputStream St} `{!ByteBufferOps B}.
Local Abbreviation T := (hubbub_tokeniser St B P).
Definition avail (t : T) : bytes := is_avail (tk_input t).
Definition total (t : T) : Z := is_total (tk_input t).
Definition pending (t : T) : Z := cx_pending (tk_context t).
Definition collected (t : T) : bytes := bb_bytes (tk_buffer t).
End Views.

(** Run the setters away. *)
Ltac tk_cbn :=
  unfold avail, total, pending, collected in *;
  cbn [set_tk_state set_tk_content_model set_tk_escape_flag set_tk_process_cdata_section
    set_tk_paused set_tk_input set_tk_buffer set_tk_insert_buf set_tk_context
    set_tk_token_handler set_tk_token_pw
    tk_state tk_content_model tk_escape_flag tk_process_cdata_section tk_paused tk_input
    tk_buffer tk_insert_buf tk_context tk_token_handler tk_token_pw
    set_cx_pending set_cx_current_comment set_cx_current_tag_type set_cx_current_tag
    set_cx_current_doctype set_cx_prev_state set_cx_last_start_tag_name
    set_cx_last_start_tag_len set_cx_close_tag_count set_cx_close_tag_match
    set_cx_match_doctype_count set_cx_match_cdata_count set_cx_match_cdata_end
    set_cx_match_entity set_cx_allowed_char
    cx_pending cx_current_comment cx_current_tag_type cx_current_tag cx_current_doctype
    cx_prev_state cx_last_start_tag_name cx_last_start_tag_len cx_close_tag_count
    cx_close_tag_match cx_match_doctype_count cx_match_cdata_count cx_match_cdata_end
    cx_match_entity cx_allowed_char
    set_me_offset set_me_length set_me_codepoint set_me_complete set_me_poss_length
    set_me_base set_me_context set_me_prev_len set_me_had_data set_me_overflow
    set_me_return_state
    me_offset me_length me_codepoint me_complete me_poss_length me_base me_context
    me_prev_len me_had_data me_overflow me_return_state
    set_ct_name set_ct_attributes set_ct_self_closing ct_name ct_attributes ct_self_closing
    set_ca_name set_ca_value ca_name ca_value
    set_cd_name set_cd_public_missing set_cd_public_id set_cd_system_missing
    set_cd_system_id set_cd_force_quirks
    cd_name cd_public_missing cd_public_id cd_system_missing cd_system_id cd_force_quirks
    sf_get sf_set tag_name_field attr_name_field attr_value_field doctype_name_field
    public_id_field system_id_field id] in *.

(** The same, in the goal only. *)
Ltac tk_goal :=
  unfold avail, total, pending, collected;
  cbn [set_tk_state set_tk_content_model set_tk_escape_flag set_tk_process_cdata_section
    set_tk_paused set_tk_input set_tk_buffer set_tk_insert_buf set_tk_context
    set_tk_token_handler set_tk_token_pw
    tk_state tk_content_model tk_escape_flag tk_process_cdata_section tk_paused tk_input
    tk_buffer tk_insert_buf tk_context tk_token_handler tk_token_pw
    set_cx_pending set_cx_current_comment set_cx_current_tag_type set_cx_current_tag
    set_cx_current_doctype set_cx_prev_state set_cx_last_start_tag_name
    set_cx_last_start_tag_len set_cx_close_tag_count set_cx_close_tag_match
    set_cx_match_doctype_count set_cx_match_cdata_count set_cx_match_cdata_end
    set_cx_match_entity set_cx_allowed_char
    cx_pending cx_current_comment cx_current_tag_type cx_current_tag cx_current_doctype
    cx_prev_state cx_last_start_tag_name cx_last_start_tag_len cx_close_tag_count
    cx_close_tag_match cx_match_doctype_count cx_match_cdata_count cx_match_cdata_end
    cx_match_entity cx_allowed_char
    set_me_offset set_me_length set_me_codepoint set_me_complete set_me_poss_length
    set_me_base set_me_context set_me_prev_len set_me_had_data set_me_overflow
    set_me_return_state
    me_offset me_length me_codepoint me_complete me_poss_length me_base me_context
    me_prev_len me_had_data me_overflow me_return_state
    set_ct_name set_ct_attributes set_ct_self_closing ct_name ct_attributes ct_self_closing
    set_ca_name set_ca_value ca_name ca_value
    set_cd_name set_cd_public_missing set_cd_public_id set_cd_system_missing
    set_cd_system_id set_cd_force_quirks
    cd_name cd_public_missing cd_public_id cd_system_missing cd_system_id cd_force_quirks
    sf_get sf_set tag_name_field attr_name_field attr_value_field doctype_name_field
    public_id_field system_id_field id].

(** The same, in one hypothesis. *)
Ltac tk_at H :=
  unfold avail, total, pending, collected in H;
  cbn [set_tk_state set_tk_content_model set_tk_escape_flag set_tk_process_cdata_section
    set_tk_paused set_tk_input set_tk_buffer set_tk_insert_buf set_tk_context
    set_tk_token_handler set_tk_token_pw
    tk_state tk_content_model tk_escape_flag tk_process_cdata_section tk_paused tk_input
    tk_buffer tk_insert_buf tk_context tk_token_handler tk_token_pw
    set_cx_pending set_cx_current_comment set_cx_current_tag_type set_cx_current_tag
    set_cx_current_doctype set_cx_prev_state set_cx_last_start_tag_name
    set_cx_last_start_tag_len set_cx_close_tag_count set_cx_close_tag_match
    set_cx_match_doctype_count set_cx_match_cdata_count set_cx_match_cdata_end
    set_cx_match_entity set_cx_allowed_char
    cx_pending cx_current_comment cx_current_tag_type cx_current_tag cx_current_doctype
    cx_prev_state cx_last_start_tag_name cx_last_start_tag_len cx_close_tag_count
    cx_close_tag_match cx_match_doctype_count cx_match_cdata_count cx_match_cdata_end
    cx_match_entity cx_allowed_char
    set_me_offset set_me_length set_me_codepoint set_me_complete set_me_poss_length
    set_me_base set_me_context set_me_prev_len set_me_had_data set_me_overflow
    set_me_return_state
    me_offset me_length me_codepoint me_complete me_poss_length me_base me_context
    me_prev_len me_had_data me_overflow me_return_state
    set_ct_name set_ct_attributes set_ct_self_closing ct_name ct_attributes ct_self_closing
    set_ca_name set_ca_value ca_name ca_value
    set_cd_name set_cd_public_missing set_cd_public_id set_cd_system_missing
    set_cd_system_id set_cd_force_quirks
    cd_name cd_public_missing cd_public_id cd_system_missing cd_system_id cd_force_quirks
    sf_get sf_set tag_name_field attr_name_field attr_value_field doctype_name_field
    public_id_field system_id_field id] in H.

(** ** What holds between any two steps *)

(** What the theorems about the state machine cover.  With [pcdata_only] the
    content model is and stays PCDATA.  Without it a start tag may change the
    content model, and the theorems name the two places where the code goes
    wrong then ([escapes] and [caught], TokeniserInv.v). *)
Class Coverage := pcdata_only : bool.
Definition pcdata_coverage : Coverage := true.
Definition every_model : Coverage := false.

Definition raw_model (m : hubbub_content_model) : bool :=
  match m with
  | HUBBUB_CONTENT_MODEL_RCDATA | HUBBUB_CONTENT_MODEL_CDATA => true
  | _ => false
  end.

(** A name that fits the array the code saves it in, of one-octet characters. *)
Definition ascii (c : Z) : bool := (0 <=? c) && (c <? 128).
Definition short_name (name : bytes) : bool :=
  (1 <=? zlen name) && (zlen name <? 10) && forallb ascii name.

Definition starts (tok : hubbub_token) : bool :=
  match tok with TokenStartTag _ => true | _ => false end.

(** The content models a token may lead to. *)
Definition calm_model `{Coverage} (tok : hubbub_token) (m : hubbub_content_model) : bool :=
  match m with
  | HUBBUB_CONTENT_MODEL_PCDATA => true
  | _ => negb pcdata_only &&
         match tok with
         | TokenStartTag g => negb (raw_model m) || short_name (tag_name g)
         | _ => false
         end
  end.

(** Calls back into the tokeniser that the theorems cover: pausing, and setting
    a content model the coverage allows. *)
Definition quiet_command `{Coverage} (tok : hubbub_token) (cmd : tokeniser_command) : bool :=
  match cmd with
  | CmdContentModel m => calm_model tok m
  | CmdPause => true
  | _ => false
  end.

Definition quiet_handler `{Coverage} {P} (h : option (token_handler_fn P)) : Prop :=
  match h with
  | None => True
  | Some h => forall pw tok, forallb (quiet_command tok) (h pw tok).1.2 = true
  end.

(** What the handler answers to a token, and its state after. *)
Definition answer {P} (h : option (token_handler_fn P)) (pw : P) (tok : hubbub_token)
  : hubbub_error * P :=
  match h with
  | None => (HUBBUB_OK, pw)
  | Some h => ((h pw tok).1.1, (h pw tok).2)
  end.

Section Common.
Context {cov : Coverage}.
Context {St B P : Type} `{!InputStreamOps St} `{!InputStream St}
  `{!ByteBufferOps B} `{!ByteBuffer B}.
Local Abbreviation T := (hubbub_tokeniser St B P).
Local Abbreviation M := (comp (hubbub_tokeniser St B P)).

(** The content model, the flag for escaped text and the name of the last start
    tag. *)
Definition mode : Type := hubbub_content_model * bool * bytes * Z.
Definition mode_of (t : T) : mode :=
  (tk_content_model t, tk_escape_flag t, cx_last_start_tag_name (tk_context t),
   cx_last_start_tag_len (tk_context t)).

Definition mode_ok (md : mode) : Prop :=
  let '(m, escape, name, len) := md in
  if pcdata_only then m = HUBBUB_CONTENT_MODEL_PCDATA
  else escape = false /\ zlen name = 10 /\
       (raw_model m = true -> 1 <= len < 10 /\ forallb ascii (ztake len name) = true).

Record common (t : T) : Prop := {
  cm_input : is_wf (tk_input t);
  cm_pending : 0 <= pending t <= zlen (avail t);
  cm_buffer : bb_wf (tk_buffer t);
  cm_text : Forall text_byte (collected t);
  cm_insert : bb_wf (tk_insert_buf t);
  cm_no_insert : bb_bytes (tk_insert_buf t) = [];
  cm_mode : mode_ok (mode_of t);
  cm_cdata : tk_process_cdata_section t = false;
  cm_handler : quiet_handler (tk_token_handler t)
}.

(** ** Peeking *)

(** The stream may have converted more text; nothing else changed. *)
Definition extends (t t1 : T) : Prop :=
  exists s, t1 = set_tk_input s t /\ is_wf s /\ total t1 <= total t /\
    exists more, avail t1 = avail t ++ more.

Lemma extends_refl t : common t -> extends t t.
Proof.
  intros []. exists (tk_input t). split; [by destruct t|]. split_and!; [done|lia|].
  exists []. by rewrite app_nil_r.
Qed.

Lemma extends_common t t1 : common t -> extends t t1 -> common t1.
Proof.
  intros [] (s & -> & Hw & _ & m & Hm). split; tk_cbn; try done.
  rewrite Hm, zlen_app. zlens; lia.
Qed.

(** A pointer the stream answers: the available text from [off] on. *)
Definition points_to (t : T) (off : Z) (ptr : bytes) : Prop :=
  exists stale, ptr = zdrop off (avail t) ++ stale.

Definition odd_error (e : parserutils_error) : Prop :=
  e <> PARSERUTILS_OK /\ e <> PARSERUTILS_EOF /\ e <> PARSERUTILS_NEEDDATA.

Lemma wp_peek off (Q : peek_result -> T -> Prop) E t :
  common t -> 0 <= off <= zlen (avail t) ->
  (forall t1 c ptr, extends t t1 -> znth (avail t1) off = Some c ->
     points_to t1 off ptr -> off + char_len c <= zlen (avail t1) ->
     Q (PeekOk ptr (char_len c)) t1) ->
  (forall t1, extends t t1 -> is_ended (tk_input t1) -> zlen (avail t1) = off ->
     Q (PeekErr PARSERUTILS_EOF) t1) ->
  (forall t1, extends t t1 -> Q (PeekErr PARSERUTILS_NEEDDATA) t1) ->
  (forall t1 e, odd_error e -> tk_state t1 = tk_state t -> Q (PeekErr e) t1) ->
  wp (peek off) Q E t.
Proof.
  intros Hc Hoff Hok Heof Hmore Hodd. pose proof (cm_input t Hc) as Hi.
  unfold wp, peek. destruct (Z_lt_le_dec off (zlen (avail t))) as [Hlt|Hge].
  - destruct (znth_is_Some (avail t) off) as [c Hcc]; [lia|].
    destruct (is_peek_avail _ off c Hi Hcc) as [stale ->].
    replace (set_tk_input (tk_input t) t) with t by (by destruct t).
    apply Hok; [by apply extends_refl|done|by exists stale|].
    apply (is_avail_text _ Hi); done.
  - assert (off = zlen (avail t)) as -> by lia. clear Hge.
    destruct (is_peek_end _ Hi) as (r & s & Hp & Hr). fold (avail t) in Hp. rewrite Hp.
    destruct r as [ptr len|e].
    + destruct Hr as (Hw & Ht & c & more & stale & Ha & -> & ->).
      assert (Hx : extends t (set_tk_input s t)).
      { exists s. tk_cbn. split_and!; eauto. }
      assert (Hn : znth (is_avail s) (zlen (avail t)) = Some c).
      { rewrite Ha, znth_app_r, Z.sub_diag by (unfold avail; lia). done. }
      apply Hok; [done|done| |].
      * exists stale. tk_cbn. rewrite Ha, zdrop_app_ge, Z.sub_diag by lia. done.
      * apply (is_avail_text _ Hw); done.
    + destruct Hr as (Hne & Hr & He).
      assert (Hx : e = PARSERUTILS_NEEDDATA \/ e = PARSERUTILS_EOF ->
                extends t (set_tk_input s t) /\ avail (set_tk_input s t) = avail t).
      { intros Hor. destruct (Hr Hor) as (? & ? & Ha). split; [|done].
        exists s. tk_cbn. split_and!; try done. exists []. by rewrite app_nil_r. }
      destruct e; try done.
      all: try (apply Hodd; [split_and!|]; done).
      * apply Hmore. by apply Hx; left.
      * destruct (Hx ltac:(by right)) as [? Ha].
        apply Heof; [done|by apply He|by rewrite Ha].
Qed.

(** Inside the text that is available, a peek changes nothing; at its end, once
    the stream has ended, neither. *)
Lemma wp_peek_avail off c (Q : peek_result -> T -> Prop) E t :
  common t -> znth (avail t) off = Some c ->
  (forall ptr, points_to t off ptr -> off + char_len c <= zlen (avail t) ->
     Q (PeekOk ptr (char_len c)) t) ->
  wp (peek off) Q E t.
Proof.
  intros Hc Hn HQ. pose proof (cm_input t Hc) as Hi. unfold wp, peek.
  destruct (is_peek_avail _ off c Hi Hn) as [stale ->].
  replace (set_tk_input (tk_input t) t) with t by (by destruct t).
  apply HQ; [by exists stale|]. by apply (is_avail_text _ Hi).
Qed.

Lemma wp_peek_ended off (Q : peek_result -> T -> Prop) E t :
  common t -> is_ended (tk_input t) -> zlen (avail t) = off ->
  Q (PeekErr PARSERUTILS_EOF) t -> wp (peek off) Q E t.
Proof.
  intros Hc He <- HQ. unfold wp, peek, avail.
  rewrite (is_peek_ended _ (cm_input t Hc) He).
  by replace (set_tk_input (tk_input t) t) with t by (by destruct t).
Qed.

(** Reading the character a pointer is at. *)
Lemma wp_deref t off ptr c (Q : Z -> T -> Prop) E t0 :
  points_to t off ptr -> 0 <= off -> znth (avail t) off = Some c -> Q c t0 ->
  wp (deref ptr) Q E t0.
Proof.
  intros [stale ->] Ho Hc HQ. eapply wp_of_option; [|done].
  pose proof (znth_Some_range _ _ _ Hc).
  rewrite znth_app_l by (rewrite zlen_zdrop; lia).
  by rewrite znth_zdrop, Z.add_0_r by lia.
Qed.

Lemma read_points_to t off n ptr :
  points_to t off ptr -> 0 <= off -> 0 <= n -> off + n <= zlen (avail t) ->
  mem_read 0 n ptr = Some (ztake n (zdrop off (avail t))).
Proof.
  intros [stale ->] Ho Hn Hle.
  assert (zlen (zdrop off (avail t)) = zlen (avail t) - off) by (rewrite zlen_zdrop; lia).
  rewrite mem_read_in by (rewrite ?zlen_app; zlens; lia).
  rewrite zdrop_le0, ztake_app_le by lia. done.
Qed.

Lemma avail_text t off n : common t -> Forall text_byte (ztake n (zdrop off (avail t))).
Proof.
  intros []. apply Forall_ztake, Forall_zdrop. by apply is_avail_text.
Qed.

(** ** Appending to the buffer *)

(** [E] accepts the error of an append that failed. *)
Lemma wp_append ptr n d (Q : unit -> T -> Prop) (E : hubbub_error -> T -> Prop) t :
  common t -> mem_read 0 n ptr = Some d ->
  (forall b, bb_wf b -> bb_bytes b = collected t ++ d -> Q tt (set_tk_buffer b t)) ->
  (forall b, bb_wf b -> bb_bytes b = collected t -> E HUBBUB_NOMEM (set_tk_buffer b t)) ->
  wp (append_or_return ptr n) Q E t.
Proof.
  intros [] Hr Hok Herr. apply wp_bind. eapply wp_of_option; [done|].
  apply wp_bind. unfold wp, buffer_append.
  destruct (bb_append_ok (tk_buffer t) d ltac:(done)) as (e & b & -> & Hb & [[-> Hd]|[-> Hd]]).
  - by apply Hok.
  - by apply Herr.
Qed.
End Common.
