(* ===== verification/TokeniserEmit.v ===== *)
(** * TokeniserEmit: emitting a token, as a rule of the weakest precondition.

    [emitted tok t e t']: from [t], the handler was given [tok] and answered [e];
    what was pending has been consumed and the buffer is empty in [t']. *)
From S2P Require Import Prelude.
From S2P Require Import Errors.
From S2P Require Import Utf8.
From S2P Require Import Interfaces.
From S2P Require Import Entities.
From S2P Require Import Tokens.
From S2P Require Import TokeniserState.
From S2P Require Import TokeniserMonad.
From S2P Require Import TokeniserWp.

(** * Duplicate attributes (emit_current_tag of
    libhubbub/src/tokeniser/tokeniser.c).

    The nested loops that discard the duplicates of a tag's attributes, against
    a single pass that keeps an attribute when no attribute kept before it has
    its name. *)

(** The reference: [seen] holds the attributes kept so far. *)
Definition unseen (seen : list hubbub_attribute) (a : hubbub_attribute) : bool :=
  forallb (fun b => negb (same_name b a)) seen.

Fixpoint keep_first (seen l : list hubbub_attribute) : list hubbub_attribute :=
  match l with
  | [] => []
  | a :: l => if unseen seen a then a :: keep_first (seen ++ [a]) l else keep_first seen l
  end.

(** ** Names *)

Lemma strncmp_eq_sym n a b : strncmp_eq n a b = strncmp_eq n b a.
Proof.
  revert a b; induction n as [|n IH]; intros [|x a] [|y b]; try done; cbn.
  rewrite (Z.eqb_sym y x). destruct (Z.eqb_spec x y) as [->|]; [|done]. by rewrite IH.
Qed.

Lemma same_name_sym a b : same_name a b = same_name b a.
Proof.
  unfold same_name. rewrite (Z.eqb_sym (zlen (attr_name b))).
  destruct (Z.eqb_spec (zlen (attr_name a)) (zlen (attr_name b))) as [E|]; [|done].
  unfold zlen in E. assert (length (attr_name a) = length (attr_name b)) as -> by lia.
  by rewrite strncmp_eq_sym.
Qed.

(** No terminator inside a name: what the states that collect one ensure. *)
Definition no_nul (s : bytes) : Prop := Forall (fun c => c <> 0) s.

Lemma strncmp_eq_no_nul a b :
  no_nul a -> length a = length b -> strncmp_eq (length a) a b = bool_decide (a = b).
Proof.
  intros Ha; revert b; induction Ha as [|x a Hx Ha IH]; intros [|y b] [=]; [done|]; cbn.
  destruct (Z.eqb_spec x y) as [->|Hne].
  - destruct (Z.eqb_spec y 0); [done|]. cbn. rewrite IH by done.
    apply bool_decide_ext; naive_solver.
  - symmetry; apply bool_decide_eq_false; naive_solver.
Qed.

Lemma same_name_spec a b :
  no_nul (attr_name a) -> same_name a b = bool_decide (attr_name a = attr_name b).
Proof.
  intros Ha. unfold same_name.
  destruct (Z.eqb_spec (zlen (attr_name a)) (zlen (attr_name b))) as [E|E]; cbn.
  - apply strncmp_eq_no_nul; [done|]. unfold zlen in E; lia.
  - symmetry; apply bool_decide_eq_false; congruence.
Qed.

(** ** The inner loop *)

(** Past entry [i], the entries with the name of [a] go. *)
Lemma dedup_inner_tail a i fuel pre l :
  (length l <= fuel)%nat -> (i < length pre)%nat -> pre !! i = Some a ->
  dedup_inner fuel i (length pre) (pre ++ l)
  = Some (pre ++ List.filter (fun b => negb (same_name a b)) l).
Proof.
  revert pre l; induction fuel as [|fuel IH]; intros pre [|b l] Hf Hi Ha; try (cbn in Hf; lia).
  1,2: rewrite app_nil_r; cbn; rewrite lookup_ge_None_2 by lia; by rewrite app_nil_r.
  cbn [dedup_inner]. rewrite lookup_app_r, Nat.sub_diag by lia. cbn [lookup list_lookup].
  rewrite lookup_app_l, Ha by lia. cbn [mbind option_bind].
  destruct (Nat.eqb_spec i (length pre)); [lia|]. cbn [orb List.filter].
  destruct (same_name a b) eqn:Es; cbn [negb].
  - destruct (Nat.ltb_spec i (length pre)); [|lia].
    replace (delete (length pre) (pre ++ b :: l)) with (pre ++ l).
    2:{ by rewrite delete_middle. }
    apply IH; [cbn in Hf; lia|done|done].
  - replace (pre ++ b :: l) with ((pre ++ [b]) ++ l) by (by rewrite <- app_assoc).
    replace (length pre + 1)%nat with (length (pre ++ [b])) by (rewrite length_app; done).
    rewrite IH; [by rewrite <- app_assoc|cbn in Hf; lia|rewrite length_app; lia|].
    by rewrite lookup_app_l by lia.
Qed.

(** Up to entry [i], which no kept entry shares its name with, nothing goes. *)
Lemma dedup_inner_head a kept l j fuel :
  unseen kept a = true -> (j <= length kept)%nat ->
  (length kept - j + 1 + length l <= fuel)%nat ->
  dedup_inner fuel (length kept) j (kept ++ a :: l)
  = Some (kept ++ a :: List.filter (fun b => negb (same_name a b)) l).
Proof.
  intros Hu; remember (length kept - j)%nat as d eqn:Hd.
  revert j fuel Hd; induction d as [|d IH]; intros j fuel Hd Hj Hf;
    (destruct fuel as [|fuel]; [lia|]); cbn [dedup_inner].
  - assert (j = length kept) as -> by lia.
    rewrite lookup_app_r, Nat.sub_diag by lia. cbn [lookup list_lookup mbind option_bind].
    rewrite Nat.eqb_refl. cbn [orb].
    replace (kept ++ a :: l) with ((kept ++ [a]) ++ l) by (by rewrite <- app_assoc).
    replace (length kept + 1)%nat with (length (kept ++ [a])) by (rewrite length_app; done).
    rewrite (dedup_inner_tail a); [by rewrite <- app_assoc|lia|rewrite length_app; cbn; lia|].
    rewrite lookup_app_r, Nat.sub_diag by lia. done.
  - destruct (lookup_lt_is_Some_2 kept j ltac:(lia)) as [b Hb].
    rewrite lookup_app_l, Hb by lia. rewrite lookup_app_r, Nat.sub_diag by lia.
    cbn [lookup list_lookup mbind option_bind].
    assert (same_name a b = false) as ->.
    { unfold unseen in Hu. rewrite forallb_forall in Hu.
      rewrite same_name_sym. apply negb_true_iff, Hu. by apply list_elem_of_In, list_elem_of_lookup_2 with j. }
    rewrite orb_true_r. apply IH; lia.
Qed.

(** ** The outer loop *)

Lemma unseen_snoc seen a b : unseen (seen ++ [a]) b = unseen seen b && negb (same_name a b).
Proof. unfold unseen. rewrite forallb_app. cbn. by rewrite andb_true_r. Qed.

Lemma filter_unseen_snoc seen a l :
  List.filter (fun b => negb (same_name a b)) (List.filter (unseen seen) l)
  = List.filter (unseen (seen ++ [a])) l.
Proof.
  induction l as [|b l IH]; [done|]. cbn [List.filter]. rewrite unseen_snoc.
  destruct (unseen seen b); cbn [List.filter andb]; [|done].
  by destruct (negb (same_name a b)); rewrite IH.
Qed.

Lemma dedup_outer_spec fuel kept l :
  (length l <= fuel)%nat ->
  dedup_outer fuel (length kept) (kept ++ List.filter (unseen kept) l)
  = Some (kept ++ keep_first kept l).
Proof.
  revert fuel kept; induction l as [|a l IH]; intros fuel kept Hf.
  - cbn [List.filter keep_first]. rewrite app_nil_r.
    destruct fuel; cbn [dedup_outer]; rewrite lookup_ge_None_2 by lia; done.
  - cbn [List.filter keep_first]. destruct (unseen kept a) eqn:Hu; [|apply IH; cbn in Hf; lia].
    destruct fuel as [|fuel]; [cbn in Hf; lia|]. cbn [dedup_outer].
    rewrite lookup_app_r, Nat.sub_diag by lia. cbn [lookup list_lookup].
    rewrite dedup_inner_head; [|done|lia|].
    2:{ rewrite length_app. cbn [length]. lia. }
    cbn [mbind option_bind]. rewrite filter_unseen_snoc.
    replace (length kept + 1)%nat with (length (kept ++ [a])) by (rewrite length_app; done).
    replace (kept ++ a :: List.filter (unseen (kept ++ [a])) l)
      with ((kept ++ [a]) ++ List.filter (unseen (kept ++ [a])) l) by (by rewrite <- app_assoc).
    rewrite IH by (cbn in Hf; lia). by rewrite <- app_assoc.
Qed.

Lemma filter_unseen_nil l : List.filter (unseen []) l = l.
Proof. induction l as [|a l IH]; [done|]. cbn. by rewrite IH. Qed.

Lemma dedup_total attrs : dedup_attributes attrs = Some (keep_first [] attrs).
Proof.
  unfold dedup_attributes.
  pose proof (dedup_outer_spec (length attrs) [] attrs ltac:(lia)) as H.
  by rewrite filter_unseen_nil in H.
Qed.

(** ** What the reference keeps *)

Lemma unseen_spec seen a :
  Forall (fun b => no_nul (attr_name b)) seen ->
  unseen seen a = true <-> attr_name a ∉ map attr_name seen.
Proof.
  induction 1 as [|b seen Hb Hs IH]; cbn.
  { split; [intros _; apply not_elem_of_nil|done]. }
  rewrite same_name_spec by done. rewrite not_elem_of_cons, andb_true_iff, IH.
  rewrite negb_true_iff, bool_decide_eq_false. split; intros [? ?]; split; congruence.
Qed.

Lemma keep_first_nodup seen l :
  Forall (fun b => no_nul (attr_name b)) (seen ++ l) -> NoDup (map attr_name seen) ->
  NoDup (map attr_name (seen ++ keep_first seen l)).
Proof.
  revert seen; induction l as [|a l IH]; intros seen Hn Hd; [by rewrite app_nil_r|].
  cbn [keep_first]. destruct (unseen seen a) eqn:Hu.
  - replace (seen ++ a :: keep_first (seen ++ [a]) l)
      with ((seen ++ [a]) ++ keep_first (seen ++ [a]) l) by (by rewrite <- app_assoc).
    apply IH; [by rewrite <- app_assoc|]. rewrite map_app. apply list.NoDup_app. split; [done|].
    split; [|apply NoDup_singleton]. intros x Hx Hin; apply list_elem_of_singleton in Hin as ->.
    apply Forall_app in Hn as [Hn _]. by apply (unseen_spec seen a Hn) in Hu.
  - apply IH; [|done]. apply Forall_app in Hn as [Hs Ha]. apply Forall_app; split; [done|]. by inversion Ha.
Qed.

Lemma keep_first_sublist seen l : sublist (keep_first seen l) l.
Proof.
  revert seen; induction l as [|a l IH]; intros seen; [done|]. cbn.
  destruct (unseen seen a); [by apply sublist_skip|by apply sublist_cons].
Qed.

(** An attribute none before it shares its name with is kept. *)
Lemma keep_first_first seen pre a post :
  unseen seen a = true -> Forall (fun b => same_name b a = false) pre ->
  a ∈ keep_first seen (pre ++ a :: post).
Proof.
  intros Hu Hp; revert seen Hu; induction Hp as [|b pre Hb Hp IH]; intros seen Hu; cbn.
  - rewrite Hu. by apply list_elem_of_here.
  - destruct (unseen seen b); [apply list_elem_of_further|]; apply IH; [|done].
    by rewrite unseen_snoc, Hu, Hb.
Qed.

(** C33: the loops that discard duplicate attributes terminate, never trip their
    assertion, and leave exactly one attribute per name, the first one. *)
Theorem dedup_first_wins (attrs : list hubbub_attribute) :
  Forall (fun a => no_nul (attr_name a)) attrs ->
  exists r, dedup_attributes attrs = Some r /\
    NoDup (map attr_name r) /\ sublist r attrs /\
    forall pre a post, attrs = pre ++ a :: post ->
      Forall (fun b => attr_name b <> attr_name a) pre -> a ∈ r.
Proof.
  intros Hn. exists (keep_first [] attrs). split; [apply dedup_total|].
  split; [apply (keep_first_nodup [] attrs); [done|constructor]|].
  split; [apply keep_first_sublist|]. intros pre a post -> Hp.
  apply keep_first_first; [done|]. apply Forall_app in Hn as [Hn _].
  apply Forall_forall; intros b Hb. rewrite Forall_forall in Hp, Hn.
  rewrite same_name_spec by auto. by apply bool_decide_eq_false, Hp.
Qed.

Definition sample_attribute (n v : Z) : hubbub_attribute :=
  {| attr_ns := HUBBUB_NS_NULL; attr_name := [n]; attr_value := [v] |}.

Lemma dedup_first_wins_witness :
  exists r, dedup_attributes [sample_attribute 97 1; sample_attribute 98 2; sample_attribute 97 3]
            = Some r /\ NoDup (map attr_name r).
Proof.
  destruct (dedup_first_wins
    [sample_attribute 97 1; sample_attribute 98 2; sample_attribute 97 3])
    as (r & Hr & Hd & _).
  - repeat constructor; discriminate.
  - by exists r.
Defined.



Section Emit.
Context {cov : Coverage}.
Context {St B P : Type} `{!InputStreamOps St} `{!InputStream St}
  `{!ByteBufferOps B} `{!ByteBuffer B}.
Local Abbreviation T := (hubbub_tokeniser St B P).
Local Abbreviation M := (comp (hubbub_tokeniser St B P)).

(** The content model after a token. *)
Definition model_after (tok : hubbub_token) (t t' : T) : Prop :=
  tk_content_model t' = tk_content_model t \/ calm_model tok (tk_content_model t') = true.

(** A start tag may change the content model before its name is saved. *)
Definition common_after (tok : hubbub_token) (t : T) : Prop :=
  common (if starts tok then set_tk_content_model HUBBUB_CONTENT_MODEL_PCDATA t else t).

Record emitted (tok : hubbub_token) (t : T) (e : hubbub_error) (t' : T) : Prop := {
  em_common : common_after tok t';
  em_model : model_after tok t t';
  em_state : tk_state t' = tk_state t;
  em_context : tk_context t' = set_cx_pending 0 (tk_context t);
  em_buffer : collected t' = [];
  em_avail : avail t' = zdrop (pending t) (avail t);
  em_total : total t' = total t - pending t;
  em_ended : is_ended (tk_input t) -> is_ended (tk_input t');
  em_handler : tk_token_handler t' = tk_token_handler t;
  em_answer : (e, tk_token_pw t') = answer (tk_token_handler t) (tk_token_pw t) tok
}.

(** ** The handler's calls *)

(** What quiet commands leave alone. *)
Record quietly (tok : hubbub_token) (t t' : T) : Prop := {
  qu_state : tk_state t' = tk_state t;
  qu_model : model_after tok t t';
  qu_escape : tk_escape_flag t' = tk_escape_flag t;
  qu_cdata : tk_process_cdata_section t' = tk_process_cdata_section t;
  qu_input : tk_input t' = tk_input t;
  qu_buffer : tk_buffer t' = tk_buffer t;
  qu_insert : tk_insert_buf t' = tk_insert_buf t;
  qu_context : tk_context t' = tk_context t;
  qu_handler : tk_token_handler t' = tk_token_handler t;
  qu_pw : tk_token_pw t' = tk_token_pw t
}.

Lemma quietly_refl tok t : quietly tok t t.
Proof. split; try done. by left. Qed.

Lemma quietly_trans tok t1 t2 t3 : quietly tok t1 t2 -> quietly tok t2 t3 -> quietly tok t1 t3.
Proof.
  intros [? Hm1] [? Hm2]. split; try congruence. unfold model_after in *.
  destruct Hm2 as [E|?]; [|by right]. by rewrite E.
Qed.

Lemma quiet_commands tok cmds (t : T) :
  forallb (quiet_command tok) cmds = true ->
  exists t', run_commands cmds t = Ok tt t' /\ quietly tok t t'.
Proof.
  revert t; induction cmds as [|cmd cmds IH]; intros t Hq;
    [exists t; split; [done|apply quietly_refl]|].
  cbn [forallb] in Hq. apply andb_prop in Hq as [Hc Hq].
  destruct cmd as [m| | |]; try done; cbn [run_commands run_command bind modify];
    unfold bind, modify;
    [destruct (IH (set_tk_content_model m t) Hq) as (t' & Hr & Hs)
    |destruct (IH (set_tk_paused true t) Hq) as (t' & Hr & Hs)];
    exists t'; (split; [done|]); (eapply quietly_trans; [|done]); split; try done;
    [by right|by left].
Qed.

Lemma wp_call_handler tok (Q : hubbub_error -> T -> Prop) E t :
  common t ->
  (forall e t1 pw t', (e, pw) = answer (tk_token_handler t) (tk_token_pw t) tok ->
     t1 = set_tk_token_pw pw t -> quietly tok t1 t' -> Q e t') ->
  wp (call_handler tok) Q E t.
Proof.
  intros Hc HQ. pose proof (cm_handler _ Hc) as Hh. unfold wp, call_handler.
  destruct (tk_token_handler t) as [h|] eqn:Et.
  - specialize (Hh (tk_token_pw t) tok). cbn [answer] in HQ.
    destruct (h (tk_token_pw t) tok) as [[e cmds] pw] eqn:Eh; cbn [fst snd] in *.
    destruct (quiet_commands tok cmds (set_tk_token_pw pw t) Hh) as (t' & Hr & Hs).
    unfold bind. rewrite Hr. cbn. eapply HQ; [reflexivity|done|done].
  - eapply HQ; [done| |apply quietly_refl]. by destruct t.
Qed.

(** ** After the handler *)

Lemma wp_discard_buffer (Q : unit -> T -> Prop) E t :
  bb_wf (tk_buffer t) ->
  (forall b, bb_wf b -> bb_bytes b = [] -> Q tt (set_tk_buffer b t)) ->
  wp discard_buffer Q E t.
Proof.
  intros Hb HQ. unfold wp, discard_buffer.
  destruct (Z.eqb_spec (zlen (bb_bytes (tk_buffer t))) 0) as [Hz|Hz].
  - replace t with (set_tk_buffer (tk_buffer t) t) by (by destruct t).
    apply HQ; [done|]. by apply zlen_zero_inv.
  - destruct (bb_discard_all (tk_buffer t)) as (b & -> & Hb' & Hn); [done| |by apply HQ].
    intros Hn; rewrite Hn in Hz; done.
Qed.

Lemma set_cx_pending_0 c : cx_pending c = 0 -> set_cx_pending 0 c = c.
Proof. destruct c; cbn; by intros ->. Qed.

Lemma wp_advance_pending (Q : unit -> T -> Prop) E t :
  is_wf (tk_input t) -> 0 <= pending t <= zlen (avail t) ->
  (forall s, is_wf s -> is_avail s = zdrop (pending t) (avail t) ->
     is_total s = total t - pending t ->
     (is_ended (tk_input t) -> is_ended s) ->
     Q tt (set_tk_context (set_cx_pending 0 (tk_context t)) (set_tk_input s t))) ->
  wp advance_pending Q E t.
Proof.
  intros Hw Hp HQ. apply wp_bind, wp_gets. fold (pending t).
  destruct (Z.eqb_spec (pending t) 0) as [Hz|Hz].
  - apply wp_ret.
    replace t with (set_tk_context (set_cx_pending 0 (tk_context t)) (set_tk_input (tk_input t) t)).
    2:{ destruct t; unfold pending in Hz; tk_cbn. by rewrite set_cx_pending_0. }
    apply HQ; [done|by rewrite Hz, zdrop_le0|unfold total; lia|done].
  - destruct (is_advance_ok (tk_input t) (pending t)) as (? & ? & ? & ?); [done|done|].
    apply wp_bind, wp_modify, wp_modify. by apply HQ.
Qed.

Lemma wp_flush_empty (Q : unit -> T -> Prop) E t :
  bb_bytes (tk_insert_buf t) = [] -> Q tt t -> wp flush_insert_buf Q E t.
Proof. intros Hn HQ. unfold wp, flush_insert_buf. by rewrite Hn. Qed.

(** ** hubbub_tokeniser_emit_token *)

Lemma pcdata_mode_ok md :
  mode_ok md -> forall m, calm_model TokenEOF m = true -> mode_ok (m, md.1.1.2, md.1.2, md.2).
Proof.
  destruct md as [[[m esc] name] len]. unfold mode_ok, calm_model. cbn [fst snd].
  destruct pcdata_only; cbn; [by intros ? []|].
  intros (? & ? & _) []; try done; rewrite ?andb_false_r; by split_and!.
Qed.

Lemma quietly_common tok t pw t2 :
  common t -> quietly tok (set_tk_token_pw pw t) t2 -> common_after tok t2.
Proof.
  intros Hc []. pose proof (cm_mode _ Hc) as Hmode. destruct Hc; tk_cbn. unfold common_after.
  assert (Hm : starts tok = false -> mode_ok (mode_of t2)).
  { intros Hs. unfold mode_of. rewrite qu_escape0, qu_context0. unfold model_after in *.
    destruct qu_model0 as [E|E]; [by rewrite E|].
    apply (pcdata_mode_ok _ Hmode). by destruct tok. }
  destruct (starts tok) eqn:Hs; split; tk_cbn;
    rewrite ?qu_input0, ?qu_buffer0, ?qu_insert0, ?qu_context0, ?qu_handler0, ?qu_cdata0; auto.
  unfold mode_of. tk_cbn. rewrite qu_escape0, qu_context0. by apply (pcdata_mode_ok _ Hmode).
Qed.

Lemma wp_emit tok (Q : hubbub_error -> T -> Prop) E t :
  common t -> token_sane tok = true ->
  (forall e t', emitted tok t e t' -> Q e t') ->
  wp (hubbub_tokeniser_emit_token tok) Q E t.
Proof.
  intros Hc Hs HQ. unfold hubbub_tokeniser_emit_token.
  apply wp_bind, wp_gets, wp_bind, wp_assert.
  { unfold id. rewrite (cm_no_insert t Hc). done. }
  apply wp_bind, wp_assert; [done|]. apply wp_bind, wp_call_handler; [done|].
  intros e t1 pw t2 Ha -> Hq. pose proof (quietly_common _ _ _ _ Hc Hq) as Hc2.
  destruct Hc, Hq; tk_cbn.
  apply wp_bind, wp_discard_buffer; [by rewrite qu_buffer0|]. intros b Hb Hbn.
  apply wp_bind, wp_advance_pending; [tk_goal; by rewrite qu_input0|tk_goal; by rewrite qu_input0, qu_context0|].
  tk_cbn. rewrite qu_input0, qu_context0. intros s Hws Has Hts Hes.
  apply wp_bind, wp_flush_empty; [tk_cbn; by rewrite qu_insert0|].
  set (t3 := set_tk_context _ _).
  assert (He : emitted tok t e t3).
  { split; unfold t3; tk_cbn; try done; [|congruence].
    unfold common_after in *. destruct (starts tok); destruct Hc2; split; tk_cbn;
      rewrite ?Hbn in *; try done;
      first [(zlens; lia) | (unfold mode_of in *; tk_cbn; by rewrite qu_context0 in *)]. }
  clearbody t3. apply wp_bind. destruct (bool_decide (e = HUBBUB_PAUSED)).
  - apply wp_modify, HQ. destruct He as [Hc3]; split; tk_cbn; try done.
    unfold common_after in *. destruct (starts tok); destruct Hc3; by split.
  - by apply wp_ret, HQ.
Qed.

(** Only a start tag leaves the content model to its name. *)
Lemma emitted_common tok t e t' : starts tok = false -> emitted tok t e t' -> common t'.
Proof. intros Hs [Hc]. unfold common_after in Hc. by rewrite Hs in Hc. Qed.

(** ** The tokens *)

Lemma text_no_ff s : Forall text_byte s -> no_ff s = true.
Proof.
  intros Hs. apply forallb_forall. intros c Hc.
  rewrite Forall_forall in Hs. specialize (Hs c Hc). unfold text_byte in Hs.
  apply negb_true_iff, Z.eqb_neq; lia.
Qed.

Lemma wp_emit_character s (Q : hubbub_error -> T -> Prop) E t :
  common t -> Forall text_byte s ->
  (forall e t', emitted (TokenCharacter s) t e t' -> Q e t') ->
  wp (emit_character_token s) Q E t.
Proof. intros. apply wp_call, wp_emit; [done|by apply text_no_ff|done]. Qed.

Lemma wp_emit_current_chars (Q : hubbub_error -> T -> Prop) E t :
  common t -> 0 < pending t ->
  (forall e t', emitted (TokenCharacter (ztake (pending t) (avail t))) t e t' -> Q e t') ->
  wp emit_current_chars Q E t.
Proof.
  intros Hc Hp HQ. pose proof (cm_pending _ Hc) as Hle. unfold emit_current_chars.
  apply wp_bind, wp_gets, wp_bind, wp_assert; [fold (pending t); destruct (Z.ltb_spec 0 (pending t)); lia|].
  destruct (znth_is_Some (avail t) 0) as [c Hcc]; [lia|].
  apply wp_bind. unfold wp at 1, peek.
  destruct (is_peek_avail (tk_input t) 0 c (cm_input _ Hc) Hcc) as [stale ->].
  replace (set_tk_input (tk_input t) t) with t by (by destruct t).
  apply wp_bind. eapply wp_of_option.
  { apply (read_points_to t 0); [by exists stale|lia|fold (pending t); lia|fold (pending t); lia]. }
  fold (pending t). rewrite zdrop_le0 by lia. apply wp_call, wp_emit; [done| |done].
  apply text_no_ff, Forall_ztake. by apply is_avail_text, cm_input.
Qed.

Lemma wp_emit_comment (Q : hubbub_error -> T -> Prop) E t :
  common t -> (forall e t', emitted (TokenComment (collected t)) t e t' -> Q e t') ->
  wp emit_current_comment Q E t.
Proof.
  intros Hc HQ. apply wp_bind, wp_gets, wp_call, wp_emit; [done| |done].
  apply text_no_ff, Hc.
Qed.

(** ** Tags *)

Definition attr_size (a : current_attribute) : Z := ca_name a + ca_value a.
Definition attrs_size (l : list current_attribute) : Z := foldr (fun a n => attr_size a + n) 0 l.

Lemma attrs_size_app l m : attrs_size (l ++ m) = attrs_size l + attrs_size m.
Proof. induction l as [|a l IH]; [done|]. cbn [app attrs_size foldr]. unfold attrs_size in *. lia. Qed.

Definition attr_ok (a : current_attribute) : Prop := 0 <= ca_name a /\ 0 <= ca_value a.

(** The strings of the tag lie in the buffer, and its type is a tag's; only end
    tags are recognised in RCDATA and CDATA. *)
Record tag_layout (t : T) : Prop := {
  tl_name : 0 <= ct_name (cx_current_tag (tk_context t));
  tl_attrs : Forall attr_ok (ct_attributes (cx_current_tag (tk_context t)));
  tl_fits : ct_name (cx_current_tag (tk_context t)) +
            attrs_size (ct_attributes (cx_current_tag (tk_context t))) <= zlen (collected t);
  tl_type : cx_current_tag_type (tk_context t) = HUBBUB_TOKEN_START_TAG /\
            raw_model (tk_content_model t) = false \/
            cx_current_tag_type (tk_context t) = HUBBUB_TOKEN_END_TAG
}.

Lemma attrs_size_nonneg l : Forall attr_ok l -> 0 <= attrs_size l.
Proof.
  induction 1 as [|a l [? ?] _ IH]; cbn [attrs_size foldr]; [lia|].
  unfold attrs_size, attr_size in *; lia.
Qed.

Definition attr_sane (a : hubbub_attribute) : bool := no_ff (attr_name a) && no_ff (attr_value a).

Lemma place_attributes_spec data l ptr :
  Forall text_byte data -> Forall attr_ok l -> 0 <= ptr -> ptr + attrs_size l <= zlen data ->
  exists r, place_attributes data ptr l = Some r /\ forallb attr_sane r = true.
Proof.
  intros Ht Hl; revert ptr; induction Hl as [|a l [Hn Hv] Hl IH]; intros ptr Hp Hs; [by exists []|].
  cbn [attrs_size foldr] in Hs. pose proof (attrs_size_nonneg l Hl) as H0.
  unfold attrs_size in IH, H0. unfold attr_size in Hs at 1.
  cbn [place_attributes]. rewrite !mem_read_in by lia. cbn [mbind option_bind].
  destruct (IH (ptr + ca_name a + ca_value a)) as (r & -> & Hr); [lia|lia|].
  cbn [mbind option_bind]. eexists; split; [done|]. cbn [forallb]. rewrite Hr.
  unfold attr_sane; cbn [attr_name attr_value]. by rewrite !text_no_ff by auto with zlist.
Qed.

Lemma keep_first_sane seen l :
  forallb attr_sane l = true -> forallb attr_sane (keep_first seen l) = true.
Proof.
  revert seen; induction l as [|a l IH]; intros seen; [done|]. cbn.
  intros [Ha Hl]%andb_prop. destruct (unseen seen a); cbn; [rewrite Ha|]; by apply IH.
Qed.

(** The tag token of the state. *)
Definition tag_token (t : T) (attrs : list hubbub_attribute) : hubbub_tag :=
  {| tag_ns := HUBBUB_NS_HTML;
     tag_name := ztake (ct_name (cx_current_tag (tk_context t))) (collected t);
     tag_attributes := keep_first [] attrs;
     tag_self_closing := ct_self_closing (cx_current_tag (tk_context t)) |}.

Definition placed (t : T) (attrs : list hubbub_attribute) : Prop :=
  place_attributes (collected t) (ct_name (cx_current_tag (tk_context t)))
    (ct_attributes (cx_current_tag (tk_context t))) = Some attrs.

(** After a tag, the context differs from [emitted]'s in the saved name and in
    the self-closing flag, and after an end tag the content model is PCDATA. *)
Definition tag_emitted (t : T) (e : hubbub_error) (t' : T) : Prop :=
  exists attrs tok t1 m n l, placed t attrs /\
    (tok = TokenStartTag (tag_token t attrs) /\
     cx_current_tag_type (tk_context t) = HUBBUB_TOKEN_START_TAG \/
     tok = TokenEndTag (tag_token t attrs) /\
     cx_current_tag_type (tk_context t) = HUBBUB_TOKEN_END_TAG) /\
    emitted tok t e t1 /\ common t' /\
    t' = set_tk_content_model m (set_tk_context
      (set_cx_current_tag (set_ct_self_closing false (cx_current_tag (tk_context t1)))
        (set_cx_last_start_tag_len n (set_cx_last_start_tag_name l (tk_context t1)))) t1).

Lemma zlen_strncpy n s : zlen (strncpy_bytes n s) = Z.of_nat n.
Proof.
  revert s; induction n as [|n IH]; intros [|x s]; cbn [strncpy_bytes]; try done.
  - rewrite zlen_zrep; lia.
  - destruct (x =? 0); [rewrite zlen_zrep; lia|]. rewrite zlen_cons, IH. lia.
Qed.

Lemma ascii_strncpy n s : forallb ascii s = true -> forallb ascii (strncpy_bytes n s) = true.
Proof.
  assert (Hz : forall k, forallb ascii (zrep k 0) = true).
  { intros k. unfold zrep. by induction (Z.to_nat k). }
  revert s; induction n as [|n IH]; intros [|x s]; cbn [strncpy_bytes forallb]; try done.
  intros [Hx Hs]%andb_prop. destruct (x =? 0); [apply Hz|]. cbn [forallb]. by rewrite Hx, IH.
Qed.

(** What the name of a start tag is saved as; it is as a content model needs it. *)
Definition saved_name (name old : bytes) : bytes * Z :=
  if zlen name <? SIZEOF_LAST_START_TAG_NAME
  then (zwrite 0 (strncpy_bytes (List.length name) name) old, zlen name)
  else (zwrite 0 [0] old, 0).

Lemma saved_mode_ok m0 m esc old len g :
  mode_ok (m0, esc, old, len) -> raw_model m0 = false ->
  m = m0 \/ calm_model (TokenStartTag g) m = true ->
  mode_ok (m, esc, (saved_name (tag_name g) old).1, (saved_name (tag_name g) old).2).
Proof.
  unfold mode_ok, calm_model. destruct pcdata_only; cbn [negb andb].
  { intros -> _ [->|Hm]; [done|]. by destruct m. }
  intros (-> & Hz & _) Hr Hm. unfold saved_name, SIZEOF_LAST_START_TAG_NAME.
  set (name := tag_name g) in *. pose proof (zlen_nonneg name).
  assert (Hl : zlen (strncpy_bytes (List.length name) name) = zlen name) by apply zlen_strncpy.
  destruct (Z.ltb_spec (zlen name) 10) as [Hs|Hs]; cbn [fst snd];
    (split; [done|]; split; [rewrite zlen_zwrite; rewrite ?Hl; first [done|(change (zlen [0]) with 1; lia)|lia]|]; intros Hraw).
  all: assert (Hn : short_name name = true) by
    (destruct Hm as [->|Hm]; [congruence|destruct m; try done; exact Hm]).
  all: unfold short_name in Hn; apply andb_prop in Hn as [Hn Ha]; zbool; try lia.
  split; [lia|]. unfold zwrite. rewrite (ztake_le0 0) by lia. cbn [app].
  rewrite ztake_app_le; [rewrite ztake_ge; [by apply ascii_strncpy|]|]; rewrite Hl; lia.
Qed.

Lemma end_mode_ok m esc name len :
  mode_ok (m, esc, name, len) -> mode_ok (HUBBUB_CONTENT_MODEL_PCDATA, esc, name, len).
Proof. intros Hm. by apply (pcdata_mode_ok _ Hm). Qed.

Lemma wp_emit_current_tag (Q : hubbub_error -> T -> Prop) E t :
  common t -> tag_layout t -> (forall e t', tag_emitted t e t' -> Q e t') ->
  wp emit_current_tag Q E t.
Proof.
  intros Hc [Hn Ha Hf Hty] HQ. pose proof (attrs_size_nonneg _ Ha).
  assert (Htext := cm_text _ Hc). unfold collected in *.
  unfold emit_current_tag. apply wp_bind, wp_gets. unfold id.
  apply wp_bind. eapply wp_of_option; [apply mem_read_in; lia|].
  destruct (place_attributes_spec _ _ (ct_name (cx_current_tag (tk_context t))) Htext Ha)
    as (attrs & Hpl & Hsane); [lia|lia|].
  apply wp_bind. eapply wp_of_option; [done|].
  apply wp_bind. eapply wp_of_option; [apply dedup_total|].
  rewrite zdrop_le0 by lia. fold (collected t). fold (tag_token t attrs).
  assert (Hs : forall k, k = TokenStartTag \/ k = TokenEndTag ->
               token_sane (k (tag_token t attrs)) = true).
  { intros k [->| ->]; cbn; rewrite text_no_ff by auto with zlist;
      apply (keep_first_sane [] attrs Hsane). }
  apply wp_bind. destruct Hty as [[Hty Hraw]|Hty]; rewrite Hty.
  - apply wp_bind, wp_call, wp_emit; [done|auto|]. intros e t1 He.
    apply wp_bind. replace (save_start_tag _) with
      (upd_context (fun c => let r := saved_name (tag_name (tag_token t attrs)) (cx_last_start_tag_name c) in
         set_cx_last_start_tag_len r.2 (set_cx_last_start_tag_name r.1 c)) : comp T unit)
      by (unfold save_start_tag, saved_name; cbn [tag_name tag_token]; by destruct (_ <? _)).
    apply wp_modify, wp_ret, wp_bind, wp_modify, wp_ret, HQ.
    eexists attrs, _, t1, (tk_content_model t1), _, _.
    split; [done|]. split; [left; done|]. split; [exact He|]. split; [|by destruct t1].
    pose proof (cm_mode _ Hc) as Hm. destruct He as [Hc1 Hm1 _ Hx1]. unfold common_after in Hc1.
    cbn [starts] in Hc1. pose proof (cm_mode _ Hc1) as Hm2. destruct Hc1. split; tk_cbn; try done.
    unfold mode_of in *. tk_cbn. rewrite Hx1 in *. tk_cbn.
    eapply saved_mode_ok; [|exact Hraw|exact Hm1]. unfold mode_ok in *.
    destruct pcdata_only; [exact Hm|]. destruct Hm2 as (? & ? & _). by rewrite Hraw.
  - apply wp_bind, wp_call, wp_emit; [done|auto|]. intros e t1 He.
    apply wp_bind, wp_modify, wp_ret, wp_bind, wp_modify, wp_ret, HQ.
    exists attrs, (TokenEndTag (tag_token t attrs)), t1, HUBBUB_CONTENT_MODEL_PCDATA,
      (cx_last_start_tag_len (tk_context t1)), (cx_last_start_tag_name (tk_context t1)).
    split; [done|]. split; [by right|]. split; [done|].
    apply emitted_common in He as Hc1; [|done]. split.
    + pose proof (end_mode_ok _ _ _ _ (cm_mode _ Hc1)). destruct Hc1. split; tk_cbn; done.
    + clear He Hc1. destruct t1 as [? ? ? ? ? ? ? ? c ? ?], c; reflexivity.
Qed.

(** ** Doctypes *)

Record doctype_layout (t : T) : Prop := {
  dl_name : 0 <= cd_name (cx_current_doctype (tk_context t));
  dl_public : 0 <= cd_public_id (cx_current_doctype (tk_context t));
  dl_system : 0 <= cd_system_id (cx_current_doctype (tk_context t));
  dl_fits : cd_name (cx_current_doctype (tk_context t)) +
            cd_public_id (cx_current_doctype (tk_context t)) +
            cd_system_id (cx_current_doctype (tk_context t)) <= zlen (collected t)
}.

Definition doctype_token (force : bool) (t : T) : hubbub_doctype :=
  let d := cx_current_doctype (tk_context t) in
  {| doctype_name := ztake (cd_name d) (collected t);
     doctype_public_missing := cd_public_missing d;
     doctype_public_id := if cd_public_missing d then []
       else ztake (cd_public_id d) (zdrop (cd_name d) (collected t));
     doctype_system_missing := cd_system_missing d;
     doctype_system_id := if cd_system_missing d then []
       else ztake (cd_system_id d) (zdrop (cd_name d + cd_public_id d) (collected t));
     doctype_force_quirks := force || cd_force_quirks d |}.

Lemma wp_emit_doctype force (Q : hubbub_error -> T -> Prop) E t :
  common t -> doctype_layout t ->
  (forall e t', emitted (TokenDoctype (doctype_token force t)) t e t' -> Q e t') ->
  wp (emit_current_doctype force) Q E t.
Proof.
  intros Hc [Hn Hp Hs Hf] HQ. assert (Htext := cm_text _ Hc). unfold collected in *.
  apply wp_bind, wp_gets. unfold id.
  apply wp_bind. eapply wp_of_option; [apply mem_read_in; lia|].
  apply wp_bind. eapply wp_of_option.
  { instantiate (1 := doctype_public_id (doctype_token force t)). cbn. unfold collected.
    destruct (cd_public_missing _); [done|]. apply mem_read_in; lia. }
  apply wp_bind. eapply wp_of_option.
  { instantiate (1 := doctype_system_id (doctype_token force t)). cbn. unfold collected.
    destruct (cd_system_missing _); [done|]. apply mem_read_in; lia. }
  rewrite (zdrop_le0 0) by lia. fold (collected t). apply wp_call.
  apply (wp_emit (TokenDoctype (doctype_token force t))); [done| |done].
  cbn. rewrite text_no_ff by auto with zlist.
  destruct (cd_public_missing _), (cd_system_missing _); cbn;
    rewrite ?text_no_ff by auto with zlist; done.
Qed.
End Emit.
