(* ===== verification/TokeniserInv.v ===== *)
(** * TokeniserInv: the invariant of the tokeniser's state machine, the measure
    its steps decrease, and the rules that run a handler against them.

    The invariant covers a tokeniser that does not process CDATA blocks, in the
    PCDATA content model alone or in every content model as the coverage says.
    CDATA blocks are left out because the code fails an assertion for one that
    is empty (TokeniserProperties.v). *)
From S2P Require Import Prelude Errors Utf8 Interfaces Entities Tokens TokeniserState.
From S2P Require Import TokeniserMonad TokeniserEntities TokeniserTags TokeniserMarkup.
From S2P Require Import TokeniserWp TokeniserEmit.

Section Inv.
Context {cov : Coverage}.
Context {St B P : Type} `{!InputStreamOps St} `{!InputStream St}
  `{!ByteBufferOps B} `{!ByteBuffer B}.
(** The nodes of the entity table a search can stand at. *)
Context (live : Z -> Prop).
Local Abbreviation T := (hubbub_tokeniser St B P).
Local Abbreviation M := (comp (hubbub_tokeniser St B P)).

Implicit Types t : T.

Definition complete (t : T) : bool := me_complete (cx_match_entity (tk_context t)).
Definition match_of (t : T) : entity_match := cx_match_entity (tk_context t).

(** The pending offset is at an ampersand. *)
Definition at_amp (t : T) : Prop := znth (avail t) (pending t) = Some 38.

Definition codepoint_ok (cp : Z) : Prop := 0 <= cp <= 0x10FFFF.

(** A finished reference: nothing was recognised, or the code point and the
    characters after the ampersand that stand for it. *)
Definition ref_done (t : T) : Prop :=
  complete t = true ->
  me_codepoint (match_of t) = 0 \/
  codepoint_ok (me_codepoint (match_of t)) /\
  0 <= me_length (match_of t) /\
  pending t + 1 + me_length (match_of t) <= zlen (avail t).

(** The last attribute of the tag. *)
Definition last_is (t : T) (a : current_attribute) : Prop :=
  exists l, ct_attributes (cx_current_tag (tk_context t)) = l ++ [a].
Definition has_attribute (t : T) : Prop := exists a, last_is t a.

Definition value_state (s : hubbub_tokeniser_state) : Prop :=
  s = STATE_ATTRIBUTE_VALUE_DQ \/ s = STATE_ATTRIBUTE_VALUE_SQ \/ s = STATE_ATTRIBUTE_VALUE_UQ.

Definition attr_ref (t : T) : Prop :=
  tag_layout t /\ has_attribute t /\ value_state (cx_prev_state (tk_context t)).

(** Inside a reference: where it started and where it will return to. *)
Definition ref_return (t : T) : Prop :=
  complete t = false /\ at_amp t /\ me_offset (match_of t) = pending t + 1 /\
  (me_return_state (match_of t) = STATE_CHARACTER_REFERENCE_DATA /\
   collected t = [] /\ pending t = 0 \/
   me_return_state (match_of t) = STATE_CHARACTER_REFERENCE_IN_ATTRIBUTE_VALUE /\ attr_ref t).

Definition number_ok (t : T) : Prop :=
  let m := match_of t in
  0 <= me_length m /\ me_offset m + me_length m <= zlen (avail t) /\
  0 <= me_codepoint m < 2 ^ 32 /\
  (me_had_data m = false -> me_codepoint m = 0) /\
  (me_overflow m = false -> me_codepoint m < 0x10FFFF).

Definition name_ok (t : T) : Prop :=
  let m := match_of t in
  0 <= me_length m <= me_poss_length m /\
  me_offset m + me_poss_length m <= zlen (avail t) /\
  (me_length m = 0 -> me_codepoint m = 0) /\
  codepoint_ok (me_codepoint m) /\ live (me_context m).

(** While the name of an end tag is matched in RCDATA or CDATA: what has matched
    is there, and it is not the whole name. *)
Record matching (t : T) : Prop := {
  matched_part : raw_model (tk_content_model t) = true ->
    cx_close_tag_match (tk_context t) = false /\
    0 <= cx_close_tag_count (tk_context t) < cx_last_start_tag_len (tk_context t) /\
    pending t + cx_close_tag_count (tk_context t) <= zlen (avail t)
}.

Definition state_inv (t : T) : Prop :=
  match tk_state t with
  | STATE_DATA => complete t = false /\ collected t = []
  | STATE_CHARACTER_REFERENCE_DATA =>
      collected t = [] /\ pending t = 0 /\ at_amp t /\ ref_done t
  | STATE_TAG_OPEN =>
      complete t = false /\ collected t = [] /\ pending t = 1 /\
      tk_content_model t <> HUBBUB_CONTENT_MODEL_PLAINTEXT
  | STATE_CLOSE_TAG_OPEN =>
      complete t = false /\ collected t = [] /\ pending t = 2 /\ matching t
  | STATE_TAG_NAME =>
      complete t = false /\ tag_layout t /\ 0 < pending t /\
      0 < ct_name (cx_current_tag (tk_context t)) /\
      ct_attributes (cx_current_tag (tk_context t)) = []
  | STATE_BEFORE_ATTRIBUTE_NAME | STATE_SELF_CLOSING_START_TAG
  | STATE_AFTER_ATTRIBUTE_VALUE_Q => complete t = false /\ tag_layout t
  | STATE_ATTRIBUTE_NAME =>
      complete t = false /\ tag_layout t /\ exists a, last_is t a /\ 0 < ca_name a
  | STATE_AFTER_ATTRIBUTE_NAME | STATE_BEFORE_ATTRIBUTE_VALUE
  | STATE_ATTRIBUTE_VALUE_DQ | STATE_ATTRIBUTE_VALUE_SQ =>
      complete t = false /\ tag_layout t /\ has_attribute t
  | STATE_ATTRIBUTE_VALUE_UQ =>
      complete t = false /\ tag_layout t /\ exists a, last_is t a /\ (1 <= ca_value a \/ at_amp t)
  | STATE_CHARACTER_REFERENCE_IN_ATTRIBUTE_VALUE => attr_ref t /\ at_amp t /\ ref_done t
  | STATE_NUMBERED_ENTITY => ref_return t /\ number_ok t
  | STATE_NAMED_ENTITY => ref_return t /\ name_ok t
  | STATE_BOGUS_COMMENT | STATE_COMMENT_START | STATE_COMMENT_START_DASH | STATE_COMMENT
  | STATE_COMMENT_END_DASH | STATE_COMMENT_END => complete t = false
  | STATE_MARKUP_DECLARATION_OPEN => complete t = false /\ collected t = [] /\ pending t = 0
  | STATE_MATCH_COMMENT => complete t = false /\ collected t = [] /\ pending t = 1
  | STATE_MATCH_DOCTYPE =>
      complete t = false /\ collected t = [] /\
      pending t = cx_match_doctype_count (tk_context t) /\ 1 <= pending t <= 6
  | STATE_DOCTYPE_NAME =>
      complete t = false /\ doctype_layout t /\ 0 < cd_name (cx_current_doctype (tk_context t))
  | STATE_MATCH_PUBLIC | STATE_MATCH_SYSTEM =>
      complete t = false /\ doctype_layout t /\
      1 <= cx_match_doctype_count (tk_context t) <= 5
  | STATE_DOCTYPE | STATE_BEFORE_DOCTYPE_NAME | STATE_AFTER_DOCTYPE_NAME
  | STATE_BEFORE_DOCTYPE_PUBLIC | STATE_DOCTYPE_PUBLIC_DQ | STATE_DOCTYPE_PUBLIC_SQ
  | STATE_AFTER_DOCTYPE_PUBLIC | STATE_BEFORE_DOCTYPE_SYSTEM | STATE_DOCTYPE_SYSTEM_DQ
  | STATE_DOCTYPE_SYSTEM_SQ | STATE_AFTER_DOCTYPE_SYSTEM | STATE_BOGUS_DOCTYPE =>
      complete t = false /\ doctype_layout t
  | STATE_MATCH_CDATA | STATE_CDATA_BLOCK => False
  end.

Record inv (t : T) : Prop := {
  inv_common : common t;
  inv_state : state_inv t
}.

(** ** The measure

    Input that is left, weighted, and the rank of the state: a step consumes
    input or moves to a state of lower rank.  While a markup declaration is
    being recognised what is pending may be given back, so it does not count
    as consumed. *)
Definition counted (t : T) : Z :=
  match tk_state t with
  | STATE_MARKUP_DECLARATION_OPEN | STATE_MATCH_COMMENT | STATE_MATCH_DOCTYPE => 0
  | _ => pending t
  end.

Definition rank (t : T) : Z :=
  match tk_state t with
  | STATE_CHARACTER_REFERENCE_DATA | STATE_CHARACTER_REFERENCE_IN_ATTRIBUTE_VALUE =>
      if complete t then 0 else 2
  | STATE_NUMBERED_ENTITY | STATE_NAMED_ENTITY => 1
  | STATE_DATA => 3
  | STATE_MARKUP_DECLARATION_OPEN => 20
  | STATE_MATCH_COMMENT => 19
  | STATE_MATCH_DOCTYPE => 18 - cx_match_doctype_count (tk_context t)
  | STATE_TAG_OPEN | STATE_CLOSE_TAG_OPEN | STATE_BEFORE_ATTRIBUTE_VALUE
  | STATE_SELF_CLOSING_START_TAG | STATE_AFTER_ATTRIBUTE_VALUE_Q | STATE_DOCTYPE
  | STATE_MATCH_PUBLIC | STATE_MATCH_SYSTEM => 6
  | _ => 4
  end.

Definition measure (t : T) : Z := 32 * (total t - counted t) + rank t.

Lemma measure_bounds t : inv t -> 0 <= measure t <= 32 * total t + 20.
Proof.
  intros [[Hw Hp _ _ _ _ _ _ _] Hs]. pose proof (is_avail_total _ Hw).
  unfold measure, counted, rank. unfold state_inv in Hs. unfold avail, total in *.
  destruct (tk_state t); try destruct (complete t); lia.
Qed.

(** ** What a step promises *)

(** The results after which the tokeniser may be run again. *)
Definition stable (e : hubbub_error) : Prop :=
  e = HUBBUB_OK \/ e = HUBBUB_PAUSED \/ e = HUBBUB_NEEDDATA.

(** Where the code goes wrong after a pause: the name of an end tag has been
    matched in RCDATA or CDATA and the octet after it is not there yet.  When
    the tokeniser is run again it goes on matching past the end of the name. *)
Definition caught (t : T) : Prop :=
  pcdata_only = false /\ tk_state t = STATE_CLOSE_TAG_OPEN /\
  cx_close_tag_match (tk_context t) = true.

Definition step_post (m0 : Z) (e : hubbub_error) (t : T) : Prop :=
  stable e -> inv t /\ (e = HUBBUB_OK -> measure t < m0) \/ e = HUBBUB_NEEDDATA /\ caught t.

Lemma step_post_intro m0 e t : inv t -> measure t < m0 -> step_post m0 e t.
Proof. by left. Qed.

Lemma step_post_wait m0 t : inv t -> step_post m0 HUBBUB_NEEDDATA t.
Proof. by left. Qed.

Lemma step_post_caught m0 t : caught t -> step_post m0 HUBBUB_NEEDDATA t.
Proof. by right. Qed.

Lemma step_post_nomem m0 t : step_post m0 HUBBUB_NOMEM t.
Proof. by intros [?|[?|?]]. Qed.

Lemma step_post_odd m0 e t :
  odd_error e -> step_post m0 (hubbub_error_from_parserutils_error e) t.
Proof. intros (? & ? & ?) [Hs|[Hs|Hs]]; destruct e; done. Qed.

(** ** More text *)

Lemma extends_fields t t1 :
  extends t t1 ->
  tk_state t1 = tk_state t /\ tk_context t1 = tk_context t /\ collected t1 = collected t /\
  total t1 <= total t /\ exists more, avail t1 = avail t ++ more.
Proof. intros (s & -> & _ & Ht & Hm). by tk_cbn. Qed.

Lemma extends_at_amp t t1 : extends t t1 -> at_amp t -> at_amp t1.
Proof.
  intros (s & -> & _ & _ & m & Hm). unfold at_amp. rewrite Hm. tk_cbn. intros Ha.
  rewrite znth_app_l; [done|]. apply znth_Some_range in Ha; lia.
Qed.

Lemma extends_avail t t1 : extends t t1 -> zlen (avail t) <= zlen (avail t1).
Proof. intros (s & -> & _ & _ & m & Hm). rewrite Hm, zlen_app. zlens; lia. Qed.

Lemma extends_ref_done t t1 : extends t t1 -> ref_done t -> ref_done t1.
Proof.
  intros Hx Hr. pose proof (extends_avail _ _ Hx). destruct Hx as (s & -> & _).
  unfold ref_done in *. tk_cbn. intros Hc. destruct (Hr Hc) as [?|(? & ? & ?)]; [by left|].
  right. split_and!; [done|done|]. unfold match_of in *. tk_cbn. lia.
Qed.

Lemma extends_tag_layout t t1 : extends t t1 -> tag_layout t -> tag_layout t1.
Proof. intros (s & -> & _) []; by split. Qed.

Lemma extends_doctype_layout t t1 : extends t t1 -> doctype_layout t -> doctype_layout t1.
Proof. intros (s & -> & _) []; by split. Qed.

Lemma extends_attr_ref t t1 : extends t t1 -> attr_ref t -> attr_ref t1.
Proof.
  intros Hx (Ht & Ha & Hv). split; [by eapply extends_tag_layout|].
  by destruct Hx as (s & -> & _).
Qed.

Lemma extends_ref_return t t1 : extends t t1 -> ref_return t -> ref_return t1.
Proof.
  intros Hx (Hc & Ha & Ho & Hr). pose proof (extends_at_amp _ _ Hx Ha).
  pose proof (extends_attr_ref _ _ Hx) as Hat. destruct Hx as (s & -> & _).
  split_and!; try done. destruct Hr as [?|[? ?]]; auto.
Qed.

Lemma extends_number_ok t t1 : extends t t1 -> number_ok t -> number_ok t1.
Proof.
  intros Hx (? & ? & Hr). pose proof (extends_avail _ _ Hx).
  destruct Hx as (s & -> & _). split; [done|]. split; [|exact Hr].
  unfold match_of in *; tk_cbn; lia.
Qed.

Lemma extends_name_ok t t1 : extends t t1 -> name_ok t -> name_ok t1.
Proof.
  intros Hx (? & ? & Hr). pose proof (extends_avail _ _ Hx).
  destruct Hx as (s & -> & _). split; [done|]. split; [|exact Hr].
  unfold match_of in *; tk_cbn; lia.
Qed.

Lemma extends_matching t t1 : extends t t1 -> matching t -> matching t1.
Proof.
  intros Hx [Hm]. pose proof (extends_avail _ _ Hx). destruct Hx as (s & -> & _).
  split. intros Hr. destruct (Hm Hr) as (? & ? & ?). split_and!; tk_goal; try done; try lia.
  all: unfold avail, pending in *; tk_cbn; lia.
Qed.

Hint Resolve extends_matching extends_at_amp extends_ref_done extends_tag_layout extends_doctype_layout
  extends_attr_ref extends_ref_return extends_number_ok extends_name_ok : core.

Lemma extends_state_inv t t1 : extends t t1 -> state_inv t -> state_inv t1.
Proof.
  intros Hx Hs. destruct (extends_fields _ _ Hx) as (Es & Ec & Eb & _).
  assert (Em : tk_content_model t1 = tk_content_model t) by (by destruct Hx as (? & -> & _)).
  unfold state_inv in *. rewrite Es.
  destruct (tk_state t); unfold complete, has_attribute, last_is, pending in *;
    rewrite ?Ec, ?Eb, ?Em; destruct_and?; split_and?; eauto.
  match goal with H : exists _, _ |- _ => destruct H as (a & ? & [?|?]); eauto 6 end.
Qed.

Lemma extends_inv t t1 : inv t -> extends t t1 -> inv t1 /\ measure t1 <= measure t.
Proof.
  intros [Hc Hs] Hx. split.
  - split; [by eapply extends_common|by eapply extends_state_inv].
  - destruct (extends_fields _ _ Hx) as (Es & Ec & _ & Et & _).
    unfold measure, counted, rank, complete, pending. rewrite Es, Ec.
    destruct (tk_state t); lia.
Qed.
End Inv.
