(* ===== verification/TokeniserRules.v ===== *)
(** * TokeniserRules: running a handler against the invariant.

    [safe m0 m t]: started in [t], the handler [m] is not stuck, and what it
    answers re-establishes the invariant with a measure below [m0].  The tactics
    at the end execute a handler rule by rule and discharge its exits. *)
From S2P Require Import Prelude Errors Utf8 Interfaces Entities Tokens TokeniserState.
From S2P Require Import TokeniserMonad TokeniserEntities TokeniserTags TokeniserMarkup.
From S2P Require Import TokeniserWp TokeniserEmit TokeniserInv.

Lemma upd_last_snoc f l a : upd_last_attribute f (l ++ [a]) = l ++ [f a].
Proof. unfold upd_last_attribute. rewrite List.rev_app_distr; cbn. by rewrite List.rev_involutive. Qed.

Section Rules.
Context {cov : Coverage}.
Context {St B P : Type} `{!InputStreamOps St} `{!InputStream St}
  `{!ByteBufferOps B} `{!ByteBuffer B}.
Context (live : Z -> Prop).
Local Abbreviation T := (hubbub_tokeniser St B P).
Local Abbreviation M := (comp (hubbub_tokeniser St B P)).
Local Abbreviation inv := (inv live).
Local Abbreviation step_post := (step_post live).
Implicit Types t : T.

Definition safe {A} (m0 : Z) (m : M A) (Q : A -> T -> Prop) (t : T) : Prop :=
  wp m Q (step_post m0) t.

(** ** Keeping the common part *)

Lemma common_keep t t' :
  common t -> is_wf (tk_input t') -> bb_wf (tk_buffer t') ->
  Forall text_byte (collected t') -> tk_insert_buf t' = tk_insert_buf t ->
  mode_of t' = mode_of t ->
  tk_process_cdata_section t' = tk_process_cdata_section t ->
  tk_token_handler t' = tk_token_handler t ->
  0 <= pending t' <= zlen (avail t') -> common t'.
Proof. intros [] ? ? ? Hn Hm Hd Hh ?. split; rewrite ?Hn, ?Hm, ?Hd, ?Hh; done. Qed.

Lemma safe_advance m0 n (Q : unit -> T -> Prop) t :
  common t -> 0 <= n <= zlen (avail t) ->
  (forall s, is_wf s -> is_avail s = zdrop n (avail t) ->
     zlen (is_avail s) = zlen (avail t) - n -> is_total s = total t - n ->
     Q tt (set_tk_input s t)) ->
  safe m0 (advance n) Q t.
Proof.
  intros Hc Hn HQ. apply wp_modify.
  destruct (is_advance_ok (tk_input t) n (cm_input _ Hc) Hn) as (? & Ha & ? & _).
  apply HQ; [done|done| |done]. rewrite Ha. fold (avail t). rewrite zlen_zdrop; lia.
Qed.

Lemma common_sizes t :
  common t -> 0 <= pending t <= zlen (avail t) /\ zlen (avail t) < 2 ^ 32 /\
    zlen (avail t) <= total t /\ 0 <= zlen (collected t) < 2 ^ 63.
Proof.
  intros []. split_and!; try lia.
  - by apply is_avail_bound.
  - by apply is_avail_total.
  - apply zlen_nonneg.
  - by apply bb_bound.
Qed.

Lemma in_rcdata_raw t : in_rcdata_or_cdata t = raw_model (tk_content_model t).
Proof. unfold in_rcdata_or_cdata, model_is. by destruct (tk_content_model t). Qed.

Lemma is_pcdata t :
  model_is t HUBBUB_CONTENT_MODEL_PCDATA = true <->
  tk_content_model t = HUBBUB_CONTENT_MODEL_PCDATA.
Proof. apply bool_decide_eq_true. Qed.

Lemma not_pcdata t :
  raw_model (tk_content_model t) = false ->
  tk_content_model t <> HUBBUB_CONTENT_MODEL_PLAINTEXT ->
  model_is t HUBBUB_CONTENT_MODEL_PCDATA = true.
Proof. rewrite is_pcdata. by destruct (tk_content_model t). Qed.

(** In RCDATA and CDATA text is not escaped, and a short name is saved. *)
Lemma raw_facts t :
  common t -> raw_model (tk_content_model t) = true ->
  pcdata_only = false /\ tk_escape_flag t = false /\
  zlen (cx_last_start_tag_name (tk_context t)) = 10 /\
  1 <= cx_last_start_tag_len (tk_context t) < 10 /\
  forallb ascii (ztake (cx_last_start_tag_len (tk_context t))
                   (cx_last_start_tag_name (tk_context t))) = true.
Proof.
  intros Hc Hr. pose proof (cm_mode _ Hc) as Hm. unfold mode_ok, mode_of in Hm.
  destruct pcdata_only; [by rewrite Hm in Hr|]. destruct Hm as (? & ? & Hm).
  by destruct (Hm Hr).
Qed.

(** ** Peeking at the pending offset *)

Lemma wp_peek_char m0 eof (k : bytes -> Z -> Z -> M hubbub_error) t :
  inv t -> measure t <= m0 ->
  (forall t1 c ptr, extends t t1 -> inv t1 -> measure t1 <= m0 ->
     znth (avail t1) (pending t1) = Some c -> points_to t1 (pending t1) ptr ->
     pending t1 + char_len c <= zlen (avail t1) -> 1 <= char_len c <= 6 ->
     safe m0 (k ptr (char_len c) c) (step_post m0) t1) ->
  (forall t1, extends t t1 -> inv t1 -> measure t1 <= m0 -> is_ended (tk_input t1) ->
     zlen (avail t1) = pending t1 -> safe m0 eof (step_post m0) t1) ->
  safe m0 (peek_char eof k) (step_post m0) t.
Proof.
  intros Hi Hm Hk He. pose proof (inv_common _ _ Hi) as Hc. pose proof (cm_pending _ Hc) as Hp.
  unfold safe, peek_char, peek_pending, get_pending. apply wp_bind, wp_bind, wp_gets. fold (pending t).
  apply wp_peek; [done|done|..].
  - intros t1 c ptr Hx Hn Hpt Hl. destruct (extends_inv _ _ _ Hi Hx) as [Hi1 Hm1].
    assert (pending t1 = pending t) as Hpe by (destruct Hx as (? & -> & _); done).
    rewrite <- Hpe in Hn, Hpt, Hl. apply wp_bind.
    eapply wp_deref; [exact Hpt|unfold pending in *; lia|exact Hn|].
    apply Hk; auto using char_len_range; lia.
  - intros t1 Hx Hend Hl. destruct (extends_inv _ _ _ Hi Hx) as [Hi1 Hm1].
    assert (pending t1 = pending t) as Hpe by (destruct Hx as (? & -> & _); done).
    apply He; auto; lia.
  - intros t1 Hx. apply wp_ret, step_post_wait. by eapply extends_inv.
  - intros t1 e Ho _. pose proof Ho as (? & ? & ?). destruct e; try done; by apply wp_ret, step_post_odd.
Qed.

(** ** Collecting *)

Lemma lower_upper c : is_upper c = true -> Forall text_byte [u8 (c + 0x20)] /\ char_len c = 1.
Proof.
  unfold is_upper. intros H; zbool. split; [|apply char_len_ascii; lia].
  rewrite u8_small by lia. repeat constructor; lia.
Qed.

Lemma read_char t off c ptr :
  common t -> 0 <= off -> points_to t off ptr -> off + char_len c <= zlen (avail t) ->
  exists d, mem_read 0 (char_len c) ptr = Some d /\ zlen d = char_len c /\ Forall text_byte d.
Proof.
  intros Hc Ho Hp Hl. pose proof (char_len_range c).
  exists (ztake (char_len c) (zdrop off (avail t))). split; [|split].
  - apply (read_points_to t off); [done|lia|lia|lia].
  - rewrite zlen_ztake, zlen_zdrop; lia.
  - by apply avail_text.
Qed.

(** The buffer after an append that worked. *)
Definition grown (t : T) (n : Z) (b : B) : Prop :=
  bb_wf b /\ Forall text_byte (bb_bytes b) /\ zlen (bb_bytes b) = zlen (collected t) + n.

(** A pointer from which [n] bytes of text can be read. *)
Definition readable (ptr : bytes) (n : Z) : Prop :=
  exists d, mem_read 0 n ptr = Some d /\ zlen d = n /\ Forall text_byte d.

Lemma readable_literal d : Forall text_byte d -> readable d (zlen d).
Proof.
  intros Hd. exists d. split; [|done]. pose proof (zlen_nonneg d).
  rewrite mem_read_in by lia. by rewrite zdrop_le0, ztake_ge by lia.
Qed.

Lemma safe_append m0 ptr n (Q : unit -> T -> Prop) t :
  common t -> readable ptr n -> (forall b, grown t n b -> Q tt (set_tk_buffer b t)) ->
  safe m0 (append_or_return ptr n) Q t.
Proof.
  intros Hc (d & Hr & Hn & Hd) HQ. eapply wp_append; [done|done| |].
  - intros b Hb Hbb. apply HQ. split; [done|]. rewrite Hbb. split; [|rewrite zlen_app; lia].
    apply Forall_app; split; [apply Hc|done].
  - intros b _ _. apply step_post_nomem.
Qed.

Lemma safe_start_buf m0 f ptr n (Q : unit -> T -> Prop) t :
  common t -> readable ptr n ->
  (forall b, grown t n b ->
     Q tt (set_tk_context (sf_set f n (tk_context t)) (set_tk_buffer b t))) ->
  safe m0 (START_BUF f ptr n) Q t.
Proof.
  intros. apply wp_bind, safe_append; [done|done|]. intros b Hb. apply wp_modify; auto.
Qed.

Lemma safe_collect_ms m0 f ptr n old (Q : unit -> T -> Prop) t :
  common t -> readable ptr n -> sf_get f (tk_context t) = Some old ->
  0 <= old <= zlen (collected t) ->
  (forall b, grown t n b ->
     Q tt (set_tk_context (sf_set f (old + n) (tk_context t)) (set_tk_buffer b t))) ->
  safe m0 (COLLECT_MS f ptr n) Q t.
Proof.
  intros Hc Hr Hg Hold HQ. apply wp_bind, safe_append; [done|done|].
  intros b Hb. destruct Hr as (d & _ & Hn & _). pose proof Hb as (Hwf & _ & Hz).
  pose proof (bb_bound b Hwf). pose proof (zlen_nonneg d).
  apply wp_bind, wp_bind, wp_gets. eapply wp_of_option; [exact Hg|].
  apply wp_modify. rewrite u64_small by lia. by apply HQ.
Qed.

Lemma safe_collect m0 f ptr n old (Q : unit -> T -> Prop) t :
  common t -> readable ptr n -> sf_get f (tk_context t) = Some old ->
  0 < old <= zlen (collected t) ->
  (forall b, grown t n b ->
     Q tt (set_tk_context (sf_set f (old + n) (tk_context t)) (set_tk_buffer b t))) ->
  safe m0 (COLLECT f ptr n) Q t.
Proof.
  intros Hc Hr Hg Hold HQ. apply wp_bind, wp_bind, wp_gets. eapply wp_of_option; [exact Hg|].
  apply wp_bind, wp_assert; [destruct (Z.eqb_spec old 0); [lia|done]|].
  eapply safe_collect_ms; eauto; lia.
Qed.

Lemma safe_add_pending m0 n (Q : unit -> T -> Prop) t :
  0 <= pending t -> 0 <= n -> pending t + n < 2 ^ 64 ->
  Q tt (set_tk_context (set_cx_pending (pending t + n) (tk_context t)) t) ->
  safe m0 (add_pending n) Q t.
Proof. intros. apply wp_modify. fold (pending t). by rewrite u64_small by lia. Qed.

Lemma wp_match_word word count c (Q : bool -> T -> Prop) E t :
  0 <= count < zlen word -> (forall b, (b = true -> fold_case c ∈ word) -> Q b t) ->
  wp (match_word word count c) Q E t.
Proof.
  intros Hc HQ. apply wp_bind, wp_assert; [apply Z.leb_le; lia|].
  destruct (znth_is_Some word count Hc) as [w Hw].
  apply wp_bind. eapply wp_of_option; [exact Hw|]. apply wp_ret, HQ.
  intros <-%Z.eqb_eq. rewrite znth_nonneg in Hw by lia. by eapply list_elem_of_lookup_2.
Qed.

Lemma text_at t i c : common t -> znth (avail t) i = Some c -> 0 <= c < 255.
Proof.
  intros [] Hc. eapply (Forall_znth text_byte); [|exact Hc]. by apply is_avail_text.
Qed.

(** A character that folds to a letter is one octet long. *)
Lemma fold_ascii c : 0 <= c < 255 -> fold_case c <= 90 -> char_len c = 1.
Proof.
  intros Hc Hf. apply char_len_ascii. split; [lia|].
  pose proof (byte_forallb (fun c => (90 <? fold_case c) || (c <? 128)) ltac:(by vm_compute) c
    ltac:(unfold is_byte; lia)) as H. cbn beta in H.
  apply orb_prop in H as [H|H]; zbool; lia.
Qed.

(** ** Emitting and going back to the data state *)

(** The state after an emission, when the state is the data state. *)
Lemma emitted_data tok t e t' m0 :
  starts tok = false ->
  emitted tok t e t' -> tk_state t = STATE_DATA -> complete t = false ->
  32 * (total t - pending t) + 3 < m0 -> step_post m0 e t'.
Proof.
  intros Htok He Hs Hcm Hm _. pose proof (emitted_common _ _ _ _ Htok He) as Hc.
  destruct He. left. split.
  - split; [done|]. unfold state_inv. rewrite em_state, Hs. split; [|done].
    unfold complete in *. by rewrite em_context.
  - intros _. unfold measure, counted, rank. rewrite em_state, Hs, em_total.
    unfold pending at 2. rewrite em_context. tk_cbn. lia.
Qed.

Lemma tag_emitted_data t e t' m0 :
  tag_emitted t e t' -> tk_state t = STATE_DATA -> complete t = false ->
  32 * (total t - pending t) + 3 < m0 -> step_post m0 e t'.
Proof.
  intros (attrs & tok & t1 & m & n & l & _ & _ & [] & Hc & ->) Hs Hcm Hm _. left. split.
  - split; [exact Hc|]. unfold state_inv. tk_cbn. rewrite em_state, Hs. split; [|done].
    unfold complete in *. tk_cbn. by rewrite em_context.
  - intros _. unfold measure, counted, rank. tk_cbn. rewrite em_state, Hs, em_context. tk_cbn. lia.
Qed.

Lemma safe_emit_tag_in_data m0 t :
  common t -> tag_layout t -> complete t = false ->
  32 * (total t - pending t) + 3 < m0 ->
  safe m0 emit_tag_in_data (step_post m0) t.
Proof.
  intros Hc Ht Hcm Hm. apply wp_bind, wp_modify, wp_call, wp_emit_current_tag.
  - eapply common_keep; [exact Hc|try done; apply Hc..].
  - destruct Ht; by split.
  - intros e t' He. by eapply tag_emitted_data.
Qed.

Lemma safe_emit_tag m0 t :
  common t -> tag_layout t -> complete t = false -> tk_state t = STATE_DATA ->
  32 * (total t - pending t) + 3 < m0 ->
  safe m0 (call emit_current_tag) (step_post m0) t.
Proof.
  intros. apply wp_call, wp_emit_current_tag; [done|done|].
  intros e t' He. by eapply tag_emitted_data.
Qed.

Lemma safe_emit_comment m0 t :
  common t -> complete t = false -> tk_state t = STATE_DATA ->
  32 * (total t - pending t) + 3 < m0 ->
  safe m0 (call emit_current_comment) (step_post m0) t.
Proof.
  intros. apply wp_call, wp_emit_comment; [done|]. intros e t' He. by eapply emitted_data; [| exact He|..].
Qed.

Lemma safe_emit_doctype_in_data m0 force t :
  common t -> doctype_layout t -> complete t = false ->
  32 * (total t - pending t) + 3 < m0 ->
  safe m0 (emit_doctype_in_data force) (step_post m0) t.
Proof.
  intros Hc Ht Hcm Hm. apply wp_bind, wp_modify, wp_call, wp_emit_doctype.
  - eapply common_keep; [exact Hc|try done; apply Hc..].
  - destruct Ht; by split.
  - intros e t' He. by eapply emitted_data; [| exact He|..].
Qed.

(** ** The last attribute *)

Lemma tag_layout_last t l a :
  tag_layout t -> ct_attributes (cx_current_tag (tk_context t)) = l ++ [a] ->
  Forall attr_ok l /\ attr_ok a /\ 0 <= attrs_size l /\
  ct_name (cx_current_tag (tk_context t)) + attrs_size l + ca_name a + ca_value a
    <= zlen (collected t).
Proof.
  intros [Hn Ha Hf _] Hl. rewrite Hl in Ha, Hf. apply Forall_app in Ha as [Ha Hb].
  inversion Hb; subst. rewrite attrs_size_app in Hf. cbn [attrs_size foldr] in Hf.
  unfold attr_size in Hf. split_and!; try done; [by apply attrs_size_nonneg|lia].
Qed.

Lemma tag_layout_name t :
  tag_layout t -> 0 <= ct_name (cx_current_tag (tk_context t)) <= zlen (collected t).
Proof. intros [Hn Ha Hf _]. pose proof (attrs_size_nonneg _ Ha). lia. Qed.

Lemma doctype_layout_name t :
  doctype_layout t ->
  0 <= cd_name (cx_current_doctype (tk_context t)) <= zlen (collected t) /\
  0 <= cd_public_id (cx_current_doctype (tk_context t)) <= zlen (collected t) /\
  0 <= cd_system_id (cx_current_doctype (tk_context t)) <= zlen (collected t).
Proof. intros []. lia. Qed.

Lemma tag_layout_set t t' l a :
  tag_layout t ->
  ct_name (cx_current_tag (tk_context t')) = ct_name (cx_current_tag (tk_context t)) ->
  cx_current_tag_type (tk_context t') = cx_current_tag_type (tk_context t) ->
  tk_content_model t' = tk_content_model t ->
  ct_attributes (cx_current_tag (tk_context t')) = l ++ [a] ->
  Forall attr_ok l -> 0 <= ca_name a -> 0 <= ca_value a ->
  ct_name (cx_current_tag (tk_context t)) + attrs_size l + ca_name a + ca_value a
    <= zlen (collected t') ->
  tag_layout t'.
Proof.
  intros [] En Et Em Ea Hl ? ? ?. split; rewrite ?En, ?Et, ?Em, ?Ea; try done.
  - apply Forall_app; split; [done|]. by repeat constructor.
  - rewrite attrs_size_app. cbn [attrs_size foldr]. unfold attr_size. lia.
Qed.

Lemma tag_layout_push t t' a :
  tag_layout t ->
  ct_name (cx_current_tag (tk_context t')) = ct_name (cx_current_tag (tk_context t)) ->
  cx_current_tag_type (tk_context t') = cx_current_tag_type (tk_context t) ->
  tk_content_model t' = tk_content_model t ->
  ct_attributes (cx_current_tag (tk_context t')) =
    ct_attributes (cx_current_tag (tk_context t)) ++ [a] ->
  0 <= ca_name a -> 0 <= ca_value a ->
  zlen (collected t) + ca_name a + ca_value a <= zlen (collected t') ->
  tag_layout t'.
Proof.
  intros Ht En Et Em Ea ? ? ?. eapply (tag_layout_set t); eauto; [apply Ht|].
  pose proof (tl_fits _ Ht). lia.
Qed.

Lemma tag_layout_keep t t' :
  tag_layout t -> cx_current_tag (tk_context t') = cx_current_tag (tk_context t) ->
  cx_current_tag_type (tk_context t') = cx_current_tag_type (tk_context t) ->
  tk_content_model t' = tk_content_model t ->
  zlen (collected t) <= zlen (collected t') -> tag_layout t'.
Proof. intros [] Ea Et Em ?. split; rewrite ?Ea, ?Et, ?Em; try done; lia. Qed.
End Rules.

Lemma last_attribute_snoc c l a :
  ct_attributes (cx_current_tag c) = l ++ [a] -> last_attribute c = Some a.
Proof. unfold last_attribute; intros ->. by rewrite List.rev_app_distr. Qed.

Lemma char_len_lower c : is_lower c = true -> char_len c = 1.
Proof. unfold is_lower; intros; zbool. apply char_len_ascii; lia. Qed.

Lemma text_fffd : Forall text_byte u_fffd.
Proof. repeat constructor; lia. Qed.
Lemma text_lf : Forall text_byte lf.
Proof. repeat constructor; lia. Qed.

Lemma upd_last_snoc_eq f l m a : l = m ++ [a] -> upd_last_attribute f l = m ++ [f a].
Proof. intros ->; apply upd_last_snoc. Qed.

(** ** Automation *)

(** Bring the invariant of the state [Hst] into the context, unfolded. *)
Ltac tk_open Hi Hst :=
  let Hc := fresh "Hc" in let Hs := fresh "Hs" in let Hz := fresh "Hz" in
  pose proof (inv_common _ _ Hi) as Hc; pose proof (inv_state _ _ Hi) as Hs;
  pose proof (common_sizes _ Hc) as Hz;
  unfold measure, counted, rank, state_inv in *; rewrite ?Hst in *; destruct_and?;
  repeat match goal with
  | H : exists _, _ |- _ => destruct H
  | H : has_attribute _ |- _ => destruct H
  | H : last_is _ _ |- _ => destruct H
  | H : _ /\ _ |- _ => destruct H
  end;
  repeat match goal with
  | H : tag_layout ?t, E : ct_attributes (cx_current_tag (tk_context ?t)) = ?l ++ [?a] |- _ =>
      lazymatch goal with
      | _ : 0 <= attrs_size l |- _ => fail
      | _ => let X := fresh in pose proof (tag_layout_last t l a H E) as X;
             destruct X as (? & [? ?] & ? & ?)
      end
  end;
  repeat match goal with
  | H : tag_layout ?t |- _ =>
      lazymatch goal with
      | _ : 0 <= ct_name (cx_current_tag (tk_context t)) <= _ |- _ => fail
      | _ => pose proof (tag_layout_name t H)
      end
  | H : doctype_layout ?t |- _ =>
      lazymatch goal with
      | _ : 0 <= cd_name (cx_current_doctype (tk_context t)) <= _ /\ _ |- _ => fail
      | _ => pose proof (doctype_layout_name t H)
      end
  end.

(** Facts about the character, from the tests it has passed. *)
Ltac tk_chars :=
  repeat match goal with
  | H : is_upper ?c = true |- _ =>
      let H1 := fresh in let H2 := fresh in
      destruct (lower_upper c H) as [H1 H2]; clear H
  | H : is_lower ?c = true |- _ => pose proof (char_len_lower c H); clear H
  | H : (?c =? ?n) = true |- _ =>
      apply Z.eqb_eq in H;
      try (assert (char_len c = 1) by (apply char_len_ascii; lia))
  | H : (cx_match_doctype_count _ =? _) = false |- _ => apply Z.eqb_neq in H
  | H : (_ =? _) = false |- _ => clear H
  | H : is_lower _ = false |- _ => clear H
  | H : (_ && false)%bool = true |- _ => rewrite andb_false_r in H; discriminate
  | H : (_ && false)%bool = false |- _ => clear H
  | H : (_ && true)%bool = _ |- _ => rewrite andb_true_r in H
  | H : is_space _ = _ |- _ => clear H
  | H : is_upper _ = false |- _ => clear H
  | H : in_rcdata_or_cdata _ = _ |- _ => rewrite in_rcdata_raw in H; tk_at H
  | H : model_is ?t HUBBUB_CONTENT_MODEL_PCDATA = false,
    Hr : raw_model (tk_content_model _) = false,
    Hp : tk_content_model _ <> HUBBUB_CONTENT_MODEL_PLAINTEXT |- _ =>
      rewrite (not_pcdata t Hr Hp) in H; discriminate
  end.

Ltac tk_arith := unfold avail, total, pending, collected, complete in *; tk_goal; lia.

(** The pointer just peeked, a literal or a folded letter. *)
Ltac tk_readable :=
  match goal with
  | |- readable u_fffd 3 => apply (readable_literal u_fffd text_fffd)
  | |- readable ?d (zlen ?d) =>
      apply readable_literal; repeat (constructor; [unfold text_byte; lia|]); constructor
  | |- readable lf 1 => apply (readable_literal lf text_lf)
  | H : Forall text_byte [?x], E : char_len ?c = 1 |- readable [?x] (char_len ?c) =>
      rewrite E; apply (readable_literal [x] H)
  | H : points_to ?t ?off ?ptr |- readable ?ptr (char_len ?c) =>
      eapply (read_char t off); [assumption|tk_arith|exact H|tk_arith]
  | _ => assumption
  end.

Ltac tk_common :=
  first [assumption
  | match goal with H : common ?t |- common _ =>
      eapply (common_keep t); [exact H| | | |reflexivity|reflexivity
        |reflexivity|reflexivity|tk_arith];
      tk_goal; (assumption || apply H)
    end].

Ltac tk_layout :=
  match goal with
  | H : tag_layout ?t |- tag_layout _ =>
      first
      [ solve [eapply (tag_layout_keep t);
          [exact H|reflexivity|reflexivity|reflexivity|tk_arith]]
      | match goal with E : ct_attributes (cx_current_tag (tk_context t)) = ?l ++ [?a] |- _ =>
          solve [eapply (tag_layout_set t _ l);
            [exact H|reflexivity|reflexivity|reflexivity|tk_goal; rewrite E; apply upd_last_snoc
            |assumption|tk_arith|tk_arith|tk_arith]]
        end
      | solve [eapply (tag_layout_push t);
          [exact H|reflexivity|reflexivity|reflexivity|reflexivity|tk_arith|tk_arith|tk_arith]]
      | solve [destruct H; split; tk_goal; auto; tk_arith] ]
  | |- tag_layout _ =>
      split; tk_goal; [lia|by constructor|cbn [attrs_size foldr]; tk_arith|auto]
  | H : doctype_layout ?t |- doctype_layout _ =>
      destruct H; split; tk_arith
  | |- doctype_layout _ => split; tk_arith
  end.

Ltac tk_last :=
  eexists; tk_goal;
  first [eassumption | reflexivity | apply upd_last_snoc_eq; eassumption].

Ltac tk_amp :=
  first [assumption
  | match goal with
    | H : znth (avail ?t) (pending ?t) = Some ?c, E : ?c = 38 |- _ => rewrite E in H; exact H
    end].

Ltac tk_state_eq :=
  try match goal with E : tk_state ?t = _ |- context [tk_state ?t] => rewrite E end.

Ltac tk_prev := unfold value_state; tk_goal; tk_state_eq; auto.

Ltac tk_u32 := tk_goal; repeat (rewrite u32_small by tk_arith).

(** The matching of an end tag's name starts. *)
Ltac tk_matching :=
  let Hr := fresh "Hr" in
  constructor; intros Hr; tk_at Hr;
  match goal with
  | H : common ?t |- _ =>
      let X := fresh in pose proof (raw_facts t H Hr) as X; destruct X as (_ & _ & _ & X & _);
      split; [reflexivity|]; tk_arith
  end.

(** A conjunct of a state's invariant. *)
Ltac tk_fact :=
  match goal with
  | |- _ = false => assumption
  | |- _ = [] => first [reflexivity|assumption]
  | |- tag_layout _ => tk_layout
  | |- doctype_layout _ => tk_layout
  | |- has_attribute _ => eexists; tk_last
  | |- exists _, last_is _ _ /\ _ => eexists; split; [tk_last|first [tk_arith|left; tk_arith|right; tk_amp]]
  | |- at_amp _ => tk_amp
  | |- matching _ => tk_matching
  | |- _ <> HUBBUB_CONTENT_MODEL_PLAINTEXT => assumption
  | |- attr_ref _ => split; [tk_layout|split; [eexists; tk_last|]]; tk_prev
  | |- value_state _ => tk_prev
  | |- ref_done _ =>
      let X := fresh "X" in intros X;
      match goal with E : complete _ = false |- _ =>
        exfalso; exact (eq_true_false_abs _ X E)
      end
  | _ => first [tk_arith|tk_u32; tk_arith]
  end.

Ltac tk_inv :=
  split; [tk_common|unfold state_inv; tk_goal; tk_state_eq; repeat (split; [tk_fact|]); try tk_fact].

Ltac tk_measure :=
  unfold measure, counted, rank, complete in *; tk_goal; tk_state_eq;
  repeat match goal with E : me_complete _ = _ |- context [me_complete _] => rewrite E end;
  first [tk_arith|tk_u32; tk_arith].

Ltac tk_exit :=
  first [ apply step_post_nomem | apply step_post_odd; assumption
        | apply step_post_wait; tk_inv
        | apply step_post_intro; [tk_inv|tk_measure] ].

Ltac tk_advanced :=
  let s := fresh "s" in let Ha := fresh "Ha" in let Hl := fresh "Hl" in
  let Ht := fresh "Ht" in
  intros s ? Ha Hl Ht; tk_at Ha; tk_at Hl; tk_at Ht.

Ltac tk_collected :=
  let b := fresh "b" in let Hg := fresh "Hg" in
  intros b (? & ? & Hg); tk_at Hg.

Ltac tk_old :=
  tk_goal; first [erewrite last_attribute_snoc by eassumption; reflexivity | reflexivity].

(** What the stream may have gained. *)
Ltac tk_extend H :=
  let s := fresh "s" in let m := fresh "m" in let Hm := fresh "Hm" in
  let Hl := fresh "Hl" in
  let Ht := fresh "Ht" in
  destruct H as (s & -> & ? & Ht & m & Hm);
  pose proof (f_equal zlen Hm) as Hl; rewrite zlen_app in Hl;
  pose proof (zlen_nonneg m);
  tk_at Ht; tk_at Hl.

Ltac tk_peek_at :=
  rewrite ?u64_small by tk_arith;
  apply wp_peek; [tk_common|tk_arith| | | |];
  [ let t2 := fresh "t2" in let H := fresh "Hx" in
    let Hn := fresh "Hn" in let c2 := fresh "c" in
    intros t2 c2 ? H ? ? Hn; tk_extend H; tk_at Hn; pose proof (char_len_range c2)
  | let t2 := fresh "t2" in let H := fresh "Hx" in
    intros t2 H ? ?; tk_extend H
  | let t2 := fresh "t2" in let H := fresh "Hx" in
    intros t2 H; tk_extend H
  | let t2 := fresh "t2" in let e := fresh "e" in let H := fresh "Hodd" in
    intros t2 e H _; pose proof H as (? & ? & ?); destruct e; try congruence ].

Ltac tk_deref :=
  match goal with
  | H : points_to ?t ?off ?ptr, N : znth (avail ?t) ?off = Some ?c |- wp (deref ?ptr) _ _ _ =>
      apply (wp_deref t off ptr c); [exact H|tk_arith|exact N|]
  end.

(** One rule. *)
Ltac tk_step :=
  cbv beta iota;
  lazymatch goal with
  | |- safe _ _ _ _ _ => unfold safe
  | |- wp (if ?b then _ else _) _ _ _ => destruct b eqn:?; tk_chars
  | |- wp (ret _) _ _ _ => apply wp_ret
  | |- wp (gets _) _ _ _ => apply wp_gets; unfold id
  | |- wp get_state _ _ _ =>
      apply wp_gets; tk_state_eq; cbn [comment_closes comment_dash comment_pending_dashes]
  | |- wp (append_literal _) _ _ _ => unfold append_literal
  | |- wp peek_pending _ _ _ => unfold peek_pending
  | |- wp (reset_comment_goto _) _ _ _ => unfold reset_comment_goto
  | |- wp bogus_doctype_quirks _ _ _ => unfold bogus_doctype_quirks
  | |- wp (start_public_id _) _ _ _ => unfold start_public_id
  | |- wp (start_system_id _) _ _ _ => unfold start_system_id
  | |- wp get_pending _ _ _ => apply wp_gets
  | |- wp get_me _ _ _ => apply wp_gets
  | |- wp (set_state _) _ _ _ => apply wp_modify
  | |- wp (modify _) _ _ _ => apply wp_modify
  | |- wp (upd_context _) _ _ _ => apply wp_modify
  | |- wp (upd_tag _) _ _ _ => apply wp_modify
  | |- wp (upd_me _) _ _ _ => apply wp_modify
  | |- wp (upd_doctype _) _ _ _ => apply wp_modify
  | |- wp (set_pending _) _ _ _ => apply wp_modify
  | |- wp (add_pending _) _ _ _ => apply safe_add_pending; [tk_arith|tk_arith|tk_arith|]
  | |- wp (consume _) _ _ _ => unfold consume
  | |- wp (consume_goto _ _) _ _ _ => unfold consume_goto
  | |- wp (goto _) _ _ _ => unfold goto
  | |- wp (match (if ?b then _ else _) with _ => _ end) _ _ _ => destruct b eqn:?; tk_chars
  | |- wp (start_attribute _ _ _ _) _ _ _ => unfold start_attribute
  | |- wp (start_tag_name _ _ _) _ _ _ => unfold start_tag_name
  | |- wp (advance _) _ _ _ => apply safe_advance; [tk_common|tk_arith|tk_advanced]
  | |- wp emit_tag_in_data _ _ _ =>
      apply safe_emit_tag_in_data; [tk_common|tk_layout|assumption|tk_arith]
  | |- wp (emit_doctype_in_data _) _ _ _ =>
      apply safe_emit_doctype_in_data; [tk_common|tk_layout|assumption|tk_arith]
  | |- wp (call emit_current_comment) _ _ _ =>
      apply safe_emit_comment; [tk_common|assumption|reflexivity|tk_arith]
  | |- wp (call emit_current_tag) _ _ _ =>
      apply safe_emit_tag; [tk_common|tk_layout|assumption|reflexivity|tk_arith]
  | |- wp (append_or_return _ _) _ _ _ => apply safe_append; [tk_common|tk_readable|tk_collected]
  | |- wp (START_BUF _ _ _) _ _ _ => apply safe_start_buf; [tk_common|tk_readable|tk_collected]
  | |- wp (COLLECT_MS _ _ _) _ _ _ =>
      eapply safe_collect_ms; [tk_common|tk_readable|tk_old|tk_arith|tk_collected]
  | |- wp (COLLECT _ _ _) _ _ _ =>
      eapply safe_collect; [tk_common|tk_readable|tk_old|tk_arith|tk_collected]
  | |- wp (peek _) _ _ _ => tk_peek_at
  | |- wp (deref _) _ _ _ => tk_deref
  | |- wp (get_len _) _ _ _ => unfold get_len
  | |- wp (of_option _) _ _ _ => eapply wp_of_option; [tk_old|]
  | |- wp (assert _) _ _ _ =>
      apply wp_assert; [first [apply Z.leb_le|apply Z.ltb_lt|apply Z.eqb_eq]; tk_arith|]
  | |- wp (match_word _ _ _) _ _ _ =>
      apply wp_match_word; [tk_goal; lia|intros [|] ?; cbn [negb]]
  | |- wp (return_early _) _ _ _ => apply wp_return_early
  | |- wp (bind _ _) _ _ _ => apply wp_bind
  | |- step_post _ _ _ _ => tk_exit
  end.

Ltac tk_run := repeat tk_step.

(** Start with the peek at the pending offset: one goal for a character, one for
    the end of the input. *)
Ltac tk_peek Hst :=
  apply wp_peek_char; [assumption|assumption| |];
  [ let t1 := fresh "t1" in let c := fresh "c" in let ptr := fresh "ptr" in
    let Hx := fresh "Hx" in let Hi1 := fresh "Hi1" in let Hst1 := fresh "Hst1" in
    intros t1 c ptr Hx Hi1 ? ? ? ? ?;
    pose proof (proj1 (extends_fields _ _ Hx)) as Hst1; rewrite Hst in Hst1;
    clear Hst Hx; tk_open Hi1 Hst1
  | let t1 := fresh "t1" in
    let Hx := fresh "Hx" in let Hi1 := fresh "Hi1" in let Hst1 := fresh "Hst1" in
    intros t1 Hx Hi1 ? ? ?;
    pose proof (proj1 (extends_fields _ _ Hx)) as Hst1; rewrite Hst in Hst1;
    clear Hst Hx; tk_open Hi1 Hst1 ].
