(* ===== verification/TokeniserSafeData.v ===== *)
(** * TokeniserSafeData: the data state keeps the invariant. *)
From stdpp Require Import relations.
From S2P Require Import Prelude Errors Utf8 Interfaces Entities Tokens TokeniserState.
From S2P Require Import TokeniserMonad TokeniserEntities TokeniserTags TokeniserMarkup.
From S2P Require Import TokeniserWp TokeniserEmit TokeniserInv TokeniserRules.

Section Safe.
Context {cov : Coverage}.
Context {St B P : Type} `{!InputStreamOps St} `{!InputStream St}
  `{!ByteBufferOps B} `{!ByteBuffer B}.
Context (live : Z -> Prop).
Local Abbreviation T := (hubbub_tokeniser St B P).
Local Abbreviation inv := (inv live).
Local Abbreviation step_post := (step_post live).
Implicit Types t : T.

(** Nothing is pending any more; the text that was has been consumed. *)
Record flushed (t t' : T) : Prop := {
  fl_common : common t';
  fl_model : tk_content_model t' = tk_content_model t \/
             tk_content_model t' = HUBBUB_CONTENT_MODEL_PCDATA;
  fl_state : tk_state t' = tk_state t;
  fl_context : tk_context t' = set_cx_pending 0 (tk_context t);
  fl_collected : collected t' = [];
  fl_avail : avail t' = zdrop (pending t) (avail t);
  fl_total : total t' = total t - pending t
}.

Lemma emitted_flushed tok t e t' :
  starts tok = false -> emitted tok t e t' -> flushed t t'.
Proof.
  intros Hs He. pose proof (emitted_common _ _ _ _ Hs He). destruct He as [_ Hm]. split; try done.
  destruct Hm as [?|Hm]; [by left|right]. unfold calm_model in Hm.
  destruct (tk_content_model t'), tok; rewrite ?andb_false_r in Hm; done.
Qed.

Lemma flushed_refl t : common t -> collected t = [] -> pending t = 0 -> flushed t t.
Proof.
  intros Hc Hb Hp. split; try done.
  - by left.
  - by rewrite set_cx_pending_0.
  - by rewrite Hp, zdrop_le0.
  - lia.
Qed.

Lemma flushed_facts t t' :
  common t -> flushed t t' ->
  pending t' = 0 /\ complete t' = complete t /\
  zlen (avail t') = zlen (avail t) - pending t /\
  (forall c, znth (avail t) (pending t) = Some c -> znth (avail t') 0 = Some c).
Proof.
  intros Hc [? ? ? Ex _ Ea _]. pose proof (cm_pending _ Hc).
  split_and!.
  - unfold pending. by rewrite Ex.
  - unfold complete. by rewrite Ex.
  - rewrite Ea, zlen_zdrop. lia.
  - intros c Hn. by rewrite Ea, znth_zdrop, Z.add_0_r by lia.
Qed.

Lemma wp_emit_pending (Q : unit -> T -> Prop) E t :
  common t -> collected t = [] -> (forall t', flushed t t' -> Q tt t') ->
  wp emit_pending_if_any Q E t.
Proof.
  intros Hc Hb HQ. pose proof (cm_pending _ Hc). apply wp_bind, wp_gets. fold (pending t).
  destruct (Z.ltb_spec 0 (pending t)).
  - apply wp_bind, wp_call, wp_emit_current_chars; [done|done|].
    intros e t' He. apply wp_ret, HQ. by eapply emitted_flushed; [|exact He].
  - apply wp_ret, HQ, flushed_refl; [done|done|lia].
Qed.

Lemma wp_emit_one s (Q : hubbub_error -> T -> Prop) E t :
  common t -> Forall text_byte s -> (forall e t', flushed t t' -> Q e t') ->
  wp (emit_character_token s) Q E t.
Proof.
  intros Hc Hs HQ. apply wp_emit_character; [done|done|].
  intros e t' He. by eapply HQ, emitted_flushed; [|exact He].
Qed.

(** Skip the octet at the start of the text. *)
Lemma wp_skip (Q : unit -> T -> Prop) E t :
  common t -> pending t = 0 -> 1 <= zlen (avail t) ->
  (forall t', common t' -> tk_state t' = tk_state t -> tk_context t' = tk_context t ->
     collected t' = collected t -> total t' = total t - 1 -> Q tt t') ->
  wp (advance 1) Q E t.
Proof.
  intros Hc Hp Ha HQ. apply wp_modify.
  destruct (is_advance_ok (tk_input t) 1) as (Hw & Hz & Ht & _); [apply Hc|done|].
  apply HQ; try done. eapply common_keep; [exact Hc|done|apply Hc|apply Hc|done..|].
  change (0 <= pending t <= zlen (is_avail (is_advance (tk_input t) 1))).
  pose proof (zlen_nonneg (is_avail (is_advance (tk_input t) 1))). lia.
Qed.

(** ** The loop *)

Definition data_state (t : T) : Prop :=
  common t /\ complete t = false /\ collected t = [] /\ tk_state t = STATE_DATA.

(** How the loop can end, when at most [n] octets were left. *)
Definition data_post (n : Z) (error : parserutils_error) (t : T) : Prop :=
  match error with
  | PARSERUTILS_OK =>
      common t /\ complete t = false /\ collected t = [] /\
      (tk_state t = STATE_CHARACTER_REFERENCE_DATA /\ at_amp t /\ total t - pending t <= n \/
       tk_state t = STATE_TAG_OPEN /\ pending t = 1 /\ total t <= n /\
       tk_content_model t <> HUBBUB_CONTENT_MODEL_PLAINTEXT)
  | PARSERUTILS_EOF => data_state t /\ zlen (avail t) = pending t
  | PARSERUTILS_NEEDDATA => data_state t
  | _ => tk_state t = STATE_DATA
  end.

(** How a turn of it can end.  The last case is the start of escaped text. *)
Definition turn_post (n : Z) (r : option parserutils_error) (t : T) : Prop :=
  match r with
  | Some error => data_post n error t
  | None => data_state t /\ total t - pending t < n \/ pcdata_only = false /\ tk_escape_flag t = true
  end.

Lemma data_extends t t1 : data_state t -> extends t t1 -> data_state t1.
Proof.
  intros (Hc & ? & ? & ?) Hx. split; [by eapply extends_common|].
  by destruct Hx as (s & -> & _).
Qed.

Lemma data_post_odd n e t : odd_error e -> tk_state t = STATE_DATA -> data_post n e t.
Proof. intros (? & ? & ?); destruct e; done. Qed.

Lemma data_post_mono n n' e t : n <= n' -> data_post n e t -> data_post n' e t.
Proof.
  intros Hn. destruct e; cbn; try done.
  intros (? & ? & ? & [(? & ? & ?)|(? & ? & ? & ?)]); split_and!; try done; [left|right];
    split_and!; done || lia.
Qed.

(** An octet that is emitted as [emit] says, then skipped. *)
Lemma turn_skip {A} E n t (emit : comp T A) :
  data_state t -> total t - pending t <= n -> pending t < zlen (avail t) ->
  (forall Q t', common t' -> (forall a t2, flushed t' t2 -> Q a t2) ->
     collected t' = [] -> pending t' = 0 -> wp emit Q E t') ->
  wp (do! emit_pending_if_any in do! emit in do! advance 1 in ret None) (turn_post n) E t.
Proof.
  intros (Hc & Hcm & Hb & Hs) Hn Hlt He.
  apply wp_bind, wp_emit_pending; [done|done|]. intros t1 Hf1.
  destruct (flushed_facts _ _ Hc Hf1) as (Hp1 & Hc1 & Hz1 & _).
  pose proof Hf1 as [? _ ? ? ? _ ?]. apply wp_bind, He; [done| |done|done]. intros a t2 Hf2.
  destruct (flushed_facts t1 t2 ltac:(done) Hf2) as (Hp2 & Hc2 & Hz2 & _).
  pose proof Hf2 as [? _ ? ? ? _ ?].
  apply wp_bind, wp_skip; [done|done|lia|]. intros t3 Hc3 Hs3 Hx3 Hb3 Ht3.
  assert (pending t3 = 0) by (unfold pending in *; by rewrite Hx3).
  apply wp_ret. left. split; [|lia].
  split_and!; try congruence. unfold complete in *. by rewrite Hx3, Hc2, Hc1.
Qed.

Lemma turn_consume E n t c :
  data_state t -> total t - pending t <= n -> pending t + char_len c <= zlen (avail t) ->
  wp (do! add_pending (char_len c) in ret None) (turn_post n) E t.
Proof.
  intros (Hc & Hcm & Hb & Hs) Hn Hle. pose proof (char_len_range c).
  pose proof (common_sizes _ Hc). apply wp_bind, wp_modify, wp_ret. fold (pending t).
  rewrite u64_small by lia. left.
  split; [|unfold pending at 1; tk_goal; unfold total, pending in *; lia].
  split_and!; try done. tk_common.
Qed.

Lemma turn_nul E n t :
  data_state t -> total t - pending t <= n -> pending t < zlen (avail t) ->
  wp (do! emit_pending_if_any in do! emit_character_token u_fffd in
      do! advance 1 in ret None) (turn_post n) E t.
Proof.
  intros. apply turn_skip; [done..|]. intros Q t' Hc HQ _ _.
  apply wp_emit_one; [done|apply text_fffd|done].
Qed.

Lemma turn_lf E n t (b : bool) :
  data_state t -> total t - pending t <= n -> pending t < zlen (avail t) ->
  wp (do! emit_pending_if_any in
      do! (if b then let! _ := emit_character_token lf in ret tt else ret tt) in
      do! advance 1 in ret None) (turn_post n) E t.
Proof.
  intros. apply turn_skip; [done..|]. intros Q t' Hc HQ Hb Hp. destruct b.
  - apply wp_bind, wp_emit_one; [done|apply text_lf|]. intros; by apply wp_ret, HQ.
  - apply wp_ret, HQ. by apply flushed_refl.
Qed.

Lemma turn_cr E n t :
  data_state t -> total t - pending t <= n -> pending t + 1 <= zlen (avail t) ->
  wp (let! r := peek (u64 (pending t + 1)) in
      match r with
      | PeekErr PARSERUTILS_EOF =>
          do! emit_pending_if_any in do! emit_character_token lf in
          do! advance 1 in ret None
      | PeekErr error => ret (Some error)
      | PeekOk cptr _ =>
          let! next := deref cptr in
          do! emit_pending_if_any in
          do! (if negb (next =? 10) then let! _ := emit_character_token lf in ret tt
               else ret tt) in
          do! advance 1 in ret None
      end) (turn_post n) E t.
Proof.
  intros Hd Hn Hlt. pose proof (common_sizes _ (proj1 Hd)). apply wp_bind.
  rewrite u64_small by lia.
  assert (Hx' : forall t1, extends t t1 -> data_state t1 /\ total t1 - pending t1 <= n /\
            pending t1 < zlen (avail t1)).
  { intros t1 Hx. split; [by eapply data_extends|]. pose proof (extends_fields _ _ Hx).
    pose proof (extends_avail _ _ Hx).
    assert (pending t1 = pending t) by (by destruct Hx as (s & -> & _)). lia. }
  apply wp_peek; [apply Hd|lia|..].
  - intros t1 c ptr Hx Hc1 Hp Hle. destruct (Hx' _ Hx) as (? & ? & ?).
    apply wp_bind. eapply wp_deref; [exact Hp|lia|exact Hc1|]. by apply turn_lf.
  - intros t1 Hx _ _. destruct (Hx' _ Hx) as (? & ? & ?).
    apply turn_skip; [done..|]. intros Q t' Hc HQ _ _.
    apply wp_emit_one; [done|apply text_lf|done].
  - intros t1 Hx. apply wp_ret. by apply Hx'.
  - intros t1 e Ho Hs. pose proof Ho as (? & ? & ?).
    destruct e; try done; apply wp_ret, data_post_odd; try done; rewrite Hs; apply Hd.
Qed.

Lemma turn_lt E n t :
  data_state t -> total t - pending t <= n -> pending t + 1 <= zlen (avail t) ->
  tk_content_model t <> HUBBUB_CONTENT_MODEL_PLAINTEXT ->
  wp (do! emit_pending_if_any in do! set_pending 1 in do! set_state STATE_TAG_OPEN in
      ret (Some PARSERUTILS_OK)) (turn_post n) E t.
Proof.
  intros (Hc & Hcm & Hb & Hs) Hn Hlt Hm. apply wp_bind, wp_emit_pending; [done|done|].
  intros t1 Hf1. destruct (flushed_facts _ _ Hc Hf1) as (Hp1 & Hc1 & Hz1 & _).
  pose proof Hf1 as [? Hm1 ? ? ? _ ?]. apply wp_bind, wp_modify, wp_bind, wp_modify, wp_ret.
  cbn [turn_post data_post]. split_and!; [tk_common|by rewrite <- Hcm, <- Hc1|done|].
  right. split_and!; [done|done|tk_arith|]. tk_goal. destruct Hm1 as [->| ->]; done.
Qed.

(** A dash in RCDATA or CDATA may start escaped text. *)
Lemma turn_dash E n t :
  data_state t -> total t - pending t <= n -> pending t + 1 <= zlen (avail t) -> 3 <= pending t ->
  raw_model (tk_content_model t) = true ->
  wp (let! r := peek (u64 (pending t - 3)) in
      match r with
      | PeekErr _ => stuck
      | PeekOk cptr _ =>
          do! (if strncmp_eq 4 cptr [60; 33; 45; 45]
               then modify (set_tk_escape_flag true) else ret tt) in
          do! add_pending 1 in
          ret None
      end) (turn_post n) E t.
Proof.
  intros Hd Hn Hlt Hp Hr. pose proof (proj1 Hd) as Hc. pose proof (common_sizes _ Hc).
  destruct (raw_facts _ Hc Hr) as (Hpo & _). rewrite u64_small by lia.
  destruct (znth_is_Some (avail t) (pending t - 3)) as [c3 Hc3]; [lia|].
  apply wp_bind. eapply wp_peek_avail; [done|exact Hc3|]. intros ptr _ _.
  apply wp_bind. destruct (strncmp_eq _ _ _).
  - apply wp_modify, wp_bind, wp_modify, wp_ret. by right.
  - apply wp_ret. by apply (turn_consume E n t 45).
Qed.

Lemma data_turn_safe E n t :
  data_state t -> total t - pending t <= n -> wp data_turn (turn_post n) E t.
Proof.
  intros Hd Hn. pose proof (common_sizes _ (proj1 Hd)) as Hz.
  unfold data_turn. apply wp_bind, wp_bind, wp_gets. fold (pending t).
  apply wp_peek; [apply Hd|lia|..].
  - intros t1 c ptr Hx Hc1 Hp Hl. pose proof (extends_fields _ _ Hx) as Hxf.
    assert (Hp1 : pending t1 = pending t) by (by destruct Hx as (s & -> & _)).
    pose proof (data_extends _ _ Hd Hx) as Hd1. rewrite <- Hp1 in *.
    assert (Hn1 : total t1 - pending t1 <= n) by lia. clear Hd Hx Hn Hxf Hz.
    pose proof (char_len_range c). pose proof (common_sizes _ (proj1 Hd1)).
    apply wp_bind. eapply wp_deref; [exact Hp|lia|exact Hc1|].
    apply wp_bind, wp_gets. unfold id. fold (pending t1). rewrite !in_rcdata_raw.
    destruct ((c =? 38) && _ && _) eqn:E1.
    { zbool. subst c. destruct Hd1 as (? & ? & ? & ?). apply wp_bind, wp_modify, wp_ret.
      cbn [turn_post data_post]. split_and!; [tk_common|done|done|].
      left. split_and!; [done|exact Hc1|tk_arith]. }
    destruct ((c =? 45) && _ && _ && _) eqn:E2.
    { zbool. subst c. change (char_len 45) with 1 in *. apply turn_dash; done || lia. }
    destruct ((c =? 60) && _) eqn:E3.
    { apply andb_prop in E3 as [->%Z.eqb_eq E3]. change (char_len 60) with 1 in *.
      apply turn_lt; [done..|]. intros Hm. unfold model_is in E3. by rewrite Hm in E3. }
    destruct ((c =? 62) && _ && _) eqn:E4.
    { zbool. destruct (raw_facts t1 (proj1 Hd1)) as (_ & ? & _); [done|congruence]. }
    destruct (Z.eqb_spec c 0) as [->|_]; [apply turn_nul; done || lia|].
    destruct (Z.eqb_spec c 13) as [->|_]; [by apply turn_cr|].
    by apply turn_consume.
  - intros t1 Hx _ Hl. apply wp_ret. split; [by eapply data_extends|].
    rewrite Hl. by destruct Hx as (s & -> & _).
  - intros t1 Hx. apply wp_ret. by eapply data_extends.
  - intros t1 e Ho Hs. apply wp_ret, data_post_odd; [done|]. rewrite Hs. apply Hd.
Qed.

(** The turns of the loop from [t] raise the flag for escaped text. *)
Definition turned (t t' : T) : Prop := tk_state t = STATE_DATA /\ data_turn t = Ok None t'.
Definition raises (t : T) : Prop :=
  pcdata_only = false /\ exists t', rtc turned t t' /\ tk_escape_flag t' = true.

Lemma data_loop_safe E fuel n t :
  n < Z.of_nat fuel -> data_state t -> total t - pending t <= n ->
  raises t \/ wp (data_loop fuel) (data_post n) E t.
Proof.
  revert n t; induction fuel as [|fuel IH]; intros n t Hf Hd Hn;
    pose proof (common_sizes _ (proj1 Hd)) as Hz; [lia|].
  pose proof (data_turn_safe (fun _ _ => False) n t Hd Hn) as Ht. unfold wp in Ht.
  destruct (data_turn t) as [[e|] t1| |] eqn:Et; try done.
  - right. cbn [data_loop]. apply wp_bind. unfold wp. by rewrite Et.
  - assert (Htu : turned t t1) by (split; [apply Hd|done]).
    destruct Ht as [[Hd1 Hn1]|[Hp He]].
    2:{ left. split; [done|]. exists t1. split; [by apply rtc_once|done]. }
    destruct (IH (n - 1) t1 ltac:(lia) Hd1 ltac:(lia)) as [(Hp & t2 & Hr & He)|Hw].
    + left. split; [done|]. exists t2. split; [by eapply rtc_l|done].
    + right. cbn [data_loop]. apply wp_bind. unfold wp. rewrite Et.
      eapply wp_mono; [exact Hw| |done]. intros e t2. apply data_post_mono; lia.
Qed.

(** ** The handler *)

(** The second half of handle_data, from what the loop ended with. *)
Definition data_tail (error : parserutils_error) : comp T hubbub_error :=
  let! t := gets id in
  do! (if negb (bool_decide (tk_state t = STATE_TAG_OPEN)) &&
          (negb (bool_decide (tk_state t = STATE_DATA)) ||
           bool_decide (error = PARSERUTILS_EOF)) &&
          (0 <? cx_pending (tk_context t)) then
         let! _ := call emit_current_chars in ret tt
       else ret tt) in
  if bool_decide (error = PARSERUTILS_EOF) then
    let! _ := call (hubbub_tokeniser_emit_token TokenEOF) in
    ret HUBBUB_NEEDDATA
  else ret (hubbub_error_from_parserutils_error error).

Lemma tail_ref n m0 t :
  common t -> complete t = false -> collected t = [] ->
  tk_state t = STATE_CHARACTER_REFERENCE_DATA -> at_amp t ->
  total t - pending t <= n -> 32 * n + 2 < m0 ->
  wp (data_tail PARSERUTILS_OK) (step_post m0) (step_post m0) t.
Proof.
  intros Hc Hcm Hb Hs Ha Hn Hm. apply wp_bind, wp_gets. unfold id. rewrite Hs. cbn [andb negb bool_decide].
  rewrite !bool_decide_eq_false_2 by done. cbn [negb andb orb].
  change (if 0 <? cx_pending (tk_context t) then
            let! _ := call emit_current_chars in ret tt else ret tt)
    with ((fun p : Z => if 0 <? p then let! _ := call (emit_current_chars (St:=St)(B:=B)(P:=P)) in ret tt else ret tt)
           (pending t)).
  apply wp_bind. change (wp emit_pending_if_any (fun _ => wp (ret HUBBUB_OK) (step_post m0) (step_post m0))
    (step_post m0) t).
  apply wp_emit_pending; [done|done|]. intros t1 Hf1.
  destruct (flushed_facts _ _ Hc Hf1) as (Hp1 & Hc1 & Hz1 & Hn1). destruct Hf1. apply wp_ret.
  apply step_post_intro.
  - split; [done|]. unfold state_inv. rewrite fl_state0, Hs. split_and!; try done.
    + unfold at_amp. rewrite Hp1. by apply Hn1.
    + intros Hd. rewrite Hc1, Hcm in Hd. done.
  - unfold measure, counted, rank. rewrite fl_state0, Hs, Hc1, Hcm. lia.
Qed.

Lemma tail_eof m0 t :
  data_state t -> wp (data_tail PARSERUTILS_EOF) (step_post m0) (step_post m0) t.
Proof.
  intros (Hc & Hcm & Hb & Hs). apply wp_bind, wp_gets. unfold id. rewrite Hs.
  rewrite (bool_decide_eq_false_2 (STATE_DATA = STATE_TAG_OPEN)) by done.
  rewrite !bool_decide_eq_true_2 by done. cbn [negb andb orb]. apply wp_bind.
  change (wp emit_pending_if_any
    (fun _ => wp (let! _ := call (hubbub_tokeniser_emit_token TokenEOF) in ret HUBBUB_NEEDDATA)
                (step_post m0) (step_post m0)) (step_post m0) t).
  apply wp_emit_pending; [done|done|]. intros t1 Hf1.
  destruct (flushed_facts _ _ Hc Hf1) as (_ & Hc1 & _ & _). destruct Hf1.
  apply wp_bind, wp_call, wp_emit; [done|done|]. intros e t2 [].
  apply wp_ret, step_post_wait. split; [exact em_common|]. unfold state_inv.
  rewrite em_state, fl_state0, Hs. split; [|done].
  unfold complete in *. rewrite em_context. cbn. congruence.
Qed.

(** All of the text has been given to the handler, and then the end. *)
Definition told_end (t : T) : Prop :=
  tk_state t = STATE_DATA /\ avail t = [] /\
  exists pw e, (e, tk_token_pw t) = answer (tk_token_handler t) pw TokenEOF.

Lemma tail_told E t :
  data_state t -> zlen (avail t) = pending t ->
  wp (data_tail PARSERUTILS_EOF) (fun _ => told_end) E t.
Proof.
  intros (Hc & Hcm & Hb & Hs) Hl. apply wp_bind, wp_gets. unfold id. rewrite Hs.
  rewrite (bool_decide_eq_false_2 (STATE_DATA = STATE_TAG_OPEN)) by done.
  rewrite !bool_decide_eq_true_2 by done. cbn [negb andb orb]. apply wp_bind.
  change (wp emit_pending_if_any
    (fun _ => wp (let! _ := call (hubbub_tokeniser_emit_token TokenEOF) in ret HUBBUB_NEEDDATA)
                (fun _ => told_end) E) E t).
  apply wp_emit_pending; [done|done|]. intros t1 [Hc1 _ Es _ _ Ea _].
  apply wp_bind, wp_call, wp_emit; [done|done|]. intros e t2 []. apply wp_ret.
  split; [by rewrite em_state, Es|]. split.
  - rewrite em_avail, Ea, zdrop_ge; [done|]. rewrite zdrop_ge by lia. apply cm_pending in Hc1.
    rewrite zlen_nil. lia.
  - rewrite em_handler. by exists (tk_token_pw t1), e.
Qed.

Lemma tail_value e t :
  e <> PARSERUTILS_EOF ->
  match data_tail e t with
  | Ok r _ => r = hubbub_error_from_parserutils_error e
  | Early _ _ => False
  | Stuck => True
  end.
Proof.
  intros He. unfold data_tail, bind at 1, gets, id. rewrite (bool_decide_eq_false_2 (e = _) He).
  unfold bind at 1. destruct (_ && _ && _); [|done].
  unfold bind, call. by destruct (emit_current_chars t).
Qed.

Lemma tail_data e m0 t :
  tk_state t = STATE_DATA -> e <> PARSERUTILS_EOF ->
  step_post m0 (hubbub_error_from_parserutils_error e) t ->
  wp (data_tail e) (step_post m0) (step_post m0) t.
Proof.
  intros Hs He Hp. apply wp_bind, wp_gets. unfold id. rewrite Hs.
  rewrite (bool_decide_eq_false_2 (STATE_DATA = STATE_TAG_OPEN)) by done.
  rewrite (bool_decide_eq_true_2 (STATE_DATA = STATE_DATA)) by done.
  rewrite (bool_decide_eq_false_2 (e = PARSERUTILS_EOF)) by done. exact Hp.
Qed.

Lemma tail_tag m0 n t :
  common t -> complete t = false -> collected t = [] -> tk_state t = STATE_TAG_OPEN ->
  pending t = 1 -> total t <= n -> tk_content_model t <> HUBBUB_CONTENT_MODEL_PLAINTEXT ->
  32 * (n - 1) + 6 < m0 ->
  wp (data_tail PARSERUTILS_OK) (step_post m0) (step_post m0) t.
Proof.
  intros Hc Hcm Hb Hs Hp Hn Hpl Hm. apply wp_bind, wp_gets. unfold id. rewrite Hs.
  rewrite (bool_decide_eq_true_2 (STATE_TAG_OPEN = STATE_TAG_OPEN)) by done.
  rewrite (bool_decide_eq_false_2 (PARSERUTILS_OK = PARSERUTILS_EOF)) by done.
  apply step_post_intro.
  - split; [done|]. unfold state_inv. rewrite Hs. by split_and!.
  - unfold measure, counted, rank. rewrite Hs, Hp. lia.
Qed.

Lemma safe_data m0 fuel t :
  inv t -> tk_state t = STATE_DATA -> measure t <= m0 -> total t - pending t < Z.of_nat fuel ->
  raises t \/ safe live m0 (hubbub_tokeniser_handle_data fuel) (step_post m0) t.
Proof.
  intros Hi Hst Hm Hf. tk_open Hi Hst.
  destruct (data_loop_safe (step_post m0) fuel (total t - pending t) t) as [?|Hl];
    [lia|by split_and!|lia|by left|right].
  apply wp_bind. eapply wp_mono; [exact Hl| |done].
  intros e t1 Hp. change (wp (data_tail e) (step_post m0) (step_post m0) t1).
  assert (Ho : odd_error e -> tk_state t1 = STATE_DATA ->
               wp (data_tail e) (step_post m0) (step_post m0) t1).
  { intros He Hs. apply tail_data; [done|apply He|by apply step_post_odd]. }
  destruct e; cbn [data_post] in Hp; try (by apply Ho).
  - destruct Hp as (? & ? & ? & [(? & ? & ?)|(? & ? & ? & ?)]).
    + eapply tail_ref; eauto; lia.
    + eapply tail_tag; eauto; lia.
  - destruct Hp as (? & ? & ? & ?). apply tail_data; [done|done|].
    apply step_post_wait. split; [done|]. unfold state_inv.
    by match goal with E : tk_state t1 = _ |- _ => rewrite E end.
  - by apply tail_eof, (proj1 Hp).
Qed.
End Safe.
