(* ===== verification/TokeniserSafeEntities.v ===== *)
(** * TokeniserSafeEntities: character references keep the invariant. *)
From S2P Require Import Prelude Errors Utf8 Interfaces Entities Tokens TokeniserState.
From S2P Require Import TokeniserMonad TokeniserEntities TokeniserTags TokeniserMarkup.
From S2P Require Import TokeniserWp TokeniserEmit TokeniserInv TokeniserRules.

(** ** The code point of a numeric reference *)

Lemma cp1252_range i : 0 <= i < 32 -> 0 < default 0 (znth cp1252Table i) <= 0x10FFFF.
Proof.
  intros Hi.
  pose proof (forallb_upto_spec 32
    (fun i => (0 <? default 0 (znth cp1252Table i)) && (default 0 (znth cp1252Table i) <=? 0x10FFFF))
    ltac:(by vm_compute) i ltac:(lia)) as H. cbn beta in H. zbool. lia.
Qed.

Lemma entity_codepoint_range overflow cp :
  0 <= cp < 2 ^ 32 -> (overflow = false -> cp < 0x10FFFF) ->
  0 <= entity_codepoint overflow cp <= 0x10FFFF.
Proof.
  intros Hc Ho. unfold entity_codepoint.
  destruct ((0x80 <=? cp) && (cp <=? 0x9F)) eqn:E1.
  { zbool. pose proof (cp1252_range (cp - 0x80)). lia. }
  destruct (cp =? 0x0D); [lia|]. destruct overflow; [cbn; lia|]. specialize (Ho eq_refl).
  destruct (_ || _); lia.
Qed.

Lemma entity_digit_range base cp c cp' :
  entity_digit base cp c = Some cp' -> 0 <= cp' < 2 ^ 32.
Proof.
  unfold entity_digit. pose proof u32_range.
  repeat case_match; try discriminate; intros [= <-]; auto.
Qed.

Section Safe.
Context {cov : Coverage}.
Context {St B P : Type} `{!InputStreamOps St} `{!InputStream St}
  `{!ByteBufferOps B} `{!ByteBuffer B}.
Context (dict : list hubbub_entity_node) (dict_root : Z) (live : Z -> Prop).
Local Abbreviation T := (hubbub_tokeniser St B P).
Local Abbreviation inv := (inv live).
Local Abbreviation step_post := (step_post live).
Local Abbreviation name_ok := (name_ok live).
Implicit Types t : T.

(** The search steps inside the live nodes of the table. *)
Hypothesis live_root : live (-1).
Hypothesis live_step : forall c ctx, live ctx -> is_byte c ->
  exists e v ctx', hubbub_entities_search_step dict dict_root c ctx = Some (e, v, ctx') /\
    live ctx' /\ 0 <= v <= 0x10FFFF.

(** ** The state of a reference *)

Definition put_me (m : entity_match) (t : T) : T :=
  set_tk_context (set_cx_match_entity m (tk_context t)) t.

(** In the middle of a reference, in state [s]. *)
Definition in_ref (s : hubbub_tokeniser_state) (t : T) : Prop :=
  common t /\ tk_state t = s /\ ref_return t.

Lemma common_put m t : common t -> common (put_me m t).
Proof. intros []; by split. Qed.

Lemma tag_layout_put m t : tag_layout t -> tag_layout (put_me m t).
Proof. intros []; by split. Qed.

Lemma in_ref_put s m t :
  in_ref s t -> me_complete m = false -> me_offset m = me_offset (match_of t) ->
  me_return_state m = me_return_state (match_of t) -> in_ref s (put_me m t).
Proof.
  intros (Hc & Hs & _ & Ha & Ho & Hr) Hcm Hom Hrm.
  split; [by apply common_put|]. split; [done|]. split; [done|]. split; [done|].
  split; [change (me_offset m = pending t + 1); congruence|].
  destruct Hr as [(? & ? & ?)|(? & ? & ? & ?)]; [left|right].
  - split; [change (me_return_state m = STATE_CHARACTER_REFERENCE_DATA); congruence|done].
  - split; [change (me_return_state m = STATE_CHARACTER_REFERENCE_IN_ATTRIBUTE_VALUE); congruence|].
    split; [by apply tag_layout_put|done].
Qed.

Lemma in_ref_extends s t t1 : in_ref s t -> extends t t1 -> in_ref s t1.
Proof.
  intros (Hc & Hs & Hr) Hx. split_and!; [by eapply extends_common| |by eapply extends_ref_return].
  by destruct Hx as (? & -> & _).
Qed.

Lemma measure_ref s t :
  s = STATE_NUMBERED_ENTITY \/ s = STATE_NAMED_ENTITY -> tk_state t = s ->
  measure t = 32 * (total t - pending t) + 1.
Proof. intros [->| ->] E; unfold measure, counted, rank; by rewrite E. Qed.

Lemma number_inv t : in_ref STATE_NUMBERED_ENTITY t -> number_ok t -> inv t.
Proof. intros (? & E & ?) ?. split; [done|]. unfold state_inv. by rewrite E. Qed.

Lemma name_inv t : in_ref STATE_NAMED_ENTITY t -> name_ok t -> inv t.
Proof. intros (? & E & ?) ?. split; [done|]. unfold state_inv. by rewrite E. Qed.

(** Leaving: [complete] is set and the state goes back to where the reference
    was met. *)
Lemma ref_finish s m0 t :
  s = STATE_NUMBERED_ENTITY \/ s = STATE_NAMED_ENTITY ->
  in_ref s t -> 32 * (total t - pending t) + 1 <= m0 ->
  me_codepoint (match_of t) = 0 \/
  codepoint_ok (me_codepoint (match_of t)) /\ 0 <= me_length (match_of t) /\
  me_offset (match_of t) + me_length (match_of t) <= zlen (avail t) ->
  wp (do! upd_me (set_me_complete true) in
      let! m := get_me in
      do! set_state (me_return_state m) in
      ret HUBBUB_OK) (step_post m0) (step_post m0) t.
Proof.
  intros Hse (Hc & Hs & Hcm & Ha & Ho & Hr) Hm Hcp. pose proof (common_sizes _ Hc).
  apply wp_bind, wp_modify, wp_bind, wp_gets, wp_bind, wp_modify, wp_ret, step_post_intro.
  - split; [tk_common|]. unfold state_inv. tk_goal. unfold match_of in *.
    destruct Hr as [(-> & ? & ?)|(-> & ? & ? & ?)].
    + do 3 (split; [done|]). intros _. destruct Hcp as [?|(? & ? & ?)]; [by left|right].
      split_and!; try done. unfold match_of in *; tk_arith.
    + split; [split; [tk_layout|done]|]. split; [done|].
      { intros _. destruct Hcp as [?|(? & ? & ?)]; [by left|right].
        split_and!; try done. unfold match_of in *; tk_arith. }
  - unfold measure, counted, rank. tk_goal. unfold match_of in *.
    destruct Hr as [(-> & ? & ?)|(-> & ? & ? & ?)]; unfold complete; tk_arith.
Qed.

(** ** Peeking inside a reference *)

Definition ref_at (s : hubbub_tokeniser_state) (m0 : Z) (t : T) : Prop :=
  in_ref s t /\ 32 * (total t - pending t) + 1 <= m0.

Lemma ref_at_extends s m0 t t1 : ref_at s m0 t -> extends t t1 -> ref_at s m0 t1.
Proof.
  intros [Hr Hm] Hx. split; [by eapply in_ref_extends|].
  pose proof (extends_fields _ _ Hx).
  assert (pending t1 = pending t) by (by destruct Hx as (? & -> & _)). lia.
Qed.

Lemma extends_match t t1 : extends t t1 -> match_of t1 = match_of t.
Proof. by intros (? & -> & _). Qed.

(** What a peek at offset [off] of a reference answers. *)
Definition peeked (off : Z) (ptr : bytes) (len : Z) (t : T) : Prop :=
  exists c, znth (avail t) off = Some c /\ points_to t off ptr /\ len = char_len c /\
    off + char_len c <= zlen (avail t).

Definition ref_peek (s : hubbub_tokeniser_state) (m0 off : Z) (t : T) (r : peek_result) (t1 : T)
  : Prop :=
  match r with
  | PeekOk ptr len => extends t t1 /\ peeked off ptr len t1
  | PeekErr e =>
      odd_error e \/ e = PARSERUTILS_NEEDDATA /\ extends t t1 \/
      e = PARSERUTILS_EOF /\ extends t t1 /\ is_ended (tk_input t1) /\ zlen (avail t1) = off
  end.

Lemma wp_peek_entity s m0 field E t :
  in_ref s t -> 0 <= field (match_of t) ->
  me_offset (match_of t) + field (match_of t) <= zlen (avail t) ->
  wp (peek_entity field)
    (ref_peek s m0 (me_offset (match_of t) + field (match_of t)) t) E t.
Proof.
  intros (Hc & Hs & Hcm & Ha & Ho & Hr) H0 Hle. pose proof (common_sizes _ Hc).
  apply wp_bind, wp_gets. fold (match_of t). rewrite u64_small by lia.
  apply wp_peek; [done|lia|..].
  - intros t1 c ptr Hx ? ? ?. split; [done|]. by exists c.
  - intros t1 Hx ? ?. right; right. by split_and!.
  - intros t1 Hx. by right; left.
  - intros t1 e He _. by left.
Qed.

Lemma wp_deref_peeked off ptr len (Q : Z -> T -> Prop) E t :
  common t -> peeked off ptr len t -> 0 <= off ->
  (forall c, 0 <= c < 255 -> len = char_len c -> Q c t) -> wp (deref ptr) Q E t.
Proof.
  intros Hc (c & Hn & Hp & Hl & _) Ho HQ. eapply wp_deref; [done|done|done|].
  apply HQ; [by eapply text_at|done].
Qed.

(** ** Numeric references *)

Definition number_state (m0 : Z) (t : T) : Prop :=
  ref_at STATE_NUMBERED_ENTITY m0 t /\ number_ok t.

Lemma number_extends m0 t t1 : number_state m0 t -> extends t t1 -> number_state m0 t1.
Proof. intros [] Hx. split; [by eapply ref_at_extends|by eapply extends_number_ok]. Qed.

Lemma number_wait m0 m1 t : number_state m0 t -> step_post m1 HUBBUB_NEEDDATA t.
Proof. intros [[] ?]. by apply step_post_wait, number_inv. Qed.

Definition next_offset (t : T) : Z := me_offset (match_of t) + me_length (match_of t).

Definition number_post (m0 : Z) (r : peek_result) (t : T) : Prop :=
  match r with
  | PeekOk ptr len => number_state m0 t /\ peeked (next_offset t) ptr len t
  | PeekErr e => odd_error e \/ (e = PARSERUTILS_NEEDDATA \/ e = PARSERUTILS_EOF) /\ number_state m0 t
  end.

Lemma number_put m0 m t :
  number_state m0 t -> me_complete m = false -> me_offset m = me_offset (match_of t) ->
  me_return_state m = me_return_state (match_of t) -> number_ok (put_me m t) ->
  number_state m0 (put_me m t).
Proof. intros [[? ?] ?] ? ? ? ?. split; [split; [by apply in_ref_put|done]|done]. Qed.

Lemma number_facts m0 t :
  number_state m0 t ->
  common t /\ me_offset (match_of t) = pending t + 1 /\ 0 <= me_length (match_of t) /\
  next_offset t <= zlen (avail t) /\ zlen (avail t) < 2 ^ 32 /\ 0 <= pending t /\
  zlen (avail t) <= total t /\ me_complete (match_of t) = false.
Proof.
  intros [[(Hc & _ & Hcm & _ & ? & _) _] (? & ? & _)]. pose proof (common_sizes _ Hc).
  split_and!; try done; unfold next_offset; lia.
Qed.

Lemma number_loop_safe m0 E fuel t :
  number_state m0 t -> total t - next_offset t < Z.of_nat fuel ->
  wp (number_loop fuel) (number_post m0) E t.
Proof.
  revert t; induction fuel as [|fuel IH]; intros t Hn Hf;
    destruct (number_facts _ _ Hn) as (Hc & Ho & H0 & Hle & Hb & Hp & Ht & Hcm); [lia|].
  cbn [number_loop]. apply wp_bind. eapply wp_mono; [|..|done].
  { apply (wp_peek_entity STATE_NUMBERED_ENTITY m0); [apply Hn|done|done]. }
  intros r t1 Hr. destruct r as [ptr len|e].
  2:{ destruct Hr as [Hr|[(-> & Hx)|(-> & Hx & _)]]; apply wp_ret; [by left|right|right];
      (split; [auto|by eapply number_extends]). }
  destruct Hr as [Hx Hpk]. pose proof (number_extends _ _ _ Hn Hx) as Hn1.
  pose proof (extends_fields _ _ Hx) as Hxf. pose proof (extends_match _ _ Hx) as Em.
  destruct (number_facts _ _ Hn1) as (Hc1 & Ho1 & H01 & Hle1 & Hb1 & Hp1 & Ht1 & Hcm1).
  pose proof Hpk as (c0 & _ & _ & Hlen & Hl). pose proof (char_len_range c0).
  apply wp_bind. eapply wp_deref_peeked; [done|done|lia|]. intros c Hcr Hcl.
  apply wp_bind, wp_gets. fold (match_of t1).
  destruct (entity_digit (me_base (match_of t1)) (me_codepoint (match_of t1)) c) as [cp|] eqn:Ed.
  2:{ apply wp_ret. split; [done|]. unfold next_offset. by rewrite Em. }
  pose proof (entity_digit_range _ _ _ _ Ed) as Hcp.
  unfold next_offset in *. rewrite Em in Hle1, H01, Ho1.
  apply wp_bind, wp_modify. set (m' := set_me_overflow _ _).
  change (wp (number_loop fuel) (number_post m0) E (put_me m' t1)).
  assert (Em' : me_length m' = me_length (match_of t) + len).
  { unfold m'; tk_goal. fold (match_of t1). rewrite Em. apply u32_small. lia. }
  apply IH.
  - apply number_put; [done|unfold m'; tk_goal; apply Hcm1|reflexivity|reflexivity|].
    unfold number_ok. change (match_of (put_me m' t1)) with m'. rewrite Em'.
    change (me_offset m') with (me_offset (match_of t1)). rewrite Em.
    change (me_codepoint m') with cp. change (me_had_data m') with true.
    split_and!; try lia; try done.
    + change (avail (put_me m' t1)) with (avail t1). lia.
    + intros Hov. unfold m' in Hov; tk_at Hov.
      apply orb_false_elim in Hov as [_ Hov]. by apply Z.leb_gt in Hov.
  - change (match_of (put_me m' t1)) with m'. rewrite Em'.
    change (me_offset m') with (me_offset (match_of t1)). rewrite Em.
    change (total (put_me m' t1)) with (total t1). lia.
Qed.

(** One more character belongs to the reference. *)
Lemma number_add m0 m len ptr t :
  number_state m0 t -> peeked (next_offset t) ptr len t ->
  me_complete m = false -> me_offset m = me_offset (match_of t) ->
  me_return_state m = me_return_state (match_of t) ->
  me_codepoint m = me_codepoint (match_of t) -> me_had_data m = me_had_data (match_of t) ->
  me_overflow m = me_overflow (match_of t) ->
  me_length m = u32 (me_length (match_of t) + len) ->
  number_state m0 (put_me m t).
Proof.
  intros Hn (c & _ & _ & -> & Hl) Hcm Eo Er Ec Ed Ev El.
  destruct (number_facts _ _ Hn) as (Hc & Ho & H0 & Hle & Hb & Hp & Ht & _).
  pose proof (char_len_range c). unfold next_offset in *.
  rewrite u32_small in El by lia. pose proof Hn as [_ (_ & _ & Hk)].
  apply number_put; [done..|]. unfold number_ok. change (match_of (put_me m t)) with m.
  rewrite Ec, Ed, Ev, El, Eo. split; [lia|]. split; [|done].
  change (avail (put_me m t)) with (avail t). lia.
Qed.

Lemma number_same m0 m t :
  number_state m0 t -> me_complete m = false -> me_offset m = me_offset (match_of t) ->
  me_return_state m = me_return_state (match_of t) ->
  me_codepoint m = me_codepoint (match_of t) -> me_had_data m = me_had_data (match_of t) ->
  me_overflow m = me_overflow (match_of t) -> me_length m = me_length (match_of t) ->
  number_state m0 (put_me m t).
Proof.
  intros Hn Hcm Eo Er Ec Ed Ev El. pose proof Hn as [_ Hk].
  apply number_put; [done..|]. unfold number_ok in *. change (match_of (put_me m t)) with m.
  by rewrite Ec, Ed, Ev, El, Eo.
Qed.

Lemma number_odd m0 m1 e t (Q : unit -> T -> Prop) :
  odd_error e \/ (e = PARSERUTILS_NEEDDATA \/ e = PARSERUTILS_EOF) /\ number_state m0 t ->
  (e = PARSERUTILS_EOF -> number_state m0 t -> Q tt t) ->
  wp (return_unless_eof e) Q (step_post m1) t.
Proof.
  intros [Ho|[[-> | ->] Hn]] HQ.
  - pose proof Ho as (? & ? & ?). destruct e; try done; by apply wp_return_early, step_post_odd.
  - apply wp_return_early. by eapply number_wait.
  - by apply wp_ret, HQ.
Qed.

(** The base of the number, from the character after the '#'. *)
Lemma number_base m0 m1 r (Q : unit -> T -> Prop) t t1 :
  number_state m0 t -> ref_peek STATE_NUMBERED_ENTITY m0 (next_offset t) t r t1 ->
  (forall t2, number_state m0 t2 -> total t2 <= total t -> pending t2 = pending t -> Q tt t2) ->
  wp (match r with
      | PeekErr error => return_unless_eof error
      | PeekOk cptr len =>
          if me_base (match_of t1) =? 0 then
            let! c := deref cptr in
            if fold_case c =? 88 then
              upd_me (fun m => set_me_length (u32 (me_length m + len)) (set_me_base 16 m))
            else upd_me (set_me_base 10)
          else ret tt
      end) Q (step_post m1) t1.
Proof.
  intros Hn Hr HQ. destruct r as [ptr len|e].
  - destruct Hr as [Hx Hpk]. pose proof (number_extends _ _ _ Hn Hx) as Hn1.
    pose proof (extends_fields _ _ Hx) as Hxf. pose proof (extends_match _ _ Hx) as Em.
    destruct (number_facts _ _ Hn1) as (Hc1 & Ho1 & H01 & Hle1 & Hb1 & Hp1 & Ht1 & Hcm1).
    assert (Hpk1 : peeked (next_offset t1) ptr len t1) by (unfold next_offset; by rewrite Em).
    assert (Ep : pending t1 = pending t) by (by destruct Hx as (? & -> & _)).
    destruct (_ =? 0); [|apply wp_ret, HQ; [done|lia|done]].
    apply wp_bind. eapply wp_deref_peeked; [done|exact Hpk1|unfold next_offset; lia|].
    intros c _ _. destruct (_ =? 88); apply wp_modify.
    + apply (HQ (put_me (set_me_length (u32 (me_length (match_of t1) + len))
                          (set_me_base 16 (match_of t1))) t1));
        [|by unfold total, put_me; tk_goal; apply Hxf|done].
      by eapply number_add.
    + apply (HQ (put_me (set_me_base 10 (match_of t1)) t1));
        [|by unfold total, put_me; tk_goal; apply Hxf|done].
      by apply number_same.
  - assert (Ht : extends t t1 ->
              number_state m0 t1 /\ total t1 <= total t /\ pending t1 = pending t).
    { intros Hx. split; [by eapply number_extends|].
      split; [apply (extends_fields _ _ Hx)|by destruct Hx as (? & -> & _)]. }
    destruct Hr as [Ho|[(-> & Hx)|(-> & Hx & _)]].
    + apply (number_odd m0); [by left|]. intros ->. by destruct Ho as (_ & ? & _).
    + apply (number_odd m0); [right; split; [by left|by apply Ht]|done].
    + apply (number_odd m0); [right; split; [by right|by apply Ht]|]. destruct (Ht Hx) as (? & ? & ?). intros; by apply HQ.
Qed.

(** The code point is settled once the digits are read. *)
Lemma number_finish m0 t :
  number_state m0 t ->
  wp (do! upd_me (fun m =>
        if me_had_data m
        then set_me_codepoint (entity_codepoint (me_overflow m) (me_codepoint m)) m
        else m) in
      do! upd_me (set_me_complete true) in
      let! m := get_me in
      do! set_state (me_return_state m) in
      ret HUBBUB_OK) (step_post m0) (step_post m0) t.
Proof.
  intros Hn. destruct (number_facts _ _ Hn) as (Hc & Ho & H0 & Hle & Hb & Hp & Ht & Hcm).
  pose proof Hn as [[Hr Hm] (_ & _ & Hcp & Hhd & Hov)].
  apply wp_bind, wp_modify. fold (match_of t). set (m' := if me_had_data _ then _ else _).
  change (wp (do! upd_me (set_me_complete true) in
      let! m := get_me in do! set_state (me_return_state m) in ret HUBBUB_OK)
      (step_post m0) (step_post m0) (put_me m' t)).
  assert (Hm' : me_complete m' = false /\ me_offset m' = me_offset (match_of t) /\
            me_return_state m' = me_return_state (match_of t) /\
            me_length m' = me_length (match_of t) /\ codepoint_ok (me_codepoint m')).
  { unfold m'. destruct (me_had_data (match_of t)); tk_goal.
    - do 4 (split; [done|]). by apply entity_codepoint_range.
    - rewrite Hhd by done. by split_and!. }
  destruct Hm' as (? & Eo & ? & El & ?).
  eapply ref_finish; [by left|by apply in_ref_put|done|right].
  change (match_of (put_me m' t)) with m'. split_and!; try done; rewrite El; [done|].
  rewrite Eo. done.
Qed.

Lemma safe_numbered m0 fuel t :
  inv t -> tk_state t = STATE_NUMBERED_ENTITY -> measure t <= m0 -> total t - pending t < Z.of_nat fuel ->
  safe live m0 (hubbub_tokeniser_handle_numbered_entity fuel) (step_post m0) t.
Proof.
  intros Hi Hst Hm Hf.
  assert (Hn : number_state m0 t).
  { rewrite (measure_ref STATE_NUMBERED_ENTITY) in Hm by auto. destruct Hi as [Hc Hs].
    unfold state_inv in Hs. rewrite Hst in Hs. destruct Hs as [Hr Hk].
    split; [split; [split; [done|by split]|done]|done]. }
  destruct (number_facts _ _ Hn) as (Hc & Ho & H0 & Hle & _). apply wp_bind.
  eapply wp_mono; [by apply (wp_peek_entity STATE_NUMBERED_ENTITY m0); [apply Hn|..]| |done].
  intros r t1 Hr.
  apply wp_bind, wp_gets. fold (match_of t1). apply wp_bind.
  apply (number_base m0 m0 r _ t t1 Hn Hr). intros t2 Hn2 Ht2 Hp2.
  destruct (number_facts _ _ Hn2) as (_ & ? & ? & ? & _ & ? & _).
  apply wp_bind. eapply wp_mono; [|..|done].
  { apply (number_loop_safe m0 _ fuel); [done|unfold next_offset in *; lia]. }
  intros r3 t3 Hr3. apply wp_bind. destruct r3 as [ptr len|e].
  - destruct Hr3 as [Hn3 Hp3]. destruct (number_facts _ _ Hn3) as (? & ? & ? & ? & _ & ? & _ & ?).
    apply wp_bind. eapply wp_deref_peeked; [done|done|unfold next_offset; lia|]. intros c _ _.
    destruct (c =? 59); [|by apply wp_ret, number_finish].
    apply wp_modify, (number_finish m0
      (put_me (set_me_length (u32 (me_length (match_of t3) + len)) (match_of t3)) t3)).
    by eapply number_add.
  - apply (number_odd m0); [done|]. intros _ ?. by apply number_finish.
Qed.

(** ** Named references *)

Definition name_state (m0 : Z) (t : T) : Prop :=
  ref_at STATE_NAMED_ENTITY m0 t /\ name_ok t.

Lemma name_extends m0 t t1 : name_state m0 t -> extends t t1 -> name_state m0 t1.
Proof. intros [] Hx. split; [by eapply ref_at_extends|by eapply extends_name_ok]. Qed.

Lemma name_wait m0 m1 t : name_state m0 t -> step_post m1 HUBBUB_NEEDDATA t.
Proof. intros [[] ?]. by apply step_post_wait, name_inv. Qed.

(** The end of the characters that may belong to the name. *)
Definition name_end (t : T) : Z := me_offset (match_of t) + me_poss_length (match_of t).

(** There is a character there, or there will never be one. *)
Definition name_settled (t : T) : Prop :=
  name_end t < zlen (avail t) \/ is_ended (tk_input t) /\ zlen (avail t) = name_end t.

Definition name_post (m0 : Z) (r : peek_result) (t : T) : Prop :=
  match r with
  | PeekOk _ _ => name_state m0 t /\ name_settled t
  | PeekErr e =>
      odd_error e \/ e = PARSERUTILS_NEEDDATA /\ name_state m0 t \/
      e = PARSERUTILS_EOF /\ name_state m0 t /\ name_settled t
  end.

Lemma name_facts m0 t :
  name_state m0 t ->
  common t /\ me_offset (match_of t) = pending t + 1 /\
  0 <= me_length (match_of t) <= me_poss_length (match_of t) /\
  name_end t <= zlen (avail t) /\ zlen (avail t) < 2 ^ 32 /\ 0 <= pending t /\
  zlen (avail t) <= total t /\ me_complete (match_of t) = false.
Proof.
  intros [[(Hc & _ & Hcm & _ & ? & _) _] (? & ? & _)]. pose proof (common_sizes _ Hc).
  split; [done|]. split; [done|]. split; [done|]. split; [done|].
  split; [lia|]. split; [lia|]. split; [lia|done].
Qed.

Lemma name_put m0 m t :
  name_state m0 t -> me_complete m = false -> me_offset m = me_offset (match_of t) ->
  me_return_state m = me_return_state (match_of t) -> name_ok (put_me m t) ->
  name_state m0 (put_me m t).
Proof. intros [[? ?] ?] ? ? ? ?. split; [split; [by apply in_ref_put|done]|done]. Qed.

Lemma name_loop_safe m0 E fuel t :
  name_state m0 t -> total t - name_end t < Z.of_nat fuel ->
  wp (name_loop dict dict_root fuel) (name_post m0) E t.
Proof.
  revert t; induction fuel as [|fuel IH]; intros t Hn Hf;
    destruct (name_facts _ _ Hn) as (Hc & Ho & H0 & Hle & Hb & Hp & Ht & Hcm); [lia|].
  cbn [name_loop]. apply wp_bind. eapply wp_mono; [|..|done].
  { apply (wp_peek_entity STATE_NAMED_ENTITY m0); [apply Hn|lia|done]. }
  intros r t1 Hr. destruct r as [ptr len|e].
  2:{ destruct Hr as [Hr|[(-> & Hx)|(-> & Hx & He & Hz)]]; apply wp_ret.
      - by left.
      - right; left. split; [done|by eapply name_extends].
      - right; right. split; [done|]. split; [by eapply name_extends|].
        right. unfold name_end. rewrite (extends_match _ _ Hx). done. }
  destruct Hr as [Hx Hpk]. pose proof (name_extends _ _ _ Hn Hx) as Hn1.
  pose proof (extends_fields _ _ Hx) as Hxf. pose proof (extends_match _ _ Hx) as Em.
  destruct (name_facts _ _ Hn1) as (Hc1 & Ho1 & H01 & Hle1 & Hb1 & Hp1 & Ht1 & Hcm1).
  pose proof Hpk as (c0 & _ & _ & Hlen & Hl). pose proof (char_len_range c0) as Hlr.
  assert (Hset : name_settled t1) by (left; unfold name_end; rewrite Em; lia).
  apply wp_bind. eapply wp_deref_peeked; [done|done|lia|]. intros c Hcr Hcl.
  destruct (0x7F <? c); [by apply wp_ret|].
  apply wp_bind, wp_gets. fold (match_of t1). apply wp_bind.
  pose proof Hn1 as [_ (_ & _ & Hz & Hcp & Hlive)].
  destruct (live_step c (me_context (match_of t1)) Hlive ltac:(unfold is_byte; lia))
    as (e & v & ctx & Hst & Hlive' & Hv).
  eapply wp_of_option; [exact Hst|]. apply wp_bind, wp_modify.
  set (m1 := set_me_context ctx (match_of t1)).
  (* one more character: the new match and the rest of the loop *)
  assert (Hgo : forall m', me_complete m' = false -> me_offset m' = me_offset (match_of t1) ->
            me_return_state m' = me_return_state (match_of t1) ->
            me_poss_length m' = u32 (me_poss_length (match_of t1) + len) ->
            0 <= me_length m' -> (me_length m' = me_poss_length m' \/
              me_length m' = me_length (match_of t1) /\ me_codepoint m' = me_codepoint (match_of t1)) ->
            codepoint_ok (me_codepoint m') -> me_context m' = ctx ->
            wp (name_loop dict dict_root fuel) (name_post m0) E (put_me m' t1)).
  { intros m' ? Eo ? Ep ? Hor ? Ex. unfold name_end in *. rewrite Em in *.
    rewrite u32_small in Ep by lia.
    apply IH.
    - apply name_put; try done; [by rewrite Em|by rewrite Em|]. unfold name_ok.
      change (match_of (put_me m' t1)) with m'. change (avail (put_me m' t1)) with (avail t1).
      rewrite Eo, Ep, Ex. split; [lia|]. split; [lia|]. split; [|done].
      intros Hz0. destruct Hor as [?|[Ha Hb']]; [lia|]. rewrite Hb'. apply Hz. congruence.
    - unfold name_end. change (match_of (put_me m' t1)) with m'. rewrite Eo, Ep.
      change (total (put_me m' t1)) with (total t1). lia. }
  destruct e.
  all: try (apply wp_bind, wp_modify;
    apply (Hgo (set_me_poss_length (u32 (me_poss_length (match_of t1) + len)) m1));
    [done..|apply H01|by right|done|done]).
  - apply wp_bind, wp_modify.
    apply (Hgo (let length := u32 (me_poss_length (match_of t1) + len) in
      set_me_poss_length length (set_me_length length (set_me_codepoint v m1))));
      [done|done|done|done|exact (proj1 (u32_range _))|by left|done|done].
  - apply wp_ret. split; [|done]. change (name_state m0 (put_me m1 t1)).
    by apply name_put.
Qed.

Lemma name_drop m0 t : name_state m0 t -> name_state m0 (put_me (set_me_codepoint 0 (match_of t)) t).
Proof.
  intros Hn. destruct (name_facts _ _ Hn) as (_ & _ & _ & _ & _ & _ & _ & Hcm).
  pose proof Hn as [_ (? & ? & ? & ? & ?)]. by apply name_put.
Qed.

(** In an attribute, a name without ';' before a letter or a digit is text. *)
Lemma name_check m0 E t :
  name_state m0 t -> name_settled t ->
  wp (check_in_attribute (match_of t)) (fun _ => name_state m0) E t.
Proof.
  intros Hn Hset. destruct (name_facts _ _ Hn) as (Hc & Ho & H0 & Hle & Hb & Hp & _).
  unfold check_in_attribute. destruct (Z.ltb_spec 0 (me_length (match_of t))); [|by apply wp_ret].
  unfold name_end, name_settled in *. unfold name_end in *.
  rewrite !u64_small by lia.
  destruct (znth_is_Some (avail t) (me_offset (match_of t) + me_length (match_of t) - 1))
    as [c1 Hc1]; [lia|].
  apply wp_bind. eapply wp_peek_avail; [done|exact Hc1|]. intros ptr Hpt _.
  apply wp_bind. eapply wp_deref; [exact Hpt|lia|exact Hc1|].
  destruct (_ && _); [|by apply wp_ret]. apply wp_bind.
  destruct (Z_lt_le_dec (me_offset (match_of t) + me_length (match_of t)) (zlen (avail t)))
    as [Hlt|Hge].
  - destruct (znth_is_Some (avail t) (me_offset (match_of t) + me_length (match_of t)))
      as [c2 Hc2]; [lia|].
    eapply wp_peek_avail; [done|exact Hc2|]. intros ptr2 Hpt2 _.
    apply wp_bind. eapply wp_deref; [exact Hpt2|lia|exact Hc2|].
    destruct (is_alnum c2); [|by apply wp_ret]. apply wp_modify. by apply name_drop.
  - destruct Hset as [?|[He Hz]]; [lia|].
    apply wp_peek_ended; [done|done|lia|].
    apply wp_bind, wp_bind, wp_modify, wp_ret.
    change (wp (if is_alnum c1 then upd_me (set_me_codepoint 0) else ret tt)
      (fun _ => name_state m0) E (put_me (set_me_codepoint 0 (match_of t)) t)).
    pose proof (name_drop _ _ Hn) as Hd.
    destruct (is_alnum c1); [|by apply wp_ret]. apply wp_modify.
    by apply (name_drop m0 (put_me (set_me_codepoint 0 (match_of t)) t)).
Qed.

Lemma safe_named m0 fuel t :
  inv t -> tk_state t = STATE_NAMED_ENTITY -> measure t <= m0 -> total t - pending t < Z.of_nat fuel ->
  safe live m0 (hubbub_tokeniser_handle_named_entity dict dict_root fuel) (step_post m0) t.
Proof.
  intros Hi Hst Hm Hf.
  assert (Hn : name_state m0 t).
  { rewrite (measure_ref STATE_NAMED_ENTITY) in Hm by auto. destruct Hi as [Hc Hs].
    unfold state_inv in Hs. rewrite Hst in Hs. destruct Hs as [Hr Hk].
    split; [split; [split; [done|by split]|done]|done]. }
  destruct (name_facts _ _ Hn) as (_ & ? & ? & ? & _ & ? & _).
  apply wp_bind. eapply wp_mono; [|..|done].
  { apply (name_loop_safe m0 _ fuel); [done|unfold name_end in *; lia]. }
  assert (Hrest : forall t1, name_state m0 t1 -> name_settled t1 ->
    wp (let! m := get_me in
        do! check_in_attribute m in
        do! upd_me (set_me_complete true) in
        let! m := get_me in
        do! set_state (me_return_state m) in
        ret HUBBUB_OK) (step_post m0) (step_post m0) t1); cycle 1.
  - intros r t1 Hr. apply wp_bind. destruct r as [ptr len|e].
    + apply wp_ret. destruct Hr. by apply Hrest.
    + destruct Hr as [Hodd|[[-> ?]|[-> [? ?]]]].
      * pose proof Hodd as (? & ? & ?). destruct e; try done; by apply wp_return_early, step_post_odd.
      * apply wp_return_early. by eapply name_wait.
      * apply wp_ret. by apply Hrest.
  - intros t1 Hn1 Hs1. apply wp_bind, wp_gets. fold (match_of t1). apply wp_bind.
    eapply wp_mono; [by apply (name_check m0)| |done].
    intros _ t2 [[? ?] (? & ? & Hz & Hk & _)]. apply (ref_finish STATE_NAMED_ENTITY); [by right|done|done|].
    right. split; [done|]. split; lia.
Qed.

(** ** Starting a reference *)

Definition ref_place (s : hubbub_tokeniser_state) (t : T) : Prop :=
  s = STATE_CHARACTER_REFERENCE_DATA /\ collected t = [] /\ pending t = 0 \/
  s = STATE_CHARACTER_REFERENCE_IN_ATTRIBUTE_VALUE /\ attr_ref t.

Definition ref_start (t : T) : Prop :=
  common t /\ complete t = false /\ at_amp t /\ ref_place (tk_state t) t.

Lemma ref_start_extends t t1 : ref_start t -> extends t t1 -> ref_start t1.
Proof.
  intros (Hc & ? & ? & Hp) Hx. split; [by eapply extends_common|].
  pose proof (extends_attr_ref _ _ Hx) as Hr. pose proof (extends_at_amp _ _ Hx) as Ha.
  destruct Hx as (s & -> & _). split; [done|]. split; [auto|].
  destruct Hp as [?|[? ?]]; [by left|right; auto].
Qed.

Lemma ref_start_inv t : ref_start t -> inv t.
Proof.
  intros (Hc & Hcm & Ha & Hp). split; [done|]. unfold state_inv.
  assert (ref_done t) by (intros X; congruence).
  destruct Hp as [(-> & ? & ?)|(-> & ?)]; repeat (split; [done|]); done.
Qed.

Lemma ref_start_measure t : ref_start t -> measure t = 32 * (total t - pending t) + 2.
Proof.
  intros (_ & Hcm & _ & Hp). unfold measure, counted, rank.
  destruct Hp as [(-> & ? & ?)|(-> & ?)]; by rewrite Hcm.
Qed.

(** The reference is given up or empty: the ampersand is text. *)
Lemma ref_plain m m0 t :
  ref_start t -> 32 * (total t - pending t) + 2 <= m0 ->
  me_complete m = true -> me_codepoint m = 0 -> step_post m0 HUBBUB_OK (put_me m t).
Proof.
  intros (Hc & Hcm & Ha & Hp) Hm Hm1 Hm0. apply step_post_intro.
  - split; [by apply common_put|]. unfold state_inv. change (tk_state (put_me m t)) with (tk_state t).
    assert (ref_done (put_me m t)) by (by left).
    destruct Hp as [(-> & ? & ?)|(-> & ? & ?)];
      [by repeat (split; [done|])|].
    split; [split; [by apply tag_layout_put|done]|done].
  - unfold measure, counted, rank. change (tk_state (put_me m t)) with (tk_state t).
    change (complete (put_me m t)) with (me_complete m). rewrite Hm1.
    change (total (put_me m t)) with (total t). change (pending (put_me m t)) with (pending t).
    destruct Hp as [(-> & ? & ?)|(-> & ?)]; lia.
Qed.

(** Going on inside the reference, in state [s]. *)
Lemma ref_enter s m t :
  ref_start t -> me_complete m = false -> me_offset m = pending t + 1 ->
  me_return_state m = tk_state t -> in_ref s (set_tk_state s (put_me m t)).
Proof.
  intros (Hc & Hcm & Ha & Hp) ? ? Hr. pose proof (common_sizes _ Hc).
  split; [unfold put_me; tk_common|]. split; [done|]. split; [done|]. split; [done|].
  split; [done|]. change (match_of (set_tk_state s (put_me m t))) with m.
  destruct Hp as [(Es & ? & ?)|(Es & Ht & ?)]; rewrite Hr, Es; [by left|right].
  split; [done|]. split; [destruct Ht; by split|done].
Qed.

Lemma ref_amp_extends t t1 :
  ref_start t -> extends t t1 -> pending t1 = pending t /\ total t1 <= total t.
Proof.
  intros _ Hx. pose proof (extends_fields _ _ Hx).
  split; [by destruct Hx as (? & -> & _)|lia].
Qed.

(** The match a reference starts with. *)
Definition fresh_match (off prev_len : Z) (state : hubbub_tokeniser_state) : entity_match :=
  {| me_offset := off; me_length := 0; me_codepoint := 0; me_complete := false;
     me_poss_length := 0; me_base := 0; me_context := -1; me_prev_len := prev_len;
     me_had_data := false; me_overflow := false; me_return_state := state |}.

(** What the character after the ampersand starts. *)
Lemma consume_inside m0 (stop : bool) c t :
  let m := fresh_match (pending t + 1) (char_len c) (tk_state t) in
  ref_start t -> 32 * (total t - pending t) + 2 <= m0 ->
  pending t + 1 + char_len c <= zlen (avail t) ->
  wp (if stop then
        do! upd_me (fun m => set_me_codepoint 0 (set_me_complete true m)) in
        ret HUBBUB_OK
      else if c =? 35 then
        do! upd_me (fun m => set_me_length (u32 (me_length m + char_len c)) m) in
        do! set_state STATE_NUMBERED_ENTITY in
        ret HUBBUB_OK
      else
        do! set_state STATE_NAMED_ENTITY in
        ret HUBBUB_OK) (step_post m0) (step_post m0) (put_me m t).
Proof.
  intros m Hr Hm Hl. pose proof (char_len_range c). pose proof (common_sizes _ (proj1 Hr)).
  destruct stop; [|destruct (c =? 35)].
  - apply wp_bind, wp_modify, wp_ret.
    exact (ref_plain (set_me_codepoint 0 (set_me_complete true m)) m0 t Hr Hm eq_refl eq_refl).
  - apply wp_bind, wp_modify, wp_bind, wp_modify, wp_ret.
    set (m' := set_me_length (u32 (me_length m + char_len c)) m).
    change (step_post m0 HUBBUB_OK (set_tk_state STATE_NUMBERED_ENTITY (put_me m' t))).
    apply step_post_intro; [apply number_inv; [by apply ref_enter|]|].
    + unfold number_ok. change (match_of (set_tk_state _ (put_me m' t))) with m'.
      change (avail (set_tk_state _ (put_me m' t))) with (avail t).
      change (me_length m') with (u32 (0 + char_len c)).
      change (me_offset m') with (pending t + 1). rewrite u32_small by lia.
      split; [lia|]. split; [lia|]. split; [cbn; lia|]. split; [done|]. cbn; lia.
    + rewrite (measure_ref STATE_NUMBERED_ENTITY) by auto.
      change (32 * (total t - pending t) + 1 < m0); lia.
  - apply wp_bind, wp_modify, wp_ret.
    change (step_post m0 HUBBUB_OK (set_tk_state STATE_NAMED_ENTITY (put_me m t))).
    apply step_post_intro; [apply name_inv; [by apply ref_enter|]|].
    + unfold name_ok. change (match_of (set_tk_state _ (put_me m t))) with m.
      change (avail (set_tk_state _ (put_me m t))) with (avail t).
      change (me_length m) with 0. change (me_poss_length m) with 0.
      change (me_offset m) with (pending t + 1).
      split; [lia|]. split; [lia|]. split; [done|]. split; [unfold codepoint_ok; cbn; lia|done].
    + rewrite (measure_ref STATE_NAMED_ENTITY) by auto.
      change (32 * (total t - pending t) + 1 < m0); lia.
Qed.

(** The allowed character does not matter to the invariant. *)
Lemma ref_start_allowed c t :
  ref_start t -> ref_start (set_tk_context (set_cx_allowed_char c (tk_context t)) t).
Proof.
  intros (Hc & ? & ? & Hp). pose proof (common_sizes _ Hc). split; [tk_common|].
  split; [done|]. split; [done|]. destruct Hp as [?|(? & Ht & ?)]; [by left|right].
  split; [done|]. split; [destruct Ht; by split|done].
Qed.

Lemma safe_consume m0 t :
  ref_start t -> 32 * (total t - pending t) + 2 <= m0 ->
  wp (hubbub_tokeniser_consume_character_reference (pending t)) (step_post m0) (step_post m0) t.
Proof.
  intros Hr Hm. pose proof Hr as (Hc & Hcm & Ha & Hp). pose proof (common_sizes _ Hc).
  apply wp_bind, wp_gets. unfold id. apply wp_bind. eapply wp_peek_avail; [done|exact Ha|].
  change (char_len 38) with 1. intros ptr Hpt Hl.
  apply wp_bind. eapply wp_deref; [exact Hpt|lia|exact Ha|].
  apply wp_bind, wp_assert; [done|]. rewrite u64_small by lia. apply wp_bind.
  apply wp_peek; [done|lia|..].
  - intros t1 c ptr1 Hx Hc1 Hp1 Hl1. pose proof (ref_start_extends _ _ Hr Hx) as Hr1.
    destruct (ref_amp_extends _ _ Hr Hx) as [Epe ?].
    apply wp_bind. eapply wp_deref; [exact Hp1|lia|exact Hc1|].
    apply wp_bind, wp_gets, wp_bind, wp_modify, wp_bind, wp_modify. rewrite <- Epe in *.
    apply (consume_inside m0 _ c (set_tk_context (set_cx_allowed_char 0 (tk_context t1)) t1));
      [by apply ref_start_allowed|change (32 * (total t1 - pending t1) + 2 <= m0); lia|exact Hl1].
  - intros t1 Hx _ _. pose proof (ref_start_extends _ _ Hr Hx) as Hr1.
    destruct (ref_amp_extends _ _ Hr Hx) as [Epe ?].
    apply wp_bind, wp_modify, wp_ret.
    apply (ref_plain (set_me_codepoint 0 (set_me_complete true (match_of t1)))); [done|lia|done|done].
  - intros t1 Hx. apply wp_ret, step_post_wait, ref_start_inv. by eapply ref_start_extends.
  - intros t1 e He _. pose proof He as (? & ? & ?).
    destruct e; try done; by apply wp_ret, step_post_odd.
Qed.

(** ** The states a reference is met in *)

Lemma utf8_readable cp :
  codepoint_ok cp -> readable (utf8_enc cp) (zlen (utf8_enc cp)) /\ 1 <= zlen (utf8_enc cp) /\
    Forall text_byte (utf8_enc cp).
Proof.
  intros Hcp. destruct (char_shape_text (utf8_enc cp)) as [Ht Hl].
  { apply utf8_enc_shape. unfold codepoint_ok in Hcp; lia. }
  split; [by apply readable_literal|done].
Qed.

(** The end of the data state's reference: [n] octets of text are skipped. *)
Lemma data_ref_end tok n m0 t e t1 :
  starts tok = false -> common t -> tk_state t = STATE_CHARACTER_REFERENCE_DATA -> pending t = 0 ->
  1 <= n <= zlen (avail t) -> 32 * total t <= m0 -> emitted tok t e t1 ->
  wp (do! advance n in do! upd_me (set_me_complete false) in goto STATE_DATA)
    (step_post m0) (step_post m0) t1.
Proof.
  intros Htok Hc Hs Hp Hn Hm He. pose proof (emitted_common _ _ _ _ Htok He) as Hc1.
  destruct He as [_ _ Es Ex Eb Ea Et _ _ _]. rewrite Hp in *.
  rewrite zdrop_le0 in Ea by lia. rewrite <- Ea in Hn. clear Ea.
  assert (Hp1 : pending t1 = 0) by (unfold pending; by rewrite Ex).
  tk_run.
Qed.

Lemma safe_character_reference_data m0 t :
  inv t -> tk_state t = STATE_CHARACTER_REFERENCE_DATA -> measure t <= m0 ->
  safe live m0 hubbub_tokeniser_handle_character_reference_data (step_post m0) t.
Proof.
  intros Hi Hst Hm. tk_open Hi Hst.
  apply wp_bind, wp_gets, wp_bind, wp_assert; [by apply Z.eqb_eq|]. unfold id.
  fold (pending t) (match_of t). change (me_complete (match_of t)) with (complete t).
  destruct (complete t) eqn:Hcm; cbn [negb].
  2:{ apply wp_call, safe_consume; [|lia]. split; [done|]. split; [done|]. split; [done|by left]. }
  assert (Hz1 : 1 <= zlen (avail t)).
  { match goal with Ha : at_amp t |- _ => pose proof (znth_Some_range _ _ _ Ha) end. lia. }
  assert (Hlt : 32 * total t <= m0) by lia.
  match goal with Hr : ref_done t |- _ => specialize (Hr Hcm); rename Hr into Hdone end.
  destruct (Z.eqb_spec (me_codepoint (match_of t)) 0) as [E|E]; cbn [negb].
  - apply wp_bind, wp_bind. eapply wp_peek_avail; [done|eassumption|]. intros ptr Hpt Hl.
    change (char_len 38) with 1 in *. apply wp_bind. eapply wp_of_option.
    { eapply read_points_to; [exact Hpt|lia|lia|lia]. }
    apply wp_bind, wp_call, wp_emit; [done|apply text_no_ff; by apply avail_text|].
    intros e t1 He. eapply data_ref_end; [|exact Hc|exact Hst|done|lia|exact Hlt|exact He]; done.
  - destruct Hdone as [?|(Hcp & ? & ?)]; [done|].
    destruct (utf8_readable _ Hcp) as (_ & _ & Ht). unfold utf8_enc in Ht.
    destruct (utf8_from_ucs4 (me_codepoint (match_of t)) 6) as [err utf8]. cbn [snd] in Ht.
    apply wp_bind, wp_bind, wp_call, wp_emit; [done|by apply text_no_ff|].
    intros e t1 He. apply wp_bind, wp_gets.
    replace (cx_match_entity (tk_context t1)) with (match_of t)
      by (by rewrite (em_context _ _ _ _ He)).
    rewrite u32_small by lia.
    eapply data_ref_end; [|exact Hc|exact Hst|done|lia|exact Hlt|exact He]; done.
Qed.

(** The end of a reference in a value: [n] octets were added to the value for
    the [k] octets of text. *)
Lemma attr_ref_end ptr n k m0 t :
  common t -> attr_ref t -> readable ptr n -> 1 <= n -> 1 <= k ->
  pending t + k <= zlen (avail t) -> 32 * (total t - pending t) <= m0 ->
  tk_state t = STATE_CHARACTER_REFERENCE_IN_ATTRIBUTE_VALUE ->
  wp (do! COLLECT_MS attr_value_field ptr n in add_pending k)
    (fun _ t => wp (do! upd_me (set_me_complete false) in
                    let! t := gets id in goto (cx_prev_state (tk_context t)))
                  (step_post m0) (step_post m0) t) (step_post m0) t.
Proof.
  intros Hc (Ht & [a [l Hl]] & Hv) Hr Hn Hk Hle Hm Hst. pose proof (common_sizes _ Hc).
  destruct (tag_layout_last _ _ _ Ht Hl) as (? & [? ?] & ? & ?).
  pose proof (tag_layout_name _ Ht).
  tk_run. tk_goal. destruct Hv as [E|[E|E]]; rewrite E; tk_exit.
Qed.

Lemma safe_character_reference_in_attribute_value m0 t :
  inv t -> tk_state t = STATE_CHARACTER_REFERENCE_IN_ATTRIBUTE_VALUE -> measure t <= m0 ->
  safe live m0 hubbub_tokeniser_handle_character_reference_in_attribute_value (step_post m0) t.
Proof.
  intros Hi Hst Hm. pose proof (inv_common _ _ Hi) as Hc. pose proof (common_sizes _ Hc).
  pose proof (inv_state _ _ Hi) as Hs. unfold state_inv in Hs. rewrite Hst in Hs.
  destruct Hs as (Har & Ha & Hdone). unfold measure, counted, rank in Hm. rewrite Hst in Hm.
  apply wp_bind, wp_gets. unfold id.
  fold (pending t) (match_of t). change (me_complete (match_of t)) with (complete t).
  destruct (complete t) eqn:Hcm; cbn [negb].
  2:{ apply wp_call, safe_consume; [|lia]. split; [done|]. split; [done|]. split; [done|].
      rewrite Hst. by right. }
  specialize (Hdone Hcm). pose proof (znth_Some_range _ _ _ Ha).
  destruct (Z.eqb_spec (me_codepoint (match_of t)) 0) as [E|E]; cbn [negb].
  - apply wp_bind, wp_bind. eapply wp_peek_avail; [done|exact Ha|]. intros ptr Hpt Hl.
    change (char_len 38) with 1 in *.
    apply attr_ref_end; [done|done| |lia|lia|lia|lia|done].
    apply (read_char t (pending t) 38); [done|lia|done|done].
  - destruct Hdone as [?|(Hcp & ? & ?)]; [done|].
    destruct (utf8_readable _ Hcp) as (Hr & Hu & _). unfold utf8_enc in *.
    destruct (utf8_from_ucs4 (me_codepoint (match_of t)) 6) as [err utf8]. cbn [snd] in *.
    apply wp_bind. rewrite u32_small by lia.
    apply attr_ref_end; done || lia.
Qed.
End Safe.
