(* ===== verification/TokeniserSafe.v ===== *)
(** * TokeniserSafe: running the tokeniser.

    Every handler keeps the invariant of TokeniserInv.v and decreases its
    measure, so hubbub_tokeniser_run returns, without a failed assertion and
    without reading outside the text, from every state of the invariant. *)
From stdpp Require Import relations.
From S2P Require Import Prelude Errors Utf8 Interfaces Entities Tokens TokeniserState.
From S2P Require Import TokeniserMonad TokeniserEntities TokeniserTags TokeniserMarkup.
From S2P Require Import Tokeniser TokeniserWp TokeniserEmit TokeniserInv TokeniserRules.
From S2P Require Import TokeniserSafeData.
From S2P Require Import TokeniserSafeEntities.

(** * The comment, doctype, tag and attribute states keep the invariant *)

Section Safe.
Context {cov : Coverage}.
Context {St B P : Type} `{!InputStreamOps St} `{!InputStream St}
  `{!ByteBufferOps B} `{!ByteBuffer B}.
Context (live : Z -> Prop) (realloc_ok : Z -> bool).
Local Abbreviation T := (hubbub_tokeniser St B P).
Local Abbreviation inv := (inv live).
Local Abbreviation step_post := (step_post live).
Implicit Types t : T.

(** From a state of the machine, the handler is safe. *)
Local Abbreviation safe_in s m :=
  (forall t m0, inv t -> tk_state t = s -> measure t <= m0 ->
     safe live m0 m (step_post m0) t).

Lemma safe_tag_open : safe_in STATE_TAG_OPEN hubbub_tokeniser_handle_tag_open.
Proof.
  intros t m0 Hi Hst Hm.
  apply wp_bind, wp_gets, wp_bind, wp_assert.
  { tk_open Hi Hst. apply Z.eqb_eq. tk_arith. }
  tk_peek Hst; tk_run.
Qed.

(** ** The name of an end tag in RCDATA or CDATA *)

(** The name has been compared, and has matched unless the flag says otherwise. *)
Definition compared (m0 : Z) (t : T) : Prop :=
  common t /\ complete t = false /\ collected t = [] /\ pending t = 2 /\
  tk_state t = STATE_CLOSE_TAG_OPEN /\ raw_model (tk_content_model t) = true /\
  32 * (total t - 2) + 6 <= m0 /\
  (cx_close_tag_match (tk_context t) = true ->
   1 <= cx_close_tag_count (tk_context t) /\ 2 + cx_close_tag_count (tk_context t) <= zlen (avail t)).

(** The name is being compared. *)
Record closing (m0 : Z) (t : T) : Prop := {
  cl_common : common t;
  cl_complete : complete t = false;
  cl_collected : collected t = [];
  cl_pending : pending t = 2;
  cl_state : tk_state t = STATE_CLOSE_TAG_OPEN;
  cl_raw : raw_model (tk_content_model t) = true;
  cl_measure : 32 * (total t - 2) + 6 <= m0;
  cl_match : cx_close_tag_match (tk_context t) = false;
  cl_count : 0 <= cx_close_tag_count (tk_context t) < cx_last_start_tag_len (tk_context t);
  cl_there : 2 + cx_close_tag_count (tk_context t) <= zlen (avail t)
}.

Lemma inv_closing m0 t :
  inv t -> tk_state t = STATE_CLOSE_TAG_OPEN -> raw_model (tk_content_model t) = true ->
  measure t <= m0 -> closing m0 t.
Proof.
  intros Hi Hst Hr Hm. tk_open Hi Hst.
  match goal with X : matching t |- _ => destruct (matched_part _ X Hr) as (? & ? & ?) end.
  split; try done; lia.
Qed.

Lemma closing_inv m0 t : closing m0 t -> inv t.
Proof.
  intros []. split; [done|]. unfold state_inv. rewrite cl_state0. split_and!; try done.
  split. intros _. rewrite cl_pending0. split; [done|by split].
Qed.

Lemma closing_compared m0 t : closing m0 t -> compared m0 t.
Proof. intros []. split_and!; try done. congruence. Qed.

Lemma closing_extends m0 t t1 : closing m0 t -> extends t t1 -> closing m0 t1.
Proof.
  intros [] Hx. pose proof (extends_avail _ _ Hx). pose proof (extends_common _ _ cl_common0 Hx).
  destruct Hx as (s & -> & _ & ? & _). split; try done; tk_cbn; lia.
Qed.

Lemma fold_case_ascii s c : ascii s = true -> 0 <= c < 255 -> fold_case s = fold_case c -> ascii c = true.
Proof.
  intros Hs Hc Hf. unfold ascii in Hs. zbool.
  pose proof (byte_forallb (fun c => forallb (fun s => negb (fold_case s =? fold_case c) || ascii c)
    (map Z.of_nat (seq 0 128))) ltac:(by vm_compute) c ltac:(unfold is_byte; lia)) as Hall.
  cbn beta in Hall. rewrite forallb_forall in Hall. specialize (Hall s).
  rewrite Hf, Z.eqb_refl in Hall. apply Hall, in_map_iff. exists (Z.to_nat s). rewrite in_seq. lia.
Qed.

(** How the matching loop ends. *)
Definition close_post (m0 : Z) (error : parserutils_error) (t : T) : Prop :=
  match error with
  | PARSERUTILS_OK => compared m0 t
  | PARSERUTILS_EOF | PARSERUTILS_NEEDDATA => closing m0 t
  | _ => True
  end.

Lemma close_tag_loop_safe E m0 fuel t :
  closing m0 t -> total t - (2 + cx_close_tag_count (tk_context t)) < Z.of_nat fuel ->
  wp (close_tag_loop fuel) (close_post m0) E t.
Proof.
  revert t; induction fuel as [|fuel IH]; intros t Hc Hf; pose proof (common_sizes _ (cl_common _ _ Hc));
    pose proof (cl_there _ _ Hc); pose proof (cl_count _ _ Hc); pose proof (cl_pending _ _ Hc); [lia|].
  cbn [close_tag_loop]. apply wp_bind, wp_gets. unfold id. fold (pending t).
  apply wp_bind. destruct (raw_facts _ (cl_common _ _ Hc) (cl_raw _ _ Hc)) as (_ & _ & Hz10 & Hlen & Hasc).
  rewrite u64_small by lia. apply wp_peek; [apply Hc|lia|..].
  - intros t1 c ptr Hx Hc1 Hp Hl. pose proof (closing_extends _ _ _ Hc Hx) as Hc2.
    pose proof (extends_fields _ _ Hx) as (_ & Ex & _ & Htt & _). rewrite <- Ex in *.
    assert (Hf1 : total t1 - (2 + cx_close_tag_count (tk_context t1)) < Z.of_nat (S fuel)) by lia.
    clear Hc Hx Hf Htt. apply wp_bind. eapply wp_deref; [exact Hp|lia|exact Hc1|].
    set (n := cx_close_tag_count (tk_context t1)) in *.
    destruct (znth_is_Some (cx_last_start_tag_name (tk_context t1)) n) as [s Hs]; [lia|].
    apply wp_bind. eapply wp_of_option; [exact Hs|].
    destruct (Z.eqb_spec (fold_case s) (fold_case c)) as [Hfc|_]; cbn [negb];
      [|by apply wp_ret, closing_compared].
    assert (Hcl : char_len c = 1).
    { apply char_len_ascii. cut (ascii c = true); [unfold ascii; intros; zbool; lia|].
      eapply fold_case_ascii; [|eapply text_at; [apply Hc2|exact Hc1]|exact Hfc].
      rewrite forallb_forall in Hasc. apply Hasc.
      apply list_elem_of_In, (list_elem_of_lookup_2 _ (Z.to_nat n)).
      rewrite <- znth_nonneg, znth_ztake by lia. exact Hs. }
    rewrite Hcl in *. rewrite u32_small by lia. apply wp_bind, wp_modify.
    destruct Hc2. destruct (Z.eqb_spec (n + 1) (cx_last_start_tag_len (tk_context t1))) as [Hn|Hn].
    + apply wp_bind, wp_modify, wp_ret. split_and!; try done; tk_common || tk_arith.
    + apply IH; [split; tk_goal; try done; tk_common || tk_arith|tk_arith].
  - intros t1 Hx _ _. apply wp_ret. by eapply closing_extends.
  - intros t1 Hx. apply wp_ret. by eapply closing_extends.
  - intros t1 e (? & ? & ?) _. apply wp_ret. by destruct e.
Qed.

Lemma match_close_tag_safe m0 fuel t :
  closing m0 t -> total t - 2 < Z.of_nat fuel ->
  wp (match_close_tag fuel) (fun _ t => compared m0 t) (step_post m0) t.
Proof.
  intros Hc Hf. pose proof (cl_count _ _ Hc). apply wp_bind.
  eapply wp_mono; [apply close_tag_loop_safe; [done|lia]| |done].
  intros e t1 Hp. apply wp_bind.
  assert (Hcmp : compared m0 t1 -> wp (let! t := gets id in
    if cx_close_tag_match (tk_context t) then
      let! r := peek (u64 (cx_pending (tk_context t) + cx_close_tag_count (tk_context t))) in
      match r with
      | PeekErr error => return_unless_eof error
      | PeekOk cptr _ =>
          let! c := deref cptr in
          if negb (c =? 9) && negb (c =? 10) && negb (c =? 12) && negb (c =? 32) &&
             negb (c =? 62) && negb (c =? 47)
          then upd_context (set_cx_close_tag_match false) else ret tt
      end
    else ret tt) (fun _ t => compared m0 t) (step_post m0) t1).
  { clear Hc Hf Hp. intros Hc. apply wp_bind, wp_gets. unfold id. fold (pending t1).
    destruct (cx_close_tag_match (tk_context t1)) eqn:Hmt; [|by apply wp_ret].
    pose proof Hc as (Hcm & ? & ? & Hpd & Hst & Hr & ? & Hb). destruct (Hb Hmt) as [Hb1 Hb2].
    pose proof (common_sizes _ Hcm). apply wp_bind. rewrite u64_small by lia.
    destruct (raw_facts _ Hcm Hr) as (Hpo & _).
    assert (Hx' : forall t2, extends t1 t2 -> compared m0 t2).
    { intros t2 Hx. pose proof (extends_avail _ _ Hx). pose proof (extends_common _ _ Hcm Hx).
      destruct Hx as (s & -> & _ & ? & _). split_and!; try done; intros; tk_cbn; lia. }
    apply wp_peek; [done|lia|..].
    - intros t2 c ptr Hx Hn Hpt _. pose proof (Hx' _ Hx) as Hc2. apply wp_bind.
      eapply wp_deref; [exact Hpt|lia|exact Hn|]. destruct (_ && _); [|by apply wp_ret].
      apply wp_modify. destruct Hc2 as (Hcm2 & ? & ? & ? & ? & ? & ? & _).
      pose proof (common_sizes _ Hcm2).
      split_and!; try done; tk_common.
    - intros t2 Hx _ _. by apply wp_ret, Hx'.
    - intros t2 Hx. apply wp_return_early, step_post_caught. destruct Hx as (s & -> & _). by split.
    - intros t2 e1 Ho _. pose proof Ho as (? & ? & ?).
      destruct e1; try done; by apply wp_return_early, step_post_odd. }
  destruct e; try (by apply wp_return_early, step_post_odd).
  - by apply wp_ret, Hcmp.
  - apply wp_return_early, step_post_wait. by eapply closing_inv.
  - apply wp_ret, Hcmp. by apply closing_compared.
Qed.

Lemma safe_close_tag_open fuel t m0 :
  inv t -> tk_state t = STATE_CLOSE_TAG_OPEN -> measure t <= m0 ->
  total t - pending t < Z.of_nat fuel ->
  safe live m0 (hubbub_tokeniser_handle_close_tag_open fuel) (step_post m0) t.
Proof.
  intros Hi Hst Hm Hf.
  apply wp_bind, wp_gets, wp_bind, wp_assert.
  { tk_open Hi Hst. apply Z.eqb_eq. tk_arith. }
  unfold id. rewrite in_rcdata_raw. destruct (raw_model (tk_content_model t)) eqn:Hr.
  - pose proof (inv_closing _ _ Hi Hst Hr Hm) as Hc. pose proof (cl_pending _ _ Hc).
    apply wp_bind. eapply wp_mono; [apply match_close_tag_safe; [done|lia]| |done].
    clear Hi Hst Hm Hf Hr Hc. intros _ t1 (Hc & Hcm & Hb & Hp & Hst & Hr & Hm & Hmt).
    pose proof (common_sizes _ Hc). apply wp_bind, wp_gets. unfold id.
    destruct (cx_close_tag_match (tk_context t1)) eqn:E; cbn [negb andb].
    + destruct (Hmt eq_refl) as [Hm1 Hm2]. destruct (znth_is_Some (avail t1) (pending t1)) as [c Hn]; [lia|].
      apply wp_bind, wp_bind, wp_gets. fold (pending t1). eapply wp_peek_avail; [done|exact Hn|].
      intros ptr Hpt Hl. apply wp_bind. eapply wp_deref; [exact Hpt|lia|exact Hn|].
      pose proof (char_len_range c). tk_run.
    + unfold model_is. rewrite bool_decide_eq_false_2 by (by intros X; rewrite X in Hr).
      cbn [negb]. tk_run.
  - apply wp_bind, wp_ret, wp_bind, wp_gets. unfold id. destruct (_ && _).
    + tk_open Hi Hst. tk_run.
    + tk_peek Hst; tk_run.
Qed.

Lemma safe_tag_name : safe_in STATE_TAG_NAME hubbub_tokeniser_handle_tag_name.
Proof.
  intros t m0 Hi Hst Hm.
  apply wp_bind, wp_gets, wp_bind, wp_assert.
  { tk_open Hi Hst. apply Z.ltb_lt. tk_arith. }
  apply wp_bind, wp_assert.
  { tk_open Hi Hst. apply Z.ltb_lt. tk_arith. }
  tk_peek Hst; tk_run.
Qed.

Lemma safe_before_attribute_name :
  safe_in STATE_BEFORE_ATTRIBUTE_NAME (hubbub_tokeniser_handle_before_attribute_name realloc_ok).
Proof. intros t m0 Hi Hst Hm. tk_peek Hst; tk_run. Qed.

Lemma safe_attribute_name :
  safe_in STATE_ATTRIBUTE_NAME hubbub_tokeniser_handle_attribute_name.
Proof.
  intros t m0 Hi Hst Hm. pose proof (inv_state _ _ Hi) as Hs.
  unfold state_inv in Hs. rewrite Hst in Hs. destruct Hs as (_ & _ & a & [l Hl] & Ha).
  apply wp_bind, wp_bind, wp_gets. eapply wp_of_option; [tk_old|].
  apply wp_bind, wp_assert; [by apply Z.ltb_lt|]. clear Hl.
  tk_peek Hst; tk_run.
Qed.

Lemma safe_after_attribute_name :
  safe_in STATE_AFTER_ATTRIBUTE_NAME (hubbub_tokeniser_handle_after_attribute_name realloc_ok).
Proof. intros t m0 Hi Hst Hm. tk_peek Hst; tk_run. Qed.

Lemma safe_before_attribute_value :
  safe_in STATE_BEFORE_ATTRIBUTE_VALUE hubbub_tokeniser_handle_before_attribute_value.
Proof. intros t m0 Hi Hst Hm. tk_peek Hst; tk_run. Qed.

Lemma safe_attribute_value_quoted q s :
  s = STATE_ATTRIBUTE_VALUE_DQ \/ s = STATE_ATTRIBUTE_VALUE_SQ ->
  safe_in s (attribute_value_quoted q).
Proof.
  intros Hq t m0 Hi Hst Hm. destruct Hq; subst s.
  - tk_peek Hst; tk_run.
  - tk_peek Hst; tk_run.
Qed.

Lemma safe_attribute_value_uq :
  safe_in STATE_ATTRIBUTE_VALUE_UQ hubbub_tokeniser_handle_attribute_value_uq.
Proof.
  intros t m0 Hi Hst Hm. tk_peek Hst; [|tk_run].
  apply wp_bind. destruct (Z.eqb_spec c 38) as [E|E].
  - tk_run; discriminate.
  - assert (1 <= ca_value x).
    { unfold at_amp in *. destruct_or?; [lia|congruence]. }
    tk_run.
Qed.

Lemma safe_after_attribute_value_q :
  safe_in STATE_AFTER_ATTRIBUTE_VALUE_Q hubbub_tokeniser_handle_after_attribute_value_q.
Proof. intros t m0 Hi Hst Hm. tk_peek Hst; tk_run. Qed.

Lemma safe_self_closing_start_tag :
  safe_in STATE_SELF_CLOSING_START_TAG hubbub_tokeniser_handle_self_closing_start_tag.
Proof. intros t m0 Hi Hst Hm. tk_peek Hst; tk_run. Qed.
End Safe.



Section Safe.
Context {cov : Coverage}.
Context {St B P : Type} `{!InputStreamOps St} `{!InputStream St}
  `{!ByteBufferOps B} `{!ByteBuffer B}.
Context (live : Z -> Prop).
Local Abbreviation T := (hubbub_tokeniser St B P).
Local Abbreviation inv := (inv live).
Local Abbreviation step_post := (step_post live).
Implicit Types t : T.

Local Abbreviation safe_in s m :=
  (forall t m0, inv t -> tk_state t = s -> measure t <= m0 ->
     safe live m0 m (step_post m0) t).

Ltac tk_handler := intros t m0 Hi Hst Hm; tk_peek Hst; tk_run.

Lemma safe_bogus_comment : safe_in STATE_BOGUS_COMMENT hubbub_tokeniser_handle_bogus_comment.
Proof. tk_handler. Qed.

Lemma safe_match_comment : safe_in STATE_MATCH_COMMENT hubbub_tokeniser_handle_match_comment.
Proof. tk_handler. Qed.

Lemma safe_comment s :
  s = STATE_COMMENT_START \/ s = STATE_COMMENT_START_DASH \/ s = STATE_COMMENT \/
  s = STATE_COMMENT_END_DASH \/ s = STATE_COMMENT_END ->
  safe_in s hubbub_tokeniser_handle_comment.
Proof.
  intros Hs. destruct Hs as [->|[->|[->|[->| ->]]]]; tk_handler.
Qed.

Lemma safe_doctype : safe_in STATE_DOCTYPE hubbub_tokeniser_handle_doctype.
Proof. tk_handler. Qed.

Lemma safe_before_doctype_name :
  safe_in STATE_BEFORE_DOCTYPE_NAME hubbub_tokeniser_handle_before_doctype_name.
Proof. tk_handler. Qed.

Lemma safe_doctype_name : safe_in STATE_DOCTYPE_NAME hubbub_tokeniser_handle_doctype_name.
Proof. tk_handler. Qed.

Lemma safe_after_doctype_name :
  safe_in STATE_AFTER_DOCTYPE_NAME hubbub_tokeniser_handle_after_doctype_name.
Proof. tk_handler. Qed.

Lemma safe_before_doctype_public :
  safe_in STATE_BEFORE_DOCTYPE_PUBLIC hubbub_tokeniser_handle_before_doctype_public.
Proof. tk_handler. Qed.

Lemma safe_before_doctype_system :
  safe_in STATE_BEFORE_DOCTYPE_SYSTEM hubbub_tokeniser_handle_before_doctype_system.
Proof. tk_handler. Qed.

Lemma safe_after_doctype_public :
  safe_in STATE_AFTER_DOCTYPE_PUBLIC hubbub_tokeniser_handle_after_doctype_public.
Proof. tk_handler. Qed.

Lemma safe_after_doctype_system :
  safe_in STATE_AFTER_DOCTYPE_SYSTEM hubbub_tokeniser_handle_after_doctype_system.
Proof. tk_handler. Qed.

Lemma safe_bogus_doctype : safe_in STATE_BOGUS_DOCTYPE hubbub_tokeniser_handle_bogus_doctype.
Proof. tk_handler. Qed.

Lemma safe_doctype_public q s :
  s = STATE_DOCTYPE_PUBLIC_DQ \/ s = STATE_DOCTYPE_PUBLIC_SQ ->
  safe_in s (doctype_id_quoted q public_id_field STATE_AFTER_DOCTYPE_PUBLIC).
Proof. intros [->| ->]; tk_handler. Qed.

Lemma safe_doctype_system q s :
  s = STATE_DOCTYPE_SYSTEM_DQ \/ s = STATE_DOCTYPE_SYSTEM_SQ ->
  safe_in s (doctype_id_quoted q system_id_field STATE_AFTER_DOCTYPE_SYSTEM).
Proof. intros [->| ->]; tk_handler. Qed.

(** ** Recognising a word *)

Lemma safe_match_identifier word next s :
  s = STATE_MATCH_PUBLIC \/ s = STATE_MATCH_SYSTEM -> zlen word = 6 ->
  next = STATE_BEFORE_DOCTYPE_PUBLIC \/ next = STATE_BEFORE_DOCTYPE_SYSTEM ->
  safe_in s (match_identifier word next).
Proof.
  intros Hs Hw Hn t m0 Hi Hst Hm. unfold match_identifier. rewrite Hw.
  destruct Hs; subst s; destruct Hn; subst next; tk_peek Hst; tk_run.
Qed.

Lemma safe_markup_declaration_open :
  safe_in STATE_MARKUP_DECLARATION_OPEN hubbub_tokeniser_handle_markup_declaration_open.
Proof.
  intros t m0 Hi Hst Hm. tk_open Hi Hst.
  apply wp_bind, wp_gets, wp_bind, wp_assert; [by apply Z.eqb_eq|]. unfold id.
  rewrite (cm_cdata _ Hc). apply wp_bind. tk_peek_at; tk_run.
Qed.

Lemma safe_match_doctype :
  safe_in STATE_MATCH_DOCTYPE hubbub_tokeniser_handle_match_doctype.
Proof.
  intros t m0 Hi Hst Hm. tk_open Hi Hst.
  apply wp_bind, wp_gets, wp_bind. unfold id. tk_peek_at; [|tk_run..].
  assert (Hcs : common (set_tk_input s t)) by tk_common.
  apply wp_bind; tk_deref. apply wp_bind, wp_match_word; [change (zlen DOCTYPE) with 7; lia|].
  change (zlen DOCTYPE - 1) with 6. intros [|] Hw; cbn [negb]; [|tk_run].
  assert (char_len c = 1).
  { apply fold_ascii; [by eapply text_at|]. specialize (Hw eq_refl).
    apply list_elem_of_In in Hw; cbn [In DOCTYPE] in Hw; lia. }
  tk_run.
Qed.
End Safe.


Section Safe.
Context {cov : Coverage}.
Context {St B P : Type} `{!InputStreamOps St} `{!InputStream St}
  `{!ByteBufferOps B} `{!ByteBuffer B}.
Context (dict : list hubbub_entity_node) (dict_root : Z) (realloc_ok : Z -> bool).
Hypothesis dict_ok : entities_ok dict dict_root.
Local Abbreviation T := (hubbub_tokeniser St B P).
Local Abbreviation live := (entity_reachable dict dict_root).
Implicit Types t : T.

Lemma step_safe m0 fuel t :
  inv live t -> measure t <= m0 -> total t - pending t < Z.of_nat fuel ->
  raises t \/
  wp (hubbub_tokeniser_step dict dict_root realloc_ok fuel) (step_post live m0)
    (step_post live m0) t.
Proof.
  intros Hi Hm Hf. pose proof (reach_root dict dict_root) as Hroot.
  pose proof (entities_ok_step dict dict_root dict_ok) as Hstep.
  destruct (decide (tk_state t = STATE_DATA)) as [Hd|Hd].
  { destruct (safe_data live m0 fuel t Hi Hd Hm Hf) as [?|Hw]; [by left|right].
    apply wp_bind, wp_gets. by rewrite Hd. }
  right. apply wp_bind, wp_gets. destruct (tk_state t) eqn:Hs; try done;
    try (destruct Hi as [_ Hi]; unfold state_inv in Hi; rewrite Hs in Hi; done).
  - by apply safe_character_reference_data.
  - by apply safe_tag_open.
  - by apply safe_close_tag_open.
  - by apply safe_tag_name.
  - by apply safe_before_attribute_name.
  - by apply safe_attribute_name.
  - by apply safe_after_attribute_name.
  - by apply safe_before_attribute_value.
  - by eapply safe_attribute_value_quoted; [left; reflexivity|..].
  - by eapply safe_attribute_value_quoted; [right; reflexivity|..].
  - by apply safe_attribute_value_uq.
  - by apply safe_character_reference_in_attribute_value.
  - by apply safe_after_attribute_value_q.
  - by apply safe_self_closing_start_tag.
  - by apply safe_bogus_comment.
  - by apply safe_markup_declaration_open.
  - by apply safe_match_comment.
  - by eapply safe_comment; [left; reflexivity|..].
  - by eapply safe_comment; [right; left; reflexivity|..].
  - by eapply safe_comment; [do 2 right; left; reflexivity|..].
  - by eapply safe_comment; [do 3 right; left; reflexivity|..].
  - by eapply safe_comment; [do 4 right; reflexivity|..].
  - by apply safe_match_doctype.
  - by apply safe_doctype.
  - by apply safe_before_doctype_name.
  - by apply safe_doctype_name.
  - by apply safe_after_doctype_name.
  - by eapply safe_match_identifier; [left; reflexivity|reflexivity|left; reflexivity|..].
  - by apply safe_before_doctype_public.
  - by eapply safe_doctype_public; [left; reflexivity|..].
  - by eapply safe_doctype_public; [right; reflexivity|..].
  - by apply safe_after_doctype_public.
  - by eapply safe_match_identifier; [right; reflexivity|reflexivity|right; reflexivity|..].
  - by apply safe_before_doctype_system.
  - by eapply safe_doctype_system; [left; reflexivity|..].
  - by eapply safe_doctype_system; [right; reflexivity|..].
  - by apply safe_after_doctype_system.
  - by apply safe_bogus_doctype.
  - by apply safe_numbered.
  - by apply safe_named.
Qed.

Lemma measure_left t : inv live t -> 32 * (total t - pending t) <= measure t.
Proof.
  intros [Hc Hs]. pose proof (common_sizes _ Hc). unfold measure, counted, rank.
  unfold state_inv in Hs.
  destruct (tk_state t); try destruct (complete t); lia.
Qed.

(** The moves of a run: a turn of the loop of the data state, or a step. *)
Inductive moves (t t' : T) : Prop :=
  | moves_turn : turned t t' -> moves t t'
  | moves_step fuel :
      run_comp (hubbub_tokeniser_step dict dict_root realloc_ok fuel) t = Some (HUBBUB_OK, t') ->
      moves t t'.

(** A run from [t] comes to escaped text, "<!--" in RCDATA or CDATA: there the
    code reads outside the text. *)
Definition escapes (t : T) : Prop :=
  pcdata_only = false /\ exists t', rtc moves t t' /\ tk_escape_flag t' = true.

Lemma raises_escapes t : raises t -> escapes t.
Proof.
  intros (Hp & t' & Hr & He). split; [done|]. exists t'. split; [|done].
  eapply rtc_congruence with (f := id); [|exact Hr]. intros. by apply moves_turn.
Qed.

Lemma run_loop_safe fuel n t :
  inv live t -> measure t < Z.of_nat n -> measure t < Z.of_nat fuel ->
  escapes t \/
  exists e t', run_loop dict dict_root realloc_ok fuel n t = Some (e, t') /\
    e <> HUBBUB_OK /\ (stable e -> inv live t' \/ e = HUBBUB_NEEDDATA /\ caught t').
Proof.
  revert t; induction n as [|n IH]; intros t Hi Hn Hf;
    pose proof (measure_bounds _ _ Hi); [lia|].
  pose proof (measure_left _ Hi).
  destruct (step_safe (measure t) fuel t Hi (Z.le_refl _)) as [?|Hw];
    [lia|left; by apply raises_escapes|].
  destruct (wp_run _ _ _ Hw) as (e & t1 & Hr & Hp). cbn [run_loop]. rewrite Hr.
  destruct (decide (e = HUBBUB_OK)) as [->|He].
  - destruct (Hp (or_introl eq_refl)) as [[Hi1 Hm1]|[? _]]; [|done]. specialize (Hm1 eq_refl).
    destruct (IH t1 Hi1 ltac:(lia) ltac:(lia)) as [(Hpo & t2 & Hm & Hesc)|?]; [left|by right].
    split; [done|]. exists t2. split; [|done]. eapply rtc_l; [by eapply moves_step|done].
  - right. exists e, t1. split; [destruct e; done|]. split; [done|]. intros Hs.
    destruct (Hp Hs) as [[? _]|?]; auto.
Qed.

(** hubbub_tokeniser_run returns, and a run that succeeds or pauses leaves the
    invariant, unless the content model leads it to a place where the code goes
    wrong. *)
Lemma run_ok fuel t :
  inv live t -> 32 * total t + 20 < Z.of_nat fuel ->
  escapes t \/
  exists e t', hubbub_tokeniser_run dict dict_root realloc_ok fuel t = Some (e, t') /\
    (e = HUBBUB_OK \/ e = HUBBUB_PAUSED -> inv live t' \/ caught t').
Proof.
  intros Hi Hf. unfold hubbub_tokeniser_run.
  destruct (tk_paused t); [right; exists HUBBUB_PAUSED, t; split; [done|by left]|].
  pose proof (measure_bounds _ _ Hi).
  destruct (run_loop_safe fuel fuel t Hi ltac:(lia) ltac:(lia)) as [?|(e & t' & -> & He & Hs)];
    [by left|right].
  cbn [mbind option_bind]. eexists _, t'. split; [done|]. intros Hor.
  cut (inv live t' \/ e = HUBBUB_NEEDDATA /\ caught t'); [tauto|]. apply Hs.
  destruct (bool_decide_reflect (e = HUBBUB_NEEDDATA)) as [->|]; [by right; right|].
  destruct Hor; [done|by right; left].
Qed.

(** In the PCDATA content model there are no such places. *)
Lemma run_pcdata fuel t :
  pcdata_only = true -> inv live t -> 32 * total t + 20 < Z.of_nat fuel ->
  exists e t', hubbub_tokeniser_run dict dict_root realloc_ok fuel t = Some (e, t') /\
    (e = HUBBUB_OK \/ e = HUBBUB_PAUSED -> inv live t').
Proof.
  intros Hp Hi Hf. destruct (run_ok fuel t Hi Hf) as [[? _]|(e & t' & Hr & He)]; [congruence|].
  exists e, t'. split; [done|]. intros Hor. destruct (He Hor) as [?|[? _]]; [done|congruence].
Qed.

(** What hubbub_tokeniser_create returns is in the invariant. *)
Lemma create_inv create_buffer input (pw : P) (b : B) :
  create_buffer tt = (PARSERUTILS_OK, Some b) -> bb_wf b -> bb_bytes b = [] ->
  is_wf input ->
  exists t, hubbub_tokeniser_create true create_buffer input pw = (HUBBUB_OK, Some t) /\
    inv live t /\ total t = is_total input.
Proof.
  intros Hb Hw Hn Hi. unfold hubbub_tokeniser_create. rewrite Hb. cbn [negb].
  eexists. split; [reflexivity|]. split; [|done]. split.
  - split; tk_goal; rewrite ?Hn; try done; [split; [done|apply zlen_nonneg]|].
    unfold mode_ok. destruct pcdata_only; [done|]. by split_and!.
  - split; [done|]. exact Hn.
Qed.

(** The invariant does not depend on the handler's state, nor on what is still to
    come from the stream. *)
Lemma same_text_inv t t' :
  inv live t -> tk_state t' = tk_state t -> tk_context t' = tk_context t ->
  tk_buffer t' = tk_buffer t -> tk_insert_buf t' = tk_insert_buf t ->
  tk_content_model t' = tk_content_model t -> tk_escape_flag t' = tk_escape_flag t ->
  tk_process_cdata_section t' = tk_process_cdata_section t ->
  is_wf (tk_input t') -> avail t' = avail t -> quiet_handler (tk_token_handler t') ->
  inv live t'.
Proof.
  intros [[] Hs] Es Ec Eb Ei Em Ee Ep Hw Ea Hh.
  assert (Ht : tag_layout t -> tag_layout t').
  { intros []; split; unfold collected in *; by rewrite ?Ec, ?Eb, ?Em. }
  assert (Hd : doctype_layout t -> doctype_layout t').
  { intros []; split; unfold collected in *; by rewrite ?Ec, ?Eb. }
  split; [split; unfold pending, collected, mode_of in *; by rewrite ?Ec, ?Eb, ?Ei, ?Em, ?Ee, ?Ep, ?Ea|].
  assert (Hma : matching t -> matching t').
  { intros [Hm]. split. unfold pending in *. by rewrite Em, Ec, Ea. }
  unfold state_inv, ref_return, ref_done, attr_ref, at_amp, number_ok, name_ok, complete, match_of,
    has_attribute, last_is, pending, collected in *.
  rewrite Es, Ec, Eb, Ea, ?Em. destruct (tk_state t); tauto.
Qed.

(** A client's handler may replace the one in place. *)
Lemma handler_inv h (pw : P) t :
  quiet_handler h -> inv live t -> inv live (set_tk_token_pw pw (set_tk_token_handler h t)).
Proof. intros Hh Hi. eapply same_text_inv; [exact Hi|done..| | |exact Hh]; [apply Hi|done]. Qed.

(** More input may be fed to the stream. *)
Lemma input_inv s t :
  is_wf s -> is_avail s = avail t -> inv live t -> inv live (set_tk_input s t).
Proof. intros Hw Ha Hi. eapply same_text_inv; [exact Hi|done..|apply Hi]. Qed.
End Safe.
