(* ===== verification/TokeniserSettled.v ===== *)
(** * TokeniserSettled: errors that running the tokeniser does not answer.

    [settled] is a property of the stream that its operations keep and under
    which a peek does not answer the error [bad]: PARSERUTILS_BADENCODING once
    the character set of the input is settled, PARSERUTILS_NEEDDATA once all of
    the input has been converted.  [keeps m] says that [m] keeps it and that
    neither its value nor its early return is that error; it is closed under the
    constructs the handlers are written with. *)
From stdpp Require Import relations.
From S2P Require Import Prelude Errors Utf8 Interfaces Entities Tokens TokeniserState.
From S2P Require Import TokeniserMonad TokeniserEntities TokeniserTags TokeniserMarkup.
From S2P Require Import Tokeniser TokeniserWp TokeniserEmit TokeniserInv TokeniserRules.
From S2P Require Import TokeniserSafeData TokeniserSafe.

Create HintDb keeps.

(** The error in question. *)
Class Bad := bad : parserutils_error.
Definition bad_encoding : Bad := PARSERUTILS_BADENCODING.
Definition bad_needdata : Bad := PARSERUTILS_NEEDDATA.

(** The values a computation may yield. *)
Class Fine (A : Type) := fine : A -> Prop.
#[export] Instance fine_error `{Bad} : Fine hubbub_error :=
  fun e => e <> hubbub_error_from_parserutils_error bad.
#[export] Instance fine_perror `{Bad} : Fine parserutils_error := fun e => e <> bad.
#[export] Instance fine_peek `{Bad} : Fine peek_result := fun r => r <> PeekErr bad.
#[export] Instance fine_turn `{Bad} : Fine (option parserutils_error) :=
  fun r => r <> Some bad.
#[export] Instance fine_any A : Fine A | 100 := fun _ => True.

Section Settled.
Context {the_bad : Bad} (bad_is : bad = PARSERUTILS_BADENCODING \/ bad = PARSERUTILS_NEEDDATA).
Context {St B P : Type} `{!InputStreamOps St} `{!ByteBufferOps B}.
Context (dict : list hubbub_entity_node) (dict_root : Z) (realloc_ok : Z -> bool).
Local Abbreviation T := (hubbub_tokeniser St B P).
Local Abbreviation M := (comp (hubbub_tokeniser St B P)).
Context (settled : St -> Prop).

(** What the stream, the buffer and the handler of the client promise. *)
Record settling : Prop := {
  st_peek s off r s' : settled s -> is_peek s off = Some (r, s') -> settled s' /\ fine r;
  st_advance s n : settled s -> settled (is_advance s n);
  st_insert s d e s' : settled s -> is_insert s d = Some (e, s') -> settled s';
  st_append (b : B) d e b' : bb_append b d = Some (e, b') -> fine e
}.

Definition fine_handler (h : option (token_handler_fn P)) : Prop :=
  match h with
  | None => True
  | Some h => forall pw tok, fine ((h pw tok).1.1)
  end.

Hypothesis laws : settling.

Definition settled_tok (t : T) : Prop := settled (tk_input t) /\ fine_handler (tk_token_handler t).

Definition keeps {A} `{Fine A} (m : M A) : Prop := forall t, settled_tok t ->
  match m t with
  | Ok a t' => settled_tok t' /\ fine a
  | Early e t' => settled_tok t' /\ fine e
  | Stuck => True
  end.

(** ** The constructs *)

Lemma keeps_ret {A} `{Fine A} (a : A) : fine a -> keeps (ret a).
Proof. done. Qed.

Lemma keeps_bind {A C} `{Fine A} `{Fine C} (m : M A) (k : A -> M C) :
  keeps m -> (forall a, fine a -> keeps (k a)) -> keeps (bind m k).
Proof.
  intros Hm Hk t Ht. specialize (Hm t Ht). unfold bind. destruct (m t); [|done|done].
  destruct Hm as [Ht' Ha]. by apply Hk.
Qed.

Lemma keeps_return_early {A} `{Fine A} e : fine e -> keeps (@return_early _ A e).
Proof. intros He t Ht. done. Qed.

Lemma keeps_stuck {A} `{Fine A} : keeps (@stuck _ A).
Proof. done. Qed.

Lemma keeps_gets {A} (f : T -> A) : @keeps A (fine_any A) (gets f).
Proof. done. Qed.

Lemma keeps_modify (f : T -> T) :
  (forall t, tk_input (f t) = tk_input t /\ tk_token_handler (f t) = tk_token_handler t) ->
  keeps (modify f).
Proof. intros Hf t [Hi Hh]. destruct (Hf t) as [E1 E2]. split; [|done]. unfold settled_tok. by rewrite E1, E2. Qed.

Lemma keeps_assert b : keeps (assert b).
Proof. unfold assert. destruct b; done. Qed.

Lemma keeps_of_option {A} (o : option A) : @keeps A (fine_any A) (of_option o).
Proof. destruct o; done. Qed.

Lemma keeps_call (m : M hubbub_error) : keeps m -> keeps (call m).
Proof. intros Hm t Ht. specialize (Hm t Ht). unfold call. by destruct (m t). Qed.

Lemma keeps_peek off : keeps (peek off).
Proof.
  intros t [Hi Hh]. unfold peek. destruct (is_peek (tk_input t) off) as [[r s]|] eqn:E; [|done].
  by destruct (st_peek laws _ _ _ _ Hi E).
Qed.

Lemma keeps_advance n : keeps (advance n).
Proof. intros t [Hi Hh]. split; [|done]. split; [by apply (st_advance laws)|done]. Qed.

Lemma keeps_buffer_append d : keeps (buffer_append d).
Proof.
  intros t Ht. unfold buffer_append. destruct (bb_append _ _) as [[e b]|] eqn:E; [|done].
  split; [done|]. by eapply (st_append laws).
Qed.

Lemma fine_from_parserutils e :
  e <> bad -> fine (hubbub_error_from_parserutils_error e).
Proof.
  unfold fine, fine_error. intros He Hb. apply He.
  destruct bad_is as [E|E]; rewrite E in *; by destruct e.
Qed.

Lemma fine_peek_err e : fine (PeekErr e) -> e <> bad.
Proof. intros H ->. by apply H. Qed.

Lemma fine_some (e : parserutils_error) : e <> bad -> fine (Some e).
Proof. intros He [= ?]. done. Qed.
Lemma fine_some_inv (e : parserutils_error) : fine (Some e) -> e <> bad.
Proof. intros He ->. by apply He. Qed.

(** ** Following the code *)

(** Side conditions: the value at a leaf. *)
Ltac fine_leaf :=
  first [ exact I | assumption | (by apply fine_peek_err) | (by apply fine_some, fine_peek_err) | (by apply fine_some_inv) | (unfold fine, fine_error, fine_perror, fine_peek, fine_turn; let X := fresh in destruct bad_is as [X|X]; rewrite X; discriminate)
        | (apply fine_from_parserutils; first [discriminate | by apply fine_peek_err | assumption]) ].

Ltac keep_step :=
  match goal with
  | |- keeps (bind _ _) => apply keeps_bind; [|intros ? ?]
  | |- keeps (ret _) => apply keeps_ret; try fine_leaf
  | |- keeps (return_early _) => apply keeps_return_early; try fine_leaf
  | |- keeps stuck => apply keeps_stuck
  | |- keeps (gets _) => apply keeps_gets
  | |- keeps (modify _) => apply keeps_modify; intros; by split
  | |- keeps (assert _) => apply keeps_assert
  | |- keeps (of_option _) => apply keeps_of_option
  | |- keeps (call _) => apply keeps_call
  | |- keeps (peek _) => apply keeps_peek
  | |- keeps (advance _) => apply keeps_advance
  | |- keeps (buffer_append _) => apply keeps_buffer_append
  | |- keeps _ => solve [eauto with keeps nocore]
  | |- keeps (match ?x with _ => _ end) => destruct x
  | |- keeps (if ?x then _ else _) => destruct x
  | |- keeps (let '(_, _) := ?x in _) => destruct x
  | |- fine _ => fine_leaf
  end.

Ltac keep := cbv zeta; repeat (intros; keep_step).

Lemma keeps_upd_context f : keeps (upd_context f).
Proof. unfold upd_context. keep. Qed.
Lemma keeps_set_state s : keeps (set_state s).
Proof. unfold set_state. keep. Qed.
Hint Resolve keeps_upd_context keeps_set_state : keeps.

Lemma keeps_set_pending n : keeps (set_pending n).
Proof. apply keeps_upd_context. Qed.
Lemma keeps_add_pending n : keeps (add_pending n).
Proof. apply keeps_upd_context. Qed.
Lemma keeps_upd_me f : keeps (upd_me f).
Proof. apply keeps_upd_context. Qed.
Lemma keeps_upd_tag f : keeps (upd_tag f).
Proof. apply keeps_upd_context. Qed.
Lemma keeps_upd_doctype f : keeps (upd_doctype f).
Proof. apply keeps_upd_context. Qed.
Lemma keeps_get_state : @keeps _ (fine_any _) get_state.
Proof. apply keeps_gets. Qed.
Lemma keeps_get_pending : @keeps _ (fine_any _) get_pending.
Proof. apply keeps_gets. Qed.
Lemma keeps_get_me : @keeps _ (fine_any _) get_me.
Proof. apply keeps_gets. Qed.
Hint Resolve keeps_set_pending keeps_add_pending keeps_upd_me keeps_upd_tag keeps_upd_doctype
  keeps_get_state keeps_get_pending keeps_get_me : keeps.

Lemma keeps_peek_pending : keeps peek_pending.
Proof. unfold peek_pending. keep. Qed.
Lemma keeps_deref ptr : keeps (deref ptr).
Proof. apply keeps_of_option. Qed.
Lemma keeps_read_bytes ptr n : keeps (read_bytes ptr n).
Proof. apply keeps_of_option. Qed.
Hint Resolve keeps_peek_pending keeps_deref keeps_read_bytes : keeps.

Lemma keeps_append_or_return ptr len : keeps (append_or_return ptr len).
Proof. unfold append_or_return. keep. Qed.
Hint Resolve keeps_append_or_return : keeps.

Lemma keeps_get_len f : keeps (get_len f).
Proof. unfold get_len. keep. Qed.
Hint Resolve keeps_get_len : keeps.

Lemma keeps_START_BUF f ptr len : keeps (START_BUF f ptr len).
Proof. unfold START_BUF. keep. Qed.
Lemma keeps_COLLECT_MS f ptr len : keeps (COLLECT_MS f ptr len).
Proof. unfold COLLECT_MS. keep. Qed.
Hint Resolve keeps_START_BUF keeps_COLLECT_MS : keeps.
Lemma keeps_COLLECT f ptr len : keeps (COLLECT f ptr len).
Proof. unfold COLLECT. keep. Qed.
Hint Resolve keeps_COLLECT : keeps.

(** ** Emission *)

Lemma keeps_run_commands cmds : keeps (run_commands cmds).
Proof.
  induction cmds as [|cmd cmds IH]; cbn [run_commands]; [keep|].
  apply keeps_bind; [|done]. destruct cmd as [| | |d]; cbn [run_command]; try (keep; fail).
  intros t Ht. by destruct (bb_append _ _) as [[e b]|].
Qed.

Lemma keeps_call_handler token : keeps (call_handler token).
Proof.
  intros t [Hi Hh]. unfold call_handler. destruct (tk_token_handler t) as [h|] eqn:E;
    [|split; [split; [exact Hi|rewrite E; exact I]|fine_leaf]].
  pose proof (Hh (tk_token_pw t) token) as He.
  destruct (h (tk_token_pw t) token) as [[err cmds] pw] eqn:Eh. cbn [fst] in He.
  apply (keeps_bind _ (fun _ => ret err)); [apply keeps_run_commands|by intros ? _|].
  split; [done|]. cbn [set_tk_token_pw tk_token_handler]. by rewrite E.
Qed.

Lemma keeps_discard_buffer : keeps discard_buffer.
Proof.
  intros t Ht. unfold discard_buffer. destruct (_ =? 0); [done|].
  by destruct (bb_discard _ _ _) as [[e b]|].
Qed.

Lemma keeps_flush_insert_buf : keeps flush_insert_buf.
Proof.
  intros t [Hi Hh]. unfold flush_insert_buf. destruct (_ =? 0); [done|].
  destruct (is_insert _ _) as [[e s]|] eqn:E; [|done]. destruct (bb_discard _ _ _) as [[e' b]|]; [|done].
  split; [|done]. split; [by eapply (st_insert laws)|done].
Qed.
Hint Resolve keeps_call_handler keeps_discard_buffer keeps_flush_insert_buf : keeps.

Lemma keeps_advance_pending : keeps advance_pending.
Proof. unfold advance_pending. keep. Qed.
Hint Resolve keeps_advance_pending : keeps.

Lemma keeps_emit_token token : keeps (hubbub_tokeniser_emit_token token).
Proof. unfold hubbub_tokeniser_emit_token. keep. Qed.
Hint Resolve keeps_emit_token : keeps.

Lemma keeps_emit_character_token chars : keeps (emit_character_token chars).
Proof. unfold emit_character_token. keep. Qed.
Lemma keeps_emit_current_chars : keeps emit_current_chars.
Proof. unfold emit_current_chars. keep. Qed.
Lemma keeps_emit_current_comment : keeps emit_current_comment.
Proof. unfold emit_current_comment. keep. Qed.
Lemma keeps_emit_current_doctype force : keeps (emit_current_doctype force).
Proof. unfold emit_current_doctype. keep. Qed.
Lemma keeps_save_start_tag name : keeps (save_start_tag name).
Proof. unfold save_start_tag. keep. Qed.
Hint Resolve keeps_emit_character_token keeps_emit_current_chars keeps_emit_current_comment
  keeps_emit_current_doctype keeps_save_start_tag : keeps.

Lemma keeps_emit_current_tag : keeps emit_current_tag.
Proof. unfold emit_current_tag. keep. Qed.
Hint Resolve keeps_emit_current_tag : keeps.

(** ** The loops and the handlers *)

(** Unfold the function at the head. *)
Ltac keep_unfold :=
  match goal with
  | |- keeps ?m => let rec head x := lazymatch x with ?f _ => head f | _ => x end in
                   let h := head m in progress unfold h
  end.
Ltac keep_all := cbv zeta; repeat (intros; first [keep_step|keep_unfold]).

Lemma keeps_number_loop fuel : keeps (number_loop fuel).
Proof. induction fuel as [|fuel IH]; cbn [number_loop]; keep_all. Qed.
Lemma keeps_name_loop fuel : keeps (name_loop dict dict_root fuel).
Proof. induction fuel as [|fuel IH]; cbn [name_loop]; keep_all. Qed.
Lemma keeps_data_turn : keeps data_turn.
Proof. unfold data_turn. keep_all. Qed.
Hint Resolve keeps_data_turn : keeps.
Lemma keeps_data_loop fuel : keeps (data_loop fuel).
Proof. induction fuel as [|fuel IH]; cbn [data_loop]; keep_all. Qed.
Lemma keeps_close_tag_loop fuel : keeps (close_tag_loop fuel).
Proof. induction fuel as [|fuel IH]; cbn [close_tag_loop]; keep_all. Qed.
Hint Resolve keeps_number_loop keeps_name_loop keeps_data_loop keeps_close_tag_loop : keeps.

Lemma keeps_data fuel : @keeps _ (fine_any _) (hubbub_tokeniser_handle_data fuel).
Proof. keep_all. Qed.

(** The data state alone answers HUBBUB_NEEDDATA by itself, at the end. *)
Lemma keeps_step fuel t :
  settled_tok t -> bad = PARSERUTILS_BADENCODING \/ tk_state t <> STATE_DATA ->
  match hubbub_tokeniser_step dict dict_root realloc_ok fuel t with
  | Ok e t' | Early e t' => settled_tok t' /\ fine e
  | Stuck => True
  end.
Proof.
  intros Ht Hb. unfold hubbub_tokeniser_step, bind at 1, get_state, gets.
  destruct (tk_state t) eqn:Hs; [destruct Hb as [Hb|?]; [|done]|..]; clear Hs; revert t Ht;
    match goal with |- forall t, _ -> match ?m t with _ => _ end => change (keeps m); keep_all end.
  unfold fine, fine_error. rewrite Hb. discriminate.
Qed.

Lemma run_loop_settled fuel n t e t' :
  bad = PARSERUTILS_BADENCODING ->
  settled_tok t -> run_loop dict dict_root realloc_ok fuel n t = Some (e, t') ->
  settled_tok t' /\ fine e.
Proof.
  intros Hb; revert t; induction n as [|n IH]; intros t Ht; cbn [run_loop]; [done|].
  pose proof (keeps_step fuel t Ht (or_introl Hb)) as Hk. unfold run_comp.
  destruct (hubbub_tokeniser_step dict dict_root realloc_ok fuel t) as [e1 t1|e1 t1|]; [| |done];
    destruct Hk as [Ht1 He1]; (destruct e1; try (by intros [= <- <-]); by apply IH).
Qed.

Lemma run_settled fuel t e t' :
  bad = PARSERUTILS_BADENCODING ->
  settled_tok t -> hubbub_tokeniser_run dict dict_root realloc_ok fuel t = Some (e, t') ->
  settled_tok t' /\ fine e.
Proof.
  intros Hb Ht. unfold hubbub_tokeniser_run. destruct (tk_paused t).
  { intros [= <- <-]. split; [done|]. unfold fine, fine_error. by rewrite Hb. }
  destruct (run_loop _ _ _ _ _ _) as [[e1 t1]|] eqn:E; [|done]. cbn [mbind option_bind].
  apply run_loop_settled in E as [Ht1 He1]; [|done..]. intros [= <- <-]. split; [done|].
  destruct (bool_decide _); [|done]. unfold fine, fine_error. by rewrite Hb.
Qed.

Lemma step_settled fuel t e t' :
  settled_tok t -> run_comp (hubbub_tokeniser_step dict dict_root realloc_ok fuel) t = Some (e, t') ->
  settled_tok t'.
Proof.
  intros Ht. unfold run_comp. destruct (decide (tk_state t = STATE_DATA)) as [Hd|Hd].
  - unfold hubbub_tokeniser_step, bind at 1, get_state, gets. rewrite Hd.
    pose proof (keeps_data fuel t Ht) as Hk.
    destruct (hubbub_tokeniser_handle_data _ _); [| |done]; destruct Hk as [Hk _]; by intros [= _ <-].
  - pose proof (keeps_step fuel t Ht (or_intror Hd)) as Hk.
    destruct (hubbub_tokeniser_step _ _ _ _ _); [| |done]; destruct Hk as [Hk _]; by intros [= _ <-].
Qed.
End Settled.

(** ** Running to the end

    Once all of the input has been converted, a run that succeeds has given the
    handler all of the text and then the end of file. *)
Section Ends.
#[local] Existing Instance bad_needdata.
Context {cov : Coverage}.
Context {St B P : Type} `{!InputStreamOps St} `{!InputStream St}
  `{!ByteBufferOps B} `{!ByteBuffer B}.
Context (dict : list hubbub_entity_node) (dict_root : Z) (realloc_ok : Z -> bool).
Hypothesis dict_ok : entities_ok dict dict_root.
Context (settled : St -> Prop) (laws : settling (B := B) settled).
Local Abbreviation T := (hubbub_tokeniser St B P).
Local Abbreviation live := (entity_reachable dict dict_root).
Implicit Types t : T.

Let needdata : bad = PARSERUTILS_BADENCODING \/ bad = PARSERUTILS_NEEDDATA := or_intror eq_refl.

Lemma data_ends fuel t t' :
  inv live t -> tk_state t = STATE_DATA -> settled_tok settled t ->
  total t - pending t < Z.of_nat fuel ->
  run_comp (hubbub_tokeniser_handle_data fuel) t = Some (HUBBUB_NEEDDATA, t') ->
  raises t \/ told_end t'.
Proof.
  intros Hi Hst Hs Hf Hr. tk_open Hi Hst.
  destruct (data_loop_safe (fun _ _ => False) fuel (total t - pending t) t) as [?|Hl];
    [lia|by split_and!|lia|by left|right].
  pose proof (keeps_data_loop needdata settled laws fuel t Hs) as Hk.
  unfold run_comp, hubbub_tokeniser_handle_data in Hr. unfold bind at 1 in Hr. unfold wp in Hl.
  destruct (data_loop fuel t) as [e t1| |]; [|done..]. destruct Hk as [_ Hfine].
  change (match data_tail e t1 with
          | Ok e t | Early e t => Some (e, t) | Stuck => None end = Some (HUBBUB_NEEDDATA, t')) in Hr.
  destruct (decide (e = PARSERUTILS_EOF)) as [->|He].
  - destruct Hl as [Hd Hz]. pose proof (tail_told (fun _ _ => False) t1 Hd Hz) as Ht. unfold wp in Ht.
    destruct (data_tail PARSERUTILS_EOF t1); [|done..]. by injection Hr as _ <-.
  - pose proof (tail_value e t1 He) as Hv. destruct (data_tail e t1); [|done..].
    injection Hr as -> _. exfalso. apply Hfine. by destruct e.
Qed.

Lemma run_loop_ends fuel n t t' :
  inv live t -> settled_tok settled t -> measure t < Z.of_nat n -> measure t < Z.of_nat fuel ->
  run_loop dict dict_root realloc_ok fuel n t = Some (HUBBUB_NEEDDATA, t') ->
  escapes dict dict_root realloc_ok t \/ told_end t'.
Proof.
  revert t; induction n as [|n IH]; intros t Hi Hs Hn Hf;
    pose proof (measure_bounds _ _ Hi); [lia|].
  pose proof (measure_left _ _ _ Hi) as Hleft.
  destruct (step_safe dict dict_root realloc_ok dict_ok (measure t) fuel t Hi (Z.le_refl _))
    as [?|Hw]; [lia|left; by apply raises_escapes|].
  destruct (wp_run _ _ _ Hw) as (e & t1 & Hr & Hp). cbn [run_loop]. rewrite Hr.
  destruct (decide (e = HUBBUB_OK)) as [->|He].
  - intros Hl. destruct (Hp (or_introl eq_refl)) as [[Hi1 Hm1]|[? _]]; [|done].
    specialize (Hm1 eq_refl). pose proof (step_settled needdata dict dict_root realloc_ok settled laws _ _ _ _ Hs Hr) as Hs1.
    destruct (IH t1 Hi1 Hs1 ltac:(lia) ltac:(lia) Hl) as [(Hpo & t2 & Hm & Hesc)|?]; [left|by right].
    split; [done|]. exists t2. split; [|done]. eapply rtc_l; [by eapply moves_step|done].
  - intros Hl. assert (e = HUBBUB_NEEDDATA /\ t1 = t') as [-> ->] by (destruct e; naive_solver).
    destruct (decide (tk_state t = STATE_DATA)) as [Hd|Hd].
    + destruct (data_ends fuel t t' Hi Hd Hs) as [?|?]; [lia| |left; by apply raises_escapes|by right].
      unfold run_comp, hubbub_tokeniser_step, bind at 1, get_state, gets in Hr. rewrite Hd in Hr.
      exact Hr.
    + exfalso. pose proof (keeps_step needdata dict dict_root realloc_ok settled laws fuel t Hs (or_intror Hd)) as Hk.
      unfold run_comp in Hr. destruct (hubbub_tokeniser_step _ _ _ _ _); [| |done];
        injection Hr as -> _; destruct Hk as [_ Hk]; by apply Hk.
Qed.

Lemma run_ends fuel t t' :
  inv live t -> settled_tok settled t -> 32 * total t + 20 < Z.of_nat fuel ->
  hubbub_tokeniser_run dict dict_root realloc_ok fuel t = Some (HUBBUB_OK, t') ->
  escapes dict dict_root realloc_ok t \/ told_end t'.
Proof.
  intros Hi Hs Hf. pose proof (measure_bounds _ _ Hi). unfold hubbub_tokeniser_run.
  destruct (tk_paused t); [done|].
  destruct (run_loop_safe dict dict_root realloc_ok dict_ok fuel fuel t Hi ltac:(lia) ltac:(lia))
    as [?|(e & t1 & Hr & He & _)]; [by left|].
  rewrite Hr. cbn [mbind option_bind]. intros [= Hb <-].
  destruct (bool_decide_reflect (e = HUBBUB_NEEDDATA)) as [->|]; [|done].
  eapply run_loop_ends; [done..| | |exact Hr]; lia.
Qed.
End Ends.
