(* ===== verification/StreamSettled.v ===== *)
(** * StreamSettled: the character set of a stream settles with its first chunk.

    Before, a peek may answer PARSERUTILS_BADENCODING, and then another charset
    can still be chosen; afterwards it never does. *)
From S2P Require Import Prelude Errors Utf8 Interfaces Buffer InputStream InputStreamSpec.
From S2P Require Import Tokens TokeniserState TokeniserMonad TokeniserSettled.

#[local] Existing Instance bad_encoding.

(** ** What the buffer answers *)

Definition buffer_error (e : parserutils_error) : Prop :=
  e = PARSERUTILS_OK \/ e = PARSERUTILS_NOMEM \/ e = PARSERUTILS_BADPARM.

Lemma grow_error realloc_ok b e b' :
  parserutils_buffer_grow realloc_ok b = (e, b') -> buffer_error e.
Proof. unfold parserutils_buffer_grow, buffer_error. case_match; intros [= <- _]; auto. Qed.

Lemma ensure_space_error realloc_ok b len e b' :
  ensure_space realloc_ok b len = Some (e, b') -> buffer_error e.
Proof.
  unfold ensure_space. destruct (try_rebase b) as [b1|]; [|done]. cbn [mbind option_bind].
  generalize GROW_FUEL as fuel. intros fuel; revert b1.
  induction fuel as [|fuel IH]; intros b1; cbn [ensure_space_loop]; destruct (_ <=? _);
    try done; try (intros [= <- _]; by left).
  destruct (parserutils_buffer_grow realloc_ok b1) as [e1 b2] eqn:Eg. apply grow_error in Eg.
  destruct e1; try (by intros [= <- _]). apply IH.
Qed.

Lemma append_error realloc_ok b d e b' :
  parserutils_buffer_append realloc_ok b d = Some (e, b') -> buffer_error e.
Proof.
  unfold parserutils_buffer_append. destruct (ensure_space _ _ _) as [[e1 b1]|] eqn:E; [|done].
  apply ensure_space_error in E. cbn [mbind option_bind].
  destruct e1; try (by intros [= <- _]).
  destruct (mem_write _ _ _); [|done]. intros [= <- _]. by left.
Qed.

Lemma discard_error b o k e b' :
  parserutils_buffer_discard b o k = Some (e, b') -> buffer_error e.
Proof.
  unfold parserutils_buffer_discard, buffer_error. destruct (_ || _); [intros [= <- _]; auto|].
  destruct (_ =? _).
  - destruct (try_rebase _); [|done]. intros [= <- _]. auto.
  - destruct (mem_read _ _ _); [|done]. cbn [mbind option_bind].
    destruct (mem_write _ _ _); [|done]. intros [= <- _]. auto.
Qed.

Lemma buffer_error_fine e : buffer_error e -> fine e.
Proof. by intros [->|[->| ->]]. Qed.

Section Settled.
Context {CD : Type}.
Context (iconv_open : bytes -> bytes -> CD + iconv_errno)
        (iconv : CD -> bytes -> Z -> iconv_result CD).
Context (mibenum_from_name : bytes -> Z) (mibenum_to_name : Z -> bytes).
Context (realloc_ok : Z -> bool).
Local Abbreviation stream := (parserutils_inputstream CD).
Implicit Types s : stream.

(** The first chunk is done and the end has not been announced. *)
Definition settled_stream s : Prop := is_done_first_chunk s = true /\ is_had_eof s = false.

(** What else may have changed: nothing the two flags depend on. *)
Definition same_flags s s' : Prop :=
  is_done_first_chunk s' = is_done_first_chunk s /\ is_had_eof s' = is_had_eof s.

Lemma make_room_flags s e s' :
  make_room realloc_ok s = Some (e, s') -> same_flags s s' /\ fine e.
Proof.
  unfold make_room. destruct (_ =? _); [by intros [= <- <-]|].
  destruct (mem_read _ _ _); [|done]. cbn [mbind option_bind].
  destruct (mem_write _ _ _); [|done]. cbn [mbind option_bind].
  destruct (_ <? _); [|by intros [= <- <-]].
  destruct (parserutils_buffer_grow _ _) as [e1 b1] eqn:Eg. intros [= <- <-].
  split; [done|]. by eapply buffer_error_fine, grow_error.
Qed.

Lemma fill_flags kept s e s' :
  fill_utf8 iconv kept s = Some (e, s') -> same_flags s s' /\ fine e.
Proof.
  unfold fill_utf8. destruct (parserutils__filter_process_chunk _ _ _ _) as [[[[[e1 f] rest] out] sp]|] eqn:Ep;
    [|done].
  assert (He : e1 = PARSERUTILS_OK \/ e1 = PARSERUTILS_NOMEM).
  { unfold parserutils__filter_process_chunk in Ep. destruct (f_cd _); [|done].
    cbn [mbind option_bind] in Ep.
    destruct (process_conversion _ _) as [[e2 c2]|] eqn:Ec; [|done]. injection Ep as <- _ _ _ _.
    assert (Hloop : forall n c e c', replace_loop iconv n c = Some (e, c') ->
      e = PARSERUTILS_OK \/ e = PARSERUTILS_NOMEM).
    { clear. induction n as [|n IH]; intros c e c'; cbn [replace_loop]; destruct (cv_data c);
        try done; try (intros [= <- _]; by left).
      destruct (convert iconv c) as [[[]|] c1]; try (intros [= <- _]; auto).
      destruct (_ <? _); [intros [= <- _]; auto|]. apply IH. }
    unfold process_conversion in Ec. destruct (convert _ _) as [[[]|] c1]; try (injection Ec as <- _; auto).
    destruct (_ <? _); [injection Ec as <- _; auto|]. by eapply Hloop. }
  cbn [mbind option_bind]. destruct (mem_write _ _ _); [|done]. cbn [mbind option_bind].
  destruct He as [->| ->];
    (destruct (parserutils_buffer_discard _ _ _) as [[e2 b2]|] eqn:Ed; [|done]);
    cbn [mbind option_bind]; apply discard_error, buffer_error_fine in Ed;
    destruct e2; intros [= <- <-]; done.
Qed.

Lemma refill_settled s e s' :
  settled_stream s ->
  parserutils_inputstream_refill_buffer iconv_open iconv mibenum_from_name mibenum_to_name
    realloc_ok s = Some (e, s') -> settled_stream s' /\ fine e.
Proof.
  intros [Hd He]. unfold parserutils_inputstream_refill_buffer. rewrite Hd.
  cbn [mbind option_bind]. destruct (make_room _ _) as [[e1 s1]|] eqn:Em; [|done].
  apply make_room_flags in Em as [[Hf1 Hf2] Hfe]. cbn [mbind option_bind].
  assert (Hs1 : settled_stream s1) by (split; congruence).
  destruct e1; try (by intros [= <- <-]).
  intros Hf. apply fill_flags in Hf as [[Hf3 Hf4] Hf5]. destruct Hs1. split; [|done]. split; congruence.
Qed.

Lemma peek_at_fine b off r : peek_at b off = Some r -> fine r.
Proof.
  unfold peek_at. destruct (znth _ _); [|done]. cbn [mbind option_bind].
  destruct (_ =? _); [by intros [= <-]|].
  unfold utf8_char_byte_length. destruct (zdrop _ _); cbn [mbind option_bind]; by intros [= <-].
Qed.

Lemma peek_settled s off r s' :
  settled_stream s ->
  parserutils_inputstream_peek iconv_open iconv mibenum_from_name mibenum_to_name realloc_ok s off
    = Some (r, s') -> settled_stream s' /\ fine r.
Proof.
  intros Hs. unfold parserutils_inputstream_peek.
  assert (Hslow : forall r s', parserutils_inputstream_peek_slow iconv_open iconv mibenum_from_name
    mibenum_to_name realloc_ok s off = Some (r, s') -> settled_stream s' /\ fine r).
  { clear r s'. intros r s'. unfold parserutils_inputstream_peek_slow.
    destruct (_ =? 0). { intros [= <- <-]. split; [done|]. by case_match. }
    destruct (parserutils_inputstream_refill_buffer _ _ _ _ _ _) as [[e s1]|] eqn:Er; [|done].
    apply refill_settled in Er as [Hs1 He]; [|done]. cbn [mbind option_bind].
    destruct e; try (intros [= <- <-]; split; [done|]; by intros [=]).
    destruct (_ =? _); [by intros [= <- <-]|].
    destruct (peek_at _ _) as [r1|] eqn:Ep; [|done]. intros [= <- <-].
    split; [done|]. by eapply peek_at_fine. }
  destruct (_ <? _); [|apply Hslow].
  destruct (peek_at _ _) as [r1|] eqn:Ep; [|done]. cbn [mbind option_bind].
  apply peek_at_fine in Ep. destruct r1 as [|e1]; [by intros [= <- <-]|].
  destruct e1; try (by intros [= <- <-]). apply Hslow.
Qed.

#[local] Instance stream_ops' : InputStreamOps stream :=
  parserutils_inputstream_ops iconv_open iconv mibenum_from_name mibenum_to_name realloc_ok.
#[local] Instance buffer_ops' : ByteBufferOps parserutils_buffer :=
  parserutils_buffer_ops realloc_ok.

Lemma stream_settling : @settling _ stream parserutils_buffer _ _ settled_stream.
Proof.
  split.
  - intros s off r s' Hs Hp. exact (peek_settled s off r s' Hs Hp).
  - intros s n [Hd He]. cbn. unfold parserutils_inputstream_advance. case_match; by split.
  - intros s d e s' [Hd He]. cbn. unfold parserutils_inputstream_insert.
    destruct (parserutils_buffer_insert _ _ _ _) as [[e1 b]|]; [|done]. intros [= _ <-]. by split.
  - intros b d e b' Ha. exact (buffer_error_fine _ (append_error _ _ _ _ _ Ha)).
Qed.
(** When everything has been converted and the end has been announced, a peek
    never asks for more. *)
Lemma ended_peek s off r s' :
  stream_ended s ->
  parserutils_inputstream_peek iconv_open iconv mibenum_from_name mibenum_to_name realloc_ok s off
    = Some (r, s') -> stream_ended s' /\ r <> PeekErr PARSERUTILS_NEEDDATA.
Proof.
  intros He. unfold parserutils_inputstream_peek.
  assert (Hslow : forall r s', parserutils_inputstream_peek_slow iconv_open iconv mibenum_from_name
    mibenum_to_name realloc_ok s off = Some (r, s') -> stream_ended s' /\ r <> PeekErr PARSERUTILS_NEEDDATA).
  { clear r s'. intros r s'. unfold parserutils_inputstream_peek_slow.
    destruct He as [Hf Hr]. rewrite Hf, Hr. by intros [= <- <-]. }
  destruct (_ <? _); [|apply Hslow].
  destruct (peek_at _ _) as [r1|] eqn:Ep; [|done]. cbn [mbind option_bind].
  destruct r1 as [|e1]; [by intros [= <- <-]|].
  destruct e1; try (by intros [= <- <-]). apply Hslow.
Qed.

Lemma ended_settling : @settling bad_needdata stream parserutils_buffer _ _ stream_ended.
Proof.
  split.
  - intros s off r s' Hs Hp. exact (ended_peek s off r s' Hs Hp).
  - intros s n [Hd He]. cbn. unfold parserutils_inputstream_advance. case_match; by split.
  - intros s d e s' [Hd He]. cbn. unfold parserutils_inputstream_insert.
    destruct (parserutils_buffer_insert _ _ _ _) as [[e1 b]|]; [|done]. intros [= _ <-]. by split.
  - intros b d e b' Ha. destruct (append_error _ _ _ _ _ Ha) as [->|[->| ->]]; done.
Qed.
End Settled.

(** ** The first chunk *)
Section First.
Context {CD : Type}.
Context (iconv_open : bytes -> bytes -> CD + iconv_errno)
        (iconv : CD -> bytes -> Z -> iconv_result CD).
Context (mibenum_from_name : bytes -> Z) (mibenum_to_name : Z -> bytes).
Context (realloc_ok : Z -> bool) (cd_pending : CD -> Z) (K : Z).
Local Abbreviation stream := (parserutils_inputstream CD).
Implicit Types s : stream.
Hypothesis env : stream_env iconv_open iconv mibenum_from_name realloc_ok cd_pending K.

(** The charset and the filter may have changed, and a mark may be gone. *)
Record untouched s s' : Prop := {
  un_utf8 : is_utf8 s' = is_utf8 s;
  un_cursor : is_cursor s' = is_cursor s;
  un_detect : is_csdetect s' = is_csdetect s;
  un_eof : is_had_eof s' = is_had_eof s;
  un_raw : wf_buffer (is_raw s');
  un_length : buf_length (is_raw s') <= buf_length (is_raw s)
}.

Lemma detect_untouched s e s' :
  wf_buffer (is_raw s) -> detect_charset s = Some (e, s') ->
  untouched s s' /\ is_raw s' = is_raw s /\ is_filter s' = is_filter s /\
  is_done_first_chunk s' = is_done_first_chunk s.
Proof.
  intros Hw. unfold detect_charset. destruct (is_csdetect s) eqn:Ed.
  - destruct (d _ _ _) as [[[e1 m] src]|]; [|done]. cbn [mbind option_bind].
    destruct e1; intros [= <- <-]; (split; [by split|done]).
  - intros [= <- <-]. split; [by split|done].
Qed.

Lemma setopt_encoding f name e f' :
  parserutils__filter_setopt iconv_open mibenum_from_name mibenum_to_name f name = (e, f') ->
  e <> PARSERUTILS_OK -> f_encoding f' = f_encoding f.
Proof.
  unfold parserutils__filter_setopt, filter_set_encoding.
  repeat case_match; intros [= <- <-]; done.
Qed.

Lemma first_chunk_untouched s e s' :
  stream_wf s -> first_chunk iconv_open mibenum_from_name mibenum_to_name s = Some (e, s') ->
  untouched s s' /\
  is_done_first_chunk s' = bool_decide (e = PARSERUTILS_OK) || is_done_first_chunk s /\
  (e <> PARSERUTILS_OK -> f_encoding (is_filter s') = f_encoding (is_filter s)).
Proof.
  intros Hw. unfold first_chunk. destruct (detect_charset s) as [[e1 s1]|] eqn:Ed; [|done].
  apply detect_untouched in Ed as (Hu & Hr & Hfl & Hd); [|apply Hw]. cbn [mbind option_bind].
  destruct e1; try (intros [= <- <-]; rewrite bool_decide_eq_false_2, Hfl by done; done).
  unfold settle_charset. set (s2 := if is_mibenum s1 =? 0 then _ else s1).
  assert (Hu2 : untouched s s2 /\ is_raw s2 = is_raw s /\ is_filter s2 = is_filter s /\
                is_done_first_chunk s2 = is_done_first_chunk s).
  { unfold s2. destruct (_ =? _); [|done]. split; [|done]. destruct Hu. by split. }
  clearbody s2. destruct (_ =? 0); [done|]. destruct Hu2 as (Hu2 & Hr2 & Hfl2 & Hd2). rewrite Hr2.
  destruct (strip_bom_spec mibenum_from_name (is_mibenum s2) (is_raw s) (sw_raw s Hw))
    as (m & raw & k & -> & Hwr & Hk & _ & Hl). cbn [mbind option_bind].
  assert (Hu3 : untouched s (set_raw raw (set_charset m (is_encsrc s2) s2))).
  { destruct Hu2. split; try done. cbn. lia. }
  set (s3 := set_raw raw _) in *. assert (Hd3 : is_done_first_chunk s3 = is_done_first_chunk s) by done.
  assert (Hfl3 : is_filter s3 = is_filter s) by done. clearbody s3.
  destruct (parserutils__filter_setopt _ _ _ _ _) as [e2 f] eqn:Es.
  pose proof (setopt_encoding _ _ _ _ Es) as He2. rewrite Hfl3 in He2.
  destruct e2; intros [= <- <-];
    rewrite ?bool_decide_eq_true_2, ?bool_decide_eq_false_2 by done;
    (split; [destruct Hu3; by split|split; [done|by intros; apply He2]]).
Qed.

(** The detector may ask for more data. *)
Definition detector_waits s : Prop :=
  exists detect d m src m' src', is_csdetect s = Some detect /\
    detect d m src = Some (PARSERUTILS_NEEDDATA, m', src').

Lemma settle_charset_decides s s' :
  wf_buffer (is_raw s) ->
  settle_charset iconv_open mibenum_from_name mibenum_to_name s <> Some (PARSERUTILS_NEEDDATA, s').
Proof.
  intros Hw. unfold settle_charset. set (s2 := if _ =? 0 then _ else s).
  assert (Hr : is_raw s2 = is_raw s) by (unfold s2; by destruct (_ =? 0)). clearbody s2.
  destruct (_ =? 0); [done|]. rewrite Hr.
  destruct (strip_bom_spec mibenum_from_name (is_mibenum s2) (is_raw s) Hw) as (m & raw & k & -> & _).
  cbn [mbind option_bind]. unfold parserutils__filter_setopt, filter_set_encoding.
  repeat case_match; by intros [=].
Qed.

Lemma first_chunk_waits s s' :
  stream_wf s ->
  first_chunk iconv_open mibenum_from_name mibenum_to_name s = Some (PARSERUTILS_NEEDDATA, s') ->
  detector_waits s.
Proof.
  intros Hw. unfold first_chunk, detect_charset. destruct (is_csdetect s) as [detect|] eqn:Ed.
  - destruct (detect _ _ _) as [[[e m] src]|] eqn:E; [|done]. cbn [mbind option_bind].
    destruct (decide (e = PARSERUTILS_NEEDDATA)) as [->|Hne].
    { intros _. do 6 eexists. split; [done|exact E]. }
    assert (Hok : e = PARSERUTILS_OK \/ e <> PARSERUTILS_OK) by (destruct e; auto).
    destruct Hok as [->|Hok]; [|destruct e; try done; by intros [= _]].
    intros Hr. exfalso. revert Hr. apply settle_charset_decides. apply Hw.
  - cbn [mbind option_bind]. intros Hr. exfalso. revert Hr. apply settle_charset_decides. apply Hw.
Qed.

(** What the first peek of an unsettled stream that holds no text shows. *)
Definition first_answer s (r : peek_result) s' : Prop :=
  is_had_eof s' = false /\
  match r with
  | PeekOk _ _ =>
      is_done_first_chunk s' = true /\
      parserutils_inputstream_peek iconv_open iconv mibenum_from_name mibenum_to_name realloc_ok
        s' 0 = Some (r, s')
  | PeekErr PARSERUTILS_BADENCODING =>
      first_chunk iconv_open mibenum_from_name mibenum_to_name s
        = Some (PARSERUTILS_BADENCODING, s') /\
      untouched s s' /\ is_done_first_chunk s' = false /\
      f_encoding (is_filter s') = f_encoding (is_filter s)
  | PeekErr PARSERUTILS_NEEDDATA =>
      is_done_first_chunk s' = true \/ s' = s \/ detector_waits s
  | PeekErr error => error <> PARSERUTILS_EOF
  end.

Lemma first_peek s :
  stream_wf s -> unread s = [] -> is_done_first_chunk s = false -> is_had_eof s = false ->
  exists r s', parserutils_inputstream_peek iconv_open iconv mibenum_from_name mibenum_to_name
      realloc_ok s 0 = Some (r, s') /\ end_answer cd_pending K s r s' /\ first_answer s r s'.
Proof.
  intros Hw Hu Hd He. destruct (peek_end _ _ _ mibenum_to_name _ _ _ env s Hw) as (r & s' & Hp & Ha).
  rewrite Hu in Hp. change (zlen (@nil Z)) with 0 in Hp.
  exists r, s'. split; [exact Hp|]. split; [exact Ha|]. revert Hp.
  pose proof (stream_sizes _ _ _ _ _ _ env s Hw) as (? & Hsz & ? & ? & ?). rewrite Hu in Hsz.
  change (zlen (@nil Z)) with 0 in Hsz.
  unfold parserutils_inputstream_peek at 1. rewrite u64_small by lia.
  rewrite Hsz, Z.ltb_irrefl. unfold parserutils_inputstream_peek_slow.
  destruct (Z.eqb_spec (buf_length (is_raw s)) 0). { rewrite He. intros [= <- <-]. split; [done|]. right; by left. }
  unfold parserutils_inputstream_refill_buffer. rewrite Hd.
  destruct (first_chunk _ _ _ s) as [[e1 s1]|] eqn:Ef; [|done].
  assert (Hwait : e1 = PARSERUTILS_NEEDDATA -> detector_waits s)
    by (intros ->; by eapply first_chunk_waits).
  destruct (first_chunk_untouched _ _ _ Hw Ef) as (Hun & Hdone & Henc). rewrite Hd, orb_false_r in Hdone.
  pose proof (un_eof _ _ Hun) as Heof. rewrite He in Heof.
  cbn [mbind option_bind].
  destruct (decide (e1 = PARSERUTILS_OK)) as [->|Hne].
  2:{ rewrite bool_decide_eq_false_2 in Hdone by done.
      specialize (Henc Hne).
      destruct e1; try done; intros [= <- <-]; (split; [done|]); try done.
      all: first [by right; right; apply Hwait
                 |intros _; destruct (proj2 (proj2 (proj2 Ha)) eq_refl); congruence]. }
  rewrite bool_decide_eq_true_2 in Hdone by done.
  destruct (make_room realloc_ok s1) as [[e2 s2]|] eqn:Em; [|done].
  apply make_room_flags in Em as [[Hm1 Hm2] Hmf]. cbn [mbind option_bind].
  destruct (decide (e2 = PARSERUTILS_OK)) as [->|Hne].
  2:{ destruct e2; try done; intros [= <- <-]; (split; [congruence|]); try done.
      all: first [by destruct Hmf|left; congruence|intros _; destruct (proj2 (proj2 (proj2 Ha)) eq_refl); congruence]. }
  destruct (fill_utf8 iconv _ s2) as [[e3 s3]|] eqn:Efl; [|done].
  apply fill_flags in Efl as [[Hf1 Hf2] Hff]. cbn [mbind option_bind].
  assert (Hs3 : is_had_eof s3 = false /\ is_done_first_chunk s3 = true) by (split; congruence).
  destruct Hs3 as [Heof3 Hd3].
  destruct (decide (e3 = PARSERUTILS_OK)) as [->|Hne].
  2:{ destruct e3; try done; intros [= <- <-]; (split; [done|]); try done.
      all: first [by destruct Hff|by left|intros _; destruct (proj2 (proj2 (proj2 Ha)) eq_refl); congruence]. }
  destruct (Z.eqb_spec (u64 (is_cursor s3 + 0)) (buf_length (is_utf8 s3))) as [Eoff|Eoff].
  { intros [= <- <-]. split; [done|]. by left. }
  destruct (peek_at (is_utf8 s3) (u64 (is_cursor s3 + 0))) as [r3|] eqn:Ep; [|done].
  intros [= <- <-]. split; [done|]. destruct r3 as [ptr len|e].
  - split; [done|]. unfold parserutils_inputstream_peek. destruct Ha as (Hw3 & _ & _).
    pose proof (stream_sizes _ _ _ _ _ _ env s3 Hw3). pose proof (zlen_nonneg (unread s3)).
    rewrite u64_small in * by lia. destruct (Z.ltb_spec (is_cursor s3 + 0) (buf_length (is_utf8 s3))); [|lia].
    by rewrite Ep.
  - apply peek_at_fine in Ep. destruct e; try done.
    all: first [by left|intros _; destruct (proj2 (proj2 (proj2 Ha)) eq_refl); congruence].
Qed.

(** After a refusal another charset may be chosen; if it can be opened, the
    stream is as it was. *)
Lemma change_charset_spec s s' name src :
  stream_wf s -> untouched s s' -> is_done_first_chunk s' = false ->
  mibenum_from_name name <> 0 -> f_encoding (is_filter s') <> mibenum_from_name name ->
  exists e s2, parserutils_inputstream_change_charset iconv_open mibenum_from_name mibenum_to_name
      s' name src = (e, s2) /\
    (e = PARSERUTILS_OK \/ e = PARSERUTILS_NOMEM \/ e = PARSERUTILS_BADENCODING) /\
    (e = PARSERUTILS_OK -> stream_wf s2 /\ untouched s s2 /\ owed cd_pending s2 = 0 /\
       is_done_first_chunk s2 = false /\ is_encsrc s2 = src /\
       is_mibenum s2 = mibenum_from_name name /\
       f_encoding (is_filter s2) = mibenum_from_name name).
Proof.
  intros Hw Hun Hd Hz Hne. unfold parserutils_inputstream_change_charset. rewrite Hd.
  rewrite (proj2 (Z.eqb_neq _ _) Hz). unfold parserutils__filter_setopt, filter_set_encoding.
  rewrite (proj2 (Z.eqb_neq _ _) Hz), (proj2 (Z.eqb_neq _ _) Hne).
  destruct (iconv_open _ _) as [cd|errno] eqn:Eo.
  - eexists _, _. split; [reflexivity|]. split; [by left|]. intros _.
    assert (Hun2 : forall m, untouched s (set_charset m src (set_filter
      {| f_cd := Some cd; f_int_enc := f_int_enc (is_filter s');
         f_encoding := mibenum_from_name name |} s'))) by (intros; destruct Hun; by split).
    split; [|split; [done|]].
    + destruct (Hun2 0) as [Eu Ec Ed _ Er _]. cbn in Eu, Ec, Ed, Er. destruct Hw.
      split; cbn; unfold unread in *; cbn; rewrite ?Eu, ?Ec, ?Ed; eauto.
    + split; [by eapply (se_open _ _ _ _ _ _ env)|done].
  - destruct errno; (eexists _, _; split; [reflexivity|]; split; [auto|done]).
Qed.
End First.
