(* ===== verification/Parser.v ===== *)
(** * Parser: the HTML parser a client uses (libhubbub/src/parser.c): an input
    stream, a tokeniser that reads it and, unless the client handles the tokens
    itself, a tree builder.

    The stream the parser holds a pointer to is the one the tokeniser reads: it
    is a field of the tokeniser here.  The tree builder is an interface, its
    state [TB] and the operations the parser calls. *)
From S2P Require Import Prelude Errors Utf8 Interfaces Buffer InputStream InputStreamSpec.
From S2P Require Import Entities Detect Tokens TokeniserState TokeniserMonad Tokeniser.

(** Pointers that are passed on and never looked at here. *)
Definition pointer : Type := Z.

(** hubbub_treebuilder_opttype, with the parameters of each. *)
Inductive treebuilder_option :=
  | HUBBUB_TREEBUILDER_ERROR_HANDLER (handler pw : pointer)
  | HUBBUB_TREEBUILDER_TREE_HANDLER (tree_handler : pointer)
  | HUBBUB_TREEBUILDER_DOCUMENT_NODE (document_node : pointer)
  | HUBBUB_TREEBUILDER_ENABLE_SCRIPTING (enable_scripting : bool).

(** hubbub_parser_opttype, with the parameters of each. *)
Inductive parser_option (P : Type) :=
  | HUBBUB_PARSER_TOKEN_HANDLER (handler : option (token_handler_fn P)) (pw : P)
  | HUBBUB_PARSER_ERROR_HANDLER (handler pw : pointer)
  | HUBBUB_PARSER_CONTENT_MODEL (model : hubbub_content_model)
  | HUBBUB_PARSER_TREE_HANDLER (tree_handler : pointer)
  | HUBBUB_PARSER_DOCUMENT_NODE (document_node : pointer)
  | HUBBUB_PARSER_ENABLE_SCRIPTING (enable_scripting : bool)
  | HUBBUB_PARSER_PAUSE (pause : bool)
  | HUBBUB_PARSER_OTHER.
Arguments HUBBUB_PARSER_TOKEN_HANDLER {P}.
Arguments HUBBUB_PARSER_ERROR_HANDLER {P}.
Arguments HUBBUB_PARSER_CONTENT_MODEL {P}.
Arguments HUBBUB_PARSER_TREE_HANDLER {P}.
Arguments HUBBUB_PARSER_DOCUMENT_NODE {P}.
Arguments HUBBUB_PARSER_ENABLE_SCRIPTING {P}.
Arguments HUBBUB_PARSER_PAUSE {P}.
Arguments HUBBUB_PARSER_OTHER {P}.

Class TreeBuilderOps (T TB : Type) := {
  tb_create : T -> hubbub_error * option TB * T;    (* installs its token handler *)
  tb_setopt : TB -> treebuilder_option -> hubbub_error * TB
}.

Record hubbub_parser {T TB : Type} := {
  p_tok : T;                    (* the tokeniser, and through it the stream *)
  p_tb : option TB
}.
Arguments hubbub_parser : clear implicits.

Section Parser.
Context {CD P TB : Type}.
Context (iconv_open : bytes -> bytes -> CD + iconv_errno)
        (iconv : CD -> bytes -> Z -> iconv_result CD).
Context (mibenum_from_name : bytes -> Z) (mibenum_to_name : Z -> bytes).
Context (malloc_ok realloc_ok : Z -> bool).
Context (dict : list hubbub_entity_node) (dict_root : Z).
Local Abbreviation stream := (parserutils_inputstream CD).
Local Abbreviation T := (hubbub_tokeniser stream parserutils_buffer P).
Context `{!TreeBuilderOps T TB}.
Local Abbreviation parser := (hubbub_parser T TB).

#[local] Instance stream_ops : InputStreamOps stream :=
  parserutils_inputstream_ops iconv_open iconv mibenum_from_name mibenum_to_name realloc_ok.
#[local] Instance buffer_ops : ByteBufferOps parserutils_buffer :=
  parserutils_buffer_ops realloc_ok.

Definition SIZEOF_PARSER : Z := 24.
Definition SIZEOF_TOKENISER : Z := 376.

Definition set_tok (t : T) (p : parser) : parser := {| p_tok := t; p_tb := p_tb p |}.
Definition set_tb (tb : option TB) (p : parser) : parser := {| p_tok := p_tok p; p_tb := tb |}.

(** Fixing up the encoding a client asked for, when it may be. *)
Definition fix_encoding (enc : option bytes) (fix_enc : bool) : option (option bytes) :=
  match enc with
  | Some name =>
      if fix_enc then
        let mibenum := mibenum_from_name name in
        if mibenum =? 0 then Some enc
        else mibenum ← hubbub_charset_fix_charset mibenum_from_name mibenum;
             Some (Some (mibenum_to_name mibenum))
      else Some enc
  | None => Some None
  end.

(** hubbub_parser_create; [pw] stands for the client data of a handler that is
    not set yet. *)
Definition hubbub_parser_create (enc : option bytes) (fix_enc : bool) (pw : P)
  : option (hubbub_error * option parser) :=
  if negb (malloc_ok SIZEOF_PARSER) then Some (HUBBUB_NOMEM, None) else
  enc ← fix_encoding enc fix_enc;
  match parserutils_inputstream_create iconv_open mibenum_from_name mibenum_to_name malloc_ok enc
          (match enc with Some _ => HUBBUB_CHARSET_CONFIDENT | None => HUBBUB_CHARSET_UNKNOWN end)
          (Some (hubbub_charset_extract mibenum_from_name)) with
  | (PARSERUTILS_OK, Some s) =>
      match hubbub_tokeniser_create (malloc_ok SIZEOF_TOKENISER)
              (fun _ => parserutils_buffer_create malloc_ok) s pw with
      | (HUBBUB_OK, Some tok) =>
          match tb_create tok with
          | (HUBBUB_OK, Some tb, tok) => Some (HUBBUB_OK, Some {| p_tok := tok; p_tb := Some tb |})
          | (error, _, _) => Some (error, None)
          end
      | (error, _) => Some (error, None)
      end
  | (perror, _) => Some (hubbub_error_from_parserutils_error perror, None)
  end.

(** Delegate an option to the tree builder, if there is one. *)
Definition tb_option (opt : treebuilder_option) (p : parser) : hubbub_error * parser :=
  match p_tb p with
  | Some tb => let '(error, tb) := tb_setopt tb opt in (error, set_tb (Some tb) p)
  | None => (HUBBUB_OK, p)
  end.

Definition tok_option (fuel : nat) (opt : tokeniser_option P) (p : parser)
  : option (hubbub_error * parser) :=
  '(error, tok) ← hubbub_tokeniser_setopt dict dict_root realloc_ok fuel opt (p_tok p);
  Some (error, set_tok tok p).

(** hubbub_parser_setopt *)
Definition hubbub_parser_setopt (fuel : nat) (type : parser_option P) (p : parser)
  : option (hubbub_error * parser) :=
  match type with
  | HUBBUB_PARSER_TOKEN_HANDLER handler pw =>
      tok_option fuel (HUBBUB_TOKENISER_TOKEN_HANDLER handler pw) (set_tb None p)
  | HUBBUB_PARSER_ERROR_HANDLER handler pw =>
      let '(result, p) := tb_option (HUBBUB_TREEBUILDER_ERROR_HANDLER handler pw) p in
      match result with
      | HUBBUB_OK => tok_option fuel HUBBUB_TOKENISER_ERROR_HANDLER p
      | _ => Some (result, p)
      end
  | HUBBUB_PARSER_CONTENT_MODEL model => tok_option fuel (HUBBUB_TOKENISER_CONTENT_MODEL model) p
  | HUBBUB_PARSER_PAUSE pause => tok_option fuel (HUBBUB_TOKENISER_PAUSE pause) p
  | HUBBUB_PARSER_TREE_HANDLER h => Some (tb_option (HUBBUB_TREEBUILDER_TREE_HANDLER h) p)
  | HUBBUB_PARSER_DOCUMENT_NODE n => Some (tb_option (HUBBUB_TREEBUILDER_DOCUMENT_NODE n) p)
  | HUBBUB_PARSER_ENABLE_SCRIPTING b =>
      Some (tb_option (HUBBUB_TREEBUILDER_ENABLE_SCRIPTING b) p)
  | HUBBUB_PARSER_OTHER => Some (HUBBUB_INVALID, p)
  end.

(** hubbub_parser_insert_chunk *)
Definition hubbub_parser_insert_chunk (data : bytes) (p : parser)
  : option (hubbub_error * parser) :=
  '(error, tok) ← hubbub_tokeniser_insert_chunk data (p_tok p);
  Some (error, set_tok tok p).

(** Appending to the stream of the tokeniser. *)
Definition append_input (data : option bytes) (p : parser)
  : option (parserutils_error * parser) :=
  '(perror, s) ← parserutils_inputstream_append realloc_ok (tk_input (p_tok p)) data;
  Some (perror, set_tok (set_tk_input s (p_tok p)) p).

Definition run (fuel : nat) (p : parser) : option (hubbub_error * parser) :=
  '(error, tok) ← hubbub_tokeniser_run dict dict_root realloc_ok fuel (p_tok p);
  Some (error, set_tok tok p).

Definition name_windows_1252 : bytes :=
  [87; 105; 110; 100; 111; 119; 115; 45; 49; 50; 53; 50].

(** An encoding that was detected is not supported: fall back to Windows-1252,
    which must still be possible, and run again. *)
Definition fall_back (fuel : nat) (p : parser) : option (hubbub_error * parser) :=
  let '(perror, s) :=
    parserutils_inputstream_change_charset iconv_open mibenum_from_name mibenum_to_name
      (tk_input (p_tok p)) name_windows_1252 HUBBUB_CHARSET_TENTATIVE in
  let p := set_tok (set_tk_input s (p_tok p)) p in
  match perror with
  | PARSERUTILS_INVALID => None  (* assert *)
  | PARSERUTILS_OK => run fuel p
  | _ => Some (hubbub_error_from_parserutils_error perror, p)
  end.

(** hubbub_parser_parse_chunk *)
Definition hubbub_parser_parse_chunk (fuel : nat) (data : bytes) (p : parser)
  : option (hubbub_error * parser) :=
  '(perror, p) ← append_input (Some data) p;
  match perror with
  | PARSERUTILS_OK =>
      '(error, p) ← run fuel p;
      match error with
      | HUBBUB_BADENCODING => fall_back fuel p
      | _ => Some (error, p)
      end
  | _ => Some (hubbub_error_from_parserutils_error perror, p)
  end.

(** hubbub_parser_completed *)
Definition hubbub_parser_completed (fuel : nat) (p : parser) : option (hubbub_error * parser) :=
  '(perror, p) ← append_input None p;
  match perror with
  | PARSERUTILS_OK => run fuel p
  | _ => Some (hubbub_error_from_parserutils_error perror, p)
  end.

(** hubbub_parser_read_charset *)
Definition hubbub_parser_read_charset (p : parser) : bytes * Z :=
  parserutils_inputstream_read_charset mibenum_to_name (tk_input (p_tok p)).
End Parser.
