(* ===== verification/Concrete.v ===== *)
(** * Concrete: an environment in which the hypotheses of the theorems hold.

    The modules outside src/ are replaced by small executable functions: an
    iconv that knows ASCII, a table with one character set, an allocator that
    refuses objects of 4 GB and more, an entity table with one entity. *)
From S2P Require Import Prelude Errors Utf8 Interfaces Buffer InputStream InputStreamSpec.
From S2P Require Import Entities Tokens TokeniserState.

(** ** iconv from ASCII to UTF-8 *)

Fixpoint ascii_prefix (d : bytes) : Z :=
  match d with
  | c :: d => if (0 <=? c) && (c <? 128) then 1 + ascii_prefix d else 0
  | [] => 0
  end.

Definition ascii_iconv (cd : unit) (data : bytes) (space : Z) : iconv_result unit :=
  let n := Z.min (ascii_prefix data) space in
  {| ir_consumed := n; ir_output := ztake n data;
     ir_error := if n =? zlen data then None
                 else if n =? space then Some E2BIG else Some EILSEQ;
     ir_cd := cd |}.

Definition ascii_open (to from : bytes) : unit + iconv_errno := inl tt.

Lemma ascii_prefix_range d : 0 <= ascii_prefix d <= zlen d.
Proof.
  induction d as [|c d IH]; cbn [ascii_prefix]; [done|]. rewrite zlen_cons. destruct (_ && _); lia.
Qed.

Lemma ascii_prefix_text d : Forall (fun c => 0 <= c < 128) (ztake (ascii_prefix d) d).
Proof.
  induction d as [|c d IH]; cbn [ascii_prefix]; [by rewrite ztake_le0|].
  destruct ((0 <=? c) && (c <? 128)) eqn:E; [|by rewrite ztake_le0].
  pose proof (ascii_prefix_range d). unfold ztake in *.
  replace (Z.to_nat (1 + ascii_prefix d)) with (S (Z.to_nat (ascii_prefix d))) by lia.
  constructor; [zbool; lia|exact IH].
Qed.

Lemma ascii_text d : Forall (fun c => 0 <= c < 128) d -> utf8_text d.
Proof.
  intros Hd. split; [|by eapply list.Forall_impl; [exact Hd|unfold text_byte; intros; lia]].
  intros i c Hi. pose proof (znth_Some_range _ _ _ Hi).
  pose proof (Forall_znth _ _ _ _ Hd Hi) as Hb. cbn beta in Hb. rewrite char_len_ascii by lia. lia.
Qed.

Lemma ascii_law : iconv_law ascii_iconv (fun _ => 0) 3.
Proof.
  split; intros; cbn [ascii_iconv ir_consumed ir_output ir_cd ir_error]; try lia;
    pose proof (ascii_prefix_range data) as Hr.
  - lia.
  - rewrite zlen_ztake. lia.
  - apply ascii_text. rewrite Z.min_comm, <- ztake_ztake by lia.
    apply Forall_take, ascii_prefix_text.
  - rewrite zlen_ztake. lia.
  - cbn [ascii_iconv ir_error] in *.
    destruct (Z.eqb_spec (Z.min (ascii_prefix data) space) (zlen data)); [done|]. lia.
Qed.

(** The same, but an octet that can start a character of two octets is left
    alone at the end of the data, as iconv leaves the start of a character. *)
Definition cut_iconv (cd : unit) (data : bytes) (space : Z) : iconv_result unit :=
  let r := ascii_iconv cd data space in
  {| ir_consumed := ir_consumed r; ir_output := ir_output r;
     ir_error := match zdrop (ir_consumed r) data with
                 | [c] => if (0xC2 <=? c) && (c <=? 0xDF) then Some EINVAL else ir_error r
                 | _ => ir_error r
                 end;
     ir_cd := ir_cd r |}.

Lemma cut_law : iconv_law cut_iconv (fun _ => 0) 3.
Proof.
  destruct ascii_law as [? Hc Hs Ht Hg Hi]. split; [done|exact Hc|exact Hs|exact Ht|exact Hg|].
  intros cd data space Hsp. unfold cut_iconv. cbn [ir_error ir_consumed]. intros He.
  apply (Hi cd); [done|]. revert He. by repeat case_match.
Qed.

(** ** Names, memory, entities *)

Definition one_charset (name : bytes) : Z := 3.
Definition one_name (mibenum : Z) : bytes := name_utf8.
Definition below_4GB (n : Z) : bool := n <? 2 ^ 32.

(** A table with the charsets the library itself names, and one more that iconv
    does not know. *)
Definition name_x_none : bytes := [120; 45; 110; 111; 110; 101].
Definition name_w1252 : bytes := [87; 105; 110; 100; 111; 119; 115; 45; 49; 50; 53; 50].
Definition few_table : list (bytes * Z) :=
  [(name_utf8, 106); (name_utf16, 1015); (name_utf32, 1017); (name_w1252, 2252); (name_x_none, 9)].
Definition few_charsets (name : bytes) : Z :=
  match List.find (fun e => bool_decide (e.1 = name)) few_table with Some e => e.2 | None => 0 end.
Definition few_names (mibenum : Z) : bytes :=
  match List.find (fun e => e.2 =? mibenum) few_table with Some e => e.1 | None => [] end.
Definition picky_open (to from : bytes) : unit + iconv_errno :=
  if bool_decide (from = name_x_none) then inr EINVAL else inl tt.

Lemma few_env : stream_env picky_open ascii_iconv few_charsets below_4GB (fun _ => 0) 3.
Proof.
  split; [apply ascii_law|done|done|done|]. unfold below_4GB. intros n Hn. by apply Z.ltb_lt.
Qed.

Lemma cut_env : stream_env picky_open cut_iconv few_charsets below_4GB (fun _ => 0) 3.
Proof.
  split; [apply cut_law|done|done|done|]. unfold below_4GB. intros n Hn. by apply Z.ltb_lt.
Qed.

Lemma concrete_env : stream_env ascii_open ascii_iconv one_charset below_4GB (fun _ => 0) 3.
Proof.
  split; [apply ascii_law|done|done|done|]. unfold below_4GB. intros n Hn. by apply Z.ltb_lt.
Qed.

Lemma below_4GB_bounded : realloc_bounded below_4GB.
Proof. intros n Hn. unfold below_4GB, ALLOC_MAX in *. zbool. lia. Qed.

(** "lt" and its terminator. *)
Definition lt_table : list hubbub_entity_node := [
  {| node_split := 108; node_lt := -1; node_eq := 1; node_gt := -1; node_value := 0 |};
  {| node_split := 116; node_lt := -1; node_eq := 2; node_gt := -1; node_value := 0 |};
  {| node_split := 0; node_lt := -1; node_eq := -1; node_gt := -1; node_value := 60 |}
].

Lemma lt_table_ok : entities_ok lt_table 0.
Proof. apply table_ok_entities. vm_compute. reflexivity. Qed.

(** ** A stream *)

(** What parserutils_inputstream_create returns, with "ab" converted and "c" and
    an octet that is not ASCII still to be converted. *)
Definition demo_buffer (text : bytes) : parserutils_buffer :=
  {| buf_alloc := text ++ zrep (DEFAULT_SIZE - zlen text) 0; buf_data := 0;
     buf_length := zlen text; buf_allocated := DEFAULT_SIZE |}.

Definition demo_stream : parserutils_inputstream unit :=
  {| is_utf8 := demo_buffer [97; 98]; is_cursor := 0; is_had_eof := false;
     is_raw := demo_buffer [99; 200]; is_done_first_chunk := true; is_mibenum := 3;
     is_encsrc := 0;
     is_filter := {| f_cd := Some tt; f_int_enc := 3; f_encoding := 3 |};
     is_csdetect := None |}.

Lemma demo_buffer_wf text : zlen text <= DEFAULT_SIZE -> wf_buffer (demo_buffer text).
Proof.
  intros Hl. pose proof (zlen_nonneg text). unfold DEFAULT_SIZE in *.
  split; unfold ALLOC_MAX, demo_buffer, DEFAULT_SIZE; cbn [buf_alloc buf_data buf_length buf_allocated];
    rewrite ?zlen_app, ?zlen_zrep by lia; lia.
Qed.

Lemma demo_stream_wf : stream_wf demo_stream.
Proof.
  split; try (by apply demo_buffer_wf); try done.
  - change (unread demo_stream) with [97; 98]. apply ascii_text. repeat constructor; lia.
  - by exists tt.
Qed.

(** What it returns when the table is [few_charsets], with [data] appended. *)
Definition fresh_stream (data : bytes) (detect : option detect_fn)
  : parserutils_inputstream unit :=
  {| is_utf8 := demo_buffer []; is_cursor := 0; is_had_eof := false;
     is_raw := demo_buffer data; is_done_first_chunk := false; is_mibenum := 0;
     is_encsrc := 0; is_filter := {| f_cd := Some tt; f_int_enc := 106; f_encoding := 106 |};
     is_csdetect := detect |}.

Lemma fresh_stream_wf data detect :
  zlen data <= DEFAULT_SIZE -> detector_ok detect -> stream_wf (fresh_stream data detect).
Proof.
  intros Hl Hd. split; try (by apply demo_buffer_wf); try done; [apply utf8_text_nil|by exists tt].
Qed.

(** ** A token handler that logs what it is given *)
Definition logging : token_handler_fn (list hubbub_token) :=
  fun log tok => (HUBBUB_OK, [], log ++ [tok]).
