(* ===== verification/StreamProperties.v ===== *)
(** * StreamProperties: what the input stream and its filter promise, each
    promise with a stream for which its hypotheses hold. *)
From S2P Require Import Prelude Errors Utf8 Interfaces Buffer InputStream InputStreamSpec.
From S2P Require Import Concrete.

Section Stream.
Context {CD : Type}.
Context (iconv_open : bytes -> bytes -> CD + iconv_errno)
        (iconv : CD -> bytes -> Z -> iconv_result CD).
Context (mibenum_from_name : bytes -> Z) (mibenum_to_name : Z -> bytes).
Context (realloc_ok : Z -> bool) (cd_pending : CD -> Z) (K : Z).
Local Abbreviation stream := (parserutils_inputstream CD).
Implicit Types s : stream.

(** C35: a chunk is converted until the input or the space runs out: the filter
    consumes a prefix of the input, writes well-formed text into the space it
    was given, replaces every illegal octet and always terminates. *)
Theorem process_chunk_spec (input : parserutils_filter CD) cd data outlen :
  iconv_law iconv cd_pending K -> 3 <= K -> f_cd input = Some cd -> 0 <= outlen ->
  exists e input' rest out k,
    parserutils__filter_process_chunk iconv input data outlen
      = Some (e, input', rest, out, outlen - zlen out) /\
    (e = PARSERUTILS_OK \/ e = PARSERUTILS_NOMEM) /\
    0 <= k <= zlen data /\ rest = zdrop k data /\ utf8_text out /\ zlen out <= outlen /\
    exists cd', f_cd input' = Some cd' /\
      zlen out + cd_pending cd' <= K * k + cd_pending cd.
Proof. intros Hl HK. by apply process_chunk_ok. Qed.

Hypothesis env : stream_env iconv_open iconv mibenum_from_name realloc_ok cd_pending K.

(** C32: peeking at a character that has been converted yields a pointer to it
    and its length and changes nothing; peeking where the text ends converts
    more input, and then either shows the first character converted, with all
    that was unread still before it, or answers that data is needed, that the
    input has ended, or an error. *)
Theorem inputstream_peek_spec s off :
  stream_wf s -> (exists c, znth (unread s) off = Some c) \/ off = zlen (unread s) ->
  exists r s', parserutils_inputstream_peek iconv_open iconv mibenum_from_name
      mibenum_to_name realloc_ok s off = Some (r, s') /\
    match znth (unread s) off with
    | Some c => s' = s /\
        exists stale, r = PeekOk (zdrop off (unread s) ++ stale) (char_len c)
    | None => end_answer cd_pending K s r s'
    end.
Proof.
  intros Hw [[c Hc]| ->].
  - rewrite Hc. destruct (peek_available _ _ _ mibenum_to_name _ _ _ env s off c Hw Hc)
      as [stale Hp]. eexists _, s. split; [exact Hp|]. eauto.
  - destruct (peek_end _ _ _ mibenum_to_name _ _ _ env s Hw) as (r & s' & Hp & Ha).
    exists r, s'. split; [exact Hp|].
    destruct (znth (unread s) (zlen (unread s))) eqn:E; [|exact Ha].
    apply znth_Some_range in E. lia.
Qed.

(** Advancing over text that has been converted removes exactly that text
    from what is unread; the stream stays well formed and still ends where it
    did. *)
Theorem inputstream_advance_spec s n :
  stream_wf s -> 0 <= n <= zlen (unread s) ->
  stream_wf (parserutils_inputstream_advance s n) /\
  unread (parserutils_inputstream_advance s n) = zdrop n (unread s) /\
  (stream_ended s -> stream_ended (parserutils_inputstream_advance s n)).
Proof.
  intros Hw Hn. destruct (advance_spec _ _ _ _ _ _ env s n Hw Hn) as (? & ? & _ & ?). done.
Qed.

(** C39: text inserted into the stream is what is read next, before everything
    that was unread; when memory is short nothing changes. *)
Theorem inputstream_insert_spec s d :
  stream_wf s -> utf8_text d ->
  exists e s', parserutils_inputstream_insert realloc_ok s d = Some (e, s') /\ stream_wf s' /\
    (e = PARSERUTILS_OK /\ unread s' = d ++ unread s \/
     e = PARSERUTILS_NOMEM /\ unread s' = unread s).
Proof. by eapply insert_stream_spec. Qed.

(** The chunks are appended in turn, as long as there is memory. *)
Fixpoint append_all (chunks : list bytes) s : option (parserutils_error * stream) :=
  match chunks with
  | [] => Some (PARSERUTILS_OK, s)
  | d :: chunks =>
      '(e, s) ← parserutils_inputstream_append realloc_ok s (Some d);
      match e with PARSERUTILS_OK => append_all chunks s | _ => Some (e, s) end
  end.

Lemma append_all_spec chunks s :
  stream_wf s ->
  exists e s', append_all chunks s = Some (e, s') /\ stream_wf s' /\ unread s' = unread s /\
    (e = PARSERUTILS_NOMEM \/
     e = PARSERUTILS_OK /\ buf_bytes (is_raw s') = buf_bytes (is_raw s) ++ concat chunks /\
     stream_total cd_pending K s' = stream_total cd_pending K s + K * zlen (concat chunks)).
Proof.
  revert s; induction chunks as [|d chunks IH]; intros s Hw; cbn [append_all].
  { exists PARSERUTILS_OK, s. do 3 (split; [done|]). right. cbn [concat].
    rewrite app_nil_r. change (zlen (@nil Z)) with 0. split; [done|]. split; [done|lia]. }
  destruct (feed_spec _ _ _ _ _ _ env s (Some d) Hw) as (e & s1 & -> & Hw1 & Hu & _ & He).
  cbn [mbind option_bind]. destruct He as [(-> & Hr & Ht)|(-> & _)].
  - destruct (IH s1 Hw1) as (e & s2 & -> & Hw2 & Hu2 & He). exists e, s2.
    split; [done|]. split; [done|]. split; [congruence|].
    destruct He as [->|(-> & Hr2 & Ht2)]; [by left|right].
    split; [done|]. cbn [concat]. rewrite Hr2, Hr, <- app_assoc, zlen_app. split; [done|lia].
  - exists PARSERUTILS_NOMEM, s1. auto.
Qed.

(** C40: a stream that was created and fed is well formed, has converted nothing
    yet, and holds all that it was fed unless memory was short; it is at its
    end only when that is nothing and the end was announced. *)
Theorem inputstream_feed_spec malloc_ok enc encsrc csdetect chunks s :
  parserutils_inputstream_create iconv_open mibenum_from_name mibenum_to_name malloc_ok
    enc encsrc csdetect = (PARSERUTILS_OK, Some s) ->
  detector_ok csdetect ->
  exists e s', append_all chunks s = Some (e, s') /\ stream_wf s' /\ unread s' = [] /\
    (e = PARSERUTILS_NOMEM \/
     e = PARSERUTILS_OK /\ buf_bytes (is_raw s') = concat chunks /\
     stream_total cd_pending K s' = K * zlen (concat chunks) /\
     exists s2, parserutils_inputstream_append realloc_ok s' None = Some (PARSERUTILS_OK, s2) /\
       stream_wf s2 /\ (stream_ended s2 <-> concat chunks = [])).
Proof.
  intros Hc Hd. destruct (create_spec _ _ _ _ _ _ _ env _ _ _ _ _ Hc Hd) as (Hw & Ht & Hu & Hr).
  destruct (append_all_spec chunks s Hw) as (e & s' & Ha & Hw' & Hu' & He).
  exists e, s'. split; [done|]. split; [done|]. split; [congruence|].
  destruct He as [->|(-> & Hr' & Ht')]; [by left|right]. split; [done|].
  rewrite Hr in Hr'. split; [done|]. split; [lia|].
  destruct (feed_spec _ _ _ _ _ _ env s' None Hw') as (e & s2 & Hf & Hw2 & _ & -> & Heof & Hl).
  exists s2. split; [done|]. split; [done|]. unfold stream_ended. rewrite Hl.
  rewrite <- (zlen_buf_bytes _ (sw_raw s' Hw')), Hr'. cbn [app].
  split; [intros [_ Hz]; by apply zlen_zero_inv|by intros ->].
Qed.
End Stream.

(** ** The theorems at concrete streams *)

Lemma process_chunk_spec_witness :
  exists e input' rest out k,
    parserutils__filter_process_chunk ascii_iconv (is_filter demo_stream) [97; 200; 98] 16
      = Some (e, input', rest, out, 16 - zlen out) /\
    (e = PARSERUTILS_OK \/ e = PARSERUTILS_NOMEM) /\
    0 <= k <= 3 /\ rest = zdrop k [97; 200; 98] /\ utf8_text out /\ zlen out <= 16 /\
    exists cd', f_cd input' = Some cd' /\ zlen out + 0 <= 3 * k + 0.
Proof.
  apply (process_chunk_spec ascii_iconv (fun _ => 0) 3 (is_filter demo_stream) tt [97; 200; 98] 16);
    [apply ascii_law|lia|reflexivity|lia].
Defined.

Lemma inputstream_peek_spec_witness :
  exists r s', parserutils_inputstream_peek ascii_open ascii_iconv one_charset one_name
      below_4GB demo_stream 2 = Some (r, s') /\
    match znth (unread demo_stream) 2 with
    | Some c => s' = demo_stream /\
        exists stale, r = PeekOk (zdrop 2 (unread demo_stream) ++ stale) (char_len c)
    | None => end_answer (fun _ => 0) 3 demo_stream r s'
    end.
Proof.
  apply (inputstream_peek_spec ascii_open ascii_iconv one_charset one_name below_4GB
    (fun _ => 0) 3 concrete_env demo_stream 2 demo_stream_wf).
  right. reflexivity.
Defined.

Lemma inputstream_advance_spec_witness :
  stream_wf (parserutils_inputstream_advance demo_stream 1) /\
  unread (parserutils_inputstream_advance demo_stream 1) = [98] /\
  (stream_ended demo_stream -> stream_ended (parserutils_inputstream_advance demo_stream 1)).
Proof.
  apply (inputstream_advance_spec ascii_open ascii_iconv one_charset below_4GB (fun _ => 0) 3
    concrete_env demo_stream 1 demo_stream_wf).
  vm_compute. split; discriminate.
Defined.

Lemma inputstream_insert_spec_witness :
  exists e s', parserutils_inputstream_insert below_4GB demo_stream [120; 121] = Some (e, s') /\
    stream_wf s' /\
    (e = PARSERUTILS_OK /\ unread s' = [120; 121] ++ unread demo_stream \/
     e = PARSERUTILS_NOMEM /\ unread s' = unread demo_stream).
Proof.
  apply (inputstream_insert_spec ascii_open ascii_iconv one_charset below_4GB (fun _ => 0) 3
    concrete_env demo_stream [120; 121] demo_stream_wf).
  apply ascii_text. repeat constructor; lia.
Defined.

Lemma inputstream_feed_spec_witness :
  exists s, parserutils_inputstream_create ascii_open one_charset one_name below_4GB
      None 0 None = (PARSERUTILS_OK, Some s) /\
  exists e s', append_all below_4GB [[97; 98]; [99]] s = Some (e, s') /\ stream_wf s' /\
    unread s' = [] /\
    (e = PARSERUTILS_NOMEM \/
     e = PARSERUTILS_OK /\ buf_bytes (is_raw s') = concat [[97; 98]; [99]] /\
     stream_total (fun _ => 0) 3 s' = 3 * zlen (concat [[97; 98]; [99]]) /\
     exists s2, parserutils_inputstream_append below_4GB s' None = Some (PARSERUTILS_OK, s2) /\
       stream_wf s2 /\ (stream_ended s2 <-> concat [[97; 98]; [99]] = [])).
Proof.
  eexists. split; [reflexivity|].
  eapply (inputstream_feed_spec ascii_open ascii_iconv one_charset one_name below_4GB
    (fun _ => 0) 3 concrete_env below_4GB None 0 None); [reflexivity|exact I].
Defined.
