(* ===== verification/TokeniserProperties.v ===== *)
(** * TokeniserProperties: the theorems about running the tokeniser, over any
    input stream and buffer that keep the promises of Interfaces.v, and
    executions of what they except. *)
From stdpp Require Import relations.
From S2P Require Import Prelude Errors Utf8 Interfaces Buffer InputStream InputStreamSpec.
From S2P Require Import Entities Tokens TokeniserState TokeniserMonad.
From S2P Require Import TokeniserEntities TokeniserTags TokeniserMarkup Tokeniser TokeniserWp.
From S2P Require Import TokeniserEmit TokeniserInv TokeniserSafeData TokeniserSafe Concrete.

Section Run.
Context {St B P : Type} `{!InputStreamOps St} `{!InputStream St}
  `{!ByteBufferOps B} `{!ByteBuffer B}.
Context (dict : list hubbub_entity_node) (dict_root : Z) (realloc_ok : Z -> bool).
Local Abbreviation T := (hubbub_tokeniser St B P).
Implicit Types t : T.

(** C4: from every state of the invariant, with as much fuel as 32 steps per
    octet of input that can become available, hubbub_tokeniser_run returns: no
    assertion fails, no pointer is read past the text it designates and no
    loop runs on for ever.  If it reports success or a pause, the tokeniser
    can be run again.  The invariant is that of the PCDATA content model: the
    token handler may pause but does not change the model, and CDATA sections
    are not processed. *)
Theorem run_safe fuel t (coverage := pcdata_coverage) :
  entities_ok dict dict_root -> inv (entity_reachable dict dict_root) t ->
  32 * total t + 20 < Z.of_nat fuel ->
  exists e t', hubbub_tokeniser_run dict dict_root realloc_ok fuel t = Some (e, t') /\
    (e = HUBBUB_OK \/ e = HUBBUB_PAUSED -> inv (entity_reachable dict dict_root) t').
Proof. intros Hd. by apply run_pcdata. Qed.

(** C6: the same in every content model, with a handler that sets the model at
    start tags, to RCDATA and CDATA at start tags with an ASCII name of at most
    nine octets, as a tree builder does.  Two outcomes are excepted, and the
    executions below show that the code goes wrong after them: the run comes to
    escaped text ("<!--" in RCDATA or CDATA), or it is left waiting between the
    name of the end tag that closes such an element and the next octet. *)
Theorem run_safe_in_every_model fuel t (coverage := every_model) :
  entities_ok dict dict_root -> inv (entity_reachable dict dict_root) t ->
  32 * total t + 20 < Z.of_nat fuel ->
  (exists t', rtc (moves dict dict_root realloc_ok) t t' /\ tk_escape_flag t' = true) \/
  exists e t', hubbub_tokeniser_run dict dict_root realloc_ok fuel t = Some (e, t') /\
    (e = HUBBUB_OK \/ e = HUBBUB_PAUSED ->
     inv (entity_reachable dict dict_root) t' \/
     tk_state t' = STATE_CLOSE_TAG_OPEN /\ cx_close_tag_match (tk_context t') = true).
Proof.
  intros Hd Hi Hf.
  destruct (run_ok dict dict_root realloc_ok Hd fuel t Hi Hf) as [[_ Hesc]|(e & t' & Hr & He)];
    [by left|right].
  exists e, t'. split; [exact Hr|]. intros Hor. destruct (He Hor) as [?|[_ ?]]; [by left|by right].
Qed.

(** C27: one turn of the loop of hubbub_tokeniser_run, in any state of the
    invariant: when it answers HUBBUB_OK it has come nearer to the end of the
    input, by the measure that counts the input left and the rank of the state,
    so the loop cannot turn for ever; when it asks for data or pauses the
    invariant still holds.  The exceptions are those of the coverage, for
    escaped text and for the name of an end tag.  The two states of CDATA
    sections are not in the invariant. *)
Theorem step_progress {cov : Coverage} fuel t :
  entities_ok dict dict_root -> inv (entity_reachable dict dict_root) t ->
  total t - pending t < Z.of_nat fuel ->
  raises t \/
  exists e t', run_comp (hubbub_tokeniser_step dict dict_root realloc_ok fuel) t = Some (e, t') /\
    (e = HUBBUB_OK \/ e = HUBBUB_NEEDDATA \/ e = HUBBUB_PAUSED ->
     inv (entity_reachable dict dict_root) t' \/ e = HUBBUB_NEEDDATA /\ caught t') /\
    (e = HUBBUB_OK -> 0 <= measure t' < measure t).
Proof.
  intros Hd Hi Hf.
  destruct (step_safe dict dict_root realloc_ok Hd (measure t) fuel t Hi (Z.le_refl _) Hf)
    as [?|Hw]; [by left|right].
  destruct (wp_run _ _ _ Hw) as (e & t' & Hr & Hp).
  exists e, t'. split; [done|]. split.
  - intros He. assert (Hs : stable e) by (unfold stable; tauto).
    destruct (Hp Hs) as [[? _]|?]; [by left|by right].
  - intros ->. destruct (Hp (or_introl eq_refl)) as [[Hi' Hm]|[? _]]; [|done].
    pose proof (measure_bounds _ _ Hi'). specialize (Hm eq_refl). lia.
Qed.
End Run.

(** ** A tokeniser

    It reads the stream of Concrete.v, through the models of libparserutils. *)

#[local] Instance demo_stream_ops : InputStreamOps (parserutils_inputstream unit) :=
  parserutils_inputstream_ops ascii_open ascii_iconv one_charset one_name below_4GB.
#[local] Instance demo_stream_iface : InputStream (parserutils_inputstream unit) :=
  parserutils_inputstream_iface ascii_open ascii_iconv one_charset one_name below_4GB
    (fun _ => 0) 3 concrete_env.
#[local] Instance demo_buffer_ops : ByteBufferOps parserutils_buffer :=
  parserutils_buffer_ops below_4GB.
#[local] Instance demo_buffer_iface : ByteBuffer parserutils_buffer :=
  parserutils_buffer_iface below_4GB below_4GB_bounded.

Definition demo_tokeniser
  : hubbub_tokeniser (parserutils_inputstream unit) parserutils_buffer (list hubbub_token) := {|
  tk_state := STATE_DATA;
  tk_content_model := HUBBUB_CONTENT_MODEL_PCDATA;
  tk_escape_flag := false;
  tk_process_cdata_section := false;
  tk_paused := false;
  tk_input := demo_stream;
  tk_buffer := demo_buffer [];
  tk_insert_buf := demo_buffer [];
  tk_context := zero_context;
  tk_token_handler := Some logging;
  tk_token_pw := []
|}.

Lemma demo_tokeniser_inv {cov : Coverage} : inv (entity_reachable lt_table 0) demo_tokeniser.
Proof.
  split; [split|]; try done; try (by apply demo_buffer_wf).
  all: try apply demo_stream_wf.
  all: try (vm_compute; split; discriminate).
  unfold mode_ok. destruct pcdata_only; [done|]. by split_and!.
Qed.

Lemma run_safe_witness (coverage := pcdata_coverage) :
  32 * total demo_tokeniser + 20 < Z.of_nat 300 /\
  exists e t', hubbub_tokeniser_run lt_table 0 below_4GB 300 demo_tokeniser = Some (e, t') /\
    (e = HUBBUB_OK \/ e = HUBBUB_PAUSED -> inv (entity_reachable lt_table 0) t').
Proof.
  assert (Hf : 32 * total demo_tokeniser + 20 < Z.of_nat 300) by (vm_compute; reflexivity).
  split; [exact Hf|].
  exact (run_safe lt_table 0 below_4GB 300 demo_tokeniser lt_table_ok demo_tokeniser_inv Hf).
Defined.

(** ** In RCDATA

    The same tokeniser after the start tag of a title, with [text] to read. *)
Definition title_context : tokeniser_context :=
  set_cx_last_start_tag_len 5
    (set_cx_last_start_tag_name [116; 105; 116; 108; 101; 0; 0; 0; 0; 0] zero_context).

Definition stream_with (text raw : bytes) (eof : bool) : parserutils_inputstream unit :=
  {| is_utf8 := demo_buffer text; is_cursor := 0; is_had_eof := eof; is_raw := demo_buffer raw;
     is_done_first_chunk := true; is_mibenum := 3; is_encsrc := 0;
     is_filter := {| f_cd := Some tt; f_int_enc := 3; f_encoding := 3 |};
     is_csdetect := None |}.

Definition title_tokeniser (s : parserutils_inputstream unit) :=
  set_tk_content_model HUBBUB_CONTENT_MODEL_RCDATA
    (set_tk_context title_context (set_tk_input s demo_tokeniser)).

Lemma title_tokeniser_inv (coverage := every_model) :
  inv (entity_reachable lt_table 0) (title_tokeniser demo_stream).
Proof.
  split; [split|]; try done; try (by apply demo_buffer_wf).
  all: try apply demo_stream_wf.
  all: try (vm_compute; split; discriminate).
  all: vm_compute; by split_and!.
Qed.

Lemma run_safe_in_every_model_witness (coverage := every_model) :
  (exists t', rtc (moves lt_table 0 below_4GB) (title_tokeniser demo_stream) t' /\
    tk_escape_flag t' = true) \/
  exists e t', hubbub_tokeniser_run lt_table 0 below_4GB 300 (title_tokeniser demo_stream)
      = Some (e, t') /\
    (e = HUBBUB_OK \/ e = HUBBUB_PAUSED ->
     inv (entity_reachable lt_table 0) t' \/
     tk_state t' = STATE_CLOSE_TAG_OPEN /\ cx_close_tag_match (tk_context t') = true).
Proof.
  apply (run_safe_in_every_model lt_table 0 below_4GB 300 (title_tokeniser demo_stream)
    lt_table_ok title_tokeniser_inv).
  vm_compute. reflexivity.
Defined.

Lemma step_progress_witness (coverage := every_model) :
  raises demo_tokeniser \/
  exists e t', run_comp (hubbub_tokeniser_step lt_table 0 below_4GB 20) demo_tokeniser = Some (e, t') /\
    (e = HUBBUB_OK \/ e = HUBBUB_NEEDDATA \/ e = HUBBUB_PAUSED ->
     inv (entity_reachable lt_table 0) t' \/ e = HUBBUB_NEEDDATA /\ caught t') /\
    (e = HUBBUB_OK -> 0 <= measure t' < measure demo_tokeniser).
Proof.
  apply (step_progress lt_table 0 below_4GB 20 demo_tokeniser lt_table_ok demo_tokeniser_inv).
  vm_compute. reflexivity.
Defined.

(** ** What is excepted *)

Definition tokens_of (t : hubbub_tokeniser (parserutils_inputstream unit) parserutils_buffer
    (list hubbub_token)) : option (list hubbub_token) :=
  '(_, t) ← hubbub_tokeniser_run lt_table 0 below_4GB 300 t; Some (tk_token_pw t).

(** Escaped text: the look back from '>' also replaces the length of '>' by that
    of the character it finds, here two octets, so one octet after the text is
    taken for text. *)
Example escaped_text_is_overread :
  tokens_of (title_tokeniser (stream_with [60; 33; 45; 45; 195; 169; 62] [] true)) =
  Some [TokenCharacter [60; 33; 45; 45; 195; 169; 62; 0]; TokenEOF].
Proof. vm_compute. reflexivity. Qed.

(** An end tag whose name is at the end of a chunk: run again, the tokeniser
    compares what follows with the array after the name, and its bound is
    passed when five spaces follow "</title". *)
Definition title_paused : option (hubbub_tokeniser (parserutils_inputstream unit)
    parserutils_buffer (list hubbub_token)) :=
  snd <$> hubbub_tokeniser_run lt_table 0 below_4GB 300
    (title_tokeniser (stream_with [60; 47; 116; 105; 116; 108; 101] [] false)).

Example name_array_is_overread :
  (tk_state <$> title_paused = Some STATE_CLOSE_TAG_OPEN) /\
  (t ← title_paused; tokens_of (set_tk_input
     (stream_with [60; 47; 116; 105; 116; 108; 101; 32; 32; 32; 32; 62] [] false) t)) <> None /\
  (t ← title_paused; tokens_of (set_tk_input
     (stream_with [60; 47; 116; 105; 116; 108; 101; 32; 32; 32; 32; 32; 62] [] false) t)) = None.
Proof. split; [|split]; vm_compute; done. Qed.

(** An empty CDATA section: the assertion of emit_current_chars fails. *)
Example empty_cdata_section_fails :
  (fun text => tokens_of (set_tk_process_cdata_section true
     (set_tk_input (stream_with text [] true) demo_tokeniser))) <$>
    [[60; 33; 91; 67; 68; 65; 84; 65; 91; 97; 93; 93; 62];
     [60; 33; 91; 67; 68; 65; 84; 65; 91; 93; 93; 62]] =
  [Some [TokenCharacter [97]; TokenEOF]; None].
Proof. vm_compute. reflexivity. Qed.
