(* ===== verification/Wapcaplet.v ===== *)
(** * Wapcaplet: string internment (libwapcaplet/src/libwapcaplet.c and the
    inline functions of libwapcaplet.h).

    Strings live in a heap, a map from addresses to objects; using an address
    that is not in it, as after free, has no result.  The chain of a bucket is
    linked both ways: forward by [s_next], and back by [s_prevptr], a pointer to
    the cell that holds the address of the string.  malloc is an argument: it
    answers according to the heap, the size and the number of earlier calls.
    Octets are unsigned here; hashing sign-extends them as a signed char. *)
From S2P Require Import Prelude.
From stdpp Require Import gmap.
Local Open Scope Z_scope.

Inductive lwc_error := lwc_error_ok | lwc_error_oom | lwc_error_range.

(** What a prevptr points to: [&ctx->buckets[n]] or [&str->next]. *)
Inductive slot := Bucket (n : Z) | NextOf (str : Z).

Record lwc_string := {
  s_prevptr : slot;
  s_next : Z;
  s_len : Z;
  s_hash : Z;
  s_refcnt : Z;
  s_insensitive : Z;
  s_data : bytes                 (* STR_OF: the characters and the final NUL *)
}.
Abbreviation heap := (gmap Z lwc_string).
Abbreviation NULL := 0.

Record lwc_context := { c_buckets : list Z; c_bucketcount : Z }.

(** The heap, the static [ctx] and the number of calls of malloc so far. *)
Record world := { w_heap : heap; w_ctx : option lwc_context; w_calls : nat }.

Definition set_prevptr (v : slot) (s : lwc_string) : lwc_string :=
  {| s_prevptr := v; s_next := s_next s; s_len := s_len s; s_hash := s_hash s;
     s_refcnt := s_refcnt s; s_insensitive := s_insensitive s; s_data := s_data s |}.
Definition set_next (v : Z) (s : lwc_string) : lwc_string :=
  {| s_prevptr := s_prevptr s; s_next := v; s_len := s_len s; s_hash := s_hash s;
     s_refcnt := s_refcnt s; s_insensitive := s_insensitive s; s_data := s_data s |}.
Definition set_refcnt (v : Z) (s : lwc_string) : lwc_string :=
  {| s_prevptr := s_prevptr s; s_next := s_next s; s_len := s_len s; s_hash := s_hash s;
     s_refcnt := v; s_insensitive := s_insensitive s; s_data := s_data s |}.
Definition set_insensitive (v : Z) (s : lwc_string) : lwc_string :=
  {| s_prevptr := s_prevptr s; s_next := s_next s; s_len := s_len s; s_hash := s_hash s;
     s_refcnt := s_refcnt s; s_insensitive := v; s_data := s_data s |}.

Definition set_heap (h : heap) (w : world) : world :=
  {| w_heap := h; w_ctx := w_ctx w; w_calls := w_calls w |}.
Definition set_ctx (c : option lwc_context) (w : world) : world :=
  {| w_heap := w_heap w; w_ctx := c; w_calls := w_calls w |}.
Definition count_call (w : world) : world :=
  {| w_heap := w_heap w; w_ctx := w_ctx w; w_calls := S (w_calls w) |}.

(** ** Characters *)

(** [*str] as an lwc_hash: a char is signed. *)
Definition schar (c : Z) : Z := u32 (if c <? 128 then c else c - 256).

Definition lwc__dolower (c : Z) : Z := if (65 <=? c) && (c <=? 90) then c + 97 - 65 else c.

Fixpoint hash_loop (f : Z -> Z) (z : Z) (str : bytes) : Z :=
  match str with
  | [] => z
  | c :: str => hash_loop f (Z.lxor (u32 (z * 0x01000193)) (schar (f c))) str
  end.
Definition lwc__calculate_hash (str : bytes) : Z := hash_loop id 0x811c9dc5 str.
Definition lwc__calculate_lcase_hash (str : bytes) : Z := hash_loop lwc__dolower 0x811c9dc5 str.

(** Is [strncmp(s1, s2, n)] zero?  It stops at a NUL. *)
Fixpoint strncmp (s1 s2 : bytes) (n : nat) : option bool :=
  match n with
  | O => Some true
  | S n =>
      match s1, s2 with
      | a :: s1, b :: s2 =>
          if a =? b then if a =? 0 then Some true else strncmp s1 s2 n else Some false
      | _, _ => None
      end
  end.

Fixpoint lwc__lcase_strncmp (s1 s2 : bytes) (n : nat) : option bool :=
  match n with
  | O => Some true
  | S n =>
      match s1, s2 with
      | a :: s1, b :: s2 =>
          if a =? lwc__dolower b then lwc__lcase_strncmp s1 s2 n else Some false
      | _, _ => None
      end
  end.

Definition lwc__lcase_memcpy (source : bytes) : bytes := List.map lwc__dolower source.

(** ** The context *)
Section Wapcaplet.
Context (malloc : nat -> heap -> Z -> option Z).

Definition NR_BUCKETS_DEFAULT : Z := 4091.
Definition SIZEOF_STRING : Z := 48.

Definition LWC_ALLOC (size : Z) (w : world) : option Z * world :=
  (malloc (w_calls w) (w_heap w) size, count_call w).

Definition lwc__initialise (w : world) : lwc_error * world :=
  match w_ctx w with
  | Some _ => (lwc_error_ok, w)
  | None =>
      match LWC_ALLOC 16 w with
      | (None, w) => (lwc_error_oom, w)
      | (Some _, w) =>
          match LWC_ALLOC (8 * NR_BUCKETS_DEFAULT) w with
          | (None, w) => (lwc_error_oom, w)
          | (Some _, w) =>
              (lwc_error_ok,
               set_ctx (Some {| c_buckets := zrep NR_BUCKETS_DEFAULT NULL;
                                c_bucketcount := NR_BUCKETS_DEFAULT |}) w)
          end
      end
  end.

(** Reading and changing the object at an address. *)
Definition load (p : Z) (w : world) : option lwc_string := w_heap w !! p.
Definition modify (p : Z) (f : lwc_string -> lwc_string) (w : world) : option world :=
  s ← w_heap w !! p;
  Some (set_heap (<[p := f s]> (w_heap w)) w).

(** [*pp = v] *)
Definition store (pp : slot) (v : Z) (w : world) : option world :=
  match pp with
  | Bucket n =>
      c ← w_ctx w;
      _ ← znth (c_buckets c) n;
      Some (set_ctx (Some {| c_buckets := <[Z.to_nat n := v]> (c_buckets c);
                             c_bucketcount := c_bucketcount c |}) w)
  | NextOf p => modify p (set_next v) w
  end.

(** The [while] of lwc__intern: the string found, or NULL. *)
Fixpoint search (fuel : nat) (compare : bytes -> bytes -> nat -> option bool) (h : Z) (s : bytes)
    (str : Z) (w : world) : option Z :=
  match fuel with
  | O => None
  | S fuel =>
      if str =? NULL then Some NULL else
      o ← load str w;
      same ← (if (s_hash o =? h) && (s_len o =? zlen s)
              then compare (s_data o) s (List.length s) else Some false);
      if (same : bool) then Some str else search fuel compare h s (s_next o) w
  end.

(** Linking a new string at the head of its bucket. *)
Definition link (str bucket : Z) (w : world) : option world :=
  c ← w_ctx w;
  head ← znth (c_buckets c) bucket;
  w ← modify str (set_prevptr (Bucket bucket)) w;
  w ← modify str (set_next head) w;
  w ← (if head =? NULL then Some w else modify head (set_prevptr (NextOf str)) w);
  store (Bucket bucket) str w.

(** lwc__intern.  [*ret] is left alone when there is no context to be had. *)
Definition lwc__intern (s : bytes) (hasher : bytes -> Z)
    (compare : bytes -> bytes -> nat -> option bool) (copy : bytes -> bytes) (w : world)
  : option (lwc_error * option Z * world) :=
  match lwc__initialise w with
  | (lwc_error_ok, w) =>
      c ← w_ctx w;
      let h := hasher s in
      let bucket := h mod c_bucketcount c in
      head ← znth (c_buckets c) bucket;
      found ← search (S (size (w_heap w))) compare h s head w;
      if negb (found =? NULL) then
        w ← modify found (fun o => set_refcnt (u32 (s_refcnt o + 1)) o) w;
        Some (lwc_error_ok, Some found, w)
      else
        match LWC_ALLOC (u64 (SIZEOF_STRING + zlen s + 1)) w with
        | (None, w) => Some (lwc_error_oom, Some NULL, w)
        | (Some str, w) =>
            let o := {| s_prevptr := Bucket bucket; s_next := NULL; s_len := zlen s; s_hash := h;
                        s_refcnt := 1; s_insensitive := NULL; s_data := copy s ++ [0] |} in
            w ← link str bucket (set_heap (<[str := o]> (w_heap w)) w);
            Some (lwc_error_ok, Some str, w)
        end
  | (error, w) => Some (error, None, w)
  end.

Definition lwc_intern_string (s : bytes) (w : world) : option (lwc_error * option Z * world) :=
  lwc__intern s lwc__calculate_hash strncmp id w.

(** The sum of offset and length is a size_t. *)
Definition lwc_intern_substring (str ssoffset sslen : Z) (w : world)
  : option (lwc_error * option Z * world) :=
  o ← load str w;
  if s_len o <=? ssoffset then Some (lwc_error_range, None, w)
  else if s_len o <? u64 (ssoffset + sslen) then Some (lwc_error_range, None, w)
  else
    s ← mem_read ssoffset sslen (s_data o);
    lwc_intern_string s w.

(** lwc__intern_caseless_string, into [str->insensitive]. *)
Definition lwc__intern_caseless_string (str : Z) (w : world) : option (lwc_error * world) :=
  o ← load str w;
  if negb (s_insensitive o =? NULL) then None  (* assert *) else
  s ← mem_read 0 (s_len o) (s_data o);
  '(error, ret, w) ←
    lwc__intern s lwc__calculate_lcase_hash lwc__lcase_strncmp lwc__lcase_memcpy w;
  match ret with
  | None => Some (error, w)
  | Some p => w ← modify str (set_insensitive p) w; Some (error, w)
  end.

(** ** References *)

Definition lwc_string_ref (str : Z) (w : world) : option (Z * world) :=
  w ← modify str (fun o => set_refcnt (u32 (s_refcnt o + 1)) o) w;
  Some (str, w).

(** Taking a string out of its chain. *)
Definition unlink (str : Z) (w : world) : option world :=
  o ← load str w;
  w ← store (s_prevptr o) (s_next o) w;
  o ← load str w;
  if s_next o =? NULL then Some w else modify (s_next o) (set_prevptr (s_prevptr o)) w.

(** lwc_string_destroy, with the release of a reference it makes in turn. *)
Definition destroy (unref : Z -> world -> option world) (str : Z) (w : world) : option world :=
  w ← unlink str w;
  o ← load str w;
  w ← (if negb (s_insensitive o =? NULL) && (s_refcnt o =? 0) then unref (s_insensitive o) w
       else Some w);
  _ ← load str w;
  Some (set_heap (delete str (w_heap w)) w).

(** lwc_string_unref *)
Fixpoint unref (fuel : nat) (str : Z) (w : world) : option world :=
  match fuel with
  | O => None
  | S fuel =>
      if str =? NULL then Some w else
      w ← modify str (fun o => set_refcnt (u32 (s_refcnt o - 1)) o) w;
      o ← load str w;
      if (s_refcnt o =? 0) || ((s_refcnt o =? 1) && (s_insensitive o =? str))
      then destroy (unref fuel) str w else Some w
  end.

(** A string destroyed may release another, which releases no third. *)
Definition lwc_string_unref (str : Z) (w : world) : option world := unref 3 str w.
Definition lwc_string_destroy (str : Z) (w : world) : option world := destroy (unref 3) str w.

(** ** Caseless comparison *)

(** Make sure the lower case string is there. *)
Definition need_insensitive (str : Z) (w : world) : option (lwc_error * world) :=
  o ← load str w;
  if s_insensitive o =? NULL then lwc__intern_caseless_string str w else Some (lwc_error_ok, w).

Definition lwc_string_caseless_isequal (str1 str2 : Z) (w : world)
  : option (lwc_error * option bool * world) :=
  '(error, w) ← need_insensitive str1 w;
  match error with
  | lwc_error_ok =>
      '(error, w) ← need_insensitive str2 w;
      match error with
      | lwc_error_ok =>
          o1 ← load str1 w;
          o2 ← load str2 w;
          Some (lwc_error_ok, Some (s_insensitive o1 =? s_insensitive o2), w)
      | _ => Some (error, None, w)
      end
  | _ => Some (error, None, w)
  end.

Definition lwc_string_caseless_hash_value (str : Z) (w : world)
  : option (lwc_error * option Z * world) :=
  '(error, w) ← need_insensitive str w;
  match error with
  | lwc_error_ok =>
      o ← load str w;
      i ← load (s_insensitive o) w;
      Some (lwc_error_ok, Some (s_hash i), w)
  | _ => Some (error, None, w)
  end.

Definition lwc_string_tolower (str : Z) (w : world) : option (lwc_error * option Z * world) :=
  '(error, w) ← need_insensitive str w;
  match error with
  | lwc_error_ok =>
      o ← load str w;
      '(p, w) ← lwc_string_ref (s_insensitive o) w;
      Some (lwc_error_ok, Some p, w)
  | _ => Some (error, None, w)
  end.

Definition lwc_string_isequal (str1 str2 : Z) : bool := str1 =? str2.

(** ** Iteration *)

Fixpoint walk (fuel : nat) (str : Z) (w : world) : option (list Z) :=
  match fuel with
  | O => None
  | S fuel =>
      if str =? NULL then Some [] else
      o ← load str w;
      rest ← walk fuel (s_next o) w;
      Some (str :: rest)
  end.

Fixpoint walk_buckets (heads : list Z) (w : world) : option (list Z) :=
  match heads with
  | [] => Some []
  | head :: heads =>
      l ← walk (S (size (w_heap w))) head w;
      rest ← walk_buckets heads w;
      Some (l ++ rest)
  end.

(** lwc_iterate_strings: the strings the callback, which changes none of them,
    is called with. *)
Definition lwc_iterate_strings (w : world) : option (list Z * world) :=
  match w_ctx w with
  | None => Some ([], w)
  | Some c =>
      l ← walk_buckets (c_buckets c) w;
      match l with
      | [] => Some ([], set_ctx None w)
      | _ => Some (l, w)
      end
  end.
End Wapcaplet.
