(* ===== verification/WapcapletInv.v ===== *)
(** * WapcapletInv: the invariant of the intern table and what linking,
    unlinking and counting references do to it.

    [table] is about the links: every bucket heads a doubly linked chain of
    exactly the strings that hash to it.  [strings] is about the rest of each
    string, its [core]: texts are unique, [s_insensitive] points to the lower
    case text, and [s_refcnt] counts the references of the client and of other
    strings. *)
From S2P Require Import Prelude Wapcaplet.
From stdpp Require Import gmap.
Local Open Scope Z_scope.

(** ** Chains *)

Fixpoint chain (h : heap) (pp : slot) (p : Z) (l : list Z) : Prop :=
  match l with
  | [] => p = NULL
  | a :: l => p = a /\ a <> NULL /\
      exists o, h !! a = Some o /\ s_prevptr o = pp /\ chain h (NextOf a) (s_next o) l
  end.

Definition same_links (o o' : lwc_string) : Prop :=
  s_prevptr o' = s_prevptr o /\ s_next o' = s_next o.

Lemma chain_same h h' pp p l :
  chain h pp p l ->
  (forall a o, a ∈ l -> h !! a = Some o -> exists o', h' !! a = Some o' /\ same_links o o') ->
  chain h' pp p l.
Proof.
  revert pp p; induction l as [|a l IH]; intros pp p; cbn [chain]; [done|].
  intros (-> & Hn & o & Ho & Hpp & Hc) Hs. split; [done|]. split; [done|].
  destruct (Hs a o) as (o' & Ho' & Hp & Hx); [apply list_elem_of_here|done|].
  exists o'. split; [done|]. split; [congruence|]. rewrite Hx.
  apply IH; [done|]. intros b ob Hb. apply Hs. by apply list_elem_of_further.
Qed.

Lemma chain_lookup h pp p l a : chain h pp p l -> a ∈ l -> a <> NULL /\ exists o, h !! a = Some o.
Proof.
  revert pp p; induction l as [|b l IH]; intros pp p; cbn [chain]; [by rewrite elem_of_nil|].
  intros (-> & Hn & o & Ho & _ & Hc) [->|Ha]%elem_of_cons; eauto.
Qed.

Lemma chain_head h pp p l : chain h pp p l -> p <> NULL -> exists l', l = p :: l'.
Proof. destruct l as [|a l]; cbn [chain]; [done|]. intros (-> & _) _. eauto. Qed.

(** The cell after a segment that starts in the cell [pp]. *)
Fixpoint last_slot (pp : slot) (l : list Z) : slot :=
  match l with [] => pp | x :: l => last_slot (NextOf x) l end.

Lemma last_slot_in pp l b : last_slot pp l = NextOf b -> b ∈ l \/ l = [] /\ pp = NextOf b.
Proof.
  revert pp; induction l as [|x l IH]; intros pp; cbn [last_slot]; [by right|].
  intros Hl. left. destruct (IH _ Hl) as [?|[-> Hx]]; [by apply list_elem_of_further|].
  injection Hx as ->. by apply list_elem_of_here.
Qed.

Lemma chain_prevptr h pp p l1 a l2 o :
  chain h pp p (l1 ++ a :: l2) -> h !! a = Some o -> s_prevptr o = last_slot pp l1.
Proof.
  revert pp p; induction l1 as [|x l1 IH]; intros pp p; cbn [chain app last_slot].
  { intros (-> & _ & o' & Ho' & <- & _) Ho. congruence. }
  intros (-> & _ & o' & Ho' & _ & Hc) Ho. by rewrite (IH _ _ Hc Ho).
Qed.

(** What follows a string in its chain. *)
Lemma chain_after h pp p l1 a l2 o :
  chain h pp p (l1 ++ a :: l2) -> h !! a = Some o -> chain h (NextOf a) (s_next o) l2.
Proof.
  revert pp p; induction l1 as [|x l1 IH]; intros pp p; cbn [chain app].
  - intros (-> & _ & o' & Ho' & _ & Hc) Ho. by simplify_eq.
  - intros (-> & _ & ox & _ & _ & Hc). by eapply IH.
Qed.

Lemma next_elsewhere h pp p l1 a l2 o x :
  chain h pp p (l1 ++ a :: l2) -> h !! a = Some o -> x <> NULL -> x ∉ l2 -> x <> s_next o.
Proof.
  intros Hc Ho Hx Hl ->. apply (chain_after _ _ _ _ _ _ _ Hc) in Ho.
  apply chain_head in Ho as [l' ->]; [|done]. apply Hl, list_elem_of_here.
Qed.

(** ** What the stores do to a chain *)

(** [p->prevptr = pp], unless [p] is NULL. *)
Definition rehead (pp : slot) (p : Z) (h : heap) : heap :=
  if p =? NULL then h else alter (set_prevptr pp) p h.
(** [*pp = v], when [pp] is in a string. *)
Definition store_heap (pp : slot) (v : Z) (h : heap) : heap :=
  match pp with Bucket _ => h | NextOf b => alter (set_next v) b h end.

Lemma rehead_ne pp p h a : a <> p -> rehead pp p h !! a = h !! a.
Proof. intros Hn. unfold rehead. case_match; [done|]. by rewrite lookup_alter_ne. Qed.

Lemma store_heap_ne pp v h a : pp <> NextOf a -> store_heap pp v h !! a = h !! a.
Proof. intros Hn. destruct pp; [done|]. cbn. rewrite lookup_alter_ne; congruence. Qed.

Lemma chain_rehead h pp pp' p l :
  chain h pp p l -> NoDup l -> chain (rehead pp' p h) pp' p l.
Proof.
  destruct l as [|a l]; cbn [chain]; [by intros ->|].
  intros (-> & Hn & o & Ho & Hpp & Hc) [Ha Hnd]%NoDup_cons. split; [done|]. split; [done|].
  unfold rehead. rewrite (proj2 (Z.eqb_neq _ _) Hn).
  exists (set_prevptr pp' o). rewrite lookup_alter_eq, Ho. split; [done|]. split; [done|].
  eapply chain_same; [exact Hc|]. intros b ob Hb Hob. exists ob.
  rewrite lookup_alter_ne by (by intros ->). by split.
Qed.

Lemma chain_unlink h pp p l1 a l2 o :
  (forall b, pp = NextOf b -> b ∉ l1 ++ a :: l2) ->
  chain h pp p (l1 ++ a :: l2) -> NoDup (l1 ++ a :: l2) -> h !! a = Some o ->
  chain (rehead (s_prevptr o) (s_next o) (store_heap (s_prevptr o) (s_next o) h)) pp
    (match l1 with [] => s_next o | _ => p end) (l1 ++ l2).
Proof.
  intros Hout Hc Hnd Ho. pose proof (chain_prevptr _ _ _ _ _ _ _ Hc Ho) as Hpp.
  set (h' := rehead _ _ _). revert pp p Hout Hc Hpp.
  induction l1 as [|x l1 IH]; intros pp p Hout; cbn [chain app last_slot].
  - intros (-> & Hn & o' & Ho' & _ & Hc) Hpp. assert (o' = o) as -> by congruence.
    apply NoDup_cons in Hnd as [Ha Hnd].
    unfold h'. rewrite Hpp. apply (chain_rehead _ (NextOf a)); [|done].
    eapply chain_same; [exact Hc|]. intros b ob Hb Hob. exists ob. split; [|done].
    rewrite store_heap_ne; [done|]. intros ->. apply (Hout b eq_refl).
    by apply list_elem_of_further.
  - intros (-> & Hn & ox & Hox & Hpx & Hc) Hpp. apply NoDup_cons in Hnd as [Hx Hnd].
    split; [done|]. split; [done|].
    specialize (IH Hnd (NextOf x) (s_next ox)).
    assert (Hnx : x <> s_next o).
    { eapply next_elsewhere; [exact Hc|done|done|]. intros Hx2. apply Hx, elem_of_app. right.
      by apply list_elem_of_further. }
    destruct l1 as [|y l1].
    + cbn [last_slot app] in *. exists (set_next (s_next o) ox).
      split; [|split; [done|]].
      * unfold h'. rewrite rehead_ne by done. rewrite Hpp. cbn [store_heap].
        by rewrite lookup_alter_eq, Hox.
      * apply IH; [|done|done]. intros b [= <-]. done.
    + exists ox. split; [|split; [done|]].
      * unfold h'. rewrite rehead_ne by done. rewrite store_heap_ne; [done|].
        rewrite Hpp. intros Hl. cbn [last_slot] in Hl.
        change (x ∉ (y :: l1) ++ a :: l2) in Hx. apply Hx, elem_of_app. left.
        destruct (last_slot_in _ _ _ Hl) as [?|[-> [= ->]]];
          [by apply list_elem_of_further|by apply list_elem_of_here].
      * apply IH; [|done|done]. intros b [= <-]. done.
Qed.

(** ** The table *)

Definition bucket_of (c : lwc_context) (o : lwc_string) : Z := s_hash o mod c_bucketcount c.

Record table (h : heap) (c : lwc_context) : Prop := {
  tb_count : 0 < c_bucketcount c /\ zlen (c_buckets c) = c_bucketcount c;
  tb_chain n head : znth (c_buckets c) n = Some head ->
    exists l, chain h (Bucket n) head l /\ NoDup l /\
      forall a, a ∈ l <-> exists o, h !! a = Some o /\ bucket_of c o = n
}.

Lemma table_empty n : 0 < n -> table ∅ {| c_buckets := zrep n NULL; c_bucketcount := n |}.
Proof.
  intros Hn. split; cbn [c_buckets c_bucketcount].
  - split; [done|]. rewrite zlen_zrep. lia.
  - intros i head Hi. assert (head = NULL) as ->.
    { unfold zrep in Hi. unfold znth in Hi. case_match; [done|].
      by apply lookup_replicate in Hi as [-> _]. }
    exists []. split; [done|]. split; [constructor|]. intros a. split; [by rewrite elem_of_nil|].
    intros (o & Ho & _). by rewrite lookup_empty in Ho.
Qed.

Lemma bucket_range h c o : table h c -> exists head, znth (c_buckets c) (bucket_of c o) = Some head.
Proof.
  intros [[Hn Hl] _]. apply znth_is_Some. rewrite Hl. unfold bucket_of.
  apply Z.mod_pos_bound. lia.
Qed.

(** Fields other than the links and the hash do not matter. *)
Lemma table_modify h c p o o' :
  table h c -> h !! p = Some o -> same_links o o' -> s_hash o' = s_hash o ->
  table (<[p := o']> h) c.
Proof.
  intros [Hc Hch] Hp Hl Hh. split; [done|]. intros n head Hn.
  destruct (Hch n head Hn) as (l & Hcl & Hnd & Hin). exists l. split; [|split; [done|]].
  - eapply chain_same; [exact Hcl|]. intros a oa Ha Hoa.
    destruct (decide (a = p)) as [->|]; [|exists oa; by rewrite lookup_insert_ne].
    rewrite lookup_insert_eq. exists o'. split; [done|]. congruence.
  - intros a. rewrite Hin. destruct (decide (a = p)) as [->|]; [|by rewrite lookup_insert_ne].
    rewrite lookup_insert_eq, Hp. unfold bucket_of.
    split; intros (x & [= <-] & Hx); (eexists; split; [reflexivity|]); congruence.
Qed.

(** ** Cores *)

Record core := {
  k_len : Z; k_hash : Z; k_refcnt : Z; k_insensitive : Z; k_data : bytes
}.
Definition core_of (o : lwc_string) : core :=
  {| k_len := s_len o; k_hash := s_hash o; k_refcnt := s_refcnt o;
     k_insensitive := s_insensitive o; k_data := s_data o |}.
Definition cores (h : heap) : gmap Z core := core_of <$> h.

Lemma cores_lookup h a o : h !! a = Some o -> cores h !! a = Some (core_of o).
Proof. intros Ho. unfold cores. by rewrite lookup_fmap, Ho. Qed.

Lemma cores_inv h a k : cores h !! a = Some k -> exists o, h !! a = Some o /\ core_of o = k.
Proof.
  unfold cores. rewrite lookup_fmap. destruct (h !! a) as [o|]; [|done]. intros [= <-]. eauto.
Qed.

Lemma cores_insert h a o : cores (<[a := o]> h) = <[a := core_of o]> (cores h).
Proof. apply fmap_insert. Qed.

Lemma cores_delete h a : cores (delete a h) = delete a (cores h).
Proof. apply fmap_delete. Qed.

Lemma cores_alter f h a : (forall o, core_of (f o) = core_of o) -> cores (alter f a h) = cores h.
Proof.
  intros Hf. apply map_eq. intros b. unfold cores. rewrite !lookup_fmap.
  destruct (decide (a = b)) as [->|]; [|by rewrite lookup_alter_ne].
  rewrite lookup_alter_eq. destruct (h !! b); cbn; [by rewrite Hf|done].
Qed.

Lemma cores_rehead pp p h : cores (rehead pp p h) = cores h.
Proof. unfold rehead. case_match; [done|]. by apply cores_alter. Qed.

Lemma cores_store_heap pp v h : cores (store_heap pp v h) = cores h.
Proof. destruct pp; [done|]. by apply cores_alter. Qed.

Lemma modify_alter p f w o :
  w_heap w !! p = Some o -> modify p f w = Some (set_heap (alter f p (w_heap w)) w).
Proof.
  intros Ho. unfold modify. rewrite Ho. cbn [mbind option_bind]. do 2 f_equal.
  apply map_eq. intros b. destruct (decide (b = p)) as [->|].
  - by rewrite lookup_insert_eq, lookup_alter_eq, Ho.
  - by rewrite lookup_insert_ne, lookup_alter_ne by done.
Qed.

Lemma modify_insert p f o h w :
  modify p f (set_heap (<[p := o]> h) w) = Some (set_heap (<[p := f o]> h) w).
Proof.
  unfold modify, set_heap. cbn [w_heap w_ctx w_calls]. rewrite lookup_insert_eq.
  cbn [mbind option_bind]. by rewrite insert_insert_eq.
Qed.

(** The hashes, and so the buckets, are in the cores. *)
Lemma bucket_by_core h h' c n a : cores h' = cores h ->
  (exists o, h !! a = Some o /\ bucket_of c o = n) <->
  (exists o, h' !! a = Some o /\ bucket_of c o = n).
Proof.
  intros E. split; intros (o & Ho & Hb); apply cores_lookup in Ho;
    [rewrite <- E in Ho|rewrite E in Ho]; apply cores_inv in Ho as (o' & Ho' & Hc);
    exists o'; (split; [done|]); injection Hc as _ Hh _ _ _; unfold bucket_of in *; congruence.
Qed.

(** ** Linking and unlinking *)

Lemma znth_replace {A} (l : list A) i j v :
  0 <= i < zlen l ->
  znth (<[Z.to_nat i := v]> l) j = if decide (j = i) then Some v else znth l j.
Proof.
  intros Hi. unfold znth, zlen in *. destruct (Z.ltb_spec j 0); [case_decide; [lia|done]|].
  case_decide as Hd; [subst j; by apply list_lookup_insert_eq; lia|].
  by rewrite list_lookup_insert_ne by lia.
Qed.

Definition set_bucket (c : lwc_context) (n v : Z) : lwc_context :=
  {| c_buckets := <[Z.to_nat n := v]> (c_buckets c); c_bucketcount := c_bucketcount c |}.

Lemma store_bucket n v w c head :
  w_ctx w = Some c -> znth (c_buckets c) n = Some head ->
  store (Bucket n) v w = Some (set_ctx (Some (set_bucket c n v)) w).
Proof. intros Hc Hn. unfold store. rewrite Hc. cbn [mbind option_bind]. by rewrite Hn. Qed.

Lemma bucket_insert (h : heap) c str o a m :
  (exists x, <[str := o]> h !! a = Some x /\ bucket_of c x = m) <->
  a = str /\ m = bucket_of c o \/ a <> str /\ exists x, h !! a = Some x /\ bucket_of c x = m.
Proof.
  destruct (decide (a = str)) as [->|Ha].
  - rewrite lookup_insert_eq. split; [intros (x & [= <-] & Hx); by left|].
    intros [[_ ->]|[? _]]; [by exists o|done].
  - rewrite lookup_insert_ne by done. split; [by right|by intros [[? _]|[_ ?]]].
Qed.

(** A new string [o], not yet linked, goes to the head of its bucket. *)
Lemma link_spec w c str o :
  w_ctx w = Some c -> table (w_heap w) c -> w_heap w !! str = None -> str <> NULL ->
  exists w' c', link str (bucket_of c o) (set_heap (<[str := o]> (w_heap w)) w) = Some w' /\
    w_ctx w' = Some c' /\ c_bucketcount c' = c_bucketcount c /\ table (w_heap w') c' /\
    cores (w_heap w') = <[str := core_of o]> (cores (w_heap w)) /\ w_calls w' = w_calls w.
Proof.
  intros Hc Ht Hf Hn0. set (h := w_heap w). set (n := bucket_of c o).
  destruct (bucket_range _ _ o Ht) as [head Hhead]. fold n in Hhead.
  destruct (tb_chain _ _ Ht n head Hhead) as (l & Hch & Hnd & Hin).
  unfold link. cbn [set_heap w_ctx]. rewrite Hc. cbn [mbind option_bind]. rewrite Hhead.
  cbn [mbind option_bind]. rewrite modify_insert. cbn [mbind option_bind].
  rewrite modify_insert. cbn [mbind option_bind].
  set (o1 := set_next head (set_prevptr (Bucket n) o)). fold h.
  assert (Hstr : str ∉ l) by (intros (x & Hx & _)%Hin; unfold h in *; congruence).
  assert (Hhead_ne : str <> head).
  { intros ->. destruct (chain_head _ _ _ _ Hch Hn0) as [l' ->]. apply Hstr, list_elem_of_here. }
  set (h2 := rehead (NextOf str) head (<[str := o1]> h)).
  assert (Hmod : (if head =? NULL then Some (set_heap (<[str := o1]> h) w)
                  else modify head (set_prevptr (NextOf str)) (set_heap (<[str := o1]> h) w))
                 = Some (set_heap h2 w)).
  { unfold h2, rehead. destruct (Z.eqb_spec head NULL) as [|Hh]; [done|].
    destruct (chain_head _ _ _ _ Hch Hh) as [l' ->].
    destruct (chain_lookup _ _ _ _ head Hch) as (_ & oh & Hoh); [apply list_elem_of_here|].
    rewrite (modify_alter _ _ _ oh); [done|]. cbn [set_heap w_heap]. by rewrite lookup_insert_ne. }
  unfold set_heap in Hmod |- *. cbn [w_ctx w_calls] in *. rewrite Hmod. cbn [mbind option_bind].
  rewrite (store_bucket n str {| w_heap := h2; w_ctx := w_ctx w; w_calls := w_calls w |} c head Hc Hhead).
  eexists _, _. split; [reflexivity|]. split; [reflexivity|]. split; [done|].
  cbn [set_ctx w_heap w_calls]. split; [|split; [|done]].
  2: { unfold h2. by rewrite cores_rehead, cores_insert. }
  pose proof (znth_Some_range _ _ _ Hhead) as Hr. destruct Ht as [Hcnt Htb].
  assert (Hb : forall a m, (exists x, h2 !! a = Some x /\ bucket_of c x = m) <->
    a = str /\ m = n \/ a <> str /\ exists x, h !! a = Some x /\ bucket_of c x = m).
  { intros a m. rewrite <- (bucket_by_core (<[str := o1]> h)) by (by apply cores_rehead).
    by rewrite bucket_insert. }
  split; [split; cbn; [apply Hcnt|unfold zlen; rewrite length_insert; apply Hcnt]|].
  cbn [set_bucket c_buckets]. intros m head' Hm. rewrite znth_replace in Hm by done.
  destruct (decide (m = n)) as [->|Hmn].
  - injection Hm as <-. exists (str :: l). split; [|split].
    + cbn [chain]. split; [done|]. split; [done|]. exists o1. split; [|split; [done|]].
      { unfold h2. rewrite rehead_ne by done. apply lookup_insert_eq. }
      apply (chain_rehead _ (Bucket n)); [|done]. eapply chain_same; [exact Hch|].
      intros b ob Hb' Hob. exists ob. rewrite lookup_insert_ne by (by intros ->). by split.
    + by constructor.
    + intros a. rewrite elem_of_cons, (Hb a n), Hin. destruct (decide (a = str)) as [->|Ha].
      * split; by left.
      * split; [intros [?|?]; [done|by right]|intros [[? _]|[_ ?]]; [done|by right]].
  - destruct (Htb m head' Hm) as (l' & Hch' & Hnd' & Hin'). exists l'. split; [|split; [done|]].
    + eapply chain_same; [exact Hch'|]. intros b ob Hb' Hob. exists ob.
      assert (b <> str) by (intros ->; unfold h in *; congruence).
      assert (b <> head).
      { intros ->. apply Hin' in Hb' as (x & Hx & Hbx). apply Hmn. rewrite <- Hbx.
        destruct (decide (head = NULL)) as [->|Hh].
        { destruct (chain_lookup _ _ _ _ NULL Hch'); [|done]. apply Hin'. by exists x. }
        destruct (chain_head _ _ _ _ Hch Hh) as [l2 ->].
        destruct (proj1 (Hin head)) as (y & Hy & <-); [apply list_elem_of_here|]. congruence. }
      unfold h2. by rewrite rehead_ne, lookup_insert_ne.
    + intros a. rewrite (Hb a m), Hin'. destruct (decide (a = str)) as [->|Ha].
      * split; [intros (x & Hx & _); unfold h in *; congruence|by intros [[_ ?]|[? _]]].
      * split; [by right|by intros [[? _]|[_ ?]]].
Qed.

Definition store_ctx (pp : slot) (v : Z) (c : lwc_context) : lwc_context :=
  match pp with Bucket n => set_bucket c n v | NextOf _ => c end.

Lemma store_spec pp v w c :
  w_ctx w = Some c ->
  match pp with
  | Bucket n => exists head, znth (c_buckets c) n = Some head
  | NextOf b => exists o, w_heap w !! b = Some o
  end ->
  store pp v w = Some {| w_heap := store_heap pp v (w_heap w); w_ctx := Some (store_ctx pp v c);
                         w_calls := w_calls w |}.
Proof.
  intros Hc. destruct pp as [n|b]; intros [x Hx].
  - by rewrite (store_bucket n v w c x).
  - unfold store. rewrite (modify_alter _ _ _ x) by done. unfold set_heap. by rewrite Hc.
Qed.

(** The links of a string in its chain. *)
Lemma chain_links h n head l1 p l2 o :
  chain h (Bucket n) head (l1 ++ p :: l2) -> NoDup (l1 ++ p :: l2) -> h !! p = Some o ->
  s_prevptr o = last_slot (Bucket n) l1 /\ s_prevptr o <> NextOf p /\ p <> s_next o /\
  (s_next o <> NULL -> s_next o ∈ l2) /\ p <> NULL.
Proof.
  intros Hc Hnd Ho. pose proof (chain_prevptr _ _ _ _ _ _ _ Hc Ho) as Hpp.
  apply NoDup_app in Hnd as (_ & Hdis & [Hp _]%NoDup_cons).
  assert (Hp0 : p <> NULL).
  { eapply chain_lookup; [exact Hc|]. apply elem_of_app. right. apply list_elem_of_here. }
  split; [done|]. split; [|split; [|split; [|done]]].
  - rewrite Hpp. intros Hl. destruct (last_slot_in _ _ _ Hl) as [Hin|[_ [=]]].
    apply (Hdis p Hin), list_elem_of_here.
  - by eapply next_elsewhere.
  - intros Hx. pose proof (chain_after _ _ _ _ _ _ _ Hc Ho) as Ha.
    destruct (chain_head _ _ _ _ Ha Hx) as [l' ->]. apply list_elem_of_here.
Qed.

Definition unlinked (h : heap) (o : lwc_string) : heap :=
  rehead (s_prevptr o) (s_next o) (store_heap (s_prevptr o) (s_next o) h).

Lemma unlinked_other h o a oa :
  h !! a = Some oa -> s_prevptr o <> NextOf a -> a <> s_next o ->
  unlinked h o !! a = Some oa.
Proof. intros Ha Hp Hn. unfold unlinked. by rewrite rehead_ne, store_heap_ne. Qed.

Lemma cores_unlinked h o : cores (unlinked h o) = cores h.
Proof. unfold unlinked. by rewrite cores_rehead, cores_store_heap. Qed.

Lemma bucket_delete (h : heap) c p a m :
  (exists x, delete p h !! a = Some x /\ bucket_of c x = m) <->
  a <> p /\ exists x, h !! a = Some x /\ bucket_of c x = m.
Proof.
  destruct (decide (a = p)) as [->|Ha].
  - rewrite lookup_delete_eq. split; [by intros (x & [=] & _)|by intros [? _]].
  - rewrite lookup_delete_ne by done. split; [by split|by intros [_ ?]].
Qed.

(** The table without a string. *)
Lemma unlinked_table h c p o :
  table h c -> h !! p = Some o ->
  table (delete p (unlinked h o)) (store_ctx (s_prevptr o) (s_next o) c).
Proof.
  intros Ht Ho. set (n := bucket_of c o). set (c' := store_ctx _ _ c).
  destruct (bucket_range _ _ o Ht) as [head Hhead]. fold n in Hhead.
  destruct Ht as [Hcnt Htb]. destruct (Htb n head Hhead) as (l & Hch & Hnd & Hin).
  assert (Hp : p ∈ l) by (apply Hin; by exists o).
  apply list_elem_of_split in Hp as (l1 & l2 & ->).
  destruct (chain_links _ _ _ _ _ _ _ Hch Hnd Ho) as (Hpp & Hpne & Hpn & Hnext & Hp0).
  pose proof (znth_Some_range _ _ _ Hhead) as Hr.
  assert (Hc' : c_bucketcount c' = c_bucketcount c) by (unfold c', store_ctx; by case_match).
  assert (Hb : forall a m, (exists x, delete p (unlinked h o) !! a = Some x /\ bucket_of c' x = m) <->
    a <> p /\ exists x, h !! a = Some x /\ bucket_of c x = m).
  { intros a m. assert (Hbo : forall x, bucket_of c' x = bucket_of c x)
      by (intros; unfold bucket_of; by rewrite Hc').
    setoid_rewrite Hbo. rewrite bucket_delete. by rewrite (bucket_by_core h (unlinked h o)) by apply cores_unlinked. }
  assert (Hhd : forall m head', znth (c_buckets c') m = Some head' ->
    m = n /\ head' = match l1 with [] => s_next o | _ => head end \/
    m <> n /\ znth (c_buckets c) m = Some head').
  { intros m head' Hm. unfold c' in Hm. rewrite Hpp in Hm.
    assert (Hset : l1 = [] \/ exists b, last_slot (Bucket n) l1 = NextOf b).
    { clear. destruct l1 as [|x l1]; [by left|right]. cbn [last_slot]. revert x.
      induction l1 as [|y l1 IH]; intros x; cbn [last_slot]; eauto. }
    destruct Hset as [->|[b Hl]].
    - cbn [last_slot store_ctx set_bucket c_buckets] in Hm. rewrite znth_replace in Hm by done.
      destruct (decide (m = n)); [injection Hm as <-; by left|by right].
    - rewrite Hl in Hm. cbn [store_ctx] in Hm.
      destruct (decide (m = n)) as [->|]; [left|by right]. split; [done|].
      destruct l1; [by cbn in Hl|congruence]. }
  split; [|intros m head' Hm].
  { rewrite Hc'. split; [apply Hcnt|]. unfold c'. destruct (s_prevptr o); [|apply Hcnt].
    cbn. unfold zlen. rewrite length_insert. apply Hcnt. }
  apply Hhd in Hm as [[-> ->]|[Hmn Hm]].
  - exists (l1 ++ l2). pose proof Hnd as (Hnd1 & Hdis & [Hp2 Hnd2]%NoDup_cons)%NoDup_app.
    split; [|split].
    + eapply chain_same; [apply (chain_unlink h (Bucket n) head l1 p l2 o); done|].
      intros a oa Ha Hoa. exists oa. rewrite lookup_delete_ne; [by split|].
      intros <-. apply elem_of_app in Ha as [Ha|Ha]; [|done].
      apply (Hdis p Ha), list_elem_of_here.
    + apply NoDup_app. split; [done|]. split; [|done]. intros a Ha Ha2.
      by apply (Hdis a Ha), list_elem_of_further.
    + intros a. rewrite (Hb a n), <- Hin, !elem_of_app, elem_of_cons.
      split; [|by intros [? [?|[?|?]]]; auto].
      intros Ha. split; [|destruct Ha; auto]. intros ->.
      destruct Ha as [Ha|Ha]; [|done]. apply (Hdis p Ha), list_elem_of_here.
  - destruct (Htb m head' Hm) as (l' & Hch' & Hnd' & Hin'). exists l'.
    assert (Hout : forall a, a ∈ l' -> a ∉ l1 ++ p :: l2).
    { intros a (x & Hx & Hxm)%Hin' (y & Hy & Hyn)%Hin. congruence. }
    split; [|split; [done|]].
    + eapply chain_same; [exact Hch'|]. intros a oa Ha Hoa. exists oa. split; [|done].
      pose proof Ha as Ha'. apply Hout in Ha.
      assert (a <> p) by (intros ->; apply Ha, elem_of_app; right; apply list_elem_of_here).
      rewrite lookup_delete_ne by done. apply unlinked_other; [done| |].
      * rewrite Hpp. intros Hl. destruct (last_slot_in _ _ _ Hl) as [Hl1|[_ [=]]].
        apply Ha, elem_of_app. by left.
      * intros ->. destruct (decide (s_next o = NULL)) as [E|E].
        { by destruct (chain_lookup _ _ _ _ (s_next o) Hch' Ha'). }
        apply Ha, elem_of_app. right. by apply list_elem_of_further, Hnext.
    + intros a. rewrite (Hb a m), Hin'. split; [|by intros [_ ?]].
      intros Hx. split; [|done]. intros ->. destruct Hx as (x & Hx & Hxm). simplify_eq.
Qed.

Lemma unlink_spec w c p o :
  w_ctx w = Some c -> table (w_heap w) c -> w_heap w !! p = Some o ->
  unlinked (w_heap w) o !! p = Some o /\
  unlink p w = Some {| w_heap := unlinked (w_heap w) o;
    w_ctx := Some (store_ctx (s_prevptr o) (s_next o) c); w_calls := w_calls w |}.
Proof.
  intros Hc Ht Ho. destruct (bucket_range _ _ o Ht) as [head Hhead].
  destruct (tb_chain _ _ Ht _ head Hhead) as (l & Hch & Hnd & Hin).
  assert (Hp : p ∈ l) by (apply Hin; by exists o).
  apply list_elem_of_split in Hp as (l1 & l2 & ->).
  destruct (chain_links _ _ _ _ _ _ _ Hch Hnd Ho) as (Hpp & Hpne & Hpn & Hnext & Hp0).
  split; [by apply unlinked_other|]. unfold unlink, load. rewrite Ho. cbn [mbind option_bind].
  rewrite (store_spec _ _ _ c Hc).
  2: { rewrite Hpp. destruct l1 as [|x l1]; [by exists head|]. cbn [last_slot].
       destruct (last_slot (NextOf x) l1) as [m|b] eqn:El.
       - exfalso. clear -El. revert x El. induction l1; intros x; cbn [last_slot]; [done|eauto].
       - destruct (last_slot_in _ _ _ El) as [Hb|[-> [= ->]]];
           eapply chain_lookup; try exact Hch; apply elem_of_app; left;
           [by apply list_elem_of_further|apply list_elem_of_here]. }
  cbn [mbind option_bind w_heap]. rewrite store_heap_ne by done. rewrite Ho. cbn [mbind option_bind].
  unfold unlinked, rehead. destruct (Z.eqb_spec (s_next o) NULL) as [|Hn]; [done|].
  assert (exists on, w_heap w !! s_next o = Some on) as [on Hon].
  { eapply chain_lookup; [exact Hch|]. apply elem_of_app. right.
    by apply list_elem_of_further, Hnext. }
  assert (exists on', store_heap (s_prevptr o) (s_next o) (w_heap w) !! s_next o = Some on')
    as [on' Hon'].
  { destruct (s_prevptr o) as [|b]; cbn [store_heap]; [by eexists|].
    destruct (decide (b = s_next o)) as [->|];
      [rewrite lookup_alter_eq, Hon|rewrite lookup_alter_ne by done]; by eexists. }
  by rewrite (modify_alter _ _ _ on').
Qed.

(** ** Counting references *)

(** How many strings have [a] for their lower case string. *)
Definition cnt (m : gmap Z core) (a : Z) : Z :=
  Z.of_nat (size (filter (fun e => k_insensitive e.2 = a) m)).
(** Whether [a] is its own. *)
Definition own (m : gmap Z core) (a : Z) : Z :=
  match m !! a with Some k => if decide (k_insensitive k = a) then 1 else 0 | None => 0 end.

Definition one (k : core) (a : Z) : Z := if decide (k_insensitive k = a) then 1 else 0.

Lemma cnt_new m p k a : m !! p = None -> cnt (<[p := k]> m) a = cnt m a + one k a.
Proof.
  intros Hp. unfold cnt, one. rewrite map_filter_insert. cbn [snd]. case_decide.
  - rewrite map_size_insert_None; [lia|]. by rewrite map_lookup_filter_None; left.
  - rewrite delete_id; [lia|]. done.
Qed.

Lemma cnt_delete m p k a : m !! p = Some k -> cnt m a = cnt (delete p m) a + one k a.
Proof.
  intros Hp. rewrite <- (insert_delete_id m p k Hp) at 1. apply cnt_new. apply lookup_delete_eq.
Qed.

Lemma cnt_update m p k k' a : m !! p = Some k ->
  cnt (<[p := k']> m) a = cnt m a - one k a + one k' a.
Proof.
  intros Hp. rewrite (cnt_delete m p k a Hp). rewrite <- insert_delete_eq.
  rewrite cnt_new by apply lookup_delete_eq. lia.
Qed.

Lemma cnt_nonneg m a : 0 <= cnt m a.
Proof. unfold cnt. lia. Qed.

Lemma one_range k a : 0 <= one k a <= 1.
Proof. unfold one. case_decide; lia. Qed.

Lemma own_one m p k : m !! p = Some k -> own m p = one k p.
Proof. intros Hp. unfold own. by rewrite Hp. Qed.

Lemma cnt_refers m p k : m !! p = Some k -> 1 <= cnt m (k_insensitive k).
Proof.
  intros Hp. rewrite (cnt_delete m p k _ Hp). pose proof (cnt_nonneg (delete p m) (k_insensitive k)).
  unfold one. rewrite decide_True by done. lia.
Qed.

Lemma own_le m a : own m a <= cnt m a.
Proof.
  unfold own. destruct (m !! a) as [k|] eqn:E; [|apply cnt_nonneg].
  case_decide as Hd; [|apply cnt_nonneg]. pose proof (cnt_refers m a k E) as Hr.
  by rewrite Hd in Hr.
Qed.

(** The references of the client, changed by [d] for one string. *)
Definition bump (ext : Z -> Z) (p d : Z) : Z -> Z := fun a => if decide (a = p) then ext a + d else ext a.

(** ** The strings *)

Definition lower (t : bytes) : bytes := List.map lwc__dolower t.
Definition nul_free (t : bytes) : Prop := Forall (fun c => c <> 0) t.

Record well_kept (k : core) (t : bytes) : Prop := {
  wk_data : k_data k = t ++ [0];
  wk_len : k_len k = zlen t;
  wk_hash : k_hash k = lwc__calculate_hash t;
  wk_nul : nul_free t
}.

Record strings (m : gmap Z core) (ext : Z -> Z) : Prop := {
  st_addr a k : m !! a = Some k -> a <> NULL;
  st_text a k : m !! a = Some k -> exists t, well_kept k t;
  st_unique a b ka kb : m !! a = Some ka -> m !! b = Some kb -> k_data ka = k_data kb -> a = b;
  st_lower a k : m !! a = Some k -> k_insensitive k <> NULL ->
    exists k', m !! k_insensitive k = Some k' /\ k_data k' = lower (k_data k);
  st_refcnt a k : m !! a = Some k -> k_refcnt k = ext a + cnt m a /\ k_refcnt k < 2 ^ 32;
  st_live a k : m !! a = Some k -> 0 < ext a + cnt m a - own m a;
  st_ext a : 0 <= ext a /\ (m !! a = None -> ext a = 0)
}.

Definition set_k_refcnt (v : Z) (k : core) : core :=
  {| k_len := k_len k; k_hash := k_hash k; k_refcnt := v;
     k_insensitive := k_insensitive k; k_data := k_data k |}.
Definition set_k_insensitive (v : Z) (k : core) : core :=
  {| k_len := k_len k; k_hash := k_hash k; k_refcnt := k_refcnt k;
     k_insensitive := v; k_data := k_data k |}.

(** What does not depend on the counts. *)
Definition same_string (k k' : core) : Prop :=
  k_len k' = k_len k /\ k_hash k' = k_hash k /\ k_insensitive k' = k_insensitive k /\
  k_data k' = k_data k.

Lemma lower_lower t : lower (lower t) = lower t.
Proof.
  unfold lower. rewrite List.map_map. apply List.map_ext. intros c. unfold lwc__dolower.
  destruct ((65 <=? c) && (c <=? 90)) eqn:E; [|by rewrite E].
  zbool. destruct ((65 <=? c + 97 - 65) && _) eqn:E2; [zbool; lia|done].
Qed.

Lemma lower_data t : lower (t ++ [0]) = lower t ++ [0].
Proof. unfold lower. by rewrite List.map_app. Qed.

(** Replacing a string by one that differs in its count only. *)
Lemma strings_recount m ext p k v d :
  strings m ext -> m !! p = Some k -> v = k_refcnt k + d -> v < 2 ^ 32 -> 0 <= ext p + d ->
  0 < ext p + d + cnt m p - own m p ->
  strings (<[p := set_k_refcnt v k]> m) (bump ext p d).
Proof.
  intros Hs Hp Hv Hlt Hext Hlive.
  assert (Hcnt : forall a, cnt (<[p := set_k_refcnt v k]> m) a = cnt m a).
  { intros a. rewrite (cnt_update m p k) by done. unfold one. cbn. lia. }
  assert (Hown : forall a, own (<[p := set_k_refcnt v k]> m) a = own m a).
  { intros a. unfold own. destruct (decide (a = p)) as [->|];
      [by rewrite lookup_insert_eq, Hp|by rewrite lookup_insert_ne]. }
  assert (Hback : forall a ka, <[p := set_k_refcnt v k]> m !! a = Some ka ->
    exists k0, m !! a = Some k0 /\ same_string k0 ka /\ (a <> p -> ka = k0) /\
      (a = p -> ka = set_k_refcnt v k)).
  { intros a ka. destruct (decide (a = p)) as [->|].
    - rewrite lookup_insert_eq. intros [= <-]. exists k. by split.
    - rewrite lookup_insert_ne by done. intros Hka. exists ka. by split. }
  split.
  - intros a ka (k0 & Hk0 & _)%Hback. by eapply st_addr.
  - intros a ka (k0 & Hk0 & (Hl & Hh & _ & Hd) & _)%Hback. destruct (st_text _ _ Hs _ _ Hk0) as [t []].
    exists t. split; congruence.
  - intros a b ka kb (k0 & Hk0 & (_ & _ & _ & Hd0) & _)%Hback (k1 & Hk1 & (_ & _ & _ & Hd1) & _)%Hback E.
    eapply st_unique; [done..|congruence].
  - intros a ka (k0 & Hk0 & (_ & _ & Hi & Hd) & _)%Hback Hn. rewrite Hi in Hn |- *.
    destruct (st_lower _ _ Hs _ _ Hk0 Hn) as (k' & Hk' & Hd').
    destruct (decide (k_insensitive k0 = p)) as [E|].
    + rewrite E, lookup_insert_eq. eexists. split; [done|]. cbn. congruence.
    + rewrite lookup_insert_ne by done. exists k'. split; [done|congruence].
  - intros a ka (k0 & Hk0 & _ & Hne & Heq)%Hback. rewrite Hcnt. unfold bump.
    destruct (st_refcnt _ _ Hs _ _ Hk0) as [Hr Hb]. case_decide as Ha.
    + rewrite (Heq Ha). subst a. assert (k0 = k) as -> by congruence. cbn. lia.
    + rewrite (Hne Ha). done.
  - intros a ka (k0 & Hk0 & _)%Hback. rewrite Hcnt, Hown. unfold bump.
    pose proof (st_live _ _ Hs _ _ Hk0). case_decide as Ha; [subst a; lia|done].
  - intros a. unfold bump. destruct (st_ext _ _ Hs a) as [H0 Hn]. case_decide as Ha.
    + subst a. split; [done|]. by rewrite lookup_insert_eq.
    + by rewrite lookup_insert_ne.
Qed.

(** A new string, with the reference its maker holds. *)
Lemma strings_new m ext p k t :
  strings m ext -> m !! p = None -> p <> NULL -> well_kept k t ->
  k_refcnt k = 1 -> k_insensitive k = NULL ->
  (forall a ka, m !! a = Some ka -> k_data ka <> t ++ [0]) ->
  strings (<[p := k]> m) (bump ext p 1).
Proof.
  intros Hs Hp Hp0 Hk Hr Hi Hnew.
  assert (Hcnt : forall a, a <> NULL -> cnt (<[p := k]> m) a = cnt m a).
  { intros a Ha. rewrite cnt_new by done. unfold one. rewrite Hi, decide_False; [lia|done]. }
  assert (Hext0 : ext p = 0) by (by apply Hs).
  assert (Hcnt0 : cnt m p = 0).
  { unfold cnt. replace (filter _ m) with (∅ : gmap Z core); [done|]. symmetry.
    apply map_empty_filter_2. intros a ka Ha E. cbn in E.
    destruct (st_lower _ _ Hs _ _ Ha) as (k' & Hk' & _); [congruence|]. congruence. }
  assert (Hin : forall a ka, <[p := k]> m !! a = Some ka ->
    a = p /\ ka = k \/ a <> p /\ m !! a = Some ka).
  { intros a ka. destruct (decide (a = p)) as [->|].
    - rewrite lookup_insert_eq. intros [= <-]. by left.
    - rewrite lookup_insert_ne by done. by right. }
  split.
  - intros a ka [[-> ->]|[_ Ha]]%Hin; [done|]. by eapply st_addr.
  - intros a ka [[-> ->]|[_ Ha]]%Hin; [by exists t|]. by eapply st_text.
  - intros a b ka kb [[-> ->]|[_ Ha]]%Hin [[-> ->]|[_ Hb]]%Hin E; [done| | |by eapply st_unique].
    + exfalso. apply (Hnew b kb Hb). rewrite <- E. apply Hk.
    + exfalso. apply (Hnew a ka Ha). rewrite E. apply Hk.
  - intros a ka [[-> ->]|[_ Ha]]%Hin Hn; [done|].
    destruct (st_lower _ _ Hs _ _ Ha Hn) as (k' & Hk' & Hd). exists k'. split; [|done].
    rewrite lookup_insert_ne; [done|congruence].
  - intros a ka [[-> ->]|[Hne Ha]]%Hin; unfold bump.
    + rewrite decide_True, Hcnt by done. lia.
    + rewrite decide_False, Hcnt by (done || by eapply st_addr). by eapply st_refcnt.
  - intros a ka [[-> ->]|[Hne Ha]]%Hin; unfold bump, own.
    + rewrite decide_True, Hcnt, lookup_insert_eq, Hi, decide_False by done. lia.
    + rewrite decide_False, Hcnt, lookup_insert_ne by (done || by eapply st_addr).
      by eapply st_live.
  - intros a. unfold bump. destruct (st_ext _ _ Hs a) as [H0 Hn].
    destruct (decide (a = p)) as [->|]; [|by rewrite lookup_insert_ne].
    rewrite lookup_insert_eq. by split; [lia|].
Qed.

(** A reference of the client becomes the link from [str] to its lower case. *)
Lemma strings_share m ext str k p kp :
  strings m ext -> m !! str = Some k -> k_insensitive k = NULL ->
  m !! p = Some kp -> k_data kp = lower (k_data k) -> 1 <= ext p ->
  (p = str -> 1 < ext p + cnt m p) ->
  strings (<[str := set_k_insensitive p k]> m) (bump ext p (-1)).
Proof.
  intros Hs Hk Hi Hp Hd Hext Hself.
  assert (Hp0 : p <> NULL) by (by eapply st_addr).
  set (m' := <[str := _]> m).
  assert (Hcnt : forall a, a <> NULL -> cnt m' a = cnt m a + (if decide (a = p) then 1 else 0)).
  { intros a Ha. unfold m'. rewrite (cnt_update m str k) by done. unfold one. cbn.
    rewrite Hi, (decide_False _ _ (P := NULL = a)) by done. repeat case_decide; congruence || lia. }
  assert (Hown : forall a, own m' a <= own m a + (if decide (a = p) then if decide (p = str) then 1 else 0 else 0)).
  { intros a. unfold own, m'. destruct (decide (a = str)) as [->|Hne].
    - rewrite lookup_insert_eq, Hk. cbn. repeat case_decide; congruence || lia.
    - rewrite lookup_insert_ne by done. repeat case_decide; congruence || lia. }
  assert (Hback : forall a ka, m' !! a = Some ka -> exists k0, m !! a = Some k0 /\
    k_data ka = k_data k0 /\ k_refcnt ka = k_refcnt k0 /\ k_len ka = k_len k0 /\ k_hash ka = k_hash k0 /\
    (a <> str -> ka = k0) /\ (a = str -> k_insensitive ka = p /\ k0 = k)).
  { intros a ka. unfold m'. destruct (decide (a = str)) as [->|].
    - rewrite lookup_insert_eq. intros [= <-]. exists k. by split.
    - rewrite lookup_insert_ne by done. intros Hka. exists ka. by split. }
  assert (Hfwd : forall a ka, m !! a = Some ka -> exists k', m' !! a = Some k' /\ k_data k' = k_data ka).
  { intros a ka Ha. unfold m'. destruct (decide (a = str)) as [->|].
    - rewrite lookup_insert_eq. eexists. split; [done|]. cbn. congruence.
    - rewrite lookup_insert_ne by done. by exists ka. }
  split.
  - intros a ka (k0 & Hk0 & _)%Hback. by eapply st_addr.
  - intros a ka (k0 & Hk0 & Hdd & _ & Hl & Hh & _)%Hback.
    destruct (st_text _ _ Hs _ _ Hk0) as [t []]. exists t. split; congruence.
  - intros a b ka kb (k0 & Hk0 & Hd0 & _)%Hback (k1 & Hk1 & Hd1 & _)%Hback E.
    eapply st_unique; [done..|congruence].
  - intros a ka (k0 & Hk0 & Hd0 & _ & _ & _ & Hne & Heq)%Hback Hn.
    destruct (decide (a = str)) as [->|Ha].
    + destruct (Heq eq_refl) as [Hip ->]. rewrite Hip. destruct (Hfwd _ _ Hp) as (k' & Hk' & Hd').
      exists k'. split; [done|congruence].
    + rewrite (Hne Ha) in *. destruct (st_lower _ _ Hs _ _ Hk0 Hn) as (k1 & Hk1 & Hd1).
      destruct (Hfwd _ _ Hk1) as (k' & Hk' & Hd'). exists k'. split; [done|congruence].
  - intros a ka (k0 & Hk0 & _ & Hr0 & _)%Hback. rewrite Hr0, Hcnt by (by eapply st_addr).
    destruct (st_refcnt _ _ Hs _ _ Hk0). unfold bump. destruct (decide (a = p)); lia.
  - intros a ka (k0 & Hk0 & _)%Hback. rewrite Hcnt by (by eapply st_addr).
    pose proof (st_live _ _ Hs _ _ Hk0). specialize (Hown a). unfold bump.
    destruct (decide (a = p)) as [->|]; [|lia]. destruct (decide (p = str)) as [E|]; [|lia].
    specialize (Hself E). rewrite E in *. assert (Ho : own m str = 0); [|lia].
    rewrite (own_one m str k) by done. unfold one. rewrite decide_False; [done|]. congruence.
  - intros a. unfold bump. destruct (st_ext _ _ Hs a) as [H0 Hn].
    assert (m' !! a = None -> m !! a = None).
    { unfold m'. destruct (decide (a = str)) as [->|];
        [by rewrite lookup_insert_eq|by rewrite lookup_insert_ne]. }
    destruct (decide (a = p)) as [->|Ha]; [split; [lia|]|by split; auto].
    intros Hnone. exfalso. assert (m !! p = None) by auto. congruence.
Qed.

Lemma cnt_only_own m p b kb :
  cnt m p = own m p -> m !! b = Some kb -> k_insensitive kb = p -> b = p.
Proof.
  intros Hc Hb Hi. destruct (decide (b = p)) as [|Hne]; [done|]. exfalso.
  pose proof (cnt_delete m b kb p Hb) as Hcd. pose proof (own_le (delete b m) p) as Ho.
  unfold own in Ho, Hc. rewrite lookup_delete_ne in Ho by done.
  unfold one in Hcd. rewrite decide_True in Hcd by done. lia.
Qed.

(** The references left when [p], that only the client and itself refer to, is
    gone: its reference to its lower case string is still to be released. *)
Definition released (ext : Z -> Z) (p : Z) (k : core) : Z -> Z := fun a =>
  if decide (a = p) then 0
  else if decide (a = k_insensitive k /\ k_insensitive k <> NULL) then ext a + 1 else ext a.

Lemma strings_remove m ext p k :
  strings m ext -> m !! p = Some k -> cnt m p = own m p ->
  strings (delete p m) (released ext p k).
Proof.
  intros Hs Hk Hc.
  assert (Hin : forall a ka, delete p m !! a = Some ka -> a <> p /\ m !! a = Some ka).
  { intros a ka. destruct (decide (a = p)) as [->|];
      [by rewrite lookup_delete_eq|by rewrite lookup_delete_ne]. }
  assert (Hown : forall a, a <> p -> own (delete p m) a = own m a).
  { intros a Ha. unfold own. by rewrite lookup_delete_ne. }
  assert (Hsum : forall a, a <> p -> a <> NULL ->
    released ext p k a + cnt (delete p m) a = ext a + cnt m a).
  { intros a Ha Ha0. rewrite (cnt_delete m p k a Hk). unfold released, one.
    rewrite decide_False by done. repeat case_decide; try lia; intuition congruence. }
  split.
  - intros a ka [_ Ha]%Hin. by eapply st_addr.
  - intros a ka [_ Ha]%Hin. by eapply st_text.
  - intros a b ka kb [_ Ha]%Hin [_ Hb]%Hin. by eapply st_unique.
  - intros a ka [Hne Ha]%Hin Hn. destruct (st_lower _ _ Hs _ _ Ha Hn) as (k' & Hk' & Hd).
    exists k'. split; [|done]. rewrite lookup_delete_ne; [done|]. intros E.
    apply Hne. by eapply cnt_only_own.
  - intros a ka [Hne Ha]%Hin. rewrite Hsum by (done || by eapply st_addr). by eapply st_refcnt.
  - intros a ka [Hne Ha]%Hin. rewrite Hown, Hsum by (done || by eapply st_addr). by eapply st_live.
  - intros a. destruct (st_ext _ _ Hs a) as [H0 Hn]. unfold released.
    destruct (decide (a = p)) as [->|Ha]; [done|]. rewrite lookup_delete_ne by done.
    case_decide as Hd; [|by split]. destruct Hd as [-> Hd0]. split; [lia|]. intros Hnone.
    destruct (st_lower _ _ Hs _ _ Hk Hd0) as (k' & Hk' & _). congruence.
Qed.

(** The lower case string of a lower case string is itself. *)
Lemma lower_leaf m ext p k kq :
  strings m ext -> m !! p = Some k -> k_insensitive k <> NULL ->
  m !! k_insensitive k = Some kq ->
  k_insensitive kq = NULL \/ k_insensitive kq = k_insensitive k.
Proof.
  intros Hs Hk Hn Hq. destruct (decide (k_insensitive kq = NULL)) as [|Hr]; [by left|right].
  destruct (st_lower _ _ Hs _ _ Hk Hn) as (k' & Hk' & Hd). assert (k' = kq) as -> by congruence.
  destruct (st_lower _ _ Hs _ _ Hq Hr) as (kr & Hkr & Hdr).
  eapply st_unique; [done|exact Hkr|exact Hq|]. by rewrite Hdr, Hd, lower_lower.
Qed.
