(* ===== verification/WapcapletSpec.v ===== *)
(** * WapcapletSpec: what string internment promises.

    A world is [world_ok] with the references [ext] that clients hold.  From such
    a world every operation returns, no freed string is used, and afterwards the
    world is as it should be for the references the client then holds. *)
From S2P Require Import Prelude.
From S2P Require Import Wapcaplet.
From S2P Require Import WapcapletInv.
From stdpp Require Import gmap.

Local Open Scope Z_scope.

(** ** Hashing, comparing and copying fit together *)

Record kind (hasher : bytes -> Z) (compare : bytes -> bytes -> nat -> option bool)
    (copy : bytes -> bytes) : Prop := {
  kd_hash s : hasher s = lwc__calculate_hash (copy s);
  kd_len s : zlen (copy s) = zlen s;
  kd_nul s : nul_free s -> nul_free (copy s);
  kd_compare t s : zlen t = zlen s -> nul_free s ->
    compare (t ++ [0]) s (List.length s) = Some (bool_decide (t = copy s))
}.

Lemma strncmp_spec t s :
  zlen t = zlen s -> nul_free s -> strncmp (t ++ [0]) s (List.length s) = Some (bool_decide (t = s)).
Proof.
  revert s; induction t as [|a t IH]; intros [|b s] Hl Hs;
    [done|unfold zlen in Hl; cbn in Hl; lia..|].
  rewrite !zlen_cons in Hl. inversion Hs as [|? ? Hb Hs']; subst. cbn [strncmp List.length app].
  destruct (Z.eqb_spec a b) as [->|Hne].
  - rewrite (proj2 (Z.eqb_neq _ _) Hb), IH by (done || lia). f_equal. apply bool_decide_ext.
    split; congruence.
  - rewrite bool_decide_eq_false_2 by congruence. done.
Qed.

Lemma lcase_strncmp_spec t s :
  zlen t = zlen s ->
  lwc__lcase_strncmp (t ++ [0]) s (List.length s) = Some (bool_decide (t = lower s)).
Proof.
  revert s; induction t as [|a t IH]; intros [|b s] Hl;
    [done|unfold zlen in Hl; cbn in Hl; lia..|].
  rewrite !zlen_cons in Hl. cbn [lwc__lcase_strncmp List.length app lower List.map].
  destruct (Z.eqb_spec a (lwc__dolower b)) as [->|Hne].
  - rewrite IH by lia. f_equal. apply bool_decide_ext. unfold lower. split; congruence.
  - rewrite bool_decide_eq_false_2 by congruence. done.
Qed.

Lemma hash_lower s : lwc__calculate_lcase_hash s = lwc__calculate_hash (lower s).
Proof.
  unfold lwc__calculate_lcase_hash, lwc__calculate_hash. generalize 0x811c9dc5.
  induction s as [|c s IH]; intros z; [done|]. cbn [hash_loop lower List.map]. apply IH.
Qed.

Lemma nul_free_lower s : nul_free s -> nul_free (lower s).
Proof.
  intros Hs. apply Forall_map. eapply list.Forall_impl; [exact Hs|]. cbn. intros c Hc.
  unfold lwc__dolower. case_match; zbool; lia.
Qed.

Lemma plain_kind : kind lwc__calculate_hash strncmp id.
Proof. split; [done|done|done|apply strncmp_spec]. Qed.

Lemma caseless_kind : kind lwc__calculate_lcase_hash lwc__lcase_strncmp lwc__lcase_memcpy.
Proof.
  split; [apply hash_lower| |apply nul_free_lower|intros; by apply lcase_strncmp_spec].
  intros s. unfold lwc__lcase_memcpy, zlen. by rewrite List.length_map.
Qed.

(** ** Worlds *)

Definition world_ok (w : world) (ext : Z -> Z) : Prop :=
  strings (cores (w_heap w)) ext /\
  match w_ctx w with Some c => table (w_heap w) c | None => w_heap w = ∅ end.

Definition text_of (w : world) (p : Z) : option bytes := s_data <$> w_heap w !! p.

(** No count is about to overflow. *)
Definition room (n : Z) (w : world) : Prop :=
  forall a o, w_heap w !! a = Some o -> s_refcnt o + n < 2 ^ 32.

Section Spec.
Context (malloc : nat -> heap -> Z -> option Z).
Hypothesis malloc_fresh : forall n h size a, malloc n h size = Some a -> h !! a = None /\ a <> NULL.

Lemma initialise_spec w ext :
  world_ok w ext ->
  exists e w', lwc__initialise malloc w = (e, w') /\ w_heap w' = w_heap w /\ world_ok w' ext /\
    (e = lwc_error_ok /\ (exists c, w_ctx w' = Some c) \/ e = lwc_error_oom).
Proof.
  intros [Hs Ht]. unfold lwc__initialise. destruct (w_ctx w) as [c|] eqn:Ec.
  { exists lwc_error_ok, w. unfold world_ok. rewrite Ec. split_and!; eauto. }
  unfold LWC_ALLOC. destruct (malloc _ _ 16).
  - destruct (malloc _ _ _); (eexists _, _; split; [reflexivity|]; split; [done|]).
    + split; [|left; split; [done|by eexists]]. split; [done|]. cbn. rewrite Ht.
      by apply (table_empty NR_BUCKETS_DEFAULT).
    + split; [|by right]. split; [done|]. cbn. by rewrite Ec.
  - eexists _, _. split; [reflexivity|]. split; [done|]. split; [|by right].
    split; [done|]. cbn. by rewrite Ec.
Qed.

Lemma chain_size h pp p l : chain h pp p l -> NoDup l -> (List.length l <= size h)%nat.
Proof.
  intros Hc Hnd. rewrite <- size_dom, <- (size_list_to_set (C := gset Z) l Hnd).
  apply subseteq_size. intros a Ha. rewrite elem_of_list_to_set in Ha.
  apply elem_of_dom. by destruct (chain_lookup _ _ _ _ a Hc Ha) as [_ ?].
Qed.

(** The answer of a search along a chain. *)
Definition sought (compare : bytes -> bytes -> nat -> option bool) h s (o : lwc_string) : Prop :=
  s_hash o = h /\ s_len o = zlen s /\ compare (s_data o) s (List.length s) = Some true.

Lemma search_spec compare h s w pp p l fuel :
  chain (w_heap w) pp p l -> (List.length l < fuel)%nat ->
  (forall a o, a ∈ l -> w_heap w !! a = Some o -> s_len o = zlen s ->
     exists b, compare (s_data o) s (List.length s) = Some b) ->
  exists r, search fuel compare h s p w = Some r /\
    (r = NULL /\ (forall a o, a ∈ l -> w_heap w !! a = Some o -> ~ sought compare h s o) \/
     r ∈ l /\ exists o, w_heap w !! r = Some o /\ sought compare h s o).
Proof.
  revert pp p fuel; induction l as [|a l IH]; intros pp p [|fuel] Hc Hf Hcmp; cbn [List.length] in Hf;
    try lia; cbn [chain search] in *.
  - subst p. exists NULL. split; [done|]. left. split; [done|]. intros a o. by rewrite elem_of_nil.
  - destruct Hc as (-> & Hn & o & Ho & _ & Hc). rewrite (proj2 (Z.eqb_neq _ _) Hn).
    unfold load. rewrite Ho. cbn [mbind option_bind].
    assert (Hb : exists b, (if (s_hash o =? h) && (s_len o =? zlen s)
        then compare (s_data o) s (List.length s) else Some false) = Some b /\
      (b = true <-> sought compare h s o)).
    { unfold sought. destruct (Z.eqb_spec (s_hash o) h); cbn [andb];
        [|exists false; split; [done|]; split; [done|tauto]].
      destruct (Z.eqb_spec (s_len o) (zlen s)) as [El|];
        [|exists false; split; [done|]; split; [done|tauto]].
      destruct (Hcmp a o (list_elem_of_here _ _) Ho El) as [b Hb]. exists b. split; [done|].
      rewrite Hb. split; [by intros ->|by intros (_ & _ & [= ->])]. }
    destruct Hb as (b & -> & Hb). cbn [mbind option_bind]. destruct b.
    + exists a. split; [done|]. right. split; [apply list_elem_of_here|]. exists o. tauto.
    + destruct (IH (NextOf a) (s_next o) fuel Hc ltac:(lia)) as (r & -> & Hr).
      { intros b ob Hb'. eapply Hcmp. by apply list_elem_of_further. }
      exists r. split; [done|]. destruct Hr as [[-> Hr]|[Hr Ho']].
      * left. split; [done|]. intros b ob [->|Hb']%elem_of_cons Hob; [|by eapply Hr].
        assert (ob = o) as -> by congruence. intros Hs. by apply Hb in Hs.
      * right. split; [by apply list_elem_of_further|done].
Qed.

(** What interning keeps of the strings that were there. *)
Record kept (w w' : world) : Prop := {
  kp_string a o : w_heap w !! a = Some o -> exists o', w_heap w' !! a = Some o' /\
    s_data o' = s_data o /\ s_insensitive o' = s_insensitive o /\ s_len o' = s_len o;
  kp_cnt a : a <> NULL -> cnt (cores (w_heap w')) a = cnt (cores (w_heap w)) a;
  kp_room n : room (n + 1) w -> 0 <= n -> n + 1 < 2 ^ 32 -> room n w'
}.

Lemma refcnt_range w ext p o : world_ok w ext -> w_heap w !! p = Some o -> 1 <= s_refcnt o < 2 ^ 32.
Proof.
  intros [Hs _] Ho. apply cores_lookup in Ho. pose proof (st_refcnt _ _ Hs _ _ Ho) as [Hr Hb].
  pose proof (st_live _ _ Hs _ _ Ho). pose proof (own_le (cores (w_heap w)) p).
  assert (0 <= own (cores (w_heap w)) p) by (unfold own; repeat case_match; lia). cbn in Hr, Hb. lia.
Qed.

(** Replacing a string by one with another count. *)
Lemma recount_spec w ext p o v d :
  world_ok w ext -> w_heap w !! p = Some o -> v = s_refcnt o + d -> v < 2 ^ 32 ->
  0 <= ext p + d -> 0 < ext p + d + cnt (cores (w_heap w)) p - own (cores (w_heap w)) p ->
  world_ok (set_heap (<[p := set_refcnt v o]> (w_heap w)) w) (bump ext p d).
Proof.
  intros [Hs Ht] Ho Hv Hb Hext Hlive. split.
  - cbn [set_heap w_heap]. rewrite cores_insert.
    replace (core_of (set_refcnt v o)) with (set_k_refcnt v (core_of o)) by done.
    apply strings_recount; try done. by apply cores_lookup.
  - cbn [set_heap w_heap w_ctx]. destruct (w_ctx w) as [c|].
    + by eapply table_modify.
    + by rewrite Ht, lookup_empty in Ho.
Qed.

Lemma ref_spec w ext p o :
  world_ok w ext -> w_heap w !! p = Some o -> s_refcnt o + 1 < 2 ^ 32 ->
  exists w', modify p (fun o => set_refcnt (u32 (s_refcnt o + 1)) o) w = Some w' /\
    w_heap w' = <[p := set_refcnt (s_refcnt o + 1) o]> (w_heap w) /\
    world_ok w' (bump ext p 1) /\ kept w w'.
Proof.
  intros Hw Ho Hb. pose proof (refcnt_range _ _ _ _ Hw Ho). unfold modify. rewrite Ho.
  cbn [mbind option_bind]. rewrite u32_small by lia. eexists. split; [reflexivity|].
  split; [done|]. pose proof Hw as [Hs _]. pose proof (cores_lookup _ _ _ Ho) as Hk.
  split.
  - apply recount_spec; try done; [destruct (st_ext _ _ Hs p); lia|].
    pose proof (st_live _ _ Hs _ _ Hk). lia.
  - split; cbn [set_heap w_heap].
    + intros a oa Ha. destruct (decide (a = p)) as [->|].
      * rewrite lookup_insert_eq. eexists. split; [done|]. cbn. split_and!; congruence.
      * rewrite lookup_insert_ne by done. by exists oa.
    + intros a _. rewrite cores_insert, (cnt_update _ p (core_of o)) by done. unfold one. cbn. lia.
    + intros n Hr Hn Hn2 a oa. destruct (decide (a = p)) as [->|].
      * cbn [set_heap w_heap]. rewrite lookup_insert_eq. intros [= <-]. specialize (Hr p o Ho). cbn. lia.
      * cbn [set_heap w_heap]. rewrite lookup_insert_ne by done. intros Ha. specialize (Hr a oa Ha). lia.
Qed.

(** What interning [t] promises. *)
Definition interned (w : world) (ext : Z -> Z) (t : bytes) (e : lwc_error) (ret : option Z)
    (w' : world) : Prop :=
  e = lwc_error_ok /\ (exists p, ret = Some p /\ text_of w' p = Some (t ++ [0]) /\
    world_ok w' (bump ext p 1) /\ kept w w') \/
  e = lwc_error_oom /\ (ret = None \/ ret = Some NULL) /\ w_heap w' = w_heap w /\ world_ok w' ext.

(** A string that is not there yet is allocated and linked. *)
Lemma new_spec w ext c str o t :
  world_ok w ext -> w_ctx w = Some c -> w_heap w !! str = None -> str <> NULL ->
  well_kept (core_of o) t -> s_refcnt o = 1 -> s_insensitive o = NULL ->
  (forall a oa, w_heap w !! a = Some oa -> s_data oa <> t ++ [0]) ->
  exists w', link str (bucket_of c o) (set_heap (<[str := o]> (w_heap w)) w) = Some w' /\
    text_of w' str = Some (t ++ [0]) /\ world_ok w' (bump ext str 1) /\ kept w w'.
Proof.
  intros [Hs Ht] Hc Hf Hn Hk Hr Hi Hnew. rewrite Hc in Ht.
  destruct (link_spec w c str o Hc Ht Hf Hn) as (w' & c' & Hl & Hc' & Hcount & Ht' & Hco & _).
  assert (Hfc : cores (w_heap w) !! str = None) by (unfold cores; by rewrite lookup_fmap, Hf).
  exists w'. split; [exact Hl|]. split; [|split; [|split]].
  - assert (Hx : cores (w_heap w') !! str = Some (core_of o)) by (by rewrite Hco, lookup_insert_eq).
    apply cores_inv in Hx as (o' & Ho' & E). unfold text_of. rewrite Ho'. cbn. f_equal.
    injection E as _ _ _ _ ->. apply Hk.
  - split; [|by rewrite Hc']. rewrite Hco. eapply strings_new; try done.
    intros a ka (oa & Ha & <-)%cores_inv. cbn. by eapply Hnew.
  - intros a oa Ha.
    assert (Hx : cores (w_heap w') !! a = Some (core_of oa)).
    { rewrite Hco, lookup_insert_ne by congruence. by apply cores_lookup. }
    apply cores_inv in Hx as (o' & Ho' & E). exists o'. split; [done|].
    injection E as -> _ _ -> ->. by split_and!.
  - intros a Ha. rewrite Hco, cnt_new by done. unfold one. cbn. rewrite Hi, decide_False; [lia|done].
  - intros n Hroom Hn0 Hn1 a oa Ha.
    apply cores_lookup in Ha. rewrite Hco in Ha. destruct (decide (a = str)) as [->|].
    + rewrite lookup_insert_eq in Ha. injection Ha as _ _ Hrr _ _. lia.
    + rewrite lookup_insert_ne in Ha by done. apply cores_inv in Ha as (o' & Ho' & E).
      injection E as _ _ E _ _. specialize (Hroom a o' Ho'). lia.
Qed.

Lemma intern_spec hasher compare copy s w ext :
  kind hasher compare copy -> world_ok w ext -> nul_free s -> room 1 w ->
  exists e ret w', lwc__intern malloc s hasher compare copy w = Some (e, ret, w') /\
    interned w ext (copy s) e ret w'.
Proof.
  intros Hkd Hw Hs Hroom. unfold lwc__intern.
  destruct (initialise_spec w ext Hw) as (e & w1 & -> & Hh & Hw1 & He).
  destruct He as [[-> [c Hc]]| ->].
  2: { eexists _, _, _. split; [reflexivity|]. right. split_and!; auto. }
  rewrite Hc. cbn [mbind option_bind]. set (h := hasher s).
  pose proof Hw1 as [Hst Ht]. rewrite Hc in Ht.
  assert (Hrange : exists head, znth (c_buckets c) (h mod c_bucketcount c) = Some head).
  { destruct Ht as [[H1 H2] _]. apply znth_is_Some. rewrite H2. apply Z.mod_pos_bound. lia. }
  destruct Hrange as [head Hhead]. rewrite Hhead. cbn [mbind option_bind].
  destruct (tb_chain _ _ Ht _ _ Hhead) as (l & Hch & Hnd & Hin).
  assert (Htext : forall a o, w_heap w1 !! a = Some o -> exists t, well_kept (core_of o) t).
  { intros a o Ho. eapply st_text; [exact Hst|]. by apply cores_lookup. }
  destruct (search_spec compare h s w1 _ head l (S (size (w_heap w1))) Hch) as (r & -> & Hr).
  { apply chain_size in Hch; [lia|done]. }
  { intros a o _ Ho Hlen. destruct (Htext a o Ho) as (t & [Hd Hl _ _]). cbn in Hd, Hl.
    exists (bool_decide (t = copy s)). rewrite Hd. apply Hkd; [congruence|done]. }
  cbn [mbind option_bind]. destruct Hr as [[-> Hno]|(Hrl & o & Ho & Hh1 & Hlen & Hcmp)].
  - cbn [negb Z.eqb].
    assert (Hnew : forall a oa, w_heap w1 !! a = Some oa -> s_data oa <> copy s ++ [0]).
    { intros a oa Ha E. destruct (Htext a oa Ha) as (t & [Hd Hl Hhash _]). cbn in Hd, Hl, Hhash.
      assert (t = copy s) as -> by (rewrite Hd in E; by apply app_inj_tail in E as [? _]).
      assert (Hhs : s_hash oa = h) by (unfold h; by rewrite (kd_hash _ _ _ Hkd)).
      apply (Hno a oa); [|done|].
      - apply Hin. exists oa. split; [done|]. unfold bucket_of. by rewrite Hhs.
      - split; [done|]. split; [by rewrite Hl, (kd_len _ _ _ Hkd)|].
        rewrite Hd, (kd_compare _ _ _ Hkd) by (done || apply Hkd). by rewrite bool_decide_eq_true_2. }
    unfold LWC_ALLOC. destruct (malloc _ _ _) as [str|] eqn:Em.
    + apply malloc_fresh in Em as [Hf Hn]. set (o := {| s_prevptr := _ |}).
      destruct (new_spec (count_call w1) ext c str o (copy s)) as (w' & Hl & Htx & Hw' & Hk); try done.
      { split; cbn; [done|by rewrite (kd_len _ _ _ Hkd)|by apply Hkd|by apply Hkd]. }
      change (h mod c_bucketcount c) with (bucket_of c o). rewrite Hl. cbn [mbind option_bind].
      eexists _, _, _. split; [reflexivity|]. left. split; [done|]. exists str. split_and!; try done.
      destruct Hk as [K1 K2 K3]. cbn [count_call w_heap] in K1, K2, K3. rewrite Hh in K1, K2.
      split; [exact K1|exact K2|]. intros n Hrn. apply K3. unfold room in *. cbn. by rewrite Hh.
    + eexists _, _, _. split; [reflexivity|]. right. split_and!; auto.
  - assert (Hr0 : r <> NULL) by (by eapply chain_lookup).
    rewrite (proj2 (Z.eqb_neq _ _) Hr0). cbn [negb].
    destruct (ref_spec w1 ext r o Hw1 Ho) as (w' & -> & Hheap & Hw' & Hk).
    { apply (Hroom r). by rewrite <- Hh. }
    cbn [mbind option_bind]. eexists _, _, _. split; [reflexivity|]. left. split; [done|].
    exists r. split; [done|]. split; [|split; [done|]].
    + unfold text_of. rewrite Hheap, lookup_insert_eq. cbn. f_equal.
      destruct (Htext r o Ho) as (t & [Hd Hl _ _]). cbn in Hd, Hl. rewrite Hd in Hcmp |- *.
      rewrite (kd_compare _ _ _ Hkd) in Hcmp by congruence. injection Hcmp as Hb.
      by apply bool_decide_eq_true_1 in Hb as ->.
    + destruct Hk as [K1 K2 K3]. rewrite Hh in K1, K2. split; [exact K1|exact K2|].
      intros n Hrn. apply K3. unfold room in *. by rewrite Hh.
Qed.

(** ** The lower case string *)

Lemma strings_ext m ext ext' : (forall a, ext a = ext' a) -> strings m ext -> strings m ext'.
Proof.
  intros E [A B C D F G H]. split; try done; intros a.
  - intros k Hk. rewrite <- E. by apply F.
  - intros k Hk. rewrite <- E. by eapply G.
  - rewrite <- E. apply H.
Qed.

Lemma world_ok_ext w ext ext' : (forall a, ext a = ext' a) -> world_ok w ext -> world_ok w ext'.
Proof. intros E [Hs Ht]. split; [by eapply strings_ext|done]. Qed.

(** Strings stay, and a lower case string once found is not changed. *)
Definition grown (w w' : world) : Prop := forall a o, w_heap w !! a = Some o ->
  exists o', w_heap w' !! a = Some o' /\ s_data o' = s_data o /\
    (s_insensitive o <> NULL -> s_insensitive o' = s_insensitive o).

Lemma grown_refl w : grown w w.
Proof. intros a o Ho. by exists o. Qed.

(** The result of making sure there is a lower case string. *)
Definition lowered (w : world) (ext : Z -> Z) (str : Z) (e : lwc_error) (w' : world) : Prop :=
  world_ok w' ext /\ grown w w' /\ (forall n, room (n + 1) w -> 0 <= n -> n + 1 < 2 ^ 32 -> room n w') /\
  (e = lwc_error_ok /\ (exists o, w_heap w' !! str = Some o /\ s_insensitive o <> NULL) \/
   e = lwc_error_oom).

Lemma caseless_spec w ext str o :
  world_ok w ext -> w_heap w !! str = Some o -> s_insensitive o = NULL -> room 1 w ->
  exists e w', lwc__intern_caseless_string malloc str w = Some (e, w') /\ lowered w ext str e w'.
Proof.
  intros Hw Ho Hi Hroom. pose proof Hw as [Hs _]. pose proof (cores_lookup _ _ _ Ho) as Hk.
  destruct (st_text _ _ Hs _ _ Hk) as (t & [Hd Hl _ Hnul]). cbn in Hd, Hl.
  unfold lwc__intern_caseless_string, load. rewrite Ho. cbn [mbind option_bind].
  rewrite Hi. cbn [negb Z.eqb]. unfold mem_read. pose proof (zlen_nonneg t).
  rewrite Hd, Hl, zlen_app. change (zlen [0]) with 1.
  rewrite (proj2 (Z.leb_le 0 (zlen t))), (proj2 (Z.leb_le (0 + zlen t) (zlen t + 1))) by lia.
  cbn [andb Z.leb Z.compare]. rewrite zdrop_le0, ztake_app_le, ztake_ge by lia.
  cbn [mbind option_bind].
  destruct (intern_spec _ _ _ t w ext caseless_kind Hw Hnul Hroom) as (e & ret & w1 & -> & Hint).
  cbn [mbind option_bind].
  destruct Hint as [(-> & p & -> & Htext & Hw1 & Hkept)|(-> & Hret & Hh & Hw1)].
  - destruct (kp_string _ _ Hkept _ _ Ho) as (o1 & Ho1 & Hd1 & Hi1 & _). rewrite Hi in Hi1.
    unfold modify. rewrite Ho1. cbn [mbind option_bind]. eexists _, _. split; [reflexivity|].
    unfold text_of in Htext. destruct (w_heap w1 !! p) as [op|] eqn:Hp; [|done]. injection Htext as Htext.
    pose proof Hw1 as [Hs1 Ht1]. pose proof (cores_lookup _ _ _ Ho1) as Hk1.
    pose proof (cores_lookup _ _ _ Hp) as Hkp. pose proof (st_addr _ _ Hs1 _ _ Hkp) as Hp0.
    assert (Hlow : k_data (core_of op) = lower (k_data (core_of o1))).
    { cbn. rewrite Hd1, Hd, lower_data. exact Htext. }
    pose proof (st_ext _ _ Hs p) as [Hext _].
    assert (Hsh := strings_share _ _ str _ p _ Hs1 Hk1 Hi1 Hkp Hlow).
    split; [|split; [|split]].
    + split.
      * cbn [set_heap w_heap]. rewrite cores_insert.
        eapply strings_ext; [|apply Hsh].
        { intros a. unfold bump. repeat case_decide; lia. }
        { unfold bump. rewrite decide_True by done. lia. }
        intros ->. rewrite (kp_cnt _ _ Hkept) by done. unfold bump. rewrite decide_True by done.
        pose proof (st_live _ _ Hs _ _ Hk). rewrite (own_one _ _ _ Hk) in *.
        pose proof (one_range (core_of o) str). lia.
      * cbn [set_heap w_heap w_ctx]. destruct (w_ctx w1); [by eapply table_modify|].
        by rewrite Ht1, lookup_empty in Hp.
    + intros a oa Ha. destruct (kp_string _ _ Hkept _ _ Ha) as (o' & Ho' & Hd' & Hi' & _).
      cbn [set_heap w_heap]. destruct (decide (a = str)) as [->|].
      * rewrite lookup_insert_eq. eexists. split; [done|]. cbn. split; congruence.
      * rewrite lookup_insert_ne by done. by exists o'.
    + intros n Hr H0 H1 a oa. pose proof (kp_room _ _ Hkept n Hr H0 H1) as Hr1. cbn [set_heap w_heap].
      destruct (decide (a = str)) as [->|];
        [rewrite lookup_insert_eq; intros [= <-]; exact (Hr1 str o1 Ho1)|].
      rewrite lookup_insert_ne by done. apply Hr1.
    + left. split; [done|]. cbn [set_heap w_heap]. rewrite lookup_insert_eq. by eexists.
  - assert (Hsame : forall w', w_heap w' = w_heap w -> world_ok w' ext ->
      lowered w ext str lwc_error_oom w').
    { intros w' E Hw'. split; [done|]. split; [|split; [|by right]].
      - intros a oa Ha. exists oa. by rewrite E.
      - intros n Hr H0 _ a oa Ha. rewrite E in Ha. specialize (Hr a oa Ha). lia. }
    destruct Hret as [-> | ->]; [eexists _, _; split; [reflexivity|by apply Hsame]|].
    unfold modify. rewrite Hh, Ho. cbn [mbind option_bind]. eexists _, _. split; [reflexivity|].
    assert (E : <[str := set_insensitive NULL o]> (w_heap w) = w_heap w).
    { apply insert_id. rewrite Ho. f_equal. unfold set_insensitive. rewrite <- Hi. by destruct o. }
    rewrite E. apply Hsame; [done|]. destruct Hw1 as [A B]. rewrite Hh in A, B. by split.
Qed.

Lemma need_spec w ext str o :
  world_ok w ext -> w_heap w !! str = Some o -> room 1 w ->
  exists e w', need_insensitive malloc str w = Some (e, w') /\ lowered w ext str e w'.
Proof.
  intros Hw Ho Hroom. unfold need_insensitive, load. rewrite Ho. cbn [mbind option_bind].
  destruct (Z.eqb_spec (s_insensitive o) NULL) as [|Hn]; [by eapply caseless_spec|].
  eexists _, _. split; [reflexivity|]. split; [done|]. split; [apply grown_refl|]. split.
  - intros n Hr H0 _ a oa Ha. specialize (Hr a oa Ha). lia.
  - left. split; [done|]. by exists o.
Qed.
End Spec.

(** * Releasing references and destroying strings.

    A string that is being destroyed is out of its chain but still in the heap
    while the reference to its lower case string is released.  That release
    does not touch it: [framed] says so, and lets it be deleted first in the
    proofs. *)

Local Open Scope Z_scope.

(** ** What an operation does not touch *)

(** The world with one more object. *)
Definition plus (p : Z) (o : lwc_string) (w : world) : world :=
  set_heap (<[p := o]> (w_heap w)) w.

Definition framed (f : world -> option world) : Prop := forall p o w w',
  f w = Some w' -> w_heap w !! p = None ->
  f (plus p o w) = Some (plus p o w') /\ w_heap w' !! p = None.

Lemma load_framed a p o w oa :
  load a w = Some oa -> w_heap w !! p = None -> load a (plus p o w) = Some oa.
Proof. unfold load. cbn. intros Ha Hp. rewrite lookup_insert_ne; [done|congruence]. Qed.

Lemma modify_framed a f : framed (modify a f).
Proof.
  intros p o w w'. unfold modify. destruct (w_heap w !! a) as [oa|] eqn:Ha; [|done].
  intros [= <-] Hp. assert (a <> p) by congruence. unfold plus. cbn [set_heap w_heap].
  rewrite lookup_insert_ne by done. rewrite Ha. cbn [mbind option_bind].
  split; [|by rewrite lookup_insert_ne]. unfold set_heap. cbn. by rewrite insert_insert_ne.
Qed.

Lemma store_framed pp v : framed (store pp v).
Proof.
  destruct pp as [n|a]; [|apply modify_framed]. intros p o w w'. unfold store.
  cbn [plus set_heap w_ctx]. destruct (w_ctx w) as [c|]; [|done]. cbn [mbind option_bind].
  destruct (znth _ _); [|done]. cbn [mbind option_bind]. by intros [= <-] Hp.
Qed.

Lemma unlink_framed a : framed (unlink a).
Proof.
  intros p o w w'. unfold unlink. destruct (load a w) as [oa|] eqn:Ea; [|done].
  cbn [mbind option_bind]. destruct (store _ _ w) as [w1|] eqn:Es; [|done].
  cbn [mbind option_bind]. destruct (load a w1) as [oa1|] eqn:Ea1; [|done].
  cbn [mbind option_bind]. intros H1 Hp. rewrite (load_framed _ _ _ _ _ Ea Hp).
  cbn [mbind option_bind]. destruct (store_framed _ _ p o w w1 Es Hp) as [-> Hp1].
  cbn [mbind option_bind]. rewrite (load_framed _ _ _ _ _ Ea1 Hp1). cbn [mbind option_bind].
  destruct (_ =? _); [by injection H1 as <-|]. by apply modify_framed.
Qed.

Lemma destroy_framed f a : (forall b, framed (f b)) -> framed (destroy f a).
Proof.
  intros Hf p o w w'. unfold destroy. destruct (unlink a w) as [w1|] eqn:E1; [|done].
  cbn [mbind option_bind]. destruct (load a w1) as [oa|] eqn:Ea; [|done]. cbn [mbind option_bind].
  set (g := fun w : world => if negb (s_insensitive oa =? NULL) && (s_refcnt oa =? 0)
                             then f (s_insensitive oa) w else Some w).
  change (if negb (s_insensitive oa =? NULL) && (s_refcnt oa =? 0) then f (s_insensitive oa) w1
          else Some w1) with (g w1).
  destruct (g w1) as [w2|] eqn:E2; [|done]. cbn [mbind option_bind].
  destruct (load a w2) as [oa2|] eqn:Ea2; [|done]. cbn [mbind option_bind]. intros [= <-] Hp.
  destruct (unlink_framed a p o w w1 E1 Hp) as [-> Hp1]. cbn [mbind option_bind].
  rewrite (load_framed _ _ _ _ _ Ea Hp1). cbn [mbind option_bind].
  change (if negb (s_insensitive oa =? NULL) && (s_refcnt oa =? 0)
          then f (s_insensitive oa) (plus p o w1) else Some (plus p o w1)) with (g (plus p o w1)).
  assert (Hg : framed g).
  { unfold g. destruct (_ && _); [apply Hf|]. by intros p' o' v v' [= <-]. }
  destruct (Hg p o w1 w2 E2 Hp1) as [-> Hp2]. cbn [mbind option_bind].
  rewrite (load_framed _ _ _ _ _ Ea2 Hp2). cbn [mbind option_bind].
  assert (a <> p) by (unfold load in Ea2; congruence).
  unfold plus. cbn [set_heap w_heap]. split; [|by rewrite lookup_delete_ne].
  unfold set_heap. cbn. by rewrite delete_insert_ne.
Qed.

Lemma unref_framed fuel a : framed (unref fuel a).
Proof.
  revert a; induction fuel as [|fuel IH]; intros a p o w w'; cbn [unref]; [done|].
  destruct (a =? NULL); [by intros [= <-]|].
  destruct (modify a _ w) as [w1|] eqn:E1; [|done]. cbn [mbind option_bind].
  destruct (load a w1) as [oa|] eqn:Ea; [|done]. cbn [mbind option_bind]. intros H1 Hp.
  destruct (modify_framed a _ p o w w1 E1 Hp) as [-> Hp1]. cbn [mbind option_bind].
  rewrite (load_framed _ _ _ _ _ Ea Hp1). cbn [mbind option_bind].
  destruct (_ || _); [|by injection H1 as <-]. by eapply destroy_framed.
Qed.

(** ** Destroying a string *)

(** No string has come, and none has changed its text. *)
Definition shrunk (w w' : world) : Prop := forall a o', w_heap w' !! a = Some o' ->
  exists o, w_heap w !! a = Some o /\ s_data o' = s_data o /\
    s_insensitive o' = s_insensitive o.

Lemma shrunk_trans w1 w2 w3 : shrunk w1 w2 -> shrunk w2 w3 -> shrunk w1 w3.
Proof.
  intros H1 H2 a o3 Ho3. destruct (H2 a o3 Ho3) as (o2 & Ho2 & E2 & F2).
  destruct (H1 a o2 Ho2) as (o1 & Ho1 & E1 & F1). exists o1. split; [done|]. split; congruence.
Qed.

(** Out of its chain, a string that nothing else refers to is all that is left to
    delete. *)
Lemma unlink_dying w ext p o v :
  world_ok w ext -> w_heap w !! p = Some o ->
  cnt (cores (w_heap w)) p = own (cores (w_heap w)) p ->
  exists w2, unlink p (plus p (set_refcnt v o) w) = Some (plus p (set_refcnt v o) w2) /\
    w_heap w2 !! p = None /\ world_ok w2 (released ext p (core_of o)) /\ shrunk w w2.
Proof.
  intros [Hs Ht] Ho Hcnt. destruct (w_ctx w) as [c|] eqn:Hc; [|by rewrite Ht, lookup_empty in Ho].
  set (o1 := set_refcnt v o). set (w1 := plus p o1 w).
  assert (Ht1 : table (w_heap w1) c) by (by eapply table_modify).
  assert (Ho1 : w_heap w1 !! p = Some o1) by apply lookup_insert_eq.
  destruct (unlink_spec w1 c p o1 Hc Ht1 Ho1) as [Hu ->].
  assert (Hco : cores (delete p (unlinked (w_heap w1) o1)) = delete p (cores (w_heap w))).
  { rewrite cores_delete, cores_unlinked. cbn [w1 plus set_heap w_heap]. rewrite cores_insert.
    apply delete_insert_eq. }
  exists {| w_heap := delete p (unlinked (w_heap w1) o1);
            w_ctx := Some (store_ctx (s_prevptr o1) (s_next o1) c); w_calls := w_calls w |}.
  split; [|split; [|split]]; cbn [w_heap].
  - f_equal. unfold plus, set_heap. cbn. f_equal. by rewrite insert_delete_id.
  - apply lookup_delete_eq.
  - split; cbn [w_heap w_ctx].
    + rewrite Hco. apply strings_remove; try done. by apply cores_lookup.
    + by apply unlinked_table.
  - intros a o' Ha. cbn [w_heap] in Ha. apply cores_lookup in Ha. rewrite Hco in Ha.
    destruct (decide (a = p)) as [->|]; [by rewrite lookup_delete_eq in Ha|].
    rewrite lookup_delete_ne in Ha by done. apply cores_inv in Ha as (oa & Hoa & E).
    exists oa. split; [done|]. by injection E.
Qed.

Lemma load_plus p o w : load p (plus p o w) = Some o.
Proof. unfold load. apply lookup_insert_eq. Qed.

Lemma delete_plus p o w : w_heap w !! p = None ->
  set_heap (delete p (w_heap (plus p o w))) (plus p o w) = w.
Proof.
  intros Hp. unfold plus, set_heap. cbn. rewrite delete_insert_id by done. by destruct w.
Qed.

(** Destroying a string: its lower case string is released when its count is 0. *)
Lemma destroy_quiet f w w2 p o v :
  unlink p (plus p (set_refcnt v o) w) = Some (plus p (set_refcnt v o) w2) ->
  w_heap w2 !! p = None -> v <> 0 \/ s_insensitive o = NULL ->
  destroy f p (plus p (set_refcnt v o) w) = Some w2.
Proof.
  intros Hu Hp Hq. unfold destroy. rewrite Hu. cbn [mbind option_bind]. rewrite load_plus.
  cbn [mbind option_bind set_refcnt s_insensitive s_refcnt].
  replace (negb (s_insensitive o =? NULL) && (v =? 0)) with false
    by (destruct Hq as [?| ->]; [destruct (Z.eqb_spec v 0); [done|by rewrite andb_false_r]|done]).
  cbn [mbind option_bind]. rewrite load_plus. cbn [mbind option_bind]. by rewrite delete_plus.
Qed.

Lemma destroy_release f w w2 w3 p o :
  unlink p (plus p (set_refcnt 0 o) w) = Some (plus p (set_refcnt 0 o) w2) ->
  w_heap w2 !! p = None -> s_insensitive o <> NULL -> framed (f (s_insensitive o)) ->
  f (s_insensitive o) w2 = Some w3 ->
  destroy f p (plus p (set_refcnt 0 o) w) = Some w3.
Proof.
  intros Hu Hp Hn Hf Hr. unfold destroy. rewrite Hu. cbn [mbind option_bind]. rewrite load_plus.
  cbn [mbind option_bind set_refcnt s_insensitive s_refcnt].
  rewrite (proj2 (Z.eqb_neq _ _) Hn). cbn [negb andb Z.eqb].
  destruct (Hf p (set_refcnt 0 o) w2 w3 Hr Hp) as [-> Hp3]. cbn [mbind option_bind].
  rewrite load_plus. cbn [mbind option_bind]. by rewrite delete_plus.
Qed.

(** ** Releasing a reference *)

(** What releasing a reference of the client promises. *)
Definition let_go (w : world) (ext : Z -> Z) (p : Z) (w' : world) : Prop :=
  world_ok w' (bump ext p (-1)) /\ shrunk w w'.

(** The counts when the last reference goes. *)
Lemma last_reference w ext p o :
  world_ok w ext -> w_heap w !! p = Some o -> 1 <= ext p ->
  let k := core_of o in let m := cores (w_heap w) in
  s_refcnt o = ext p + cnt m p /\ 0 < ext p + cnt m p - own m p /\ own m p = one k p /\
  own m p <= cnt m p /\ 0 <= cnt m p.
Proof.
  intros [Hs _] Ho Hext k m. apply cores_lookup in Ho.
  split; [apply (st_refcnt _ _ Hs _ _ Ho)|]. split; [by eapply st_live|].
  split; [by apply own_one|]. split; [apply own_le|apply cnt_nonneg].
Qed.

Lemma released_bump ext p k : ext p = 1 -> k_insensitive k = NULL \/ k_insensitive k = p ->
  forall a, released ext p k a = bump ext p (-1) a.
Proof.
  intros He Hk a. unfold released, bump. destruct (decide (a = p)) as [->|]; [lia|].
  rewrite decide_False; [done|]. intuition congruence.
Qed.

Lemma unref_step fuel w p o :
  w_heap w !! p = Some o -> p <> NULL -> 1 <= s_refcnt o < 2 ^ 32 ->
  unref (S fuel) p w =
  let v := s_refcnt o - 1 in
  let w1 := plus p (set_refcnt v o) w in
  if (v =? 0) || ((v =? 1) && (s_insensitive o =? p)) then destroy (unref fuel) p w1 else Some w1.
Proof.
  intros Ho Hp Hr. cbn [unref]. rewrite (proj2 (Z.eqb_neq _ _) Hp). unfold modify. rewrite Ho.
  cbn [mbind option_bind]. rewrite u32_small by lia.
  change (set_heap (<[p := set_refcnt (s_refcnt o - 1) o]> (w_heap w)) w)
    with (plus p (set_refcnt (s_refcnt o - 1) o) w).
  rewrite load_plus. done.
Qed.

(** The string stays when other references are left. *)
Lemma unref_stays fuel w ext p o :
  world_ok w ext -> w_heap w !! p = Some o -> 1 <= ext p ->
  (s_refcnt o - 1 =? 0) || ((s_refcnt o - 1 =? 1) && (s_insensitive o =? p)) = false ->
  exists w', unref (S fuel) p w = Some w' /\ let_go w ext p w'.
Proof.
  intros Hw Ho Hext Hc. pose proof (refcnt_range _ _ _ _ Hw Ho) as Hr.
  pose proof (last_reference _ _ _ _ Hw Ho Hext) as (Hrc & Hlive & Hown & Hle & H0).
  assert (Hp : p <> NULL) by (destruct Hw as [Hs _]; eapply st_addr; [exact Hs|by apply cores_lookup]).
  rewrite (unref_step fuel w p o Ho Hp Hr). cbv zeta. rewrite Hc.
  eexists. split; [reflexivity|]. split.
  - apply recount_spec; try done; [lia..|].
    unfold one in Hown. cbn in Hown. apply orb_false_elim in Hc as [Hc1 Hc2].
    apply Z.eqb_neq in Hc1. destruct (decide (s_insensitive o = p)) as [E|]; [|lia].
    rewrite E, Z.eqb_refl, andb_true_r in Hc2. apply Z.eqb_neq in Hc2. lia.
  - intros a oa. cbn [plus set_heap w_heap]. destruct (decide (a = p)) as [->|].
    + rewrite lookup_insert_eq. intros [= <-]. by exists o.
    + rewrite lookup_insert_ne by done. intros Ha. by exists oa.
Qed.

(** A string whose lower case string is itself, or not yet known. *)
Lemma unref_leaf fuel w ext p o :
  world_ok w ext -> w_heap w !! p = Some o -> 1 <= ext p ->
  s_insensitive o = NULL \/ s_insensitive o = p ->
  exists w', unref (S fuel) p w = Some w' /\ let_go w ext p w'.
Proof.
  intros Hw Ho Hext Hi.
  destruct ((s_refcnt o - 1 =? 0) || ((s_refcnt o - 1 =? 1) && (s_insensitive o =? p))) eqn:Hc;
    [|by eapply unref_stays].
  pose proof (refcnt_range _ _ _ _ Hw Ho) as Hr.
  pose proof (last_reference _ _ _ _ Hw Ho Hext) as (Hrc & Hlive & Hown & Hle & H0).
  assert (Hp : p <> NULL) by (destruct Hw as [Hs _]; eapply st_addr; [exact Hs|by apply cores_lookup]).
  rewrite (unref_step fuel w p o Ho Hp Hr). cbv zeta. rewrite Hc.
  unfold one in Hown. cbn in Hown.
  assert (Hlast : ext p = 1 /\ cnt (cores (w_heap w)) p = own (cores (w_heap w)) p /\
    (s_refcnt o - 1 <> 0 \/ s_insensitive o = NULL)).
  { apply orb_prop in Hc as [Hc|Hc].
    - apply Z.eqb_eq in Hc. assert (ext p = 1 /\ cnt (cores (w_heap w)) p = 0) as [? ?] by lia.
      destruct (decide (s_insensitive o = p)); [lia|]. destruct Hi; [|done]. split_and!; auto. lia.
    - apply andb_prop in Hc as [Hc1 Hc2]. apply Z.eqb_eq in Hc1, Hc2.
      rewrite decide_True in Hown by done. split_and!; [lia..|left; lia]. }
  destruct Hlast as (He & Hco & Hq).
  destruct (unlink_dying w ext p o (s_refcnt o - 1) Hw Ho Hco) as (w2 & Hu & Hn & Hw2 & Hsh).
  exists w2. split; [by eapply destroy_quiet|]. split; [|done].
  eapply world_ok_ext; [|exact Hw2]. apply released_bump; [done|]. exact Hi.
Qed.

Lemma unref_spec w ext p o :
  world_ok w ext -> w_heap w !! p = Some o -> 1 <= ext p ->
  exists w', lwc_string_unref p w = Some w' /\ let_go w ext p w'.
Proof.
  intros Hw Ho Hext. unfold lwc_string_unref.
  destruct ((s_refcnt o - 1 =? 0) || ((s_refcnt o - 1 =? 1) && (s_insensitive o =? p))) eqn:Hc;
    [|by eapply unref_stays].
  destruct (decide (s_insensitive o = NULL \/ s_insensitive o = p)) as [Hi|Hi];
    [by eapply unref_leaf|].
  pose proof (refcnt_range _ _ _ _ Hw Ho) as Hr. pose proof Hw as [Hs _].
  pose proof (cores_lookup _ _ _ Ho) as Hk.
  pose proof (last_reference _ _ _ _ Hw Ho Hext) as (Hrc & Hlive & Hown & Hle & H0).
  assert (Hp : p <> NULL) by (by eapply st_addr). rewrite (unref_step 2 w p o Ho Hp Hr).
  cbv zeta. rewrite Hc. unfold one in Hown. cbn in Hown. rewrite decide_False in Hown by tauto.
  assert (Hv : s_refcnt o - 1 = 0).
  { apply orb_prop in Hc as [Hc|Hc]; [by apply Z.eqb_eq|]. apply andb_prop in Hc as [_ Hc].
    apply Z.eqb_eq in Hc. tauto. }
  rewrite Hv. assert (ext p = 1 /\ cnt (cores (w_heap w)) p = 0) as [He Hc0] by lia.
  destruct (unlink_dying w ext p o 0 Hw Ho) as (w2 & Hu & Hn & Hw2 & Hsh); [lia|].
  set (q := s_insensitive o) in *.
  destruct (st_lower _ _ Hs _ _ Hk) as (kq & Hkq & _); [cbn; tauto|]. cbn in Hkq. fold q in Hkq.
  assert (Hrel : 1 <= released ext p (core_of o) q).
  { unfold released. cbn. fold q. rewrite decide_False by tauto. rewrite decide_True by tauto.
    pose proof (st_ext _ _ Hs q). lia. }
  assert (Hq2 : exists oq, w_heap w2 !! q = Some oq /\ (s_insensitive oq = NULL \/ s_insensitive oq = q)).
  { destruct Hw2 as [Hs2 _]. destruct (cores (w_heap w2) !! q) as [k2|] eqn:E2.
    - apply cores_inv in E2 as (oq & Hoq & Ek). exists oq. split; [done|].
      destruct (Hsh q oq Hoq) as (oq0 & Hoq0 & _ & ->).
      pose proof (cores_lookup _ _ _ Hoq0) as Hkq0.
      pose proof (lower_leaf _ _ _ _ _ Hs Hk ltac:(cbn; tauto) Hkq0) as Hl. exact Hl.
    - exfalso. pose proof (proj2 (st_ext _ _ Hs2 q) E2). lia. }
  destruct Hq2 as (oq & Hoq & Hleaf).
  destruct (unref_leaf 1 w2 _ q oq Hw2 Hoq Hrel Hleaf) as (w3 & Hr3 & Hw3 & Hsh3).
  exists w3. split; [eapply destroy_release; try done; [tauto|apply unref_framed]|].
  split; [|by eapply shrunk_trans]. eapply world_ok_ext; [|exact Hw3].
  intros a. unfold bump, released. cbn. fold q.
  destruct (decide (a = p)) as [->|]; [rewrite decide_False by (intros ->; tauto); lia|].
  destruct (decide (a = q)) as [->|]; [rewrite decide_True by tauto; lia|].
  by rewrite decide_False by tauto.
Qed.
