(* ===== verification/WapcapletProperties.v ===== *)
(** * WapcapletProperties: the theorems about string internment, and a client.

    A client holds references, a list of addresses with one entry for each.  It
    may intern strings without NULs, and use, copy or release the references it
    holds, while no count is about to overflow. *)
From S2P Require Import Prelude Wapcaplet WapcapletInv WapcapletSpec.
From stdpp Require Import gmap.
Local Open Scope Z_scope.

Local Arguments lower : simpl never.

Definition fresh_malloc (malloc : nat -> heap -> Z -> option Z) : Prop :=
  forall n h size a, malloc n h size = Some a -> h !! a = None /\ a <> NULL.

Section Client.
Context (malloc : nat -> heap -> Z -> option Z).

(** ** Commands *)

Inductive command :=
  | Intern (s : bytes)
  | Substring (p off len : Z)
  | Ref (p : Z)
  | Unref (p : Z)
  | Tolower (p : Z)
  | CaselessIsequal (p q : Z).

(** The world and the references held. *)
Definition client : Type := world * list Z.

Definition empty_world : world := {| w_heap := ∅; w_ctx := None; w_calls := 0 |}.

(** A reference that was returned is held. *)
Definition hold (held : list Z) (r : lwc_error * option Z * world) : client :=
  match r with
  | (lwc_error_ok, Some p, w) => (w, p :: held)
  | (_, _, w) => (w, held)
  end.

Fixpoint let_one_go (p : Z) (held : list Z) : list Z :=
  match held with
  | [] => []
  | q :: held => if q =? p then held else q :: let_one_go p held
  end.

Definition execute (cmd : command) (c : client) : option client :=
  let '(w, held) := c in
  match cmd with
  | Intern s => hold held <$> lwc_intern_string malloc s w
  | Substring p off len => hold held <$> lwc_intern_substring malloc p off len w
  | Ref p => '(p, w) ← lwc_string_ref p w; Some (w, p :: held)
  | Unref p => w ← lwc_string_unref p w; Some (w, let_one_go p held)
  | Tolower p => hold held <$> lwc_string_tolower malloc p w
  | CaselessIsequal p q => '(_, _, w) ← lwc_string_caseless_isequal malloc p q w; Some (w, held)
  end.

(** What a client may do. *)
Definition allowed (cmd : command) (c : client) : Prop :=
  room 2 c.1 /\
  match cmd with
  | Intern s => nul_free s
  | Substring p off len => p ∈ c.2 /\ 0 <= off /\ 0 <= len /\ off + len < 2 ^ 64
  | Ref p | Unref p | Tolower p => p ∈ c.2
  | CaselessIsequal p q => p ∈ c.2 /\ q ∈ c.2
  end.

Inductive reachable : client -> Prop :=
  | reachable_start : reachable (empty_world, [])
  | reachable_step c c' cmd :
      reachable c -> allowed cmd c -> execute cmd c = Some c' -> reachable c'.

(** ** The references held are those counted *)

Definition held_count (held : list Z) (a : Z) : Z := Z.of_nat (count_occ Z.eq_dec held a).

Lemma held_cons p held a : held_count (p :: held) a = bump (held_count held) p 1 a.
Proof.
  unfold held_count, bump. cbn [count_occ]. destruct (Z.eq_dec p a) as [->|];
    case_decide; congruence || lia.
Qed.

Lemma held_in p held : p ∈ held -> 1 <= held_count held p.
Proof.
  intros Hp. apply list_elem_of_In in Hp. apply (count_occ_In Z.eq_dec) in Hp.
  unfold held_count. lia.
Qed.

Lemma held_let_go p held a : p ∈ held -> held_count (let_one_go p held) a = bump (held_count held) p (-1) a.
Proof.
  unfold held_count, bump. induction held as [|q held IH]; [by rewrite elem_of_nil|].
  intros Hp. cbn [let_one_go]. destruct (Z.eqb_spec q p) as [->|Hne].
  - cbn [count_occ]. destruct (Z.eq_dec p a) as [->|]; case_decide; congruence || lia.
  - apply elem_of_cons in Hp as [->|Hp]; [done|]. specialize (IH Hp). cbn [count_occ].
    destruct (Z.eq_dec q a) as [->|]; [rewrite decide_False in IH |- * by done; lia|exact IH].
Qed.

Definition client_ok (c : client) : Prop := world_ok c.1 (held_count c.2).

Hypothesis malloc_fresh : fresh_malloc malloc.

Lemma empty_ok : client_ok (empty_world, []).
Proof.
  assert (Hn : forall a, cores ∅ !! a = None)
    by (intros a; unfold cores; by rewrite fmap_empty, lookup_empty).
  split; [|done]. cbn. split; intros *; rewrite ?Hn; done.
Qed.

(** A reference that is held is that of a string. *)
Lemma held_string w held p : client_ok (w, held) -> p ∈ held -> exists o, w_heap w !! p = Some o.
Proof.
  intros [Hs _] Hp%held_in. cbn in Hs. destruct (st_ext _ _ Hs p) as [_ Hn].
  destruct (cores (w_heap w) !! p) as [k|] eqn:E; [|specialize (Hn eq_refl); lia].
  apply cores_inv in E as (o & Ho & _). by exists o.
Qed.

Lemma hold_ok w held t e ret w' :
  interned w (held_count held) t e ret w' -> client_ok (hold held (e, ret, w')).
Proof.
  intros [(-> & p & -> & _ & Hw & _)|(-> & _ & _ & Hw)]; [|exact Hw].
  unfold client_ok. cbn. eapply world_ok_ext; [|exact Hw]. intros a. by rewrite held_cons.
Qed.

Lemma room_less n m w : room n w -> m <= n -> room m w.
Proof. intros Hr Hm a o Ha. specialize (Hr a o Ha). lia. Qed.

Lemma substring_spec w ext str o off len :
  world_ok w ext -> w_heap w !! str = Some o -> room 1 w ->
  0 <= off -> 0 <= len -> off + len < 2 ^ 64 ->
  exists r, lwc_intern_substring malloc str off len w = Some r /\
    if (off <? s_len o) && (off + len <=? s_len o)
    then interned w ext (ztake len (zdrop off (s_data o))) r.1.1 r.1.2 r.2
    else r = (lwc_error_range, None, w).
Proof.
  intros Hw Ho Hroom H0 H1 H2. pose proof Hw as [Hs _]. pose proof (cores_lookup _ _ _ Ho) as Hk.
  destruct (st_text _ _ Hs _ _ Hk) as (t & [Hd Hl _ Hnul]). cbn in Hd, Hl.
  unfold lwc_intern_substring, load. rewrite Ho. cbn [mbind option_bind]. rewrite u64_small by lia.
  destruct (Z.leb_spec (s_len o) off); destruct (Z.ltb_spec off (s_len o)); try lia; cbn [andb].
  { eexists. split; [reflexivity|done]. }
  destruct (Z.ltb_spec (s_len o) (off + len)); destruct (Z.leb_spec (off + len) (s_len o)); try lia.
  { eexists. split; [reflexivity|done]. }
  assert (Hread : mem_read off len (s_data o) = Some (ztake len (zdrop off t))).
  { unfold mem_read. rewrite Hd, zlen_app. change (zlen [0]) with 1.
    rewrite (proj2 (Z.leb_le 0 off)), (proj2 (Z.leb_le 0 len)),
      (proj2 (Z.leb_le (off + len) (zlen t + 1))) by lia. cbn [andb].
    rewrite zdrop_app_le, ztake_app_le by (rewrite ?zlen_zdrop; lia). done. }
  rewrite Hread. cbn [mbind option_bind].
  assert (Hdata : ztake len (zdrop off (s_data o)) = ztake len (zdrop off t)).
  { rewrite Hd. by rewrite zdrop_app_le, ztake_app_le by (rewrite ?zlen_zdrop; lia). }
  rewrite Hdata.
  destruct (intern_spec malloc malloc_fresh _ _ _ (ztake len (zdrop off t)) w ext plain_kind Hw)
    as (e & ret & w' & Hi & Hint); [by apply Forall_ztake, Forall_zdrop|done|].
  unfold lwc_intern_string. rewrite Hi. eexists. split; [reflexivity|exact Hint].
Qed.

Lemma tolower_spec w ext str o :
  world_ok w ext -> w_heap w !! str = Some o -> room 2 w ->
  exists e ret w', lwc_string_tolower malloc str w = Some (e, ret, w') /\
    (e = lwc_error_ok /\ (exists p, ret = Some p /\ world_ok w' (bump ext p 1) /\
       text_of w' p = Some (lower (s_data o))) \/
     e = lwc_error_oom /\ ret = None /\ world_ok w' ext).
Proof.
  intros Hw Ho Hroom. unfold lwc_string_tolower.
  destruct (need_spec malloc malloc_fresh w ext str o Hw Ho) as (e & w1 & -> & Hw1 & Hg & Hr & He).
  { by eapply room_less; [exact Hroom|]. }
  cbn [mbind option_bind].
  destruct He as [(-> & o1 & Ho1 & Hn)| ->]; [|eexists _, _, _; split; [reflexivity|]; by right].
  destruct (Hg str o Ho) as (o1' & Ho1' & Hd1 & _). assert (o1' = o1) as -> by congruence.
  unfold load. rewrite Ho1. cbn [mbind option_bind]. unfold lwc_string_ref.
  pose proof Hw1 as [Hs1 _]. pose proof (cores_lookup _ _ _ Ho1) as Hk1.
  destruct (st_lower _ _ Hs1 _ _ Hk1 Hn) as (kp & Hkp & Hdp). cbn in Hdp.
  apply cores_inv in Hkp as (op & Hop & <-). cbn in Hdp, Hop.
  destruct (ref_spec w1 ext (s_insensitive o1) op Hw1 Hop) as (w2 & -> & Hh2 & Hw2 & _).
  { apply (Hr 1 Hroom) with (a := s_insensitive o1); [lia..|done]. }
  cbn [mbind option_bind]. eexists _, _, _. split; [reflexivity|]. left. split; [done|].
  eexists. split; [done|]. split; [done|]. unfold text_of. rewrite Hh2, lookup_insert_eq. cbn.
  congruence.
Qed.

Lemma caseless_isequal_spec w ext p q op oq :
  world_ok w ext -> w_heap w !! p = Some op -> w_heap w !! q = Some oq -> room 2 w ->
  exists e ret w', lwc_string_caseless_isequal malloc p q w = Some (e, ret, w') /\ world_ok w' ext /\
    (e = lwc_error_ok /\ ret = Some (bool_decide (lower (s_data op) = lower (s_data oq))) \/
     e = lwc_error_oom /\ ret = None).
Proof.
  intros Hw Hp Hq Hroom. unfold lwc_string_caseless_isequal.
  destruct (need_spec malloc malloc_fresh w ext p op Hw Hp) as (e & w1 & -> & Hw1 & Hg1 & Hr1 & He1).
  { by eapply room_less; [exact Hroom|]. }
  cbn [mbind option_bind].
  destruct He1 as [(-> & op1 & Hop1 & Hnp)| ->]; [|eexists _, _, _; split; [reflexivity|]; split; [done|by right]].
  destruct (Hg1 q oq Hq) as (oq1 & Hoq1 & Hdq1 & _).
  destruct (need_spec malloc malloc_fresh w1 ext q oq1 Hw1 Hoq1) as (e & w2 & -> & Hw2 & Hg2 & _ & He2).
  { apply Hr1; [exact Hroom|lia..]. }
  cbn [mbind option_bind].
  destruct He2 as [(-> & oq2 & Hoq2 & Hnq)| ->]; [|eexists _, _, _; split; [reflexivity|]; split; [done|by right]].
  destruct (Hg1 p op Hp) as (op1' & Hop1' & Hdp1 & _). assert (op1' = op1) as -> by congruence.
  destruct (Hg2 p op1 Hop1) as (op2 & Hop2 & Hdp2 & Hip2). rewrite <- Hip2 in Hnp by done.
  destruct (Hg2 q oq1 Hoq1) as (oq2' & Hoq2' & Hdq2 & _). assert (oq2' = oq2) as -> by congruence.
  unfold load. rewrite Hop2, Hoq2. cbn [mbind option_bind]. eexists _, _, _. split; [reflexivity|].
  split; [done|]. left. split; [done|]. f_equal. pose proof Hw2 as [Hs2 _].
  destruct (st_lower _ _ Hs2 _ _ (cores_lookup _ _ _ Hop2) Hnp) as (kp & Hkp & Ep).
  destruct (st_lower _ _ Hs2 _ _ (cores_lookup _ _ _ Hoq2) Hnq) as (kq & Hkq & Eq). cbn in *.
  rewrite <- Hdp1, <- Hdp2, <- Hdq1, <- Hdq2, <- Ep, <- Eq.
  destruct (Z.eqb_spec (s_insensitive op2) (s_insensitive oq2)) as [E|E]; symmetry.
  - apply bool_decide_eq_true. congruence.
  - apply bool_decide_eq_false. intros Ed. apply E. by eapply st_unique.
Qed.

(** ** Every client *)

Lemma execute_ok cmd c :
  client_ok c -> allowed cmd c -> exists c', execute cmd c = Some c' /\ client_ok c'.
Proof.
  destruct c as [w held]. intros Hok [Hroom Hc]. cbn [fst snd] in Hroom, Hc.
  pose proof Hok as Hw. unfold client_ok in Hw. cbn [fst snd] in Hw.
  assert (Hroom1 : room 1 w) by (eapply room_less; [exact Hroom|lia]).
  destruct cmd as [s|p off len|p|p|p|p q]; cbn [execute].
  - destruct (intern_spec malloc malloc_fresh _ _ _ s w _ plain_kind Hw Hc Hroom1)
      as (e & ret & w' & Hi & Hint).
    unfold lwc_intern_string. rewrite Hi. eexists. split; [reflexivity|]. by eapply hold_ok.
  - destruct Hc as (Hp & H0 & H1 & H2). destruct (held_string _ _ _ Hok Hp) as [o Ho].
    destruct (substring_spec w _ p o off len Hw Ho Hroom1 H0 H1 H2) as ([[e ret] w'] & -> & Hr).
    eexists. split; [reflexivity|]. destruct (_ && _); [by eapply hold_ok|]. by injection Hr as -> -> ->.
  - destruct (held_string _ _ _ Hok Hc) as [o Ho]. unfold lwc_string_ref.
    destruct (ref_spec w _ p o Hw Ho) as (w' & -> & _ & Hw' & _); [by eapply Hroom1|].
    cbn [mbind option_bind]. eexists. split; [reflexivity|].
    eapply world_ok_ext; [|exact Hw']. intros a. cbn [snd]. by rewrite held_cons.
  - destruct (held_string _ _ _ Hok Hc) as [o Ho].
    destruct (unref_spec w _ p o Hw Ho (held_in _ _ Hc)) as (w' & -> & Hw' & _).
    cbn [mbind option_bind]. eexists. split; [reflexivity|].
    eapply world_ok_ext; [|exact Hw']. intros a. cbn [snd]. by rewrite held_let_go.
  - destruct (held_string _ _ _ Hok Hc) as [o Ho].
    destruct (tolower_spec w _ p o Hw Ho Hroom) as (e & ret & w' & -> & Hr).
    eexists. split; [reflexivity|]. destruct Hr as [(-> & p' & -> & Hw' & _)|(-> & -> & Hw')]; [|done].
    eapply world_ok_ext; [|exact Hw']. intros a. cbn [hold snd]. by rewrite held_cons.
  - destruct Hc as [Hp Hq]. destruct (held_string _ _ _ Hok Hp) as [op Hop].
    destruct (held_string _ _ _ Hok Hq) as [oq Hoq].
    destruct (caseless_isequal_spec w _ p q op oq Hw Hop Hoq Hroom) as (e & ret & w' & -> & Hw' & _).
    cbn [mbind option_bind]. by eexists.
Qed.

Lemma reachable_ok c : reachable c -> client_ok c.
Proof.
  induction 1 as [|c c' cmd _ IH Ha He]; [apply empty_ok|].
  destruct (execute_ok cmd c IH Ha) as (c2 & Hc2 & Hok). congruence.
Qed.

(** Without references there are no strings: one that is only referred to by
    others would be the lower case of one that is not lower case, which no
    string refers to. *)
Lemma strings_unreferenced m : strings m (fun _ => 0) -> m = ∅.
Proof.
  intros Hs. apply map_empty. intros a. destruct (m !! a) as [k|] eqn:Ha; [exfalso|done].
  assert (Hother : forall a k, m !! a = Some k -> exists b kb, b <> a /\ m !! b = Some kb /\
    k_insensitive kb = a).
  { clear a k Ha. intros a k Ha. pose proof (st_live _ _ Hs _ _ Ha) as Hl.
    destruct (decide (map_Forall (fun b kb => ~ (b <> a /\ k_insensitive kb = a)) m)) as [Hno|Hno].
    - exfalso. assert (Hle : cnt m a <= own m a); [|lia].
      unfold cnt, own. rewrite Ha.
      assert (Hsub : filter (fun e => k_insensitive e.2 = a) m ⊆ {[a := k]}).
      { apply map_subseteq_spec. intros b kb [Hb Hi]%map_lookup_filter_Some. cbn in Hi.
        destruct (decide (b = a)) as [->|Hne]; [rewrite lookup_singleton_eq; congruence|].
        exfalso. by apply (Hno b kb Hb). }
      case_decide as Hd.
      + apply map_subseteq_size in Hsub. rewrite map_size_singleton in Hsub. lia.
      + rewrite (map_empty_filter_2 (fun e => k_insensitive e.2 = a)); [done|].
        intros b kb Hb Hi. cbn in Hi. destruct (decide (b = a)) as [->|]; [congruence|].
        by apply (Hno b kb Hb).
    - apply map_not_Forall in Hno as (b & kb & Hb & Hn); [|solve_decision].
      exists b, kb. destruct (decide (b = a)); [tauto|]. destruct (decide (k_insensitive kb = a)); tauto. }
  destruct (Hother a k Ha) as (b & kb & Hne & Hb & Hi).
  destruct (Hother b kb Hb) as (c & kc & _ & Hc & Hic).
  destruct (st_lower _ _ Hs _ _ Hc) as (k1 & Hk1 & E1); [rewrite Hic; by eapply st_addr|].
  destruct (st_lower _ _ Hs _ _ Hb) as (k2 & Hk2 & E2); [rewrite Hi; by eapply st_addr|].
  rewrite Hic in Hk1. rewrite Hi in Hk2. simplify_eq.
  apply Hne. eapply st_unique; [done..|]. by rewrite E2, E1, lower_lower.
Qed.
End Client.

(** ** The theorems *)

(** C18: every call that is allowed is safe: no freed or null string is used, no
    assertion fails and no loop runs on, and afterwards the table, the links
    and the counts are right again.  Allowed are calls on strings the client
    holds a reference to, of text without NUL, with an offset and a length
    whose sum is below 2^64, while every count is two short of wrapping.  What
    happens with other sums and with NUL is shown at the end of this file. *)
Theorem lwc_client_safe malloc c cmd :
  fresh_malloc malloc -> reachable malloc c -> allowed cmd c ->
  exists c', execute malloc cmd c = Some c' /\ client_ok c'.
Proof. intros Hm Hr Ha. apply execute_ok; [done| |done]. by apply (reachable_ok malloc). Qed.

(** C19: when the last reference has been released no string is left in memory,
    lower case strings included. *)
Theorem lwc_no_leak malloc w :
  fresh_malloc malloc -> reachable malloc (w, []) -> w_heap w = ∅.
Proof.
  intros Hm Hr. destruct (reachable_ok malloc Hm _ Hr) as [Hs _]. cbn in Hs.
  assert (He : cores (w_heap w) = ∅).
  { apply strings_unreferenced. eapply strings_ext; [|exact Hs]. done. }
  by apply fmap_empty_inv in He.
Qed.

(** C20: interning a text without NUL, by a client whose texts have had none,
    either finds no memory and changes nothing, or gives a reference to a
    string with the text asked for, which is equal, as a pointer, to another
    string exactly when that has the same text.  With a NUL this fails:
    [embedded_nul_confused] below. *)
Theorem lwc_intern_identity malloc w held s :
  fresh_malloc malloc -> reachable malloc (w, held) -> nul_free s -> room 1 w ->
  exists e ret w', lwc_intern_string malloc s w = Some (e, ret, w') /\
    match e, ret with
    | lwc_error_ok, Some p =>
        text_of w' p = Some (s ++ [0]) /\
        forall q o, w_heap w' !! q = Some o ->
          lwc_string_isequal p q = true <-> s_data o = s ++ [0]
    | lwc_error_oom, _ => w_heap w' = w_heap w
    | _, _ => False
    end.
Proof.
  intros Hm Hr Hs Hroom. pose proof (reachable_ok malloc Hm _ Hr) as Hok.
  destruct (intern_spec malloc Hm _ _ _ s w _ plain_kind Hok Hs Hroom) as (e & ret & w' & Hi & Hint).
  exists e, ret, w'. split; [exact Hi|].
  destruct Hint as [(-> & p & -> & Ht & [Hs' _] & _)|(-> & _ & Hh & _)]; [|by destruct ret].
  split; [exact Ht|]. intros q o Hq. unfold lwc_string_isequal, text_of in *.
  destruct (w_heap w' !! p) as [op|] eqn:Hp; [|done]. injection Ht as Ht. unfold id in Ht.
  split.
  - intros ->%Z.eqb_eq. congruence.
  - intros Hd. apply Z.eqb_eq. eapply st_unique; [done|by apply cores_lookup..|]. cbn. congruence.
Qed.

(** Two strings are equal without case exactly when their lower case texts
    are the same, whichever of the lower case strings had to be made. *)
Theorem lwc_caseless_equal malloc w held p q op oq :
  fresh_malloc malloc -> reachable malloc (w, held) ->
  w_heap w !! p = Some op -> w_heap w !! q = Some oq -> room 2 w ->
  exists e ret w', lwc_string_caseless_isequal malloc p q w = Some (e, ret, w') /\
    (e = lwc_error_ok /\ ret = Some (bool_decide (lower (s_data op) = lower (s_data oq))) \/
     e = lwc_error_oom /\ ret = None).
Proof.
  intros Hm Hr Hp Hq Hroom. pose proof (reachable_ok malloc Hm _ Hr) as Hok.
  destruct (caseless_isequal_spec malloc Hm w _ p q op oq Hok Hp Hq Hroom)
    as (e & ret & w' & Hi & _ & Hres). by exists e, ret, w'.
Qed.

(** A substring is interned when it lies within the string, and refused with
    lwc_error_range otherwise, provided the sum of offset and length does not
    exceed a size_t. *)
Theorem lwc_substring_range malloc w held p o off len :
  fresh_malloc malloc -> reachable malloc (w, held) -> w_heap w !! p = Some o -> room 1 w ->
  0 <= off -> 0 <= len -> off + len < 2 ^ 64 ->
  exists e ret w', lwc_intern_substring malloc p off len w = Some (e, ret, w') /\
    (e = lwc_error_range <-> s_len o <= off \/ s_len o < off + len) /\
    (e = lwc_error_ok -> exists r, ret = Some r /\
       text_of w' r = Some (ztake len (zdrop off (s_data o)) ++ [0])).
Proof.
  intros Hm Hr Hp Hroom H0 H1 H2. pose proof (reachable_ok malloc Hm _ Hr) as Hok.
  destruct (substring_spec malloc Hm w _ p o off len Hok Hp Hroom H0 H1 H2)
    as ([[e ret] w'] & Hi & Hres).
  exists e, ret, w'. split; [exact Hi|]. cbn [fst snd] in Hres.
  destruct (Z.ltb_spec off (s_len o)); destruct (Z.leb_spec (off + len) (s_len o)); cbn [andb] in Hres;
    [|injection Hres as -> -> ->; split; [split; [lia|done]|done]..].
  destruct Hres as [(-> & r & -> & Ht & _)|(-> & _)].
  - split; [split; [done|lia]|]. intros _. by exists r.
  - split; [split; [done|lia]|done].
Qed.

(** ** A client

    Its malloc hands out ascending addresses. *)
Definition ascending (n : nat) (h : heap) (size : Z) : option Z :=
  let a := Z.of_nat n + 1 in
  match h !! a with Some _ => None | None => Some a end.

Lemma ascending_fresh : fresh_malloc ascending.
Proof. intros n h size a. unfold ascending. case_match; [done|]. intros [= <-]. split; [done|lia]. Qed.

Definition text_Ab : bytes := [65; 98].
Definition text_aB : bytes := [97; 66].

(** After interning "Ab" the client holds a reference to the string at 3. *)
Definition after (cmds : list command) : client :=
  List.fold_left (fun c cmd => default c (execute ascending cmd c)) cmds (empty_world, []).

Lemma after_Ab : reachable ascending (after [Intern text_Ab]).
Proof.
  eapply reachable_step with (cmd := Intern text_Ab); [apply reachable_start| |vm_compute; reflexivity].
  split; [by intros a o|]. repeat constructor; discriminate.
Qed.

Lemma room_check n w :
  bool_decide (map_Forall (fun _ o => s_refcnt o + n < 2 ^ 32) (w_heap w)) = true -> room n w.
Proof. intros H%bool_decide_eq_true_1 a o Ho. by apply (H a o). Qed.

Lemma after_Ab_room n : n <= 2 -> room n (after [Intern text_Ab]).1.
Proof. intros Hn. eapply room_less; [|exact Hn]. apply room_check. vm_compute. reflexivity. Qed.

Lemma after_Ab_held : (after [Intern text_Ab]).2 = [3].
Proof. vm_compute. reflexivity. Qed.

Definition string_Ab : lwc_string := {|
  s_prevptr := Bucket (lwc__calculate_hash text_Ab mod 4091); s_next := NULL; s_len := 2;
  s_hash := lwc__calculate_hash text_Ab; s_refcnt := 1; s_insensitive := NULL;
  s_data := text_Ab ++ [0]
|}.

Lemma after_Ab_string : w_heap (after [Intern text_Ab]).1 !! 3 = Some string_Ab.
Proof. vm_compute. reflexivity. Qed.

Lemma after_Ab_client : reachable ascending ((after [Intern text_Ab]).1, [3]).
Proof. rewrite <- after_Ab_held. apply after_Ab. Qed.

Lemma lwc_client_safe_witness :
  exists c', execute ascending (Tolower 3) (after [Intern text_Ab]) = Some c' /\ client_ok c'.
Proof.
  apply (lwc_client_safe ascending (after [Intern text_Ab]) (Tolower 3) ascending_fresh after_Ab).
  split; [by apply after_Ab_room|]. rewrite after_Ab_held. apply list_elem_of_here.
Defined.

Lemma lwc_no_leak_witness :
  w_heap (after [Intern text_Ab; Unref 3]).1 = ∅.
Proof.
  apply (lwc_no_leak ascending _ ascending_fresh).
  eapply reachable_step with (cmd := Unref 3); [exact after_Ab_client| |vm_compute; reflexivity].
  split; [by apply after_Ab_room|apply list_elem_of_here].
Defined.

Lemma lwc_intern_identity_witness :
  exists e ret w', lwc_intern_string ascending text_aB (after [Intern text_Ab]).1 = Some (e, ret, w') /\
    match e, ret with
    | lwc_error_ok, Some p =>
        text_of w' p = Some (text_aB ++ [0]) /\
        forall q o, w_heap w' !! q = Some o ->
          lwc_string_isequal p q = true <-> s_data o = text_aB ++ [0]
    | lwc_error_oom, _ => w_heap w' = w_heap (after [Intern text_Ab]).1
    | _, _ => False
    end.
Proof.
  apply (lwc_intern_identity ascending _ [3] text_aB ascending_fresh after_Ab_client).
  - repeat constructor; discriminate.
  - by apply after_Ab_room.
Defined.

Lemma lwc_caseless_equal_witness :
  exists e ret w', lwc_string_caseless_isequal ascending 3 3 (after [Intern text_Ab]).1
      = Some (e, ret, w') /\
    (e = lwc_error_ok /\
     ret = Some (bool_decide (lower (s_data string_Ab) = lower (s_data string_Ab))) \/
     e = lwc_error_oom /\ ret = None).
Proof.
  exact (lwc_caseless_equal ascending _ [3] 3 3 string_Ab string_Ab ascending_fresh after_Ab_client
    after_Ab_string after_Ab_string (after_Ab_room 2 (Z.le_refl 2))).
Defined.

Lemma lwc_substring_range_witness :
  exists e ret w', lwc_intern_substring ascending 3 1 1 (after [Intern text_Ab]).1 = Some (e, ret, w') /\
    (e = lwc_error_range <-> s_len string_Ab <= 1 \/ s_len string_Ab < 1 + 1) /\
    (e = lwc_error_ok -> exists r, ret = Some r /\
       text_of w' r = Some (ztake 1 (zdrop 1 (s_data string_Ab)) ++ [0])).
Proof.
  apply (lwc_substring_range ascending _ [3] 3 string_Ab 1 1 ascending_fresh after_Ab_client
    after_Ab_string); [by apply after_Ab_room|lia..].
Defined.

(** "Ab" and "aB" are different strings, equal without case. *)
Example caseless_Ab_aB :
  (fun r => r.1) <$> lwc_string_caseless_isequal ascending 3 4
    (after [Intern text_Ab; Intern text_aB]).1 = Some (lwc_error_ok, Some true).
Proof. vm_compute. reflexivity. Qed.

(** ** Outside the promises *)

(** The sum of offset and length wraps around: the bytes from offset 1 on are
    read for a length of 2^64 - 1. *)
Lemma substring_wraps :
  lwc_intern_substring ascending 3 1 (2 ^ 64 - 1) (after [Intern text_Ab]).1 = None.
Proof. vm_compute. reflexivity. Qed.

(** Comparing with strncmp stops at a NUL: these two strings of six characters
    have the same hash and become one. *)
Definition nul_GviD4 : bytes := [0; 71; 118; 105; 68; 52].
Definition nul_pKBUT : bytes := [0; 112; 75; 66; 85; 84].

Lemma embedded_nul_confused :
  nul_GviD4 <> nul_pKBUT /\
  (after [Intern nul_GviD4; Intern nul_pKBUT]).2 = [3; 3].
Proof. split; [done|vm_compute; reflexivity]. Qed.
