(* ===== verification/Lzw.v ===== *)
(** * Lzw: the LZW decoder of the GIF library (libnsgif/src/lzw.c).

    Pointers into the input are offsets.  A table entry that was never written
    is [None], and using one has no result; neither has a read outside the
    input or a write outside the output. *)
From S2P Require Import Prelude.

Inductive lzw_result :=
  | LZW_OK | LZW_OK_EOD | LZW_NO_MEM | LZW_NO_DATA | LZW_EOI_CODE | LZW_NO_COLOUR
  | LZW_BAD_ICODE | LZW_BAD_PARAM | LZW_BAD_CODE.

#[export] Instance lzw_result_eq_dec : EqDecision lzw_result.
Proof. solve_decision. Defined.

Definition LZW_CODE_MAX : Z := 12.
Definition LZW_TABLE_ENTRY_MAX : Z := Z.shiftl 1 LZW_CODE_MAX.

Record lzw_read_ctx := {
  rd_data : bytes;
  rd_data_len : Z;
  rd_data_sb_next : Z;      (* offset of the next sub-block's size *)
  rd_sb_data : Z;           (* offset of the current sub-block *)
  rd_sb_bit : Z;
  rd_sb_bit_count : Z
}.

Record lzw_table_entry := {
  te_value : Z;
  te_first : Z;
  te_count : Z;
  te_extends : Z
}.

Record lzw_ctx := {
  lz_input : lzw_read_ctx;
  lz_prev_code : Z;
  lz_prev_code_first : Z;
  lz_prev_code_count : Z;
  lz_initial_code_size : Z;
  lz_code_size : Z;
  lz_code_max : Z;
  lz_clear_code : Z;
  lz_eoi_code : Z;
  lz_table_size : Z;
  lz_output_code : Z;
  lz_output_left : Z;
  lz_has_transparency : bool;
  lz_transparency_idx : Z;
  lz_colour_map : option (list Z);
  lz_table : list (option lzw_table_entry)
}.

(** ** Setters *)

Definition set_input (v : lzw_read_ctx) (c : lzw_ctx) : lzw_ctx :=
  {| lz_input := v; lz_prev_code := lz_prev_code c; lz_prev_code_first := lz_prev_code_first c;
     lz_prev_code_count := lz_prev_code_count c; lz_initial_code_size := lz_initial_code_size c;
     lz_code_size := lz_code_size c; lz_code_max := lz_code_max c;
     lz_clear_code := lz_clear_code c; lz_eoi_code := lz_eoi_code c;
     lz_table_size := lz_table_size c; lz_output_code := lz_output_code c;
     lz_output_left := lz_output_left c; lz_has_transparency := lz_has_transparency c;
     lz_transparency_idx := lz_transparency_idx c; lz_colour_map := lz_colour_map c;
     lz_table := lz_table c |}.
Definition set_prev (code first count : Z) (c : lzw_ctx) : lzw_ctx :=
  {| lz_input := lz_input c; lz_prev_code := code; lz_prev_code_first := first;
     lz_prev_code_count := count; lz_initial_code_size := lz_initial_code_size c;
     lz_code_size := lz_code_size c; lz_code_max := lz_code_max c;
     lz_clear_code := lz_clear_code c; lz_eoi_code := lz_eoi_code c;
     lz_table_size := lz_table_size c; lz_output_code := lz_output_code c;
     lz_output_left := lz_output_left c; lz_has_transparency := lz_has_transparency c;
     lz_transparency_idx := lz_transparency_idx c; lz_colour_map := lz_colour_map c;
     lz_table := lz_table c |}.
Definition set_building (size max table_size : Z) (c : lzw_ctx) : lzw_ctx :=
  {| lz_input := lz_input c; lz_prev_code := lz_prev_code c;
     lz_prev_code_first := lz_prev_code_first c; lz_prev_code_count := lz_prev_code_count c;
     lz_initial_code_size := lz_initial_code_size c; lz_code_size := size; lz_code_max := max;
     lz_clear_code := lz_clear_code c; lz_eoi_code := lz_eoi_code c; lz_table_size := table_size;
     lz_output_code := lz_output_code c; lz_output_left := lz_output_left c;
     lz_has_transparency := lz_has_transparency c; lz_transparency_idx := lz_transparency_idx c;
     lz_colour_map := lz_colour_map c; lz_table := lz_table c |}.
Definition set_output (code left : Z) (c : lzw_ctx) : lzw_ctx :=
  {| lz_input := lz_input c; lz_prev_code := lz_prev_code c;
     lz_prev_code_first := lz_prev_code_first c; lz_prev_code_count := lz_prev_code_count c;
     lz_initial_code_size := lz_initial_code_size c; lz_code_size := lz_code_size c;
     lz_code_max := lz_code_max c; lz_clear_code := lz_clear_code c; lz_eoi_code := lz_eoi_code c;
     lz_table_size := lz_table_size c; lz_output_code := code; lz_output_left := left;
     lz_has_transparency := lz_has_transparency c; lz_transparency_idx := lz_transparency_idx c;
     lz_colour_map := lz_colour_map c; lz_table := lz_table c |}.
Definition set_colours (has : bool) (idx : Z) (map : option (list Z)) (c : lzw_ctx) : lzw_ctx :=
  {| lz_input := lz_input c; lz_prev_code := lz_prev_code c;
     lz_prev_code_first := lz_prev_code_first c; lz_prev_code_count := lz_prev_code_count c;
     lz_initial_code_size := lz_initial_code_size c; lz_code_size := lz_code_size c;
     lz_code_max := lz_code_max c; lz_clear_code := lz_clear_code c; lz_eoi_code := lz_eoi_code c;
     lz_table_size := lz_table_size c; lz_output_code := lz_output_code c;
     lz_output_left := lz_output_left c; lz_has_transparency := has; lz_transparency_idx := idx;
     lz_colour_map := map; lz_table := lz_table c |}.
Definition set_table (t : list (option lzw_table_entry)) (c : lzw_ctx) : lzw_ctx :=
  {| lz_input := lz_input c; lz_prev_code := lz_prev_code c;
     lz_prev_code_first := lz_prev_code_first c; lz_prev_code_count := lz_prev_code_count c;
     lz_initial_code_size := lz_initial_code_size c; lz_code_size := lz_code_size c;
     lz_code_max := lz_code_max c; lz_clear_code := lz_clear_code c; lz_eoi_code := lz_eoi_code c;
     lz_table_size := lz_table_size c; lz_output_code := lz_output_code c;
     lz_output_left := lz_output_left c; lz_has_transparency := lz_has_transparency c;
     lz_transparency_idx := lz_transparency_idx c; lz_colour_map := lz_colour_map c;
     lz_table := t |}.

(** ** Contexts *)

(** What malloc gives: nothing in it has been set. *)
Definition new_ctx : lzw_ctx :=
  {| lz_input := {| rd_data := []; rd_data_len := UNINIT; rd_data_sb_next := UNINIT;
                    rd_sb_data := UNINIT; rd_sb_bit := UNINIT; rd_sb_bit_count := UNINIT |};
     lz_prev_code := UNINIT; lz_prev_code_first := UNINIT; lz_prev_code_count := UNINIT;
     lz_initial_code_size := UNINIT; lz_code_size := UNINIT; lz_code_max := UNINIT;
     lz_clear_code := UNINIT; lz_eoi_code := UNINIT; lz_table_size := UNINIT;
     lz_output_code := UNINIT; lz_output_left := UNINIT; lz_has_transparency := false;
     lz_transparency_idx := UNINIT; lz_colour_map := None;
     lz_table := zrep LZW_TABLE_ENTRY_MAX None |}.

Definition lzw_context_create (alloc : bool) : lzw_result * option lzw_ctx :=
  if alloc then (LZW_OK, Some new_ctx) else (LZW_NO_MEM, None).

(** ** Reading codes *)

Definition lzw__block_advance (ctx : lzw_read_ctx) : option (lzw_result * lzw_read_ctx) :=
  let next_block_pos := rd_data_sb_next ctx in
  if rd_data_len ctx <=? next_block_pos then Some (LZW_NO_DATA, ctx) else
  block_size ← znth (rd_data ctx) next_block_pos;
  if rd_data_len ctx <=? next_block_pos + block_size then Some (LZW_NO_DATA, ctx) else
  Some (if block_size =? 0 then
    (LZW_OK_EOD,
     {| rd_data := rd_data ctx; rd_data_len := rd_data_len ctx;
        rd_data_sb_next := next_block_pos + 1; rd_sb_data := rd_sb_data ctx;
        rd_sb_bit := 0; rd_sb_bit_count := 0 |})
  else
    (LZW_OK,
     {| rd_data := rd_data ctx; rd_data_len := rd_data_len ctx;
        rd_data_sb_next := next_block_pos + (block_size + 1); rd_sb_data := next_block_pos + 1;
        rd_sb_bit := 0; rd_sb_bit_count := block_size * 8 |})).

Definition set_sb_bit (v : Z) (ctx : lzw_read_ctx) : lzw_read_ctx :=
  {| rd_data := rd_data ctx; rd_data_len := rd_data_len ctx;
     rd_data_sb_next := rd_data_sb_next ctx; rd_sb_data := rd_sb_data ctx;
     rd_sb_bit := v; rd_sb_bit_count := rd_sb_bit_count ctx |}.

(** [data[ctx->sb_bit >> 3]] and the octets after it. *)
Definition sb_octet (ctx : lzw_read_ctx) (i : Z) : option Z :=
  znth (rd_data ctx) (rd_sb_data ctx + Z.shiftr (rd_sb_bit ctx) 3 + i).

(** The loops of the slow path: octets of this sub-block while there are any,
    else the next sub-block, until octet [byte_advance] has been read. *)
Fixpoint slow_path (fuel : nat) (byte_advance : Z) (bits_used : list Z) (byte code : Z)
    (ctx : lzw_read_ctx) : option (lzw_result * Z * lzw_read_ctx) :=
  match fuel with
  | O => None
  | S fuel =>
      if byte_advance <? byte then Some (LZW_OK, code, ctx)
      else if rd_sb_bit ctx <? rd_sb_bit_count ctx then
        octet ← sb_octet ctx 0;
        used ← znth bits_used byte;
        slow_path fuel byte_advance bits_used (byte + 1)
          (Z.lor code (Z.shiftl octet (Z.shiftl byte 3)))
          (set_sb_bit (rd_sb_bit ctx + used) ctx)
      else
        '(res, ctx) ← lzw__block_advance ctx;
        match res with
        | LZW_OK => slow_path fuel byte_advance bits_used byte code ctx
        | _ => Some (res, 0, ctx)
        end
  end.

(** Each sub-block has an octet, and three are enough. *)
Definition SLOW_FUEL : nat := 7.

Definition lzw__read_code (ctx : lzw_read_ctx) (code_size : Z)
  : option (lzw_result * Z * lzw_read_ctx) :=
  let current_bit := Z.land (rd_sb_bit ctx) 0x7 in
  '(res, code, ctx) ←
    (if rd_sb_bit ctx + 24 <=? rd_sb_bit_count ctx then
       b0 ← sb_octet ctx 0; b1 ← sb_octet ctx 1; b2 ← sb_octet ctx 2;
       Some (LZW_OK, Z.lor (Z.lor b0 (Z.shiftl b1 8)) (Z.shiftl b2 16),
             set_sb_bit (rd_sb_bit ctx + code_size) ctx)
     else
       let byte_advance := u8 (Z.shiftr (current_bit + code_size) 3) in
       let bits_remaining_0 := if code_size <? 8 - current_bit then code_size else 8 - current_bit in
       let bits_remaining_1 := u8 (code_size - bits_remaining_0) in
       let bits_used := [bits_remaining_0;
                         if bits_remaining_1 <? 8 then bits_remaining_1 else 8;
                         u8 (bits_remaining_1 - 8)] in
       if negb (byte_advance <=? 2) then None  (* assert *)
       else slow_path SLOW_FUEL byte_advance bits_used 0 0 ctx);
  match res with
  | LZW_OK =>
      Some (LZW_OK, Z.land (Z.shiftr code current_bit) (Z.shiftl 1 code_size - 1), ctx)
  | _ => Some (res, 0, ctx)
  end.

(** ** The table *)

Definition entry_at (c : lzw_ctx) (code : Z) : option lzw_table_entry :=
  mjoin (znth (lz_table c) code).

Definition put_entry (c : lzw_ctx) (code : Z) (e : lzw_table_entry) : option lzw_ctx :=
  _ ← znth (lz_table c) code;
  Some (set_table (<[Z.to_nat code := Some e]> (lz_table c)) c).

(** The loop over clear codes; [fuel] bounds the codes that can be read. *)
Fixpoint clear_loop (fuel : nat) (c : lzw_ctx) : option (lzw_result * Z * lzw_ctx) :=
  match fuel with
  | O => None
  | S fuel =>
      '(res, code, input) ← lzw__read_code (lz_input c) (lz_code_size c);
      let c := set_input input c in
      match res with
      | LZW_OK => if code =? lz_clear_code c then clear_loop fuel c else Some (LZW_OK, code, c)
      | _ => Some (res, 0, c)
      end
  end.

Definition lzw__handle_clear (fuel : nat) (c : lzw_ctx) : option (lzw_result * Z * lzw_ctx) :=
  let c := set_building (lz_initial_code_size c) (u16 (Z.shiftl 1 (lz_initial_code_size c) - 1))
             (u16 (lz_eoi_code c + 1)) c in
  '(res, code, c) ← clear_loop fuel c;
  match res with
  | LZW_OK => if lz_clear_code c <? code then Some (LZW_BAD_ICODE, 0, c) else Some (LZW_OK, code, c)
  | _ => Some (res, 0, c)
  end.

(** [for (uint16_t i = 0; i < ctx->clear_code; i++)] *)
Fixpoint init_table (n : nat) (i : Z) (c : lzw_ctx) : option lzw_ctx :=
  match n with
  | O => Some c
  | S n =>
      c ← put_entry c i {| te_value := u8 i; te_first := u8 i; te_count := 1; te_extends := UNINIT |};
      init_table n (i + 1) c
  end.

Definition lzw_decode_init (fuel : nat) (minimum_code_size : Z) (input_data : bytes)
    (input_pos : Z) (c : lzw_ctx) : option (lzw_result * lzw_ctx) :=
  if LZW_CODE_MAX <=? minimum_code_size then Some (LZW_BAD_ICODE, c) else
  let input := {| rd_data := input_data; rd_data_len := zlen input_data;
                  rd_data_sb_next := input_pos; rd_sb_data := rd_sb_data (lz_input c);
                  rd_sb_bit := 0; rd_sb_bit_count := 0 |} in
  let clear_code := Z.shiftl 1 minimum_code_size in
  let c := {| lz_input := input; lz_prev_code := lz_prev_code c;
              lz_prev_code_first := lz_prev_code_first c;
              lz_prev_code_count := lz_prev_code_count c;
              lz_initial_code_size := minimum_code_size + 1;
              lz_code_size := lz_code_size c; lz_code_max := lz_code_max c;
              lz_clear_code := clear_code; lz_eoi_code := clear_code + 1;
              lz_table_size := lz_table_size c; lz_output_code := lz_output_code c;
              lz_output_left := 0; lz_has_transparency := lz_has_transparency c;
              lz_transparency_idx := lz_transparency_idx c; lz_colour_map := lz_colour_map c;
              lz_table := lz_table c |} in
  c ← init_table (Z.to_nat clear_code) 0 c;
  '(res, code, c) ← lzw__handle_clear fuel c;
  match res with
  | LZW_OK =>
      e ← entry_at c code;
      let c := set_prev code (te_first e) (te_count e) c in
      let c := set_output code 1 c in
      Some (LZW_OK, set_colours false 0 None c)
  | _ => Some (res, c)
  end.

Definition lzw_decode_init_map (fuel : nat) (minimum_code_size transparency_idx : Z)
    (colour_table : option (list Z)) (input_data : bytes) (input_pos : Z) (c : lzw_ctx)
  : option (lzw_result * lzw_ctx) :=
  match colour_table with
  | None => Some (LZW_BAD_PARAM, c)
  | Some colours =>
      '(res, c) ← lzw_decode_init fuel minimum_code_size input_data input_pos c;
      match res with
      | LZW_OK =>
          Some (LZW_OK, set_colours (transparency_idx <=? 0xFF) (u8 transparency_idx) (Some colours) c)
      | _ => Some (res, c)
      end
  end.

Definition lzw__table_add_entry (code : Z) (c : lzw_ctx) : option lzw_ctx :=
  c' ← put_entry c (lz_table_size c)
         {| te_value := u8 code; te_first := u8 (lz_prev_code_first c);
            te_count := u16 (lz_prev_code_count c + 1); te_extends := lz_prev_code c |};
  Some (set_building (lz_code_size c) (lz_code_max c) (u16 (lz_table_size c + 1)) c').

(** ** Writing values *)

(** How a value is written at a position of the output. *)
Definition putter : Type := lzw_ctx -> Z -> Z -> list Z -> option (list Z).

Definition put_value : putter := fun c value pos out =>
  _ ← znth out pos; Some (<[Z.to_nat pos := value]> out).

Definition put_colour : putter := fun c value pos out =>
  if lz_has_transparency c && (value =? lz_transparency_idx c) then Some out else
  map ← lz_colour_map c;
  colour ← znth map value;
  put_value c colour pos out.

(** Skip the last values of a code. *)
Fixpoint skip_values (n : nat) (c : lzw_ctx) (code : Z) : option Z :=
  match n with
  | O => Some code
  | S n => e ← entry_at c code; skip_values n c (te_extends e)
  end.

(** Write values from the last to the first, below [pos]. *)
Fixpoint write_values (put : putter) (n : nat) (c : lzw_ctx) (code pos : Z) (out : list Z)
  : option (list Z) :=
  match n with
  | O => Some out
  | S n =>
      e ← entry_at c code;
      out ← put c (te_value e) (pos - 1) out;
      write_values put n c (te_extends e) (pos - 1) out
  end.

(** lzw__write_fn and lzw__map_write_fn, which differ in how they put a value. *)
Definition write_fn (put : putter) (output_used code values : Z) (out : list Z) (c : lzw_ctx)
  : option (Z * list Z * lzw_ctx) :=
  let space := u32 (zlen out - output_used) in
  let '(count, later) := if space <? values then (u16 space, u16 (values - space))
                         else (values, 0) in
  let c := set_output code later c in
  code ← skip_values (Z.to_nat later) c code;
  out ← write_values put (Z.to_nat count) c code (output_used + count) out;
  Some (count, out, c).

Definition lzw__write_fn := write_fn put_value.
Definition lzw__map_write_fn := write_fn put_colour.

(** ** Decoding *)

(** The value of the entry a code adds to the table, and the growth of the
    code size. *)
Definition grow_table (code : Z) (c : lzw_ctx) : option lzw_ctx :=
  if lz_table_size c <? LZW_TABLE_ENTRY_MAX then
    let size := lz_table_size c in
    value ← (if code <? size then e ← entry_at c code; Some (te_first e)
             else Some (lz_prev_code_first c));
    c ← lzw__table_add_entry value c;
    Some (if (size =? lz_code_max c) && (lz_code_size c <? LZW_CODE_MAX) then
            let code_size := lz_code_size c + 1 in
            set_building code_size (u16 (Z.shiftl 1 code_size - 1)) (lz_table_size c) c
          else c)
  else Some c.

Definition lzw__decode (fuel : nat) (put : putter) (written : Z) (out : list Z) (c : lzw_ctx)
  : option (lzw_result * Z * list Z * lzw_ctx) :=
  '(res, code, input) ← lzw__read_code (lz_input c) (lz_code_size c);
  let c := set_input input c in
  match res with
  | LZW_OK =>
      if code =? lz_eoi_code c then Some (LZW_EOI_CODE, written, out, c)
      else if lz_table_size c <? code then Some (LZW_BAD_CODE, written, out, c)
      else
        '(res, code, c) ← (if code =? lz_clear_code c then lzw__handle_clear fuel c
                           else c ← grow_table code c; Some (LZW_OK, code, c));
        match res with
        | LZW_OK =>
            e ← entry_at c code;
            '(n, out, c) ← write_fn put written code (te_count e) out c;
            e ← entry_at c code;
            Some (LZW_OK, u32 (written + n), out, set_prev code (te_first e) (te_count e) c)
        | _ => Some (res, written, out, c)
        end
  | _ => Some (res, written, out, c)
  end.

(** The loop until the output is full. *)
Fixpoint decode_loop (fuel n : nat) (put : putter) (written : Z) (out : list Z) (c : lzw_ctx)
  : option (lzw_result * Z * list Z * lzw_ctx) :=
  match n with
  | O => None
  | S n =>
      if written =? zlen out then Some (LZW_OK, written, out, c) else
      '(res, written, out, c) ← lzw__decode fuel put written out c;
      match res with
      | LZW_OK => decode_loop fuel n put written out c
      | _ => Some (res, written, out, c)
      end
  end.

(** What is left of the last code is written first. *)
Definition decode_all (fuel : nat) (put : putter) (out : list Z) (c : lzw_ctx)
  : option (lzw_result * Z * list Z * lzw_ctx) :=
  '(written, out, c) ← (if negb (lz_output_left c =? 0)
                        then write_fn put 0 (lz_output_code c) (lz_output_left c) out c
                        else Some (0, out, c));
  decode_loop fuel (S (length out)) put written out c.

(** lzw_decode, into the stack of the context, whose contents are [out]. *)
Definition lzw_decode (fuel : nat) (out : list Z) (c : lzw_ctx) := decode_all fuel put_value out c.

(** lzw_decode_map, into the output of the client. *)
Definition lzw_decode_map (fuel : nat) (out : list Z) (c : lzw_ctx) :=
  match lz_colour_map c with
  | None => Some (LZW_NO_COLOUR, 0, out, c)
  | Some _ => decode_all fuel put_colour out c
  end.
