(* ===== verification/LzwRead.v ===== *)
(** * LzwRead: reading LZW codes is reading bits from the contents of the
    sub-blocks, put together.

    The octets still to be read are those left of the current sub-block and of
    the sub-blocks after it; a code is taken from their bits, least significant
    first, starting in the first octet. *)
From S2P Require Import Prelude Lzw.

(** ** Little-endian numbers *)

Fixpoint le_value (l : bytes) : Z :=
  match l with [] => 0 | b :: l => b + 256 * le_value l end.

Lemma le_value_app a b : le_value (a ++ b) = le_value a + 2 ^ (8 * zlen a) * le_value b.
Proof.
  induction a as [|x a IH]; [unfold zlen; cbn; lia|]. cbn [le_value app].
  rewrite zlen_cons, IH. pose proof (zlen_nonneg a).
  replace (8 * (1 + zlen a)) with (8 + 8 * zlen a) by lia. rewrite Z.pow_add_r by lia.
  change (2 ^ 8) with 256. lia.
Qed.

Lemma le_value_range l : wf_bytes l -> 0 <= le_value l < 2 ^ (8 * zlen l).
Proof.
  induction 1 as [|x l Hx _ IH]; [done|]. cbn [le_value]. rewrite zlen_cons.
  pose proof (zlen_nonneg l). replace (8 * (1 + zlen l)) with (8 + 8 * zlen l) by lia.
  rewrite Z.pow_add_r by lia. change (2 ^ 8) with 256. unfold is_byte in Hx. nia.
Qed.

(** The bits from [cur] on, [n] of them. *)
Definition bits_at (l : bytes) (cur n : Z) : Z := (le_value l / 2 ^ cur) mod 2 ^ n.

(** They are those of the first octets. *)
Lemma bits_at_prefix a b cur n :
  0 <= cur -> 0 <= n -> cur + n <= 8 * zlen a -> bits_at (a ++ b) cur n = bits_at a cur n.
Proof.
  intros Hc Hn Hl. unfold bits_at. rewrite le_value_app.
  replace (8 * zlen a) with (cur + (n + (8 * zlen a - cur - n))) by lia.
  rewrite !Z.pow_add_r by lia.
  replace (le_value a + 2 ^ cur * (2 ^ n * 2 ^ (8 * zlen a - cur - n)) * le_value b)
    with (le_value a + (2 ^ n * 2 ^ (8 * zlen a - cur - n) * le_value b) * 2 ^ cur) by lia.
  rewrite Z.div_add by lia.
  replace (2 ^ n * 2 ^ (8 * zlen a - cur - n) * le_value b)
    with (2 ^ (8 * zlen a - cur - n) * le_value b * 2 ^ n) by lia.
  rewrite Z.mod_add by lia. done.
Qed.

Lemma mask_bits x cur n : 0 <= cur -> 0 <= n ->
  Z.land (Z.shiftr x cur) (Z.shiftl 1 n - 1) = (x / 2 ^ cur) mod 2 ^ n.
Proof.
  intros Hc Hn.
  replace (Z.shiftl 1 n - 1) with (Z.ones n) by (unfold Z.ones; rewrite Z.shiftl_1_l; lia).
  rewrite Z.land_ones, Z.shiftr_div_pow2 by done. done.
Qed.

Lemma lor_octet code b i :
  0 <= i -> 0 <= code < 2 ^ (8 * i) ->
  Z.lor code (Z.shiftl b (8 * i)) = code + 2 ^ (8 * i) * b.
Proof.
  intros Hi Hc. rewrite Z.lor_comm, (lor_add_disjoint _ _ (8 * i)); [|lia|done|].
  - rewrite Z.shiftl_mul_pow2 by lia. lia.
  - rewrite Z.shiftl_mul_pow2 by lia. apply Z.mod_mul. lia.
Qed.

(** ** The octets of the sub-blocks *)

(** The contents of the sub-blocks from [pos] on, and why they end. *)
Fixpoint sub_blocks (n : nat) (data : bytes) (pos : Z) : bytes * lzw_result :=
  match n with
  | O => ([], LZW_NO_DATA)
  | S n =>
      match znth data pos with
      | Some size =>
          if zlen data <=? pos + size then ([], LZW_NO_DATA)
          else if size =? 0 then ([], LZW_OK_EOD)
          else let '(rest, res) := sub_blocks n data (pos + (size + 1)) in
               (ztake size (zdrop (pos + 1) data) ++ rest, res)
      | None => ([], LZW_NO_DATA)
      end
  end.

Definition later (data : bytes) (pos : Z) : bytes * lzw_result :=
  sub_blocks (S (length data)) data pos.

Lemma sub_blocks_fuel data pos n m :
  wf_bytes data -> 0 <= pos -> zlen data - pos < Z.of_nat n -> zlen data - pos < Z.of_nat m ->
  sub_blocks n data pos = sub_blocks m data pos.
Proof.
  intros Hb. revert pos m; induction n as [|n IH]; intros pos m Hp Hn Hm.
  - destruct m as [|m]; [done|]. cbn [sub_blocks].
    destruct (znth data pos) eqn:E; [apply znth_Some_range in E; lia|done].
  - cbn [sub_blocks]. destruct (znth data pos) as [size|] eqn:E.
    + pose proof (znth_Some_range _ _ _ E). pose proof (Forall_znth _ _ _ _ Hb E) as [Hs _].
      destruct m as [|m]; [lia|]. cbn [sub_blocks]. rewrite E.
      destruct (_ <=? _); [done|]. destruct (Z.eqb_spec size 0); [done|].
      rewrite (IH (pos + (size + 1)) m) by lia. done.
    + destruct m as [|m]; [done|]. cbn [sub_blocks]. by rewrite E.
Qed.

Lemma later_step data pos :
  wf_bytes data -> 0 <= pos ->
  later data pos =
  match znth data pos with
  | Some size =>
      if zlen data <=? pos + size then ([], LZW_NO_DATA)
      else if size =? 0 then ([], LZW_OK_EOD)
      else let '(rest, res) := later data (pos + (size + 1)) in
           (ztake size (zdrop (pos + 1) data) ++ rest, res)
  | None => ([], LZW_NO_DATA)
  end.
Proof.
  intros Hb Hp. unfold later at 1. cbn [sub_blocks].
  destruct (znth data pos) as [size|] eqn:E; [|done].
  pose proof (znth_Some_range _ _ _ E). pose proof (Forall_znth _ _ _ _ Hb E) as [Hs _].
  unfold zlen in *. destruct (_ <=? _); [done|]. destruct (size =? 0); [done|].
  unfold later. rewrite (sub_blocks_fuel data _ (length data) (S (length data)));
    [done|done|lia|unfold zlen; lia..].
Qed.

(** ** The reader *)

Record rd_ok (c : lzw_read_ctx) : Prop := {
  ro_data : wf_bytes (rd_data c);
  ro_len : rd_data_len c = zlen (rd_data c);
  ro_next : 0 <= rd_data_sb_next c;
  ro_bit : 0 <= rd_sb_bit c <= rd_sb_bit_count c;
  ro_count : rd_sb_bit_count c mod 8 = 0;
  ro_block : 0 < rd_sb_bit_count c ->
    0 <= rd_sb_data c /\ rd_sb_data c + rd_sb_bit_count c / 8 <= zlen (rd_data c)
}.

(** The octets left of the current sub-block, the first of them perhaps in part. *)
Definition current (c : lzw_read_ctx) : bytes :=
  ztake (rd_sb_bit_count c / 8 - rd_sb_bit c / 8) (zdrop (rd_sb_data c + rd_sb_bit c / 8) (rd_data c)).
Definition octets (c : lzw_read_ctx) : bytes :=
  current c ++ (later (rd_data c) (rd_data_sb_next c)).1.
Definition ending (c : lzw_read_ctx) : lzw_result := (later (rd_data c) (rd_data_sb_next c)).2.
Definition bit (c : lzw_read_ctx) : Z := rd_sb_bit c mod 8.

Lemma current_length c : rd_ok c -> zlen (current c) = rd_sb_bit_count c / 8 - rd_sb_bit c / 8.
Proof.
  intros []. unfold current. rewrite zlen_ztake, zlen_zdrop.
  assert (rd_sb_bit c / 8 <= rd_sb_bit_count c / 8) by (apply Z.div_le_mono; lia).
  assert (0 <= rd_sb_bit c / 8) by (apply Z.div_pos; lia).
  destruct (decide (0 < rd_sb_bit_count c)) as [Hp|Hp]; [destruct (ro_block0 Hp); lia|].
  assert (rd_sb_bit_count c = 0) as E by lia. rewrite E in *.
  assert (rd_sb_bit c = 0) as -> by lia. change (0 / 8) with 0. lia.
Qed.

Lemma octets_wf c : rd_ok c -> wf_bytes (octets c).
Proof.
  intros []. unfold octets. apply Forall_app. split.
  - by apply Forall_ztake, Forall_zdrop.
  - unfold later. generalize (S (length (rd_data c))) as n, (rd_data_sb_next c) as pos.
    intros n. induction n as [|n IH]; intros pos; cbn [sub_blocks]; [constructor|].
    destruct (znth _ _); [|constructor]. destruct (_ <=? _); [constructor|].
    destruct (_ =? 0); [constructor|]. specialize (IH (pos + (z + 1))).
    destruct (sub_blocks n _ _). cbn [fst]. apply Forall_app. split; [|exact IH].
    by apply Forall_ztake, Forall_zdrop.
Qed.

(** ** One octet *)

(** An octet of the current sub-block is the first of those left, and using
    some of its bits leaves the rest. *)
Lemma octet_step c used :
  rd_ok c -> rd_sb_bit c < rd_sb_bit_count c -> 0 <= used -> bit c + used <= 8 ->
  exists b rest, octets c = b :: rest /\ sb_octet c 0 = Some b /\
    rd_ok (set_sb_bit (rd_sb_bit c + used) c) /\
    octets (set_sb_bit (rd_sb_bit c + used) c) = zdrop ((bit c + used) / 8) (octets c).
Proof.
  intros Hok Hlt Hu Hb. pose proof (current_length c Hok) as Hlen.
  destruct Hok as [Hd Hl Hn Hr Hc Hbl]. specialize (Hbl ltac:(lia)) as [Hs Hin].
  unfold bit in *. set (q := rd_sb_bit c / 8) in *. set (n := rd_sb_bit_count c / 8) in *.
  assert (rd_sb_bit c = 8 * q + rd_sb_bit c mod 8) as Eb by (apply Z.div_mod; lia).
  assert (rd_sb_bit_count c = 8 * n) as Ec by (pose proof (Z.div_mod (rd_sb_bit_count c) 8); lia).
  pose proof (Z.mod_pos_bound (rd_sb_bit c) 8 ltac:(lia)) as Hm.
  destruct (znth_is_Some (rd_data c) (rd_sb_data c + q)) as [b Hb']; [lia|].
  exists b, (tail (octets c)). split_and!.
  - unfold octets, current. fold q n. rewrite (zdrop_cons_znth _ _ b) by (lia || done).
    unfold ztake. destruct (Z.to_nat (n - q)) eqn:E; [lia|]. done.
  - unfold sb_octet. rewrite Z.shiftr_div_pow2 by lia. change (2 ^ 3) with 8. fold q.
    by rewrite Z.add_0_r.
  - constructor; cbn; [done|done|done|lia|done|by intros _].
  - unfold octets, current, set_sb_bit; cbn. fold q n.
    replace ((rd_sb_bit c + used) / 8) with (q + (rd_sb_bit c mod 8 + used) / 8).
    2:{ replace (rd_sb_bit c + used) with (rd_sb_bit c mod 8 + used + q * 8) by lia.
        rewrite Z.div_add by lia. lia. }
    set (k := (rd_sb_bit c mod 8 + used) / 8).
    assert (0 <= k <= n - q).
    { unfold k. split; [apply Z.div_pos; lia|]. transitivity 1; [apply Z.div_le_upper_bound; lia|lia]. }
    rewrite zdrop_app_le by (rewrite zlen_ztake, zlen_zdrop; lia). f_equal.
    replace (rd_sb_data c + (q + k)) with (rd_sb_data c + q + k) by lia.
    rewrite <- zdrop_zdrop, ztake_zdrop_comm by lia. f_equal. f_equal. lia.
Qed.

(** ** The next sub-block *)

Lemma block_advance_spec c :
  rd_ok c -> rd_sb_bit c = rd_sb_bit_count c ->
  exists r c', lzw__block_advance c = Some (r, c') /\ rd_ok c' /\
    match r with
    | LZW_OK => octets c' = octets c /\ ending c' = ending c /\
                rd_sb_bit c' = 0 /\ 0 < rd_sb_bit_count c'
    | _ => octets c = [] /\ r = ending c
    end.
Proof.
  intros Hok He. pose proof (current_length c Hok) as Hlen.
  rewrite He, Z.sub_diag in Hlen. apply zlen_zero_inv in Hlen.
  assert (octets c = (later (rd_data c) (rd_data_sb_next c)).1) as Ho
    by (unfold octets; by rewrite Hlen).
  rewrite Ho. clear Hlen. pose proof Hok as [Hd Hl Hn Hr Hc Hbl].
  unfold lzw__block_advance. cbv zeta. rewrite Hl. set (pos := rd_data_sb_next c) in *.
  unfold ending. fold pos. rewrite later_step by done.
  destruct (Z.leb_spec (zlen (rd_data c)) pos) as [Hp|Hp].
  { destruct (znth (rd_data c) pos) eqn:E; [apply znth_Some_range in E; lia|].
    by exists LZW_NO_DATA, c. }
  destruct (znth_is_Some (rd_data c) pos ltac:(lia)) as [size E]. rewrite E. cbn -[later].
  pose proof (Forall_znth _ _ _ _ Hd E) as [Hs _].
  destruct (Z.leb_spec (zlen (rd_data c)) (pos + size)); [by exists LZW_NO_DATA, c|].
  destruct (Z.eqb_spec size 0).
  { eexists LZW_OK_EOD, _. split; [reflexivity|]. split; [|done].
    constructor; cbn -[later]; try done; lia. }
  eexists LZW_OK, _. split; [reflexivity|].
  destruct (later (rd_data c) (pos + (size + 1))) as [rest res] eqn:El.
  split; [|unfold octets, current, ending; cbn -[later]; rewrite El; cbn; split_and!; [|done|done|lia]].
  - constructor; cbn -[later]; [done|done|lia|lia|by apply Z.mod_mul|].
    intros _. rewrite Z.div_mul by done. lia.
  - rewrite Z.div_mul by done. change (0 / 8) with 0. by rewrite Z.sub_0_r, Z.add_0_r.
Qed.

(** ** Codes *)

Section Codes.
(** The octets left when a code of [size] bits from bit [cur] on is wanted. *)
Context (bs : bytes) (res : lzw_result) (cur size : Z) (used : list Z).
Hypothesis Hwf : wf_bytes bs.
Hypothesis Hcur : 0 <= cur < 8.
Hypothesis Hsize : 0 < size <= LZW_CODE_MAX.

(** The last octet asked for, and the bits used when [i] octets have been. *)
Let adv : Z := (cur + size) / 8.
Let spent (i : Z) : Z := if i =? 0 then cur else if i <=? adv then 8 * i else cur + size.

Hypothesis Hused : forall i, 0 <= i <= adv -> znth used i = Some (spent (i + 1) - spent i).

Local Lemma adv_range : 0 <= adv <= 2.
Proof. unfold adv, LZW_CODE_MAX in *. split; [apply Z.div_pos; lia|].
  enough ((cur + size) / 8 < 3) by lia. apply Z.div_lt_upper_bound; lia.
Qed.

Local Lemma spent_step i : 0 <= i <= adv ->
  0 <= spent (i + 1) - spent i /\ spent i mod 8 + (spent (i + 1) - spent i) <= 8 /\ spent i / 8 = i.
Proof.
  intros Hi. unfold spent. pose proof (Z.div_mod (cur + size) 8 ltac:(lia)) as Hdm. fold adv in Hdm.
  pose proof (Z.mod_pos_bound (cur + size) 8 ltac:(lia)).
  destruct (Z.eqb_spec (i + 1) 0); [lia|].
  destruct (Z.eqb_spec i 0) as [->|Hne].
  - rewrite Z.mod_small, Z.div_small by lia. destruct (Z.leb_spec (0 + 1) adv); lia.
  - rewrite (proj2 (Z.leb_le i adv)) by lia.
    replace (8 * i) with (i * 8) by lia. rewrite Z.mod_mul, Z.div_mul by lia.
    destruct (Z.leb_spec (i + 1) adv); lia.
Qed.

(** What the reader has left and what it has read when [i] octets are read. *)
Record reading (i code : Z) (c : lzw_read_ctx) : Prop := {
  rg_ok : rd_ok c;
  rg_end : ending c = res;
  rg_bit : bit c = spent i mod 8;
  rg_left : octets c = zdrop (spent i / 8) bs;
  rg_fits : i <= zlen bs;
  rg_code : code = le_value (ztake i bs)
}.

Local Lemma reading_octet i code c :
  0 <= i <= adv -> reading i code c -> rd_sb_bit c < rd_sb_bit_count c ->
  exists b u, sb_octet c 0 = Some b /\ znth used i = Some u /\
    reading (i + 1) (Z.lor code (Z.shiftl b (Z.shiftl i 3))) (set_sb_bit (rd_sb_bit c + u) c).
Proof.
  intros Hi [Hok He Hb Ho Hf Hcode] Hlt.
  destruct (spent_step i Hi) as (Hs1 & Hs2 & Hs3). rewrite Hs3 in Ho.
  destruct (octet_step c (spent (i + 1) - spent i) Hok Hlt) as (b & rest & Hc & Hr & Hok' & Ho');
    [lia|rewrite Hb; lia|].
  exists b, (spent (i + 1) - spent i). split; [done|]. split; [by apply Hused|].
  rewrite Hc in Ho. assert (i < zlen bs) as Hlen.
  { destruct (Z.lt_ge_cases i (zlen bs)); [done|]. by rewrite zdrop_ge in Ho by lia. }
  assert (ztake (i + 1) bs = ztake i bs ++ [b]) as Ht.
  { rewrite ztake_add by lia. by rewrite <- Ho. }
  constructor; [done|exact He| | |lia|].
  - unfold bit, set_sb_bit; cbn. unfold bit in Hb.
    rewrite <- Zplus_mod_idemp_l, Hb, Zplus_mod_idemp_l. f_equal. lia.
  - assert (spent (i + 1) / 8 = i + (bit c + (spent (i + 1) - spent i)) / 8) as ->.
    { rewrite Hb. rewrite <- Z.div_add_l by lia. f_equal. pose proof (Z.div_mod (spent i) 8). lia. }
    rewrite Ho', Hc, Ho, zdrop_zdrop; [done| |lia].
    apply Z.div_pos; [|lia]. rewrite Hb. pose proof (Z.mod_pos_bound (spent i) 8). lia.
  - rewrite (Z.shiftl_mul_pow2 i 3) by lia. change (2 ^ 3) with 8. rewrite (Z.mul_comm i 8).
    assert (zlen (ztake i bs) = i) as Hi' by (rewrite zlen_ztake; lia).
    rewrite lor_octet; [|lia|].
    + rewrite Ht, le_value_app, Hi', Hcode. cbn [le_value]. lia.
    + rewrite Hcode. rewrite <- Hi' at 3. by apply le_value_range, Forall_ztake.
Qed.

(** Octet by octet, the slow path reads what is wanted or finds the end. *)
Local Lemma slow_path_spec k : forall fuel i code c,
  i + Z.of_nat k = adv + 1 -> 0 <= i -> (2 * k < fuel)%nat -> reading i code c ->
  exists r code' c', slow_path fuel adv used i code c = Some (r, code', c') /\ rd_ok c' /\
    match r with
    | LZW_OK => reading (adv + 1) code' c'
    | _ => zlen bs < adv + 1 /\ r = res
    end.
Proof.
  induction k as [|k IH]; intros fuel i code c Hk Hi Hf Hr.
  - destruct fuel; [lia|]. cbn [slow_path]. replace (adv <? i) with true by lia.
    exists LZW_OK, code, c. replace (adv + 1) with i by lia. split_and!; [done|apply Hr|done].
  - destruct fuel as [|fuel]; [lia|]. cbn [slow_path].
    replace (adv <? i) with false by lia.
    assert (forall c n, reading i code c -> rd_sb_bit c < rd_sb_bit_count c -> (2 * k < n)%nat ->
      exists r code' c', (octet ← sb_octet c 0; u ← znth used i;
        slow_path n adv used (i + 1) (Z.lor code (Z.shiftl octet (Z.shiftl i 3)))
          (set_sb_bit (rd_sb_bit c + u) c)) = Some (r, code', c') /\ rd_ok c' /\
      match r with LZW_OK => reading (adv + 1) code' c' | _ => zlen bs < adv + 1 /\ r = res end)
      as Hgo.
    { intros c' n Hr' Hlt Hn. destruct (reading_octet i code c') as (b & u & -> & -> & Hr''); [lia|done..|].
      cbn. apply IH; [lia|lia|lia|done]. }
    destruct (Z.ltb_spec (rd_sb_bit c) (rd_sb_bit_count c)) as [Hlt|Hge];
      [by apply Hgo; [| |lia]|].
    pose proof (ro_bit _ (rg_ok _ _ _ Hr)) as Hbit.
    destruct (block_advance_spec c) as (r & c' & -> & Hok' & Hm); [apply Hr|lia|]. cbn.
    assert (octets c = [] -> zlen bs < adv + 1) as Hshort.
    { intros Hm'. destruct Hr as [_ _ _ Ho Hfit _].
      destruct (spent_step i) as (_ & _ & Hs3); [lia|]. rewrite Hm', Hs3 in Ho.
      apply (f_equal zlen) in Ho. rewrite zlen_zdrop, zlen_nil in Ho. lia. }
    pose proof (rg_end _ _ _ Hr) as He.
    destruct r; try (destruct Hm as [Hm Hm2]; eexists _, _, _; split; [reflexivity|];
      split; [exact Hok'|split; [by apply Hshort|by rewrite Hm2]]).
    destruct Hm as (Ho' & He' & Hb0 & Hb1).
    destruct fuel as [|fuel]; [lia|]. cbn [slow_path]. replace (adv <? i) with false by lia.
    rewrite (proj2 (Z.ltb_lt _ _)) by lia. apply Hgo; [|lia|lia].
    destruct Hr as [Hok _ Hb Ho Hfit Hcode].
    constructor; [done|by rewrite He'| |by rewrite Ho'|done|done].
    rewrite <- Hb. unfold bit. rewrite Hb0. rewrite (Z.le_antisymm _ _ (proj2 Hbit) Hge).
    by rewrite (ro_count _ Hok).
Qed.

End Codes.

(** Inside a sub-block three octets are enough for a code. *)
Lemma fast_path_spec c size :
  rd_ok c -> 0 < size <= LZW_CODE_MAX -> rd_sb_bit c + 24 <= rd_sb_bit_count c ->
  exists b0 b1 b2, sb_octet c 0 = Some b0 /\ sb_octet c 1 = Some b1 /\ sb_octet c 2 = Some b2 /\
    ztake 3 (octets c) = [b0; b1; b2] /\
    rd_ok (set_sb_bit (rd_sb_bit c + size) c) /\
    octets (set_sb_bit (rd_sb_bit c + size) c) = zdrop ((bit c + size) / 8) (octets c).
Proof.
  intros Hok Hs Hf. unfold LZW_CODE_MAX in Hs. pose proof (current_length c Hok) as Hlen.
  destruct Hok as [Hd Hl Hn Hr Hc Hbl]. specialize (Hbl ltac:(lia)) as [Hs0 Hin].
  unfold bit. set (q := rd_sb_bit c / 8) in *. set (n := rd_sb_bit_count c / 8) in *.
  assert (rd_sb_bit c = 8 * q + rd_sb_bit c mod 8) as Eb by (apply Z.div_mod; lia).
  assert (rd_sb_bit_count c = 8 * n) as Ec by (pose proof (Z.div_mod (rd_sb_bit_count c) 8); lia).
  pose proof (Z.mod_pos_bound (rd_sb_bit c) 8 ltac:(lia)) as Hm.
  assert (forall i, 0 <= i <= 2 -> exists b, sb_octet c i = Some b /\ znth (octets c) i = Some b) as Hnth.
  { intros i Hi. destruct (znth_is_Some (rd_data c) (rd_sb_data c + q + i)) as [b Hb]; [lia|].
    exists b. unfold sb_octet. rewrite Z.shiftr_div_pow2 by lia. change (2 ^ 3) with 8. fold q.
    split; [done|]. unfold octets. rewrite znth_app_l by lia. unfold current. fold q n.
    rewrite znth_ztake, znth_zdrop by lia. done. }
  destruct (Hnth 0) as (b0 & H0 & E0), (Hnth 1) as (b1 & H1 & E1), (Hnth 2) as (b2 & H2 & E2);
    [lia..|].
  exists b0, b1, b2. split_and!; [done|done|done| | |].
  - rewrite <- (zdrop_le0 0 (octets c)) by lia.
    rewrite (zdrop_cons_znth 0 _ b0), (zdrop_cons_znth 1 _ b1), (zdrop_cons_znth 2 _ b2) by done. done.
  - constructor; cbn; [done|done|done|lia|done|by intros _].
  - unfold octets, current, set_sb_bit; cbn -[later]. fold q n.
    replace ((rd_sb_bit c + size) / 8) with (q + (rd_sb_bit c mod 8 + size) / 8).
    2:{ rewrite <- Z.div_add_l by lia. f_equal. lia. }
    set (k := (rd_sb_bit c mod 8 + size) / 8).
    assert (0 <= k < 3).
    { unfold k. split; [apply Z.div_pos; lia|]. apply Z.div_lt_upper_bound; lia. }
    rewrite zdrop_app_le by (rewrite zlen_ztake, zlen_zdrop; lia). f_equal.
    replace (rd_sb_data c + (q + k)) with (rd_sb_data c + q + k) by lia.
    rewrite <- zdrop_zdrop, ztake_zdrop_comm by lia. f_equal. f_equal. lia.
Qed.

Lemma znth_three (x y z : Z) :
  znth [x; y; z] 0 = Some x /\ znth [x; y; z] 1 = Some y /\ znth [x; y; z] 2 = Some z.
Proof. done. Qed.

(** The octets of a code are used as the source's array of bit counts says. *)
Lemma bits_used_spec cur size i :
  let r0 := if size <? 8 - cur then size else 8 - cur in
  let r1 := u8 (size - r0) in
  let used := [r0; if r1 <? 8 then r1 else 8; u8 (r1 - 8)] in
  let adv := (cur + size) / 8 in
  let spent i := if i =? 0 then cur else if i <=? adv then 8 * i else cur + size in
  0 <= cur < 8 -> 0 < size <= LZW_CODE_MAX -> 0 <= i <= adv ->
  znth used i = Some (spent (i + 1) - spent i).
Proof.
  unfold LZW_CODE_MAX. cbv zeta. intros Hc Hs Hi.
  pose proof (Z.div_mod (cur + size) 8 ltac:(lia)) as Hdm.
  pose proof (Z.mod_pos_bound (cur + size) 8 ltac:(lia)).
  set (adv := (cur + size) / 8) in *. assert (adv <= 2) by lia.
  assert (i = 0 \/ i = 1 \/ i = 2) as [-> | [-> | ->]] by lia;
    rewrite ?(proj1 (znth_three _ _ _)), ?(proj1 (proj2 (znth_three _ _ _))),
      ?(proj2 (proj2 (znth_three _ _ _))); f_equal;
    change (0 + 1) with 1; change (1 + 1) with 2; change (2 + 1) with 3; cbn -[Z.mul Z.add u8];
    (destruct (Z.ltb_spec size (8 - cur));
      [|rewrite ?(u8_small (size - (8 - cur))) by lia;
        destruct (Z.ltb_spec (size - (8 - cur)) 8); [|rewrite ?u8_small by lia]]);
    destruct (Z.leb_spec 1 adv), (Z.leb_spec 2 adv), (Z.leb_spec 3 adv); lia.
Qed.

(** Reading a code takes its bits from the octets left, whatever sub-blocks
    they are in.  A code needs one octet more than the whole octets before its
    end, even if none of its bits is used. *)
Lemma read_code_spec c size :
  rd_ok c -> 0 < size <= LZW_CODE_MAX ->
  exists r code c', lzw__read_code c size = Some (r, code, c') /\ rd_ok c' /\
    match r with
    | LZW_OK =>
        (bit c + size) / 8 < zlen (octets c) /\ code = bits_at (octets c) (bit c) size /\
        octets c' = zdrop ((bit c + size) / 8) (octets c) /\
        bit c' = (bit c + size) mod 8 /\ ending c' = ending c
    | _ => zlen (octets c) <= (bit c + size) / 8 /\ r = ending c
    end.
Proof.
  intros Hok Hs. pose proof Hs as Hs'. unfold LZW_CODE_MAX in Hs'.
  assert (Z.land (rd_sb_bit c) 0x7 = bit c) as Hb by (apply (land_ones_mod _ 3); lia).
  assert (0 <= bit c < 8) as Hbr by (apply Z.mod_pos_bound; lia).
  assert (0 <= (bit c + size) / 8 < 3) as Hadv
    by (split; [apply Z.div_pos; lia|apply Z.div_lt_upper_bound; lia]).
  unfold lzw__read_code. rewrite Hb. cbv zeta.
  destruct (Z.leb_spec (rd_sb_bit c + 24) (rd_sb_bit_count c)) as [Hf|Hf].
  - destruct (fast_path_spec c size Hok Hs Hf) as (b0 & b1 & b2 & -> & -> & -> & H3 & Hok' & Ho').
    assert (wf_bytes [b0; b1; b2]) as Hw by (rewrite <- H3; by apply Forall_ztake, octets_wf).
    assert (zlen (ztake 3 (octets c)) = 3) as Hl3 by (by rewrite H3).
    rewrite zlen_ztake in Hl3. cbn -[octets].
    eexists LZW_OK, _, _. split; [reflexivity|]. split; [done|].
    split_and!; [lia| |done| |done].
    + rewrite <- (ztake_zdrop 3 (octets c)), bits_at_prefix
        by (rewrite ?H3; unfold zlen; cbn; lia).
      rewrite H3, mask_bits by lia. unfold bits_at. do 2 f_equal. cbn [le_value].
      inversion_clear Hw as [|? ? Hb0 Hw']. inversion_clear Hw' as [|? ? Hb1 Hw].
      inversion_clear Hw as [|? ? Hb2 _]. unfold is_byte in *.
      change (Z.shiftl b1 8) with (Z.shiftl b1 (8 * 1)). change (Z.shiftl b2 16) with (Z.shiftl b2 (8 * 2)).
      rewrite (lor_octet b0 b1 1) by lia.
      rewrite (lor_octet (b0 + 2 ^ (8 * 1) * b1) b2 2) by lia. lia.
    + unfold bit, set_sb_bit; cbn. by rewrite <- Zplus_mod_idemp_l.
  - assert (u8 (Z.shiftr (bit c + size) 3) = (bit c + size) / 8) as ->.
    { rewrite Z.shiftr_div_pow2 by lia. change (2 ^ 3) with 8. apply u8_small. lia. }
    rewrite (proj2 (Z.leb_le _ _)) by lia. cbn [negb].
    set (used := [_; _; _]).
    edestruct (slow_path_spec (octets c) (ending c) (bit c) size used) with
      (k := Z.to_nat ((bit c + size) / 8 + 1)) (fuel := SLOW_FUEL) (i := 0) (code := 0) (c := c)
      as (r & code & c' & -> & Hok' & Hm); [by apply octets_wf|done|done| |lia|lia|unfold SLOW_FUEL; lia| |].
    + intros i Hi. by apply bits_used_spec.
    + constructor; [done|done| | |apply zlen_nonneg|by rewrite ztake_le0 by lia]; cbn.
      * by rewrite Z.mod_small by lia.
      * rewrite Z.div_small by lia. by rewrite zdrop_le0 by lia.
    + cbn. destruct r; try (eexists _, _, _; split; [reflexivity|]; split; [exact Hok'|];
        destruct Hm as [Hm ->]; split; [lia|done]).
      destruct Hm as [_ He Hbit Ho Hfit Hcode].
      rewrite (proj2 (Z.leb_gt _ _)) in Hbit, Ho by lia.
      rewrite (proj2 (Z.eqb_neq _ _)) in Hbit, Ho by lia.
      eexists LZW_OK, _, c'. split; [reflexivity|]. split; [done|].
      split_and!; [lia| |done|done|done].
      rewrite mask_bits, Hcode by lia. fold (bits_at (ztake ((bit c + size) / 8 + 1) (octets c)) (bit c) size).
      rewrite <- (bits_at_prefix _ (zdrop ((bit c + size) / 8 + 1) (octets c))), ztake_zdrop; [done|lia|lia|].
      rewrite zlen_ztake. pose proof (Z.div_mod (bit c + size) 8). pose proof (Z.mod_pos_bound (bit c + size) 8). lia.
Qed.
