(* ===== verification/LzwRef.v ===== *)
(** * LzwRef: LZW decoding without tables, sub-blocks and buffers.

    A dictionary is the list of the words of the codes after the end of
    information code.  [lzw_stream] decodes octets into the values they stand
    for and says why the values end; it is what the decoder is held to.  It is
    LZW but for what the library does in three cases: a code must be followed by
    another bit of the octets (so one that ends with them is not read), the
    first code must be a clear code or a value (so the end of information code
    is LZW_BAD_ICODE there), and with a minimum code size below two the codes do
    not grow. *)
From S2P Require Import Prelude Lzw LzwRead.

Section Ref.
Context (minimum_code_size : Z).

Definition clear_code : Z := Z.shiftl 1 minimum_code_size.
Definition eoi_code : Z := clear_code + 1.
(** The first code that has no word yet. *)
Definition next_code (D : list bytes) : Z := eoi_code + 1 + zlen D.

Definition word (D : list bytes) (code : Z) : option bytes :=
  if code <? 0 then None
  else if code <? clear_code then Some [u8 code]
  else if code <=? eoi_code then None
  else znth D (code - eoi_code - 1).

(** Codes have as many bits as the next code needs; images of less than two
    bits per pixel are read as the library reads them, with codes that never grow. *)
Definition code_bits (D : list bytes) : Z :=
  if minimum_code_size <? 2 then minimum_code_size + 1
  else Z.min LZW_CODE_MAX (Z.log2 (next_code D) + 1).

(** The dictionary after a code with word [w] was read after word [p]. *)
Definition learn (D : list bytes) (p w : bytes) : list bytes :=
  if next_code D <? LZW_TABLE_ENTRY_MAX then D ++ [p ++ ztake 1 w] else D.

Context (ending : lzw_result).

(** [p] is the word before, none at the start and after a clear code. *)
Fixpoint ref_stream (n : nat) (l : bytes) (bit : Z) (D : list bytes) (p : option bytes)
  : bytes * lzw_result :=
  match n with
  | O => ([], ending)
  | S n =>
      let size := code_bits D in
      if zlen l <=? (bit + size) / 8 then ([], ending) else
      let code := bits_at l bit size in
      let go := ref_stream n (zdrop ((bit + size) / 8) l) ((bit + size) mod 8) in
      match p with
      | None =>
          if code =? clear_code then go D None
          else if clear_code <? code then ([], LZW_BAD_ICODE)
          else let '(s, r) := go D (Some [u8 code]) in (u8 code :: s, r)
      | Some p =>
          if code =? eoi_code then ([], LZW_EOI_CODE)
          else if next_code D <? code then ([], LZW_BAD_CODE)
          else if code =? clear_code then go [] None
          else
            let w := default (p ++ ztake 1 p) (word D code) in
            let '(s, r) := go (learn D p w) (Some w) in (w ++ s, r)
      end
  end.

(** Each code has a bit at least. *)
Definition lzw_stream (l : bytes) (bit : Z) (D : list bytes) (p : option bytes) : bytes * lzw_result :=
  ref_stream (S (8 * length l)) l bit D p.

Hypothesis Hmin : 0 <= minimum_code_size < LZW_CODE_MAX.

Lemma clear_code_pow2 : clear_code = 2 ^ minimum_code_size.
Proof. unfold clear_code. rewrite Z.shiftl_mul_pow2 by lia. lia. Qed.

Lemma clear_code_range : 1 <= clear_code <= 2048.
Proof.
  rewrite clear_code_pow2. unfold LZW_CODE_MAX in Hmin. split.
  - change 1 with (2 ^ 0). apply Z.pow_le_mono_r; lia.
  - change 2048 with (2 ^ 11). apply Z.pow_le_mono_r; lia.
Qed.

Lemma code_bits_range D : 1 <= code_bits D <= LZW_CODE_MAX.
Proof.
  unfold code_bits, LZW_CODE_MAX in *. pose proof (Z.log2_nonneg (next_code D)).
  destruct (Z.ltb_spec minimum_code_size 2); lia.
Qed.

(** The bits left are fewer after a code. *)
Lemma bits_left (l : bytes) bit D :
  0 <= bit -> (bit + code_bits D) / 8 < zlen l ->
  8 * zlen (zdrop ((bit + code_bits D) / 8) l) - (bit + code_bits D) mod 8
  = 8 * zlen l - bit - code_bits D /\
  0 <= (bit + code_bits D) mod 8 < 8.
Proof.
  intros Hb Hl. pose proof (code_bits_range D).
  pose proof (Z.div_mod (bit + code_bits D) 8). pose proof (Z.mod_pos_bound (bit + code_bits D) 8).
  assert (0 <= (bit + code_bits D) / 8) by (apply Z.div_pos; lia).
  rewrite zlen_zdrop. lia.
Qed.

Lemma ref_stream_fuel n : forall m l bit D p,
  0 <= bit -> 8 * zlen l - bit < Z.of_nat n -> 8 * zlen l - bit < Z.of_nat m ->
  ref_stream n l bit D p = ref_stream m l bit D p.
Proof.
  induction n as [|n IH]; intros m l bit D p Hb Hn Hm.
  - destruct m as [|m]; [done|]. cbn [ref_stream]. pose proof (code_bits_range D).
    assert (zlen l <= (bit + code_bits D) / 8) by (apply Z.div_le_lower_bound; lia).
    by rewrite (proj2 (Z.leb_le _ _)) by lia.
  - destruct m as [|m].
    { cbn [ref_stream]. pose proof (code_bits_range D).
      assert (zlen l <= (bit + code_bits D) / 8) by (apply Z.div_le_lower_bound; lia).
      by rewrite (proj2 (Z.leb_le _ _)) by lia. }
    cbn [ref_stream]. destruct (Z.leb_spec (zlen l) ((bit + code_bits D) / 8)) as [|Hl]; [done|].
    destruct (bits_left l bit D Hb Hl) as [Hleft Hb']. pose proof (code_bits_range D).
    set (l' := zdrop _ l) in *. set (bit' := (_ mod 8)) in *.
    assert (forall D p, ref_stream n l' bit' D p = ref_stream m l' bit' D p) as E
      by (intros; apply IH; lia).
    destruct p; rewrite !E; reflexivity.
Qed.

Lemma lzw_stream_step l bit D p :
  0 <= bit ->
  lzw_stream l bit D p =
  let size := code_bits D in
  if zlen l <=? (bit + size) / 8 then ([], ending) else
  let code := bits_at l bit size in
  let go := lzw_stream (zdrop ((bit + size) / 8) l) ((bit + size) mod 8) in
  match p with
  | None =>
      if code =? clear_code then go D None
      else if clear_code <? code then ([], LZW_BAD_ICODE)
      else let '(s, r) := go D (Some [u8 code]) in (u8 code :: s, r)
  | Some p =>
      if code =? eoi_code then ([], LZW_EOI_CODE)
      else if next_code D <? code then ([], LZW_BAD_CODE)
      else if code =? clear_code then go [] None
      else
        let w := default (p ++ ztake 1 p) (word D code) in
        let '(s, r) := go (learn D p w) (Some w) in (w ++ s, r)
  end.
Proof.
  intros Hb. unfold lzw_stream at 1. cbn [ref_stream]. cbv zeta.
  destruct (Z.leb_spec (zlen l) ((bit + code_bits D) / 8)) as [|Hl]; [done|].
  destruct (bits_left l bit D Hb Hl) as [Hleft Hb']. pose proof (code_bits_range D).
  set (l' := zdrop _ l) in *. set (bit' := (_ mod 8)) in *.
  assert (forall D p, ref_stream (8 * length l) l' bit' D p = lzw_stream l' bit' D p) as E.
  { intros. apply ref_stream_fuel; unfold zlen in *; lia. }
  destruct p; rewrite !E; reflexivity.
Qed.
End Ref.
