(* ===== verification/LzwTable.v ===== *)
(** * LzwTable: the code table holds the words of the dictionary, and the
    writers write them. *)
From S2P Require Import Prelude Lzw.
From S2P Require Import LzwRef.

(** ** Output *)

Section Paint.
(** What writing a value makes of the old contents of a position. *)
Context (shade : Z -> Z -> Z).

(** The output with the values [s] written from position [off] on. *)
Definition paint (off : Z) (s : bytes) (out : list Z) : list Z :=
  imap (fun i o => match znth s (Z.of_nat i - off) with Some v => shade v o | None => o end) out.

Lemma zlen_paint off s out : zlen (paint off s out) = zlen out.
Proof. unfold zlen, paint. by rewrite length_imap. Qed.

Lemma paint_nil off out : paint off [] out = out.
Proof.
  unfold paint. rewrite <- (list_fmap_id out) at 2. apply list_eq. intros i.
  rewrite list_lookup_imap, list_lookup_fmap. unfold znth. destruct (_ <? _); by destruct (out !! i).
Qed.

(** A position gets its value from one of two writings side by side. *)
Lemma znth_side (s t : bytes) off i :
  (znth t (i - (off + zlen s)) = None /\ znth (s ++ t) (i - off) = znth s (i - off)) \/
  (znth s (i - off) = None /\ znth (s ++ t) (i - off) = znth t (i - (off + zlen s))).
Proof.
  destruct (Z.lt_ge_cases (i - off) (zlen s)).
  - left. split; [|by apply znth_app_l]. unfold znth. by rewrite (proj2 (Z.ltb_lt _ _)) by lia.
  - right. rewrite (znth_app_r s), Z.sub_add_distr by done. split; [|done].
    destruct (znth s (i - off)) eqn:E; [apply znth_Some_range in E; lia|done].
Qed.

(** Writings side by side make one, whichever comes first. *)
Lemma paint_app off s t out :
  paint off s (paint (off + zlen s) t out) = paint off (s ++ t) out /\
  paint (off + zlen s) t (paint off s out) = paint off (s ++ t) out.
Proof.
  unfold paint. split; apply list_eq; intros i; rewrite !list_lookup_imap;
    (destruct (out !! i) as [o|]; [|done]); cbn; f_equal;
    destruct (znth_side s t off (Z.of_nat i)) as [[-> ->]|[-> ->]];
    by destruct (znth _ _).
Qed.

Lemma insert_paint pos v out o :
  znth out pos = Some o -> <[Z.to_nat pos := shade v o]> out = paint pos [v] out.
Proof.
  intros E. pose proof (znth_Some_range _ _ _ E) as Hr. unfold zlen in Hr.
  rewrite znth_nonneg in E by lia. unfold paint. apply list_eq. intros i.
  rewrite list_lookup_imap. destruct (decide (i = Z.to_nat pos)) as [->|Hne].
  - rewrite list_lookup_insert_eq by lia. rewrite E. cbn.
    replace (Z.of_nat (Z.to_nat pos) - pos) with 0 by lia. done.
  - rewrite list_lookup_insert_ne by done. destruct (out !! i); [|done]. cbn. f_equal.
    unfold znth. destruct (Z.ltb_spec (Z.of_nat i - pos) 0); [done|].
    by destruct (Z.to_nat (Z.of_nat i - pos)) eqn:E'; [lia|].
Qed.
End Paint.

(** Writing values over what is there. *)
Lemma paint_values s out :
  zlen s <= zlen out -> paint (fun v _ => v) 0 s out = s ++ zdrop (zlen s) out.
Proof.
  intros Hl. unfold zlen, zdrop in *. rewrite Nat2Z.id. apply list_eq. intros i. unfold paint.
  rewrite list_lookup_imap, Z.sub_0_r. unfold znth.
  rewrite (proj2 (Z.ltb_ge _ _)), Nat2Z.id by lia.
  destruct (Nat.lt_ge_cases i (length s)).
  - rewrite lookup_app_l by done. destruct (lookup_lt_is_Some_2 out i) as [o ->]; [lia|].
    destruct (lookup_lt_is_Some_2 s i) as [v ->]; [lia|]. done.
  - rewrite lookup_app_r, lookup_drop by done. rewrite (lookup_ge_None_2 s) by done.
    replace (length s + (i - length s))%nat with i by lia. by destruct (out !! i).
Qed.

(** ** Putters *)

Definition colours (c : lzw_ctx) := (lz_has_transparency c, lz_transparency_idx c, lz_colour_map c).

(** A putter writes as [shade] says in a context with the colours [k]. *)
Class Shading (put : putter) (shade : Z -> Z -> Z) (k : bool * Z * option (list Z)) : Prop :=
  shading : forall c value pos out, colours c = k -> is_byte value -> 0 <= pos < zlen out ->
    put c value pos out = Some (paint shade pos [value] out).

#[export] Instance put_value_shading k : Shading put_value (fun v _ => v) k.
Proof.
  intros c v pos out _ _ Hp. unfold put_value.
  destruct (znth_is_Some out pos Hp) as [o E]. rewrite E. cbn. f_equal.
  by apply (insert_paint (fun v _ => v)) with o.
Qed.

(** A transparent value leaves what is there, any other writes its colour. *)
Definition shade_colour (has : bool) (idx : Z) (map : list Z) (v old : Z) : Z :=
  if has && (v =? idx) then old else default 0 (znth map v).

Lemma put_colour_shading has idx map :
  256 <= zlen map -> Shading put_colour (shade_colour has idx map) (has, idx, Some map).
Proof.
  intros Hm c v pos out Hk Hv Hp. unfold colours in Hk. injection Hk as H1 H2 H3.
  unfold put_colour. rewrite H1, H2, H3.
  destruct (znth_is_Some out pos Hp) as [o E].
  rewrite <- (insert_paint (shade_colour has idx map)) with (o := o) by done. unfold shade_colour.
  destruct (has && (v =? idx)).
  - rewrite list_insert_id; [done|]. by rewrite znth_nonneg in E by lia.
  - cbn. destruct (znth_is_Some map v) as [col ->]; [unfold is_byte in Hv; lia|].
    cbn. unfold put_value. by rewrite E.
Qed.

(** ** The table *)

Section Table.
Context (minimum_code_size : Z).
Hypothesis Hmin : 0 <= minimum_code_size < LZW_CODE_MAX.
Let word := word minimum_code_size.
Let next_code := next_code minimum_code_size.

(** An entry has the last and first values of its word, its length, and the
    code of the word without its last value. *)
Record entry_ok (D : list bytes) (w : bytes) (e : lzw_table_entry) : Prop := {
  eo_first : ztake 1 w = [te_first e];
  eo_value : zdrop (zlen w - 1) w = [te_value e];
  eo_count : te_count e = zlen w;
  eo_extends : 1 < zlen w -> word D (te_extends e) = Some (ztake (zlen w - 1) w)
}.

Record table_ok (c : lzw_ctx) (D : list bytes) : Prop := {
  to_zlen : zlen (lz_table c) = LZW_TABLE_ENTRY_MAX;
  to_entry : forall code w, word D code = Some w -> exists e, entry_at c code = Some e /\ entry_ok D w e;
  to_words : forall code w, word D code = Some w -> 1 <= zlen w <= code + 1 /\ wf_bytes w;
  to_full : next_code D <= LZW_TABLE_ENTRY_MAX
}.

Lemma word_range D code w : word D code = Some w -> 0 <= code < next_code D.
Proof.
  unfold word, next_code, LzwRef.word, LzwRef.next_code, eoi_code.
  pose proof (clear_code_range _ Hmin). pose proof (zlen_nonneg D).
  destruct (Z.ltb_spec code 0), (Z.ltb_spec code (clear_code minimum_code_size)),
    (Z.leb_spec code (clear_code minimum_code_size + 1)); try done; try lia.
  intros E%znth_Some_range. lia.
Qed.

Lemma word_is_Some D code :
  0 <= code < next_code D -> code <> clear_code minimum_code_size ->
  code <> eoi_code minimum_code_size -> exists w, word D code = Some w.
Proof.
  unfold word, next_code, LzwRef.word, LzwRef.next_code, eoi_code. intros Hc H1 H2.
  rewrite (proj2 (Z.ltb_ge _ _)) by lia.
  destruct (Z.ltb_spec code (clear_code minimum_code_size)); [eauto|].
  rewrite (proj2 (Z.leb_gt _ _)) by lia. apply znth_is_Some. lia.
Qed.

(** New words are added after the old. *)
Lemma word_app D w code :
  word (D ++ [w]) code = if code =? next_code D then Some w else word D code.
Proof.
  unfold word, next_code, LzwRef.word, LzwRef.next_code, eoi_code.
  pose proof (clear_code_range _ Hmin). pose proof (zlen_nonneg D).
  destruct (Z.eqb_spec code (clear_code minimum_code_size + 1 + 1 + zlen D)) as [->|Hne].
  - rewrite (proj2 (Z.ltb_ge _ _)), (proj2 (Z.ltb_ge _ _)), (proj2 (Z.leb_gt _ _)) by lia.
    rewrite znth_app_r by lia.
    replace (_ - zlen D) with 0 by lia. done.
  - destruct (Z.ltb_spec code 0); [done|]. destruct (Z.ltb_spec code (clear_code minimum_code_size)); [done|].
    destruct (Z.leb_spec code (clear_code minimum_code_size + 1)); [done|].
    destruct (Z.lt_ge_cases (code - (clear_code minimum_code_size + 1) - 1) (zlen D));
      [by apply znth_app_l|].
    rewrite znth_app_r by done. unfold znth.
    rewrite !(proj2 (Z.ltb_ge _ _)) by lia. rewrite !lookup_ge_None_2; [done|unfold zlen in *; lia|].
    cbn. lia.
Qed.

(** *** Skipping and writing *)

Lemma skip_values_spec c D n : forall code w,
  table_ok c D -> word D code = Some w -> Z.of_nat n <= zlen w ->
  exists code', skip_values n c code = Some code' /\
    (Z.of_nat n < zlen w -> word D code' = Some (ztake (zlen w - Z.of_nat n) w)).
Proof.
  induction n as [|n IH]; intros code w Ht Hw Hn; cbn [skip_values].
  - exists code. split; [done|]. intros _. by rewrite ztake_ge by lia.
  - destruct (to_entry c D Ht _ _ Hw) as (e & -> & He). cbn.
    destruct n as [|n].
    + cbn. exists (te_extends e). split; [done|]. intros Hl. by apply (eo_extends _ _ _ He).
    + pose proof (eo_extends _ _ _ He ltac:(lia)) as Hx.
      assert (zlen (ztake (zlen w - 1) w) = zlen w - 1) as Hl by (rewrite zlen_ztake; lia).
      destruct (IH _ _ Ht Hx) as (code' & -> & Hc'); [lia|]. exists code'. split; [done|].
      intros Hlt. rewrite Hc', ztake_ztake by lia. do 2 f_equal. lia.
Qed.

Lemma write_values_spec {put shade} c D n :
  table_ok c D -> Shading put shade (colours c) -> forall code w pos out,
  word D code = Some w -> Z.of_nat n <= zlen w -> Z.of_nat n <= pos <= zlen out ->
  write_values put n c code pos out
  = Some (paint shade (pos - Z.of_nat n) (zdrop (zlen w - Z.of_nat n) w) out).
Proof.
  intros Ht Hput. induction n as [|n IH]; intros code w pos out Hw Hn Hp; cbn [write_values].
  - rewrite zdrop_ge by lia. by rewrite paint_nil.
  - destruct (to_entry c D Ht _ _ Hw) as (e & -> & He). cbn.
    pose proof (to_words c D Ht _ _ Hw) as [_ Hwf].
    assert (is_byte (te_value e)) as Hb.
    { pose proof (Forall_zdrop _ (zlen w - 1) _ Hwf) as Hd. rewrite (eo_value _ _ _ He) in Hd.
      by inversion Hd. }
    rewrite (Hput c (te_value e) (pos - 1) out eq_refl Hb) by lia. cbn.
    assert (zdrop (zlen w - Z.of_nat (S n)) w
            = zdrop (zlen w - Z.of_nat (S n)) (ztake (zlen w - 1) w) ++ [te_value e]) as ->.
    { rewrite <- (eo_value _ _ _ He). rewrite <- zdrop_app_le by (rewrite zlen_ztake; lia).
      by rewrite ztake_zdrop. }
    destruct n as [|n].
    + cbn. rewrite zdrop_ge by (rewrite zlen_ztake; lia). done.
    + rewrite IH with (w := ztake (zlen w - 1) w);
        [|apply (eo_extends _ _ _ He); lia|rewrite zlen_ztake; lia|rewrite zlen_paint; lia].
      rewrite zlen_ztake. replace (Z.max 0 (Z.min (zlen w - 1) (zlen w)) - Z.of_nat (S n))
        with (zlen w - Z.of_nat (S (S n))) by lia.
      f_equal. rewrite <- (proj1 (paint_app _ _ _ _ _)). f_equal; [lia|]. f_equal.
      rewrite zlen_zdrop, zlen_ztake. lia.
Qed.

(** Only the table matters. *)
Lemma table_ok_ext c c' D : lz_table c' = lz_table c -> table_ok c D -> table_ok c' D.
Proof.
  intros E [H1 H2 H3 H4]. constructor; [by rewrite E| |done..].
  unfold entry_at in *. rewrite E. done.
Qed.

(** The last [values] values of a word, as many as there is space for. *)
Lemma write_fn_spec {put shade} c D code w values used out :
  table_ok c D -> Shading put shade (colours c) -> word D code = Some w ->
  0 <= values <= zlen w -> 0 <= used <= zlen out -> zlen out < 2 ^ 32 ->
  let n := Z.min values (zlen out - used) in
  write_fn put used code values out c
  = Some (n, paint shade used (ztake n (zdrop (zlen w - values) w)) out,
          set_output code (values - n) c).
Proof.
  intros Ht Hput Hw Hv Hu Hl. cbv zeta.
  pose proof (to_words c D Ht _ _ Hw) as [Hlen _]. pose proof (word_range _ _ _ Hw) as Hcode.
  pose proof (to_full c D Ht) as Hfull. change LZW_TABLE_ENTRY_MAX with 4096 in Hfull.
  unfold write_fn. rewrite u32_small by lia. cbv zeta.
  set (n := Z.min values (zlen out - used)).
  assert ((if zlen out - used <? values
           then (u16 (zlen out - used), u16 (values - (zlen out - used))) else (values, 0))
          = (n, values - n)) as ->.
  { unfold n. destruct (Z.ltb_spec (zlen out - used) values).
    - rewrite !u16_small by lia. f_equal; lia.
    - f_equal; lia. }
  assert (table_ok (set_output code (values - n) c) D) as Ht' by (by apply table_ok_ext with c).
  assert (Z.of_nat (Z.to_nat (values - n)) = values - n) as E1 by lia.
  assert (Z.of_nat (Z.to_nat n) = n) as E2 by lia.
  destruct (skip_values_spec _ D (Z.to_nat (values - n)) code w Ht' Hw) as (code' & -> & Hc'); [lia|].
  rewrite E1 in Hc'. cbn.
  destruct (decide (n = 0)) as [->|Hn].
  { cbn. f_equal. by rewrite ztake_le0, paint_nil by lia. }
  specialize (Hc' ltac:(lia)).
  assert (zlen (ztake (zlen w - (values - n)) w) = zlen w - (values - n)) as Hz
    by (rewrite zlen_ztake; lia).
  rewrite (write_values_spec _ D _ Ht' Hput _ _ _ _ Hc') by lia. cbn. rewrite Hz, E2. do 4 f_equal.
  - lia.
  - rewrite ztake_zdrop_comm by lia. f_equal; [lia|]. f_equal. lia.
Qed.

(** A new entry is a word followed by a value. *)
Lemma add_entry_spec c D p value :
  table_ok c D -> next_code D < LZW_TABLE_ENTRY_MAX -> lz_table_size c = next_code D ->
  word D (lz_prev_code c) = Some p -> ztake 1 p = [lz_prev_code_first c] ->
  lz_prev_code_count c = zlen p -> is_byte value ->
  exists t, lzw__table_add_entry value c
            = Some (set_building (lz_code_size c) (lz_code_max c) (next_code D + 1) (set_table t c)) /\
            table_ok (set_table t c) (D ++ [p ++ [value]]).
Proof.
  intros Ht Hlt Hs Hp Hfirst Hcount Hv. change LZW_TABLE_ENTRY_MAX with 4096 in Hlt.
  destruct Ht as [Hz Hent Hwords Hfull]. change LZW_TABLE_ENTRY_MAX with 4096 in Hz.
  pose proof (word_range _ _ _ Hp) as Hpr. destruct (Hwords _ _ Hp) as [Hlen Hpwf].
  assert (0 <= next_code D) as Hnn by lia.
  assert (is_byte (lz_prev_code_first c)) as Hfb.
  { pose proof (Forall_ztake _ 1 _ Hpwf) as Hf. rewrite Hfirst in Hf. by inversion Hf. }
  unfold is_byte in Hv, Hfb.
  unfold lzw__table_add_entry, put_entry. rewrite Hs, Hcount.
  destruct (znth_is_Some (lz_table c) (next_code D)) as [e0 ->]; [lia|]. cbn.
  rewrite !u8_small, !u16_small by lia.
  eexists. split; [reflexivity|]. set (e := {| te_value := value |}).
  assert (entry_ok (D ++ [p ++ [value]]) (p ++ [value]) e) as He.
  { constructor; cbn.
    - by rewrite ztake_app_le by lia.
    - rewrite zlen_app, zdrop_app_ge by (unfold zlen; cbn; lia).
      rewrite zdrop_le0 by (unfold zlen; cbn; lia). done.
    - rewrite zlen_app. unfold zlen. cbn. lia.
    - intros _. rewrite word_app. rewrite (proj2 (Z.eqb_neq _ _)) by lia. rewrite Hp. f_equal.
      rewrite zlen_app, ztake_app_le by (unfold zlen; cbn; lia). rewrite ztake_ge; [done|].
      unfold zlen; cbn; lia. }
  constructor.
  - cbn. unfold zlen in *. by rewrite length_insert.
  - intros code w. rewrite word_app. unfold entry_at. cbn.
    destruct (Z.eqb_spec code (next_code D)) as [->|Hne].
    + intros [= <-]. exists e. split; [|done]. rewrite znth_nonneg by lia.
      unfold zlen in Hz. by rewrite list_lookup_insert_eq by lia.
    + intros Hw. pose proof (word_range _ _ _ Hw) as Hr. destruct (Hent _ _ Hw) as (e' & He' & Hok).
      exists e'. split.
      * unfold entry_at in He'. rewrite znth_nonneg in He' |- * by lia.
        by rewrite list_lookup_insert_ne by lia.
      * destruct Hok as [H1 H2 H3 H4]. constructor; [done..|]. intros Hl.
        specialize (H4 Hl). pose proof (word_range _ _ _ H4). rewrite word_app.
        by rewrite (proj2 (Z.eqb_neq _ _)) by lia.
  - intros code w. rewrite word_app. destruct (Z.eqb_spec code (next_code D)) as [->|Hne]; [|apply Hwords].
    intros [= <-]. rewrite zlen_app. split; [unfold zlen in *; cbn; lia|].
    apply Forall_app. split; [done|]. apply Forall_singleton; exact Hv.
  - unfold next_code, LzwRef.next_code in *. rewrite zlen_app. change LZW_TABLE_ENTRY_MAX with 4096.
    unfold zlen in *. cbn. lia.
Qed.

(** After a clear code only the values themselves have codes. *)
Lemma table_ok_clear c D : table_ok c D -> table_ok c [].
Proof.
  assert (forall code w, word [] code = Some w ->
            0 <= code < clear_code minimum_code_size /\ w = [u8 code] /\ word D code = Some w) as Hbase.
  { intros code w. unfold word, LzwRef.word.
    destruct (Z.ltb_spec code 0); [done|]. destruct (Z.ltb_spec code (clear_code minimum_code_size)).
    - intros [= <-]. split_and!; done.
    - destruct (_ <=? _); [done|]. unfold znth. by destruct (_ <? _). }
  intros [H1 H2 H3 H4]. constructor; [done| | |].
  - intros code w Hw. destruct (Hbase _ _ Hw) as (_ & -> & Hw'). destruct (H2 _ _ Hw') as (e & He & Hok).
    exists e. split; [done|]. destruct Hok as [Ha Hb Hc _]. constructor; [done..|].
    unfold zlen. cbn. lia.
  - intros code w Hw. destruct (Hbase _ _ Hw) as (_ & _ & Hw'). by apply H3.
  - unfold next_code, LzwRef.next_code in *. pose proof (zlen_nonneg D). unfold zlen in *. cbn. lia.
Qed.
End Table.
