(* ===== verification/LzwSpec.v ===== *)
(** * LzwSpec: the decoder produces what [lzw_stream] says, whatever the sizes
    of the buffers it is given.

    [building] is what holds while a table is built, [decoding] also relates
    the code before.  Fuel is only used by the loop over clear codes, and one
    more than the bits left is enough. *)
From S2P Require Import Prelude Lzw.
From S2P Require Import LzwRead.
From S2P Require Import LzwRef.
From S2P Require Import LzwTable.

Section Spec.
Context (minimum_code_size : Z).
Hypothesis Hmin : 0 <= minimum_code_size < LZW_CODE_MAX.
Let word := word minimum_code_size.
Let next_code := next_code minimum_code_size.
Let code_bits := code_bits minimum_code_size.

Record based (c : lzw_ctx) : Prop := {
  ba_reader : rd_ok (lz_input c);
  ba_initial : lz_initial_code_size c = minimum_code_size + 1;
  ba_clear : lz_clear_code c = clear_code minimum_code_size;
  ba_eoi : lz_eoi_code c = eoi_code minimum_code_size
}.

Record building (c : lzw_ctx) (D : list bytes) : Prop := {
  bu_based : based c;
  bu_table : table_ok minimum_code_size c D;
  bu_size : lz_table_size c = next_code D;
  bu_bits : lz_code_size c = code_bits D;
  bu_max : lz_code_max c = 2 ^ code_bits D - 1
}.

(** The code before, with its word [p]. *)
Record previous (c : lzw_ctx) (D : list bytes) (p : bytes) : Prop := {
  pr_code : word D (lz_prev_code c) = Some p;
  pr_first : ztake 1 p = [lz_prev_code_first c];
  pr_count : lz_prev_code_count c = zlen p
}.

(** What the octets left stand for, and how many bits they are. *)
Definition rest (c : lzw_ctx) (D : list bytes) (p : option bytes) : bytes * lzw_result :=
  lzw_stream minimum_code_size (ending (lz_input c)) (octets (lz_input c)) (bit (lz_input c)) D p.
Definition left_bits (c : lzw_ctx) : Z := 8 * zlen (octets (lz_input c)) - bit (lz_input c).

Lemma bit_range r : 0 <= bit r < 8.
Proof. apply Z.mod_pos_bound. lia. Qed.

Lemma left_bits_nonneg c : rd_ok (lz_input c) -> -8 < left_bits c.
Proof. intros _. unfold left_bits. pose proof (bit_range (lz_input c)). pose proof (zlen_nonneg (octets (lz_input c))). lia. Qed.

(** Reading a code of the size the dictionary asks for, against the stream. *)
Lemma read_rest c D p :
  rd_ok (lz_input c) ->
  exists r code i, lzw__read_code (lz_input c) (code_bits D) = Some (r, code, i) /\ rd_ok i /\
    match r with
    | LZW_OK =>
        0 <= code < 2 ^ code_bits D /\
        left_bits (set_input i c) < left_bits c /\
        rest c D p =
          match p with
          | None =>
              if code =? clear_code minimum_code_size then rest (set_input i c) D None
              else if clear_code minimum_code_size <? code then ([], LZW_BAD_ICODE)
              else let '(s, r) := rest (set_input i c) D (Some [u8 code]) in (u8 code :: s, r)
          | Some p =>
              if code =? eoi_code minimum_code_size then ([], LZW_EOI_CODE)
              else if next_code D <? code then ([], LZW_BAD_CODE)
              else if code =? clear_code minimum_code_size then rest (set_input i c) [] None
              else
                let w := default (p ++ ztake 1 p) (word D code) in
                let '(s, r) := rest (set_input i c) (learn minimum_code_size D p w) (Some w) in (w ++ s, r)
          end
    | _ => rest c D p = ([], r)
    end.
Proof.
  intros Hok. pose proof (code_bits_range minimum_code_size Hmin D) as Hb. fold code_bits in Hb.
  destruct (read_code_spec (lz_input c) (code_bits D) Hok) as (r & code & i & E & Hi & Hm); [lia|].
  exists r, code, i. split; [done|]. split; [done|].
  pose proof (bit_range (lz_input c)) as Hbit.
  unfold rest. rewrite lzw_stream_step by (done || lia). cbv zeta. fold (code_bits D).
  destruct r; try (destruct Hm as [Hle ->]; by rewrite (proj2 (Z.leb_le _ _)) by lia).
  destruct Hm as (Hlt & -> & Ho & Hbi & He).
  rewrite (proj2 (Z.leb_gt _ _)) by lia. split.
  { unfold bits_at. apply Z.mod_pos_bound, Z.pow_pos_nonneg; lia. }
  destruct (bits_left minimum_code_size Hmin (octets (lz_input c)) (bit (lz_input c)) D) as [Hleft _];
    [lia|done|]. fold (code_bits D) in Hleft.
  unfold left_bits. cbn [lz_input set_input]. rewrite Ho, Hbi, He. split; [lia|]. done.
Qed.

(** ** The size of codes *)

Lemma code_bits_nil : code_bits [] = minimum_code_size + 1.
Proof.
  unfold code_bits, LzwRef.code_bits, LzwRef.next_code, eoi_code. unfold LZW_CODE_MAX in *.
  rewrite clear_code_pow2 by done. destruct (Z.ltb_spec minimum_code_size 2); [done|].
  assert (2 ^ 2 <= 2 ^ minimum_code_size) by (apply Z.pow_le_mono_r; lia).
  rewrite (Z.log2_unique _ minimum_code_size); [lia|lia|].
  rewrite Z.pow_succ_r by lia. unfold zlen. cbn. lia.
Qed.

Lemma code_bits_grow D w :
  next_code D < LZW_TABLE_ENTRY_MAX ->
  code_bits (D ++ [w]) =
  if (next_code D =? 2 ^ code_bits D - 1) && (code_bits D <? LZW_CODE_MAX)
  then code_bits D + 1 else code_bits D.
Proof.
  intros Hlt. unfold code_bits, LzwRef.code_bits.
  assert (LzwRef.next_code minimum_code_size (D ++ [w]) = next_code D + 1) as ->
    by (unfold next_code, LzwRef.next_code; rewrite zlen_app; unfold zlen; cbn; lia).
  fold next_code. pose proof (clear_code_range _ Hmin) as Hc.
  assert (clear_code minimum_code_size + 2 <= next_code D) as Hn.
  { unfold next_code, LzwRef.next_code, eoi_code. pose proof (zlen_nonneg D). lia. }
  change LZW_TABLE_ENTRY_MAX with 4096 in Hlt. unfold LZW_CODE_MAX in *.
  destruct (Z.ltb_spec minimum_code_size 2).
  - rewrite clear_code_pow2 in Hn by done.
    assert (2 ^ (minimum_code_size + 1) - 1 < next_code D); [|by rewrite (proj2 (Z.eqb_neq _ _)) by lia].
    rewrite Z.pow_add_r by lia. change (2 ^ 1) with 2.
    assert (2 ^ minimum_code_size <= 2 ^ 1) as Hp by (apply Z.pow_le_mono_r; lia).
    change (2 ^ 1) with 2 in Hp. lia.
  - pose proof (Z.log2_spec (next_code D) ltac:(lia)) as [H1 H2].
    assert (Z.log2 (next_code D) < 12) as H12 by (apply Z.log2_lt_pow2; lia).
    rewrite (Z.min_r 12 (Z.log2 (next_code D) + 1)) by lia. rewrite <- Z.add_1_r in H2.
    destruct (Z.eqb_spec (next_code D) (2 ^ (Z.log2 (next_code D) + 1) - 1)) as [He|He].
    + assert (Z.log2 (next_code D + 1) = Z.log2 (next_code D) + 1) as ->.
      { rewrite He at 1. rewrite Z.sub_add. apply Z.log2_pow2. pose proof (Z.log2_nonneg (next_code D)). lia. }
      destruct (Z.ltb_spec (Z.log2 (next_code D) + 1) 12); cbn; lia.
    + cbn. rewrite (Z.log2_unique (next_code D + 1) (Z.log2 (next_code D))); [lia|apply Z.log2_nonneg|lia].
Qed.

(** ** Clear codes *)

Lemma clear_loop_spec fuel : forall c,
  rd_ok (lz_input c) -> lz_code_size c = code_bits [] ->
  lz_clear_code c = clear_code minimum_code_size -> left_bits c + 8 < Z.of_nat fuel ->
  exists r code i, clear_loop fuel c = Some (r, code, set_input i c) /\ rd_ok i /\
    match r with
    | LZW_OK =>
        0 <= code /\ code <> clear_code minimum_code_size /\
        left_bits (set_input i c) < left_bits c /\
        rest c [] None =
          if clear_code minimum_code_size <? code then ([], LZW_BAD_ICODE)
          else let '(s, r) := rest (set_input i c) [] (Some [u8 code]) in (u8 code :: s, r)
    | _ => code = 0 /\ rest c [] None = ([], r)
    end.
Proof.
  induction fuel as [|fuel IH]; intros c Hok Hs Hc Hf.
  { pose proof (left_bits_nonneg c Hok). lia. }
  cbn [clear_loop]. rewrite Hs.
  destruct (read_rest c [] None Hok) as (r & code & i & -> & Hi & Hm). cbn -[rest left_bits].
  destruct r; try (eexists _, _, i; split; [reflexivity|]; by split).
  destruct Hm as (Hr & Hl & Hrest). rewrite Hc. rewrite Hrest.
  destruct (Z.eqb_spec code (clear_code minimum_code_size)) as [E|Hne].
  - destruct (IH (set_input i c)) as (r & code' & i' & -> & Hi' & Hm'); [done..|lia|].
    eexists r, code', i'. split; [reflexivity|]. split; [done|].
    destruct r; try exact Hm'. destruct Hm' as (? & ? & Hl' & Hm').
    split_and!; [done|done| |done]. change (left_bits (set_input i' c) < left_bits (set_input i c)) in Hl'. lia.
  - eexists LZW_OK, code, i. split; [reflexivity|]. split; [done|]. split_and!; [lia|done|done|done].
Qed.

Lemma u16_code_max n : 0 < n <= LZW_CODE_MAX -> u16 (Z.shiftl 1 n - 1) = 2 ^ n - 1.
Proof.
  unfold LZW_CODE_MAX. intros Hn. rewrite Z.shiftl_mul_pow2, Z.mul_1_l by lia. apply u16_small.
  assert (2 ^ 0 < 2 ^ n) by (apply Z.pow_lt_mono_r; lia).
  assert (2 ^ n <= 2 ^ 12) by (apply Z.pow_le_mono_r; lia). lia.
Qed.

(** A clear code starts a new dictionary; the code after it has to be a value. *)
Lemma handle_clear_spec fuel c D :
  based c -> table_ok minimum_code_size c D -> left_bits c + 8 < Z.of_nat fuel ->
  exists r code c', lzw__handle_clear fuel c = Some (r, code, c') /\ rd_ok (lz_input c') /\
    match r with
    | LZW_OK =>
        building c' [] /\ word [] code = Some [u8 code] /\ colours c' = colours c /\
        left_bits c' < left_bits c /\
        rest c [] None = let '(s, r) := rest c' [] (Some [u8 code]) in (u8 code :: s, r)
    | _ => rest c [] None = ([], r)
    end.
Proof.
  intros Hb Ht Hf. pose proof Hb as [Hok Hi Hc He]. unfold lzw__handle_clear. cbv zeta.
  pose proof (clear_code_range _ Hmin) as Hcr. pose proof Hmin as Hmin'. unfold LZW_CODE_MAX in Hmin'.
  assert (u16 (lz_eoi_code c + 1) = next_code []) as ->.
  { rewrite He. unfold next_code, LzwRef.next_code, eoi_code. rewrite zlen_nil, Z.add_0_r. apply u16_small. lia. }
  rewrite Hi, u16_code_max, <- code_bits_nil by (unfold LZW_CODE_MAX; lia).
  set (c0 := set_building _ _ _ c).
  destruct (clear_loop_spec fuel c0) as (r & code & i & -> & Hi' & Hm); [done..|]. cbn -[clear_loop rest left_bits].
  destruct r; try (eexists _, _, _; split; [reflexivity|]; by destruct Hm).
  destruct Hm as (Hcode & Hne & Hl & Hrest). rewrite Hc.
  change (rest c0 [] None) with (rest c [] None) in Hrest.
  change (left_bits c0) with (left_bits c) in Hl.
  destruct (Z.ltb_spec (clear_code minimum_code_size) code).
  { eexists _, _, _. split; [reflexivity|]. by split. }
  eexists _, _, _. split; [reflexivity|]. split; [done|]. split_and!; [| |done|done|done].
  - constructor; [by constructor| |done..]. apply table_ok_clear with D.
    by apply table_ok_ext with c.
  - unfold word, LzwRef.word. by rewrite (proj2 (Z.ltb_ge _ _)), (proj2 (Z.ltb_lt _ _)) by lia.
Qed.
(** ** Learning *)

(** The table learns as the dictionary does, and the code just read then has
    its word. *)
Lemma grow_table_spec c D p code :
  building c D -> previous c D p -> 0 <= code < 2 ^ code_bits D -> code <= next_code D ->
  code <> clear_code minimum_code_size -> code <> eoi_code minimum_code_size ->
  let w := default (p ++ ztake 1 p) (word D code) in
  let D' := learn minimum_code_size D p w in
  exists c', grow_table code c = Some c' /\ building c' D' /\ word D' code = Some w /\
    lz_input c' = lz_input c /\ colours c' = colours c.
Proof.
  intros Hb [Hp Hfirst Hcount] Hcode Hle Hne1 Hne2. cbv zeta.
  pose proof Hb as [Hba Ht Hs Hbits Hmax]. pose proof (to_words _ _ _ Ht _ _ Hp) as [Hplen Hpwf].
  unfold grow_table, learn. rewrite Hs. fold (next_code D).
  destruct (Z.ltb_spec (next_code D) LZW_TABLE_ENTRY_MAX) as [Hlt|Hge].
  - (* an entry is added *)
    set (w := default _ _).
    assert (exists v, (if code <? next_code D then e ← entry_at c code; Some (te_first e)
                       else Some (lz_prev_code_first c)) = Some v /\ ztake 1 w = [v] /\ is_byte v /\
                      word (D ++ [p ++ [v]]) code = Some w) as (v & -> & Hw1 & Hv & Hw).
    { assert (forall v, word (D ++ [p ++ [v]]) code = if code =? next_code D then Some (p ++ [v]) else word D code)
        as Happ by (intros; by apply word_app).
      destruct (Z.ltb_spec code (next_code D)) as [Hc|Hc].
      - destruct (word_is_Some minimum_code_size D code) as [w' Hw']; [fold (next_code D); lia|done..|].
        fold (word D code) in Hw'. subst w. rewrite Hw'. cbn [default from_option id].
        destruct (to_entry _ _ _ Ht _ _ Hw') as (e & -> & He). exists (te_first e). rewrite Happ. split; [done|].
        pose proof (eo_first _ _ _ _ He) as Hf. rewrite (proj2 (Z.eqb_neq _ _)) by lia.
        split_and!; [done| |done]. destruct (to_words _ _ _ Ht _ _ Hw') as [_ Hwf].
        pose proof (Forall_ztake _ 1 _ Hwf) as Hf'. rewrite Hf in Hf'. by inversion Hf'.
      - assert (code = next_code D) as -> by lia.
        assert (word D (next_code D) = None) as E.
        { destruct (word D (next_code D)) eqn:E; [|done].
          apply (word_range _ Hmin) in E. fold (next_code D) in E. lia. }
        subst w. rewrite E. cbn [default from_option id].
        exists (lz_prev_code_first c). rewrite Happ, Z.eqb_refl, Hfirst. split_and!; [done| | |done].
        + by rewrite ztake_app_le by lia.
        + pose proof (Forall_ztake _ 1 _ Hpwf) as Hf. rewrite Hfirst in Hf. by inversion Hf. }
    cbn -[lzw__table_add_entry]. rewrite Hw1.
    destruct (add_entry_spec _ Hmin c D p v Ht Hlt Hs Hp Hfirst Hcount Hv) as (t & -> & Ht').
    cbn. rewrite Hmax, Hbits.
    pose proof (code_bits_range minimum_code_size Hmin (D ++ [p ++ [v]])) as Hbr.
    fold (code_bits (D ++ [p ++ [v]])) in Hbr. pose proof (code_bits_grow D (p ++ [v]) Hlt) as Hg.
    assert (next_code D + 1 = next_code (D ++ [p ++ [v]])) as Hn.
    { unfold next_code, LzwRef.next_code. rewrite zlen_app. unfold zlen. cbn. lia. }
    eexists. split; [reflexivity|].
    destruct (_ && _) eqn:Eg; rewrite Hg in Hbr; (split; [|by split]).
    + constructor; [by destruct Hba| |exact Hn|by rewrite Hg|cbn; rewrite u16_code_max, Hg; [done|lia]].
      by apply table_ok_ext with (set_table t c).
    + constructor; [by destruct Hba| |exact Hn|by rewrite Hg|by rewrite Hg].
      by apply table_ok_ext with (set_table t c).
  - (* the table is full *)
    assert (code < next_code D) as Hc.
    { pose proof (code_bits_range minimum_code_size Hmin D) as Hbr. fold (code_bits D) in Hbr.
      assert (2 ^ code_bits D <= 2 ^ 12) by (apply Z.pow_le_mono_r; unfold LZW_CODE_MAX in *; lia).
      change LZW_TABLE_ENTRY_MAX with (2 ^ 12) in Hge. lia. }
    destruct (word_is_Some minimum_code_size D code) as [w Hw]; [fold (next_code D); lia|done..|].
    fold (word D code) in Hw. rewrite Hw. by exists c.
Qed.

(** ** Decoding a code *)

(** The context stands for the values [s] and the reason [r] they end: what is
    left of the last code written, then what the octets left stand for. *)
Record decoding (c : lzw_ctx) (D : list bytes) (p s : bytes) (r : lzw_result) : Prop := {
  de_building : building c D;
  de_previous : previous c D p;
  de_left : 0 <= lz_output_left c <= zlen (default [] (word D (lz_output_code c)));
  de_code : is_Some (word D (lz_output_code c));
  de_stream :
    let w := default [] (word D (lz_output_code c)) in
    (s, r) = let '(s, r) := rest c D (Some p) in (zdrop (zlen w - lz_output_left c) w ++ s, r)
}.

Lemma building_set_output c D code n : building c D -> building (set_output code n c) D.
Proof.
  intros [[? ? ? ?] Ht ? ? ?]. constructor; [by constructor| |done..]. by apply table_ok_ext with c.
Qed.

Lemma building_set_prev c D code first count : building c D -> building (set_prev code first count c) D.
Proof.
  intros [[? ? ? ?] Ht ? ? ?]. constructor; [by constructor| |done..]. by apply table_ok_ext with c.
Qed.

(** A context that has [left] values of a word still to write. *)
Lemma decoding_intro c D p code w n s r :
  building c D -> previous c D p -> lz_output_code c = code -> lz_output_left c = n ->
  word D code = Some w -> 0 <= n <= zlen w -> rest c D (Some p) = (s, r) ->
  decoding c D p (zdrop (zlen w - n) w ++ s) r.
Proof.
  intros Hb Hp <- <- Hw Hn Hs. constructor; [done|done|by rewrite Hw|by rewrite Hw|].
  cbv zeta. by rewrite Hs, Hw.
Qed.
(** Some of the values [s] the context [c] stood for have been written, and
    [c'] stands for the others; it holds none of them back while there is space. *)
Definition stepped (shade : Z -> Z -> Z) (c : lzw_ctx) (written : Z) (out : list Z) (s : bytes)
    (r : lzw_result) (written' : Z) (out' : list Z) (c' : lzw_ctx) : Prop :=
  exists n D p, 0 < n <= zlen s /\ written' = written + n /\ written' <= zlen out /\
    out' = paint shade written (ztake n s) out /\ decoding c' D p (zdrop n s) r /\
    colours c' = colours c /\ left_bits c' <= left_bits c /\
    (written' < zlen out -> rest c' D (Some p) = (zdrop n s, r)).

(** What a code that was read does once the dictionary is [D]: its word is
    written as far as there is space, and it becomes the code before. *)
Lemma write_code_spec {put shade} c D code w written out s r :
  building c D -> Shading put shade (colours c) -> word D code = Some w ->
  0 <= written < zlen out -> zlen out < 2 ^ 32 -> rest c D (Some w) = (s, r) ->
  exists written' out' c', (e ← entry_at c code;
      '(n, out, c) ← write_fn put written code (te_count e) out c;
      e ← entry_at c code;
      Some (LZW_OK, u32 (written + n), out, set_prev code (te_first e) (te_count e) c))
    = Some (LZW_OK, written', out', c') /\ stepped shade c written out (w ++ s) r written' out' c'.
Proof.
  intros Hb Hput Hw Hu Hl Hs. set (n := Z.min (zlen w) (zlen out - written)).
  destruct (to_entry _ _ _ (bu_table _ _ Hb) _ _ Hw) as (e & He & Hok). rewrite He. cbn.
  pose proof (to_words _ _ _ (bu_table _ _ Hb) _ _ Hw) as [Hlen _].
  rewrite (eo_count _ _ _ _ Hok).
  rewrite (write_fn_spec _ Hmin c D code w) by (apply Hb || done || lia). fold n.
  cbn. change (entry_at (set_output _ _ c) code) with (entry_at c code). rewrite He. cbn.
  rewrite u32_small, Z.sub_diag, zdrop_le0, (eo_count _ _ _ _ Hok) by lia.
  eexists _, _, _. split; [reflexivity|]. exists n, D, w.
  pose proof (zlen_nonneg s). rewrite zlen_app, (ztake_app_le n) by lia.
  split_and!; [lia|lia|done|lia|done| |done|done|].
  - replace (zdrop n (w ++ s)) with (zdrop (zlen w - (zlen w - n)) w ++ s)
      by (rewrite zdrop_app_le by lia; do 2 f_equal; lia).
    apply decoding_intro with code; [by apply building_set_prev, building_set_output| |done..|lia|exact Hs].
    constructor; [exact Hw|apply Hok|done].
  - intros Hlt. rewrite zdrop_app_ge, zdrop_le0 by lia. exact Hs.
Qed.

(** One code, or the code after some clear codes. *)
Lemma decode_step {put shade} fuel c D p written out s r :
  building c D -> previous c D p -> Shading put shade (colours c) ->
  0 <= written < zlen out -> zlen out < 2 ^ 32 -> left_bits c + 8 < Z.of_nat fuel ->
  rest c D (Some p) = (s, r) ->
  exists res written' out' c', lzw__decode fuel put written out c = Some (res, written', out', c') /\
    match res with
    | LZW_OK => stepped shade c written out s r written' out' c'
    | _ => s = [] /\ r = res /\ written' = written /\ out' = out
    end.
Proof.
  intros Hb Hp Hput Hu Hl Hf Hs. pose proof Hb as [Hba Ht Hsz Hbits Hmax].
  pose proof Hba as [Hok Hi Hc He]. unfold lzw__decode. rewrite Hbits.
  destruct (read_rest c D (Some p) Hok) as (res & code & i & -> & Hi' & Hm).
  cbn -[rest left_bits write_fn stepped].
  destruct res; try (eexists _, _, _, _; split; [reflexivity|]; rewrite Hs in Hm; by injection Hm as -> ->).
  destruct Hm as (Hcode & Hleft & Hrest). rewrite Hs in Hrest. rewrite He, Hsz.
  destruct (Z.eqb_spec code (eoi_code minimum_code_size)) as [->|Hne1].
  { injection Hrest as -> ->. by eexists _, _, _, _. }
  destruct (Z.ltb_spec (next_code D) code) as [|Hle].
  { injection Hrest as -> ->. by eexists _, _, _, _. }
  rewrite Hc.
  assert (building (set_input i c) D) as Hb'.
  { constructor; [by constructor| |done..]. by apply table_ok_ext with c. }
  destruct (Z.eqb_spec code (clear_code minimum_code_size)) as [->|Hne2].
  - destruct (handle_clear_spec fuel (set_input i c) D) as (res & code & c1 & -> & _ & Hm);
      [apply Hb'..|lia|]. cbn -[rest left_bits write_fn stepped]. rewrite <- Hrest in Hm.
    destruct res; try (eexists _, _, _, _; split; [reflexivity|]; by injection Hm as -> ->).
    destruct Hm as (Hb1 & Hw & Hcol & Hl1 & Hs1).
    destruct (rest c1 [] (Some [u8 code])) as [s1 r1] eqn:Er. injection Hs1 as -> ->.
    destruct (write_code_spec (put := put) (shade := shade) c1 [] code [u8 code] written out s1 r1) as (w' & o' & c' & -> & Hst);
      [done|by rewrite Hcol|done..|].
    eexists _, _, _, _. split; [reflexivity|]. destruct Hst as (n & D' & p' & Hst).
    exists n, D', p'. rewrite Hcol in Hst. intuition lia.
  - destruct (grow_table_spec (set_input i c) D p code) as (c1 & -> & Hb1 & Hw & Hin & Hcol);
      [done|by destruct Hp|done..|]. cbn -[rest left_bits write_fn stepped]. cbv zeta in Hrest.
    set (w := default _ _) in *.
    assert (rest (set_input i c) (learn minimum_code_size D p w) (Some w)
            = rest c1 (learn minimum_code_size D p w) (Some w)) as E by (unfold rest; by rewrite Hin).
    rewrite E in Hrest.
    destruct (rest c1 _ _) as [s1 r1] eqn:Er. injection Hrest as -> ->.
    destruct (write_code_spec (put := put) (shade := shade) c1 (learn minimum_code_size D p w) code w written out s1 r1) as (w' & o' & c' & -> & Hst);
      [done|by rewrite Hcol|done..|].
    eexists _, _, _, _. split; [reflexivity|]. destruct Hst as (n & D' & p' & Hst).
    exists n, D', p'. rewrite Hcol in Hst.
    assert (left_bits c1 = left_bits (set_input i c)) by (unfold left_bits; by rewrite Hin).
    intuition lia.
Qed.

(** ** Filling the output *)

(** What the values [s] and the reason [r] they end make of an output: as much
    as fits, and the reason only when the values end before the output does. *)
Definition filled (shade : Z -> Z -> Z) (c : lzw_ctx) (written : Z) (out : list Z) (s : bytes)
    (r res : lzw_result) (written' : Z) (out' : list Z) (c' : lzw_ctx) : Prop :=
  let n := Z.min (zlen s) (zlen out - written) in
  written' = written + n /\ out' = paint shade written (ztake n s) out /\
  if zlen out - written <=? zlen s
  then res = LZW_OK /\ colours c' = colours c /\ left_bits c' <= left_bits c /\
       exists D p, decoding c' D p (zdrop n s) r
  else res = r.

(** Some of the values first, the others after them. *)
Lemma filled_after shade c c1 written k out s r res w2 o2 c2 :
  0 <= written -> 0 <= k <= zlen s -> written + k <= zlen out ->
  colours c1 = colours c -> left_bits c1 <= left_bits c ->
  filled shade c1 (written + k) (paint shade written (ztake k s) out) (zdrop k s) r res w2 o2 c2 ->
  filled shade c written out s r res w2 o2 c2.
Proof.
  intros Hw Hk Hfit Hcol Hleft Hfill. unfold filled in *. cbv zeta in *.
  rewrite zlen_paint, zlen_zdrop in Hfill. destruct Hfill as (-> & -> & Hc).
  set (m := Z.min (zlen s) (zlen out - written)).
  replace (Z.min _ _) with (m - k) in * by lia.
  split; [lia|]. split.
  - assert (zlen (ztake k s) = k) as Ek by (rewrite zlen_ztake; lia). rewrite <- Ek at 1.
    rewrite (proj2 (paint_app _ _ _ _ _)). f_equal. rewrite <- ztake_add by lia. f_equal. lia.
  - rewrite zdrop_zdrop in Hc by lia. replace (k + (m - k)) with m in Hc by lia.
    destruct (Z.leb_spec (zlen out - written) (zlen s));
      destruct (Z.leb_spec (zlen out - (written + k)) (Z.max 0 (zlen s - Z.max 0 k))) in Hc;
      try lia; [|done].
    destruct Hc as (? & Hcol2 & Hleft2 & Hd2). rewrite Hcol2. split_and!; [done|done|lia|done].
Qed.

Lemma decode_loop_spec {put shade} fuel n : forall c D p written out s r,
  decoding c D p s r -> (written < zlen out -> rest c D (Some p) = (s, r)) ->
  Shading put shade (colours c) -> 0 <= written <= zlen out -> zlen out < 2 ^ 32 ->
  left_bits c + 8 < Z.of_nat fuel -> zlen out - written < Z.of_nat n ->
  exists res written' out' c', decode_loop fuel n put written out c = Some (res, written', out', c') /\
    filled shade c written out s r res written' out' c'.
Proof.
  induction n as [|n IH]; intros c D p written out s r Hd Hs Hput Hu Hl Hf Hn; [lia|].
  cbn [decode_loop]. pose proof (zlen_nonneg s).
  destruct (Z.eqb_spec written (zlen out)) as [->|Hne].
  { eexists _, _, _, _. split; [reflexivity|]. unfold filled. rewrite Z.sub_diag, Z.min_r by lia.
    rewrite (proj2 (Z.leb_le _ _)), ztake_le0, zdrop_le0, paint_nil by lia. split_and!; try done; [lia|].
    by exists D, p. }
  destruct (decode_step (put := put) (shade := shade) fuel c D p written out s r)
    as (res & w1 & o1 & c1 & -> & Hm); [apply Hd..|done|lia|done|done|apply Hs; lia|].
  cbn -[filled stepped].
  destruct (decide (res = LZW_OK)) as [->|Hres].
  - destruct Hm as (k & D1 & p1 & Hk & -> & Hw1 & -> & Hd1 & Hcol & Hleft & Hs1).
    destruct (IH c1 D1 p1 (written + k) (paint shade written (ztake k s) out) (zdrop k s) r)
      as (res & w2 & o2 & c2 & -> & Hfill); rewrite ?zlen_paint, ?Hcol; [done..|lia|lia|lia|lia|].
    eexists _, _, _, _. split; [reflexivity|]. by apply (filled_after _ _ c1 _ k); [lia..|done|done|].
  - assert (s = [] /\ r = res /\ w1 = written /\ o1 = out) as (-> & -> & -> & ->) by (by destruct res).
    exists res, written, out, c1. split; [by destruct res|].
    unfold filled. rewrite zlen_nil, Z.min_l by lia. rewrite (proj2 (Z.leb_gt _ _)) by lia.
    rewrite ztake_le0, paint_nil by lia. split_and!; [lia|done|done].
Qed.

Lemma decode_all_spec {put shade} fuel c D p out s r :
  decoding c D p s r -> Shading put shade (colours c) -> zlen out < 2 ^ 32 ->
  left_bits c + 8 < Z.of_nat fuel ->
  exists res written out' c', decode_all fuel put out c = Some (res, written, out', c') /\
    filled shade c 0 out s r res written out' c'.
Proof.
  intros [Hb Hp Hleft [w Hw] Hs] Hput Hl Hf. cbv zeta in Hs. rewrite Hw in Hleft, Hs. cbn -[rest] in Hleft, Hs.
  destruct (rest c D (Some p)) as [s0 r0] eqn:Er. injection Hs as -> ->.
  pose proof (zlen_nonneg out). pose proof (zlen_nonneg s0). unfold decode_all.
  set (left_ := lz_output_left c) in *. set (t := zdrop (zlen w - left_) w).
  assert (zlen t = left_) as Ht by (unfold t; rewrite zlen_zdrop; lia).
  assert (decoding c D p (t ++ s0) r0) as Hd
    by (by apply decoding_intro with (lz_output_code c)).
  destruct (Z.eqb_spec left_ 0) as [E|Hne]; cbn [negb].
  - rewrite E in Ht. apply zlen_zero_inv in Ht. rewrite Ht in *. cbn -[filled decode_loop].
    apply (decode_loop_spec _ _ c D p); [done..|lia|done|done|unfold zlen; lia].
  - set (n := Z.min left_ (zlen out - 0)).
    rewrite (write_fn_spec _ Hmin c D _ w) by (apply Hb || done || lia). fold n t.
    cbn -[filled decode_loop]. set (c1 := set_output _ _ c).
    assert (decoding c1 D p (zdrop n (t ++ s0)) r0) as Hd1.
    { replace (zdrop n (t ++ s0)) with (zdrop (zlen w - (left_ - n)) w ++ s0).
      - apply decoding_intro with (lz_output_code c);
          [by apply building_set_output|by destruct Hp|done..|lia|done].
      - rewrite zdrop_app_le by lia. unfold t. rewrite zdrop_zdrop by lia. do 2 f_equal. lia. }
    destruct (decode_loop_spec (put := put) (shade := shade) fuel
      (S (length (paint shade 0 (ztake n t) out))) c1 D p n (paint shade 0 (ztake n t) out) (zdrop n (t ++ s0)) r0)
      as (res & w2 & o2 & c2 & -> & Hfill); rewrite ?zlen_paint;
      [done| |done|lia|done|done|rewrite <- (zlen_paint shade 0 (ztake n t)); unfold zlen; lia|].
    { intros Hlt. rewrite zdrop_app_ge, zdrop_le0 by lia. exact Er. }
    eexists _, _, _, _. split; [reflexivity|].
    apply (filled_after _ _ c1 0 n); [lia|rewrite zlen_app; lia|lia|done|done|].
    by rewrite ztake_app_le by lia.
Qed.
End Spec.
