(* ===== verification/LzwProperties.v ===== *)
(** * LzwProperties: what the LZW decoder of the GIF library promises.

    The image data at a position of a file stands for a sequence of values
    ([image_values]): the contents of the sub-blocks, decoded by [lzw_stream].
    Decoding, buffer by buffer, gives these values and then the reason they end. *)
From S2P Require Import Prelude Lzw.
From S2P Require Import LzwRead.
From S2P Require Import LzwRef.
From S2P Require Import LzwTable.
From S2P Require Import LzwSpec.

(** ** Initialisation *)

(** The values of the image data at [pos], and why they end. *)
Definition image_values (minimum_code_size : Z) (data : bytes) (pos : Z) : bytes * lzw_result :=
  let '(l, e) := later data pos in lzw_stream minimum_code_size e l 0 [] None.

(** Enough for the codes in [data]. *)
Definition data_fuel (data : bytes) : nat := 8 * length data + 9.

Lemma sub_blocks_length n data pos :
  wf_bytes data -> 0 <= pos -> zlen (sub_blocks n data pos).1 <= Z.max 0 (zlen data - pos).
Proof.
  intros Hb. revert pos; induction n as [|n IH]; intros pos Hp; cbn [sub_blocks]; [cbn [fst]; rewrite zlen_nil; lia|].
  destruct (znth data pos) as [size|] eqn:E; [|cbn [fst]; rewrite zlen_nil; lia].
  pose proof (znth_Some_range _ _ _ E). pose proof (Forall_znth _ _ _ _ Hb E) as [Hs _].
  destruct (Z.leb_spec (zlen data) (pos + size)); [cbn [fst]; rewrite zlen_nil; lia|].
  destruct (size =? 0); [cbn [fst]; rewrite zlen_nil; lia|].
  specialize (IH (pos + (size + 1)) ltac:(lia)). destruct (sub_blocks n _ _) as [l e]. cbn in *.
  rewrite zlen_app, zlen_ztake, zlen_zdrop. lia.
Qed.

Definition initial_entry (i : Z) : lzw_table_entry :=
  {| te_value := u8 i; te_first := u8 i; te_count := 1; te_extends := UNINIT |}.

Lemma init_table_spec n : forall i c,
  0 <= i -> i + Z.of_nat n <= zlen (lz_table c) ->
  exists t, init_table n i c = Some (set_table t c) /\ zlen t = zlen (lz_table c) /\
    (forall j, i <= j < i + Z.of_nat n -> znth t j = Some (Some (initial_entry j))) /\
    (forall j, j < i -> znth t j = znth (lz_table c) j).
Proof.
  induction n as [|n IH]; intros i c Hi Hn; cbn [init_table].
  - exists (lz_table c). split; [by destruct c|]. split_and!; [done|lia|done].
  - unfold put_entry. destruct (znth_is_Some (lz_table c) i) as [e ->]; [lia|]. cbn -[init_table].
    fold (initial_entry i). set (t1 := <[Z.to_nat i := Some (initial_entry i)]> (lz_table c)).
    assert (zlen t1 = zlen (lz_table c)) as Hl by (unfold t1, zlen; by rewrite length_insert).
    destruct (IH (i + 1) (set_table t1 c)) as (t & -> & Ht & Hin & Hout); cbn in *; [lia|lia|].
    exists t. rewrite Ht, Hl. split; [done|]. split; [done|]. split.
    + intros j Hj. destruct (decide (j = i)) as [->|]; [|apply Hin; lia].
      rewrite Hout, znth_nonneg by lia. unfold t1. rewrite list_lookup_insert_eq; [done|].
      unfold zlen in *. lia.
    + intros j Hj. rewrite Hout by lia. unfold znth. destruct (Z.ltb_spec j 0); [done|].
      unfold t1. by rewrite list_lookup_insert_ne by lia.
Qed.

Section Init.
Context (minimum_code_size : Z) (data : bytes) (pos : Z).
Hypothesis Hmin : 0 <= minimum_code_size < LZW_CODE_MAX.
Hypothesis Hdata : wf_bytes data.
Hypothesis Hpos : 0 <= pos.

(** The table before the first code. *)
Lemma initial_table_ok c :
  zlen (lz_table c) = LZW_TABLE_ENTRY_MAX ->
  (forall j, 0 <= j < clear_code minimum_code_size -> znth (lz_table c) j = Some (Some (initial_entry j))) ->
  table_ok minimum_code_size c [].
Proof.
  intros Hz Hent. pose proof (clear_code_range _ Hmin) as Hc.
  assert (forall code w, word minimum_code_size [] code = Some w ->
            0 <= code < clear_code minimum_code_size /\ w = [u8 code]) as Hbase.
  { intros code w. unfold word.
    destruct (Z.ltb_spec code 0); [done|]. destruct (Z.ltb_spec code (clear_code minimum_code_size)).
    - by intros [= <-].
    - destruct (_ <=? _); [done|]. unfold znth. by destruct (_ <? _). }
  constructor; [done| | |].
  - intros code w Hw. destruct (Hbase _ _ Hw) as [Hr ->]. exists (initial_entry code).
    unfold entry_at. rewrite Hent by done. split; [done|]. constructor; [done..|]. unfold zlen. cbn. lia.
  - intros code w Hw. destruct (Hbase _ _ Hw) as [Hr ->]. unfold zlen. cbn. split; [lia|].
    apply Forall_singleton, u8_range.
  - unfold next_code, eoi_code. rewrite zlen_nil. change LZW_TABLE_ENTRY_MAX with 4096. lia.
Qed.

(** Decoding starts with the first value to write, or the image has none. *)
Lemma lzw_decode_init_spec fuel c s r :
  zlen (lz_table c) = LZW_TABLE_ENTRY_MAX -> (data_fuel data <= fuel)%nat ->
  image_values minimum_code_size data pos = (s, r) ->
  exists res c', lzw_decode_init fuel minimum_code_size data pos c = Some (res, c') /\
    match res with
    | LZW_OK => (exists D p, decoding minimum_code_size c' D p s r) /\
                colours c' = (false, 0, None) /\ left_bits c' + 8 < Z.of_nat fuel
    | _ => s = [] /\ r = res
    end.
Proof.
  intros Hz Hf Hs. unfold lzw_decode_init. rewrite (proj2 (Z.leb_gt _ _)) by lia. cbv zeta.
  pose proof (clear_code_range _ Hmin) as Hcr. fold (clear_code minimum_code_size).
  match goal with |- context [init_table _ _ ?c9] => set (c0 := c9) end.
  destruct (init_table_spec (Z.to_nat (clear_code minimum_code_size)) 0 c0) as (t & -> & Ht & Hent & _);
    [lia|cbn; rewrite Hz; change LZW_TABLE_ENTRY_MAX with 4096; lia|].
  cbn -[lzw__handle_clear]. set (c1 := set_table t c0).
  assert (rd_ok (lz_input c1)) as Hok.
  { constructor; [done|done|done|cbn; lia|done|cbn; lia]. }
  assert (octets (lz_input c1) = (later data pos).1) as Ho.
  { assert (current (lz_input c1) = []) as E; [|unfold octets; by rewrite E].
    apply zlen_zero_inv. by rewrite current_length. }
  assert (based minimum_code_size c1) as Hb by (by constructor).
  assert (table_ok minimum_code_size c1 []) as Htab.
  { apply initial_table_ok; [exact (eq_trans Ht Hz)|]. intros j Hj. apply Hent. lia. }
  assert (rest minimum_code_size c1 [] None = (s, r)) as Hr.
  { unfold rest. rewrite Ho. unfold image_values in Hs.
    change (ending (lz_input c1)) with ((later data pos).2). change (bit (lz_input c1)) with 0.
    by destruct (later data pos). }
  assert (left_bits c1 + 8 < Z.of_nat fuel) as Hfuel.
  { unfold left_bits. rewrite Ho. change (bit (lz_input c1)) with 0.
    pose proof (sub_blocks_length (S (length data)) data pos Hdata Hpos) as Hl.
    fold (later data pos) in Hl. unfold data_fuel, zlen in *. lia. }
  destruct (handle_clear_spec _ Hmin fuel c1 [] Hb Htab Hfuel) as (res & code & c2 & -> & _ & Hm).
  cbn -[left_bits]. rewrite Hr in Hm.
  destruct res; try (eexists _, _; split; [reflexivity|]; by injection Hm as -> ->).
  destruct Hm as (Hb2 & Hw & Hcol & Hleft & Hs2).
  destruct (rest minimum_code_size c2 [] (Some [u8 code])) as [s2 r2] eqn:E2. injection Hs2 as -> ->.
  destruct (to_entry _ _ _ (bu_table _ _ _ Hb2) _ _ Hw) as (e & -> & He). cbn -[left_bits].
  eexists _, _. split; [reflexivity|]. split; [|split; [done|]].
  - exists [], [u8 code]. change (u8 code :: s2) with (zdrop (zlen [u8 code] - 1) [u8 code] ++ s2).
    apply decoding_intro with code; [| |done..|unfold zlen; cbn; lia|exact E2].
    + destruct Hb2 as [[? ? ? ?] Ht2 ? ? ?]. constructor; [by constructor| |done..].
      by apply table_ok_ext with c2.
    + constructor; [exact Hw|apply He|apply He].
  - change (left_bits c2 + 8 < Z.of_nat fuel). lia.
Qed.
End Init.

(** ** Decoding, buffer by buffer *)

(** There is always a reason for values to end. *)
Lemma later_ending data pos : (later data pos).2 <> LZW_OK.
Proof.
  unfold later. generalize (S (length data)) as n. intros n. revert pos.
  induction n as [|n IH]; intros pos; cbn [sub_blocks]; [done|].
  destruct (znth data pos); [|done]. destruct (_ <=? _); [done|]. destruct (_ =? 0); [done|].
  specialize (IH (pos + (z + 1))). by destruct (sub_blocks n _ _).
Qed.

Lemma ref_stream_ending mcs e n : e <> LZW_OK -> forall l bit D p, (ref_stream mcs e n l bit D p).2 <> LZW_OK.
Proof.
  intros He. induction n as [|n IH]; intros l bit D p; cbn [ref_stream]; [done|].
  destruct (_ <=? _); [done|]. cbv zeta. destruct p as [p|].
  - destruct (_ =? _); [done|]. destruct (_ <? _); [done|]. destruct (_ =? _); [apply IH|].
    match goal with |- context [ref_stream mcs e n ?a ?b ?c ?d] =>
      pose proof (IH a b c d); by destruct (ref_stream mcs e n a b c d) end.
  - destruct (_ =? _); [apply IH|]. destruct (_ <? _); [done|].
    match goal with |- context [ref_stream mcs e n ?a ?b ?c ?d] =>
      pose proof (IH a b c d); by destruct (ref_stream mcs e n a b c d) end.
Qed.

Lemma image_values_ending mcs data pos : (image_values mcs data pos).2 <> LZW_OK.
Proof.
  unfold image_values. pose proof (later_ending data pos). destruct (later data pos).
  by apply ref_stream_ending.
Qed.

(** A client calls lzw_decode for buffer after buffer until it has filled them
    or is refused; these are the values it gets. *)
Fixpoint lzw_decode_calls (fuel : nat) (outs : list (list Z)) (c : lzw_ctx)
  : option (lzw_result * bytes * lzw_ctx) :=
  match outs with
  | [] => Some (LZW_OK, [], c)
  | out :: outs =>
      '(res, written, out, c) ← lzw_decode fuel out c;
      match res with
      | LZW_OK =>
          '(res, values, c) ← lzw_decode_calls fuel outs c;
          Some (res, ztake written out ++ values, c)
      | _ => Some (res, ztake written out, c)
      end
  end.

Definition total (outs : list (list Z)) : Z := foldr (fun out n => zlen out + n) 0 outs.

Lemma total_nonneg outs : 0 <= total outs.
Proof. induction outs as [|out outs IH]; cbn [total foldr]; [lia|]. fold (total outs). pose proof (zlen_nonneg out). lia. Qed.

Lemma calls_spec mcs fuel outs : 0 <= mcs < LZW_CODE_MAX ->
  Forall (fun out => zlen out < 2 ^ 32) outs -> forall c D p s r,
  decoding mcs c D p s r -> left_bits c + 8 < Z.of_nat fuel -> r <> LZW_OK ->
  exists res values c', lzw_decode_calls fuel outs c = Some (res, values, c') /\
    if total outs <=? zlen s
    then res = LZW_OK /\ values = ztake (total outs) s /\
         exists D p, decoding mcs c' D p (zdrop (total outs) s) r
    else res = r /\ values = s.
Proof.
  intros Hmin Hl. induction Hl as [|out outs Hout _ IH]; intros c D p s r Hd Hf Hr;
    pose proof (zlen_nonneg s); cbn [total foldr lzw_decode_calls].
  - rewrite (proj2 (Z.leb_le _ _)), ztake_le0, zdrop_le0 by lia.
    eexists _, _, _. split; [reflexivity|]. split_and!; [done|done|by exists D, p].
  - fold (total outs). pose proof (total_nonneg outs). pose proof (zlen_nonneg out). unfold lzw_decode.
    destruct (decode_all_spec mcs Hmin (put := put_value) (shade := fun v _ => v) fuel c D p out s r)
      as (res & n & out' & c' & -> & Hn & Ho & Hc); [done|apply _|done|done|].
    rewrite Z.sub_0_r in *. set (m := Z.min _ _) in *. rewrite paint_values in Ho by (rewrite zlen_ztake; lia).
    assert (ztake n out' = ztake m s) as Ev.
    { rewrite Ho, Hn. rewrite ztake_app_le by (rewrite zlen_ztake; lia). rewrite ztake_ztake. f_equal. lia. }
    cbn. rewrite Ev. destruct (Z.leb_spec (zlen out) (zlen s)) as [Hle|Hlt].
    + destruct Hc as (-> & _ & Hleft & D' & p' & Hd').
      destruct (IH c' D' p' _ r Hd') as (res & vs & c2 & -> & Hm); [lia|done|]. cbn.
      rewrite zlen_zdrop in Hm. eexists _, _, _. split; [reflexivity|].
      destruct (Z.leb_spec (zlen out + total outs) (zlen s)).
      * rewrite (proj2 (Z.leb_le _ _)) in Hm by lia. destruct Hm as (-> & -> & D2 & p2 & Hd2).
        split; [done|]. split; [rewrite <- ztake_add by lia; f_equal; lia|].
        exists D2, p2. rewrite zdrop_zdrop in Hd2 by lia. replace (m + total outs) with (zlen out + total outs) in Hd2 by lia. done.
      * rewrite (proj2 (Z.leb_gt _ _)) in Hm by lia. destruct Hm as [-> ->]. by rewrite ztake_zdrop.
    + subst res. rewrite (proj2 (Z.leb_gt _ _)) by lia.
      destruct r; try done; (eexists _, _, _; split; [reflexivity|split; [done|]]); by rewrite ztake_ge by lia.
Qed.

Lemma decoding_set_colours mcs c D p s r has idx map :
  decoding mcs c D p s r -> decoding mcs (set_colours has idx map c) D p s r.
Proof.
  intros [[[? ? ? ?] Ht ? ? ?] [? ? ?] ? ? ?]. constructor; [|by constructor|done..].
  constructor; [by constructor| |done..]. by apply table_ok_ext with c.
Qed.

(** ** The properties *)

(** C21: decoding refines the decoder of LzwRef.v, which has no tables,
    sub-blocks or buffers: whatever the data and the sizes of the buffers, the
    client gets the values of the image until its buffers are full or the
    values end, and then why they end; nothing is read outside the data, no
    entry is used that was never written, every loop ends.  That decoder differs
    from LZW as GIF defines it in three ways, in which the library does: a code
    that ends exactly with the last octet is not read ([last_code_lost] below),
    an end of information code in the first place is an error, and with a
    minimum code size below two codes do not grow. *)
Theorem lzw_decode_stream (minimum_code_size : Z) (data : bytes) (pos : Z) (outs : list (list Z))
    (fuel : nat) (s : bytes) (r : lzw_result) :
  0 <= minimum_code_size < LZW_CODE_MAX -> wf_bytes data -> 0 <= pos ->
  Forall (fun out => zlen out < 2 ^ 32) outs -> (data_fuel data <= fuel)%nat ->
  image_values minimum_code_size data pos = (s, r) ->
  exists res c, lzw_decode_init fuel minimum_code_size data pos new_ctx = Some (res, c) /\
    match res with
    | LZW_OK => exists res values c', lzw_decode_calls fuel outs c = Some (res, values, c') /\
        (res, values) = if total outs <=? zlen s then (LZW_OK, ztake (total outs) s) else (r, s)
    | _ => s = [] /\ r = res
    end.
Proof.
  intros Hmin Hdata Hpos Houts Hf Hs.
  destruct (lzw_decode_init_spec _ data pos Hmin Hdata Hpos fuel new_ctx s r)
    as (res & c & -> & Hm); [exact (zlen_zrep LZW_TABLE_ENTRY_MAX None)|done|done|].
  exists res, c. split; [done|]. destruct res; try exact Hm.
  destruct Hm as ((D & p & Hd) & _ & Hfuel).
  pose proof (image_values_ending minimum_code_size data pos) as Hr. rewrite Hs in Hr.
  destruct (calls_spec _ fuel outs Hmin Houts c D p s r Hd Hfuel Hr) as (res & vs & c' & -> & Hc).
  exists res, vs, c'. split; [done|]. destruct (_ <=? _); [by destruct Hc as (-> & -> & _)|by destruct Hc as [-> ->]].
Qed.

(** C22: decoding to colours paints the values of the image: each value that is
    not the transparent index puts its colour, the others leave the pixel; the
    rest of the output is not touched. *)
Theorem lzw_decode_map_paints (minimum_code_size transparency_idx : Z) (map : list Z) (data : bytes)
    (pos : Z) (out : list Z) (fuel : nat) (s : bytes) (r : lzw_result) :
  0 <= minimum_code_size < LZW_CODE_MAX -> wf_bytes data -> 0 <= pos -> 256 <= zlen map ->
  zlen out < 2 ^ 32 -> (data_fuel data <= fuel)%nat ->
  image_values minimum_code_size data pos = (s, r) ->
  exists res c,
    lzw_decode_init_map fuel minimum_code_size transparency_idx (Some map) data pos new_ctx
    = Some (res, c) /\
    match res with
    | LZW_OK => exists res written out' c', lzw_decode_map fuel out c = Some (res, written, out', c') /\
        res = (if zlen out <=? zlen s then LZW_OK else r) /\
        written = Z.min (zlen s) (zlen out) /\
        out' = paint (shade_colour (transparency_idx <=? 0xFF) (u8 transparency_idx) map) 0
                 (ztake written s) out
    | _ => s = [] /\ r = res
    end.
Proof.
  intros Hmin Hdata Hpos Hmap Hout Hf Hs. unfold lzw_decode_init_map.
  destruct (lzw_decode_init_spec _ data pos Hmin Hdata Hpos fuel new_ctx s r)
    as (res & c & -> & Hm); [exact (zlen_zrep LZW_TABLE_ENTRY_MAX None)|done|done|]. cbn -[image_values].
  destruct res; try (eexists _, _; split; [reflexivity|exact Hm]).
  destruct Hm as ((D & p & Hd) & _ & Hfuel).
  eexists LZW_OK, _. split; [reflexivity|]. unfold lzw_decode_map. cbn -[decode_all].
  destruct (decode_all_spec _ Hmin (put := put_colour)
    (shade := shade_colour (transparency_idx <=? 0xFF) (u8 transparency_idx) map) fuel
    (set_colours (transparency_idx <=? 0xFF) (u8 transparency_idx) (Some map) c) D p out s r)
    as (res & n & out' & c' & -> & Hn & Ho & Hc);
    [by apply decoding_set_colours|by apply put_colour_shading|done|done|].
  rewrite Z.sub_0_r in *. eexists _, _, _, _. split; [reflexivity|].
  split; [by destruct (zlen out <=? zlen s); [destruct Hc|]|split; [lia|]].
  rewrite Ho. do 2 f_equal. lia.
Qed.

(** C23: reading a code is reading its bits, least significant first, from the
    contents of the sub-blocks put together; it is refused for the reason the
    sub-blocks end, when the octet after the code's last whole octet is not there. *)
Theorem lzw_read_code_bits (ctx : lzw_read_ctx) (code_size : Z) :
  rd_ok ctx -> 0 < code_size <= LZW_CODE_MAX ->
  exists res code ctx', lzw__read_code ctx code_size = Some (res, code, ctx') /\ rd_ok ctx' /\
    match res with
    | LZW_OK =>
        (bit ctx + code_size) / 8 < zlen (octets ctx) /\
        code = bits_at (octets ctx) (bit ctx) code_size /\
        octets ctx' = zdrop ((bit ctx + code_size) / 8) (octets ctx) /\
        bit ctx' = (bit ctx + code_size) mod 8 /\ ending ctx' = ending ctx
    | _ => zlen (octets ctx) <= (bit ctx + code_size) / 8 /\ res = ending ctx
    end.
Proof. apply read_code_spec. Qed.

(** C24: after decoding into any buffers the table has at most 4096 entries, a
    code has as many bits as the next table position needs and at most 12, and
    every entry in use has the length, first and last value of a word no longer
    than its code allows. *)
Theorem lzw_table_bounds (minimum_code_size : Z) (data : bytes) (pos : Z) (outs : list (list Z))
    (fuel : nat) (c c' : lzw_ctx) (values : bytes) :
  2 <= minimum_code_size < LZW_CODE_MAX -> wf_bytes data -> 0 <= pos ->
  Forall (fun out => zlen out < 2 ^ 32) outs -> (data_fuel data <= fuel)%nat ->
  lzw_decode_init fuel minimum_code_size data pos new_ctx = Some (LZW_OK, c) ->
  lzw_decode_calls fuel outs c = Some (LZW_OK, values, c') ->
  lz_table_size c' <= LZW_TABLE_ENTRY_MAX /\
  lz_code_size c' = Z.min LZW_CODE_MAX (Z.log2 (lz_table_size c') + 1) /\
  lz_code_max c' = 2 ^ lz_code_size c' - 1 /\
  forall code, 0 <= code < lz_table_size c' -> code <> lz_clear_code c' -> code <> lz_eoi_code c' ->
    exists e, entry_at c' code = Some e /\ is_byte (te_first e) /\ is_byte (te_value e) /\
              1 <= te_count e <= code + 1.
Proof.
  intros Hmin2 Hdata Hpos Houts Hf Hi Hcalls. assert (0 <= minimum_code_size < LZW_CODE_MAX) as Hmin by lia.
  destruct (image_values minimum_code_size data pos) as [s r] eqn:Hs.
  destruct (lzw_decode_init_spec _ data pos Hmin Hdata Hpos fuel new_ctx s r)
    as (res & c0 & E & Hm); [exact (zlen_zrep LZW_TABLE_ENTRY_MAX None)|done|done|].
  rewrite Hi in E. injection E as <- <-. destruct Hm as ((D & p & Hd) & _ & Hfuel).
  pose proof (image_values_ending minimum_code_size data pos) as Hr. rewrite Hs in Hr. cbn in Hr.
  destruct (calls_spec _ fuel outs Hmin Houts c D p s r Hd Hfuel Hr) as (res & vs & c2 & E & Hc).
  rewrite Hcalls in E. injection E as <- <- <-.
  destruct (_ <=? _); [|destruct Hc as [Hc _]; by destruct Hr].
  destruct Hc as (_ & _ & D' & p' & [[[_ _ Hclear Heoi] Ht Hsize Hbits Hmax] _ _ _ _]).
  rewrite Hsize, Hmax, Hbits, Hclear, Heoi. split; [apply Ht|]. split.
  { unfold code_bits. by rewrite (proj2 (Z.ltb_ge _ _)) by lia. }
  split; [done|]. intros code Hc H1 H2. destruct (word_is_Some _ D' code Hc H1 H2) as [w Hw].
  destruct (to_entry _ _ _ Ht _ _ Hw) as (e & He & [Hfirst Hvalue Hcount _]).
  destruct (to_words _ _ _ Ht _ _ Hw) as [Hlen Hwf]. exists e. rewrite Hcount.
  pose proof (Forall_ztake _ 1 _ Hwf) as F1. pose proof (Forall_zdrop _ (zlen w - 1) _ Hwf) as F2.
  rewrite Hfirst in F1. rewrite Hvalue in F2. apply Forall_cons_1 in F1 as [F1 _], F2 as [F2 _].
  by split_and!; try apply Hlen.
Qed.

(** ** An image *)

(** Ten by ten pixels with two bits of four colours each, in one sub-block. *)
Definition sample : bytes :=
  [0x16; 0x8C; 0x2D; 0x99; 0x87; 0x2A; 0x1C; 0xDC; 0x33; 0xA0; 0x02; 0x75; 0xEC; 0x95; 0xFA; 0xA8;
   0xDE; 0x60; 0x8C; 0x04; 0x91; 0x4C; 0x01; 0x00; 0x3B].

(** The same octets in three sub-blocks. *)
Definition sample_split : bytes :=
  [0x04; 0x8C; 0x2D; 0x99; 0x87; 0x01; 0x2A; 0x11; 0x1C; 0xDC; 0x33; 0xA0; 0x02; 0x75; 0xEC; 0x95; 0xFA;
   0xA8; 0xDE; 0x60; 0x8C; 0x04; 0x91; 0x4C; 0x01; 0x00; 0x3B].

Example sample_values :
  image_values 2 sample 0 = image_values 2 sample_split 0 /\
  zlen (image_values 2 sample 0).1 = 100 /\ (image_values 2 sample 0).2 = LZW_EOI_CODE /\
  ztake 20 (image_values 2 sample 0).1 = [1;1;1;1;1;2;2;2;2;2;1;1;1;1;1;2;2;2;2;2].
Proof. split_and!; vm_compute; reflexivity. Qed.

Lemma sample_wf : wf_bytes sample.
Proof. unfold sample. repeat (constructor; [unfold is_byte; lia|]). constructor. Qed.

Lemma lzw_decode_stream_witness :
  Forall (fun out => zlen out < 2 ^ 32) [zrep 30 0; []; zrep 100 7] /\
  exists res c, lzw_decode_init (data_fuel sample) 2 sample 0 new_ctx = Some (res, c) /\
    match res with
    | LZW_OK => exists res values c',
        lzw_decode_calls (data_fuel sample) [zrep 30 0; []; zrep 100 7] c = Some (res, values, c') /\
        (res, values) = if total [zrep 30 0; []; zrep 100 7] <=? zlen (image_values 2 sample 0).1
                        then (LZW_OK, ztake (total [zrep 30 0; []; zrep 100 7]) (image_values 2 sample 0).1)
                        else ((image_values 2 sample 0).2, (image_values 2 sample 0).1)
    | _ => (image_values 2 sample 0).1 = [] /\ (image_values 2 sample 0).2 = res
    end.
Proof.
  assert (Forall (fun out => zlen out < 2 ^ 32) [zrep 30 0; []; zrep 100 7]) as H
    by (repeat constructor).
  split; [exact H|].
  apply (lzw_decode_stream 2 sample 0 [zrep 30 0; []; zrep 100 7] (data_fuel sample));
    [by vm_compute|exact sample_wf|done|exact H|done|by destruct (image_values 2 sample 0)].
Defined.

Lemma lzw_decode_map_paints_witness :
  exists res c,
    lzw_decode_init_map (data_fuel sample) 2 1 (Some (zrep 256 0xFF)) sample 0 new_ctx
    = Some (res, c) /\
    match res with
    | LZW_OK => exists res written out' c',
        lzw_decode_map (data_fuel sample) (zrep 100 0) c = Some (res, written, out', c') /\
        res = (if zlen (zrep 100 0) <=? zlen (image_values 2 sample 0).1 then LZW_OK
               else (image_values 2 sample 0).2) /\
        written = Z.min (zlen (image_values 2 sample 0).1) (zlen (zrep 100 0)) /\
        out' = paint (shade_colour true 1 (zrep 256 0xFF)) 0 (ztake written (image_values 2 sample 0).1)
                 (zrep 100 0)
    | _ => (image_values 2 sample 0).1 = [] /\ (image_values 2 sample 0).2 = res
    end.
Proof.
  apply (lzw_decode_map_paints 2 1 (zrep 256 0xFF) sample 0 (zrep 100 0) (data_fuel sample));
    [by vm_compute|exact sample_wf|done|by vm_compute|by vm_compute|done|by destruct (image_values 2 sample 0)].
Defined.

Definition sample_ctx : lzw_read_ctx :=
  {| rd_data := sample; rd_data_len := 25; rd_data_sb_next := 23; rd_sb_data := 1; rd_sb_bit := 170;
     rd_sb_bit_count := 176 |}.

Lemma lzw_read_code_bits_witness :
  rd_ok sample_ctx /\
  exists res code ctx', lzw__read_code sample_ctx 4 = Some (res, code, ctx') /\ rd_ok ctx' /\
    match res with
    | LZW_OK =>
        (bit sample_ctx + 4) / 8 < zlen (octets sample_ctx) /\
        code = bits_at (octets sample_ctx) (bit sample_ctx) 4 /\
        octets ctx' = zdrop ((bit sample_ctx + 4) / 8) (octets sample_ctx) /\
        bit ctx' = (bit sample_ctx + 4) mod 8 /\ ending ctx' = ending sample_ctx
    | _ => zlen (octets sample_ctx) <= (bit sample_ctx + 4) / 8 /\ res = ending sample_ctx
    end.
Proof.
  assert (rd_ok sample_ctx) as H.
  { constructor; [exact sample_wf|done|done|done|done|by vm_compute]. }
  split; [exact H|]. apply (lzw_read_code_bits sample_ctx 4 H). by vm_compute.
Defined.

(** The sample decoded into one buffer of sixty values. *)
Definition sample_run : option (lzw_ctx * lzw_ctx * bytes) :=
  match lzw_decode_init (data_fuel sample) 2 sample 0 new_ctx with
  | Some (LZW_OK, c) =>
      match lzw_decode_calls (data_fuel sample) [zrep 60 0] c with
      | Some (LZW_OK, values, c') => Some (c, c', values)
      | _ => None
      end
  | _ => None
  end.

Lemma sample_runs : match sample_run with Some _ => true | None => false end = true.
Proof. vm_compute. reflexivity. Qed.

Lemma lzw_table_bounds_witness :
  exists c c' values, sample_run = Some (c, c', values) /\
    lz_table_size c' <= LZW_TABLE_ENTRY_MAX /\
    lz_code_size c' = Z.min LZW_CODE_MAX (Z.log2 (lz_table_size c') + 1) /\
    lz_code_max c' = 2 ^ lz_code_size c' - 1 /\
    forall code, 0 <= code < lz_table_size c' -> code <> lz_clear_code c' -> code <> lz_eoi_code c' ->
      exists e, entry_at c' code = Some e /\ is_byte (te_first e) /\ is_byte (te_value e) /\
                1 <= te_count e <= code + 1.
Proof.
  assert (Forall (fun out => zlen out < 2 ^ 32) [zrep 60 0]) as H by (repeat constructor).
  pose proof sample_runs as Hrun. unfold sample_run in *.
  destruct (lzw_decode_init (data_fuel sample) 2 sample 0 new_ctx) as [[[] c]|] eqn:E;
    try discriminate.
  destruct (lzw_decode_calls (data_fuel sample) [zrep 60 0] c) as [[[[] values] c']|] eqn:E';
    try discriminate.
  exists c, c', values. split; [reflexivity|].
  apply (lzw_table_bounds 2 sample 0 [zrep 60 0] (data_fuel sample) c c' values);
    [by vm_compute|exact sample_wf|done|exact H|done|exact E|exact E'].
Defined.

(** *** The octet too many *)

(** Two octets hold four codes of four bits: clear, 1, 2, and the end of the
    information.  The last is not found, although its bits are there: the
    reader asks for the octet after it. *)
Example last_code_lost :
  image_values 3 [2; 0x18; 0x92; 0] 0 = ([1; 2], LZW_OK_EOD).
Proof. vm_compute. reflexivity. Qed.
