(* ===== verification/ElementType.v ===== *)
(** * ElementType: the elements the tree builder tells apart
    (libhubbub/src/treebuilder/element-type.h, .c and .gperf, and the
    predicates on types of treebuilder.c).

    The constructors live in a module of their own: many are single letters. *)
From Stdlib Require Ascii String.
From S2P Require Import Prelude.
From S2P Require Import Detect.

Import String.StringSyntax.
Local Open Scope string_scope.

Module ET.
Inductive element_type :=
  | ADDRESS | AREA | ARTICLE | ASIDE | BASE | BASEFONT | BGSOUND | BLOCKQUOTE | BODY | BR
  | CENTER | COL | COLGROUP | COMMAND | DATAGRID | DD | DETAILS | DIALOG | DIR | DIV | DL
  | DT | EMBED | FIELDSET | FIGCAPTION | FIGURE | FOOTER | FORM | FRAME | FRAMESET | H1
  | H2 | H3 | H4 | H5 | H6 | HEAD | HEADER | HR | IFRAME | IMAGE | IMG | INPUT | ISINDEX
  | LI | LINK | LISTING | MAIN | MENU | META | NAV | NOEMBED | NOFRAMES | NOSCRIPT | OL
  | OPTGROUP | OPTION | P | PARAM | PLAINTEXT | PRE | SCRIPT | SECTION | SELECT | SPACER
  | STYLE | SUMMARY | TBODY | TEXTAREA | TFOOT | THEAD | TITLE | TR | UL | WBR | APPLET
  | BUTTON | CAPTION | HTML | MARQUEE | OBJECT | TABLE | TD | TH | A | B | BIG | CODE | EM
  | FONT | I | NOBR | S | SMALL | STRIKE | STRONG | TT | U | LABEL | OUTPUT | RP | RT
  | RUBY | SPAN | SUB | SUP | VAR | XMP | MATH | MGLYPH | MALIGNMARK | MI | MO | MN | MS
  | MTEXT | ANNOTATION_XML | SVG | FOREIGNOBJECT | DESC | UNKNOWN.

(** The enumeration, in its order. *)
Definition all_types : list element_type :=
  [ADDRESS; AREA; ARTICLE; ASIDE; BASE; BASEFONT; BGSOUND; BLOCKQUOTE; BODY; BR; CENTER;
   COL; COLGROUP; COMMAND; DATAGRID; DD; DETAILS; DIALOG; DIR; DIV; DL; DT; EMBED;
   FIELDSET; FIGCAPTION; FIGURE; FOOTER; FORM; FRAME; FRAMESET; H1; H2; H3; H4; H5; H6;
   HEAD; HEADER; HR; IFRAME; IMAGE; IMG; INPUT; ISINDEX; LI; LINK; LISTING; MAIN; MENU;
   META; NAV; NOEMBED; NOFRAMES; NOSCRIPT; OL; OPTGROUP; OPTION; P; PARAM; PLAINTEXT; PRE;
   SCRIPT; SECTION; SELECT; SPACER; STYLE; SUMMARY; TBODY; TEXTAREA; TFOOT; THEAD; TITLE;
   TR; UL; WBR; APPLET; BUTTON; CAPTION; HTML; MARQUEE; OBJECT; TABLE; TD; TH; A; B; BIG;
   CODE; EM; FONT; I; NOBR; S; SMALL; STRIKE; STRONG; TT; U; LABEL; OUTPUT; RP; RT; RUBY;
   SPAN; SUB; SUP; VAR; XMP; MATH; MGLYPH; MALIGNMARK; MI; MO; MN; MS; MTEXT;
   ANNOTATION_XML; SVG; FOREIGNOBJECT; DESC; UNKNOWN].

(** The value of an enumerator. *)
Definition value (t : element_type) : Z :=
  match t with
  | ADDRESS => 0 | AREA => 1 | ARTICLE => 2 | ASIDE => 3 | BASE => 4 | BASEFONT => 5
  | BGSOUND => 6 | BLOCKQUOTE => 7 | BODY => 8 | BR => 9 | CENTER => 10 | COL => 11
  | COLGROUP => 12 | COMMAND => 13 | DATAGRID => 14 | DD => 15 | DETAILS => 16
  | DIALOG => 17 | DIR => 18 | DIV => 19 | DL => 20 | DT => 21 | EMBED => 22
  | FIELDSET => 23 | FIGCAPTION => 24 | FIGURE => 25 | FOOTER => 26 | FORM => 27
  | FRAME => 28 | FRAMESET => 29 | H1 => 30 | H2 => 31 | H3 => 32 | H4 => 33 | H5 => 34
  | H6 => 35 | HEAD => 36 | HEADER => 37 | HR => 38 | IFRAME => 39 | IMAGE => 40
  | IMG => 41 | INPUT => 42 | ISINDEX => 43 | LI => 44 | LINK => 45 | LISTING => 46
  | MAIN => 47 | MENU => 48 | META => 49 | NAV => 50 | NOEMBED => 51 | NOFRAMES => 52
  | NOSCRIPT => 53 | OL => 54 | OPTGROUP => 55 | OPTION => 56 | P => 57 | PARAM => 58
  | PLAINTEXT => 59 | PRE => 60 | SCRIPT => 61 | SECTION => 62 | SELECT => 63
  | SPACER => 64 | STYLE => 65 | SUMMARY => 66 | TBODY => 67 | TEXTAREA => 68 | TFOOT => 69
  | THEAD => 70 | TITLE => 71 | TR => 72 | UL => 73 | WBR => 74 | APPLET => 75
  | BUTTON => 76 | CAPTION => 77 | HTML => 78 | MARQUEE => 79 | OBJECT => 80 | TABLE => 81
  | TD => 82 | TH => 83 | A => 84 | B => 85 | BIG => 86 | CODE => 87 | EM => 88
  | FONT => 89 | I => 90 | NOBR => 91 | S => 92 | SMALL => 93 | STRIKE => 94 | STRONG => 95
  | TT => 96 | U => 97 | LABEL => 98 | OUTPUT => 99 | RP => 100 | RT => 101 | RUBY => 102
  | SPAN => 103 | SUB => 104 | SUP => 105 | VAR => 106 | XMP => 107 | MATH => 108
  | MGLYPH => 109 | MALIGNMARK => 110 | MI => 111 | MO => 112 | MN => 113 | MS => 114
  | MTEXT => 115 | ANNOTATION_XML => 116 | SVG => 117 | FOREIGNOBJECT => 118 | DESC => 119
  | UNKNOWN => 120
  end.

Lemma all_types_value t : znth all_types (value t) = Some t.
Proof. by destruct t. Qed.

Lemma value_inj a b : value a = value b -> a = b.
Proof. intros E. pose proof (all_types_value a) as Ha. rewrite E, all_types_value in Ha. congruence. Qed.

#[export] Instance element_type_eq_dec : EqDecision element_type.
Proof.
  intros a b. destruct (decide (value a = value b)) as [E|N]; [left; by apply value_inj|right; congruence].
Defined.
End ET.
Abbreviation element_type := ET.element_type.

Definition type_eqb (a b : element_type) : bool := ET.value a =? ET.value b.

Lemma type_eqb_spec a b : reflect (a = b) (type_eqb a b).
Proof.
  unfold type_eqb. destruct (Z.eqb_spec (ET.value a) (ET.value b)) as [E|N]; constructor;
    [by apply ET.value_inj|congruence].
Qed.

(** [type == A || type == B || ...] *)
Definition one_of (type : element_type) (l : list element_type) : bool := existsb (type_eqb type) l.

Lemma one_of_In type l : one_of type l = true <-> In type l.
Proof.
  unfold one_of. rewrite existsb_exists. split.
  - intros (x & Hx & E). by destruct (type_eqb_spec type x) as [->|].
  - intros H. exists type. split; [done|]. by destruct (type_eqb_spec type type).
Qed.

(** ** Kinds of elements *)

Definition is_special_element (type : element_type) : bool := ET.value type <=? ET.value ET.WBR.
Definition is_scoping_element (type : element_type) : bool :=
  (ET.value ET.APPLET <=? ET.value type) && (ET.value type <=? ET.value ET.TH).
Definition is_formatting_element (type : element_type) : bool :=
  (ET.value ET.A <=? ET.value type) && (ET.value type <=? ET.value ET.U).
Definition is_phrasing_element (type : element_type) : bool := ET.value ET.U <? ET.value type.
Definition is_form_associated (type : element_type) : bool :=
  one_of type [ET.FIELDSET; ET.LABEL; ET.INPUT; ET.BUTTON; ET.SELECT; ET.TEXTAREA; ET.OUTPUT].

(** ** Names *)

(** The table of element-type.gperf. *)
Definition wordlist : list (bytes * element_type) :=
  [(chars "a", ET.A); (chars "address", ET.ADDRESS);
   (chars "annotation-xml", ET.ANNOTATION_XML); (chars "applet", ET.APPLET);
   (chars "area", ET.AREA); (chars "article", ET.ARTICLE); (chars "aside", ET.ASIDE);
   (chars "b", ET.B); (chars "base", ET.BASE); (chars "basefont", ET.BASEFONT);
   (chars "bgsound", ET.BGSOUND); (chars "big", ET.BIG);
   (chars "blockquote", ET.BLOCKQUOTE); (chars "body", ET.BODY); (chars "br", ET.BR);
   (chars "button", ET.BUTTON); (chars "caption", ET.CAPTION); (chars "center", ET.CENTER);
   (chars "col", ET.COL); (chars "colgroup", ET.COLGROUP); (chars "command", ET.COMMAND);
   (chars "dd", ET.DD); (chars "desc", ET.DESC); (chars "details", ET.DETAILS);
   (chars "dialog", ET.DIALOG); (chars "dir", ET.DIR); (chars "div", ET.DIV);
   (chars "dl", ET.DL); (chars "dt", ET.DT); (chars "em", ET.EM);
   (chars "embed", ET.EMBED); (chars "fieldset", ET.FIELDSET);
   (chars "figcaption", ET.FIGCAPTION); (chars "figure", ET.FIGURE);
   (chars "font", ET.FONT); (chars "footer", ET.FOOTER);
   (chars "foreignobject", ET.FOREIGNOBJECT); (chars "form", ET.FORM);
   (chars "frame", ET.FRAME); (chars "frameset", ET.FRAMESET); (chars "h1", ET.H1);
   (chars "h2", ET.H2); (chars "h3", ET.H3); (chars "h4", ET.H4); (chars "h5", ET.H5);
   (chars "h6", ET.H6); (chars "head", ET.HEAD); (chars "hr", ET.HR);
   (chars "html", ET.HTML); (chars "i", ET.I); (chars "iframe", ET.IFRAME);
   (chars "image", ET.IMAGE); (chars "img", ET.IMG); (chars "input", ET.INPUT);
   (chars "isindex", ET.ISINDEX); (chars "li", ET.LI); (chars "link", ET.LINK);
   (chars "listing", ET.LISTING); (chars "malignmark", ET.MALIGNMARK);
   (chars "marquee", ET.MARQUEE); (chars "math", ET.MATH); (chars "menu", ET.MENU);
   (chars "meta", ET.META); (chars "mglyph", ET.MGLYPH); (chars "mi", ET.MI);
   (chars "mn", ET.MN); (chars "mo", ET.MO); (chars "ms", ET.MS);
   (chars "mtext", ET.MTEXT); (chars "nobr", ET.NOBR); (chars "noembed", ET.NOEMBED);
   (chars "noframes", ET.NOFRAMES); (chars "noscript", ET.NOSCRIPT);
   (chars "object", ET.OBJECT); (chars "ol", ET.OL); (chars "optgroup", ET.OPTGROUP);
   (chars "option", ET.OPTION); (chars "output", ET.OUTPUT); (chars "p", ET.P);
   (chars "param", ET.PARAM); (chars "plaintext", ET.PLAINTEXT); (chars "pre", ET.PRE);
   (chars "s", ET.S); (chars "script", ET.SCRIPT); (chars "select", ET.SELECT);
   (chars "small", ET.SMALL); (chars "spacer", ET.SPACER); (chars "strike", ET.STRIKE);
   (chars "strong", ET.STRONG); (chars "style", ET.STYLE); (chars "summary", ET.SUMMARY);
   (chars "svg", ET.SVG); (chars "table", ET.TABLE); (chars "tbody", ET.TBODY);
   (chars "td", ET.TD); (chars "textarea", ET.TEXTAREA); (chars "tfoot", ET.TFOOT);
   (chars "th", ET.TH); (chars "thead", ET.THEAD); (chars "title", ET.TITLE);
   (chars "tr", ET.TR); (chars "tt", ET.TT); (chars "u", ET.U); (chars "ul", ET.UL);
   (chars "wbr", ET.WBR); (chars "xmp", ET.XMP)].

(** ASCII case does not matter to the lookup that gperf makes of the table. *)
Definition same_word (a b : bytes) : bool := bytes_eqb (map lower a) (map lower b).

Definition element_type_from_name (tag_name : bytes) : element_type :=
  match find (fun '(word, _) => same_word tag_name word) wordlist with
  | Some (_, type) => type
  | None => ET.UNKNOWN
  end.
