(* ===== verification/TreeState.v ===== *)
(** * TreeState: the state of the HTML tree builder
    (libhubbub/src/treebuilder/internal.h and modes.h), and how its functions
    use the memory, the client's tree handler and the tokeniser.

    A function of the tree builder is a computation as in TokeniserMonad.v.
    Nodes are pointers that are only compared and handed back to the client's
    tree handler, an interface over the client's world [W].  The entries of the
    list of active formatting elements are in a heap; the stack is a list of
    cells, as many as are allocated, whose fields are [None] until written.
    The token at hand is part of the state: some handlers shorten it. *)
From S2P Require Import Prelude.
From S2P Require Import Errors.
From S2P Require Import Tokens.
From S2P Require Import TokeniserState.
From S2P Require Import TokeniserMonad.
From S2P Require Import ElementType.
From stdpp Require Import gmap.
Local Open Scope Z_scope.

Inductive insertion_mode :=
  | INITIAL | BEFORE_HTML | BEFORE_HEAD | IN_HEAD | IN_HEAD_NOSCRIPT | AFTER_HEAD | IN_BODY
  | IN_TABLE | IN_CAPTION | IN_COLUMN_GROUP | IN_TABLE_BODY | IN_ROW | IN_CELL | IN_SELECT
  | IN_SELECT_IN_TABLE | IN_FOREIGN_CONTENT | AFTER_BODY | IN_FRAMESET | AFTER_FRAMESET
  | AFTER_AFTER_BODY | AFTER_AFTER_FRAMESET | GENERIC_RCDATA.

#[export] Instance insertion_mode_eq_dec : EqDecision insertion_mode.
Proof. solve_decision. Defined.

Inductive hubbub_quirks_mode :=
  | HUBBUB_QUIRKS_MODE_NONE | HUBBUB_QUIRKS_MODE_LIMITED | HUBBUB_QUIRKS_MODE_FULL.

Definition NULL : Z := 0.
Definition ELEMENT_STACK_CHUNK : Z := 128.
Definition SIZEOF_ELEMENT_CONTEXT : Z := 32.
Definition SIZEOF_FORMATTING_ENTRY : Z := 56.

(** What the client does for the tree builder.  A function that yields a node
    yields what is in [*result] afterwards, NULL if it was left alone. *)
Class TreeHandler (W : Type) := {
  th_create_comment : bytes -> W -> hubbub_error * Z * W;
  th_create_doctype : hubbub_doctype -> W -> hubbub_error * Z * W;
  th_create_element : hubbub_tag -> W -> hubbub_error * Z * W;
  th_create_text : bytes -> W -> hubbub_error * Z * W;
  th_ref_node : Z -> W -> W;
  th_unref_node : Z -> W -> W;
  th_append_child : Z -> Z -> W -> hubbub_error * Z * W;
  th_insert_before : Z -> Z -> Z -> W -> hubbub_error * Z * W;
  th_remove_child : Z -> Z -> W -> hubbub_error * Z * W;
  th_clone_node : Z -> bool -> W -> hubbub_error * Z * W;
  th_reparent_children : Z -> Z -> W -> hubbub_error * W;
  th_get_parent : Z -> bool -> W -> hubbub_error * Z * W;
  th_form_associate : Z -> Z -> W -> hubbub_error * W;
  th_add_attributes : Z -> list hubbub_attribute -> W -> hubbub_error * W;
  th_set_quirks_mode : hubbub_quirks_mode -> W -> W;
  th_encoding_change : option (option bytes -> W -> hubbub_error * W);
  th_complete_script : Z -> W -> hubbub_error * W
}.

(** A cell of the element stack; [name] is NULL throughout. *)
Record element_context := {
  ec_ns : option hubbub_ns;
  ec_type : option element_type;
  ec_tainted : option bool;
  ec_node : option Z
}.

Definition blank_element : element_context :=
  {| ec_ns := None; ec_type := None; ec_tainted := None; ec_node := None |}.

(** An entry of the formatting list: the details it has, and its links. *)
Record formatting_list_entry := {
  fe_ns : hubbub_ns;
  fe_type : element_type;
  fe_node : Z;
  fe_stack_index : Z;
  fe_prev : Z;
  fe_next : Z
}.

(** [stack_alloc] is the length of [tc_element_stack]. *)
Record treebuilder_context := {
  tc_mode : insertion_mode;
  tc_second_mode : insertion_mode;
  tc_element_stack : list element_context;
  tc_current_node : Z;
  tc_formatting_list : Z;
  tc_formatting_list_end : Z;
  tc_head_element : Z;
  tc_form_element : Z;
  tc_document : Z;
  tc_enable_scripting : bool;
  tc_collect_mode : insertion_mode;
  tc_collect_type : element_type;
  tc_strip_leading_lr : bool;
  tc_in_table_foster : bool;
  tc_frameset_ok : bool
}.

(** The tree builder with the heap of its entries, the number of calls of malloc and
    realloc so far, the world of the client and the calls of the tokeniser it has made. *)
Record hubbub_treebuilder {W : Type} := {
  tb_context : treebuilder_context;
  tb_tree_handler : Z;
  tb_error_handler : Z;
  tb_error_pw : Z;
  tb_entries : gmap Z formatting_list_entry;
  tb_calls : nat;
  tb_world : W;
  tb_commands : list tokeniser_command;
  tb_token : hubbub_token
}.
Arguments hubbub_treebuilder : clear implicits.

(** ** Field assignment *)

Definition set_ec_ns (v : option hubbub_ns) (r : element_context) : element_context := {| ec_ns
  := v; ec_type := ec_type r; ec_tainted := ec_tainted r; ec_node := ec_node r |}.
Definition set_ec_type (v : option element_type) (r : element_context) : element_context := {|
  ec_ns := ec_ns r; ec_type := v; ec_tainted := ec_tainted r; ec_node := ec_node r |}.
Definition set_ec_tainted (v : option bool) (r : element_context) : element_context := {| ec_ns
  := ec_ns r; ec_type := ec_type r; ec_tainted := v; ec_node := ec_node r |}.
Definition set_ec_node (v : option Z) (r : element_context) : element_context := {| ec_ns :=
  ec_ns r; ec_type := ec_type r; ec_tainted := ec_tainted r; ec_node := v |}.

Definition set_fe_ns (v : hubbub_ns) (r : formatting_list_entry) : formatting_list_entry := {|
  fe_ns := v; fe_type := fe_type r; fe_node := fe_node r; fe_stack_index := fe_stack_index r;
  fe_prev := fe_prev r; fe_next := fe_next r |}.
Definition set_fe_type (v : element_type) (r : formatting_list_entry) : formatting_list_entry :=
  {| fe_ns := fe_ns r; fe_type := v; fe_node := fe_node r; fe_stack_index := fe_stack_index r;
  fe_prev := fe_prev r; fe_next := fe_next r |}.
Definition set_fe_node (v : Z) (r : formatting_list_entry) : formatting_list_entry := {| fe_ns
  := fe_ns r; fe_type := fe_type r; fe_node := v; fe_stack_index := fe_stack_index r; fe_prev :=
  fe_prev r; fe_next := fe_next r |}.
Definition set_fe_stack_index (v : Z) (r : formatting_list_entry) : formatting_list_entry := {|
  fe_ns := fe_ns r; fe_type := fe_type r; fe_node := fe_node r; fe_stack_index := v; fe_prev :=
  fe_prev r; fe_next := fe_next r |}.
Definition set_fe_prev (v : Z) (r : formatting_list_entry) : formatting_list_entry := {| fe_ns
  := fe_ns r; fe_type := fe_type r; fe_node := fe_node r; fe_stack_index := fe_stack_index r;
  fe_prev := v; fe_next := fe_next r |}.
Definition set_fe_next (v : Z) (r : formatting_list_entry) : formatting_list_entry := {| fe_ns
  := fe_ns r; fe_type := fe_type r; fe_node := fe_node r; fe_stack_index := fe_stack_index r;
  fe_prev := fe_prev r; fe_next := v |}.

Definition set_tc_mode (v : insertion_mode) (r : treebuilder_context) : treebuilder_context :=
  {| tc_mode := v; tc_second_mode := tc_second_mode r; tc_element_stack := tc_element_stack r;
  tc_current_node := tc_current_node r; tc_formatting_list := tc_formatting_list r;
  tc_formatting_list_end := tc_formatting_list_end r; tc_head_element := tc_head_element r;
  tc_form_element := tc_form_element r; tc_document := tc_document r; tc_enable_scripting :=
  tc_enable_scripting r; tc_collect_mode := tc_collect_mode r; tc_collect_type :=
  tc_collect_type r; tc_strip_leading_lr := tc_strip_leading_lr r; tc_in_table_foster :=
  tc_in_table_foster r; tc_frameset_ok := tc_frameset_ok r |}.
Definition set_tc_second_mode (v : insertion_mode) (r : treebuilder_context) :
  treebuilder_context := {| tc_mode := tc_mode r; tc_second_mode := v; tc_element_stack :=
  tc_element_stack r; tc_current_node := tc_current_node r; tc_formatting_list :=
  tc_formatting_list r; tc_formatting_list_end := tc_formatting_list_end r; tc_head_element :=
  tc_head_element r; tc_form_element := tc_form_element r; tc_document := tc_document r;
  tc_enable_scripting := tc_enable_scripting r; tc_collect_mode := tc_collect_mode r;
  tc_collect_type := tc_collect_type r; tc_strip_leading_lr := tc_strip_leading_lr r;
  tc_in_table_foster := tc_in_table_foster r; tc_frameset_ok := tc_frameset_ok r |}.
Definition set_tc_element_stack (v : list element_context) (r : treebuilder_context) :
  treebuilder_context := {| tc_mode := tc_mode r; tc_second_mode := tc_second_mode r;
  tc_element_stack := v; tc_current_node := tc_current_node r; tc_formatting_list :=
  tc_formatting_list r; tc_formatting_list_end := tc_formatting_list_end r; tc_head_element :=
  tc_head_element r; tc_form_element := tc_form_element r; tc_document := tc_document r;
  tc_enable_scripting := tc_enable_scripting r; tc_collect_mode := tc_collect_mode r;
  tc_collect_type := tc_collect_type r; tc_strip_leading_lr := tc_strip_leading_lr r;
  tc_in_table_foster := tc_in_table_foster r; tc_frameset_ok := tc_frameset_ok r |}.
Definition set_tc_current_node (v : Z) (r : treebuilder_context) : treebuilder_context := {|
  tc_mode := tc_mode r; tc_second_mode := tc_second_mode r; tc_element_stack := tc_element_stack
  r; tc_current_node := v; tc_formatting_list := tc_formatting_list r; tc_formatting_list_end :=
  tc_formatting_list_end r; tc_head_element := tc_head_element r; tc_form_element :=
  tc_form_element r; tc_document := tc_document r; tc_enable_scripting := tc_enable_scripting r;
  tc_collect_mode := tc_collect_mode r; tc_collect_type := tc_collect_type r;
  tc_strip_leading_lr := tc_strip_leading_lr r; tc_in_table_foster := tc_in_table_foster r;
  tc_frameset_ok := tc_frameset_ok r |}.
Definition set_tc_formatting_list (v : Z) (r : treebuilder_context) : treebuilder_context := {|
  tc_mode := tc_mode r; tc_second_mode := tc_second_mode r; tc_element_stack := tc_element_stack
  r; tc_current_node := tc_current_node r; tc_formatting_list := v; tc_formatting_list_end :=
  tc_formatting_list_end r; tc_head_element := tc_head_element r; tc_form_element :=
  tc_form_element r; tc_document := tc_document r; tc_enable_scripting := tc_enable_scripting r;
  tc_collect_mode := tc_collect_mode r; tc_collect_type := tc_collect_type r;
  tc_strip_leading_lr := tc_strip_leading_lr r; tc_in_table_foster := tc_in_table_foster r;
  tc_frameset_ok := tc_frameset_ok r |}.
Definition set_tc_formatting_list_end (v : Z) (r : treebuilder_context) : treebuilder_context :=
  {| tc_mode := tc_mode r; tc_second_mode := tc_second_mode r; tc_element_stack :=
  tc_element_stack r; tc_current_node := tc_current_node r; tc_formatting_list :=
  tc_formatting_list r; tc_formatting_list_end := v; tc_head_element := tc_head_element r;
  tc_form_element := tc_form_element r; tc_document := tc_document r; tc_enable_scripting :=
  tc_enable_scripting r; tc_collect_mode := tc_collect_mode r; tc_collect_type :=
  tc_collect_type r; tc_strip_leading_lr := tc_strip_leading_lr r; tc_in_table_foster :=
  tc_in_table_foster r; tc_frameset_ok := tc_frameset_ok r |}.
Definition set_tc_head_element (v : Z) (r : treebuilder_context) : treebuilder_context := {|
  tc_mode := tc_mode r; tc_second_mode := tc_second_mode r; tc_element_stack := tc_element_stack
  r; tc_current_node := tc_current_node r; tc_formatting_list := tc_formatting_list r;
  tc_formatting_list_end := tc_formatting_list_end r; tc_head_element := v; tc_form_element :=
  tc_form_element r; tc_document := tc_document r; tc_enable_scripting := tc_enable_scripting r;
  tc_collect_mode := tc_collect_mode r; tc_collect_type := tc_collect_type r;
  tc_strip_leading_lr := tc_strip_leading_lr r; tc_in_table_foster := tc_in_table_foster r;
  tc_frameset_ok := tc_frameset_ok r |}.
Definition set_tc_form_element (v : Z) (r : treebuilder_context) : treebuilder_context := {|
  tc_mode := tc_mode r; tc_second_mode := tc_second_mode r; tc_element_stack := tc_element_stack
  r; tc_current_node := tc_current_node r; tc_formatting_list := tc_formatting_list r;
  tc_formatting_list_end := tc_formatting_list_end r; tc_head_element := tc_head_element r;
  tc_form_element := v; tc_document := tc_document r; tc_enable_scripting := tc_enable_scripting
  r; tc_collect_mode := tc_collect_mode r; tc_collect_type := tc_collect_type r;
  tc_strip_leading_lr := tc_strip_leading_lr r; tc_in_table_foster := tc_in_table_foster r;
  tc_frameset_ok := tc_frameset_ok r |}.
Definition set_tc_document (v : Z) (r : treebuilder_context) : treebuilder_context := {| tc_mode
  := tc_mode r; tc_second_mode := tc_second_mode r; tc_element_stack := tc_element_stack r;
  tc_current_node := tc_current_node r; tc_formatting_list := tc_formatting_list r;
  tc_formatting_list_end := tc_formatting_list_end r; tc_head_element := tc_head_element r;
  tc_form_element := tc_form_element r; tc_document := v; tc_enable_scripting :=
  tc_enable_scripting r; tc_collect_mode := tc_collect_mode r; tc_collect_type :=
  tc_collect_type r; tc_strip_leading_lr := tc_strip_leading_lr r; tc_in_table_foster :=
  tc_in_table_foster r; tc_frameset_ok := tc_frameset_ok r |}.
Definition set_tc_enable_scripting (v : bool) (r : treebuilder_context) : treebuilder_context :=
  {| tc_mode := tc_mode r; tc_second_mode := tc_second_mode r; tc_element_stack :=
  tc_element_stack r; tc_current_node := tc_current_node r; tc_formatting_list :=
  tc_formatting_list r; tc_formatting_list_end := tc_formatting_list_end r; tc_head_element :=
  tc_head_element r; tc_form_element := tc_form_element r; tc_document := tc_document r;
  tc_enable_scripting := v; tc_collect_mode := tc_collect_mode r; tc_collect_type :=
  tc_collect_type r; tc_strip_leading_lr := tc_strip_leading_lr r; tc_in_table_foster :=
  tc_in_table_foster r; tc_frameset_ok := tc_frameset_ok r |}.
Definition set_tc_collect_mode (v : insertion_mode) (r : treebuilder_context) :
  treebuilder_context := {| tc_mode := tc_mode r; tc_second_mode := tc_second_mode r;
  tc_element_stack := tc_element_stack r; tc_current_node := tc_current_node r;
  tc_formatting_list := tc_formatting_list r; tc_formatting_list_end := tc_formatting_list_end
  r; tc_head_element := tc_head_element r; tc_form_element := tc_form_element r; tc_document :=
  tc_document r; tc_enable_scripting := tc_enable_scripting r; tc_collect_mode := v;
  tc_collect_type := tc_collect_type r; tc_strip_leading_lr := tc_strip_leading_lr r;
  tc_in_table_foster := tc_in_table_foster r; tc_frameset_ok := tc_frameset_ok r |}.
Definition set_tc_collect_type (v : element_type) (r : treebuilder_context) :
  treebuilder_context := {| tc_mode := tc_mode r; tc_second_mode := tc_second_mode r;
  tc_element_stack := tc_element_stack r; tc_current_node := tc_current_node r;
  tc_formatting_list := tc_formatting_list r; tc_formatting_list_end := tc_formatting_list_end
  r; tc_head_element := tc_head_element r; tc_form_element := tc_form_element r; tc_document :=
  tc_document r; tc_enable_scripting := tc_enable_scripting r; tc_collect_mode :=
  tc_collect_mode r; tc_collect_type := v; tc_strip_leading_lr := tc_strip_leading_lr r;
  tc_in_table_foster := tc_in_table_foster r; tc_frameset_ok := tc_frameset_ok r |}.
Definition set_tc_strip_leading_lr (v : bool) (r : treebuilder_context) : treebuilder_context :=
  {| tc_mode := tc_mode r; tc_second_mode := tc_second_mode r; tc_element_stack :=
  tc_element_stack r; tc_current_node := tc_current_node r; tc_formatting_list :=
  tc_formatting_list r; tc_formatting_list_end := tc_formatting_list_end r; tc_head_element :=
  tc_head_element r; tc_form_element := tc_form_element r; tc_document := tc_document r;
  tc_enable_scripting := tc_enable_scripting r; tc_collect_mode := tc_collect_mode r;
  tc_collect_type := tc_collect_type r; tc_strip_leading_lr := v; tc_in_table_foster :=
  tc_in_table_foster r; tc_frameset_ok := tc_frameset_ok r |}.
Definition set_tc_in_table_foster (v : bool) (r : treebuilder_context) : treebuilder_context :=
  {| tc_mode := tc_mode r; tc_second_mode := tc_second_mode r; tc_element_stack :=
  tc_element_stack r; tc_current_node := tc_current_node r; tc_formatting_list :=
  tc_formatting_list r; tc_formatting_list_end := tc_formatting_list_end r; tc_head_element :=
  tc_head_element r; tc_form_element := tc_form_element r; tc_document := tc_document r;
  tc_enable_scripting := tc_enable_scripting r; tc_collect_mode := tc_collect_mode r;
  tc_collect_type := tc_collect_type r; tc_strip_leading_lr := tc_strip_leading_lr r;
  tc_in_table_foster := v; tc_frameset_ok := tc_frameset_ok r |}.
Definition set_tc_frameset_ok (v : bool) (r : treebuilder_context) : treebuilder_context := {|
  tc_mode := tc_mode r; tc_second_mode := tc_second_mode r; tc_element_stack := tc_element_stack
  r; tc_current_node := tc_current_node r; tc_formatting_list := tc_formatting_list r;
  tc_formatting_list_end := tc_formatting_list_end r; tc_head_element := tc_head_element r;
  tc_form_element := tc_form_element r; tc_document := tc_document r; tc_enable_scripting :=
  tc_enable_scripting r; tc_collect_mode := tc_collect_mode r; tc_collect_type :=
  tc_collect_type r; tc_strip_leading_lr := tc_strip_leading_lr r; tc_in_table_foster :=
  tc_in_table_foster r; tc_frameset_ok := v |}.

Section Setters.
Context {W : Type}.
Local Abbreviation T := (hubbub_treebuilder W).
Definition set_tb_context (v : treebuilder_context) (r : T) : T := {| tb_context := v;
  tb_tree_handler := tb_tree_handler r; tb_error_handler := tb_error_handler r; tb_error_pw :=
  tb_error_pw r; tb_entries := tb_entries r; tb_calls := tb_calls r; tb_world := tb_world r;
  tb_commands := tb_commands r; tb_token := tb_token r |}.
Definition set_tb_tree_handler (v : Z) (r : T) : T := {| tb_context := tb_context r;
  tb_tree_handler := v; tb_error_handler := tb_error_handler r; tb_error_pw := tb_error_pw r;
  tb_entries := tb_entries r; tb_calls := tb_calls r; tb_world := tb_world r; tb_commands :=
  tb_commands r; tb_token := tb_token r |}.
Definition set_tb_error_handler (v : Z) (r : T) : T := {| tb_context := tb_context r;
  tb_tree_handler := tb_tree_handler r; tb_error_handler := v; tb_error_pw := tb_error_pw r;
  tb_entries := tb_entries r; tb_calls := tb_calls r; tb_world := tb_world r; tb_commands :=
  tb_commands r; tb_token := tb_token r |}.
Definition set_tb_error_pw (v : Z) (r : T) : T := {| tb_context := tb_context r; tb_tree_handler
  := tb_tree_handler r; tb_error_handler := tb_error_handler r; tb_error_pw := v; tb_entries :=
  tb_entries r; tb_calls := tb_calls r; tb_world := tb_world r; tb_commands := tb_commands r;
  tb_token := tb_token r |}.
Definition set_tb_entries (v : gmap Z formatting_list_entry) (r : T) : T := {| tb_context :=
  tb_context r; tb_tree_handler := tb_tree_handler r; tb_error_handler := tb_error_handler r;
  tb_error_pw := tb_error_pw r; tb_entries := v; tb_calls := tb_calls r; tb_world := tb_world r;
  tb_commands := tb_commands r; tb_token := tb_token r |}.
Definition set_tb_calls (v : nat) (r : T) : T := {| tb_context := tb_context r; tb_tree_handler
  := tb_tree_handler r; tb_error_handler := tb_error_handler r; tb_error_pw := tb_error_pw r;
  tb_entries := tb_entries r; tb_calls := v; tb_world := tb_world r; tb_commands := tb_commands
  r; tb_token := tb_token r |}.
Definition set_tb_world (v : W) (r : T) : T := {| tb_context := tb_context r; tb_tree_handler :=
  tb_tree_handler r; tb_error_handler := tb_error_handler r; tb_error_pw := tb_error_pw r;
  tb_entries := tb_entries r; tb_calls := tb_calls r; tb_world := v; tb_commands := tb_commands
  r; tb_token := tb_token r |}.
Definition set_tb_commands (v : list tokeniser_command) (r : T) : T := {| tb_context :=
  tb_context r; tb_tree_handler := tb_tree_handler r; tb_error_handler := tb_error_handler r;
  tb_error_pw := tb_error_pw r; tb_entries := tb_entries r; tb_calls := tb_calls r; tb_world :=
  tb_world r; tb_commands := v; tb_token := tb_token r |}.
Definition set_tb_token (v : hubbub_token) (r : T) : T := {| tb_context := tb_context r;
  tb_tree_handler := tb_tree_handler r; tb_error_handler := tb_error_handler r; tb_error_pw :=
  tb_error_pw r; tb_entries := tb_entries r; tb_calls := tb_calls r; tb_world := tb_world r;
  tb_commands := tb_commands r; tb_token := v |}.
End Setters.

(** ** Primitives *)

Section Primitives.
Context {W : Type} `{!TreeHandler W}.
(** malloc for the entries, given the number of calls so far and the heap. *)
Context (malloc : nat -> gmap Z formatting_list_entry -> option Z).
Local Abbreviation T := (hubbub_treebuilder W).
Local Abbreviation M := (comp (hubbub_treebuilder W)).

Definition ctx {A} (f : treebuilder_context -> A) : M A := gets (fun t => f (tb_context t)).
Definition upd_ctx (f : treebuilder_context -> treebuilder_context) : M unit :=
  modify (fun t => set_tb_context (f (tb_context t)) t).
Definition set_mode (mode : insertion_mode) : M unit := upd_ctx (set_tc_mode mode).

(** [if (err != HUBBUB_OK) return err;] *)
Definition check (err : hubbub_error) : M unit :=
  match err with HUBBUB_OK => ret tt | _ => return_early err end.
Definition check_call (m : M hubbub_error) : M unit := let! err := call m in check err.
(** [assert(err == HUBBUB_OK)] *)
Definition assert_ok (m : M hubbub_error) : M unit :=
  let! err := call m in assert (bool_decide (err = HUBBUB_OK)).

(** Cells of the stack. *)
Definition cell (i : Z) : M element_context :=
  let! stack := ctx tc_element_stack in of_option (znth stack i).
Definition stack_ns (i : Z) : M hubbub_ns := let! c := cell i in of_option (ec_ns c).
Definition stack_type (i : Z) : M element_type := let! c := cell i in of_option (ec_type c).
Definition stack_tainted (i : Z) : M bool := let! c := cell i in of_option (ec_tainted c).
Definition stack_node (i : Z) : M Z := let! c := cell i in of_option (ec_node c).
Definition upd_cell (i : Z) (f : element_context -> element_context) : M unit :=
  let! c := cell i in
  upd_ctx (fun x => set_tc_element_stack (<[Z.to_nat i := f c]> (tc_element_stack x)) x).
Definition top_index : M Z := ctx tc_current_node.
Definition top_node : M Z := let! n := top_index in stack_node n.

(** Entries of the formatting list. *)
Definition entry_get (p : Z) : M formatting_list_entry :=
  let! h := gets tb_entries in of_option (h !! p).
Definition entry_upd (p : Z) (f : formatting_list_entry -> formatting_list_entry) : M unit :=
  let! e := entry_get p in modify (fun t => set_tb_entries (<[p := f e]> (tb_entries t)) t).
Definition entry_alloc (e : formatting_list_entry) : M (option Z) := fun t =>
  let r := malloc (tb_calls t) (tb_entries t) in
  let t := set_tb_calls (S (tb_calls t)) t in
  match r with
  | None => Ok None t
  | Some p => Ok (Some p) (set_tb_entries (<[p := e]> (tb_entries t)) t)
  end.
Definition entry_free (p : Z) : M unit :=
  let! _ := entry_get p in modify (fun t => set_tb_entries (delete p (tb_entries t)) t).
(** As many steps as a walk along the list can take. *)
Definition walk_fuel : M nat := gets (fun t => S (size (tb_entries t))).

(** The client's tree handler. *)
Definition handler_node (f : W -> hubbub_error * Z * W) : M (hubbub_error * Z) := fun t =>
  let '(err, n, w) := f (tb_world t) in Ok (err, n) (set_tb_world w t).
Definition handler_error (f : W -> hubbub_error * W) : M hubbub_error := fun t =>
  let '(err, w) := f (tb_world t) in Ok err (set_tb_world w t).
Definition handler_unit (f : W -> W) : M unit := modify (fun t => set_tb_world (f (tb_world t)) t).
Definition ref_node (n : Z) : M unit := handler_unit (th_ref_node n).
Definition unref_node (n : Z) : M unit := handler_unit (th_unref_node n).

(** hubbub_tokeniser_setopt for the content model, which cannot fail: the
    tokeniser makes the call when the tree builder returns. *)
Definition set_content_model (model : hubbub_content_model) : M unit :=
  modify (fun t => set_tb_commands (tb_commands t ++ [CmdContentModel model]) t).
End Primitives.
