(* ===== verification/TreeStack.v ===== *)
(** * TreeStack: the stack of open elements, the list of active formatting
    elements and the insertion of nodes
    (libhubbub/src/treebuilder/treebuilder.c, and the foster parent of in_body.c).

    Loops over the stack or the list take their fuel from the size of the
    stack or of the heap. *)
From S2P Require Import Prelude.
From S2P Require Import Errors.
From S2P Require Import Tokens.
From S2P Require Import TokeniserState.
From S2P Require Import TokeniserMonad.
From S2P Require Import ElementType.
From S2P Require Import TreeState.
From stdpp Require Import gmap.
Local Open Scope Z_scope.

Section TreeStack.
Context {W : Type} `{!TreeHandler W}.
Context (malloc : nat -> gmap Z formatting_list_entry -> option Z).
Context (alloc_ok : nat -> Z -> bool).
Local Abbreviation T := (hubbub_treebuilder W).
Local Abbreviation M := (comp (hubbub_treebuilder W)).

(** ** Looking at the stack *)

Definition current_node : M element_type := let! n := top_index in stack_type n.

Definition prev_node : M element_type :=
  let! n := top_index in if n =? 0 then ret ET.UNKNOWN else stack_type (n - 1).

(** [for (t = current_node; t != 0; t--)] *)
Fixpoint current_table_loop (t : nat) : M Z :=
  match t with
  | O => ret 0
  | S n =>
      let! type := stack_type (Z.of_nat t) in
      if type_eqb type ET.TABLE then ret (Z.of_nat t) else current_table_loop n
  end.
Definition current_table : M Z := let! n := top_index in current_table_loop (Z.to_nat n).

Fixpoint scope_loop (node : nat) (type : element_type) (in_table : bool) : M Z :=
  match node with
  | O => ret 0
  | S n =>
      let! node_type := stack_type (Z.of_nat node) in
      if type_eqb node_type type then ret (Z.of_nat node)
      else if type_eqb node_type ET.TABLE then ret 0
      else if in_table then scope_loop n type in_table
      else if is_scoping_element node_type then ret 0
      else if type_eqb node_type ET.FOREIGNOBJECT then
        let! node_ns := stack_ns (Z.of_nat node) in
        if bool_decide (node_ns = HUBBUB_NS_SVG) then ret 0 else scope_loop n type in_table
      else scope_loop n type in_table
  end.
Definition element_in_scope (type : element_type) (in_table : bool) : M Z :=
  let! n := top_index in scope_loop (Z.to_nat n) type in_table.
Definition in_scope (type : element_type) (in_table : bool) : M bool :=
  let! n := element_in_scope type in_table in ret (negb (n =? 0)).

(** ** The stack *)

(** malloc and realloc for anything but entries, given the number of calls so far. *)
Definition alloc (size : Z) : M bool := fun t =>
  Ok (alloc_ok (tb_calls t) size) (set_tb_calls (S (tb_calls t)) t).

Definition element_stack_push (ns : hubbub_ns) (type : element_type) (node : Z) : M hubbub_error :=
  let! cur := top_index in
  let slot := u32 (cur + 1) in
  let! stack := ctx tc_element_stack in
  do! (if zlen stack <=? slot then
         let! ok := alloc ((zlen stack + ELEMENT_STACK_CHUNK) * SIZEOF_ELEMENT_CONTEXT) in
         if (ok : bool)
         then upd_ctx (set_tc_element_stack (stack ++ zrep ELEMENT_STACK_CHUNK blank_element))
         else return_early HUBBUB_NOMEM
       else ret tt) in
  do! upd_cell slot (fun _ =>
        {| ec_ns := Some ns; ec_type := Some type; ec_tainted := Some false; ec_node := Some node |}) in
  do! upd_ctx (set_tc_current_node slot) in
  ret HUBBUB_OK.

(** Elements that are in the formatting list when they are on the stack. *)
Definition listed (type : element_type) : bool :=
  is_formatting_element type ||
  (is_scoping_element type && negb (type_eqb type ET.HTML) && negb (type_eqb type ET.TABLE)).

(** Change the stack index of the entries at [slot], from [p] back. *)
Fixpoint reindex_loop (fuel : nat) (p slot : Z) (f : Z -> Z) : M unit :=
  match fuel with
  | O => stuck
  | S fuel =>
      if p =? NULL then ret tt else
      let! e := entry_get p in
      do! (if fe_stack_index e =? slot then entry_upd p (set_fe_stack_index (f slot)) else ret tt) in
      reindex_loop fuel (fe_prev e) slot f
  end.
Definition reindex (slot : Z) (f : Z -> Z) : M unit :=
  let! fuel := walk_fuel in
  let! last := ctx tc_formatting_list_end in reindex_loop fuel last slot f.

(** element_stack_pop: what [*ns], [*type] and [*node] receive. *)
Definition element_stack_pop : M element_context :=
  let! slot := top_index in
  let! type := stack_type slot in
  do! (if listed type then reindex slot (fun _ => 0) else ret tt) in
  let! c := cell slot in
  do! upd_ctx (set_tc_current_node (u32 (slot - 1))) in
  do! assert (1 <=? slot) in
  ret c.

(** Popping an element and giving up the reference to its node. *)
Definition pop_unref : M element_type :=
  let! c := element_stack_pop in
  let! node := of_option (ec_node c) in
  do! unref_node node in
  of_option (ec_type c).

(** [do { pop } while (!stop(type))], with the pops that can be made as fuel. *)
Fixpoint pop_loop (fuel : nat) (stop : element_type -> bool) : M unit :=
  match fuel with
  | O => stuck
  | S fuel => let! type := pop_unref in if stop type then ret tt else pop_loop fuel stop
  end.
Definition pop_until (stop : element_type -> bool) : M unit :=
  let! n := top_index in pop_loop (S (Z.to_nat n)) stop.

Definition element_stack_pop_until (type : element_type) : M hubbub_error :=
  do! (if type_eqb ET.UNKNOWN type then ret tt else pop_until (fun otype => type_eqb otype type)) in
  ret HUBBUB_OK.

(** [while (!stop(current_node)) pop] *)
Fixpoint pop_while_loop (fuel : nat) (go : element_type -> bool) : M unit :=
  match fuel with
  | O => stuck
  | S fuel =>
      let! type := current_node in
      if go type then let! _ := pop_unref in pop_while_loop fuel go else ret tt
  end.
Definition pop_while (go : element_type -> bool) : M unit :=
  let! n := top_index in pop_while_loop (S (S (Z.to_nat n))) go.

(** [do { pop } while (current_node >= node)] and the loop without the first. *)
Fixpoint pop_down_loop (fuel : nat) (node : Z) : M unit :=
  match fuel with
  | O => stuck
  | S fuel =>
      let! n := top_index in
      if node <=? n then let! _ := pop_unref in pop_down_loop fuel node else ret tt
  end.
Definition pop_down (node : Z) : M unit :=
  let! n := top_index in pop_down_loop (S (S (Z.to_nat n))) node.

(** The entries of the elements at [n], [k] of them, move down with them. *)
Fixpoint reindex_range (k : nat) (n : Z) : M unit :=
  match k with
  | O => ret tt
  | S k =>
      let! type := stack_type n in
      do! (if listed type then reindex n (fun i => u32 (i - 1)) else ret tt) in
      reindex_range k (n + 1)
  end.

(** memmove of the cells after [index] up to [limit]. *)
Definition shuffle (index limit : Z) : M unit :=
  upd_ctx (fun x => set_tc_element_stack
    (zwrite index (ztake (limit - index) (zdrop (index + 1) (tc_element_stack x)))
       (tc_element_stack x)) x).

(** element_stack_remove: what [*ns], [*type] and [*removed] receive. *)
Definition element_stack_remove (index : Z) : M element_context :=
  let! cur := top_index in
  do! assert (index <=? cur) in
  do! reindex_range (Z.to_nat (cur - index)) (index + 1) in
  let! c := cell index in
  do! (if index <? cur then shuffle index cur else ret tt) in
  do! upd_ctx (set_tc_current_node (u32 (cur - 1))) in
  ret c.

Definition close_implied_end_tags (except : element_type) : M unit :=
  pop_while (fun type =>
    one_of type [ET.DD; ET.DT; ET.LI; ET.OPTION; ET.OPTGROUP; ET.P; ET.RP; ET.RT] &&
    negb (negb (type_eqb except ET.UNKNOWN) && type_eqb type except)).

(** The modes that reset_insertion_mode looks for. *)
Fixpoint reset_loop (node : nat) : M unit :=
  match node with
  | O => ret tt
  | S n =>
      let! ns := stack_ns (Z.of_nat node) in
      if negb (bool_decide (ns = HUBBUB_NS_HTML)) then
        do! set_mode IN_FOREIGN_CONTENT in upd_ctx (set_tc_second_mode IN_BODY)
      else
        let! type := stack_type (Z.of_nat node) in
        match type with
        | ET.TD | ET.TH => set_mode IN_CELL
        | ET.TR => set_mode IN_ROW
        | ET.TBODY | ET.TFOOT | ET.THEAD => set_mode IN_TABLE_BODY
        | ET.CAPTION => set_mode IN_CAPTION
        | ET.TABLE => set_mode IN_TABLE
        | ET.BODY => set_mode IN_BODY
        | _ => reset_loop n
        end
  end.
Definition reset_insertion_mode : M unit := let! n := top_index in reset_loop (Z.to_nat n).

(** ** The formatting list *)

Definition formatting_list_append (ns : hubbub_ns) (type : element_type) (node stack_index : Z)
  : M hubbub_error :=
  let! last := ctx tc_formatting_list_end in
  let! r := entry_alloc malloc {| fe_ns := ns; fe_type := type; fe_node := node;
              fe_stack_index := stack_index; fe_prev := last; fe_next := NULL |} in
  match r with
  | None => ret HUBBUB_NOMEM
  | Some entry =>
      do! (if negb (last =? NULL) then entry_upd last (set_fe_next entry)
           else upd_ctx (set_tc_formatting_list entry)) in
      do! upd_ctx (set_tc_formatting_list_end entry) in
      ret HUBBUB_OK
  end.

Definition formatting_list_insert (prev next : Z) (ns : hubbub_ns) (type : element_type)
    (node stack_index : Z) : M hubbub_error :=
  do! (if negb (prev =? NULL) then let! e := entry_get prev in assert (fe_next e =? next)
       else ret tt) in
  do! (if negb (next =? NULL) then let! e := entry_get next in assert (fe_prev e =? prev)
       else ret tt) in
  let! r := entry_alloc malloc {| fe_ns := ns; fe_type := type; fe_node := node;
              fe_stack_index := stack_index; fe_prev := prev; fe_next := next |} in
  match r with
  | None => ret HUBBUB_NOMEM
  | Some entry =>
      do! (if negb (prev =? NULL) then entry_upd prev (set_fe_next entry)
           else upd_ctx (set_tc_formatting_list entry)) in
      do! (if negb (next =? NULL) then entry_upd next (set_fe_prev entry)
           else upd_ctx (set_tc_formatting_list_end entry)) in
      ret HUBBUB_OK
  end.

(** formatting_list_remove: the entry, whose details the caller receives. *)
Definition formatting_list_remove (entry : Z) : M formatting_list_entry :=
  let! e := entry_get entry in
  let! first := ctx tc_formatting_list in
  do! (if fe_prev e =? NULL then
         do! assert (first =? entry) in upd_ctx (set_tc_formatting_list (fe_next e))
       else
         do! assert (negb (first =? entry)) in entry_upd (fe_prev e) (set_fe_next (fe_next e))) in
  let! last := ctx tc_formatting_list_end in
  do! (if fe_next e =? NULL then
         do! assert (last =? entry) in upd_ctx (set_tc_formatting_list_end (fe_prev e))
       else
         do! assert (negb (last =? entry)) in entry_upd (fe_next e) (set_fe_prev (fe_prev e))) in
  do! entry_free entry in
  ret e.

Definition remove_unref (entry : Z) : M unit :=
  let! e := formatting_list_remove entry in unref_node (fe_node e).

(** formatting_list_replace: the entry as it was. *)
Definition formatting_list_replace (entry : Z) (ns : hubbub_ns) (type : element_type)
    (node stack_index : Z) : M formatting_list_entry :=
  let! e := entry_get entry in
  do! entry_upd entry (fun e => {| fe_ns := ns; fe_type := type; fe_node := node;
        fe_stack_index := stack_index; fe_prev := fe_prev e; fe_next := fe_next e |}) in
  ret e.

Fixpoint clear_marker_loop (fuel : nat) : M unit :=
  match fuel with
  | O => stuck
  | S fuel =>
      let! entry := ctx tc_formatting_list_end in
      if entry =? NULL then ret tt else
      let! e := entry_get entry in
      do! remove_unref entry in
      if is_scoping_element (fe_type e) then ret tt else clear_marker_loop fuel
  end.
Definition clear_active_formatting_list_to_marker : M unit :=
  let! fuel := walk_fuel in clear_marker_loop fuel.

(** ** The document *)

Definition remove_node_from_dom (node : Z) : M hubbub_error :=
  let! (err, parent) := handler_node (th_get_parent node false) in
  do! check err in
  if parent =? NULL then ret HUBBUB_OK else
  let! (err, removed) := handler_node (th_remove_child parent node) in
  do! check err in
  do! unref_node parent in
  do! unref_node removed in
  ret HUBBUB_OK.

(** aa_insert_into_foster_parent, with [*inserted]. *)
Definition aa_insert_into_foster_parent (node : Z) : M (hubbub_error * Z) :=
  let! cur_table := current_table in
  do! upd_cell cur_table (set_ec_tainted (Some true)) in
  let! (foster_parent, insert) :=
    (if cur_table =? 0 then
       let! n := stack_node 0 in do! ref_node n in ret (n, false)
     else
       let! table := stack_node cur_table in
       let! (_, t_parent) := handler_node (th_get_parent table true) in
       if negb (t_parent =? NULL) then ret (t_parent, true)
       else let! n := stack_node (cur_table - 1) in do! ref_node n in ret (n, false)) in
  let! err := call (remove_node_from_dom node) in
  match err with
  | HUBBUB_OK =>
      let! r :=
        (if (insert : bool) then
           let! table := stack_node cur_table in
           handler_node (th_insert_before foster_parent node table)
         else handler_node (th_append_child foster_parent node)) in
      do! unref_node foster_parent in
      ret r
  | _ => do! unref_node foster_parent in ret (err, NULL)
  end.

(** Whether a node to be inserted into the current node goes to the foster parent. *)
Definition fosters (type : element_type) : bool :=
  one_of type [ET.TABLE; ET.TBODY; ET.TFOOT; ET.THEAD; ET.TR].

(** Append a node to [parent], or foster it when the current node is [type]. *)
Definition append_or_foster (type : element_type) (parent : M Z) (node : Z) : M (hubbub_error * Z) :=
  let! in_table_foster := ctx tc_in_table_foster in
  if in_table_foster && fosters type then aa_insert_into_foster_parent node
  else let! p := parent in handler_node (th_append_child p node).

Definition process_comment_append (comment : bytes) (parent : M Z) : M hubbub_error :=
  let! type := current_node in
  let! p := parent in
  let! (err, node) := handler_node (th_create_comment comment) in
  do! check err in
  let! (err, appended) := append_or_foster type (ret p) node in
  do! (if bool_decide (err = HUBBUB_OK) then unref_node appended else ret tt) in
  do! unref_node node in
  ret err.

Definition append_text (string : bytes) : M hubbub_error :=
  let! type := current_node in
  let! (err, text) := handler_node (th_create_text string) in
  do! check err in
  let! (err, appended) := append_or_foster type top_node text in
  do! (if bool_decide (err = HUBBUB_OK) then unref_node appended else ret tt) in
  do! unref_node text in
  ret err.

(** Undo the insertion of a node, and return the error. *)
Definition undo_insertion (err : hubbub_error) (appended : Z) : M unit :=
  do! call (remove_node_from_dom appended) in
  do! unref_node appended in
  return_early err.

Definition insert_element (tag : hubbub_tag) (push : bool) : M hubbub_error :=
  let! type := current_node in
  let! (err, node) := handler_node (th_create_element tag) in
  do! check err in
  let! (err, appended) := append_or_foster type top_node node in
  do! unref_node node in
  do! check err in
  let type := element_type_from_name (tag_name tag) in
  let! form := ctx tc_form_element in
  do! (if negb (form =? NULL) && is_form_associated type then
         let! err := handler_error (th_form_associate form appended) in
         match err with HUBBUB_OK => ret tt | _ => undo_insertion err appended end
       else ret tt) in
  do! (if push then
         let! err := call (element_stack_push (tag_ns tag) type appended) in
         match err with HUBBUB_OK => ret tt | _ => undo_insertion err appended end
       else unref_node appended) in
  ret HUBBUB_OK.

(** complete_script *)
Definition complete_script : M hubbub_error :=
  let! n := top_node in handler_error (th_complete_script n).

(** ** Reconstruction *)

(** From the last entry back to the one after a marker or an open element. *)
Fixpoint unopened_loop (fuel : nat) (entry : Z) : M Z :=
  match fuel with
  | O => stuck
  | S fuel =>
      let! e := entry_get entry in
      if fe_prev e =? NULL then ret entry else
      let! e' := entry_get (fe_prev e) in
      if is_scoping_element (fe_type e') || negb (fe_stack_index e' =? 0)
      then ret (fe_next e')
      else unopened_loop fuel (fe_prev e)
  end.

(** Clone the nodes of the entries from [entry] on, and open the clones. *)
Fixpoint reopen_loop (fuel : nat) (entry : Z) : M hubbub_error :=
  match fuel with
  | O => stuck
  | S fuel =>
      if entry =? NULL then ret HUBBUB_OK else
      let! type := current_node in
      let! e := entry_get entry in
      let! (err, clone) := handler_node (th_clone_node (fe_node e) false) in
      do! check err in
      let! (err, appended) := append_or_foster type top_node clone in
      do! unref_node clone in
      do! check err in
      let! err := call (element_stack_push (fe_ns e) (fe_type e) appended) in
      do! (match err with HUBBUB_OK => ret tt | _ => undo_insertion err appended end) in
      reopen_loop fuel (fe_next e)
  end.

(** The entries from [entry] on get the nodes of the stack from [sp] on. *)
Fixpoint replace_loop (fuel : nat) (entry sp : Z) : M unit :=
  match fuel with
  | O => stuck
  | S fuel =>
      if entry =? NULL then ret tt else
      let! e := entry_get entry in
      let! node := stack_node sp in
      do! ref_node node in
      let! old := formatting_list_replace entry (fe_ns e) (fe_type e) node sp in
      do! unref_node (fe_node old) in
      replace_loop fuel (fe_next e) (sp + 1)
  end.

(** [cleanup:] *)
Fixpoint cleanup_loop (fuel : nat) (sp : Z) : M unit :=
  match fuel with
  | O => stuck
  | S fuel =>
      let! n := top_index in
      if sp <? n then
        let! c := element_stack_pop in
        let! node := of_option (ec_node c) in
        do! call (remove_node_from_dom node) in
        do! unref_node node in
        cleanup_loop fuel sp
      else ret tt
  end.

Definition reconstruct_active_formatting_list : M hubbub_error :=
  let! sp := top_index in
  let! first := ctx tc_formatting_list in
  if first =? NULL then ret HUBBUB_OK else
  let! entry := ctx tc_formatting_list_end in
  let! e := entry_get entry in
  if is_scoping_element (fe_type e) || negb (fe_stack_index e =? 0) then ret HUBBUB_OK else
  let! fuel := walk_fuel in
  let! initial_entry := unopened_loop fuel entry in
  let! err := call (reopen_loop fuel initial_entry) in
  match err with
  | HUBBUB_OK => do! replace_loop fuel initial_entry (sp + 1) in ret HUBBUB_OK
  | _ =>
      let! n := top_index in
      do! cleanup_loop (S (Z.to_nat n)) sp in
      ret err
  end.

(** ** Characters and generic text *)

Definition is_whitespace (c : Z) : bool := (c =? 0x09) || (c =? 0x0A) || (c =? 0x0C) || (c =? 0x20).

(** How many octets at the start are white space. *)
Fixpoint leading_whitespace (data : bytes) : Z :=
  match data with
  | [] => 0
  | c :: data => if is_whitespace c then 1 + leading_whitespace data else 0
  end.

(** The token at hand loses its leading white space, if anything is left. *)
Definition process_characters_expect_whitespace (data : bytes) (insert_into_current_node : bool)
  : M hubbub_error :=
  let c := leading_whitespace data in
  do! (if (0 <? c) && insert_into_current_node then check_call (append_text (ztake c data)) else ret tt) in
  if c =? zlen data then ret HUBBUB_OK else
  do! modify (set_tb_token (TokenCharacter (zdrop c data))) in
  ret HUBBUB_REPROCESS.

Definition parse_generic_rcdata (tag : hubbub_tag) (rcdata : bool) : M hubbub_error :=
  let type := element_type_from_name (tag_name tag) in
  do! check_call (insert_element tag true) in
  do! set_content_model (if rcdata then HUBBUB_CONTENT_MODEL_RCDATA else HUBBUB_CONTENT_MODEL_CDATA) in
  let! mode := ctx tc_mode in
  do! upd_ctx (set_tc_collect_mode mode) in
  do! upd_ctx (set_tc_collect_type type) in
  do! set_mode GENERIC_RCDATA in
  ret HUBBUB_OK.
End TreeStack.
