(* ===== verification/TreeAdoption.v ===== *)
(** * TreeAdoption: the adoption agency, which sorts out formatting elements
    that are closed across blocks (libhubbub/src/treebuilder/in_body.c). *)
From S2P Require Import Prelude.
From S2P Require Import Errors.
From S2P Require Import Tokens.
From S2P Require Import TokeniserState.
From S2P Require Import TokeniserMonad.
From S2P Require Import ElementType.
From S2P Require Import TreeState.
From S2P Require Import TreeStack.
From stdpp Require Import gmap.
Local Open Scope Z_scope.

Section TreeAdoption.
Context {W : Type} `{!TreeHandler W}.
Context (malloc : nat -> gmap Z formatting_list_entry -> option Z).
Local Abbreviation T := (hubbub_treebuilder W).
Local Abbreviation M := (comp (hubbub_treebuilder W)).

Fixpoint find_formatting_loop (fuel : nat) (entry : Z) (type : element_type) : M Z :=
  match fuel with
  | O => stuck
  | S fuel =>
      if entry =? NULL then ret NULL else
      let! e := entry_get entry in
      if is_scoping_element (fe_type e) || type_eqb (fe_type e) type then ret entry
      else find_formatting_loop fuel (fe_prev e) type
  end.
Definition aa_find_formatting_element (type : element_type) : M Z :=
  let! fuel := walk_fuel in
  let! last := ctx tc_formatting_list_end in
  let! entry := find_formatting_loop fuel last type in
  if entry =? NULL then ret NULL else
  let! e := entry_get entry in
  ret (if is_scoping_element (fe_type e) then NULL else entry).

Definition aa_find_and_validate_formatting_element (type : element_type) : M (hubbub_error * Z) :=
  let! entry := aa_find_formatting_element type in
  if entry =? NULL then ret (HUBBUB_OK, NULL) else
  let! e := entry_get entry in
  if fe_stack_index e =? 0 then
    (* not on the stack *)
    do! remove_unref entry in ret (HUBBUB_OK, NULL)
  else
    let! n := element_in_scope (fe_type e) false in
    if negb (n =? fe_stack_index e) then ret (HUBBUB_OK, NULL) else ret (HUBBUB_REPROCESS, entry).

(** The first of the cells from [fb] on, [k] of them, with a special element,
    or the index after them. *)
Fixpoint furthest_block_loop (k : nat) (fb : Z) : M Z :=
  match k with
  | O => ret fb
  | S k =>
      let! type := stack_type fb in
      if is_phrasing_element type || is_formatting_element type
      then furthest_block_loop k (fb + 1) else ret fb
  end.
Definition aa_find_furthest_block (formatting_element : Z) : M (hubbub_error * Z) :=
  let! e := entry_get formatting_element in
  let fe_index := fe_stack_index e in
  let! cur := top_index in
  let! fb := furthest_block_loop (Z.to_nat (cur - fe_index)) (fe_index + 1) in
  if cur <? fb then
    let! _ := pop_unref in
    do! pop_down fe_index in
    do! remove_unref formatting_element in
    ret (HUBBUB_OK, 0)
  else ret (HUBBUB_REPROCESS, fb).

Definition aa_reparent_node (node new_parent : Z) : M (hubbub_error * Z) :=
  let! err := call (remove_node_from_dom node) in
  match err with
  | HUBBUB_OK => handler_node (th_append_child new_parent node)
  | _ => ret (err, NULL)
  end.

(** The entry with a stack index, from [p] back. *)
Fixpoint find_index_loop (fuel : nat) (p index : Z) : M Z :=
  match fuel with
  | O => stuck
  | S fuel =>
      if p =? NULL then ret NULL else
      let! e := entry_get p in
      if fe_stack_index e =? index then ret p else find_index_loop fuel (fe_prev e) index
  end.
Definition find_index (index : Z) : M Z :=
  let! fuel := walk_fuel in
  let! last := ctx tc_formatting_list_end in find_index_loop fuel last index.

Definition aa_remove_element_stack_item (index limit : Z) : M unit :=
  do! assert (index <? limit) in
  let! cur := top_index in
  do! assert (limit <=? cur) in
  do! reindex_range (Z.to_nat (limit - index)) (index + 1) in
  let! node := stack_node index in
  do! unref_node node in
  shuffle index limit.

Definition aa_clone_and_replace_entries (element : Z) : M hubbub_error :=
  let! e := entry_get element in
  let! (err, clone) := handler_node (th_clone_node (fe_node e) false) in
  do! check err in
  let! old := formatting_list_replace element (fe_ns e) (fe_type e) clone (fe_stack_index e) in
  do! unref_node (fe_node old) in
  do! ref_node clone in
  let! e := entry_get element in
  do! upd_cell (fe_stack_index e) (set_ec_node (Some clone)) in
  do! unref_node (fe_node old) in
  ret HUBBUB_OK.

(** The node at [last] was reparented: give up the reference to it and, if it
    is another node now, put that in its place in the list and on the stack. *)
Definition replace_reparented (last reparented : Z) : M unit :=
  let! node := stack_node last in
  do! unref_node node in
  if reparented =? node then ret tt else
  let! entry := find_index last in
  do! (if entry =? NULL then ret tt
       else
         do! ref_node reparented in
         do! entry_upd entry (set_fe_node reparented) in
         unref_node node) in
  upd_cell last (set_ec_node (Some reparented)).

(** Step 6: the bookmark, and the indices of the furthest block and the last
    node when it is done. *)
Fixpoint misnested_loop (fuel : nat) (formatting_element node last fb : Z) (bookmark : Z * Z)
  : M (Z * (Z * Z) * Z) :=
  match fuel with
  | O => stuck
  | S fuel =>
      (* i *)
      let node := u32 (node - 1) in
      (* ii *)
      let! node_entry := find_index node in
      if node_entry =? NULL then
        let! cur := top_index in
        do! aa_remove_element_stack_item node cur in
        do! upd_ctx (set_tc_current_node (u32 (cur - 1))) in
        misnested_loop fuel formatting_element node (u32 (last - 1)) (u32 (fb - 1)) bookmark
      (* iii *)
      else if node =? formatting_element then ret (fb, bookmark, last)
      else
        (* iv *)
        let! e := entry_get node_entry in
        let bookmark := if last =? fb then (node_entry, fe_next e) else bookmark in
        (* v *)
        do! check_call (aa_clone_and_replace_entries node_entry) in
        (* vi *)
        let! last_node := stack_node last in
        let! node_node := stack_node node in
        let! (err, reparented) := aa_reparent_node last_node node_node in
        do! check err in
        do! replace_reparented last reparented in
        (* vii *)
        misnested_loop fuel formatting_element node node fb bookmark
  end.
Definition aa_find_bookmark_location_reparenting_misnested (formatting_element furthest_block : Z)
    (bookmark : Z * Z) : M (Z * (Z * Z) * Z) :=
  misnested_loop (Z.to_nat (furthest_block - formatting_element)) formatting_element furthest_block
    furthest_block furthest_block bookmark.

(** Step 7: the last node goes to the common ancestor, or to the foster parent. *)
Definition adoption_reparent (common_ancestor last_node : Z) : M unit :=
  let! ancestor_type := stack_type common_ancestor in
  let! last := stack_node last_node in
  let! (err, reparented) :=
    (if fosters ancestor_type then aa_insert_into_foster_parent last
     else let! ancestor := stack_node common_ancestor in aa_reparent_node last ancestor) in
  do! check err in
  replace_reparented last_node reparented.

(** Steps 8 to 12: a clone of the formatting element takes in the children of
    the furthest block, and the place of the formatting element. *)
Definition adoption_clone (entry formatting_element furthest_block : Z) (bookmark : Z * Z) : M unit :=
  (* 8 *)
  let! e := entry_get entry in
  let! (err, fe_clone) := handler_node (th_clone_node (fe_node e) false) in
  do! check err in
  (* 9 *)
  let! block := stack_node furthest_block in
  let! err := handler_error (th_reparent_children block fe_clone) in
  do! (match err with HUBBUB_OK => ret tt | _ => do! unref_node fe_clone in return_early err end) in
  (* 10 *)
  let! (err, clone_appended) := handler_node (th_append_child block fe_clone) in
  do! (match err with HUBBUB_OK => ret tt | _ => do! unref_node fe_clone in return_early err end) in
  do! (if clone_appended =? fe_clone then ret tt
       else do! unref_node fe_clone in ref_node clone_appended) in
  (* 12 *)
  do! aa_remove_element_stack_item formatting_element furthest_block in
  let furthest_block := u32 (furthest_block - 1) in
  do! upd_cell (furthest_block + 1) (fun c =>
        set_ec_node (Some clone_appended) (set_ec_type (Some (fe_type e)) c)) in
  (* 11 *)
  let! old := formatting_list_remove entry in
  do! unref_node (fe_node old) in
  let! err := call (formatting_list_insert malloc bookmark.1 bookmark.2 (fe_ns old) (fe_type old)
                      clone_appended (furthest_block + 1)) in
  match err with HUBBUB_OK => ret tt | _ => do! unref_node clone_appended in return_early err end.

(** One round of the adoption agency; true when there may be another. *)
Definition adoption_round (type : element_type) : M bool :=
  (* 1 *)
  let! (err, entry) := aa_find_and_validate_formatting_element type in
  if bool_decide (err = HUBBUB_OK) then ret false else
  let! e := entry_get entry in
  do! assert (type_eqb (fe_type e) type) in
  let formatting_element := fe_stack_index e in
  (* 2 and 3 *)
  let! (err, furthest_block) := aa_find_furthest_block entry in
  if bool_decide (err = HUBBUB_OK) then ret false else
  (* 4 *)
  let common_ancestor := u32 (formatting_element - 1) in
  (* 5 and 6 *)
  let! (furthest_block, bookmark, last_node) :=
    aa_find_bookmark_location_reparenting_misnested formatting_element furthest_block
      (fe_prev e, fe_next e) in
  do! adoption_reparent common_ancestor last_node in
  do! adoption_clone entry formatting_element furthest_block bookmark in
  ret true.

Fixpoint adoption_loop (fuel : nat) (type : element_type) : M hubbub_error :=
  match fuel with
  | O => stuck
  | S fuel =>
      let! again := adoption_round type in
      if (again : bool) then adoption_loop fuel type else ret HUBBUB_OK
  end.

(** process_0presentational_in_body.  Each round takes a formatting element
    over a block on the stack: there are as many rounds as pairs of those. *)
Definition process_0presentational_in_body (type : element_type) : M hubbub_error :=
  let! entries := walk_fuel in
  let! n := top_index in
  adoption_loop (S (entries * S (Z.to_nat n))) type.
End TreeAdoption.
