(* ===== verification/TreeForeign.v ===== *)
(** * TreeForeign: names in SVG and MathML
    (libhubbub/src/treebuilder/in_foreign_content.c).

    The functions change the attributes of a copy of the tag; the token they
    are shared with is not looked at again. *)
From Stdlib Require Ascii String.
From S2P Require Import Prelude.
From S2P Require Import Detect.
From S2P Require Import Tokens.

Import String.StringSyntax.
Local Open Scope string_scope.

(** case_changes: a name in lower case and as it is written. *)
Definition case_changes : Type := (bytes * bytes)%type.
Definition change (attr proper : String.string) : case_changes := (chars attr, chars proper).

Definition svg_attributes : list case_changes :=
  [change "attributename" "attributeName"; change "attributetype" "attributeType";
   change "basefrequency" "baseFrequency"; change "baseprofile" "baseProfile";
   change "calcmode" "calcMode"; change "clippathunits" "clipPathUnits";
   change "contentscripttype" "contentScriptType";
   change "contentstyletype" "contentStyleType";
   change "diffuseconstant" "diffuseConstant"; change "edgemode" "edgeMode";
   change "externalresourcesrequired" "externalResourcesRequired";
   change "filterres" "filterRes"; change "filterunits" "filterUnits";
   change "glyphref" "glyphRef"; change "gradienttransform" "gradientTransform";
   change "gradientunits" "gradientUnits"; change "kernelmatrix" "kernelMatrix";
   change "kernelunitlength" "kernelUnitLength"; change "keypoints" "keyPoints";
   change "keysplines" "keySplines"; change "keytimes" "keyTimes";
   change "lengthadjust" "lengthAdjust"; change "limitingconeangle" "limitingConeAngle";
   change "markerheight" "markerHeight"; change "markerunits" "markerUnits";
   change "markerwidth" "markerWidth"; change "maskcontentunits" "maskContentUnits";
   change "maskunits" "maskUnits"; change "numoctaves" "numOctaves";
   change "pathlength" "pathLength"; change "patterncontentunits" "patternContentUnits";
   change "patterntransform" "patternTransform"; change "patternunits" "patternUnits";
   change "pointsatx" "pointsAtX"; change "pointsaty" "pointsAtY";
   change "pointsatz" "pointsAtZ"; change "preservealpha" "preserveAlpha";
   change "preserveaspectratio" "preserveAspectRatio";
   change "primitiveunits" "primitiveUnits"; change "refx" "refX"; change "refy" "refY";
   change "repeatcount" "repeatCount"; change "repeatdur" "repeatDur";
   change "requiredextensions" "requiredExtensions";
   change "requiredfeatures" "requiredFeatures";
   change "specularconstant" "specularConstant";
   change "specularexponent" "specularExponent"; change "spreadmethod" "spreadMethod";
   change "startoffset" "startOffset"; change "stddeviation" "stdDeviation";
   change "stitchtiles" "stitchTiles"; change "surfacescale" "surfaceScale";
   change "systemlanguage" "systemLanguage"; change "tablevalues" "tableValues";
   change "targetx" "targetX"; change "targety" "targetY";
   change "textlength" "textLength"; change "viewbox" "viewBox";
   change "viewtarget" "viewTarget"; change "xchannelselector" "xChannelSelector";
   change "ychannelselector" "yChannelSelector"; change "zoomandpan" "zoomAndPan"].

Definition svg_tagnames : list case_changes :=
  [change "altglyph" "altGlyph"; change "altglyphdef" "altGlyphDef";
   change "altglyphitem" "altGlyphItem"; change "animatecolor" "animateColor";
   change "animatemotion" "animateMotion"; change "animatetransform" "animateTransform";
   change "clippath" "clipPath"; change "feblend" "feBlend";
   change "fecolormatrix" "feColorMatrix";
   change "fecomponenttransfer" "feComponentTransfer"; change "fecomposite" "feComposite";
   change "feconvolvematrix" "feConvolveMatrix";
   change "fediffuselighting" "feDiffuseLighting";
   change "fedisplacementmap" "feDisplacementMap";
   change "fedistantlight" "feDistantLight"; change "feflood" "feFlood";
   change "fefunca" "feFuncA"; change "fefuncb" "feFuncB"; change "fefuncg" "feFuncG";
   change "fefuncr" "feFuncR"; change "fegaussianblur" "feGaussianBlur";
   change "feimage" "feImage"; change "femerge" "feMerge";
   change "femergenode" "feMergeNode"; change "femorphology" "feMorphology";
   change "feoffset" "feOffset"; change "fepointlight" "fePointLight";
   change "fespecularlighting" "feSpecularLighting"; change "fespotlight" "feSpotLight";
   change "fetile" "feTile"; change "feturbulence" "feTurbulence";
   change "foreignobject" "foreignObject"; change "glyphref" "glyphRef";
   change "lineargradient" "linearGradient"; change "radialgradient" "radialGradient";
   change "textpath" "textPath"].

(** The last of the changes there is for a name. *)
Definition changed (changes : list case_changes) (name : bytes) : bytes :=
  foldl (fun cur '(attr, proper) => if bytes_eqb name attr then proper else cur) name changes.

Definition set_attr_name (name : bytes) (a : hubbub_attribute) : hubbub_attribute :=
  {| attr_ns := attr_ns a; attr_name := name; attr_value := attr_value a |}.
Definition set_attr_ns (ns : hubbub_ns) (a : hubbub_attribute) : hubbub_attribute :=
  {| attr_ns := ns; attr_name := attr_name a; attr_value := attr_value a |}.
Definition map_attributes (f : hubbub_attribute -> hubbub_attribute) (tag : hubbub_tag) : hubbub_tag :=
  {| tag_ns := tag_ns tag; tag_name := tag_name tag; tag_attributes := map f (tag_attributes tag);
     tag_self_closing := tag_self_closing tag |}.
Definition set_tag_ns (ns : hubbub_ns) (tag : hubbub_tag) : hubbub_tag :=
  {| tag_ns := ns; tag_name := tag_name tag; tag_attributes := tag_attributes tag;
     tag_self_closing := tag_self_closing tag |}.
Definition set_tag_name (name : bytes) (tag : hubbub_tag) : hubbub_tag :=
  {| tag_ns := tag_ns tag; tag_name := name; tag_attributes := tag_attributes tag;
     tag_self_closing := tag_self_closing tag |}.

Definition adjust_mathml_attributes : hubbub_tag -> hubbub_tag :=
  map_attributes (fun attr =>
    if bytes_eqb (attr_name attr) (chars "definitionurl")
    then set_attr_name (chars "definitionURL") attr else attr).

Definition adjust_svg_attributes : hubbub_tag -> hubbub_tag :=
  map_attributes (fun attr => set_attr_name (changed svg_attributes (attr_name attr)) attr).

Definition adjust_svg_tagname (tag : hubbub_tag) : hubbub_tag :=
  set_tag_name (changed svg_tagnames (tag_name tag)) tag.

(** The prefix of a name is taken off when the rest is one of [names]. *)
Definition matches (names : list bytes) (name : bytes) : bool := existsb (bytes_eqb name) names.
Definition adjust_foreign_attribute (attr : hubbub_attribute) : hubbub_attribute :=
  let name := attr_name attr in
  if (10 <=? zlen name) && bytes_eqb (ztake 6 name) (chars "xlink:") then
    if matches [chars "actuate"; chars "arcrole"; chars "href"; chars "role"; chars "show";
                chars "title"; chars "type"] (zdrop 6 name)
    then set_attr_ns HUBBUB_NS_XLINK (set_attr_name (zdrop 6 name) attr) else attr
  else if (8 <=? zlen name) && bytes_eqb (ztake 4 name) (chars "xml:") then
    if matches [chars "base"; chars "lang"; chars "space"] (zdrop 4 name)
    then set_attr_ns HUBBUB_NS_XML (set_attr_name (zdrop 4 name) attr) else attr
  else if bytes_eqb name (chars "xmlns") then set_attr_ns HUBBUB_NS_XMLNS attr
  else if bytes_eqb name (chars "xmlns:xlink")
  then set_attr_ns HUBBUB_NS_XMLNS (set_attr_name (zdrop 6 name) attr)
  else attr.
Definition adjust_foreign_attributes : hubbub_tag -> hubbub_tag :=
  map_attributes adjust_foreign_attribute.
