(* ===== verification/TreeBody.v ===== *)
(** * TreeBody: the "in head" and "in body" insertion modes
    (libhubbub/src/treebuilder/in_head.c and in_body.c).

    Tags that the source makes up have no value for their self-closing flag,
    which nothing reads; it is false here.  The loops that only look for parse
    errors are left out. *)
From Stdlib Require Ascii String.
From S2P Require Import Prelude.
From S2P Require Import Errors.
From S2P Require Import Detect.
From S2P Require Import Tokens.
From S2P Require Import TokeniserState.
From S2P Require Import TokeniserMonad.
From S2P Require Import ElementType.
From S2P Require Import TreeState.
From S2P Require Import TreeStack.
From S2P Require Import TreeAdoption.
From S2P Require Import TreeForeign.
From stdpp Require Import gmap.
Import String.StringSyntax.
Local Open Scope string_scope.
Local Open Scope Z_scope.

(** A tag that the tree builder makes up. *)
Definition made_tag (name : bytes) (attributes : list hubbub_attribute) : hubbub_tag :=
  {| tag_ns := HUBBUB_NS_HTML; tag_name := name; tag_attributes := attributes;
     tag_self_closing := false |}.

Definition SIZEOF_HUBBUB_ATTRIBUTE : Z := 40.

Section TreeBody.
Context {W : Type} `{!TreeHandler W}.
Context (malloc : nat -> gmap Z formatting_list_entry -> option Z).
Context (alloc_ok : nat -> Z -> bool).
Context (mibenum_from_name : bytes -> Z) (mibenum_to_name : Z -> option bytes).
Local Abbreviation T := (hubbub_treebuilder W).
Local Abbreviation M := (comp (hubbub_treebuilder W)).
Local Abbreviation insert_element := (insert_element alloc_ok).
Local Abbreviation parse_generic_rcdata := (parse_generic_rcdata alloc_ok).
Local Abbreviation reconstruct := (reconstruct_active_formatting_list alloc_ok).
Local Abbreviation adoption := (process_0presentational_in_body malloc).

Definition set_frameset_ok (b : bool) : M unit := upd_ctx (set_tc_frameset_ok b).

(** ** In head *)

(** The charsets of the attributes charset and content, the last of each. *)
Fixpoint meta_charsets (attrs : list hubbub_attribute) (charset_enc content_type_enc : Z)
  : option (Z * Z) :=
  match attrs with
  | [] => Some (charset_enc, content_type_enc)
  | attr :: attrs =>
      if bytes_eqb (attr_name attr) (chars "charset")
      then meta_charsets attrs (mibenum_from_name (attr_value attr)) content_type_enc
      else if bytes_eqb (attr_name attr) (chars "content")
      then enc ← hubbub_charset_parse_content mibenum_from_name (attr_value attr) 0
                  (zlen (attr_value attr));
           meta_charsets attrs charset_enc enc
      else meta_charsets attrs charset_enc content_type_enc
  end.

Definition process_meta_in_head (tag : hubbub_tag) : M hubbub_error :=
  do! check_call (insert_element tag false) in
  match th_encoding_change with
  | None => ret HUBBUB_OK
  | Some encoding_change =>
      let utf16 := mibenum_from_name (chars "utf-16") in
      let utf16be := mibenum_from_name (chars "utf-16be") in
      let utf16le := mibenum_from_name (chars "utf-16le") in
      do! assert (negb (utf16 =? 0) && negb (utf16be =? 0) && negb (utf16le =? 0)) in
      let! (charset_enc, content_type_enc) := of_option (meta_charsets (tag_attributes tag) 0 0) in
      let charset_enc := if (charset_enc =? 0) && negb (content_type_enc =? 0)
                         then content_type_enc else charset_enc in
      if charset_enc =? 0 then ret HUBBUB_OK else
      let! charset_enc := of_option (hubbub_charset_fix_charset mibenum_from_name charset_enc) in
      let charset_enc :=
        if (charset_enc =? utf16le) || (charset_enc =? utf16be) || (charset_enc =? utf16)
        then mibenum_from_name (chars "UTF-8") else charset_enc in
      handler_error (encoding_change (mibenum_to_name charset_enc))
  end.

(** handle_in_head; [in_body] is handle_in_body. *)
Definition handle_in_head (in_body : hubbub_token -> M hubbub_error) (token : hubbub_token)
  : M hubbub_error :=
  let! (err, handled) :=
    match token with
    | TokenCharacter data =>
        let! err := call (process_characters_expect_whitespace data true) in ret (err, false)
    | TokenComment data =>
        let! err := call (process_comment_append data top_node) in ret (err, false)
    | TokenDoctype _ => ret (HUBBUB_OK, false)
    | TokenStartTag tag =>
        let type := element_type_from_name (tag_name tag) in
        let! err :=
          (if type_eqb type ET.HTML then call (in_body token)
           else if one_of type [ET.BASE; ET.COMMAND; ET.LINK] then call (insert_element tag false)
           else if type_eqb type ET.META then call (process_meta_in_head tag)
           else if type_eqb type ET.TITLE then call (parse_generic_rcdata tag true)
           else if one_of type [ET.NOFRAMES; ET.STYLE] then call (parse_generic_rcdata tag false)
           else if type_eqb type ET.NOSCRIPT then
             let! enable_scripting := ctx tc_enable_scripting in
             if (enable_scripting : bool) then call (parse_generic_rcdata tag false)
             else
               do! check_call (insert_element tag true) in
               do! set_mode IN_HEAD_NOSCRIPT in ret HUBBUB_OK
           else if type_eqb type ET.SCRIPT then call (parse_generic_rcdata tag false)
           else if type_eqb type ET.HEAD then ret HUBBUB_OK
           else ret HUBBUB_REPROCESS) in
        ret (err, false)
    | TokenEndTag tag =>
        let type := element_type_from_name (tag_name tag) in
        if type_eqb type ET.HEAD then ret (HUBBUB_OK, true)
        else if one_of type [ET.HTML; ET.BODY; ET.BR] then ret (HUBBUB_REPROCESS, false)
        else ret (HUBBUB_OK, false)
    | TokenEOF => ret (HUBBUB_REPROCESS, false)
    end in
  do! (if handled || bool_decide (err = HUBBUB_REPROCESS)
       then let! _ := pop_unref in set_mode AFTER_HEAD else ret tt) in
  ret err.

(** ** In body: tags *)

(** [while (element_in_scope(P)) pop], and whether there was one. *)
Fixpoint pop_p_loop (fuel : nat) (popped : bool) : M bool :=
  match fuel with
  | O => stuck
  | S fuel =>
      let! p := in_scope ET.P false in
      if (p : bool) then let! _ := pop_unref in pop_p_loop fuel true else ret popped
  end.

(** Close a p element, if one is open, and insert an element. *)
Definition container_with (close_p : M hubbub_error) (tag : hubbub_tag) : M hubbub_error :=
  let! p := in_scope ET.P false in
  do! (if (p : bool) then check_call close_p else ret tt) in
  insert_element tag true.

Fixpoint close_p (fuel : nat) : M hubbub_error :=
  match fuel with
  | O => stuck
  | S fuel =>
      let! n := top_index in
      let! popped := pop_p_loop (S (Z.to_nat n)) false in
      if (popped : bool) then ret HUBBUB_OK else
      do! check_call (container_with (close_p fuel) (made_tag (chars "p") [])) in
      do! assert_ok (close_p fuel) in
      ret HUBBUB_OK
  end.

(** process_0p_in_body calls itself once, after it has inserted a p element. *)
Definition process_0p_in_body : M hubbub_error := close_p 2.
Definition process_container_in_body : hubbub_tag -> M hubbub_error := container_with process_0p_in_body.
(** The same before something else. *)
Definition close_p_if_open : M unit :=
  let! p := in_scope ET.P false in
  if (p : bool) then check_call process_0p_in_body else ret tt.

Definition process_html_in_body (tag : hubbub_tag) : M hubbub_error :=
  let! html := stack_node 0 in handler_error (th_add_attributes html (tag_attributes tag)).

(** Whether the second cell of the stack is the body. *)
Definition no_body : M bool :=
  let! n := top_index in
  if n <? 1 then ret true else let! type := stack_type 1 in ret (negb (type_eqb type ET.BODY)).

Definition process_body_in_body (tag : hubbub_tag) : M hubbub_error :=
  let! none := no_body in
  if (none : bool) then ret HUBBUB_OK else
  let! body := stack_node 1 in handler_error (th_add_attributes body (tag_attributes tag)).

Definition process_frameset_in_body (tag : hubbub_tag) : M hubbub_error :=
  let! none := no_body in
  if (none : bool) then ret HUBBUB_OK else
  let! frameset_ok := ctx tc_frameset_ok in
  if negb frameset_ok then ret HUBBUB_OK else
  let! body := stack_node 1 in
  do! check_call (remove_node_from_dom body) in
  do! assert_ok (element_stack_pop_until ET.BODY) in
  let! err := call (insert_element tag true) in
  do! (if bool_decide (err = HUBBUB_OK) then set_mode IN_FRAMESET else ret tt) in
  ret err.

Definition is_heading (type : element_type) : bool :=
  one_of type [ET.H1; ET.H2; ET.H3; ET.H4; ET.H5; ET.H6].

Definition process_hN_in_body (tag : hubbub_tag) : M hubbub_error :=
  do! close_p_if_open in
  let! type := current_node in
  do! (if is_heading type then let! _ := pop_unref in ret tt else ret tt) in
  insert_element tag true.

Definition process_form_in_body (tag : hubbub_tag) : M hubbub_error :=
  let! form := ctx tc_form_element in
  if negb (form =? NULL) then ret HUBBUB_OK else
  do! close_p_if_open in
  do! check_call (insert_element tag true) in
  let! node := top_node in
  do! ref_node node in
  do! upd_ctx (set_tc_form_element node) in
  ret HUBBUB_OK.

(** The cell of the last list item from [node] down, as far as it is looked for. *)
Fixpoint list_item_loop (node : nat) (type : element_type) : M Z :=
  match node with
  | O => ret 0
  | S n =>
      let! ntype := stack_type (Z.of_nat node) in
      if type_eqb type ET.LI && type_eqb ntype ET.LI then ret (Z.of_nat node)
      else if one_of type [ET.DD; ET.DT] && one_of ntype [ET.DD; ET.DT] then ret (Z.of_nat node)
      else if negb (is_formatting_element ntype) && negb (is_phrasing_element ntype) &&
              negb (type_eqb ntype ET.ADDRESS) && negb (type_eqb ntype ET.DIV)
      then ret (Z.of_nat node)
      else list_item_loop n type
  end.

Definition process_dd_dt_li_in_body (tag : hubbub_tag) (type : element_type) : M hubbub_error :=
  do! set_frameset_ok false in
  do! close_p_if_open in
  let! n := top_index in
  let! node := list_item_loop (Z.to_nat n) type in
  let! ntype := stack_type node in
  do! (if one_of ntype [ET.LI; ET.DD; ET.DT]
       then let! _ := pop_unref in pop_down node else ret tt) in
  insert_element tag true.

Definition process_plaintext_in_body (tag : hubbub_tag) : M hubbub_error :=
  do! close_p_if_open in
  do! check_call (insert_element tag true) in
  do! set_content_model HUBBUB_CONTENT_MODEL_PLAINTEXT in
  ret HUBBUB_OK.

(** Insert an element and its entry in the formatting list, or neither. *)
Definition insert_listed (tag : hubbub_tag) (type : element_type) : M unit :=
  do! check_call (insert_element tag true) in
  let! node := top_node in
  do! ref_node node in
  let! node := top_node in
  let! n := top_index in
  let! err := call (formatting_list_append malloc (tag_ns tag) type node n) in
  match err with
  | HUBBUB_OK => ret tt
  | _ =>
      let! node := top_node in
      do! call (remove_node_from_dom node) in
      let! c := element_stack_pop in
      let! node := of_option (ec_node c) in
      do! unref_node node in
      do! unref_node node in
      return_early err
  end.

Definition process_presentational_in_body (tag : hubbub_tag) (type : element_type) : M hubbub_error :=
  do! check_call reconstruct in
  do! insert_listed tag type in
  ret HUBBUB_OK.

(** Close the a element of [entry], wherever it still is. *)
Definition close_a (entry : Z) : M unit :=
  let! e := entry_get entry in
  let index := fe_stack_index e in
  let node := fe_node e in
  do! check_call (adoption ET.A) in
  let! entry2 := aa_find_formatting_element ET.A in
  do! (if entry2 =? entry then
         let! e2 := entry_get entry2 in
         if fe_node e2 =? node then remove_unref entry else ret tt
       else ret tt) in
  let! n := top_index in
  if index <=? n then
    let! there := stack_node index in
    if there =? node then
      let! c := element_stack_remove index in
      let! onode := of_option (ec_node c) in unref_node onode
    else ret tt
  else ret tt.

Definition process_a_in_body (tag : hubbub_tag) : M hubbub_error :=
  let! entry := aa_find_formatting_element ET.A in
  do! (if negb (entry =? NULL) then close_a entry else ret tt) in
  process_presentational_in_body tag ET.A.

Definition process_nobr_in_body (tag : hubbub_tag) : M hubbub_error :=
  do! check_call reconstruct in
  let! nobr := in_scope ET.NOBR false in
  do! (if (nobr : bool) then
         do! check_call (adoption ET.NOBR) in check_call reconstruct
       else ret tt) in
  do! insert_listed tag ET.NOBR in
  ret HUBBUB_OK.

Definition process_0applet_button_marquee_object_in_body (type : element_type) : M hubbub_error :=
  let! there := in_scope type false in
  do! (if (there : bool) then
         do! close_implied_end_tags ET.UNKNOWN in
         do! pop_until (fun otype => type_eqb otype type) in
         clear_active_formatting_list_to_marker
       else ret tt) in
  ret HUBBUB_OK.

Definition process_applet_marquee_object_in_body (tag : hubbub_tag) (type : element_type)
  : M hubbub_error :=
  do! check_call reconstruct in
  do! insert_listed tag type in
  do! set_frameset_ok false in
  ret HUBBUB_OK.

Definition process_button_in_body (tag : hubbub_tag) : M hubbub_error :=
  let! button := in_scope ET.BUTTON false in
  do! (if (button : bool) then assert_ok (process_0applet_button_marquee_object_in_body ET.BUTTON)
       else ret tt) in
  process_applet_marquee_object_in_body tag ET.BUTTON.

(** Insert an element that is not pushed, after which a frameset is too late. *)
Definition insert_void (tag : hubbub_tag) : M hubbub_error :=
  let! err := call (insert_element tag false) in
  do! (if bool_decide (err = HUBBUB_OK) then set_frameset_ok false else ret tt) in
  ret err.

Definition process_hr_in_body (tag : hubbub_tag) : M hubbub_error :=
  do! close_p_if_open in insert_void tag.

Definition process_image_in_body (tag : hubbub_tag) : M hubbub_error :=
  do! check_call reconstruct in
  insert_element (made_tag (chars "img") (tag_attributes tag)) false.

Definition process_textarea_in_body (tag : hubbub_tag) : M hubbub_error :=
  do! upd_ctx (set_tc_strip_leading_lr true) in
  do! set_frameset_ok false in
  parse_generic_rcdata tag true.

Definition process_select_in_body (tag : hubbub_tag) : M hubbub_error :=
  do! check_call reconstruct in
  let! err := call (insert_element tag true) in
  do! (if bool_decide (err = HUBBUB_OK) then set_frameset_ok false else ret tt) in
  ret err.

Definition process_phrasing_in_body (tag : hubbub_tag) : M hubbub_error :=
  do! check_call reconstruct in insert_element tag true.

(** ** In body: end tags *)

Definition process_0body_in_body : M hubbub_error :=
  let! body := in_scope ET.BODY false in
  if negb body then ret HUBBUB_OK else
  let! mode := ctx tc_mode in
  do! (if bool_decide (mode = IN_BODY) then set_mode AFTER_BODY else ret tt) in
  ret HUBBUB_REPROCESS.

Definition process_0container_in_body (type : element_type) : M hubbub_error :=
  let! there := in_scope type false in
  do! (if (there : bool) then
         do! close_implied_end_tags ET.UNKNOWN in
         pop_until (fun otype => type_eqb otype type)
       else ret tt) in
  ret HUBBUB_OK.

Definition process_0form_in_body : M hubbub_error :=
  let! node := ctx tc_form_element in
  do! (if negb (node =? NULL) then unref_node node else ret tt) in
  do! upd_ctx (set_tc_form_element NULL) in
  let! idx := element_in_scope ET.FORM false in
  do! (if (idx =? 0) || (node =? NULL) then ret tt else
       let! there := stack_node idx in
       if negb (there =? node) then ret tt else
       do! close_implied_end_tags ET.UNKNOWN in
       let! c := element_stack_remove idx in
       let! onode := of_option (ec_node c) in unref_node onode) in
  ret HUBBUB_OK.

Definition process_0dd_dt_li_in_body (type : element_type) : M hubbub_error :=
  let! there := in_scope type false in
  do! (if (there : bool) then
         do! close_implied_end_tags type in
         pop_until (fun otype => type_eqb otype type)
       else ret tt) in
  ret HUBBUB_OK.

(** Whether an element of one of the types is in scope. *)
Fixpoint any_in_scope (types : list element_type) : M bool :=
  match types with
  | [] => ret false
  | type :: types =>
      let! there := in_scope type false in if (there : bool) then ret true else any_in_scope types
  end.

Definition process_0h_in_body : M hubbub_error :=
  let! there := any_in_scope [ET.H1; ET.H2; ET.H3; ET.H4; ET.H5; ET.H6] in
  do! (if (there : bool) then
         do! close_implied_end_tags ET.UNKNOWN in pop_until is_heading
       else ret tt) in
  ret HUBBUB_OK.

Definition process_0br_in_body : M hubbub_error :=
  do! check_call reconstruct in insert_element (made_tag (chars "br") []) false.

(** [while (current_node >= node) { pop; if (otype == type) break; }] *)
Fixpoint generic_pop_loop (fuel : nat) (node : Z) (type : element_type) : M unit :=
  match fuel with
  | O => stuck
  | S fuel =>
      let! n := top_index in
      if node <=? n then
        let! otype := pop_unref in
        if type_eqb otype type then ret tt else generic_pop_loop fuel node type
      else ret tt
  end.

Fixpoint generic_loop (node : nat) (type : element_type) : M unit :=
  let! ntype := stack_type (Z.of_nat node) in
  if type_eqb ntype type then
    do! close_implied_end_tags ET.UNKNOWN in
    let! n := top_index in
    generic_pop_loop (S (S (Z.to_nat n))) (Z.of_nat node) type
  else if negb (is_formatting_element ntype) && negb (is_phrasing_element ntype) then ret tt
  else
    match node with
    | O => stuck  (* the index wraps *)
    | S O => ret tt
    | S n => generic_loop n type
    end.
Definition process_0generic_in_body (type : element_type) : M hubbub_error :=
  let! n := top_index in
  do! generic_loop (Z.to_nat n) type in
  ret HUBBUB_OK.

Definition process_opt_in_body (tag : hubbub_tag) : M hubbub_error :=
  let! there := in_scope ET.OPTION false in
  do! (if (there : bool) then assert_ok (process_0generic_in_body ET.OPTION) else ret tt) in
  do! check_call reconstruct in
  insert_element tag true.

(** ** Characters and isindex *)

Definition process_character (data : bytes) : M hubbub_error :=
  let! lr_flag := ctx tc_strip_leading_lr in
  do! check_call reconstruct in
  let! strip_leading_lr := ctx tc_strip_leading_lr in
  let! dummy :=
    (if (strip_leading_lr : bool) then
       let! c := of_option (znth data 0) in
       do! upd_ctx (set_tc_strip_leading_lr false) in
       ret (if c =? 10 then zdrop 1 data else data)
     else ret data) in
  do! (if negb (zlen dummy =? 0) then
         let! err := call (append_text dummy) in
         match err with
         | HUBBUB_OK => ret tt
         | _ => do! upd_ctx (set_tc_strip_leading_lr lr_flag) in return_early err
         end
       else ret tt) in
  let! frameset_ok := ctx tc_frameset_ok in
  do! (if frameset_ok && negb (leading_whitespace dummy =? zlen dummy)
       then set_frameset_ok false else ret tt) in
  ret HUBBUB_OK.

(** The attributes action and prompt of an isindex tag, the last of each, and
    the others but name; a name is compared as far as it goes. *)
Fixpoint isindex_attributes (attrs : list hubbub_attribute)
    (action prompt : option hubbub_attribute)
  : option hubbub_attribute * option hubbub_attribute * list hubbub_attribute :=
  match attrs with
  | [] => (action, prompt, [])
  | attr :: attrs =>
      let named s := strncmp_eq (length (attr_name attr)) (attr_name attr) (chars s ++ [0]) in
      if named "action" then isindex_attributes attrs (Some attr) prompt
      else if named "prompt" then isindex_attributes attrs action (Some attr)
      else if named "name" then isindex_attributes attrs action prompt
      else let '(action, prompt, rest) := isindex_attributes attrs action prompt in
           (action, prompt, attr :: rest)
  end.

Definition PROMPT : bytes := chars "This is a searchable index. Insert your search keywords here: ".

Definition process_isindex_in_body (tag : hubbub_tag) : M hubbub_error :=
  let! form := ctx tc_form_element in
  if negb (form =? NULL) then ret HUBBUB_OK else
  let! (action, prompt, attrs) :=
    (match tag_attributes tag with
     | [] => ret (None, None, [])
     | l =>
         let! ok := alloc alloc_ok ((zlen l + 1) * SIZEOF_HUBBUB_ATTRIBUTE) in
         if negb ok then return_early HUBBUB_NOMEM else
         let '(action, prompt, attrs) := isindex_attributes l None None in
         ret (action, prompt,
              attrs ++ [{| attr_ns := HUBBUB_NS_HTML; attr_name := chars "name";
                           attr_value := chars "isindex" |}])
     end) in
  do! check_call (process_form_in_body (made_tag (chars "form") (option_list action))) in
  do! check_call (process_hr_in_body (made_tag (chars "hr") [])) in
  do! check_call (process_container_in_body (made_tag (chars "p") [])) in
  do! check_call (process_phrasing_in_body (made_tag (chars "label") [])) in
  do! check_call (process_character (match prompt with Some attr => attr_value attr | None => PROMPT end)) in
  do! check_call reconstruct in
  do! check_call (insert_element (made_tag (chars "input") attrs) false) in
  do! set_frameset_ok false in
  do! assert_ok (process_0generic_in_body ET.LABEL) in
  do! check_call process_0p_in_body in
  do! check_call (process_hr_in_body (made_tag (chars "hr") [])) in
  process_0container_in_body ET.FORM.

(** ** In body *)

Definition process_select_start (tag : hubbub_tag) : M hubbub_error :=
  do! check_call (process_select_in_body tag) in
  let! mode := ctx tc_mode in
  do! (match mode with
       | IN_BODY => set_mode IN_SELECT
       | IN_TABLE | IN_CAPTION | IN_COLUMN_GROUP | IN_TABLE_BODY | IN_ROW | IN_CELL =>
           set_mode IN_SELECT_IN_TABLE
       | _ => ret tt
       end) in
  ret HUBBUB_OK.

Definition process_foreign_start (tag : hubbub_tag) (type : element_type) : M hubbub_error :=
  do! check_call reconstruct in
  let adjusted := adjust_foreign_attributes tag in
  let adjusted :=
    if type_eqb type ET.SVG then set_tag_ns HUBBUB_NS_SVG (adjust_svg_attributes adjusted)
    else set_tag_ns HUBBUB_NS_MATHML (adjust_mathml_attributes adjusted) in
  if tag_self_closing tag then insert_element adjusted false
  else
    let! err := call (insert_element adjusted true) in
    do! (if bool_decide (err = HUBBUB_OK) then
           let! mode := ctx tc_mode in
           do! upd_ctx (set_tc_second_mode mode) in set_mode IN_FOREIGN_CONTENT
         else ret tt) in
    ret err.

(** process_start_tag; [in_head] is handle_in_head. *)
Definition process_start_tag (in_head : hubbub_token -> M hubbub_error) (tag : hubbub_tag)
  : M hubbub_error :=
  let type := element_type_from_name (tag_name tag) in
  if type_eqb type ET.HTML then process_html_in_body tag
  else if one_of type [ET.BASE; ET.COMMAND; ET.LINK; ET.META; ET.NOFRAMES; ET.SCRIPT; ET.STYLE; ET.TITLE]
  then in_head (TokenStartTag tag)
  else if type_eqb type ET.BODY then process_body_in_body tag
  else if type_eqb type ET.FRAMESET then process_frameset_in_body tag
  else if one_of type [ET.ADDRESS; ET.ARTICLE; ET.ASIDE; ET.BLOCKQUOTE; ET.CENTER; ET.DATAGRID;
                       ET.DETAILS; ET.DIALOG; ET.DIR; ET.DIV; ET.DL; ET.FIELDSET; ET.FIGCAPTION;
                       ET.FIGURE; ET.FOOTER; ET.HEADER; ET.MAIN; ET.MENU; ET.NAV; ET.OL; ET.P;
                       ET.SECTION; ET.SUMMARY; ET.UL]
  then process_container_in_body tag
  else if is_heading type then process_hN_in_body tag
  else if one_of type [ET.PRE; ET.LISTING] then
    let! err := call (process_container_in_body tag) in
    do! (if bool_decide (err = HUBBUB_OK)
         then do! upd_ctx (set_tc_strip_leading_lr true) in set_frameset_ok false else ret tt) in
    ret err
  else if type_eqb type ET.FORM then process_form_in_body tag
  else if one_of type [ET.DD; ET.DT; ET.LI] then process_dd_dt_li_in_body tag type
  else if type_eqb type ET.PLAINTEXT then process_plaintext_in_body tag
  else if type_eqb type ET.A then process_a_in_body tag
  else if one_of type [ET.B; ET.BIG; ET.CODE; ET.EM; ET.FONT; ET.I; ET.S; ET.SMALL; ET.STRIKE;
                       ET.STRONG; ET.TT; ET.U]
  then process_presentational_in_body tag type
  else if type_eqb type ET.NOBR then process_nobr_in_body tag
  else if type_eqb type ET.BUTTON then process_button_in_body tag
  else if one_of type [ET.APPLET; ET.MARQUEE; ET.OBJECT]
  then process_applet_marquee_object_in_body tag type
  else if type_eqb type ET.XMP then
    do! check_call reconstruct in
    do! set_frameset_ok false in parse_generic_rcdata tag false
  else if type_eqb type ET.TABLE then
    let! err := call (process_container_in_body tag) in
    do! (if bool_decide (err = HUBBUB_OK) then
           do! set_frameset_ok false in
           let! t := current_table in
           do! upd_cell t (set_ec_tainted (Some false)) in set_mode IN_TABLE
         else ret tt) in
    ret err
  else if one_of type [ET.AREA; ET.BASEFONT; ET.BGSOUND; ET.BR; ET.EMBED; ET.IMG; ET.INPUT;
                       ET.PARAM; ET.SPACER; ET.WBR]
  then do! check_call reconstruct in insert_void tag
  else if type_eqb type ET.HR then process_hr_in_body tag
  else if type_eqb type ET.IMAGE then process_image_in_body tag
  else if type_eqb type ET.ISINDEX then process_isindex_in_body tag
  else if type_eqb type ET.TEXTAREA then process_textarea_in_body tag
  else
    let! enable_scripting := ctx tc_enable_scripting in
    if one_of type [ET.IFRAME; ET.NOEMBED; ET.NOFRAMES] || (enable_scripting && type_eqb type ET.NOSCRIPT)
    then
      do! (if type_eqb type ET.IFRAME then set_frameset_ok false else ret tt) in
      parse_generic_rcdata tag false
    else if type_eqb type ET.SELECT then process_select_start tag
    else if one_of type [ET.OPTGROUP; ET.OPTION] then process_opt_in_body tag
    else if one_of type [ET.RP; ET.RT] then ret HUBBUB_OK
    else if one_of type [ET.MATH; ET.SVG] then process_foreign_start tag type
    else if one_of type [ET.CAPTION; ET.COL; ET.COLGROUP; ET.FRAME; ET.HEAD; ET.TBODY; ET.TD;
                         ET.TFOOT; ET.TH; ET.THEAD; ET.TR]
    then ret HUBBUB_OK
    else process_phrasing_in_body tag.

Definition process_end_tag (tag : hubbub_tag) : M hubbub_error :=
  let type := element_type_from_name (tag_name tag) in
  if type_eqb type ET.BODY then
    let! err := call process_0body_in_body in
    ret (match err with HUBBUB_REPROCESS => HUBBUB_OK | _ => err end)
  else if type_eqb type ET.HTML then process_0body_in_body
  else if one_of type [ET.ADDRESS; ET.ARTICLE; ET.ASIDE; ET.BLOCKQUOTE; ET.CENTER; ET.DETAILS;
                       ET.DIALOG; ET.DIR; ET.DATAGRID; ET.DIV; ET.DL; ET.FIELDSET; ET.FIGCAPTION;
                       ET.FIGURE; ET.FOOTER; ET.HEADER; ET.LISTING; ET.MAIN; ET.MENU; ET.NAV;
                       ET.OL; ET.PRE; ET.SECTION; ET.SUMMARY; ET.UL]
  then process_0container_in_body type
  else if type_eqb type ET.FORM then process_0form_in_body
  else if type_eqb type ET.P then process_0p_in_body
  else if one_of type [ET.DD; ET.DT; ET.LI] then process_0dd_dt_li_in_body type
  else if is_heading type then process_0h_in_body
  else if one_of type [ET.A; ET.B; ET.BIG; ET.CODE; ET.EM; ET.FONT; ET.I; ET.NOBR; ET.S; ET.SMALL;
                       ET.STRIKE; ET.STRONG; ET.TT; ET.U]
  then adoption type
  else if one_of type [ET.APPLET; ET.BUTTON; ET.MARQUEE; ET.OBJECT]
  then process_0applet_button_marquee_object_in_body type
  else if type_eqb type ET.BR then process_0br_in_body
  else
    let! enable_scripting := ctx tc_enable_scripting in
    if one_of type [ET.AREA; ET.BASEFONT; ET.BGSOUND; ET.EMBED; ET.HR; ET.IFRAME; ET.IMAGE; ET.IMG;
                    ET.INPUT; ET.ISINDEX; ET.NOEMBED; ET.NOFRAMES; ET.PARAM; ET.SELECT; ET.SPACER;
                    ET.TABLE; ET.TEXTAREA; ET.WBR] || (enable_scripting && type_eqb type ET.NOSCRIPT)
    then ret HUBBUB_OK
    else process_0generic_in_body type.

(** handle_in_body and handle_in_head call each other for single tags, which
    the other then handles itself. *)
Fixpoint in_body (fuel : nat) (token : hubbub_token) : M hubbub_error :=
  match fuel with
  | O => stuck
  | S fuel =>
      do! (match token with
           | TokenCharacter _ => ret tt
           | _ => upd_ctx (set_tc_strip_leading_lr false)
           end) in
      match token with
      | TokenCharacter data => process_character data
      | TokenComment data => process_comment_append data top_node
      | TokenDoctype _ => ret HUBBUB_OK
      | TokenStartTag tag => process_start_tag (handle_in_head (in_body fuel)) tag
      | TokenEndTag tag => process_end_tag tag
      | TokenEOF => ret HUBBUB_OK
      end
  end.
Definition handle_in_body : hubbub_token -> M hubbub_error := in_body 2.
End TreeBody.
