(* ===== verification/TreeModes.v ===== *)
(** * TreeModes: the other insertion modes
    (libhubbub/src/treebuilder/initial.c, before_html.c, before_head.c,
    in_head_noscript.c, after_head.c, in_table.c, in_caption.c, in_column_group.c,
    in_table_body.c, in_row.c, in_cell.c, in_select.c, in_select_in_table.c,
    after_body.c, in_frameset.c, after_frameset.c, after_after_body.c,
    after_after_frameset.c and generic_rcdata.c). *)
From Stdlib Require Ascii String.
From S2P Require Import Prelude.
From S2P Require Import Errors.
From S2P Require Import Detect.
From S2P Require Import Tokens.
From S2P Require Import TokeniserState.
From S2P Require Import TokeniserMonad.
From S2P Require Import ElementType.
From S2P Require Import TreeState.
From S2P Require Import TreeStack.
From S2P Require Import TreeAdoption.
From S2P Require Import TreeForeign.
From S2P Require Import TreeBody.
From stdpp Require Import gmap.
Import String.StringSyntax.
Local Open Scope string_scope.
Local Open Scope Z_scope.

(** ** Quirks *)

Definition public_doctypes : list bytes := map chars
  ["+//Silmaril//dtd html Pro v0r11 19970101//";
   "-//AdvaSoft Ltd//DTD HTML 3.0 asWedit + extensions//";
   "-//AS//DTD HTML 3.0 asWedit + extensions//";
   "-//IETF//DTD HTML 2.0 Level 1//";
   "-//IETF//DTD HTML 2.0 Level 2//";
   "-//IETF//DTD HTML 2.0 Strict Level 1//";
   "-//IETF//DTD HTML 2.0 Strict Level 2//";
   "-//IETF//DTD HTML 2.0 Strict//";
   "-//IETF//DTD HTML 2.0//";
   "-//IETF//DTD HTML 2.1E//";
   "-//IETF//DTD HTML 3.0//";
   "-//IETF//DTD HTML 3.2 Final//";
   "-//IETF//DTD HTML 3.2//";
   "-//IETF//DTD HTML 3//";
   "-//IETF//DTD HTML Level 0//";
   "-//IETF//DTD HTML Level 1//";
   "-//IETF//DTD HTML Level 2//";
   "-//IETF//DTD HTML Level 3//";
   "-//IETF//DTD HTML Strict Level 0//";
   "-//IETF//DTD HTML Strict Level 1//";
   "-//IETF//DTD HTML Strict Level 2//";
   "-//IETF//DTD HTML Strict Level 3//";
   "-//IETF//DTD HTML Strict//";
   "-//IETF//DTD HTML//";
   "-//Metrius//DTD Metrius Presentational//";
   "-//Microsoft//DTD Internet Explorer 2.0 HTML Strict//";
   "-//Microsoft//DTD Internet Explorer 2.0 HTML//";
   "-//Microsoft//DTD Internet Explorer 2.0 Tables//";
   "-//Microsoft//DTD Internet Explorer 3.0 HTML Strict//";
   "-//Microsoft//DTD Internet Explorer 3.0 HTML//";
   "-//Microsoft//DTD Internet Explorer 3.0 Tables//";
   "-//Netscape Comm. Corp.//DTD HTML//";
   "-//Netscape Comm. Corp.//DTD Strict HTML//";
   "-//O'Reilly and Associates//DTD HTML 2.0//";
   "-//O'Reilly and Associates//DTD HTML Extended 1.0//";
   "-//O'Reilly and Associates//DTD HTML Extended Relaxed 1.0//";
   "-//SoftQuad Software//DTD HoTMetaL PRO 6.0::19990601::extensions to HTML 4.0//";
   "-//SoftQuad//DTD HoTMetaL PRO 4.0::19971010::extensions to HTML 4.0//";
   "-//Spyglass//DTD HTML 2.0 Extended//";
   "-//SQ//DTD HTML 2.0 HoTMetaL + extensions//";
   "-//Sun Microsystems Corp.//DTD HotJava HTML//";
   "-//Sun Microsystems Corp.//DTD HotJava Strict HTML//";
   "-//W3C//DTD HTML 3 1995-03-24//";
   "-//W3C//DTD HTML 3.2 Draft//";
   "-//W3C//DTD HTML 3.2 Final//";
   "-//W3C//DTD HTML 3.2//";
   "-//W3C//DTD HTML 3.2S Draft//";
   "-//W3C//DTD HTML 4.0 Frameset//";
   "-//W3C//DTD HTML 4.0 Transitional//";
   "-//W3C//DTD HTML Experimental 19960712//";
   "-//W3C//DTD HTML Experimental 970421//";
   "-//W3C//DTD W3 HTML//";
   "-//W3O//DTD W3 HTML 3.0//"].

Definition upper (c : Z) : Z := if (97 <=? c) && (c <=? 122) then c - 0x20 else c.
Definition hubbub_string_match_ci (a b : bytes) : bool :=
  if negb (zlen a =? zlen b) then false else bytes_eqb (map upper a) (map upper b).

Definition starts_with (a b : bytes) : bool :=
  if zlen a <? zlen b then false else hubbub_string_match_ci (ztake (zlen b) a) b.

Definition lookup_full_quirks (cdoc : hubbub_doctype) : bool :=
  let same := hubbub_string_match_ci in
  let public_id := doctype_public_id cdoc in
  let system_id := doctype_system_id cdoc in
  if negb (same (doctype_name cdoc) (chars "HTML")) then true
  else if doctype_public_missing cdoc then false
  else if existsb (starts_with public_id) public_doctypes then true
  else if same public_id (chars "-//W3O//DTD W3 HTML Strict 3.0//EN//") ||
          same public_id (chars "-/W3C/DTD HTML 4.0 Transitional/EN") ||
          same public_id (chars "HTML") ||
          same system_id (chars "http://www.ibm.com/data/dtd/v11/ibmxhtml1-transitional.dtd")
  then true
  else doctype_system_missing cdoc &&
       (starts_with public_id (chars "-//W3C//DTD HTML 4.01 Frameset//") ||
        starts_with public_id (chars "-//W3C//DTD HTML 4.01 Transitional//")).

Definition lookup_limited_quirks (cdoc : hubbub_doctype) : bool :=
  let public_id := doctype_public_id cdoc in
  if starts_with public_id (chars "-//W3C//DTD XHTML 1.0 Frameset//") ||
     starts_with public_id (chars "-//W3C//DTD XHTML 1.0 Transitional//")
  then true
  else negb (doctype_system_missing cdoc) &&
       (starts_with public_id (chars "-//W3C//DTD HTML 4.01 Frameset//") ||
        starts_with public_id (chars "-//W3C//DTD HTML 4.01 Transitional//")).

(** The quirks mode that a doctype sets, if any. *)
Definition doctype_quirks (cdoc : hubbub_doctype) : option hubbub_quirks_mode :=
  if doctype_force_quirks cdoc || lookup_full_quirks cdoc then Some HUBBUB_QUIRKS_MODE_FULL
  else if lookup_limited_quirks cdoc then Some HUBBUB_QUIRKS_MODE_LIMITED
  else None.

Section TreeModes.
Context {W : Type} `{!TreeHandler W}.
Context (malloc : nat -> gmap Z formatting_list_entry -> option Z).
Context (alloc_ok : nat -> Z -> bool).
Context (mibenum_from_name : bytes -> Z) (mibenum_to_name : Z -> option bytes).
Local Abbreviation T := (hubbub_treebuilder W).
Local Abbreviation M := (comp (hubbub_treebuilder W)).
Local Abbreviation insert_element := (insert_element alloc_ok).
Local Abbreviation handle_in_body :=
  (handle_in_body malloc alloc_ok mibenum_from_name mibenum_to_name).
Local Abbreviation handle_in_head :=
  (handle_in_head alloc_ok mibenum_from_name mibenum_to_name handle_in_body).

Definition type_of_tag (tag : hubbub_tag) : element_type := element_type_from_name (tag_name tag).
Definition is_reprocess (err : hubbub_error) : bool := bool_decide (err = HUBBUB_REPROCESS).
Definition is_ok (err : hubbub_error) : bool := bool_decide (err = HUBBUB_OK).
Definition when (b : bool) (m : M unit) : M unit := if b then m else ret tt.
Definition document : M Z := ctx tc_document.

(** ** Before the head *)

Definition set_quirks_mode (mode : hubbub_quirks_mode) : M unit :=
  handler_unit (th_set_quirks_mode mode).

Definition handle_initial (token : hubbub_token) : M hubbub_error :=
  let! err :=
    match token with
    | TokenCharacter data =>
        let! err := call (process_characters_expect_whitespace data false) in
        do! when (is_reprocess err)
              (do! set_quirks_mode HUBBUB_QUIRKS_MODE_FULL in set_mode BEFORE_HTML) in
        ret err
    | TokenComment data => call (process_comment_append data document)
    | TokenDoctype cdoc =>
        let! (err, doctype) := handler_node (th_create_doctype cdoc) in
        do! check err in
        let! d := document in
        let! (err, appended) := handler_node (th_append_child d doctype) in
        do! unref_node doctype in
        do! check err in
        do! unref_node appended in
        do! (match doctype_quirks cdoc with
             | Some mode => set_quirks_mode mode
             | None => ret tt
             end) in
        do! set_mode BEFORE_HTML in
        ret HUBBUB_OK
    | TokenStartTag _ | TokenEndTag _ | TokenEOF =>
        do! set_quirks_mode HUBBUB_QUIRKS_MODE_FULL in ret HUBBUB_REPROCESS
    end in
  do! when (is_reprocess err) (set_mode BEFORE_HTML) in
  ret err.

(** Appending the html element to the document: the first cell of the stack. *)
Definition insert_html (tag : hubbub_tag) : M unit :=
  let! (e, html) := handler_node (th_create_element tag) in
  do! check e in
  let! d := document in
  let! (e, appended) := handler_node (th_append_child d html) in
  do! unref_node html in
  do! check e in
  do! upd_cell 0 (fun c => set_ec_node (Some appended) (set_ec_type (Some ET.HTML) c)) in
  do! upd_ctx (set_tc_current_node 0) in
  set_mode BEFORE_HEAD.

Definition handle_before_html (token : hubbub_token) : M hubbub_error :=
  let! (err, handled) :=
    match token with
    | TokenDoctype _ => ret (HUBBUB_OK, None)
    | TokenComment data =>
        let! err := call (process_comment_append data document) in ret (err, None)
    | TokenCharacter data =>
        let! err := call (process_characters_expect_whitespace data false) in ret (err, None)
    | TokenStartTag tag =>
        ret (if type_eqb (type_of_tag tag) ET.HTML then (HUBBUB_OK, Some tag)
             else (HUBBUB_REPROCESS, None))
    | TokenEndTag _ | TokenEOF => ret (HUBBUB_REPROCESS, None)
    end in
  do! (match handled with
       | Some tag => insert_html tag
       | None => when (is_reprocess err) (insert_html (made_tag (chars "html") []))
       end) in
  ret err.

Definition insert_head (tag : hubbub_tag) : M unit :=
  do! check_call (insert_element tag true) in
  let! node := top_node in
  do! ref_node node in
  let! node := top_node in
  do! upd_ctx (set_tc_head_element node) in
  set_mode IN_HEAD.

Definition handle_before_head (token : hubbub_token) : M hubbub_error :=
  let! (err, handled) :=
    match token with
    | TokenCharacter data =>
        let! err := call (process_characters_expect_whitespace data false) in ret (err, None)
    | TokenComment data =>
        let! err := call (process_comment_append data top_node) in ret (err, None)
    | TokenDoctype _ => ret (HUBBUB_OK, None)
    | TokenStartTag tag =>
        let type := type_of_tag tag in
        if type_eqb type ET.HTML then let! err := call (handle_in_body token) in ret (err, None)
        else if type_eqb type ET.HEAD then ret (HUBBUB_OK, Some tag)
        else ret (HUBBUB_REPROCESS, None)
    | TokenEndTag tag =>
        ret (if one_of (type_of_tag tag) [ET.HTML; ET.BODY; ET.HEAD; ET.BR]
             then HUBBUB_REPROCESS else HUBBUB_OK, None)
    | TokenEOF => ret (HUBBUB_REPROCESS, None)
    end in
  do! (if is_reprocess err then insert_head (made_tag (chars "head") [])
       else match handled with Some tag => insert_head tag | None => ret tt end) in
  ret err.

(** ** In and after the head *)

Definition handle_in_head_noscript (token : hubbub_token) : M hubbub_error :=
  let! (err, handled) :=
    match token with
    | TokenCharacter data =>
        let! err := call (process_characters_expect_whitespace data true) in ret (err, false)
    | TokenComment _ => let! err := call (handle_in_head token) in ret (err, false)
    | TokenDoctype _ => ret (HUBBUB_OK, false)
    | TokenStartTag tag =>
        let type := type_of_tag tag in
        if type_eqb type ET.HTML then let! err := call (handle_in_body token) in ret (err, false)
        else if type_eqb type ET.NOSCRIPT then ret (HUBBUB_OK, true)
        else if one_of type [ET.LINK; ET.META; ET.NOFRAMES; ET.STYLE]
        then let! err := call (handle_in_head token) in ret (err, false)
        else if one_of type [ET.HEAD; ET.NOSCRIPT] then ret (HUBBUB_OK, false)
        else ret (HUBBUB_REPROCESS, false)
    | TokenEndTag tag =>
        let type := type_of_tag tag in
        ret (if type_eqb type ET.NOSCRIPT then (HUBBUB_OK, true)
             else if type_eqb type ET.BR then (HUBBUB_REPROCESS, false)
             else (HUBBUB_OK, false))
    | TokenEOF => ret (HUBBUB_REPROCESS, false)
    end in
  do! when (handled || is_reprocess err) (let! _ := pop_unref in set_mode IN_HEAD) in
  ret err.

Definition insert_body (tag : hubbub_tag) : M unit :=
  do! check_call (insert_element tag true) in set_mode IN_BODY.

(** A start tag that belongs in the head: the head is opened again for it. *)
Definition late_head (token : hubbub_token) : M hubbub_error :=
  let! head := ctx tc_head_element in
  do! check_call (element_stack_push alloc_ok HUBBUB_NS_HTML ET.HEAD head) in
  let! index := top_index in
  let! err := call (handle_in_head token) in
  let! _ := element_stack_remove index in
  ret err.

Definition handle_after_head (token : hubbub_token) : M hubbub_error :=
  let! (err, handled) :=
    match token with
    | TokenCharacter data =>
        let! err := call (process_characters_expect_whitespace data true) in ret (err, None)
    | TokenComment data =>
        let! err := call (process_comment_append data top_node) in ret (err, None)
    | TokenDoctype _ => ret (HUBBUB_OK, None)
    | TokenStartTag tag =>
        let type := type_of_tag tag in
        if type_eqb type ET.HTML then let! err := call (handle_in_body token) in ret (err, None)
        else if type_eqb type ET.BODY then ret (HUBBUB_OK, Some tag)
        else if type_eqb type ET.FRAMESET then
          let! err := call (insert_element tag true) in
          do! when (is_ok err) (set_mode IN_FRAMESET) in
          ret (err, None)
        else if one_of type [ET.BASE; ET.LINK; ET.META; ET.NOFRAMES; ET.SCRIPT; ET.STYLE; ET.TITLE]
        then let! err := late_head token in ret (err, None)
        else if type_eqb type ET.HEAD then ret (HUBBUB_OK, None)
        else ret (HUBBUB_REPROCESS, None)
    | TokenEndTag tag =>
        ret (if one_of (type_of_tag tag) [ET.HTML; ET.BODY; ET.BR]
             then HUBBUB_REPROCESS else HUBBUB_OK, None)
    | TokenEOF => ret (HUBBUB_REPROCESS, None)
    end in
  do! (if is_reprocess err then insert_body (made_tag (chars "body") [])
       else match handled with Some tag => insert_body tag | None => ret tt end) in
  ret err.

(** ** Tables *)

Definition clear_stack_table_context : M unit :=
  pop_while (fun type => negb (type_eqb type ET.TABLE) && negb (type_eqb type ET.HTML)).

(** The tag is inserted once for every attribute whose value is "hidden". *)
Fixpoint process_input_loop (attrs : list hubbub_attribute) (tag : hubbub_tag) (err : hubbub_error)
  : M hubbub_error :=
  match attrs with
  | [] => ret err
  | attr :: attrs =>
      if negb (hubbub_string_match_ci (attr_value attr) (chars "hidden"))
      then process_input_loop attrs tag err
      else let! err := call (insert_element tag true) in process_input_loop attrs tag err
  end.
Definition process_input_in_table (tag : hubbub_tag) : M hubbub_error :=
  process_input_loop (tag_attributes tag) tag HUBBUB_REPROCESS.

Definition insert_caption (tag : hubbub_tag) : M hubbub_error :=
  do! clear_stack_table_context in
  let! node := top_node in
  do! ref_node node in
  let! n := top_index in
  let! err := call (formatting_list_append malloc (tag_ns tag) (type_of_tag tag) node n) in
  match err with
  | HUBBUB_OK =>
      let! err := call (insert_element tag true) in
      match err with
      | HUBBUB_OK => do! set_mode IN_CAPTION in ret HUBBUB_OK
      | _ => let! last := ctx tc_formatting_list_end in do! remove_unref last in return_early err
      end
  | _ => let! node := top_node in do! unref_node node in return_early err
  end.

(** A start tag in a table that opens a group: its own, or one made up, with
    which the token is handled again. *)
Definition insert_group (tag : hubbub_tag) (own : bool) (name : bytes) (mode : insertion_mode)
  : M hubbub_error :=
  do! clear_stack_table_context in
  do! check_call (insert_element
    (if own then tag
     else {| tag_ns := tag_ns tag; tag_name := name; tag_attributes := [];
             tag_self_closing := tag_self_closing tag |}) true) in
  do! set_mode mode in
  ret (if own then HUBBUB_OK else HUBBUB_REPROCESS).

Definition close_table : M unit :=
  do! call (element_stack_pop_until ET.TABLE) in reset_insertion_mode.

(** Whether the current table is tainted. *)
Definition table_tainted : M bool := let! t := current_table in stack_tainted t.

Definition handle_in_table (token : hubbub_token) : M hubbub_error :=
  let! (err, handled) :=
    match token with
    | TokenCharacter data =>
        let! tainted := table_tainted in
        if (tainted : bool) then ret (HUBBUB_OK, false) else
        let! err := call (process_characters_expect_whitespace data true) in
        ret (err, is_ok err)
    | TokenComment data =>
        let! err := call (process_comment_append data top_node) in ret (err, true)
    | TokenDoctype _ => ret (HUBBUB_OK, true)
    | TokenStartTag tag =>
        let type := type_of_tag tag in
        let! tainted := table_tainted in
        if type_eqb type ET.CAPTION then let! err := insert_caption tag in ret (err, true)
        else if one_of type [ET.COLGROUP; ET.COL] then
          let! err := insert_group tag (type_eqb type ET.COLGROUP) (chars "colgroup") IN_COLUMN_GROUP in
          ret (err, true)
        else if one_of type [ET.TBODY; ET.TFOOT; ET.THEAD; ET.TD; ET.TH; ET.TR] then
          let! err := insert_group tag (one_of type [ET.TBODY; ET.TFOOT; ET.THEAD]) (chars "tbody")
                        IN_TABLE_BODY in
          ret (err, true)
        else if type_eqb type ET.TABLE then do! close_table in ret (HUBBUB_REPROCESS, true)
        else if negb tainted && one_of type [ET.STYLE; ET.SCRIPT]
        then let! err := call (handle_in_head token) in ret (err, true)
        else if negb tainted && type_eqb type ET.INPUT
        then let! err := call (process_input_in_table tag) in ret (err, is_ok err)
        else ret (HUBBUB_OK, false)
    | TokenEndTag tag =>
        let type := type_of_tag tag in
        if type_eqb type ET.TABLE then do! close_table in ret (HUBBUB_OK, true)
        else ret (HUBBUB_OK,
                  one_of type [ET.BODY; ET.CAPTION; ET.COL; ET.COLGROUP; ET.HTML; ET.TBODY; ET.TD;
                               ET.TFOOT; ET.TH; ET.THEAD; ET.TR])
    | TokenEOF => ret (HUBBUB_OK, true)
    end in
  if (handled : bool) then ret err else
  do! upd_ctx (set_tc_in_table_foster true) in
  (* the token as it is now *)
  let! token := gets tb_token in
  let! err := call (handle_in_body token) in
  do! upd_ctx (set_tc_in_table_foster false) in
  ret err.

(** [while (otype != type) pop], from UNKNOWN, after the implied end tags. *)
Definition close_element (type : element_type) (mode : insertion_mode) : M unit :=
  do! close_implied_end_tags ET.UNKNOWN in
  do! pop_until (fun otype => type_eqb otype type) in
  do! clear_active_formatting_list_to_marker in
  set_mode mode.

Definition handle_in_caption (token : hubbub_token) : M hubbub_error :=
  let! (err, handled) :=
    match token with
    | TokenStartTag tag =>
        if one_of (type_of_tag tag) [ET.CAPTION; ET.COL; ET.COLGROUP; ET.TBODY; ET.TD; ET.TFOOT;
                                     ET.TH; ET.THEAD; ET.TR]
        then ret (HUBBUB_REPROCESS, false)
        else let! err := call (handle_in_body token) in ret (err, false)
    | TokenEndTag tag =>
        let type := type_of_tag tag in
        if type_eqb type ET.CAPTION then ret (HUBBUB_OK, true)
        else if type_eqb type ET.TABLE then ret (HUBBUB_REPROCESS, false)
        else if one_of type [ET.BODY; ET.COL; ET.COLGROUP; ET.HTML; ET.TBODY; ET.TD; ET.TFOOT;
                             ET.TH; ET.THEAD; ET.TR]
        then ret (HUBBUB_OK, false)
        else let! err := call (handle_in_body token) in ret (err, false)
    | TokenCharacter _ | TokenComment _ | TokenDoctype _ | TokenEOF =>
        let! err := call (handle_in_body token) in ret (err, false)
    end in
  do! when (handled || is_reprocess err) (close_element ET.CAPTION IN_TABLE) in
  ret err.

Definition handle_in_column_group (token : hubbub_token) : M hubbub_error :=
  let! (err, handled) :=
    match token with
    | TokenCharacter data =>
        let! err := call (process_characters_expect_whitespace data true) in ret (err, false)
    | TokenComment data =>
        let! err := call (process_comment_append data top_node) in ret (err, false)
    | TokenDoctype _ => ret (HUBBUB_OK, false)
    | TokenStartTag tag =>
        let type := type_of_tag tag in
        if type_eqb type ET.HTML then let! err := call (handle_in_body token) in ret (err, false)
        else if type_eqb type ET.COL
        then let! err := call (insert_element tag false) in ret (err, false)
        else ret (HUBBUB_REPROCESS, false)
    | TokenEndTag tag =>
        let type := type_of_tag tag in
        ret (if type_eqb type ET.COLGROUP then (HUBBUB_OK, true)
             else if type_eqb type ET.COL then (HUBBUB_OK, false)
             else (HUBBUB_REPROCESS, false))
    | TokenEOF => ret (HUBBUB_REPROCESS, false)
    end in
  do! when (handled || is_reprocess err) (let! _ := pop_unref in set_mode IN_TABLE) in
  ret err.

(** table_clear_stack of in_table_body.c and the pop that follows it. *)
Definition clear_to_body : M unit :=
  pop_while (fun type => negb (one_of type [ET.TBODY; ET.TFOOT; ET.THEAD; ET.HTML])).
Definition close_body : M unit :=
  do! clear_to_body in
  let! _ := pop_unref in
  set_mode IN_TABLE.

(** [element_in_scope(treebuilder, type, true)] of one of the types. *)
Fixpoint any_in_table_scope (types : list element_type) : M bool :=
  match types with
  | [] => ret false
  | type :: types =>
      let! there := in_scope type true in
      if (there : bool) then ret true else any_in_table_scope types
  end.

Definition table_sub_start_or_table_end : M hubbub_error :=
  let! there := any_in_table_scope [ET.TBODY; ET.THEAD; ET.TFOOT] in
  if (there : bool) then do! close_body in ret HUBBUB_REPROCESS else ret HUBBUB_OK.

(** Insert an element that pushes, and go to [mode] when that has worked. *)
Definition insert_and_go (tag : hubbub_tag) (mode : insertion_mode) : M hubbub_error :=
  let! err := call (insert_element tag true) in
  do! when (is_ok err) (set_mode mode) in
  ret err.

Definition handle_in_table_body (token : hubbub_token) : M hubbub_error :=
  match token with
  | TokenStartTag tag =>
      let type := type_of_tag tag in
      if type_eqb type ET.TR then do! clear_to_body in insert_and_go tag IN_ROW
      else if one_of type [ET.TH; ET.TD] then
        do! clear_to_body in
        let! err := insert_and_go (made_tag (chars "tr") []) IN_ROW in
        ret (if is_ok err then HUBBUB_REPROCESS else err)
      else if one_of type [ET.CAPTION; ET.COL; ET.COLGROUP; ET.TBODY; ET.TFOOT; ET.THEAD]
      then table_sub_start_or_table_end
      else handle_in_table token
  | TokenEndTag tag =>
      let type := type_of_tag tag in
      if one_of type [ET.TBODY; ET.TFOOT; ET.THEAD] then
        let! there := in_scope type true in
        do! when there close_body in
        ret HUBBUB_OK
      else if type_eqb type ET.TABLE then table_sub_start_or_table_end
      else if one_of type [ET.BODY; ET.CAPTION; ET.COL; ET.COLGROUP; ET.HTML; ET.TD; ET.TH; ET.TR]
      then ret HUBBUB_OK
      else handle_in_table token
  | TokenCharacter _ | TokenComment _ | TokenDoctype _ | TokenEOF => handle_in_table token
  end.

(** table_clear_stack of in_row.c *)
Definition clear_to_row : M unit :=
  pop_while (fun type => negb (type_eqb type ET.TR) && negb (type_eqb type ET.HTML)).

Definition act_as_if_end_tag_tr : M hubbub_error :=
  do! clear_to_row in
  let! type := current_node in
  do! when (negb (type_eqb type ET.HTML)) (let! _ := pop_unref in ret tt) in
  do! set_mode IN_TABLE_BODY in
  ret HUBBUB_REPROCESS.

Definition insert_cell (tag : hubbub_tag) : M hubbub_error :=
  do! clear_to_row in
  do! check_call (insert_element tag true) in
  do! set_mode IN_CELL in
  let! node := top_node in
  do! ref_node node in
  let! node := top_node in
  let! n := top_index in
  let! err := call (formatting_list_append malloc (tag_ns tag) (type_of_tag tag) node n) in
  match err with
  | HUBBUB_OK => ret HUBBUB_OK
  | _ =>
      let! node := top_node in
      do! call (remove_node_from_dom node) in
      let! _ := element_stack_pop in
      ret err
  end.

Definition handle_in_row (token : hubbub_token) : M hubbub_error :=
  match token with
  | TokenStartTag tag =>
      let type := type_of_tag tag in
      if one_of type [ET.TH; ET.TD] then insert_cell tag
      else if one_of type [ET.CAPTION; ET.COL; ET.COLGROUP; ET.TBODY; ET.TFOOT; ET.THEAD; ET.TR]
      then act_as_if_end_tag_tr
      else handle_in_table token
  | TokenEndTag tag =>
      let type := type_of_tag tag in
      if type_eqb type ET.TR then let! _ := act_as_if_end_tag_tr in ret HUBBUB_OK
      else if type_eqb type ET.TABLE then act_as_if_end_tag_tr
      else if one_of type [ET.BODY; ET.CAPTION; ET.COL; ET.COLGROUP; ET.HTML; ET.TD; ET.TH]
      then ret HUBBUB_OK
      else handle_in_table token
  | TokenCharacter _ | TokenComment _ | TokenDoctype _ | TokenEOF => handle_in_table token
  end.

Definition close_cell : M unit :=
  let! td := in_scope ET.TD true in
  close_element (if (td : bool) then ET.TD else ET.TH) IN_ROW.

Definition handle_in_cell (token : hubbub_token) : M hubbub_error :=
  match token with
  | TokenStartTag tag =>
      if one_of (type_of_tag tag) [ET.CAPTION; ET.COL; ET.COLGROUP; ET.TBODY; ET.TD; ET.TFOOT;
                                   ET.TH; ET.THEAD; ET.TR]
      then do! close_cell in ret HUBBUB_REPROCESS
      else handle_in_body token
  | TokenEndTag tag =>
      let type := type_of_tag tag in
      if one_of type [ET.TH; ET.TD] then
        let! there := in_scope type true in
        do! when there (close_element type IN_ROW) in
        ret HUBBUB_OK
      else if one_of type [ET.BODY; ET.CAPTION; ET.COL; ET.COLGROUP; ET.HTML] then ret HUBBUB_OK
      else if one_of type [ET.TABLE; ET.TBODY; ET.TFOOT; ET.THEAD; ET.TR] then
        let! there := in_scope type true in
        if (there : bool) then do! close_cell in ret HUBBUB_REPROCESS else ret HUBBUB_OK
      else handle_in_body token
  | TokenCharacter _ | TokenComment _ | TokenDoctype _ | TokenEOF => handle_in_body token
  end.

(** ** Select *)

Definition pop_if_current (type : element_type) : M unit :=
  let! cur := current_node in
  when (type_eqb cur type) (let! _ := pop_unref in ret tt).

Definition close_select : M unit :=
  do! call (element_stack_pop_until ET.SELECT) in reset_insertion_mode.
Definition close_select_in_scope : M unit :=
  let! there := in_scope ET.SELECT true in when there close_select.

Definition handle_in_select (token : hubbub_token) : M hubbub_error :=
  match token with
  | TokenCharacter data => append_text data
  | TokenComment data => process_comment_append data top_node
  | TokenDoctype _ => ret HUBBUB_OK
  | TokenStartTag tag =>
      let type := type_of_tag tag in
      if type_eqb type ET.HTML then handle_in_body token
      else if type_eqb type ET.OPTION then
        do! pop_if_current ET.OPTION in insert_element tag true
      else if type_eqb type ET.OPTGROUP then
        do! pop_if_current ET.OPTION in
        do! pop_if_current ET.OPTGROUP in
        insert_element tag true
      else if one_of type [ET.SELECT; ET.INPUT; ET.TEXTAREA] then
        do! close_select_in_scope in
        ret (if negb (type_eqb type ET.SELECT) then HUBBUB_REPROCESS else HUBBUB_OK)
      else if type_eqb type ET.SCRIPT then handle_in_head token
      else ret HUBBUB_OK
  | TokenEndTag tag =>
      let type := type_of_tag tag in
      if type_eqb type ET.OPTGROUP then
        let! cur := current_node in
        let! option_in_group :=
          (if type_eqb cur ET.OPTION
           then let! prev := prev_node in ret (type_eqb prev ET.OPTGROUP) else ret false) in
        do! when option_in_group (let! _ := pop_unref in ret tt) in
        do! pop_if_current ET.OPTGROUP in
        ret HUBBUB_OK
      else if type_eqb type ET.OPTION then do! pop_if_current ET.OPTION in ret HUBBUB_OK
      else if type_eqb type ET.SELECT then do! close_select_in_scope in ret HUBBUB_OK
      else ret HUBBUB_OK
  | TokenEOF => ret HUBBUB_OK
  end.

Definition handle_in_select_in_table (token : hubbub_token) : M hubbub_error :=
  let in_table (type : element_type) :=
    one_of type [ET.CAPTION; ET.TABLE; ET.TBODY; ET.TFOOT; ET.THEAD; ET.TR; ET.TD; ET.TH] in
  match token with
  | TokenEndTag tag =>
      let type := type_of_tag tag in
      if in_table type then
        let! there := in_scope type true in
        if (there : bool) then do! close_select in ret HUBBUB_REPROCESS else ret HUBBUB_OK
      else handle_in_select token
  | TokenStartTag tag =>
      if in_table (type_of_tag tag) then do! close_select in ret HUBBUB_REPROCESS
      else handle_in_select token
  | TokenCharacter _ | TokenComment _ | TokenDoctype _ | TokenEOF => handle_in_select token
  end.

(** ** After the body, and framesets *)

(** Go back to [mode] with the token. *)
Definition back_to (mode : insertion_mode) : M hubbub_error :=
  do! set_mode mode in ret HUBBUB_REPROCESS.

Definition handle_after_body (token : hubbub_token) : M hubbub_error :=
  match token with
  | TokenCharacter data =>
      let c := leading_whitespace data in
      do! when (0 <? c) (check_call (handle_in_body (TokenCharacter (ztake c data)))) in
      if negb (c =? zlen data) then
        do! modify (set_tb_token (TokenCharacter (zdrop c data))) in
        back_to IN_BODY
      else ret HUBBUB_OK
  | TokenComment data => process_comment_append data (stack_node 0)
  | TokenDoctype _ => ret HUBBUB_OK
  | TokenStartTag tag =>
      if type_eqb (type_of_tag tag) ET.HTML then handle_in_body token else back_to IN_BODY
  | TokenEndTag tag =>
      if type_eqb (type_of_tag tag) ET.HTML
      then do! set_mode AFTER_AFTER_BODY in ret HUBBUB_OK else back_to IN_BODY
  | TokenEOF => ret HUBBUB_OK
  end.

(** White space is inserted, and what follows it ignored. *)
Definition whitespace_only (data : bytes) : M hubbub_error :=
  let! err := call (process_characters_expect_whitespace data true) in
  ret (if is_reprocess err then HUBBUB_OK else err).

Definition handle_in_frameset (token : hubbub_token) : M hubbub_error :=
  match token with
  | TokenCharacter data => whitespace_only data
  | TokenComment data => process_comment_append data top_node
  | TokenDoctype _ => ret HUBBUB_OK
  | TokenStartTag tag =>
      let type := type_of_tag tag in
      if type_eqb type ET.HTML then handle_in_body token
      else if type_eqb type ET.FRAMESET then insert_element tag true
      else if type_eqb type ET.FRAME then insert_element tag false
      else if type_eqb type ET.NOFRAMES then handle_in_head token
      else ret HUBBUB_OK
  | TokenEndTag tag =>
      if type_eqb (type_of_tag tag) ET.FRAMESET then
        let! type := current_node in
        if type_eqb type ET.HTML then ret HUBBUB_OK else
        let! _ := pop_unref in
        let! type := current_node in
        do! when (negb (type_eqb type ET.FRAMESET)) (set_mode AFTER_FRAMESET) in
        ret HUBBUB_OK
      else ret HUBBUB_OK
  | TokenEOF => ret HUBBUB_OK
  end.

Definition handle_after_frameset (token : hubbub_token) : M hubbub_error :=
  match token with
  | TokenCharacter data => whitespace_only data
  | TokenComment data => process_comment_append data top_node
  | TokenDoctype _ => ret HUBBUB_OK
  | TokenStartTag tag =>
      let type := type_of_tag tag in
      if type_eqb type ET.HTML then handle_in_body token
      else if type_eqb type ET.NOFRAMES then handle_in_head token
      else ret HUBBUB_OK
  | TokenEndTag tag =>
      do! when (type_eqb (type_of_tag tag) ET.HTML) (set_mode AFTER_AFTER_FRAMESET) in
      ret HUBBUB_OK
  | TokenEOF => ret HUBBUB_OK
  end.

Definition handle_after_after_body (token : hubbub_token) : M hubbub_error :=
  match token with
  | TokenCharacter data =>
      let! err := call (process_characters_expect_whitespace data true) in
      do! when (is_reprocess err) (set_mode IN_BODY) in
      ret err
  | TokenComment data => process_comment_append data document
  | TokenDoctype _ => handle_in_body token
  | TokenStartTag tag =>
      if type_eqb (type_of_tag tag) ET.HTML then handle_in_body token else back_to IN_BODY
  | TokenEndTag _ => back_to IN_BODY
  | TokenEOF => ret HUBBUB_OK
  end.

Definition handle_after_after_frameset (token : hubbub_token) : M hubbub_error :=
  match token with
  | TokenCharacter data =>
      let! err := call (process_characters_expect_whitespace data true) in
      do! when (is_reprocess err) (set_mode IN_FRAMESET) in
      ret err
  | TokenComment data => process_comment_append data document
  | TokenEndTag _ | TokenDoctype _ => ret HUBBUB_OK
  | TokenStartTag tag =>
      let type := type_of_tag tag in
      if type_eqb type ET.HTML then handle_in_body token
      else if type_eqb type ET.NOFRAMES then handle_in_head token
      else back_to IN_FRAMESET
  | TokenEOF => ret HUBBUB_OK
  end.

(** ** The text of elements such as title and script *)

Definition handle_generic_rcdata (token : hubbub_token) : M hubbub_error :=
  let! strip_leading_lr := ctx tc_strip_leading_lr in
  do! (match token with
       | TokenCharacter _ => ret tt
       | _ => when strip_leading_lr (upd_ctx (set_tc_strip_leading_lr false))
       end) in
  let! (err, done) :=
    match token with
    | TokenCharacter data =>
        let! chars :=
          (if (strip_leading_lr : bool) then
             let! c := of_option (znth data 0) in
             do! upd_ctx (set_tc_strip_leading_lr false) in
             ret (if c =? 10 then zdrop 1 data else data)
           else ret data) in
        if zlen chars =? 0 then ret (HUBBUB_OK, false)
        else let! err := call (append_text chars) in ret (err, false)
    | TokenEndTag tag =>
        let! enable_scripting := ctx tc_enable_scripting in
        let! err :=
          (if enable_scripting && type_eqb (type_of_tag tag) ET.SCRIPT
           then call complete_script else ret HUBBUB_OK) in
        ret (err, true)
    | TokenEOF => ret (HUBBUB_REPROCESS, true)
    | TokenComment _ | TokenDoctype _ | TokenStartTag _ => stuck
    end in
  do! when done
        (let! _ := pop_unref in
         let! mode := ctx tc_collect_mode in set_mode mode) in
  ret err.
End TreeModes.
