(* ===== verification/TreeBuilder.v ===== *)
(** * TreeBuilder: creating a tree builder and giving it tokens
    (libhubbub/src/treebuilder/treebuilder.c), with the insertion mode that
    gives it tokens again (in_foreign_content.c).

    Tokens are handled again while a handler answers HUBBUB_REPROCESS; the fuel
    counts the handlers that are called, the ones for nested calls included. *)
From Stdlib Require Ascii String.
From S2P Require Import Prelude.
From S2P Require Import Errors.
From S2P Require Import Detect.
From S2P Require Import Tokens.
From S2P Require Import TokeniserState.
From S2P Require Import TokeniserMonad.
From S2P Require Import Parser.
From S2P Require Import ElementType.
From S2P Require Import TreeState.
From S2P Require Import TreeStack.
From S2P Require Import TreeForeign.
From S2P Require Import TreeBody.
From S2P Require Import TreeModes.
From stdpp Require Import gmap.
Import String.StringSyntax.
Local Open Scope string_scope.
Local Open Scope Z_scope.

Definition SIZEOF_TREEBUILDER : Z := 112.

Section TreeBuilder.
Context {W : Type} `{!TreeHandler W}.
Context (malloc : nat -> gmap Z formatting_list_entry -> option Z).
Context (alloc_ok : nat -> Z -> bool).
Context (mibenum_from_name : bytes -> Z) (mibenum_to_name : Z -> option bytes).
Local Abbreviation T := (hubbub_treebuilder W).
Local Abbreviation M := (comp (hubbub_treebuilder W)).
Local Abbreviation insert_element := (insert_element alloc_ok).
Local Abbreviation handle_in_body :=
  (handle_in_body malloc alloc_ok mibenum_from_name mibenum_to_name).
Local Abbreviation handle_in_head :=
  (handle_in_head alloc_ok mibenum_from_name mibenum_to_name handle_in_body).

(** ** Foreign content *)

Fixpoint non_html_loop (node : nat) : M bool :=
  match node with
  | O => ret false
  | S n =>
      let! node_type := stack_type (Z.of_nat node) in
      if type_eqb node_type ET.TABLE || is_scoping_element node_type then ret false
      else
        let! ns := stack_ns (Z.of_nat node) in
        if negb (bool_decide (ns = HUBBUB_NS_HTML)) then ret true else non_html_loop n
  end.
Definition element_in_scope_in_non_html_ns : M bool :=
  let! n := top_index in non_html_loop (Z.to_nat n).

(** [handler] is hubbub_treebuilder_token_handler. *)
Definition process_as_in_secondary (handler : hubbub_token -> M hubbub_error)
    (token : hubbub_token) : M hubbub_error :=
  let! second_mode := ctx tc_second_mode in
  do! set_mode second_mode in
  let! err := call (handler token) in
  match err with
  | HUBBUB_OK =>
      let! mode := ctx tc_mode in
      let! second_mode := ctx tc_second_mode in
      do! when (bool_decide (mode = second_mode)) (set_mode IN_FOREIGN_CONTENT) in
      let! mode := ctx tc_mode in
      do! (if bool_decide (mode = IN_FOREIGN_CONTENT) then
             let! there := element_in_scope_in_non_html_ns in
             when (negb there) (set_mode second_mode)
           else ret tt) in
      ret HUBBUB_OK
  | _ => do! set_mode IN_FOREIGN_CONTENT in return_early err
  end.

Fixpoint break_out_loop (fuel : nat) : M unit :=
  match fuel with
  | O => stuck
  | S fuel =>
      let! n := top_index in
      let! ns := stack_ns n in
      if negb (bool_decide (ns = HUBBUB_NS_HTML))
      then let! _ := pop_unref in break_out_loop fuel else ret tt
  end.
Definition foreign_break_out : M unit :=
  let! n := top_index in
  do! break_out_loop (S (S (Z.to_nat n))) in
  let! second_mode := ctx tc_second_mode in
  set_mode second_mode.

(** The start tags that are handled as in the secondary mode, given the
    namespace and the type of the current node. *)
Definition html_in_foreign (cur_node_ns : hubbub_ns) (cur_node type : element_type) : bool :=
  let in_ns ns := bool_decide (cur_node_ns = ns) in
  in_ns HUBBUB_NS_HTML ||
  (in_ns HUBBUB_NS_MATHML && (negb (type_eqb type ET.MGLYPH) && negb (type_eqb type ET.MALIGNMARK)) &&
   one_of cur_node [ET.MI; ET.MO; ET.MN; ET.MS; ET.MTEXT]) ||
  (type_eqb type ET.SVG && (in_ns HUBBUB_NS_MATHML && type_eqb cur_node ET.ANNOTATION_XML)) ||
  (in_ns HUBBUB_NS_SVG && one_of cur_node [ET.FOREIGNOBJECT; ET.DESC; ET.TITLE]).

(** The start tags that end foreign content. *)
Definition breaks_out (type : element_type) : bool :=
  one_of type [ET.B; ET.BIG; ET.BLOCKQUOTE; ET.BODY; ET.BR; ET.CENTER; ET.CODE; ET.DD; ET.DIV;
               ET.DL; ET.DT; ET.EM; ET.EMBED; ET.H1; ET.H2; ET.H3; ET.H4; ET.H5; ET.H6; ET.HEAD;
               ET.HR; ET.I; ET.IMG; ET.LI; ET.LISTING; ET.MENU; ET.META; ET.NOBR; ET.OL; ET.P;
               ET.PRE; ET.RUBY; ET.S; ET.SMALL; ET.SPAN; ET.STRONG; ET.STRIKE; ET.SUB; ET.SUP;
               ET.TABLE; ET.TT; ET.U; ET.UL; ET.VAR].

Definition insert_foreign (cur_node_ns : hubbub_ns) (tag : hubbub_tag) : M hubbub_error :=
  let adjusted := adjust_foreign_attributes tag in
  let adjusted :=
    if bool_decide (cur_node_ns = HUBBUB_NS_SVG)
    then adjust_svg_attributes (adjust_svg_tagname adjusted) else adjusted in
  insert_element (set_tag_ns cur_node_ns adjusted) (negb (tag_self_closing tag)).

Definition handle_in_foreign_content (handler : hubbub_token -> M hubbub_error)
    (token : hubbub_token) : M hubbub_error :=
  match token with
  | TokenCharacter data => append_text data
  | TokenComment data => process_comment_append data top_node
  | TokenDoctype _ => ret HUBBUB_OK
  | TokenStartTag tag =>
      let! n := top_index in
      let! cur_node_ns := stack_ns n in
      let! cur_node := current_node in
      let type := type_of_tag tag in
      if html_in_foreign cur_node_ns cur_node type then process_as_in_secondary handler token
      else if breaks_out type then do! foreign_break_out in ret HUBBUB_REPROCESS
      else if type_eqb type ET.FONT then
        if existsb (fun attr => matches [chars "color"; chars "face"; chars "size"] (attr_name attr))
             (tag_attributes tag)
        then do! foreign_break_out in ret HUBBUB_REPROCESS
        else ret HUBBUB_OK
      else insert_foreign cur_node_ns tag
  | TokenEndTag _ => process_as_in_secondary handler token
  | TokenEOF => do! foreign_break_out in ret HUBBUB_REPROCESS
  end.

(** ** Handling a token *)

(** The handler for the current mode. *)
Definition dispatch (handler : hubbub_token -> M hubbub_error) (mode : insertion_mode)
    (token : hubbub_token) : M hubbub_error :=
  let m := malloc in let a := alloc_ok in let f := mibenum_from_name in let t := mibenum_to_name in
  match mode with
  | INITIAL => handle_initial token
  | BEFORE_HTML => handle_before_html token
  | BEFORE_HEAD => handle_before_head m a f t token
  | IN_HEAD => handle_in_head token
  | IN_HEAD_NOSCRIPT => handle_in_head_noscript m a f t token
  | AFTER_HEAD => handle_after_head m a f t token
  | IN_BODY => handle_in_body token
  | IN_TABLE => handle_in_table m a f t token
  | IN_CAPTION => handle_in_caption m a f t token
  | IN_COLUMN_GROUP => handle_in_column_group m a f t token
  | IN_TABLE_BODY => handle_in_table_body m a f t token
  | IN_ROW => handle_in_row m a f t token
  | IN_CELL => handle_in_cell m a f t token
  | IN_SELECT => handle_in_select m a f t token
  | IN_SELECT_IN_TABLE => handle_in_select_in_table m a f t token
  | IN_FOREIGN_CONTENT => handle_in_foreign_content handler token
  | AFTER_BODY => handle_after_body m a f t token
  | IN_FRAMESET => handle_in_frameset m a f t token
  | AFTER_FRAMESET => handle_after_frameset m a f t token
  | AFTER_AFTER_BODY => handle_after_after_body m a f t token
  | AFTER_AFTER_FRAMESET => handle_after_after_frameset m a f t token
  | GENERIC_RCDATA => handle_generic_rcdata token
  end.

(** Nothing is done without a document node or a tree handler. *)
Definition with_document (m : M hubbub_error) : M hubbub_error :=
  let! document := ctx tc_document in
  let! tree_handler := gets tb_tree_handler in
  if (document =? NULL) || (tree_handler =? NULL) then ret HUBBUB_OK else
  let! n := top_index in
  do! assert (n <? 2 ^ 31) in
  m.

(** [while (err == HUBBUB_REPROCESS)] *)
Fixpoint token_loop (fuel : nat) : M hubbub_error :=
  match fuel with
  | O => stuck
  | S fuel =>
      let! mode := ctx tc_mode in
      let! token := gets tb_token in
      let! err :=
        call (dispatch (fun token => with_document (do! modify (set_tb_token token) in token_loop fuel))
                mode token) in
      if is_reprocess err then token_loop fuel else ret err
  end.

Definition token_fuel (current_node : Z) : nat := (64 + 4 * Z.to_nat current_node)%nat.

Definition hubbub_treebuilder_token_handler (token : hubbub_token) : M hubbub_error :=
  with_document
    (do! modify (set_tb_token token) in
     let! n := top_index in token_loop (token_fuel n)).

(** ** Creation, options and destruction *)

Definition blank_context : treebuilder_context :=
  {| tc_mode := INITIAL; tc_second_mode := INITIAL;
     tc_element_stack :=
       set_ec_type (Some ET.ADDRESS) blank_element :: zrep (ELEMENT_STACK_CHUNK - 1) blank_element;
     tc_current_node := 0; tc_formatting_list := NULL; tc_formatting_list_end := NULL;
     tc_head_element := NULL; tc_form_element := NULL; tc_document := NULL;
     tc_enable_scripting := false; tc_collect_mode := INITIAL; tc_collect_type := ET.ADDRESS;
     tc_strip_leading_lr := false; tc_in_table_foster := false; tc_frameset_ok := true |}.

(** hubbub_treebuilder_create; installing the token handler cannot fail. *)
Definition hubbub_treebuilder_create (w : W) : hubbub_error * option T :=
  if negb (alloc_ok 0 SIZEOF_TREEBUILDER) then (HUBBUB_NOMEM, None) else
  if negb (alloc_ok 1 (ELEMENT_STACK_CHUNK * SIZEOF_ELEMENT_CONTEXT)) then (HUBBUB_NOMEM, None) else
  (HUBBUB_OK,
   Some {| tb_context := blank_context; tb_tree_handler := NULL; tb_error_handler := NULL;
           tb_error_pw := NULL; tb_entries := ∅; tb_calls := 2; tb_world := w; tb_commands := [];
           tb_token := TokenEOF |}).

Definition hubbub_treebuilder_setopt (type : treebuilder_option) (t : T) : hubbub_error * T :=
  (HUBBUB_OK,
   match type with
   | HUBBUB_TREEBUILDER_ERROR_HANDLER handler pw => set_tb_error_pw pw (set_tb_error_handler handler t)
   | HUBBUB_TREEBUILDER_TREE_HANDLER tree_handler => set_tb_tree_handler tree_handler t
   | HUBBUB_TREEBUILDER_DOCUMENT_NODE n => set_tb_context (set_tc_document n (tb_context t)) t
   | HUBBUB_TREEBUILDER_ENABLE_SCRIPTING b =>
       set_tb_context (set_tc_enable_scripting b (tb_context t)) t
   end).

Definition unref_if_set (node : Z) : M unit := when (negb (node =? NULL)) (unref_node node).

(** [for (n = current_node; n > 0; n--)] *)
Fixpoint unref_stack (n : nat) : M unit :=
  match n with
  | O => ret tt
  | S k => let! node := stack_node (Z.of_nat n) in do! unref_node node in unref_stack k
  end.

Fixpoint free_entries (fuel : nat) (entry : Z) (unref : bool) : M unit :=
  match fuel with
  | O => stuck
  | S fuel =>
      if entry =? NULL then ret tt else
      let! e := entry_get entry in
      do! when unref (unref_node (fe_node e)) in
      do! entry_free entry in
      free_entries fuel (fe_next e) unref
  end.

Definition hubbub_treebuilder_destroy : M hubbub_error :=
  let! tree_handler := gets tb_tree_handler in
  let unref := negb (tree_handler =? NULL) in
  do! when unref
        (let! head := ctx tc_head_element in
         do! unref_if_set head in
         let! form := ctx tc_form_element in
         do! unref_if_set form in
         let! document := ctx tc_document in
         do! unref_if_set document in
         let! n := top_index in
         do! unref_stack (Z.to_nat n) in
         let! type := stack_type 0 in
         if type_eqb type ET.HTML
         then let! node := stack_node 0 in unref_node node else ret tt) in
  let! fuel := walk_fuel in
  let! first := ctx tc_formatting_list in
  do! free_entries fuel first unref in
  ret HUBBUB_OK.
End TreeBuilder.
