(* ===== verification/TreeRepr.v ===== *)
(** * TreeRepr: which stack and which formatting list a state of the tree
    builder stands for, and what its primitives do to them.

    The stack of open elements is a list of cells, the current node first, and
    the formatting list one of items. [st R X s l t] says that [t]
    stands for the stack [s] and the list [l], that its other fields that
    matter are those of [R], and that the client knows the nodes [X] as
    elements.  The rules that follow are in the style of TokeniserWp.v. *)
From S2P Require Import Prelude.
From S2P Require Import Errors.
From S2P Require Import Tokens.
From S2P Require Import ElementType.
From S2P Require Import TreeState.
From stdpp Require Import gmap.
From S2P Require Import TokeniserState.
From S2P Require Import TokeniserMonad.
From S2P Require Import TokeniserWp.
From S2P Require Import TreeStack.

Local Open Scope Z_scope.

(** ** The list of active formatting elements as a list

    An item is what an entry holds but its links.  [heap_of l] is the heap in
    which the pointers of [l] are linked in its order, and nothing else is
    allocated; the lemmas say what the assignments of links do to it. *)

Record item := {
  it_ns : hubbub_ns;
  it_type : element_type;
  it_node : Z;
  it_index : Z
}.

Definition entry_of (d : item) (prev next : Z) : formatting_list_entry :=
  {| fe_ns := it_ns d; fe_type := it_type d; fe_node := it_node d; fe_stack_index := it_index d;
     fe_prev := prev; fe_next := next |}.

Definition head_or (next : Z) (l : list (Z * item)) : Z :=
  match l with [] => next | (p, _) :: _ => p end.
Fixpoint last_or (prev : Z) (l : list (Z * item)) : Z :=
  match l with [] => prev | (p, _) :: l => last_or p l end.
Abbreviation head_ptr := (head_or NULL).
Abbreviation last_ptr := (last_or NULL).

Fixpoint link (prev next : Z) (l : list (Z * item)) : list (Z * formatting_list_entry) :=
  match l with
  | [] => []
  | (p, d) :: l => (p, entry_of d prev (head_or next l)) :: link p next l
  end.

Definition heap_of (l : list (Z * item)) : gmap Z formatting_list_entry :=
  list_to_map (link NULL NULL l).

(** The pointers are distinct, and none is NULL. *)
Definition good_ptrs (l : list (Z * item)) : Prop := NoDup l.*1 /\ NULL ∉ l.*1.

(** ** Shape *)

Lemma last_or_app prev a b : last_or prev (a ++ b) = last_or (last_or prev a) b.
Proof. revert prev. induction a as [|[q dq] a IH]; intros prev; [done|]. apply IH. Qed.

Lemma head_or_app next a b : head_or next (a ++ b) = head_or (head_or next b) a.
Proof. by destruct a as [|[]]. Qed.

Lemma link_app prev next a b :
  link prev next (a ++ b) = link prev (head_or next b) a ++ link (last_or prev a) next b.
Proof.
  revert prev. induction a as [|[q dq] a IH]; intros prev; [done|]. cbn [link app last_or].
  by rewrite head_or_app, IH.
Qed.

Lemma link_fst prev next l : (link prev next l).*1 = l.*1.
Proof. revert prev. induction l as [|[q dq] l IH]; intros prev; [done|]. cbn. by rewrite IH. Qed.

Lemma link_length prev next l : length (link prev next l) = length l.
Proof. by rewrite <-(length_fmap fst), (link_fst prev next l), length_fmap. Qed.

Lemma NoDup_map_to_list (l : list (Z * formatting_list_entry)) :
  NoDup l.*1 -> length (map_to_list (list_to_map l : gmap Z formatting_list_entry)) = length l.
Proof. intros H. by rewrite map_to_list_to_map. Qed.

Lemma size_heap l : good_ptrs l -> size (heap_of l) = length l.
Proof.
  intros [H _]. unfold heap_of. rewrite <-(link_length NULL NULL l).
  rewrite <-length_map_to_list, NoDup_map_to_list; [done|by rewrite link_fst].
Qed.

(** One entry of the map that a list without duplicates stands for. *)
Lemma list_to_map_mid (l m : list (Z * formatting_list_entry)) p e :
  NoDup (l ++ (p, e) :: m).*1 ->
  (list_to_map (l ++ (p, e) :: m) : gmap Z formatting_list_entry) = <[p := e]> (list_to_map (l ++ m)).
Proof.
  intros H. rewrite <-list_to_map_cons. apply list_to_map_proper; [done|].
  symmetry. apply Permutation_middle.
Qed.

Lemma good_ptrs_perm a b : a ≡ₚ b -> good_ptrs a -> good_ptrs b.
Proof. intros H [H1 H2]. split; by rewrite <-H. Qed.

Lemma good_ptrs_cons p d l : good_ptrs ((p, d) :: l) <-> p <> NULL /\ (p ∉ l.*1) /\ good_ptrs l.
Proof.
  unfold good_ptrs. cbn [fmap list_fmap fst]. rewrite NoDup_cons, not_elem_of_cons.
  split; [intros [[? ?] [? ?]]|intros (? & ? & ? & ?)]; auto.
Qed.

Lemma good_ptrs_mid a p d b :
  good_ptrs (a ++ (p, d) :: b) <-> p <> NULL /\ (p ∉ (a ++ b).*1) /\ good_ptrs (a ++ b).
Proof.
  rewrite <-good_ptrs_cons. split; apply good_ptrs_perm; [symmetry|]; apply Permutation_middle.
Qed.

Lemma good_ptrs_app a b : good_ptrs (a ++ b) -> good_ptrs a /\ good_ptrs b.
Proof.
  unfold good_ptrs. rewrite !fmap_app, NoDup_app, !not_elem_of_app. tauto.
Qed.

Lemma last_ptr_In a : (last_ptr a = NULL /\ a = []) \/ (last_ptr a ∈ a.*1).
Proof.
  destruct a as [|[q dq] a _] using rev_ind; [by left|right].
  rewrite last_or_app, fmap_app. apply elem_of_app; right. cbn. by left.
Qed.

Lemma heap_mid a p d b :
  good_ptrs (a ++ (p, d) :: b) ->
  heap_of (a ++ (p, d) :: b) =
    <[p := entry_of d (last_ptr a) (head_ptr b)]>
      (list_to_map (link NULL p a ++ link p NULL b)).
Proof.
  intros [H _]. unfold heap_of. rewrite link_app. cbn [link head_or].
  apply list_to_map_mid. rewrite fmap_app, fmap_cons, !link_fst. by rewrite fmap_app in H.
Qed.

Lemma heap_lookup a p d b :
  good_ptrs (a ++ (p, d) :: b) ->
  heap_of (a ++ (p, d) :: b) !! p = Some (entry_of d (last_ptr a) (head_ptr b)).
Proof. intros H. by rewrite heap_mid, lookup_insert_eq. Qed.

(** Other contents for an entry. *)
Lemma heap_update a p d d' b :
  good_ptrs (a ++ (p, d) :: b) ->
  <[p := entry_of d' (last_ptr a) (head_ptr b)]> (heap_of (a ++ (p, d) :: b)) =
  heap_of (a ++ (p, d') :: b).
Proof.
  intros H. rewrite (heap_mid a p d b H), heap_mid, insert_insert_eq; [done|].
  destruct H as [H1 H2]. split; [by rewrite fmap_app in *|by rewrite fmap_app in *].
Qed.

(** ** Links *)

(** What assigning a field of the entry at [p] does to a heap. *)
Definition assign (p : Z) (f : formatting_list_entry -> formatting_list_entry)
    (h : gmap Z formatting_list_entry) : gmap Z formatting_list_entry :=
  if p =? NULL then h else match h !! p with Some e => <[p := f e]> h | None => h end.

(** [to_map] as a heap. *)
Abbreviation to_map l := (list_to_map l : gmap Z formatting_list_entry).

Lemma assign_mid p f e l m :
  p <> NULL -> NoDup (l ++ (p, e) :: m).*1 ->
  assign p f (to_map (l ++ (p, e) :: m)) = to_map (l ++ (p, f e) :: m).
Proof.
  intros Hp H. unfold assign. rewrite (proj2 (Z.eqb_neq p NULL)) by done.
  rewrite list_to_map_mid, lookup_insert_eq, insert_insert_eq by done.
  symmetry. apply list_to_map_mid. by rewrite fmap_app in *.
Qed.

Lemma relink_next x y a m :
  NULL ∉ a.*1 -> NoDup (link NULL y a ++ m).*1 ->
  assign (last_ptr a) (set_fe_next x) (to_map (link NULL y a ++ m)) = to_map (link NULL x a ++ m).
Proof.
  destruct a as [|[q dq] a _] using rev_ind; [done|].
  rewrite last_or_app, !link_app, fmap_app, <-!(assoc_L (++)), not_elem_of_app. cbn [link app last_or head_or].
  intros [_ Hq] H. rewrite assign_mid; [done| |done].
  cbn in Hq. set_solver.
Qed.

Lemma relink_prev x y b m :
  NULL ∉ b.*1 -> NoDup (m ++ link y NULL b).*1 ->
  assign (head_ptr b) (set_fe_prev x) (to_map (m ++ link y NULL b)) = to_map (m ++ link x NULL b).
Proof.
  destruct b as [|[q dq] b]; [done|]. cbn [link head_or]. intros Hq H.
  rewrite assign_mid; [done| |done]. cbn in Hq. set_solver.
Qed.

(** Allocating the entry [p] between [a] and [b]. *)
Lemma heap_insert a p d b :
  good_ptrs (a ++ (p, d) :: b) ->
  assign (head_ptr b) (set_fe_prev p)
    (assign (last_ptr a) (set_fe_next p)
      (<[p := entry_of d (last_ptr a) (head_ptr b)]> (heap_of (a ++ b)))) =
  heap_of (a ++ (p, d) :: b).
Proof.
  intros [H Hn]. unfold heap_of. rewrite !link_app. cbn [link head_or].
  rewrite !fmap_app, fmap_cons in *. cbn [fst] in *.
  rewrite not_elem_of_app, not_elem_of_cons in Hn.
  rewrite <-list_to_map_mid, relink_next, cons_middle, (assoc_L (++)), relink_prev, <-(assoc_L (++));
    try tauto; try done; rewrite ?fmap_app, ?fmap_cons, ?link_fst; cbn [fst fmap list_fmap];
    rewrite <-?(assoc_L (++)); done.
Qed.

(** Unlinking the entry between [a] and [b], and freeing it. *)
Lemma heap_remove a p d b :
  good_ptrs (a ++ (p, d) :: b) ->
  delete p (assign (head_ptr b) (set_fe_prev (last_ptr a))
    (assign (last_ptr a) (set_fe_next (head_ptr b)) (heap_of (a ++ (p, d) :: b)))) =
  heap_of (a ++ b).
Proof.
  intros [H Hn]. unfold heap_of. rewrite !link_app. cbn [link head_or].
  rewrite !fmap_app, fmap_cons in *. cbn [fst] in *.
  rewrite not_elem_of_app, not_elem_of_cons in Hn.
  rewrite relink_next, cons_middle, (assoc_L (++)), relink_prev, <-(assoc_L (++));
    try tauto; try done; rewrite ?fmap_app, ?fmap_cons, ?link_fst; cbn [fst fmap list_fmap];
    rewrite <-?(assoc_L (++)); try done.
  cbn [app]. rewrite list_to_map_mid, delete_insert_id; [done| |].
  - apply not_elem_of_list_to_map. rewrite fmap_app, !link_fst.
    apply NoDup_app in H as (? & H1 & [H2 ?]%NoDup_cons).
    rewrite not_elem_of_app. split; [|done]. intros Hp. apply (H1 p Hp). by left.
  - by rewrite fmap_app, fmap_cons, !link_fst.
Qed.

(** ** The client, and the state *)

(** What the tree builder relies on in its client.  A node that is created or
    cloned is none of the elements the client knows, and is one from then on;
    inserting an element yields that element.  HUBBUB_REPROCESS is not for
    clients, and HUBBUB_PAUSED only for the one that completes a script. *)
Definition client_error (e : hubbub_error) : Prop := e <> HUBBUB_REPROCESS /\ e <> HUBBUB_PAUSED.

Class TreeHandlerLaws (W : Type) `{!TreeHandler W} := {
  th_element : W -> Z -> Prop;
  th_create_element_law tag w e n w' : th_create_element tag w = (e, n, w') ->
    client_error e /\ (forall m, th_element w m -> th_element w' m) /\
    (e = HUBBUB_OK -> ~ th_element w n /\ th_element w' n);
  th_clone_node_law m deep w e n w' : th_clone_node m deep w = (e, n, w') ->
    client_error e /\ (forall m, th_element w m -> th_element w' m) /\
    (e = HUBBUB_OK -> ~ th_element w n /\ th_element w' n);
  th_create_comment_law data w e n w' : th_create_comment data w = (e, n, w') ->
    client_error e /\ (forall m, th_element w m -> th_element w' m);
  th_create_doctype_law data w e n w' : th_create_doctype data w = (e, n, w') ->
    client_error e /\ (forall m, th_element w m -> th_element w' m);
  th_create_text_law data w e n w' : th_create_text data w = (e, n, w') ->
    client_error e /\ (forall m, th_element w m -> th_element w' m);
  th_append_child_law p c w e n w' : th_append_child p c w = (e, n, w') ->
    client_error e /\ (forall m, th_element w m -> th_element w' m) /\
    (e = HUBBUB_OK -> th_element w c -> n = c);
  th_insert_before_law p c r w e n w' : th_insert_before p c r w = (e, n, w') ->
    client_error e /\ (forall m, th_element w m -> th_element w' m) /\
    (e = HUBBUB_OK -> th_element w c -> n = c);
  th_remove_child_law p c w e n w' : th_remove_child p c w = (e, n, w') ->
    client_error e /\ (forall m, th_element w m -> th_element w' m);
  th_get_parent_law c element w e n w' : th_get_parent c element w = (e, n, w') ->
    client_error e /\ (forall m, th_element w m -> th_element w' m);
  th_reparent_children_law n p w e w' : th_reparent_children n p w = (e, w') ->
    client_error e /\ (forall m, th_element w m -> th_element w' m);
  th_form_associate_law f n w e w' : th_form_associate f n w = (e, w') ->
    client_error e /\ (forall m, th_element w m -> th_element w' m);
  th_add_attributes_law n attrs w e w' : th_add_attributes n attrs w = (e, w') ->
    client_error e /\ (forall m, th_element w m -> th_element w' m);
  th_encoding_change_law f name w e w' : th_encoding_change = Some f -> f name w = (e, w') ->
    client_error e /\ (forall m, th_element w m -> th_element w' m);
  th_complete_script_law n w e w' : th_complete_script n w = (e, w') ->
    e <> HUBBUB_REPROCESS /\ (forall m, th_element w m -> th_element w' m);
  th_ref_node_law n w m : th_element w m -> th_element (th_ref_node n w) m;
  th_unref_node_law n w m : th_element w m -> th_element (th_unref_node n w) m;
  th_set_quirks_mode_law q w m : th_element w m -> th_element (th_set_quirks_mode q w) m
}.

(** The other fields. *)
Record rest_view := {
  rv_mode : insertion_mode;
  rv_collect_mode : insertion_mode;
  rv_head_element : Z;
  rv_document : Z;
  rv_tree_handler : Z;
  rv_token : hubbub_token
}.

Definition rv_set_mode (m : insertion_mode) (R : rest_view) : rest_view :=
  {| rv_mode := m; rv_collect_mode := rv_collect_mode R; rv_head_element := rv_head_element R;
     rv_document := rv_document R; rv_tree_handler := rv_tree_handler R; rv_token := rv_token R |}.
Definition rv_set_collect_mode (m : insertion_mode) (R : rest_view) : rest_view :=
  {| rv_mode := rv_mode R; rv_collect_mode := m; rv_head_element := rv_head_element R;
     rv_document := rv_document R; rv_tree_handler := rv_tree_handler R; rv_token := rv_token R |}.
Definition rv_set_head_element (n : Z) (R : rest_view) : rest_view :=
  {| rv_mode := rv_mode R; rv_collect_mode := rv_collect_mode R; rv_head_element := n;
     rv_document := rv_document R; rv_tree_handler := rv_tree_handler R; rv_token := rv_token R |}.
Definition rv_set_token (token : hubbub_token) (R : rest_view) : rest_view :=
  {| rv_mode := rv_mode R; rv_collect_mode := rv_collect_mode R; rv_head_element := rv_head_element R;
     rv_document := rv_document R; rv_tree_handler := rv_tree_handler R; rv_token := token |}.
Section TreeRepr.
Context {W : Type} `{!TreeHandler W}.
Local Abbreviation T := (hubbub_treebuilder W).
Local Abbreviation M := (comp (hubbub_treebuilder W)).

Definition rest (t : T) : rest_view :=
  let x := tb_context t in
  {| rv_mode := tc_mode x; rv_collect_mode := tc_collect_mode x;
     rv_head_element := tc_head_element x; rv_document := tc_document x;
     rv_tree_handler := tb_tree_handler t; rv_token := tb_token t |}.

(** The stack of open elements, in a context. *)
Record open (s : list element_context) (x : treebuilder_context) : Prop := {
  op_some : s <> [];
  op_current : tc_current_node x = zlen s - 1;
  op_max : zlen (tc_element_stack x) <= 2 ^ 31;
  op_cells : exists spare, tc_element_stack x = rev s ++ spare
}.

Lemma open_same s x x' :
  open s x -> tc_element_stack x' = tc_element_stack x -> tc_current_node x' = tc_current_node x ->
  open s x'.
Proof. intros [] Hs Hc. constructor; try done; by rewrite ?Hs, ?Hc. Qed.

(** The formatting list. *)
Record active (l : list (Z * item)) (t : T) : Prop := {
  ac_ptrs : good_ptrs l;
  ac_first : tc_formatting_list (tb_context t) = head_ptr l;
  ac_last : tc_formatting_list_end (tb_context t) = last_ptr l;
  ac_heap : tb_entries t = heap_of l
}.
End TreeRepr.

(** The cell at index [i] of a stack. *)
Definition at_index (s : list element_context) (i : Z) : option element_context := znth (rev s) i.

Section St.
Context {W : Type} `{!TreeHandler W} `{!TreeHandlerLaws W}.
Local Abbreviation T := (hubbub_treebuilder W).
Local Abbreviation M := (comp (hubbub_treebuilder W)).

Record st (R : rest_view) (X : list Z) (s : list element_context) (l : list (Z * item)) (t : T)
  : Prop := {
  st_rest : rest t = R;
  st_open : open s (tb_context t);
  st_active : active l t;
  st_known : Forall (th_element (tb_world t)) X
}.

(** ** Reading *)

Lemma wp_ctx {A} (f : treebuilder_context -> A) (Q : A -> T -> Prop) E t :
  Q (f (tb_context t)) t -> wp (ctx f) Q E t.
Proof. done. Qed.

Lemma at_index_top c s : at_index (c :: s) (zlen s) = Some c.
Proof.
  unfold at_index. cbn [rev]. rewrite znth_app_r by (unfold zlen; rewrite length_rev; lia).
  unfold zlen. by rewrite length_rev, Z.sub_diag.
Qed.

Lemma at_index_app a s i : i < zlen s -> at_index (a ++ s) i = at_index s i.
Proof.
  intros H. unfold at_index. rewrite rev_app_distr, znth_app_l; [done|].
  unfold zlen in *. by rewrite length_rev.
Qed.

Lemma at_index_cons c s i : i < zlen s -> at_index (c :: s) i = at_index s i.
Proof. apply (at_index_app [c]). Qed.

Lemma at_index_mid a c s : at_index (a ++ c :: s) (zlen s) = Some c.
Proof. rewrite at_index_app by (rewrite zlen_cons; lia). apply at_index_top. Qed.

Lemma at_index_range s i c : at_index s i = Some c -> 0 <= i < zlen s.
Proof. intros H%znth_Some_range. unfold zlen in *. by rewrite length_rev in H. Qed.

Lemma at_index_split s i c :
  at_index s i = Some c -> exists a s', s = a ++ c :: s' /\ i = zlen s'.
Proof.
  intros H. pose proof (at_index_range _ _ _ H). unfold at_index in H. rewrite znth_nonneg in H by lia.
  apply list_elem_of_split_length in H as (l1 & l2 & Hs & Hl).
  exists (rev l2), (rev l1). split.
  - rewrite <-(rev_involutive s), Hs, rev_app_distr. cbn [rev]. by rewrite <-(assoc_L (++)).
  - unfold zlen. rewrite length_rev. lia.
Qed.

Lemma zlen_rev {A} (m : list A) : zlen (rev m) = zlen m.
Proof. unfold zlen. by rewrite length_rev. Qed.

Lemma open_stack s x i c :
  open s x -> at_index s i = Some c -> znth (tc_element_stack x) i = Some c.
Proof.
  intros [_ _ _ [spare ->]] H. pose proof (at_index_range _ _ _ H).
  by rewrite znth_app_l by (rewrite zlen_rev; lia).
Qed.

Context {R : rest_view} {X : list Z} {s : list element_context} {l : list (Z * item)} {t : T}.
Context (Hst : st R X s l t).

Lemma st_current : tc_current_node (tb_context t) = zlen s - 1.
Proof. apply Hst. Qed.

Lemma st_positive : 0 < zlen s.
Proof.
  destruct Hst as [_ [Hs _ _ _] _ _]. destruct s; [done|]. rewrite zlen_cons.
  pose proof (zlen_nonneg l0). lia.
Qed.

Lemma st_bound : zlen s <= 2 ^ 31.
Proof.
  destruct Hst as [_ [_ _ Hm [spare Hs]] _ _]. rewrite Hs, zlen_app, zlen_rev in Hm.
  pose proof (zlen_nonneg spare). lia.
Qed.

Lemma wp_top_index (Q : Z -> T -> Prop) E : Q (zlen s - 1) t -> wp top_index Q E t.
Proof. unfold top_index. intros H. apply wp_ctx. by rewrite st_current. Qed.

Lemma wp_cell i c (Q : element_context -> T -> Prop) E :
  at_index s i = Some c -> Q c t -> wp (cell i) Q E t.
Proof.
  intros Hi HQ. unfold cell. apply wp_bind, wp_ctx. eapply wp_of_option; [|done].
  eapply open_stack; [apply Hst|done].
Qed.

Lemma wp_stack_type i c ty (Q : element_type -> T -> Prop) E :
  at_index s i = Some c -> ec_type c = Some ty -> Q ty t -> wp (stack_type i) Q E t.
Proof. intros Hi Hc HQ. eapply wp_bind, wp_cell; [done|]. by eapply wp_of_option. Qed.

Lemma wp_stack_ns i c ns (Q : hubbub_ns -> T -> Prop) E :
  at_index s i = Some c -> ec_ns c = Some ns -> Q ns t -> wp (stack_ns i) Q E t.
Proof. intros Hi Hc HQ. eapply wp_bind, wp_cell; [done|]. by eapply wp_of_option. Qed.

Lemma wp_stack_tainted i c b (Q : bool -> T -> Prop) E :
  at_index s i = Some c -> ec_tainted c = Some b -> Q b t -> wp (stack_tainted i) Q E t.
Proof. intros Hi Hc HQ. eapply wp_bind, wp_cell; [done|]. by eapply wp_of_option. Qed.

Lemma wp_stack_node i c n (Q : Z -> T -> Prop) E :
  at_index s i = Some c -> ec_node c = Some n -> Q n t -> wp (stack_node i) Q E t.
Proof. intros Hi Hc HQ. eapply wp_bind, wp_cell; [done|]. by eapply wp_of_option. Qed.

Lemma wp_entry_get a p d b (Q : formatting_list_entry -> T -> Prop) E :
  l = a ++ (p, d) :: b -> Q (entry_of d (last_ptr a) (head_ptr b)) t -> wp (entry_get p) Q E t.
Proof.
  intros Hl HQ. unfold entry_get. apply wp_bind, wp_gets. eapply wp_of_option; [|done].
  destruct Hst as [_ _ [Hp _ _ ->] _]. subst l. by apply heap_lookup.
Qed.

Lemma wp_walk_fuel (Q : nat -> T -> Prop) E : Q (S (length l)) t -> wp walk_fuel Q E t.
Proof.
  intros HQ. unfold walk_fuel. apply wp_gets. destruct Hst as [_ _ [Hp _ _ ->] _].
  by rewrite size_heap.
Qed.

Lemma wp_list_end (Q : Z -> T -> Prop) E : Q (last_ptr l) t -> wp (ctx tc_formatting_list_end) Q E t.
Proof. intros HQ. apply wp_ctx. by destruct Hst as [_ _ [_ _ -> _] _]. Qed.

Lemma wp_list_first (Q : Z -> T -> Prop) E : Q (head_ptr l) t -> wp (ctx tc_formatting_list) Q E t.
Proof. intros HQ. apply wp_ctx. by destruct Hst as [_ _ [_ -> _ _] _]. Qed.

(** ** Fields of the context *)

Lemma st_context (f : treebuilder_context -> treebuilder_context) R' :
  rest (set_tb_context (f (tb_context t)) t) = R' ->
  tc_element_stack (f (tb_context t)) = tc_element_stack (tb_context t) ->
  tc_current_node (f (tb_context t)) = tc_current_node (tb_context t) ->
  tc_formatting_list (f (tb_context t)) = tc_formatting_list (tb_context t) ->
  tc_formatting_list_end (f (tb_context t)) = tc_formatting_list_end (tb_context t) ->
  st R' X s l (set_tb_context (f (tb_context t)) t).
Proof.
  intros Hr Hs Hc Hf He. destruct Hst as [_ Ho [] Hk].
  constructor; [done|by eapply open_same| |done]. constructor; cbn; congruence.
Qed.

Lemma wp_upd_rest (f : treebuilder_context -> treebuilder_context) R' (Q : unit -> T -> Prop) E :
  (forall t : T, rest t = R -> rest (set_tb_context (f (tb_context t)) t) = R') ->
  (forall x, tc_element_stack (f x) = tc_element_stack x /\ tc_current_node (f x) = tc_current_node x /\
     tc_formatting_list (f x) = tc_formatting_list x /\
     tc_formatting_list_end (f x) = tc_formatting_list_end x) ->
  (forall t', st R' X s l t' -> Q tt t') -> wp (upd_ctx f) Q E t.
Proof.
  intros Hr Hf HQ. apply wp_modify, HQ. destruct (Hf (tb_context t)) as (? & ? & ? & ?).
  apply st_context; try done. apply Hr, Hst.
Qed.

Ltac upd_rest := intros ?HQ; eapply wp_upd_rest; [| |exact HQ]; [intros ? <-; reflexivity|done].

Lemma wp_set_mode m (Q : unit -> T -> Prop) E :
  (forall t', st (rv_set_mode m R) X s l t' -> Q tt t') -> wp (set_mode m) Q E t.
Proof. upd_rest. Qed.
Lemma wp_set_collect_mode m (Q : unit -> T -> Prop) E :
  (forall t', st (rv_set_collect_mode m R) X s l t' -> Q tt t') ->
  wp (upd_ctx (set_tc_collect_mode m)) Q E t.
Proof. upd_rest. Qed.
Lemma wp_set_head_element n (Q : unit -> T -> Prop) E :
  (forall t', st (rv_set_head_element n R) X s l t' -> Q tt t') ->
  wp (upd_ctx (set_tc_head_element n)) Q E t.
Proof. upd_rest. Qed.
Lemma wp_set_strip b (Q : unit -> T -> Prop) E :
  (forall t', st R X s l t' -> Q tt t') ->
  wp (upd_ctx (set_tc_strip_leading_lr b)) Q E t.
Proof. upd_rest. Qed.
Lemma wp_set_frameset_ok b (Q : unit -> T -> Prop) E :
  (forall t', st R X s l t' -> Q tt t') ->
  wp (upd_ctx (set_tc_frameset_ok b)) Q E t.
Proof. upd_rest. Qed.
Lemma wp_set_form_element n (Q : unit -> T -> Prop) E :
  (forall t', st R X s l t' -> Q tt t') -> wp (upd_ctx (set_tc_form_element n)) Q E t.
Proof. upd_rest. Qed.
Lemma wp_set_foster b (Q : unit -> T -> Prop) E :
  (forall t', st R X s l t' -> Q tt t') -> wp (upd_ctx (set_tc_in_table_foster b)) Q E t.
Proof. upd_rest. Qed.
Lemma wp_set_collect_type y (Q : unit -> T -> Prop) E :
  (forall t', st R X s l t' -> Q tt t') -> wp (upd_ctx (set_tc_collect_type y)) Q E t.
Proof. upd_rest. Qed.
Lemma wp_set_token token (Q : unit -> T -> Prop) E :
  (forall t', st (rv_set_token token R) X s l t' -> Q tt t') -> wp (modify (set_tb_token token)) Q E t.
Proof.
  intros HQ. apply wp_modify, HQ. destruct Hst as [<- [] [] Hk].
  constructor; [done| | |done]; by constructor.
Qed.

Lemma wp_set_content_model m (Q : unit -> T -> Prop) E :
  (forall t', st R X s l t' -> Q tt t') -> wp (set_content_model m) Q E t.
Proof.
  intros HQ. apply wp_modify, HQ. destruct Hst as [<- [] [] Hk].
  constructor; [done| | |done]; by constructor.
Qed.

(** ** The client *)

Lemma st_world w' X' :
  Forall (th_element w') X' -> st R X' s l (set_tb_world w' t).
Proof.
  intros Hw. destruct Hst as [<- [] [] Hk].
  constructor; [done| | |done]; by constructor.
Qed.

Lemma known_mono w' :
  (forall m, th_element (tb_world t) m -> th_element w' m) -> st R X s l (set_tb_world w' t).
Proof.
  intros Hw. apply st_world. eapply Forall_impl; [apply Hst|done].
Qed.

Lemma wp_ref_node n (Q : unit -> T -> Prop) E :
  (forall t', st R X s l t' -> Q tt t') -> wp (ref_node n) Q E t.
Proof. intros HQ. apply wp_modify, HQ, known_mono. intros m. apply th_ref_node_law. Qed.
Lemma wp_unref_node n (Q : unit -> T -> Prop) E :
  (forall t', st R X s l t' -> Q tt t') -> wp (unref_node n) Q E t.
Proof. intros HQ. apply wp_modify, HQ, known_mono. intros m. apply th_unref_node_law. Qed.
Lemma wp_set_quirks q (Q : unit -> T -> Prop) E :
  (forall t', st R X s l t' -> Q tt t') -> wp (handler_unit (th_set_quirks_mode q)) Q E t.
Proof. intros HQ. apply wp_modify, HQ, known_mono. intros m. apply th_set_quirks_mode_law. Qed.

(** A function of the client that answers an error code and perhaps a node. *)
Lemma wp_handler_node (f : W -> hubbub_error * Z * W) (P : hubbub_error -> Z -> Prop)
    (Q : hubbub_error * Z -> T -> Prop) E :
  (forall e n w', f (tb_world t) = (e, n, w') ->
     client_error e /\ (forall m, th_element (tb_world t) m -> th_element w' m) /\ P e n) ->
  (forall e n t', client_error e -> P e n -> st R X s l t' -> Q (e, n) t') ->
  wp (handler_node f) Q E t.
Proof.
  intros Hf HQ. unfold wp, handler_node. destruct (f (tb_world t)) as [[e n] w'] eqn:Ef.
  destruct (Hf e n w' eq_refl) as (He & Hm & HP). apply HQ; [done|done|]. by apply known_mono.
Qed.

Lemma wp_handler_error (f : W -> hubbub_error * W) (Q : hubbub_error -> T -> Prop) E :
  (forall e w', f (tb_world t) = (e, w') ->
     client_error e /\ (forall m, th_element (tb_world t) m -> th_element w' m)) ->
  (forall e t', client_error e -> st R X s l t' -> Q e t') ->
  wp (handler_error f) Q E t.
Proof.
  intros Hf HQ. unfold wp, handler_error. destruct (f (tb_world t)) as [e w'] eqn:Ef.
  destruct (Hf e w' eq_refl) as (He & Hm). apply HQ; [done|]. by apply known_mono.
Qed.

(** An element that is created or cloned is a new one. *)
Lemma wp_new_element (f : W -> hubbub_error * Z * W) (Q : hubbub_error * Z -> T -> Prop) E :
  (forall w e n w', f w = (e, n, w') -> client_error e /\
     (forall m, th_element w m -> th_element w' m) /\
     (e = HUBBUB_OK -> ~ th_element w n /\ th_element w' n)) ->
  (forall n t', n ∉ X -> st R (n :: X) s l t' -> Q (HUBBUB_OK, n) t') ->
  (forall e n t', e <> HUBBUB_OK -> client_error e -> st R X s l t' -> Q (e, n) t') ->
  wp (handler_node f) Q E t.
Proof.
  intros Hf HQ He. unfold wp, handler_node. destruct (f (tb_world t)) as [[e n] w'] eqn:Ef.
  destruct (Hf _ e n w' Ef) as (Hce & Hm & Hn).
  destruct (decide (e = HUBBUB_OK)) as [->|Hne].
  - destruct (Hn eq_refl) as [Hn1 Hn2]. pose proof (st_known _ _ _ _ _ Hst) as Hk. apply HQ.
    + rewrite Forall_forall in Hk. auto.
    + apply st_world. constructor; [done|]. eapply Forall_impl; [apply Hk|done].
  - apply He; [done..|]. by apply known_mono.
Qed.

(** ** Entries *)

Lemma st_list l' h :
  good_ptrs l' -> head_ptr l' = head_ptr l -> last_ptr l' = last_ptr l -> h = heap_of l' ->
  st R X s l' (set_tb_entries h t).
Proof.
  intros Hp Hf Hl ->. destruct Hst as [<- Ho [] Hk].
  constructor; [done|by eapply open_same| |done]. constructor; cbn; congruence.
Qed.

Lemma wp_entry_upd a p d d' b f (Q : unit -> T -> Prop) E :
  l = a ++ (p, d) :: b ->
  (forall prev next, f (entry_of d prev next) = entry_of d' prev next) ->
  (forall t', st R X s (a ++ (p, d') :: b) t' -> Q tt t') -> wp (entry_upd p f) Q E t.
Proof.
  intros Hl Hf HQ. eapply wp_bind, wp_entry_get; [done|]. apply wp_modify, HQ.
  pose proof (st_active _ _ _ _ _ Hst) as [Hp _ _ Hh]. rewrite Hl in Hp, Hh. apply st_list.
  - destruct Hp. split; by rewrite fmap_app in *.
  - by rewrite Hl, !head_or_app.
  - by rewrite Hl, !last_or_app.
  - rewrite Hf, Hh. by apply heap_update.
Qed.
End St.
