(* ===== verification/TreeRules.v ===== *)
(** * TreeRules: what the operations on the stack of open elements and on the
    formatting list (TreeStack.v) do, as rules over [st].

    Two things are asked of the memory: that malloc answers a pointer that is
    not in use, and that no block of more than 2^36 octets is to be had, which
    keeps the stack below 2^31 cells. *)
From S2P Require Import Prelude.
From S2P Require Import Errors.
From S2P Require Import Tokens.
From S2P Require Import TokeniserState.
From S2P Require Import TokeniserMonad.
From S2P Require Import TokeniserWp.
From S2P Require Import ElementType.
From S2P Require Import TreeState.
From S2P Require Import TreeRepr.
From S2P Require Import TreeStack.
From stdpp Require Import gmap.
Local Open Scope Z_scope.

Definition malloc_fresh (malloc : nat -> gmap Z formatting_list_entry -> option Z) : Prop :=
  forall calls h p, malloc calls h = Some p -> p <> NULL /\ h !! p = None.
Definition alloc_limit (alloc_ok : nat -> Z -> bool) : Prop :=
  forall calls size, alloc_ok calls size = true -> size <= 2 ^ 36.

(** ** Items *)

Definition with_index (i : Z) (d : item) : item :=
  {| it_ns := it_ns d; it_type := it_type d; it_node := it_node d; it_index := i |}.
Definition with_node (n : Z) (d : item) : item :=
  {| it_ns := it_ns d; it_type := it_type d; it_node := n; it_index := it_index d |}.
Fixpoint map_items (g : item -> item) (l : list (Z * item)) : list (Z * item) :=
  match l with [] => [] | (p, d) :: l => (p, g d) :: map_items g l end.

(** The items at [slot] get another index. *)
Definition move_item (slot i : Z) (d : item) : item :=
  if it_index d =? slot then with_index i d else d.
Definition reindexed (slot i : Z) : list (Z * item) -> list (Z * item) := map_items (move_item slot i).

(** The items above [index] and up to [limit] go down by one. *)
Definition lower_item (index limit : Z) (d : item) : item :=
  if (index <? it_index d) && (it_index d <=? limit) then with_index (it_index d - 1) d else d.
Definition lowered (index limit : Z) : list (Z * item) -> list (Z * item) :=
  map_items (lower_item index limit).

Lemma map_items_app g a b : map_items g (a ++ b) = map_items g a ++ map_items g b.
Proof. induction a as [|[p d] a IH]; cbn; by rewrite ?IH. Qed.

Lemma map_items_compose g h l : map_items g (map_items h l) = map_items (fun d => g (h d)) l.
Proof. induction l as [|[p d] l IH]; cbn; by rewrite ?IH. Qed.

Lemma map_items_ext g h l : (forall d, d ∈ l.*2 -> g d = h d) -> map_items g l = map_items h l.
Proof.
  induction l as [|[p d] l IH]; intros H; [done|]. cbn. rewrite IH, H; [done|by left|].
  intros d' Hd. apply H. by right.
Qed.

Lemma map_items_id g l : (forall d, d ∈ l.*2 -> g d = d) -> map_items g l = l.
Proof.
  intros H. rewrite (map_items_ext g (fun d => d)) by done.
  induction l as [|[p d] l IH]; cbn; [done|]. rewrite IH; [done|]. intros d' Hd. apply H. by right.
Qed.

Lemma map_items_snd g l : (map_items g l).*2 = map g (l.*2).
Proof. induction l as [|[p d] l IH]; cbn; by rewrite ?IH. Qed.

Lemma zlen_positive {A} (l : list A) : l <> [] -> 0 < zlen l.
Proof. destruct l; [done|]. intros _. rewrite zlen_cons. pose proof (zlen_nonneg l). lia. Qed.

Section Rules.
Context {W : Type} `{!TreeHandler W} `{!TreeHandlerLaws W}.
Local Abbreviation T := (hubbub_treebuilder W).
Local Abbreviation M := (comp (hubbub_treebuilder W)).

(** A pointer of the list is not NULL. *)
Lemma st_ptr R X s a p d b (t : T) : st R X s (a ++ (p, d) :: b) t -> p <> NULL.
Proof. intros Hst. pose proof (ac_ptrs _ _ (st_active _ _ _ _ _ Hst)) as H. by apply good_ptrs_mid in H as []. Qed.

(** ** Reindexing *)

Lemma wp_reindex_loop f slot a : forall fuel R X s b t (Q : unit -> T -> Prop) E,
  st R X s (a ++ b) t -> (length a < fuel)%nat ->
  (forall t', st R X s (reindexed slot (f slot) a ++ b) t' -> Q tt t') ->
  wp (reindex_loop fuel (last_ptr a) slot f) Q E t.
Proof.
  induction a as [|[p d] a IH] using rev_ind; intros fuel R X s b t Q E Hst Hf HQ;
    (destruct fuel as [|fuel]; [cbn in Hf; lia|]).
  - by apply HQ.
  - rewrite length_app in Hf. cbn in Hf.
    rewrite <-(assoc_L (++)) in Hst. cbn [app] in Hst. pose proof (st_ptr _ _ _ _ _ _ _ _ Hst) as Hp.
    rewrite last_or_app. cbn [reindex_loop last_or].
    rewrite (proj2 (Z.eqb_neq p NULL)) by done.
    eapply wp_bind, (wp_entry_get Hst); [done|]. cbn [entry_of fe_stack_index fe_prev].
    unfold reindexed in HQ. rewrite map_items_app in HQ. cbn [map_items map] in HQ.
    unfold move_item at 2 in HQ. eapply wp_bind. destruct (it_index d =? slot).
    + eapply (wp_entry_upd Hst) with (d' := with_index (f slot) d); [done|done|].
      intros t' Hst'. eapply IH; [done|lia|]. intros t'' Hst''. apply HQ. by rewrite <-(assoc_L (++)).
    + apply wp_ret. eapply IH; [done|lia|]. intros t'' Hst''. apply HQ. by rewrite <-(assoc_L (++)).
Qed.

Lemma wp_reindex f slot R X s l t (Q : unit -> T -> Prop) E :
  st R X s l t -> (forall t', st R X s (reindexed slot (f slot) l) t' -> Q tt t') ->
  wp (reindex slot f) Q E t.
Proof.
  intros Hst HQ. eapply wp_bind, (wp_walk_fuel Hst). eapply wp_bind, (wp_list_end Hst).
  rewrite <-(app_nil_r l) in Hst. eapply wp_reindex_loop; [done|lia|].
  intros t' Hst'. apply HQ. by rewrite app_nil_r in Hst'.
Qed.

(** ** Cells *)

Lemma insert_mid {A} (a : list A) x y b i :
  i = zlen a -> <[Z.to_nat i := y]> (a ++ x :: b) = a ++ y :: b.
Proof.
  intros ->. unfold zlen. rewrite Nat2Z.id. rewrite insert_app_r_alt by lia.
  by rewrite Nat.sub_diag.
Qed.

(** Other cells and another current node. *)
Lemma st_restack (f : treebuilder_context -> treebuilder_context) R X s s' l (t : T) spare :
  st R X s l t -> s' <> [] ->
  tc_element_stack (f (tb_context t)) = rev s' ++ spare ->
  tc_current_node (f (tb_context t)) = zlen s' - 1 ->
  zlen (rev s' ++ spare) <= 2 ^ 31 ->
  rest (set_tb_context (f (tb_context t)) t) = rest t ->
  tc_formatting_list (f (tb_context t)) = tc_formatting_list (tb_context t) ->
  tc_formatting_list_end (f (tb_context t)) = tc_formatting_list_end (tb_context t) ->
  st R X s' l (set_tb_context (f (tb_context t)) t).
Proof.
  intros [<- Ho [] Hk] Hs Hst Hc Hm Hr Hf He. constructor; [done| | |done].
  - constructor; [done|done|cbn; by rewrite Hst|cbn; eauto].
  - constructor; cbn; congruence.
Qed.

Lemma st_stack R X s l (t : T) :
  st R X s l t -> exists spare, tc_element_stack (tb_context t) = rev s ++ spare /\
    zlen (rev s ++ spare) <= 2 ^ 31.
Proof. intros [_ [_ _ Hm [spare Hs]] _ _]. exists spare. by rewrite <-Hs. Qed.

Lemma wp_upd_cell f R X a c b l t (Q : unit -> T -> Prop) E :
  st R X (a ++ c :: b) l t ->
  (forall t', st R X (a ++ f c :: b) l t' -> Q tt t') -> wp (upd_cell (zlen b) f) Q E t.
Proof.
  intros Hst HQ. eapply wp_bind, (wp_cell Hst); [apply at_index_mid|].
  apply wp_modify, HQ. destruct (st_stack _ _ _ _ _ Hst) as (spare & Hs & Hm).
  apply (st_restack (fun x => set_tc_element_stack (<[Z.to_nat (zlen b) := f c]> (tc_element_stack x)) x)
           _ _ _ _ _ _ spare Hst); try done.
  - by destruct a.
  - cbn. rewrite Hs, !rev_app_distr. cbn [rev]. rewrite <-!(assoc_L (++)). cbn [app].
    apply insert_mid. by rewrite zlen_rev.
  - cbn. rewrite (st_current Hst), !zlen_app, !zlen_cons. done.
  - revert Hm. rewrite !zlen_app, !zlen_rev, !zlen_app, !zlen_cons. done.
Qed.

(** ** Pushing *)
Context (alloc_ok : nat -> Z -> bool) (Hlimit : alloc_limit alloc_ok).

Definition new_cell (ns : hubbub_ns) (type : element_type) (node : Z) : element_context :=
  {| ec_ns := Some ns; ec_type := Some type; ec_tainted := Some false; ec_node := Some node |}.

(** There is room for one more cell, or the memory is short. *)
Lemma wp_room R X s l t (Q : unit -> T -> Prop) (E : hubbub_error -> T -> Prop) :
  st R X s l t ->
  (forall t' c spare, st R X s l t' -> tc_element_stack (tb_context t') = rev s ++ c :: spare ->
     Q tt t') ->
  (forall t', st R X s l t' -> E HUBBUB_NOMEM t') ->
  wp (if zlen (tc_element_stack (tb_context t)) <=? zlen s then
        let! ok := alloc alloc_ok ((zlen (tc_element_stack (tb_context t)) + ELEMENT_STACK_CHUNK)
                                   * SIZEOF_ELEMENT_CONTEXT) in
        if (ok : bool)
        then upd_ctx (set_tc_element_stack
               (tc_element_stack (tb_context t) ++ zrep ELEMENT_STACK_CHUNK blank_element))
        else return_early HUBBUB_NOMEM
      else ret tt) Q E t.
Proof.
  intros Hst HQ HE. destruct (st_stack _ _ _ _ _ Hst) as (spare & Hs & Hm).
  destruct (Z.leb_spec (zlen (tc_element_stack (tb_context t))) (zlen s)) as [Hle|Hlt].
  - assert (spare = []) as ->.
    { apply zlen_zero_inv. rewrite Hs, zlen_app, zlen_rev in Hle. pose proof (zlen_nonneg spare). lia. }
    rewrite app_nil_r in *. apply wp_bind. unfold wp at 1, alloc.
    set (t1 := set_tb_calls _ t).
    assert (Hst1 : st R X s l t1) by (destruct Hst as [<- Ho [] Hk]; by constructor).
    destruct (alloc_ok _ _) eqn:Hok; [|by apply HE].
    apply Hlimit in Hok. rewrite Hs in Hok. unfold ELEMENT_STACK_CHUNK, SIZEOF_ELEMENT_CONTEXT in Hok.
    apply wp_modify. eapply (HQ _ blank_element (zrep 127 blank_element)); [|cbn; by rewrite Hs].
    apply (st_restack (set_tc_element_stack (tc_element_stack (tb_context t) ++
             zrep ELEMENT_STACK_CHUNK blank_element)) _ _ _ _ _ _
             (zrep ELEMENT_STACK_CHUNK blank_element) Hst1); try done.
    + apply Hst.
    + cbn. by rewrite Hs.
    + cbn. apply (st_current Hst).
    + rewrite zlen_app, zlen_zrep. unfold ELEMENT_STACK_CHUNK. lia.
  - apply wp_ret. destruct spare as [|c spare].
    + rewrite Hs, app_nil_r, zlen_rev in Hlt. lia.
    + by eapply HQ.
Qed.

Lemma wp_push ns type node R X s l t (Q : hubbub_error -> T -> Prop) (E : hubbub_error -> T -> Prop) :
  st R X s l t ->
  (forall t', st R X (new_cell ns type node :: s) l t' -> Q HUBBUB_OK t') ->
  (forall t', st R X s l t' -> E HUBBUB_NOMEM t') ->
  wp (element_stack_push alloc_ok ns type node) Q E t.
Proof.
  intros Hst HQ HE. unfold element_stack_push. eapply wp_bind, (wp_top_index Hst).
  pose proof (st_bound Hst). pose proof (st_positive Hst).
  replace (u32 (zlen s - 1 + 1)) with (zlen s) by (rewrite u32_small; lia).
  eapply wp_bind, wp_ctx. eapply wp_bind, (wp_room _ _ _ _ _ _ _ Hst); [|done].
  clear t Hst. intros t c spare Hst Hs.
  pose proof (op_max _ _ (st_open _ _ _ _ _ Hst)) as Hm. rewrite Hs in Hm.
  eapply wp_bind, wp_bind. unfold cell. eapply wp_bind, wp_ctx.
  eapply (wp_of_option _ c).
  { rewrite Hs, znth_app_r by (rewrite zlen_rev; lia). by rewrite zlen_rev, Z.sub_diag. }
  apply wp_modify. apply wp_bind, wp_modify. apply wp_ret, HQ.
  apply (st_restack (fun x => set_tc_current_node (zlen s)
           (set_tc_element_stack (<[Z.to_nat (zlen s) := new_cell ns type node]> (tc_element_stack x)) x))
           _ _ _ (new_cell ns type node :: s) _ t spare Hst); try done.
  - cbn. rewrite Hs, insert_mid by (by rewrite zlen_rev). by rewrite <-(assoc_L (++)).
  - cbn. rewrite zlen_cons. lia.
  - cbn [rev]. revert Hm. rewrite !zlen_app, !zlen_cons, zlen_nil. lia.
Qed.

(** ** Popping *)

(** The list when an element of type [ty] at [slot] is popped. *)
Definition popped (ty : element_type) (slot : Z) (l : list (Z * item)) : list (Z * item) :=
  if listed ty then reindexed slot 0 l else l.

Lemma wp_drop_top R X c s l t (Q : unit -> T -> Prop) E :
  st R X (c :: s) l t -> s <> [] ->
  (forall t', st R X s l t' -> Q tt t') ->
  wp (upd_ctx (set_tc_current_node (zlen s - 1))) Q E t.
Proof.
  intros Hst Hs HQ. apply wp_modify, HQ. destruct (st_stack _ _ _ _ _ Hst) as (spare & Hc & Hm).
  cbn [rev] in Hc, Hm. rewrite <-(assoc_L (++)) in Hc, Hm.
  by apply (st_restack (set_tc_current_node (zlen s - 1)) _ _ _ _ _ _ ([c] ++ spare) Hst).
Qed.

Lemma wp_pop R X c ty s l t (Q : element_context -> T -> Prop) E :
  st R X (c :: s) l t -> s <> [] -> ec_type c = Some ty ->
  (forall t', st R X s (popped ty (zlen s) l) t' -> Q c t') ->
  wp element_stack_pop Q E t.
Proof.
  intros Hst Hs Hc HQ. unfold element_stack_pop. eapply wp_bind, (wp_top_index Hst).
  pose proof (st_bound Hst). pose proof (zlen_positive s Hs).
  rewrite !zlen_cons in *. replace (1 + zlen s - 1) with (zlen s) by lia.
  eapply wp_bind, (wp_stack_type Hst); [apply at_index_top|done|].
  assert (Hl : forall (Q' : unit -> T -> Prop),
    (forall t', st R X (c :: s) (popped ty (zlen s) l) t' -> Q' tt t') ->
    wp (if listed ty then reindex (zlen s) (fun _ => 0) else ret tt) Q' E t).
  { intros Q' HQ'. unfold popped in HQ'. destruct (listed ty).
    - by eapply wp_reindex. - by apply HQ'. }
  eapply wp_bind, Hl. clear t Hst Hl. intros t Hst.
  eapply wp_bind, (wp_cell Hst); [apply at_index_top|].
  rewrite u32_small by lia. eapply wp_bind, (wp_drop_top _ _ _ _ _ _ _ _ Hst); [done|].
  clear t Hst. intros t Hst. apply wp_bind, wp_assert; [lia|]. by apply wp_ret, HQ.
Qed.

Lemma wp_pop_unref R X c ty n s l t (Q : element_type -> T -> Prop) E :
  st R X (c :: s) l t -> s <> [] -> ec_type c = Some ty -> ec_node c = Some n ->
  (forall t', st R X s (popped ty (zlen s) l) t' -> Q ty t') ->
  wp pop_unref Q E t.
Proof.
  intros Hst Hs Hc Hn HQ. eapply wp_bind, (wp_pop _ _ _ _ _ _ _ _ _ Hst); [done|done|].
  clear t Hst. intros t Hst. eapply wp_bind, wp_of_option; [done|].
  eapply wp_bind, (wp_unref_node Hst). clear t Hst. intros t Hst. eapply wp_of_option; [done|]. by apply HQ.
Qed.

(** ** Removing from the middle *)

Lemma zwrite_shift {A} (a b d : list A) c x :
  zwrite (zlen a) (ztake (zlen (b ++ [x])) (zdrop (zlen a + 1) (a ++ c :: b ++ x :: d)))
    (a ++ c :: b ++ x :: d) = a ++ b ++ x :: x :: d.
Proof.
  assert (Hz : zdrop (zlen a + 1) (a ++ c :: b ++ x :: d) = b ++ x :: d).
  { rewrite zdrop_app_ge by lia. replace (zlen a + 1 - zlen a) with 1 by lia. done. }
  rewrite Hz. change (x :: d) with ([x] ++ d) at 1. rewrite (assoc_L (++)).
  rewrite ztake_app_le, (ztake_ge (zlen (b ++ [x]))) by lia.
  unfold zwrite. rewrite ztake_app_le, ztake_ge by lia. f_equal.
  rewrite <-(assoc_L (++)). cbn [app]. f_equal. f_equal.
  rewrite zdrop_app_ge by (pose proof (zlen_nonneg (b ++ [x])); lia).
  replace (zlen a + zlen (b ++ [x]) - zlen a) with (zlen (b ++ [x])) by lia.
  change (c :: b ++ x :: d) with ((c :: b) ++ x :: d). rewrite zdrop_app_ge by (rewrite zlen_app, zlen_cons, zlen_cons, zlen_nil; lia).
  rewrite zlen_app, !zlen_cons, zlen_nil.
  replace (zlen b + (1 + 0) - (1 + zlen b)) with 0 by lia. done.
Qed.

(** The cells above [c] and up to [x] move down over it, and [x] stays. *)
Lemma wp_shuffle R X y x z c b l t (Q : unit -> T -> Prop) E :
  st R X (y ++ x :: z ++ c :: b) l t ->
  (forall t', st R X (y ++ x :: x :: z ++ b) l t' -> Q tt t') ->
  wp (shuffle (zlen b) (zlen (z ++ c :: b))) Q E t.
Proof.
  intros Hst HQ. apply wp_modify, HQ. destruct (st_stack _ _ _ _ _ Hst) as (spare & Hc & Hm).
  apply (st_restack (fun x' => set_tc_element_stack (zwrite (zlen b)
    (ztake (zlen (z ++ c :: b) - zlen b) (zdrop (zlen b + 1) (tc_element_stack x')))
       (tc_element_stack x')) x') _ _ _ _ _ _ spare Hst); try done.
  - by destruct y.
  - cbn. rewrite Hc, !rev_app_distr. cbn [rev]. rewrite !rev_app_distr. cbn [rev].
    rewrite <-!(assoc_L (++)). cbn [app].
    replace (zlen (z ++ c :: b) - zlen b) with (zlen (rev z ++ [x]))
      by (rewrite !zlen_app, !zlen_cons, zlen_rev, zlen_nil; lia).
    rewrite <-(zlen_rev b). apply zwrite_shift.
  - cbn. rewrite (st_current Hst), !zlen_app, !zlen_cons, !zlen_app, !zlen_cons. lia.
  - revert Hm. rewrite !zlen_app, !zlen_rev, !zlen_app, !zlen_cons, !zlen_app, !zlen_cons. lia.
Qed.

(** ** Indices of the cells that move *)

(** Only listed elements have items. *)
Definition owned (s : list element_context) (l : list (Z * item)) : Prop :=
  forall d, d ∈ l.*2 -> it_index d <> 0 ->
    exists c ty, at_index s (it_index d) = Some c /\ ec_type c = Some ty /\ listed ty = true.

Lemma wp_reindex_range index k : forall R X s l0 m t (Q : unit -> T -> Prop) E,
  st R X s (lowered index m l0) t -> owned s l0 ->
  0 <= index <= m -> m + Z.of_nat k < zlen s -> Forall (fun c => is_Some (ec_type c)) s ->
  (forall t', st R X s (lowered index (m + Z.of_nat k) l0) t' -> Q tt t') ->
  wp (reindex_range k (m + 1)) Q E t.
Proof.
  induction k as [|k IH]; intros R X s l0 m t Q E Hst Ho Hi Hk Hty HQ.
  - apply HQ. by rewrite Z.add_0_r.
  - cbn [reindex_range].
    assert (exists c, at_index s (m + 1) = Some c) as [c Hc].
    { apply znth_is_Some. rewrite zlen_rev. lia. }
    assert (exists ty, ec_type c = Some ty) as [ty Ht].
    { rewrite Forall_forall in Hty. apply Hty.
      destruct (at_index_split _ _ _ Hc) as (a & b & -> & _). apply elem_of_app; right; by left. }
    eapply wp_bind, (wp_stack_type Hst); [done..|]. apply wp_bind.
    assert (Hn : forall t', st R X s (lowered index (m + 1) l0) t' -> wp (reindex_range k (m + 1 + 1)) Q E t').
    { intros t' Hst'. eapply IH; [done|done|lia|lia|done|].
      intros t'' Hst''. apply HQ. by replace (m + Z.of_nat (S k)) with (m + 1 + Z.of_nat k) by lia. }
    destruct (listed ty) eqn:Hl.
    + eapply wp_reindex; [done|]. intros t' Hst'. apply Hn.
      replace (lowered index (m + 1) l0) with (reindexed (m + 1) (u32 (m + 1 - 1)) (lowered index m l0)); [done|].
      pose proof (st_bound Hst). rewrite u32_small by lia.
      unfold reindexed, lowered. rewrite map_items_compose. apply map_items_ext. intros d Hd.
      unfold move_item, lower_item.
      destruct (Z.ltb_spec index (it_index d)), (Z.leb_spec (it_index d) m), (Z.leb_spec (it_index d) (m + 1));
        cbn [andb with_index it_index]; try lia.
      all: repeat match goal with |- context [?a =? ?b] => destruct (Z.eqb_spec a b) end; try done; try lia.
      by replace (it_index d - 1) with (m + 1 - 1) by lia.
    + apply wp_ret, Hn. replace (lowered index (m + 1) l0) with (lowered index m l0); [done|].
      apply map_items_ext. intros d Hd. unfold lower_item.
      destruct (Z.ltb_spec index (it_index d)), (Z.leb_spec (it_index d) m), (Z.leb_spec (it_index d) (m + 1));
        cbn [andb]; try done; try lia.
      exfalso. destruct (Ho d Hd) as (c' & ty' & Hc' & Ht' & Hl'); [lia|].
      replace (it_index d) with (m + 1) in Hc' by lia. congruence.
Qed.

Definition typed (s : list element_context) : Prop := Forall (fun c => is_Some (ec_type c)) s.

Lemma lowered_none index l : lowered index index l = l.
Proof.
  apply map_items_id. intros d _. unfold lower_item.
  destruct (Z.ltb_spec index (it_index d)), (Z.leb_spec (it_index d) index); try done; lia.
Qed.

(** The items above [index] and up to [limit], when the cells there are known. *)
Lemma wp_lower index limit R X s l t (Q : unit -> T -> Prop) E :
  st R X s l t -> owned s l -> typed s -> 0 <= index <= limit -> limit < zlen s ->
  (forall t', st R X s (lowered index limit l) t' -> Q tt t') ->
  wp (reindex_range (Z.to_nat (limit - index)) (index + 1)) Q E t.
Proof.
  intros Hst Ho Hty Hi Hl HQ.
  eapply (wp_reindex_range index (Z.to_nat (limit - index)) R X s l index); [|done|lia|lia|done|].
  - by rewrite lowered_none.
  - intros t' Hst'. apply HQ. by replace limit with (index + Z.of_nat (Z.to_nat (limit - index))) by lia.
Qed.

Lemma wp_stack_remove R X a c b l t (Q : element_context -> T -> Prop) E :
  st R X (a ++ c :: b) l t -> b <> [] -> owned (a ++ c :: b) l -> typed (a ++ c :: b) ->
  (forall t', st R X (a ++ b) (lowered (zlen b) (zlen (a ++ b)) l) t' -> Q c t') ->
  wp (element_stack_remove (zlen b)) Q E t.
Proof.
  intros Hst Hb Ho Hty HQ. unfold element_stack_remove. eapply wp_bind, (wp_top_index Hst).
  pose proof (st_bound Hst) as Hm. pose proof (zlen_positive b Hb). pose proof (zlen_nonneg a).
  assert (Hz : zlen (a ++ c :: b) - 1 = zlen (a ++ b)) by (rewrite !zlen_app, zlen_cons; lia).
  rewrite Hz. assert (zlen (a ++ b) = zlen a + zlen b) by apply zlen_app.
  apply wp_bind, wp_assert; [lia|].
  eapply wp_bind, (wp_lower (zlen b) (zlen (a ++ b)) _ _ _ _ _ _ _ Hst); [done|done|lia|lia|].
  clear t Hst. intros t Hst. eapply wp_bind, (wp_cell Hst); [apply at_index_mid|].
  rewrite u32_small by lia. apply wp_bind.
  destruct a as [|x z].
  - rewrite (proj2 (Z.ltb_ge _ _)) by (cbn [app]; lia). apply wp_ret.
    eapply wp_bind, (wp_drop_top _ _ _ _ _ _ _ _ Hst); [done|]. intros t' Hst'. by apply wp_ret, HQ.
  - cbn [app] in *. rewrite (proj2 (Z.ltb_lt _ _)) by (rewrite zlen_cons, zlen_app; pose proof (zlen_nonneg z); lia).
    replace (zlen (x :: z ++ b)) with (zlen (z ++ c :: b)) in Hst |- * by (rewrite zlen_cons, !zlen_app, zlen_cons; lia).
    eapply (wp_shuffle _ _ [] x z c b); [exact Hst|]. clear t Hst. intros t Hst. cbn [app] in Hst.
    replace (zlen (z ++ c :: b) - 1) with (zlen (x :: z ++ b) - 1)
      by (rewrite zlen_cons, !zlen_app, zlen_cons; lia).
    eapply wp_bind, (wp_drop_top _ _ _ _ _ _ _ _ Hst); [done|]. intros t' Hst'. apply wp_ret, HQ.
    by replace (zlen (x :: z ++ b)) with (zlen (z ++ c :: b)) by (rewrite zlen_cons, !zlen_app, zlen_cons; lia).
Qed.

(** ** The formatting list *)
Context (malloc : nat -> gmap Z formatting_list_entry -> option Z) (Hmalloc : malloc_fresh malloc).

(** Allocating an entry that is not linked yet. *)
Lemma wp_entry_alloc e (Q : option Z -> T -> Prop) E R X s l t :
  st R X s l t -> (forall t', st R X s l t' -> Q None t') ->
  (forall p calls, p <> NULL -> tb_entries t !! p = None ->
     Q (Some p) (set_tb_entries (<[p := e]> (tb_entries t)) (set_tb_calls calls t))) ->
  wp (entry_alloc malloc e) Q E t.
Proof.
  intros Hst Hn Hs. unfold wp, entry_alloc. destruct (malloc _ _) as [p|] eqn:Hp.
  - apply Hmalloc in Hp as [? ?]. by apply Hs.
  - apply Hn. destruct Hst as [<- Ho [] Hk]. by constructor.
Qed.

Lemma heap_none l p : heap_of l !! p = None -> p ∉ l.*1.
Proof.
  intros H Hp. unfold heap_of in H. apply not_elem_of_list_to_map in H. by rewrite link_fst in H.
Qed.

(** A new list in another heap, whose ends are as assigned. *)
Lemma st_relist R X s l l' (t : T) h calls f :
  st R X s l t -> good_ptrs l' -> h = heap_of l' ->
  tc_formatting_list (f (tb_context t)) = head_ptr l' ->
  tc_formatting_list_end (f (tb_context t)) = last_ptr l' ->
  tc_element_stack (f (tb_context t)) = tc_element_stack (tb_context t) ->
  tc_current_node (f (tb_context t)) = tc_current_node (tb_context t) ->
  rest (set_tb_context (f (tb_context t)) t) = rest t ->
  st R X s l' (set_tb_context (f (tb_context t)) (set_tb_entries h (set_tb_calls calls t))).
Proof.
  intros [<- Ho [] Hk] Hp -> Hf Hl Hs Hc Hr.
  constructor; [done|by eapply open_same| |done]. by constructor.
Qed.

(** Assigning a link, or an end of the list where there is no entry. *)
Lemma wp_link p f g t (Q : unit -> T -> Prop) E :
  (p <> NULL -> is_Some (tb_entries t !! p)) ->
  Q tt (if p =? NULL then set_tb_context (g (tb_context t)) t
        else set_tb_entries (assign p f (tb_entries t)) t) ->
  wp (if negb (p =? NULL) then entry_upd p f else upd_ctx g) Q E t.
Proof.
  intros Hp HQ. destruct (Z.eqb_spec p NULL) as [->|Hn]; cbn [negb].
  - by apply wp_modify.
  - destruct (Hp Hn) as [e He]. unfold entry_upd, entry_get. apply wp_bind, wp_bind, wp_gets.
    eapply wp_of_option; [done|]. apply wp_modify. unfold assign in HQ.
    by rewrite (proj2 (Z.eqb_neq p NULL)), He in HQ.
Qed.

Lemma heap_is_Some l p : p ∈ l.*1 -> is_Some (heap_of l !! p).
Proof.
  intros Hp. unfold heap_of. apply not_eq_None_Some. intros H%not_elem_of_list_to_map.
  by rewrite link_fst in H.
Qed.

Lemma assign_is_Some p f h q : is_Some (h !! q) -> is_Some (assign p f h !! q).
Proof.
  intros H. unfold assign. destruct (p =? NULL); [done|]. destruct (h !! p); [|done].
  destruct (decide (p = q)) as [<-|]; [by rewrite lookup_insert_eq|by rewrite lookup_insert_ne].
Qed.

Lemma last_ptr_is_Some a b : last_ptr a <> NULL -> is_Some (heap_of (a ++ b) !! last_ptr a).
Proof.
  intros H. apply heap_is_Some. rewrite fmap_app. apply elem_of_app; left.
  by destruct (last_ptr_In a) as [[? _]|?].
Qed.

Lemma head_ptr_is_Some a b : head_ptr b <> NULL -> is_Some (heap_of (a ++ b) !! head_ptr b).
Proof.
  intros H. apply heap_is_Some. rewrite fmap_app. apply elem_of_app; right.
  destruct b as [|[q dq] b]; [done|]. by left.
Qed.

Lemma good_ptrs_new l p d a b :
  good_ptrs l -> l = a ++ b -> p <> NULL -> p ∉ l.*1 -> good_ptrs (a ++ (p, d) :: b).
Proof. intros Hg -> Hp Hn. by apply good_ptrs_mid. Qed.

Lemma good_ptrs_head a : good_ptrs a -> head_ptr a = NULL -> a = [].
Proof. destruct a as [|[q dq] a]; [done|]. intros H%good_ptrs_cons E. cbn in E. tauto. Qed.
Lemma good_ptrs_last a : good_ptrs a -> last_ptr a = NULL -> a = [].
Proof.
  intros [_ H] E. destruct (last_ptr_In a) as [[_ ?]|Hl]; [done|]. by rewrite E in Hl.
Qed.

(** What links an entry between [a] and [b]. *)
Lemma wp_link_both p d a b calls R X s t (Q : hubbub_error -> T -> Prop) E :
  st R X s (a ++ b) t -> p <> NULL -> tb_entries t !! p = None ->
  (forall t', st R X s (a ++ (p, d) :: b) t' -> Q HUBBUB_OK t') ->
  wp (do! (if negb (last_ptr a =? NULL) then entry_upd (last_ptr a) (set_fe_next p)
           else upd_ctx (set_tc_formatting_list p)) in
      do! (if negb (head_ptr b =? NULL) then entry_upd (head_ptr b) (set_fe_prev p)
           else upd_ctx (set_tc_formatting_list_end p)) in
      ret HUBBUB_OK) Q E
    (set_tb_entries (<[p := entry_of d (last_ptr a) (head_ptr b)]> (tb_entries t)) (set_tb_calls calls t)).
Proof.
  intros Hst Hp Hn HQ. pose proof (st_active _ _ _ _ _ Hst) as [Hg Hf Hl Hh]. rewrite Hh in *.
  apply heap_none in Hn. pose proof (good_ptrs_new _ p d a b Hg eq_refl Hp Hn) as Hg'.
  destruct (good_ptrs_app _ _ Hg) as [Ha Hb].
  apply wp_bind, wp_link.
  { intros Hz. apply lookup_insert_is_Some'; right. by apply last_ptr_is_Some. }
  apply wp_bind, wp_link.
  { intros Hz. destruct (last_ptr a =? NULL); [|apply assign_is_Some];
      apply lookup_insert_is_Some'; right; by apply head_ptr_is_Some. }
  apply wp_ret, HQ. pose proof (heap_insert a p d b Hg') as Hh'.
  destruct (Z.eqb_spec (last_ptr a) NULL) as [Ea|Ea], (Z.eqb_spec (head_ptr b) NULL) as [Eb|Eb].
  - apply good_ptrs_last in Ea as ->; [|done]. apply good_ptrs_head in Eb as ->; [|done].
    by apply (st_relist _ _ _ _ _ _ _ calls
      (fun x => set_tc_formatting_list_end p (set_tc_formatting_list p x)) Hst Hg' Hh').
  - apply good_ptrs_last in Ea as ->; [|done].
    apply (st_relist _ _ _ _ _ _ _ calls (set_tc_formatting_list p) Hst Hg' Hh'); try done.
    cbn. rewrite Hl. by destruct b as [|[]].
  - apply good_ptrs_head in Eb as ->; [|done].
    apply (st_relist _ _ _ _ _ _ _ calls (set_tc_formatting_list_end p) Hst Hg' Hh'); try done.
    + cbn. rewrite Hf. by destruct a as [|[]].
    + cbn. by rewrite last_or_app.
  - apply (st_relist _ _ _ _ _ _ _ calls (fun x => x) Hst Hg' Hh'); try done.
    + cbn. rewrite Hf. by destruct a as [|[]].
    + cbn. rewrite Hl, !last_or_app. by destruct b as [|[]].
Qed.

Definition new_item (ns : hubbub_ns) (type : element_type) (node index : Z) : item :=
  {| it_ns := ns; it_type := type; it_node := node; it_index := index |}.

Lemma wp_list_append ns type node index R X s l t (Q : hubbub_error -> T -> Prop) E :
  st R X s l t ->
  (forall p t', p <> NULL -> st R X s (l ++ [(p, new_item ns type node index)]) t' -> Q HUBBUB_OK t') ->
  (forall t', st R X s l t' -> Q HUBBUB_NOMEM t') ->
  wp (formatting_list_append malloc ns type node index) Q E t.
Proof.
  intros Hst HQ Hmem. eapply wp_bind, (wp_list_end Hst). eapply wp_bind, (wp_entry_alloc _ _ _ _ _ _ _ _ Hst).
  - intros t' Hst'. by apply wp_ret, Hmem.
  - intros p calls Hp Hn. rewrite <-(app_nil_r l) in Hst.
    change NULL with (head_ptr []) at 1.
    apply (wp_link_both p (new_item ns type node index) l [] calls R X s t Q E Hst Hp Hn).
    intros t'. by apply HQ.
Qed.

(** The neighbours of a place in the list. *)
Lemma wp_check_next R X s a b t (Q : unit -> T -> Prop) E :
  st R X s (a ++ b) t -> Q tt t ->
  wp (if negb (last_ptr a =? NULL)
      then let! e := entry_get (last_ptr a) in assert (fe_next e =? head_ptr b) else ret tt) Q E t.
Proof.
  intros Hst HQ. destruct (Z.eqb_spec (last_ptr a) NULL) as [|Hz]; [done|cbn [negb]].
  destruct a as [|[q dq] a _] using rev_ind; [done|].
  rewrite last_or_app in *. rewrite <-(assoc_L (++)) in Hst. cbn [last_or app] in *.
  eapply wp_bind, (wp_entry_get Hst); [done|]. apply wp_assert; [|done]. cbn. lia.
Qed.

Lemma wp_check_prev R X s a b t (Q : unit -> T -> Prop) E :
  st R X s (a ++ b) t -> Q tt t ->
  wp (if negb (head_ptr b =? NULL)
      then let! e := entry_get (head_ptr b) in assert (fe_prev e =? last_ptr a) else ret tt) Q E t.
Proof.
  intros Hst HQ. destruct (Z.eqb_spec (head_ptr b) NULL) as [|Hz]; [done|cbn [negb]].
  destruct b as [|[q dq] b]; [done|]. cbn [head_or] in *.
  eapply wp_bind, (wp_entry_get Hst); [done|]. apply wp_assert; [|done]. cbn. lia.
Qed.

Lemma wp_list_insert ns type node index R X s a b t (Q : hubbub_error -> T -> Prop) E :
  st R X s (a ++ b) t ->
  (forall p t', p <> NULL -> st R X s (a ++ (p, new_item ns type node index) :: b) t' -> Q HUBBUB_OK t') ->
  (forall t', st R X s (a ++ b) t' -> Q HUBBUB_NOMEM t') ->
  wp (formatting_list_insert malloc (last_ptr a) (head_ptr b) ns type node index) Q E t.
Proof.
  intros Hst HQ Hmem. eapply wp_bind, (wp_check_next _ _ _ _ _ _ _ _ Hst).
  eapply wp_bind, (wp_check_prev _ _ _ _ _ _ _ _ Hst).
  eapply wp_bind, (wp_entry_alloc _ _ _ _ _ _ _ _ Hst).
  - intros t' Hst'. by apply wp_ret, Hmem.
  - intros p calls Hp Hn.
    apply (wp_link_both p (new_item ns type node index) a b calls R X s t Q E Hst Hp Hn).
    intros t'. by apply HQ.
Qed.

Lemma good_ptrs_ends a p d b :
  good_ptrs (a ++ (p, d) :: b) ->
  p <> NULL /\ (a <> [] -> head_ptr a <> p /\ last_ptr a <> NULL) /\
  (b <> [] -> last_or p b <> p /\ head_ptr b <> NULL).
Proof.
  intros H. pose proof H as (Hp & Hn & Hg)%good_ptrs_mid. rewrite fmap_app, not_elem_of_app in Hn.
  destruct (good_ptrs_app _ _ Hg) as [Ha Hb]. split; [done|]. split.
  - intros Hz. split; [|intros ?; by apply Hz, good_ptrs_last].
    destruct a as [|[q dq] a]; [done|]. cbn. intros ->. destruct Hn as [Hn _]. apply Hn. by left.
  - intros Hz. split; [|intros ?; by apply Hz, good_ptrs_head].
    destruct b as [|[q dq] b _] using rev_ind; [done|]. rewrite last_or_app. cbn. intros ->.
    destruct Hn as [_ Hn]. apply Hn. rewrite fmap_app. apply elem_of_app; right. by left.
Qed.

(** The same with an assertion on whether the entry is at that end. *)
Lemma wp_unlink q f g (c : bool) t (Q : unit -> T -> Prop) E :
  (q = NULL -> c = true) -> (q <> NULL -> c = false) -> (q <> NULL -> is_Some (tb_entries t !! q)) ->
  Q tt (if q =? NULL then set_tb_context (g (tb_context t)) t
        else set_tb_entries (assign q f (tb_entries t)) t) ->
  wp (if q =? NULL then do! assert c in upd_ctx g else do! assert (negb c) in entry_upd q f) Q E t.
Proof.
  intros H1 H2 H3 HQ. destruct (Z.eqb_spec q NULL) as [Eq|Nq].
  - rewrite H1 by done. apply wp_bind, wp_assert; [done|]. by apply wp_modify.
  - rewrite H2 by done. apply wp_bind, wp_assert; [done|].
    pose proof (wp_link q f g t Q E H3) as Hw. rewrite (proj2 (Z.eqb_neq _ _) Nq) in Hw. by apply Hw.
Qed.

Lemma wp_entry_free p t (Q : unit -> T -> Prop) E :
  is_Some (tb_entries t !! p) -> Q tt (set_tb_entries (delete p (tb_entries t)) t) ->
  wp (entry_free p) Q E t.
Proof.
  intros [e He] HQ. apply wp_bind, wp_bind, wp_gets. eapply wp_of_option; [done|]. by apply wp_modify.
Qed.

(** The state after an entry is unlinked and freed. *)
Lemma st_unlinked R X s a p d b (t : T) :
  st R X s (a ++ (p, d) :: b) t ->
  let t1 := if last_ptr a =? NULL then set_tb_context (set_tc_formatting_list (head_ptr b) (tb_context t)) t
            else set_tb_entries (assign (last_ptr a) (set_fe_next (head_ptr b)) (tb_entries t)) t in
  let t2 := if head_ptr b =? NULL
            then set_tb_context (set_tc_formatting_list_end (last_ptr a) (tb_context t1)) t1
            else set_tb_entries (assign (head_ptr b) (set_fe_prev (last_ptr a)) (tb_entries t1)) t1 in
  is_Some (tb_entries t2 !! p) /\ st R X s (a ++ b) (set_tb_entries (delete p (tb_entries t2)) t2).
Proof.
  intros Hst t1 t2. pose proof (st_active _ _ _ _ _ Hst) as [Hg Hf Hl Hh].
  pose proof (proj1 (good_ptrs_mid _ _ _ _) Hg) as (_ & _ & Hg').
  destruct (good_ptrs_app _ _ Hg') as [Ha Hb].
  pose proof (heap_remove a p d b Hg) as Hr. rewrite <-Hh in Hr.
  assert (Hpp : is_Some (tb_entries t !! p)) by (rewrite Hh, heap_lookup; eauto).
  subst t1 t2. rewrite !head_or_app, !last_or_app in *. cbn [head_or last_or] in *.
  destruct (Z.eqb_spec (last_ptr a) NULL) as [Ea|Ea], (Z.eqb_spec (head_ptr b) NULL) as [Eb|Eb];
    (split; [repeat apply assign_is_Some; done|]).
  - apply good_ptrs_last in Ea as ->; [|done]. apply good_ptrs_head in Eb as ->; [|done].
    apply (st_relist _ _ _ _ _ _ _ (tb_calls t) (fun x => set_tc_formatting_list_end NULL (set_tc_formatting_list NULL x)) Hst Hg' Hr); try done.
  - apply good_ptrs_last in Ea as ->; [|done].
    apply (st_relist _ _ _ _ _ _ _ (tb_calls t) (set_tc_formatting_list (head_ptr b)) Hst Hg' Hr); try done.
    + cbn. rewrite Hl. by destruct b as [|[]].
  - apply good_ptrs_head in Eb as ->; [|done]. rewrite app_nil_r in *.
    apply (st_relist _ _ _ _ _ _ _ (tb_calls t) (set_tc_formatting_list_end (last_ptr a)) Hst Hg' Hr); try done.
    + cbn. rewrite Hf. by destruct a as [|[]].
  - apply (st_relist _ _ _ _ _ _ _ (tb_calls t) (fun x => x) Hst Hg' Hr); try done.
    + cbn. rewrite Hf, head_or_app. by destruct a as [|[]].
    + cbn. rewrite Hl, last_or_app. by destruct b as [|[]].
Qed.

Lemma wp_list_remove R X s a p d b t (Q : formatting_list_entry -> T -> Prop) E :
  st R X s (a ++ (p, d) :: b) t ->
  (forall t', st R X s (a ++ b) t' -> Q (entry_of d (last_ptr a) (head_ptr b)) t') ->
  wp (formatting_list_remove p) Q E t.
Proof.
  intros Hst HQ. pose proof (st_active _ _ _ _ _ Hst) as [Hg Hf Hl Hh].
  destruct (good_ptrs_ends _ _ _ _ Hg) as (Hp & Ha & Hb).
  pose proof (proj1 (good_ptrs_mid _ _ _ _) Hg) as (_ & _ & Hg').
  destruct (good_ptrs_app _ _ Hg') as [Hga Hgb].
  destruct (st_unlinked _ _ _ _ _ _ _ _ Hst) as [Hs Hst'].
  eapply wp_bind, (wp_entry_get Hst); [done|]. eapply wp_bind, (wp_list_first Hst).
  cbn [entry_of fe_prev fe_next]. apply wp_bind, wp_unlink.
  { intros ->%good_ptrs_last; [|done]. cbn. lia. }
  { intros Hz. destruct a as [|[q dq] a']; [done|]. destruct Ha as [Ha _]; [done|]. cbn in *. lia. }
  { intros Hz. rewrite Hh. by apply last_ptr_is_Some. }
  eapply wp_bind, wp_ctx.
  replace (tc_formatting_list_end _) with (last_or p b);
    [|destruct (last_ptr a =? NULL); cbn; by rewrite Hl, last_or_app].
  apply wp_bind, wp_unlink.
  { intros ->%good_ptrs_head; [|done]. cbn. lia. }
  { intros Hz. destruct b as [|[q dq] b']; [done|]. destruct Hb as [Hb _]; [done|]. lia. }
  { intros Hz. assert (is_Some (heap_of (a ++ (p, d) :: b) !! head_ptr b)).
    { change ((p, d) :: b) with ([(p, d)] ++ b). rewrite (assoc_L (++)). by apply head_ptr_is_Some. }
    destruct (last_ptr a =? NULL); cbn; [|apply assign_is_Some]; by rewrite Hh. }
  apply wp_bind, wp_entry_free; [done|]. by apply wp_ret, HQ.
Qed.

Lemma wp_remove_unref R X s a p d b t (Q : unit -> T -> Prop) E :
  st R X s (a ++ (p, d) :: b) t -> (forall t', st R X s (a ++ b) t' -> Q tt t') ->
  wp (remove_unref p) Q E t.
Proof.
  intros Hst HQ. eapply wp_bind, (wp_list_remove _ _ _ _ _ _ _ _ _ _ Hst).
  clear t Hst. intros t Hst. by eapply (wp_unref_node Hst).
Qed.

Lemma wp_list_replace ns type node index R X s a p d b t (Q : formatting_list_entry -> T -> Prop) E :
  st R X s (a ++ (p, d) :: b) t ->
  (forall t', st R X s (a ++ (p, new_item ns type node index) :: b) t' ->
     Q (entry_of d (last_ptr a) (head_ptr b)) t') ->
  wp (formatting_list_replace p ns type node index) Q E t.
Proof.
  intros Hst HQ. eapply wp_bind, (wp_entry_get Hst); [done|].
  eapply wp_bind, (wp_entry_upd Hst) with (d' := new_item ns type node index); [done|done|].
  intros t' Hst'. by apply wp_ret, HQ.
Qed.

(** Clearing takes entries from the end. *)
Lemma wp_clear_marker_loop l : forall fuel R X s t (Q : unit -> T -> Prop) E,
  st R X s l t -> (length l < fuel)%nat ->
  (forall l' m t', l = l' ++ m -> st R X s l' t' -> Q tt t') ->
  wp (clear_marker_loop fuel) Q E t.
Proof.
  induction l as [|[p d] l IH] using rev_ind; intros fuel R X s t Q E Hst Hf HQ;
    (destruct fuel as [|fuel]; [cbn in Hf; lia|]); cbn [clear_marker_loop];
    eapply wp_bind, (wp_list_end Hst).
  - by apply (HQ [] []).
  - rewrite length_app in Hf. cbn in Hf. pose proof (st_ptr _ _ _ _ _ _ _ _ Hst) as Hp.
    rewrite last_or_app. cbn [last_or]. rewrite (proj2 (Z.eqb_neq p NULL)) by done.
    eapply wp_bind, (wp_entry_get Hst); [done|]. eapply wp_bind, (wp_remove_unref _ _ _ _ _ _ _ _ _ _ Hst).
    intros t' Hst'. rewrite app_nil_r in Hst'. cbn [entry_of fe_type].
    destruct (is_scoping_element (it_type d)).
    + by eapply wp_ret, HQ.
    + eapply IH; [done|lia|]. intros l' m t'' -> Hst''. apply (HQ l' (m ++ [(p, d)])); [|done].
      by rewrite (assoc_L (++)).
Qed.

Lemma wp_clear_marker R X s l t (Q : unit -> T -> Prop) E :
  st R X s l t -> (forall l' m t', l = l' ++ m -> st R X s l' t' -> Q tt t') ->
  wp clear_active_formatting_list_to_marker Q E t.
Proof.
  intros Hst HQ. eapply wp_bind, (wp_walk_fuel Hst). eapply wp_clear_marker_loop; [done|lia|done].
Qed.
End Rules.
