(* ===== verification/TreeInv.v ===== *)
(** * TreeInv: what holds of the stack of open elements and of the formatting
    list between the steps of the tree builder.

    The order of the items whose elements are open is that of the elements on
    the stack: this is what keeps the adoption agency from using the entry it
    has freed. *)
From S2P Require Import Prelude.
From S2P Require Import Errors.
From S2P Require Import Tokens.
From S2P Require Import ElementType.
From S2P Require Import TreeState.
From S2P Require Import TreeRepr.
From S2P Require Import TreeStack.
From S2P Require Import TreeRules.
From stdpp Require Import gmap sorting.
Local Open Scope Z_scope.

Definition ty (c : element_context) : element_type := default ET.UNKNOWN (ec_type c).
Definition nd (c : element_context) : Z := default NULL (ec_node c).

Definition open_cell (c : element_context) : Prop :=
  ec_ns c = Some HUBBUB_NS_HTML /\ is_Some (ec_type c) /\ is_Some (ec_tainted c) /\ is_Some (ec_node c).
Definition root_cell (c : element_context) : Prop := ec_type c = Some ET.HTML /\ is_Some (ec_node c).

Fixpoint cells (s : list element_context) : Prop :=
  match s with
  | [] => False
  | [c] => root_cell c
  | c :: s => open_cell c /\ cells s
  end.

(** The types that the formatting list may hold. *)
Definition active_type (type : element_type) : bool :=
  is_formatting_element type ||
  one_of type [ET.APPLET; ET.BUTTON; ET.MARQUEE; ET.OBJECT; ET.TD; ET.TH].

Definition active_item (d : item) : Prop :=
  active_type (it_type d) = true /\ it_ns d = HUBBUB_NS_HTML.

(** The indices of the items that are open. *)
Fixpoint marks (l : list (Z * item)) : list Z :=
  match l with
  | [] => []
  | (_, d) :: l => if it_index d =? 0 then marks l else it_index d :: marks l
  end.

Record inv (X : list Z) (s : list element_context) (l : list (Z * item)) : Prop := {
  iv_cells : cells s;
  iv_nodup : NoDup (map nd s);
  iv_stack_known : Forall (fun c => nd c ∈ X) s;
  iv_list_known : Forall (fun d => it_node d ∈ X) l.*2;
  iv_types : Forall active_item l.*2;
  iv_sorted : StronglySorted Z.lt (marks l);
  iv_open : forall d, d ∈ l.*2 -> it_index d <> 0 ->
    exists c, at_index s (it_index d) = Some c /\ listed (ty c) = true /\ nd c = it_node d /\ ty c = it_type d;
  iv_closed : forall d, d ∈ l.*2 -> it_index d = 0 -> it_node d ∉ map nd s
}.

(** ** Cells *)

Lemma cells_cons c s : s <> [] -> cells (c :: s) <-> open_cell c /\ cells s.
Proof. by destruct s. Qed.

Lemma cells_some s : cells s -> s <> [].
Proof. by destruct s. Qed.

Lemma cells_app a s : s <> [] -> cells (a ++ s) <-> Forall open_cell a /\ cells s.
Proof.
  intros Hs. induction a as [|c a IH]; [by rewrite Forall_nil; cbn; tauto|].
  cbn [app]. rewrite cells_cons, IH, Forall_cons; [tauto|]. by destruct a, s.
Qed.

Lemma cell_type s c : cells s -> c ∈ s -> ec_type c = Some (ty c) /\ ec_node c = Some (nd c).
Proof.
  intros Hs Hc. unfold ty, nd. induction s as [|x s IH]; [done|].
  assert (is_Some (ec_type x) /\ is_Some (ec_node x)) as [[? Hx1] [? Hx2]].
  { destruct s; [destruct Hs as [-> ?]|destruct Hs as [(_ & ? & _ & ?) _]]; eauto. }
  apply elem_of_cons in Hc as [->|Hc]; [by rewrite Hx1, Hx2|].
  destruct s; [by apply elem_of_nil in Hc|]. apply IH; [apply Hs|done].
Qed.

Lemma at_index_elem s i c : at_index s i = Some c -> c ∈ s.
Proof.
  intros (a & b & -> & _)%at_index_split. apply elem_of_app; right; by left.
Qed.

Lemma cells_typed s : cells s -> typed s.
Proof.
  intros Hs. apply Forall_forall. intros c Hc. destruct (cell_type s c Hs Hc) as [-> _]. eauto.
Qed.

(** ** Marks *)

Lemma marks_app a b : marks (a ++ b) = marks a ++ marks b.
Proof.
  induction a as [|[p d] a IH]; [done|]. cbn. rewrite IH. by destruct (it_index d =? 0).
Qed.

Lemma marks_In l i : i ∈ marks l <-> i <> 0 /\ exists d, d ∈ l.*2 /\ it_index d = i.
Proof.
  induction l as [|[p d] l IH]; cbn [marks fmap list_fmap snd].
  - split; [by intros ?%elem_of_nil|intros (_ & d & ?%elem_of_nil & _); done].
  - destruct (Z.eqb_spec (it_index d) 0) as [E|N]; [|rewrite elem_of_cons]; rewrite IH.
    + split; intros (Hi & d' & Hd & Hx).
      * split; [done|]. exists d'. split; [by right|done].
      * split; [done|]. apply elem_of_cons in Hd as [->|Hd]; [congruence|eauto].
    + split.
      * intros [->|(Hi & d' & Hd & Hx)]; (split; [done|]); eexists; (split; [|done]); [by left|by right].
      * intros (Hi & d' & Hd & Hx). apply elem_of_cons in Hd as [->|Hd]; [left; done|right; eauto].
Qed.

Lemma marks_closed l : (forall d, d ∈ l.*2 -> it_index d = 0) -> marks l = [].
Proof.
  induction l as [|[p d] l IH]; intros H; [done|]. cbn. rewrite (H d) by by left.
  cbn. apply IH. intros d' Hd. apply H. by right.
Qed.

(** The marks of a list whose indices change in a way that keeps their order,
    but for those that become 0. *)
Lemma marks_map g l :
  (forall d, it_index d = 0 -> it_index (g d) = 0) ->
  (forall d e, d ∈ l.*2 -> e ∈ l.*2 -> it_index (g d) <> 0 -> it_index (g e) <> 0 ->
     it_index d < it_index e -> it_index (g d) < it_index (g e)) ->
  StronglySorted Z.lt (marks l) -> StronglySorted Z.lt (marks (map_items g l)).
Proof.
  intros H0. induction l as [|[p d] l IH]; intros Hm Hs; [done|].
  cbn [marks map_items] in *.
  assert (Hm' : forall d e, d ∈ l.*2 -> e ∈ l.*2 -> it_index (g d) <> 0 -> it_index (g e) <> 0 ->
     it_index d < it_index e -> it_index (g d) < it_index (g e)).
  { intros ? ? ? ?. apply Hm; by right. }
  destruct (Z.eqb_spec (it_index d) 0) as [E|N].
  - rewrite H0 by done. cbn. by apply IH.
  - apply StronglySorted_inv in Hs as [Hs Hf].
    destruct (Z.eqb_spec (it_index (g d)) 0); [by apply IH|]. constructor; [by apply IH|].
    apply Forall_forall. intros i (Hi & e & He & <-)%marks_In.
    rewrite map_items_snd in He. apply list_elem_of_fmap in He as (e' & -> & He').
    apply Hm; [by left|by right|done|done|]. rewrite Forall_forall in Hf. apply Hf.
    apply marks_In. split; [|eauto]. intros E. by rewrite H0 in Hi.
Qed.

Lemma sorted_drop (x y z : list Z) : StronglySorted Z.lt (x ++ y ++ z) -> StronglySorted Z.lt (x ++ z).
Proof.
  rewrite !StronglySorted_app. intros (Hx & ? & _ & _ & ?). split_and!; try done.
  intros i j Hi Hj. apply Hx; [done|]. apply elem_of_app; by right.
Qed.

(** ** What the invariant survives *)

Lemma inv_known X X' s l : inv X s l -> X ⊆ X' -> inv X' s l.
Proof.
  intros [] HX. constructor; try assumption;
    [eapply Forall_impl; [apply iv_stack_known0|]|eapply Forall_impl; [apply iv_list_known0|]]; by intros ? ?%HX.
Qed.

Lemma snd_sub (a b m : list (Z * item)) d : d ∈ (a ++ b).*2 -> d ∈ (a ++ m ++ b).*2.
Proof. rewrite !fmap_app, !elem_of_app. tauto. Qed.

(** Fewer items. *)
Lemma inv_list_drop X s a m b : inv X s (a ++ m ++ b) -> inv X s (a ++ b).
Proof.
  intros []. constructor; try done.
  - apply Forall_forall. intros d Hd. rewrite Forall_forall in iv_list_known0. by apply iv_list_known0, snd_sub.
  - apply Forall_forall. intros d Hd. rewrite Forall_forall in iv_types0. by apply iv_types0, snd_sub.
  - rewrite !marks_app in *. by eapply sorted_drop.
  - intros d Hd. by apply iv_open0, snd_sub.
  - intros d Hd. by apply iv_closed0, snd_sub.
Qed.

Lemma inv_list_remove X s a p d b : inv X s (a ++ (p, d) :: b) -> inv X s (a ++ b).
Proof. apply (inv_list_drop X s a [(p, d)] b). Qed.

Lemma inv_list_prefix X s a b : inv X s (a ++ b) -> inv X s a.
Proof. rewrite <-(app_nil_r b). intros H%inv_list_drop. by rewrite app_nil_r in H. Qed.

Lemma inv_owned X s l : inv X s l -> owned s l.
Proof.
  intros H d Hd Hi. destruct (iv_open _ _ _ H d Hd Hi) as (c & Hc & Hl & _).
  exists c, (ty c). split_and!; [done| |done]. eapply cell_type; [apply H|by eapply at_index_elem].
Qed.

(** A node that is new, or that is neither on the stack nor in the list. *)
Lemma inv_push X c s l :
  inv X s l -> open_cell c -> nd c ∈ X -> nd c ∉ map nd s -> (forall d, d ∈ l.*2 -> it_node d <> nd c) ->
  inv X (c :: s) l.
Proof.
  intros [] Hc HX Hs Hl. constructor; try done.
  - apply cells_cons; [by apply cells_some|done].
  - by constructor.
  - by constructor.
  - intros d Hd Hi. destruct (iv_open0 d Hd Hi) as (c' & Hc' & ? & ? & ?). exists c'. split_and!; try done.
    rewrite at_index_cons; [done|]. by eapply at_index_range.
  - intros d Hd Hi. cbn. apply not_elem_of_cons. split; [by apply Hl|by apply iv_closed0].
Qed.

Lemma inv_push_new X ns type n s l :
  inv X s l -> ns = HUBBUB_NS_HTML -> n ∉ X -> inv (n :: X) (new_cell ns type n :: s) l.
Proof.
  intros H -> Hn. apply inv_push.
  - apply (inv_known X); [done|]. intros m Hm. by right.
  - split_and!; eauto.
  - by left.
  - intros (c & E & Hc)%list_elem_of_fmap. apply Hn.
    pose proof (iv_stack_known _ _ _ H) as Hk. rewrite Forall_forall in Hk. specialize (Hk c Hc).
    cbn in E. by rewrite E.
  - intros d Hd E. apply Hn. pose proof (iv_list_known _ _ _ H) as Hk. rewrite Forall_forall in Hk.
    specialize (Hk d Hd). cbn in E. by rewrite <-E.
Qed.

(** An item's fields, after [g]. *)
Lemma map_items_elem g l d : d ∈ (map_items g l).*2 -> exists e, d = g e /\ e ∈ l.*2.
Proof. rewrite map_items_snd. intros (e & -> & He)%list_elem_of_fmap. eauto. Qed.

Lemma Forall_map_items P g l :
  (forall d, P d -> P (g d)) -> Forall P l.*2 -> Forall P (map_items g l).*2.
Proof.
  intros Hg HP. apply Forall_forall. intros d (e & -> & He)%map_items_elem.
  rewrite Forall_forall in HP. by apply Hg, HP.
Qed.

Lemma move_item_same slot i d :
  it_node (move_item slot i d) = it_node d /\ it_type (move_item slot i d) = it_type d /\
  it_ns (move_item slot i d) = it_ns d.
Proof. unfold move_item. by destruct (it_index d =? slot). Qed.

Lemma lower_item_same i m d :
  it_node (lower_item i m d) = it_node d /\ it_type (lower_item i m d) = it_type d /\
  it_ns (lower_item i m d) = it_ns d.
Proof. unfold lower_item. by destruct ((i <? it_index d) && (it_index d <=? m)). Qed.

Lemma inv_pop X c s l :
  inv X (c :: s) l -> s <> [] -> inv X s (popped (ty c) (zlen s) l).
Proof.
  intros [Hc Hn Hk Hlk Ht Hs Ho Hcl] Hne.
  rewrite cells_cons in Hc by done. destruct Hc as [Hc Hcs].
  cbn in Hn. apply NoDup_cons in Hn as [Hnc Hn]. apply Forall_cons in Hk as [Hkc Hk].
  assert (Hold : forall d, d ∈ l.*2 -> it_index d <> 0 -> it_index d <> zlen s ->
    exists c', at_index s (it_index d) = Some c' /\ listed (ty c') = true /\ nd c' = it_node d /\ ty c' = it_type d).
  { intros d Hd Hi Hz. destruct (Ho d Hd Hi) as (c' & Hc' & ? & ? & ?).
    pose proof (at_index_range _ _ _ Hc') as Hr. rewrite zlen_cons in Hr.
    rewrite at_index_cons in Hc' by lia. eauto. }
  assert (Htop : forall d, d ∈ l.*2 -> it_index d = zlen s -> listed (ty c) = true /\ nd c = it_node d).
  { intros d Hd Hi. pose proof (zlen_positive s Hne). destruct (Ho d Hd) as (c' & Hc' & ? & ? & ?); [lia|].
    rewrite Hi, at_index_top in Hc'. injection Hc' as <-. done. }
  unfold popped. destruct (listed (ty c)) eqn:Hlist.
  - constructor; try done.
    + apply Forall_map_items; [|done]. intros d. by destruct (move_item_same (zlen s) 0 d) as [-> _].
    + apply Forall_map_items; [|done]. intros d. unfold active_item. by destruct (move_item_same (zlen s) 0 d) as (_ & -> & ->).
    + apply marks_map; [| |done]; unfold move_item.
      * intros d E. by destruct (it_index d =? zlen s).
      * intros d e _ _. destruct (it_index d =? zlen s), (it_index e =? zlen s); cbn; lia.
    + intros d (e & -> & He)%map_items_elem. unfold move_item.
      destruct (Z.eqb_spec (it_index e) (zlen s)); [done|]. intros ?. by apply Hold.
    + intros d (e & -> & He)%map_items_elem. unfold move_item.
      destruct (Z.eqb_spec (it_index e) (zlen s)) as [E|N].
      * intros _. cbn. by rewrite <-(proj2 (Htop e He E)).
      * intros E. pose proof (Hcl e He E) as Hx. cbn in Hx. by apply not_elem_of_cons in Hx as [].
  - constructor; try done.
    + intros d Hd Hi. apply Hold; [done|done|]. intros E. by destruct (Htop d Hd E).
    + intros d Hd E. pose proof (Hcl d Hd E) as Hx. cbn in Hx. by apply not_elem_of_cons in Hx as [].
Qed.

(** An item for an element that is open, in its place. *)
Lemma inv_list_add X s a b p ns type i c :
  inv X s (a ++ b) -> at_index s i = Some c -> i <> 0 -> listed (ty c) = true ->
  active_type type = true -> ty c = type -> ns = HUBBUB_NS_HTML ->
  (forall j, j ∈ marks a -> j < i) -> (forall j, j ∈ marks b -> i < j) ->
  inv X s (a ++ (p, new_item ns type (nd c) i) :: b).
Proof.
  intros [] Hc Hi Hl Ht Hty Hns Ha Hb.
  assert (Hcase : forall d, d ∈ (a ++ (p, new_item ns type (nd c) i) :: b).*2 ->
    d = new_item ns type (nd c) i \/ d ∈ (a ++ b).*2).
  { intros d. rewrite !fmap_app, fmap_cons, !elem_of_app, elem_of_cons. cbn. tauto. }
  constructor; try done.
  - apply Forall_forall. rewrite Forall_forall in iv_list_known0. rewrite Forall_forall in iv_stack_known0.
    intros d [->|Hd]%Hcase; [|auto]. apply iv_stack_known0. by eapply at_index_elem.
  - apply Forall_forall. rewrite Forall_forall in iv_types0. intros d [->|Hd]%Hcase; [by split|auto].
  - rewrite marks_app in *. cbn [marks new_item it_index]. rewrite (proj2 (Z.eqb_neq i 0)) by done.
    rewrite StronglySorted_app in *. destruct iv_sorted0 as (Hab & Hsa & Hsb).
    split_and!; [|done|constructor; [done|by apply Forall_forall]].
    intros x y Hx [->|Hy]%elem_of_cons; auto.
  - intros d [->|Hd]%Hcase; [|auto]. intros _. exists c. done.
  - intros d [->|Hd]%Hcase; [done|auto].
Qed.

(** All marks are below the height of the stack. *)
Lemma inv_marks X s l i : inv X s l -> i ∈ marks l -> 0 < i < zlen s.
Proof.
  intros H (Hi & d & Hd & E)%marks_In. rewrite <-E in Hi. destruct (iv_open _ _ _ H d Hd Hi) as (c & Hc & _).
  apply at_index_range in Hc. lia.
Qed.

(** An item for the current node, which has none. *)
Lemma inv_list_append X c s l p ns type :
  inv X (c :: s) l -> s <> [] -> listed (ty c) = true -> active_type type = true ->
  ty c = type -> ns = HUBBUB_NS_HTML -> (forall d, d ∈ l.*2 -> it_node d <> nd c) ->
  inv X (c :: s) (l ++ [(p, new_item ns type (nd c) (zlen s))]).
Proof.
  intros H Hs Hl Ht Hty Hns Hn. pose proof (zlen_positive s Hs). apply inv_list_add; try done.
  - by rewrite app_nil_r.
  - apply at_index_top.
  - lia.
  - intros j Hj. pose proof (inv_marks _ _ _ _ H Hj) as Hr. rewrite zlen_cons in Hr.
    apply marks_In in Hj as (Hj & d & Hd & <-).
    assert (it_index d <> zlen s); [|lia]. intros E.
    destruct (iv_open _ _ _ H d Hd Hj) as (c' & Hc' & _ & Hnode & _). rewrite E, at_index_top in Hc'.
    injection Hc' as <-. by apply (Hn d).
  - by intros j ?%elem_of_nil.
Qed.

Lemma at_index_above a c b i : zlen b < i -> at_index (a ++ c :: b) i = at_index (a ++ b) (i - 1).
Proof.
  intros Hi. pose proof (zlen_nonneg b). unfold at_index. rewrite !rev_app_distr. cbn [rev].
  rewrite <-(assoc_L (++)). rewrite !(znth_app_r (rev b)) by (rewrite zlen_rev; lia).
  rewrite znth_app_r by (rewrite zlen_rev, zlen_cons, zlen_nil; lia).
  rewrite zlen_rev, zlen_cons, zlen_nil. f_equal. lia.
Qed.

Lemma inv_remove_cell X a c b l :
  inv X (a ++ c :: b) l -> b <> [] -> (forall d, d ∈ l.*2 -> it_index d <> zlen b) ->
  inv X (a ++ b) (lowered (zlen b) (zlen (a ++ b)) l).
Proof.
  intros H Hb Hfree. pose proof (zlen_positive b Hb). pose proof H as [].
  assert (Hlow : forall d, d ∈ l.*2 -> it_index (lower_item (zlen b) (zlen (a ++ b)) d) =
    if zlen b <? it_index d then it_index d - 1 else it_index d).
  { intros d Hd. unfold lower_item.
    destruct (Z.ltb_spec (zlen b) (it_index d)); [|done].
    destruct (Z.leb_spec (it_index d) (zlen (a ++ b))); [done|]. exfalso.
    assert (it_index d ∈ marks l) as Hm by (apply marks_In; split; [lia|eauto]).
    pose proof (inv_marks _ _ _ _ H Hm) as Hr. rewrite zlen_app, zlen_cons in Hr.
    rewrite zlen_app in *. lia. }
  assert (Hperm : map nd (a ++ c :: b) ≡ₚ nd c :: map nd (a ++ b)).
  { rewrite !map_app. symmetry. apply Permutation_middle. }
  constructor.
  - apply cells_app; [done|]. apply cells_app in iv_cells0 as [? Hc]; [|done]. split; [done|].
    by apply cells_cons in Hc as [].
  - rewrite Hperm in iv_nodup0. by apply NoDup_cons in iv_nodup0 as [].
  - apply Forall_app in iv_stack_known0 as [? [? ?]%Forall_cons]. by apply Forall_app.
  - apply Forall_map_items; [|done]. intros d. by destruct (lower_item_same (zlen b) (zlen (a ++ b)) d) as [-> _].
  - apply Forall_map_items; [|done]. intros d. unfold active_item. by destruct (lower_item_same (zlen b) (zlen (a ++ b)) d) as (_ & -> & ->).
  - apply marks_map; [| |done].
    + intros d E. unfold lower_item. destruct (Z.ltb_spec (zlen b) (it_index d)); [lia|done].
    + intros d e Hd He _ _ Hlt. rewrite !Hlow by done. pose proof (Hfree d Hd). pose proof (Hfree e He).
      destruct (Z.ltb_spec (zlen b) (it_index d)), (Z.ltb_spec (zlen b) (it_index e)); lia.
  - intros d (e & -> & He)%map_items_elem.
    destruct (lower_item_same (zlen b) (zlen (a ++ b)) e) as (-> & -> & _). rewrite Hlow by done. intros Hi.
    assert (it_index e <> 0) as Hne by (destruct (Z.ltb_spec (zlen b) (it_index e)); lia).
    destruct (iv_open0 e He Hne) as (c' & Hc' & ? & ? & ?). exists c'. split_and!; try done.
    pose proof (Hfree e He). destruct (Z.ltb_spec (zlen b) (it_index e)).
    + by rewrite at_index_above in Hc' by done.
    + rewrite at_index_app in Hc' |- * by (rewrite ?zlen_cons; lia). by rewrite at_index_cons in Hc' by lia.
  - intros d (e & -> & He)%map_items_elem.
    destruct (lower_item_same (zlen b) (zlen (a ++ b)) e) as [-> _]. rewrite Hlow by done. intros Hi Hin.
    apply (iv_closed0 e He); [destruct (Z.ltb_spec (zlen b) (it_index e)); lia|].
    rewrite Hperm. by right.
Qed.

(** A cell that is not listed has no item. *)
Lemma inv_unlisted X a c b l d :
  inv X (a ++ c :: b) l -> listed (ty c) = false -> b <> [] -> d ∈ l.*2 -> it_index d <> zlen b.
Proof.
  intros H Hl Hb Hd E. pose proof (zlen_positive b Hb).
  destruct (iv_open _ _ _ H d Hd) as (c' & Hc' & Hl' & _); [lia|].
  rewrite E, at_index_mid in Hc'. congruence.
Qed.

(** ** Cells that differ in their mark of a tainted table at most *)

Definition alike_cell (c c' : element_context) : Prop :=
  ec_ns c' = ec_ns c /\ ec_type c' = ec_type c /\ ec_node c' = ec_node c /\
  (is_Some (ec_tainted c) -> is_Some (ec_tainted c')).
Definition alike : list element_context -> list element_context -> Prop := Forall2 alike_cell.

Lemma alike_refl s : alike s s.
Proof. by induction s; constructor. Qed.

Lemma alike_trans a b c : alike a b -> alike b c -> alike a c.
Proof.
  intros H. revert c. induction H as [|x y a b (A1 & A2 & A3 & A4) _ IH]; intros c Hc;
    inversion_clear Hc as [|? z ? ? (B1 & B2 & B3 & B4) ?]; constructor; [|by apply IH].
  split_and!; [congruence..|auto].
Qed.

Lemma alike_types a b : alike a b -> map ty b = map ty a.
Proof. induction 1 as [|x y a b (_ & E & _) _ IH]; cbn; [done|]. unfold ty at 1 3. by rewrite IH, E. Qed.
Lemma alike_nodes a b : alike a b -> map nd b = map nd a.
Proof. induction 1 as [|x y a b (_ & _ & E & _) _ IH]; cbn; [done|]. unfold nd at 1 3. by rewrite IH, E. Qed.
Lemma alike_zlen a b : alike a b -> zlen b = zlen a.
Proof. intros H%Forall2_length. unfold zlen. by rewrite H. Qed.
Lemma alike_some a b : alike a b -> a <> [] -> b <> [].
Proof. by destruct 1. Qed.

Lemma alike_cells a b : alike a b -> cells a -> cells b.
Proof.
  induction 1 as [|x y a b (E1 & E2 & E3 & E4) Hab IH]; [done|]. intros Hc. destruct a as [|x' a].
  - inversion Hab; subst. destruct Hc as [? ?]. split; congruence.
  - inversion Hab; subst. destruct Hc as [(? & ? & ? & ?) ?]. split; [|by apply IH].
    split_and!; [congruence..|auto|congruence].
Qed.

Lemma alike_at a b i c :
  alike a b -> at_index a i = Some c -> exists c', at_index b i = Some c' /\ alike_cell c c'.
Proof.
  intros H Hc. pose proof (at_index_range _ _ _ Hc). unfold at_index, znth in *.
  destruct (Z.ltb_spec i 0); [lia|]. assert (alike (rev a) (rev b)) as Hr.
  { unfold alike. rewrite !rev_alt. by apply Forall2_reverse. }
  destruct (Forall2_lookup_l _ _ _ _ _ Hr Hc) as (c' & ? & ?). eauto.
Qed.

Lemma inv_alike X a b l : alike a b -> inv X a l -> inv X b l.
Proof.
  intros H []. pose proof (alike_nodes _ _ H) as Hn. constructor; try done.
  - by eapply alike_cells.
  - by rewrite Hn.
  - apply Forall_forall. intros c Hc. assert (nd c ∈ map nd a) as (c' & -> & Hc')%list_elem_of_fmap.
    { rewrite <-Hn. by apply list_elem_of_fmap_2. }
    rewrite Forall_forall in iv_stack_known0. auto.
  - intros d Hd Hi. destruct (iv_open0 d Hd Hi) as (c & Hc & Hl & Hx).
    destruct (alike_at _ _ _ _ H Hc) as (c' & Hc' & _ & E2 & E3 & _). exists c'.
    unfold ty, nd in *. rewrite E2, E3. done.
  - intros d Hd Hi. rewrite Hn. by apply iv_closed0.
Qed.

(** ** For the adoption agency *)

(** The items from [index] on go up by one. *)
Definition raise_item (index : Z) (d : item) : item :=
  if index <=? it_index d then with_index (it_index d + 1) d else d.
Definition raised (index : Z) : list (Z * item) -> list (Z * item) := map_items (raise_item index).

Lemma raise_item_same i d :
  it_node (raise_item i d) = it_node d /\ it_type (raise_item i d) = it_type d /\
  it_ns (raise_item i d) = it_ns d.
Proof. unfold raise_item. by destruct (i <=? it_index d). Qed.

(** A new cell in the middle of the stack. *)
Lemma inv_insert_cell X a c b l :
  inv X (a ++ b) l -> b <> [] -> open_cell c -> nd c ∉ X ->
  inv (nd c :: X) (a ++ c :: b) (raised (zlen b) l).
Proof.
  intros [] Hb Hc HX. pose proof (zlen_positive b Hb).
  assert (Hperm : map nd (a ++ c :: b) ≡ₚ nd c :: map nd (a ++ b)).
  { rewrite !map_app. symmetry. apply Permutation_middle. }
  assert (Hfresh : nd c ∉ map nd (a ++ b)).
  { intros (c' & E & Hc')%list_elem_of_fmap. rewrite Forall_forall in iv_stack_known0.
    specialize (iv_stack_known0 c' Hc'). by rewrite <-E in iv_stack_known0. }
  assert (Hidx : forall d, it_index (raise_item (zlen b) d) =
    if zlen b <=? it_index d then it_index d + 1 else it_index d).
  { intros d. unfold raise_item. by destruct (zlen b <=? it_index d). }
  constructor.
  - apply cells_app in iv_cells0 as [? ?]; [|done]. apply cells_app; [done|]. split; [done|by apply cells_cons].
  - rewrite Hperm. by constructor.
  - apply Forall_app in iv_stack_known0 as [Ha' Hb']. apply Forall_app. split; [|constructor; [by left|]];
      (eapply Forall_impl; [eassumption|]); intros; by right.
  - apply Forall_map_items.
    + intros d. by destruct (raise_item_same (zlen b) d) as [-> _].
    + eapply Forall_impl; [exact iv_list_known0|]. intros; by right.
  - apply Forall_map_items; [|done]. intros d. unfold active_item.
    by destruct (raise_item_same (zlen b) d) as (_ & -> & ->).
  - apply marks_map; [| |done].
    + intros d E. rewrite Hidx, E. destruct (Z.leb_spec (zlen b) 0); lia.
    + intros d e _ _ _ _ Hlt. rewrite !Hidx.
      destruct (Z.leb_spec (zlen b) (it_index d)), (Z.leb_spec (zlen b) (it_index e)); lia.
  - intros d (e & -> & He)%map_items_elem. destruct (raise_item_same (zlen b) e) as (-> & -> & _).
    rewrite Hidx. intros Hi.
    assert (it_index e <> 0) as Hne by (destruct (Z.leb_spec (zlen b) (it_index e)); lia).
    destruct (iv_open0 e He Hne) as (c' & Hc' & ? & ? & ?). exists c'. split_and!; try done.
    destruct (Z.leb_spec (zlen b) (it_index e)).
    + rewrite at_index_above by lia. by rewrite Z.add_simpl_r.
    + rewrite at_index_app in Hc' |- * by (rewrite ?zlen_cons; lia). by rewrite at_index_cons by lia.
  - intros d (e & -> & He)%map_items_elem. destruct (raise_item_same (zlen b) e) as [-> _].
    rewrite Hidx, Hperm. intros Hi. rewrite not_elem_of_cons. split.
    + intros E. apply HX. rewrite <-E. rewrite Forall_forall in iv_list_known0. auto.
    + apply iv_closed0; [done|]. destruct (Z.leb_spec (zlen b) (it_index e)); lia.
Qed.

(** Items before and after one that is open. *)
Lemma marks_mid a p d b :
  it_index d <> 0 -> marks (a ++ (p, d) :: b) = marks a ++ it_index d :: marks b.
Proof. intros H. rewrite marks_app. cbn. by rewrite (proj2 (Z.eqb_neq _ _)). Qed.

Lemma inv_mark_order X s a p d b :
  inv X s (a ++ (p, d) :: b) -> it_index d <> 0 ->
  (forall j, j ∈ marks a -> j < it_index d) /\ (forall j, j ∈ marks b -> it_index d < j).
Proof.
  intros H Hd. pose proof (iv_sorted _ _ _ H) as Hs. rewrite marks_mid in Hs by done.
  apply StronglySorted_app in Hs as (Hab & _ & Hb). apply StronglySorted_cons in Hb as [Hb _].
  rewrite Forall_forall in Hb. split; [|done]. intros j Hj. apply Hab; [done|by left].
Qed.

(** No other item has its index. *)
Lemma inv_index_unique X s a p d b e :
  inv X s (a ++ (p, d) :: b) -> it_index d <> 0 -> e ∈ (a ++ b).*2 -> it_index e <> it_index d.
Proof.
  intros H Hd He E. destruct (inv_mark_order _ _ _ _ _ _ H Hd) as [Ha Hb].
  rewrite fmap_app, elem_of_app in He. destruct He as [He|He].
  - assert (it_index d ∈ marks a) as Hm by (apply marks_In; eauto). specialize (Ha _ Hm). lia.
  - assert (it_index d ∈ marks b) as Hm by (apply marks_In; eauto). specialize (Hb _ Hm). lia.
Qed.

(** An element that is cloned, on the stack and in the list. *)
Lemma inv_clone X a c c' b x p d y :
  inv X (a ++ c :: b) (x ++ (p, d) :: y) -> it_index d = zlen b -> b <> [] ->
  open_cell c' -> ty c' = ty c -> nd c' ∉ X ->
  inv (nd c' :: X) (a ++ c' :: b) (x ++ (p, with_node (nd c') d) :: y).
Proof.
  intros H Hd Hb Hc' Ht Hn. pose proof (zlen_positive b Hb).
  assert (Hd0 : it_index d <> 0) by lia.
  destruct (inv_mark_order _ _ _ _ _ _ H Hd0) as [Hx Hy].
  assert (Hact : active_item d).
  { pose proof (iv_types _ _ _ H) as Ha. rewrite Forall_forall in Ha. apply Ha.
    rewrite fmap_app, elem_of_app. right; by left. }
  assert (listed (ty c) = true /\ ty c = it_type d) as [Hl Htd].
  { destruct (iv_open _ _ _ H d) as (c2 & Hc2 & Hl & _ & ?); [|done|].
    - rewrite fmap_app, elem_of_app. right; by left.
    - rewrite Hd, at_index_mid in Hc2. by injection Hc2 as <-. }
  pose proof (inv_list_remove _ _ _ _ _ _ H) as H1.
  assert (Hfree : forall e, e ∈ (x ++ y).*2 -> it_index e <> zlen b).
  { intros e He. rewrite <-Hd. by eapply inv_index_unique. }
  apply inv_remove_cell in H1; [|done|done].
  apply (inv_insert_cell _ _ c') in H1; [|done|done|done].
  assert (E : raised (zlen b) (lowered (zlen b) (zlen (a ++ b)) (x ++ y)) = x ++ y).
  { unfold raised, lowered. rewrite map_items_compose. apply map_items_id. intros e He.
    assert (it_index e <= zlen (a ++ b)).
    { destruct (Z.eq_dec (it_index e) 0); [pose proof (zlen_nonneg (a ++ b)); lia|].
      assert (it_index e ∈ marks (x ++ y)) as Hm by (apply marks_In; eauto).
      pose proof (inv_marks _ _ _ _ (inv_list_remove _ _ _ _ _ _ H) Hm) as Hr.
      rewrite zlen_app, zlen_cons in Hr. rewrite zlen_app. lia. }
    specialize (Hfree e He). unfold raise_item, lower_item.
    destruct (Z.ltb_spec (zlen b) (it_index e)); cbn [andb].
    - rewrite (proj2 (Z.leb_le (it_index e) (zlen (a ++ b)))) by done. cbn [it_index with_index].
      rewrite (proj2 (Z.leb_le _ _)) by lia. unfold with_index. cbn. rewrite Z.sub_add. by destruct e.
    - rewrite (proj2 (Z.leb_gt _ _)) by lia. done. }
  rewrite E in H1. destruct Hact as [Hact Hns].
  apply (inv_list_add _ _ x y p (it_ns d) (it_type d) (zlen b) c') in H1; try done.
  - replace (with_node (nd c') d) with (new_item (it_ns d) (it_type d) (nd c') (zlen b)); [done|].
    unfold new_item, with_node. by rewrite Hd.
  - apply at_index_mid.
  - lia.
  - by rewrite Ht.
  - congruence.
  - intros j Hj. rewrite <-Hd. auto.
  - intros j Hj. rewrite <-Hd. auto.
Qed.
