(* ===== verification/TreeSteps.v ===== *)
(** * TreeSteps: looking at the stack, and inserting nodes.

    Each lemma says what a function of TreeStack.v does from a state that
    stands for a stack and a list of which [inv] holds. *)
From S2P Require Import Prelude.
From S2P Require Import Errors.
From S2P Require Import Tokens.
From S2P Require Import TokeniserState.
From S2P Require Import TokeniserMonad.
From S2P Require Import TokeniserWp.
From S2P Require Import ElementType.
From S2P Require Import TreeState.
From S2P Require Import TreeRepr.
From S2P Require Import TreeStack.
From S2P Require Import TreeRules.
From S2P Require Import TreeInv.
From stdpp Require Import gmap.
Local Open Scope Z_scope.

(** The index of the element that is in scope, as a function of the stack. *)
Fixpoint scope (type : element_type) (in_table : bool) (s : list element_context) : Z :=
  match s with
  | [] | [_] => 0
  | c :: s' =>
      if type_eqb (ty c) type then zlen s'
      else if type_eqb (ty c) ET.TABLE then 0
      else if in_table then scope type in_table s'
      else if is_scoping_element (ty c) then 0
      else scope type in_table s'
  end.

Fixpoint table_index (s : list element_context) : Z :=
  match s with
  | [] | [_] => 0
  | c :: s' => if type_eqb (ty c) ET.TABLE then zlen s' else table_index s'
  end.

(** The cells that do not end the search for an element in scope. *)
Definition open_scope (in_table : bool) (type : element_type) : bool :=
  negb (type_eqb type ET.TABLE) && (in_table || negb (is_scoping_element type)).

Lemma scope_cons type in_table c s :
  s <> [] ->
  scope type in_table (c :: s) =
    if type_eqb (ty c) type then zlen s
    else if open_scope in_table (ty c) then scope type in_table s else 0.
Proof.
  unfold open_scope. destruct s as [|c2 s]; [done|]. intros _. change (scope type in_table (c :: c2 :: s)) with
    (if type_eqb (ty c) type then zlen (c2 :: s)
     else if type_eqb (ty c) ET.TABLE then 0
     else if in_table then scope type in_table (c2 :: s)
     else if is_scoping_element (ty c) then 0
     else scope type in_table (c2 :: s)).
  destruct (type_eqb (ty c) type), (type_eqb (ty c) ET.TABLE), in_table, (is_scoping_element (ty c)); done.
Qed.

Section Steps.
Context {W : Type} `{!TreeHandler W} `{!TreeHandlerLaws W}.
Local Abbreviation T := (hubbub_treebuilder W).
Local Abbreviation M := (comp (hubbub_treebuilder W)).
Context (alloc_ok : nat -> Z -> bool) (Hlimit : alloc_limit alloc_ok).
Context (malloc : nat -> gmap Z formatting_list_entry -> option Z) (Hmalloc : malloc_fresh malloc).

Lemma cells_in a c s : cells (a ++ c :: s) -> ec_type c = Some (ty c) /\ ec_node c = Some (nd c).
Proof. intros H. apply (cell_type _ _ H). apply elem_of_app; right; by left. Qed.

Lemma cells_open a c b : cells (a ++ c :: b) -> b <> [] -> open_cell c.
Proof. rewrite cells_app by done. intros [_ H] Hb. by apply cells_cons in H as []. Qed.

Lemma wp_current_node R X c s l t (Q : element_type -> T -> Prop) E :
  st R X (c :: s) l t -> cells (c :: s) -> Q (ty c) t -> wp current_node Q E t.
Proof.
  intros Hst Hc HQ. eapply wp_bind, (wp_top_index Hst). rewrite zlen_cons.
  replace (1 + zlen s - 1) with (zlen s) by lia.
  eapply (wp_stack_type Hst); [apply at_index_top|by apply (cells_in [] c s Hc)|done].
Qed.

Lemma wp_top_node R X c s l t (Q : Z -> T -> Prop) E :
  st R X (c :: s) l t -> cells (c :: s) -> Q (nd c) t -> wp top_node Q E t.
Proof.
  intros Hst Hc HQ. eapply wp_bind, (wp_top_index Hst). rewrite zlen_cons.
  replace (1 + zlen s - 1) with (zlen s) by lia.
  eapply (wp_stack_node Hst); [apply at_index_top|by apply (cells_in [] c s Hc)|done].
Qed.

Lemma wp_scope_loop type in_table b : forall R X a l t (Q : Z -> T -> Prop) E,
  st R X (a ++ b) l t -> cells (a ++ b) -> b <> [] -> Q (scope type in_table b) t ->
  wp (scope_loop (pred (length b)) type in_table) Q E t.
Proof.
  induction b as [|c b IH]; intros R X a l t Q E Hst Hc Hb HQ; [done|]. cbn [length pred].
  destruct b as [|c2 b]; [done|]. cbn [length scope_loop].
  change (Z.of_nat (S (length b))) with (zlen (c2 :: b)).
  eapply wp_bind, (wp_stack_type Hst); [apply at_index_mid|by eapply cells_in|].
  rewrite scope_cons in HQ by done. unfold open_scope in HQ. destruct (type_eqb (ty c) type); [done|].
  destruct (type_eqb (ty c) ET.TABLE); [done|]. cbn [negb andb] in HQ.
  assert (Hrec : forall Q' : Z -> T -> Prop, Q' (scope type in_table (c2 :: b)) t ->
    wp (scope_loop (length b) type in_table) Q' E t).
  { intros Q' HQ'. change (length b) with (pred (length (c2 :: b))).
    apply (IH R X (a ++ [c]) l t); rewrite <-?(assoc_L (++)); done. }
  destruct in_table; [by apply Hrec|]. destruct (is_scoping_element (ty c)); [done|].
  destruct (type_eqb (ty c) ET.FOREIGNOBJECT); [|by apply Hrec].
  destruct (cells_open _ _ _ Hc) as (Hns & _); [done|].
  eapply wp_bind, (wp_stack_ns Hst); [apply at_index_mid|done|]. by apply Hrec.
Qed.

Lemma wp_element_in_scope type in_table R X s l t (Q : Z -> T -> Prop) E :
  st R X s l t -> cells s -> Q (scope type in_table s) t ->
  wp (element_in_scope type in_table) Q E t.
Proof.
  intros Hst Hc HQ. eapply wp_bind, (wp_top_index Hst).
  replace (Z.to_nat (zlen s - 1)) with (pred (length s)) by (unfold zlen; lia).
  apply (wp_scope_loop _ _ _ R X [] l); try done. by apply cells_some.
Qed.

Lemma wp_in_scope type in_table R X s l t (Q : bool -> T -> Prop) E :
  st R X s l t -> cells s -> Q (negb (scope type in_table s =? 0)) t ->
  wp (in_scope type in_table) Q E t.
Proof. intros Hst Hc HQ. by eapply wp_bind, wp_element_in_scope. Qed.

Lemma wp_current_table_loop b : forall R X a l t (Q : Z -> T -> Prop) E,
  st R X (a ++ b) l t -> cells (a ++ b) -> b <> [] -> Q (table_index b) t ->
  wp (current_table_loop (pred (length b))) Q E t.
Proof.
  induction b as [|c b IH]; intros R X a l t Q E Hst Hc Hb HQ; [done|]. cbn [length pred].
  destruct b as [|c2 b]; [done|]. cbn [length current_table_loop].
  change (Z.of_nat (S (length b))) with (zlen (c2 :: b)).
  eapply wp_bind, (wp_stack_type Hst); [apply at_index_mid|by eapply cells_in|].
  cbn [table_index] in HQ. destruct (type_eqb (ty c) ET.TABLE); [done|].
  change (length b) with (pred (length (c2 :: b))).
  apply (IH R X (a ++ [c]) l t); rewrite <-?(assoc_L (++)); done.
Qed.

Lemma wp_current_table R X s l t (Q : Z -> T -> Prop) E :
  st R X s l t -> cells s -> Q (table_index s) t -> wp current_table Q E t.
Proof.
  intros Hst Hc HQ. eapply wp_bind, (wp_top_index Hst).
  replace (Z.to_nat (zlen s - 1)) with (pred (length s)) by (unfold zlen; lia).
  apply (wp_current_table_loop _ R X [] l); try done. by apply cells_some.
Qed.

Lemma table_index_cases s : cells s ->
  (table_index s = 0 /\ Forall (fun c => ty c <> ET.TABLE) s) \/
  exists a c b, s = a ++ c :: b /\ b <> [] /\ table_index s = zlen b /\ ty c = ET.TABLE.
Proof.
  induction s as [|c s IH]; [done|]. intros Hc. destruct s as [|c2 s].
  - left. split; [done|]. constructor; [|done]. destruct Hc as [E _]. unfold ty. by rewrite E.
  - apply cells_cons in Hc as [_ Hc]; [|done]. cbn [table_index].
    destruct (type_eqb_spec (ty c) ET.TABLE) as [E|N].
    + right. by exists [], c, (c2 :: s).
    + destruct (IH Hc) as [[Hz Hf]|(a & c0 & b & E & ? & ? & ?)]; [left; by split; [|constructor]|].
      right. exists (c :: a), c0, b. by rewrite E.
Qed.

(** ** Errors *)

(** What is left to destroy when a function has failed. *)
Definition sound (s : list element_context) : Prop :=
  exists a c, s = a ++ [c] /\ Forall (fun c => is_Some (ec_node c)) a /\ is_Some (ec_type c) /\
    (ec_type c = Some ET.HTML -> is_Some (ec_node c)).
Definition lasting (t : T) : Prop := exists R X s l, st R X s l t /\ sound s.
Definition fails (e : hubbub_error) (t : T) : Prop :=
  e <> HUBBUB_OK /\ client_error e /\ lasting t.

Lemma cells_sound s : cells s -> sound s.
Proof.
  induction s as [|c s IH]; [done|]. intros Hc. destruct s as [|c2 s].
  - exists [], c. destruct Hc as [-> ?]. split_and!; eauto.
  - apply cells_cons in Hc as [Hc Hcs]; [|done]. destruct (IH Hcs) as (a & c0 & E & Ha & ?).
    exists (c :: a), c0. rewrite E. split_and!; try tauto. constructor; [apply Hc|done].
Qed.

Lemma st_fails e R X s l (t : T) :
  st R X s l t -> cells s -> e <> HUBBUB_OK -> client_error e -> fails e t.
Proof. intros Hst Hc He Hce. split_and!; [done|done|]. exists R, X, s, l. split; [done|by apply cells_sound]. Qed.

(** The same with the stack and the list that are left: those of before, but
    for the mark of a table. *)
Definition failed R X s l (e : hubbub_error) (t : T) : Prop :=
  e <> HUBBUB_OK /\ client_error e /\ exists X' s', X ⊆ X' /\ alike s s' /\ st R X' s' l t.

Lemma st_failed e R X X' s s' l (t : T) :
  st R X' s' l t -> X ⊆ X' -> alike s s' -> e <> HUBBUB_OK -> client_error e -> failed R X s l e t.
Proof. intros. split_and!; [done|done|]. by exists X', s'. Qed.

Lemma wp_check e (Q : unit -> T -> Prop) (E : hubbub_error -> T -> Prop) t :
  (e = HUBBUB_OK -> Q tt t) -> (e <> HUBBUB_OK -> E e t) -> wp (check e) Q E t.
Proof. intros HQ HE. destruct e; (apply HQ; reflexivity) || (apply HE; discriminate). Qed.

(** ** The document *)

Lemma wp_remove_node node R X s l t (Q : hubbub_error -> T -> Prop) (E : hubbub_error -> T -> Prop) :
  st R X s l t ->
  (forall t', st R X s l t' -> Q HUBBUB_OK t') ->
  (forall e t', e <> HUBBUB_OK -> client_error e -> st R X s l t' -> E e t') ->
  wp (remove_node_from_dom node) Q E t.
Proof.
  intros Hst HQ HE.
  eapply wp_bind, (wp_handler_node Hst _ (fun _ _ => True)).
  { intros e n w' [? ?]%th_get_parent_law. done. }
  clear t Hst. intros e parent t Hce _ Hst. apply wp_bind, wp_check; [intros _|by intros; eapply HE].
  destruct (parent =? NULL); [by apply wp_ret, HQ|].
  eapply wp_bind, (wp_handler_node Hst _ (fun _ _ => True)).
  { intros e' n w' [? ?]%th_remove_child_law. done. }
  clear t Hst. intros e' removed t Hce' _ Hst. apply wp_bind, wp_check; [intros _|by intros; eapply HE].
  eapply wp_bind, (wp_unref_node Hst). clear t Hst. intros t Hst.
  eapply wp_bind, (wp_unref_node Hst). clear t Hst. intros t Hst. by apply wp_ret, HQ.
Qed.

(** An insertion of the client yields the node itself, when it is an element. *)
Definition yields (X : list Z) (node : Z) (e : hubbub_error) (n : Z) : Prop :=
  client_error e /\ (e = HUBBUB_OK -> node ∈ X -> n = node).

Lemma known_element R X s l (t : T) n : st R X s l t -> n ∈ X -> th_element (tb_world t) n.
Proof. intros Hst Hn. pose proof (st_known _ _ _ _ _ Hst) as Hk. rewrite Forall_forall in Hk. auto. Qed.

Lemma wp_append_child p node R X s l t (Q : hubbub_error * Z -> T -> Prop) E :
  st R X s l t ->
  (forall e n t', yields X node e n -> st R X s l t' -> Q (e, n) t') ->
  wp (handler_node (th_append_child p node)) Q E t.
Proof.
  intros Hst HQ.
  eapply (wp_handler_node Hst _ (fun e n => e = HUBBUB_OK -> node ∈ X -> n = node)).
  - intros e n w' (? & ? & Hn)%th_append_child_law. split_and!; try done.
    intros He Hx. apply Hn; [done|]. by eapply known_element.
  - intros e n t' ? ? Hst'. by apply HQ.
Qed.

Lemma wp_insert_before p node r R X s l t (Q : hubbub_error * Z -> T -> Prop) E :
  st R X s l t ->
  (forall e n t', yields X node e n -> st R X s l t' -> Q (e, n) t') ->
  wp (handler_node (th_insert_before p node r)) Q E t.
Proof.
  intros Hst HQ.
  eapply (wp_handler_node Hst _ (fun e n => e = HUBBUB_OK -> node ∈ X -> n = node)).
  - intros e n w' (? & ? & Hn)%th_insert_before_law. split_and!; try done.
    intros He Hx. apply Hn; [done|]. by eapply known_element.
  - intros e n t' ? ? Hst'. by apply HQ.
Qed.

Lemma table_cell s : cells s -> exists a c b, s = a ++ c :: b /\ table_index s = zlen b.
Proof.
  intros Hc. destruct (table_index_cases s Hc) as [[-> _]|(a & c & b & E & _ & -> & _)]; [|eauto].
  destruct s as [|c s _] using rev_ind; [done|]. by exists s, c, [].
Qed.

Lemma alike_taint a c b : alike (a ++ c :: b) (a ++ set_ec_tainted (Some true) c :: b).
Proof. apply Forall2_app; [apply alike_refl|]. constructor; [split_and!; eauto|apply alike_refl]. Qed.

Lemma wp_foster node R X s l t (Q : hubbub_error * Z -> T -> Prop) E :
  st R X s l t -> cells s ->
  (forall s' e n t', alike s s' -> yields X node e n -> st R X s' l t' -> Q (e, n) t') ->
  wp (aa_insert_into_foster_parent node) Q E t.
Proof.
  intros Hst Hc HQ. unfold aa_insert_into_foster_parent.
  eapply wp_bind, (wp_current_table _ _ _ _ _ _ _ Hst Hc).
  destruct (table_cell s Hc) as (a & c & b & -> & ->).
  eapply wp_bind, (wp_upd_cell _ _ _ _ _ _ _ _ _ _ Hst). clear t Hst. intros t Hst.
  pose proof (alike_taint a c b) as Ha. revert Hst Ha. set (s' := a ++ set_ec_tainted (Some true) c :: b).
  intros Hst Ha. pose proof (alike_cells _ _ Ha Hc) as Hc'.
  assert (Hin : exists c1, at_index s' (zlen b) = Some c1 /\ ec_node c1 = Some (nd c1)).
  { exists (set_ec_tainted (Some true) c). split; [apply at_index_mid|]. by eapply cells_in. }
  assert (Hat : forall i, 0 <= i < zlen s' -> exists c1, at_index s' i = Some c1 /\ ec_node c1 = Some (nd c1)).
  { intros i Hi. destruct (znth_is_Some (rev s') i) as [c1 Hc1]; [by rewrite zlen_rev|].
    exists c1. split; [done|]. eapply cell_type; [done|]. by eapply at_index_elem. }
  apply wp_bind.
  assert (Hpick : forall Q', (forall p t', st R X s' l t' -> forall i, Q' (p, i) t') ->
    wp (if zlen b =? 0 then let! n := stack_node 0 in do! ref_node n in ret (n, false)
        else
          let! table := stack_node (zlen b) in
          let! (_, t_parent) := handler_node (th_get_parent table true) in
          if negb (t_parent =? NULL) then ret (t_parent, true)
          else let! n := stack_node (zlen b - 1) in do! ref_node n in ret (n, false)) Q' E t).
  { intros Q' HQ'. destruct (Z.eqb_spec (zlen b) 0) as [Ez|Nz].
    - rewrite Ez in Hin. destruct Hin as (c1 & Hc1 & Hn). eapply wp_bind, (wp_stack_node Hst); [done..|].
      eapply wp_bind, (wp_ref_node Hst). intros t' Hst'. by apply wp_ret, HQ'.
    - destruct Hin as (c1 & Hc1 & Hn). eapply wp_bind, (wp_stack_node Hst); [done..|].
      eapply wp_bind, (wp_handler_node Hst _ (fun _ _ => True)).
      { intros e n w' [? ?]%th_get_parent_law. done. }
      intros e p t' _ _ Hst'. destruct (negb (p =? NULL)); [by apply wp_ret, HQ'|].
      destruct (Hat (zlen b - 1)) as (c2 & Hc2 & Hn2).
      { pose proof (zlen_nonneg b). apply at_index_range in Hc1. lia. }
      eapply wp_bind, (wp_stack_node Hst'); [done..|].
      eapply wp_bind, (wp_ref_node Hst'). intros t'' Hst''. by apply wp_ret, HQ'. }
  apply Hpick. clear t Hst Hpick. intros foster_parent t Hst insert. cbn beta iota.
  apply wp_bind, wp_call, (wp_remove_node _ _ _ _ _ _ _ _ Hst); clear t Hst.
  - intros t Hst. apply wp_bind. destruct insert.
    + destruct Hin as (c1 & Hc1 & Hn). eapply wp_bind, (wp_stack_node Hst); [done..|].
      eapply (wp_insert_before _ _ _ _ _ _ _ _ _ _ Hst). clear t Hst. intros e n t He Hst.
      eapply wp_bind, (wp_unref_node Hst). intros t' Hst'. by eapply wp_ret, HQ.
    + eapply (wp_append_child _ _ _ _ _ _ _ _ _ Hst). clear t Hst. intros e n t He Hst.
      eapply wp_bind, (wp_unref_node Hst). intros t' Hst'. by eapply wp_ret, HQ.
  - intros e t He Hce Hst. destruct e; try done;
      eapply wp_bind, (wp_unref_node Hst); intros t' Hst'; (eapply wp_ret, HQ; [done| |done]); by split.
Qed.

(** [m] yields the parent. *)
Lemma wp_append_or_foster type (m : M Z) node R X s l t (Q : hubbub_error * Z -> T -> Prop) E :
  st R X s l t -> cells s ->
  (forall Q' : Z -> T -> Prop, (forall p t', st R X s l t' -> Q' p t') -> wp m Q' E t) ->
  (forall s' e n t', alike s s' -> yields X node e n -> st R X s' l t' -> Q (e, n) t') ->
  wp (append_or_foster type m node) Q E t.
Proof.
  intros Hst Hc Hm HQ. apply wp_bind, wp_ctx.
  destruct (tc_in_table_foster _ && fosters type).
  - by eapply wp_foster.
  - apply wp_bind, Hm. intros p t' Hst'. eapply (wp_append_child _ _ _ _ _ _ _ _ _ Hst').
    intros e n t'' He Hst''. by eapply HQ; [apply alike_refl|..].
Qed.

Lemma wp_top_parent R X s l t (E : hubbub_error -> T -> Prop) :
  st R X s l t -> cells s ->
  forall Q' : Z -> T -> Prop, (forall p t', st R X s l t' -> Q' p t') -> wp top_node Q' E t.
Proof. intros Hst Hc Q' HQ'. destruct s as [|c s]; [done|]. eapply wp_top_node; eauto. Qed.

(** Giving up a reference when an insertion worked. *)
Lemma wp_unref_if_ok e n R X s l t (Q : unit -> T -> Prop) E :
  st R X s l t -> (forall t', st R X s l t' -> Q tt t') ->
  wp (if bool_decide (e = HUBBUB_OK) then unref_node n else ret tt) Q E t.
Proof.
  intros Hst HQ. destruct (bool_decide (e = HUBBUB_OK)); [by eapply (wp_unref_node Hst)|by apply wp_ret, HQ].
Qed.

(** A function that may fail, and then leaves the stack as good as it was. *)
Definition may_fail R X s l (Q : hubbub_error -> T -> Prop) : Prop :=
  (forall s' t, alike s s' -> st R X s' l t -> Q HUBBUB_OK t) /\
  (forall e t, failed R X s l e t -> Q e t).

Lemma wp_insert_leaf type (create : M (hubbub_error * Z)) (m : M Z) R X s l t (Q E : hubbub_error -> T -> Prop) :
  st R X s l t -> cells s -> may_fail R X s l Q -> (forall e t, failed R X s l e t -> E e t) ->
  (forall (Q' : hubbub_error * Z -> T -> Prop) t,
     st R X s l t -> (forall e n t', client_error e -> st R X s l t' -> Q' (e, n) t') -> wp create Q' E t) ->
  (forall t, st R X s l t ->
   forall Q' : Z -> T -> Prop, (forall p t', st R X s l t' -> Q' p t') -> wp m Q' E t) ->
  wp (let! (err, node) := create in
      do! check err in
      let! (err, appended) := append_or_foster type m node in
      do! (if bool_decide (err = HUBBUB_OK) then unref_node appended else ret tt) in
      do! unref_node node in
      ret err) Q E t.
Proof.
  intros Hst Hc [HQ HQe] HE Hcreate Hm.
  apply wp_bind, Hcreate; [done|]. clear t Hst. intros e n t Hce Hst.
  apply wp_bind, wp_check; [intros _|intros He; apply HE; by eapply st_failed; [..|apply alike_refl|done|done]].
  apply wp_bind. eapply (wp_append_or_foster _ _ _ _ _ _ _ _ _ _ Hst Hc); [by apply Hm|].
  clear t Hst. intros s' e' n' t Ha [He' _] Hst.
  eapply wp_bind, (wp_unref_if_ok _ _ _ _ _ _ _ _ _ Hst). clear t Hst. intros t Hst.
  eapply wp_bind, (wp_unref_node Hst). clear t Hst. intros t Hst. apply wp_ret.
  destruct (decide (e' = HUBBUB_OK)) as [->|Hne]; [by eapply HQ|].
  by eapply HQe, st_failed.
Qed.

Lemma wp_append_text data R X s l t (Q E : hubbub_error -> T -> Prop) :
  st R X s l t -> cells s -> may_fail R X s l Q -> (forall e t, failed R X s l e t -> E e t) ->
  wp (append_text data) Q E t.
Proof.
  intros Hst Hc HQ HE. destruct s as [|c s]; [done|].
  eapply wp_bind, (wp_current_node _ _ _ _ _ _ _ _ Hst Hc).
  apply (wp_insert_leaf _ _ top_node R X (c :: s) l); try done.
  - intros Q' t' Hst' HQ'. eapply (wp_handler_node Hst' _ (fun _ _ => True)).
    + intros e n w' [? ?]%th_create_text_law. done.
    + intros e n t'' ? _ ?. by apply HQ'.
  - intros t' Hst'. by eapply wp_top_parent.
Qed.

(** The parent of a comment is read before the comment is created. *)
Lemma wp_comment data (m : M Z) R X s l t (Q E : hubbub_error -> T -> Prop) :
  st R X s l t -> cells s -> may_fail R X s l Q -> (forall e t, failed R X s l e t -> E e t) ->
  (forall Q' : Z -> T -> Prop, (forall p, Q' p t) -> wp m Q' E t) ->
  wp (process_comment_append data m) Q E t.
Proof.
  intros Hst Hc HQ HE Hm. destruct s as [|c s]; [done|].
  eapply wp_bind, (wp_current_node _ _ _ _ _ _ _ _ Hst Hc). apply wp_bind, Hm. intros p.
  apply (wp_insert_leaf _ _ (ret p) R X (c :: s) l); try done.
  - intros Q' t' Hst' HQ'. eapply (wp_handler_node Hst' _ (fun _ _ => True)).
    + intros e n w' [? ?]%th_create_comment_law. done.
    + intros e n t'' ? _ ?. by apply HQ'.
  - intros t' Hst' Q' HQ'. by apply wp_ret, HQ'.
Qed.

(** ** Elements *)

Lemma wp_undo err n (Q : unit -> T -> Prop) (E : hubbub_error -> T -> Prop) R X X' s s' l (t : T) :
  st R X' s' l t -> X ⊆ X' -> alike s s' -> err <> HUBBUB_OK -> client_error err ->
  (forall e t, failed R X s l e t -> E e t) ->
  wp (undo_insertion err n) Q E t.
Proof.
  intros Hst HX Ha He Hce HE. unfold undo_insertion.
  eapply wp_bind, wp_call, (wp_remove_node _ _ _ _ _ _ _ _ Hst); clear t Hst.
  - intros t Hst. eapply wp_bind, (wp_unref_node Hst). intros t' Hst'. by eapply wp_return_early, HE, st_failed.
  - intros e t _ _ Hst. eapply wp_bind, (wp_unref_node Hst). intros t' Hst'.
    by eapply wp_return_early, HE, st_failed.
Qed.

(** What pushing the tag's element makes of a stack. *)
Definition tag_cell (tag : hubbub_tag) (n : Z) : element_context :=
  new_cell (tag_ns tag) (element_type_from_name (tag_name tag)) n.

Lemma wp_insert_element tag (push : bool) R X s l t (Q E : hubbub_error -> T -> Prop) :
  st R X s l t -> cells s -> (forall e t, failed R X s l e t -> E e t) ->
  (forall s' n t', alike s s' -> n ∉ X ->
     st R (n :: X) (if push then tag_cell tag n :: s' else s') l t' -> Q HUBBUB_OK t') ->
  wp (insert_element alloc_ok tag push) Q E t.
Proof.
  intros Hst Hc HE HQ. unfold insert_element. pose proof Hc as Hc0.
  destruct s as [|c s]; [done|]. eapply wp_bind, (wp_current_node _ _ _ _ _ _ _ _ Hst Hc).
  eapply wp_bind, (wp_new_element Hst).
  { intros w e n w'. apply th_create_element_law. }
  2: { intros e n t' He Hce Hst'. apply wp_bind, wp_check; [done|]. intros _. eapply HE, st_failed; [done|done|apply alike_refl|done|done]. }
  clear t Hst. intros n t Hn Hst. apply wp_bind, wp_check; [intros _|done].
  assert (HX : X ⊆ n :: X) by (intros k Hk; by right).
  apply wp_bind. eapply (wp_append_or_foster _ _ _ _ _ _ _ _ _ _ Hst Hc); [by eapply wp_top_parent|].
  clear t Hst. intros s' e n' t Ha [Hce Hn'] Hst. pose proof (alike_cells _ _ Ha Hc) as Hc'.
  eapply wp_bind, (wp_unref_node Hst). clear t Hst. intros t Hst.
  apply wp_bind, wp_check; [intros ->|intros; by eapply HE, st_failed].
  rewrite (Hn' eq_refl) by by left. clear n' Hn' Hce.
  apply wp_bind, wp_ctx.
  set (Q1 := fun (_ : unit) (t : T) => st R (n :: X) s' l t).
  assert (Hform : wp (if negb (tc_form_element (tb_context t) =? NULL) &&
                         is_form_associated (element_type_from_name (tag_name tag)) then
         let! err := handler_error (th_form_associate (tc_form_element (tb_context t)) n) in
         match err with HUBBUB_OK => ret tt | _ => undo_insertion err n end
       else ret tt) Q1 E t).
  { destruct (_ && _); [|done]. eapply wp_bind, (wp_handler_error Hst).
    { intros e w' [? ?]%th_form_associate_law. done. }
    intros e t' Hce Hst'. destruct e; try done; by eapply wp_undo. }
  eapply wp_bind, wp_mono; [apply Hform| |done]. subst Q1. clear t Hst Hform. cbn beta. intros _ t Hst.
  destruct push.
  - eapply wp_bind, wp_bind, wp_call, (wp_push alloc_ok Hlimit); [exact Hst| |].
    + clear t Hst. intros t Hst. apply wp_ret, wp_ret. by eapply HQ.
    + intros t' Hst'. by eapply wp_undo.
  - eapply wp_bind, (wp_unref_node Hst). clear t Hst. intros t Hst. apply wp_ret. by eapply HQ.
Qed.

Lemma inv_insert X tag n s s' l :
  inv X s l -> alike s s' -> n ∉ X -> tag_ns tag = HUBBUB_NS_HTML -> inv (n :: X) (tag_cell tag n :: s') l.
Proof. intros Hi Ha Hn Hns. apply inv_push_new; [by eapply inv_alike|done|done]. Qed.
End Steps.
