(* ===== verification/TreePops.v ===== *)
(** * TreePops: popping elements, and the reconstruction of the formatting
    elements. *)
From S2P Require Import Prelude.
From S2P Require Import Errors.
From S2P Require Import Tokens.
From S2P Require Import TokeniserState.
From S2P Require Import TokeniserMonad.
From S2P Require Import TokeniserWp.
From S2P Require Import ElementType.
From S2P Require Import TreeState.
From S2P Require Import TreeRepr.
From S2P Require Import TreeStack.
From S2P Require Import TreeRules.
From S2P Require Import TreeInv.
From S2P Require Import TreeSteps.
From stdpp Require Import gmap.
Local Open Scope Z_scope.

(** The items of a list from which elements were popped. *)
Definition closed_item (x x' : Z * item) : Prop :=
  x'.1 = x.1 /\ it_type x'.2 = it_type x.2 /\ it_node x'.2 = it_node x.2 /\
  (it_index x'.2 = it_index x.2 \/ it_index x'.2 = 0).
Definition closed : list (Z * item) -> list (Z * item) -> Prop := Forall2 closed_item.

Lemma closed_refl l : closed l l.
Proof. induction l; constructor; [split_and!; auto|done]. Qed.

Lemma closed_trans a b c : closed a b -> closed b c -> closed a c.
Proof.
  intros H. revert c. induction H as [|x y a b (A1 & A2 & A3 & A4) _ IH]; intros c Hc;
    inversion_clear Hc as [|? z ? ? (B1 & B2 & B3 & B4) ?]; constructor; [|by apply IH].
  split_and!; [congruence..|]. destruct A4, B4; (left; congruence) || (right; congruence).
Qed.

Lemma closed_popped ty i l : closed l (popped ty i l).
Proof.
  unfold popped. destruct (listed ty); [|apply closed_refl].
  induction l as [|[p d] l IH]; constructor; [|done].
  unfold move_item. split_and!; destruct (it_index d =? i); cbn; auto.
Qed.

Lemma closed_mid a p d b l' :
  closed (a ++ (p, d) :: b) l' -> exists a' d' b', l' = a' ++ (p, d') :: b' /\
    closed a a' /\ closed b b' /\ closed_item (p, d) (p, d').
Proof.
  intros (a' & l2 & Ha & H2 & ->)%Forall2_app_inv_l.
  apply Forall2_cons_inv_l in H2 as ([p' d'] & b' & Hd & Hb & ->).
  exists a', d', b'. destruct Hd as (E & ?). cbn in E. by subst p'.
Qed.

Section Pops.
Context {W : Type} `{!TreeHandler W} `{!TreeHandlerLaws W}.
Local Abbreviation T := (hubbub_treebuilder W).
Local Abbreviation M := (comp (hubbub_treebuilder W)).
Context (alloc_ok : nat -> Z -> bool) (Hlimit : alloc_limit alloc_ok).

(** A state that stands for a stack and a list that are in order. *)
Record ok (R : rest_view) (X : list Z) (s : list element_context) (l : list (Z * item)) (t : T) : Prop := {
  ok_st : st R X s l t;
  ok_inv : inv X s l
}.

Lemma ok_cells R X s l t : ok R X s l t -> cells s.
Proof. intros H. apply H. Qed.

Lemma ok_fails R X s l (t : T) e : ok R X s l t -> e <> HUBBUB_OK -> client_error e -> fails e t.
Proof. intros [Hst Hi]. eapply st_fails; [done|apply Hi]. Qed.

Lemma wp_pop_ok R X c s l t (Q : element_type -> T -> Prop) E :
  ok R X (c :: s) l t -> s <> [] ->
  (forall l' t', closed l l' -> ok R X s l' t' -> Q (ty c) t') -> wp pop_unref Q E t.
Proof.
  intros [Hst Hi] Hs HQ. destruct (cells_in [] c s (iv_cells _ _ _ Hi)) as [Ht Hn].
  eapply (wp_pop_unref _ _ _ _ _ _ _ _ _ _ Hst Hs Ht Hn). intros t' Hst'.
  apply (HQ _ _ (closed_popped (ty c) (zlen s) l)). split; [done|by apply inv_pop].
Qed.

(** [do { pop } while (!stop)] *)
Lemma wp_pop_loop stop a c b : forall fuel R X l t (Q : unit -> T -> Prop) E,
  ok R X (a ++ c :: b) l t -> b <> [] -> (length a < fuel)%nat ->
  Forall (fun c => stop (ty c) = false) a -> stop (ty c) = true ->
  (forall l' t', closed l l' -> ok R X b l' t' -> Q tt t') -> wp (pop_loop fuel stop) Q E t.
Proof.
  induction a as [|x a IH]; intros fuel R X l t Q E Hok Hb Hf Ha Hc HQ;
    (destruct fuel as [|fuel]; [lia|]); cbn [app pop_loop] in *.
  - eapply wp_bind, (wp_pop_ok _ _ _ _ _ _ _ _ Hok Hb). intros l' t' Hl Hok'. rewrite Hc.
    by eapply wp_ret, HQ.
  - apply Forall_cons in Ha as [Hx Ha]. cbn in Hf.
    eapply wp_bind, (wp_pop_ok _ _ _ _ _ _ _ _ Hok); [by destruct a|]. intros l' t' Hl Hok'. rewrite Hx.
    eapply IH; [done|done|lia|done|done|]. intros l'' t'' Hl' Hok''. eapply HQ; [|done].
    by eapply closed_trans.
Qed.


Lemma wp_pop_until stop a c b R X l t (Q : unit -> T -> Prop) E :
  ok R X (a ++ c :: b) l t -> b <> [] ->
  Forall (fun c => stop (ty c) = false) a -> stop (ty c) = true ->
  (forall l' t', closed l l' -> ok R X b l' t' -> Q tt t') -> wp (pop_until stop) Q E t.
Proof.
  intros Hok Hb Ha Hc HQ. eapply wp_bind, (wp_top_index (ok_st _ _ _ _ _ Hok)).
  eapply wp_pop_loop; try done. unfold zlen. rewrite length_app. cbn. lia.
Qed.

(** [while (go) pop] *)
Lemma wp_pop_while_loop go a c b : forall fuel R X l t (Q : unit -> T -> Prop) E,
  ok R X (a ++ c :: b) l t -> (length a < fuel)%nat ->
  Forall (fun c => go (ty c) = true) a -> go (ty c) = false ->
  (forall l' t', closed l l' -> ok R X (c :: b) l' t' -> Q tt t') -> wp (pop_while_loop fuel go) Q E t.
Proof.
  induction a as [|x a IH]; intros fuel R X l t Q E Hok Hf Ha Hc HQ;
    (destruct fuel as [|fuel]; [lia|]); cbn [app pop_while_loop] in *;
    eapply wp_bind, (wp_current_node _ _ _ _ _ _ _ _ (ok_st _ _ _ _ _ Hok) (ok_cells _ _ _ _ _ Hok)).
  - rewrite Hc. eapply wp_ret, HQ; [apply closed_refl|done].
  - apply Forall_cons in Ha as [Hx Ha]. cbn in Hf. rewrite Hx.
    eapply wp_bind, (wp_pop_ok _ _ _ _ _ _ _ _ Hok); [by destruct a|]. intros l' t' Hl Hok'.
    eapply IH; [done|lia|done|done|]. intros l'' t'' Hl' Hok''. eapply HQ; [|done].
    by eapply closed_trans.
Qed.

Lemma wp_pop_while go a c b R X l t (Q : unit -> T -> Prop) E :
  ok R X (a ++ c :: b) l t ->
  Forall (fun c => go (ty c) = true) a -> go (ty c) = false ->
  (forall l' t', closed l l' -> ok R X (c :: b) l' t' -> Q tt t') -> wp (pop_while go) Q E t.
Proof.
  intros Hok Ha Hc HQ. eapply wp_bind, (wp_top_index (ok_st _ _ _ _ _ Hok)).
  eapply wp_pop_while_loop; try done. unfold zlen. rewrite length_app. cbn. lia.
Qed.

(** [while (current_node >= node) pop] *)
Lemma wp_pop_down_loop a b : forall fuel R X l t (Q : unit -> T -> Prop) E,
  ok R X (a ++ b) l t -> b <> [] -> (length a < fuel)%nat ->
  (forall l' t', closed l l' -> ok R X b l' t' -> Q tt t') -> wp (pop_down_loop fuel (zlen b)) Q E t.
Proof.
  induction a as [|x a IH]; intros fuel R X l t Q E Hok Hb Hf HQ;
    (destruct fuel as [|fuel]; [lia|]); cbn [app pop_down_loop] in *;
    eapply wp_bind, (wp_top_index (ok_st _ _ _ _ _ Hok)).
  - rewrite (proj2 (Z.leb_gt _ _)) by lia. eapply wp_ret, HQ; [apply closed_refl|done].
  - cbn in Hf. rewrite (proj2 (Z.leb_le _ _)).
    2: { rewrite zlen_cons, zlen_app. pose proof (zlen_nonneg a). lia. }
    eapply wp_bind, (wp_pop_ok _ _ _ _ _ _ _ _ Hok); [by destruct a|]. intros l' t' Hl Hok'.
    eapply IH; [done|done|lia|]. intros l'' t'' Hl' Hok''. eapply HQ; [|done].
    by eapply closed_trans.
Qed.

Lemma wp_pop_down a b R X l t (Q : unit -> T -> Prop) E :
  ok R X (a ++ b) l t -> b <> [] ->
  (forall l' t', closed l l' -> ok R X b l' t' -> Q tt t') -> wp (pop_down (zlen b)) Q E t.
Proof.
  intros Hok Hb HQ. eapply wp_bind, (wp_top_index (ok_st _ _ _ _ _ Hok)).
  eapply wp_pop_down_loop; try done. unfold zlen. rewrite length_app. lia.
Qed.

(** Clearing the list. *)
Lemma wp_clear_ok R X s l t (Q : unit -> T -> Prop) E :
  ok R X s l t -> (forall l' t', ok R X s l' t' -> Q tt t') ->
  wp clear_active_formatting_list_to_marker Q E t.
Proof.
  intros [Hst Hi] HQ. eapply wp_clear_marker; [done|]. intros l' m t' -> Hst'. eapply HQ.
  split; [done|by eapply inv_list_prefix].
Qed.

(** An element in scope is popped down to, or taken out. *)
Lemma wp_remove_ok R X a c b l t (Q : element_context -> T -> Prop) E :
  ok R X (a ++ c :: b) l t -> b <> [] -> (forall d, d ∈ l.*2 -> it_index d <> zlen b) ->
  (forall l' t', ok R X (a ++ b) l' t' -> Q c t') -> wp (element_stack_remove (zlen b)) Q E t.
Proof.
  intros [Hst Hi] Hb Hf HQ. eapply (wp_stack_remove _ _ _ _ _ _ _ _ _ Hst Hb).
  - by eapply inv_owned.
  - by eapply cells_typed, Hi.
  - intros t' Hst'. eapply HQ. split; [done|by eapply inv_remove_cell].
Qed.

(** ** Reconstruction *)

(** An item to be opened again. *)
Definition dormant (d : item) : Prop := it_index d = 0 /\ is_scoping_element (it_type d) = false.

(** The items before the last ones that are to be opened again. *)
Definition awake (x : list (Z * item)) : Prop :=
  x = [] \/ exists x0 p d, x = x0 ++ [(p, d)] /\ ~ dormant d.

Lemma wp_unopened_loop x : forall fuel R X s y t (Q : Z -> T -> Prop) E,
  st R X s (x ++ y) t -> y <> [] -> Forall dormant y.*2 -> (length x < fuel)%nat ->
  (forall x' y', x ++ y = x' ++ y' -> y' <> [] -> Forall dormant y'.*2 -> awake x' -> Q (head_ptr y') t) ->
  wp (unopened_loop fuel (head_ptr y)) Q E t.
Proof.
  induction x as [|[q dq] x IH] using rev_ind; intros fuel R X s y t Q E Hst Hy Hd Hf HQ;
    (destruct fuel as [|fuel]; [lia|]); cbn [unopened_loop]; destruct y as [|[p d] y]; try done; cbn [head_or].
  - eapply wp_bind, (wp_entry_get Hst); [done|]. cbn. apply wp_ret, (HQ [] ((p, d) :: y)); try done. by left.
  - eapply wp_bind, (wp_entry_get Hst); [done|]. cbn [entry_of fe_prev].
    rewrite last_or_app. cbn [last_or]. rewrite <-(assoc_L (++)) in Hst. cbn [app] in Hst.
    rewrite (proj2 (Z.eqb_neq q NULL)) by (by eapply st_ptr).
    eapply wp_bind, (wp_entry_get Hst); [done|]. cbn [entry_of fe_type fe_stack_index fe_next head_or].
    assert (Hlast : ~ dormant dq -> awake (x ++ [(q, dq)])) by (right; by exists x, q, dq).
    destruct (is_scoping_element (it_type dq)) eqn:Hsc.
    { apply wp_ret, (HQ (x ++ [(q, dq)]) ((p, d) :: y)); try done. apply Hlast. intros [_ ?]. congruence. }
    destruct (Z.eqb_spec (it_index dq) 0) as [E0|N0]; cbn [orb negb].
    2: { apply wp_ret, (HQ (x ++ [(q, dq)]) ((p, d) :: y)); try done. apply Hlast. by intros [? _]. }
    rewrite length_app in Hf. cbn in Hf.
    apply (IH fuel R X s ((q, dq) :: (p, d) :: y)); try done.
    + by constructor.
    + lia.
    + intros x' y' Hxy. eapply HQ. by rewrite <-(assoc_L (++)).
Qed.

(** The items of [y] with the nodes [ns], at the indices from [i] on. *)
Fixpoint renewed (i : Z) (y : list (Z * item)) (ns : list Z) : list (Z * item) :=
  match y, ns with
  | (p, d) :: y, n :: ns => (p, new_item (it_ns d) (it_type d) n i) :: renewed (i + 1) y ns
  | _, _ => []
  end.

(** Whether the cells of [k], the top first, are clones of the items of [y]. *)
Definition reopened (y : list (Z * item)) (k : list element_context) : Prop :=
  Forall2 (fun x c => ec_type c = Some (it_type x.2)) y (rev k).

Lemma reopened_alike y k k' : reopened y k -> alike k k' -> reopened y k'.
Proof.
  unfold reopened. intros Hk Hak.
  assert (Hr : alike (rev k) (rev k')) by (unfold alike; rewrite !rev_alt; by apply Forall2_reverse).
  revert Hk Hr. generalize (rev k) (rev k'). clear. intros m m' Hm. revert m'.
  induction Hm as [|a c y m Hac _ IH]; intros m' Hr;
    inversion_clear Hr as [|? c' ? ? (_ & E & _) ?]; constructor; [congruence|by apply IH].
Qed.

Lemma dormant_listed d : dormant d -> active_item d -> is_formatting_element (it_type d) = true.
Proof.
  intros [_ Hs] [Ht _]. unfold active_type in Ht. apply orb_prop in Ht as [?|Ht]; [done|].
  apply one_of_In in Ht. repeat destruct Ht as [E|Ht]; try rewrite <-E in Hs; try discriminate Hs. done.
Qed.

Lemma wp_reopen_loop y2 : forall fuel R X s x y1 k l t (Q E : hubbub_error -> T -> Prop),
  ok R X (k ++ s) l t -> l = x ++ y1 ++ y2 -> reopened y1 k -> Forall dormant y2.*2 -> (length y2 < fuel)%nat ->
  (forall X' s' k' t', X ⊆ X' -> ok R X' (k' ++ s') l t' -> alike s s' -> reopened (y1 ++ y2) k' ->
     Q HUBBUB_OK t') ->
  (forall e X' s' k' t', e <> HUBBUB_OK -> client_error e -> ok R X' (k' ++ s') l t' -> alike s s' ->
     E e t') ->
  s <> [] ->
  wp (reopen_loop alloc_ok fuel (head_ptr y2)) Q E t.
Proof.
  induction y2 as [|[p d] y2 IH]; intros fuel R X s x y1 k l t Q E Hok Hl Hk Hd Hf HQ HE Hs;
    (destruct fuel as [|fuel]; [lia|]); cbn [reopen_loop head_or].
  - eapply wp_ret, HQ; [done|done|apply alike_refl|]. by rewrite app_nil_r.
  - pose proof Hok as [Hst Hi]. apply Forall_cons in Hd as [Hdp Hd]. cbn in Hf.
    rewrite Hl in Hst. rewrite (proj2 (Z.eqb_neq p NULL)).
    2: { rewrite (assoc_L (++)) in Hst. by eapply st_ptr. }
    destruct (k ++ s) as [|c0 s0] eqn:Ek; [by destruct k|].
    eapply wp_bind, (wp_current_node _ _ _ _ _ _ _ _ Hst (ok_cells _ _ _ _ _ Hok)).
    eapply wp_bind, (wp_entry_get Hst); [by rewrite (assoc_L (++))|].
    cbn [entry_of fe_node fe_ns fe_type fe_next]. rewrite <-Ek in *. generalize (ty c0). clear c0 s0 Ek. intros top_type.
    assert (Hks : k ++ s <> []) by (by destruct k).
    eapply wp_bind, (wp_new_element Hst).
    { intros w e n w'. apply th_clone_node_law. }
    2: { intros e n t' He Hce Hst'. apply wp_bind, wp_check; [done|]. intros _.
         eapply HE; [done|done|split; [|done]|apply alike_refl]. by rewrite Hl. }
    clear t Hst Hok. intros n t Hn Hst. apply wp_bind, wp_check; [intros _|done].
    apply wp_bind. eapply (wp_append_or_foster _ _ _ _ _ _ _ _ _ _ Hst (iv_cells _ _ _ Hi)).
    { eapply wp_top_parent; [done|apply Hi]. }
    clear t Hst. intros s' e n' t Ha [Hce Hn'] Hst.
    apply Forall2_app_inv_l in Ha as (k' & s1 & Hak & Has & ->).
    assert (Hi' : inv (n :: X) (k' ++ s1) l).
    { apply (inv_known X); [|set_solver]. eapply inv_alike; [|done]. by apply Forall2_app. }
    assert (Hok' : forall t, st R (n :: X) (k' ++ s1) (x ++ y1 ++ (p, d) :: y2) t ->
              ok R (n :: X) (k' ++ s1) l t) by (intros; split; [by rewrite Hl|done]).
    eapply wp_bind, (wp_unref_node Hst). clear t Hst. intros t Hst.
    apply wp_bind, wp_check; [intros ->|intros; eapply HE; [done|done|by apply Hok'|done]].
    rewrite (Hn' eq_refl) by by left. clear n' Hn' Hce.
    assert (Hundo : forall err t (Q' : unit -> T -> Prop), st R (n :: X) (k' ++ s1) (x ++ y1 ++ (p, d) :: y2) t ->
      err <> HUBBUB_OK -> client_error err -> wp (undo_insertion err n) Q' E t).
    { clear t Hst. intros err t Q' Hst He Hce. unfold undo_insertion.
      eapply wp_bind, wp_call, (wp_remove_node _ _ _ _ _ _ _ _ Hst); clear t Hst.
      - intros t Hst. eapply wp_bind, (wp_unref_node Hst). intros t' Hst'.
        eapply wp_return_early, HE; [done|done|by apply Hok'|done].
      - intros e' t _ _ Hst. eapply wp_bind, (wp_unref_node Hst). intros t' Hst'.
        eapply wp_return_early, HE; [done|done|by apply Hok'|done]. }
    eapply wp_bind, wp_call, (wp_push alloc_ok Hlimit); [exact Hst| |].
    2: { intros t' Hst'. by apply wp_bind, Hundo. }
    clear t Hst. intros t Hst. apply wp_bind, wp_ret.
    apply (IH fuel R (n :: X) s1 x (y1 ++ [(p, d)]) (new_cell (it_ns d) (it_type d) n :: k') l); try done.
    + split; [by rewrite Hl|]. cbn [app].
      assert (active_item d /\ True) as [[_ Hns] _].
      { split; [|done]. pose proof (iv_types _ _ _ Hi) as Hx. rewrite Forall_forall in Hx. apply Hx.
        rewrite Hl, !fmap_app, !elem_of_app. right; right; by left. }
      apply (inv_push (n :: X)); [done|split_and!; cbn; [by rewrite Hns|eauto..]|by left| |].
      * intros Hin. assert (Hc : exists c, c ∈ k ++ s /\ nd c = n).
        { assert (Hal : alike (k ++ s) (k' ++ s1)) by (by apply Forall2_app). rewrite (alike_nodes _ _ Hal) in Hin.
          apply list_elem_of_fmap in Hin as (c & Ec & Hc). exists c. by split. }
        destruct Hc as (c & Hc & <-). pose proof (iv_stack_known _ _ _ Hi) as Hx.
        rewrite Forall_forall in Hx. auto.
      * intros d' Hd' E'. pose proof (iv_list_known _ _ _ Hi) as Hx. rewrite Forall_forall in Hx.
        specialize (Hx d' Hd'). cbn in E'. by rewrite E' in Hx.
    + by rewrite <-(assoc_L (++)).
    + unfold reopened in *. cbn [rev]. apply Forall2_app; [|by constructor].
      by eapply reopened_alike.
    + lia.
    + intros X' s' k'' t' HX Hok'' Has' Hk''. eapply HQ; [intros m Hm; apply HX; by right|done|by eapply alike_trans|].
      by rewrite <-(assoc_L (++)) in Hk''.
    + intros e X' s' k'' t' He Hce Hok'' Has'. eapply HE; [done|done|done|by eapply alike_trans].
    + by eapply alike_some.
Qed.

Lemma dormant_marks y : Forall dormant y.*2 -> marks y = [].
Proof. intros H. apply marks_closed. intros d Hd. rewrite Forall_forall in H. by apply H. Qed.

(** The clones take the place of the nodes in the list. *)
Lemma wp_replace_loop y : forall fuel R X s k x l t (Q : unit -> T -> Prop) E,
  ok R X (k ++ s) l t -> s <> [] -> l = x ++ y -> reopened y k -> Forall dormant y.*2 ->
  (forall j, j ∈ marks x -> j < zlen s) -> (length y < fuel)%nat ->
  (forall t', ok R X (k ++ s) (x ++ renewed (zlen s) y (map nd (rev k))) t' -> Q tt t') ->
  wp (replace_loop fuel (head_ptr y) (zlen s)) Q E t.
Proof.
  induction y as [|[p d] y IH]; intros fuel R X s k x l t Q E Hok Hs -> Hk Hd Hx Hf HQ;
    (destruct fuel as [|fuel]; [lia|]); cbn [replace_loop head_or]; [by apply wp_ret, HQ|].
  cbn in Hf. pose proof Hok as [Hst Hi]. apply Forall_cons in Hd as [Hdp Hd].
  rewrite (proj2 (Z.eqb_neq p NULL)) by (by eapply st_ptr).
  apply Forall2_cons_inv_l in Hk as (c & rk & Hc & Hk & Erk). cbn in Hc.
  assert (k = rev rk ++ [c]) as -> by (by rewrite <-(rev_involutive k), Erk).
  rewrite rev_app_distr, rev_involutive in HQ. cbn [rev app map renewed] in HQ.
  rewrite <-(assoc_L (++)) in *. cbn [app] in *.
  assert (Hact : active_item d).
  { pose proof (iv_types _ _ _ Hi) as Ht. rewrite Forall_forall in Ht. apply Ht.
    rewrite fmap_app, elem_of_app. right; by left. }
  pose proof (dormant_listed d Hdp Hact) as Hfmt. destruct Hact as [Hact Hns].
  destruct (cells_in _ _ _ (iv_cells _ _ _ Hi)) as [_ Hcn].
  eapply wp_bind, (wp_entry_get Hst); [done|]. cbn [entry_of fe_ns fe_type fe_next].
  eapply wp_bind, (wp_stack_node Hst); [apply at_index_mid|done|].
  eapply wp_bind, (wp_ref_node Hst). clear t Hok Hst. intros t Hst.
  eapply wp_bind, (wp_list_replace _ _ _ _ _ _ _ _ _ _ _ _ _ _ Hst). clear t Hst. intros t Hst.
  eapply wp_bind, (wp_unref_node Hst). clear t Hst. intros t Hst.
  set (d' := new_item (it_ns d) (it_type d) (nd c) (zlen s)) in *.
  assert (Hok : ok R X (rev rk ++ c :: s) (x ++ (p, d') :: y) t).
  { split; [done|]. apply inv_list_remove in Hi. apply inv_list_add; try done.
    - apply at_index_mid.
    - pose proof (zlen_positive s Hs). lia.
    - unfold ty. rewrite Hc. unfold listed. cbn. by rewrite Hfmt.
    - unfold ty. by rewrite Hc.
    - rewrite dormant_marks by done. by intros j ?%elem_of_nil. }
  clear Hst. replace (zlen s + 1) with (zlen (c :: s)) by (rewrite zlen_cons; lia).
  apply (IH fuel R X (c :: s) (rev rk) (x ++ [(p, d')]) (x ++ (p, d') :: y)); try done.
  - by rewrite <-(assoc_L (++)).
  - unfold reopened. by rewrite rev_involutive.
  - intros j. rewrite marks_app, elem_of_app, zlen_cons. pose proof (zlen_positive s Hs). cbn.
    destruct (Z.eqb_spec (zlen s) 0) as [|_]; [lia|]. rewrite list_elem_of_singleton.
    intros [Hj| ->]; [specialize (Hx j Hj); lia|lia].
  - lia.
  - intros t' Ht'. apply HQ. replace (zlen s + 1) with (zlen (c :: s)) by (rewrite zlen_cons; lia).
    rewrite rev_involutive, <-(assoc_L (++)) in Ht'. done.
Qed.

(** cleanup: the clones are popped. *)
Lemma wp_cleanup_loop a : forall fuel R X b l t (Q : unit -> T -> Prop) E,
  ok R X (a ++ b) l t -> b <> [] -> (length a < fuel)%nat ->
  (forall l' t', ok R X b l' t' -> Q tt t') -> wp (cleanup_loop fuel (zlen b - 1)) Q E t.
Proof.
  induction a as [|c a IH]; intros fuel R X b l t Q E Hok Hb Hf HQ;
    (destruct fuel as [|fuel]; [lia|]); cbn [app cleanup_loop] in *; pose proof Hok as [Hst Hi];
    eapply wp_bind, (wp_top_index Hst).
  - rewrite (proj2 (Z.ltb_ge _ _)) by lia. by eapply wp_ret, HQ.
  - rewrite (proj2 (Z.ltb_lt _ _)) by (rewrite zlen_cons, zlen_app; pose proof (zlen_nonneg a); lia).
    cbn in Hf. destruct (cells_in [] c _ (iv_cells _ _ _ Hi)) as [Ht Hn].
    assert (Hab : a ++ b <> []) by (by destruct a).
    eapply wp_bind, (wp_pop _ _ _ _ _ _ _ _ _ Hst Hab Ht). clear t Hok Hst. intros t Hst.
    eapply wp_bind, wp_of_option; [done|].
    apply inv_pop in Hi; [|done].
    eapply wp_bind, wp_call, (wp_remove_node _ _ _ _ _ _ _ _ Hst); clear t Hst.
    + intros t Hst. eapply wp_bind, (wp_unref_node Hst). intros t' Hst'.
      eapply IH; [by split|done|lia|done].
    + intros e t _ _ Hst. eapply wp_bind, (wp_unref_node Hst). intros t' Hst'.
      eapply IH; [by split|done|lia|done].
Qed.

Lemma reopened_formatting y k :
  reopened y k -> Forall dormant y.*2 -> Forall active_item y.*2 ->
  Forall (fun c => is_formatting_element (ty c) = true) k.
Proof.
  intros Hk Hd Ha. rewrite <-(rev_involutive k). apply List.Forall_rev.
  unfold reopened in Hk. revert Hk Hd Ha. generalize (rev k). clear k. intros m Hm.
  induction Hm as [|[p d] c y m Hc _ IH]; [done|].
  intros [Hd1 Hd]%Forall_cons [Ha1 Ha]%Forall_cons. constructor; [|by apply IH].
  unfold ty. rewrite Hc. by apply dormant_listed.
Qed.

(** Reconstructing opens clones of the last items that are not open, as far as
    a marker or an open one, and puts them into the list. *)
Lemma wp_reconstruct R X s l t (Q E : hubbub_error -> T -> Prop) :
  ok R X s l t -> (forall e t, fails e t -> Q e t) ->
  (forall X' x y k s' t', X ⊆ X' -> alike s s' -> l = x ++ y -> awake x -> Forall dormant y.*2 ->
     reopened y k -> ok R X' (k ++ s') (x ++ renewed (zlen s) y (map nd (rev k))) t' -> Q HUBBUB_OK t') ->
  wp (reconstruct_active_formatting_list alloc_ok) Q E t.
Proof.
  intros Hok HE HQ. pose proof Hok as [Hst Hi]. unfold reconstruct_active_formatting_list.
  pose proof (cells_some _ (iv_cells _ _ _ Hi)) as Hs.
  assert (Hsame : awake l -> Q HUBBUB_OK t).
  { intros Hl. apply (HQ X l [] [] s t); try done; [apply alike_refl|by rewrite app_nil_r| |].
    - constructor.
    - cbn. by rewrite app_nil_r. }
  eapply wp_bind, (wp_top_index Hst). eapply wp_bind, (wp_list_first Hst).
  destruct l as [|[p0 d0] l0 _] using rev_ind; [apply Hsame; by left|].
  assert (Hlast : ~ dormant d0 -> Q HUBBUB_OK t) by (intros ?; apply Hsame; right; by exists l0, p0, d0).
  rewrite (proj2 (Z.eqb_neq (head_ptr (l0 ++ [(p0, d0)])) NULL)).
  2: { rewrite head_or_app. cbn. intros E0. pose proof (ac_ptrs _ _ (st_active _ _ _ _ _ Hst)) as [_ Hn].
       apply Hn. destruct l0 as [|[q dq] l0]; cbn in E0; subst; by left. }
  eapply wp_bind, (wp_list_end Hst). rewrite last_or_app. cbn [last_or].
  eapply wp_bind, (wp_entry_get Hst); [done|]. cbn [entry_of fe_type fe_stack_index].
  destruct (is_scoping_element (it_type d0)) eqn:Hsc; [apply wp_ret, Hlast; intros [_ ?]; congruence|].
  destruct (Z.eqb_spec (it_index d0) 0) as [E0|N0]; [cbn [orb negb]|apply wp_ret, Hlast; by intros [? _]].
  eapply wp_bind, (wp_walk_fuel Hst). set (fuel := S _).
  assert (Hf : (length (l0 ++ [(p0, d0)]) < fuel)%nat) by (subst fuel; lia). clearbody fuel.
  rewrite length_app in Hf. cbn in Hf.
  eapply wp_bind, (wp_unopened_loop l0 _ _ _ _ [(p0, d0)] _ _ _ Hst); [done|by repeat constructor|lia|].
  intros x y Exy Hy Hd Hax. rewrite Exy in *.
  assert (Hlen : (length y < fuel)%nat) by (apply (f_equal length) in Exy; rewrite !length_app in Exy; cbn in Exy; lia).
  apply wp_bind, wp_call, (wp_reopen_loop y fuel R X s x [] [] (x ++ y)); try done; [constructor| |].
  - clear t Hok Hst Hsame Hlast. intros X' s' k t HX Hok Ha Hk. cbn [app] in Hk.
    pose proof (alike_zlen _ _ Ha) as Hz. replace (zlen s - 1 + 1) with (zlen s') by lia.
    eapply wp_bind, (wp_replace_loop y fuel R X' s' k x); try done.
    + by eapply alike_some.
    + intros j Hj. rewrite Hz. apply (inv_marks X s (x ++ y)); [done|]. rewrite marks_app, elem_of_app. by left.
    + intros t' Hok'. rewrite Hz in Hok'. by apply wp_ret, (HQ X' x y k s').
  - clear t Hok Hst Hsame Hlast. intros e X' s' k t He Hce Hok Ha.
    pose proof (alike_zlen _ _ Ha) as Hz. pose proof (alike_some _ _ Ha Hs) as Hs'.
    assert (Hw : wp (let! n := top_index in do! cleanup_loop (S (Z.to_nat n)) (zlen s - 1) in ret e) Q E t);
      [|by destruct e].
    eapply wp_bind, (wp_top_index (ok_st _ _ _ _ _ Hok)). rewrite <-Hz.
    eapply wp_bind, (wp_cleanup_loop k); [exact Hok|done| |].
    + unfold zlen. rewrite length_app. destruct s' as [|c s']; [done|]. cbn. lia.
    + intros l' t' Hok'. apply wp_ret, HE. by eapply ok_fails.
Qed.
End Pops.
