(* ===== verification/TreeRounds.v ===== *)
(** * TreeRounds: the rounds of the adoption agency.

    What one round does to the stack and to the formatting list, and that
    there are only so many rounds. *)
From S2P Require Import Prelude.
From S2P Require Import Errors.
From S2P Require Import Tokens.
From S2P Require Import TokeniserState.
From S2P Require Import TokeniserMonad.
From S2P Require Import TokeniserWp.
From S2P Require Import ElementType.
From S2P Require Import TreeState.
From S2P Require Import TreeRepr.
From S2P Require Import TreeStack.
From S2P Require Import TreeAdoption.
From S2P Require Import TreeRules.
From S2P Require Import TreeInv.
From S2P Require Import TreeSteps.
From S2P Require Import TreePops.
From stdpp Require Import gmap.

(** * The adoption agency is safe and ends.

    It is given a formatting element of a type; each round takes the last item
    of that type, and puts in its place one that is open further up the stack:
    there are fewer blocks above it, so that there are only so many rounds. *)

Local Open Scope Z_scope.

(** The last item of a type after the last marker. *)
Fixpoint find_item (type : element_type) (l : list (Z * item)) (acc : option item) : option item :=
  match l with
  | [] => acc
  | (_, d) :: l =>
      find_item type l
        (if is_scoping_element (it_type d) then None
         else if type_eqb (it_type d) type then Some d else acc)
  end.

(** Items that the search passes over. *)
Definition passed (type : element_type) (d : item) : Prop :=
  is_scoping_element (it_type d) = false /\ it_type d <> type.

Lemma find_item_passed type b acc : Forall (passed type) b.*2 -> find_item type b acc = acc.
Proof.
  revert acc. induction b as [|[p d] b IH]; intros acc H; [done|].
  apply Forall_cons in H as [[Hs Ht] H]. cbn in *. rewrite Hs.
  destruct (type_eqb_spec (it_type d) type); [done|]. by apply IH.
Qed.

Lemma find_item_app type a b acc : find_item type (a ++ b) acc = find_item type b (find_item type a acc).
Proof. revert acc. induction a as [|[p d] a IH]; intros acc; [done|]. cbn. apply IH. Qed.

Lemma find_item_found type a p d b acc :
  is_scoping_element (it_type d) = false -> it_type d = type -> Forall (passed type) b.*2 ->
  find_item type (a ++ (p, d) :: b) acc = Some d.
Proof.
  intros Hs Ht Hb. rewrite find_item_app. cbn. rewrite Hs, Ht.
  destruct (type_eqb_spec type type); [|done]. by apply find_item_passed.
Qed.

Lemma find_item_marker type a p d b acc :
  is_scoping_element (it_type d) = true -> Forall (passed type) b.*2 ->
  find_item type (a ++ (p, d) :: b) acc = None.
Proof. intros Hs Hb. rewrite find_item_app. cbn. rewrite Hs. by apply find_item_passed. Qed.

(** There is nothing for the agency to do. *)
Definition idle (type : element_type) (s : list element_context) (l : list (Z * item)) : Prop :=
  forall d, find_item type l None = Some d -> it_index d <> 0 /\ scope type false s <> it_index d.

(** Blocks: what the agency looks for above a formatting element. *)
Definition is_block (type : element_type) : bool :=
  negb (is_phrasing_element type || is_formatting_element type).
Fixpoint blocks (s : list element_context) : nat :=
  match s with [] => O | c :: s => ((if is_block (ty c) then 1 else 0) + blocks s)%nat end.
(** The cells above index [i]. *)
Definition above (i : Z) (s : list element_context) : list element_context :=
  ztake (zlen s - 1 - i) s.

Lemma blocks_app a b : blocks (a ++ b) = (blocks a + blocks b)%nat.
Proof. induction a as [|c a IH]; [done|]. cbn. rewrite IH. lia. Qed.

Lemma blocks_le s : (blocks s <= length s)%nat.
Proof. induction s as [|c s IH]; [done|]. cbn. destruct (is_block (ty c)); lia. Qed.

Lemma blocks_alike s s' : alike s s' -> blocks s' = blocks s.
Proof.
  induction 1 as [|c c' s s' (_ & E & _) _ IH]; [done|].
  assert (Et : ty c' = ty c) by (unfold ty; by rewrite E). cbn. by rewrite IH, Et.
Qed.

Lemma above_mid a c b : above (zlen b) (a ++ c :: b) = a.
Proof.
  unfold above. rewrite zlen_app, zlen_cons. replace (zlen a + (1 + zlen b) - 1 - zlen b) with (zlen a) by lia.
  rewrite ztake_app_le, ztake_ge by lia. done.
Qed.

(** How many rounds there may still be. *)
Definition rounds (type : element_type) (s : list element_context) (l : list (Z * item)) : nat :=
  match find_item type l None with Some d => blocks (above (it_index d) s) | None => O end.

Lemma rounds_le type s l : (rounds type s l <= length s)%nat.
Proof.
  unfold rounds. destruct (find_item type l None) as [d|]; [|lia].
  etransitivity; [apply blocks_le|]. unfold above, ztake. rewrite length_take. lia.
Qed.

Section Agency.
Context {W : Type} `{!TreeHandler W} `{!TreeHandlerLaws W}.
Local Abbreviation T := (hubbub_treebuilder W).
Local Abbreviation M := (comp (hubbub_treebuilder W)).
Context (malloc : nat -> gmap Z formatting_list_entry -> option Z) (Hmalloc : malloc_fresh malloc).

(** ** Searching the list *)

Lemma wp_find_formatting_loop type a : forall fuel R X s b t (Q : Z -> T -> Prop) E,
  st R X s (a ++ b) t -> Forall (passed type) b.*2 -> (length a < fuel)%nat ->
  (Forall (passed type) (a ++ b).*2 -> Q NULL t) ->
  (forall a' p d b', a ++ b = a' ++ (p, d) :: b' -> Forall (passed type) b'.*2 ->
     is_scoping_element (it_type d) = true \/ it_type d = type -> Q p t) ->
  wp (find_formatting_loop fuel (last_ptr a) type) Q E t.
Proof.
  induction a as [|[p d] a IH] using rev_ind; intros fuel R X s b t Q E Hst Hb Hf HN HQ;
    (destruct fuel as [|fuel]; [cbn in Hf; lia|]); cbn [find_formatting_loop].
  - by apply wp_ret, HN.
  - rewrite length_app in Hf. cbn in Hf. rewrite last_or_app. cbn [last_or].
    rewrite <-(assoc_L (++)) in *. cbn [app] in *.
    rewrite (proj2 (Z.eqb_neq p NULL)) by (by eapply st_ptr).
    eapply wp_bind, (wp_entry_get Hst); [done|]. cbn [entry_of fe_type fe_prev].
    destruct (is_scoping_element (it_type d)) eqn:Hs; [by eapply wp_ret, HQ; [..|left]|].
    destruct (type_eqb_spec (it_type d) type); cbn [orb]; [by eapply wp_ret, HQ; [..|right]|].
    eapply IH; [done|by constructor|lia|done|done].
Qed.

Lemma wp_find_formatting type R X s l t (Q : Z -> T -> Prop) E :
  st R X s l t -> (find_item type l None = None -> Q NULL t) ->
  (forall a p d b, l = a ++ (p, d) :: b -> Forall (passed type) b.*2 ->
     is_scoping_element (it_type d) = false -> it_type d = type -> Q p t) ->
  wp (aa_find_formatting_element type) Q E t.
Proof.
  intros Hst HN HQ. eapply wp_bind, (wp_walk_fuel Hst). eapply wp_bind, (wp_list_end Hst).
  rewrite <-(app_nil_r l) in Hst.
  eapply wp_bind, (wp_find_formatting_loop _ _ _ _ _ _ _ _ _ _ Hst); [done|lia| |].
  { rewrite app_nil_r. intros Hl. by apply wp_ret, HN, find_item_passed. }
  intros a p d b E' Hb Hd. rewrite E' in Hst.
  rewrite (proj2 (Z.eqb_neq p NULL)) by (by eapply st_ptr).
  eapply wp_bind, (wp_entry_get Hst); [done|]. apply wp_ret. cbn [entry_of fe_type].
  rewrite app_nil_r in E'.
  destruct (is_scoping_element (it_type d)) eqn:Hs; [apply HN; rewrite E'; by apply find_item_marker|].
  destruct Hd as [?|Hd]; [done|]. by eapply HQ.
Qed.

(** The item with an index. *)
Lemma wp_find_index_loop i a : forall fuel R X s b t (Q : Z -> T -> Prop) E,
  st R X s (a ++ b) t -> Forall (fun d => it_index d <> i) b.*2 -> (length a < fuel)%nat ->
  (Forall (fun d => it_index d <> i) (a ++ b).*2 -> Q NULL t) ->
  (forall a' p d b', a ++ b = a' ++ (p, d) :: b' -> it_index d = i -> Q p t) ->
  wp (find_index_loop fuel (last_ptr a) i) Q E t.
Proof.
  induction a as [|[p d] a IH] using rev_ind; intros fuel R X s b t Q E Hst Hb Hf HN HQ;
    (destruct fuel as [|fuel]; [cbn in Hf; lia|]); cbn [find_index_loop].
  - by apply wp_ret, HN.
  - rewrite length_app in Hf. cbn in Hf. rewrite last_or_app. cbn [last_or].
    rewrite <-(assoc_L (++)) in *. cbn [app] in *.
    rewrite (proj2 (Z.eqb_neq p NULL)) by (by eapply st_ptr).
    eapply wp_bind, (wp_entry_get Hst); [done|]. cbn [entry_of fe_stack_index fe_prev].
    destruct (Z.eqb_spec (it_index d) i); [by eapply wp_ret, HQ|].
    eapply IH; [done|by constructor|lia|done|done].
Qed.

Lemma wp_find_index i R X s l t (Q : Z -> T -> Prop) E :
  st R X s l t ->
  (Forall (fun d => it_index d <> i) l.*2 -> Q NULL t) ->
  (forall a p d b, l = a ++ (p, d) :: b -> it_index d = i -> p <> NULL -> Q p t) ->
  wp (find_index i) Q E t.
Proof.
  intros Hst HN HQ. eapply wp_bind, (wp_walk_fuel Hst). eapply wp_bind, (wp_list_end Hst).
  rewrite <-(app_nil_r l) in Hst.
  eapply (wp_find_index_loop _ _ _ _ _ _ _ _ _ _ Hst); [done|lia|by rewrite app_nil_r|].
  intros a p d b E' Hi. pose proof Hst as Hst'. rewrite E' in Hst'. rewrite app_nil_r in E'.
  eapply HQ; [done|done|by eapply st_ptr].
Qed.
(** ** Step 1 *)

(** The cell of an item that is open. *)
Lemma inv_split X s x p d y :
  inv X s (x ++ (p, d) :: y) -> it_index d <> 0 ->
  exists a c b, s = a ++ c :: b /\ it_index d = zlen b /\ b <> [] /\ nd c = it_node d /\
    ty c = it_type d /\ listed (ty c) = true /\ open_cell c.
Proof.
  intros Hi Hd. destruct (iv_open _ _ _ Hi d) as (c & Hc & Hl & Hn & Ht); [|done|].
  { rewrite fmap_app, elem_of_app. right; by left. }
  apply at_index_split in Hc as (a & b & -> & E). exists a, c, b.
  assert (Hb : b <> []) by (intros ->; done). split_and!; try done.
  eapply cells_open; [apply Hi|done].
Qed.

Lemma wp_validate type R X s l t (Q : hubbub_error * Z -> T -> Prop) E :
  ok R X s l t -> (idle type s l -> Q (HUBBUB_OK, NULL) t) ->
  (forall a p d b t', l = a ++ (p, d) :: b -> Forall (passed type) b.*2 ->
     is_scoping_element (it_type d) = false -> it_type d = type -> it_index d = 0 ->
     ok R X s (a ++ b) t' -> Q (HUBBUB_OK, NULL) t') ->
  (forall a p d b, l = a ++ (p, d) :: b -> Forall (passed type) b.*2 ->
     is_scoping_element (it_type d) = false -> it_type d = type -> it_index d <> 0 ->
     scope type false s = it_index d -> Q (HUBBUB_REPROCESS, p) t) ->
  wp (aa_find_and_validate_formatting_element type) Q E t.
Proof.
  intros Hok HQ1 HQ2 HQ3. pose proof Hok as [Hst Hi].
  eapply wp_bind, (wp_find_formatting _ _ _ _ _ _ _ _ Hst).
  { intros Hn. apply wp_ret, HQ1. intros d. congruence. }
  intros a p d b El Hb Hs Ht. rewrite El in Hst, Hi, Hok.
  rewrite (proj2 (Z.eqb_neq p NULL)) by (by eapply st_ptr).
  eapply wp_bind, (wp_entry_get Hst); [done|]. cbn [entry_of fe_stack_index fe_type].
  destruct (Z.eqb_spec (it_index d) 0) as [E0|N0].
  - eapply wp_bind, (wp_remove_unref _ _ _ _ _ _ _ _ _ _ Hst). intros t' Hst'.
    eapply wp_ret, HQ2; [done..|]. split; [done|by eapply inv_list_remove].
  - eapply wp_bind, (wp_element_in_scope _ _ _ _ _ _ _ _ _ Hst); [apply Hi|].
    destruct (Z.eqb_spec (scope (it_type d) false s) (it_index d)) as [Es|N]; apply wp_ret.
    + eapply HQ3; try done. by rewrite <-Ht.
    + apply HQ1. intros d' Hd'. rewrite El, find_item_found in Hd' by done. injection Hd' as <-.
      by rewrite <-Ht.
Qed.

(** ** Steps 2 and 3 *)

Lemma wp_block_loop R X m : forall y b l t (Q : Z -> T -> Prop) E,
  st R X (y ++ m ++ b) l t -> cells (y ++ m ++ b) -> b <> [] ->
  Forall (fun c => is_block (ty c) = false) m ->
  (forall y1 c y2, y = y1 ++ c :: y2 -> Forall (fun c => is_block (ty c) = false) y2 ->
     is_block (ty c) = true -> Q (zlen (y2 ++ m ++ b)) t) ->
  (Forall (fun c => is_block (ty c) = false) y -> Q (zlen (y ++ m ++ b)) t) ->
  wp (furthest_block_loop (length y) (zlen (m ++ b))) Q E t.
Proof.
  intros y. revert m. induction y as [|c y IH] using rev_ind; intros m b l t Q E Hst Hc Hb Hm HQ HN.
  - by apply wp_ret, HN.
  - rewrite length_app, Nat.add_comm. cbn [length Nat.add furthest_block_loop].
    rewrite <-(assoc_L (++)) in Hst, Hc, HN. cbn [app] in Hst, Hc, HN.
    eapply wp_bind, (wp_stack_type Hst); [apply at_index_mid|by eapply cells_in|].
    destruct (is_phrasing_element (ty c) || is_formatting_element (ty c)) eqn:Hp.
    + replace (zlen (m ++ b) + 1) with (zlen ((c :: m) ++ b)) by (cbn; rewrite zlen_cons; lia).
      assert (Hblock : is_block (ty c) = false) by (unfold is_block; by rewrite Hp).
      apply (IH (c :: m) b l); try done; [by constructor| |].
      * intros y1 c1 y2 -> Hy2 Hc1.
        replace (y2 ++ (c :: m) ++ b) with ((y2 ++ [c]) ++ m ++ b) by (by rewrite <-(assoc_L (++))).
        apply (HQ y1 c1); [by rewrite <-(assoc_L (++))|by apply Forall_app; split; [|constructor]|done].
      * intros Hy. apply HN. apply Forall_app; by split; [|constructor].
    + apply wp_ret. apply (HQ y c []); [done|done|]. unfold is_block. by rewrite Hp.
Qed.

Lemma wp_furthest R X a c b x p d y t (Q : hubbub_error * Z -> T -> Prop) E :
  ok R X (a ++ c :: b) (x ++ (p, d) :: y) t -> it_index d = zlen b -> b <> [] ->
  (forall l' t', ok R X b l' t' -> Q (HUBBUB_OK, 0) t') ->
  (forall a1 c1 m, a = a1 ++ c1 :: m -> is_block (ty c1) = true ->
     Forall (fun c => is_block (ty c) = false) m -> Q (HUBBUB_REPROCESS, zlen (m ++ c :: b)) t) ->
  wp (aa_find_furthest_block p) Q E t.
Proof.
  intros Hok Hd Hb HN HQ. pose proof Hok as [Hst Hi].
  eapply wp_bind, (wp_entry_get Hst); [done|]. cbn [entry_of fe_stack_index].
  eapply wp_bind, (wp_top_index Hst). rewrite Hd, zlen_app, zlen_cons.
  replace (Z.to_nat _) with (length a) by (unfold zlen; lia).
  replace (zlen b + 1) with (zlen ([] ++ c :: b)) by (cbn; rewrite zlen_cons; lia).
  eapply wp_bind, (wp_block_loop R X [] a (c :: b) _ _ _ _ Hst); [apply Hi|done|done|..].
  - intros a1 c1 m -> Hm Hc1. cbn [app].
    rewrite (proj2 (Z.ltb_ge _ _)).
    + apply wp_ret. by eapply HQ.
    + rewrite !zlen_app, !zlen_cons. pose proof (zlen_nonneg a1). lia.
  - intros _. cbn [app]. rewrite (proj2 (Z.ltb_lt _ _)) by (rewrite zlen_app, zlen_cons; lia).
    assert (Hgone : forall a t l', ok R X (a ++ b) l' t -> closed (x ++ (p, d) :: y) l' ->
      wp (do! pop_down (zlen b) in do! remove_unref p in ret (HUBBUB_OK, 0)) Q E t).
    { intros a' t' l' Hok' Hl. eapply wp_bind, (wp_pop_down a' b _ _ _ _ _ _ Hok' Hb).
      intros l'' t'' Hl' [Hst'' Hi'']. apply (closed_trans _ _ _ Hl) in Hl'.
      apply closed_mid in Hl' as (x' & d' & y' & -> & _).
      eapply wp_bind, (wp_remove_unref _ _ _ _ _ _ _ _ _ _ Hst''). intros t3 Hst3.
      eapply wp_ret, HN. split; [done|by eapply inv_list_remove]. }
    destruct a as [|c0 a]; cbn [app] in Hok |- *; eapply wp_bind, (wp_pop_ok _ _ _ _ _ _ _ _ Hok).
    + done.
    + intros l' t' Hl Hok'. by apply (Hgone [] t' l').
    + by destruct a.
    + intros l' t' Hl Hok'. apply (Hgone (a ++ [c]) t' l'); [by rewrite <-(assoc_L (++))|done].
Qed.
End Agency.



Local Open Scope Z_scope.

(** The cells of [a] that are left in [a'], with clones of some: the types are
    of cells of [a], and the nodes those of [a] or new ones. *)
Record kept (P : element_type -> Prop) (X : list Z) (a a' : list element_context) : Prop := {
  kept_types : Forall (fun c => P (ty c)) a -> Forall (fun c => P (ty c)) a';
  kept_nodes : forall n, n ∈ X -> n ∈ map nd a' -> n ∈ map nd a
}.

Lemma kept_refl P X a : kept P X a a.
Proof. by split. Qed.

Lemma kept_trans P X X' a b c : kept P X a b -> kept P X' b c -> X ⊆ X' -> kept P X a c.
Proof. intros [] [] HX. split; auto. Qed.

Lemma open_set_node n c : open_cell c -> open_cell (set_ec_node (Some n) c).
Proof. intros (? & ? & ? & ?). split_and!; cbn; eauto. Qed.

Lemma head_map g next l : head_or next (map_items g l) = head_or next l.
Proof. by destruct l as [|[p d] l]. Qed.
Lemma last_map g l : forall prev, last_or prev (map_items g l) = last_or prev l.
Proof. induction l as [|[p d] l IH]; intros prev; [done|]. cbn. apply IH. Qed.

Section Rounds.
Context {W : Type} `{!TreeHandler W} `{!TreeHandlerLaws W}.
Local Abbreviation T := (hubbub_treebuilder W).
Local Abbreviation M := (comp (hubbub_treebuilder W)).
Context (malloc : nat -> gmap Z formatting_list_entry -> option Z) (Hmalloc : malloc_fresh malloc).

(** ** Results *)

(** A function that ends in [P], or fails. *)
Definition result (P : T -> Prop) (e : hubbub_error) (t : T) : Prop :=
  match e with HUBBUB_OK => P t | _ => fails e t end.

Lemma fails_result P e t : fails e t -> result P e t.
Proof. intros H. destruct e; try done. by destruct H. Qed.

Lemma wp_check_call (P : T -> Prop) (m : M hubbub_error) (Q : unit -> T -> Prop) (E : hubbub_error -> T -> Prop) t :
  wp m (result P) (result P) t -> (forall t', P t' -> Q tt t') -> (forall e t', fails e t' -> E e t') ->
  wp (check_call m) Q E t.
Proof.
  intros Hm HQ HE. apply wp_bind, wp_call. eapply wp_mono; [exact Hm|..];
    intros e t' H; (apply wp_check; [intros ->; by apply HQ|intros Hne; apply HE; by destruct e]).
Qed.

Lemma wp_clone_entry R X a c b x q e y t (Q E : hubbub_error -> T -> Prop) :
  ok R X (a ++ c :: b) (x ++ (q, e) :: y) t -> it_index e = zlen b -> b <> [] ->
  (forall n t', n ∉ X ->
     ok R (n :: X) (a ++ set_ec_node (Some n) c :: b) (x ++ (q, with_node n e) :: y) t' -> Q HUBBUB_OK t') ->
  (forall e' t', fails e' t' -> E e' t') ->
  wp (aa_clone_and_replace_entries q) Q E t.
Proof.
  intros Hok He Hb HQ HE. pose proof Hok as [Hst Hi]. unfold aa_clone_and_replace_entries.
  eapply wp_bind, (wp_entry_get Hst); [done|]. cbn [entry_of fe_node].
  eapply wp_bind, (wp_new_element Hst).
  { intros w e' n w'. apply th_clone_node_law. }
  2: { intros e' n t' Hne Hce Hst'. apply wp_bind, wp_check; [done|]. intros _.
       eapply HE, st_fails; [done|apply Hi|done..]. }
  clear t Hok Hst. intros n t Hn Hst. apply wp_bind, wp_check; [intros _|done].
  cbn [entry_of fe_ns fe_type fe_stack_index].
  eapply wp_bind, (wp_list_replace _ _ _ _ _ _ _ _ _ _ _ _ _ _ Hst). clear t Hst. intros t Hst.
  cbn [entry_of fe_node]. eapply wp_bind, (wp_unref_node Hst). clear t Hst. intros t Hst.
  eapply wp_bind, (wp_ref_node Hst). clear t Hst. intros t Hst.
  eapply wp_bind, (wp_entry_get Hst); [done|]. cbn [entry_of fe_stack_index new_item it_index]. rewrite He.
  eapply wp_bind, (wp_upd_cell _ _ _ _ _ _ _ _ _ _ Hst). clear t Hst. intros t Hst.
  eapply wp_bind, (wp_unref_node Hst). clear t Hst. intros t Hst.
  apply wp_ret, (HQ n); [done|]. split.
  - exact Hst.
  - apply (inv_clone X a c (set_ec_node (Some n) c) b x q e y); try done.
    apply open_set_node. eapply cells_open; [apply Hi|done].
Qed.

Lemma wp_reparent node p R X s l t (Q : hubbub_error * Z -> T -> Prop) E :
  st R X s l t ->
  (forall e n t', yields X node e n -> st R X s l t' -> Q (e, n) t') ->
  wp (aa_reparent_node node p) Q E t.
Proof.
  intros Hst HQ. eapply wp_bind, wp_call, (wp_remove_node _ _ _ _ _ _ _ _ Hst).
  - intros t' Hst'. by eapply (wp_append_child _ _ _ _ _ _ _ _ _ Hst').
  - intros e t' He Hce Hst'. destruct e; try done; (apply wp_ret, HQ; [by split|done]).
Qed.

(** The node that was reparented is the same. *)
Lemma wp_same_node R X a c b l t (Q : unit -> T -> Prop) E :
  st R X (a ++ c :: b) l t -> ec_node c = Some (nd c) ->
  (forall t', st R X (a ++ c :: b) l t' -> Q tt t') ->
  wp (replace_reparented (zlen b) (nd c)) Q E t.
Proof.
  intros Hst Hn HQ. eapply wp_bind, (wp_stack_node Hst); [apply at_index_mid|done|].
  eapply wp_bind, (wp_unref_node Hst). intros t' Hst'. rewrite Z.eqb_refl. by apply wp_ret, HQ.
Qed.

(** ** Taking cells out *)

(** The cells above [c] and up to [w] move down, and [w] stays as well. *)
Lemma wp_remove_item R X y w z c b l t (Q : unit -> T -> Prop) E :
  ok R X (y ++ w :: z ++ c :: b) l t ->
  (forall t', st R X (y ++ w :: w :: z ++ b) (lowered (zlen b) (zlen (z ++ c :: b)) l) t' -> Q tt t') ->
  wp (aa_remove_element_stack_item (zlen b) (zlen (z ++ c :: b))) Q E t.
Proof.
  intros [Hst Hi] HQ. pose proof (zlen_nonneg b). pose proof (zlen_nonneg z). pose proof (zlen_nonneg y).
  assert (Hz : zlen (z ++ c :: b) = zlen z + 1 + zlen b) by (rewrite zlen_app, zlen_cons; lia).
  assert (Hs : zlen (y ++ w :: z ++ c :: b) = zlen y + 2 + zlen z + zlen b)
    by (rewrite zlen_app, zlen_cons; lia).
  apply wp_bind, wp_assert; [apply Z.ltb_lt; lia|].
  eapply wp_bind, (wp_top_index Hst). apply wp_bind, wp_assert; [apply Z.leb_le; lia|].
  eapply wp_bind, (wp_lower _ _ _ _ _ _ _ _ _ Hst);
    [by eapply inv_owned|by eapply cells_typed, Hi|lia|lia|].
  clear t Hst. intros t Hst.
  replace (y ++ w :: z ++ c :: b) with ((y ++ w :: z) ++ c :: b) in Hst, Hi by (by rewrite <-(assoc_L (++))).
  eapply wp_bind, (wp_stack_node Hst); [apply at_index_mid|eapply cells_in, Hi|].
  eapply wp_bind, (wp_unref_node Hst). clear t Hst. intros t Hst.
  rewrite <-(assoc_L (++)) in Hst. cbn [app] in Hst. by eapply (wp_shuffle _ _ _ _ _ _ _ _ _ _ _ Hst).
Qed.

(** A cell that is taken out altogether. *)
Lemma wp_take_out {A} R X a c b l t (k : M A) (Q : A -> T -> Prop) E :
  ok R X (a ++ c :: b) l t -> a <> [] -> b <> [] -> (forall d, d ∈ l.*2 -> it_index d <> zlen b) ->
  (forall t', ok R X (a ++ b) (lowered (zlen b) (zlen (a ++ b)) l) t' -> wp k Q E t') ->
  wp (let! cur := top_index in
      do! aa_remove_element_stack_item (zlen b) cur in
      do! upd_ctx (set_tc_current_node (u32 (cur - 1))) in k) Q E t.
Proof.
  intros Hok Ha Hb Hf HQ. destruct a as [|w z]; [done|]. pose proof Hok as [Hst Hi].
  eapply wp_bind, (wp_top_index Hst).
  replace (zlen ((w :: z) ++ c :: b) - 1) with (zlen (z ++ c :: b)) by (cbn; rewrite zlen_cons; lia).
  eapply wp_bind, (wp_remove_item R X [] w z c b l); [done|]. clear t Hok Hst. intros t Hst. cbn [app] in Hst.
  replace (zlen (z ++ c :: b)) with (zlen ((w :: z) ++ b)) in Hst |- *
    by (cbn; rewrite !zlen_cons, !zlen_app, zlen_cons; lia).
  pose proof (st_bound Hst) as Hmax. rewrite zlen_cons in Hmax.
  change ((w :: z) ++ b) with (w :: z ++ b) in *. pose proof (zlen_positive (w :: z ++ b) ltac:(done)).
  rewrite u32_small by lia. eapply wp_bind, (wp_drop_top _ _ _ _ _ _ _ _ Hst); [done|].
  intros t' Hst'. apply HQ. split; [done|by apply (inv_remove_cell X (w :: z) c b)].
Qed.

(** ** Step 6 *)

(** What is done for an entry: its element is cloned, and the last node goes
    to the clone. *)
Lemma wp_misnested_step {A} R X a w c b x q e y t (k : M A) (Q : A -> T -> Prop) E :
  ok R X (a ++ w :: c :: b) (x ++ (q, e) :: y) t -> it_index e = zlen b -> b <> [] ->
  (forall e' t', fails e' t' -> E e' t') ->
  (forall n t', n ∉ X ->
     ok R (n :: X) (a ++ w :: set_ec_node (Some n) c :: b) (x ++ (q, with_node n e) :: y) t' ->
     wp k Q E t') ->
  wp (do! check_call (aa_clone_and_replace_entries q) in
      let! last_node := stack_node (zlen (c :: b)) in
      let! node_node := stack_node (zlen b) in
      let! (err, reparented) := aa_reparent_node last_node node_node in
      do! check err in
      do! replace_reparented (zlen (c :: b)) reparented in k) Q E t.
Proof.
  intros Hok He Hb HE HQ.
  replace (a ++ w :: c :: b) with ((a ++ [w]) ++ c :: b) in Hok by (by rewrite <-(assoc_L (++))).
  apply wp_bind. eapply (wp_check_call (fun t' => exists n, (n ∉ X) /\
    ok R (n :: X) (a ++ w :: set_ec_node (Some n) c :: b) (x ++ (q, with_node n e) :: y) t')); [|clear t Hok|done].
  { eapply (wp_clone_entry _ _ _ _ _ _ _ _ _ _ _ _ Hok He Hb).
    - intros n t' Hn Hok'. rewrite <-(assoc_L (++)) in Hok'. cbn. eauto.
    - intros e' t'. apply fails_result. }
  intros t (n & Hn & Hok). pose proof Hok as [Hst Hi].
  replace (zlen (c :: b)) with (zlen (set_ec_node (Some n) c :: b)) by (by rewrite !zlen_cons).
  destruct (cells_in _ _ _ (iv_cells _ _ _ Hi)) as [_ Hw].
  eapply wp_bind, (wp_stack_node Hst); [apply at_index_mid|exact Hw|].
  eapply wp_bind, (wp_stack_node Hst (zlen b) (set_ec_node (Some n) c) n); [|done|].
  { replace (a ++ w :: set_ec_node (Some n) c :: b) with ((a ++ [w]) ++ set_ec_node (Some n) c :: b)
      by (by rewrite <-(assoc_L (++))). apply at_index_mid. }
  eapply wp_bind, (wp_reparent _ _ _ _ _ _ _ _ _ Hst). clear t Hok Hst. intros e' n' t [Hce Hn'] Hst.
  apply wp_bind, wp_check; [intros ->|intros; eapply HE, st_fails; [done|apply Hi|done..]].
  rewrite Hn'; [|done|].
  2: { pose proof (iv_stack_known _ _ _ Hi) as Hk. rewrite Forall_forall in Hk. apply Hk.
       apply elem_of_app; right; by left. }
  eapply wp_bind, (wp_same_node _ _ _ _ _ _ _ _ _ Hst); [done|]. intros t' Hst'. apply (HQ n); [done|]. by split.
Qed.

Lemma app_mid_cases {A} (a b x r : list A) u v :
  a ++ u :: b = x ++ v :: r ->
  u ∈ x \/ u = v \/ exists k, r = k ++ u :: b /\ a = x ++ v :: k.
Proof.
  intros (k & [[-> H]|[-> H]])%List.app_eq_app.
  - destruct k as [|v' k]; injection H as <- H; [by right; left|].
    right; right. by exists k.
  - destruct k as [|u' k]; injection H as <- H; [by right; left|].
    left. apply elem_of_app; right; by left.
Qed.

(** Where an item is that is open above that of [p]. *)
Lemma inv_item_above X s x p d y a q e b :
  inv X s (x ++ (p, d) :: y) -> x ++ (p, d) :: y = a ++ (q, e) :: b -> it_index d <> 0 ->
  it_index d < it_index e -> exists k, y = k ++ (q, e) :: b /\ a = x ++ (p, d) :: k.
Proof.
  intros Hi E Hd He. symmetry in E. apply app_mid_cases in E as [Hx|[E|?]]; [|injection E as -> ->; lia|done].
  destruct (inv_mark_order _ _ _ _ _ _ Hi Hd) as [Hlt _].
  assert (it_index e ∈ marks x) as Hm; [|specialize (Hlt _ Hm); lia].
  apply marks_In. split; [pose proof (inv_marks _ _ _ (it_index e) Hi) as Hp|].
  - intros E. assert (it_index d ∈ marks (x ++ (p, d) :: y)) as Hm.
    { apply marks_In. split; [done|]. exists d. split; [|done]. rewrite fmap_app, elem_of_app. right; by left. }
    pose proof (inv_marks _ _ _ _ Hi Hm). lia.
  - exists e. split; [|done]. by apply (list_elem_of_fmap_2 snd) in Hx.
Qed.

(** Where the new item goes: the items that come before it are of elements
    under the block at [fb], and those after it of elements that are not. *)
Definition bookmarked (fb : Z) (b1 b2 : list (Z * item)) : Prop :=
  (forall j, j ∈ marks b1 -> j < fb) /\ (forall j, j ∈ marks b2 -> fb <= j).

Lemma bookmarked_lowered i m fb b1 b2 :
  bookmarked fb b1 b2 -> i < fb -> (forall j, j ∈ marks (b1 ++ b2) -> j <> i /\ j <= m) -> 0 < i ->
  bookmarked (fb - 1) (lowered i m b1) (lowered i m b2).
Proof.
  intros [H1 H2] Hi Hj Hpos.
  assert (Hlow : forall l j, (forall j, j ∈ marks l -> j <> i /\ j <= m) -> j ∈ marks (lowered i m l) ->
    exists k, k ∈ marks l /\ j = if i <? k then k - 1 else k).
  { intros l j Hl (Hj0 & d & Hd & <-)%marks_In. apply map_items_elem in Hd as (e & -> & He).
    exists (it_index e). unfold lower_item in *.
    assert (it_index e ∈ marks l) as Hm.
    { apply marks_In. split; [|eauto]. intros E. rewrite E in Hj0.
      destruct (Z.ltb_spec i 0); [lia|]. by cbn in Hj0. }
    split; [done|]. destruct (Hl _ Hm) as [_ ?].
    rewrite (proj2 (Z.leb_le (it_index e) m)), andb_true_r by done. by destruct (i <? it_index e). }
  rewrite marks_app in Hj. setoid_rewrite elem_of_app in Hj.
  split; intros j (k & Hk & ->)%Hlow; auto.
  - specialize (H1 k Hk). destruct (Hj k) as [? _]; [by left|]. destruct (Z.ltb_spec i k); lia.
  - specialize (H2 k Hk). destruct (Z.ltb_spec i k); lia.
Qed.

Lemma passed_lowered type i m l : Forall (passed type) l.*2 -> Forall (passed type) (lowered i m l).*2.
Proof.
  apply Forall_map_items. intros d. unfold passed. by destruct (lower_item_same i m d) as (_ & -> & _).
Qed.

Lemma marks_node x q e y n : marks (x ++ (q, with_node n e) :: y) = marks (x ++ (q, e) :: y).
Proof. by rewrite !marks_app. Qed.

Lemma kept_clone P X n c m z m' :
  (n ∉ X) -> kept P (n :: X) ((m ++ [set_ec_node (Some n) c]) ++ z) m' -> kept P X (m ++ c :: z) m'.
Proof.
  rewrite <-(assoc_L (++)). cbn [app]. intros Hn [Ht Hk]. split.
  - intros H. apply Ht. apply Forall_app in H as [? [? ?]%Forall_cons]. apply Forall_app. by split; [|constructor].
  - intros k HX Hin. assert (k ∈ n :: X) as HX' by by right. specialize (Hk k HX' Hin).
    rewrite map_app in *. cbn [map] in *. rewrite !elem_of_app, !elem_of_cons in *.
    destruct Hk as [?|[->|?]]; [by left|by destruct Hn|by right; right].
Qed.

Lemma kept_drop P X m c z m' : kept P X (m ++ z) m' -> kept P X (m ++ c :: z) m'.
Proof.
  intros [Ht Hk]. split.
  - intros H. apply Ht. apply Forall_app in H as [? [? ?]%Forall_cons]. by apply Forall_app.
  - intros n HX Hin. specialize (Hk n HX Hin). rewrite map_app in *. cbn [map].
    rewrite !elem_of_app, elem_of_cons in *. tauto.
Qed.

Context (P : element_type -> Prop) (type : element_type) (tail : list element_context) (Htail : tail <> []).
Context (F : element_context) (p : Z) (d : item) (Hd : it_index d = zlen tail).

(** The stack and the list when step 6 has gone through the cells of [m]; the
    cells of [z] are left. *)
Definition midway R X y FB m z x b1 b2 (t : T) : Prop :=
  ok R X (y ++ FB :: m ++ z ++ F :: tail) (x ++ (p, d) :: b1 ++ b2) t /\
  (m = [] /\ b1 = [] \/ m <> [] /\ bookmarked (zlen (m ++ z ++ F :: tail)) b1 b2).

Lemma midway_skip R X y FB m c z x b1 b2 t A (k : M A) (Q : A -> T -> Prop) E :
  midway R X y FB m (c :: z) x b1 b2 t ->
  Forall (fun d => it_index d <> zlen (z ++ F :: tail)) (x ++ (p, d) :: b1 ++ b2).*2 ->
  (forall x' b1' b2' t', midway R X y FB m z x' b1' b2' t' ->
     (Forall (passed type) (b1 ++ b2).*2 -> Forall (passed type) (b1' ++ b2').*2) ->
     (last_ptr (x' ++ b1'), head_ptr b2') = (last_ptr (x ++ b1), head_ptr b2) -> wp k Q E t') ->
  wp (let! cur := top_index in
      do! aa_remove_element_stack_item (zlen (z ++ F :: tail)) cur in
      do! upd_ctx (set_tc_current_node (u32 (cur - 1))) in k) Q E t.
Proof.
  intros [Hok Hm] Hfree HQ. cbn [app] in Hok.
  replace (y ++ FB :: m ++ c :: z ++ F :: tail) with ((y ++ FB :: m) ++ c :: z ++ F :: tail) in Hok
    by (by rewrite <-(assoc_L (++))).
  rewrite Forall_forall in Hfree.
  eapply (wp_take_out _ _ _ _ _ _ _ _ _ _ Hok); [by destruct y|by destruct z|done|].
  intros t' Hok'. set (i := zlen (z ++ F :: tail)) in *. set (mx := zlen _) in Hok'.
  assert (Hi : zlen tail < i).
  { subst i. rewrite zlen_app, zlen_cons. pose proof (zlen_nonneg z). lia. }
  assert (Hmid : lowered i mx (x ++ (p, d) :: b1 ++ b2) =
    lowered i mx x ++ (p, d) :: lowered i mx b1 ++ lowered i mx b2).
  { unfold lowered. rewrite map_items_app. cbn [map_items]. rewrite map_items_app.
    replace (lower_item i mx d) with d; [done|]. unfold lower_item. by rewrite (proj2 (Z.ltb_ge _ _)) by lia. }
  rewrite Hmid in Hok'. apply (HQ (lowered i mx x) (lowered i mx b1) (lowered i mx b2)).
  - split; [by rewrite <-(assoc_L (++)) in Hok'|].
    destruct Hm as [[-> ->]|[Hm Hb]]; [by left|right]. split; [done|].
    replace (zlen (m ++ z ++ F :: tail)) with (zlen (m ++ (c :: z) ++ F :: tail) - 1)
      by (rewrite !zlen_app, !zlen_cons; lia).
    apply bookmarked_lowered; [done| | |].
    + subst i. rewrite !zlen_app, !zlen_cons. pose proof (zlen_nonneg m). lia.
    + intros j Hj. assert (j ∈ marks (x ++ (p, d) :: b1 ++ b2)) as Hj'.
      { rewrite marks_app. apply elem_of_app; right. cbn. destruct (it_index d =? 0); [done|by right]. }
      split; [|pose proof (inv_marks _ _ _ _ (ok_inv _ _ _ _ _ Hok) Hj') as Hr].
      * apply marks_In in Hj' as (_ & e & He & <-). auto.
      * subst mx. rewrite zlen_app, zlen_cons in Hr. rewrite zlen_app. lia.
    + pose proof (zlen_nonneg tail). lia.
  - rewrite !fmap_app, !Forall_app. intros [? ?]. split; by apply passed_lowered.
  - unfold lowered. by rewrite !last_or_app, !last_map, head_map.
Qed.

Lemma passed_node (x : list (Z * item)) q e y n :
  Forall (passed type) (x ++ (q, e) :: y).*2 -> Forall (passed type) (x ++ (q, with_node n e) :: y).*2.
Proof. by rewrite !fmap_app, !Forall_app, !fmap_cons, !Forall_cons. Qed.

(** The item of the next cell, when it has one, comes after that of the
    formatting element; it is taken into the bookmark if it is the first. *)
Lemma midway_split R X y FB m c z x b1 b2 t a q e b :
  midway R X y FB m (c :: z) x b1 b2 t -> x ++ (p, d) :: b1 ++ b2 = a ++ (q, e) :: b ->
  it_index e = zlen (z ++ F :: tail) ->
  exists k, a = x ++ (p, d) :: k /\
    (m = [] /\ b1 = [] /\ b2 = k ++ (q, e) :: b \/
     m <> [] /\ exists k', b1 = k ++ (q, e) :: k' /\ b = k' ++ b2).
Proof.
  intros [[_ Hi] Hm] Hl He. pose proof (zlen_positive tail Htail). pose proof (zlen_nonneg z).
  rewrite zlen_app, zlen_cons in He.
  destruct (inv_item_above _ _ _ _ _ _ _ _ _ _ Hi Hl) as (k & Hk & ->); [lia..|]. exists k. split; [done|].
  destruct Hm as [[-> ->]|[Hm [Hb1 Hb2]]]; [by left|right; split; [done|]].
  apply List.app_eq_app in Hk as (k' & [[-> Hk]|[-> Hk]]).
  - destruct k' as [|u k']; [|injection Hk as <- ->; by exists k'].
    exfalso. cbn [app] in Hk. subst b2. specialize (Hb2 (it_index e)).
    rewrite !zlen_app, !zlen_cons in Hb2. pose proof (zlen_nonneg m).
    enough (it_index e ∈ marks ((q, e) :: b)) as Hq by (specialize (Hb2 Hq); lia).
    apply marks_In. split; [lia|]. exists e. split; [by left|done].
  - exfalso. specialize (Hb2 (it_index e)). rewrite !zlen_app, !zlen_cons in Hb2.
    pose proof (zlen_nonneg m). enough (it_index e ∈ marks b2) as Hq by (specialize (Hb2 Hq); lia).
    rewrite Hk. apply marks_In. split; [lia|]. exists e. split; [|done].
    rewrite fmap_app, elem_of_app. right; by left.
Qed.

Lemma midway_fb R X y FB m z x b1 b2 t : midway R X y FB m z x b1 b2 t -> z = [] ->
  Forall (passed type) (b1 ++ b2).*2 -> bookmarked (zlen (m ++ F :: tail)) b1 b2.
Proof.
  intros [[_ Hi] Hm] -> Hp. destruct Hm as [[-> ->]|[_ Hb]]; [|done]. split; [by intros j ?%elem_of_nil|].
  intros j Hj. pose proof (zlen_positive tail Htail).
  destruct (inv_mark_order _ _ _ _ _ _ Hi) as [_ Ho]; [lia|]. specialize (Ho j Hj).
  cbn [app]. rewrite zlen_cons. lia.
Qed.

Lemma wp_misnested_loop fuel : forall R X y FB m z x b1 b2 t
    (Q : Z * (Z * Z) * Z -> T -> Prop) E,
  midway R X y FB m z x b1 b2 t -> (length z < fuel)%nat -> Forall (passed type) (b1 ++ b2).*2 ->
  (forall e t', fails e t' -> E e t') ->
  (forall X' m' x' b1' b2' t', X ⊆ X' -> midway R X' y FB m' [] x' b1' b2' t' ->
     kept P X (m ++ z) m' -> Forall (passed type) (b1' ++ b2').*2 ->
     Q (zlen (m' ++ F :: tail), (last_ptr (x' ++ b1'), head_ptr b2'), zlen (F :: tail)) t') ->
  wp (misnested_loop fuel (zlen tail) (zlen (z ++ F :: tail)) (zlen (z ++ F :: tail))
        (zlen (m ++ z ++ F :: tail)) (last_ptr (x ++ b1), head_ptr b2)) Q E t.
Proof.
  induction fuel as [|fuel IH]; intros R X y FB m z x b1 b2 t Q E Hmid Hf Hp HE HQ; [lia|].
  cbn [misnested_loop]. pose proof Hmid as [Hok Hm]. pose proof Hok as [Hst Hi].
  pose proof (st_bound Hst) as Hmax. pose proof (zlen_positive tail Htail).
  assert (Hlen : zlen tail < zlen (z ++ F :: tail) < 2 ^ 31).
  { rewrite !zlen_app, zlen_cons, !zlen_app, zlen_cons in Hmax. rewrite zlen_app, zlen_cons.
    pose proof (zlen_nonneg z). pose proof (zlen_nonneg y). pose proof (zlen_nonneg m). lia. }
  rewrite u32_small by lia. destruct z as [|c z].
  - (* iii *)
    cbn [app] in *. rewrite zlen_cons. replace (1 + zlen tail - 1) with (zlen tail) by lia.
    eapply wp_bind, (wp_find_index _ _ _ _ _ _ _ _ Hst).
    { intros Hn. exfalso. rewrite Forall_forall in Hn. apply (Hn d); [|done].
      rewrite fmap_app, elem_of_app. right; by left. }
    intros a q e b _ _ Hq. rewrite (proj2 (Z.eqb_neq q NULL)), Z.eqb_refl by done.
    apply wp_ret. rewrite <-zlen_cons with (x := F). eapply HQ; [done|done| |done].
    rewrite app_nil_r. apply kept_refl.
  - cbn [length] in Hf.
    replace (zlen ((c :: z) ++ F :: tail) - 1) with (zlen (z ++ F :: tail)) in *
      by (cbn [app]; rewrite zlen_cons; lia).
    eapply wp_bind, (wp_find_index _ _ _ _ _ _ _ _ Hst).
    + (* ii *)
      clear Hok Hst Hi. intros Hfree. rewrite Z.eqb_refl. eapply (midway_skip _ _ _ _ _ _ _ _ _ _ _ _ _ _ _ Hmid Hfree).
      clear t Hmid Hm Hfree. intros x' b1' b2' t Hmid Hp' <-. pose proof (ok_st _ _ _ _ _ (proj1 Hmid)) as Hst.
      assert (Hfb : zlen (m ++ (c :: z) ++ F :: tail) = zlen (m ++ z ++ F :: tail) + 1)
        by (rewrite !zlen_app, !zlen_cons; lia).
      pose proof (zlen_nonneg y). pose proof (zlen_nonneg (m ++ z ++ F :: tail)).
      assert (zlen (m ++ z ++ F :: tail) < 2 ^ 31).
      { rewrite zlen_app, zlen_cons, Hfb in Hmax. lia. }
      rewrite Hfb, Z.add_simpl_r, u32_small by lia.
      eapply IH; [done|lia|by apply Hp'|done|].
      intros X' m' x'' b1'' b2'' t' HX Hmid' Hk Hp''. eapply HQ; [done|done|by apply kept_drop|done].
    + (* iv to vii *)
      intros a q e b Hl He Hq. rewrite (proj2 (Z.eqb_neq q NULL)) by done.
      rewrite (proj2 (Z.eqb_neq (zlen (z ++ F :: tail)) (zlen tail)))
        by (rewrite zlen_app, zlen_cons; pose proof (zlen_nonneg z); lia).
      pose proof Hl as Hl'. rewrite Hl in Hst. eapply wp_bind, (wp_entry_get Hst); [done|]. clear Hst.
      cbn [entry_of fe_next]. rewrite Hl in Hi, Hok.
      destruct (midway_split _ _ _ _ _ _ _ _ _ _ _ _ _ _ _ Hmid Hl' He) as (k & -> & Hcase).
      destruct (inv_mark_order _ _ _ _ _ _ Hi) as [Ho1 Ho2].
      { rewrite He, zlen_app, zlen_cons. pose proof (zlen_nonneg z). lia. }
      assert (Hne : y ++ FB :: m <> []) by (by destruct y).
      destruct (exists_last Hne) as (aa & w & Haw).
      assert (Hshift : forall c, aa ++ w :: c :: z ++ F :: tail = y ++ FB :: (m ++ [c]) ++ z ++ F :: tail).
      { intros c'. transitivity ((aa ++ [w]) ++ c' :: z ++ F :: tail); [by rewrite <-(assoc_L (++))|].
        rewrite <-Haw. by rewrite <-!(assoc_L (++)). }
      replace (y ++ FB :: m ++ (c :: z) ++ F :: tail) with (aa ++ w :: c :: z ++ F :: tail) in Hok
        by (by rewrite Hshift, <-!(assoc_L (++))).
      eapply (wp_misnested_step _ _ _ _ _ _ _ _ _ _ _ _ _ _ Hok He); [by destruct z|done|].
      assert (Hbk : m <> [] -> bookmarked (zlen (m ++ (c :: z) ++ F :: tail)) b1 b2) by (by destruct Hm as [[-> _]|[_ ?]]).
      clear t Hmid Hm Hok Hi. intros n t Hn Hok. rewrite Hshift in Hok.
      set (c' := set_ec_node (Some n) c) in *. set (e' := with_node n e) in *.
      replace ((x ++ (p, d) :: k) ++ (q, e') :: b) with (x ++ (p, d) :: k ++ (q, e') :: b) in Hok
        by (by rewrite <-(assoc_L (++))).
      assert (Hfb : zlen (m ++ (c :: z) ++ F :: tail) = zlen ((m ++ [c']) ++ z ++ F :: tail))
        by (rewrite !zlen_app, !zlen_cons, zlen_nil; lia).
      assert (Hm' : m ++ [c'] <> []) by (by destruct m).
      assert (Hkey : forall b1' b2', b1' ++ b2' = k ++ (q, e') :: b ->
        bookmarked (zlen ((m ++ [c']) ++ z ++ F :: tail)) b1' b2' -> Forall (passed type) (b1' ++ b2').*2 ->
        wp (misnested_loop fuel (zlen tail) (zlen (z ++ F :: tail)) (zlen (z ++ F :: tail))
              (zlen ((m ++ [c']) ++ z ++ F :: tail)) (last_ptr (x ++ b1'), head_ptr b2')) Q E t).
      { intros b1' b2' Hb Hbk' Hp'. apply (IH R (n :: X) y FB); [|lia|done|done|].
        - split; [by rewrite Hb|by right].
        - intros X' m' x' b1'' b2'' t' HX Hmid' Hk Hp''. eapply HQ; [|done|by eapply kept_clone|done].
          intros j Hj. apply HX. by right. }
      destruct Hcase as [(Em & Eb1 & Eb2)|(Hm & k' & Eb1 & Eb)].
      * subst m b1 b2. rewrite Z.eqb_refl, Hfb.
        replace (q, head_ptr b) with (last_ptr (x ++ k ++ [(q, e')]), head_ptr b)
          by (by rewrite !last_or_app).
        apply Hkey; [by rewrite <-(assoc_L (++))| |].
        -- cbn [app]. rewrite zlen_cons. split.
           ++ intros j. rewrite marks_app, elem_of_app. intros [Hj|Hj].
              ** enough (j < it_index e) by lia. apply Ho1. rewrite marks_app. cbn [marks].
                 apply elem_of_app; right. destruct (it_index d =? 0); [done|by right].
              ** apply marks_In in Hj as (_ & d0 & Hd0 & <-). apply list_elem_of_singleton in Hd0 as ->.
                 change (it_index e < 1 + zlen (z ++ F :: tail)). lia.
           ++ intros j Hj. specialize (Ho2 j Hj). lia.
        -- rewrite <-(assoc_L (++)). by apply passed_node.
      * rewrite (proj2 (Z.eqb_neq (zlen ((c :: z) ++ F :: tail)) _)).
        2: { rewrite (zlen_app m). pose proof (zlen_positive m Hm). lia. }
        subst b1 b. rewrite Hfb.
        replace (last_ptr (x ++ k ++ (q, e) :: k')) with (last_ptr (x ++ k ++ (q, e') :: k'))
          by (by rewrite !last_or_app).
        apply Hkey; [by rewrite <-(assoc_L (++))| |].
        -- rewrite <-Hfb. destruct (Hbk Hm) as [Hb1 Hb2]. split; [unfold e'; by rewrite marks_node|done].
        -- rewrite <-(assoc_L (++)) in *. by apply passed_node.
Qed.
End Rounds.

Section Steps.
Context {W : Type} `{!TreeHandler W} `{!TreeHandlerLaws W}.
Local Abbreviation T := (hubbub_treebuilder W).
Local Abbreviation M := (comp (hubbub_treebuilder W)).
Context (malloc : nat -> gmap Z formatting_list_entry -> option Z) (Hmalloc : malloc_fresh malloc).

(** ** Step 7 *)

Lemma alike_mid a c b s' :
  alike (a ++ c :: b) s' -> exists a' c' b', s' = a' ++ c' :: b' /\ alike a a' /\ alike_cell c c' /\ alike b b'.
Proof.
  intros (a' & s2 & Ha & H2 & ->)%Forall2_app_inv_l.
  apply Forall2_cons_inv_l in H2 as (c' & b' & Hc & Hb & ->). by exists a', c', b'.
Qed.

Lemma wp_step7 R X a w F tail l t (Q : unit -> T -> Prop) E :
  ok R X (a ++ w :: F :: tail) l t -> tail <> [] -> (forall e t', fails e t' -> E e t') ->
  (forall s' t', alike (a ++ w :: F :: tail) s' -> ok R X s' l t' -> Q tt t') ->
  wp (adoption_reparent (u32 (zlen tail - 1)) (zlen (F :: tail))) Q E t.
Proof.
  intros [Hst Hi] Htail HE HQ. pose proof (iv_cells _ _ _ Hi) as Hc.
  destruct tail as [|c0 tail]; [done|]. pose proof (st_bound Hst) as Hmax.
  pose proof (zlen_nonneg tail). pose proof (zlen_nonneg a).
  rewrite !zlen_app, !zlen_cons in Hmax.
  replace (zlen (c0 :: tail) - 1) with (zlen tail) by (rewrite zlen_cons; lia).
  rewrite u32_small by lia.
  assert (Hat : at_index (a ++ w :: F :: c0 :: tail) (zlen tail) = Some c0).
  { replace (a ++ w :: F :: c0 :: tail) with ((a ++ [w; F]) ++ c0 :: tail) by (by rewrite <-(assoc_L (++))).
    apply at_index_mid. }
  destruct (cell_type _ c0 Hc) as [Ht0 Hn0]; [by eapply at_index_elem|].
  eapply wp_bind, (wp_stack_type Hst); [done..|].
  destruct (cells_in _ _ _ Hc) as [_ Hw].
  eapply wp_bind, (wp_stack_node Hst); [apply at_index_mid|exact Hw|].
  assert (Hgo : forall s' e n t', alike (a ++ w :: F :: c0 :: tail) s' -> yields X (nd w) e n ->
    st R X s' l t' ->
    wp (do! check e in replace_reparented (zlen (F :: c0 :: tail)) n) Q E t').
  { intros s' e n t' Ha [Hce Hn] Hst'. pose proof (alike_cells _ _ Ha Hc) as Hc'.
    apply wp_bind, wp_check; [intros ->|intros; eapply HE; by eapply st_fails].
    rewrite Hn; [|done|].
    2: { pose proof (iv_stack_known _ _ _ Hi) as Hk. rewrite Forall_forall in Hk. apply Hk.
         apply elem_of_app; right; by left. }
    pose proof (inv_alike _ _ _ _ Ha Hi) as Hi'.
    destruct (alike_mid _ _ _ _ Ha) as (a' & w' & b' & -> & _ & (_ & _ & Enode & _) & Hb').
    replace (nd w) with (nd w') by (unfold nd; by rewrite Enode). rewrite <-(alike_zlen _ _ Hb').
    destruct (cells_in _ _ _ Hc') as [_ Hw'].
    eapply (wp_same_node _ _ _ _ _ _ _ _ _ Hst' Hw'). intros t'' Hst''. eapply HQ; [exact Ha|by split]. }
  apply wp_bind. destruct (fosters (ty c0)).
  - eapply (wp_foster _ _ _ _ _ _ _ _ Hst Hc). intros s' e n t' Ha Hy Hst'. by eapply Hgo.
  - eapply wp_bind, (wp_stack_node Hst); [done..|].
    eapply (wp_reparent _ _ _ _ _ _ _ _ _ Hst). intros e n t' Hy Hst'. eapply Hgo; [apply alike_refl|done..].
Qed.

(** ** Steps 8 to 12 *)

Lemma marks_lowered i m l j :
  0 <= i -> j ∈ marks (lowered i m l) ->
  exists k, k ∈ marks l /\ j = if (i <? k) && (k <=? m) then k - 1 else k.
Proof.
  intros Hi (Hj0 & d & Hd & <-)%marks_In. apply map_items_elem in Hd as (e & -> & He).
  exists (it_index e). unfold lower_item in *.
  destruct ((i <? it_index e) && (it_index e <=? m)) eqn:Hb; (split; [|done]); apply marks_In;
    (split; [|by exists e]).
  - apply andb_prop in Hb as [Hb%Z.ltb_lt _]. lia.
  - done.
Qed.

Lemma raised_lowered i f m l :
  0 <= i < f -> (forall d, d ∈ l.*2 -> it_index d <= m) -> f <= m ->
  raised f (lowered i m l) = lowered i f l.
Proof.
  intros Hi Hl Hf. unfold raised, lowered. rewrite map_items_compose. apply map_items_ext. intros d Hd.
  specialize (Hl d Hd). unfold raise_item, lower_item.
  rewrite (proj2 (Z.leb_le (it_index d) m)), andb_true_r by done.
  destruct (Z.ltb_spec i (it_index d)); cbn [andb it_index with_index].
  - destruct (Z.leb_spec (it_index d) f).
    + by rewrite (proj2 (Z.leb_gt _ _)) by lia.
    + rewrite (proj2 (Z.leb_le _ _)) by lia. unfold with_index. cbn. rewrite Z.sub_add. by destruct d.
  - by rewrite (proj2 (Z.leb_gt _ _)) by lia.
Qed.

(** The invariant when the clone [c'] has taken the place of [F], above the
    furthest block, and its item that of the item of [F]. *)
Lemma inv_replace X y FB m F tail x p d b1 b2 c' q :
  inv X (y ++ FB :: m ++ F :: tail) (x ++ (p, d) :: b1 ++ b2) -> tail <> [] -> it_index d = zlen tail ->
  bookmarked (zlen (m ++ F :: tail)) b1 b2 ->
  (forall e, e ∈ b2.*2 -> it_index e <> zlen (m ++ F :: tail)) ->
  open_cell c' -> ty c' = it_type d -> (nd c' ∉ X) ->
  let low := lowered (zlen tail) (zlen (m ++ F :: tail)) in
  inv (nd c' :: X) (y ++ c' :: FB :: m ++ tail)
    (low x ++ low b1 ++ (q, new_item (it_ns d) (it_type d) (nd c') (zlen (m ++ F :: tail))) :: low b2).
Proof.
  intros Hi Ht Hd [Hb1 Hb2] Hfree Hc' Hty Hn low. pose proof (zlen_positive tail Ht).
  pose proof (zlen_nonneg m). pose proof (zlen_nonneg y).
  assert (Hfb : zlen (FB :: m ++ tail) = zlen (m ++ F :: tail)) by (rewrite zlen_cons, !zlen_app, zlen_cons; lia).
  assert (Hlt : zlen tail < zlen (m ++ F :: tail)) by (rewrite zlen_app, zlen_cons; lia).
  destruct (inv_split _ _ _ _ _ _ Hi) as (a0 & c0 & b0 & E & Hd' & _ & _ & Htc & Hl & _); [lia|].
  assert (Hmid : y ++ FB :: m ++ F :: tail = (y ++ FB :: m) ++ F :: tail) by (by rewrite <-(assoc_L (++))).
  assert (listed (ty F) = true /\ ty F = it_type d) as [HlF HtF].
  { rewrite Hmid in E. apply app_inj_2 in E as [_ E]; [by injection E as -> _|].
    cbn. f_equal. rewrite Hd in Hd'. unfold zlen in Hd'. lia. }
  assert (active_type (it_type d) = true /\ it_ns d = HUBBUB_NS_HTML) as [Hact Hns].
  { pose proof (iv_types _ _ _ Hi) as Ha. rewrite Forall_forall in Ha. apply Ha.
    rewrite fmap_app, elem_of_app. right; by left. }
  destruct (inv_mark_order _ _ _ _ _ _ Hi) as [Hx _]; [lia|].
  pose proof (inv_list_remove _ _ _ _ _ _ Hi) as Hinv. rewrite Hmid in Hinv.
  apply inv_remove_cell in Hinv; [|done|].
  2: { intros e He. rewrite <-Hd. eapply inv_index_unique; [exact Hi|lia|exact He]. }
  assert (Hmarks : forall e, e ∈ (x ++ b1 ++ b2).*2 -> it_index e <= zlen ((y ++ FB :: m) ++ tail)).
  { intros e He. destruct (Z.eq_dec (it_index e) 0) as [E0|N0]; [pose proof (zlen_nonneg ((y ++ FB :: m) ++ tail)); lia|].
    assert (it_index e ∈ marks (x ++ b1 ++ b2)) as Hm by (apply marks_In; eauto).
    pose proof (inv_marks _ _ _ _ (inv_list_remove _ _ _ _ _ _ Hi) Hm) as Hr.
    rewrite Hmid, zlen_app, zlen_cons in Hr. rewrite zlen_app. lia. }
  rewrite <-(assoc_L (++)) in Hinv. cbn [app] in Hinv.
  apply (inv_insert_cell _ _ c') in Hinv; [|done..].
  rewrite Hfb, raised_lowered in Hinv; [|lia| |].
  2: { intros e He. specialize (Hmarks e He). by rewrite <-(assoc_L (++)) in Hmarks. }
  2: { rewrite (zlen_app y), Hfb. lia. }
  fold low in Hinv. rewrite (assoc_L (++)).
  replace (low (x ++ b1 ++ b2)) with ((low x ++ low b1) ++ low b2) in Hinv
    by (subst low; unfold lowered; by rewrite !map_items_app, (assoc_L (++))).
  assert (Hp0 : 0 <= zlen tail) by lia.
  apply inv_list_add; try done.
  - rewrite <-Hfb. apply at_index_mid.
  - lia.
  - by rewrite Hty, <-HtF.
  - intros j. rewrite marks_app, elem_of_app. intros [Hj|Hj];
      apply marks_lowered in Hj as (k & Hk & ->); try done.
    + specialize (Hx k Hk). destruct (_ && _); lia.
    + specialize (Hb1 k Hk). destruct (_ && _); lia.
  - intros j Hj. apply marks_lowered in Hj as (k & Hk & ->); [|done].
    pose proof (Hb2 k Hk). apply marks_In in Hk as (_ & e & He & <-). specialize (Hfree e He).
    destruct (Z.leb_spec (it_index e) (zlen (m ++ F :: tail))); [lia|]. rewrite andb_false_r. lia.
Qed.

Lemma wp_or_unref n err (Q : unit -> T -> Prop) E R X s l t :
  st R X s l t -> cells s -> client_error err -> (forall e t', fails e t' -> E e t') ->
  (err = HUBBUB_OK -> Q tt t) ->
  wp (match err with HUBBUB_OK => ret tt | _ => do! unref_node n in return_early err end) Q E t.
Proof.
  intros Hst Hc Hce HE HQ. destruct err; try (apply wp_ret; by apply HQ);
    (eapply wp_bind, (wp_unref_node Hst); intros t' Hst'; by eapply wp_return_early, HE, st_fails).
Qed.

Lemma wp_steps8 R X y FB m F tail x p d b1 b2 t (Q : unit -> T -> Prop) E :
  ok R X (y ++ FB :: m ++ F :: tail) (x ++ (p, d) :: b1 ++ b2) t -> tail <> [] -> it_index d = zlen tail ->
  bookmarked (zlen (m ++ F :: tail)) b1 b2 ->
  (forall e, e ∈ b2.*2 -> it_index e <> zlen (m ++ F :: tail)) ->
  (forall e t', fails e t' -> E e t') ->
  (forall n c' q t', (n ∉ X) -> nd c' = n -> ty c' = it_type d ->
     let low := lowered (zlen tail) (zlen (m ++ F :: tail)) in
     ok R (n :: X) (y ++ c' :: FB :: m ++ tail)
       (low x ++ low b1 ++ (q, new_item (it_ns d) (it_type d) n (zlen (m ++ F :: tail))) :: low b2) t' ->
     Q tt t') ->
  wp (adoption_clone malloc p (zlen tail) (zlen (m ++ F :: tail)) (last_ptr (x ++ b1), head_ptr b2)) Q E t.
Proof.
  intros Hok Ht Hd Hb Hfree HE HQ. pose proof Hok as [Hst Hi].
  pose proof (iv_cells _ _ _ Hi) as Hc. pose proof (st_bound Hst) as Hmax.
  pose proof (zlen_nonneg m). pose proof (zlen_nonneg y). pose proof (zlen_positive tail Ht).
  rewrite zlen_app, zlen_cons in Hmax.
  eapply wp_bind, (wp_entry_get Hst); [done|]. cbn [entry_of fe_node].
  eapply wp_bind, (wp_new_element Hst).
  { intros w e n w'. apply th_clone_node_law. }
  2: { intros e n t' He Hce Hst'. apply wp_bind, wp_check; [done|]. intros _. by eapply HE, st_fails. }
  clear t Hok Hst. intros n t Hn Hst. apply wp_bind, wp_check; [intros _|done]. cbn [entry_of fe_type].
  destruct (cells_in _ _ _ Hc) as [_ Hnode].
  eapply wp_bind, (wp_stack_node Hst); [apply at_index_mid|exact Hnode|].
  eapply wp_bind, (wp_handler_error Hst).
  { intros e w' [? ?]%th_reparent_children_law. done. }
  clear t Hst. intros e t Hce Hst. eapply wp_bind, (wp_or_unref _ _ _ _ _ _ _ _ _ Hst Hc Hce HE).
  intros ->. clear Hce. eapply wp_bind, (wp_append_child _ _ _ _ _ _ _ _ _ Hst).
  clear t Hst. intros e n' t [Hce Hn'] Hst. eapply wp_bind, (wp_or_unref _ _ _ _ _ _ _ _ _ Hst Hc Hce HE).
  intros ->. rewrite (Hn' eq_refl) by by left. clear n' Hn' Hce. rewrite Z.eqb_refl. apply wp_bind, wp_ret.
  assert (Hok : ok R (n :: X) (y ++ FB :: m ++ F :: tail) (x ++ (p, d) :: b1 ++ b2) t).
  { split; [done|]. eapply inv_known; [done|]. intros k Hk. by right. }
  eapply wp_bind, (wp_remove_item _ _ _ _ _ _ _ _ _ _ _ Hok). clear t Hst Hok. intros t Hst.
  assert (Hfb : zlen (FB :: m ++ tail) = zlen (m ++ F :: tail)) by (rewrite zlen_cons, !zlen_app, zlen_cons; lia).
  assert (Hlt : zlen tail < zlen (m ++ F :: tail)) by (rewrite zlen_app, zlen_cons; lia).
  rewrite u32_small by lia. rewrite Z.sub_add.
  rewrite <-Hfb at 1. eapply wp_bind, (wp_upd_cell _ _ _ _ _ _ _ _ _ _ Hst). clear t Hst. intros t Hst.
  set (c' := set_ec_node (Some n) (set_ec_type (Some (it_type d)) FB)) in *.
  set (low := lowered (zlen tail) (zlen (m ++ F :: tail))) in *.
  assert (Hlow : low (x ++ (p, d) :: b1 ++ b2) = low x ++ (p, d) :: low b1 ++ low b2).
  { subst low. unfold lowered. rewrite map_items_app. cbn [map_items]. rewrite map_items_app.
    replace (lower_item (zlen tail) (zlen (m ++ F :: tail)) d) with d; [done|].
    unfold lower_item. by rewrite Hd, Z.ltb_irrefl. }
  rewrite Hlow in Hst.
  eapply wp_bind, (wp_list_remove _ _ _ _ _ _ _ _ _ _ Hst). clear t Hst. intros t Hst.
  cbn [entry_of fe_node fe_ns fe_type]. eapply wp_bind, (wp_unref_node Hst). clear t Hst. intros t Hst.
  assert (Hopen : open_cell FB) by (eapply cells_open; [exact Hc|by destruct m]).
  assert (Hinv : forall q, inv (n :: X) (y ++ c' :: FB :: m ++ tail)
    (low x ++ low b1 ++ (q, new_item (it_ns d) (it_type d) n (zlen (m ++ F :: tail))) :: low b2)).
  { intros q. apply (inv_replace X y FB m F tail x p d b1 b2 c' q); try done.
    destruct Hopen as (? & ? & ? & ?). split_and!; cbn; eauto. }
  replace (last_ptr (x ++ b1)) with (last_ptr (low x ++ low b1)) by (subst low; unfold lowered; by rewrite !last_or_app, !last_map).
  replace (head_ptr b2) with (head_ptr (low b2)) by (subst low; unfold lowered; by rewrite head_map).
  rewrite (assoc_L (++)) in Hst.
  eapply wp_bind, wp_call, (wp_list_insert malloc Hmalloc _ _ _ _ _ _ _ _ _ _ _ _ Hst).
  - clear t Hst. intros q t _ Hst. apply wp_ret. apply (HQ n c' q t); try done.
    fold low. split; [by rewrite (assoc_L (++))|done].
  - clear t Hst. intros t Hst.
    eapply (wp_or_unref n HUBBUB_NOMEM _ _ _ _ _ _ _ Hst); [apply (Hinv 0)|done|done|done].
Qed.

(** ** A round *)

Lemma kept_alike P X a b : alike a b -> kept P X a b.
Proof.
  intros H. split.
  - induction H as [|x y a b (_ & E & _) _ IH]; [done|]. intros [Hx Ha]%Forall_cons.
    constructor; [unfold ty in *; by rewrite E|by apply IH].
  - intros n _. by rewrite (alike_nodes _ _ H).
Qed.

Lemma kept_app P X a a' b b' : kept P X a a' -> kept P X b b' -> kept P X (a ++ b) (a' ++ b').
Proof.
  intros [Ht Hn] [Ht' Hn']. split.
  - rewrite !Forall_app. intros [? ?]. auto.
  - intros n HX. rewrite !map_app, !elem_of_app. intros [?|?]; auto.
Qed.

Lemma kept_new (P : element_type -> Prop) X c : P (ty c) -> (nd c ∉ X) -> kept P X [] [c].
Proof.
  intros HP Hc. split; [by intros _; constructor|].
  intros n HX Hn. apply list_elem_of_singleton in Hn as ->. by destruct Hc.
Qed.

Lemma kept_gone P X c : kept P X [c] [].
Proof. split; [by constructor|]. intros n _ Hn. by apply elem_of_nil in Hn. Qed.

Lemma scope_above type in_table pre u :
  u <> [] -> scope type in_table u = 0 -> scope type in_table (pre ++ u) <> 0 ->
  exists a c b, pre = a ++ c :: b /\ scope type in_table (pre ++ u) = zlen (b ++ u) /\ ty c = type.
Proof.
  intros Hu H0. induction pre as [|c pre IH]; [by intros []|]. cbn [app].
  rewrite scope_cons by (by destruct pre). destruct (type_eqb_spec (ty c) type) as [E|N].
  - intros _. by exists [], c, pre.
  - destruct (open_scope in_table (ty c)); [|done]. intros H.
    destruct (IH H) as (a & c0 & b & -> & ? & ?). by exists (c :: a), c0, b.
Qed.

Context (P : element_type -> Prop) (type : element_type) (HP : P type).

(** The stack and the list after something was done: the cells of [u] are as
    they were, those of [pre] are kept or popped, and the element of the last
    item of [type] is not open any more. *)
Definition adopted R X pre u l (t : T) : Prop :=
  exists X' pre' u' l', X ⊆ X' /\ alike u u' /\ kept P X pre pre' /\ ok R X' (pre' ++ u') l' t /\
    forall d, find_item type l None = Some d -> it_node d ∉ map nd (pre' ++ u').

(** The last item of [type] is gone after a round that has gone through: its
    element was taken off the stack. *)
Lemma wp_steps5 R X y FB m F tail x p d b t (Q : unit -> T -> Prop) E :
  ok R X (y ++ FB :: m ++ F :: tail) (x ++ (p, d) :: b) t -> tail <> [] -> it_index d = zlen tail ->
  is_block (ty FB) = true -> Forall (passed type) b.*2 ->
  is_scoping_element (it_type d) = false -> it_type d = type -> (forall e t', fails e t' -> E e t') ->
  (forall X' y' c' FB' m' tail' x' q d' b' t', X ⊆ X' -> alike y y' -> alike_cell FB FB' ->
     kept P X m m' -> alike tail tail' -> (nd c' ∉ X) -> ty c' = type ->
     ok R X' (y' ++ c' :: FB' :: m' ++ tail') (x' ++ (q, d') :: b') t' ->
     is_scoping_element (it_type d') = false -> it_type d' = type ->
     it_index d' = zlen (FB' :: m' ++ tail') -> Forall (passed type) b'.*2 ->
     (nd F ∉ map nd (y' ++ c' :: FB' :: m' ++ tail')) -> Q tt t') ->
  wp (let! (furthest_block, bookmark, last_node) :=
        aa_find_bookmark_location_reparenting_misnested (zlen tail) (zlen (m ++ F :: tail))
          (last_ptr x, head_ptr b) in
      do! adoption_reparent (u32 (zlen tail - 1)) last_node in
      adoption_clone malloc p (zlen tail) furthest_block bookmark) Q E t.
Proof.
  intros Hok Ht Hd HFB Hb Hs Hty HE HQ. apply wp_bind. unfold aa_find_bookmark_location_reparenting_misnested.
  replace (last_ptr x) with (last_ptr (x ++ [])) by (by rewrite app_nil_r).
  eapply (wp_misnested_loop P type tail Ht F p d Hd _ R X y FB [] m x [] b); [|..|exact Hb|exact HE|].
  { split; [done|by left]. }
  { rewrite zlen_app, zlen_cons. unfold zlen. lia. }
  clear t Hok. intros X1 m1 x1 b1 b2 t HX1 Hmid Hk Hb'. cbn [app] in Hk.
  pose proof (midway_fb type tail Ht F p d Hd _ _ _ _ _ _ _ _ _ _ Hmid eq_refl Hb') as Hbk.
  destruct Hmid as [Hok _]. cbn [app] in Hok.
  destruct (exists_last (l := y ++ FB :: m1)) as (a & w & Haw); [by destruct y|].
  assert (Hsplit : y ++ FB :: m1 ++ F :: tail = a ++ w :: F :: tail).
  { transitivity ((y ++ FB :: m1) ++ F :: tail); [by rewrite <-(assoc_L (++))|]. by rewrite Haw, <-(assoc_L (++)). }
  rewrite Hsplit in Hok.
  eapply wp_bind, (wp_step7 _ _ _ _ _ _ _ _ _ _ Hok Ht HE). rewrite <-Hsplit. clear t Hok a w Haw Hsplit.
  intros s' t Ha Hok.
  destruct (alike_mid _ _ _ _ Ha) as (y2 & FB2 & s2 & -> & Hy & HcFB & Ha2).
  destruct (alike_mid _ _ _ _ Ha2) as (m2 & F2 & tail2 & -> & Hm2 & HcF & Ht2).
  pose proof (alike_zlen _ _ Ht2) as Hz. pose proof (alike_zlen _ _ Hm2) as Hzm.
  assert (Hfb : zlen (m1 ++ F :: tail) = zlen (m2 ++ F2 :: tail2)) by (rewrite !zlen_app, !zlen_cons; lia).
  assert (HcF2 : nd F2 = nd F) by (destruct HcF as (_ & _ & E1 & _); unfold nd; by rewrite E1).
  assert (HtFB : ty FB2 = ty FB) by (destruct HcFB as (_ & E1 & _); unfold ty; by rewrite E1).
  rewrite Hfb, <-Hz in *. pose proof Hok as [_ Hi].
  eapply (wp_steps8 _ _ _ _ _ _ _ _ _ _ _ _ _ _ _ Hok); [by eapply alike_some|done|done| |done|].
  - (* no item of the furthest block *)
    intros e He Ee. rewrite fmap_app in Hb'. apply Forall_app in Hb' as [_ Hb2].
    rewrite Forall_forall in Hb2. destruct (Hb2 e He) as [He1 He2].
    assert (He' : e ∈ (x1 ++ (p, d) :: b1 ++ b2).*2).
    { rewrite fmap_app, fmap_cons, fmap_app, elem_of_app, elem_of_cons, elem_of_app. auto. }
    pose proof (iv_types _ _ _ Hi) as Hact. rewrite Forall_forall in Hact.
    assert (Hfmt : is_formatting_element (it_type e) = true).
    { destruct (Hact e He') as [Ha1 _]. unfold active_type in Ha1.
      apply orb_prop in Ha1 as [?|Ha1]; [done|]. apply one_of_In in Ha1.
      repeat destruct Ha1 as [E1|Ha1]; try rewrite <-E1 in He1; try discriminate He1. done. }
    pose proof (zlen_nonneg m2). pose proof (zlen_nonneg tail2).
    destruct (iv_open _ _ _ Hi e He') as (c & Hcc & _ & _ & Hct); [rewrite Ee, zlen_app, zlen_cons; lia|].
    rewrite Ee, at_index_mid in Hcc. injection Hcc as <-. rewrite HtFB in Hct. rewrite <-Hct in Hfmt.
    unfold is_block in HFB. by rewrite Hfmt, orb_true_r in HFB.
  - clear t Hok. intros n c' q t Hn Hcn Hct low Hok.
    apply (HQ (n :: X1) y2 c' FB2 m2 tail2 (low x1 ++ low b1) q
             (new_item (it_ns d) (it_type d) n (zlen (m2 ++ F2 :: tail2))) (low b2)); try done.
    + intros k Hk'. right. by apply HX1.
    + eapply kept_trans; [exact Hk|by apply kept_alike|done].
    + rewrite Hcn. intros Hin. by apply Hn, HX1.
    + by rewrite Hct.
    + by rewrite <-(assoc_L (++)).
    + cbn [new_item it_index]. rewrite zlen_cons, !zlen_app, zlen_cons. lia.
    + apply passed_lowered. rewrite fmap_app in Hb'. by apply Forall_app in Hb' as [_ ?].
    + pose proof (iv_nodup _ _ _ Hi) as Hnd. pose proof (iv_stack_known _ _ _ Hi) as Hkn.
      rewrite <-HcF2. rewrite !map_app in Hnd |- *. cbn [map] in Hnd |- *. rewrite map_app in Hnd |- *.
      cbn [map] in Hnd. rewrite Forall_forall in Hkn.
      assert (HF : nd F2 ∈ X1).
      { apply Hkn. rewrite !elem_of_app, elem_of_cons, elem_of_app, elem_of_cons. auto. }
      apply NoDup_app in Hnd as (_ & H1 & H2). apply NoDup_cons in H2 as [H2 H3].
      apply NoDup_app in H3 as (_ & H4 & H5). apply NoDup_cons in H5 as [H5 _].
      rewrite elem_of_app, !elem_of_cons, elem_of_app. intros [Hx|[Hx|[Hx|[Hx|Hx]]]].
      * apply (H1 _ Hx). rewrite elem_of_cons, elem_of_app, elem_of_cons. auto.
      * rewrite Hcn in Hx. by rewrite <-Hx in Hn.
      * apply H2. rewrite <-Hx. rewrite elem_of_app, elem_of_cons. auto.
      * apply (H4 _ Hx). by left.
      * by apply H5.
Qed.

Lemma alike_kept_all X y y' c' FB FB' m m' F pre pre' :
  alike y y' -> alike_cell FB FB' -> kept P X m m' -> alike pre pre' -> ty c' = type -> (nd c' ∉ X) ->
  kept P X (y ++ FB :: m ++ F :: pre) (y' ++ c' :: FB' :: m' ++ pre').
Proof.
  intros Hy HFB Hm Hpre Hc Hn.
  apply (kept_app P X y y' (FB :: m ++ F :: pre) ([c'] ++ FB' :: m' ++ pre')); [by apply kept_alike|].
  apply (kept_app P X [] [c'] (FB :: m ++ F :: pre) (FB' :: m' ++ pre')); [apply kept_new; [by rewrite Hc|done]|].
  apply (kept_app P X [FB] [FB'] (m ++ F :: pre) (m' ++ pre')); [apply kept_alike; constructor; [done|constructor]|].
  apply kept_app; [done|]. apply (kept_app P X [F] [] pre pre'); [apply kept_gone|by apply kept_alike].
Qed.

Lemma adopted_suffix R X a c b u l l' t :
  ok R X ((a ++ c :: b) ++ u) l t -> (forall d, find_item type l None = Some d -> nd c = it_node d) ->
  forall t', ok R X (b ++ u) l' t' -> adopted R X (a ++ c :: b) u l t'.
Proof.
  intros [_ Hi] Hd t' Hok'. exists X, b, u, l'. split_and!; [done|apply alike_refl| |done|].
  - split; [by intros [_ [_ ?]%Forall_cons]%Forall_app|].
    intros n _ Hn. rewrite map_app, elem_of_app. right. cbn. rewrite elem_of_cons. by right.
  - intros d Hfd. rewrite <-(Hd d Hfd). pose proof (iv_nodup _ _ _ Hi) as Hnd.
    rewrite <-(assoc_L (++)), map_app in Hnd. apply NoDup_app in Hnd as (_ & _ & Hnd). cbn in Hnd.
    by apply NoDup_cons in Hnd as [].
Qed.

Lemma wp_then {A B C D} (m : M (A * B * C)) (k1 k2 : A -> B -> C -> M unit) (k3 : M D) (Q' : T -> Prop)
    (Q : D -> T -> Prop) E t :
  wp (let! (a, b, c) := m in do! k1 a b c in k2 a b c) (fun _ => Q') E t ->
  (forall t', Q' t' -> wp k3 Q E t') ->
  wp (let! (a, b, c) := m in do! k1 a b c in do! k2 a b c in k3) Q E t.
Proof.
  unfold wp, bind. destruct (m t) as [[[a b] c] t1|e t1|]; [|done..].
  destruct (k1 a b c t1) as [u1 t2|e t2|]; [|done..]. destruct (k2 a b c t2); [|done..].
  intros H Hk. by apply Hk.
Qed.

Lemma wp_round R X pre u l t (Q : bool -> T -> Prop) E :
  ok R X (pre ++ u) l t -> u <> [] -> scope type false u = 0 -> (forall e t', fails e t' -> E e t') ->
  (idle type (pre ++ u) l -> Q false t) -> (forall t', adopted R X pre u l t' -> Q false t') ->
  (forall X' pre' u' l' t', X ⊆ X' -> alike u u' -> kept P X pre pre' -> ok R X' (pre' ++ u') l' t' ->
     (forall d, find_item type l None = Some d -> it_node d ∉ map nd (pre' ++ u')) ->
     (rounds type (pre' ++ u') l' < rounds type (pre ++ u) l)%nat -> Q true t') ->
  wp (adoption_round malloc type) Q E t.
Proof.
  intros Hok Hu Hu0 HE HQ1 HQ2 HQ3.
  eapply wp_bind, (wp_validate _ _ _ _ _ _ _ _ Hok); [intros ?; by apply wp_ret, HQ1| |].
  { intros x p d b t' -> Hb Hs Hty E0 Hok'. apply wp_ret, HQ2. exists X, pre, u, (x ++ b).
    split_and!; [done|apply alike_refl|apply kept_refl|done|].
    intros d' Hd'. rewrite find_item_found in Hd' by done. injection Hd' as <-.
    apply (iv_closed _ _ _ (ok_inv _ _ _ _ _ Hok)); [|done]. rewrite fmap_app, elem_of_app. right; by left. }
  intros x p d b -> Hb Hs Hty N0 Hscope. rewrite bool_decide_false by done. pose proof Hok as [Hst Hi].
  destruct (scope_above type false pre u Hu Hu0) as (a & F & pre0 & -> & Hz & HtyF); [by rewrite Hscope|].
  rewrite Hscope in Hz. rewrite <-(assoc_L (++)) in Hst, Hi. cbn [app] in Hst, Hi.
  assert (Hfind : forall d', find_item type (x ++ (p, d) :: b) None = Some d' -> nd F = it_node d').
  { intros d' Hd'. rewrite find_item_found in Hd' by done. injection Hd' as <-.
    destruct (iv_open _ _ _ Hi d) as (c & Hc & _ & Hn & _); [|done|].
    { rewrite fmap_app, elem_of_app. right; by left. }
    rewrite Hz, at_index_mid in Hc. by injection Hc as <-. }
  eapply wp_bind, (wp_entry_get Hst); [done|]. cbn [entry_of fe_type fe_stack_index fe_prev fe_next].
  apply wp_bind, wp_assert; [by destruct (type_eqb_spec (it_type d) type)|]. rewrite Hz.
  assert (Hb0 : pre0 ++ u <> []) by (by destruct pre0).
  assert (Hok0 : ok R X (a ++ F :: pre0 ++ u) (x ++ (p, d) :: b) t) by done.
  eapply wp_bind, (wp_furthest _ _ _ _ _ _ _ _ _ _ _ _ Hok0); [done|done| |].
  { intros l' t' Hok'. apply wp_ret, HQ2. by eapply adopted_suffix. }
  intros y FB m -> HFB Hm. rewrite bool_decide_false by done.
  rewrite <-(assoc_L (++)) in Hok0. cbn [app] in Hok0.
  set (after := fun t' => exists X' pre' u' l', X ⊆ X' /\ alike u u' /\
    kept P X ((y ++ FB :: m) ++ F :: pre0) pre' /\ ok R X' (pre' ++ u') l' t' /\
    (forall d', find_item type (x ++ (p, d) :: b) None = Some d' -> it_node d' ∉ map nd (pre' ++ u')) /\
    (rounds type (pre' ++ u') l' <
       rounds type (((y ++ FB :: m) ++ F :: pre0) ++ u) (x ++ (p, d) :: b))%nat).
  assert (Hafter : wp (let! (furthest_block, bookmark, last_node) :=
        aa_find_bookmark_location_reparenting_misnested (zlen (pre0 ++ u)) (zlen (m ++ F :: pre0 ++ u))
          (last_ptr x, head_ptr b) in
      do! adoption_reparent (u32 (zlen (pre0 ++ u) - 1)) last_node in
      adoption_clone malloc p (zlen (pre0 ++ u)) furthest_block bookmark) (fun _ => after) E t).
  { eapply (wp_steps5 _ _ _ _ _ _ _ _ _ _ _ _ _ _ Hok0); try done.
    intros X' y' c' FB' m' tail' x' q d' b' t' HX Hy HcFB Hk Ht' Hn Hct Hok' Hs' Hty' Hd' Hb' HF.
    apply Forall2_app_inv_l in Ht' as (pre1 & u' & Hpre & Hu' & ->).
    exists X', (y' ++ c' :: FB' :: m' ++ pre1), u', (x' ++ (q, d') :: b').
    assert (E1 : (y' ++ c' :: FB' :: m' ++ pre1) ++ u' = y' ++ c' :: FB' :: m' ++ pre1 ++ u')
      by (by rewrite <-!(assoc_L (++)), <-!app_comm_cons, <-(assoc_L (++))).
    assert (E2 : ((y ++ FB :: m) ++ F :: pre0) ++ u = y ++ FB :: m ++ F :: pre0 ++ u)
      by (by rewrite <-!(assoc_L (++))).
    rewrite E1, E2. split_and!; try done.
    - rewrite <-(assoc_L (++)), <-app_comm_cons. by apply alike_kept_all.
    - intros d0 Hd0. by rewrite <-(Hfind d0 Hd0).
    - unfold rounds. rewrite !find_item_found by done. rewrite Hd', above_mid, Hz.
      replace (y ++ FB :: m ++ F :: pre0 ++ u) with ((y ++ FB :: m) ++ F :: pre0 ++ u) by (by rewrite <-(assoc_L (++))).
      rewrite above_mid, blocks_app, (blocks_alike y y') by done. cbn. rewrite HFB. lia. }
  eapply wp_then; [exact Hafter|]. intros t' (X' & pre' & u' & l' & ? & ? & ? & ? & ? & ?).
  apply wp_ret. by eapply HQ3.
Qed.

(** ** All rounds *)

Lemma scope_alike y in_table s s' : alike s s' -> scope y in_table s' = scope y in_table s.
Proof.
  induction 1 as [|c c' s s' (_ & Ec & _) Ha IH]; [done|].
  assert (Et : ty c' = ty c) by (unfold ty; by rewrite Ec).
  destruct s as [|c2 s]; [by inversion Ha|].
  rewrite (scope_cons y in_table c'), (scope_cons y in_table c) by (done || by eapply alike_some).
  by rewrite IH, Et, (alike_zlen _ _ Ha).
Qed.

Lemma find_item_elem y l : forall acc d, find_item y l acc = Some d -> d ∈ l.*2 \/ acc = Some d.
Proof.
  induction l as [|[p e] l IH]; intros acc d; [by right|]. cbn [find_item]. intros [Hd|Hd]%IH.
  - left. cbn. by right.
  - destruct (is_scoping_element _); [done|].
    destruct (type_eqb _ _); [|by right]. injection Hd as <-. left. by left.
Qed.

Lemma adopted_trans R X pre u l X1 pre1 u1 l1 t :
  ok R X1 (pre1 ++ u1) l1 t -> X ⊆ X1 -> alike u u1 -> kept P X pre pre1 -> inv X (pre ++ u) l ->
  (forall d, find_item type l None = Some d -> it_node d ∉ map nd (pre1 ++ u1)) ->
  forall t', adopted R X1 pre1 u1 l1 t' -> adopted R X pre u l t'.
Proof.
  intros Hok HX Hu Hk Hi Hgone t' (X2 & pre2 & u2 & l2 & HX2 & Hu2 & Hk2 & Hok2 & _).
  exists X2, pre2, u2, l2. split_and!.
  - intros n Hn. by apply HX2, HX.
  - by eapply alike_trans.
  - by eapply kept_trans.
  - done.
  - intros d Hd. specialize (Hgone d Hd). contradict Hgone. rewrite map_app, elem_of_app in Hgone |- *.
    destruct (find_item_elem _ _ _ _ Hd) as [Hdl|]; [|done].
    pose proof (iv_list_known _ _ _ Hi) as Hkn. rewrite Forall_forall in Hkn. specialize (Hkn d Hdl).
    destruct Hgone as [Hin|Hin]; [left|right].
    + apply (kept_nodes _ _ _ _ Hk2); [by apply HX|done].
    + by rewrite (alike_nodes _ _ Hu2) in Hin.
Qed.

Lemma wp_adoption_loop fuel : forall R X pre u l t (Q E : hubbub_error -> T -> Prop),
  ok R X (pre ++ u) l t -> u <> [] -> scope type false u = 0 ->
  (rounds type (pre ++ u) l < fuel)%nat -> (forall e t', fails e t' -> E e t') ->
  (idle type (pre ++ u) l -> Q HUBBUB_OK t) -> (forall t', adopted R X pre u l t' -> Q HUBBUB_OK t') ->
  wp (adoption_loop malloc fuel type) Q E t.
Proof.
  induction fuel as [|fuel IH]; intros R X pre u l t Q E Hok Hu Hu0 Hf HE HQ1 HQ2; [lia|].
  cbn [adoption_loop]. eapply wp_bind, (wp_round _ _ _ _ _ _ _ _ Hok Hu Hu0 HE);
    [intros ?; by apply wp_ret, HQ1|intros t' Ht'; by apply wp_ret, HQ2|].
  intros X1 pre1 u1 l1 t1 HX Ha Hk Hok1 Hgone Hr.
  apply (IH R X1 pre1 u1 l1); [done|by eapply alike_some|by rewrite (scope_alike _ _ _ _ Ha)|lia|done| |].
  - intros _. apply HQ2. by exists X1, pre1, u1, l1.
  - intros t2 H2. apply HQ2. eapply adopted_trans; [exact Hok1|done..|apply Hok|done|done].
Qed.

(** The adoption agency ends, and leaves everything in order. *)
Lemma wp_adoption R X pre u l t (Q E : hubbub_error -> T -> Prop) :
  ok R X (pre ++ u) l t -> u <> [] -> scope type false u = 0 -> (forall e t', fails e t' -> E e t') ->
  (idle type (pre ++ u) l -> Q HUBBUB_OK t) -> (forall t', adopted R X pre u l t' -> Q HUBBUB_OK t') ->
  wp (process_0presentational_in_body malloc type) Q E t.
Proof.
  intros Hok Hu Hu0 HE HQ1 HQ2. pose proof (ok_st _ _ _ _ _ Hok) as Hst.
  eapply wp_bind, (wp_walk_fuel Hst). eapply wp_bind, (wp_top_index Hst).
  eapply (wp_adoption_loop _ _ _ _ _ _ _ _ _ Hok); try done.
  pose proof (rounds_le type (pre ++ u) l). unfold zlen. nia.
Qed.
End Steps.
