(* ===== verification/TreeFlow.v ===== *)
(** * TreeFlow: triples for the tree builder, over the types of the open
    elements.

    [stands R ts t]: the invariant holds of [t], its open elements have the
    types [ts], the current node first, and its other fields are those of [R].
    [does_or E B m Q]: from every state of [B], [m] is not stuck, what it
    yields satisfies [Q] and an early return [E]; [does] is for early returns
    after which the tree builder can be destroyed. *)
From S2P Require Import Prelude.
From S2P Require Import Errors.
From S2P Require Import Tokens.
From S2P Require Import TokeniserState.
From S2P Require Import TokeniserMonad.
From S2P Require Import TokeniserWp.
From S2P Require Import ElementType.
From S2P Require Import TreeState.
From S2P Require Import TreeRepr.
From S2P Require Import TreeStack.
From S2P Require Import TreeAdoption.
From S2P Require Import TreeBody.
From S2P Require Import TreeRules.
From S2P Require Import TreeInv.
From S2P Require Import TreeSteps.
From S2P Require Import TreePops.
From S2P Require Import TreeRounds.
From stdpp Require Import gmap.

Local Open Scope Z_scope.

(** ** Scope, by types *)

Fixpoint tscope (type : element_type) (in_table : bool) (ts : list element_type) : Z :=
  match ts with
  | [] | [_] => 0
  | y :: ts' =>
      if type_eqb y type then zlen ts'
      else if open_scope in_table y then tscope type in_table ts' else 0
  end.

Lemma tscope_cons type in_table y ts :
  ts <> [] ->
  tscope type in_table (y :: ts) =
    if type_eqb y type then zlen ts else if open_scope in_table y then tscope type in_table ts else 0.
Proof. by destruct ts. Qed.

Lemma scope_types type in_table s : scope type in_table s = tscope type in_table (map ty s).
Proof.
  induction s as [|c s IH]; [done|]. destruct s as [|c2 s]; [done|].
  rewrite scope_cons by done. cbn [map] in *. rewrite tscope_cons by done.
  rewrite <-IH. unfold zlen. cbn [length]. by rewrite length_map.
Qed.

Lemma tscope_some type in_table ts :
  tscope type in_table ts <> 0 ->
  exists a b, ts = a ++ type :: b /\ b <> [] /\ tscope type in_table ts = zlen b /\ (type ∉ a) /\
    Forall (fun y => open_scope in_table y = true) a.
Proof.
  induction ts as [|y ts IH]; [done|]. destruct ts as [|y2 ts]; [done|]. rewrite tscope_cons by done.
  destruct (type_eqb_spec y type) as [->|N].
  { intros _. exists [], (y2 :: ts). split_and!; try done. apply not_elem_of_nil. }
  destruct (open_scope in_table y) eqn:Ho; [|done].
  intros (a & b & -> & ? & ? & ? & ?)%IH. exists (y :: a), b.
  split_and!; try done; [rewrite not_elem_of_cons; split; [congruence|done]|by constructor].
Qed.

Section Flow.
Context {W : Type} `{!TreeHandler W} `{!TreeHandlerLaws W}.
Local Abbreviation T := (hubbub_treebuilder W).
Local Abbreviation M := (comp (hubbub_treebuilder W)).
Context (alloc_ok : nat -> Z -> bool) (Hlimit : alloc_limit alloc_ok).
Context (malloc : nat -> gmap Z formatting_list_entry -> option Z) (Hmalloc : malloc_fresh malloc).

Definition does_or {A} (E : hubbub_error -> T -> Prop) (B : T -> Prop) (m : M A) (Q : A -> T -> Prop) : Prop :=
  forall t, B t -> wp m Q E t.
Local Abbreviation does := (does_or fails).

Definition stands (R : rest_view) (ts : list element_type) (t : T) : Prop :=
  exists X s l, ok R X s l t /\ map ty s = ts.

(** ** Composition *)

Lemma does_bind {A C} E B (m : M A) (k : A -> M C) (Q : A -> T -> Prop) Q' :
  does_or E B m Q -> (forall a, does_or E (Q a) (k a) Q') -> does_or E B (let! a := m in k a) Q'.
Proof. intros Hm Hk t Ht. apply wp_bind. eapply wp_mono; [by apply Hm| |done]. intros a t'. apply Hk. Qed.

Lemma does_then {C} E B B' (m : M unit) (k : M C) Q' :
  does_or E B m (fun _ => B') -> does_or E B' k Q' -> does_or E B (do! m in k) Q'.
Proof. intros Hm Hk. eapply does_bind; [exact Hm|done]. Qed.

Lemma does_ret {A} E (B : T -> Prop) (a : A) (Q : A -> T -> Prop) :
  (forall t, B t -> Q a t) -> does_or E B (ret a) Q.
Proof. intros H t Ht. by apply wp_ret, H. Qed.

Lemma does_skip {C} E (B : T -> Prop) (k : M C) Q : does_or E B k Q -> does_or E B (do! ret tt in k) Q.
Proof. done. Qed.

Lemma does_weaken {A} E (B B' : T -> Prop) (m : M A) (Q Q' : A -> T -> Prop) :
  does_or E B m Q -> (forall t, B' t -> B t) -> (forall a t, Q a t -> Q' a t) -> does_or E B' m Q'.
Proof. intros H HB HQ t Ht. eapply wp_mono; [apply H, HB, Ht|apply HQ|done]. Qed.

(** Reading a field that does not matter. *)
Lemma does_ctx {A C} E B (f : treebuilder_context -> A) (k : A -> M C) Q :
  (forall a, does_or E B (k a) Q) -> does_or E B (let! a := ctx f in k a) Q.
Proof. intros H t Ht. apply wp_bind, wp_ctx, H. done. Qed.

Lemma does_exists {A C} E (B : C -> T -> Prop) (m : M A) Q :
  (forall c, does_or E (B c) m Q) -> does_or E (fun t => exists c, B c t) m Q.
Proof. intros H t [c Ht]. by apply (H c). Qed.

Lemma does_and {A} E (P : Prop) (B : T -> Prop) (m : M A) Q :
  (P -> does_or E B m Q) -> does_or E (fun t => P /\ B t) m Q.
Proof. intros H t [HP Ht]. by apply H. Qed.

Lemma does_call (B : T -> Prop) (m : M hubbub_error) C : does B m (result C) -> does B (call m) (result C).
Proof. intros H t Ht. apply wp_call. eapply wp_mono; [by apply H|done|]. intros e t'. apply fails_result. Qed.

Lemma does_check_call {C} (B B' : T -> Prop) (m : M hubbub_error) (k : M C) Q :
  does B m (result B') -> does B' k Q -> does B (do! check_call m in k) Q.
Proof.
  intros Hm Hk t Ht. apply wp_bind. eapply wp_check_call; [|by intros ?; apply Hk|done].
  eapply wp_mono; [by apply Hm|done|]. intros e t'. apply fails_result.
Qed.

Lemma does_checked (B B' : T -> Prop) (m : M hubbub_error) :
  does B m (result B') -> does B (check_call m) (fun _ => B').
Proof.
  intros Hm t Ht. eapply wp_check_call; [|done|done].
  eapply wp_mono; [by apply Hm|done|]. intros e t'. apply fails_result.
Qed.

Lemma does_when E (B : T -> Prop) (b : bool) (m : M unit) :
  (b = true -> does_or E B m (fun _ => B)) -> does_or E B (if b then m else ret tt) (fun _ => B).
Proof. destruct b; intros H; [by apply H|by apply does_ret]. Qed.

Lemma does_ok E (B : T -> Prop) : does_or E B (ret HUBBUB_OK) (result B).
Proof. by apply does_ret. Qed.

(** ** States that stand for the same however the client's nodes grow *)

Definition growing (B : T -> Prop) : Prop :=
  forall t, B t -> exists R X s l, ok R X s l t /\
    forall X' s' t', X ⊆ X' -> alike s s' -> ok R X' s' l t' -> B t'.

Lemma ok_grow R X X' s s' l (t : T) : inv X s l -> X ⊆ X' -> alike s s' -> st R X' s' l t -> ok R X' s' l t.
Proof. intros Hi HX Ha Hst. split; [done|]. eapply inv_known; [by eapply inv_alike|done]. Qed.

Lemma stands_growing R ts : growing (stands R ts).
Proof.
  intros t (X & s & l & Hok & Hts). exists R, X, s, l. split; [done|]. intros X' s' t' _ Ha Hok'.
  exists X', s', l. split; [done|]. by rewrite (alike_types _ _ Ha).
Qed.

Lemma growing_result B e t : growing B -> B t -> client_error e -> result B e t.
Proof.
  intros HB Ht He. destruct (HB t Ht) as (R & X & s & l & Hok & _).
  destruct (decide (e = HUBBUB_OK)) as [->|N]; [done|]. by eapply fails_result, ok_fails.
Qed.

(** What is left of a state of [B] after something that may have failed. *)
Definition soft (B : T -> Prop) (e : hubbub_error) (t : T) : Prop := client_error e /\ B t.

Lemma soft_result B e t : growing B -> soft B e t -> result B e t.
Proof. intros HB [He Ht]. by apply growing_result. Qed.

Lemma soft_fails B e t : growing B -> soft B e t -> e <> HUBBUB_OK -> fails e t.
Proof. intros HB [He Ht] N. destruct (HB t Ht) as (R & X & s & l & Hok & _). by eapply ok_fails. Qed.

Lemma failed_soft (B : T -> Prop) R X s l e t : inv X s l -> failed R X s l e t ->
  (forall X' s' t', X ⊆ X' -> alike s s' -> ok R X' s' l t' -> B t') -> soft B e t.
Proof. intros Hi (_ & He & X' & s' & HX & Ha & Hst) HB. split; [done|]. eapply HB; [done|done|by eapply ok_grow]. Qed.

(** *** Text, comments and elements that are not pushed *)

Definition softly (B : T -> Prop) (m : M hubbub_error) : Prop :=
  forall t, B t -> wp m (soft B) (fun e t => e <> HUBBUB_OK /\ soft B e t) t.

Lemma softly_does B m : growing B -> softly B m -> does B m (result B).
Proof.
  intros HB H t Ht. eapply wp_mono; [by apply H|intros e t'; by apply soft_result|].
  intros e t' [N Hs]. by eapply soft_fails.
Qed.

Ltac grow HB t Ht := destruct (HB t Ht) as (R & X & s & l & Hok & Hgrow); pose proof Hok as [Hst Hi];
  pose proof (iv_cells _ _ _ Hi) as Hcells.

Lemma soft_ok (B : T -> Prop) R X s l t s' : ok R X s l t -> alike s s' ->
  (forall X' s' t', X ⊆ X' -> alike s s' -> ok R X' s' l t' -> B t') ->
  forall t', st R X s' l t' -> B t'.
Proof. intros [_ Hi] Ha HB t' Hst. apply (HB X s'); [done|done|by eapply ok_grow]. Qed.

Lemma softly_text B data : growing B -> softly B (append_text data).
Proof.
  intros HB t Ht. grow HB t Ht. apply (wp_append_text _ _ _ _ _ _ _ _ Hst Hcells).
  - split; [|by intros e t' ?; eapply failed_soft].
    intros s' t' Ha Hst'. split; [done|]. by eapply soft_ok.
  - intros e t' Hf. split; [apply Hf|by eapply failed_soft].
Qed.

Lemma softly_then {A} B m (k : M A) (Q : A -> T -> Prop) (E : hubbub_error -> T -> Prop) :
  softly B m -> (forall e t, e <> HUBBUB_OK -> soft B e t -> E e t) -> (forall t, B t -> wp k Q E t) ->
  forall t, B t -> wp (do! check_call m in k) Q E t.
Proof.
  intros Hm HE Hk t Ht. apply wp_bind, wp_bind, wp_call.
  assert (H : forall e t, soft B e t -> wp (check e) (fun _ => wp k Q E) E t).
  { intros e t' Hs. apply wp_check; [intros ->; apply Hk, Hs|auto]. }
  eapply wp_mono; [by apply Hm|exact H|]. intros e t' [_ Hs]. by apply H.
Qed.

(** Where a comment goes. *)
Definition looks (B : T -> Prop) (m : M Z) : Prop :=
  forall t, B t -> forall (Q : Z -> T -> Prop) E, (forall p, Q p t) -> wp m Q E t.

Lemma looks_top B : growing B -> looks B top_node.
Proof.
  intros HB t Ht Q E HQ. grow HB t Ht. destruct s as [|c s]; [done|].
  by apply (wp_top_node _ _ _ _ _ _ _ _ Hst Hcells).
Qed.

Lemma looks_ctx B (f : treebuilder_context -> Z) : looks B (ctx f).
Proof. intros t Ht Q E HQ. by apply wp_ctx. Qed.

Lemma looks_root B : growing B -> looks B (stack_node 0).
Proof.
  intros HB t Ht Q E HQ. grow HB t Ht. destruct s as [|c s _] using rev_ind; [done|].
  eapply (wp_stack_node Hst); [apply (at_index_mid s c [])|by eapply cells_in|done].
Qed.

Lemma softly_comment B data m : growing B -> looks B m -> softly B (process_comment_append data m).
Proof.
  intros HB Hm t Ht. grow HB t Ht. apply (wp_comment _ _ _ _ _ _ _ _ _ Hst Hcells).
  - split; [|by intros e t' ?; eapply failed_soft].
    intros s' t' Ha Hst'. split; [done|]. by eapply soft_ok.
  - intros e t' Hf. split; [apply Hf|by eapply failed_soft].
  - intros Q' HQ'. by apply (Hm t Ht).
Qed.

Lemma softly_insert B tag : growing B -> softly B (insert_element alloc_ok tag false).
Proof.
  intros HB t Ht. grow HB t Ht. apply (wp_insert_element alloc_ok Hlimit _ _ _ _ _ _ _ _ _ Hst Hcells).
  - intros e t' Hf. split; [apply Hf|by eapply failed_soft].
  - intros s' n t' Ha Hn Hst'. split; [done|]. apply (Hgrow (n :: X) s'); [intros k Hk; by right|done|].
    eapply ok_grow; [done|intros k Hk; by right|done|done].
Qed.

Lemma does_looks {A} E B m (k : Z -> M A) Q :
  looks B m -> (forall p, does_or E B (k p) Q) -> does_or E B (let! p := m in k p) Q.
Proof. intros Hm Hk t Ht. apply wp_bind, (Hm t Ht). intros p. by apply Hk. Qed.

(** *** Fields that do not matter *)

Definition neutral (m : M unit) : Prop :=
  forall R X s l t (Q : unit -> T -> Prop) E,
    st R X s l t -> (forall t', st R X s l t' -> Q tt t') -> wp m Q E t.

Lemma does_neutral E B m : growing B -> neutral m -> does_or E B m (fun _ => B).
Proof.
  intros HB Hm t Ht. grow HB t Ht. apply (Hm R X s l); [done|]. intros t' Hst'.
  by apply (Hgrow X s); [|apply alike_refl|split].
Qed.

Lemma neutral_strip b : neutral (upd_ctx (set_tc_strip_leading_lr b)).
Proof. intros R X s l t Q E Hst HQ. by apply (wp_set_strip Hst). Qed.
Lemma neutral_frameset_ok b : neutral (set_frameset_ok b).
Proof. intros R X s l t Q E Hst HQ. by apply (wp_set_frameset_ok Hst). Qed.
Lemma neutral_form n : neutral (upd_ctx (set_tc_form_element n)).
Proof. intros R X s l t Q E Hst HQ. by apply (wp_set_form_element Hst). Qed.
Lemma neutral_foster b : neutral (upd_ctx (set_tc_in_table_foster b)).
Proof. intros R X s l t Q E Hst HQ. by apply (wp_set_foster Hst). Qed.
Lemma neutral_collect_type y : neutral (upd_ctx (set_tc_collect_type y)).
Proof. intros R X s l t Q E Hst HQ. by apply (wp_set_collect_type Hst). Qed.
Lemma neutral_ref n : neutral (ref_node n).
Proof. intros R X s l t Q E Hst HQ. by apply (wp_ref_node Hst). Qed.
Lemma neutral_unref n : neutral (unref_node n).
Proof. intros R X s l t Q E Hst HQ. by apply (wp_unref_node Hst). Qed.
Lemma neutral_content_model m : neutral (set_content_model m).
Proof. intros R X s l t Q E Hst HQ. by apply (wp_set_content_model Hst). Qed.

(** A function of the client on the side. *)
Lemma softly_handler B f : growing B ->
  (forall w e w', f w = (e, w') -> client_error e /\ forall m, th_element w m -> th_element w' m) ->
  softly B (handler_error f).
Proof.
  intros HB Hf t Ht. grow HB t Ht. apply (wp_handler_error Hst f); [intros e w'; apply Hf|].
  intros e t' He Hst'. split; [done|]. by apply (Hgrow X s); [|apply alike_refl|split].
Qed.

(** ** Stacks by their types *)

Lemma map_split (a : list element_type) y b s :
  map ty s = a ++ y :: b -> exists sa c sb, s = sa ++ c :: sb /\ map ty sa = a /\ ty c = y /\ map ty sb = b.
Proof.
  intros (sa & r & -> & <- & E)%map_eq_app. apply map_eq_cons in E as (c & sb & -> & <- & <-). by exists sa, c, sb.
Qed.

Lemma stands_ok R X s l t ts : ok R X s l t -> map ty s = ts -> stands R ts t.
Proof. intros. by exists X, s, l. Qed.

Lemma types_zlen s ts : map ty s = ts -> zlen s = zlen ts.
Proof. intros <-. unfold zlen. by rewrite length_map. Qed.

Lemma does_current E R y ts : does_or E (stands R (y :: ts)) current_node (fun y' t => y' = y /\ stands R (y :: ts) t).
Proof.
  intros t (X & s & l & Hok & Hs). destruct s as [|c s]; [done|]. pose proof Hs as [= <- _].
  apply (wp_current_node _ _ _ _ _ _ _ _ (ok_st _ _ _ _ _ Hok) (ok_cells _ _ _ _ _ Hok)).
  split; [done|by eapply stands_ok].
Qed.

Lemma does_pop E R y ts : ts <> [] ->
  does_or E (stands R (y :: ts)) pop_unref (fun y' t => y' = y /\ stands R ts t).
Proof.
  intros Hts t (X & s & l & Hok & Hs). destruct s as [|c s]; [done|]. injection Hs as <- Hs.
  apply (wp_pop_ok _ _ _ _ _ _ _ _ Hok); [by intros ->; subst|]. intros l' t' _ Hok'.
  split; [done|by eapply stands_ok].
Qed.

Lemma does_pop_until E R stop a y b : b <> [] -> Forall (fun y => stop y = false) a -> stop y = true ->
  does_or E (stands R (a ++ y :: b)) (pop_until stop) (fun _ => stands R b).
Proof.
  intros Hb Ha Hy t (X & s & l & Hok & Hs).
  apply map_split in Hs as (sa & c & sb & -> & <- & <- & <-).
  apply (wp_pop_until _ _ _ _ _ _ _ _ _ _ Hok); [by destruct sb|by apply Forall_map in Ha|done|].
  intros l' t' _ Hok'. by eapply stands_ok.
Qed.

Lemma does_pop_while E R go a y b : Forall (fun y => go y = true) a -> go y = false ->
  does_or E (stands R (a ++ y :: b)) (pop_while go) (fun _ => stands R (y :: b)).
Proof.
  intros Ha Hy t (X & s & l & Hok & Hs).
  apply map_split in Hs as (sa & c & sb & -> & <- & <- & <-).
  apply (wp_pop_while _ _ _ _ _ _ _ _ _ _ Hok); [by apply Forall_map in Ha|done|].
  intros l' t' _ Hok'. by eapply stands_ok.
Qed.

Lemma does_pop_down E R a b : b <> [] -> does_or E (stands R (a ++ b)) (pop_down (zlen b)) (fun _ => stands R b).
Proof.
  intros Hb t (X & s & l & Hok & Hs). apply map_eq_app in Hs as (sa & sb & -> & <- & <-).
  rewrite <-(types_zlen sb _ eq_refl).
  apply (wp_pop_down _ _ _ _ _ _ _ _ Hok); [by destruct sb|]. intros l' t' _ Hok'. by eapply stands_ok.
Qed.

Lemma does_clear E R ts :
  does_or E (stands R ts) clear_active_formatting_list_to_marker (fun _ => stands R ts).
Proof. intros t (X & s & l & Hok & Hs). apply (wp_clear_ok _ _ _ _ _ _ _ Hok). intros. by eapply stands_ok. Qed.

Lemma does_in_scope E R type in_table ts :
  does_or E (stands R ts) (in_scope type in_table)
    (fun b t => b = negb (tscope type in_table ts =? 0) /\ stands R ts t).
Proof.
  intros t (X & s & l & Hok & <-).
  apply (wp_in_scope _ _ _ _ _ _ _ _ _ (ok_st _ _ _ _ _ Hok) (ok_cells _ _ _ _ _ Hok)).
  rewrite scope_types. split; [done|by eapply stands_ok].
Qed.

Lemma does_stack_type E R a y b :
  does_or E (stands R (a ++ y :: b)) (stack_type (zlen b)) (fun y' t => y' = y /\ stands R (a ++ y :: b) t).
Proof.
  intros t (X & s & l & Hok & Hs). pose proof (stands_ok _ _ _ _ _ _ Hok Hs) as Ht.
  apply map_split in Hs as (sa & c & sb & -> & <- & <- & <-).
  rewrite <-(types_zlen sb _ eq_refl).
  eapply (wp_stack_type (ok_st _ _ _ _ _ Hok)); [apply at_index_mid|eapply cells_in, ok_cells, Hok|done].
Qed.

Lemma does_top_index E R ts :
  does_or E (stands R ts) top_index (fun n t => n = zlen ts - 1 /\ stands R ts t).
Proof.
  intros t (X & s & l & Hok & Hs). apply (wp_top_index (ok_st _ _ _ _ _ Hok)).
  rewrite (types_zlen _ _ Hs). split; [done|by eapply stands_ok].
Qed.

Lemma does_set_mode E m R ts : does_or E (stands R ts) (set_mode m) (fun _ => stands (rv_set_mode m R) ts).
Proof.
  intros t (X & s & l & [Hst Hi] & Hs). apply (wp_set_mode Hst). intros t' Hst'.
  eapply stands_ok; [by split|done].
Qed.

Lemma stands_mode R ts t : stands R ts t -> tc_mode (tb_context t) = rv_mode R.
Proof. intros (X & s & l & [[<- _ _ _] _] & _). done. Qed.

(** Inserting and pushing an element, from a state whose stack grows. *)
Lemma wp_push_element tag R X s l t (Q E : hubbub_error -> T -> Prop) :
  ok R X s l t -> tag_ns tag = HUBBUB_NS_HTML ->
  (forall X' s' n t', X ⊆ X' -> alike s s' -> (n ∉ X) -> (n ∈ X') ->
     ok R X' (new_cell HUBBUB_NS_HTML (element_type_from_name (tag_name tag)) n :: s') l t' -> Q HUBBUB_OK t') ->
  (forall e X' s' t', e <> HUBBUB_OK -> client_error e -> X ⊆ X' -> alike s s' -> ok R X' s' l t' -> E e t') ->
  wp (insert_element alloc_ok tag true) Q E t.
Proof.
  intros [Hst Hi] Hns HQ HE. apply (wp_insert_element alloc_ok Hlimit _ _ _ _ _ _ _ _ _ Hst (iv_cells _ _ _ Hi)).
  - intros e t' (N & He & X' & s' & HX & Ha & Hst'). apply (HE e X' s'); try done. by eapply ok_grow.
  - intros s' n t' Ha Hn Hst'. apply (HQ (n :: X) s' n); [intros k Hk; by right|done|done|by left|].
    unfold tag_cell in Hst'. rewrite Hns in Hst'. split; [done|].
    pose proof (inv_insert X tag n s s' l Hi Ha Hn Hns) as H. unfold tag_cell in H. by rewrite Hns in H.
Qed.

Definition pushed R (y : element_type) ts (e : hubbub_error) (t : T) : Prop :=
  if bool_decide (e = HUBBUB_OK) then stands R (y :: ts) t else client_error e /\ stands R ts t.

Lemma does_insert_softly tag R ts t : tag_ns tag = HUBBUB_NS_HTML -> stands R ts t ->
  wp (insert_element alloc_ok tag true) (pushed R (element_type_from_name (tag_name tag)) ts)
    (pushed R (element_type_from_name (tag_name tag)) ts) t.
Proof.
  intros Hns (X & s & l & Hok & <-). apply (wp_push_element _ _ _ _ _ _ _ _ Hok Hns); unfold pushed.
  - intros X' s' n t' HX Ha Hn _ Hok'. rewrite bool_decide_true by done.
    eapply stands_ok; [done|]. cbn. by rewrite (alike_types _ _ Ha).
  - intros e X' s' t' N He HX Ha Hok'. rewrite bool_decide_false by done. split; [done|].
    eapply stands_ok; [done|]. by rewrite (alike_types _ _ Ha).
Qed.

Lemma does_insert tag R ts : tag_ns tag = HUBBUB_NS_HTML ->
  does (stands R ts) (insert_element alloc_ok tag true)
    (result (stands R (element_type_from_name (tag_name tag) :: ts))).
Proof.
  intros Hns t (X & s & l & Hok & <-). apply (wp_push_element _ _ _ _ _ _ _ _ Hok Hns).
  - intros X' s' n t' HX Ha Hn _ Hok'. eapply stands_ok; [done|]. cbn. by rewrite (alike_types _ _ Ha).
  - intros e X' s' t' N He HX Ha Hok'. by eapply ok_fails.
Qed.

(** ** Formatting *)

Definition formatting_on R ts t : Prop :=
  exists k, Forall (fun y => is_formatting_element y = true) k /\ stands R (k ++ ts) t.

Lemma does_reconstruct R ts :
  does (stands R ts) (reconstruct_active_formatting_list alloc_ok) (result (formatting_on R ts)).
Proof.
  intros t (X & s & l & Hok & <-). eapply (wp_reconstruct alloc_ok Hlimit); [exact Hok|by apply fails_result|].
  intros X' x y k s' t' HX Ha -> Hx Hy Hk Hok'. exists (map ty k). split.
  - apply Forall_map. eapply reopened_formatting; [done|done|].
    pose proof (iv_types _ _ _ (ok_inv _ _ _ _ _ Hok)) as Ht. rewrite fmap_app in Ht. by apply Forall_app in Ht as [].
  - eapply stands_ok; [done|]. by rewrite map_app, (alike_types _ _ Ha).
Qed.

Lemma does_adoption (P : element_type -> Prop) type R pre u :
  P type -> u <> [] -> tscope type false u = 0 -> Forall P pre ->
  does (stands R (pre ++ u)) (process_0presentational_in_body malloc type)
    (result (fun t => exists pre', Forall P pre' /\ stands R (pre' ++ u) t)).
Proof.
  intros HP Hu Hs Hpre t (X & s & l & Hok & Es). apply map_eq_app in Es as (sp & su & -> & <- & <-).
  apply (wp_adoption malloc Hmalloc P type HP _ _ _ _ _ _ _ _ Hok); [by destruct su|by rewrite scope_types| | |].
  - done.
  - intros _. exists (map ty sp). split; [done|]. eapply stands_ok; [done|]. apply map_app.
  - intros t' (X' & sp' & su' & l' & HX & Ha & Hk & Hok' & _). exists (map ty sp'). split.
    + apply Forall_map. apply (kept_types _ _ _ _ Hk). apply Forall_map. exact Hpre.
    + eapply stands_ok; [done|]. by rewrite map_app, (alike_types _ _ Ha).
Qed.
End Flow.

(** * The stacks of open elements that go with the insertion modes.

    A stack is a list of types, the current node first.  Most elements are
    [plain]; the others mark out a document: [base m u] says that [u] is what
    insertion mode [m] stands on, from the body outwards through nested
    tables. *)

Local Open Scope Z_scope.

Definition structural : list element_type :=
  [ET.HTML; ET.HEAD; ET.BODY; ET.FRAMESET; ET.TABLE; ET.TBODY; ET.TFOOT; ET.THEAD; ET.TR; ET.TD; ET.TH;
   ET.COLGROUP; ET.CAPTION; ET.SELECT].
Definition plain (type : element_type) : Prop := one_of type structural = false.

#[export] Instance plain_dec type : Decision (plain type).
Proof. unfold plain. apply _. Defined.

Inductive base : insertion_mode -> list element_type -> Prop :=
  | base_body : base IN_BODY [ET.BODY; ET.HTML]
  | base_table m pre v : Forall plain pre -> base m v -> m = IN_BODY \/ m = IN_CELL ->
      base IN_TABLE (ET.TABLE :: pre ++ v)
  | base_group g v : one_of g [ET.TBODY; ET.TFOOT; ET.THEAD] = true -> base IN_TABLE v ->
      base IN_TABLE_BODY (g :: v)
  | base_row v : base IN_TABLE_BODY v -> base IN_ROW (ET.TR :: v)
  | base_cell c v : one_of c [ET.TD; ET.TH] = true -> base IN_ROW v -> base IN_CELL (c :: v).

(** What the code of the body relies on below the plain elements. *)
Definition floors : list element_type :=
  [ET.BODY; ET.TABLE; ET.TBODY; ET.TFOOT; ET.THEAD; ET.TR; ET.TD; ET.TH].
Definition walled (u : list element_type) : Prop :=
  (exists y v, u = y :: v /\ v <> [] /\ one_of y floors = true) /\
  forall type, plain type -> tscope type false u = 0.

Lemma plain_not type y : plain type -> one_of y structural = true -> y <> type.
Proof. unfold plain. intros H1 H2 ->. congruence. Qed.

Lemma one_of_cases y l : one_of y l = true -> In y l.
Proof. apply one_of_In. Qed.

Lemma one_of_false y l : one_of y l = false <-> ~ In y l.
Proof. rewrite <-one_of_In. by destruct (one_of y l). Qed.

(** [destruct] a membership in a list of types. *)
Ltac types H :=
  apply one_of_cases in H; cbn [In] in H; repeat destruct H as [H|H]; try (rewrite <-H; done); subst; try done.

Lemma base_some m u : base m u -> u <> [].
Proof. by destruct 1. Qed.

Lemma tscope_wall type y ts :
  ts <> [] -> plain type -> one_of y structural = true -> open_scope false y = false ->
  tscope type false (y :: ts) = 0.
Proof.
  intros Hts Hp Hy Ho. rewrite tscope_cons by done. rewrite Ho.
  destruct (type_eqb_spec y type) as [E|_]; [by apply (plain_not type y Hp Hy) in E|done].
Qed.

Lemma tscope_through type y ts :
  ts <> [] -> plain type -> one_of y structural = true -> open_scope false y = true ->
  tscope type false (y :: ts) = tscope type false ts.
Proof.
  intros Hts Hp Hy Ho. rewrite tscope_cons by done. rewrite Ho.
  destruct (type_eqb_spec y type) as [E|_]; [by apply (plain_not type y Hp Hy) in E|done].
Qed.

Lemma base_walled m u : base m u -> walled u.
Proof.
  intros Hb. split.
  { destruct Hb as [|m pre v Hp Hb Hm|g v Hg Hb|v Hb|c v Hc Hb]; eexists _, _; split_and!; try done;
      try (by eapply base_some).
    - intros [_ ->]%List.app_eq_nil. by apply base_some in Hb.
    - by types Hg.
    - by types Hc. }
  intros type Hp.
  induction Hb as [|m pre v Hpre Hb IH Hm|g v Hg Hb IH|v Hb IH|c v Hc Hb IH].
  - by rewrite tscope_through.
  - apply tscope_wall; [|done..]. intros [_ ->]%List.app_eq_nil. by apply base_some in Hb.
  - types Hg; rewrite tscope_through; done || by apply base_some in Hb.
  - rewrite tscope_through; done || by apply base_some in Hb.
  - types Hc; apply tscope_wall; done || by apply base_some in Hb.
Qed.

(** Below the rows and groups there is a table. *)
Definition of_table (m : insertion_mode) : Prop := m = IN_TABLE \/ m = IN_TABLE_BODY \/ m = IN_ROW.

Lemma base_in_table m u : base m u -> of_table m ->
  exists a pre v m', u = a ++ ET.TABLE :: pre ++ v /\ Forall (fun y => y <> ET.TABLE) a /\
    Forall plain pre /\ base m' v /\ (m' = IN_BODY \/ m' = IN_CELL) /\
    (m = IN_TABLE -> a = []).
Proof.
  induction 1 as [|m pre v Hpre Hb IH Hm|g v Hg Hb IH|v Hb IH|c v Hc Hb IH]; intros Ht;
    try (by destruct Ht as [|[|]]).
  - by exists [], pre, v, m.
  - destruct IH as (a & pre & v' & m' & -> & Ha & ?); [by left|]. exists (g :: a), pre, v', m'.
    split_and!; try tauto; [|done]. constructor; [|done]. by intros ->.
  - destruct IH as (a & pre & v' & m' & -> & Ha & ?); [by right; left|]. exists (ET.TR :: a), pre, v', m'.
    split_and!; try tauto; [|done]. by constructor.
Qed.

(** The first element that a test finds. *)
Lemma first_split (p : element_type -> bool) y ts : y ∈ ts -> p y = true ->
  exists a y' b, ts = a ++ y' :: b /\ Forall (fun y => p y = false) a /\ p y' = true.
Proof.
  induction ts as [|x ts IH]; [by intros ?%elem_of_nil|]. intros Hy Hp. destruct (p x) eqn:Hx.
  - by exists [], x, ts.
  - apply elem_of_cons in Hy as [->|Hy]; [congruence|]. destruct (IH Hy Hp) as (a & y' & b & -> & ? & ?).
    exists (x :: a), y', b. split_and!; [done|by constructor|done].
Qed.

(** The place of a split of two lists put together. *)
Lemma app_split {A} (a b pre u : list A) y :
  a ++ y :: b = pre ++ u ->
  (exists b1, pre = a ++ y :: b1 /\ b = b1 ++ u) \/ (exists a2, a = pre ++ a2 /\ u = a2 ++ y :: b).
Proof.
  revert pre. induction a as [|x a IH]; intros [|z pre] E; cbn in E.
  - right. by exists [].
  - injection E as <- ->. left. by exists pre.
  - right. exists (x :: a). by rewrite <-E.
  - injection E as <- E. destruct (IH pre E) as [(b1 & -> & ->)|(a2 & -> & ->)]; [left|right]; eauto.
Qed.

(** A plain element can be taken out from among the others. *)
Lemma base_remove m a y b : base m (a ++ y :: b) -> plain y -> base m (a ++ b).
Proof.
  intros Hb Hy. remember (a ++ y :: b) as w eqn:E. revert a E.
  induction Hb as [|m pre v Hpre Hb IH Hm|g v Hg Hb IH|v Hb IH|c v Hc Hb IH]; intros a E.
  - exfalso. destruct a as [|z a]; injection E as <- E; [done|].
    destruct a as [|z a]; injection E as <- E; [done|]. by destruct a.
  - destruct a as [|z a]; injection E as <- E; [done|]. cbn [app].
    symmetry in E. apply app_split in E as [(b1 & -> & ->)|(a2 & -> & E)].
    + rewrite (assoc_L (++)). econstructor; [|done|done]. apply Forall_app in Hpre as [? [_ ?]%Forall_cons].
      by apply Forall_app.
    + rewrite <-(assoc_L (++)). econstructor; [done|by apply IH|done].
  - destruct a as [|z a]; injection E as <- E; [by types Hg|]. constructor; [done|by apply IH].
  - destruct a as [|z a]; injection E as <- E; [done|]. constructor. by apply IH.
  - destruct a as [|z a]; injection E as <- E; [by types Hc|]. constructor; [done|by apply IH].
Qed.

(** The body is at the bottom of every base. *)
Lemma base_bottom m u : base m u -> exists w, u = w ++ [ET.BODY; ET.HTML] /\ Forall (fun y => y <> ET.BODY) w.
Proof.
  induction 1 as [|m pre v Hpre Hb IH Hm|g v Hg Hb IH|v Hb IH|c v Hc Hb IH].
  - by exists [].
  - destruct IH as (w & -> & Hw). exists (ET.TABLE :: pre ++ w). split; [cbn; by rewrite (assoc_L (++))|].
    constructor; [done|]. apply Forall_app. split; [|done]. eapply Forall_impl; [exact Hpre|]. by intros y Hy ->.
  - destruct IH as (w & -> & Hw). exists (g :: w). split; [done|]. constructor; [by types Hg|done].
  - destruct IH as (w & -> & Hw). exists (ET.TR :: w). split; [done|]. by constructor.
  - destruct IH as (w & -> & Hw). exists (c :: w). split; [done|]. constructor; [by types Hc|done].
Qed.
