(* ===== verification/TreeInBody.v ===== *)
(** * TreeInBody: the "in body" insertion mode, step by step.

    [body R u]: plain elements are open on top of [u].  The functions of
    TreeBody.v keep that, whatever [u] is, as long as no search for a plain
    element goes past its head. *)
From Stdlib Require Ascii String.
From S2P Require Import Prelude.
From S2P Require Import Errors.
From S2P Require Import Detect.
From S2P Require Import Tokens.
From S2P Require Import TokeniserState.
From S2P Require Import TokeniserMonad.
From S2P Require Import TokeniserWp.
From S2P Require Import ElementType.
From S2P Require Import TreeState.
From S2P Require Import TreeRepr.
From S2P Require Import TreeStack.
From S2P Require Import TreeAdoption.
From S2P Require Import TreeBody.
From S2P Require Import TreeRules.
From S2P Require Import TreeInv.
From S2P Require Import TreeSteps.
From S2P Require Import TreePops.
From S2P Require Import TreeRounds.
From S2P Require Import TreeFlow.
From stdpp Require Import gmap.
Import String.StringSyntax.
Local Open Scope string_scope.
Local Open Scope Z_scope.

(** The elements whose end tags are implied, but for one. *)
Definition is_implied (except type : element_type) : bool :=
  one_of type [ET.DD; ET.DT; ET.LI; ET.OPTION; ET.OPTGROUP; ET.P; ET.RP; ET.RT] &&
  negb (negb (type_eqb except ET.UNKNOWN) && type_eqb type except).

Section InBody.
Context {W : Type} `{!TreeHandler W} `{!TreeHandlerLaws W}.
Local Abbreviation T := (hubbub_treebuilder W).
Local Abbreviation M := (comp (hubbub_treebuilder W)).
Context (malloc : nat -> gmap Z formatting_list_entry -> option Z) (Hmalloc : malloc_fresh malloc).
Context (alloc_ok : nat -> Z -> bool) (Hlimit : alloc_limit alloc_ok).

Local Abbreviation does := (does_or fails).

Definition body R u (t : T) : Prop := exists pre, Forall plain pre /\ stands R (pre ++ u) t.
(** The same with an element of [type] among those that are plain. *)
Definition inside (type : element_type) R u (t : T) : Prop :=
  exists pre, Forall plain pre /\ type ∈ pre /\ stands R (pre ++ u) t.

Lemma body_growing R u : growing (body R u).
Proof.
  intros t (pre & Hp & Ht). destruct (stands_growing _ _ _ Ht) as (R' & X & s & l & Hok & Hg).
  exists R', X, s, l. split; [done|]. intros. exists pre. split; [done|by eapply Hg].
Qed.

Lemma inside_body type R u t : inside type R u t -> body R u t.
Proof. intros (pre & ? & _ & ?). by exists pre. Qed.

Lemma formatting_plain y : is_formatting_element y = true -> plain y.
Proof. by destruct y. Qed.

Context (R : rest_view) (u : list element_type) (Hu : walled u).
Local Abbreviation B := (body R u).

Lemma wall_some : u <> [].
Proof. by destruct Hu as [(y & v & -> & _) _]. Qed.

Lemma stands_body pre : Forall plain pre -> forall t, stands R (pre ++ u) t -> B t.
Proof. intros ? ? ?. by exists pre. Qed.

Lemma keeps_reconstruct : does B (reconstruct_active_formatting_list alloc_ok) (result B).
Proof.
  apply does_exists. intros pre. apply does_and. intros Hp.
  eapply does_weaken; [by apply does_reconstruct|done|]. intros e t. cbn. destruct e; try done.
  intros (k & Hk & Ht). exists (k ++ pre). split; [|by rewrite <-(assoc_L (++))].
  apply Forall_app. split; [|done]. eapply Forall_impl; [exact Hk|]. apply formatting_plain.
Qed.

Lemma keeps_insert tag : tag_ns tag = HUBBUB_NS_HTML -> plain (element_type_from_name (tag_name tag)) ->
  does B (insert_element alloc_ok tag true) (result B).
Proof.
  intros Hns Hy. apply does_exists. intros pre. apply does_and. intros Hp.
  eapply does_weaken; [by apply does_insert|done|]. intros e t. cbn. destruct e; try done.
  intros Ht. exists (element_type_from_name (tag_name tag) :: pre). split; [by constructor|done].
Qed.

(** ** Scope *)

Lemma tscope_plain type pre : plain type -> tscope type false (pre ++ u) <> 0 -> type ∈ pre.
Proof.
  intros Hy Hs. apply tscope_some in Hs as (a & b & E & Hb & _ & Ha & Ho). symmetry in E.
  apply app_split in E as [(b1 & -> & ->)|(a2 & -> & E)].
  - apply elem_of_app. right. by left.
  - exfalso. destruct Hu as [_ Hu']. specialize (Hu' type Hy). apply Forall_app in Ho as [_ Ho].
    apply not_elem_of_app in Ha as [_ Ha]. rewrite E in Hu'. clear E Hu. pose proof Hb as Hz%zlen_positive.
    induction a2 as [|y a2 IH]; cbn [app] in Hu'.
    + rewrite tscope_cons in Hu' by done. destruct (type_eqb_spec type type); [lia|done].
    + apply not_elem_of_cons in Ha as [N Ha]. apply Forall_cons in Ho as [Hoy Ho].
      rewrite tscope_cons in Hu' by (by destruct a2). rewrite Hoy in Hu'.
      destruct (type_eqb_spec y type); [congruence|]. by apply IH.
Qed.

Lemma does_if_scope {A} E type (k : bool -> M A) Q : plain type ->
  does_or E B (k false) Q -> does_or E (inside type R u) (k true) Q ->
  does_or E B (let! b := in_scope type false in k b) Q.
Proof.
  intros Hy Hf Ht. apply does_exists. intros pre. apply does_and. intros Hp.
  eapply does_bind; [apply does_in_scope|]. intros b. apply does_and. intros ->.
  destruct (Z.eqb_spec (tscope type false (pre ++ u)) 0) as [Es|N]; cbn [negb].
  - eapply does_weaken; [exact Hf| |done]. intros t ?. by exists pre.
  - eapply does_weaken; [exact Ht| |done]. intros t ?. exists pre. split_and!; try done. by apply tscope_plain.
Qed.

(** ** Popping *)

(** A split of the stack at the first element that a test finds. *)
Lemma split_pop (p : element_type -> bool) type pre : type ∈ pre -> p type = true -> Forall plain pre ->
  exists a y b, pre ++ u = a ++ y :: b ++ u /\ Forall (fun y => p y = false) a /\ p y = true /\ Forall plain b.
Proof.
  intros Hin Hy Hp. destruct (first_split p type pre Hin Hy) as (a & y & b & -> & Ha & Hpy).
  exists a, y, b. split_and!; [by rewrite <-(assoc_L (++))|done|done|].
  apply Forall_app in Hp as [_ [_ ?]%Forall_cons]. done.
Qed.

Lemma inside_pop_until E stop type : stop type = true -> does_or E (inside type R u) (pop_until stop) (fun _ => B).
Proof.
  intros Hs t (pre & Hp & Hin & Ht).
  destruct (split_pop stop type pre Hin Hs Hp) as (a & y & b & Ez & Ha & Hy & Hb). rewrite Ez in Ht. generalize t Ht. clear t Ht.
  eapply does_weaken; [apply does_pop_until; [|done|done]|done|]; [intros [_ ?]%List.app_eq_nil; by apply wall_some|].
  intros [] t Ht. by exists b.
Qed.

Lemma inside_implied E except type : is_implied except type = false ->
  does_or E (inside type R u) (close_implied_end_tags except) (fun _ => inside type R u).
Proof.
  intros Hi t (pre & Hp & Hin & Ht).
  destruct (first_split (fun y => negb (is_implied except y)) type pre Hin) as (a & y & b & -> & Ha & Hy);
    [by rewrite Hi|].
  rewrite <-(assoc_L (++)) in Ht. cbn [app] in Ht. generalize t Ht. clear t Ht.
  eapply does_weaken; [apply (does_pop_while E R (is_implied except) a y (b ++ u))|done|].
  - eapply Forall_impl; [exact Ha|]. cbn. intros z. by destruct (is_implied except z).
  - cbn in Hy. by destruct (is_implied except y).
  - intros [] t Ht. exists (y :: b). split_and!; [by apply Forall_app in Hp as []| |done].
    apply elem_of_app in Hin as [Hin|Hin]; [|done]. rewrite Forall_forall in Ha. specialize (Ha type Hin).
    cbn in Ha. by rewrite Hi in Ha.
Qed.

(** ** Paragraphs and containers *)

(** Popping p elements: whether there was one. *)
Lemma pop_p_loop_keeps E fuel : forall pre popped, Forall plain pre -> (length pre < fuel)%nat ->
  does_or E (stands R (pre ++ u)) (pop_p_loop fuel popped)
    (fun b t => B t /\ (b = false -> popped = false /\ tscope ET.P false (pre ++ u) = 0 /\ stands R (pre ++ u) t)).
Proof.
  induction fuel as [|fuel IH]; intros pre popped Hp Hf; [lia|]. cbn [pop_p_loop].
  eapply does_bind; [apply does_in_scope|]. intros b. apply does_and. intros ->.
  destruct (Z.eqb_spec (tscope ET.P false (pre ++ u)) 0) as [Es|N]; cbn [negb].
  - apply does_ret. intros t Ht. split; [by exists pre|done].
  - pose proof (tscope_plain ET.P pre eq_refl N) as Hin. destruct pre as [|y pre]; [by apply elem_of_nil in Hin|].
    apply Forall_cons in Hp as [_ Hp]. eapply does_bind.
    + apply does_pop. intros [_ ?]%List.app_eq_nil. by apply wall_some.
    + intros y'. apply does_and. intros _. eapply does_weaken; [apply (IH pre true Hp)|done|].
      * cbn in Hf. lia.
      * intros b t [Ht Hb]. split; [done|]. intros Eb. by destruct (Hb Eb).
Qed.

Lemma pop_p_fuel_keeps E pre popped n : Forall plain pre -> n = zlen (pre ++ u) - 1 ->
  does_or E (stands R (pre ++ u)) (pop_p_loop (S (Z.to_nat n)) popped)
    (fun b t => B t /\ (b = false -> popped = false /\ tscope ET.P false (pre ++ u) = 0 /\ stands R (pre ++ u) t)).
Proof.
  intros Hp ->. apply pop_p_loop_keeps; [done|].
  assert (length u <> 0)%nat by (intros ?%nil_length_inv; by apply wall_some).
  unfold zlen. rewrite length_app. lia.
Qed.

(** A p element is open: it is closed. *)
Lemma close_p_open E fuel pre : Forall plain pre -> tscope ET.P false (pre ++ u) <> 0 ->
  does_or E (stands R (pre ++ u)) (close_p alloc_ok (S fuel)) (fun e t => e = HUBBUB_OK /\ B t).
Proof.
  intros Hp N. cbn [close_p]. eapply does_bind; [apply does_top_index|]. intros n. apply does_and. intros Hn.
  eapply does_bind; [by apply pop_p_fuel_keeps|]. intros [] t [Ht Hb]; [by apply wp_ret|].
  by destruct (Hb eq_refl) as (_ & ? & _).
Qed.

(** A call that must succeed. *)
Definition surely (B' : T -> Prop) (m : M hubbub_error) (C : T -> Prop) : Prop :=
  does_or (fun _ _ => False) B' m (fun e t => e = HUBBUB_OK /\ C t).

Lemma does_assert_ok E B' m C : surely B' m C -> does_or E B' (assert_ok m) (fun _ => C).
Proof.
  intros H t Ht. apply wp_bind, wp_call. eapply wp_mono; [by apply H| |done].
  intros e t' [-> HC]. by apply wp_assert.
Qed.

Lemma surely_does B' m C : surely B' m C -> does B' m (result C).
Proof. intros H t Ht. eapply wp_mono; [by apply H| |done]. by intros e t' [-> HC]. Qed.

Lemma surely_ret C : surely C (ret HUBBUB_OK) C.
Proof. by apply does_ret. Qed.

Lemma keeps_0p : does B (process_0p_in_body alloc_ok) (result B).
Proof.
  apply does_exists. intros pre. apply does_and. intros Hp. unfold process_0p_in_body. cbn [close_p].
  eapply does_bind; [apply does_top_index|]. intros n. apply does_and. intros Hn.
  eapply does_bind; [by apply pop_p_fuel_keeps|]. intros b.
  destruct b; [apply does_ret; by intros t [Ht _]|].
  intros t [_ Hb]. destruct (Hb eq_refl) as (_ & Hs & Ht). generalize t Ht. clear t Ht Hb.
  change (does (stands R (pre ++ u)) (do! check_call (container_with alloc_ok (close_p alloc_ok 1)
    (made_tag (chars "p") [])) in do! assert_ok (close_p alloc_ok 1) in ret HUBBUB_OK) (result B)).
  eapply (does_check_call _ (stands R (ET.P :: pre ++ u))).
  - unfold container_with. eapply does_bind; [apply does_in_scope|]. intros b. apply does_and. intros ->.
    rewrite Hs. cbn [negb Z.eqb]. eapply does_then; [by apply does_ret|].
    eapply does_weaken; [by apply does_insert|done|]. by intros e t.
  - eapply does_then; [|apply does_ok].
    eapply does_assert_ok, (does_weaken _ (stands R ((ET.P :: pre) ++ u))); [apply close_p_open|done|done].
    + by constructor.
    + cbn [app]. rewrite tscope_cons by (intros [_ ?]%List.app_eq_nil; by apply wall_some).
      destruct (type_eqb_spec ET.P ET.P); [|done]. rewrite zlen_app. pose proof (zlen_nonneg pre).
      pose proof (zlen_positive u wall_some). lia.
Qed.

Lemma keeps_close_p : does B (close_p_if_open alloc_ok) (fun _ => B).
Proof.
  apply does_if_scope; [done|by apply does_ret|].
  eapply does_weaken; [apply does_checked, keeps_0p|by apply inside_body|done].
Qed.

Lemma keeps_container tag : tag_ns tag = HUBBUB_NS_HTML -> plain (element_type_from_name (tag_name tag)) ->
  does B (process_container_in_body alloc_ok tag) (result B).
Proof.
  intros Hns Hy. apply does_if_scope; [done|..].
  - by apply does_skip, keeps_insert.
  - eapply does_then; [|by apply keeps_insert].
    eapply does_weaken; [apply does_checked, keeps_0p|by apply inside_body|done].
Qed.

(** ** Headings, forms and list items *)

Lemma does_if_current {A} E (k : element_type -> M A) Q :
  (forall y pre, plain y -> Forall plain pre -> does_or E (stands R (y :: pre ++ u)) (k y) Q) ->
  (forall y, one_of y floors = true -> does_or E (stands R u) (k y) Q) ->
  does_or E B (let! y := current_node in k y) Q.
Proof.
  intros Hp Hk. apply does_exists. intros pre. apply does_and. intros Hpre.
  destruct pre as [|y pre].
  - destruct Hu as [(y & v & Eu & _ & Hy) _]. cbn [app]. rewrite Eu.
    eapply does_bind; [apply does_current|]. intros y'. apply does_and. intros ->. rewrite <-Eu. by apply Hk.
  - apply Forall_cons in Hpre as [? ?]. eapply does_bind; [apply does_current|].
    intros y'. apply does_and. intros ->. by apply Hp.
Qed.

Lemma does_pop_top E y pre : Forall plain pre ->
  does_or E (stands R (y :: pre ++ u)) (let! _ := pop_unref in ret tt) (fun _ => B).
Proof.
  intros Hp. eapply does_bind.
  - apply does_pop. intros [_ ?]%List.app_eq_nil. by apply wall_some.
  - intros y'. apply does_and. intros _. apply does_ret. intros t Ht. by exists pre.
Qed.

Lemma keeps_hN tag : tag_ns tag = HUBBUB_NS_HTML -> plain (element_type_from_name (tag_name tag)) ->
  does B (process_hN_in_body alloc_ok tag) (result B).
Proof.
  intros Hns Hy. eapply does_then; [apply keeps_close_p|]. apply does_if_current.
  - intros y pre Hyp Hp. destruct (is_heading y); (eapply does_then; [|by apply keeps_insert]).
    + by apply does_pop_top.
    + apply does_ret. intros t Ht. by apply (stands_body (y :: pre)); [constructor|].
  - intros y Hyf. replace (is_heading y) with false by (by types Hyf).
    eapply does_then; [|by apply keeps_insert]. apply does_ret. by apply (stands_body []); constructor.
Qed.

Lemma keeps_neutral E m : neutral m -> does_or E B m (fun _ => B).
Proof. apply does_neutral, body_growing. Qed.

Lemma keeps_form tag : tag_ns tag = HUBBUB_NS_HTML -> plain (element_type_from_name (tag_name tag)) ->
  does B (process_form_in_body alloc_ok tag) (result B).
Proof.
  intros Hns Hy. apply does_ctx. intros form. destruct (negb _); [apply does_ok|].
  eapply does_then; [apply keeps_close_p|]. eapply does_check_call; [by apply keeps_insert|].
  apply does_looks; [apply looks_top, body_growing|]. intros node.
  eapply does_then; [apply keeps_neutral, neutral_ref|].
  eapply does_then; [apply keeps_neutral, neutral_form|]. apply does_ok.
Qed.

(** The search for a list item stops at a plain element or at the first of [u]. *)
Lemma list_item_keeps E type : forall pre a,
  does_or E (stands R (a ++ pre ++ u)) (list_item_loop (pred (length (pre ++ u))) type)
    (fun n t => stands R (a ++ pre ++ u) t /\
       ((exists a' y b, pre = a' ++ y :: b /\ n = zlen (b ++ u)) \/ exists y v, u = y :: v /\ n = zlen v)).
Proof.
  destruct Hu as [(y0 & v & Eu & Hv & Hy0) _].
  induction pre as [|y pre IH]; intros a; cbn [app length pred].
  - rewrite Eu. cbn [length pred]. destruct (length v) as [|n] eqn:Hl; [by apply nil_length_inv in Hl|].
    cbn [list_item_loop]. replace (Z.of_nat (S n)) with (zlen v) by (unfold zlen; lia).
    eapply does_bind; [apply does_stack_type|]. intros y'. apply does_and. intros ->.
    assert (H : does_or E (stands R (a ++ y0 :: v)) (ret (zlen v) : M Z)
      (fun n t => stands R (a ++ y0 :: v) t /\ ((exists a' y b, [] = a' ++ y :: b /\ n = zlen (b ++ y0 :: v)) \/
         exists y v', y0 :: v = y :: v' /\ n = zlen v'))).
    { apply does_ret. intros t Ht. split; [done|]. right. by exists y0, v. }
    destruct (_ && _); [exact H|]. destruct (_ && _); [exact H|].
    replace (negb _ && _ && _ && _) with true by (by types Hy0). exact H.
  - assert (Hn : exists n, length (pre ++ u) = S n).
    { rewrite Eu, length_app. cbn. exists (length pre + length v)%nat. lia. }
    destruct Hn as [n Hn]. rewrite Hn. cbn [list_item_loop].
    replace (Z.of_nat (S n)) with (zlen (pre ++ u)) by (unfold zlen; lia).
    eapply does_bind; [apply does_stack_type|]. intros y'. apply does_and. intros ->.
    assert (H : does_or E (stands R (a ++ y :: pre ++ u)) (ret (zlen (pre ++ u)) : M Z)
      (fun n t => stands R (a ++ y :: pre ++ u) t /\
         ((exists a' y' b, y :: pre = a' ++ y' :: b /\ n = zlen (b ++ u)) \/ exists y v, u = y :: v /\ n = zlen v))).
    { apply does_ret. intros t Ht. split; [done|]. left. by exists [], y, pre. }
    destruct (_ && _); [done|]. destruct (_ && _); [done|]. destruct (_ && _ && _ && _); [done|].
    replace n with (pred (length (pre ++ u))) by lia.
    eapply does_weaken; [apply (IH (a ++ [y]))|by rewrite <-(assoc_L (++))|].
    intros m t [Ht Hm]. rewrite <-(assoc_L (++)) in Ht. split; [done|].
    destruct Hm as [(a' & y' & b & -> & ->)|Hm]; [left|by right]. by exists (y :: a'), y', b.
Qed.

Lemma pop_down_keeps E a pre : Forall plain pre ->
  does_or E (stands R (a ++ pre ++ u)) (pop_down (zlen (pre ++ u))) (fun _ => B).
Proof.
  intros Hp. eapply does_weaken; [apply does_pop_down|done|].
  - intros [_ ?]%List.app_eq_nil. by apply wall_some.
  - intros [] t Ht. by apply (stands_body pre).
Qed.

Lemma keeps_list_item tag type : tag_ns tag = HUBBUB_NS_HTML -> plain (element_type_from_name (tag_name tag)) ->
  does B (process_dd_dt_li_in_body alloc_ok tag type) (result B).
Proof.
  intros Hns Hy. eapply does_then; [apply keeps_neutral, neutral_frameset_ok|].
  eapply does_then; [apply keeps_close_p|].
  apply does_exists. intros pre. apply does_and. intros Hp.
  eapply does_bind; [apply does_top_index|]. intros n. apply does_and. intros ->.
  replace (Z.to_nat (zlen (pre ++ u) - 1)) with (pred (length (pre ++ u))) by (unfold zlen; lia).
  eapply does_bind; [apply (list_item_keeps _ type pre [])|]. intros n t [Ht Hn]. generalize t Ht. clear t Ht.
  change (does (stands R (pre ++ u)) (let! ntype := stack_type n in
    do! (if one_of ntype [ET.LI; ET.DD; ET.DT] then let! _ := pop_unref in pop_down n else ret tt) in
    insert_element alloc_ok tag true) (result B)).
  destruct Hn as [(a & y & b & -> & ->)|(y & v & Eu & ->)].
  - rewrite <-(assoc_L (++)). cbn [app]. eapply does_bind; [apply does_stack_type|].
    intros y'. apply does_and. intros ->. eapply does_then; [|by apply keeps_insert].
    pose proof Hp as [_ [_ Hb]%Forall_cons]%Forall_app.
    destruct (one_of y _).
    + assert (Hpop : does (stands R (a ++ y :: b ++ u)) pop_unref (fun _ t => exists a', stands R (a' ++ b ++ u) t)).
      { assert (b ++ u <> []) by (intros [_ ?]%List.app_eq_nil; by apply wall_some).
        destruct a as [|z a]; (eapply does_weaken; [apply does_pop|done|]).
        - done.
        - intros z t [_ Ht]. by exists [].
        - by destruct a.
        - intros z' t [_ Ht]. exists (a ++ [y]). by rewrite <-(assoc_L (++)). }
      eapply does_bind; [exact Hpop|]. intros z. apply does_exists. intros a'. by apply pop_down_keeps.
    + apply does_ret. intros t Ht. apply (stands_body (a ++ y :: b)); [done|]. by rewrite <-(assoc_L (++)).
  - rewrite Eu. eapply does_bind; [apply does_stack_type|]. intros y'. apply does_and. intros ->.
    rewrite <-Eu. eapply does_then; [|by apply keeps_insert].
    destruct Hu as [(y0 & v0 & Eu' & _ & Hy0) _]. rewrite Eu in Eu'. injection Eu' as <- _.
    replace (one_of y _) with false by (by types Hy0). apply does_ret. by apply (stands_body pre).
Qed.

Lemma keeps_plaintext tag : tag_ns tag = HUBBUB_NS_HTML -> plain (element_type_from_name (tag_name tag)) ->
  does B (process_plaintext_in_body alloc_ok tag) (result B).
Proof.
  intros Hns Hy. eapply does_then; [apply keeps_close_p|]. eapply does_check_call; [by apply keeps_insert|].
  eapply does_then; [apply keeps_neutral, neutral_content_model|apply does_ok].
Qed.

(** ** Elements of the formatting list *)

Lemma keeps_adoption type : plain type ->
  does B (process_0presentational_in_body malloc type) (result B).
Proof.
  intros Hy. apply does_exists. intros pre. apply does_and. intros Hp.
  apply (does_adoption malloc Hmalloc plain); [done|by apply wall_some|by apply Hu|done].
Qed.

Lemma keeps_insert_listed tag type : tag_ns tag = HUBBUB_NS_HTML ->
  element_type_from_name (tag_name tag) = type -> plain type -> listed type = true -> active_type type = true ->
  does B (insert_listed malloc alloc_ok tag type) (fun _ => B).
Proof.
  intros Hns Hty Hy Hl Ha t (pre & Hp & X & s & l & Hok & Hs). unfold insert_listed.
  set (C := fun t => exists X' s' n, alike s s' /\ (n ∉ X) /\ X ⊆ X' /\
    ok R X' (new_cell HUBBUB_NS_HTML type n :: s') l t).
  apply wp_bind, (wp_check_call C).
  { apply (wp_push_element alloc_ok Hlimit _ _ _ _ _ _ _ _ Hok Hns).
    - intros X' s' n t' HX Has Hn _ Hok'. rewrite Hty in Hok'. by exists X', s', n.
    - intros e X' s' t' N He _ _ Hok'. by eapply fails_result, ok_fails. }
  2: done.
  intros t1 (X' & s' & n & Has & Hn & HX & Hok1).
  pose proof Hok1 as [Hst1 Hi1]. pose proof (iv_cells _ _ _ Hi1) as Hc1.
  assert (Hs' : s' <> []).
  { intros ->. inversion Has; subst. by pose proof (ok_cells _ _ _ _ _ Hok). }
  eapply wp_bind, (wp_top_node _ _ _ _ _ _ _ _ Hst1 Hc1), wp_bind, (wp_ref_node Hst1). clear t1 Hok1 Hst1.
  intros t1 Hst1. eapply wp_bind, (wp_top_node _ _ _ _ _ _ _ _ Hst1 Hc1), wp_bind, (wp_top_index Hst1).
  rewrite zlen_cons. replace (1 + zlen s' - 1) with (zlen s') by lia. rewrite Hns.
  apply wp_bind, wp_call, (wp_list_append malloc Hmalloc _ _ _ _ _ _ _ _ _ _ _ Hst1).
  - intros p t2 _ Hst2. apply wp_ret. exists (type :: pre). split; [by constructor|].
    exists X', (new_cell HUBBUB_NS_HTML type n :: s'), (l ++ [(p, new_item HUBBUB_NS_HTML type n (zlen s'))]).
    split; [|cbn; by rewrite (alike_types _ _ Has), Hs].
    split; [done|]. apply (inv_list_append X' (new_cell HUBBUB_NS_HTML type n)); try done.
    intros d Hd E. pose proof (iv_list_known _ _ _ (ok_inv _ _ _ _ _ Hok)) as Hk. rewrite Forall_forall in Hk.
    apply Hn. cbn in E. rewrite <-E. auto.
  - intros t2 Hst2. eapply wp_bind, (wp_top_node _ _ _ _ _ _ _ _ Hst2 Hc1).
    assert (Hpop : forall t, st R X' (new_cell HUBBUB_NS_HTML type n :: s') l t ->
      wp (let! c := element_stack_pop in let! node := of_option (ec_node c) in
          do! unref_node node in do! unref_node node in return_early HUBBUB_NOMEM) (fun _ : unit => B) fails t).
    { intros t3 Hst3. eapply wp_bind, (wp_pop _ _ _ _ _ _ _ _ _ Hst3 Hs'); [done|]. intros t4 Hst4.
      eapply wp_bind, wp_of_option; [done|]. eapply wp_bind, (wp_unref_node Hst4). intros t5 Hst5.
      eapply wp_bind, (wp_unref_node Hst5). intros t6 Hst6. apply wp_return_early.
      apply cells_cons in Hc1 as [_ Hc1]; [|done]. by eapply (st_fails _ _ _ _ _ _ Hst6). }
    apply wp_bind, wp_call, (wp_remove_node _ _ _ _ _ _ _ _ Hst2); [exact Hpop|].
    intros e t3 _ _ Hst3. by apply Hpop.
Qed.

Lemma keeps_listed_then tag type C : tag_ns tag = HUBBUB_NS_HTML ->
  element_type_from_name (tag_name tag) = type -> plain type -> listed type = true -> active_type type = true ->
  does B C (result B) ->
  does B (do! check_call (reconstruct_active_formatting_list alloc_ok) in
          do! insert_listed malloc alloc_ok tag type in C) (result B).
Proof.
  intros ????? HC. eapply does_check_call; [apply keeps_reconstruct|].
  eapply does_then; [by apply keeps_insert_listed|done].
Qed.

Lemma listed_formatting y : is_formatting_element y = true ->
  plain y /\ listed y = true /\ active_type y = true.
Proof. by destruct y. Qed.

Lemma keeps_presentational tag type : tag_ns tag = HUBBUB_NS_HTML ->
  element_type_from_name (tag_name tag) = type -> is_formatting_element type = true ->
  does B (process_presentational_in_body malloc alloc_ok tag type) (result B).
Proof.
  intros Hns Hty (? & ? & ?)%listed_formatting. apply keeps_listed_then; try done. apply does_ok.
Qed.

Lemma keeps_applet tag type : tag_ns tag = HUBBUB_NS_HTML ->
  element_type_from_name (tag_name tag) = type -> one_of type [ET.APPLET; ET.MARQUEE; ET.OBJECT; ET.BUTTON] = true ->
  does B (process_applet_marquee_object_in_body malloc alloc_ok tag type) (result B).
Proof.
  intros Hns Hty Hy. apply keeps_listed_then; try done; try by types Hy.
  eapply does_then; [apply keeps_neutral, neutral_frameset_ok|apply does_ok].
Qed.

Lemma keeps_nobr tag : tag_ns tag = HUBBUB_NS_HTML -> element_type_from_name (tag_name tag) = ET.NOBR ->
  does B (process_nobr_in_body malloc alloc_ok tag) (result B).
Proof.
  intros Hns Hty. eapply does_check_call; [apply keeps_reconstruct|].
  assert (H : does B (do! insert_listed malloc alloc_ok tag ET.NOBR in ret HUBBUB_OK) (result B)).
  { eapply does_then; [by apply keeps_insert_listed|apply does_ok]. }
  apply does_if_scope; [done|apply does_skip, H|].
  eapply does_weaken; [|by apply inside_body|done]. eapply does_then; [|exact H].
  eapply does_check_call; [by apply keeps_adoption|]. apply does_checked, keeps_reconstruct.
Qed.

(** ** End tags *)

Lemma surely_0applet type : one_of type [ET.APPLET; ET.MARQUEE; ET.OBJECT; ET.BUTTON] = true ->
  surely B (process_0applet_button_marquee_object_in_body type) B.
Proof.
  intros Hy. apply does_if_scope; [by types Hy| |].
  - apply does_skip, surely_ret.
  - eapply does_then; [|apply surely_ret].
    eapply does_then; [apply inside_implied; by types Hy|].
    eapply does_then; [apply inside_pop_until; by destruct (type_eqb_spec type type)|].
    apply does_exists. intros pre. apply does_and. intros Hp. eapply does_weaken; [apply does_clear|done|].
    intros [] t Ht. by exists pre.
Qed.

Lemma keeps_button tag : tag_ns tag = HUBBUB_NS_HTML -> element_type_from_name (tag_name tag) = ET.BUTTON ->
  does B (process_button_in_body malloc alloc_ok tag) (result B).
Proof.
  intros Hns Hty. apply does_if_scope; [done|..].
  - by apply does_skip, keeps_applet.
  - eapply does_weaken; [|by apply inside_body|done]. eapply does_then; [|by apply keeps_applet].
    by apply does_assert_ok, surely_0applet.
Qed.

(** An element of a type is closed, after the end tags it implies. *)
Lemma surely_close except type stop : plain type -> is_implied except type = false -> stop type = true ->
  surely B (let! there := in_scope type false in
            do! (if (there : bool) then do! close_implied_end_tags except in pop_until stop else ret tt) in
            ret HUBBUB_OK) B.
Proof.
  intros Hy Hi Hs. apply does_if_scope; [done|apply does_skip, surely_ret|].
  eapply does_then; [|apply surely_ret].
  eapply does_then; [by apply inside_implied|by apply inside_pop_until].
Qed.

Lemma surely_0container type : plain type -> is_implied ET.UNKNOWN type = false ->
  surely B (process_0container_in_body type) B.
Proof. intros Hy Hi. apply surely_close; [done|done|]. by destruct (type_eqb_spec type type). Qed.

Lemma surely_0list_item type : one_of type [ET.DD; ET.DT; ET.LI] = true ->
  surely B (process_0dd_dt_li_in_body type) B.
Proof. intros Hy. apply surely_close; by types Hy. Qed.

Lemma does_any_in_scope {A} E types (k : bool -> M A) Q :
  Forall (fun type => plain type /\ is_heading type = true) types ->
  does_or E B (k false) Q -> (forall type, is_heading type = true -> does_or E (inside type R u) (k true) Q) ->
  does_or E B (let! b := any_in_scope types in k b) Q.
Proof.
  intros Hts Hf Ht. induction Hts as [|type types [Hy Hh] _ IH]; cbn [any_in_scope].
  - intros t Hb. apply wp_bind, wp_ret. by apply Hf.
  - assert (H : does_or E B (let! there := in_scope type false in
      let! b := (if (there : bool) then ret true else any_in_scope types) in k b) Q).
    { apply does_if_scope; [done|exact IH|]. intros t Hb. apply wp_bind, wp_ret. by apply (Ht type). }
    intros t Hb. specialize (H t Hb). unfold wp, bind in *. by destruct (in_scope type false t).
Qed.

Lemma surely_0h : surely B process_0h_in_body B.
Proof.
  apply does_any_in_scope; [by repeat constructor|apply does_skip, surely_ret|].
  intros type Hh. eapply does_then; [|apply surely_ret].
  eapply does_then; [apply inside_implied; by destruct type|by apply inside_pop_until].
Qed.

(** Closing implied end tags stops at the first of [u] at the latest. *)
Lemma keeps_implied E except : does_or E B (close_implied_end_tags except) (fun _ => B).
Proof.
  apply does_exists. intros pre. apply does_and. intros Hp.
  destruct Hu as [(y0 & v & Eu & _ & Hy0) _].
  assert (Hf : is_implied except y0 = false) by (by types Hy0).
  destruct (first_split (fun y => negb (is_implied except y)) y0 (pre ++ u)) as (a & y & b & E' & Ha & Hy).
  { rewrite Eu, elem_of_app. right; by left. }
  { by rewrite Hf. }
  rewrite E'. eapply does_weaken; [apply (does_pop_while E R (is_implied except) a y b)|done|].
  - eapply Forall_impl; [exact Ha|]. cbn. intros z. by destruct (is_implied except z).
  - by destruct (is_implied except y).
  - intros [] t Ht. symmetry in E'. apply app_split in E' as [(b1 & -> & ->)|(a2 & -> & E')].
    + apply (stands_body (y :: b1)); [|done]. by apply Forall_app in Hp as [].
    + destruct a2 as [|z a2].
      * apply (stands_body []); [constructor|]. by rewrite E'.
      * exfalso. rewrite Eu in E'. injection E' as <- _. apply Forall_app in Ha as [_ [Hz _]%Forall_cons].
        by rewrite Hf in Hz.
Qed.

(** ** The form that is open *)

Lemma does_element_in_scope E type ts :
  does_or E (stands R ts) (element_in_scope type false) (fun n t => n = tscope type false ts /\ stands R ts t).
Proof.
  intros t (X & s & l & Hok & <-).
  apply (wp_element_in_scope _ _ _ _ _ _ _ _ _ (ok_st _ _ _ _ _ Hok) (ok_cells _ _ _ _ _ Hok)).
  rewrite scope_types. split; [done|by eapply stands_ok].
Qed.

(** A cell whose element is not in the formatting list. *)
Lemma does_remove E a y b : listed y = false -> b <> [] ->
  does_or E (stands R (a ++ y :: b)) (element_stack_remove (zlen b))
    (fun c t => is_Some (ec_node c) /\ stands R (a ++ b) t).
Proof.
  intros Hy Hb t (X & s & l & Hok & Hs). apply map_split in Hs as (sa & c & sb & -> & <- & <- & <-).
  assert (Hsb : sb <> []) by (by destruct sb). rewrite <-(types_zlen sb _ eq_refl).
  apply (wp_remove_ok _ _ _ _ _ _ _ _ _ Hok Hsb).
  - intros d Hd. by eapply inv_unlisted; [apply Hok|..].
  - intros l' t' Hok'. split.
    + pose proof (ok_cells _ _ _ _ _ Hok) as Hc. apply cells_in in Hc as [_ ->]. done.
    + eapply stands_ok; [done|]. apply map_app.
Qed.

Lemma does_stack_node {A} E a y b (k : Z -> M A) Q :
  (forall n, does_or E (stands R (a ++ y :: b)) (k n) Q) ->
  does_or E (stands R (a ++ y :: b)) (let! n := stack_node (zlen b) in k n) Q.
Proof.
  intros Hk t Ht. pose proof Ht as (X & s & l & Hok & Hs).
  apply map_split in Hs as (sa & c & sb & -> & <- & <- & <-). rewrite <-(types_zlen sb _ eq_refl).
  eapply wp_bind, (wp_stack_node (ok_st _ _ _ _ _ Hok)); [apply at_index_mid|eapply cells_in, ok_cells, Hok|].
  by apply Hk.
Qed.

Lemma surely_0form : surely B process_0form_in_body B.
Proof.
  apply does_ctx. intros node.
  eapply does_then; [apply does_when; intros _; apply keeps_neutral, neutral_unref|].
  eapply does_then; [apply keeps_neutral, neutral_form|].
  apply does_exists. intros pre. apply does_and. intros Hp.
  eapply does_bind; [apply does_element_in_scope|]. intros idx. apply does_and. intros ->.
  eapply does_then; [|apply surely_ret].
  destruct (Z.eqb_spec (tscope ET.FORM false (pre ++ u)) 0) as [|N]; cbn [orb].
  { apply does_ret. by apply stands_body. }
  destruct (node =? NULL); [apply does_ret; by apply stands_body|].
  destruct (tscope_some _ _ _ N) as (a & b & E & Hb & Hz & Ha & _). rewrite Hz, E.
  assert (Hsplit : exists b1, pre = a ++ ET.FORM :: b1 /\ b = b1 ++ u).
  { symmetry in E. apply app_split in E as [(b1 & -> & ->)|(a2 & -> & E)]; [eauto|].
    pose proof (tscope_plain ET.FORM pre eq_refl N). apply not_elem_of_app in Ha as []. done. }
  destruct Hsplit as (b1 & -> & ->). clear E.
  apply does_stack_node. intros there. destruct (negb (there =? node)).
  { apply does_ret. intros t Ht. apply (stands_body (a ++ ET.FORM :: b1)); [done|]. by rewrite <-(assoc_L (++)). }
  destruct (first_split (fun y => negb (is_implied ET.UNKNOWN y)) ET.FORM (a ++ ET.FORM :: b1 ++ u))
    as (x & y & z & E & Hx & Hy); [rewrite elem_of_app; right; by left|done|].
  rewrite E. eapply does_then; [apply (does_pop_while _ R (is_implied ET.UNKNOWN) x y z)|].
  { eapply Forall_impl; [exact Hx|]. cbn. intros w. by destruct (is_implied ET.UNKNOWN w). }
  { cbn in Hy. by destruct (is_implied ET.UNKNOWN y). }
  assert (Hrest : exists a', y :: z = a' ++ ET.FORM :: b1 ++ u /\ Forall plain a').
  { apply Forall_app in Hp as [Hpa _].
    symmetry in E. apply app_split in E as [(w & -> & ->)|(a2 & -> & E)].
    - exists (y :: w). split; [done|]. by apply Forall_app in Hpa as [].
    - destruct a2 as [|f a2]; [exists []; split; [done|constructor]|]. injection E as <- _.
      apply Forall_app in Hx as [_ [Hf _]%Forall_cons]. done. }
  destruct Hrest as (a' & -> & Ha'). eapply does_bind; [by apply does_remove|]. intros c. apply does_and.
  intros [n Hn]. rewrite Hn. intros t Ht. eapply wp_bind, wp_of_option; [done|].
  assert (HB : B t).
  { apply (stands_body (a' ++ b1)); [|by rewrite <-(assoc_L (++))].
    apply Forall_app. split; [done|]. by apply Forall_app in Hp as [_ [_ ?]%Forall_cons]. }
  revert t Ht HB. intros t _. apply (keeps_neutral (fun _ _ => False)), neutral_unref.
Qed.

(** ** Other end tags *)

Lemma generic_pop_keeps E type fuel : forall pre node, Forall plain pre -> zlen u <= node -> (length pre < fuel)%nat ->
  does_or E (stands R (pre ++ u)) (generic_pop_loop fuel node type) (fun _ => B).
Proof.
  induction fuel as [|fuel IH]; intros pre node Hp Hn Hf; [lia|]. cbn [generic_pop_loop].
  eapply does_bind; [apply does_top_index|]. intros n. apply does_and. intros ->.
  destruct (Z.leb_spec node (zlen (pre ++ u) - 1)); [|by apply does_ret, stands_body].
  destruct pre as [|y pre]; [cbn [app] in *; lia|]. apply Forall_cons in Hp as [_ Hp].
  eapply does_bind.
  - apply does_pop. intros [_ ?]%List.app_eq_nil. by apply wall_some.
  - intros y'. apply does_and. intros ->. destruct (type_eqb y type); [by apply does_ret, stands_body|].
    apply IH; [done|done|]. cbn in Hf. lia.
Qed.

(** Popping, after the implied end tags, an element that is above [u]. *)
Lemma generic_close_keeps E pre type node : Forall plain pre -> zlen u <= node ->
  does_or E (stands R (pre ++ u))
    (do! close_implied_end_tags ET.UNKNOWN in
     let! n := top_index in generic_pop_loop (S (S (Z.to_nat n))) node type) (fun _ => B).
Proof.
  intros Hp Hn. eapply does_then.
  - eapply does_weaken; [apply (keeps_implied E ET.UNKNOWN)|by apply stands_body|]. intros [] t Ht. exact Ht.
  - apply does_exists. intros pre'. apply does_and. intros Hp'.
    eapply does_bind; [apply does_top_index|]. intros n. apply does_and. intros ->.
    apply generic_pop_keeps; [done|done|]. unfold zlen. rewrite length_app. lia.
Qed.

Lemma generic_loop_keeps E type : (forall v, u <> type :: v) -> forall pre a, Forall plain (a ++ pre) ->
  does_or E (stands R ((a ++ pre) ++ u)) (generic_loop (pred (length (pre ++ u))) type) (fun _ => B).
Proof.
  intros Hty. destruct Hu as [(y0 & v & Eu & Hv & Hy0) _].
  induction pre as [|y pre IH]; intros a Hp.
  - cbn [app]. rewrite app_nil_r in *. rewrite Eu. cbn [length pred].
    destruct (length v) as [|n] eqn:Hl; [by apply nil_length_inv in Hl|]. rewrite <-Hl.
    assert (H : does_or E (stands R (a ++ y0 :: v)) (ret tt) (fun _ => body R (y0 :: v))).
    { apply does_ret. intros t Ht. by exists a. }
    rewrite Hl. cbn [generic_loop]. replace (Z.of_nat (S n)) with (zlen v) by (unfold zlen; lia).
    eapply does_bind; [apply does_stack_type|]. intros y'. apply does_and. intros ->.
    destruct (type_eqb_spec y0 type) as [->|_]; [by destruct (Hty v)|].
    by replace (negb _ && negb _) with true by (by types Hy0).
  - cbn [app length pred]. rewrite <-(assoc_L (++)). cbn [app].
    assert (Hk : forall t, stands R (a ++ y :: pre ++ u) t -> stands R ((a ++ y :: pre) ++ u) t)
      by (intros t; by rewrite <-(assoc_L (++))).
    assert (Hn : exists n, length (pre ++ u) = S n).
    { rewrite Eu, length_app. cbn. exists (length pre + length v)%nat. lia. }
    destruct Hn as [n Hn]. rewrite Hn. cbn [generic_loop].
    replace (Z.of_nat (S n)) with (zlen (pre ++ u)) by (unfold zlen; lia).
    eapply does_bind; [apply does_stack_type|]. intros y'. apply does_and. intros ->.
    destruct (type_eqb y type).
    { eapply does_weaken; [apply (generic_close_keeps E (a ++ y :: pre)); [done|]|exact Hk|done].
      rewrite zlen_app. pose proof (zlen_nonneg pre). lia. }
    assert (HB : does_or E (stands R (a ++ y :: pre ++ u)) (ret tt) (fun _ => B)).
    { apply does_ret. intros t Ht. apply (stands_body (a ++ y :: pre)); [done|by apply Hk]. }
    destruct (_ && _); [exact HB|]. destruct n as [|n].
    { exfalso. rewrite Eu, length_app in Hn. cbn in Hn. destruct v; [done|cbn in Hn; lia]. }
    replace (S n) with (pred (length (pre ++ u))) by lia.
    eapply does_weaken; [apply (IH (a ++ [y]))| |done].
    + by rewrite <-(assoc_L (++)).
    + intros t Ht. by rewrite <-!(assoc_L (++)).
Qed.

Lemma surely_0generic type : (forall v, u <> type :: v) -> surely B (process_0generic_in_body type) B.
Proof.
  intros Hty. apply does_exists. intros pre. apply does_and. intros Hp.
  eapply does_bind; [apply does_top_index|]. intros n. apply does_and. intros ->.
  eapply does_then; [|apply surely_ret].
  replace (Z.to_nat (zlen (pre ++ u) - 1)) with (pred (length (pre ++ u))) by (unfold zlen; lia).
  by apply (generic_loop_keeps _ type Hty pre []).
Qed.

(** ** Elements that are not pushed, and the like *)

Lemma keeps_void tag : does B (insert_element alloc_ok tag false) (result B).
Proof. apply softly_does; [apply body_growing|apply (softly_insert alloc_ok Hlimit), body_growing]. Qed.

Lemma does_after_ok (B' C D : T -> Prop) (m : M hubbub_error) (k : M unit) :
  does B' m (result C) -> does C k (fun _ => D) ->
  does B' (let! err := call m in
           do! (if bool_decide (err = HUBBUB_OK) then k else ret tt) in ret err) (result D).
Proof.
  intros Hm Hk. eapply does_bind; [by apply does_call|]. intros e t Ht. apply wp_bind.
  destruct (bool_decide_reflect (e = HUBBUB_OK)) as [->|N].
  - eapply wp_mono; [by apply Hk| |done]. intros [] t' Ht'. by apply wp_ret.
  - apply wp_ret, wp_ret, fails_result. by destruct e.
Qed.

Lemma keeps_insert_void tag : does B (insert_void alloc_ok tag) (result B).
Proof. eapply does_after_ok; [apply keeps_void|apply keeps_neutral, neutral_frameset_ok]. Qed.

Lemma keeps_hr tag : does B (process_hr_in_body alloc_ok tag) (result B).
Proof. eapply does_then; [apply keeps_close_p|apply keeps_insert_void]. Qed.

Lemma keeps_image tag : does B (process_image_in_body alloc_ok tag) (result B).
Proof. eapply does_check_call; [apply keeps_reconstruct|apply keeps_void]. Qed.

Lemma keeps_0br : does B (process_0br_in_body alloc_ok) (result B).
Proof. eapply does_check_call; [apply keeps_reconstruct|apply keeps_void]. Qed.

Lemma keeps_phrasing tag : tag_ns tag = HUBBUB_NS_HTML -> plain (element_type_from_name (tag_name tag)) ->
  does B (process_phrasing_in_body alloc_ok tag) (result B).
Proof. intros Hns Hy. eapply does_check_call; [apply keeps_reconstruct|by apply keeps_insert]. Qed.

Lemma not_floor type : one_of type floors = false -> forall v, u <> type :: v.
Proof.
  intros Hf v E. destruct Hu as [(y0 & v0 & Eu & _ & Hy0) _]. rewrite E in Eu. injection Eu as <- _. congruence.
Qed.

Lemma keeps_opt tag : tag_ns tag = HUBBUB_NS_HTML -> plain (element_type_from_name (tag_name tag)) ->
  does B (process_opt_in_body alloc_ok tag) (result B).
Proof.
  intros Hns Hy.
  assert (H : does B (do! check_call (reconstruct_active_formatting_list alloc_ok) in
                      insert_element alloc_ok tag true) (result B)).
  { eapply does_check_call; [apply keeps_reconstruct|by apply keeps_insert]. }
  apply does_if_scope; [done|by apply does_skip|].
  eapply does_weaken; [|by apply inside_body|done].
  eapply does_then; [by apply does_assert_ok, surely_0generic, not_floor|exact H].
Qed.

(** ** Characters *)

Lemma keeps_character data : data <> [] -> does B (process_character alloc_ok data) (result B).
Proof.
  intros Hd. destruct data as [|c data]; [done|]. apply does_ctx. intros lr.
  eapply does_check_call; [apply keeps_reconstruct|]. apply does_ctx. intros strip.
  eapply (does_bind _ _ _ _ (fun _ => B)).
  { destruct strip; [|by apply does_ret]. intros t Ht. eapply wp_bind, wp_of_option; [done|].
    revert t Ht. eapply does_then; [apply keeps_neutral, neutral_strip|by apply does_ret]. }
  intros dummy. eapply (does_then _ _ B).
  { apply does_when. intros _ t Ht. apply wp_bind, wp_call.
    assert (Hk : forall e t', soft B e t' -> wp (match e with
        | HUBBUB_OK => ret tt
        | _ => do! upd_ctx (set_tc_strip_leading_lr lr) in return_early e
        end) (fun _ : unit => B) fails t').
    { intros e t' He. destruct (decide (e = HUBBUB_OK)) as [->|N]; [apply wp_ret, He|].
      assert (Hw : wp (do! upd_ctx (set_tc_strip_leading_lr lr) in return_early e) (fun _ : unit => B) fails t').
      { apply wp_bind. eapply wp_mono; [apply (keeps_neutral fails), He; apply neutral_strip| |done].
        intros [] t2 Ht2. apply wp_return_early. eapply soft_fails; [apply body_growing| |done].
        by split; [apply He|]. }
      by destruct e. }
    eapply wp_mono; [apply (softly_text B dummy (body_growing R u) t Ht)|exact Hk|].
    intros e t' [_ He]. by apply Hk. }
  apply does_ctx. intros frameset_ok.
  eapply does_then; [apply does_when; intros _; apply keeps_neutral, neutral_frameset_ok|apply does_ok].
Qed.

(** ** isindex *)

Lemma does_alloc E size : does_or E B (alloc alloc_ok size) (fun _ => B).
Proof.
  intros t Ht. unfold wp, alloc. destruct (body_growing _ _ _ Ht) as (R' & X & s & l & [Hst Hi] & Hg).
  apply (Hg X s); [done|apply alike_refl|]. split; [|done]. destruct Hst as [? [] [] ?].
  constructor; [done| | |done]; by constructor.
Qed.

Lemma body_fails e t : B t -> e <> HUBBUB_OK -> client_error e -> fails e t.
Proof. intros Ht N He. by eapply soft_fails; [apply body_growing|split|]. Qed.

Lemma keeps_isindex tag :
  Forall (fun a => attr_value a <> []) (tag_attributes tag) ->
  does B (process_isindex_in_body alloc_ok tag) (result B).
Proof.
  intros Hattrs. apply does_ctx. intros form. destruct (negb _); [apply does_ok|].
  eapply (does_bind _ _ _ _ (fun x t => (match x.1.2 with Some a => attr_value a <> [] | None => True end) /\ B t)).
  { assert (Hp : forall l action prompt, Forall (fun a => attr_value a <> []) l ->
      match prompt with Some a => attr_value a <> [] | None => True end ->
      match (isindex_attributes l action prompt).1.2 with Some a => attr_value a <> [] | None => True end).
    { induction l as [|a l IH]; intros action prompt Hl Hpr; [done|]. apply Forall_cons in Hl as [Ha Hl].
      cbn [isindex_attributes]. destruct (strncmp_eq _ _ _); [by apply IH|].
      destruct (strncmp_eq _ _ _); [by apply IH|]. destruct (strncmp_eq _ _ _); [by apply IH|].
      specialize (IH action prompt Hl Hpr). by destruct (isindex_attributes l action prompt) as [[? ?] ?]. }
    destruct (tag_attributes tag) as [|a l] eqn:El; [by apply does_ret|].
    eapply does_bind; [apply does_alloc|]. intros ok. destruct ok; cbn [negb].
    - specialize (Hp (a :: l) None None Hattrs I). destruct (isindex_attributes (a :: l) None None) as [[? ?] ?].
      apply does_ret. intros t Ht. by split.
    - intros t Ht. by apply wp_return_early, body_fails. }
  intros [[action prompt] attrs]. cbn [fst snd]. apply does_and. intros Hprompt.
  eapply does_check_call; [by apply keeps_form|]. eapply does_check_call; [apply keeps_hr|].
  eapply does_check_call; [by apply keeps_container|]. eapply does_check_call; [by apply keeps_phrasing|].
  eapply does_check_call; [apply keeps_character; by destruct prompt|].
  eapply does_check_call; [apply keeps_reconstruct|]. eapply does_check_call; [apply keeps_void|].
  eapply does_then; [apply keeps_neutral, neutral_frameset_ok|].
  eapply does_then; [by apply does_assert_ok, surely_0generic, not_floor|].
  eapply does_check_call; [apply keeps_0p|]. eapply does_check_call; [apply keeps_hr|].
  by apply surely_does, surely_0container.
Qed.
End InBody.

(** ** Anchors *)

(** The last item that is not passed over is found again. *)
Lemma passed_unique type (x x2 : list (Z * item)) p d p2 d2 y y2 :
  x ++ (p, d) :: y = x2 ++ (p2, d2) :: y2 -> Forall (passed type) y.*2 -> Forall (passed type) y2.*2 ->
  it_type d = type -> it_type d2 = type -> x2 = x /\ p2 = p /\ d2 = d /\ y2 = y.
Proof.
  intros E Hy Hy2 Hd Hd2. apply app_split in E as [(b1 & -> & ->)|(a2 & -> & E)].
  - exfalso. rewrite fmap_app in Hy. apply Forall_app in Hy as [_ Hy]. cbn in Hy.
    apply Forall_cons in Hy as [[_ N] _]. done.
  - destruct a2 as [|z a2]; [by injection E as <- <- <-; rewrite app_nil_r|]. injection E as <- ->.
    exfalso. rewrite fmap_app in Hy2. apply Forall_app in Hy2 as [_ Hy2]. cbn in Hy2.
    apply Forall_cons in Hy2 as [[_ N] _]. done.
Qed.

Section Anchors.
Context {W : Type} `{!TreeHandler W} `{!TreeHandlerLaws W}.
Local Abbreviation T := (hubbub_treebuilder W).
Local Abbreviation M := (comp (hubbub_treebuilder W)).
Context (malloc : nat -> gmap Z formatting_list_entry -> option Z) (Hmalloc : malloc_fresh malloc).
Context (alloc_ok : nat -> Z -> bool) (Hlimit : alloc_limit alloc_ok).
Local Abbreviation does := (does_or fails).

(** Plain elements on top of a base. *)
Definition bodyish (m : insertion_mode) (R : rest_view) (t : T) : Prop := exists u, base m u /\ body R u t.

Lemma bodyish_growing m R : growing (bodyish m R).
Proof.
  intros t (u & Hb & Ht). destruct (body_growing _ _ _ Ht) as (R' & X & s & l & Hok & Hg).
  exists R', X, s, l. split; [done|]. intros. exists u. split; [done|by eapply Hg].
Qed.

Lemma does_bodyish {A} E m R (c : M A) Q :
  (forall u, base m u -> walled u -> does_or E (body R u) c Q) -> does_or E (bodyish m R) c Q.
Proof. intros H. apply does_exists. intros u. apply does_and. intros Hb. apply H; [done|by eapply base_walled]. Qed.

Lemma result_mono (P P' : T -> Prop) e t : (forall t, P t -> P' t) -> result P e t -> result P' e t.
Proof. intros H. unfold result. destruct e; auto. Qed.

Lemma keeps_bodyish m R (c : M hubbub_error) :
  (forall u, base m u -> walled u -> does (body R u) c (result (body R u))) ->
  does (bodyish m R) c (result (bodyish m R)).
Proof.
  intros H. apply does_bodyish. intros u Hb Hw. eapply does_weaken; [by apply H|done|].
  intros e t. apply result_mono. intros t' Ht'. by exists u.
Qed.

(** The state after the adoption agency, seen from the item [d]. *)
Lemma adoption_gone R X s l pre u (d : item) (t : T) (Q E : hubbub_error -> T -> Prop) :
  ok R X s l t -> map ty s = pre ++ u -> Forall plain pre -> walled u -> find_item ET.A l None = Some d ->
  (forall e t, fails e t -> E e t) ->
  (idle ET.A s l -> Q HUBBUB_OK t) ->
  (forall X' s' l' pre' t', ok R X' s' l' t' -> map ty s' = pre' ++ u -> Forall plain pre' ->
     (it_node d ∉ map nd s') -> Q HUBBUB_OK t') ->
  wp (process_0presentational_in_body malloc ET.A) Q E t.
Proof.
  intros Hok Es Hp [Hu0 Hu] Hd HE HQ1 HQ2. apply map_eq_app in Es as (sp & su & -> & <- & <-).
  apply (wp_adoption malloc Hmalloc plain ET.A eq_refl _ _ _ _ _ _ _ _ Hok).
  - destruct Hu0 as (y & v & E' & _). by destruct su.
  - rewrite scope_types. by apply Hu.
  - done.
  - done.
  - intros t' (X' & sp' & su' & l' & HX & Ha & Hk & Hok' & Hgone).
    apply (HQ2 X' (sp' ++ su') l' (map ty sp')); [done| | |by apply Hgone].
    + by rewrite map_app, (alike_types _ _ Ha).
    + apply Forall_map. apply (kept_types _ _ _ _ Hk). apply Forall_map. exact Hp.
Qed.

(** Taking the cell of an item out, that was not in scope. *)
Lemma wp_take_anchor m R X s l x p d y pre u (t : T) (Q : unit -> T -> Prop) E :
  inv X s l -> l = x ++ (p, d) :: y -> map ty s = pre ++ u -> Forall plain pre -> base m u ->
  it_index d <> 0 -> it_type d = ET.A -> st R X s (x ++ y) t -> (forall t', bodyish m R t' -> Q tt t') ->
  wp (let! c := element_stack_remove (it_index d) in
      let! onode := of_option (ec_node c) in unref_node onode) Q E t.
Proof.
  intros Hi -> Es Hp Hb Hd Hty Hst HQ.
  destruct (inv_split _ _ _ _ _ _ Hi Hd) as (a & c & b & -> & Hz & Hb0 & Hn & Ht & Hl & Hc).
  assert (Hok' : ok R X (a ++ c :: b) (x ++ y) t) by (split; [done|by eapply inv_list_remove]).
  rewrite Hz. eapply wp_bind, (wp_remove_ok _ _ _ _ _ _ _ _ _ Hok' Hb0).
  { intros e He. rewrite <-Hz. by eapply inv_index_unique. }
  intros l' t' [Hst' Hi']. destruct Hc as (_ & _ & _ & [n Hcn]).
  eapply wp_bind, wp_of_option; [done|]. apply (wp_unref_node Hst'). intros t2 Hst2. apply HQ.
  rewrite map_app in Es. cbn [map] in Es. rewrite Ht, Hty in Es.
  apply app_split in Es as [(b1 & -> & Eb)|(a2 & Ea & ->)].
  - exists u. split; [done|]. exists (map ty a ++ b1). split.
    + apply Forall_app in Hp as [? [_ ?]%Forall_cons]. by apply Forall_app.
    + eapply stands_ok; [by split|]. by rewrite map_app, Eb, (assoc_L (++)).
  - exists (a2 ++ map ty b). split; [by eapply base_remove|]. exists pre. split; [done|].
    eapply stands_ok; [by split|]. by rewrite map_app, Ea, (assoc_L (++)).
Qed.

Lemma keeps_close_a m R x p d y (t : T) (Q : unit -> T -> Prop) (E : hubbub_error -> T -> Prop) X s l pre u :
  ok R X s l t -> map ty s = pre ++ u -> Forall plain pre -> base m u -> l = x ++ (p, d) :: y ->
  Forall (passed ET.A) y.*2 -> is_scoping_element (it_type d) = false -> it_type d = ET.A ->
  (forall e t, fails e t -> E e t) -> (forall t', bodyish m R t' -> Q tt t') ->
  wp (close_a malloc p) Q E t.
Proof.
  intros Hok Es Hp Hb El Hy Hsc Hty HE HQ. pose proof Hok as [Hst Hi]. unfold close_a.
  eapply wp_bind, (wp_entry_get Hst); [done|]. cbn [entry_of fe_stack_index fe_node].
  assert (Hfind : find_item ET.A l None = Some d) by (rewrite El; by apply find_item_found).
  set (gone := fun t' => exists X' s' l' pre', ok R X' s' l' t' /\ map ty s' = pre' ++ u /\ Forall plain pre' /\
                 (it_node d ∉ map nd s')).
  apply wp_bind, (wp_check_call (fun t' => (idle ET.A s l /\ t' = t) \/ gone t')); [| |done].
  { eapply (adoption_gone _ _ _ _ _ _ d _ _ _ Hok Es Hp); [by eapply base_walled|done|by apply fails_result|..].
    - intros Hid. by left.
    - intros X' s' l' pre' t' ? ? ? ?. right. by exists X', s', l', pre'. }
  intros t1 [[Hid ->]|(X1 & s1 & l1 & pre1 & Hok1 & Es1 & Hp1 & Hgone)].
  - destruct (Hid d Hfind) as [Hd0 _].
    eapply wp_bind, (wp_find_formatting _ _ _ _ _ _ _ _ Hst); [congruence|].
    intros x2 p2 d2 y2 El2 Hy2 _ Hty2. rewrite El in El2.
    destruct (passed_unique _ _ _ _ _ _ _ _ _ El2 Hy Hy2 Hty Hty2) as (-> & -> & -> & ->).
    rewrite Z.eqb_refl. eapply wp_bind, wp_bind, (wp_entry_get Hst); [done|]. cbn [entry_of fe_node].
    rewrite Z.eqb_refl. rewrite El in Hst. eapply (wp_remove_unref _ _ _ _ _ _ _ _ _ _ Hst). intros t2 Hst2.
    eapply wp_bind, (wp_top_index Hst2).
    destruct (inv_split X s x p d y) as (a & c & b & Ea & Hz & Hb0 & Hn & _ & _ & Hc); [by rewrite <-El|done|].
    rewrite (proj2 (Z.leb_le _ _)).
    2: { rewrite Hz, Ea, zlen_app, zlen_cons. pose proof (zlen_nonneg a). lia. }
    destruct Hc as (_ & _ & _ & [n Hcn]).
    eapply wp_bind, (wp_stack_node Hst2); [rewrite Hz, Ea; apply at_index_mid|exact Hcn|].
    assert (n = it_node d) as -> by (rewrite <-Hn; unfold nd; by rewrite Hcn). rewrite Z.eqb_refl.
    by eapply wp_take_anchor.
  - pose proof Hok1 as [Hst1 Hi1].
    assert (HB : forall l2 t2, ok R X1 s1 l2 t2 -> wp (let! n := top_index in
        if it_index d <=? n then
          let! there := stack_node (it_index d) in
          if there =? it_node d then
            let! c := element_stack_remove (it_index d) in
            let! onode := of_option (ec_node c) in unref_node onode
          else ret tt
        else ret tt) Q E t2).
    { intros l2 t2 Hok2. pose proof Hok2 as [Hst2 Hi2].
      assert (HQ2 : Q tt t2) by (apply HQ; exists u; split; [done|]; exists pre1; split; [done|by eapply stands_ok]).
      eapply wp_bind, (wp_top_index Hst2). destruct (Z.leb_spec (it_index d) (zlen s1 - 1)); [|by apply wp_ret].
      assert (Hrange : 0 <= it_index d).
      { destruct (Z.eq_dec (it_index d) 0); [lia|]. assert (it_index d ∈ marks l) as Hm.
        { apply marks_In. split; [done|]. exists d. split; [|done]. rewrite El, fmap_app, elem_of_app. right; by left. }
        pose proof (inv_marks _ _ _ _ Hi Hm). lia. }
      destruct (lookup_lt_is_Some_2 (rev s1) (Z.to_nat (it_index d))) as [c Hc].
      { rewrite length_rev. unfold zlen in *. lia. }
      assert (Hat : at_index s1 (it_index d) = Some c) by (unfold at_index; rewrite znth_nonneg; done).
      pose proof (at_index_elem _ _ _ Hat) as Hin. pose proof (cell_type _ _ (iv_cells _ _ _ Hi2) Hin) as [_ Hcn].
      eapply wp_bind, (wp_stack_node Hst2); [done|exact Hcn|].
      destruct (Z.eqb_spec (nd c) (it_node d)) as [En|]; [|by apply wp_ret].
      exfalso. apply Hgone. rewrite <-En. by apply list_elem_of_fmap_2. }
    eapply wp_bind, (wp_find_formatting _ _ _ _ _ _ _ _ Hst1).
    + intros _. assert (Hpn : p <> NULL) by (rewrite El in Hst; by eapply st_ptr).
      apply wp_bind. rewrite (proj2 (Z.eqb_neq NULL p)) by congruence. apply wp_ret. by eapply HB.
    + intros x2 p2 d2 y2 El2 _ _ _. apply wp_bind. destruct (p2 =? p) eqn:Ep; [|apply wp_ret; by eapply HB].
      eapply wp_bind, (wp_entry_get Hst1); [done|]. cbn [entry_of fe_node].
      destruct (it_node d2 =? it_node d); [|apply wp_ret; by eapply HB].
      assert (p2 = p) as -> by lia. rewrite El2 in Hst1, Hi1.
      eapply (wp_remove_unref _ _ _ _ _ _ _ _ _ _ Hst1). intros t2 Hst2. eapply HB.
      split; [done|by eapply inv_list_remove].
Qed.

Lemma keeps_a m R tag : tag_ns tag = HUBBUB_NS_HTML -> element_type_from_name (tag_name tag) = ET.A ->
  does (bodyish m R) (process_a_in_body malloc alloc_ok tag) (result (bodyish m R)).
Proof.
  intros Hns Hty t (u & Hb & pre & Hp & X & s & l & Hok & Es).
  assert (Hk : does (bodyish m R) (process_presentational_in_body malloc alloc_ok tag ET.A) (result (bodyish m R))).
  { apply keeps_bodyish. intros u' _ Hw. by apply keeps_presentational. }
  eapply wp_bind, (wp_find_formatting _ _ _ _ _ _ _ _ (ok_st _ _ _ _ _ Hok)).
  - intros _. apply wp_bind, wp_ret, Hk. exists u. split; [done|]. exists pre. split; [done|by eapply stands_ok].
  - intros x p d y El Hy Hsc Htd. rewrite (proj2 (Z.eqb_neq p NULL)).
    2: { pose proof (ok_st _ _ _ _ _ Hok) as Hst. rewrite El in Hst. by eapply st_ptr. }
    cbn [negb]. apply wp_bind. by eapply keeps_close_a.
Qed.
End Anchors.
