(* ===== verification/TreePlaces.v ===== *)
(** * TreePlaces: the states between tokens.

    [place R m ex t]: the open elements are those that insertion mode [m]
    stands on, with the elements [ex] on top.  A state is [good] when it is the
    place of its mode or, while the text of an element is collected, that of
    the mode to go back to, with the element on top. *)
From S2P Require Import Prelude.
From S2P Require Import Errors.
From S2P Require Import Tokens.
From S2P Require Import TokeniserState.
From S2P Require Import TokeniserMonad.
From S2P Require Import TokeniserWp.
From S2P Require Import ElementType.
From S2P Require Import TreeState.
From S2P Require Import TreeRepr.
From S2P Require Import TreeStack.
From S2P Require Import TreeBody.
From S2P Require Import TreeModes.
From S2P Require Import TreeRules.
From S2P Require Import TreeInv.
From S2P Require Import TreeSteps.
From S2P Require Import TreePops.
From S2P Require Import TreeRounds.
From S2P Require Import TreeFlow.
From S2P Require Import TreeInBody.
From stdpp Require Import gmap.
From Stdlib Require Ascii String.
From S2P Require Import Detect.
From S2P Require Import DetectSpec.
From S2P Require Import TreeAdoption.

Local Open Scope Z_scope.

(** The stacks of the modes from the body on. *)
Definition on_base (m : insertion_mode) (ts : list element_type) : Prop :=
  exists pre u, ts = pre ++ u /\ Forall plain pre /\ base m u.

Definition shape (m : insertion_mode) (ts : list element_type) : Prop :=
  match m with
  | IN_BODY | AFTER_BODY | AFTER_AFTER_BODY => on_base IN_BODY ts
  | IN_TABLE | IN_TABLE_BODY | IN_ROW | IN_CELL => on_base m ts
  | IN_COLUMN_GROUP => exists u, ts = ET.COLGROUP :: u /\ base IN_TABLE u
  | IN_SELECT | IN_SELECT_IN_TABLE =>
      exists pre v m', ts = pre ++ ET.SELECT :: v /\ Forall plain pre /\ on_base m' v
  | IN_FRAMESET | AFTER_FRAMESET | AFTER_AFTER_FRAMESET => exists k, ts = replicate k ET.FRAMESET ++ [ET.HTML]
  | _ => False
  end.

Lemma shape_some m ts : shape m ts -> ts <> [].
Proof.
  assert (H : forall m, on_base m ts -> ts <> []).
  { intros m' (pre & u & -> & _ & Hb) [_ ->]%List.app_eq_nil. by apply base_some in Hb. }
  destruct m; cbn; try done; try apply H.
  - by intros (u & -> & _).
  - intros (pre & v & m' & -> & _). by destruct pre.
  - intros (pre & v & m' & -> & _). by destruct pre.
  - intros [k ->]. by destruct k.
  - intros [k ->]. by destruct k.
  - intros [k ->]. by destruct k.
Qed.

(** The modes in which elements are inserted. *)
Definition roomy (m : insertion_mode) : bool :=
  match m with
  | INITIAL | BEFORE_HTML | BEFORE_HEAD | GENERIC_RCDATA | IN_CAPTION | IN_FOREIGN_CONTENT => false
  | _ => true
  end.

(** What is alike to a stack with its last cells. *)
Lemma alike_last sp r s' : alike (sp ++ [r]) s' -> exists sp' r', s' = sp' ++ [r'] /\ alike sp sp' /\ alike_cell r r'.
Proof.
  intros (sp' & s2 & Ha & H2 & ->)%Forall2_app_inv_l.
  apply Forall2_cons_inv_l in H2 as (r' & s3 & ? & H3 & ->). apply Forall2_nil_inv_l in H3 as ->. by exists sp', r'.
Qed.

Lemma alike_last2 sp h r s' : alike (sp ++ [h; r]) s' ->
  exists sp' h' r', s' = sp' ++ [h'; r'] /\ alike sp sp' /\ ty h' = ty h /\ nd h' = nd h.
Proof.
  intros (sp' & s2 & Ha & H2 & ->)%Forall2_app_inv_l.
  apply Forall2_cons_inv_l in H2 as (h' & s3 & (_ & Et & En & _) & H3 & ->).
  apply Forall2_cons_inv_l in H3 as (r' & s4 & _ & H4 & ->). apply Forall2_nil_inv_l in H4 as ->.
  exists sp', h', r'. unfold ty, nd. by rewrite Et, En.
Qed.

Section Places.
Context {W : Type} `{!TreeHandler W} `{!TreeHandlerLaws W}.
Local Abbreviation T := (hubbub_treebuilder W).
Local Abbreviation M := (comp (hubbub_treebuilder W)).
Context (malloc : nat -> gmap Z formatting_list_entry -> option Z) (Hmalloc : malloc_fresh malloc).
Context (alloc_ok : nat -> Z -> bool) (Hlimit : alloc_limit alloc_ok).
Local Abbreviation does := (does_or fails).

(** Before there is an html element. *)
Definition starting (R : rest_view) (t : T) : Prop :=
  exists X c, st R X [c] [] t /\ ec_type c = Some ET.ADDRESS.
(** Before the head. *)
Definition opening (R : rest_view) (t : T) : Prop :=
  exists X s, ok R X s [] t /\ map ty s = [ET.HTML].
(** The head is open, or is known and not open. *)
Definition in_the_head (R : rest_view) (ex : list element_type) (t : T) : Prop :=
  exists X sp h r, ok R X (sp ++ [h; r]) [] t /\ map ty sp = ex /\ ty h = ET.HEAD /\ nd h = rv_head_element R.
Definition past_the_head (R : rest_view) (ex : list element_type) (t : T) : Prop :=
  exists X sp r, ok R X (sp ++ [r]) [] t /\ map ty sp = ex /\ rv_head_element R ∈ X /\
    (rv_head_element R ∉ map nd (sp ++ [r])).

Definition place (R : rest_view) (m : insertion_mode) (ex : list element_type) (t : T) : Prop :=
  match m with
  | INITIAL | BEFORE_HTML => ex = [] /\ starting R t
  | BEFORE_HEAD => ex = [] /\ opening R t
  | IN_HEAD => in_the_head R ex t
  | IN_HEAD_NOSCRIPT => in_the_head R (ex ++ [ET.NOSCRIPT]) t
  | AFTER_HEAD => past_the_head R ex t
  | _ => exists ts, stands R (ex ++ ts) t /\ shape m ts
  end.

Definition good (t : T) : Prop :=
  exists R, rest t = R /\
    if bool_decide (rv_mode R = GENERIC_RCDATA)
    then roomy (rv_collect_mode R) = true /\ exists x, place R (rv_collect_mode R) [x] t
    else place R (rv_mode R) [] t.

Lemma opening_growing R : growing (opening R).
Proof.
  intros t (X & s & Hok & Hs). exists R, X, s, []. split; [done|]. intros X' s' t' _ Ha Hok'.
  exists X', s'. split; [done|]. by rewrite (alike_types _ _ Ha).
Qed.

Lemma in_the_head_growing R ex : growing (in_the_head R ex).
Proof.
  intros t (X & sp & h & r & Hok & Hs & Hh & Hn). exists R, X, (sp ++ [h; r]), []. split; [done|].
  intros X' s' t' _ Ha Hok'. apply alike_last2 in Ha as (sp' & h' & r' & -> & Ha & Et & En).
  exists X', sp', h', r'. split_and!; [done|by rewrite (alike_types _ _ Ha)|congruence..].
Qed.

Lemma past_the_head_growing R ex : growing (past_the_head R ex).
Proof.
  intros t (X & sp & r & Hok & Hs & Hx & Hn). exists R, X, (sp ++ [r]), []. split; [done|].
  intros X' s' t' HX Ha Hok'. pose proof (alike_nodes _ _ Ha) as En.
  apply alike_last in Ha as (sp' & r' & -> & Ha & _).
  exists X', sp', r'. split_and!; [done|by rewrite (alike_types _ _ Ha)|by apply HX|by rewrite En].
Qed.

Lemma place_growing R m ex : roomy m = true -> growing (place R m ex).
Proof.
  assert (H : forall m, growing (fun t => exists ts, stands R (ex ++ ts) t /\ shape m ts)).
  { clear m. intros m t (ts & Ht & Hs). destruct (stands_growing _ _ _ Ht) as (R' & X & s & l & Hok & Hg).
    exists R', X, s, l. split; [done|]. intros. exists ts. split; [by eapply Hg|done]. }
  destruct m; intros Hm; try done; try apply (H _).
  - apply in_the_head_growing.
  - apply in_the_head_growing.
  - apply past_the_head_growing.
Qed.

(** A step that sets other fields leaves the place as it is. *)
Definition sets (n : M unit) (g : rest_view -> rest_view) : Prop :=
  forall R X s l t (Q : unit -> T -> Prop) E,
    st R X s l t -> (forall t', st (g R) X s l t' -> Q tt t') -> wp n Q E t.

Lemma place_sets E n g R m ex : sets n g -> rv_head_element (g R) = rv_head_element R ->
  does_or E (place R m ex) n (fun _ => place (g R) m ex).
Proof.
  intros Hn Hg.
  assert (Hts : forall m, does_or E (fun t => exists ts, stands R (ex ++ ts) t /\ shape m ts) n
    (fun _ t => exists ts, stands (g R) (ex ++ ts) t /\ shape m ts)).
  { clear m. intros m. apply does_exists. intros ts t [(X & s & l & [Hst Hi] & Hs) Hsh].
    apply (Hn _ _ _ _ _ _ _ Hst). intros t' Hst'. exists ts. split; [|done]. by eapply stands_ok; [split|]. }
  assert (Hhead : forall ex, does_or E (in_the_head R ex) n (fun _ => in_the_head (g R) ex)).
  { intros ex' t (X & sp & h & r & [Hst Hi] & ?). apply (Hn _ _ _ _ _ _ _ Hst). intros t' Hst'.
    exists X, sp, h, r. rewrite Hg. split; [by split|done]. }
  assert (Hstart : does_or E (fun t => ex = [] /\ starting R t) n (fun _ t => ex = [] /\ starting (g R) t)).
  { intros t [-> (X & c & Hst & Hc)]. apply (Hn _ _ _ _ _ _ _ Hst). intros t' Hst'. split; [done|]. by exists X, c. }
  destruct m; try apply (Hts _); try apply Hhead; try exact Hstart.
  - intros t [-> (X & s & [Hst Hi] & Hs)]. apply (Hn _ _ _ _ _ _ _ Hst). intros t' Hst'. split; [done|].
    exists X, s. split; [by split|done].
  - intros t (X & sp & r & [Hst Hi] & ?). apply (Hn _ _ _ _ _ _ _ Hst). intros t' Hst'.
    exists X, sp, r. rewrite Hg. split; [by split|done].
Qed.

Lemma sets_mode m : sets (set_mode m) (rv_set_mode m).
Proof. intros R X s l t Q E Hst HQ. by apply (wp_set_mode Hst). Qed.
Lemma sets_collect m : sets (upd_ctx (set_tc_collect_mode m)) (rv_set_collect_mode m).
Proof. intros R X s l t Q E Hst HQ. by apply (wp_set_collect_mode Hst). Qed.
Lemma sets_token token : sets (modify (set_tb_token token)) (rv_set_token token).
Proof. intros R X s l t Q E Hst HQ. by apply (wp_set_token Hst). Qed.
Lemma place_set_mode E R m ex m' :
  does_or E (place R m ex) (set_mode m') (fun _ => place (rv_set_mode m' R) m ex).
Proof. apply (place_sets _ _ (rv_set_mode m')); [apply sets_mode|done]. Qed.
Lemma place_set_collect E R m ex m' :
  does_or E (place R m ex) (upd_ctx (set_tc_collect_mode m')) (fun _ => place (rv_set_collect_mode m' R) m ex).
Proof. apply (place_sets _ _ (rv_set_collect_mode m')); [apply sets_collect|done]. Qed.
Lemma place_set_token E R m ex token :
  does_or E (place R m ex) (modify (set_tb_token token)) (fun _ => place (rv_set_token token R) m ex).
Proof. apply (place_sets _ _ (rv_set_token token)); [apply sets_token|done]. Qed.
(** ** Pushing and popping *)

(** Pushing an element of type [x] takes [B] to [C]. *)
Definition hosts (B : T -> Prop) (x : element_type) (C : T -> Prop) : Prop :=
  forall t, B t -> exists R X s l, ok R X s l t /\
    (forall X' s' t', X ⊆ X' -> alike s s' -> ok R X' s' l t' -> B t') /\
    (forall X' s' n t', X ⊆ X' -> alike s s' -> (n ∉ X) -> (n ∈ X') ->
       ok R X' (new_cell HUBBUB_NS_HTML x n :: s') l t' -> C t').

Definition hosted (B C : T -> Prop) (e : hubbub_error) (t : T) : Prop :=
  if bool_decide (e = HUBBUB_OK) then C t else client_error e /\ B t.

Lemma hosts_insert B x C tag t : hosts B x C -> element_type_from_name (tag_name tag) = x ->
  tag_ns tag = HUBBUB_NS_HTML -> B t ->
  wp (insert_element alloc_ok tag true) (hosted B C) (hosted B C) t.
Proof.
  intros HB Hx Hns Ht. destruct (HB t Ht) as (R & X & s & l & Hok & Hg & Hp).
  apply (wp_push_element alloc_ok Hlimit _ _ _ _ _ _ _ _ Hok Hns); unfold hosted.
  - intros X' s' n t' HX Ha Hn Hn' Hok'. rewrite bool_decide_true by done. rewrite Hx in Hok'. by eapply Hp.
  - intros e X' s' t' N He HX Ha Hok'. rewrite bool_decide_false by done. split; [done|by eapply Hg].
Qed.

Lemma hosts_insert_does B x C tag : hosts B x C -> element_type_from_name (tag_name tag) = x ->
  tag_ns tag = HUBBUB_NS_HTML -> does B (insert_element alloc_ok tag true) (result C).
Proof.
  intros HB Hx Hns t Ht. destruct (HB t Ht) as (R & X & s & l & Hok & Hg & Hp).
  apply (wp_push_element alloc_ok Hlimit _ _ _ _ _ _ _ _ Hok Hns).
  - intros X' s' n t' HX Ha Hn Hn' Hok'. rewrite Hx in Hok'. by eapply Hp.
  - intros e X' s' t' N He HX Ha Hok'. by eapply ok_fails.
Qed.

Lemma stands_hosts R ts x : hosts (stands R ts) x (stands R (x :: ts)).
Proof.
  intros t (X & s & l & Hok & Hs). exists R, X, s, l. split_and!; [done|..].
  - intros X' s' t' HX Ha Hok'. eapply stands_ok; [done|]. by rewrite (alike_types _ _ Ha).
  - intros X' s' n t' HX Ha _ _ Hok'. eapply stands_ok; [done|]. cbn. by rewrite (alike_types _ _ Ha), Hs.
Qed.

Lemma place_hosts R m ex x : roomy m = true -> hosts (place R m ex) x (place R m (x :: ex)).
Proof.
  assert (H : forall m, hosts (fun t => exists ts, stands R (ex ++ ts) t /\ shape m ts) x
                          (fun t => exists ts, stands R ((x :: ex) ++ ts) t /\ shape m ts)).
  { clear m. intros m t (ts & Ht & Hs). destruct (stands_hosts R _ x _ Ht) as (R' & X & s & l & Hok & Hg & Hp).
    exists R', X, s, l. split_and!; [done|..].
    - intros. exists ts. split; [by eapply Hg|done].
    - intros. exists ts. split; [by eapply Hp|done]. }
  assert (Hhead : forall ex, hosts (in_the_head R ex) x (in_the_head R (x :: ex))).
  { intros ex' t (X & sp & h & r & Hok & Hs & Hh & Hn). exists R, X, (sp ++ [h; r]), []. split_and!; [done|..].
    - intros X' s' t' _ Ha Hok'. apply alike_last2 in Ha as (sp' & h' & r' & -> & Ha & Et & En).
      exists X', sp', h', r'. split_and!; [done|by rewrite (alike_types _ _ Ha)|congruence..].
    - intros X' s' n t' _ Ha _ _ Hok'. apply alike_last2 in Ha as (sp' & h' & r' & -> & Ha & Et & En).
      exists X', (new_cell HUBBUB_NS_HTML x n :: sp'), h', r'.
      split_and!; [done|cbn; by rewrite (alike_types _ _ Ha), Hs|congruence..]. }
  destruct m; intros Hm; try done; try apply (H _).
  - apply Hhead.
  - apply (Hhead (ex ++ [ET.NOSCRIPT])).
  - intros t (X & sp & r & Hok & Hs & Hx & Hn). exists R, X, (sp ++ [r]), []. split_and!; [done|..].
    + intros X' s' t' HX Ha Hok'. pose proof (alike_nodes _ _ Ha) as En.
      apply alike_last in Ha as (sp' & r' & -> & Ha & _).
      exists X', sp', r'. split_and!; [done|by rewrite (alike_types _ _ Ha)|by apply HX|by rewrite En].
    + intros X' s' n t' HX Ha Hfresh _ Hok'. pose proof (alike_nodes _ _ Ha) as En.
      apply alike_last in Ha as (sp' & r' & -> & Ha & _).
      exists X', (new_cell HUBBUB_NS_HTML x n :: sp'), r'.
      split_and!; [done|cbn; by rewrite (alike_types _ _ Ha), Hs|by apply HX|].
      cbn [app map]. rewrite En. apply not_elem_of_cons. split; [|done]. cbn. intros <-. done.
Qed.

Lemma wp_pop_early R X c s (t : T) (Q : element_type -> T -> Prop) E :
  ok R X (c :: s) [] t -> s <> [] -> (forall t', ok R X s [] t' -> Q (ty c) t') -> wp pop_unref Q E t.
Proof.
  intros Hok Hs HQ. apply (wp_pop_ok _ _ _ _ _ _ _ _ Hok Hs). intros l' t' Hl Hok'.
  apply Forall2_nil_inv_l in Hl as ->. by apply HQ.
Qed.

Lemma place_pop E R m x : roomy m = true -> does_or E (place R m [x]) pop_unref (fun _ => place R m []).
Proof.
  assert (H : forall m, does_or E (fun t => exists ts, stands R ([x] ++ ts) t /\ shape m ts)
    pop_unref (fun _ t => exists ts, stands R ([] ++ ts) t /\ shape m ts)).
  { clear m. intros m. apply does_exists. intros ts t [Ht Hs].
    eapply wp_mono; [apply (does_pop E R x ts), Ht; by eapply shape_some| |done].
    intros y t' [_ Ht']. by exists ts. }
  assert (Hhead : forall ex, does_or E (in_the_head R (x :: ex)) pop_unref (fun _ => in_the_head R ex)).
  { intros ex t (X & sp & h & r & Hok & Hs & ?). destruct sp as [|c sp]; [done|]. injection Hs as _ Hs.
    apply (wp_pop_early _ _ _ _ _ _ _ Hok); [by destruct sp|]. intros t' Hok'. by exists X, sp, h, r. }
  destruct m; intros Hm; try done; try apply (H _).
  - apply Hhead.
  - apply Hhead.
  - intros t (X & sp & r & Hok & Hs & Hx & Hn). destruct sp as [|c sp]; [done|]. injection Hs as _ Hs.
    apply (wp_pop_early _ _ _ _ _ _ _ Hok); [by destruct sp|]. intros t' Hok'.
    exists X, sp, r. split_and!; try done. cbn in Hn. by apply not_elem_of_cons in Hn as [].
Qed.

(** ** Good states *)

Lemma place_rest R m ex t : place R m ex t -> rest t = R.
Proof.
  assert (H : forall (P : Prop) X s l, st R X s l t -> rest t = R) by (intros P X s l []; done).
  destruct m; cbn; try (by intros (ts & (X & s & l & [Hst _] & _) & _); apply (H True _ _ _ Hst)).
  - intros [_ (X & c & Hst & _)]. apply (H True _ _ _ Hst).
  - intros [_ (X & c & Hst & _)]. apply (H True _ _ _ Hst).
  - intros [_ (X & s & [Hst _] & _)]. apply (H True _ _ _ Hst).
  - intros (X & sp & h & r & [Hst _] & _). apply (H True _ _ _ Hst).
  - intros (X & sp & h & r & [Hst _] & _). apply (H True _ _ _ Hst).
  - intros (X & sp & r & [Hst _] & _). apply (H True _ _ _ Hst).
Qed.

Lemma place_good R m t : place R m [] t -> rv_mode R = m -> m <> GENERIC_RCDATA -> good t.
Proof.
  intros Ht Hm N. exists R. split; [by eapply place_rest|]. rewrite Hm. by rewrite bool_decide_false.
Qed.

(** The modes from the body on, by the shape of the stack. *)
Definition late (m : insertion_mode) : bool :=
  match m with IN_HEAD | IN_HEAD_NOSCRIPT | AFTER_HEAD => false | _ => roomy m end.

Lemma place_late R m ex t : late m = true -> (exists ts, stands R (ex ++ ts) t /\ shape m ts) -> place R m ex t.
Proof. by destruct m. Qed.

Lemma late_good R m ts t : late m = true -> rv_mode R = m -> shape m ts -> stands R ts t -> good t.
Proof.
  intros Hl Hm Hs Ht. apply (place_good R m); [|done|by intros ->]. apply place_late; [done|by exists ts].
Qed.

Lemma bodyish_good m R t : bodyish m R t -> rv_mode R = m -> good t.
Proof.
  intros (u & Hb & pre & Hp & Ht) Hm. apply (late_good R m (pre ++ u)); [by destruct Hb|done| |done].
  assert (on_base m (pre ++ u)) by (by exists pre, u). by destruct Hb.
Qed.

(** ** Generic text *)

Lemma does_mode {A} E B m (k : insertion_mode -> M A) Q :
  (forall t, B t -> tc_mode (tb_context t) = m) -> does_or E B (k m) Q -> does_or E B (let! m := ctx tc_mode in k m) Q.
Proof. intros Hm Hk t Ht. apply wp_bind, wp_ctx. rewrite (Hm t Ht). by apply Hk. Qed.

Lemma place_mode R m ex t : place R m ex t -> tc_mode (tb_context t) = rv_mode R.
Proof. intros Ht%place_rest. by rewrite <-Ht. Qed.

Lemma place_collects R m x t : roomy m = true ->
  place (rv_set_mode GENERIC_RCDATA (rv_set_collect_mode m R)) m [x] t -> good t.
Proof.
  intros Hr Ht. eexists. split; [by eapply place_rest|]. cbn [rv_mode rv_set_mode rv_collect_mode rv_set_collect_mode].
  rewrite bool_decide_true by done. split; [done|by exists x].
Qed.
End Places.

(** * The "in head" and "in body" insertion modes as a whole. *)

Import String.StringSyntax.
Local Open Scope string_scope.
Local Open Scope Z_scope.

(** What a client that takes changes of the encoding relies on: the charset
    table knows these names. *)
Definition names_known (mibenum_from_name : bytes -> Z) : Prop :=
  mibenum_from_name (chars "utf-16") <> 0 /\ mibenum_from_name (chars "utf-16be") <> 0 /\
  mibenum_from_name (chars "utf-16le") <> 0 /\ mibenum_from_name (chars "Windows-1252") <> 0.

(** The tokens that are covered: no start tags of captions, SVG and MathML, tags in the
    namespace of HTML, text that is not empty, and isindex without empty
    attributes. *)
Definition tame (token : hubbub_token) : Prop :=
  match token with
  | TokenCharacter data => data <> []
  | TokenStartTag tag =>
      tag_ns tag = HUBBUB_NS_HTML /\ one_of (type_of_tag tag) [ET.CAPTION; ET.MATH; ET.SVG] = false /\
      (type_of_tag tag = ET.ISINDEX -> Forall (fun a => attr_value a <> []) (tag_attributes tag))
  | TokenComment _ | TokenDoctype _ | TokenEndTag _ | TokenEOF => True
  end.

Section BodySafe.
Context {W : Type} `{!TreeHandler W} `{!TreeHandlerLaws W}.
Local Abbreviation T := (hubbub_treebuilder W).
Local Abbreviation M := (comp (hubbub_treebuilder W)).
Context (malloc : nat -> gmap Z formatting_list_entry -> option Z) (Hmalloc : malloc_fresh malloc).
Context (alloc_ok : nat -> Z -> bool) (Hlimit : alloc_limit alloc_ok).
Context (mibenum_from_name : bytes -> Z) (mibenum_to_name : Z -> option bytes).
Context (Hnames : th_encoding_change = None \/ names_known mibenum_from_name).
Local Abbreviation does := (does_or fails).
Local Abbreviation in_head := (handle_in_head alloc_ok mibenum_from_name mibenum_to_name).

(** ** Meta and generic text, when they may fail *)

Lemma meta_charsets_total attrs : names_known mibenum_from_name -> forall a b,
  exists r, meta_charsets mibenum_from_name attrs a b = Some r.
Proof.
  intros Hn. induction attrs as [|x attrs IH]; intros a b; cbn [meta_charsets]; [eauto|].
  destruct (bytes_eqb _ _); [apply IH|]. destruct (bytes_eqb _ _); [|apply IH].
  destruct (parse_content_in mibenum_from_name (attr_value x) 0 (zlen (attr_value x))) as [m ->].
  { lia. } { pose proof (zlen_nonneg (attr_value x)). lia. } { lia. }
  apply IH.
Qed.

Lemma softly_meta B tag : growing B ->
  softly B (process_meta_in_head alloc_ok mibenum_from_name mibenum_to_name tag).
Proof.
  intros HB t Ht. eapply (softly_then B); [by apply (softly_insert alloc_ok Hlimit)|by split| |exact Ht].
  clear t Ht. intros t Ht. destruct th_encoding_change as [f|] eqn:Ef; [|by apply wp_ret].
  destruct Hnames as [|Hn]; [congruence|]. pose proof Hn as (H1 & H2 & H3 & H4).
  apply wp_bind, wp_assert; [by rewrite !(proj2 (Z.eqb_neq _ _))|].
  destruct (meta_charsets_total (tag_attributes tag) Hn 0 0) as [[enc enc2] Hm].
  eapply wp_bind, wp_of_option; [exact Hm|]. cbv beta iota zeta.
  set (enc' := if (enc =? 0) && negb (enc2 =? 0) then enc2 else enc). clearbody enc'.
  destruct (Z.eqb_spec enc' 0) as [|N]; [by apply wp_ret|].
  destruct (fix_charset_in mibenum_from_name enc' H4 N) as (m & Hf & _).
  eapply wp_bind, wp_of_option; [exact Hf|]. cbn beta.
  refine (softly_handler B (f _) HB _ t Ht). intros w e w' He. by eapply th_encoding_change_law.
Qed.

(** The text of an element is collected, or the place is kept. *)
Definition collecting R m ex x (t : T) : Prop :=
  place R m ex t \/ place (rv_set_mode GENERIC_RCDATA (rv_set_collect_mode (rv_mode R) R)) m (x :: ex) t.
Definition into R m ex x (e : hubbub_error) (t : T) : Prop :=
  if bool_decide (e = HUBBUB_OK) then collecting R m ex x t else soft (place R m ex) e t.

Lemma soft_into R m ex x e t : soft (place R m ex) e t -> into R m ex x e t.
Proof. unfold into. intros [He Ht]. destruct (bool_decide _); [by left|done]. Qed.

Lemma into_softly R m ex x (c : M hubbub_error) t :
  softly (place R m ex) c -> place R m ex t -> wp c (into R m ex x) (into R m ex x) t.
Proof.
  intros H Ht. eapply wp_mono; [by apply H|apply soft_into|]. intros e t' [_ Hs]. by apply soft_into.
Qed.

Lemma into_generic R m ex tag rcdata t : roomy m = true -> tag_ns tag = HUBBUB_NS_HTML ->
  place R m ex t ->
  wp (parse_generic_rcdata alloc_ok tag rcdata) (into R m ex (type_of_tag tag))
    (fun e t => e <> HUBBUB_OK /\ into R m ex (type_of_tag tag) e t) t.
Proof.
  intros Hr Hns Ht. set (I := into R m ex (type_of_tag tag)). set (E := fun e t => e <> HUBBUB_OK /\ I e t).
  apply wp_bind, wp_bind, wp_call.
  assert (Hk : forall e t, hosted (place R m ex) (place R m (type_of_tag tag :: ex)) e t ->
    wp (check e) (fun _ => wp (do! set_content_model (if rcdata then HUBBUB_CONTENT_MODEL_RCDATA else HUBBUB_CONTENT_MODEL_CDATA) in
      let! mode := ctx tc_mode in
      do! upd_ctx (set_tc_collect_mode mode) in
      do! upd_ctx (set_tc_collect_type (element_type_from_name (tag_name tag))) in
      do! set_mode GENERIC_RCDATA in ret HUBBUB_OK) I E) E t).
  { intros e t' Hh. unfold hosted in Hh. apply wp_check.
    - intros ->. cbn in Hh. revert t' Hh.
      change (does_or E (place R m (type_of_tag tag :: ex)) (do! set_content_model (if rcdata then HUBBUB_CONTENT_MODEL_RCDATA else HUBBUB_CONTENT_MODEL_CDATA) in
        let! mode := ctx tc_mode in
        do! upd_ctx (set_tc_collect_mode mode) in
        do! upd_ctx (set_tc_collect_type (element_type_from_name (tag_name tag))) in
        do! set_mode GENERIC_RCDATA in ret HUBBUB_OK) I).
      eapply does_then; [apply does_neutral; [by apply place_growing|apply neutral_content_model]|].
      apply (does_mode _ _ (rv_mode R)); [intros t' Ht'; by rewrite (place_mode _ _ _ _ Ht')|].
      eapply does_then; [apply place_set_collect|].
      eapply does_then; [apply does_neutral; [by apply place_growing|apply neutral_collect_type]|].
      eapply does_then; [apply place_set_mode|]. apply does_ret. intros t' Ht'. right. exact Ht'.
    - intros N. rewrite bool_decide_false in Hh by done. split; [done|]. subst I. unfold into. by rewrite bool_decide_false. }
  eapply wp_mono; [|exact Hk|exact Hk].
  eapply hosts_insert; [exact Hlimit|by apply place_hosts|done|done|done].
Qed.

(** ** Start tags that belong in the head *)

Definition head_types : list element_type :=
  [ET.BASE; ET.COMMAND; ET.LINK; ET.META; ET.NOFRAMES; ET.SCRIPT; ET.STYLE; ET.TITLE].

Lemma into_head (inb : hubbub_token -> M hubbub_error) R m ex tag t (E : hubbub_error -> T -> Prop) :
  roomy m = true -> tag_ns tag = HUBBUB_NS_HTML -> one_of (type_of_tag tag) head_types = true ->
  place R m ex t ->
  wp (in_head inb (TokenStartTag tag)) (into R m ex (type_of_tag tag)) E t.
Proof.
  intros Hr Hns Hty Ht. set (I := into R m ex (type_of_tag tag)).
  assert (Hend : forall e t', I e t' ->
    wp (do! (if false || bool_decide (e = HUBBUB_REPROCESS)
             then let! _ := pop_unref in set_mode AFTER_HEAD else ret tt) in ret e) I E t').
  { intros e t' He. rewrite bool_decide_false; [by apply wp_ret, wp_ret|]. subst I. unfold into in He.
    intros ->. cbn in He. by destruct He as [[[] _] _]. }
  apply wp_bind, wp_bind. eapply (wp_mono _ I); [|intros e t' He; by apply wp_ret, Hend|done].
  change (element_type_from_name (tag_name tag)) with (type_of_tag tag).
  assert (Hg : forall rcdata, wp (call (parse_generic_rcdata alloc_ok tag rcdata)) I E t).
  { intros rcdata. apply wp_call. eapply wp_mono; [by apply into_generic|done|by intros e t' []]. }
  assert (Hs : forall c : M hubbub_error, softly (place R m ex) c -> wp (call c) I E t).
  { intros c Hc. apply wp_call. by apply into_softly. }
  pose proof (place_growing R m ex Hr) as HB.
  pose proof (Hs _ (softly_insert alloc_ok Hlimit _ tag HB)) as Hv. pose proof (Hs _ (softly_meta _ tag HB)) as Hm.
  clear Hs Hend. clearbody I. revert Hg Hv Hm. generalize (type_of_tag tag), Hty. clear.
  intros y Hy Hg Hv Hm. types Hy; cbn; done || apply Hg.
Qed.

(** ** What the body's handlers leave *)

(** A state that is good, and stays so as the client's nodes grow. *)
Definition steady (t : T) : Prop := exists B, growing B /\ B t /\ forall t', B t' -> good t'.

Lemma steady_good t : steady t -> good t.
Proof. intros (B & _ & Ht & H). by apply H. Qed.

Lemma steady_growing : growing steady.
Proof.
  intros t (B & HB & Ht & H). destruct (HB t Ht) as (R & X & s & l & Hok & Hg). exists R, X, s, l.
  split; [done|]. intros X' s' t' HX Ha Hok'. exists B. split_and!; [done|by eapply Hg|done].
Qed.

Lemma place_steady R m t : roomy m = true -> rv_mode R = m -> place R m [] t -> steady t.
Proof.
  intros Hr Hm Ht. exists (place R m []). split_and!; [by apply place_growing|done|].
  intros t' Ht'. apply (place_good R m); [done|done|by intros ->].
Qed.

Lemma collects_steady R m x t : roomy m = true ->
  place (rv_set_mode GENERIC_RCDATA (rv_set_collect_mode m R)) m [x] t -> steady t.
Proof.
  intros Hr Ht. eexists. split_and!; [by apply place_growing|exact Ht|]. intros t'. by apply place_collects.
Qed.

Lemma into_steady R m x e t : roomy m = true -> rv_mode R = m -> into R m [] x e t -> result steady e t.
Proof.
  intros Hr Hm. unfold into. destruct (bool_decide_reflect (e = HUBBUB_OK)) as [->|N].
  - intros [Ht|Ht]; [by eapply place_steady|]. rewrite Hm in Ht. by eapply collects_steady.
  - intros Hs. by eapply fails_result, soft_fails; [by apply place_growing|..].
Qed.
End BodySafe.
