(* ===== verification/TreeBodyTags.v ===== *)
(** * TreeBodyTags: the tags of the "in body" insertion mode, all of them. *)
From Stdlib Require Ascii String.
From S2P Require Import Prelude.
From S2P Require Import Errors.
From S2P Require Import Detect.
From S2P Require Import DetectSpec.
From S2P Require Import Tokens.
From S2P Require Import TokeniserState.
From S2P Require Import TokeniserMonad.
From S2P Require Import TokeniserWp.
From S2P Require Import ElementType.
From S2P Require Import TreeState.
From S2P Require Import TreeRepr.
From S2P Require Import TreeStack.
From S2P Require Import TreeAdoption.
From S2P Require Import TreeBody.
From S2P Require Import TreeModes.
From S2P Require Import TreeRules.
From S2P Require Import TreeInv.
From S2P Require Import TreeSteps.
From S2P Require Import TreePops.
From S2P Require Import TreeRounds.
From S2P Require Import TreeFlow.
From S2P Require Import TreeInBody.
From S2P Require Import TreePlaces.
From stdpp Require Import gmap.
From stdpp Require Import gmap.
Local Open Scope Z_scope.

(** Start tags of the given types, and end tags. *)
Definition starts (types : list element_type) (token : hubbub_token) : bool :=
  match token with TokenStartTag tag => one_of (type_of_tag tag) types | _ => false end.
Definition ends (types : list element_type) (token : hubbub_token) : bool :=
  match token with TokenEndTag tag => one_of (type_of_tag tag) types | _ => false end.

Section BodyTags.
Context {W : Type} `{!TreeHandler W} `{!TreeHandlerLaws W}.
Local Abbreviation T := (hubbub_treebuilder W).
Local Abbreviation M := (comp (hubbub_treebuilder W)).
Context (malloc : nat -> gmap Z formatting_list_entry -> option Z) (Hmalloc : malloc_fresh malloc).
Context (alloc_ok : nat -> Z -> bool) (Hlimit : alloc_limit alloc_ok).
Context (mibenum_from_name : bytes -> Z) (mibenum_to_name : Z -> option bytes).
Context (Hnames : th_encoding_change = None \/ names_known mibenum_from_name).
Local Abbreviation does := (does_or fails).
Local Abbreviation in_head := (handle_in_head alloc_ok mibenum_from_name mibenum_to_name).

(** ** Places and bodies *)

Lemma base_late m u : base m u -> late m = true.
Proof. by destruct 1. Qed.

Lemma base_roomy m u : base m u -> roomy m = true.
Proof. by destruct 1. Qed.

Lemma base_shape m pre u : Forall plain pre -> base m u -> shape m (pre ++ u).
Proof. intros Hp Hb. assert (on_base m (pre ++ u)) by (by exists pre, u). by destruct Hb. Qed.

Lemma bodyish_place m R t : bodyish m R t -> place R m [] t.
Proof.
  intros (u & Hb & pre & Hp & Ht). apply place_late; [by eapply base_late|].
  exists (pre ++ u). split; [done|by apply base_shape].
Qed.

Lemma bodyish_steady m R t : bodyish m R t -> rv_mode R = m -> steady t.
Proof.
  intros Ht Hm. pose proof Ht as (u & Hb & _). apply (place_steady R m); [by eapply base_roomy|done|].
  by apply bodyish_place.
Qed.

Lemma steady_late R m ts t : late m = true -> rv_mode R = m -> shape m ts -> stands R ts t -> steady t.
Proof.
  intros Hl Hm Hs Ht. apply (place_steady R m); [by destruct m|done|]. apply place_late; [done|by exists ts].
Qed.

Lemma keeps_steady E m : neutral m -> does_or E steady m (fun _ => steady).
Proof. apply does_neutral, steady_growing. Qed.

Lemma does_generic R m tag rcdata : roomy m = true -> rv_mode R = m -> tag_ns tag = HUBBUB_NS_HTML ->
  does (place R m []) (parse_generic_rcdata alloc_ok tag rcdata) (result steady).
Proof.
  intros Hr Hm Hns t Ht. eapply wp_mono; [by apply (into_generic alloc_ok Hlimit R m [])|..].
  - intros e t'. by apply into_steady.
  - intros e t' [N Hi]. apply into_steady in Hi; [|done..]. by destruct e.
Qed.

Lemma does_head (inb : hubbub_token -> M hubbub_error) R m tag : roomy m = true -> rv_mode R = m ->
  tag_ns tag = HUBBUB_NS_HTML -> one_of (type_of_tag tag) head_types = true ->
  does (place R m []) (in_head inb (TokenStartTag tag)) (result steady).
Proof.
  intros Hr Hm Hns Hty t Ht. eapply wp_mono; [by apply (into_head alloc_ok Hlimit _ mibenum_to_name Hnames inb R m [])| |done].
  intros e t'. by apply into_steady.
Qed.

(** ** html, body and frameset *)

Lemma does_html B tag : growing B -> softly B (process_html_in_body tag).
Proof.
  intros HB t Ht. apply wp_bind, (looks_root B HB t Ht). intros p. revert t Ht.
  apply softly_handler; [done|]. intros w e w' He. by eapply th_add_attributes_law.
Qed.

Context (m : insertion_mode) (R : rest_view) (Hm : rv_mode R = m).
Context (u : list element_type) (Hb : base m u).
Local Abbreviation B := (body R u).

Lemma body_steady t : B t -> steady t.
Proof. intros Ht. apply (bodyish_steady m R); [by exists u|done]. Qed.

Lemma body_place t : B t -> place R m [] t.
Proof. intros Ht. apply bodyish_place. by exists u. Qed.

(** Under the elements of a body there are the body and html. *)
Lemma body_bottom t : B t -> exists w, stands R ((w ++ [ET.BODY]) ++ [ET.HTML]) t /\ Forall (fun y => y <> ET.BODY) w.
Proof.
  intros (pre & Hp & Ht). destruct (base_bottom _ _ Hb) as (w & -> & Hw). exists (pre ++ w).
  split; [by rewrite <-!(assoc_L (++))|]. apply Forall_app. split; [|done].
  eapply Forall_impl; [exact Hp|]. by intros y Hy ->.
Qed.

Lemma does_on_body {A} E (k : M A) Q :
  (forall w, Forall (fun y => y <> ET.BODY) w ->
     does_or E (fun t => B t /\ stands R (w ++ ET.BODY :: [ET.HTML]) t) k Q) -> does_or E B k Q.
Proof.
  intros Hk t Ht. destruct (body_bottom t Ht) as (w & Hs & Hw). apply (Hk w Hw). split; [done|].
  by rewrite <-(assoc_L (++)) in Hs.
Qed.

Lemma does_no_body {A} E (k : bool -> M A) Q : does_or E B (k false) Q -> does_or E B (let! none := no_body in k none) Q.
Proof.
  intros Hk t Ht. destruct (body_bottom t Ht) as (w & (X & s & l & Hok & Hs) & _).
  rewrite <-(assoc_L (++)) in Hs. apply wp_bind. pose proof (ok_st _ _ _ _ _ Hok) as Hst.
  eapply wp_bind, (wp_top_index Hst). rewrite (types_zlen _ _ Hs), zlen_app.
  replace (zlen ([ET.BODY] ++ [ET.HTML])) with 2 by done. pose proof (zlen_nonneg w).
  destruct (Z.ltb_spec (zlen w + 2 - 1) 1); [lia|].
  apply map_split in Hs as (sa & c & sb & -> & _ & Hc & Hsb).
  replace 1 with (zlen sb) by (by rewrite (types_zlen _ _ Hsb)).
  eapply wp_bind, (wp_stack_type Hst); [apply at_index_mid|eapply cells_in, ok_cells, Hok|].
  rewrite Hc. by apply wp_ret, Hk.
Qed.

Lemma looks_body : looks B (stack_node 1).
Proof.
  intros t Ht Q E HQ. destruct (body_bottom t Ht) as (w & (X & s & l & Hok & Hs) & _).
  rewrite <-(assoc_L (++)) in Hs. pose proof (ok_st _ _ _ _ _ Hok) as Hst.
  apply map_split in Hs as (sa & c & sb & -> & _ & Hc & Hsb).
  replace 1 with (zlen sb) by (by rewrite (types_zlen _ _ Hsb)).
  eapply (wp_stack_node Hst); [apply at_index_mid|eapply cells_in, ok_cells, Hok|done].
Qed.

Lemma does_body_tag tag : does B (process_body_in_body tag) (result steady).
Proof.
  apply does_no_body. apply does_looks; [exact looks_body|]. intros p.
  eapply does_weaken; [apply softly_does; [apply steady_growing|]|apply body_steady|done].
  apply softly_handler; [apply steady_growing|]. intros w e w' He. by eapply th_add_attributes_law.
Qed.

Lemma does_remove_node node ts : does (stands R ts) (remove_node_from_dom node) (result (stands R ts)).
Proof.
  intros t (X & s & l & [Hst Hi] & Hs). apply (wp_remove_node _ _ _ _ _ _ _ _ Hst).
  - intros t' Hst'. by eapply stands_ok; [split|].
  - intros e t' N He Hst'. by eapply ok_fails; [split|..].
Qed.

Lemma does_frameset tag : tag_ns tag = HUBBUB_NS_HTML -> type_of_tag tag = ET.FRAMESET ->
  does B (process_frameset_in_body alloc_ok tag) (result steady).
Proof.
  intros Hns Hty. apply does_no_body, does_ctx. intros fok. destruct (negb fok).
  { apply does_ret. exact body_steady. }
  apply does_looks; [exact looks_body|]. intros body. apply does_on_body. intros w Hw.
  eapply does_weaken; [|by intros t [_ Ht]; exact Ht|done].
  eapply does_check_call; [apply does_remove_node|].
  eapply does_then; [apply (does_assert_ok _ _ _ (stands R [ET.HTML]))|].
  { eapply does_then; [|by apply does_ret]. apply does_pop_until; [done| |done].
    eapply Forall_impl; [exact Hw|]. intros y N. cbn in N. by destruct (type_eqb_spec y ET.BODY). }
  eapply does_after_ok; [by apply does_insert|].
  eapply does_weaken; [apply does_set_mode|done|]. intros [] t Ht.
  eapply (steady_late (rv_set_mode IN_FRAMESET R) IN_FRAMESET); [done|done| |exact Ht]. exists 1%nat. change (type_of_tag tag :: [ET.HTML] = [ET.FRAMESET; ET.HTML]). by rewrite Hty.
Qed.

(** ** Select and table *)

Lemma does_select tag : tag_ns tag = HUBBUB_NS_HTML -> type_of_tag tag = ET.SELECT ->
  does B (process_select_start alloc_ok tag) (result steady).
Proof.
  intros Hns Hty. pose proof (base_walled _ _ Hb) as Hw.
  set (C t := exists pre, Forall plain pre /\ stands R (ET.SELECT :: pre ++ u) t).
  assert (Hsel : does B (process_select_in_body alloc_ok tag) (result C)).
  { eapply does_check_call; [by apply (keeps_reconstruct alloc_ok Hlimit R u)|].
    eapply does_after_ok; [|apply does_neutral; [|apply neutral_frameset_ok]].
    - apply does_exists. intros pre. apply does_and. intros Hp.
      eapply does_weaken; [by apply does_insert|done|]. intros e t. apply result_mono.
      intros t' Ht'. exists pre. split; [done|]. by rewrite <-Hty.
    - intros t (pre & Hp & Ht). destruct (stands_growing _ _ _ Ht) as (R' & X & s & l & Hok & Hg).
      exists R', X, s, l. split; [done|]. intros. exists pre. split; [done|by eapply Hg]. }
  eapply does_check_call; [exact Hsel|].
  assert (Hgo : forall m', late m' = true -> (m' = IN_SELECT \/ m' = IN_SELECT_IN_TABLE) ->
    does C (do! set_mode m' in ret HUBBUB_OK) (result steady)).
  { intros m' Hl Hs. apply does_exists. intros pre. apply does_and. intros Hp.
    eapply does_then; [apply does_set_mode|]. apply does_ret. intros t Ht.
    apply (steady_late (rv_set_mode m' R) m' (ET.SELECT :: pre ++ u)); try done.
    assert (exists p v m0, ET.SELECT :: pre ++ u = p ++ ET.SELECT :: v /\ Forall plain p /\ on_base m0 v).
    { exists [], (pre ++ u), m. split_and!; [done|constructor|by exists pre, u]. }
    by destruct Hs as [-> | ->]. }
  intros t Ht. apply wp_bind, wp_ctx.
  assert (Hmode : tc_mode (tb_context t) = m).
  { destruct Ht as (pre & _ & Ht). by rewrite (stands_mode _ _ _ Ht). }
  rewrite Hmode. clear Hmode Hsel. destruct Hb; cbn; (apply Hgo; [done|auto|done]).
Qed.

Lemma does_table tag : tag_ns tag = HUBBUB_NS_HTML -> type_of_tag tag = ET.TABLE -> m = IN_BODY \/ m = IN_CELL ->
  does B (let! err := call (process_container_in_body alloc_ok tag) in
    do! (if bool_decide (err = HUBBUB_OK) then
           do! set_frameset_ok false in
           let! t := current_table in
           do! upd_cell t (set_ec_tainted (Some false)) in set_mode IN_TABLE
         else ret tt) in
    ret err) (result steady).
Proof.
  intros Hns Hty Hbc. pose proof (base_walled _ _ Hb) as Hw.
  set (C t := exists pre, Forall plain pre /\ stands R (ET.TABLE :: pre ++ u) t).
  assert (HC : growing C).
  { intros t (pre & Hp & Ht). destruct (stands_growing _ _ _ Ht) as (R' & X & s & l & Hok & Hg).
    exists R', X, s, l. split; [done|]. intros. exists pre. split; [done|by eapply Hg]. }
  assert (Hins : does B (insert_element alloc_ok tag true) (result C)).
  { apply does_exists. intros pre. apply does_and. intros Hp.
    eapply does_weaken; [by apply does_insert|done|]. intros e t. apply result_mono.
    intros t' Ht'. exists pre. split; [done|]. by rewrite <-Hty. }
  apply (does_after_ok _ C).
  { apply (does_if_scope R u Hw); [done|by apply does_skip|].
    eapply does_then; [|exact Hins].
    eapply does_weaken; [apply does_checked, (keeps_0p alloc_ok Hlimit R u Hw)|by apply inside_body|done]. }
  eapply does_then; [apply does_neutral; [exact HC|apply neutral_frameset_ok]|].
  apply does_exists. intros pre. apply does_and. intros Hp.
  intros t (X & s & l & [Hst Hi] & Hs). destruct s as [|c s]; [done|]. injection Hs as Hc Hs.
  eapply wp_bind, (wp_current_table _ _ _ _ _ _ _ Hst (iv_cells _ _ _ Hi)).
  destruct s as [|c2 s]; [by destruct pre, u; [apply base_some in Hb|..]|]. cbn [table_index]. rewrite Hc. cbn [type_eqb].
  eapply wp_bind, (wp_upd_cell _ R X [] c (c2 :: s) l _ _ _ Hst). clear t Hst. intros t Hst.
  apply (wp_set_mode Hst). clear t Hst. intros t Hst.
  apply (steady_late (rv_set_mode IN_TABLE R) IN_TABLE (ET.TABLE :: pre ++ u)); [done..| |].
  - apply (base_shape IN_TABLE []); [constructor|]. by apply (base_table m).
  - eapply stands_ok; [split; [exact Hst|]|rewrite <-Hs, <-Hc; reflexivity]. eapply inv_alike; [|exact Hi].
    constructor; [|apply alike_refl]. split_and!; eauto.
Qed.

(** ** Start tags *)

Lemma settled (c : M hubbub_error) : does B c (result B) -> does B c (result steady).
Proof. intros H. eapply does_weaken; [exact H|done|]. intros e t. apply result_mono, body_steady. Qed.

Lemma does_generic_body tag rcdata : tag_ns tag = HUBBUB_NS_HTML ->
  does B (parse_generic_rcdata alloc_ok tag rcdata) (result steady).
Proof.
  intros Hns. eapply does_weaken; [apply (does_generic R m); [by eapply base_roomy|done|done]|apply body_place|done].
Qed.

Lemma settled_neutral n (c : M hubbub_error) : neutral n -> does B c (result steady) -> does B (do! n in c) (result steady).
Proof. intros Hn Hc. eapply does_then; [by apply does_neutral; [apply body_growing|]|done]. Qed.

Lemma type_case {A} (P : A -> Prop) y y' a b :
  (y = y' -> P a) -> (type_eqb y y' = false -> P b) -> P (if type_eqb y y' then a else b).
Proof. intros Ha Hn. destruct (type_eqb_spec y y') as [E|N]; [by apply Ha|]. apply Hn. by destruct (type_eqb_spec y y'). Qed.

Lemma types_case {A} (P : A -> Prop) y l a b :
  (one_of y l = true -> P a) -> (one_of y l = false -> P b) -> P (if one_of y l then a else b).
Proof. destruct (one_of y l); auto. Qed.

Lemma does_start_tag inb tag : tame (TokenStartTag tag) ->
  (type_of_tag tag = ET.TABLE -> m = IN_BODY \/ m = IN_CELL) ->
  does B (process_start_tag malloc alloc_ok (in_head inb) tag) (result steady).
Proof.
  intros (Hns & Htame & Hidx) Htable. pose proof (base_walled _ _ Hb) as Hw.
  set (P (c : M hubbub_error) := does B c (result steady)). change (P (process_start_tag malloc alloc_ok (in_head inb) tag)).
  unfold process_start_tag. change (element_type_from_name (tag_name tag)) with (type_of_tag tag). cbv zeta.
  assert (Hpl : forall l, one_of (type_of_tag tag) l = true -> forallb (fun y => negb (one_of y structural)) l = true ->
    plain (element_type_from_name (tag_name tag))).
  { intros l Hl Hall. change (plain (type_of_tag tag)). rewrite forallb_forall in Hall.
    apply one_of_In, Hall, negb_true_iff in Hl. exact Hl. }
  assert (Hkeep : forall c, does B c (result B) -> P c) by exact settled.
  apply type_case; [intros _|intros N1].
  { apply Hkeep, softly_does; [apply body_growing|]. apply does_html, body_growing. }
  apply types_case; [intros Hy|intros N2].
  { eapply does_weaken; [apply (does_head inb R m); [by eapply base_roomy|done..]|apply body_place|done]. }
  apply type_case; [intros _|intros N3]; [apply does_body_tag|].
  apply type_case; [intros Hy|intros N4]; [by apply does_frameset|].
  apply types_case; [intros Hy|intros N5].
  { apply Hkeep, (keeps_container alloc_ok Hlimit R u Hw); [done|by eapply Hpl]. }
  unfold is_heading. apply types_case; [intros Hy|intros N6].
  { apply Hkeep, (keeps_hN alloc_ok Hlimit R u Hw); [done|by eapply Hpl]. }
  apply types_case; [intros Hy|intros N7].
  { apply Hkeep. eapply does_after_ok; [apply (keeps_container alloc_ok Hlimit R u Hw); [done|by eapply Hpl]|].
    eapply does_then; apply keeps_neutral; [apply neutral_strip|apply neutral_frameset_ok]. }
  apply type_case; [intros Hy|intros N8].
  { apply Hkeep, (keeps_form alloc_ok Hlimit R u Hw); [done|]. change (plain (type_of_tag tag)). by rewrite Hy. }
  apply types_case; [intros Hy|intros N9].
  { apply Hkeep, (keeps_list_item alloc_ok Hlimit R u Hw); [done|by eapply Hpl]. }
  apply type_case; [intros Hy|intros N10].
  { apply Hkeep, (keeps_plaintext alloc_ok Hlimit R u Hw); [done|]. change (plain (type_of_tag tag)). by rewrite Hy. }
  apply type_case; [intros Hy|intros N11].
  { intros t Ht. eapply wp_mono; [apply (keeps_a malloc Hmalloc alloc_ok Hlimit m R); [done|done|by exists u]| |done].
    intros e t'. apply result_mono. intros t2 Ht2. by eapply bodyish_steady. }
  apply types_case; [intros Hy|intros N12].
  { apply Hkeep, keeps_presentational; try done. by types Hy. }
  apply type_case; [intros Hy|intros N13].
  { by apply Hkeep, keeps_nobr. }
  apply type_case; [intros Hy|intros N14].
  { by apply Hkeep, keeps_button. }
  apply types_case; [intros Hy|intros N15].
  { apply Hkeep, keeps_applet; try done. by types Hy. }
  apply type_case; [intros Hy|intros N16].
  { eapply does_check_call; [by apply keeps_reconstruct|].
    apply settled_neutral; [apply neutral_frameset_ok|by apply does_generic_body]. }
  apply type_case; [intros Hy|intros N17]; [by apply does_table; auto|].
  apply types_case; [intros Hy|intros N18].
  { apply Hkeep. eapply does_check_call; [by apply keeps_reconstruct|by apply keeps_insert_void]. }
  apply type_case; [intros Hy|intros N19]; [by apply Hkeep, keeps_hr|].
  apply type_case; [intros Hy|intros N20]; [by apply Hkeep, keeps_image|].
  apply type_case; [intros Hy|intros N21]; [by apply Hkeep, keeps_isindex; auto|].
  apply type_case; [intros Hy|intros N22].
  { apply settled_neutral; [apply neutral_strip|]. apply settled_neutral; [apply neutral_frameset_ok|].
    by apply does_generic_body. }
  apply does_ctx. intros scripting. destruct (_ || _).
  { eapply does_then; [|by apply does_generic_body]. apply does_when. intros _. apply keeps_neutral, neutral_frameset_ok. }
  apply type_case; [intros Hy|intros N23]; [by apply does_select|].
  apply types_case; [intros Hy|intros N24].
  { apply Hkeep, keeps_opt; [done|done|done|by eapply Hpl]. }
  apply types_case; [intros Hy|intros N25]; [apply does_ret; exact body_steady|].
  replace (one_of (type_of_tag tag) [ET.MATH; ET.SVG]) with false.
  2: { symmetry. apply one_of_false. apply one_of_false in Htame. intros [E|[E|[]]]; apply Htame; cbn; auto. }
  apply types_case; [intros Hy|intros N26]; [apply does_ret; exact body_steady|].
  apply Hkeep, keeps_phrasing; try done. change (plain (type_of_tag tag)).
  unfold plain. apply one_of_false. intros Hin. cbn [In structural] in Hin.
  repeat destruct Hin as [Hin|Hin]; try done; symmetry in Hin; rewrite Hin in *; done.
Qed.

(** ** End tags *)

(** The end tag of html is handled again after the body. *)
Definition ended (token : hubbub_token) (e : hubbub_error) (t : T) : Prop :=
  result steady e t \/
  e = HUBBUB_REPROCESS /\ m = IN_BODY /\ ends [ET.HTML] token = true /\
    place (rv_set_mode AFTER_BODY R) AFTER_BODY [] t.

Lemma does_0body E : m = IN_BODY ->
  does_or E B process_0body_in_body (fun e t => e = HUBBUB_OK /\ steady t \/
    e = HUBBUB_REPROCESS /\ m = IN_BODY /\ place (rv_set_mode AFTER_BODY R) AFTER_BODY [] t).
Proof.
  intros Em. apply does_exists. intros pre. apply does_and. intros Hp.
  eapply does_bind; [apply does_in_scope|]. intros b. apply does_and. intros _. destruct b; cbn [negb].
  - apply (does_mode _ _ IN_BODY); [intros t Ht; rewrite (stands_mode _ _ _ Ht); congruence|].
    rewrite bool_decide_true by done. eapply does_then; [apply does_set_mode|]. apply does_ret. intros t Ht.
    right. split_and!; [done..|]. exists (pre ++ u). split; [done|]. exists pre, u. rewrite <-Em. done.
  - apply does_ret. intros t Ht. left. split; [done|]. apply body_steady. by exists pre.
Qed.

Lemma ends_settled token (c : M hubbub_error) : does B c (result B) -> does B c (ended token).
Proof. intros H. eapply does_weaken; [by apply settled|done|]. intros e t Ht. by left. Qed.

Lemma does_end_tag tag : m = IN_BODY \/ one_of (type_of_tag tag) (ET.HTML :: floors) = false ->
  does B (process_end_tag malloc alloc_ok tag) (ended (TokenEndTag tag)).
Proof.
  intros Hend. pose proof (base_walled _ _ Hb) as Hw.
  set (P (c : M hubbub_error) := does B c (ended (TokenEndTag tag))). change (P (process_end_tag malloc alloc_ok tag)).
  unfold process_end_tag. change (element_type_from_name (tag_name tag)) with (type_of_tag tag). cbv zeta.
  assert (Hbody : one_of (type_of_tag tag) [ET.BODY; ET.HTML] = true -> m = IN_BODY).
  { intros Hy. destruct Hend as [|Hn]; [done|]. apply one_of_cases in Hy as [Hy|[Hy|[]]]; by rewrite <-Hy in Hn. }
  assert (Hkeep : forall c, does B c (result B) -> P c) by exact (ends_settled (TokenEndTag tag)).
  assert (Hsure : forall c, surely B c B -> P c) by (intros c Hc; by apply Hkeep, surely_does).
  apply type_case; [intros Hy|intros N1].
  { intros t Ht. eapply wp_bind, wp_call, wp_mono; [apply (does_0body (fun _ _ => False)), Ht| |done].
    - apply Hbody. by rewrite Hy.
    - intros e t' [[-> Ht']|(-> & Em & Ht')]; apply wp_ret; left; [done|]. cbn.
      by apply (place_steady (rv_set_mode AFTER_BODY R) AFTER_BODY). }
  apply type_case; [intros Hy|intros N2].
  { eapply does_weaken; [apply does_0body, Hbody; by rewrite Hy|done|].
    intros e t [[-> Ht]|(-> & Em & Ht)]; [by left|right]. split_and!; [done|done|by cbn; rewrite Hy|done]. }
  apply types_case; [intros Hy|intros N3].
  { apply Hsure, surely_0container; try done; by types Hy. }
  apply type_case; [intros Hy|intros N4]; [by apply Hsure, surely_0form|].
  apply type_case; [intros Hy|intros N5]; [by apply Hkeep, keeps_0p|].
  apply types_case; [intros Hy|intros N6]; [by apply Hsure, surely_0list_item|].
  unfold is_heading. apply types_case; [intros Hy|intros N7]; [by apply Hsure, surely_0h|].
  apply types_case; [intros Hy|intros N8].
  { apply Hkeep, keeps_adoption; try done. by types Hy. }
  apply types_case; [intros Hy|intros N9].
  { apply Hsure, surely_0applet; try done. by types Hy. }
  apply type_case; [intros Hy|intros N10]; [by apply Hkeep, keeps_0br|].
  apply does_ctx. intros scripting. destruct (_ || _).
  { apply Hkeep, does_ok. }
  apply Hsure, surely_0generic; [done|]. intros v E. destruct Hend as [Em|Hn].
  - assert (Eu : u = [ET.BODY; ET.HTML]) by (clear - Hb Em; by destruct Hb; subst).
    rewrite Eu in E. injection E as E _. by rewrite <-E in N1.
  - destruct Hw as [(y & v' & Eu & _ & Hf) _]. rewrite E in Eu. injection Eu as <- _.
    apply one_of_false in Hn. apply Hn. right. by apply one_of_In.
Qed.

(** ** Every token *)

(** The tokens that reach the body in each of the modes. *)
Definition for_body (token : hubbub_token) : Prop :=
  tame token /\
  match token with
  | TokenStartTag tag => type_of_tag tag = ET.TABLE -> m = IN_BODY \/ m = IN_CELL
  | TokenEndTag tag => m = IN_BODY \/ one_of (type_of_tag tag) (ET.HTML :: floors) = false
  | TokenCharacter _ | TokenComment _ | TokenDoctype _ | TokenEOF => True
  end.

Lemma does_in_body token : for_body token ->
  does B (handle_in_body malloc alloc_ok mibenum_from_name mibenum_to_name token) (ended token).
Proof.
  intros [Htame Htok]. pose proof (base_walled _ _ Hb) as Hw. unfold handle_in_body. cbn [in_body].
  assert (Hkeep : forall c, does B c (result B) -> does B c (ended token)) by exact (ends_settled token).
  apply (does_then _ _ B); [destruct token; try (by apply does_ret); apply keeps_neutral, neutral_strip|].
  destruct token as [dt|tag|tag|data|data|].
  - apply Hkeep, does_ok.
  - eapply does_weaken; [by apply does_start_tag|done|]. intros e t Ht. by left.
  - by apply does_end_tag.
  - apply Hkeep, softly_does; [apply body_growing|]. apply softly_comment; [apply body_growing|]. apply looks_top, body_growing.
  - by apply Hkeep, keeps_character.
  - apply Hkeep, does_ok.
Qed.
End BodyTags.
