(* ===== verification/TreeOutcome.v ===== *)
(** * TreeOutcome: what the handler of a mode leaves, and the modes before the body.

    A handler that asks for its token to be handled again leaves a good state
    whose mode has a smaller [rank] for that token. *)
From Stdlib Require Ascii String.
From S2P Require Import Prelude.
From S2P Require Import Errors.
From S2P Require Import Detect.
From S2P Require Import DetectSpec.
From S2P Require Import Tokens.
From S2P Require Import TokeniserState.
From S2P Require Import TokeniserMonad.
From S2P Require Import TokeniserWp.
From S2P Require Import ElementType.
From S2P Require Import TreeState.
From S2P Require Import TreeRepr.
From S2P Require Import TreeStack.
From S2P Require Import TreeAdoption.
From S2P Require Import TreeBody.
From S2P Require Import TreeModes.
From S2P Require Import TreeRules.
From S2P Require Import TreeInv.
From S2P Require Import TreeSteps.
From S2P Require Import TreePops.
From S2P Require Import TreeRounds.
From S2P Require Import TreeFlow.
From S2P Require Import TreeInBody.
From S2P Require Import TreePlaces.
From stdpp Require Import gmap.
From S2P Require Import TreeBodyTags.
From stdpp Require Import gmap.
Import String.StringSyntax.
Local Open Scope string_scope.
Local Open Scope Z_scope.

Definition rank (token : hubbub_token) (m : insertion_mode) : nat :=
  match m with
  | GENERIC_RCDATA => 30
  | INITIAL => 29
  | BEFORE_HTML => 28
  | BEFORE_HEAD => 27
  | IN_HEAD_NOSCRIPT => 26
  | IN_HEAD => 25
  | AFTER_HEAD => 24
  | AFTER_BODY => if ends [ET.HTML] token then 1 else 23
  | AFTER_AFTER_BODY | AFTER_AFTER_FRAMESET => 23
  | IN_SELECT | IN_SELECT_IN_TABLE => 22
  | IN_COLUMN_GROUP => if starts [ET.COL] token then 13 else 19
  | IN_CELL => if starts [ET.TABLE] token then 10 else 17
  | IN_ROW => if starts [ET.TD; ET.TH] token then 14 else 16
  | IN_TABLE_BODY => 15
  | IN_TABLE => if starts [ET.TD; ET.TH; ET.TR] token then 18 else 14
  | IN_BODY => 10
  | IN_CAPTION | IN_FOREIGN_CONTENT | IN_FRAMESET | AFTER_FRAMESET => 0
  end.

(** The first of several modes that are tried in turn has the largest rank. *)
Lemma rank_bound token m : (rank token m <= 30)%nat.
Proof. destruct m; cbn; try lia; destruct (starts _ token) || destruct (ends _ token); lia. Qed.

(** ** Tags that the tree builder makes up *)

Section Outcome.
Context {W : Type} `{!TreeHandler W} `{!TreeHandlerLaws W}.
Local Abbreviation T := (hubbub_treebuilder W).
Local Abbreviation M := (comp (hubbub_treebuilder W)).
Context (malloc : nat -> gmap Z formatting_list_entry -> option Z) (Hmalloc : malloc_fresh malloc).
Context (alloc_ok : nat -> Z -> bool) (Hlimit : alloc_limit alloc_ok).
Context (mibenum_from_name : bytes -> Z) (mibenum_to_name : Z -> option bytes).
Context (Hnames : th_encoding_change = None \/ names_known mibenum_from_name).
Local Abbreviation does := (does_or fails).
Local Abbreviation in_head := (handle_in_head alloc_ok mibenum_from_name mibenum_to_name).
Local Abbreviation in_body := (handle_in_body malloc alloc_ok mibenum_from_name mibenum_to_name).

(** The token at hand is handled again in another mode. *)
Definition again (n : nat) (t : T) : Prop :=
  good t /\ tame (tb_token t) /\ (rank (tb_token t) (tc_mode (tb_context t)) < n)%nat.

Definition outcome (n : nat) (e : hubbub_error) (t : T) : Prop :=
  match e with
  | HUBBUB_OK | HUBBUB_PAUSED => good t
  | HUBBUB_REPROCESS => again n t
  | _ => fails e t
  end.

Lemma result_outcome n e t : result steady e t -> outcome n e t.
Proof.
  unfold result, outcome. destruct e; try done; try apply steady_good; intros (_ & [N1 N2] & _); done.
Qed.

Lemma outcome_fails n e t : fails e t -> outcome n e t.
Proof. intros H. apply result_outcome, fails_result, H. Qed.

Lemma again_place R m n t : place R m [] t -> rv_mode R = m -> m <> GENERIC_RCDATA ->
  tame (rv_token R) -> (rank (rv_token R) m < n)%nat -> again n t.
Proof.
  intros Ht Hm N Htame Hr. pose proof (place_rest _ _ _ _ Ht) as HR.
  assert (tb_token t = rv_token R) as Etok by (by rewrite <-HR).
  unfold again. rewrite Etok, (place_mode _ _ _ _ Ht), Hm. split_and!; [by eapply place_good|done|done].
Qed.

(** ** White space before anything else *)

(** White space is inserted in [m] and the token shortened, or all of it is
    white space. *)
Definition spaced R m ex (e : hubbub_error) (t : T) : Prop :=
  match e with
  | HUBBUB_OK => place R m ex t
  | HUBBUB_REPROCESS => exists data, data <> [] /\ place (rv_set_token (TokenCharacter data) R) m ex t
  | _ => soft (place R m ex) e t
  end.

Lemma leading_le data : 0 <= leading_whitespace data <= zlen data.
Proof.
  induction data as [|c data IH]; [done|]. cbn [leading_whitespace]. rewrite zlen_cons.
  destruct (is_whitespace c); [|pose proof (zlen_nonneg data)]; lia.
Qed.

Lemma wp_expect_rest R m ex data t (E : hubbub_error -> T -> Prop) : place R m ex t ->
  wp (let c := leading_whitespace data in
      if c =? zlen data then ret HUBBUB_OK else
      do! modify (set_tb_token (TokenCharacter (zdrop c data))) in
      ret HUBBUB_REPROCESS) (spaced R m ex) E t.
Proof.
  intros Ht. cbv zeta. pose proof (leading_le data).
  destruct (Z.eqb_spec (leading_whitespace data) (zlen data)) as [|N]; [by apply wp_ret|].
  apply wp_bind. eapply wp_mono; [apply (place_set_token E), Ht| |done]. intros [] t' Ht'. apply wp_ret.
  exists (zdrop (leading_whitespace data) data). split; [|done]. intros E0.
  apply (f_equal zlen) in E0. rewrite zlen_zdrop in E0 by lia. change (zlen []) with 0 in E0. lia.
Qed.

Lemma wp_expect R m ex data (b : bool) t : (b = true -> roomy m = true) -> place R m ex t ->
  wp (process_characters_expect_whitespace data b) (spaced R m ex) (spaced R m ex) t.
Proof.
  intros Hb Ht. unfold process_characters_expect_whitespace. cbv zeta.
  assert (Hplain : wp (do! ret tt in (let c := leading_whitespace data in
      if c =? zlen data then ret HUBBUB_OK else
      do! modify (set_tb_token (TokenCharacter (zdrop c data))) in ret HUBBUB_REPROCESS))
    (spaced R m ex) (spaced R m ex) t) by (by apply wp_bind, wp_ret, wp_expect_rest).
  destruct (0 <? leading_whitespace data); cbn [andb]; [|exact Hplain]. destruct b; [|exact Hplain].
  pose proof (place_growing R m ex (Hb eq_refl)) as HB.
  clear Hplain. revert t Ht. apply softly_then; [by apply softly_text| |].
  - intros e t N [[N1 N2] Ht]. by destruct e.
  - intros t Ht. by apply wp_expect_rest.
Qed.

(** ** What every mode does with some tokens *)

Lemma softly_html_in_body B tag : growing B -> type_of_tag tag = ET.HTML -> softly B (in_body (TokenStartTag tag)).
Proof.
  intros HB Hty t Ht. unfold in_body. cbn [TreeBody.in_body]. apply wp_bind.
  eapply wp_mono; [by apply (does_neutral _ B _ HB (neutral_strip false))| |].
  - intros [] t' Ht'. unfold process_start_tag. change (element_type_from_name (tag_name tag)) with (type_of_tag tag).
    rewrite Hty. by apply does_html.
  - intros e t' He. exact He.
Qed.

Lemma softly_head_comment B inb data : growing B -> softly B (in_head inb (TokenComment data)).
Proof.
  intros HB t Ht.
  assert (Hend : forall e t, soft B e t -> wp (let! (err, handled) := ret (e, false) in
      do! (if (handled : bool) || bool_decide (err = HUBBUB_REPROCESS)
           then let! _ := pop_unref in set_mode AFTER_HEAD else ret tt) in ret err)
      (soft B) (fun e t => e <> HUBBUB_OK /\ soft B e t) t).
  { intros e t' He. apply wp_bind, wp_ret. rewrite bool_decide_false by apply He. by apply wp_bind, wp_ret, wp_ret. }
  apply wp_bind, wp_bind, wp_call.
  eapply wp_mono; [apply (softly_comment B data top_node HB); [by apply looks_top|exact Ht]|..].
  - intros e t' He. by apply Hend.
  - intros e t' [_ He]. by apply Hend.
Qed.

Lemma place_comment R m ex data : roomy m = true -> softly (place R m ex) (process_comment_append data top_node).
Proof. intros Hr. apply softly_comment; [by apply place_growing|by apply looks_top, place_growing]. Qed.

Lemma softly_outcome B c n : growing B -> (forall t, B t -> good t) -> softly B c -> does B c (outcome n).
Proof.
  intros HB Hg Hc t Ht. eapply wp_mono; [by apply Hc|..].
  - intros e t' [He Ht']. destruct (decide (e = HUBBUB_OK)) as [->|N]; [by apply Hg|].
    apply outcome_fails. by eapply soft_fails; [exact HB|split|].
  - intros e t' [N Hs]. by eapply soft_fails.
Qed.

(** ** Modes that end with their current node *)

(** Before the element of [m] is popped for [m']: [p.2] is set when it has been
    closed, otherwise it is popped when the token is to be handled again. *)
Definition staged m m' n (p : hubbub_error * bool) (t : T) : Prop :=
  match p.1 with
  | HUBBUB_OK => if p.2 then exists R', place R' m [] t else good t
  | HUBBUB_REPROCESS =>
      exists R', place R' m [] t /\ tame (rv_token R') /\ (rank (rv_token R') m' < n)%nat
  | e => p.2 = false /\ fails e t
  end.

Lemma staged_pop m m' n p t :
  m' <> GENERIC_RCDATA ->
  (forall R', does (place R' m []) (let! _ := pop_unref in set_mode m')
     (fun _ => place (rv_set_mode m' R') m' [])) ->
  staged m m' n p t ->
  wp (do! (if p.2 || is_reprocess p.1 then let! _ := pop_unref in set_mode m' else ret tt) in ret p.1)
    (outcome n) fails t.
Proof.
  intros N Hpop Hp. destruct p as [e handled]. unfold staged in Hp. cbn [fst snd] in *.
  destruct e; try (destruct Hp as [-> Hp]; apply wp_bind, wp_ret, wp_ret; by apply outcome_fails);
    change (is_reprocess _) with true || change (is_reprocess _) with false.
  - rewrite orb_false_r. destruct handled; [|by apply wp_bind, wp_ret, wp_ret].
    destruct Hp as [R' Ht]. apply wp_bind. eapply wp_mono; [by apply Hpop| |done].
    intros [] t' Ht'. apply wp_ret. by eapply place_good; [exact Ht'|done|].
  - rewrite orb_true_r. destruct Hp as (R' & Ht & Hr & Hn). apply wp_bind. eapply wp_mono; [by apply Hpop| |done].
    intros [] t' Ht'. apply wp_ret. by eapply again_place; [exact Ht'|..].
Qed.

(** The ways to get there. *)
Lemma staged_soft R m m' n e t : roomy m = true -> rv_mode R = m -> soft (place R m []) e t ->
  staged m m' n (e, false) t.
Proof.
  intros Hr Hm [[N1 N2] Ht]. unfold staged. cbn [fst snd]. destruct (decide (e = HUBBUB_OK)) as [->|N].
  - apply steady_good. by eapply place_steady.
  - assert (fails e t) by (by eapply soft_fails; [by apply place_growing|split|]). by destruct e.
Qed.

Lemma staged_softly R m m' n c t : roomy m = true -> rv_mode R = m -> softly (place R m []) c -> place R m [] t ->
  wp (let! err := call c in ret (err, false)) (staged m m' n) fails t.
Proof.
  intros Hr Hm Hc Ht. apply wp_bind, wp_call.
  eapply wp_mono; [by apply Hc|intros e t' ?; by apply wp_ret, (staged_soft R)|].
  intros e t' [_ ?]; by apply wp_ret, (staged_soft R).
Qed.

Lemma staged_result m m' n e t : result steady e t -> staged m m' n (e, false) t.
Proof.
  intros H. unfold staged. cbn [fst snd]. destruct e; try (by split); [by apply steady_good|].
  by destruct H as (_ & [] & _).
Qed.

Lemma staged_call m m' n c t : wp c (result steady) fails t ->
  wp (let! err := call c in ret (err, false)) (staged m m' n) fails t.
Proof.
  intros Hc. apply wp_bind, wp_call. eapply wp_mono; [exact Hc|intros e t' ?; by apply wp_ret, staged_result|].
  intros e t' ?. by apply wp_ret, staged_result, fails_result.
Qed.

Lemma staged_expect R m m' n data t : roomy m = true -> rv_mode R = m ->
  (forall data, (rank (TokenCharacter data) m' < n)%nat) -> place R m [] t ->
  wp (let! err := call (process_characters_expect_whitespace data true) in ret (err, false)) (staged m m' n) fails t.
Proof.
  intros Hr Hm Hn Ht.
  assert (Hend : forall e t, spaced R m [] e t -> wp (ret (e, false)) (staged m m' n) fails t).
  { intros e t' He. apply wp_ret. destruct e; cbn [spaced] in He; try (by apply (staged_soft R)).
    destruct He as (d & Hd & Ht'). exists (rv_set_token (TokenCharacter d) R).
    split_and!; [exact Ht'|exact Hd|apply Hn]. }
  apply wp_bind, wp_call. eapply wp_mono; [by apply (wp_expect R m [])|exact Hend|exact Hend].
Qed.
End Outcome.
