(* ===== verification/TreeHeadSafe.v ===== *)
(** * TreeHeadSafe: the insertion modes before the body. *)
From Stdlib Require Ascii String.
From S2P Require Import Prelude.
From S2P Require Import Errors.
From S2P Require Import Detect.
From S2P Require Import DetectSpec.
From S2P Require Import Tokens.
From S2P Require Import TokeniserState.
From S2P Require Import TokeniserMonad.
From S2P Require Import TokeniserWp.
From S2P Require Import ElementType.
From S2P Require Import TreeState.
From S2P Require Import TreeRepr.
From S2P Require Import TreeStack.
From S2P Require Import TreeAdoption.
From S2P Require Import TreeBody.
From S2P Require Import TreeModes.
From S2P Require Import TreeRules.
From S2P Require Import TreeInv.
From S2P Require Import TreeSteps.
From S2P Require Import TreePops.
From S2P Require Import TreeRounds.
From S2P Require Import TreeFlow.
From S2P Require Import TreeInBody.
From S2P Require Import TreePlaces.
From stdpp Require Import gmap.
From S2P Require Import TreeBodyTags.
From S2P Require Import TreeOutcome.
From stdpp Require Import gmap.
Import String.StringSyntax.
Local Open Scope string_scope.
Local Open Scope Z_scope.

Section HeadSafe.
Context {W : Type} `{!TreeHandler W} `{!TreeHandlerLaws W}.
Local Abbreviation T := (hubbub_treebuilder W).
Local Abbreviation M := (comp (hubbub_treebuilder W)).
Context (malloc : nat -> gmap Z formatting_list_entry -> option Z) (Hmalloc : malloc_fresh malloc).
Context (alloc_ok : nat -> Z -> bool) (Hlimit : alloc_limit alloc_ok).
Context (mibenum_from_name : bytes -> Z) (mibenum_to_name : Z -> option bytes).
Context (Hnames : th_encoding_change = None \/ names_known mibenum_from_name).
Local Abbreviation does := (does_or fails).
Local Abbreviation in_body := (handle_in_body malloc alloc_ok mibenum_from_name mibenum_to_name).
Local Abbreviation in_head := (handle_in_head alloc_ok mibenum_from_name mibenum_to_name in_body).
Context (R : rest_view).

(** ** Before there is an element *)

Lemma starting_fails R' e t : starting R' t -> e <> HUBBUB_OK -> client_error e -> fails e t.
Proof.
  intros (X & c & Hst & Hc) N He. split_and!; [done|done|]. exists R', X, [c], []. split; [done|].
  exists [], c. split_and!; [done|constructor|by rewrite Hc|]. by rewrite Hc.
Qed.

(** Functions of the client. *)
Lemma starting_node R' (f : W -> hubbub_error * Z * W) t (Q : hubbub_error * Z -> T -> Prop) E :
  (forall w e n w', f w = (e, n, w') -> client_error e /\ forall m, th_element w m -> th_element w' m) ->
  starting R' t -> (forall e n t', client_error e -> starting R' t' -> Q (e, n) t') ->
  wp (handler_node f) Q E t.
Proof.
  intros Hf (X & c & Hst & Hc) HQ. eapply (wp_handler_node Hst f (fun _ _ => True)).
  - intros e n w' [? ?]%Hf. done.
  - intros e n t' He _ Hst'. apply HQ; [done|]. by exists X, c.
Qed.

Lemma starting_neutral R' n t (Q : unit -> T -> Prop) E : neutral n -> starting R' t ->
  (forall t', starting R' t' -> Q tt t') -> wp n Q E t.
Proof.
  intros Hn (X & c & Hst & Hc) HQ. apply (Hn _ _ _ _ _ _ _ Hst). intros t' Hst'. apply HQ. by exists X, c.
Qed.

Lemma neutral_quirks q : neutral (set_quirks_mode q).
Proof. intros R' X s l t Q E Hst HQ. by apply (wp_set_quirks Hst). Qed.

Lemma starting_comment R' data (m : M Z) t : starting R' t -> looks (starting R') m ->
  wp (process_comment_append data m) (soft (starting R')) (soft (starting R')) t.
Proof.
  intros Ht Hm. pose proof Ht as (X & c & Hst & Hc).
  apply wp_bind. eapply wp_bind, (wp_top_index Hst).
  eapply (wp_stack_type Hst); [apply (at_index_mid [] c [])|exact Hc|].
  apply wp_bind, (Hm t Ht). intros p. clear X c Hst Hc.
  apply wp_bind, (starting_node R'); [by intros w e n w' ?%th_create_comment_law|done|].
  clear t Ht. intros e node t He Ht. apply wp_bind, wp_check; [intros _|by split].
  apply wp_bind. unfold append_or_foster. apply wp_bind, wp_ctx.
  rewrite andb_false_r. apply wp_bind, wp_ret.
  apply (starting_node R'); [by intros w e' n w' (? & ? & _)%th_append_child_law|done|].
  clear e He t Ht. intros e n t He Ht. apply wp_bind.
  assert (Hu : forall t, starting R' t -> wp (do! unref_node node in ret e) (soft (starting R')) (soft (starting R')) t).
  { clear t Ht. intros t Ht. eapply wp_bind, starting_neutral; [apply neutral_unref|exact Ht|].
    intros t' Ht'. by apply wp_ret. }
  destruct (bool_decide _); [|by apply wp_ret, Hu].
  by eapply starting_neutral; [apply neutral_unref|exact Ht|].
Qed.

(** What handle_initial has before it sets the mode. *)
Definition started (e : hubbub_error) (t : T) : Prop :=
  match e with
  | HUBBUB_OK => good t
  | HUBBUB_REPROCESS => exists R', starting R' t /\ tame (rv_token R')
  | _ => fails e t
  end.

Lemma started_mode e t : started e t ->
  wp (do! when (is_reprocess e) (set_mode BEFORE_HTML) in ret e) (outcome 29) fails t.
Proof.
  intros He. destruct e; cbn [started] in He; try (by apply wp_bind, wp_ret, wp_ret, outcome_fails); [by apply wp_bind, wp_ret, wp_ret|].
  destruct He as (R' & Ht & Hr). apply wp_bind.
  eapply wp_mono; [apply (place_set_mode fails R' BEFORE_HTML []); by split| |done].
  intros [] t' Ht'. apply wp_ret. apply (again_place (rv_set_mode BEFORE_HTML R') BEFORE_HTML); try done. cbn; lia.
Qed.

Lemma starting_good R' m t : starting R' t -> rv_mode R' = m -> m = INITIAL \/ m = BEFORE_HTML -> good t.
Proof. intros Ht Hm [-> | ->]; (eapply (place_good R'); [|exact Hm|done]; by split). Qed.

Lemma starting_quirks q R' t (Q : unit -> T -> Prop) E : starting R' t ->
  (forall t', starting R' t' -> Q tt t') -> wp (set_quirks_mode q) Q E t.
Proof. intros Ht HQ. by eapply starting_neutral; [apply neutral_quirks|exact Ht|]. Qed.

Lemma soft_started e t : rv_mode R = INITIAL -> soft (starting R) e t -> started e t.
Proof.
  intros Hm [[N1 N2] Ht]. destruct (decide (e = HUBBUB_OK)) as [->|N].
  - apply (starting_good R INITIAL); auto.
  - assert (fails e t) by by eapply starting_fails. by destruct e.
Qed.

Lemma does_initial : rv_mode R = INITIAL -> tame (rv_token R) ->
  does (place R INITIAL []) (handle_initial (rv_token R)) (outcome 29).
Proof.
  intros Hm Htame t [_ Ht]. apply wp_bind. eapply (wp_mono _ started); [|intros e t'; apply started_mode|done].
  assert (Hgo : forall t, starting R t ->
    wp (do! set_quirks_mode HUBBUB_QUIRKS_MODE_FULL in ret HUBBUB_REPROCESS) started fails t).
  { intros t' Ht'. eapply wp_bind, starting_quirks; [done|]. intros t2 Ht2. apply wp_ret. by exists R. }
  destruct (rv_token R) as [dt|tag|tag|data|data|] eqn:Etok; try (by apply Hgo).
  - apply wp_bind, (starting_node R); [by intros w e n w' ?%th_create_doctype_law|done|].
    clear t Ht Hgo. intros e n t He Ht. apply wp_bind, wp_check; [intros _|intros; by eapply starting_fails].
    apply wp_bind, wp_ctx, wp_bind, (starting_node R); [by intros w e' n' w' (? & ? & _)%th_append_child_law|done|].
    clear e He t Ht. intros e n' t He Ht. eapply wp_bind, starting_neutral; [apply neutral_unref|exact Ht|].
    clear t Ht. intros t Ht. apply wp_bind, wp_check; [intros _|intros; by eapply starting_fails].
    eapply wp_bind, starting_neutral; [apply neutral_unref|exact Ht|]. clear t Ht. intros t Ht.
    assert (Hset : forall t, starting R t -> wp (do! set_mode BEFORE_HTML in ret HUBBUB_OK) started fails t).
    { intros t' Ht'. apply wp_bind.
      eapply wp_mono; [apply (place_set_mode fails R BEFORE_HTML []); by split| |done].
      intros [] t2 Ht2. apply wp_ret. by apply (place_good (rv_set_mode BEFORE_HTML R) BEFORE_HTML). }
    apply wp_bind. destruct (doctype_quirks dt); [by eapply starting_quirks|by apply wp_ret, Hset].
  - apply wp_call. eapply wp_mono; [apply (starting_comment R); [done|by intros t' _; intros; apply wp_ctx]|..];
      intros e t'; by apply soft_started.
  - assert (Hend : forall e t, spaced R INITIAL [] e t ->
      wp (do! when (is_reprocess e) (do! set_quirks_mode HUBBUB_QUIRKS_MODE_FULL in set_mode BEFORE_HTML) in
          ret e) started fails t).
    { intros e t' He. destruct e; cbn [spaced] in He;
        try (apply wp_bind, wp_ret, wp_ret, soft_started; [done|]; by destruct He as [? [_ ?]]).
      - apply wp_bind, wp_ret, wp_ret. destruct He as [_ He]. apply (starting_good R INITIAL); auto.
      - destruct He as (d & Hd & _ & Ht'). apply wp_bind. eapply wp_bind, starting_quirks; [exact Ht'|].
        intros t2 Ht2. eapply wp_mono; [apply (place_set_mode fails (rv_set_token (TokenCharacter d) R) BEFORE_HTML [] BEFORE_HTML); split; [done|exact Ht2]| |done].
        intros [] t3 [_ Ht3]. apply wp_ret. by eexists. }
    apply wp_bind, wp_call. eapply wp_mono; [apply (wp_expect R INITIAL []); [done|by split]|exact Hend|exact Hend].
Qed.

Lemma wp_insert_html R' tag t : starting R' t ->
  wp (insert_html tag) (fun _ => place (rv_set_mode BEFORE_HEAD R') BEFORE_HEAD []) fails t.
Proof.
  intros (X & c & Hst & Hc).
  assert (Hfail : forall e t X, st R' X [c] [] t -> e <> HUBBUB_OK -> client_error e -> fails e t).
  { intros e t' X' Hst' N He. apply (starting_fails R'); [by exists X', c|done|done]. }
  eapply wp_bind, (wp_new_element Hst); [by intros w e n w' ?%th_create_element_law| |].
  2: { intros e n t' N He Hst'. apply wp_bind, wp_check; [done|]. by intros _; eapply Hfail. }
  clear t Hst. intros html t Hn Hst. apply wp_bind, wp_check; [intros _|done]. apply wp_bind, wp_ctx.
  eapply wp_bind, (wp_append_child _ _ _ _ _ _ _ _ _ Hst).
  clear t Hst. intros e n t [He Hy] Hst. eapply wp_bind, (wp_unref_node Hst). clear t Hst. intros t Hst.
  apply wp_bind, wp_check; [intros ->|by intros; eapply Hfail]. rewrite (Hy eq_refl) by by left. clear n Hy He.
  set (f := fun c => set_ec_node (Some html) (set_ec_type (Some ET.HTML) c)).
  eapply wp_bind, (wp_upd_cell f _ _ [] c []); [exact Hst|]. clear t Hst. intros t Hst. cbn [app] in Hst.
  apply wp_bind, wp_modify.
  assert (Hst' : st R' (html :: X) [f c] [] (set_tb_context (set_tc_current_node 0 (tb_context t)) t)).
  { destruct (st_stack _ _ _ _ _ Hst) as (spare & Hs & Hmax).
    by apply (st_restack (set_tc_current_node 0) _ _ _ _ _ _ spare Hst). }
  apply (wp_set_mode Hst'). clear t Hst Hst'. intros t Hst. split; [done|]. exists (html :: X), [f c].
  split; [split; [done|]|done]. constructor; cbn; try done.
  - constructor; [apply not_elem_of_nil|constructor].
  - constructor; [by left|constructor].
  - constructor.
  - by intros d ?%elem_of_nil.
  - by intros d ?%elem_of_nil.
Qed.

(** What handle_before_html has before it inserts an element. *)
Definition opened (p : hubbub_error * option hubbub_tag) (t : T) : Prop :=
  match p.1 with
  | HUBBUB_OK => starting R t
  | HUBBUB_REPROCESS => p.2 = None /\ exists R', starting R' t /\ tame (rv_token R')
  | e => p.2 = None /\ fails e t
  end.

Lemma opened_insert p t : rv_mode R = BEFORE_HTML -> opened p t ->
  wp (do! (match p.2 with
           | Some tag => insert_html tag
           | None => when (is_reprocess p.1) (insert_html (made_tag (chars "html") []))
           end) in ret p.1) (outcome 28) fails t.
Proof.
  intros Hm Hp. destruct p as [e handled]. unfold opened in Hp. cbn [fst snd] in *.
  assert (Hins : forall R' tag t, starting R' t ->
    forall e, e = HUBBUB_OK \/ e = HUBBUB_REPROCESS /\ tame (rv_token R') ->
    wp (do! insert_html tag in ret e) (outcome 28) fails t).
  { clear t Hp e. intros R' tag t Ht e He. apply wp_bind.
    eapply wp_mono; [by apply wp_insert_html| |done]. intros [] t' Ht'. apply wp_ret.
    destruct He as [-> | [-> Hr]]; [by apply (place_good (rv_set_mode BEFORE_HEAD R') BEFORE_HEAD)|].
    apply (again_place (rv_set_mode BEFORE_HEAD R') BEFORE_HEAD); try done. cbn; lia. }
  destruct e; try (destruct Hp as [-> Hp]; apply wp_bind, wp_ret, wp_ret; by apply outcome_fails).
  - destruct handled; [by apply (Hins R); [|left]|].
    apply wp_bind, wp_ret, wp_ret. apply (starting_good R BEFORE_HTML); auto.
  - destruct Hp as (-> & R' & Ht & Hr). apply (Hins R'); auto.
Qed.

Lemma does_before_html : rv_mode R = BEFORE_HTML -> tame (rv_token R) ->
  does (place R BEFORE_HTML []) (handle_before_html (rv_token R)) (outcome 28).
Proof.
  intros Hm Htame t [_ Ht]. apply wp_bind.
  eapply (wp_mono _ opened); [|intros [e h] t' Hp; by apply (opened_insert (e, h))|done].
  assert (Hre : wp (ret (HUBBUB_REPROCESS, None)) opened fails t) by (apply wp_ret; split; [done|by exists R]).
  assert (Hsoft : forall e t, soft (starting R) e t -> opened (e, None) t).
  { clear t Ht Hre. intros e t [[N1 N2] Ht]. destruct (decide (e = HUBBUB_OK)) as [->|N]; [done|].
    assert (fails e t) by by eapply starting_fails. by destruct e. }
  destruct (rv_token R) as [dt|tag|tag|data|data|] eqn:Etok; try exact Hre.
  - by apply wp_ret.
  - destruct (type_eqb _ _); [by apply wp_ret|exact Hre].
  - apply wp_bind, wp_call. eapply wp_mono; [apply (starting_comment R); [done|by intros t' _; intros; apply wp_ctx]|..];
      intros e t' He; by apply wp_ret, Hsoft.
  - assert (Hend : forall e t, spaced R BEFORE_HTML [] e t -> wp (ret (e, None)) opened fails t).
    { intros e t' He. apply wp_ret. destruct e; cbn [spaced] in He;
        try (apply Hsoft; by destruct He as [? [_ ?]]); [by destruct He|].
      destruct He as (d & Hd & _ & Ht'). split; [done|]. by eexists. }
    apply wp_bind, wp_call. eapply wp_mono; [apply (wp_expect R BEFORE_HTML []); [done|by split]|exact Hend|exact Hend].
Qed.

(** ** Before the head *)

Lemma wp_insert_head R' tag t : tag_ns tag = HUBBUB_NS_HTML -> type_of_tag tag = ET.HEAD -> opening R' t ->
  wp (insert_head alloc_ok tag)
    (fun _ t => exists n, place (rv_set_mode IN_HEAD (rv_set_head_element n R')) IN_HEAD [] t) fails t.
Proof.
  intros Hns Hty (X & s & Hok & Hs).
  set (C t := exists X c r, ok R' X [c; r] [] t /\ ty c = ET.HEAD).
  apply wp_bind, (wp_check_call C); [| |done].
  { apply (wp_push_element alloc_ok Hlimit _ _ _ _ _ _ _ _ Hok Hns).
    - intros X' s' n t' HX Ha Hn _ Hok'. change (element_type_from_name (tag_name tag)) with (type_of_tag tag) in Hok'.
      rewrite Hty in Hok'. destruct s as [|r [|]]; try done. apply (alike_last []) in Ha as (sp & r' & -> & Ha & _).
      inversion Ha; subst. by eexists _, _, _.
    - intros e X' s' t' N He _ _ Hok'. by eapply fails_result, ok_fails. }
  clear t X s Hok Hs. intros t (X & c & r & [Hst Hi] & Hc). pose proof (iv_cells _ _ _ Hi) as Hcs.
  eapply wp_bind, (wp_top_node _ _ _ _ _ _ _ _ Hst Hcs), wp_bind, (wp_ref_node Hst). clear t Hst. intros t Hst.
  eapply wp_bind, (wp_top_node _ _ _ _ _ _ _ _ Hst Hcs), wp_bind, (wp_set_head_element Hst). clear t Hst. intros t Hst.
  apply (wp_set_mode Hst). clear t Hst. intros t Hst. exists (nd c), X, [], c, r. by split_and!.
Qed.

Lemma before_head_good t : rv_mode R = BEFORE_HEAD -> opening R t -> good t.
Proof. intros Hm Ht. by apply (place_good R BEFORE_HEAD). Qed.

(** What handle_before_head has before it inserts an element. *)
Definition headed (p : hubbub_error * option hubbub_tag) (t : T) : Prop :=
  match p.1 with
  | HUBBUB_OK => opening R t /\ match p.2 with
      Some tag => tag_ns tag = HUBBUB_NS_HTML /\ type_of_tag tag = ET.HEAD | None => True end
  | HUBBUB_REPROCESS => exists R', opening R' t /\ tame (rv_token R')
  | e => p.2 = None /\ fails e t
  end.

Lemma headed_insert p t : rv_mode R = BEFORE_HEAD -> headed p t ->
  wp (do! (if is_reprocess p.1 then insert_head alloc_ok (made_tag (chars "head") [])
           else match p.2 with Some tag => insert_head alloc_ok tag | None => ret tt end) in
      ret p.1) (outcome 27) fails t.
Proof.
  intros Hm Hp. destruct p as [e handled]. unfold headed in Hp. cbn [fst snd] in *.
  destruct e; try (destruct Hp as [-> Hp]; apply wp_bind, wp_ret, wp_ret; by apply outcome_fails).
  - destruct Hp as [Ht Htag]. change (is_reprocess HUBBUB_OK) with false. destruct handled as [tag|].
    + destruct Htag. apply wp_bind. eapply wp_mono; [by apply wp_insert_head| |done]. intros [] t' [n Ht']. apply wp_ret.
      by apply (place_good (rv_set_mode IN_HEAD (rv_set_head_element n R)) IN_HEAD).
    + apply wp_bind, wp_ret, wp_ret. by apply before_head_good.
  - destruct Hp as (R' & Ht & Hr). change (is_reprocess HUBBUB_REPROCESS) with true. apply wp_bind.
    eapply wp_mono; [apply (wp_insert_head R'); [done|vm_compute; reflexivity|exact Ht]| |done]. intros [] t' [n Ht']. apply wp_ret.
    apply (again_place (rv_set_mode IN_HEAD (rv_set_head_element n R')) IN_HEAD); try done. cbn; lia.
Qed.

Lemma does_before_head : rv_mode R = BEFORE_HEAD -> tame (rv_token R) ->
  does (place R BEFORE_HEAD []) (handle_before_head malloc alloc_ok mibenum_from_name mibenum_to_name (rv_token R))
    (outcome 27).
Proof.
  intros Hm Htame t [_ Ht]. apply wp_bind.
  eapply (wp_mono _ headed); [|intros [e h] t' Hp; by apply (headed_insert (e, h))|done].
  assert (Hre : wp (ret (HUBBUB_REPROCESS, None)) headed fails t) by (apply wp_ret; by exists R).
  assert (Hok : wp (ret (HUBBUB_OK, None)) headed fails t) by (apply wp_ret; by split).
  assert (Hsoft : forall e t, soft (opening R) e t -> headed (e, None) t).
  { clear t Ht Hre Hok. intros e t [[N1 N2] Ht]. destruct (decide (e = HUBBUB_OK)) as [->|N]; [by split|].
    assert (fails e t) by (by eapply soft_fails; [apply opening_growing|by split|]). by destruct e. }
  assert (Hcall : forall c, softly (opening R) c -> wp (let! err := call c in ret (err, None)) headed fails t).
  { intros c Hc. apply wp_bind, wp_call.
    eapply wp_mono; [by apply Hc|intros e t' ?; by apply wp_ret, Hsoft|intros e t' [_ ?]; by apply wp_ret, Hsoft]. }
  destruct (rv_token R) as [dt|tag|tag|data|data|] eqn:Etok; try exact Hre; try exact Hok.
  - destruct Htame as (Hns & _ & _). cbv zeta.
    destruct (type_eqb_spec (type_of_tag tag) ET.HTML) as [Hy|_].
    { apply Hcall, softly_html_in_body; [apply opening_growing|done]. }
    destruct (type_eqb_spec (type_of_tag tag) ET.HEAD) as [Hy|_]; [by apply wp_ret|exact Hre].
  - cbv zeta. destruct (one_of _ _); [exact Hre|exact Hok].
  - apply Hcall, softly_comment; [apply opening_growing|apply looks_top, opening_growing].
  - assert (Hend : forall e t, spaced R BEFORE_HEAD [] e t -> wp (ret (e, None)) headed fails t).
    { intros e t' He. apply wp_ret. destruct e; cbn [spaced] in He;
        try (apply Hsoft; by destruct He as [? [_ ?]]); [by destruct He|].
      destruct He as (d & Hd & _ & Ht'). by eexists. }
    apply wp_bind, wp_call. eapply wp_mono; [apply (wp_expect R BEFORE_HEAD []); [done|by split]|exact Hend|exact Hend].
Qed.

(** ** In the head *)

Lemma head_pop E R' : does_or E (place R' IN_HEAD []) (let! _ := pop_unref in set_mode AFTER_HEAD)
  (fun _ => place (rv_set_mode AFTER_HEAD R') AFTER_HEAD []).
Proof.
  intros t (X & sp & h & r & Hok & Hs & Hh & Hn). destruct sp; [|done]. cbn [app] in Hok.
  pose proof (ok_inv _ _ _ _ _ Hok) as Hi.
  apply wp_bind, (wp_pop_early _ _ _ _ _ _ _ Hok); [done|]. clear t Hok. intros t Hok.
  revert t Hok. intros t Hok. apply (place_set_mode E R' AFTER_HEAD []).
  exists X, [], r. split_and!; [exact Hok|done|..]; rewrite <-Hn.
  - pose proof (iv_stack_known _ _ _ Hi) as Hk. by apply Forall_cons in Hk as [? _].
  - pose proof (iv_nodup _ _ _ Hi) as Hd. cbn [map] in Hd. by apply NoDup_cons in Hd as [? _].
Qed.

Lemma noscript_pop E R' : does_or E (place R' IN_HEAD_NOSCRIPT []) (let! _ := pop_unref in set_mode IN_HEAD)
  (fun _ => place (rv_set_mode IN_HEAD R') IN_HEAD []).
Proof.
  eapply does_bind; [apply (place_pop E R' IN_HEAD ET.NOSCRIPT eq_refl)|].
  intros y. apply (place_set_mode E R' IN_HEAD []).
Qed.

Lemma does_noscript t : place R IN_HEAD [ET.NOSCRIPT] t ->
  wp (do! set_mode IN_HEAD_NOSCRIPT in ret HUBBUB_OK) (fun e t => wp (ret (e, false)) (staged IN_HEAD AFTER_HEAD 25) fails t)
    fails t.
Proof.
  intros Ht. apply wp_bind. eapply wp_mono; [by apply (place_set_mode fails R IN_HEAD [ET.NOSCRIPT])| |done].
  intros [] t' Ht'. apply wp_ret, wp_ret. by apply (place_good (rv_set_mode IN_HEAD_NOSCRIPT R) IN_HEAD_NOSCRIPT).
Qed.

Lemma does_in_head (inb : hubbub_token -> M hubbub_error) : rv_mode R = IN_HEAD -> tame (rv_token R) ->
  (forall tag, type_of_tag tag = ET.HTML -> softly (place R IN_HEAD []) (inb (TokenStartTag tag))) ->
  does (place R IN_HEAD [])
    (handle_in_head alloc_ok mibenum_from_name mibenum_to_name inb (rv_token R)) (outcome 25).
Proof.
  intros Hm Htame Hinb t Ht.
  destruct (starts head_types (rv_token R)) eqn:Hst.
  { destruct (rv_token R) as [|tag| | | |]; try done. destruct Htame as (Hns & _).
    eapply wp_mono; [by apply (does_head alloc_ok Hlimit mibenum_from_name mibenum_to_name Hnames inb R IN_HEAD)| |done].
    intros e t'. apply result_outcome. }
  unfold handle_in_head. apply wp_bind.
  eapply (wp_mono _ (staged IN_HEAD AFTER_HEAD 25)).
  2: { intros [e h] t' Hp. apply (staged_pop IN_HEAD AFTER_HEAD 25 (e, h)); [done|by apply head_pop|done]. }
  2: done.
  assert (Hok : wp (ret (HUBBUB_OK, false)) (staged IN_HEAD AFTER_HEAD 25) fails t).
  { apply wp_ret. by apply (place_good R IN_HEAD). }
  assert (Hre : wp (ret (HUBBUB_REPROCESS, false)) (staged IN_HEAD AFTER_HEAD 25) fails t).
  { apply wp_ret. exists R. split_and!; [done|done|cbn; lia]. }
  destruct (rv_token R) as [dt|tag|tag|data|data|] eqn:Etok; try exact Hok; try exact Hre.
  - destruct Htame as (Hns & _ & _). change (element_type_from_name (tag_name tag)) with (type_of_tag tag). cbv zeta.
    cbn [starts] in Hst. apply one_of_false in Hst. unfold head_types in Hst. cbn [In] in Hst.
    destruct (type_eqb_spec (type_of_tag tag) ET.HTML) as [Hy|_].
    { eapply staged_softly; [..|exact Ht]; [done|done|by apply Hinb]. }
    rewrite (proj2 (one_of_false _ [ET.BASE; ET.COMMAND; ET.LINK])) by (cbn; tauto).
    destruct (type_eqb_spec (type_of_tag tag) ET.META) as [Hy|_]; [exfalso; apply Hst; rewrite Hy; tauto|].
    destruct (type_eqb_spec (type_of_tag tag) ET.TITLE) as [Hy|_]; [exfalso; apply Hst; rewrite Hy; tauto|].
    rewrite (proj2 (one_of_false _ [ET.NOFRAMES; ET.STYLE])) by (cbn; tauto).
    destruct (type_eqb_spec (type_of_tag tag) ET.NOSCRIPT) as [Hy|_].
    { apply wp_bind, wp_bind, wp_ctx. destruct (tc_enable_scripting _).
      - assert (Hg : wp (parse_generic_rcdata alloc_ok tag false) (result steady) fails t).
        { by apply (does_generic alloc_ok Hlimit R IN_HEAD). }
        apply wp_call. eapply wp_mono; [exact Hg|..]; intros e t' ?; apply wp_ret, staged_result; [done|].
        by apply fails_result.
      - apply wp_bind. eapply wp_check_call; [|intros t' Ht'; exact (does_noscript t' Ht')|done].
        eapply wp_mono; [eapply hosts_insert_does; [exact Hlimit|by apply (place_hosts R IN_HEAD)|exact Hy|done|done]|done|].
        intros e t'. apply fails_result. }
    destruct (type_eqb_spec (type_of_tag tag) ET.SCRIPT) as [Hy|_]; [exfalso; apply Hst; rewrite Hy; tauto|].
    destruct (type_eqb_spec (type_of_tag tag) ET.HEAD) as [Hy|_]; [exact Hok|exact Hre].
  - cbv zeta. destruct (type_eqb _ _); [apply wp_ret; by exists R|]. destruct (one_of _ _); [exact Hre|exact Hok].
  - eapply staged_softly; [..|exact Ht]; [done|done|by apply place_comment].
  - apply (staged_expect R); [done|done|intros d; cbn; lia|done].
Qed.

Lemma does_in_head_noscript : rv_mode R = IN_HEAD_NOSCRIPT -> tame (rv_token R) ->
  does (place R IN_HEAD_NOSCRIPT [])
    (handle_in_head_noscript malloc alloc_ok mibenum_from_name mibenum_to_name (rv_token R)) (outcome 26).
Proof.
  intros Hm Htame t Ht. unfold handle_in_head_noscript. apply wp_bind.
  eapply (wp_mono _ (staged IN_HEAD_NOSCRIPT IN_HEAD 26)).
  2: { intros [e h] t' Hp. by apply (staged_pop IN_HEAD_NOSCRIPT IN_HEAD 26 (e, h)); [|apply noscript_pop|]. }
  2: done.
  assert (Hok : wp (ret (HUBBUB_OK, false)) (staged IN_HEAD_NOSCRIPT IN_HEAD 26) fails t).
  { apply wp_ret. by apply (place_good R IN_HEAD_NOSCRIPT). }
  assert (Hre : wp (ret (HUBBUB_REPROCESS, false)) (staged IN_HEAD_NOSCRIPT IN_HEAD 26) fails t).
  { apply wp_ret. exists R. split_and!; [done|done|cbn; lia]. }
  assert (Hdone : wp (ret (HUBBUB_OK, true)) (staged IN_HEAD_NOSCRIPT IN_HEAD 26) fails t).
  { apply wp_ret. by exists R. }
  destruct (rv_token R) as [dt|tag|tag|data|data|] eqn:Etok; try exact Hok; try exact Hre.
  - destruct Htame as (Hns & _ & _). cbv zeta.
    destruct (type_eqb_spec (type_of_tag tag) ET.HTML) as [Hy|_].
    { eapply staged_softly; [..|exact Ht]; [done|done|]. apply softly_html_in_body; [by apply place_growing|done]. }
    destruct (type_eqb _ _); [exact Hdone|].
    destruct (one_of (type_of_tag tag) [ET.LINK; ET.META; ET.NOFRAMES; ET.STYLE]) eqn:Hy.
    { apply staged_call, (does_head alloc_ok Hlimit _ mibenum_to_name Hnames in_body R IN_HEAD_NOSCRIPT); try done.
      by types Hy. }
    clear Hy. destruct (one_of _ _); [exact Hok|exact Hre].
  - cbv zeta. destruct (type_eqb _ _); [exact Hdone|]. destruct (type_eqb _ _); [exact Hre|exact Hok].
  - eapply staged_softly; [..|exact Ht]; [done|done|]. by apply softly_head_comment, place_growing.
  - apply (staged_expect R); [done|done|intros d; cbn; lia|done].
Qed.

(** ** After the head *)

Lemma wp_reopen_head t : rv_mode R = AFTER_HEAD -> past_the_head R [] t ->
  wp (element_stack_push alloc_ok HUBBUB_NS_HTML ET.HEAD (rv_head_element R))
    (result (in_the_head R [])) (result (in_the_head R [])) t.
Proof.
  intros Hm (X & sp & r & Hok & Hs & HX & Hn). destruct sp; [|done]. cbn [app] in *. pose proof Hok as [Hst Hi].
  apply (wp_push alloc_ok Hlimit _ _ _ _ _ _ _ _ _ _ Hst).
  - intros t' Hst'. exists X, [], (new_cell HUBBUB_NS_HTML ET.HEAD (rv_head_element R)), r.
    split_and!; try done. split; [exact Hst'|]. apply inv_push; try done. by intros d ?%elem_of_nil.
  - intros t' Hst'. by eapply fails_result, ok_fails; [split|..].
Qed.

Lemma wp_close_head E R' ex t : in_the_head R' ex t ->
  wp (element_stack_remove 1) (fun _ => past_the_head R' ex) E t.
Proof.
  intros (X & sp & h & r & [Hst Hi] & Hs & Hh & Hn).
  change 1 with (zlen [r]). eapply (wp_stack_remove _ _ _ _ _ _ _ _ _ Hst); [done|by eapply inv_owned|by eapply cells_typed, Hi|].
  intros t' Hst'. pose proof (iv_nodup _ _ _ Hi) as Hd. rewrite map_app in Hd. cbn [map] in Hd.
  assert (Hi' : inv X (sp ++ [r]) []).
  { apply (inv_remove_cell X sp h [r] []); [done|done|]. by intros d ?%elem_of_nil. }
  exists X, sp, r. split_and!; [by split|done|..]; rewrite <-Hn.
  - pose proof (iv_stack_known _ _ _ Hi) as Hk. by apply Forall_app in Hk as [_ [? _]%Forall_cons].
  - apply NoDup_app in Hd as (_ & Hx & [Hy _]%NoDup_cons). rewrite map_app, elem_of_app. intros [Hin|Hin]; [|done].
    apply (Hx _ Hin). by left.
Qed.

(** The head is opened for the tag, and closed again whatever happens. *)
Lemma does_late_head tag : rv_mode R = AFTER_HEAD -> tag_ns tag = HUBBUB_NS_HTML ->
  one_of (type_of_tag tag) head_types = true ->
  does (place R AFTER_HEAD []) (late_head malloc alloc_ok mibenum_from_name mibenum_to_name (TokenStartTag tag))
    (result steady).
Proof.
  intros Hm Hns Hty t Ht. apply wp_bind, wp_ctx.
  assert (Hhead : tc_head_element (tb_context t) = rv_head_element R).
  { pose proof (place_rest _ _ _ _ Ht) as <-. done. }
  rewrite Hhead. clear Hhead. apply wp_bind, (wp_check_call (in_the_head R [])); [by apply wp_reopen_head| |done].
  clear t Ht. intros t Ht. pose proof Ht as (X & sp & h & r & Hok & Hs & _). destruct sp; [|done].
  eapply wp_bind, (wp_top_index (ok_st _ _ _ _ _ Hok)). change (zlen ([] ++ [h; r]) - 1) with 1. clear X r h Hok Hs.
  apply wp_bind, wp_call, (wp_mono _ (into R IN_HEAD [] (type_of_tag tag)) _ (fun _ _ => False)); [|clear t Ht|done].
  { by apply (into_head alloc_ok Hlimit mibenum_from_name mibenum_to_name Hnames in_body R IN_HEAD []). }
  intros e t Hi. unfold into in Hi. destruct (bool_decide_reflect (e = HUBBUB_OK)) as [->|N].
  - apply wp_bind. destruct Hi as [Ht|Ht].
    + eapply wp_mono; [eapply wp_close_head; exact Ht| |done]. intros c t' Ht'. apply wp_ret.
      by apply (place_steady R AFTER_HEAD).
    + eapply wp_mono; [eapply wp_close_head; exact Ht| |done]. intros c t' Ht'. apply wp_ret. rewrite Hm in Ht'.
      by eapply (collects_steady R AFTER_HEAD).
  - destruct Hi as [He Ht]. apply wp_bind. eapply wp_mono; [eapply wp_close_head; exact Ht| |done].
    intros c t' Ht'. apply wp_ret, fails_result. by eapply soft_fails; [apply (place_growing R AFTER_HEAD []); done|split|].
Qed.

Lemma past_stands R' ex t : past_the_head R' ex t -> stands R' (ex ++ [ET.HTML]) t.
Proof.
  intros (X & sp & r & Hok & <- & _). eapply stands_ok; [exact Hok|]. rewrite map_app. f_equal. cbn.
  pose proof (ok_cells _ _ _ _ _ Hok) as Hc. rewrite cells_app in Hc by done. destruct Hc as [_ [Hc _]].
  unfold ty. by rewrite Hc.
Qed.

Lemma wp_insert_body R' tag t : tag_ns tag = HUBBUB_NS_HTML -> type_of_tag tag = ET.BODY ->
  place R' AFTER_HEAD [] t ->
  wp (insert_body alloc_ok tag) (fun _ => place (rv_set_mode IN_BODY R') IN_BODY []) fails t.
Proof.
  intros Hns Hty Ht. apply wp_bind. eapply wp_check_call; [|intros t' Ht'|done].
  - eapply wp_mono; [eapply hosts_insert_does; [exact Hlimit|by apply (place_hosts R' AFTER_HEAD)|exact Hty|done|done]|done|].
    intros e t'. apply fails_result.
  - apply past_stands in Ht'. eapply wp_mono; [apply (does_set_mode fails), Ht'| |done]. intros [] t2 Ht2.
    exists [ET.BODY; ET.HTML]. split; [done|]. exists [], [ET.BODY; ET.HTML]. split_and!; [done|constructor|constructor].
Qed.

(** What handle_after_head has before it inserts the body. *)
Definition bodied (p : hubbub_error * option hubbub_tag) (t : T) : Prop :=
  match p.1 with
  | HUBBUB_OK => match p.2 with
      | Some tag => place R AFTER_HEAD [] t /\ tag_ns tag = HUBBUB_NS_HTML /\ type_of_tag tag = ET.BODY
      | None => good t
      end
  | HUBBUB_REPROCESS => exists R', place R' AFTER_HEAD [] t /\ tame (rv_token R')
  | e => p.2 = None /\ fails e t
  end.

Lemma bodied_insert p t : bodied p t ->
  wp (do! (if is_reprocess p.1 then insert_body alloc_ok (made_tag (chars "body") [])
           else match p.2 with Some tag => insert_body alloc_ok tag | None => ret tt end) in
      ret p.1) (outcome 24) fails t.
Proof.
  intros Hp. destruct p as [e handled]. unfold bodied in Hp. cbn [fst snd] in *.
  destruct e; try (destruct Hp as [-> Hp]; apply wp_bind, wp_ret, wp_ret; by apply outcome_fails);
    change (is_reprocess _) with true || change (is_reprocess _) with false.
  - destruct handled as [tag|]; [|by apply wp_bind, wp_ret, wp_ret]. destruct Hp as (Ht & Hns & Hty).
    apply wp_bind. eapply wp_mono; [by apply wp_insert_body| |done]. intros [] t' Ht'. apply wp_ret.
    by apply (place_good (rv_set_mode IN_BODY R) IN_BODY).
  - destruct Hp as (R' & Ht & Hr). apply wp_bind.
    eapply wp_mono; [apply (wp_insert_body R'); [done|vm_compute; reflexivity|exact Ht]| |done].
    intros [] t' Ht'. apply wp_ret. apply (again_place (rv_set_mode IN_BODY R') IN_BODY); try done. cbn; lia.
Qed.

Lemma bodied_result e t : result steady e t -> bodied (e, None) t.
Proof.
  intros H. unfold bodied. cbn [fst snd]. destruct e; try (by split); [by apply steady_good|].
  by destruct H as (_ & [] & _).
Qed.

Lemma does_after_head : rv_mode R = AFTER_HEAD -> tame (rv_token R) ->
  does (place R AFTER_HEAD []) (handle_after_head malloc alloc_ok mibenum_from_name mibenum_to_name (rv_token R))
    (outcome 24).
Proof.
  intros Hm Htame t Ht. unfold handle_after_head. apply wp_bind.
  eapply (wp_mono _ bodied); [|intros [e h] t' Hp; by apply (bodied_insert (e, h))|done].
  pose proof (place_growing R AFTER_HEAD [] eq_refl) as HB.
  assert (Hsteady : forall t, place R AFTER_HEAD [] t -> steady t) by (intros t'; by apply place_steady).
  assert (Hok : wp (ret (HUBBUB_OK, None)) bodied fails t) by (apply wp_ret; by apply steady_good, Hsteady).
  assert (Hre : wp (ret (HUBBUB_REPROCESS, None)) bodied fails t) by (apply wp_ret; by exists R).
  assert (Hsoft : forall e t, soft (place R AFTER_HEAD []) e t -> bodied (e, None) t).
  { intros e t' [[N1 N2] Ht']. apply bodied_result. destruct (decide (e = HUBBUB_OK)) as [->|N]; [by apply Hsteady|].
    apply fails_result. by eapply soft_fails; [exact HB|split|]. }
  assert (Hcall : forall c, softly (place R AFTER_HEAD []) c ->
    wp (let! err := call c in ret (err, None)) bodied fails t).
  { intros c Hc. apply wp_bind, wp_call.
    eapply wp_mono; [by apply Hc|intros e t' ?; by apply wp_ret, Hsoft|intros e t' [_ ?]; by apply wp_ret, Hsoft]. }
  destruct (rv_token R) as [dt|tag|tag|data|data|] eqn:Etok; try exact Hre; try exact Hok.
  - destruct Htame as (Hns & _ & _). cbv zeta.
    destruct (type_eqb_spec (type_of_tag tag) ET.HTML) as [Hy|_]; [by apply Hcall, softly_html_in_body|].
    destruct (type_eqb_spec (type_of_tag tag) ET.BODY) as [Hy|_]; [by apply wp_ret|].
    destruct (type_eqb_spec (type_of_tag tag) ET.FRAMESET) as [Hy|_].
    { assert (Hk : forall e t, hosted (place R AFTER_HEAD []) (place R AFTER_HEAD [ET.FRAMESET]) e t ->
        wp (do! when (is_ok e) (set_mode IN_FRAMESET) in ret (e, None)) bodied fails t).
      { intros e t' He. unfold hosted in He. unfold when, is_ok. destruct (bool_decide_reflect (e = HUBBUB_OK)) as [->|N].
        - apply past_stands in He. apply wp_bind. eapply wp_mono; [apply (does_set_mode fails), He| |done].
          intros [] t2 Ht2. apply wp_ret. apply (late_good (rv_set_mode IN_FRAMESET R) IN_FRAMESET [ET.FRAMESET; ET.HTML]);
            [done|done|by exists 1%nat|done].
        - by apply wp_bind, wp_ret, wp_ret, Hsoft. }
      apply wp_bind, wp_call. eapply wp_mono; [|exact Hk|exact Hk].
      eapply hosts_insert; [exact Hlimit|by apply place_hosts|exact Hy|done|done]. }
    destruct (one_of (type_of_tag tag) [ET.BASE; ET.LINK; ET.META; ET.NOFRAMES; ET.SCRIPT; ET.STYLE; ET.TITLE]) eqn:Hy.
    { apply wp_bind. eapply wp_mono; [apply (does_late_head tag); [done|done|by types Hy|done]| |done].
      intros e t' Ht'. by apply wp_ret, bodied_result. }
    destruct (type_eqb_spec (type_of_tag tag) ET.HEAD) as [_|_]; [exact Hok|exact Hre].
  - destruct (one_of _ _); [exact Hre|exact Hok].
  - by apply Hcall, place_comment.
  - assert (Hend : forall e t, spaced R AFTER_HEAD [] e t -> wp (ret (e, None)) bodied fails t).
    { intros e t' He. apply wp_ret. destruct e; cbn [spaced] in He; try (by apply Hsoft).
      destruct He as (d & Hd & Ht'). by eexists. }
    apply wp_bind, wp_call. eapply wp_mono; [by apply (wp_expect R AFTER_HEAD [])|exact Hend|exact Hend].
Qed.
End HeadSafe.
