(* ===== verification/TreeTablesSafe.v ===== *)
(** * TreeTablesSafe: the insertion modes of tables. *)
From Stdlib Require Ascii String.
From S2P Require Import Prelude.
From S2P Require Import Errors.
From S2P Require Import Detect.
From S2P Require Import DetectSpec.
From S2P Require Import Tokens.
From S2P Require Import TokeniserState.
From S2P Require Import TokeniserMonad.
From S2P Require Import TokeniserWp.
From S2P Require Import ElementType.
From S2P Require Import TreeState.
From S2P Require Import TreeRepr.
From S2P Require Import TreeStack.
From S2P Require Import TreeAdoption.
From S2P Require Import TreeBody.
From S2P Require Import TreeModes.
From S2P Require Import TreeRules.
From S2P Require Import TreeInv.
From S2P Require Import TreeSteps.
From S2P Require Import TreePops.
From S2P Require Import TreeRounds.
From S2P Require Import TreeFlow.
From S2P Require Import TreeInBody.
From S2P Require Import TreePlaces.
From stdpp Require Import gmap.
From S2P Require Import TreeBodyTags.
From S2P Require Import TreeOutcome.
From stdpp Require Import gmap.
Import String.StringSyntax.
Local Open Scope string_scope.
Local Open Scope Z_scope.

(** The insertion modes of the bases. *)
Definition based (m : insertion_mode) : bool :=
  match m with IN_BODY | IN_TABLE | IN_TABLE_BODY | IN_ROW | IN_CELL => true | _ => false end.

Lemma base_based m u : base m u -> based m = true.
Proof. by destruct 1. Qed.

Lemma base_long m u : base m u -> exists y z v, u = y :: z :: v.
Proof.
  destruct 1 as [|m pre v Hp Hb Hm|g v Hg Hb|v Hb|c v Hc Hb]; [eauto|..].
  - destruct pre as [|z pre]; [|cbn; eauto]. apply base_some in Hb. destruct v; [done|cbn; eauto].
  - apply base_some in Hb. destruct v; [done|eauto].
  - apply base_some in Hb. destruct v; [done|eauto].
  - apply base_some in Hb. destruct v; [done|eauto].
Qed.

(** The type that tells the mode of a base. *)
Definition mode_of (type : element_type) : option insertion_mode :=
  match type with
  | ET.TD | ET.TH => Some IN_CELL
  | ET.TR => Some IN_ROW
  | ET.TBODY | ET.TFOOT | ET.THEAD => Some IN_TABLE_BODY
  | ET.CAPTION => Some IN_CAPTION
  | ET.TABLE => Some IN_TABLE
  | ET.BODY => Some IN_BODY
  | _ => None
  end.

Lemma mode_of_plain y : plain y -> mode_of y = None.
Proof. by destruct y. Qed.

Lemma mode_of_base m y v : base m (y :: v) -> mode_of y = Some m.
Proof.
  intros Hb. remember (y :: v) as u eqn:E. destruct Hb as [|m pre v' Hp Hb Hm|g v' Hg Hb|v' Hb|c v' Hc Hb];
    injection E as <- _; try done; [by types Hg|by types Hc].
Qed.

Section TablesSafe.
Context {W : Type} `{!TreeHandler W} `{!TreeHandlerLaws W}.
Local Abbreviation T := (hubbub_treebuilder W).
Local Abbreviation M := (comp (hubbub_treebuilder W)).
Context (malloc : nat -> gmap Z formatting_list_entry -> option Z) (Hmalloc : malloc_fresh malloc).
Context (alloc_ok : nat -> Z -> bool) (Hlimit : alloc_limit alloc_ok).
Context (mibenum_from_name : bytes -> Z) (mibenum_to_name : Z -> option bytes).
Context (Hnames : th_encoding_change = None \/ names_known mibenum_from_name).
Local Abbreviation does := (does_or fails).
Local Abbreviation in_body := (handle_in_body malloc alloc_ok mibenum_from_name mibenum_to_name).
Local Abbreviation in_head := (handle_in_head alloc_ok mibenum_from_name mibenum_to_name in_body).

Lemma place_bodyish m R t : based m = true -> place R m [] t -> bodyish m R t.
Proof.
  intros Hm. assert (H : (exists ts, stands R ([] ++ ts) t /\ on_base m ts) -> bodyish m R t).
  { intros (ts & Ht & pre & u & -> & Hp & Hb). exists u. split; [done|]. by exists pre. }
  by destruct m.
Qed.

(** ** Going back to the mode of the stack *)

Lemma does_stack_ns E R a y b : b <> [] ->
  does_or E (stands R (a ++ y :: b)) (stack_ns (zlen b))
    (fun ns t => ns = HUBBUB_NS_HTML /\ stands R (a ++ y :: b) t).
Proof.
  intros Hb t (X & s & l & Hok & Hs). pose proof (stands_ok _ _ _ _ _ _ Hok Hs) as Ht.
  apply map_split in Hs as (sa & c & sb & -> & <- & <- & <-). rewrite <-(types_zlen sb _ eq_refl).
  pose proof (ok_cells _ _ _ _ _ Hok) as Hc. rewrite cells_app in Hc by done.
  destruct Hc as [_ Hc]. apply cells_cons in Hc as [(Hns & _) _]; [|by destruct sb].
  by eapply (wp_stack_ns (ok_st _ _ _ _ _ Hok)); [apply at_index_mid|exact Hns|].
Qed.

Lemma reset_steps E R m pre : forall a u, Forall plain pre -> base m u ->
  does_or E (stands R (a ++ pre ++ u)) (reset_loop (pred (length (pre ++ u))))
    (fun _ => stands (rv_set_mode m R) (a ++ pre ++ u)).
Proof.
  assert (Hstep : forall a y b m', b <> [] ->
    (mode_of y = Some m' \/ mode_of y = None /\
       does_or E (stands R (a ++ y :: b)) (reset_loop (pred (length b))) (fun _ => stands (rv_set_mode m' R) (a ++ y :: b))) ->
    does_or E (stands R (a ++ y :: b)) (reset_loop (length b)) (fun _ => stands (rv_set_mode m' R) (a ++ y :: b))).
  { intros a y b m' Hb Hy. destruct b as [|z b]; [done|]. cbn [length reset_loop pred] in *.
    replace (Z.of_nat (S (length b))) with (zlen (z :: b)) by (unfold zlen; cbn; lia).
    eapply does_bind; [by apply does_stack_ns|]. intros ns. apply does_and. intros ->. cbn [negb bool_decide].
    eapply does_bind; [apply does_stack_type|]. intros y'. apply does_and. intros ->.
    destruct Hy as [Hy|[Hy Hk]].
    - destruct y; try done; injection Hy as <-; apply does_set_mode.
    - destruct y; done || exact Hk. }
  induction pre as [|y pre IH]; intros a u Hp Hb.
  - cbn [app]. destruct (base_long _ _ Hb) as (y & z & v & ->). cbn [length pred].
    apply (Hstep a y (z :: v) m); [done|]. left. by eapply mode_of_base.
  - apply Forall_cons in Hp as [Hy Hp]. cbn [app length pred].
    apply (Hstep a y (pre ++ u) m).
    { intros [_ ->]%List.app_eq_nil. by apply base_some in Hb. }
    right. split; [by apply mode_of_plain|].
    specialize (IH (a ++ [y]) u Hp Hb). by rewrite <-(assoc_L (++)) in IH.
Qed.

Lemma does_reset E R m pre u : Forall plain pre -> base m u ->
  does_or E (stands R (pre ++ u)) reset_insertion_mode (fun _ => stands (rv_set_mode m R) (pre ++ u)).
Proof.
  intros Hp Hb. eapply does_bind; [apply does_top_index|]. intros n. apply does_and. intros ->.
  replace (Z.to_nat (zlen (pre ++ u) - 1)) with (pred (length (pre ++ u))) by (unfold zlen; lia).
  by apply (reset_steps E R m pre []).
Qed.

(** ** Tables *)

(** What the plain elements and a base of a table's mode are, from the table. *)
Lemma bodyish_table m R t : of_table m -> bodyish m R t ->
  exists a pre v m', stands R (a ++ ET.TABLE :: pre ++ v) t /\ Forall (fun y => y <> ET.TABLE) a /\
    Forall (fun y => y <> ET.HTML) a /\ Forall plain pre /\ base m' v /\ (m' = IN_BODY \/ m' = IN_CELL).
Proof.
  intros Ht (u & Hb & p & Hp & Hs). destruct (base_in_table _ _ Hb Ht) as (a & pre & v & m' & -> & Ha & Hpre & Hv & Hm' & _).
  assert (Hah : Forall (fun y => y <> ET.HTML) a).
  { clear -Hb. remember (a ++ ET.TABLE :: pre ++ v) as u eqn:Eu. revert a Eu.
    assert (H : forall m u, base m u -> forall a b, u = a ++ ET.TABLE :: b -> Forall (fun y => y <> ET.HTML) a).
    { clear. induction 1 as [|m pre v Hpre Hb IH Hm|g v Hg Hb IH|v Hb IH|c v Hc Hb IH]; intros a b E.
      - destruct a as [|x a]; [done|]. injection E as <- E. destruct a as [|x a]; [done|].
        injection E as <- E. by destruct a.
      - destruct a as [|x a]; [constructor|]. injection E as <- E. constructor; [done|].
        symmetry in E. apply app_split in E as [(b1 & -> & ->)|(a2 & -> & E)].
        + apply Forall_app in Hpre as [_ [Hx _]%Forall_cons]. done.
        + apply Forall_app. split; [|by eapply IH]. eapply Forall_impl; [exact Hpre|]. by intros y Hy ->.
      - destruct a as [|x a]; [constructor|]. injection E as <- E. constructor; [by types Hg|by eapply IH].
      - destruct a as [|x a]; [constructor|]. injection E as <- E. constructor; [done|by eapply IH].
      - destruct a as [|x a]; [constructor|]. injection E as <- E. constructor; [by types Hc|by eapply IH]. }
    intros a. by apply (H m). }
  exists (p ++ a), pre, v, m'. split_and!; try done.
  - by rewrite <-(assoc_L (++)).
  - apply Forall_app. split; [|done]. eapply Forall_impl; [exact Hp|]. by intros y Hy ->.
  - apply Forall_app. split; [|done]. eapply Forall_impl; [exact Hp|]. by intros y Hy ->.
Qed.

Lemma does_table_split {A} E m R (c : M A) Q : of_table m ->
  (forall a pre v m', Forall (fun y => y <> ET.TABLE) a -> Forall (fun y => y <> ET.HTML) a -> Forall plain pre ->
     base m' v -> m' = IN_BODY \/ m' = IN_CELL -> does_or E (stands R (a ++ ET.TABLE :: pre ++ v)) c Q) ->
  does_or E (bodyish m R) c Q.
Proof.
  intros Hm H t Ht. destruct (bodyish_table _ _ _ Hm Ht) as (a & pre & v & m' & Hs & ? & ? & ? & ? & ?). by eapply H.
Qed.

(** The mode outside a table that is closed. *)
Definition outside R (t : T) : Prop :=
  exists m', (m' = IN_BODY \/ m' = IN_CELL) /\ bodyish m' (rv_set_mode m' R) t.

(** A call of a function that does not return early. *)
Lemma does_called E B c (Q : hubbub_error -> T -> Prop) : does_or (fun _ _ => False) B c Q -> does_or E B (call c) Q.
Proof. intros H t Ht. apply wp_call. eapply wp_mono; [by apply H|done|done]. Qed.

Lemma does_called_until E R type a b : b <> [] -> type <> ET.UNKNOWN -> Forall (fun y => y <> type) a ->
  does_or E (stands R (a ++ type :: b)) (call (element_stack_pop_until type)) (fun _ => stands R b).
Proof.
  intros Hb N Ha. apply does_called. unfold element_stack_pop_until.
  destruct (type_eqb_spec ET.UNKNOWN type); [congruence|].
  eapply does_then; [|by apply does_ret]. apply does_pop_until; [done| |by destruct (type_eqb_spec type type)].
  eapply Forall_impl; [exact Ha|]. intros y Hy. cbn in Hy. by destruct (type_eqb_spec y type).
Qed.

Lemma does_close_table E m R : of_table m -> does_or E (bodyish m R) close_table (fun _ => outside R).
Proof.
  intros Hm. apply (does_table_split _ m R); [done|]. intros a pre v m' Ha _ Hp Hv Hm'.
  eapply does_bind; [apply does_called_until; [|done|done]|].
  { intros [_ ->]%List.app_eq_nil; by apply base_some in Hv. }
  intros e. eapply does_weaken; [by apply does_reset|done|].
  intros [] t Ht. exists m'. split; [done|]. exists v. split; [done|]. by exists pre.
Qed.

(** Popping down to the table. *)
Definition at_table R (t : T) : Prop := exists u, base IN_TABLE u /\ stands R u t.

Lemma does_clear_table E m R : of_table m ->
  does_or E (bodyish m R) clear_stack_table_context (fun _ => at_table R).
Proof.
  intros Hm. apply (does_table_split _ m R); [done|]. intros a pre v m' Ha Hah Hp Hv Hm'.
  eapply does_weaken; [apply does_pop_while|done|]; [|done|].
  - apply Forall_forall. intros y Hy. rewrite Forall_forall in Ha. specialize (Ha y Hy).
    rewrite Forall_forall in Hah. specialize (Hah y Hy).
    destruct (type_eqb_spec y ET.TABLE); [done|]. by destruct (type_eqb_spec y ET.HTML).
  - intros [] t Ht. exists (ET.TABLE :: pre ++ v). split; [by eapply base_table|done].
Qed.

(** The current table is a cell with its mark. *)
Lemma does_tainted {A} E m R (k : bool -> M A) Q : of_table m ->
  (forall b, does_or E (bodyish m R) (k b) Q) -> does_or E (bodyish m R) (let! b := table_tainted in k b) Q.
Proof.
  intros Hm Hk t Ht. destruct (bodyish_table _ _ _ Hm Ht) as (a & pre & v & m' & (X & s & l & [Hst Hi] & Hs) & _ & _ & _ & Hv & _).
  apply wp_bind. pose proof (iv_cells _ _ _ Hi) as Hc.
  eapply wp_bind, (wp_current_table _ _ _ _ _ _ _ Hst Hc).
  destruct (table_index_cases s Hc) as [[_ Hno]|(sa & c & sb & E' & Hb & Hz & _)].
  - exfalso. assert (ET.TABLE ∈ map ty s) as Hin by (rewrite Hs, elem_of_app; right; by left).
    apply list_elem_of_fmap in Hin as (c & Ec & Hin). rewrite Forall_forall in Hno. by apply (Hno c).
  - rewrite Hz. rewrite E' in Hst, Hc. rewrite cells_app in Hc by done. destruct Hc as [_ Hc].
    apply cells_cons in Hc as [(_ & _ & [b Htd] & _) _]; [|done].
    eapply (wp_stack_tainted Hst); [apply at_index_mid|exact Htd|]. by apply Hk.
Qed.

(** ** In a table *)

Lemma does_insert_made E R tag y ts (k : M hubbub_error) Q :
  tag_ns tag = HUBBUB_NS_HTML -> type_of_tag tag = y ->
  (forall e t, fails e t -> E e t) ->
  does_or E (stands R (y :: ts)) k Q ->
  does_or E (stands R ts) (do! check_call (insert_element alloc_ok tag true) in k) Q.
Proof.
  intros Hns Hy HE Hk t Ht. apply wp_bind. eapply (wp_check_call (stands R (y :: ts))); [|by apply Hk|exact HE].
  eapply wp_mono; [by apply (does_insert alloc_ok Hlimit tag R ts)|..].
  - intros e t'. change (element_type_from_name (tag_name tag)) with (type_of_tag tag). by rewrite Hy.
  - intros e t'. apply fails_result.
Qed.

(** A group that is opened, its own or the one that is made up. *)
Lemma does_insert_group m R tag own name mode g : of_table m -> tag_ns tag = HUBBUB_NS_HTML ->
  (own = true -> type_of_tag tag = g) -> (own = false -> element_type_from_name name = g) ->
  does (bodyish m R) (insert_group alloc_ok tag own name mode)
    (fun e t => (e = if own then HUBBUB_OK else HUBBUB_REPROCESS) /\
       exists u, base IN_TABLE u /\ stands (rv_set_mode mode R) (g :: u) t).
Proof.
  intros Hm Hns Ht Hf. eapply does_then; [by apply does_clear_table|].
  apply does_exists. intros u. apply does_and. intros Hb.
  eapply (does_insert_made _ _ _ g); [by destruct own|destruct own; cbn; auto|done|].
  eapply does_then; [apply does_set_mode|]. apply does_ret. intros t Hst. split; [done|]. by exists u.
Qed.

Lemma fails_neutral n e t (Q : unit -> T -> Prop) E : neutral n -> fails e t ->
  (forall t', fails e t' -> Q tt t') -> wp n Q E t.
Proof.
  intros Hn (N & He & R & X & s & l & Hst & Hs) HQ. apply (Hn _ _ _ _ _ _ _ Hst). intros t' Hst'.
  apply HQ. split_and!; [done|done|]. by exists R, X, s, l.
Qed.

Lemma result_neutral n e t (E : hubbub_error -> T -> Prop) : neutral n -> result steady e t ->
  wp n (fun _ => result steady e) E t.
Proof.
  intros Hn He. destruct (decide (e = HUBBUB_OK)) as [->|N]; [by apply (keeps_steady E n)|].
  eapply fails_neutral; [done|by destruct e|]. intros t'. apply fails_result.
Qed.

(** What handle_in_table has before it handles the token as in the body. *)
Definition tabled m n (p : hubbub_error * bool) (t : T) : Prop :=
  if p.2 then outcome n p.1 t
  else exists R, rv_mode R = m /\ for_body m (rv_token R) /\ bodyish m R t.

Lemma ended_result m R token e t : m <> IN_BODY -> ended m R token e t -> result steady e t.
Proof. by intros N [He|(_ & ? & _)]. Qed.

Lemma tabled_body m n p t : of_table m -> tabled m n p t ->
  wp (let '(err, handled) := p in
      if (handled : bool) then ret err else
      do! upd_ctx (set_tc_in_table_foster true) in
      let! token := gets tb_token in
      let! err := call (in_body token) in
      do! upd_ctx (set_tc_in_table_foster false) in
      ret err) (outcome n) fails t.
Proof.
  intros Hm Hp. destruct p as [err handled]. unfold tabled in Hp. cbn [fst snd] in Hp.
  destruct handled; [by apply wp_ret|]. destruct Hp as (R & HR & Htok & Ht).
  apply wp_bind. eapply wp_mono; [apply (does_neutral fails (bodyish m R) _ (bodyish_growing m R) (neutral_foster true)), Ht| |done].
  clear t Ht. intros [] t Ht. apply wp_bind, wp_gets.
  assert (Etok : tb_token t = rv_token R).
  { apply bodyish_place, place_rest in Ht. by rewrite <-Ht. }
  rewrite Etok. destruct Ht as (u & Hb & Ht).
  assert (Hend : forall e t, result steady e t ->
    wp (do! upd_ctx (set_tc_in_table_foster false) in ret e) (outcome n) fails t).
  { clear t Ht Etok. intros e t He. apply wp_bind.
    eapply wp_mono; [apply (result_neutral _ e t fails (neutral_foster false) He)| |done].
    intros [] t' Ht'. by apply wp_ret, result_outcome. }
  apply wp_bind, wp_call. eapply wp_mono; [by apply (does_in_body malloc Hmalloc alloc_ok Hlimit mibenum_from_name mibenum_to_name Hnames m R HR u Hb)|..].
  - intros e t' He. apply Hend. eapply ended_result; [|exact He]. by destruct Hm as [->|[->| ->]].
  - intros e t' He. by apply Hend, fails_result.
Qed.

Lemma input_loop m R tag : tag_ns tag = HUBBUB_NS_HTML -> plain (type_of_tag tag) ->
  forall attrs err t (E : hubbub_error -> T -> Prop), bodyish m R t ->
  wp (process_input_loop alloc_ok attrs tag err) (fun _ => bodyish m R) E t.
Proof.
  intros Hns Hy. induction attrs as [|a attrs IH]; intros err t E Ht; cbn [process_input_loop]; [by apply wp_ret|].
  destruct (negb _); [by apply IH|]. apply wp_bind, wp_call.
  assert (Hk : forall e t, bodyish m R t -> wp (process_input_loop alloc_ok attrs tag e) (fun _ => bodyish m R) E t).
  { intros e t' Ht'. by apply IH. }
  destruct Ht as (u & Hb & pre & Hp & Ht).
  eapply wp_mono; [by apply (does_insert_softly alloc_ok Hlimit tag R (pre ++ u) t Hns)|..];
    intros e t' He; apply Hk; exists u; (split; [done|]); unfold pushed in He;
    destruct (bool_decide (e = HUBBUB_OK)).
  - exists (type_of_tag tag :: pre). split; [by constructor|done].
  - exists pre. by destruct He.
  - exists (type_of_tag tag :: pre). split; [by constructor|done].
  - exists pre. by destruct He.
Qed.

Lemma outside_good R t : outside R t -> good t.
Proof. intros (m' & Hm' & Ht). by apply (bodyish_good m' (rv_set_mode m' R)). Qed.

Lemma outside_again R n t : outside R t -> tame (rv_token R) -> starts [ET.TABLE] (rv_token R) = true ->
  (10 < n)%nat -> again n t.
Proof.
  intros (m' & Hm' & Ht) Hr Hst Hn. apply (again_place (rv_set_mode m' R) m'); try done; [by apply bodyish_place|..].
  - by destruct Hm' as [-> | ->].
  - cbn [rv_token rv_set_mode]. destruct Hm' as [-> | ->]; cbn [rank]; [lia|]. rewrite Hst. lia.
Qed.

(** The start tags that open a part of a table. *)
Definition table_parts : list element_type :=
  [ET.CAPTION; ET.COL; ET.COLGROUP; ET.TBODY; ET.TD; ET.TFOOT; ET.TH; ET.THEAD; ET.TR].

Context (m : insertion_mode) (R : rest_view) (Hm : rv_mode R = m) (Htable : of_table m).

Lemma table_rank : (14 <= rank (rv_token R) m)%nat.
Proof. destruct Htable as [->|[->| ->]]; cbn; try lia; destruct (starts _ _); lia. Qed.

Lemma bodyish_tabled n t : for_body m (rv_token R) -> bodyish m R t -> tabled m n (HUBBUB_OK, false) t.
Proof. intros. by exists R. Qed.

Lemma tabled_handled n e t : result steady e t -> tabled m n (e, true) t.
Proof. apply result_outcome. Qed.

Lemma does_table_characters data n t : rv_token R = TokenCharacter data -> tame (rv_token R) -> bodyish m R t ->
  wp (let! err := call (process_characters_expect_whitespace data true) in ret (err, is_ok err)) (tabled m n) fails t.
Proof.
  intros Etok Htame Ht. assert (Hr : roomy m = true) by (by destruct Htable as [->|[->| ->]]).
  assert (Hbased : based m = true) by (by destruct Htable as [->|[->| ->]]).
  assert (Hend : forall e t, spaced R m [] e t -> wp (ret (e, is_ok e)) (tabled m n) fails t).
  { intros e t' He. apply wp_ret. destruct e; cbn [spaced] in He;
      try (destruct He as [_ He]; exists R; split_and!; [done|split; [done|by rewrite Etok]|by apply place_bodyish]).
    - cbn. apply steady_good. by eapply place_steady.
    - destruct He as (d & Hd & Ht'). exists (rv_set_token (TokenCharacter d) R).
      split_and!; [done|done|by apply place_bodyish]. }
  apply wp_bind, wp_call. eapply wp_mono; [apply (wp_expect R m []); [done|by apply bodyish_place]|exact Hend|exact Hend].
Qed.

Lemma does_table_end tag n t : rv_token R = TokenEndTag tag -> tame (rv_token R) -> bodyish m R t ->
  wp (let type := type_of_tag tag in
      if type_eqb type ET.TABLE then do! close_table in ret (HUBBUB_OK, true)
      else ret (HUBBUB_OK, one_of type [ET.BODY; ET.CAPTION; ET.COL; ET.COLGROUP; ET.HTML; ET.TBODY; ET.TD;
                                        ET.TFOOT; ET.TH; ET.THEAD; ET.TR]))
    (tabled m n) fails t.
Proof.
  intros Etok Htame Ht. cbv zeta. destruct (type_eqb_spec (type_of_tag tag) ET.TABLE) as [_|N].
  - apply wp_bind. eapply wp_mono; [apply (does_close_table fails m R Htable), Ht| |done].
    intros [] t' Ht'. apply wp_ret. by eapply outside_good.
  - apply wp_ret. destruct (one_of (type_of_tag tag) _) eqn:Hy.
    + apply steady_good. by eapply bodyish_steady.
    + apply bodyish_tabled; [|done]. split; [done|]. rewrite Etok. right.
      apply one_of_false. apply one_of_false in Hy. cbn [In floors] in *. intros Hin. apply Hy.
      repeat destruct Hin as [Hin|Hin]; try (by (symmetry in Hin; apply N in Hin)); try tauto.
Qed.

(** A start tag that opens a group. *)
Lemma does_table_group tag own name mode g t : rv_token R = TokenStartTag tag -> tame (rv_token R) ->
  tag_ns tag = HUBBUB_NS_HTML -> bodyish m R t -> (own = true -> type_of_tag tag = g) -> (own = false -> element_type_from_name name = g) ->
  late mode = true -> (forall u, base IN_TABLE u -> shape mode (g :: u)) ->
  (own = false -> (rank (TokenStartTag tag) mode < rank (TokenStartTag tag) m)%nat) ->
  wp (let! err := insert_group alloc_ok tag own name mode in ret (err, true))
    (tabled m (rank (TokenStartTag tag) m)) fails t.
Proof.
  intros Etok Htame Hns Ht Hg Hmade Hl Hs Hr. apply wp_bind.
  eapply wp_mono; [by apply (does_insert_group m R tag own name mode g)| |done].
  intros e t' [-> (u & Hb & Ht')]. apply wp_ret. unfold tabled. cbn [fst snd].
  assert (Hpl : place (rv_set_mode mode R) mode [] t') by (apply place_late; [done|]; exists (g :: u); auto).
  destruct own; [by eapply place_good; [exact Hpl|done|intros ->]|].
  apply (again_place (rv_set_mode mode R) mode); try done; [by intros ->|]. cbn [rv_token rv_set_mode].
  rewrite Etok. by apply Hr.
Qed.

Lemma does_in_table : tame (rv_token R) ->
  m = IN_TABLE \/ starts table_parts (rv_token R) = false ->
  does (bodyish m R) (handle_in_table malloc alloc_ok mibenum_from_name mibenum_to_name (rv_token R))
    (outcome (rank (rv_token R) m)).
Proof.
  intros Htame Hparts t Ht. unfold handle_in_table. apply wp_bind.
  eapply (wp_mono _ (tabled m (rank (rv_token R) m))); [|intros [e h] t' Hp; by apply (tabled_body m _ (e, h))|done].
  pose proof table_rank as Hrank.
  assert (Hdone : forall n, wp (ret (HUBBUB_OK, true)) (tabled m n) fails t).
  { intros n. apply wp_ret. apply steady_good. by eapply bodyish_steady. }
  destruct (rv_token R) as [dt|tag|tag|data|data|] eqn:Etok; try exact (Hdone _).
  - cbv zeta. apply (does_tainted fails m R _ _ Htable); [|exact Ht]. clear t Ht Hdone. intros tainted t Ht.
    pose proof Htame as (Hns & Hnot & _).
    assert (Hm1 : one_of (type_of_tag tag) table_parts = true -> m = IN_TABLE).
    { intros Hy. destruct Hparts as [|Hp]; [done|]. cbn [starts] in Hp. congruence. }
    destruct (type_eqb_spec (type_of_tag tag) ET.CAPTION) as [Hy|_].
    { apply one_of_false in Hnot. rewrite Hy in Hnot. cbn in Hnot. tauto. }
    destruct (one_of (type_of_tag tag) [ET.COLGROUP; ET.COL]) eqn:Hcol.
    { apply (does_table_group tag _ _ _ ET.COLGROUP); try done; [by rewrite Etok|..].
      - by destruct (type_eqb_spec (type_of_tag tag) ET.COLGROUP).
      - intros u Hu. by exists u.
      - intros Hown. rewrite Hm1 by (types Hcol; by rewrite <-Hcol).
        assert (type_of_tag tag = ET.COL) as Hy.
        { apply one_of_cases in Hcol as [Hy|[Hy|[]]]; [|done]. by rewrite <-Hy in Hown. }
        cbn. rewrite Hy. cbn. lia. }
    destruct (one_of (type_of_tag tag) [ET.TBODY; ET.TFOOT; ET.THEAD; ET.TD; ET.TH; ET.TR]) eqn:Hgr.
    { eapply (does_table_group tag _ _ _ (if one_of (type_of_tag tag) [ET.TBODY; ET.TFOOT; ET.THEAD]
        then type_of_tag tag else ET.TBODY)); try done; [by rewrite Etok|..].
      - by intros ->.
      - by intros ->.
      - intros u Hu. exists [], ((if one_of (type_of_tag tag) [ET.TBODY; ET.TFOOT; ET.THEAD]
          then type_of_tag tag else ET.TBODY) :: u). split_and!; [done|constructor|]. constructor; [|done].
        by destruct (one_of (type_of_tag tag) [ET.TBODY; ET.TFOOT; ET.THEAD]) eqn:Ho.
      - intros Hown. rewrite Hm1 by (clear -Hgr; types Hgr; by rewrite <-Hgr).
        cbn [rank starts]. replace (one_of (type_of_tag tag) [ET.TD; ET.TH; ET.TR]) with true; [cbn; lia|].
        clear -Hgr Hown. apply one_of_cases in Hgr. cbn [In] in Hgr.
        repeat destruct Hgr as [Hgr|Hgr]; try done; by rewrite <-Hgr in *. }
    destruct (type_eqb_spec (type_of_tag tag) ET.TABLE) as [Hy|N].
    { apply wp_bind. eapply wp_mono; [apply (does_close_table fails m R Htable), Ht| |done].
      intros [] t' Ht'. apply wp_ret. apply (outside_again R _ _ Ht'); [by rewrite Etok| |lia].
      rewrite Etok. cbn [starts]. by rewrite Hy. }
    destruct (negb tainted && one_of (type_of_tag tag) [ET.STYLE; ET.SCRIPT]) eqn:Hst.
    { apply andb_true_iff in Hst as [_ Hst].
      assert (H : wp (in_head (TokenStartTag tag)) (result steady) fails t).
      { apply (does_head alloc_ok Hlimit mibenum_from_name mibenum_to_name Hnames in_body R m).
        - by destruct Htable as [->|[->| ->]].
        - done.
        - done.
        - clear -Hst. types Hst; by rewrite <-Hst.
        - by apply bodyish_place. }
      apply wp_bind, wp_call. eapply wp_mono; [exact H|..]; intros e t' He; apply wp_ret, tabled_handled;
        [done|by apply fails_result]. }
    assert (Hbody : for_body m (rv_token R)).
    { rewrite Etok. split; [done|]. by intros ?. }
    destruct (negb tainted && type_eqb (type_of_tag tag) ET.INPUT) eqn:Hin.
    { apply andb_true_iff in Hin as [_ Hin]. destruct (type_eqb_spec (type_of_tag tag) ET.INPUT) as [Hy|]; [|done].
      apply wp_bind, wp_call. eapply (wp_mono _ (fun _ => bodyish m R)); [apply (input_loop m R tag Hns); [by rewrite Hy|exact Ht]|..].
      - intros e t' Ht'. apply wp_ret. unfold tabled. cbn [fst snd]. unfold is_ok.
        destruct (bool_decide_reflect (e = HUBBUB_OK)) as [->|_]; [|by exists R].
        apply steady_good. by eapply bodyish_steady.
      - intros e t' Ht'. exact Ht'. }
    apply wp_ret. apply bodyish_tabled; [by rewrite Etok|done].
  - apply does_table_end; [done|by rewrite Etok|done].
  - apply wp_bind, wp_call.
    assert (Hs : forall e t, soft (bodyish m R) e t -> wp (ret (e, true)) (tabled m (rank (TokenComment data) m)) fails t).
    { intros e t' He. apply wp_ret, tabled_handled. destruct (decide (e = HUBBUB_OK)) as [->|N].
      - eapply bodyish_steady; [apply He|done].
      - apply fails_result. by eapply soft_fails; [apply bodyish_growing|exact He|]. }
    eapply wp_mono; [apply (softly_comment _ data top_node (bodyish_growing m R)); [by apply looks_top, bodyish_growing|exact Ht]|..].
    + intros e t' He. by apply Hs.
    + intros e t' [_ He]. by apply Hs.
  - apply (does_tainted fails m R _ _ Htable); [|exact Ht]. clear t Ht Hdone. intros tainted t Ht.
    destruct tainted; [apply wp_ret, bodyish_tabled; [by rewrite Etok|done]|].
    apply does_table_characters; [done|by rewrite Etok|done].
Qed.
End TablesSafe.

Section TableParts.
Context {W : Type} `{!TreeHandler W} `{!TreeHandlerLaws W}.
Local Abbreviation T := (hubbub_treebuilder W).
Local Abbreviation M := (comp (hubbub_treebuilder W)).
Context (malloc : nat -> gmap Z formatting_list_entry -> option Z) (Hmalloc : malloc_fresh malloc).
Context (alloc_ok : nat -> Z -> bool) (Hlimit : alloc_limit alloc_ok).
Context (mibenum_from_name : bytes -> Z) (mibenum_to_name : Z -> option bytes).
Context (Hnames : th_encoding_change = None \/ names_known mibenum_from_name).
Local Abbreviation does := (does_or fails).
Local Abbreviation in_body := (handle_in_body malloc alloc_ok mibenum_from_name mibenum_to_name).
Local Abbreviation in_table := (handle_in_table malloc alloc_ok mibenum_from_name mibenum_to_name).
Context (R : rest_view).

(** ** Column groups *)

Lemma column_group_pop E R' : does_or E (place R' IN_COLUMN_GROUP []) (let! _ := pop_unref in set_mode IN_TABLE)
  (fun _ => place (rv_set_mode IN_TABLE R') IN_TABLE []).
Proof.
  apply does_exists. intros ts t [Ht (u & -> & Hb)]. revert t Ht. cbn [app].
  eapply does_bind; [apply does_pop; by eapply base_some|]. intros y. apply does_and. intros _.
  eapply does_weaken; [apply does_set_mode|done|]. intros [] t Ht.
  exists u. split; [done|]. exists [], u. split_and!; [done|constructor|done].
Qed.

Lemma does_in_column_group : rv_mode R = IN_COLUMN_GROUP -> tame (rv_token R) ->
  does (place R IN_COLUMN_GROUP [])
    (handle_in_column_group malloc alloc_ok mibenum_from_name mibenum_to_name (rv_token R))
    (outcome (rank (rv_token R) IN_COLUMN_GROUP)).
Proof.
  intros Hm Htame t Ht. unfold handle_in_column_group. set (n := rank (rv_token R) IN_COLUMN_GROUP).
  apply wp_bind. eapply (wp_mono _ (staged IN_COLUMN_GROUP IN_TABLE n)).
  2: { intros [e h] t' Hp. by apply (staged_pop IN_COLUMN_GROUP IN_TABLE n (e, h)); [|apply column_group_pop|]. }
  2: done.
  assert (Hok : wp (ret (HUBBUB_OK, false)) (staged IN_COLUMN_GROUP IN_TABLE n) fails t).
  { apply wp_ret. by apply (place_good R IN_COLUMN_GROUP). }
  assert (Hre : starts [ET.COL] (rv_token R) = false ->
    wp (ret (HUBBUB_REPROCESS, false)) (staged IN_COLUMN_GROUP IN_TABLE n) fails t).
  { intros Hc. apply wp_ret. exists R. split_and!; [done|done|]. subst n. cbn [rank]. rewrite Hc.
    destruct (starts [ET.TD; ET.TH; ET.TR] (rv_token R)); lia. }
  assert (Hg : growing (place R IN_COLUMN_GROUP [])) by by apply place_growing.
  destruct (rv_token R) as [dt|tag|tag|data|data|] eqn:Etok; try exact Hok; try (by apply Hre).
  - cbv zeta. destruct (type_eqb_spec (type_of_tag tag) ET.HTML) as [Hy|_].
    { eapply staged_softly; [..|exact Ht]; [done|done|]. by apply softly_html_in_body. }
    destruct (type_eqb_spec (type_of_tag tag) ET.COL) as [Hy|N].
    { eapply staged_softly; [..|exact Ht]; [done|done|]. by apply softly_insert. }
    apply Hre. cbn. by destruct (type_eqb_spec (type_of_tag tag) ET.COL).
  - cbv zeta. destruct (type_eqb _ _); [apply wp_ret; by exists R|]. destruct (type_eqb _ _); [exact Hok|by apply Hre].
  - eapply staged_softly; [..|exact Ht]; [done|done|]. by apply place_comment.
  - apply (staged_expect R); [done|done|intros d; cbn; lia|done].
Qed.

(** ** The groups of rows *)

Lemma does_clear_group E :
  does_or E (bodyish IN_TABLE_BODY R) clear_to_body (fun _ t => exists g v,
    one_of g [ET.TBODY; ET.TFOOT; ET.THEAD] = true /\ base IN_TABLE v /\ stands R (g :: v) t).
Proof.
  intros t (u & Hb & pre & Hp & Ht). inversion Hb as [| |g v Hg Hv| |]; subst.
  eapply wp_mono; [apply (does_pop_while E R _ pre g v), Ht| |done].
  - eapply Forall_impl; [exact Hp|]. intros y Hy. cbn. by destruct y.
  - by types Hg.
  - intros [] t' Ht'. by exists g, v.
Qed.

Lemma does_close_group E : does_or E (bodyish IN_TABLE_BODY R) close_body
  (fun _ => place (rv_set_mode IN_TABLE R) IN_TABLE []).
Proof.
  eapply does_then; [apply does_clear_group|]. apply does_exists. intros g. apply does_exists. intros v.
  apply does_and. intros Hg. apply does_and. intros Hv.
  eapply does_bind; [apply does_pop; by eapply base_some|]. intros y. apply does_and. intros _.
  eapply does_weaken; [apply does_set_mode|done|]. intros [] t Ht.
  exists v. split; [done|]. exists [], v. split_and!; [done|constructor|done].
Qed.

Lemma does_bodyish_scope E m type in_table :
  does_or E (bodyish m R) (in_scope type in_table) (fun _ => bodyish m R).
Proof.
  intros t (u & Hb & pre & Hp & Ht). eapply wp_mono; [apply (does_in_scope E R type in_table), Ht| |done].
  intros b t' [_ Ht']. exists u. split; [done|]. by exists pre.
Qed.

Lemma does_any_in_table_scope E m types :
  does_or E (bodyish m R) (any_in_table_scope types) (fun _ => bodyish m R).
Proof.
  induction types as [|type types IH]; cbn [any_in_table_scope]; [by apply does_ret|].
  eapply does_bind; [apply does_bodyish_scope|]. intros b. destruct b; [by apply does_ret|exact IH].
Qed.

(** Leaving the groups of rows for the table, with the token. *)
Lemma does_leave_group n : rv_mode R = IN_TABLE_BODY -> tame (rv_token R) ->
  (rank (rv_token R) IN_TABLE < n)%nat ->
  does (bodyish IN_TABLE_BODY R) table_sub_start_or_table_end (outcome n).
Proof.
  intros Hm Htame Hn. eapply does_bind; [apply does_any_in_table_scope|]. intros b. destruct b.
  - eapply does_then; [apply does_close_group|]. apply does_ret. intros t Ht.
    by apply (again_place (rv_set_mode IN_TABLE R) IN_TABLE).
  - apply does_ret. intros t Ht. by apply (bodyish_good IN_TABLE_BODY R).
Qed.

(** A row is opened. *)
Lemma does_open_row tag g v : tag_ns tag = HUBBUB_NS_HTML -> type_of_tag tag = ET.TR ->
  one_of g [ET.TBODY; ET.TFOOT; ET.THEAD] = true -> base IN_TABLE v ->
  does (stands R (g :: v)) (insert_and_go alloc_ok tag IN_ROW) (result (place (rv_set_mode IN_ROW R) IN_ROW [])).
Proof.
  intros Hns Hy Hg Hv.
  eapply (does_after_ok _ (stands R (ET.TR :: g :: v))); [|eapply does_weaken; [apply does_set_mode|done|]].
  - intros t Ht. eapply wp_mono; [by apply (does_insert alloc_ok Hlimit tag R (g :: v))| |done]. intros e t2.
    change (element_type_from_name (tag_name tag)) with (type_of_tag tag). by rewrite Hy.
  - intros [] t Ht. exists (ET.TR :: g :: v). split; [done|]. exists [], (ET.TR :: g :: v).
    split_and!; [done|constructor|]. by constructor; constructor.
Qed.

Lemma does_in_table_body : rv_mode R = IN_TABLE_BODY -> tame (rv_token R) ->
  does (bodyish IN_TABLE_BODY R)
    (handle_in_table_body malloc alloc_ok mibenum_from_name mibenum_to_name (rv_token R)) (outcome 15).
Proof.
  intros Hm Htame.
  assert (Htable : starts table_parts (rv_token R) = false ->
    does (bodyish IN_TABLE_BODY R) (in_table (rv_token R)) (outcome 15)).
  { intros Hp. apply (does_in_table malloc Hmalloc alloc_ok Hlimit _ _ Hnames IN_TABLE_BODY R); auto. right; auto. }
  assert (Hok : forall b : bool, does_or fails (bodyish IN_TABLE_BODY R) (do! when b close_body in ret HUBBUB_OK) (outcome 15)).
  { intros [|].
    - eapply does_then; [apply does_close_group|]. apply does_ret. intros t Ht.
      by apply (place_good (rv_set_mode IN_TABLE R) IN_TABLE).
    - apply does_skip, does_ret. intros t Ht. by apply (bodyish_good IN_TABLE_BODY R). }
  unfold handle_in_table_body.
  destruct (rv_token R) as [dt|tag|tag|data|data|] eqn:Etok; try (by apply Htable).
  - pose proof Htame as (Hns & Hnot & Hidx). cbv zeta.
    destruct (type_eqb_spec (type_of_tag tag) ET.TR) as [Hy|N1].
    { eapply does_then; [apply does_clear_group|]. apply does_exists. intros g. apply does_exists. intros v.
      apply does_and. intros Hg. apply does_and. intros Hv. eapply does_weaken; [by apply does_open_row|done|].
      intros e t He. apply result_outcome.
      eapply result_mono; [|exact He]. intros t' Ht'. by apply (place_steady (rv_set_mode IN_ROW R) IN_ROW). }
    destruct (one_of (type_of_tag tag) [ET.TH; ET.TD]) eqn:Hcell.
    { eapply does_then; [apply does_clear_group|]. apply does_exists. intros g. apply does_exists. intros v.
      apply does_and. intros Hg. apply does_and. intros Hv.
      eapply does_bind; [apply (does_open_row _ g v); [done|vm_compute; reflexivity|done|done]|].
      intros e t He. apply wp_ret. unfold is_ok. destruct (bool_decide_reflect (e = HUBBUB_OK)) as [->|N].
      - apply (again_place (rv_set_mode IN_ROW R) IN_ROW); try done; cbn [rv_token rv_set_mode]; rewrite Etok; [done|].
        cbn [rank starts]. replace (one_of (type_of_tag tag) [ET.TD; ET.TH]) with true; [lia|].
        clear -Hcell. apply one_of_cases in Hcell as [Hy|[Hy|[]]]; by rewrite <-Hy.
      - apply outcome_fails. by destruct e. }
    destruct (one_of (type_of_tag tag) [ET.CAPTION; ET.COL; ET.COLGROUP; ET.TBODY; ET.TFOOT; ET.THEAD]) eqn:Hpart.
    { apply does_leave_group; [done|by rewrite Etok|]. rewrite Etok. cbn [rank starts].
      replace (one_of (type_of_tag tag) [ET.TD; ET.TH; ET.TR]) with false; [lia|].
      symmetry. apply one_of_false. apply one_of_false in Hcell. cbn in Hcell |- *. intuition. }
    apply Htable. cbn [starts]. apply one_of_false. apply one_of_false in Hcell, Hpart. cbn [In table_parts] in *.
    intuition.
  - cbv zeta. destruct (one_of (type_of_tag tag) [ET.TBODY; ET.TFOOT; ET.THEAD]).
    { eapply does_bind; [apply does_bodyish_scope|]. intros b. apply Hok. }
    destruct (type_eqb _ _).
    { apply does_leave_group; [done|by rewrite Etok|]. rewrite Etok. cbn. lia. }
    destruct (one_of _ _); [apply (Hok false)|by apply Htable].
Qed.

(** ** Rows *)

Lemma does_clear_row E :
  does_or E (bodyish IN_ROW R) clear_to_row (fun _ t => exists v, base IN_TABLE_BODY v /\ stands R (ET.TR :: v) t).
Proof.
  intros t (u & Hb & pre & Hp & Ht). inversion Hb as [| | |v Hv|]; subst.
  eapply wp_mono; [apply (does_pop_while E R _ pre ET.TR v), Ht| |done]; [|done|].
  - eapply Forall_impl; [exact Hp|]. intros y Hy. cbn. by destruct y.
  - intros [] t' Ht'. by exists v.
Qed.

Lemma does_end_row E : does_or E (bodyish IN_ROW R) act_as_if_end_tag_tr
  (fun e t => e = HUBBUB_REPROCESS /\ place (rv_set_mode IN_TABLE_BODY R) IN_TABLE_BODY [] t).
Proof.
  eapply does_then; [apply does_clear_row|]. apply does_exists. intros v. apply does_and. intros Hv.
  eapply does_bind; [apply does_current|]. intros y. apply does_and. intros ->.
  eapply (does_then _ _ (stands R v)).
  { eapply does_bind; [apply does_pop; by eapply base_some|]. intros y. apply does_and. intros _. by apply does_ret. }
  eapply does_then; [apply does_set_mode|]. apply does_ret. intros t Ht. split; [done|].
  exists v. split; [done|]. exists [], v. split_and!; [done|constructor|done].
Qed.

(** A cell is opened, with its marker in the formatting list. *)
Lemma does_insert_cell tag : tag_ns tag = HUBBUB_NS_HTML -> one_of (type_of_tag tag) [ET.TH; ET.TD] = true ->
  does (bodyish IN_ROW R) (insert_cell malloc alloc_ok tag) (result (place (rv_set_mode IN_CELL R) IN_CELL [])).
Proof.
  intros Hns Hy. eapply does_then; [apply does_clear_row|]. apply does_exists. intros v. apply does_and. intros Hv.
  intros t (X & s & l & Hok & Hs). set (type := type_of_tag tag) in *.
  assert (Hty : listed type = true /\ active_type type = true /\ one_of type [ET.TD; ET.TH] = true) by (by types Hy; rewrite <-Hy).
  destruct Hty as (Hl & Ha & Hcell).
  set (C t := exists X' s' n, alike s s' /\ (n ∉ X) /\ X ⊆ X' /\ ok R X' (new_cell HUBBUB_NS_HTML type n :: s') l t).
  apply wp_bind, (wp_check_call C); [| |done].
  { apply (wp_push_element alloc_ok Hlimit _ _ _ _ _ _ _ _ Hok Hns).
    - intros X' s' n t' HX Has Hn _ Hok'. by exists X', s', n.
    - intros e X' s' t' N He _ _ Hok'. by eapply fails_result, ok_fails. }
  intros t1 (X' & s' & n & Has & Hn & HX & [Hst1 Hi1]). pose proof (iv_cells _ _ _ Hi1) as Hc1.
  assert (Hs' : s' <> []).
  { intros ->. inversion Has; subst. by pose proof (ok_cells _ _ _ _ _ Hok). }
  apply wp_bind, (wp_set_mode Hst1). clear t1 Hst1. intros t1 Hst1.
  eapply wp_bind, (wp_top_node _ _ _ _ _ _ _ _ Hst1 Hc1), wp_bind, (wp_ref_node Hst1). clear t1 Hst1.
  intros t1 Hst1. eapply wp_bind, (wp_top_node _ _ _ _ _ _ _ _ Hst1 Hc1), wp_bind, (wp_top_index Hst1).
  rewrite zlen_cons. replace (1 + zlen s' - 1) with (zlen s') by lia. rewrite Hns.
  apply wp_bind, wp_call, (wp_list_append malloc Hmalloc _ _ _ _ _ _ _ _ _ _ _ Hst1).
  - intros p t2 _ Hst2. apply wp_ret. exists (type :: ET.TR :: v). split.
    + exists X', (new_cell HUBBUB_NS_HTML type n :: s'), (l ++ [(p, new_item HUBBUB_NS_HTML type n (zlen s'))]).
      split; [|cbn; by rewrite (alike_types _ _ Has), Hs].
      split; [done|]. apply (inv_list_append X' (new_cell HUBBUB_NS_HTML type n)); try done.
      intros d Hd E. pose proof (iv_list_known _ _ _ (ok_inv _ _ _ _ _ Hok)) as Hk. rewrite Forall_forall in Hk.
      apply Hn. cbn in E. rewrite <-E. auto.
    + exists [], (type :: ET.TR :: v). split_and!; [done|constructor|]. constructor; [done|by constructor].
  - intros t2 Hst2. eapply wp_bind, (wp_top_node _ _ _ _ _ _ _ _ Hst2 Hc1).
    assert (Hpop : forall t, st (rv_set_mode IN_CELL R) X' (new_cell HUBBUB_NS_HTML type n :: s') l t ->
      wp (let! _ := element_stack_pop in ret HUBBUB_NOMEM) (result (place (rv_set_mode IN_CELL R) IN_CELL [])) fails t).
    { intros t3 Hst3. eapply wp_bind, (wp_pop _ _ _ _ _ _ _ _ _ Hst3 Hs'); [done|]. intros t4 Hst4.
      apply wp_ret. apply cells_cons in Hc1 as [_ Hc1]; [|done]. by eapply fails_result, (st_fails _ _ _ _ _ _ Hst4). }
    apply wp_bind, wp_call, (wp_remove_node _ _ _ _ _ _ _ _ Hst2); [exact Hpop|].
    intros e t3 _ _ Hst3. by apply Hpop.
Qed.

Lemma does_in_row : rv_mode R = IN_ROW -> tame (rv_token R) ->
  does (bodyish IN_ROW R)
    (handle_in_row malloc alloc_ok mibenum_from_name mibenum_to_name (rv_token R))
    (outcome (rank (rv_token R) IN_ROW)).
Proof.
  intros Hm Htame.
  assert (Htable : starts table_parts (rv_token R) = false ->
    does (bodyish IN_ROW R) (in_table (rv_token R)) (outcome (rank (rv_token R) IN_ROW))).
  { intros Hp. apply (does_in_table malloc Hmalloc alloc_ok Hlimit _ _ Hnames IN_ROW R); auto. right; auto. }
  assert (Hleave : starts [ET.TD; ET.TH] (rv_token R) = false ->
    does (bodyish IN_ROW R) act_as_if_end_tag_tr (outcome (rank (rv_token R) IN_ROW))).
  { intros Hno. eapply does_weaken; [apply does_end_row|done|]. intros e t [-> Ht].
    apply (again_place (rv_set_mode IN_TABLE_BODY R) IN_TABLE_BODY); try done.
    cbn [rank rv_token rv_set_mode]. rewrite Hno. lia. }
  assert (Hok : does (bodyish IN_ROW R) (ret HUBBUB_OK) (outcome (rank (rv_token R) IN_ROW))).
  { apply does_ret. intros t Ht. by apply (bodyish_good IN_ROW R). }
  unfold handle_in_row.
  destruct (rv_token R) as [dt|tag|tag|data|data|] eqn:Etok; try (by apply Htable).
  - pose proof Htame as (Hns & Hnot & Hidx). cbv zeta.
    destruct (one_of (type_of_tag tag) [ET.TH; ET.TD]) eqn:Hcell.
    { eapply does_weaken; [by apply does_insert_cell|done|]. intros e t He. apply result_outcome.
      eapply result_mono; [|exact He]. intros t' Ht'. by apply (place_steady (rv_set_mode IN_CELL R) IN_CELL). }
    destruct (one_of (type_of_tag tag) [ET.CAPTION; ET.COL; ET.COLGROUP; ET.TBODY; ET.TFOOT; ET.THEAD; ET.TR]) eqn:Hpart.
    { apply Hleave. cbn [starts]. apply one_of_false. apply one_of_false in Hcell. cbn in Hcell |- *. intuition. }
    apply Htable. cbn [starts]. apply one_of_false. apply one_of_false in Hcell, Hpart. cbn [In table_parts] in *.
    intuition.
  - cbv zeta. destruct (type_eqb _ _).
    { eapply does_bind; [apply does_end_row|]. intros e. apply does_and. intros _. apply does_ret. intros t Ht.
      by apply (place_good (rv_set_mode IN_TABLE_BODY R) IN_TABLE_BODY). }
    destruct (type_eqb _ _); [by apply Hleave|]. destruct (one_of _ _); [exact Hok|by apply Htable].
Qed.

(** ** Cells *)

(** The cell that is open is the only one in scope, by its own type. *)
Lemma cell_scope pre c v type : Forall plain pre -> one_of c [ET.TD; ET.TH] = true ->
  one_of type [ET.TD; ET.TH] = true -> base IN_ROW v ->
  tscope type true (pre ++ c :: v) <> 0 <-> c = type.
Proof.
  intros Hp Hc Ht Hv.
  assert (Hbelow : tscope type true v = 0).
  { inversion Hv as [| | |v2 Hv2|]; subst. inversion Hv2 as [| |g v3 Hg Hv3| |]; subst.
    inversion Hv3 as [|m' pre' v4 Hp' Hv4 Hm'| | |]; subst.
    assert (Hv4s : pre' ++ v4 <> []) by (intros [_ ->]%List.app_eq_nil; by apply base_some in Hv4).
    rewrite tscope_cons by done. replace (type_eqb ET.TR type) with false by (by types Ht).
    cbn [open_scope type_eqb orb andb negb]. rewrite tscope_cons by done.
    replace (type_eqb g type) with false by (by types Hg; types Ht). replace (open_scope true g) with true by (by types Hg).
    rewrite tscope_cons by done. by types Ht. }
  induction Hp as [|y pre Hy Hp IH]; cbn [app].
  - rewrite tscope_cons by (by eapply base_some). destruct (type_eqb_spec c type) as [->|N].
    + pose proof (zlen_positive v (base_some _ _ Hv)). split; [done|lia].
    + replace (open_scope true c) with true by (by types Hc). rewrite Hbelow. split; [done|congruence].
  - rewrite tscope_cons by (by destruct pre). destruct (type_eqb_spec y type) as [->|N].
    + exfalso. by types Ht.
    + replace (open_scope true y) with true by (by destruct y). exact IH.
Qed.

Lemma does_close_element E pre c v : Forall plain pre -> one_of c [ET.TD; ET.TH] = true -> base IN_ROW v ->
  does_or E (stands R (pre ++ c :: v)) (close_element c IN_ROW) (fun _ => place (rv_set_mode IN_ROW R) IN_ROW []).
Proof.
  intros Hp Hc Hv. assert (Hcv : base IN_CELL (c :: v)) by by constructor.
  pose proof (base_walled _ _ Hcv) as Hw.
  apply (does_then _ _ (body R (c :: v))).
  { eapply does_weaken; [apply (keeps_implied R (c :: v) Hw)| |done]. intros t Ht. by exists pre. }
  apply does_exists. intros pre2. apply does_and. intros Hp2.
  eapply does_then; [apply does_pop_until|].
  - by eapply base_some.
  - eapply Forall_impl; [exact Hp2|]. intros y Hy. cbn.
    destruct (type_eqb_spec y c) as [->|]; [|done]. exfalso. by types Hc.
  - by destruct (type_eqb_spec c c).
  - eapply does_then; [apply does_clear|]. eapply does_weaken; [apply does_set_mode|done|].
    intros [] t Ht. exists v. split; [done|]. exists [], v. split_and!; [done|constructor|done].
Qed.

Lemma does_cell {A} E (k : M A) Q :
  (forall pre c v, Forall plain pre -> one_of c [ET.TD; ET.TH] = true -> base IN_ROW v ->
     does_or E (stands R (pre ++ c :: v)) k Q) -> does_or E (bodyish IN_CELL R) k Q.
Proof.
  intros H t (u & Hb & pre & Hp & Ht). inversion Hb as [| | | |c v Hc Hv]; subst. by apply (H pre c v).
Qed.

Lemma does_close_cell E : does_or E (bodyish IN_CELL R) close_cell (fun _ => place (rv_set_mode IN_ROW R) IN_ROW []).
Proof.
  apply does_cell. intros pre c v Hp Hc Hv. eapply does_bind; [apply does_in_scope|]. intros b. apply does_and. intros ->.
  pose proof (cell_scope pre c v ET.TD Hp Hc eq_refl Hv) as Hs.
  assert (Ec : (if negb (tscope ET.TD true (pre ++ c :: v) =? 0) then ET.TD else ET.TH) = c).
  { destruct (Z.eqb_spec (tscope ET.TD true (pre ++ c :: v)) 0) as [E0|N]; cbn; [|by apply Hs in N].
    types Hc. by apply Hs in E0. }
  rewrite Ec. by apply does_close_element.
Qed.

Lemma does_in_cell : rv_mode R = IN_CELL -> tame (rv_token R) ->
  does (bodyish IN_CELL R)
    (handle_in_cell malloc alloc_ok mibenum_from_name mibenum_to_name (rv_token R))
    (outcome (rank (rv_token R) IN_CELL)).
Proof.
  intros Hm Htame.
  assert (Hbody : for_body IN_CELL (rv_token R) ->
    does (bodyish IN_CELL R) (in_body (rv_token R)) (outcome (rank (rv_token R) IN_CELL))).
  { intros Hf t (u & Hb & Ht).
    eapply wp_mono; [by apply (does_in_body malloc Hmalloc alloc_ok Hlimit mibenum_from_name mibenum_to_name Hnames IN_CELL R Hm u Hb)| |done].
    intros e t' He. apply result_outcome. by eapply ended_result; [|exact He]. }
  assert (Hleave : starts [ET.TABLE] (rv_token R) = false ->
    does (bodyish IN_CELL R) (do! close_cell in ret HUBBUB_REPROCESS) (outcome (rank (rv_token R) IN_CELL))).
  { intros Hno. eapply does_then; [apply does_close_cell|]. apply does_ret. intros t Ht.
    apply (again_place (rv_set_mode IN_ROW R) IN_ROW); try done.
    cbn [rank rv_token rv_set_mode]. rewrite Hno. destruct (starts [ET.TD; ET.TH] (rv_token R)); lia. }
  assert (Hok : does (bodyish IN_CELL R) (ret HUBBUB_OK) (outcome (rank (rv_token R) IN_CELL))).
  { apply does_ret. intros t Ht. by apply (bodyish_good IN_CELL R). }
  unfold handle_in_cell.
  destruct (rv_token R) as [dt|tag|tag|data|data|] eqn:Etok; try (by apply Hbody; split).
  - destruct (one_of (type_of_tag tag) _) eqn:Hpart.
    { apply Hleave. cbn [starts]. apply one_of_false. apply one_of_cases in Hpart. cbn [In] in *.
      intros [Hy|[]]. rewrite <-Hy in Hpart. intuition discriminate. }
    apply Hbody. split; [done|]. by right.
  - cbv zeta. destruct (one_of (type_of_tag tag) [ET.TH; ET.TD]) eqn:Hcell.
    { apply does_cell. intros pre c v Hp Hc Hv. eapply does_bind; [apply does_in_scope|]. intros b. apply does_and. intros ->.
      assert (Hty : one_of (type_of_tag tag) [ET.TD; ET.TH] = true) by (types Hcell; by rewrite <-Hcell).
      pose proof (cell_scope pre c v _ Hp Hc Hty Hv) as Hs.
      destruct (Z.eqb_spec (tscope (type_of_tag tag) true (pre ++ c :: v)) 0) as [E0|N]; cbn [negb when].
      - apply does_skip, does_ret. intros t Ht. apply (bodyish_good IN_CELL R); [|done].
        exists (c :: v). split; [by constructor|by exists pre].
      - apply Hs in N. rewrite <-N. eapply does_then; [by apply does_close_element|]. apply does_ret. intros t Ht.
        by apply (place_good (rv_set_mode IN_ROW R) IN_ROW). }
    destruct (one_of (type_of_tag tag) [ET.BODY; ET.CAPTION; ET.COL; ET.COLGROUP; ET.HTML]) eqn:H1; [exact Hok|].
    destruct (one_of (type_of_tag tag) [ET.TABLE; ET.TBODY; ET.TFOOT; ET.THEAD; ET.TR]) eqn:H2.
    { eapply does_bind; [apply does_bodyish_scope|]. intros b. destruct b; [by apply Hleave|exact Hok]. }
    apply Hbody. split; [done|]. right. apply one_of_false. apply one_of_false in Hcell, H1, H2. cbn [In floors] in *.
    intuition.
Qed.
End TableParts.
