(* ===== verification/TreeLateSafe.v ===== *)
(** * TreeLateSafe: the insertion modes of select, of framesets and after the body. *)
From Stdlib Require Ascii String.
From S2P Require Import Prelude.
From S2P Require Import Errors.
From S2P Require Import Detect.
From S2P Require Import DetectSpec.
From S2P Require Import Tokens.
From S2P Require Import TokeniserState.
From S2P Require Import TokeniserMonad.
From S2P Require Import TokeniserWp.
From S2P Require Import ElementType.
From S2P Require Import TreeState.
From S2P Require Import TreeRepr.
From S2P Require Import TreeStack.
From S2P Require Import TreeAdoption.
From S2P Require Import TreeBody.
From S2P Require Import TreeModes.
From S2P Require Import TreeRules.
From S2P Require Import TreeInv.
From S2P Require Import TreeSteps.
From S2P Require Import TreePops.
From S2P Require Import TreeRounds.
From S2P Require Import TreeFlow.
From S2P Require Import TreeInBody.
From S2P Require Import TreePlaces.
From stdpp Require Import gmap.
From S2P Require Import TreeBodyTags.
From S2P Require Import TreeOutcome.
From S2P Require Import TreeTablesSafe.
From stdpp Require Import gmap.
Import String.StringSyntax.
Local Open Scope string_scope.
Local Open Scope Z_scope.

Lemma rank_based token m : based m = true -> (rank token m <= 18)%nat.
Proof. destruct m; try done; intros _; cbn; try lia; destruct (starts _ token); lia. Qed.

Section LateSafe.
Context {W : Type} `{!TreeHandler W} `{!TreeHandlerLaws W}.
Local Abbreviation T := (hubbub_treebuilder W).
Local Abbreviation M := (comp (hubbub_treebuilder W)).
Context (malloc : nat -> gmap Z formatting_list_entry -> option Z) (Hmalloc : malloc_fresh malloc).
Context (alloc_ok : nat -> Z -> bool) (Hlimit : alloc_limit alloc_ok).
Context (mibenum_from_name : bytes -> Z) (mibenum_to_name : Z -> option bytes).
Context (Hnames : th_encoding_change = None \/ names_known mibenum_from_name).
Local Abbreviation does := (does_or fails).
Local Abbreviation in_body := (handle_in_body malloc alloc_ok mibenum_from_name mibenum_to_name).
Local Abbreviation in_head := (handle_in_head alloc_ok mibenum_from_name mibenum_to_name in_body).
Context (R : rest_view).

(** ** Select *)

Definition selecting (t : T) : Prop :=
  exists pre v m, Forall plain pre /\ on_base m v /\ stands R (pre ++ ET.SELECT :: v) t.

Lemma on_base_some m v : on_base m v -> v <> [].
Proof. intros (pre & u & -> & _ & Hb) [_ ->]%List.app_eq_nil. by apply base_some in Hb. Qed.

Lemma selecting_growing : growing selecting.
Proof.
  intros t (pre & v & m & Hp & Hv & Ht). destruct (stands_growing _ _ _ Ht) as (R' & X & s & l & Hok & Hg).
  exists R', X, s, l. split; [done|]. intros. exists pre, v, m. split_and!; [done|done|by eapply Hg].
Qed.

Lemma place_selecting m t : m = IN_SELECT \/ m = IN_SELECT_IN_TABLE -> place R m [] t -> selecting t.
Proof. intros [->| ->]; intros (ts & Ht & pre & v & m' & -> & Hp & Hv); by exists pre, v, m'. Qed.

Lemma selecting_place m t : m = IN_SELECT \/ m = IN_SELECT_IN_TABLE -> selecting t -> place R m [] t.
Proof.
  intros Hm (pre & v & m' & Hp & Hv & Ht).
  assert (shape m (pre ++ ET.SELECT :: v)) by (destruct Hm as [->| ->]; by exists pre, v, m').
  apply place_late; [by destruct Hm as [->| ->]|]. by exists (pre ++ ET.SELECT :: v).
Qed.

Lemma does_select_current {A} E (k : element_type -> M A) Q :
  (forall y pre v m, plain y -> Forall plain pre -> on_base m v ->
     does_or E (stands R (y :: pre ++ ET.SELECT :: v)) (k y) Q) ->
  does_or E selecting (k ET.SELECT) Q ->
  does_or E selecting (let! y := current_node in k y) Q.
Proof.
  intros Hp Hs t (pre & v & m & Hpre & Hv & Ht). destruct pre as [|y pre]; apply wp_bind.
  - eapply wp_mono; [apply does_current, Ht| |done]. intros y t' [-> Ht']. apply Hs. by exists [], v, m.
  - apply Forall_cons in Hpre as [Hy Hpre].
    eapply wp_mono; [apply does_current, Ht| |done]. intros y' t' [-> Ht']. by eapply Hp.
Qed.

Lemma select_stands y pre v m t : plain y -> Forall plain pre -> on_base m v ->
  stands R (y :: pre ++ ET.SELECT :: v) t -> selecting t.
Proof. intros Hy Hp Hv Ht. exists (y :: pre), v, m. split_and!; [by constructor|done|done]. Qed.

Lemma does_pop_select E y pre v m : Forall plain pre -> on_base m v ->
  does_or E (stands R (y :: pre ++ ET.SELECT :: v)) (let! _ := pop_unref in ret tt) (fun _ => selecting).
Proof.
  intros Hp Hv. eapply does_bind; [apply does_pop; by destruct pre|]. intros y'. apply does_and. intros _.
  apply does_ret. intros t Ht. by exists pre, v, m.
Qed.

Lemma does_pop_if_current E type : plain type -> does_or E selecting (pop_if_current type) (fun _ => selecting).
Proof.
  intros Hy. apply does_select_current.
  - intros y pre v m Hy' Hp Hv. destruct (type_eqb y type); [by eapply does_pop_select|].
    apply does_ret. intros t. by eapply select_stands.
  - destruct (type_eqb_spec ET.SELECT type) as [<-|_]; [done|]. by apply does_ret.
Qed.

Lemma does_insert_select tag : tag_ns tag = HUBBUB_NS_HTML -> plain (type_of_tag tag) ->
  does selecting (insert_element alloc_ok tag true) (result selecting).
Proof.
  intros Hns Hy. apply does_exists. intros pre. apply does_exists. intros v. apply does_exists. intros m.
  apply does_and. intros Hp. apply does_and. intros Hv.
  eapply does_weaken; [by apply does_insert|done|]. intros e t. apply result_mono.
  intros t' Ht'. by apply (select_stands (type_of_tag tag) pre v m).
Qed.

(** The select element is in scope, and closing it leads back to the mode below it. *)
Definition below (t : T) : Prop := exists m, based m = true /\ place (rv_set_mode m R) m [] t.

Lemma does_close_select E : does_or E selecting close_select (fun _ => below).
Proof.
  apply does_exists. intros pre. apply does_exists. intros v. apply does_exists. intros m.
  apply does_and. intros Hp. apply does_and. intros Hv.
  eapply does_bind; [apply does_called_until; [by eapply on_base_some|done|]|].
  { eapply Forall_impl; [exact Hp|]. by intros y Hy ->. }
  intros e. destruct Hv as (pre2 & u & -> & Hp2 & Hb). eapply does_weaken; [by apply does_reset|done|].
  intros [] t Ht. exists m. split; [by eapply base_based|]. apply bodyish_place. exists u. split; [done|]. by exists pre2.
Qed.

Lemma does_close_select_in_scope E : does_or E selecting close_select_in_scope (fun _ => below).
Proof.
  apply does_exists. intros pre. apply does_exists. intros v. apply does_exists. intros m.
  apply does_and. intros Hp. apply does_and. intros Hv.
  eapply does_bind; [apply does_in_scope|]. intros b. apply does_and. intros ->.
  assert (Hs : tscope ET.SELECT true (pre ++ ET.SELECT :: v) <> 0).
  { pose proof (zlen_positive v (on_base_some _ _ Hv)). induction Hp as [|y pre Hy Hp IH]; cbn [app].
    - rewrite tscope_cons by (by eapply on_base_some). cbn. lia.
    - rewrite tscope_cons by (by destruct pre). replace (type_eqb y ET.SELECT) with false by (by destruct y).
      by replace (open_scope true y) with true by (by destruct y). }
  apply Z.eqb_neq in Hs. rewrite Hs. cbn [negb when].
  eapply does_weaken; [apply does_close_select| |done]. intros t Ht. by exists pre, v, m.
Qed.

Lemma below_good t : below t -> good t.
Proof. intros (m & Hm & Ht). apply (place_good (rv_set_mode m R) m); [done|done|by intros ->]. Qed.

Lemma below_again t : tame (rv_token R) -> below t -> again 22 t.
Proof.
  intros Hr (m & Hm & Ht). apply (again_place (rv_set_mode m R) m); [done|done|by intros ->|done|].
  pose proof (rank_based (rv_token R) m Hm). cbn [rv_token rv_set_mode]. lia.
Qed.

Lemma does_prev_node {A} E y z ts (k : element_type -> M A) Q :
  does_or E (stands R (y :: z :: ts)) (k z) Q ->
  does_or E (stands R (y :: z :: ts)) (let! x := prev_node in k x) Q.
Proof.
  intros Hk. apply (does_bind _ _ _ _ (fun x t => x = z /\ stands R (y :: z :: ts) t)).
  - eapply does_bind; [apply does_top_index|]. intros n. apply does_and. intros ->.
    rewrite !zlen_cons. pose proof (zlen_nonneg ts). destruct (Z.eqb_spec (1 + (1 + zlen ts) - 1) 0); [lia|].
    replace (1 + (1 + zlen ts) - 1 - 1) with (zlen ts) by lia. apply (does_stack_type _ R [y]).
  - intros x. apply does_and. by intros ->.
Qed.

(** The first three steps of several. *)
Lemma does_first {A C D} E (B B' : T -> Prop) (m1 : M A) (f : A -> M C) (g : C -> M unit) (k : M D) Q :
  does_or E B (let! a := m1 in let! c := f a in g c) (fun _ => B') -> does_or E B' k Q ->
  does_or E B (let! a := m1 in let! c := f a in do! g c in k) Q.
Proof.
  intros Hm Hk t Ht. specialize (Hm t Ht). unfold wp, bind in *.
  destruct (m1 t) as [a t1|e t1|]; [|done|done]. destruct (f a t1) as [c t2|e t2|]; [|done|done].
  destruct (g c t2) as [u t3|e t3|]; [|done|done]. by apply Hk.
Qed.

(** An option in a group is closed before the group is. *)
Lemma does_end_option_in_group E :
  does_or E selecting
    (let! cur := current_node in
     let! option_in_group :=
       (if type_eqb cur ET.OPTION then let! prev := prev_node in ret (type_eqb prev ET.OPTGROUP) else ret false) in
     when option_in_group (let! _ := pop_unref in ret tt)) (fun _ => selecting).
Proof.
  apply does_select_current.
  - intros y pre v m Hy Hp Hv. set (ts := y :: pre ++ ET.SELECT :: v).
    apply (does_bind _ _ _ _ (fun _ => stands R ts)).
    + destruct (type_eqb y ET.OPTION); [|by apply does_ret].
      assert (Hts : exists z r, ts = y :: z :: r) by (destruct pre; cbn; eauto).
      destruct Hts as (z & r & ->). apply does_prev_node. by apply does_ret.
    + intros b. destruct b; [by eapply does_pop_select|]. apply does_ret. intros t. by eapply select_stands.
  - cbn [type_eqb]. apply (does_bind _ _ _ _ (fun b t => b = false /\ selecting t)).
    + by apply does_ret.
    + intros b. apply does_and. intros ->. by apply does_ret.
Qed.

Context (m : insertion_mode) (Hm : rv_mode R = m) (Hselect : m = IN_SELECT \/ m = IN_SELECT_IN_TABLE).

Lemma selecting_steady t : selecting t -> steady t.
Proof.
  intros Ht. apply (place_steady R m); [by destruct Hselect as [->| ->]|done|by apply selecting_place].
Qed.

Lemma does_in_select : tame (rv_token R) ->
  does selecting (handle_in_select malloc alloc_ok mibenum_from_name mibenum_to_name (rv_token R)) (outcome 22).
Proof.
  intros Htame.
  assert (Hsoft : forall c, softly selecting c -> does selecting c (outcome 22)).
  { intros c Hc. apply (softly_outcome selecting); [apply selecting_growing|intros t Ht; by apply steady_good, selecting_steady|done]. }
  assert (Hok : does selecting (ret HUBBUB_OK) (outcome 22)).
  { apply does_ret. intros t Ht. by apply steady_good, selecting_steady. }
  assert (Hins : forall tag, tag_ns tag = HUBBUB_NS_HTML -> plain (type_of_tag tag) ->
    does selecting (insert_element alloc_ok tag true) (outcome 22)).
  { intros tag Hns Hy. eapply does_weaken; [by apply does_insert_select|done|]. intros e t He.
    apply result_outcome. eapply result_mono; [|exact He]. apply selecting_steady. }
  assert (Hclose : forall e, e = HUBBUB_OK \/ e = HUBBUB_REPROCESS ->
    does selecting (do! close_select_in_scope in ret e) (outcome 22)).
  { intros e He. eapply does_then; [apply does_close_select_in_scope|]. apply does_ret. intros t Ht.
    destruct He as [->| ->]; [by apply below_good|by apply below_again]. }
  unfold handle_in_select. destruct (rv_token R) as [dt|tag|tag|data|data|] eqn:Etok; try exact Hok.
  - destruct Htame as (Hns & _ & _). cbv zeta.
    destruct (type_eqb_spec (type_of_tag tag) ET.HTML) as [Hy|_].
    { apply Hsoft, softly_html_in_body; [apply selecting_growing|done]. }
    destruct (type_eqb_spec (type_of_tag tag) ET.OPTION) as [Hy|_].
    { eapply does_then; [by apply does_pop_if_current|]. apply Hins; [done|by rewrite Hy]. }
    destruct (type_eqb_spec (type_of_tag tag) ET.OPTGROUP) as [Hy|_].
    { eapply does_then; [by apply does_pop_if_current|]. eapply does_then; [by apply does_pop_if_current|].
      apply Hins; [done|by rewrite Hy]. }
    destruct (one_of _ _); [apply Hclose; destruct (negb _); auto|].
    destruct (type_eqb_spec (type_of_tag tag) ET.SCRIPT) as [Hy|_]; [|exact Hok].
    eapply does_weaken; [apply (does_head alloc_ok Hlimit mibenum_from_name mibenum_to_name Hnames in_body R m tag)|..].
    + by destruct Hselect as [->| ->].
    + done.
    + done.
    + by rewrite Hy.
    + intros t Ht. by apply selecting_place.
    + intros e t. apply result_outcome.
  - cbv zeta. destruct (type_eqb _ _).
    { assert (Hrest : does selecting (do! pop_if_current ET.OPTGROUP in ret HUBBUB_OK) (outcome 22)).
      { eapply does_then; [by apply does_pop_if_current|exact Hok]. }
      eapply does_first; [apply does_end_option_in_group|exact Hrest]. }
    destruct (type_eqb _ _); [eapply does_then; [by apply does_pop_if_current|exact Hok]|].
    destruct (type_eqb _ _); [by apply Hclose; left|exact Hok].
  - apply Hsoft, softly_comment; [apply selecting_growing|apply looks_top, selecting_growing].
  - apply Hsoft, softly_text, selecting_growing.
Qed.

Lemma does_in_select_in_table : tame (rv_token R) ->
  does selecting (handle_in_select_in_table malloc alloc_ok mibenum_from_name mibenum_to_name (rv_token R)) (outcome 22).
Proof.
  intros Htame. pose proof (does_in_select Htame) as Hselect'.
  assert (Hclose : does selecting (do! close_select in ret HUBBUB_REPROCESS) (outcome 22)).
  { eapply does_then; [apply does_close_select|]. apply does_ret. intros t Ht. by apply below_again. }
  unfold handle_in_select_in_table. destruct (rv_token R) as [dt|tag|tag|data|data|] eqn:Etok; try exact Hselect'; cbv zeta.
  - destruct (one_of _ _); [exact Hclose|exact Hselect'].
  - destruct (one_of _ _); [|exact Hselect']. apply (does_bind _ _ _ _ (fun _ => selecting)).
    + apply does_exists. intros pre. apply does_exists. intros v. apply does_exists. intros m'.
      apply does_and. intros Hp. apply does_and. intros Hv. eapply does_weaken; [apply does_in_scope|done|].
      intros b t [_ Ht]. by exists pre, v, m'.
    + intros b. destruct b; [exact Hclose|]. apply does_ret. intros t Ht. by apply steady_good, selecting_steady.
Qed.
End LateSafe.

Section AfterSafe.
Context {W : Type} `{!TreeHandler W} `{!TreeHandlerLaws W}.
Local Abbreviation T := (hubbub_treebuilder W).
Local Abbreviation M := (comp (hubbub_treebuilder W)).
Context (malloc : nat -> gmap Z formatting_list_entry -> option Z) (Hmalloc : malloc_fresh malloc).
Context (alloc_ok : nat -> Z -> bool) (Hlimit : alloc_limit alloc_ok).
Context (mibenum_from_name : bytes -> Z) (mibenum_to_name : Z -> option bytes).
Context (Hnames : th_encoding_change = None \/ names_known mibenum_from_name).
Local Abbreviation does := (does_or fails).
Local Abbreviation in_body := (handle_in_body malloc alloc_ok mibenum_from_name mibenum_to_name).
Local Abbreviation in_head := (handle_in_head alloc_ok mibenum_from_name mibenum_to_name in_body).
Context (R : rest_view).

(** ** After the body *)

(** Going back to another mode with the token. *)
Lemma place_back R' m m' n : tame (rv_token R') -> m' <> GENERIC_RCDATA -> (rank (rv_token R') m' < n)%nat ->
  (forall t, place (rv_set_mode m' R') m [] t -> place (rv_set_mode m' R') m' [] t) ->
  does (place R' m []) (back_to m') (outcome n).
Proof.
  intros Hr N Hn Hm. eapply does_then; [apply place_set_mode|]. apply does_ret. intros t Ht.
  apply (again_place (rv_set_mode m' R') m'); auto.
Qed.

Lemma does_whitespace t data : data <> [] -> place R AFTER_BODY [] t ->
  wp (in_body (TokenCharacter data)) (result (place R AFTER_BODY [])) fails t.
Proof.
  intros Hd (ts & Ht & pre & u & -> & Hp & Hb). pose proof (base_walled _ _ Hb) as Hw. apply wp_bind, wp_ret.
  eapply wp_mono; [apply (keeps_character alloc_ok Hlimit R u data Hd); by exists pre| |done].
  intros e t'. apply result_mono. intros t2 (pre2 & Hp2 & Ht2). exists (pre2 ++ u). split; [done|]. by exists pre2, u.
Qed.

Lemma does_after_body : rv_mode R = AFTER_BODY -> tame (rv_token R) ->
  does (place R AFTER_BODY []) (handle_after_body malloc alloc_ok mibenum_from_name mibenum_to_name (rv_token R))
    (outcome (rank (rv_token R) AFTER_BODY)).
Proof.
  intros Hm Htame. pose proof (place_growing R AFTER_BODY [] eq_refl) as HB.
  assert (Hgood : forall t, place R AFTER_BODY [] t -> good t) by (intros t Ht; by apply (place_good R AFTER_BODY)).
  assert (Hsoft : forall n c, softly (place R AFTER_BODY []) c -> does (place R AFTER_BODY []) c (outcome n)).
  { intros n c. by apply softly_outcome. }
  assert (Hback : ends [ET.HTML] (rv_token R) = false ->
    does (place R AFTER_BODY []) (back_to IN_BODY) (outcome (rank (rv_token R) AFTER_BODY))).
  { intros He. apply place_back; [done|done| |done]. cbn [rank]. rewrite He. lia. }
  unfold handle_after_body. destruct (rv_token R) as [dt|tag|tag|data|data|] eqn:Etok; try (by apply does_ret); try (by apply Hback).
  - destruct (type_eqb_spec (type_of_tag tag) ET.HTML) as [Hy|_]; [by apply Hsoft, softly_html_in_body|by apply Hback].
  - destruct (type_eqb_spec (type_of_tag tag) ET.HTML) as [Hy|N].
    + eapply does_then; [apply place_set_mode|]. apply does_ret. intros t Ht.
      by apply (place_good (rv_set_mode AFTER_AFTER_BODY R) AFTER_AFTER_BODY).
    + apply Hback. cbn. by destruct (type_eqb_spec (type_of_tag tag) ET.HTML).
  - apply Hsoft, softly_comment; [done|by apply looks_root].
  - cbv zeta. pose proof (leading_le data) as Hle. set (c := leading_whitespace data) in *.
    apply (does_then _ _ (place R AFTER_BODY [])).
    { apply does_when. intros Hc. apply does_checked. intros t Ht. apply does_whitespace; [|done].
      intros E0. apply (f_equal zlen) in E0. rewrite zlen_ztake in E0. change (zlen []) with 0 in E0. lia. }
    destruct (Z.eqb_spec c (zlen data)) as [|N]; cbn [negb]; [by apply does_ret|].
    eapply does_then; [apply place_set_token|]. apply place_back; [|done|cbn; lia|done].
    cbn. intros E0. apply (f_equal zlen) in E0. rewrite zlen_zdrop in E0. change (zlen []) with 0 in E0. lia.
Qed.

Lemma does_expect_then m (b : bool) data n (k : hubbub_error -> M hubbub_error) t :
  (b = true -> roomy m = true) ->
  (forall e t, spaced R m [] e t -> wp (k e) (outcome n) fails t) -> place R m [] t ->
  wp (let! err := call (process_characters_expect_whitespace data b) in k err) (outcome n) fails t.
Proof. intros Hb Hk Ht. apply wp_bind, wp_call. eapply wp_mono; [by apply (wp_expect R m [])|exact Hk|exact Hk]. Qed.

Lemma place_comment_at m data (d : M Z) n : roomy m = true -> rv_mode R = m -> looks (place R m []) d ->
  does (place R m []) (process_comment_append data d) (outcome n).
Proof.
  intros Hr Hm Hd. pose proof (place_growing R m [] Hr) as HB.
  apply (softly_outcome (place R m [])); [done| |by apply softly_comment].
  intros t Ht. apply steady_good. by eapply place_steady.
Qed.

(** White space, and otherwise another mode. *)
Lemma does_expect_back m m' data n : roomy m = true -> rv_mode R = m -> m' <> GENERIC_RCDATA ->
  (forall data, (rank (TokenCharacter data) m' < n)%nat) ->
  (forall R t, place R m [] t -> place R m' [] t) ->
  does (place R m [])
    (let! err := call (process_characters_expect_whitespace data true) in
     do! when (is_reprocess err) (set_mode m') in ret err) (outcome n).
Proof.
  intros Hr Hm N Hn Hpl t Ht. eapply (does_expect_then m true); [done| |exact Ht].
  intros e t' He. unfold is_reprocess. destruct e; cbn [spaced] in He;
    try (apply wp_bind, wp_ret, wp_ret, outcome_fails; destruct He as [? He];
         by eapply soft_fails; [by apply (place_growing R m [])|split|]).
  - apply wp_bind, wp_ret, wp_ret, steady_good. by eapply place_steady.
  - destruct He as (d & Hd & Ht'). apply wp_bind.
    eapply wp_mono; [apply (place_set_mode fails (rv_set_token (TokenCharacter d) R) m []), Ht'| |done].
    intros [] t2 Ht2. apply wp_ret.
    apply (again_place (rv_set_mode m' (rv_set_token (TokenCharacter d) R)) m'); [by apply Hpl|done|done|done|apply Hn].
Qed.

Lemma does_after_after_body : rv_mode R = AFTER_AFTER_BODY -> tame (rv_token R) ->
  does (place R AFTER_AFTER_BODY [])
    (handle_after_after_body malloc alloc_ok mibenum_from_name mibenum_to_name (rv_token R)) (outcome 23).
Proof.
  intros Hm Htame. pose proof (place_growing R AFTER_AFTER_BODY [] eq_refl) as HB.
  assert (Hgood : forall t, place R AFTER_AFTER_BODY [] t -> good t).
  { intros t Ht. by apply (place_good R AFTER_AFTER_BODY). }
  assert (Hback : does (place R AFTER_AFTER_BODY []) (back_to IN_BODY) (outcome 23)).
  { apply place_back; [done|done|cbn; lia|done]. }
  unfold handle_after_after_body. destruct (rv_token R) as [dt|tag|tag|data|data|] eqn:Etok; try exact Hback; try (by apply does_ret).
  - eapply does_then; [apply does_neutral; [done|apply neutral_strip]|by apply does_ret].
  - destruct (type_eqb_spec (type_of_tag tag) ET.HTML) as [Hy|_]; [|exact Hback].
    apply (softly_outcome (place R AFTER_AFTER_BODY [])); [done|done|by apply softly_html_in_body].
  - apply place_comment_at; [done|done|apply looks_ctx].
  - apply does_expect_back; try done. intros d. cbn. lia.
Qed.

(** ** Framesets *)

Definition frames (m : insertion_mode) : bool :=
  match m with IN_FRAMESET | AFTER_FRAMESET | AFTER_AFTER_FRAMESET => true | _ => false end.

Lemma frames_place m R' t : frames m = true -> place R' m [] t -> exists k, stands R' (replicate k ET.FRAMESET ++ [ET.HTML]) t.
Proof. destruct m; try done; intros _ (ts & Ht & k & ->); by exists k. Qed.

Lemma place_frames m R' k t : frames m = true -> stands R' (replicate k ET.FRAMESET ++ [ET.HTML]) t -> place R' m [] t.
Proof. destruct m; try done; intros _ Ht; (eexists; split; [exact Ht|by exists k]). Qed.

Lemma frames_move m m' R' t : frames m = true -> frames m' = true -> place R' m [] t -> place R' m' [] t.
Proof. intros Hm Hm' Ht. destruct (frames_place m R' t Hm Ht) as [k Hk]. by eapply place_frames. Qed.

Context (m : insertion_mode) (Hm : rv_mode R = m) (Hframes : frames m = true).

Lemma frames_roomy : roomy m = true.
Proof. by destruct m. Qed.

Lemma frames_good t : place R m [] t -> good t.
Proof. intros Ht. apply steady_good. by apply (place_steady R m); [apply frames_roomy|..]. Qed.

Lemma frames_softly n c : softly (place R m []) c -> does (place R m []) c (outcome n).
Proof. apply softly_outcome; [by apply place_growing, frames_roomy|exact frames_good]. Qed.

Lemma frames_html n tag : type_of_tag tag = ET.HTML -> does (place R m []) (in_body (TokenStartTag tag)) (outcome n).
Proof. intros Hy. apply frames_softly, softly_html_in_body; [by apply place_growing, frames_roomy|done]. Qed.

Lemma frames_noframes n tag : tag_ns tag = HUBBUB_NS_HTML -> type_of_tag tag = ET.NOFRAMES ->
  does (place R m []) (in_head (TokenStartTag tag)) (outcome n).
Proof.
  intros Hns Hy. eapply does_weaken; [apply (does_head alloc_ok Hlimit mibenum_from_name mibenum_to_name Hnames in_body R m tag)|done|].
  - apply frames_roomy.
  - done.
  - done.
  - by rewrite Hy.
  - intros e t. apply result_outcome.
Qed.

Lemma frames_whitespace n data : does (place R m []) (whitespace_only data) (outcome n).
Proof.
  intros t Ht. apply (does_expect_then m true); [intros _; apply frames_roomy| |done].
  intros e t' He. apply wp_ret. unfold is_reprocess. destruct e; cbn [spaced] in He; cbn;
    try (apply outcome_fails; destruct He as [? He];
         by eapply soft_fails; [by apply (place_growing R m []), frames_roomy|split|]).
  - by apply frames_good.
  - destruct He as (d & Hd & Ht'). by apply (place_good (rv_set_token (TokenCharacter d) R) m); [..|intros ->].
Qed.

Lemma frames_comment n data d : looks (place R m []) d -> does (place R m []) (process_comment_append data d) (outcome n).
Proof. intros Hd. by apply place_comment_at; [apply frames_roomy|..]. Qed.

Lemma frames_set n m' : frames m' = true -> does (place R m []) (do! set_mode m' in ret HUBBUB_OK) (outcome n).
Proof.
  intros Hm'. eapply does_then; [apply place_set_mode|]. apply does_ret. intros t Ht.
  apply (place_good (rv_set_mode m' R) m'); [by apply (frames_move m)|done|by intros ->].
Qed.

Lemma frames_top : looks (place R m []) top_node.
Proof. by apply looks_top, place_growing, frames_roomy. Qed.

Lemma frames_ok n : does (place R m []) (ret HUBBUB_OK) (outcome n).
Proof. apply does_ret. exact frames_good. Qed.

Lemma does_after_frameset n : tame (rv_token R) ->
  does (place R m []) (handle_after_frameset malloc alloc_ok mibenum_from_name mibenum_to_name (rv_token R)) (outcome n).
Proof.
  intros Htame. unfold handle_after_frameset. destruct (rv_token R) as [dt|tag|tag|data|data|]; try apply frames_ok.
  - destruct Htame as (Hns & _ & _). cbv zeta.
    destruct (type_eqb_spec (type_of_tag tag) ET.HTML) as [Hy|_]; [by apply frames_html|].
    destruct (type_eqb_spec (type_of_tag tag) ET.NOFRAMES) as [Hy|_]; [by apply frames_noframes|apply frames_ok].
  - destruct (type_eqb _ _); [by apply frames_set|apply frames_ok].
  - apply frames_comment, frames_top.
  - apply frames_whitespace.
Qed.

Lemma does_after_after_frameset : tame (rv_token R) ->
  does (place R m []) (handle_after_after_frameset malloc alloc_ok mibenum_from_name mibenum_to_name (rv_token R))
    (outcome 23).
Proof.
  intros Htame. unfold handle_after_after_frameset. pose proof frames_roomy as Hr.
  assert (Hpl : forall R' t, place R' m [] t -> place R' IN_FRAMESET [] t) by (intros R' t; by apply frames_move).
  destruct (rv_token R) as [dt|tag|tag|data|data|] eqn:Etok; try apply frames_ok.
  - pose proof Htame as (Hns & _ & _). cbv zeta.
    destruct (type_eqb_spec (type_of_tag tag) ET.HTML) as [Hy|_]; [by apply frames_html|].
    destruct (type_eqb_spec (type_of_tag tag) ET.NOFRAMES) as [Hy|_]; [by apply frames_noframes|].
    apply place_back; [by rewrite Etok|done|cbn; lia|]. intros t. apply Hpl.
  - apply frames_comment, looks_ctx.
  - by apply does_expect_back; [..|intros d; cbn; lia|].
Qed.

Lemma does_end_frameset n :
  does (place R m [])
    (let! type := current_node in
     if type_eqb type ET.HTML then ret HUBBUB_OK else
     let! _ := pop_unref in
     let! type := current_node in
     do! when (negb (type_eqb type ET.FRAMESET)) (set_mode AFTER_FRAMESET) in
     ret HUBBUB_OK) (outcome n).
Proof.
  intros t Ht. destruct (frames_place m R t Hframes Ht) as [k Hk]. revert t Ht Hk.
  assert (H : does (stands R (replicate k ET.FRAMESET ++ [ET.HTML]))
    (let! type := current_node in
     if type_eqb type ET.HTML then ret HUBBUB_OK else
     let! _ := pop_unref in
     let! type := current_node in
     do! when (negb (type_eqb type ET.FRAMESET)) (set_mode AFTER_FRAMESET) in
     ret HUBBUB_OK) (outcome n)); [|intros t _ Hk; by apply H].
  assert (Hf : forall k t, stands R (replicate k ET.FRAMESET ++ [ET.HTML]) t -> good t).
  { intros k' t Ht. eapply frames_good, place_frames; [done|exact Ht]. }
  destruct k as [|k]; cbn [replicate app].
  { eapply does_bind; [apply does_current|]. intros y. apply does_and. intros ->. apply does_ret. apply (Hf 0%nat). }
  eapply does_bind; [apply does_current|]. intros y. apply does_and. intros ->. cbn [type_eqb].
  eapply does_bind; [apply does_pop; by destruct k|]. intros y. apply does_and. intros _.
  destruct k as [|k]; cbn [replicate app].
  - eapply does_bind; [apply does_current|]. intros y'. apply does_and. intros ->.
    eapply does_then; [apply does_set_mode|]. apply does_ret. intros t Ht.
    apply (place_good (rv_set_mode AFTER_FRAMESET R) AFTER_FRAMESET); [|done|done].
    by apply (place_frames AFTER_FRAMESET _ 0%nat).
  - eapply does_bind; [apply does_current|]. intros y'. apply does_and. intros ->.
    apply does_skip, does_ret. apply (Hf (S k)).
Qed.

Lemma does_in_frameset n : tame (rv_token R) ->
  does (place R m []) (handle_in_frameset malloc alloc_ok mibenum_from_name mibenum_to_name (rv_token R)) (outcome n).
Proof.
  intros Htame. unfold handle_in_frameset. destruct (rv_token R) as [dt|tag|tag|data|data|]; try apply frames_ok.
  - destruct Htame as (Hns & _ & _). cbv zeta.
    destruct (type_eqb_spec (type_of_tag tag) ET.HTML) as [Hy|_]; [by apply frames_html|].
    destruct (type_eqb_spec (type_of_tag tag) ET.FRAMESET) as [Hy|_].
    { intros t Ht. destruct (frames_place m R t Hframes Ht) as [k Hk].
      eapply wp_mono; [apply (does_insert alloc_ok Hlimit tag R (replicate k ET.FRAMESET ++ [ET.HTML]) Hns), Hk| |done].
      intros e t' He. apply result_outcome. eapply result_mono; [|exact He]. intros t2 Ht2.
      apply (place_steady R m); [apply frames_roomy|done|]. apply (place_frames m R (S k)); [done|].
      change (element_type_from_name (tag_name tag)) with (type_of_tag tag) in Ht2. by rewrite Hy in Ht2. }
    destruct (type_eqb_spec (type_of_tag tag) ET.FRAME) as [Hy|_].
    { apply frames_softly, softly_insert; [done|]. by apply place_growing, frames_roomy. }
    destruct (type_eqb_spec (type_of_tag tag) ET.NOFRAMES) as [Hy|_]; [by apply frames_noframes|apply frames_ok].
  - destruct (type_eqb _ _); [apply does_end_frameset|apply frames_ok].
  - apply frames_comment, frames_top.
  - apply frames_whitespace.
Qed.
End AfterSafe.
