(* ===== verification/TreeSession.v ===== *)
(** * TreeSession: the tree builder over whole documents.

    A token that is given to a good state ends with a good state or with a
    failure that leaves something to destroy; [token_fuel] is enough for it. *)
From Stdlib Require Ascii String.
From S2P Require Import Prelude.
From S2P Require Import Errors.
From S2P Require Import Detect.
From S2P Require Import DetectSpec.
From S2P Require Import Tokens.
From S2P Require Import TokeniserState.
From S2P Require Import TokeniserMonad.
From S2P Require Import TokeniserWp.
From S2P Require Import ElementType.
From S2P Require Import TreeState.
From S2P Require Import TreeRepr.
From S2P Require Import TreeStack.
From S2P Require Import TreeAdoption.
From S2P Require Import TreeBody.
From S2P Require Import TreeModes.
From S2P Require Import TreeRules.
From S2P Require Import TreeInv.
From S2P Require Import TreeSteps.
From S2P Require Import TreePops.
From S2P Require Import TreeRounds.
From S2P Require Import TreeFlow.
From S2P Require Import TreeInBody.
From S2P Require Import TreePlaces.
From stdpp Require Import gmap.
From S2P Require Import TreeBodyTags.
From S2P Require Import TreeOutcome.
From S2P Require Import TreeHeadSafe.
From S2P Require Import TreeTablesSafe.
From S2P Require Import TreeLateSafe.
From S2P Require Import TreeBuilder.
From stdpp Require Import gmap.
Import String.StringSyntax.

(** * Destroying a tree builder

    From any state that [lasting] describes, so also after an error,
    hubbub_treebuilder_destroy reads only cells that are set and entries that are
    allocated, and frees every entry. *)
Local Open Scope Z_scope.

Section Destroy.
Context {W : Type} `{!TreeHandler W} `{!TreeHandlerLaws W}.
Local Abbreviation T := (hubbub_treebuilder W).
Local Abbreviation M := (comp (hubbub_treebuilder W)).

(** The entries that are left are the cells of [l], the first one with a link
    to one that may be freed. *)
Lemma wp_free_entries (unref : bool) l : forall fuel prev t (Q : unit -> T -> Prop) E,
  tb_entries t = list_to_map (link prev NULL l) -> good_ptrs l -> (length l < fuel)%nat ->
  (forall t', tb_entries t' = ∅ -> Q tt t') -> wp (free_entries fuel (head_ptr l) unref) Q E t.
Proof.
  induction l as [|[p d] l IH]; intros fuel prev t Q E Hh Hg Hf HQ;
    (destruct fuel as [|fuel]; [lia|]); cbn [free_entries head_or]; [by apply HQ|].
  pose proof (proj1 (good_ptrs_cons p d l) Hg) as (Hp & Hn & Hg').
  rewrite (proj2 (Z.eqb_neq p NULL)) by done. cbn [link list_to_map foldr] in Hh.
  assert (Hlk : (list_to_map (link p NULL l) : gmap Z formatting_list_entry) !! p = None).
  { apply not_elem_of_list_to_map. by rewrite link_fst. }
  eapply wp_bind, wp_bind, wp_gets, wp_of_option; [by rewrite Hh, lookup_insert_eq|]. cbn beta.
  assert (Hu : forall Q' : unit -> T -> Prop, (forall t', tb_entries t' = tb_entries t -> Q' tt t') ->
    wp (when unref (unref_node (fe_node (entry_of d prev (head_ptr l))))) Q' E t).
  { intros Q' HQ'. destruct unref; [by apply wp_modify, HQ'|by apply HQ']. }
  apply wp_bind, Hu. intros t1 Ht1. rewrite Hh in Ht1.
  apply wp_bind, wp_entry_free; [by rewrite Ht1, lookup_insert_eq|].
  cbn [entry_of fe_next]. apply (IH fuel p); [|done|cbn in Hf; lia|done].
  cbn. by rewrite Ht1, delete_insert_eq, delete_id.
Qed.

(** The stack, the top first. *)
Lemma wp_unref_stack R X a c : forall b l t (Q : unit -> T -> Prop) E,
  st R X (b ++ a ++ [c]) l t -> Forall (fun c => is_Some (ec_node c)) a ->
  (forall t', st R X (b ++ a ++ [c]) l t' -> Q tt t') -> wp (unref_stack (length a)) Q E t.
Proof.
  induction a as [|x a IH]; intros b l t Q E Hst Ha HQ; [by apply HQ|].
  apply Forall_cons in Ha as [[n Hn] Ha]. change (length (x :: a)) with (S (length a)). cbn [unref_stack].
  replace (Z.of_nat (S (length a))) with (zlen (a ++ [c])) by (unfold zlen; rewrite length_app; cbn; lia).
  eapply wp_bind, (wp_stack_node Hst); [apply at_index_mid|done|].
  eapply wp_bind, (wp_unref_node Hst). clear t Hst. intros t Hst.
  change ((x :: a) ++ [c]) with ([x] ++ a ++ [c]) in Hst, HQ. rewrite (assoc_L (++)) in Hst, HQ.
  by apply (IH (b ++ [x])  l).
Qed.

Lemma wp_unref_if_set node R X s l t (Q : unit -> T -> Prop) E :
  st R X s l t -> (forall t', st R X s l t' -> Q tt t') -> wp (unref_if_set node) Q E t.
Proof.
  intros Hst HQ. unfold unref_if_set. destruct (node =? NULL); [by apply HQ|]. by eapply (wp_unref_node Hst).
Qed.

Lemma wp_destroy t (Q E : hubbub_error -> T -> Prop) :
  lasting t -> (forall t', tb_entries t' = ∅ -> Q HUBBUB_OK t') -> wp hubbub_treebuilder_destroy Q E t.
Proof.
  intros (R & X & s & l & Hst & a & c & -> & Ha & [type Htype] & Hc) HQ. unfold hubbub_treebuilder_destroy.
  apply wp_bind, wp_gets. generalize (negb (tb_tree_handler t =? NULL)). intros unref.
  assert (H : forall t, st R X (a ++ [c]) l t ->
    wp (let! fuel := walk_fuel in let! first := ctx tc_formatting_list in
        do! free_entries fuel first unref in ret HUBBUB_OK) Q E t).
  { clear t Hst. intros t Hst. eapply wp_bind, (wp_walk_fuel Hst). eapply wp_bind, (wp_list_first Hst).
    pose proof (st_active _ _ _ _ _ Hst) as [Hg _ _ Hh].
    eapply wp_bind, (wp_free_entries unref l _ NULL); [done|done|lia|]. intros t' Ht'. by apply wp_ret, HQ. }
  destruct unref; cbn [when]; [|by apply wp_bind, wp_ret, H].
  apply wp_bind, wp_bind, wp_ctx, wp_bind, (wp_unref_if_set _ _ _ _ _ _ _ _ Hst). clear t Hst. intros t Hst.
  apply wp_bind, wp_ctx, wp_bind, (wp_unref_if_set _ _ _ _ _ _ _ _ Hst). clear t Hst. intros t Hst.
  apply wp_bind, wp_ctx, wp_bind, (wp_unref_if_set _ _ _ _ _ _ _ _ Hst). clear t Hst. intros t Hst.
  eapply wp_bind, (wp_top_index Hst).
  replace (Z.to_nat (zlen (a ++ [c]) - 1)) with (length a) by (unfold zlen; rewrite length_app; cbn; lia).
  eapply wp_bind, (wp_unref_stack R X a c [] l _ _ _ Hst Ha). clear t Hst. intros t Hst. cbn [app] in Hst.
  eapply wp_bind, (wp_stack_type Hst); [apply (at_index_mid a c [])|done|].
  destruct (type_eqb_spec type ET.HTML) as [->|_]; [|by apply wp_ret, H].
  destruct (Hc Htype) as [n Hn].
  eapply wp_bind, (wp_stack_node Hst); [apply (at_index_mid a c [])|done|].
  eapply (wp_unref_node Hst). exact H.
Qed.
End Destroy.

Local Open Scope string_scope.
Local Open Scope Z_scope.

(** The tokens of the tokeniser while the text of an element is collected. *)
Definition of_text (token : hubbub_token) : bool :=
  match token with TokenCharacter _ | TokenEndTag _ | TokenEOF => true | _ => false end.

Section Session.
Context {W : Type} `{!TreeHandler W} `{!TreeHandlerLaws W}.
Local Abbreviation T := (hubbub_treebuilder W).
Local Abbreviation M := (comp (hubbub_treebuilder W)).
Context (malloc : nat -> gmap Z formatting_list_entry -> option Z) (Hmalloc : malloc_fresh malloc).
Context (alloc_ok : nat -> Z -> bool) (Hlimit : alloc_limit alloc_ok).
Context (mibenum_from_name : bytes -> Z) (mibenum_to_name : Z -> option bytes).
Context (Hnames : th_encoding_change = None \/ names_known mibenum_from_name).
Local Abbreviation does := (does_or fails).
Local Abbreviation handler := (hubbub_treebuilder_token_handler malloc alloc_ok mibenum_from_name mibenum_to_name).

(** ** The text of elements *)

Section Generic.
Context (R : rest_view) (Hm : rv_mode R = GENERIC_RCDATA) (Hc : roomy (rv_collect_mode R) = true).
Context (x : element_type).
Local Abbreviation c := (rv_collect_mode R).
Local Abbreviation B := (place R (rv_collect_mode R) [x]).

Lemma generic_good t : B t -> good t.
Proof. intros Ht. exists R. split; [by eapply place_rest|]. rewrite bool_decide_true by done. split; [done|by exists x]. Qed.

Lemma generic_growing : growing B.
Proof. by apply place_growing. Qed.

Lemma generic_fails e t : B t -> e <> HUBBUB_OK -> client_error e -> fails e t.
Proof. intros Ht N He. by eapply soft_fails; [apply generic_growing|split|]. Qed.

(** Going back to the mode before. *)
Lemma generic_pop E :
  does_or E B (let! _ := pop_unref in let! mode := ctx tc_collect_mode in set_mode mode)
    (fun _ => place (rv_set_mode c R) c []).
Proof.
  eapply does_bind; [by apply place_pop|]. intros y t Ht. apply wp_bind, wp_ctx.
  replace (tc_collect_mode (tb_context t)) with c by (apply place_rest in Ht; by rewrite <-Ht).
  by apply place_set_mode.
Qed.

Lemma popped_good t : place (rv_set_mode c R) c [] t -> good t.
Proof. intros Ht. apply (place_good (rv_set_mode c R) c); [done|done|by intros E; rewrite E in Hc]. Qed.

Definition generic_done (p : hubbub_error * bool) (t : T) : Prop :=
  if p.2 then (p.1 = HUBBUB_REPROCESS -> rv_token R = TokenEOF) /\ B t
  else outcome 30 p.1 t /\ p.1 <> HUBBUB_REPROCESS.

Lemma generic_end p t : tame (rv_token R) -> generic_done p t ->
  wp (let '(err, done) := p in
      do! when done (let! _ := pop_unref in let! mode := ctx tc_collect_mode in set_mode mode) in
      ret err) (outcome 30) fails t.
Proof.
  intros Htame Hp. destruct p as [e d]. unfold generic_done in Hp. cbn [fst snd] in Hp.
  destruct d; [|apply wp_bind, wp_ret, wp_ret, Hp].
  destruct Hp as [He Ht]. apply wp_bind. eapply wp_mono; [by apply (generic_pop fails)| |done].
  intros [] t' Ht'. apply wp_ret. pose proof (popped_good t' Ht') as Hg.
  destruct (decide (e = HUBBUB_REPROCESS)) as [->|N1].
  - assert (Hne : c <> GENERIC_RCDATA) by (intros E; by rewrite E in Hc).
    apply (again_place (rv_set_mode c R) c); [done|done|done|done|].
    assert (Hr : forall token, (rank token c < 30)%nat); [|apply Hr].
    intros token. clear -Hc. destruct c; try done; cbn; try lia; destruct (starts _ token) || destruct (ends _ token); lia.
  - destruct (decide (e = HUBBUB_OK)) as [->|N2]; [done|]. destruct (decide (e = HUBBUB_PAUSED)) as [->|N3]; [done|].
    apply outcome_fails. eapply soft_fails; [by apply (place_growing (rv_set_mode c R) c [])|split; [by split|exact Ht']|done].
Qed.

Lemma does_generic_rcdata : tame (rv_token R) -> of_text (rv_token R) = true ->
  does B (handle_generic_rcdata (rv_token R)) (outcome 30).
Proof.
  intros Htame Htext. unfold handle_generic_rcdata. apply does_ctx. intros strip.
  apply (does_then _ _ B).
  { destruct (rv_token R); try (by apply does_ret);
      (apply does_when; intros _; apply does_neutral; [apply generic_growing|apply neutral_strip]). }
  eapply (does_bind _ _ _ _ generic_done); [|intros [e d] t Hp; by apply (generic_end (e, d))].
  destruct (rv_token R) as [dt|tag|tag|data|data|] eqn:Etok; try done.
  - apply does_ctx. intros scripting. apply (does_bind _ _ _ _ (fun e t => e <> HUBBUB_REPROCESS /\ B t)).
    + destruct (_ && _); [|by apply does_ret]. intros t Ht. apply wp_call.
      apply wp_bind, (looks_top B generic_growing t Ht). intros n.
      destruct (generic_growing t Ht) as (R' & X & s & l & [Hst Hi] & Hg).
      unfold wp, handler_error. destruct (th_complete_script n (tb_world t)) as [e w'] eqn:Ef.
      apply th_complete_script_law in Ef as [He Hmono]. split; [done|].
      apply (Hg X s); [done|apply alike_refl|]. split; [|done]. by apply (known_mono Hst).
    + intros e. apply does_and. intros N. apply does_ret. intros t Ht. split; [done|exact Ht].
  - eapply (does_bind _ _ _ _ (fun _ => B)).
    { destruct strip; [|by apply does_ret]. intros t Ht. destruct data as [|y data]; [done|].
      eapply wp_bind, wp_of_option; [done|]. revert t Ht.
      eapply does_then; [apply does_neutral; [apply generic_growing|apply neutral_strip]|by apply does_ret]. }
    intros chars. destruct (zlen chars =? 0).
    { apply does_ret. intros t Ht. split; [by apply generic_good|done]. }
    intros t Ht. apply wp_bind, wp_call.
    assert (Hk : forall e t, soft B e t -> wp (ret (e, false)) generic_done fails t).
    { intros e t' [He Ht']. apply wp_ret. split; [|apply He]. cbn [fst].
      destruct (decide (e = HUBBUB_OK)) as [->|N]; [by apply generic_good|]. by apply outcome_fails, generic_fails. }
    eapply wp_mono; [by apply (softly_text B chars generic_growing)|exact Hk|]. intros e t' [_ He]. by apply Hk.
Qed.
End Generic.

(** ** A token *)

(** What the tree builder may be given: while text is collected, the tokeniser
    has no other tokens. *)
Definition takes (t : T) (token : hubbub_token) : Prop :=
  tame token /\ (tc_mode (tb_context t) = GENERIC_RCDATA -> of_text token = true).

Lemma good_modes t : good t -> (exists R, rest t = R /\
  ((rv_mode R = GENERIC_RCDATA /\ roomy (rv_collect_mode R) = true /\ exists x, place R (rv_collect_mode R) [x] t) \/
   (rv_mode R <> GENERIC_RCDATA /\ place R (rv_mode R) [] t))).
Proof.
  intros (R & HR & Ht). exists R. split; [done|].
  destruct (bool_decide_reflect (rv_mode R = GENERIC_RCDATA)) as [E|N]; [left; split; [exact E|exact Ht]|right; by split].
Qed.

Lemma wp_dispatch h t : good t -> takes t (tb_token t) ->
  wp (dispatch malloc alloc_ok mibenum_from_name mibenum_to_name h (tc_mode (tb_context t)) (tb_token t))
    (outcome (rank (tb_token t) (tc_mode (tb_context t)))) fails t.
Proof.
  intros Hg [Htame Htext]. destruct (good_modes t Hg) as (R & HR & H).
  assert (Em : tc_mode (tb_context t) = rv_mode R) by (by rewrite <-HR).
  assert (Et : tb_token t = rv_token R) by (by rewrite <-HR).
  rewrite Em, Et in *. destruct H as [(Hm & Hc & x & Ht)|(N & Ht)].
  { rewrite Hm. by apply (does_generic_rcdata R Hm Hc x); auto. }
  destruct (rv_mode R) eqn:Hm; cbn [dispatch].
  - by apply (does_initial R).
  - by apply (does_before_html R).
  - by apply does_before_head.
  - apply (does_in_head alloc_ok Hlimit); try done.
    intros tag Hy. apply softly_html_in_body; [by apply place_growing|done].
  - by apply does_in_head_noscript.
  - by apply does_after_head.
  - apply place_bodyish in Ht; [|done]. destruct Ht as (u & Hb & Ht).
    eapply wp_mono; [apply (does_in_body malloc Hmalloc alloc_ok Hlimit mibenum_from_name mibenum_to_name Hnames IN_BODY R Hm u Hb); [|exact Ht]| |done].
    { split; [done|]. destruct (rv_token R); auto. }
    intros e t' [He|(-> & _ & Hend & Ht')]; [by apply result_outcome|].
    apply (again_place (rv_set_mode AFTER_BODY R) AFTER_BODY); try done. cbn [rank rv_token rv_set_mode]. rewrite Hend. lia.
  - apply place_bodyish in Ht; [|done]. apply (does_in_table malloc Hmalloc alloc_ok Hlimit); try done; by left.
  - by destruct Ht as (ts & _ & []).
  - by apply does_in_column_group.
  - apply place_bodyish in Ht; [|done]. by apply does_in_table_body.
  - apply place_bodyish in Ht; [|done]. by apply does_in_row.
  - apply place_bodyish in Ht; [|done]. by apply does_in_cell.
  - apply (place_selecting R IN_SELECT) in Ht; [|by left]. apply (does_in_select malloc alloc_ok Hlimit _ _ Hnames R IN_SELECT); auto.
  - apply (place_selecting R IN_SELECT_IN_TABLE) in Ht; [|by right].
    apply (does_in_select_in_table malloc alloc_ok Hlimit _ _ Hnames R IN_SELECT_IN_TABLE); auto.
  - by destruct Ht as (ts & _ & []).
  - by apply does_after_body.
  - by apply (does_in_frameset malloc alloc_ok Hlimit _ _ Hnames R IN_FRAMESET).
  - by apply (does_after_frameset malloc alloc_ok Hlimit _ _ Hnames R AFTER_FRAMESET).
  - by apply does_after_after_body.
  - by apply (does_after_after_frameset malloc alloc_ok Hlimit _ _ Hnames R AFTER_AFTER_FRAMESET).
  - done.
Qed.

(** What a token leaves. *)
Definition finished (e : hubbub_error) (t : T) : Prop :=
  match e with
  | HUBBUB_OK | HUBBUB_PAUSED => good t
  | _ => fails e t
  end.

Lemma outcome_finished n e t : outcome n e t -> e <> HUBBUB_REPROCESS -> finished e t.
Proof. by destruct e. Qed.

Lemma wp_token_loop fuel : forall t, good t -> takes t (tb_token t) ->
  (rank (tb_token t) (tc_mode (tb_context t)) < fuel)%nat ->
  wp (token_loop malloc alloc_ok mibenum_from_name mibenum_to_name fuel) finished finished t.
Proof.
  induction fuel as [|fuel IH]; intros t Hg Htk Hr; [lia|]. cbn [token_loop].
  apply wp_bind, wp_ctx, wp_bind, wp_gets, wp_bind, wp_call.
  set (n := rank _ _) in Hr.
  assert (Hk : forall e t', outcome n e t' ->
    wp (if is_reprocess e then token_loop malloc alloc_ok mibenum_from_name mibenum_to_name fuel else ret e)
      finished finished t').
  { intros e t' He. unfold is_reprocess. destruct (bool_decide_reflect (e = HUBBUB_REPROCESS)) as [->|N].
    - destruct He as (Hg' & Htame' & Hr'). apply IH; [done| |lia]. split; [done|]. intros E. rewrite E in Hr'.
      pose proof (rank_bound (tb_token t) (tc_mode (tb_context t))). cbn in Hr'. lia.
    - apply wp_ret. by eapply outcome_finished. }
  eapply wp_mono; [by apply wp_dispatch|exact Hk|]. intros e t' He. by apply Hk, outcome_fails.
Qed.

Lemma place_st R m ex t : place R m ex t -> exists X s l, st R X s l t /\ sound s.
Proof.
  assert (Hok : forall X s l, ok R X s l t -> exists X s l, st R X s l t /\ sound s).
  { intros X s l [Hst Hi]. exists X, s, l. split; [done|]. apply cells_sound, Hi. }
  assert (Hts : (exists ts, stands R (ex ++ ts) t /\ shape m ts) -> exists X s l, st R X s l t /\ sound s).
  { intros (ts & (X & s & l & H & _) & _). by eapply Hok. }
  assert (Hstart : ex = [] /\ starting R t -> exists X s l, st R X s l t /\ sound s).
  { intros [_ (X & c & Hst & Hc)]. exists X, [c], []. split; [done|]. exists [], c.
    split_and!; [done|constructor|by rewrite Hc|by rewrite Hc]. }
  destruct m; try exact Hts; try exact Hstart.
  - intros [_ (X & s & H & _)]. by eapply Hok.
  - intros (X & sp & h & r & H & _). by eapply Hok.
  - intros (X & sp & h & r & H & _). by eapply Hok.
  - intros (X & sp & r & H & _). by eapply Hok.
Qed.

Lemma good_st t : good t -> exists R X s l, st R X s l t /\ sound s.
Proof.
  intros (R & HR & Ht)%good_modes. destruct Ht as [(_ & _ & x & Ht)|[_ Ht]]; apply place_st in Ht; eauto.
Qed.

Lemma good_lasting t : good t -> lasting t.
Proof. apply good_st. Qed.

Lemma finished_lasting e t : finished e t -> lasting t.
Proof. intros H. destruct e; try (by apply H); by apply good_lasting. Qed.

(** Taking the next token. *)
Lemma good_set_token t token : good t -> good (set_tb_token token t).
Proof.
  intros Hg. destruct (good_modes t Hg) as (R & HR & H).
  assert (Hpl : forall m ex, place R m ex t -> place (rv_set_token token R) m ex (set_tb_token token t)).
  { intros m ex Ht. by apply (place_set_token fails R m ex token t). }
  exists (rv_set_token token R). split; [by rewrite <-HR|]. cbn [rv_mode rv_collect_mode rv_set_token].
  destruct H as [(E & Hc & x & Ht)|(N & Ht)].
  - rewrite bool_decide_true by done. split; [done|]. exists x. by apply Hpl.
  - rewrite bool_decide_false by done. by apply Hpl.
Qed.

Lemma wp_handler t token : good t -> takes t token -> wp (handler token) finished finished t.
Proof.
  intros Hg [Htame Htext]. apply wp_bind, wp_ctx, wp_bind, wp_gets. destruct (_ || _); [by apply wp_ret|].
  destruct (good_st t Hg) as (R & X & s & l & Hst & _). eapply wp_bind, (wp_top_index Hst).
  pose proof (st_bound Hst). apply wp_bind, wp_assert; [apply Z.ltb_lt; lia|].
  apply wp_bind, wp_modify. set (t' := set_tb_token token t).
  assert (Hg' : good t') by by apply good_set_token.
  apply wp_bind, wp_gets, wp_token_loop; [done|by split|].
  pose proof (rank_bound (tb_token t') (tc_mode (tb_context t'))). unfold token_fuel. lia.
Qed.

(** A new tree builder is good. *)
Lemma created_good w t : hubbub_treebuilder_create alloc_ok w = (HUBBUB_OK, Some t) -> good t.
Proof.
  unfold hubbub_treebuilder_create. destruct (negb (alloc_ok 0 _)); [done|]. destruct (negb (alloc_ok 1 _)); [done|].
  intros [= <-]. set (t := Build_hubbub_treebuilder _ _ _ _ _ _ _ _ _ _).
  exists (rest t). split; [done|]. cbn [rest rv_mode]. split; [done|]. exists [], (set_ec_type (Some ET.ADDRESS) blank_element).
  split; [|done]. constructor; [done| |constructor; [split; [apply NoDup_nil_2|apply not_elem_of_nil]|done..]|constructor].
  constructor; [done|done|vm_compute; discriminate|]. by exists (zrep (ELEMENT_STACK_CHUNK - 1) blank_element).
Qed.

(** ** Options and sessions *)

Definition rv_set_option (o : Parser.treebuilder_option) (R : rest_view) : rest_view :=
  match o with
  | Parser.HUBBUB_TREEBUILDER_TREE_HANDLER h =>
      {| rv_mode := rv_mode R; rv_collect_mode := rv_collect_mode R; rv_head_element := rv_head_element R;
         rv_document := rv_document R; rv_tree_handler := h; rv_token := rv_token R |}
  | Parser.HUBBUB_TREEBUILDER_DOCUMENT_NODE n =>
      {| rv_mode := rv_mode R; rv_collect_mode := rv_collect_mode R; rv_head_element := rv_head_element R;
         rv_document := n; rv_tree_handler := rv_tree_handler R; rv_token := rv_token R |}
  | _ => R
  end.

Lemma sets_option o : sets (modify (fun t => (hubbub_treebuilder_setopt o t).2)) (rv_set_option o).
Proof.
  intros R X s l t Q E [<- [] [] Hk] HQ. apply wp_modify, HQ. constructor; [by destruct o| | |by destruct o];
    by destruct o; constructor.
Qed.

Lemma good_option o t : good t -> good (hubbub_treebuilder_setopt o t).2.
Proof.
  intros Hg. destruct (good_modes t Hg) as (R & HR & H).
  assert (Hpl : forall m ex, place R m ex t -> place (rv_set_option o R) m ex (hubbub_treebuilder_setopt o t).2).
  { intros m ex Ht. by apply (place_sets fails _ (rv_set_option o) R m ex (sets_option o)); [destruct o|]. }
  exists (rv_set_option o R). split; [by destruct o; rewrite <-HR|].
  replace (rv_mode (rv_set_option o R)) with (rv_mode R) by (by destruct o).
  replace (rv_collect_mode (rv_set_option o R)) with (rv_collect_mode R) by (by destruct o).
  destruct H as [(E & Hc & x & Ht)|(N & Ht)].
  - rewrite bool_decide_true by done. split; [done|]. exists x. by apply Hpl.
  - rewrite bool_decide_false by done. by apply Hpl.
Qed.

(** The states that a tree builder can be in, from its creation on: options
    may be set at any time, and a token is only followed by others when it has
    been accepted. *)
Inductive session : T -> Prop :=
  | session_created w t : hubbub_treebuilder_create alloc_ok w = (HUBBUB_OK, Some t) -> session t
  | session_option o t : session t -> session (hubbub_treebuilder_setopt o t).2
  | session_token token t e t' : session t -> takes t token -> run_comp (handler token) t = Some (e, t') ->
      e = HUBBUB_OK \/ e = HUBBUB_PAUSED -> session t'.

Lemma session_good_state t : session t -> good t.
Proof.
  induction 1 as [w t Hc|o t _ IH|token t e t' _ IH Htk Hr He].
  - by eapply created_good.
  - by apply good_option.
  - destruct (wp_run (handler token) finished t) as (e2 & t2 & Hr2 & Hf); [by apply wp_handler|].
    rewrite Hr in Hr2. injection Hr2 as <- <-. by destruct He as [-> | ->].
Qed.
End Session.
