(* ===== verification/TreeTokens.v ===== *)
(** * TreeTokens: the tree builder as the token handler of a tokeniser.

    [tree_token_handler] gives a token to the tree builder and hands on what it
    asks of the tokeniser.  [calm m] says that [m] asks for nothing but the
    content models that a start tag may lead to (TokeniserWp.v) and answers
    neither of the two error codes a token handler must not answer
    ([benign]); it is closed under the constructs the tree builder is written
    with, so the handler is quiet whatever the state and the token. *)
From Stdlib Require Ascii String.
From S2P Require Import Prelude Errors Detect Tokens TokeniserState TokeniserMonad TokeniserWp.
From S2P Require Import ElementType TreeState TreeStack TreeAdoption TreeForeign TreeBody.
From S2P Require Import TreeModes TreeBuilder.
From stdpp Require Import gmap.
Import String.StringSyntax.
Local Open Scope string_scope.
Local Open Scope Z_scope.

Create HintDb calm.

(** ** Names of elements whose text is not markup *)

Definition raw_types : list element_type :=
  [ET.TITLE; ET.NOFRAMES; ET.STYLE; ET.NOSCRIPT; ET.SCRIPT; ET.TEXTAREA; ET.XMP; ET.IFRAME;
   ET.NOEMBED].

Lemma lower_ascii c : ascii (lower c) = ascii c.
Proof. unfold ascii, lower. repeat case_match; zbool; lia. Qed.

Lemma same_word_short name word :
  same_word name word = true -> short_name word = true -> short_name name = true.
Proof.
  unfold same_word, bytes_eqb. intros E%bool_decide_eq_true_1.
  assert (Hl : zlen name = zlen word).
  { unfold zlen. by rewrite <-(length_map lower name), E, length_map. }
  unfold short_name. rewrite Hl. intros [H Ha]%andb_true_iff. rewrite H. cbn [andb].
  rewrite forallb_forall in Ha |- *. intros c Hc.
  apply (in_map lower) in Hc. rewrite E in Hc. apply in_map_iff in Hc as (d & Hd & Hin).
  rewrite <-lower_ascii, <-Hd, lower_ascii. by apply Ha.
Qed.

Lemma raw_type_eqb type x :
  type_eqb type x = true -> one_of x raw_types = true -> one_of type raw_types = true.
Proof. by destruct (type_eqb_spec type x) as [->|]. Qed.

Lemma raw_one_of type l :
  one_of type l = true -> forallb (fun x => one_of x raw_types) l = true ->
  one_of type raw_types = true.
Proof.
  intros Ht Hl. rewrite forallb_forall in Hl. apply Hl. by apply one_of_In.
Qed.

Lemma raw_type_short name :
  one_of (element_type_from_name name) raw_types = true -> short_name name = true.
Proof.
  unfold element_type_from_name. destruct (find _ _) as [[word type]|] eqn:E; [|done].
  apply find_some in E as [Hin Hw]. intros Hr. eapply same_word_short; [exact Hw|].
  assert (Hall : forallb (fun '(word, type) => negb (one_of type raw_types) || short_name word)
                   wordlist = true) by (vm_compute; reflexivity).
  rewrite forallb_forall in Hall. specialize (Hall _ Hin). cbn beta iota in Hall. by rewrite Hr in Hall.
Qed.

(** ** Calm computations *)

(** What a token handler may answer: neither error makes sense of a token. *)
Definition benign (e : hubbub_error) : Prop := e <> HUBBUB_BADENCODING /\ e <> HUBBUB_NEEDDATA.

(** What the tree builder relies on in its client for that. *)
Record client_benign (W : Type) `{!TreeHandler W} : Prop := {
  cb_create_comment data (w : W) : benign (th_create_comment data w).1.1;
  cb_create_doctype d (w : W) : benign (th_create_doctype d w).1.1;
  cb_create_element g (w : W) : benign (th_create_element g w).1.1;
  cb_create_text data (w : W) : benign (th_create_text data w).1.1;
  cb_append_child p n (w : W) : benign (th_append_child p n w).1.1;
  cb_insert_before p n r (w : W) : benign (th_insert_before p n r w).1.1;
  cb_remove_child p n (w : W) : benign (th_remove_child p n w).1.1;
  cb_clone_node n deep (w : W) : benign (th_clone_node n deep w).1.1;
  cb_get_parent n element_only (w : W) : benign (th_get_parent n element_only w).1.1;
  cb_reparent_children n p (w : W) : benign (th_reparent_children n p w).1;
  cb_form_associate f n (w : W) : benign (th_form_associate f n w).1;
  cb_add_attributes n l (w : W) : benign (th_add_attributes n l w).1;
  cb_complete_script n (w : W) : benign (th_complete_script n w).1;
  cb_encoding_change f name (w : W) : th_encoding_change = Some f -> benign (f name w).1
}.
Arguments client_benign W {_}.

Section Calm.
Context {W : Type} `{!TreeHandler W}.
Context (malloc : nat -> gmap Z formatting_list_entry -> option Z).
Context (alloc_ok : nat -> Z -> bool).
Context (mibenum_from_name : bytes -> Z) (mibenum_to_name : Z -> option bytes).
Local Abbreviation T := (hubbub_treebuilder W).
Local Abbreviation M := (comp (hubbub_treebuilder W)).
Hypothesis client : client_benign W.

(** The token that is handled.  A start tag the handlers pass on is that token. *)
Context (tok : hubbub_token).
Definition own (token : hubbub_token) : Prop := forall g, token = TokenStartTag g -> tok = token.

Definition quiet_state (t : T) : Prop :=
  forallb (@quiet_command every_model tok) (tb_commands t) = true /\ own (tb_token t).

(** The values a computation may yield. *)
Class Mild (A : Type) := mild : A -> Prop.
#[local] Instance mild_error : Mild hubbub_error := benign.
#[local] Instance mild_pair {A} : Mild (hubbub_error * A) := fun r => benign r.1.
#[local] Instance mild_token : Mild hubbub_token := own.
#[local] Instance mild_any A : Mild A | 100 := fun _ => True.

Definition calm {A} `{Mild A} (m : M A) : Prop := forall t, quiet_state t ->
  match m t with
  | Ok a t' => quiet_state t' /\ mild a
  | Early e t' => quiet_state t' /\ benign e
  | Stuck => True
  end.

Lemma calm_ret {A} `{Mild A} (a : A) : mild a -> calm (ret a).
Proof. done. Qed.

Lemma calm_bind {A C} `{Mild A} `{Mild C} (m : M A) (k : A -> M C) :
  calm m -> (forall a, mild a -> calm (k a)) -> calm (bind m k).
Proof.
  intros Hm Hk t Ht. specialize (Hm t Ht). unfold bind. destruct (m t); [|done|done].
  destruct Hm as [Ht' Ha]. by apply Hk.
Qed.

Lemma calm_return_early {A} `{Mild A} e : benign e -> calm (@return_early _ A e).
Proof. intros He t Ht. done. Qed.

Lemma calm_stuck {A} `{Mild A} : calm (@stuck _ A).
Proof. done. Qed.

Lemma calm_gets {A} (f : T -> A) : @calm A (mild_any A) (gets f).
Proof. done. Qed.

Lemma calm_token : calm (gets tb_token).
Proof. intros t [? ?]. by repeat split. Qed.

Lemma calm_modify (f : T -> T) :
  (forall t, tb_commands (f t) = tb_commands t /\ tb_token (f t) = tb_token t) -> calm (modify f).
Proof.
  intros Hf t Ht. destruct (Hf t) as [E1 E2]. split; [|done]. unfold quiet_state. by rewrite E1, E2.
Qed.

Lemma calm_set_token token : own token -> calm (modify (set_tb_token token)).
Proof. intros Hn t [Hc _]. by repeat split. Qed.

Lemma calm_assert b : calm (assert b).
Proof. unfold assert. destruct b; done. Qed.

Lemma calm_of_option {A} (o : option A) : @calm A (mild_any A) (of_option o).
Proof. destruct o; done. Qed.

Lemma calm_call (m : M hubbub_error) : calm m -> calm (call m).
Proof. intros Hm t Ht. specialize (Hm t Ht). unfold call. by destruct (m t). Qed.

Lemma calm_check e : benign e -> calm (check e).
Proof. intros He. unfold check. destruct e; done. Qed.

Lemma calm_entry_alloc e : calm (entry_alloc malloc e).
Proof. intros t [Hc Hn]. unfold entry_alloc. cbv zeta. destruct (malloc _ _); by repeat split. Qed.

Lemma calm_alloc size : @calm _ (mild_any _) (alloc alloc_ok size).
Proof. intros t [Hc Hn]. by repeat split. Qed.

Lemma calm_handler_node f : (forall w, benign (f w).1.1) -> calm (handler_node f).
Proof.
  intros Hf t [Hc Hn]. unfold handler_node. specialize (Hf (tb_world t)).
  destruct (f (tb_world t)) as [[err n] w]. split; [by split|exact Hf].
Qed.

Lemma calm_handler_error f : (forall w, benign (f w).1) -> calm (handler_error f).
Proof.
  intros Hf t [Hc Hn]. unfold handler_error. specialize (Hf (tb_world t)).
  destruct (f (tb_world t)) as [err w]. split; [by split|exact Hf].
Qed.

(** The content model of the element that a start tag opens. *)
Lemma calm_set_content_model tag model :
  own (TokenStartTag tag) ->
  negb (raw_model model) || one_of (type_of_tag tag) raw_types = true ->
  calm (set_content_model model).
Proof.
  intros Hn Hr t [Hc Ht]. split; [|done]. split; [|exact Ht].
  cbn [set_content_model modify set_tb_commands tb_commands].
  rewrite forallb_app, Hc. cbn [forallb andb quiet_command]. rewrite andb_true_r.
  unfold calm_model, pcdata_only, every_model. cbn [negb andb]. rewrite (Hn tag eq_refl).
  destruct model; try done; cbn [negb raw_model orb] in *; by apply raw_type_short.
Qed.

(** ** Following the code *)

Ltac benign_leaf :=
  first [ exact I | assumption | (split; discriminate)
        | (repeat case_match; first [assumption | split; discriminate]) ].

Ltac own_leaf := first [assumption | (intros ? [=]; fail) | (intros ? [=]; congruence) | done ].

Ltac client_leaf :=
  intros ?; first [ apply (cb_create_comment _ client) | apply (cb_create_doctype _ client)
                  | apply (cb_create_element _ client) | apply (cb_create_text _ client)
                  | apply (cb_append_child _ client) | apply (cb_insert_before _ client)
                  | apply (cb_remove_child _ client) | apply (cb_clone_node _ client)
                  | apply (cb_get_parent _ client) | apply (cb_reparent_children _ client)
                  | apply (cb_form_associate _ client) | apply (cb_add_attributes _ client)
                  | apply (cb_complete_script _ client) | by eapply (cb_encoding_change _ client) ].

Ltac calm_step :=
  match goal with
  | |- calm (bind (gets tb_token) _) => apply (calm_bind _ _ calm_token); intros ? ?
  | |- calm (bind _ _) => apply calm_bind; [|intros ? ?]
  | |- calm (ret _) => apply calm_ret; try benign_leaf
  | |- calm (return_early _) => apply calm_return_early; try benign_leaf
  | |- calm stuck => apply calm_stuck
  | |- calm (gets _) => apply calm_gets
  | |- calm (modify (set_tb_token _)) => apply calm_set_token; try own_leaf
  | |- calm (modify _) => apply calm_modify; intros; by split
  | |- calm (assert _) => apply calm_assert
  | |- calm (of_option _) => apply calm_of_option
  | |- calm (call _) => apply calm_call
  | |- calm (check _) => apply calm_check; try benign_leaf
  | |- calm (entry_alloc _ _) => apply calm_entry_alloc
  | |- calm (alloc _ _) => apply calm_alloc
  | |- calm (handler_node _) => apply calm_handler_node; client_leaf
  | |- calm (handler_error _) => apply calm_handler_error; client_leaf
  | |- calm _ => solve [eauto with calm nocore]
  | |- calm (match ?x with _ => _ end) => destruct x eqn:?
  | |- calm (if ?x then _ else _) => destruct x eqn:?
  | |- calm (let '(_, _) := ?x in _) => destruct x eqn:?
  | |- calm ?m => let rec head x := lazymatch x with ?f _ => head f | _ => x end in
                  let h := head m in progress unfold h
  end.
Ltac calm_all := cbv zeta; repeat (intros; calm_step).

(** ** The stack and the list *)

Lemma calm_upd_ctx f : calm (upd_ctx f).
Proof. calm_all. Qed.
Lemma calm_ctx {A} (f : treebuilder_context -> A) : @calm A (mild_any A) (ctx f).
Proof. apply calm_gets. Qed.
Lemma calm_stack_type i : @calm _ (mild_any _) (stack_type i).
Proof. calm_all. Qed.
Lemma calm_stack_node i : @calm _ (mild_any _) (stack_node i).
Proof. calm_all. Qed.
Lemma calm_stack_ns i : @calm _ (mild_any _) (stack_ns i).
Proof. calm_all. Qed.
Lemma calm_upd_cell i f : calm (upd_cell i f).
Proof. calm_all. Qed.
Lemma calm_entry_get p : @calm _ (mild_any _) (entry_get p).
Proof. calm_all. Qed.
Lemma calm_entry_upd p f : calm (entry_upd p f).
Proof. calm_all. Qed.
Hint Resolve calm_upd_ctx calm_ctx calm_stack_type calm_stack_node calm_stack_ns calm_upd_cell
  calm_entry_get calm_entry_upd : calm.

Lemma calm_current_table_loop t : @calm _ (mild_any _) (current_table_loop t).
Proof. induction t as [|t IH]; cbn [current_table_loop]; calm_all. Qed.
Lemma calm_scope_loop node type in_table : @calm _ (mild_any _) (scope_loop node type in_table).
Proof. induction node as [|node IH]; cbn [scope_loop]; calm_all. Qed.
Lemma calm_reindex_loop fuel : forall p slot f, calm (reindex_loop fuel p slot f).
Proof. induction fuel as [|fuel IH]; intros p slot f; cbn [reindex_loop]; calm_all. Qed.
Hint Resolve calm_current_table_loop calm_scope_loop calm_reindex_loop : calm.

Lemma calm_element_stack_pop : @calm _ (mild_any _) element_stack_pop.
Proof. calm_all. Qed.
Hint Resolve calm_element_stack_pop : calm.
Lemma calm_pop_unref : @calm _ (mild_any _) pop_unref.
Proof. calm_all. Qed.
Hint Resolve calm_pop_unref : calm.

Lemma calm_pop_loop fuel stop : calm (pop_loop fuel stop).
Proof. induction fuel as [|fuel IH]; cbn [pop_loop]; calm_all. Qed.
Lemma calm_pop_while_loop fuel go : calm (pop_while_loop fuel go).
Proof. induction fuel as [|fuel IH]; cbn [pop_while_loop]; calm_all. Qed.
Lemma calm_pop_down_loop fuel node : calm (pop_down_loop fuel node).
Proof. induction fuel as [|fuel IH]; cbn [pop_down_loop]; calm_all. Qed.
Lemma calm_reindex_range k : forall n, calm (reindex_range k n).
Proof. induction k as [|k IH]; intros n; cbn [reindex_range]; calm_all. Qed.
Lemma calm_reset_loop node : calm (reset_loop node).
Proof. induction node as [|node IH]; cbn [reset_loop]; calm_all. Qed.
Lemma calm_clear_marker_loop fuel : calm (clear_marker_loop fuel).
Proof. induction fuel as [|fuel IH]; cbn [clear_marker_loop]; calm_all. Qed.
Hint Resolve calm_pop_loop calm_pop_while_loop calm_pop_down_loop calm_reindex_range
  calm_reset_loop calm_clear_marker_loop : calm.

Lemma calm_element_stack_remove index : @calm _ (mild_any _) (element_stack_remove index).
Proof. calm_all. Qed.
Lemma calm_formatting_list_append ns type node i : calm (formatting_list_append malloc ns type node i).
Proof. calm_all. Qed.
Lemma calm_formatting_list_insert prev next ns type node i :
  calm (formatting_list_insert malloc prev next ns type node i).
Proof. calm_all. Qed.
Lemma calm_remove_unref entry : calm (remove_unref entry).
Proof. calm_all. Qed.
Lemma calm_remove_node_from_dom node : calm (remove_node_from_dom node).
Proof. calm_all. Qed.
Hint Resolve calm_element_stack_remove calm_formatting_list_append calm_formatting_list_insert
  calm_remove_unref calm_remove_node_from_dom : calm.
Lemma calm_insert_into_foster_parent node : calm (aa_insert_into_foster_parent node).
Proof. calm_all. Qed.
Hint Resolve calm_insert_into_foster_parent : calm.
Lemma calm_append_or_foster type parent node :
  @calm _ (mild_any _) parent -> calm (append_or_foster type parent node).
Proof. calm_all. Qed.
Lemma calm_top_node : @calm _ (mild_any _) top_node.
Proof. calm_all. Qed.
Hint Resolve calm_append_or_foster calm_top_node : calm.
Lemma calm_append_text string : calm (append_text string).
Proof. calm_all. Qed.
Lemma calm_comment_append data parent :
  @calm _ (mild_any _) parent -> calm (process_comment_append data parent).
Proof. calm_all. Qed.
Lemma calm_insert_element tag push : calm (insert_element alloc_ok tag push).
Proof. calm_all. Qed.
Hint Resolve calm_append_text calm_comment_append calm_insert_element : calm.

Lemma calm_unopened_loop fuel : forall entry, @calm _ (mild_any _) (unopened_loop fuel entry).
Proof. induction fuel as [|fuel IH]; intros entry; cbn [unopened_loop]; calm_all. Qed.
Lemma calm_reopen_loop fuel : forall entry, calm (reopen_loop alloc_ok fuel entry).
Proof. induction fuel as [|fuel IH]; intros entry; cbn [reopen_loop]; calm_all. Qed.
Lemma calm_replace_loop fuel : forall entry sp, calm (replace_loop fuel entry sp).
Proof. induction fuel as [|fuel IH]; intros entry sp; cbn [replace_loop]; calm_all. Qed.
Lemma calm_cleanup_loop fuel : forall sp, calm (cleanup_loop fuel sp).
Proof. induction fuel as [|fuel IH]; intros sp; cbn [cleanup_loop]; calm_all. Qed.
Hint Resolve calm_unopened_loop calm_reopen_loop calm_replace_loop calm_cleanup_loop : calm.
Lemma calm_reconstruct : calm (reconstruct_active_formatting_list alloc_ok).
Proof. calm_all. Qed.
Hint Resolve calm_reconstruct : calm.

Lemma calm_expect_whitespace data b : calm (process_characters_expect_whitespace data b).
Proof. calm_all. Qed.
Hint Resolve calm_expect_whitespace : calm.

Lemma calm_parse_generic_rcdata tag rcdata :
  own (TokenStartTag tag) -> one_of (type_of_tag tag) raw_types = true ->
  calm (parse_generic_rcdata alloc_ok tag rcdata).
Proof.
  intros Hn Hr. unfold parse_generic_rcdata. calm_all. apply (calm_set_content_model tag); [done|].
  by rewrite Hr, orb_true_r.
Qed.

(** ** The adoption agency *)

Lemma calm_find_formatting_loop fuel : forall entry type,
  @calm _ (mild_any _) (find_formatting_loop fuel entry type).
Proof. induction fuel as [|fuel IH]; intros entry type; cbn [find_formatting_loop]; calm_all. Qed.
Lemma calm_furthest_block_loop k : forall fb, @calm _ (mild_any _) (furthest_block_loop k fb).
Proof. induction k as [|k IH]; intros fb; cbn [furthest_block_loop]; calm_all. Qed.
Lemma calm_find_index_loop fuel : forall p index, @calm _ (mild_any _) (find_index_loop fuel p index).
Proof. induction fuel as [|fuel IH]; intros p index; cbn [find_index_loop]; calm_all. Qed.
Hint Resolve calm_find_formatting_loop calm_furthest_block_loop calm_find_index_loop : calm.
Lemma calm_clone_and_replace element : calm (aa_clone_and_replace_entries element).
Proof. calm_all. Qed.
Hint Resolve calm_clone_and_replace : calm.
Lemma calm_misnested_loop fuel : forall formatting_element node last fb bookmark,
  @calm _ (mild_any _) (misnested_loop fuel formatting_element node last fb bookmark).
Proof.
  induction fuel as [|fuel IH]; intros formatting_element node last fb bookmark;
    cbn [misnested_loop]; calm_all.
Qed.
Hint Resolve calm_misnested_loop : calm.
Lemma calm_adoption_round type : @calm _ (mild_any _) (adoption_round malloc type).
Proof. calm_all. Qed.
Hint Resolve calm_adoption_round : calm.
Lemma calm_adoption_loop fuel type : calm (adoption_loop malloc fuel type).
Proof. induction fuel as [|fuel IH]; cbn [adoption_loop]; calm_all. Qed.
Hint Resolve calm_adoption_loop : calm.

(** ** The body and the head *)

Hint Extern 0 (benign _) => benign_leaf : calm.
Hint Extern 0 (own _) => own_leaf : calm.

(** The type of the tag has been found among those. *)
Ltac raw_leaf :=
  repeat match goal with
         | H : (_ || _) = true |- _ => apply orb_true_iff in H as [H|H]
         | H : (_ && _) = true |- _ => apply andb_true_iff in H as [? H]
         end;
  first [ eapply raw_type_eqb; [eassumption|reflexivity]
        | eapply raw_one_of; [eassumption|reflexivity] ].
Hint Extern 1 (calm (parse_generic_rcdata _ _ _)) =>
  apply calm_parse_generic_rcdata; [assumption|raw_leaf] : calm.

Lemma calm_pop_p_loop fuel : forall popped, @calm _ (mild_any _) (pop_p_loop fuel popped).
Proof. induction fuel as [|fuel IH]; intros popped; cbn [pop_p_loop]; calm_all. Qed.
Hint Resolve calm_pop_p_loop : calm.
Lemma calm_container_with close tag : calm close -> calm (container_with alloc_ok close tag).
Proof. calm_all. Qed.
Hint Resolve calm_container_with : calm.
Lemma calm_close_p fuel : calm (close_p alloc_ok fuel).
Proof. induction fuel as [|fuel IH]; cbn [close_p]; calm_all. Qed.
Hint Resolve calm_close_p : calm.
Lemma calm_process_0p : calm (process_0p_in_body alloc_ok).
Proof. apply calm_close_p. Qed.
Hint Resolve calm_process_0p : calm.
Lemma calm_list_item_loop node type : @calm _ (mild_any _) (list_item_loop node type).
Proof. induction node as [|node IH]; cbn [list_item_loop]; calm_all. Qed.
Lemma calm_any_in_scope types : @calm _ (mild_any _) (any_in_scope types).
Proof. induction types as [|type types IH]; cbn [any_in_scope]; calm_all. Qed.
Lemma calm_generic_pop_loop fuel : forall node type, calm (generic_pop_loop fuel node type).
Proof. induction fuel as [|fuel IH]; intros node type; cbn [generic_pop_loop]; calm_all. Qed.
Hint Resolve calm_list_item_loop calm_any_in_scope calm_generic_pop_loop : calm.
Lemma calm_generic_loop node type : calm (generic_loop node type).
Proof. induction node as [|node IH]; cbn [generic_loop]; calm_all. Qed.
Hint Resolve calm_generic_loop : calm.
Lemma calm_process_0generic type : calm (process_0generic_in_body type).
Proof. calm_all. Qed.
Lemma calm_insert_listed tag type : calm (insert_listed malloc alloc_ok tag type).
Proof. calm_all. Qed.
Hint Resolve calm_process_0generic calm_insert_listed : calm.
Lemma calm_process_a tag : calm (process_a_in_body malloc alloc_ok tag).
Proof. calm_all. Qed.
Lemma calm_process_nobr tag : calm (process_nobr_in_body malloc alloc_ok tag).
Proof. calm_all. Qed.
Lemma calm_process_button tag : calm (process_button_in_body malloc alloc_ok tag).
Proof. calm_all. Qed.
Lemma calm_process_form tag : calm (process_form_in_body alloc_ok tag).
Proof. calm_all. Qed.
Lemma calm_process_hr tag : calm (process_hr_in_body alloc_ok tag).
Proof. calm_all. Qed.
Lemma calm_process_character data : calm (process_character alloc_ok data).
Proof. calm_all. Qed.
Hint Resolve calm_process_a calm_process_nobr calm_process_button calm_process_form
  calm_process_hr calm_process_character : calm.
Lemma calm_process_isindex tag : calm (process_isindex_in_body alloc_ok tag).
Proof. calm_all. Qed.
Lemma calm_process_plaintext tag :
  own (TokenStartTag tag) -> calm (process_plaintext_in_body alloc_ok tag).
Proof. intros Hn. unfold process_plaintext_in_body. calm_all. by apply (calm_set_content_model tag). Qed.
Lemma calm_process_meta tag :
  calm (process_meta_in_head alloc_ok mibenum_from_name mibenum_to_name tag).
Proof. calm_all. Qed.
Hint Resolve calm_process_isindex calm_process_plaintext calm_process_meta : calm.
Lemma calm_handle_in_head in_body token :
  (forall token, own token -> calm (in_body token)) -> own token ->
  calm (handle_in_head alloc_ok mibenum_from_name mibenum_to_name in_body token).
Proof. intros Hb Hn. destruct token; unfold handle_in_head; calm_all. Qed.
Lemma calm_process_end_tag tag : calm (process_end_tag malloc alloc_ok tag).
Proof. unfold process_end_tag. calm_all. Qed.
Lemma calm_process_start_tag in_head tag :
  (forall token, own token -> calm (in_head token)) -> own (TokenStartTag tag) ->
  calm (process_start_tag malloc alloc_ok in_head tag).
Proof. intros Hh Hn. unfold process_start_tag. calm_all. Qed.
Hint Resolve calm_handle_in_head calm_process_end_tag calm_process_start_tag : calm.
Local Abbreviation in_body := (in_body malloc alloc_ok mibenum_from_name mibenum_to_name).
Lemma calm_in_body fuel : forall token, own token -> calm (in_body fuel token).
Proof. induction fuel as [|fuel IH]; intros token Hn; cbn [TreeBody.in_body]; calm_all. Qed.

(** ** The modes *)
Local Abbreviation handle_in_body :=
  (handle_in_body malloc alloc_ok mibenum_from_name mibenum_to_name).
Lemma calm_handle_in_body token : own token -> calm (handle_in_body token).
Proof. apply calm_in_body. Qed.
Hint Resolve calm_handle_in_body : calm.
Lemma calm_in_head token :
  own token -> calm (handle_in_head alloc_ok mibenum_from_name mibenum_to_name handle_in_body token).
Proof. intros Hn. apply calm_handle_in_head; [apply calm_handle_in_body|done]. Qed.
Hint Resolve calm_in_head : calm.

(** The handler of a mode, by the kinds of tokens. *)
Ltac calm_mode := intros Hn; match goal with token : hubbub_token |- _ => destruct token end; calm_all.

Lemma calm_process_input_loop attrs tag : forall err, benign err ->
  calm (process_input_loop alloc_ok attrs tag err).
Proof. induction attrs as [|attr attrs IH]; intros err He; cbn [process_input_loop]; calm_all. Qed.
Lemma calm_any_in_table_scope types : @calm _ (mild_any _) (any_in_table_scope types).
Proof. induction types as [|type types IH]; cbn [any_in_table_scope]; calm_all. Qed.
Lemma calm_close_element type mode : calm (close_element type mode).
Proof. calm_all. Qed.
Lemma calm_insert_group tag own_tag name mode : calm (insert_group alloc_ok tag own_tag name mode).
Proof. calm_all. Qed.
Lemma calm_insert_caption tag : calm (insert_caption malloc alloc_ok tag).
Proof. calm_all. Qed.
Hint Resolve calm_process_input_loop calm_any_in_table_scope calm_close_element calm_insert_group
  calm_insert_caption : calm.
Lemma calm_initial token : own token -> calm (handle_initial token).
Proof. calm_mode. Qed.
Lemma calm_before_html token : own token -> calm (handle_before_html token).
Proof. calm_mode. Qed.
Lemma calm_before_head token :
  own token -> calm (handle_before_head malloc alloc_ok mibenum_from_name mibenum_to_name token).
Proof. calm_mode. Qed.
Lemma calm_in_head_noscript token :
  own token -> calm (handle_in_head_noscript malloc alloc_ok mibenum_from_name mibenum_to_name token).
Proof. calm_mode. Qed.
Lemma calm_after_head token :
  own token -> calm (handle_after_head malloc alloc_ok mibenum_from_name mibenum_to_name token).
Proof. calm_mode. Qed.
Lemma calm_in_table token :
  own token -> calm (handle_in_table malloc alloc_ok mibenum_from_name mibenum_to_name token).
Proof. calm_mode. Qed.
Hint Resolve calm_initial calm_before_html calm_before_head calm_in_head_noscript calm_after_head calm_in_table : calm.
Lemma calm_in_caption token :
  own token -> calm (handle_in_caption malloc alloc_ok mibenum_from_name mibenum_to_name token).
Proof. calm_mode. Qed.
Lemma calm_in_column_group token :
  own token -> calm (handle_in_column_group malloc alloc_ok mibenum_from_name mibenum_to_name token).
Proof. calm_mode. Qed.
Lemma calm_in_table_body token :
  own token -> calm (handle_in_table_body malloc alloc_ok mibenum_from_name mibenum_to_name token).
Proof. calm_mode. Qed.
Lemma calm_in_row token :
  own token -> calm (handle_in_row malloc alloc_ok mibenum_from_name mibenum_to_name token).
Proof. calm_mode. Qed.
Lemma calm_in_cell token :
  own token -> calm (handle_in_cell malloc alloc_ok mibenum_from_name mibenum_to_name token).
Proof. calm_mode. Qed.
Lemma calm_in_select token :
  own token -> calm (handle_in_select malloc alloc_ok mibenum_from_name mibenum_to_name token).
Proof. calm_mode. Qed.
Hint Resolve calm_in_caption calm_in_column_group calm_in_table_body calm_in_row calm_in_cell calm_in_select : calm.
Lemma calm_in_select_in_table token :
  own token -> calm (handle_in_select_in_table malloc alloc_ok mibenum_from_name mibenum_to_name token).
Proof. calm_mode. Qed.
Lemma calm_after_body token :
  own token -> calm (handle_after_body malloc alloc_ok mibenum_from_name mibenum_to_name token).
Proof. calm_mode. Qed.
Lemma calm_in_frameset token :
  own token -> calm (handle_in_frameset malloc alloc_ok mibenum_from_name mibenum_to_name token).
Proof. calm_mode. Qed.
Lemma calm_after_frameset token :
  own token -> calm (handle_after_frameset malloc alloc_ok mibenum_from_name mibenum_to_name token).
Proof. calm_mode. Qed.
Lemma calm_after_after_body token :
  own token -> calm (handle_after_after_body malloc alloc_ok mibenum_from_name mibenum_to_name token).
Proof. calm_mode. Qed.
Lemma calm_after_after_frameset token :
  own token -> calm (handle_after_after_frameset malloc alloc_ok mibenum_from_name mibenum_to_name token).
Proof. calm_mode. Qed.
Lemma calm_generic_rcdata token : own token -> calm (handle_generic_rcdata token).
Proof. calm_mode. Qed.
Hint Resolve calm_in_select_in_table calm_after_body calm_in_frameset calm_after_frameset calm_after_after_body calm_after_after_frameset calm_generic_rcdata : calm.
(** ** Foreign content, and tokens that are handled again *)

Lemma calm_non_html_loop node : @calm _ (mild_any _) (non_html_loop node).
Proof. induction node as [|node IH]; cbn [non_html_loop]; calm_all. Qed.
Lemma calm_break_out_loop fuel : calm (break_out_loop fuel).
Proof. induction fuel as [|fuel IH]; cbn [break_out_loop]; calm_all. Qed.
Hint Resolve calm_non_html_loop calm_break_out_loop : calm.

Section Handler.
Context (handler : hubbub_token -> M hubbub_error).
Hypothesis handler_calm : forall token, own token -> calm (handler token).

Lemma calm_in_secondary token : own token -> calm (process_as_in_secondary handler token).
Proof. intros Hn. calm_all. Qed.
Hint Resolve calm_in_secondary : calm.
Lemma calm_in_foreign_content token : own token -> calm (handle_in_foreign_content alloc_ok handler token).
Proof. calm_mode. Qed.
Hint Resolve calm_in_foreign_content : calm.
Lemma calm_dispatch mode token :
  own token -> calm (dispatch malloc alloc_ok mibenum_from_name mibenum_to_name handler mode token).
Proof. intros Hn. unfold dispatch. destruct mode; cbv zeta; eauto with calm nocore. Qed.
End Handler.
Hint Resolve calm_dispatch : calm.

Lemma calm_with_document m : calm m -> calm (with_document m).
Proof. calm_all. Qed.
Hint Resolve calm_with_document : calm.
Local Abbreviation token_loop := (token_loop malloc alloc_ok mibenum_from_name mibenum_to_name).
Lemma calm_token_loop fuel : calm (token_loop fuel).
Proof.
  induction fuel as [|fuel IH]; cbn [TreeBuilder.token_loop]; [apply calm_stuck|].
  calm_all.
Qed.
Hint Resolve calm_token_loop : calm.
End Calm.

Section Handler.
Context {W : Type} `{!TreeHandler W}.
Context (malloc : nat -> gmap Z formatting_list_entry -> option Z).
Context (alloc_ok : nat -> Z -> bool).
Context (mibenum_from_name : bytes -> Z) (mibenum_to_name : Z -> option bytes).
Local Abbreviation T := (hubbub_treebuilder W).

(** The token handler that hubbub_treebuilder_create installs, with what it asks
    of the tokeniser.  That the tree builder is not stuck is a theorem about
    its sessions (TreeSession.v); here it would answer HUBBUB_UNKNOWN. *)
Definition tree_token_handler : token_handler_fn T := fun t token =>
  match run_comp (hubbub_treebuilder_token_handler malloc alloc_ok mibenum_from_name
                    mibenum_to_name token) (set_tb_commands [] t) with
  | Some (err, t) => (err, tb_commands t, t)
  | None => (HUBBUB_UNKNOWN, [], t)
  end.

Lemma token_handler_eq token t :
  hubbub_treebuilder_token_handler malloc alloc_ok mibenum_from_name mibenum_to_name token t =
  if (tc_document (tb_context t) =? NULL) || (tb_tree_handler t =? NULL) then Ok HUBBUB_OK t
  else if tc_current_node (tb_context t) <? 2 ^ 31
  then token_loop malloc alloc_ok mibenum_from_name mibenum_to_name
         (token_fuel (tc_current_node (tb_context t))) (set_tb_token token t)
  else Stuck.
Proof.
  unfold hubbub_treebuilder_token_handler, with_document, bind, ctx, gets. destruct (_ || _); [done|].
  unfold top_index, ctx, gets, assert. by destruct (_ <? 2 ^ 31).
Qed.

(** Whatever the state of the tree builder and the token: it changes the
    content model at start tags only, to RCDATA and CDATA for names of at most
    nine ASCII characters, and it answers neither HUBBUB_BADENCODING nor
    HUBBUB_NEEDDATA unless its client does. *)
Lemma tree_token_handler_calm t token :
  client_benign W ->
  forallb (@quiet_command every_model token) (tree_token_handler t token).1.2 = true /\
  benign (tree_token_handler t token).1.1.
Proof.
  intros Hc. unfold tree_token_handler, run_comp. rewrite token_handler_eq.
  set (t0 := set_tb_commands [] t). destruct (_ || _); [by repeat split|].
  destruct (_ <? 2 ^ 31); [|by repeat split].
  pose proof (calm_token_loop malloc alloc_ok mibenum_from_name mibenum_to_name Hc token
    (token_fuel (tc_current_node (tb_context t0))) (set_tb_token token t0)) as Hm.
  destruct (token_loop _ _ _ _ _ _) as [e t1|e t1|]; [| |by repeat split].
  1,2: destruct Hm as [[Hq _] He]; [by split; [|intros g]|by split].
Qed.

Lemma tree_builder_quiet :
  client_benign W -> @quiet_handler every_model _ (Some tree_token_handler).
Proof. intros Hc t token. by apply tree_token_handler_calm. Qed.
End Handler.
