(* ===== verification/TreeConcrete.v ===== *)
(** * TreeConcrete: a small document tree as the client of a tree builder, and
    documents that are built with it. *)
From Stdlib Require Ascii String.
From S2P Require Import Prelude.
From S2P Require Import Errors.
From S2P Require Import Detect.
From S2P Require Import Tokens.
From S2P Require Import TokeniserState.
From S2P Require Import TokeniserMonad.
From S2P Require Import ElementType.
From S2P Require Import TreeState.
From S2P Require Import TreeStack.
From S2P Require Import TreeBody.
From S2P Require Import TreeBuilder.
From S2P Require Import TreeRepr.
From S2P Require Import TreeRules.
From S2P Require Import TreeInv.
From S2P Require Import TreeSteps.
From S2P Require Import TreeTokens.
From stdpp Require Import gmap.
Import String.StringSyntax.
Local Open Scope string_scope.
Local Open Scope Z_scope.

(** ** The client *)

Inductive node_kind :=
  | Document
  | Comment (data : bytes)
  | Doctype (name : bytes)
  | Element (name : bytes) (attributes : list hubbub_attribute)
  | Text (data : bytes).

Record dom_node := {
  dn_kind : node_kind;
  dn_parent : Z;
  dn_children : list Z;
  dn_refs : Z
}.

Record dom := {
  dom_nodes : gmap Z dom_node;
  dom_next : Z;
  dom_quirks : hubbub_quirks_mode
}.

Definition node_of (d : dom) (n : Z) : dom_node :=
  default {| dn_kind := Document; dn_parent := NULL; dn_children := []; dn_refs := 0 |}
    (dom_nodes d !! n).
Definition upd_node (n : Z) (f : dom_node -> dom_node) (d : dom) : dom :=
  {| dom_nodes := <[n := f (node_of d n)]> (dom_nodes d); dom_next := dom_next d;
     dom_quirks := dom_quirks d |}.
Definition add_ref (k n : Z) : dom -> dom :=
  upd_node n (fun x => {| dn_kind := dn_kind x; dn_parent := dn_parent x;
                          dn_children := dn_children x; dn_refs := dn_refs x + k |}).
Definition set_parent (p n : Z) : dom -> dom :=
  upd_node n (fun x => {| dn_kind := dn_kind x; dn_parent := p;
                          dn_children := dn_children x; dn_refs := dn_refs x |}).
Definition upd_children (n : Z) (f : list Z -> list Z) : dom -> dom :=
  upd_node n (fun x => {| dn_kind := dn_kind x; dn_parent := dn_parent x;
                          dn_children := f (dn_children x); dn_refs := dn_refs x |}).
Definition new_node (k : node_kind) (d : dom) : hubbub_error * Z * dom :=
  let n := dom_next d in
  (HUBBUB_OK, n,
   {| dom_nodes := <[n := {| dn_kind := k; dn_parent := NULL; dn_children := []; dn_refs := 1 |}]>
                     (dom_nodes d);
      dom_next := n + 1; dom_quirks := dom_quirks d |}).
Definition without (n : Z) (l : list Z) : list Z := filter (fun m => m <> n) l.
Fixpoint insert_at (n r : Z) (l : list Z) : list Z :=
  match l with
  | [] => [n]
  | m :: l => if m =? r then n :: m :: l else m :: insert_at n r l
  end.
Definition detach (n : Z) (d : dom) : dom :=
  set_parent NULL n (upd_children (dn_parent (node_of d n)) (without n) d).
Definition put (p n : Z) (f : list Z -> list Z) (d : dom) : hubbub_error * Z * dom :=
  (HUBBUB_OK, n, add_ref 1 n (set_parent p n (upd_children p f (detach n d)))).

#[export] Instance dom_handler : TreeHandler dom := {
  th_create_comment data d := new_node (Comment data) d;
  th_create_doctype t d := new_node (Doctype (doctype_name t)) d;
  th_create_element tag d := new_node (Element (tag_name tag) (tag_attributes tag)) d;
  th_create_text data d := new_node (Text data) d;
  th_ref_node n d := add_ref 1 n d;
  th_unref_node n d := add_ref (-1) n d;
  th_append_child p n d := put p n (fun l => l ++ [n]) d;
  th_insert_before p n r d := put p n (insert_at n r) d;
  th_remove_child p n d := (HUBBUB_OK, n, add_ref 1 n (detach n d));
  th_clone_node n deep d := new_node (dn_kind (node_of d n)) d;
  th_reparent_children n p d :=
    (HUBBUB_OK,
     foldl (fun d c => set_parent p c d) (upd_children p (fun l => l ++ dn_children (node_of d n))
       (upd_children n (fun _ => []) d)) (dn_children (node_of d n)));
  th_get_parent n element_only d :=
    let p := dn_parent (node_of d n) in
    (HUBBUB_OK,
     match dn_kind (node_of d p) with Document => if element_only then NULL else p | _ => p end,
     if p =? NULL then d else add_ref 1 p d);
  th_form_associate form n d := (HUBBUB_OK, d);
  th_add_attributes n attrs d := (HUBBUB_OK, d);
  th_set_quirks_mode q d := {| dom_nodes := dom_nodes d; dom_next := dom_next d; dom_quirks := q |};
  th_encoding_change := None;
  th_complete_script n d := (HUBBUB_OK, d)
}.

(** The document as a tree, down to some depth. *)
Inductive tree := Node (kind : node_kind) (children : list tree).
Fixpoint tree_of (depth : nat) (d : dom) (n : Z) : tree :=
  match depth with
  | O => Node (dn_kind (node_of d n)) []
  | S depth => Node (dn_kind (node_of d n)) (map (tree_of depth d) (dn_children (node_of d n)))
  end.

(** ** Running *)

(** Memory is short for huge blocks only, and no address is used twice. *)
Definition max_address (h : gmap Z formatting_list_entry) : Z := foldr Z.max 0 (map_to_list h).*1.
Definition dom_malloc (calls : nat) (h : gmap Z formatting_list_entry) : option Z :=
  Some (1 + Z.max (Z.of_nat calls) (max_address h)).
Definition dom_alloc (_ : nat) (size : Z) : bool := size <=? 2 ^ 36.
Definition dom_mibenum (_ : bytes) : Z := 0.
Definition dom_mibname (_ : Z) : option bytes := None.

Definition DOCUMENT : Z := 1.
Definition empty_dom : dom :=
  {| dom_nodes := {[DOCUMENT := {| dn_kind := Document; dn_parent := NULL; dn_children := [];
                                   dn_refs := 1 |}]};
     dom_next := 2; dom_quirks := HUBBUB_QUIRKS_MODE_NONE |}.

Definition dom_builder : option (hubbub_treebuilder dom) :=
  match hubbub_treebuilder_create dom_alloc empty_dom with
  | (_, Some t) =>
      let '(_, t) := hubbub_treebuilder_setopt (Parser.HUBBUB_TREEBUILDER_TREE_HANDLER 1) t in
      let '(_, t) := hubbub_treebuilder_setopt (Parser.HUBBUB_TREEBUILDER_DOCUMENT_NODE DOCUMENT) t in
      Some t
  | _ => None
  end.

Fixpoint give_tokens (tokens : list hubbub_token) (t : hubbub_treebuilder dom)
  : option (hubbub_treebuilder dom) :=
  match tokens with
  | [] => Some t
  | token :: tokens =>
      match run_comp (hubbub_treebuilder_token_handler dom_malloc dom_alloc dom_mibenum dom_mibname
                        token) t with
      | Some (HUBBUB_OK, t) => give_tokens tokens t
      | _ => None
      end
  end.

Definition start (name : String.string) : hubbub_token := TokenStartTag (made_tag (chars name) []).
Definition end_tag (name : String.string) : hubbub_token := TokenEndTag (made_tag (chars name) []).
Definition text (data : String.string) : hubbub_token := TokenCharacter (chars data).
Definition build (tokens : list hubbub_token) : option tree :=
  t ← dom_builder; t ← give_tokens tokens t; Some (tree_of 20 (tb_world t) DOCUMENT).
Definition elem (name : String.string) (children : list tree) : tree :=
  Node (Element (chars name) []) children.
Definition txt (data : String.string) : tree := Node (Text (chars data)) [].

(** The state that a document leaves the tree builder in. *)
Definition blank_builder : hubbub_treebuilder dom :=
  {| tb_context := blank_context; tb_tree_handler := NULL; tb_error_handler := NULL;
     tb_error_pw := NULL; tb_entries := ∅; tb_calls := 0; tb_world := empty_dom; tb_commands := [];
     tb_token := TokenEOF |}.
Definition after (tokens : list hubbub_token) : hubbub_treebuilder dom :=
  default blank_builder (t ← dom_builder; give_tokens tokens t).

(** ** What the library relies on *)

Lemma dom_next_set_parents p l : forall d, dom_next (foldl (fun d c => set_parent p c d) d l) = dom_next d.
Proof. induction l as [|c l IH]; intros d; [done|]. cbn. by rewrite IH. Qed.

#[export] Program Instance dom_laws : TreeHandlerLaws dom := {
  th_element d n := n < dom_next d
}.
Solve All Obligations with
  cbn; unfold put, new_node; intros; simplify_eq; cbn; repeat case_match;
  repeat split; intros; cbn; rewrite ?dom_next_set_parents; cbn; try done; try lia.

Lemma dom_benign : client_benign dom.
Proof. by split. Qed.

Lemma max_address_le h p e : h !! p = Some e -> p <= max_address h.
Proof.
  intros H%elem_of_map_to_list. unfold max_address.
  apply (list_elem_of_fmap_2 fst) in H. cbn in H. revert H. generalize (map_to_list h).*1. intros l.
  induction l as [|q l IH]; [by intros ?%elem_of_nil|]. intros [->|H]%elem_of_cons; cbn; [lia|].
  specialize (IH H). lia.
Qed.

Lemma dom_malloc_fresh : malloc_fresh dom_malloc.
Proof.
  intros calls h p [= <-]. unfold NULL. assert (0 <= max_address h).
  { unfold max_address. generalize (map_to_list h).*1. intros l. induction l as [|q l IH]; cbn; lia. }
  split; [lia|]. destruct (h !! _) eqn:E; [|done]. apply max_address_le in E. lia.
Qed.

Lemma dom_alloc_limit : alloc_limit dom_alloc.
Proof. intros calls size H. unfold dom_alloc in H. lia. Qed.
