(* ===== verification/ParserSpec.v ===== *)
(** * ParserSpec: feeding the HTML parser is safe.

    The tokeniser and the input stream composed, for a parser that is [opened]:
    feeding a chunk returns, the fallback to Windows-1252 is tried only when it
    can still be made (the assertion in hubbub_parser_parse_chunk), and after a
    success the next chunk may be fed; ending the input tells the end of file.
    The exceptions are those of TokeniserInv.v, and only with a handler that
    changes the content model.  At the end there is a parser with the tree
    builder as its handler, and a page that it turns into a document. *)
From S2P Require Import Prelude Errors Utf8 Interfaces Buffer InputStream InputStreamSpec.
From S2P Require Import Entities Detect DetectSpec Tokens TokeniserState.
From S2P Require Import TokeniserMonad TokeniserEntities TokeniserTags TokeniserMarkup.
From S2P Require Import Tokeniser TokeniserWp TokeniserEmit TokeniserInv TokeniserSafe.
From S2P Require Import TokeniserSafeData TokeniserSettled StreamSettled Parser Concrete.
From S2P Require Import TreeState TreeBuilder TreeTokens TreeConcrete.
From Stdlib Require Ascii String.
Import String.StringSyntax.
Local Open Scope string_scope.
Local Open Scope Z_scope.

#[local] Existing Instance bad_encoding.

Section Spec.
Context {cov : Coverage}.
Context {CD P TB : Type}.
Context (iconv_open : bytes -> bytes -> CD + iconv_errno)
        (iconv : CD -> bytes -> Z -> iconv_result CD).
Context (mibenum_from_name : bytes -> Z) (mibenum_to_name : Z -> bytes).
Context (malloc_ok realloc_ok : Z -> bool) (cd_pending : CD -> Z) (K : Z).
Context (dict : list hubbub_entity_node) (dict_root : Z).
Hypothesis env : stream_env iconv_open iconv mibenum_from_name realloc_ok cd_pending K.
Hypothesis dict_ok : entities_ok dict dict_root.
Local Abbreviation stream := (parserutils_inputstream CD).
Local Abbreviation T := (hubbub_tokeniser stream parserutils_buffer P).
Local Abbreviation live := (entity_reachable dict dict_root).
Context `{!TreeBuilderOps T TB}.
Local Abbreviation parser := (hubbub_parser T TB).
Implicit Types (s : stream) (t : T) (p : parser).

#[local] Instance stream_ops : InputStreamOps stream :=
  parserutils_inputstream_ops iconv_open iconv mibenum_from_name mibenum_to_name realloc_ok.
#[local] Instance stream_iface : InputStream stream :=
  parserutils_inputstream_iface iconv_open iconv mibenum_from_name mibenum_to_name realloc_ok
    cd_pending K env.
#[local] Instance buffer_ops : ByteBufferOps parserutils_buffer :=
  parserutils_buffer_ops realloc_ok.
#[local] Instance buffer_iface : ByteBuffer parserutils_buffer :=
  parserutils_buffer_iface realloc_ok (memory_bounded _ _ _ _ _ _ env).

(** What the fallback relies on in the table of charset names. *)
Local Abbreviation w1252 := (mibenum_from_name name_windows_1252).
Record charset_table : Prop := {
  ct_known : w1252 <> 0;
  ct_name : mibenum_from_name (mibenum_to_name w1252) = w1252;
  ct_utf8 : w1252 <> mibenum_from_name name_utf8;
  ct_utf16 : w1252 <> mibenum_from_name name_utf16;
  ct_utf32 : w1252 <> mibenum_from_name name_utf32
}.
Hypothesis table : charset_table.

Local Abbreviation extract := (hubbub_charset_extract mibenum_from_name).
Local Abbreviation peek s := (parserutils_inputstream_peek iconv_open iconv mibenum_from_name
  mibenum_to_name realloc_ok s 0).

(** ** The choice of Windows-1252 *)

(** Windows-1252 was asked for, and its descriptor is open. *)
Record chosen s : Prop := {
  ch_mibenum : is_mibenum s = w1252;
  ch_filter : f_encoding (is_filter s) = w1252;
  ch_source : is_encsrc s = HUBBUB_CHARSET_TENTATIVE \/ is_encsrc s = HUBBUB_CHARSET_CONFIDENT
}.

Lemma windows_1252_known : mibenum_from_name (chars "Windows-1252") <> 0.
Proof. apply (ct_known table). Qed.

Lemma strip_bom_keeps raw e m raw' :
  parserutils_inputstream_strip_bom mibenum_from_name w1252 raw = Some (e, m, raw') ->
  m = w1252 /\ fine e.
Proof.
  assert (Hd : forall bom,
    (if has_bom bom raw then discard_bom bom w1252 raw else Some (PARSERUTILS_OK, w1252, raw))
      = Some (e, m, raw') -> m = w1252 /\ fine e).
  { intros bom. destruct (has_bom bom raw); [|by intros [= <- <- _]].
    unfold discard_bom. destruct (parserutils_buffer_discard raw 0 (zlen bom)) as [[e1 b]|] eqn:E;
      [|done]. intros [= <- <- _]. split; [done|]. by eapply buffer_error_fine, discard_error. }
  unfold parserutils_inputstream_strip_bom.
  rewrite (proj2 (Z.eqb_neq _ _) (ct_utf16 table)), (proj2 (Z.eqb_neq _ _) (ct_utf32 table)).
  repeat (destruct (_ =? _); [apply Hd|]). by intros [= <- <- _].
Qed.

Lemma chosen_first_chunk s e s' :
  stream_wf s -> is_csdetect s = Some extract -> chosen s ->
  first_chunk iconv_open mibenum_from_name mibenum_to_name s = Some (e, s') -> fine e.
Proof.
  intros Hw Hd [Hm Hf Hsrc]. unfold first_chunk, detect_charset. rewrite Hd.
  destruct (extract_detects mibenum_from_name (buf_bytes (is_raw s)) (is_mibenum s) (is_encsrc s)
    windows_1252_known) as (m & src & -> & Hdet).
  unfold detected in Hdet. replace (_ || _) with true in Hdet by (by destruct Hsrc as [-> | ->]).
  destruct Hdet as [-> ->]. cbn [mbind option_bind]. unfold settle_charset.
  cbn [set_charset is_mibenum is_raw is_filter]. rewrite Hm.
  rewrite (proj2 (Z.eqb_neq _ _) (ct_known table)). cbn [set_charset is_mibenum is_raw].
  rewrite ?Hm, (proj2 (Z.eqb_neq _ _) (ct_known table)).
  destruct (parserutils_inputstream_strip_bom _ _ _) as [[[e1 m1] raw]|] eqn:Es; [|done].
  apply strip_bom_keeps in Es as [-> He1]. cbn [mbind option_bind].
  destruct e1; try (by intros [= <- _]).
  unfold parserutils__filter_setopt, filter_set_encoding.
  cbn [set_raw set_charset is_filter is_mibenum]. rewrite (ct_name table), Hf, Z.eqb_refl.
  rewrite (proj2 (Z.eqb_neq _ _) (ct_known table)). by intros [= <- _].
Qed.

(** ** A parser that can be fed *)

Record waiting t : Prop := {
  wt_first : is_done_first_chunk (tk_input t) = false;
  wt_eof : is_had_eof (tk_input t) = false;
  wt_detect : is_csdetect (tk_input t) = Some extract;
  wt_state : tk_state t = STATE_DATA;
  wt_pending : pending t = 0;
  wt_avail : unread (tk_input t) = [];
  wt_choice : f_encoding (is_filter (tk_input t)) <> w1252 \/ chosen (tk_input t)
}.

Record opened t : Prop := {
  op_inv : inv live t;
  op_handler : fine_handler (tk_token_handler t);
  op_phase : settled_stream (tk_input t) \/ waiting t
}.

(** ** Running before the first chunk is done *)

Lemma waiting_peek t :
  inv live t -> waiting t ->
  exists r s', peek (tk_input t) = Some (r, s') /\ end_answer cd_pending K (tk_input t) r s' /\
    first_answer iconv_open iconv mibenum_from_name mibenum_to_name realloc_ok (tk_input t) r s'.
Proof.
  intros Hi Hw. pose proof (cm_input _ (inv_common _ _ Hi)) as Hs.
  eapply first_peek; [exact env|exact Hs|apply Hw..].
Qed.

Lemma peek_pending_first t r s' :
  pending t = 0 -> peek (tk_input t) = Some (r, s') ->
  peek_pending t = Ok r (set_tk_input s' t).
Proof.
  intros Hp Hr. unfold peek_pending, bind, get_pending, gets, TokeniserMonad.peek.
  unfold pending in Hp. rewrite Hp. cbn [is_peek stream_ops parserutils_inputstream_ops].
  by rewrite Hr.
Qed.

Lemma bind_same {A C} (m : comp T A) (k : A -> comp T C) t t' :
  m t = m t' -> bind m k t = bind m k t'.
Proof. unfold bind. by intros ->. Qed.

(** Once the first character is seen, running goes on as from the stream in
    which it has been converted. *)
Lemma run_from_peek fuel t ptr len s' :
  tk_paused t = false -> tk_state t = STATE_DATA -> pending t = 0 ->
  peek (tk_input t) = Some (PeekOk ptr len, s') -> peek s' = Some (PeekOk ptr len, s') ->
  hubbub_tokeniser_run dict dict_root realloc_ok fuel t =
  hubbub_tokeniser_run dict dict_root realloc_ok fuel (set_tk_input s' t).
Proof.
  intros Hpa Hst Hp H1 H2. unfold hubbub_tokeniser_run.
  cbn [set_tk_input tk_paused]. rewrite Hpa. f_equal. destruct fuel as [|fuel]; [done|].
  cbn [run_loop]. unfold run_comp.
  assert (Hpeek : peek_pending t = peek_pending (set_tk_input s' t)).
  { rewrite (peek_pending_first t _ _ Hp H1).
    by rewrite (peek_pending_first (set_tk_input s' t) (PeekOk ptr len) s' Hp H2). }
  assert (Hstep : hubbub_tokeniser_step dict dict_root realloc_ok (S fuel) t =
    hubbub_tokeniser_step dict dict_root realloc_ok (S fuel) (set_tk_input s' t)).
  { unfold hubbub_tokeniser_step. unfold bind at 1 2. unfold get_state, gets.
    cbn [set_tk_input tk_state]. rewrite Hst. apply bind_same. cbn [data_loop].
    by apply bind_same, bind_same. }
  by rewrite Hstep.
Qed.

(** When the first peek fails, so does the run. *)
Lemma run_peek_fails fuel t e s' :
  tk_paused t = false -> tk_state t = STATE_DATA -> pending t = 0 ->
  peek (tk_input t) = Some (PeekErr e, s') -> e <> PARSERUTILS_OK -> e <> PARSERUTILS_EOF ->
  hubbub_tokeniser_run dict dict_root realloc_ok (S fuel) t =
  Some (if bool_decide (e = PARSERUTILS_NEEDDATA) then HUBBUB_OK
        else hubbub_error_from_parserutils_error e, set_tk_input s' t).
Proof.
  intros Hpa Hst Hp H1 Hok Heof. unfold hubbub_tokeniser_run. rewrite Hpa. cbn [run_loop].
  unfold run_comp, hubbub_tokeniser_step, get_state, gets, bind at 1. rewrite Hst.
  unfold hubbub_tokeniser_handle_data, bind at 1. cbn [data_loop].
  unfold bind at 1, data_turn, bind at 1. rewrite (peek_pending_first _ _ _ Hp H1). cbn.
  unfold pending in Hp. rewrite Hst, Hp, !andb_false_r. cbn. by destruct e.
Qed.

(** ** Running an open tokeniser *)

(** The run was refused by the charset, nothing has been read, and it was not
    Windows-1252 that was refused. *)
Definition refused t t' : Prop := waiting t /\
  f_encoding (is_filter (tk_input t)) <> w1252 /\
  exists s', t' = set_tk_input s' t /\ untouched (tk_input t) s' /\
    is_done_first_chunk s' = false /\
    f_encoding (is_filter s') = f_encoding (is_filter (tk_input t)).

Definition ran t (e : hubbub_error) t' : Prop :=
  (e = HUBBUB_OK \/ e = HUBBUB_PAUSED -> opened t' \/ caught t') /\
  (e = HUBBUB_BADENCODING -> refused t t').

Lemma settled_runs fuel t t1 e t' :
  opened t -> settled_stream (tk_input t1) -> fine_handler (tk_token_handler t1) ->
  hubbub_tokeniser_run dict dict_root realloc_ok fuel t1 = Some (e, t') ->
  (e = HUBBUB_OK \/ e = HUBBUB_PAUSED -> inv live t' \/ caught t') -> ran t e t'.
Proof.
  intros Ho Hs Hh Hr Hi.
  pose proof (stream_settling iconv_open iconv mibenum_from_name mibenum_to_name realloc_ok) as Hl.
  destruct (run_settled (or_introl eq_refl) dict dict_root realloc_ok settled_stream Hl fuel t1 e t' eq_refl (conj Hs Hh) Hr)
    as [[Hs' Hh'] He].
  split; [|by intros ->]. intros Hor. destruct (Hi Hor) as [Hi'|?]; [left|by right].
  split; [exact Hi'|exact Hh'|by left].
Qed.

Lemma waiting_runs fuel t e t' :
  opened t -> waiting t -> tk_paused t = false ->
  hubbub_tokeniser_run dict dict_root realloc_ok (S fuel) t = Some (e, t') ->
  (e = HUBBUB_OK \/ e = HUBBUB_PAUSED -> inv live t' \/ caught t') -> ran t e t'.
Proof.
  intros Ho Hw Hpa Hr Hi'. pose proof (op_inv _ Ho) as Hi. pose proof Hw as [Hd He Hdet Hst Hp Hu Hch].
  destruct (waiting_peek t Hi Hw) as (r & s' & Hpk & Ha & Hfa). destruct Hfa as [Heof Hfa].
  destruct r as [ptr len|e0].
  - destruct Hfa as [Hd' Hpk']. eapply settled_runs; [exact Ho| | | |exact Hi'].
    3: { rewrite (run_from_peek _ _ _ _ _ Hpa Hst Hp Hpk Hpk') in Hr. exact Hr. }
    + by split.
    + apply Ho.
  - destruct Ha as (Hok & _ & _ & Hend).
    assert (Hne : e0 <> PARSERUTILS_EOF).
    { intros ->. specialize (Hend eq_refl). destruct Hend. congruence. }
    rewrite (run_peek_fails fuel t e0 s' Hpa Hst Hp Hpk Hok Hne) in Hr.
    injection Hr as <- <-.
    destruct e0; try done; (split; [intros [?|?]; try done|]); try done.
    + (* NEEDDATA *)
      destruct (Hi' (or_introl eq_refl)) as [Hi1|?]; [left|by right].
      split; [exact Hi1|apply Ho|]. destruct Hfa as [Hd'|[->|Hdw]].
      * left. by split.
      * right. by destruct t.
      * exfalso. destruct Hdw as (detect & d & m & src & m' & src' & Hd1 & Hd2).
        rewrite Hdet in Hd1. injection Hd1 as <-.
        destruct (extract_detects mibenum_from_name d m src windows_1252_known)
          as (? & ? & Hx & _). congruence.
    + (* BADENCODING *)
      intros _. destruct Hfa as (Hfc & Hun & Hd' & Henc). split; [done|]. split; [|by exists s'].
      destruct Hch as [?|Hch]; [done|]. exfalso.
      by eapply chosen_first_chunk in Hfc; [|apply Hi|..].
Qed.

Lemma opened_runs fuel t :
  opened t -> 32 * total t + 20 < Z.of_nat fuel ->
  escapes dict dict_root realloc_ok t \/
  exists e t', hubbub_tokeniser_run dict dict_root realloc_ok fuel t = Some (e, t') /\ ran t e t'.
Proof.
  intros Ho Hf. pose proof (op_inv _ Ho) as Hi. pose proof (measure_bounds _ _ Hi).
  destruct (run_ok dict dict_root realloc_ok dict_ok fuel t Hi Hf) as [?|(e & t' & Hr & Hi')];
    [by left|right].
  exists e, t'. split; [exact Hr|]. destruct (op_phase _ Ho) as [Hs|Hw].
  - eapply settled_runs; [exact Ho|exact Hs|apply Ho|exact Hr|exact Hi'].
  - destruct (tk_paused t) eqn:Hpa.
    { unfold hubbub_tokeniser_run in Hr. rewrite Hpa in Hr. injection Hr as <- <-.
      split; [by left|done]. }
    destruct fuel as [|fuel]; [lia|]. by eapply waiting_runs.
Qed.

(** ** Feeding the parser *)

Definition can_open : Prop := forall a, exists cd, iconv_open a (mibenum_to_name w1252) = inl cd.

(** What parsing a chunk promises about its result. *)
Definition parsed (e : hubbub_error) p : Prop :=
  (e = HUBBUB_OK \/ e = HUBBUB_PAUSED -> opened (p_tok p) \/ caught (p_tok p)) /\
  (can_open -> e <> HUBBUB_BADENCODING).

Lemma raw_opened t raw :
  opened t -> wf_buffer raw -> opened (set_tk_input (set_raw raw (tk_input t)) t).
Proof.
  intros [Hi Hh Hp] Hraw.
  split; [|exact Hh|].
  - apply (input_inv dict dict_root realloc_ok); [|reflexivity|exact Hi]. destruct (cm_input _ (inv_common _ _ Hi)). by split.
  - destruct Hp as [Hs|[Hf He Hd Hst Hpe Hu Hc]]; [by left|right]. split; try done.
    destruct Hc as [?|[]]; [by left|right]. by split.
Qed.

Lemma append_input_opened data p :
  opened (p_tok p) ->
  exists e p', append_input realloc_ok (Some data) p = Some (e, p') /\
    opened (p_tok p') /\ buffer_error e /\ total (p_tok p') <= total (p_tok p) + K * zlen data.
Proof.
  intros Ho. pose proof (cm_input _ (inv_common _ _ (op_inv _ Ho))) as Hw.
  unfold append_input.
  destruct (feed_spec _ _ _ _ _ _ env (tk_input (p_tok p)) (Some data) Hw) as (e & s' & Hap & Hfed).
  rewrite Hap. cbn [mbind option_bind]. eexists _, _. split; [reflexivity|].
  destruct Hfed as (Hw' & Hu & _ & Ht). unfold parserutils_inputstream_append in Hap.
  destruct (parserutils_buffer_append _ _ _) as [[e1 raw]|] eqn:Eb; [|done].
  injection Hap as <- <-. split; [by apply raw_opened; [|apply Hw']|].
  split; [by eapply append_error|].
  unfold total. cbn [p_tok set_tok tk_input set_tk_input is_total stream_iface
    parserutils_inputstream_iface].
  pose proof (zlen_nonneg data). pose proof (se_growth _ _ _ _ _ _ env).
  destruct Ht as [(_ & _ & ->)|(_ & _ & ->)]; nia.
Qed.

Lemma untouched_total s s' :
  stream_wf s -> untouched s s' -> owed cd_pending s' = 0 ->
  stream_total cd_pending K s' <= stream_total cd_pending K s.
Proof.
  intros Hw [Hu Hc _ _ _ Hl] Ho. unfold stream_total, unread. rewrite Hu, Hc, Ho.
  pose proof (owed_nonneg _ _ _ _ _ _ env s). pose proof (se_growth _ _ _ _ _ _ env). nia.
Qed.

Lemma run_tok fuel p e t' :
  hubbub_tokeniser_run dict dict_root realloc_ok fuel (p_tok p) = Some (e, t') ->
  run iconv_open iconv mibenum_from_name mibenum_to_name realloc_ok dict dict_root fuel p
    = Some (e, set_tok t' p).
Proof.
  unfold run, Parser.stream_ops, Parser.buffer_ops, stream_ops, buffer_ops.
  intros Hr. by rewrite Hr.
Qed.

(** The tokeniser that is run again after the encoding was refused. *)
Definition falls_back_to t1 t2 : Prop := exists s2,
  parserutils_inputstream_change_charset iconv_open mibenum_from_name mibenum_to_name
    (tk_input t1) name_windows_1252 HUBBUB_CHARSET_TENTATIVE = (PARSERUTILS_OK, s2) /\
  t2 = set_tk_input s2 t1.

(** A run that parsing a chunk makes comes to escaped text. *)
Definition chunk_escapes fuel data p : Prop := exists p1,
  append_input realloc_ok (Some data) p = Some (PARSERUTILS_OK, p1) /\
  (escapes dict dict_root realloc_ok (p_tok p1) \/
   exists t1 t2, hubbub_tokeniser_run dict dict_root realloc_ok fuel (p_tok p1)
       = Some (HUBBUB_BADENCODING, t1) /\
     falls_back_to t1 t2 /\ escapes dict dict_root realloc_ok t2).

(** The fallback is possible, its assertion holds, and the second run is not
    refused. *)
Lemma fall_back_safe fuel p t t1 :
  opened t -> refused t t1 -> p_tok p = t1 -> 32 * total t + 20 < Z.of_nat fuel ->
  (exists t2, falls_back_to t1 t2 /\ escapes dict dict_root realloc_ok t2) \/
  exists e p', fall_back iconv_open iconv mibenum_from_name mibenum_to_name realloc_ok dict
      dict_root fuel p = Some (e, p') /\ parsed e p'.
Proof.
  intros Ho (Hw & Hne & s' & -> & Hun & Hd' & Henc) Hp Hf.
  pose proof (op_inv _ Ho) as Hi. pose proof (cm_input _ (inv_common _ _ Hi)) as Hs.
  unfold fall_back. rewrite Hp. cbn [set_tk_input tk_input].
  destruct (change_charset_spec iconv_open iconv mibenum_from_name mibenum_to_name realloc_ok
    cd_pending K env (tk_input t) s' name_windows_1252 HUBBUB_CHARSET_TENTATIVE Hs Hun Hd'
    (ct_known table)) as (e & s2 & Hcc & Hinv & Hok); [congruence|].
  assert (Hopen : can_open -> fine e).
  { intros Hcan ->. unfold parserutils_inputstream_change_charset in Hcc. rewrite Hd' in Hcc.
    rewrite (proj2 (Z.eqb_neq _ _) (ct_known table)) in Hcc.
    unfold parserutils__filter_setopt, filter_set_encoding in Hcc.
    rewrite (proj2 (Z.eqb_neq _ _) (ct_known table)) in Hcc.
    rewrite (proj2 (Z.eqb_neq (f_encoding (is_filter s')) _)) in Hcc by congruence.
    destruct (Hcan (mibenum_to_name (f_int_enc (is_filter s')))) as [cd Hcd].
    by rewrite Hcd in Hcc. }
  rewrite Hcc.
  destruct (decide (e = PARSERUTILS_OK)) as [->|Hne'].
  2: { right. destruct Hinv as [->|[->| ->]]; [done|..];
         (eexists _, _; split; [reflexivity|]; split; [by intros [?|?]|]);
         intros Hcan; first [done|by destruct (Hopen Hcan)]. }
  destruct (Hok eq_refl) as (Hw2 & Hun2 & Howed & Hd2 & Hsrc2 & Hm2 & Hf2).
  set (t2 := set_tk_input s2 t).
  assert (Hu2 : unread s2 = unread (tk_input t))
    by (unfold unread; destruct Hun2 as [-> -> _ _ _ _]; done).
  assert (Hch : chosen s2) by (split; [done|done|by left]).
  assert (Ho2 : opened t2).
  { destruct Hw as [Hf0 He0 Hdt0 Hst0 Hp0 Hu0 _]. split.
    - by apply (input_inv dict dict_root realloc_ok).
    - apply Ho.
    - right. split; try done.
      + by rewrite <- He0; apply Hun2.
      + by rewrite <- Hdt0; apply Hun2.
      + rewrite <- Hu0. exact Hu2.
      + by right. }
  destruct (opened_runs fuel t2 Ho2) as [Hesc|(e & t' & Hr & Hran & Href)].
  { pose proof (untouched_total _ _ Hs Hun2 Howed) as Hle. unfold total in *. cbn in *. lia. }
  { left. exists t2. split; [|exact Hesc]. exists s2. split; [exact Hcc|done]. }
  right. change (set_tok _ p) with (set_tok t2 p). rewrite (run_tok _ (set_tok t2 p) _ _ Hr).
  eexists _, _. split; [reflexivity|]. split; [exact Hran|].
  intros _ He. destruct (Href He) as (_ & Hno & _). by apply Hno.
Qed.

Lemma parse_chunk_ok fuel data p :
  opened (p_tok p) -> 32 * (total (p_tok p) + K * zlen data) + 20 < Z.of_nat fuel ->
  chunk_escapes fuel data p \/
  exists e p', hubbub_parser_parse_chunk iconv_open iconv mibenum_from_name mibenum_to_name
      realloc_ok dict dict_root fuel data p = Some (e, p') /\ parsed e p'.
Proof.
  intros Ho Hf. unfold hubbub_parser_parse_chunk.
  destruct (append_input_opened data p Ho) as (e & p1 & Hap & Ho1 & He & Ht).
  rewrite Hap. cbn [mbind option_bind].
  destruct (decide (e = PARSERUTILS_OK)) as [->|Hne].
  2: { right. destruct He as [->|[->| ->]]; [done|..];
         (eexists _, _; split; [reflexivity|]; split; [by intros [?|?]|done]). }
  destruct (opened_runs fuel (p_tok p1) Ho1) as [Hesc|(e & t' & Hr & Hran & Href)]; [lia| |].
  { left. exists p1. split; [exact Hap|by left]. }
  rewrite (run_tok _ _ _ _ Hr). cbn [mbind option_bind].
  destruct (decide (e = HUBBUB_BADENCODING)) as [->|Hne].
  - destruct (fall_back_safe fuel (set_tok t' p1) (p_tok p1) t' Ho1 (Href eq_refl) eq_refl)
      as [(t2 & Hfb & Hesc)|?]; [lia| |by right].
    left. exists p1. split; [exact Hap|]. right. by exists t', t2.
  - right. destruct e; try done; (eexists _, _; split; [reflexivity|]; split; [exact Hran|done]).
Qed.

(** The end of the input. *)

(** The handler does not answer HUBBUB_NEEDDATA, which would end the run. *)
Definition never_waits (h : option (token_handler_fn P)) : Prop :=
  match h with
  | None => True
  | Some h => forall pw tok, (h pw tok).1.1 <> HUBBUB_NEEDDATA
  end.

(** The tokeniser that is run once the end has been announced. *)
Definition end_announced t : T := set_tk_input
  {| is_utf8 := is_utf8 (tk_input t); is_cursor := is_cursor (tk_input t); is_had_eof := true;
     is_raw := is_raw (tk_input t); is_done_first_chunk := is_done_first_chunk (tk_input t);
     is_mibenum := is_mibenum (tk_input t); is_encsrc := is_encsrc (tk_input t);
     is_filter := is_filter (tk_input t); is_csdetect := is_csdetect (tk_input t) |} t.

Lemma completed_ok fuel p :
  opened (p_tok p) -> never_waits (tk_token_handler (p_tok p)) ->
  32 * total (p_tok p) + 20 < Z.of_nat fuel ->
  escapes dict dict_root realloc_ok (end_announced (p_tok p)) \/
  exists e p', hubbub_parser_completed iconv_open iconv mibenum_from_name mibenum_to_name
      realloc_ok dict dict_root fuel p = Some (e, p') /\
    (e = HUBBUB_PAUSED -> inv live (p_tok p') \/ caught (p_tok p')) /\
    (e = HUBBUB_OK -> buf_length (is_raw (tk_input (p_tok p))) = 0 -> told_end (p_tok p')).
Proof.
  intros Ho Hn Hf. unfold hubbub_parser_completed. set (t1 := end_announced (p_tok p)).
  change (append_input realloc_ok None p) with (Some (PARSERUTILS_OK, set_tok t1 p)).
  cbn [mbind option_bind].
  assert (Hi : inv live t1).
  { apply (input_inv dict dict_root realloc_ok); [|reflexivity|apply Ho].
    destruct (cm_input _ (inv_common _ _ (op_inv _ Ho))). by split. }
  destruct (run_ok dict dict_root realloc_ok dict_ok fuel t1 Hi Hf) as [?|(e & t' & Hr & Hi')];
    [by left|].
  rewrite (run_tok fuel (set_tok t1 p) e t' Hr).
  destruct (decide (e = HUBBUB_OK /\ buf_length (is_raw (tk_input (p_tok p))) = 0)) as [[-> Hraw]|Hne].
  - pose proof (ended_settling iconv_open iconv mibenum_from_name mibenum_to_name realloc_ok) as Hl.
    assert (Hs : @settled_tok bad_needdata _ _ _ stream_ended t1) by (split; [by split|exact Hn]).
    destruct (run_ends dict dict_root realloc_ok dict_ok stream_ended Hl fuel t1 t' Hi Hs Hf Hr)
      as [?|Ht]; [by left|right].
    eexists _, _. split; [reflexivity|]. by split.
  - right. eexists _, _. split; [reflexivity|]. split; [intros ->; apply Hi'; by right|].
    intros -> Hraw. by destruct Hne.
Qed.

(** ** Creating a parser *)

Lemma set_encoding_encoding f enc f' :
  filter_set_encoding iconv_open mibenum_from_name mibenum_to_name f enc = (PARSERUTILS_OK, f') ->
  f_encoding f' = mibenum_from_name enc.
Proof.
  unfold filter_set_encoding. destruct (_ =? 0); [done|].
  destruct (Z.eqb_spec (f_encoding f) (mibenum_from_name enc)); [by intros [= <-]|].
  destruct (iconv_open _ _) as [|[]]; by intros [= <-].
Qed.

(** How a new stream starts. *)
Lemma create_fields enc src detect s :
  parserutils_inputstream_create iconv_open mibenum_from_name mibenum_to_name malloc_ok enc src
    detect = (PARSERUTILS_OK, Some s) ->
  is_done_first_chunk s = false /\ is_had_eof s = false /\ is_csdetect s = detect /\
  match enc with
  | None => f_encoding (is_filter s) = mibenum_from_name name_utf8
  | Some name => f_encoding (is_filter s) = is_mibenum s /\ is_encsrc s = src
  end.
Proof.
  unfold parserutils_inputstream_create. destruct (malloc_ok _); [|done]. cbn [negb].
  destruct (parserutils_buffer_create _) as [[] [b|]]; try done.
  destruct (parserutils__filter_create _ _ _ _ _) as [e f] eqn:Ef.
  destruct e; try done. destruct f as [f|]; [|done].
  destruct enc as [name|].
  - destruct (_ =? 0); [done|]. unfold parserutils__filter_setopt.
    destruct (filter_set_encoding _ _ _ _ _) as [[] f'] eqn:Es; try done. intros [= <-].
    by apply set_encoding_encoding in Es.
  - intros [= <-]. do 3 (split; [done|]). unfold parserutils__filter_create in Ef.
    destruct (malloc_ok _); [|done]. cbn [negb] in Ef. destruct (_ =? 0); [done|].
    unfold filter_set_defaults in Ef.
    destruct (filter_set_encoding _ _ _ _ _) as [[] f'] eqn:Es; try done. injection Ef as ->.
    by apply set_encoding_encoding in Es.
Qed.

Lemma fix_encoding_in enc fix_enc : exists enc', 
  fix_encoding mibenum_from_name mibenum_to_name enc fix_enc = Some enc'.
Proof.
  unfold fix_encoding. destruct enc as [name|]; [|eauto]. destruct fix_enc; [|eauto].
  destruct (Z.eqb_spec (mibenum_from_name name) 0); [eauto|].
  destruct (fix_charset_in mibenum_from_name (mibenum_from_name name) windows_1252_known)
    as (m & -> & _); [done|]. cbn [mbind option_bind]. eauto.
Qed.

Lemma create_answer enc src detect e r :
  parserutils_inputstream_create iconv_open mibenum_from_name mibenum_to_name malloc_ok enc src
    detect = (e, r) ->
  match r with
  | Some _ => e = PARSERUTILS_OK
  | None => e = PARSERUTILS_NOMEM \/ e = PARSERUTILS_BADENCODING
  end.
Proof.
  assert (He : forall f n e f', filter_set_encoding iconv_open mibenum_from_name mibenum_to_name f n
    = (e, f') -> e = PARSERUTILS_OK \/ e = PARSERUTILS_NOMEM \/ e = PARSERUTILS_BADENCODING).
  { intros f n e1 f'. unfold filter_set_encoding. repeat case_match; intros [= <- _]; auto. }
  unfold parserutils_inputstream_create. destruct (malloc_ok SIZEOF_STREAM); [|intros [= <- <-]; auto].
  cbn [negb]. unfold parserutils_buffer_create.
  repeat (destruct (negb _); [intros [= <- <-]; auto|]).
  destruct (parserutils__filter_create _ _ _ _ _) as [e1 f] eqn:Ef.
  assert (Hf : e1 = PARSERUTILS_OK /\ f <> None \/ e1 = PARSERUTILS_NOMEM \/
               e1 = PARSERUTILS_BADENCODING).
  { unfold parserutils__filter_create, filter_set_defaults in Ef.
    repeat (destruct (negb _); [injection Ef as <- _; auto|]).
    destruct (_ =? 0); [injection Ef as <- _; auto|].
    destruct (filter_set_encoding _ _ _ _ _) as [e2 f2] eqn:Es. apply He in Es.
    destruct Es as [->|[->| ->]]; injection Ef as <- <-; auto. }
  destruct Hf as [[-> Hf]|[->| ->]]; [|intros [= <- <-]; auto..]. destruct f as [f|]; [|done].
  destruct enc as [name|]; [|by intros [= <- <-]]. destruct (_ =? 0); [intros [= <- <-]; auto|].
  unfold parserutils__filter_setopt.
  destruct (filter_set_encoding _ _ _ _ _) as [e2 f2] eqn:Es. apply He in Es.
  destruct Es as [->|[->| ->]]; intros [= <- <-]; auto.
Qed.

(** hubbub_treebuilder_create makes a tree builder or fails, and only installs
    its token handler in the tokeniser. *)
Definition tb_installs : Prop := forall t tb t', tb_create t = (HUBBUB_OK, tb, t') ->
  tb <> None /\ exists h pw, t' = set_tk_token_pw pw (set_tk_token_handler h t).

(** With a client that handles the tokens itself, a new parser can be fed. *)
Definition ready_for_client p : Prop := forall fuel h (pw : P),
  quiet_handler h -> fine_handler h ->
  exists p', hubbub_parser_setopt iconv_open iconv mibenum_from_name mibenum_to_name realloc_ok
      dict dict_root fuel (HUBBUB_PARSER_TOKEN_HANDLER h pw) p = Some (HUBBUB_OK, p') /\
    opened (p_tok p') /\ total (p_tok p') = 0.

(** What creating a parser promises. *)
Definition created (e : hubbub_error) (r : option parser) : Prop :=
  match r with Some p => e = HUBBUB_OK /\ ready_for_client p | None => e <> HUBBUB_OK end.

Local Abbreviation stream_create enc src := (parserutils_inputstream_create iconv_open
  mibenum_from_name mibenum_to_name malloc_ok enc src (Some extract)).

Lemma new_tokeniser_waits enc src s b (pw pw' : P) h :
  stream_create enc src = (PARSERUTILS_OK, Some s) ->
  match enc with Some _ => src = HUBBUB_CHARSET_CONFIDENT | None => True end ->
  parserutils_buffer_create malloc_ok = (PARSERUTILS_OK, Some b) ->
  quiet_handler h -> fine_handler h ->
  exists t, hubbub_tokeniser_create true (fun _ => parserutils_buffer_create malloc_ok) s pw
      = (HUBBUB_OK, Some t) /\ tk_input t = s /\
    opened (set_tk_token_pw pw' (set_tk_token_handler h t)) /\ total t = 0.
Proof.
  intros Hc Hsrc Hb Hq Hh.
  destruct (create_spec _ _ _ _ _ _ _ env _ _ _ _ _ Hc) as (Hw & Ht & Hu & _).
  { intros d m sr. destruct (extract_detects mibenum_from_name d m sr windows_1252_known)
      as (m' & src' & -> & _). by eexists _, _, _. }
  pose proof (create_wf _ _ Hb) as [Hwb Hbb].
  assert (Hbw : bb_wf b /\ bb_bytes b = []) by done. destruct Hbw as [Hbw Hbt].
  assert (Hsw : is_wf s) by exact Hw.
  destruct (create_inv dict dict_root (fun _ => parserutils_buffer_create malloc_ok) s pw b
    Hb Hbw Hbt Hsw) as (t & Hcr & Hi & Htot).
  exists t. split; [exact Hcr|].
  apply create_fields in Hc as (Hd & He & Hdet & Henc).
  unfold hubbub_tokeniser_create in Hcr. rewrite Hb in Hcr. injection Hcr as <-.
  split; [done|]. split; [|by rewrite Htot].
  split; [by apply (handler_inv dict dict_root realloc_ok)|exact Hh|right].
  split; try done. cbn [set_tk_token_pw set_tk_token_handler tk_input].
  destruct enc as [name|]; [|left; rewrite Henc; apply not_eq_sym, table].
  destruct (decide (f_encoding (is_filter s) = w1252)) as [E|E]; [right|by left].
  destruct Henc as [Hm Hs]. split; [congruence|done|right; congruence].
Qed.

Lemma create_ready enc fix_enc (pw : P) :
  tb_installs ->
  exists e r, hubbub_parser_create iconv_open mibenum_from_name mibenum_to_name malloc_ok
      enc fix_enc pw = Some (e, r) /\ created e r.
Proof.
  intros Htb. unfold hubbub_parser_create.
  destruct (malloc_ok SIZEOF_PARSER); cbn [negb]; [|by eexists _, None].
  destruct (fix_encoding_in enc fix_enc) as [enc' ->]. cbn [mbind option_bind].
  set (src := match enc' with Some _ => _ | None => _ end).
  destruct (stream_create enc' src) as [e s] eqn:Ec.
  pose proof (create_answer _ _ _ _ _ Ec) as He.
  destruct s as [s|]; [subst e|by destruct He as [->| ->]; eexists _, None].
  destruct (malloc_ok SIZEOF_TOKENISER); [|by eexists _, None].
  assert (Hb : (exists b, parserutils_buffer_create malloc_ok = (PARSERUTILS_OK, Some b)) \/
               parserutils_buffer_create malloc_ok = (PARSERUTILS_NOMEM, None)).
  { unfold parserutils_buffer_create. repeat case_match; eauto. }
  destruct Hb as [[b Eb]|Eb].
  2: { unfold hubbub_tokeniser_create. cbn [negb]. rewrite Eb. by eexists _, None. }
  assert (Hsrc : match enc' with Some _ => src = HUBBUB_CHARSET_CONFIDENT | None => True end)
    by (by destruct enc').
  destruct (new_tokeniser_waits enc' src s b pw pw None Ec Hsrc Eb I I) as (t & Ht & Hin & _).
  rewrite Ht. destruct (tb_create t) as [[e tb] t'] eqn:Et.
  destruct (decide (e = HUBBUB_OK)) as [->|He].
  2: { destruct e; try done; by eexists _, None. }
  destruct (Htb _ _ _ Et) as (Hsome & h0 & pw0 & ->). destruct tb as [tb|]; [|done].
  eexists _, _. split; [reflexivity|]. split; [done|]. intros fuel h pw1 Hq Hh.
  destruct (new_tokeniser_waits enc' src s b pw pw1 h Ec Hsrc Eb Hq Hh) as (t1 & Ht1 & _ & Ho & Htot).
  rewrite Ht in Ht1. injection Ht1 as <-.
  eexists. split; [reflexivity|]. by split.
Qed.
End Spec.

(** ** The theorems *)
Section Theorems.
Context {cov : Coverage}.
Context {CD P TB : Type}.
Context (iconv_open : bytes -> bytes -> CD + iconv_errno)
        (iconv : CD -> bytes -> Z -> iconv_result CD).
Context (mibenum_from_name : bytes -> Z) (mibenum_to_name : Z -> bytes).
Context (malloc_ok realloc_ok : Z -> bool) (cd_pending : CD -> Z) (K : Z).
Context (dict : list hubbub_entity_node) (dict_root : Z).
Context (env : stream_env iconv_open iconv mibenum_from_name realloc_ok cd_pending K).
Local Abbreviation T :=
  (hubbub_tokeniser (parserutils_inputstream CD) parserutils_buffer P).
Context `{!TreeBuilderOps T TB}.
Local Abbreviation open_tok := (opened iconv_open iconv mibenum_from_name mibenum_to_name
  realloc_ok cd_pending K dict dict_root env).
Local Abbreviation total_of := (@total _ _ _ _
  (stream_iface iconv_open iconv mibenum_from_name mibenum_to_name realloc_ok cd_pending K env)).
Implicit Types p : hubbub_parser T TB.

Local Abbreviation stream_of := (stream_iface iconv_open iconv mibenum_from_name
  mibenum_to_name realloc_ok cd_pending K env).
Local Abbreviation buffer_of := (buffer_iface iconv_open iconv mibenum_from_name realloc_ok
  cd_pending K env).

(** C11: when a client feeds a chunk to an open parser, hubbub_parser_parse_chunk
    returns and the assertion it makes when it falls back to Windows-1252
    holds: an encoding can only be refused before anything has been read.
    After a success or a pause the parser is open again, and an encoding
    error is reported only if iconv does not know Windows-1252.  An open parser
    does not process CDATA sections, and its handler pauses or, unless the
    coverage is [pcdata_only], changes the content model at start tags: the
    repository's tree builder is such a handler ([tree_builder_quiet],
    TreeTokens.v), and the witness is a parser with it.  With such a handler two
    outcomes are excepted: a run that comes to escaped text in RCDATA or CDATA
    ([chunk_escapes]) and a chunk that ends after the name of an end tag there
    ([caught]); with [pcdata_only] neither can be. *)
Theorem parse_chunk_safe fuel data p :
  entities_ok dict dict_root -> charset_table mibenum_from_name mibenum_to_name ->
  open_tok (p_tok p) -> 32 * (total_of (p_tok p) + K * zlen data) + 20 < Z.of_nat fuel ->
  chunk_escapes iconv_open iconv mibenum_from_name mibenum_to_name realloc_ok dict dict_root
    fuel data p \/
  exists e p', hubbub_parser_parse_chunk iconv_open iconv mibenum_from_name mibenum_to_name
      realloc_ok dict dict_root fuel data p = Some (e, p') /\
    (e = HUBBUB_OK \/ e = HUBBUB_PAUSED -> open_tok (p_tok p') \/ caught (p_tok p')) /\
    (can_open iconv_open mibenum_from_name mibenum_to_name -> e <> HUBBUB_BADENCODING).
Proof. intros Hd Ht. by apply parse_chunk_ok. Qed.

(** C14: hubbub_parser_create returns whatever the encoding it is given and
    whichever allocation fails; it reports success exactly when it made a
    parser, and a client that then handles the tokens itself, calling back for
    no more than the coverage allows, can feed it. *)
Theorem parser_create_safe enc fix_enc (pw : P) :
  entities_ok dict dict_root -> charset_table mibenum_from_name mibenum_to_name ->
  tb_installs ->
  exists e r, hubbub_parser_create iconv_open mibenum_from_name mibenum_to_name malloc_ok
      enc fix_enc pw = Some (e, r) /\
    created iconv_open iconv mibenum_from_name mibenum_to_name realloc_ok cd_pending K
      dict dict_root env e r.
Proof. intros Hd Ht. by apply create_ready. Qed.

(** C15: hubbub_parser_completed on an open parser returns, and when it succeeds
    and no raw input was left to convert, all of the text has been consumed and
    the last token the handler was given is the end of file.  (With raw input
    left, such as the start of a character that never ends, the end of file is
    never told: [cut_character_hides_end] below.)  As for a chunk, a run that
    comes to escaped text is excepted unless the coverage is [pcdata_only]. *)
Theorem parser_completed_tells_end fuel p :
  entities_ok dict dict_root -> open_tok (p_tok p) -> never_waits (tk_token_handler (p_tok p)) ->
  32 * total_of (p_tok p) + 20 < Z.of_nat fuel ->
  @escapes _ _ _ _ (stream_ops iconv_open iconv mibenum_from_name mibenum_to_name realloc_ok)
    (buffer_ops realloc_ok) dict dict_root realloc_ok (end_announced (p_tok p)) \/
  exists e p', hubbub_parser_completed iconv_open iconv mibenum_from_name mibenum_to_name
      realloc_ok dict dict_root fuel p = Some (e, p') /\
    (e = HUBBUB_PAUSED ->
     @inv _ _ _ _ _ stream_of _ buffer_of (entity_reachable dict dict_root) (p_tok p') \/
     caught (p_tok p')) /\
    (e = HUBBUB_OK -> buf_length (is_raw (tk_input (p_tok p))) = 0 ->
     @told_end _ _ _ _ stream_of (p_tok p')).
Proof. intros Hd. by apply completed_ok. Qed.
End Theorems.

(** ** A parser

    It has just been created, its client logs the tokens, and its tree builder
    has nothing to keep. *)
Local Abbreviation few_extract := (hubbub_charset_extract few_charsets).
Local Abbreviation demo_T :=
  (hubbub_tokeniser (parserutils_inputstream unit) parserutils_buffer (list hubbub_token)).

#[local] Instance demo_tb : TreeBuilderOps demo_T unit := {
  tb_create t := (HUBBUB_OK, Some tt, set_tk_token_pw [] (set_tk_token_handler (Some logging) t));
  tb_setopt tb _ := (HUBBUB_OK, tb)
}.

Lemma demo_tb_installs : @tb_installs unit (list hubbub_token) unit demo_tb.
Proof. intros t tb t' [= <- <-]. split; [done|]. by eexists _, _. Qed.

Lemma few_table_ok : charset_table few_charsets few_names.
Proof. split; vm_compute; congruence. Qed.

Definition fresh_tokeniser {P} (handler : token_handler_fn P) (pw : P)
  : hubbub_tokeniser (parserutils_inputstream unit) parserutils_buffer P := {|
  tk_state := STATE_DATA;
  tk_content_model := HUBBUB_CONTENT_MODEL_PCDATA;
  tk_escape_flag := false;
  tk_process_cdata_section := false;
  tk_paused := false;
  tk_input := fresh_stream [] (Some few_extract);
  tk_buffer := demo_buffer [];
  tk_insert_buf := demo_buffer [];
  tk_context := zero_context;
  tk_token_handler := Some handler;
  tk_token_pw := pw
|}.

Lemma fresh_tokeniser_opened {cov : Coverage} {P} (handler : token_handler_fn P) pw :
  quiet_handler (Some handler) -> (forall pw tok, (handler pw tok).1.1 <> HUBBUB_BADENCODING) ->
  opened picky_open ascii_iconv few_charsets few_names below_4GB (fun _ => 0) 3 lt_table 0 few_env
    (fresh_tokeniser handler pw).
Proof.
  intros Hq Hf. split.
  - split; [split|]; try done; try (by apply demo_buffer_wf); try apply fresh_stream_wf; try done.
    + intros d m src.
      destruct (extract_detects few_charsets d m src) as (m' & src' & -> & _); [done|].
      by eexists _, _, _.
    + unfold mode_ok. destruct pcdata_only; [done|]. by split_and!.
  - exact Hf.
  - right. split; try done. left. discriminate.
Qed.

Definition demo_parser : hubbub_parser demo_T unit :=
  {| p_tok := fresh_tokeniser logging []; p_tb := None |}.

#[local] Existing Instance pcdata_coverage.

Lemma demo_parser_opened :
  opened picky_open ascii_iconv few_charsets few_names below_4GB (fun _ => 0) 3 lt_table 0 few_env
    (p_tok demo_parser).
Proof. by apply fresh_tokeniser_opened. Qed.

(** The same with a tree builder, whose client is the document tree of
    TreeConcrete.v, as the handler of the tokens. *)
Local Abbreviation tree_T :=
  (hubbub_tokeniser (parserutils_inputstream unit) parserutils_buffer (hubbub_treebuilder dom)).
Definition builder_handler : token_handler_fn (hubbub_treebuilder dom) :=
  tree_token_handler dom_malloc dom_alloc few_charsets (fun mibenum => Some (few_names mibenum)).

#[local] Instance tree_tb : TreeBuilderOps tree_T unit := {
  tb_create t :=
    (HUBBUB_OK, Some tt, set_tk_token_pw (after []) (set_tk_token_handler (Some builder_handler) t));
  tb_setopt tb _ := (HUBBUB_OK, tb)
}.

Definition tree_parser : hubbub_parser tree_T unit :=
  {| p_tok := fresh_tokeniser builder_handler (after []); p_tb := Some tt |}.

Lemma tree_parser_opened (coverage := every_model) :
  opened picky_open ascii_iconv few_charsets few_names below_4GB (fun _ => 0) 3 lt_table 0 few_env
    (p_tok tree_parser).
Proof.
  apply fresh_tokeniser_opened; [by apply tree_builder_quiet, dom_benign|].
  intros t token. by apply tree_token_handler_calm, dom_benign.
Qed.

(** A page that declares a charset iconv does not know, with an element whose
    text is not markup. *)
Definition demo_page : bytes := chars "<meta charset=x-none><title>a<b></title><p>c".

Lemma parse_chunk_safe_witness (coverage := every_model) :
  chunk_escapes picky_open ascii_iconv few_charsets few_names below_4GB lt_table 0
    5000 demo_page tree_parser \/
  exists e p', hubbub_parser_parse_chunk picky_open ascii_iconv few_charsets few_names below_4GB
      lt_table 0 5000 demo_page tree_parser = Some (e, p') /\
    (e = HUBBUB_OK \/ e = HUBBUB_PAUSED ->
     opened picky_open ascii_iconv few_charsets few_names below_4GB (fun _ => 0) 3 lt_table 0
       few_env (p_tok p') \/ caught (p_tok p')) /\
    (can_open picky_open few_charsets few_names -> e <> HUBBUB_BADENCODING).
Proof.
  apply (parse_chunk_safe picky_open ascii_iconv few_charsets few_names below_4GB (fun _ => 0) 3
    lt_table 0 few_env 5000 demo_page tree_parser lt_table_ok few_table_ok tree_parser_opened).
  vm_compute. reflexivity.
Defined.

(** From the octets to the document: the page falls back to Windows-1252, and
    the tree builder switches the tokeniser to RCDATA for the title. *)
Example demo_page_built :
  ('(_, p) ← hubbub_parser_parse_chunk picky_open ascii_iconv few_charsets few_names below_4GB
      lt_table 0 5000 demo_page tree_parser;
   '(e, p) ← hubbub_parser_completed picky_open ascii_iconv few_charsets few_names below_4GB
      lt_table 0 5000 p;
   Some (e, is_mibenum (tk_input (p_tok p)), tree_of 20 (tb_world (tk_token_pw (p_tok p))) DOCUMENT)) =
  Some (HUBBUB_OK, 2252,
    Node Document [elem "html"
      [elem "head" [Node (Element (chars "meta") [{| attr_ns := HUBBUB_NS_NULL;
                      attr_name := chars "charset"; attr_value := chars "x-none" |}]) [];
                    elem "title" [txt "a"; txt "<b>"]];
       elem "body" [elem "p" [txt "c"]]]]).
Proof. vm_compute. reflexivity. Qed.

Lemma parser_create_safe_witness :
  exists e r, hubbub_parser_create picky_open few_charsets few_names (fun _ => true)
      (Some name_w1252) true [] = Some (e, r) /\
    created picky_open ascii_iconv few_charsets few_names below_4GB (fun _ => 0) 3
      lt_table 0 few_env e r.
Proof.
  exact (parser_create_safe picky_open ascii_iconv few_charsets few_names (fun _ => true) below_4GB
    (fun _ => 0) 3 lt_table 0 few_env (Some name_w1252) true [] lt_table_ok few_table_ok
    demo_tb_installs).
Defined.

Lemma parser_completed_tells_end_witness :
  exists e p', hubbub_parser_completed picky_open ascii_iconv few_charsets few_names below_4GB
      lt_table 0 30 demo_parser = Some (e, p') /\
    (e = HUBBUB_OK ->
     @told_end _ _ _ _
       (stream_iface picky_open ascii_iconv few_charsets few_names below_4GB (fun _ => 0) 3 few_env)
       (p_tok p')).
Proof.
  destruct (parser_completed_tells_end picky_open ascii_iconv few_charsets few_names below_4GB
    (fun _ => 0) 3 lt_table 0 few_env 30 demo_parser lt_table_ok demo_parser_opened)
    as [[? _]|(e & p' & Hr & _ & Hend)].
  - intros pw tok. discriminate.
  - vm_compute. reflexivity.
  - discriminate.
  - exists e, p'. split; [exact Hr|]. intros He. exact (Hend He eq_refl).
Defined.

(** Feed a document in one chunk and end it: the result and the tokens. *)
Definition whole_document (iconv : unit -> bytes -> Z -> iconv_result unit) (data : bytes)
  : option (hubbub_error * list hubbub_token) :=
  '(_, p) ← hubbub_parser_parse_chunk picky_open iconv few_charsets few_names below_4GB
    lt_table 0 2200 data demo_parser;
  '(e, p) ← hubbub_parser_completed picky_open iconv few_charsets few_names below_4GB
    lt_table 0 2200 p;
  Some (e, tk_token_pw (p_tok p)).

(** A document that ends inside a character: iconv leaves the start of it, so
    the stream goes on asking for data.  Success is reported, but neither the
    last text nor the end of the file is told. *)
Example cut_character_hides_end :
  whole_document cut_iconv [97; 98] = Some (HUBBUB_OK, [TokenCharacter [97; 98]; TokenEOF]) /\
  whole_document cut_iconv [97; 98; 0xC3] = Some (HUBBUB_OK, []).
Proof. split; vm_compute; reflexivity. Qed.
