(* ===== verification/TreeProperties.v ===== *)
(** * TreeProperties: what the tree builder promises.

    The lemmas of TreeRules.v to TreeSession.v for runs of the functions, with
    witnesses on the document tree of TreeConcrete.v. *)
From Stdlib Require Ascii String.
From S2P Require Import Prelude.
From S2P Require Import Errors.
From S2P Require Import Detect.
From S2P Require Import Tokens.
From S2P Require Import TokeniserState.
From S2P Require Import TokeniserMonad.
From S2P Require Import TokeniserWp.
From S2P Require Import ElementType.
From S2P Require Import TreeState.
From S2P Require Import TreeRepr.
From S2P Require Import TreeStack.
From S2P Require Import TreeAdoption.
From S2P Require Import TreeBody.
From S2P Require Import TreeBuilder.
From S2P Require Import TreeRules.
From S2P Require Import TreeInv.
From S2P Require Import TreeSteps.
From S2P Require Import TreePops.
From S2P Require Import TreeRounds.
From S2P Require Import TreeFlow.
From S2P Require Import TreePlaces.
From S2P Require Import TreeSession.
From stdpp Require Import gmap.
From S2P Require Import TreeConcrete.
Import String.StringSyntax.
Local Open Scope string_scope.
Local Open Scope Z_scope.

(** ** A state for the witnesses

    After [<div><b><p>x]: the stack is P, B, DIV, BODY, HTML, and B is in the
    list of formatting elements. *)
Definition opened : hubbub_treebuilder dom := after [start "div"; start "b"; start "p"; text "x"].
Definition opened_rest : rest_view :=
  {| rv_mode := IN_BODY; rv_collect_mode := INITIAL; rv_head_element := 3; rv_document := DOCUMENT;
     rv_tree_handler := 1; rv_token := text "x" |}.
Definition opened_known : list Z := [7; 6; 5; 4; 3; 2].
Definition html_cell (n : Z) : element_context :=
  {| ec_ns := None; ec_type := Some ET.HTML; ec_tainted := None; ec_node := Some n |}.
Definition opened_pre : list element_context :=
  [new_cell HUBBUB_NS_HTML ET.P 7; new_cell HUBBUB_NS_HTML ET.B 6; new_cell HUBBUB_NS_HTML ET.DIV 5].
Definition opened_base : list element_context := [new_cell HUBBUB_NS_HTML ET.BODY 4; html_cell 2].
Definition opened_list : list (Z * item) := [(3, new_item HUBBUB_NS_HTML ET.B 6 3)].

Lemma opened_st : st opened_rest opened_known (opened_pre ++ opened_base) opened_list opened.
Proof.
  constructor.
  - vm_compute. reflexivity.
  - constructor; [done|vm_compute; reflexivity|vm_compute; discriminate|].
    eexists (drop 5 (tc_element_stack (tb_context opened))). vm_compute. reflexivity.
  - constructor; [|vm_compute; reflexivity..]. split; [repeat constructor; set_solver|vm_compute; set_solver].
  - vm_compute. repeat constructor.
Qed.

Lemma opened_ok : ok opened_rest opened_known (opened_pre ++ opened_base) opened_list opened.
Proof.
  split; [apply opened_st|]. constructor.
  - repeat split; cbn; eauto.
  - apply (bool_decide_unpack _). vm_compute. done.
  - apply (bool_decide_unpack _). vm_compute. done.
  - apply (bool_decide_unpack _). vm_compute. done.
  - repeat constructor.
  - repeat constructor.
  - intros d Hd _. apply list_elem_of_singleton in Hd as ->. by exists (new_cell HUBBUB_NS_HTML ET.B 6).
  - intros d Hd E. by apply list_elem_of_singleton in Hd as ->.
Qed.

(** After [<p><b></p>]: BODY and HTML, and B is in the list but not open. *)
Definition dormant_b : hubbub_treebuilder dom := after [start "p"; start "b"; end_tag "p"].
Definition dormant_rest : rest_view :=
  {| rv_mode := IN_BODY; rv_collect_mode := INITIAL; rv_head_element := 3; rv_document := DOCUMENT;
     rv_tree_handler := 1; rv_token := end_tag "p" |}.

Lemma dormant_ok :
  ok dormant_rest [6; 5; 4; 3; 2] opened_base [(3, new_item HUBBUB_NS_HTML ET.B 6 0)] dormant_b.
Proof.
  split; constructor.
  - vm_compute. reflexivity.
  - constructor; [done|vm_compute; reflexivity|vm_compute; discriminate|].
    eexists (drop 2 (tc_element_stack (tb_context dormant_b))). vm_compute. reflexivity.
  - constructor; [|vm_compute; reflexivity..]. split; [repeat constructor; set_solver|vm_compute; set_solver].
  - vm_compute. repeat constructor.
  - repeat split; cbn; eauto.
  - apply (bool_decide_unpack _). vm_compute. done.
  - apply (bool_decide_unpack _). vm_compute. done.
  - apply (bool_decide_unpack _). vm_compute. done.
  - repeat constructor.
  - constructor.
  - intros d Hd N. by apply list_elem_of_singleton in Hd as ->.
  - intros d Hd _. apply list_elem_of_singleton in Hd as ->. apply (bool_decide_unpack _). vm_compute. done.
Qed.

(** ** The adoption agency *)

(** How an operation of the tree builder ends: with HUBBUB_OK and [P] of the
    state, or with an error of the client's or of the memory, and the tree
    builder can still be destroyed. *)
Definition ends {W} `{!TreeHandler W, !TreeHandlerLaws W} (P : hubbub_treebuilder W -> Prop)
    (m : comp (hubbub_treebuilder W) hubbub_error) (t : hubbub_treebuilder W) : Prop :=
  exists e t', run_comp m t = Some (e, t') /\ result P e t'.

Lemma ends_wp {W} `{!TreeHandler W, !TreeHandlerLaws W} (P : hubbub_treebuilder W -> Prop) m t :
  wp m (result P) (result P) t -> ends P m t.
Proof. apply wp_run. Qed.

(** The element of the last item of [type] is taken off the stack, and what is
    above [u] was there before or is a clone of the element. *)
Definition adopted_from {W} `{!TreeHandler W, !TreeHandlerLaws W} (type : element_type) (R : rest_view)
    (X : list Z) (pre u : list element_context) (l : list (Z * item)) (t : hubbub_treebuilder W) : Prop :=
  exists X' pre' u' l', X ⊆ X' /\ alike u u' /\ ok R X' (pre' ++ u') l' t /\
    Forall (fun c => ty c = type \/ ty c ∈ map ty pre) pre' /\
    forall d, find_item type l None = Some d -> it_node d ∉ map nd (pre' ++ u').

(** C7: The adoption agency algorithm ends and reads no cell or entry that is
    not there, from every state in which the invariant holds and the formatting
    element is not in scope below [pre].  When it answers HUBBUB_OK, either
    there was nothing to do and nothing has changed, or the invariant holds, the
    cells of [u] are as they were, and the formatting element is closed. *)
Theorem adoption_agency_ends {W} `{!TreeHandler W, !TreeHandlerLaws W} malloc type R X pre u l t :
  malloc_fresh malloc -> ok R X (pre ++ u) l t -> u <> [] -> scope type false u = 0 ->
  ends (fun t' => (t' = t /\ idle type (pre ++ u) l) \/ adopted_from type R X pre u l t')
    (process_0presentational_in_body malloc type) t.
Proof.
  intros Hm Hok Hu Hs. apply ends_wp.
  eapply (wp_adoption malloc Hm (fun y => y = type \/ y ∈ map ty pre) type); [by left|exact Hok|done|done| | |].
  - apply fails_result.
  - intros Hid. by left.
  - intros t' (X' & pre' & u' & l' & ? & ? & Hk & ? & ?). right.
    exists X', pre', u', l'. split_and!; try done. apply (kept_types _ _ _ _ Hk).
    apply Forall_forall. intros c Hc. right. by apply list_elem_of_fmap_2.
Qed.

Lemma adoption_agency_ends_witness :
  ends (fun t' => (t' = opened /\ idle ET.B (opened_pre ++ opened_base) opened_list) \/
          adopted_from ET.B opened_rest opened_known opened_pre opened_base opened_list t')
    (process_0presentational_in_body dom_malloc ET.B) opened.
Proof.
  apply (adoption_agency_ends dom_malloc ET.B opened_rest opened_known opened_pre opened_base opened_list opened).
  - apply dom_malloc_fresh.
  - apply opened_ok.
  - discriminate.
  - reflexivity.
Defined.

(** ** Reconstruction *)

(** C8: Reconstructing the active formatting elements opens a clone of each of
    the last items of the list that are not open, as far as a marker or an item
    that is open, in the order of the list, and puts the clones in the list in
    their place, each at the index of its cell; the invariant holds. *)
Theorem reconstruct_reopens {W} `{!TreeHandler W, !TreeHandlerLaws W} alloc_ok R X s l t :
  alloc_limit alloc_ok -> ok R X s l t ->
  ends (fun t' => exists X' x y k s', X ⊆ X' /\ alike s s' /\ l = x ++ y /\ awake x /\ Forall dormant y.*2 /\
          map ty (rev k) = map it_type y.*2 /\
          ok R X' (k ++ s') (x ++ renewed (zlen s) y (map nd (rev k))) t')
    (reconstruct_active_formatting_list alloc_ok) t.
Proof.
  intros Hl Hok. apply ends_wp. eapply wp_reconstruct; [exact Hl|exact Hok|..].
  - intros e t'. apply fails_result.
  - intros X' x y k s' t' HX Ha -> Hx Hy Hk Hok'.
    exists X', x, y, k, s'. split_and!; try done. unfold reopened in Hk.
    clear -Hk. induction Hk as [|[p d] c y m Hc _ IH]; cbn; [done|]. f_equal; [|done].
    unfold ty. by rewrite Hc.
Qed.

Lemma reconstruct_reopens_witness :
  ends (fun t' => exists X' x y k s', [6; 5; 4; 3; 2] ⊆ X' /\ alike opened_base s' /\
          [(3, new_item HUBBUB_NS_HTML ET.B 6 0)] = x ++ y /\ awake x /\ Forall dormant y.*2 /\
          map ty (rev k) = map it_type y.*2 /\
          ok dormant_rest X' (k ++ s') (x ++ renewed 2 y (map nd (rev k))) t')
    (reconstruct_active_formatting_list dom_alloc) dormant_b.
Proof.
  apply (reconstruct_reopens dom_alloc dormant_rest [6; 5; 4; 3; 2] opened_base _ dormant_b).
  - apply dom_alloc_limit.
  - apply dormant_ok.
Defined.

(** ** Taking an element out of the stack *)

(** C28: element_stack_remove takes the cell at its index out of the stack, moves
    the cells above it down by one, and lowers the indices of their items in the
    list of formatting elements with them, so the invariant holds. *)
Theorem stack_remove_reindexes {W} `{!TreeHandler W, !TreeHandlerLaws W} R X a c b l (t : hubbub_treebuilder W) :
  ok R X (a ++ c :: b) l t -> b <> [] -> (forall d, d ∈ l.*2 -> it_index d <> zlen b) ->
  wp (element_stack_remove (zlen b))
    (fun c' t' => c' = c /\ ok R X (a ++ b) (lowered (zlen b) (zlen (a ++ b)) l) t') (fun _ _ => False) t.
Proof.
  intros [Hst Hi] Hb Hf. eapply (wp_stack_remove _ _ _ _ _ _ _ _ _ Hst Hb).
  - by eapply inv_owned.
  - by eapply cells_typed, Hi.
  - intros t' Hst'. split; [done|]. split; [done|by eapply inv_remove_cell].
Qed.

Lemma stack_remove_reindexes_witness :
  let a := [new_cell HUBBUB_NS_HTML ET.P 7; new_cell HUBBUB_NS_HTML ET.B 6] in
  wp (element_stack_remove 2)
    (fun c' t' => c' = new_cell HUBBUB_NS_HTML ET.DIV 5 /\
       ok opened_rest opened_known (a ++ opened_base) (lowered 2 4 opened_list) t') (fun _ _ => False) opened.
Proof.
  intros a. apply (stack_remove_reindexes opened_rest opened_known a (new_cell HUBBUB_NS_HTML ET.DIV 5) opened_base).
  - apply opened_ok.
  - discriminate.
  - intros d Hd. apply list_elem_of_singleton in Hd as ->. discriminate.
Defined.

(** ** The list of formatting elements *)

(** C29: On the linked entries, formatting_list_remove is the removal of an item
    from a list: it answers the entry of the item, and the links, the two ends
    and the memory that is left are those of the list without it. *)
Theorem formatting_list_remove_refines {W} `{!TreeHandler W, !TreeHandlerLaws W} R X s a p d b
    (t : hubbub_treebuilder W) :
  st R X s (a ++ (p, d) :: b) t ->
  wp (formatting_list_remove p)
    (fun e t' => e = entry_of d (last_ptr a) (head_ptr b) /\ st R X s (a ++ b) t') (fun _ _ => False) t.
Proof. intros Hst. eapply (wp_list_remove _ _ _ _ _ _ _ _ _ _ Hst). by intros t' ?. Qed.

Lemma formatting_list_remove_refines_witness :
  wp (formatting_list_remove 3)
    (fun e t' => e = entry_of (new_item HUBBUB_NS_HTML ET.B 6 3) NULL NULL /\
       st opened_rest opened_known (opened_pre ++ opened_base) [] t') (fun _ _ => False) opened.
Proof.
  apply (formatting_list_remove_refines opened_rest opened_known (opened_pre ++ opened_base) [] 3
           (new_item HUBBUB_NS_HTML ET.B 6 3) []).
  apply opened_st.
Defined.

(** C30: formatting_list_insert between two neighbours is the insertion of an
    item into a list, in memory that was not in use, and when there is none the
    list is as it was. *)
Theorem formatting_list_insert_refines {W} `{!TreeHandler W, !TreeHandlerLaws W} malloc ns type node index
    R X s a b (t : hubbub_treebuilder W) :
  malloc_fresh malloc -> st R X s (a ++ b) t ->
  wp (formatting_list_insert malloc (last_ptr a) (head_ptr b) ns type node index)
    (fun e t' => (e = HUBBUB_OK /\ exists p, (p ∉ (a ++ b).*1) /\
                    st R X s (a ++ (p, new_item ns type node index) :: b) t') \/
                 (e = HUBBUB_NOMEM /\ st R X s (a ++ b) t')) (fun _ _ => False) t.
Proof.
  intros Hm Hst. eapply (wp_list_insert malloc Hm _ _ _ _ _ _ _ _ _ _ _ _ Hst).
  - intros p t' _ Hst'. left. split; [done|]. exists p. split; [|done].
    pose proof (ac_ptrs _ _ (st_active _ _ _ _ _ Hst')) as Hg. by apply good_ptrs_mid in Hg as (_ & ? & _).
  - intros t' Hst'. by right.
Qed.

Lemma formatting_list_insert_refines_witness :
  wp (formatting_list_insert dom_malloc 3 NULL HUBBUB_NS_HTML ET.I 7 4)
    (fun e t' => (e = HUBBUB_OK /\ exists p, (p ∉ (opened_list ++ []).*1) /\
          st opened_rest opened_known (opened_pre ++ opened_base)
            (opened_list ++ (p, new_item HUBBUB_NS_HTML ET.I 7 4) :: []) t') \/
       (e = HUBBUB_NOMEM /\ st opened_rest opened_known (opened_pre ++ opened_base) (opened_list ++ []) t'))
    (fun _ _ => False) opened.
Proof.
  apply (formatting_list_insert_refines dom_malloc HUBBUB_NS_HTML ET.I 7 4 opened_rest opened_known
           (opened_pre ++ opened_base) opened_list []).
  - apply dom_malloc_fresh.
  - apply opened_st.
Defined.

(** ** Scope *)

(** C31: element_in_scope answers the index of the innermost open element of the
    type, unless a table or, outside tables, an element that starts a scope is
    above it, and changes nothing. *)
Theorem element_in_scope_correct {W} `{!TreeHandler W, !TreeHandlerLaws W} type in_table R X s l
    (t : hubbub_treebuilder W) :
  ok R X s l t -> element_in_scope type in_table t = Ok (scope type in_table s) t.
Proof.
  intros [Hst Hi].
  assert (H : wp (element_in_scope type in_table) (fun n t' => n = scope type in_table s /\ t' = t)
                (fun _ _ => False) t).
  { eapply (wp_element_in_scope _ _ _ _ _ _ _ _ _ Hst); [apply Hi|done]. }
  unfold wp in H. destruct (element_in_scope type in_table t); [|done..]. by destruct H as [-> ->].
Qed.

Lemma element_in_scope_correct_witness :
  element_in_scope ET.DIV false opened = Ok 2 opened /\ element_in_scope ET.LI false opened = Ok 0 opened.
Proof.
  split.
  - apply (element_in_scope_correct ET.DIV false opened_rest opened_known (opened_pre ++ opened_base) opened_list).
    apply opened_ok.
  - apply (element_in_scope_correct ET.LI false opened_rest opened_known (opened_pre ++ opened_base) opened_list).
    apply opened_ok.
Defined.

(** ** Inserting elements *)

(** C26: Inserting an element keeps the stack well-formed: below the cell of the
    tag's element, in the namespace of HTML, whose node is none that the client
    knew before, are the cells there were, and all nodes of the stack are
    distinct; when it fails no cell has been added. *)
Theorem insert_element_typed {W} `{!TreeHandler W, !TreeHandlerLaws W} alloc_ok tag R X s l
    (t : hubbub_treebuilder W) :
  alloc_limit alloc_ok -> tag_ns tag = HUBBUB_NS_HTML -> ok R X s l t ->
  exists e t', run_comp (insert_element alloc_ok tag true) t = Some (e, t') /\
    if bool_decide (e = HUBBUB_OK)
    then exists s' n, alike s s' /\ (n ∉ X) /\
           ok R (n :: X) (new_cell HUBBUB_NS_HTML (element_type_from_name (tag_name tag)) n :: s') l t'
    else exists X' s', X ⊆ X' /\ alike s s' /\ ok R X' s' l t'.
Proof.
  intros Hl Hns [Hst Hi].
  destruct (wp_run (insert_element alloc_ok tag true) (fun e t' =>
    (e = HUBBUB_OK /\ exists s' n, alike s s' /\ (n ∉ X) /\ ok R (n :: X) (tag_cell tag n :: s') l t') \/
    failed R X s l e t') t) as (e & t' & Hr & H).
  - eapply wp_insert_element; [exact Hl|exact Hst|apply Hi|by right|].
    intros s' n t' Ha Hn Hst'. left. split; [done|]. exists s', n. split_and!; try done.
    split; [done|]. by eapply inv_insert.
  - exists e, t'. split; [done|]. destruct H as [(-> & s' & n & H)|(He & _ & X' & s' & HX & Ha & Hst')].
    + rewrite bool_decide_true by done. exists s', n. unfold tag_cell in H. by rewrite Hns in H.
    + rewrite bool_decide_false by done. exists X', s'. split_and!; try done.
      split; [done|]. eapply inv_known; [by eapply inv_alike|done].
Qed.

Lemma insert_element_typed_witness :
  exists e t', run_comp (insert_element dom_alloc (made_tag (chars "em") []) true) opened = Some (e, t') /\
    if bool_decide (e = HUBBUB_OK)
    then exists s' n, alike (opened_pre ++ opened_base) s' /\ (n ∉ opened_known) /\
           ok opened_rest (n :: opened_known)
             (new_cell HUBBUB_NS_HTML (element_type_from_name (chars "em")) n :: s') opened_list t'
    else exists X' s', opened_known ⊆ X' /\ alike (opened_pre ++ opened_base) s' /\
           ok opened_rest X' s' opened_list t'.
Proof.
  apply (insert_element_typed dom_alloc (made_tag (chars "em") []) opened_rest opened_known
           (opened_pre ++ opened_base) opened_list opened).
  - apply dom_alloc_limit.
  - reflexivity.
  - apply opened_ok.
Defined.

(** ** Destruction *)

(** C25: A tree builder can be destroyed in any state that [lasting] describes,
    after errors too, and every entry of its list of formatting elements is
    freed. *)
Theorem destroy_frees_entries {W} `{!TreeHandler W, !TreeHandlerLaws W} (t : hubbub_treebuilder W) :
  lasting t -> exists t', run_comp hubbub_treebuilder_destroy t = Some (HUBBUB_OK, t') /\ tb_entries t' = ∅.
Proof.
  intros H. destruct (wp_run hubbub_treebuilder_destroy (fun e t' => e = HUBBUB_OK /\ tb_entries t' = ∅) t)
    as (e & t' & Hr & -> & Ht').
  - by apply wp_destroy.
  - eauto.
Qed.

Lemma destroy_frees_entries_witness :
  tb_entries opened <> ∅ /\
  exists t', run_comp hubbub_treebuilder_destroy opened = Some (HUBBUB_OK, t') /\ tb_entries t' = ∅.
Proof.
  split; [vm_compute; discriminate|]. apply (destroy_frees_entries opened).
  exists opened_rest, opened_known, (opened_pre ++ opened_base), opened_list.
  split; [apply opened_st|]. apply cells_sound, opened_ok.
Defined.

(** ** Sessions *)

(** A table with text and a cell, the title in the head, and a list. *)
Definition session_tokens : list hubbub_token :=
  [start "title"; text "T"; end_tag "title"; start "p"; start "table"; text "a"; start "td"; text "b"; start "li"].

(** Each of the tokens is one that the tree builder may be given, and is accepted. *)
Fixpoint all_taken (tokens : list hubbub_token) (t : hubbub_treebuilder dom) : Prop :=
  match tokens with
  | [] => True
  | token :: tokens =>
      takes t token /\
      match run_comp (hubbub_treebuilder_token_handler dom_malloc dom_alloc dom_mibenum dom_mibname token) t with
      | Some (HUBBUB_OK, t) => all_taken tokens t
      | _ => False
      end
  end.

Local Abbreviation dom_session := (session dom_malloc dom_alloc dom_mibenum dom_mibname).

Lemma session_give tokens : forall t t',
  dom_session t -> all_taken tokens t -> give_tokens tokens t = Some t' -> dom_session t'.
Proof.
  induction tokens as [|token tokens IH]; intros t t' Hs; cbn [give_tokens all_taken]; [by intros _ [= <-]|].
  intros [Htk H]. destruct (run_comp _ t) as [[[] t1]|] eqn:Er; try done. apply IH; [|exact H].
  by eapply session_token; [exact Hs|exact Htk|exact Er|left].
Qed.

Definition new_builder : hubbub_treebuilder dom := default blank_builder (hubbub_treebuilder_create dom_alloc empty_dom).2.
Definition set_up : hubbub_treebuilder dom :=
  (hubbub_treebuilder_setopt (Parser.HUBBUB_TREEBUILDER_DOCUMENT_NODE DOCUMENT)
    (hubbub_treebuilder_setopt (Parser.HUBBUB_TREEBUILDER_TREE_HANDLER 1) new_builder).2).2.

Lemma session_set_up : dom_session set_up.
Proof. do 2 apply session_option. apply (session_created _ _ _ _ empty_dom). vm_compute. reflexivity. Qed.

Lemma session_page : dom_session (after session_tokens).
Proof.
  apply (session_give session_tokens set_up); [exact session_set_up| |vm_compute; reflexivity].
  vm_compute. repeat split; discriminate || (intros; discriminate) || tauto.
Qed.

(** C2: The tree builder is never stuck and always ends on the tokens it [takes]:
    all but the start tags of captions, svg and math and of an isindex with an
    attribute whose value is empty; while the text of an element is collected,
    text, end tags and the end of file.  Its client gives no node the handle of
    another, even one that is gone ([TreeHandlerLaws]).  In a state that options
    and tokens lead to from its creation, each token that it may be given is
    answered: no assertion fails, nothing that is not allocated or not set is
    read, and [token_fuel] bounds how often the token is handled again.  When
    the token is accepted the state left is good, and otherwise, for whatever
    reason the client or the memory failed, hubbub_treebuilder_destroy can end
    it and frees every entry of the list of formatting elements. *)
Theorem session_answers {W} `{!TreeHandler W, !TreeHandlerLaws W} malloc alloc_ok mibenum_from_name mibenum_to_name
    t token :
  malloc_fresh malloc -> alloc_limit alloc_ok ->
  th_encoding_change = None \/ names_known mibenum_from_name ->
  session malloc alloc_ok mibenum_from_name mibenum_to_name t -> takes t token ->
  exists e t', run_comp (hubbub_treebuilder_token_handler malloc alloc_ok mibenum_from_name mibenum_to_name token) t =
                 Some (e, t') /\ finished e t' /\
    exists t'', run_comp hubbub_treebuilder_destroy t' = Some (HUBBUB_OK, t'') /\ tb_entries t'' = ∅.
Proof.
  intros Hm Hl Hn Hs Htk.
  destruct (wp_run (hubbub_treebuilder_token_handler malloc alloc_ok mibenum_from_name mibenum_to_name token)
              finished t) as (e & t' & Hr & Hf).
  { apply wp_handler; try done. by eapply session_good_state. }
  exists e, t'. split_and!; [done|done|].
  destruct (wp_run hubbub_treebuilder_destroy (fun e t' => e = HUBBUB_OK /\ tb_entries t' = ∅) t')
    as (e2 & t'' & Hr' & -> & Ht'').
  - apply wp_destroy; [by eapply finished_lasting|done].
  - by exists t''.
Qed.

Lemma session_answers_witness :
  exists e t', run_comp (hubbub_treebuilder_token_handler dom_malloc dom_alloc dom_mibenum dom_mibname
                           (end_tag "table")) (after session_tokens) = Some (e, t') /\ finished e t' /\
    exists t'', run_comp hubbub_treebuilder_destroy t' = Some (HUBBUB_OK, t'') /\ tb_entries t'' = ∅.
Proof.
  apply (session_answers dom_malloc dom_alloc dom_mibenum dom_mibname (after session_tokens) (end_tag "table")).
  - apply dom_malloc_fresh.
  - apply dom_alloc_limit.
  - left. reflexivity.
  - apply session_page.
  - vm_compute. repeat split.
Defined.

(** C3: In every state of a session the stack of open elements is one that the
    insertion mode stands on: one cell without an element before the html
    element, html alone before the head, the head that is known on top of it in
    the head, a body under plain elements and nested tables, groups, rows and
    cells from the body on, a select on these, or framesets; while the text of
    an element is collected, the element is on top of the stack of the mode to
    go back to. *)
Theorem session_stacks_fit {W} `{!TreeHandler W, !TreeHandlerLaws W} malloc alloc_ok mibenum_from_name mibenum_to_name t :
  malloc_fresh malloc -> alloc_limit alloc_ok ->
  th_encoding_change = None \/ names_known mibenum_from_name ->
  session malloc alloc_ok mibenum_from_name mibenum_to_name t ->
  let mode := tc_mode (tb_context t) in let collect := tc_collect_mode (tb_context t) in
  (mode <> GENERIC_RCDATA -> place (rest t) mode [] t) /\
  (mode = GENERIC_RCDATA -> roomy collect = true /\ exists x, place (rest t) collect [x] t).
Proof.
  intros Hm Hl Hn Hs mode collect.
  assert (Hg : good t) by (by eapply session_good_state).
  destruct (good_modes t Hg) as (R & HR & H). rewrite HR.
  assert (mode = rv_mode R) as -> by (by rewrite <-HR). assert (collect = rv_collect_mode R) as -> by (by rewrite <-HR).
  destruct H as [(E & H)|(N & H)]; (split; [done|]); done.
Qed.

Lemma session_stacks_fit_witness :
  (tc_mode (tb_context (after session_tokens)) <> GENERIC_RCDATA ->
     place (rest (after session_tokens)) (tc_mode (tb_context (after session_tokens))) [] (after session_tokens)) /\
  (tc_mode (tb_context (after session_tokens)) = GENERIC_RCDATA ->
     roomy (tc_collect_mode (tb_context (after session_tokens))) = true /\
     exists x, place (rest (after session_tokens)) (tc_collect_mode (tb_context (after session_tokens))) [x]
                 (after session_tokens)).
Proof.
  apply (session_stacks_fit dom_malloc dom_alloc dom_mibenum dom_mibname (after session_tokens)).
  - apply dom_malloc_fresh.
  - apply dom_alloc_limit.
  - left. reflexivity.
  - apply session_page.
Defined.

(** ** Documents *)

Definition page (body : list tree) : option tree :=
  Some (Node Document [elem "html" [elem "head" []; elem "body" body]]).

(** The tree builder makes of misnested and misplaced tags the documents
    that the algorithms of HTML prescribe: a block in a formatting element, an
    anchor in an anchor, formatting elements that go on in the next paragraph,
    text and elements in a table where there must be none, cells without a
    row, list items and options that are not closed, and a title in the body. *)
Theorem misnested_documents :
  build [start "b"; text "1"; start "p"; text "2"; end_tag "b"; text "3"; end_tag "p"] =
    page [elem "b" [txt "1"]; elem "p" [elem "b" [txt "2"]; txt "3"]] /\
  build [start "a"; text "1"; start "a"; text "2"] = page [elem "a" [txt "1"]; elem "a" [txt "2"]] /\
  build [start "p"; start "i"; text "1"; end_tag "p"; start "p"; text "2"] =
    page [elem "p" [elem "i" [txt "1"]]; elem "p" [elem "i" [txt "2"]]] /\
  build [start "table"; text "a"; start "td"; text "b"; start "td"; end_tag "table"] =
    page [txt "a"; elem "table" [elem "tbody" [elem "tr" [elem "td" [txt "b"]; elem "td" []]]]] /\
  build [start "ul"; start "li"; text "1"; start "li"; text "2"; end_tag "ul"] =
    page [elem "ul" [elem "li" [txt "1"]; elem "li" [txt "2"]]].
Proof. vm_compute. repeat split. Qed.

(** ** A caption that is closed with its table *)

Definition caption_document : list hubbub_token :=
  map start ["div"; "table"; "caption"; "button"] ++ map end_tag ["caption"; "table"; "div"] ++
  map start ["b"; "span"; "p"].

(** The types and the indices of the entries of the list of formatting
    elements, and the types of the open elements. *)
Definition entries_of (t : hubbub_treebuilder dom) : list (element_type * Z) :=
  (fun e => (fe_type e, fe_stack_index e)) <$> (map_to_list (tb_entries t)).*2.
Definition open_types (t : hubbub_treebuilder dom) : list (option element_type) :=
  map ec_type (take (S (Z.to_nat (tc_current_node (tb_context t)))) (tc_element_stack (tb_context t))).

(** handle_in_table gives the marker for a caption the index and the node of the
    table.  When the caption and the table have been closed, the marker is still
    in the list, with index 3 of the table; the span that is opened later gets
    that cell of the stack.  The adoption agency, for the end tag of the b
    element, takes the marker for an entry of the span, its bookmark names the
    entry that the agency itself frees, and the assertion of
    formatting_list_insert fails. *)
Example caption_marker_is_stale :
  open_types (after (take 3 caption_document)) =
    map Some [ET.HTML; ET.BODY; ET.DIV; ET.TABLE; ET.CAPTION] /\
  open_types (after (take 7 caption_document)) = map Some [ET.HTML; ET.BODY] /\
  entries_of (after (take 7 caption_document)) = [(ET.CAPTION, 3)] /\
  open_types (after caption_document) = map Some [ET.HTML; ET.BODY; ET.B; ET.UNKNOWN; ET.P] /\
  entries_of (after caption_document) = [(ET.B, 2); (ET.CAPTION, 3)] /\
  run_comp (hubbub_treebuilder_token_handler dom_malloc dom_alloc dom_mibenum dom_mibname (end_tag "b"))
    (after caption_document) = None.
Proof. vm_compute. repeat split. Qed.
