(* ===== verification/CssLexState.v ===== *)
(** * CssLexState: the state of the CSS lexer, how its functions run, and the
    emission of tokens (libcss/src/lex/lex.h and lex.c).

    A C function of type css_error over the lexer is a computation that yields
    its value, returns early with an error code, or is stuck: a failed assert,
    a read outside the memory a pointer designates, a null pointer that is
    followed, or a loop that has not ended within its fuel.  A pointer is the
    memory that can be read from it on. *)
From S2P Require Import Prelude.
From S2P Require Import Errors.
From S2P Require Import Utf8.
From S2P Require Import Interfaces.

(** ** Data *)

Inductive css_error :=
  | CSS_OK
  | CSS_NOMEM
  | CSS_BADPARM
  | CSS_INVALID
  | CSS_FILENOTFOUND
  | CSS_NEEDDATA
  | CSS_BADCHARSET
  | CSS_EOF
  | CSS_IMPORTS_PENDING
  | CSS_PROPERTY_NOT_SET.

#[export] Instance css_error_eq_dec : EqDecision css_error.
Proof. solve_decision. Defined.

(** A cast: the enumerations number their members alike. *)
Definition css_error_from_parserutils_error (error : parserutils_error) : css_error :=
  match error with
  | PARSERUTILS_OK => CSS_OK
  | PARSERUTILS_NOMEM => CSS_NOMEM
  | PARSERUTILS_BADPARM => CSS_BADPARM
  | PARSERUTILS_INVALID => CSS_INVALID
  | PARSERUTILS_FILENOTFOUND => CSS_FILENOTFOUND
  | PARSERUTILS_NEEDDATA => CSS_NEEDDATA
  | PARSERUTILS_BADENCODING => CSS_BADCHARSET
  | PARSERUTILS_EOF => CSS_EOF
  end.

Inductive css_token_type :=
  | CSS_TOKEN_IDENT | CSS_TOKEN_ATKEYWORD | CSS_TOKEN_HASH
  | CSS_TOKEN_FUNCTION | CSS_TOKEN_STRING | CSS_TOKEN_INVALID_STRING
  | CSS_TOKEN_URI | CSS_TOKEN_UNICODE_RANGE | CSS_TOKEN_CHAR
  | CSS_TOKEN_NUMBER | CSS_TOKEN_PERCENTAGE | CSS_TOKEN_DIMENSION
  | CSS_TOKEN_LAST_INTERN
  | CSS_TOKEN_CDO | CSS_TOKEN_CDC | CSS_TOKEN_S | CSS_TOKEN_COMMENT
  | CSS_TOKEN_INCLUDES | CSS_TOKEN_DASHMATCH | CSS_TOKEN_PREFIXMATCH
  | CSS_TOKEN_SUFFIXMATCH | CSS_TOKEN_SUBSTRINGMATCH | CSS_TOKEN_EOF.

#[export] Instance css_token_type_eq_dec : EqDecision css_token_type.
Proof. solve_decision. Defined.

(** [idata] is an interned string of the client, by its address; NULL is
    [None], for the data as well. *)
Record css_token := {
  tn_type : css_token_type;
  tn_data : option bytes;
  tn_len : Z;
  tn_idata : option Z;
  tn_col : Z;
  tn_line : Z
}.

Inductive lexer_state :=
  | sSTART | sATKEYWORD | sSTRING | sHASH | sNUMBER | sCDO | sCDC | sS
  | sCOMMENT | sMATCH | sURI | sIDENT | sESCAPEDIDENT | sURL | sUCR.

#[export] Instance lexer_state_eq_dec : EqDecision lexer_state.
Proof. solve_decision. Defined.

Record lexer_context := {
  lc_first : Z;
  lc_origBytes : Z;
  lc_lastWasStar : bool;
  lc_lastWasCR : bool;
  lc_bytesForURL : Z;
  lc_dataLenForURL : Z;
  lc_hexCount : Z
}.

(** The substate is a number: each state numbers its own. *)
Record css_lexer {St B : Type} := {
  lx_input : St;
  lx_bytesReadForToken : Z;
  lx_token : css_token;
  lx_escapeSeen : bool;
  lx_unescapedTokenData : option B;
  lx_state : lexer_state;
  lx_substate : Z;
  lx_context : lexer_context;
  lx_emit_comments : bool;
  lx_currentCol : Z;
  lx_currentLine : Z
}.
Arguments css_lexer : clear implicits.

(** ** Computations *)

Inductive lex_outcome (T A : Type) :=
  | Value (a : A) (t : T)
  | Returned (e : css_error) (t : T)
  | LexStuck.
Arguments Value {T A}.
Arguments Returned {T A}.
Arguments LexStuck {T A}.

Definition lexes (T A : Type) : Type := T -> lex_outcome T A.

Section Monad.
Context {T : Type}.

Definition give {A} (a : A) : lexes T A := fun t => Value a t.
Definition seq {A C} (m : lexes T A) (k : A -> lexes T C) : lexes T C := fun t =>
  match m t with
  | Value a t => k a t
  | Returned e t => Returned e t
  | LexStuck => LexStuck
  end.
Definition return_error {A} (e : css_error) : lexes T A := fun t => Returned e t.
Definition lex_stuck {A} : lexes T A := fun _ => LexStuck.
Definition field {A} (f : T -> A) : lexes T A := fun t => Value (f t) t.
Definition change (f : T -> T) : lexes T unit := fun t => Value tt (f t).
Definition lex_assert (b : bool) : lexes T unit := if b then give tt else lex_stuck.
Definition known {A} (o : option A) : lexes T A :=
  match o with Some a => give a | None => lex_stuck end.

(** [error = f(lexer)]: the early return of the callee is its value. *)
Definition invoke (m : lexes T css_error) : lexes T css_error := fun t =>
  match m t with
  | Value e t | Returned e t => Value e t
  | LexStuck => LexStuck
  end.

(** [error = f(lexer); if (error != CSS_OK) return error;] *)
Definition check (m : lexes T css_error) : lexes T unit :=
  seq (invoke m) (fun error =>
    if bool_decide (error = CSS_OK) then give tt else return_error error).

Definition run_lexer (m : lexes T css_error) (t : T) : option (css_error * T) :=
  match m t with
  | Value e t | Returned e t => Some (e, t)
  | LexStuck => None
  end.
End Monad.

Declare Scope lex_scope.
Delimit Scope lex_scope with lex.
Notation "'get!' x ':=' m 'in' k" := (seq m (fun x => k))
  (at level 10, x pattern, m at level 100, k at level 200) : lex_scope.
Notation "'run!' m 'in' k" := (seq m (fun _ => k))
  (at level 10, m at level 100, k at level 200) : lex_scope.
#[global] Open Scope lex_scope.

(** ** Assignments *)

Definition set_tn_type (x : css_token_type) (t : css_token) : css_token :=
  {| tn_type := x; tn_data := tn_data t; tn_len := tn_len t; tn_idata := tn_idata t;
     tn_col := tn_col t; tn_line := tn_line t |}.
Definition set_tn_data (x : option bytes) (t : css_token) : css_token :=
  {| tn_type := tn_type t; tn_data := x; tn_len := tn_len t; tn_idata := tn_idata t;
     tn_col := tn_col t; tn_line := tn_line t |}.
Definition set_tn_len (x : Z) (t : css_token) : css_token :=
  {| tn_type := tn_type t; tn_data := tn_data t; tn_len := x; tn_idata := tn_idata t;
     tn_col := tn_col t; tn_line := tn_line t |}.
Definition set_lc_first (x : Z) (t : lexer_context) : lexer_context :=
  {| lc_first := x; lc_origBytes := lc_origBytes t; lc_lastWasStar := lc_lastWasStar t;
     lc_lastWasCR := lc_lastWasCR t; lc_bytesForURL := lc_bytesForURL t;
     lc_dataLenForURL := lc_dataLenForURL t; lc_hexCount := lc_hexCount t |}.
Definition set_lc_origBytes (x : Z) (t : lexer_context) : lexer_context :=
  {| lc_first := lc_first t; lc_origBytes := x; lc_lastWasStar := lc_lastWasStar t;
     lc_lastWasCR := lc_lastWasCR t; lc_bytesForURL := lc_bytesForURL t;
     lc_dataLenForURL := lc_dataLenForURL t; lc_hexCount := lc_hexCount t |}.
Definition set_lc_lastWasStar (x : bool) (t : lexer_context) : lexer_context :=
  {| lc_first := lc_first t; lc_origBytes := lc_origBytes t; lc_lastWasStar := x;
     lc_lastWasCR := lc_lastWasCR t; lc_bytesForURL := lc_bytesForURL t;
     lc_dataLenForURL := lc_dataLenForURL t; lc_hexCount := lc_hexCount t |}.
Definition set_lc_lastWasCR (x : bool) (t : lexer_context) : lexer_context :=
  {| lc_first := lc_first t; lc_origBytes := lc_origBytes t;
     lc_lastWasStar := lc_lastWasStar t; lc_lastWasCR := x;
     lc_bytesForURL := lc_bytesForURL t; lc_dataLenForURL := lc_dataLenForURL t;
     lc_hexCount := lc_hexCount t |}.
Definition set_lc_bytesForURL (x : Z) (t : lexer_context) : lexer_context :=
  {| lc_first := lc_first t; lc_origBytes := lc_origBytes t;
     lc_lastWasStar := lc_lastWasStar t; lc_lastWasCR := lc_lastWasCR t;
     lc_bytesForURL := x; lc_dataLenForURL := lc_dataLenForURL t;
     lc_hexCount := lc_hexCount t |}.
Definition set_lc_dataLenForURL (x : Z) (t : lexer_context) : lexer_context :=
  {| lc_first := lc_first t; lc_origBytes := lc_origBytes t;
     lc_lastWasStar := lc_lastWasStar t; lc_lastWasCR := lc_lastWasCR t;
     lc_bytesForURL := lc_bytesForURL t; lc_dataLenForURL := x;
     lc_hexCount := lc_hexCount t |}.
Definition set_lc_hexCount (x : Z) (t : lexer_context) : lexer_context :=
  {| lc_first := lc_first t; lc_origBytes := lc_origBytes t;
     lc_lastWasStar := lc_lastWasStar t; lc_lastWasCR := lc_lastWasCR t;
     lc_bytesForURL := lc_bytesForURL t; lc_dataLenForURL := lc_dataLenForURL t;
     lc_hexCount := x |}.

Section Assignments.
Context {St B : Type}.
Definition set_lx_input (x : St) (t : css_lexer St B) : css_lexer St B :=
  {| lx_input := x; lx_bytesReadForToken := lx_bytesReadForToken t;
     lx_token := lx_token t; lx_escapeSeen := lx_escapeSeen t;
     lx_unescapedTokenData := lx_unescapedTokenData t; lx_state := lx_state t;
     lx_substate := lx_substate t; lx_context := lx_context t;
     lx_emit_comments := lx_emit_comments t; lx_currentCol := lx_currentCol t;
     lx_currentLine := lx_currentLine t |}.
Definition set_lx_bytesReadForToken (x : Z) (t : css_lexer St B) : css_lexer St B :=
  {| lx_input := lx_input t; lx_bytesReadForToken := x; lx_token := lx_token t;
     lx_escapeSeen := lx_escapeSeen t;
     lx_unescapedTokenData := lx_unescapedTokenData t; lx_state := lx_state t;
     lx_substate := lx_substate t; lx_context := lx_context t;
     lx_emit_comments := lx_emit_comments t; lx_currentCol := lx_currentCol t;
     lx_currentLine := lx_currentLine t |}.
Definition set_lx_token (x : css_token) (t : css_lexer St B) : css_lexer St B :=
  {| lx_input := lx_input t; lx_bytesReadForToken := lx_bytesReadForToken t;
     lx_token := x; lx_escapeSeen := lx_escapeSeen t;
     lx_unescapedTokenData := lx_unescapedTokenData t; lx_state := lx_state t;
     lx_substate := lx_substate t; lx_context := lx_context t;
     lx_emit_comments := lx_emit_comments t; lx_currentCol := lx_currentCol t;
     lx_currentLine := lx_currentLine t |}.
Definition set_lx_escapeSeen (x : bool) (t : css_lexer St B) : css_lexer St B :=
  {| lx_input := lx_input t; lx_bytesReadForToken := lx_bytesReadForToken t;
     lx_token := lx_token t; lx_escapeSeen := x;
     lx_unescapedTokenData := lx_unescapedTokenData t; lx_state := lx_state t;
     lx_substate := lx_substate t; lx_context := lx_context t;
     lx_emit_comments := lx_emit_comments t; lx_currentCol := lx_currentCol t;
     lx_currentLine := lx_currentLine t |}.
Definition set_lx_unescapedTokenData (x : option B) (t : css_lexer St B) : css_lexer St B :=
  {| lx_input := lx_input t; lx_bytesReadForToken := lx_bytesReadForToken t;
     lx_token := lx_token t; lx_escapeSeen := lx_escapeSeen t;
     lx_unescapedTokenData := x; lx_state := lx_state t; lx_substate := lx_substate t;
     lx_context := lx_context t; lx_emit_comments := lx_emit_comments t;
     lx_currentCol := lx_currentCol t; lx_currentLine := lx_currentLine t |}.
Definition set_lx_state (x : lexer_state) (t : css_lexer St B) : css_lexer St B :=
  {| lx_input := lx_input t; lx_bytesReadForToken := lx_bytesReadForToken t;
     lx_token := lx_token t; lx_escapeSeen := lx_escapeSeen t;
     lx_unescapedTokenData := lx_unescapedTokenData t; lx_state := x;
     lx_substate := lx_substate t; lx_context := lx_context t;
     lx_emit_comments := lx_emit_comments t; lx_currentCol := lx_currentCol t;
     lx_currentLine := lx_currentLine t |}.
Definition set_lx_substate (x : Z) (t : css_lexer St B) : css_lexer St B :=
  {| lx_input := lx_input t; lx_bytesReadForToken := lx_bytesReadForToken t;
     lx_token := lx_token t; lx_escapeSeen := lx_escapeSeen t;
     lx_unescapedTokenData := lx_unescapedTokenData t; lx_state := lx_state t;
     lx_substate := x; lx_context := lx_context t;
     lx_emit_comments := lx_emit_comments t; lx_currentCol := lx_currentCol t;
     lx_currentLine := lx_currentLine t |}.
Definition set_lx_context (x : lexer_context) (t : css_lexer St B) : css_lexer St B :=
  {| lx_input := lx_input t; lx_bytesReadForToken := lx_bytesReadForToken t;
     lx_token := lx_token t; lx_escapeSeen := lx_escapeSeen t;
     lx_unescapedTokenData := lx_unescapedTokenData t; lx_state := lx_state t;
     lx_substate := lx_substate t; lx_context := x;
     lx_emit_comments := lx_emit_comments t; lx_currentCol := lx_currentCol t;
     lx_currentLine := lx_currentLine t |}.
Definition set_lx_emit_comments (x : bool) (t : css_lexer St B) : css_lexer St B :=
  {| lx_input := lx_input t; lx_bytesReadForToken := lx_bytesReadForToken t;
     lx_token := lx_token t; lx_escapeSeen := lx_escapeSeen t;
     lx_unescapedTokenData := lx_unescapedTokenData t; lx_state := lx_state t;
     lx_substate := lx_substate t; lx_context := lx_context t; lx_emit_comments := x;
     lx_currentCol := lx_currentCol t; lx_currentLine := lx_currentLine t |}.
Definition set_lx_currentCol (x : Z) (t : css_lexer St B) : css_lexer St B :=
  {| lx_input := lx_input t; lx_bytesReadForToken := lx_bytesReadForToken t;
     lx_token := lx_token t; lx_escapeSeen := lx_escapeSeen t;
     lx_unescapedTokenData := lx_unescapedTokenData t; lx_state := lx_state t;
     lx_substate := lx_substate t; lx_context := lx_context t;
     lx_emit_comments := lx_emit_comments t; lx_currentCol := x;
     lx_currentLine := lx_currentLine t |}.
Definition set_lx_currentLine (x : Z) (t : css_lexer St B) : css_lexer St B :=
  {| lx_input := lx_input t; lx_bytesReadForToken := lx_bytesReadForToken t;
     lx_token := lx_token t; lx_escapeSeen := lx_escapeSeen t;
     lx_unescapedTokenData := lx_unescapedTokenData t; lx_state := lx_state t;
     lx_substate := lx_substate t; lx_context := lx_context t;
     lx_emit_comments := lx_emit_comments t; lx_currentCol := lx_currentCol t;
     lx_currentLine := x |}.
End Assignments.

(** ** Characters *)

Definition isDigit (c : Z) : bool := (0x30 <=? c) && (c <=? 0x39).
Definition isHex (c : Z) : bool :=
  isDigit c || ((0x61 <=? c) && (c <=? 0x66)) || ((0x41 <=? c) && (c <=? 0x46)).
Definition charToHex (c : Z) : Z :=
  let c := u8 (c - 0x30) in
  let c := if 9 <? c then u8 (c - 7) else c in
  if 15 <? c then u8 (c - 0x20) else c.

(** A backslash; ' ', CR, LF, FF and tab are the white space. *)
Definition bslash : Z := 0x5C.
Definition isSpace (c : Z) : bool :=
  (c =? 0x20) || (c =? 0x0D) || (c =? 0x0A) || (c =? 0x0C) || (c =? 0x09).
Definition isQuote (c : Z) : bool := (c =? 0x22) || (c =? 0x27).
Definition is_ascii_letter (c : Z) : bool :=
  ((0x61 <=? c) && (c <=? 0x7A)) || ((0x41 <=? c) && (c <=? 0x5A)).

Definition startNMChar (c : Z) : bool :=
  (c =? 0x5F) || is_ascii_letter c || isDigit c || (c =? 0x2D) || (0x80 <=? c) || (c =? bslash).
Definition startNMStart (c : Z) : bool :=
  (c =? 0x5F) || is_ascii_letter c || (0x80 <=? c) || (c =? bslash).
Definition startURLChar (c : Z) : bool :=
  (c =? 0x09) || (c =? 0x21) || ((0x23 <=? c) && (c <=? 0x26)) || (c =? 0x28) ||
  ((0x2A <=? c) && (c <=? 0x7E)) || (0x80 <=? c) || (c =? bslash).
Definition startStringChar (c : Z) : bool :=
  startURLChar c || (c =? 0x20) || (c =? 0x29).

Section Lexer.
Context {St B : Type} `{!InputStreamOps St} `{!ByteBufferOps B} `{!ByteBufferMakeOps B}.
Local Abbreviation T := (css_lexer St B).
Local Abbreviation M := (lexes (css_lexer St B)).

(** ** Reading the input *)

Definition peek_input (off : Z) : M peek_result := fun t =>
  match is_peek (lx_input t) off with
  | Some (r, s) => Value r (set_lx_input s t)
  | None => LexStuck
  end.

(** parserutils_inputstream_peek at an offset, returning its error unless that
    is the end of the input: [None]. *)
Definition look_at (off : Z) : M (option (bytes * Z)) :=
  get! r := peek_input off in
  match r with
  | PeekOk cptr clen => give (Some (cptr, clen))
  | PeekErr PARSERUTILS_EOF => give None
  | PeekErr perror => return_error (css_error_from_parserutils_error perror)
  end.

Definition look : M (option (bytes * Z)) :=
  get! n := field lx_bytesReadForToken in look_at n.

(** The octet [*cptr]. *)
Definition octet (cptr : bytes) : M Z := known (znth cptr 0).

(** [lexer->bytesReadForToken += n], [-= n], and [token.data.len -= n]. *)
Definition skip_bytes (n : Z) : M unit :=
  change (fun t => set_lx_bytesReadForToken (u64 (lx_bytesReadForToken t + n)) t).
Definition rewind (n : Z) : M unit :=
  change (fun t => set_lx_bytesReadForToken (u64 (lx_bytesReadForToken t - n)) t).
Definition change_token (f : css_token -> css_token) : M unit :=
  change (fun t => set_lx_token (f (lx_token t)) t).
Definition shorten (n : Z) : M unit :=
  change_token (fun k => set_tn_len (u64 (tn_len k - n)) k).
Definition change_context (f : lexer_context -> lexer_context) : M unit :=
  change (fun t => set_lx_context (f (lx_context t)) t).

(** [lexer->state = s; lexer->substate = n;] *)
Definition enter (s : lexer_state) (n : Z) : M unit :=
  run! change (set_lx_state s) in change (set_lx_substate n).
Definition substate (n : Z) : M unit := change (set_lx_substate n).

(** [lexer->currentCol = n; lexer->currentLine++;], and [currentCol += n]. *)
Definition new_line (n : Z) : M unit :=
  run! change (set_lx_currentCol n) in
  change (fun t => set_lx_currentLine (u32 (lx_currentLine t + 1)) t).
Definition add_col (n : Z) : M unit :=
  change (fun t => set_lx_currentCol (u32 (lx_currentCol t + n)) t).

(** parserutils_buffer_append to the unescaped data. *)
Definition unescaped_append (d : bytes) : M parserutils_error := fun t =>
  match lx_unescapedTokenData t with
  | None => LexStuck
  | Some b =>
      match bb_append b d with
      | Some (e, b) => Value e (set_lx_unescapedTokenData (Some b) t)
      | None => LexStuck
      end
  end.

Definition appendToTokenData (data : bytes) (len : Z) : M css_error :=
  get! seen := field lx_escapeSeen in
  run! (if seen : bool then
          get! d := known (mem_read 0 len data) in
          get! perror := unescaped_append d in
          match css_error_from_parserutils_error perror with
          | CSS_OK => give tt
          | error => return_error error
          end
        else give tt) in
  run! change_token (fun k => set_tn_len (u64 (tn_len k + len)) k) in
  give CSS_OK.

Definition APPEND (data : bytes) (len : Z) : M unit :=
  run! check (appendToTokenData data len) in
  run! skip_bytes len in
  add_col len.

(** ** Emitting a token *)

(** [t->data.data += n; t->data.len -= n;] *)
Definition strip_front (n : Z) : M unit := fun t =>
  let k := lx_token t in
  match tn_data k with
  | Some p =>
      if n <=? zlen p then
        Value tt (set_lx_token (set_tn_data (Some (zdrop n p)) (set_tn_len (u64 (tn_len k - n)) k)) t)
      else LexStuck
  | None => LexStuck
  end.

(** [while (isSpace(t->data.data[0])) { t->data.data++; t->data.len--; }] *)
Fixpoint skip_spaces (p : bytes) (len : Z) : option (bytes * Z) :=
  match p with
  | [] => None
  | c :: q => if isSpace c then skip_spaces q (u64 (len - 1)) else Some (p, len)
  end.

(** [p[i]], where [p] points to. *)
Definition byte_at (p : bytes) (i : Z) : option Z := if i <? zlen p then znth p i else None.

(** [while (t->data.len > 0 && isSpace(t->data.data[t->data.len - 1])) t->data.len--;] *)
Fixpoint drop_spaces (n : nat) (p : bytes) (len : Z) : option Z :=
  if len <=? 0 then Some len else
  c ← byte_at p (len - 1);
  if isSpace c then match n with O => None | S n => drop_spaces n p (len - 1) end
  else Some len.

Definition token_data : M (bytes * Z) :=
  get! k := field lx_token in
  get! p := known (tn_data k) in
  give (p, tn_len k).

Definition set_token_data (d : bytes * Z) : M unit :=
  change_token (fun k => set_tn_data (Some d.1) (set_tn_len d.2 k)).

(** A quote at the end goes, if there is one. *)
Definition strip_last_quote : M unit :=
  get! d := token_data in
  let '(p, len) := d in
  if 0 <? len then
    get! c := known (byte_at p (len - 1)) in
    if isQuote c then set_token_data (p, len - 1) else give tt
  else give tt.

Definition strip_uri : M unit :=
  run! strip_front 4 in
  get! d := token_data in
  get! d := known (skip_spaces d.1 d.2) in
  run! set_token_data d in
  get! c := octet d.1 in
  run! (if isQuote c then strip_front 1 else give tt) in
  run! shorten 1 in
  get! d := token_data in
  get! len := known (drop_spaces (length d.1) d.1 d.2) in
  run! set_token_data (d.1, len) in
  strip_last_quote.

Definition strip_token (type : css_token_type) : M unit :=
  match type with
  | CSS_TOKEN_ATKEYWORD | CSS_TOKEN_INVALID_STRING | CSS_TOKEN_HASH => strip_front 1
  | CSS_TOKEN_STRING => run! strip_front 1 in strip_last_quote
  | CSS_TOKEN_PERCENTAGE | CSS_TOKEN_FUNCTION => shorten 1
  | CSS_TOKEN_URI => strip_uri
  | CSS_TOKEN_UNICODE_RANGE => strip_front 2
  | CSS_TOKEN_COMMENT => run! strip_front 2 in shorten 2
  | _ => give tt
  end.

(** Where the data of the token starts: in the unescaped data, or where the
    input stream's buffer now is. *)
Definition token_pointer (type : css_token_type) : M (option bytes) :=
  get! seen := field lx_escapeSeen in
  if seen : bool then
    get! b := field lx_unescapedTokenData in
    get! b := known b in
    give (Some (bb_bytes b))
  else
    get! r := peek_input 0 in
    if bool_decide (type = CSS_TOKEN_EOF) then give None else
    match r with
    | PeekOk data _ => give (Some data)
    | PeekErr _ => lex_stuck
    end.

Definition emitToken (type : css_token_type) : M css_error :=
  run! change_token (set_tn_type type) in
  get! data := token_pointer type in
  run! change_token (set_tn_data data) in
  run! strip_token type in
  run! enter sSTART 0 in
  give CSS_OK.
End Lexer.

(** * The input consumers of the CSS lexer (libcss/src/lex/lex.c):
    digits, escapes, identifier characters, strings, URLs and white space.

    A loop of a function is a Fixpoint of its own; [fuel] bounds its turns. *)

Section Consumers.
Context {St B : Type} `{!InputStreamOps St} `{!ByteBufferOps B} `{!ByteBufferMakeOps B}.
Local Abbreviation T := (css_lexer St B).
Local Abbreviation M := (lexes (css_lexer St B)).

Fixpoint consumeDigits (fuel : nat) : M css_error :=
  match fuel with
  | O => lex_stuck
  | S fuel =>
      get! r := look in
      match r with
      | None => give CSS_OK
      | Some (cptr, clen) =>
          get! c := octet cptr in
          if isDigit c then run! APPEND cptr clen in consumeDigits fuel
          else give CSS_OK
      end
  end.

(** ** Escapes *)

(** The digits after the first: [count] more of them at most.  An error other
    than the end of the input rewinds what was read. *)
Definition look_or_rewind (off init : Z) : M (option (bytes * Z)) :=
  get! r := peek_input off in
  match r with
  | PeekOk cptr clen => give (Some (cptr, clen))
  | PeekErr PARSERUTILS_EOF => give None
  | PeekErr perror =>
      run! change (set_lx_bytesReadForToken init) in
      return_error (css_error_from_parserutils_error perror)
  end.

Fixpoint more_hex_digits (count : nat) (init ucs : Z) : M Z :=
  match count with
  | O => give ucs
  | S count =>
      get! n := field lx_bytesReadForToken in
      get! r := look_or_rewind n init in
      match r with
      | None => give ucs
      | Some (cptr, clen) =>
          get! c := octet cptr in
          if isHex c then
            run! skip_bytes clen in
            more_hex_digits count init (Z.lor (u32 (Z.shiftl ucs 4)) (charToHex c))
          else give ucs
      end
  end.

(** Sanitise UCS4 character *)
Definition sanitise (ucs : Z) : Z :=
  if (0x10FFFF <? ucs) || (ucs <=? 0x0008) || (ucs =? 0x000B) ||
     ((0x000E <=? ucs) && (ucs <=? 0x001F)) ||
     ((0x007F <=? ucs) && (ucs <=? 0x009F)) ||
     ((0xD800 <=? ucs) && (ucs <=? 0xDFFF)) ||
     ((0xFDD0 <=? ucs) && (ucs <=? 0xFDEF)) ||
     (Z.land ucs 0xFFFE =? 0xFFFE)
  then 0xFFFD
  else if ucs =? 0x000D then 0x000A
  else ucs.

Definition SIZEOF_UTF8 : Z := 6.

(** A trailing white space character: where it is read and how long it is, a
    CR LF being one, whose CR is accounted for at once. *)
Definition trailing_space (init : Z) : M (option (bytes * Z)) :=
  get! n := field lx_bytesReadForToken in
  get! r := look_or_rewind n init in
  match r with
  | None => give None
  | Some (pCR, clen) =>
      get! c := octet pCR in
      if c =? 0x0D then
        get! r := look_or_rewind (u64 (n + 1)) init in
        match r with
        | Some (cptr, clen) =>
            get! c := octet cptr in
            if c =? 0x0A then run! skip_bytes 1 in give (Some (cptr, clen))
            else give (Some (pCR, 1))
        | None => give (Some (pCR, 1))
        end
      else give (Some (pCR, clen))
  end.

Definition consumeUnicode (ucs : Z) : M css_error :=
  get! init := field lx_bytesReadForToken in
  get! ucs := more_hex_digits 5 init ucs in
  let ucs := sanitise ucs in
  get! utf8 := (match utf8_from_ucs4 ucs SIZEOF_UTF8 with
                | (PARSERUTILS_OK, utf8) => give utf8
                | _ => lex_stuck
                end) in
  get! space := trailing_space init in
  get! error := invoke (appendToTokenData utf8 (zlen utf8)) in
  if negb (bool_decide (error = CSS_OK)) then
    run! change (set_lx_bytesReadForToken init) in return_error error
  else
  match space with
  | None => give CSS_OK
  | Some (cptr, clen) =>
      get! c := octet cptr in
      run! (if isSpace c then skip_bytes clen else give tt) in
      run! (if (c =? 0x0D) || (c =? 0x0A) || (c =? 0x0C) then new_line 1
            else
              get! n := field lx_bytesReadForToken in
              add_col (n - init + 2)) in
      give CSS_OK
  end.

(** Make the buffer for the unescaped data, if there is none yet. *)
Definition create_unescaped : M unit :=
  get! b := field lx_unescapedTokenData in
  match b with
  | Some _ => give tt
  | None =>
      match bb_create with
      | (PARSERUTILS_OK, Some b) => change (set_lx_unescapedTokenData (Some b))
      | (perror, _) => return_error (css_error_from_parserutils_error perror)
      end
  end.

(** The first escape of a token: what was read before the backslash moves to
    the unescaped data. *)
Definition start_unescaped : M unit :=
  get! seen := field lx_escapeSeen in
  if seen : bool then give tt else
  get! n := field lx_bytesReadForToken in
  run! (if 1 <? n then
          get! r := peek_input 0 in
          match r with
          | PeekErr _ => lex_stuck
          | PeekOk sdata _ =>
              get! d := known (mem_read 0 (u64 (n - 1)) sdata) in
              get! perror := unescaped_append d in
              match css_error_from_parserutils_error perror with
              | CSS_OK => give tt
              | error => return_error error
              end
          end
        else give tt) in
  run! change_token (set_tn_len (u64 (n - 1))) in
  change (set_lx_escapeSeen true).

(** CR, and an LF after it, as LF. *)
Definition escaped_cr (clen : Z) : M css_error :=
  get! n := field lx_bytesReadForToken in
  get! r := look_at (u64 (n + clen)) in
  run! APPEND [0x0A] 1 in
  run! new_line 1 in
  run! (match r with
        | None => give tt
        | Some (cptr, clen) =>
            get! c := octet cptr in
            if c =? 0x0A then skip_bytes clen else give tt
        end) in
  give CSS_OK.

Definition isNewline (c : Z) : bool := (c =? 0x0A) || (c =? 0x0D) || (c =? 0x0C).

Definition consumeEscape (nl : bool) : M css_error :=
  get! r := look in
  match r with
  | None => give CSS_EOF
  | Some (cptr, clen) =>
      get! c := octet cptr in
      if negb nl && isNewline c then give CSS_INVALID else
      run! create_unescaped in
      run! start_unescaped in
      if isHex c then
        run! skip_bytes clen in
        get! error := invoke (consumeUnicode (charToHex c)) in
        run! (if bool_decide (error = CSS_OK) then give tt else rewind clen) in
        give error
      else if nl && (c =? 0x0D) then escaped_cr clen
      else
        run! (if nl && ((c =? 0x0A) || (c =? 0x0C)) then new_line 0
              else if negb (isNewline c) then add_col 1
              else give tt) in
        run! APPEND cptr clen in
        give CSS_OK
  end.

(** ** Runs of characters *)

(** The body that consumeNMChars and consumeURLChars share: characters of a
    class and escapes, until one that is neither. *)
Fixpoint consume_class (fuel : nat) (startChar : Z -> bool) : M css_error :=
  match fuel with
  | O => lex_stuck
  | S fuel =>
      get! r := look in
      match r with
      | None => give CSS_OK
      | Some (cptr, clen) =>
          get! c := octet cptr in
          run! (if startChar c && negb (c =? bslash) then APPEND cptr clen else give tt) in
          if c =? bslash then
            run! skip_bytes clen in
            get! error := invoke (consumeEscape false) in
            match error with
            | CSS_OK => if startChar c then consume_class fuel startChar else give CSS_OK
            | CSS_EOF | CSS_INVALID => run! rewind clen in return_error CSS_OK
            | _ => run! rewind clen in return_error error
            end
          else if startChar c then consume_class fuel startChar else give CSS_OK
      end
  end.

Definition consumeNMChars (fuel : nat) : M css_error := consume_class fuel startNMChar.
Definition consumeURLChars (fuel : nat) : M css_error := consume_class fuel startURLChar.

Fixpoint consumeStringChars (fuel : nat) : M css_error :=
  match fuel with
  | O => lex_stuck
  | S fuel =>
      get! r := look in
      match r with
      | None => give CSS_OK
      | Some (cptr, clen) =>
          get! c := octet cptr in
          run! (if startStringChar c && negb (c =? bslash) then APPEND cptr clen else give tt) in
          run! (if c =? bslash then
                  run! skip_bytes clen in
                  get! error := invoke (consumeEscape true) in
                  match error with
                  | CSS_OK => give tt
                  | CSS_EOF => return_error error
                  | _ => run! rewind clen in return_error error
                  end
                else give tt) in
          if startStringChar c then consumeStringChars fuel else give CSS_OK
      end
  end.

(** The loop of consumeString, which ends at the closing quote. *)
Fixpoint string_loop (fuel : nat) (quote : Z) : M css_error :=
  match fuel with
  | O => lex_stuck
  | S n =>
      get! r := look in
      match r with
      | None => give CSS_EOF
      | Some (cptr, clen) =>
          get! c := octet cptr in
          if c =? (if quote =? 0x22 then 0x27 else 0x22) then
            run! APPEND cptr clen in string_loop n quote
          else if startStringChar c then
            run! check (consumeStringChars fuel) in
            if c =? quote then run! APPEND cptr clen in give CSS_OK
            else string_loop n quote
          else if negb (c =? quote) then return_error CSS_INVALID
          else run! APPEND cptr clen in give CSS_OK
      end
  end.

Definition consumeString (fuel : nat) : M css_error :=
  get! cx := field lx_context in string_loop fuel (lc_first cx).

(** White space, counting lines. *)
Definition set_last_cr (b : bool) : M unit := change_context (set_lc_lastWasCR b).

Definition count_line (c : Z) : M unit :=
  run! (if (c =? 0x0A) || (c =? 0x0C) then new_line 1 else give tt) in
  get! cx := field lx_context in
  run! (if lc_lastWasCR cx && negb (c =? 0x0A) then new_line 1 else give tt) in
  set_last_cr (c =? 0x0D).

Fixpoint wchars_loop (fuel : nat) : M css_error :=
  match fuel with
  | O => lex_stuck
  | S fuel =>
      get! r := look in
      match r with
      | None => return_error CSS_OK
      | Some (cptr, clen) =>
          get! c := octet cptr in
          run! (if isSpace c then APPEND cptr clen else give tt) in
          run! count_line c in
          if isSpace c then wchars_loop fuel else give CSS_OK
      end
  end.

Definition consumeWChars (fuel : nat) : M css_error :=
  run! wchars_loop fuel in
  get! cx := field lx_context in
  run! (if lc_lastWasCR cx then new_line 1 else give tt) in
  give CSS_OK.
End Consumers.
