(* ===== verification/CssLexer.v ===== *)
(** * CssLexer: the state machine of the CSS lexer (libcss/src/lex/lex.c).

    One Definition per state function, a label of a function being a
    Definition of its own; a substate that no case of a switch names falls
    through the switch, as in C. *)
From S2P Require Import Prelude Errors Utf8 Interfaces CssLexState.

Section Lexer.
Context {St B : Type} `{!InputStreamOps St} `{!ByteBufferOps B} `{!ByteBufferMakeOps B}.
Context (fuel : nat).
Local Abbreviation T := (css_lexer St B).
Local Abbreviation M := (lexes (css_lexer St B)).

(** The next character, or at the end of the input the token the text makes. *)
Definition look_or_emit (type : css_token_type) (k : bytes -> Z -> Z -> M css_error)
  : M css_error :=
  get! r := look in
  match r with
  | None => emitToken type
  | Some (cptr, clen) => get! c := octet cptr in k cptr clen c
  end.

(** Give up [n] characters of the token. *)
Definition drop_and_emit (n : Z) (type : css_token_type) : M css_error :=
  run! rewind n in run! shorten n in emitToken type.

(** After an escape that may fail: with the end of the input or an invalid
    character, rewind the backslash and emit [type]. *)
Definition escape_or_emit (type : css_token_type) (k : M css_error) : M css_error :=
  get! error := invoke (consumeEscape false) in
  match error with
  | CSS_OK => k
  | CSS_EOF | CSS_INVALID => run! rewind 1 in emitToken type
  | _ => return_error error
  end.

(** ** AtKeyword: Initial = 0, Escape = 1, NMChar = 2 *)

Definition AtKeyword_nmchar : M css_error :=
  run! substate 2 in
  run! check (consumeNMChars fuel) in
  emitToken CSS_TOKEN_ATKEYWORD.

Definition AtKeyword_escape : M css_error :=
  run! substate 1 in escape_or_emit CSS_TOKEN_CHAR AtKeyword_nmchar.

Definition AtKeyword : M css_error :=
  get! s := field lx_substate in
  if s =? 0 then
    look_or_emit CSS_TOKEN_CHAR (fun cptr clen c =>
      if negb (startNMStart c) then emitToken CSS_TOKEN_CHAR
      else if negb (c =? bslash) then run! APPEND cptr clen in AtKeyword_nmchar
      else run! skip_bytes clen in AtKeyword_escape)
  else if s =? 2 then AtKeyword_nmchar
  else if s =? 1 then AtKeyword_escape
  else emitToken CSS_TOKEN_ATKEYWORD.

(** ** IdentOrFunction: Initial = 0, Bracket = 1 *)

(** [return emitToken(lexer, t->type, token)] *)
Definition emit_current_type : M css_error :=
  get! k := field lx_token in emitToken (tn_type k).

Definition IdentOrFunction_bracket : M css_error :=
  run! substate 1 in
  look_or_emit CSS_TOKEN_IDENT (fun cptr clen c =>
    run! (if c =? 0x28 then
            run! APPEND cptr clen in change_token (set_tn_type CSS_TOKEN_FUNCTION)
          else change_token (set_tn_type CSS_TOKEN_IDENT)) in
    emit_current_type).

Definition IdentOrFunction : M css_error :=
  get! s := field lx_substate in
  if s =? 0 then run! check (consumeNMChars fuel) in IdentOrFunction_bracket
  else if s =? 1 then IdentOrFunction_bracket
  else emit_current_type.

Definition enter_ident : M css_error := run! enter sIDENT 0 in IdentOrFunction.

(** ** NumberOrPercentageOrDimension: Initial = 0, Dot = 1, MoreDigits = 2,
    Suffix = 3, NMChars = 4, Escape = 5 *)

Definition Number_nmchars : M css_error :=
  run! substate 4 in
  run! check (consumeNMChars fuel) in
  emitToken CSS_TOKEN_DIMENSION.

Definition Number_escape : M css_error :=
  run! substate 5 in escape_or_emit CSS_TOKEN_NUMBER Number_nmchars.

(** A solitary '.' or '+' is a CHAR. *)
Definition solitary (t : T) : bool :=
  (tn_len (lx_token t) =? 1) &&
  ((lc_first (lx_context t) =? 0x2E) || (lc_first (lx_context t) =? 0x2B)).

Definition Number_end : M css_error :=
  get! alone := field solitary in
  if alone : bool then emitToken CSS_TOKEN_CHAR else emitToken CSS_TOKEN_NUMBER.

Definition Number_suffix : M css_error :=
  run! substate 3 in
  get! r := look in
  match r with
  | None => Number_end
  | Some (cptr, clen) =>
      get! c := octet cptr in
      get! alone := field solitary in
      if alone : bool then emitToken CSS_TOKEN_CHAR
      else if c =? 0x25 then run! APPEND cptr clen in emitToken CSS_TOKEN_PERCENTAGE
      else if negb (startNMStart c) then emitToken CSS_TOKEN_NUMBER
      else if negb (c =? bslash) then run! APPEND cptr clen in Number_nmchars
      else run! skip_bytes clen in Number_escape
  end.

Definition Number_more_digits : M css_error :=
  run! substate 2 in
  run! check (consumeDigits fuel) in
  get! n := field lx_bytesReadForToken in
  get! cx := field lx_context in
  run! (if u64 (n - lc_origBytes cx) =? 1 then run! rewind 1 in shorten 1 else give tt) in
  Number_suffix.

Definition Number_dot : M css_error :=
  run! substate 1 in
  get! r := look in
  match r with
  | None => Number_end
  | Some (cptr, clen) =>
      get! c := octet cptr in
      get! cx := field lx_context in
      if negb (c =? 0x2E) || (lc_first cx =? 0x2E) then Number_suffix
      else
        get! n := field lx_bytesReadForToken in
        run! change_context (set_lc_origBytes n) in
        run! APPEND cptr clen in
        Number_more_digits
  end.

Definition NumberOrPercentageOrDimension : M css_error :=
  get! s := field lx_substate in
  if s =? 0 then run! check (consumeDigits fuel) in Number_dot
  else if s =? 1 then Number_dot
  else if s =? 2 then Number_more_digits
  else if s =? 3 then Number_suffix
  else if s =? 4 then Number_nmchars
  else if s =? 5 then Number_escape
  else emitToken CSS_TOKEN_DIMENSION.

(** ** CDCOrIdentOrFunctionOrNPD: Initial = 0, Escape = 1, Gt = 2 *)

Definition CDC_escape : M css_error :=
  run! substate 1 in escape_or_emit CSS_TOKEN_CHAR enter_ident.

Definition CDC_gt : M css_error :=
  run! substate 2 in
  get! r := look in
  match r with
  | None => drop_and_emit 1 CSS_TOKEN_CHAR
  | Some (cptr, clen) =>
      get! c := octet cptr in
      if c =? 0x3E then
        run! APPEND cptr clen in
        run! change_token (set_tn_type CSS_TOKEN_CDC) in emit_current_type
      else if startNMStart c then
        if negb (c =? bslash) then run! APPEND cptr clen in enter_ident
        else
          run! skip_bytes clen in
          run! enter sIDENT 1 in CDC_escape
      else
        run! rewind 1 in run! shorten 1 in
        run! change_token (set_tn_type CSS_TOKEN_CHAR) in emit_current_type
  end.

Definition CDCOrIdentOrFunctionOrNPD : M css_error :=
  get! s := field lx_substate in
  if s =? 0 then
    look_or_emit CSS_TOKEN_CHAR (fun cptr clen c =>
      if isDigit c || (c =? 0x2E) then
        run! APPEND cptr clen in
        run! enter sNUMBER 0 in
        run! change_context (set_lc_first c) in
        NumberOrPercentageOrDimension
      else if negb (c =? 0x2D) && negb (startNMStart c) then emitToken CSS_TOKEN_CHAR
      else
        run! (if negb (c =? bslash) then APPEND cptr clen else give tt) in
        if negb (c =? 0x2D) then
          if c =? bslash then run! skip_bytes clen in CDC_escape
          else enter_ident
        else CDC_gt)
  else if s =? 2 then CDC_gt
  else if s =? 1 then CDC_escape
  else emit_current_type.

(** ** CDO: Initial = 0, Dash1 = 1, Dash2 = 2 *)

Definition CDO_dash2 : M css_error :=
  run! substate 2 in
  get! r := look in
  match r with
  | None => drop_and_emit 2 CSS_TOKEN_CHAR
  | Some (cptr, clen) =>
      get! c := octet cptr in
      if c =? 0x2D then run! APPEND cptr clen in emitToken CSS_TOKEN_CDO
      else drop_and_emit 2 CSS_TOKEN_CHAR
  end.

Definition CDO_dash1 : M css_error :=
  run! substate 1 in
  get! r := look in
  match r with
  | None => drop_and_emit 1 CSS_TOKEN_CHAR
  | Some (cptr, clen) =>
      get! c := octet cptr in
      if c =? 0x2D then run! APPEND cptr clen in CDO_dash2
      else drop_and_emit 1 CSS_TOKEN_CHAR
  end.

Definition CDO : M css_error :=
  get! s := field lx_substate in
  if s =? 0 then
    look_or_emit CSS_TOKEN_CHAR (fun cptr clen c =>
      if c =? 0x21 then run! APPEND cptr clen in CDO_dash1
      else if c =? 0x3D then run! APPEND cptr clen in emitToken CSS_TOKEN_CHAR
      else emitToken CSS_TOKEN_CHAR)
  else if s =? 1 then CDO_dash1
  else if s =? 2 then CDO_dash2
  else emitToken CSS_TOKEN_CDO.

(** ** Comment: Initial = 0, InComment = 1 *)

Definition set_last_star (b : bool) : M unit := change_context (set_lc_lastWasStar b).

(** The [while (1)]; it emits the comment where it is left. *)
Fixpoint comment_loop (n : nat) : M css_error :=
  match n with
  | O => lex_stuck
  | S n =>
      look_or_emit CSS_TOKEN_EOF (fun cptr clen c =>
        run! APPEND cptr clen in
        get! cx := field lx_context in
        if lc_lastWasStar cx && (c =? 0x2F) then emitToken CSS_TOKEN_COMMENT
        else
          run! set_last_star (c =? 0x2A) in
          run! count_line c in
          comment_loop n)
  end.

Definition Comment_body : M css_error := run! substate 1 in comment_loop fuel.

Definition Comment : M css_error :=
  get! s := field lx_substate in
  if s =? 0 then
    look_or_emit CSS_TOKEN_CHAR (fun cptr clen c =>
      if negb (c =? 0x2A) then emitToken CSS_TOKEN_CHAR
      else run! APPEND cptr clen in Comment_body)
  else if s =? 1 then Comment_body
  else emitToken CSS_TOKEN_COMMENT.

(** ** The states without substates *)

Definition EscapedIdentOrFunction : M css_error :=
  get! error := invoke (consumeEscape false) in
  match error with
  | CSS_OK => enter_ident
  | CSS_EOF | CSS_INVALID => emitToken CSS_TOKEN_CHAR
  | _ => return_error error
  end.

Definition Hash : M css_error :=
  run! check (consumeNMChars fuel) in
  get! n := field lx_bytesReadForToken in
  get! cx := field lx_context in
  if lc_origBytes cx <? n then emitToken CSS_TOKEN_HASH else emitToken CSS_TOKEN_CHAR.

Definition Match : M css_error :=
  look_or_emit CSS_TOKEN_CHAR (fun cptr clen c =>
    if negb (c =? 0x3D) then emitToken CSS_TOKEN_CHAR
    else
      run! APPEND cptr clen in
      get! cx := field lx_context in
      let first := lc_first cx in
      if first =? 0x7E then emitToken CSS_TOKEN_INCLUDES
      else if first =? 0x7C then emitToken CSS_TOKEN_DASHMATCH
      else if first =? 0x5E then emitToken CSS_TOKEN_PREFIXMATCH
      else if first =? 0x24 then emitToken CSS_TOKEN_SUFFIXMATCH
      else if first =? 0x2A then emitToken CSS_TOKEN_SUBSTRINGMATCH
      else lex_stuck).

Definition State_S : M css_error :=
  run! check (consumeWChars fuel) in emitToken CSS_TOKEN_S.

Definition State_String : M css_error :=
  get! error := invoke (consumeString fuel) in
  match error with
  | CSS_OK => emitToken CSS_TOKEN_STRING
  | CSS_EOF | CSS_INVALID => emitToken CSS_TOKEN_INVALID_STRING
  | _ => return_error error
  end.

(** ** URI: Initial = 0, LParen = 1, W1 = 2, Quote = 3, URL = 4, W2 = 5,
    RParen = 6, String = 7 *)

(** Rewind to "url(". *)
Definition rewind_url : M css_error :=
  get! cx := field lx_context in
  run! change (set_lx_bytesReadForToken (lc_bytesForURL cx)) in
  run! change_token (set_tn_len (lc_dataLenForURL cx)) in
  emitToken CSS_TOKEN_FUNCTION.

Definition URI_rparen : M css_error :=
  run! substate 6 in
  get! r := look in
  match r with
  | None => rewind_url
  | Some (cptr, clen) =>
      get! c := octet cptr in
      if negb (c =? 0x29) then rewind_url
      else run! APPEND cptr clen in emitToken CSS_TOKEN_URI
  end.

Definition URI_w2 : M css_error :=
  run! substate 5 in
  run! check (consumeWChars fuel) in
  URI_rparen.

Definition URI_string : M css_error :=
  run! substate 7 in
  get! error := invoke (consumeString fuel) in
  match error with
  | CSS_INVALID => rewind_url
  | CSS_OK | CSS_EOF => run! set_last_cr false in URI_w2
  | _ => return_error error
  end.

Definition URI_url : M css_error :=
  run! substate 4 in
  run! check (consumeURLChars fuel) in
  run! set_last_cr false in
  URI_w2.

Definition URI_quote : M css_error :=
  run! substate 3 in
  get! r := look in
  match r with
  | None => rewind_url
  | Some (cptr, clen) =>
      get! c := octet cptr in
      if isQuote c then
        run! APPEND cptr clen in
        run! change_context (set_lc_first c) in
        URI_string
      else URI_url
  end.

Definition URI_w1 : M css_error :=
  run! substate 2 in
  run! check (consumeWChars fuel) in
  URI_quote.

Definition URI_lparen : M css_error :=
  run! substate 1 in
  look_or_emit CSS_TOKEN_IDENT (fun cptr clen c =>
    if c =? 0x28 then
      run! APPEND cptr clen in
      get! t := field (fun t => t) in
      run! change_context (fun cx =>
        set_lc_dataLenForURL (tn_len (lx_token t)) (set_lc_bytesForURL (lx_bytesReadForToken t) cx)) in
      run! set_last_cr false in
      URI_w1
    else enter_ident).

Definition URI : M css_error :=
  get! s := field lx_substate in
  if s =? 0 then
    look_or_emit CSS_TOKEN_IDENT (fun cptr clen c =>
      if (c =? 0x6C) || (c =? 0x4C) then run! APPEND cptr clen in URI_lparen
      else enter_ident)
  else if s =? 1 then URI_lparen
  else if s =? 2 then URI_w1
  else if s =? 3 then URI_quote
  else if s =? 4 then URI_url
  else if s =? 5 then URI_w2
  else if s =? 6 then URI_rparen
  else if s =? 7 then URI_string
  else emitToken CSS_TOKEN_URI.

(** ** UnicodeRange: Initial = 0, MoreDigits = 1 *)

Definition get_hexCount : M Z := get! cx := field lx_context in give (lc_hexCount cx).
Definition set_hexCount (n : Z) : M unit := change_context (set_lc_hexCount n).

(** [for (; hexCount < 6; hexCount++)]: it yields the last character seen, or
    [None] at the end of the input; without a turn, [c]. *)
Fixpoint range_loop (n : nat) (wanted : Z -> bool) (last : Z * (bytes * Z))
  : M (option (Z * (bytes * Z))) :=
  get! count := get_hexCount in
  if negb (count <? 6) then give (Some last) else
  match n with
  | O => lex_stuck
  | S n =>
      get! r := look in
      match r with
      | None => give None
      | Some (cptr, clen) =>
          get! c := octet cptr in
          if wanted c then
            run! APPEND cptr clen in
            run! set_hexCount (count + 1) in
            range_loop n wanted (c, (cptr, clen))
          else give (Some (c, (cptr, clen)))
      end
  end.

(** What a range in which no digits were read leaves: without them, the last
    character is given up. *)
Definition UnicodeRange_digits : M css_error :=
  run! substate 1 in
  get! r := range_loop 6 isHex (0, ([], 0)) in
  get! count := get_hexCount in
  if count =? 0 then drop_and_emit 1 CSS_TOKEN_UNICODE_RANGE
  else emitToken CSS_TOKEN_UNICODE_RANGE.

Definition UnicodeRange_dash (c : Z) (cptr : bytes) (clen : Z) : M css_error :=
  if negb (c =? 0x2D) then emitToken CSS_TOKEN_UNICODE_RANGE
  else
    run! APPEND cptr clen in
    run! set_hexCount 0 in
    UnicodeRange_digits.

Definition UnicodeRange : M css_error :=
  get! s := field lx_substate in
  if s =? 0 then
    get! r := range_loop 6 (fun c => isHex c || (c =? 0x3F)) (0, ([], 0)) in
    get! count := get_hexCount in
    match r with
    | None =>
        if count =? 0 then drop_and_emit 1 CSS_TOKEN_IDENT
        else emitToken CSS_TOKEN_UNICODE_RANGE
    | Some (c, (cptr, clen)) =>
        if count =? 0 then drop_and_emit 1 CSS_TOKEN_IDENT
        else if count =? 6 then
          look_or_emit CSS_TOKEN_UNICODE_RANGE (fun cptr clen c => UnicodeRange_dash c cptr clen)
        else UnicodeRange_dash c cptr clen
    end
  else if s =? 1 then UnicodeRange_digits
  else emitToken CSS_TOKEN_UNICODE_RANGE.

Definition URIOrUnicodeRangeOrIdentOrFunction : M css_error :=
  look_or_emit CSS_TOKEN_IDENT (fun cptr clen c =>
    if (c =? 0x72) || (c =? 0x52) then
      run! APPEND cptr clen in run! enter sURL 0 in URI
    else if c =? 0x2B then
      run! APPEND cptr clen in
      run! enter sUCR 0 in
      run! set_hexCount 0 in
      UnicodeRange
    else enter_ident).

(** ** Start *)

(** Past the input of the previous token, and ready for the next. *)
Definition reset_token : M unit :=
  get! n := field lx_bytesReadForToken in
  run! (if 0 <? n then
          change (fun t => set_lx_bytesReadForToken 0 (set_lx_input (is_advance (lx_input t) n) t))
        else give tt) in
  change (fun t =>
    set_lx_unescapedTokenData (bb_clear <$> lx_unescapedTokenData t)
      (set_lx_escapeSeen false
        (set_lx_token {| tn_type := CSS_TOKEN_EOF; tn_data := None; tn_len := 0;
                         tn_idata := None; tn_col := lx_currentCol t;
                         tn_line := lx_currentLine t |} t))).

(** [!lexer->emit_comments && error == CSS_OK && ( *token)->type ==
    CSS_TOKEN_COMMENT]: the comment is not for the client. *)
Definition hidden_comment (error : css_error) (t : T) : bool :=
  negb (lx_emit_comments t) && bool_decide (error = CSS_OK) &&
  bool_decide (tn_type (lx_token t) = CSS_TOKEN_COMMENT).

(** [>] and [>=] *)
Definition Start_gt : M css_error :=
  look_or_emit CSS_TOKEN_CHAR (fun cptr clen c =>
    run! (if c =? 0x3D then APPEND cptr clen else give tt) in
    emitToken CSS_TOKEN_CHAR).

(** The switch on the first character, [restart] being the label [start]. *)
Definition Start_switch (restart : M css_error) (c : Z) : M css_error :=
  if c =? 0x40 then run! enter sATKEYWORD 0 in AtKeyword
  else if isQuote c then
    run! enter sSTRING 0 in run! change_context (set_lc_first c) in State_String
  else if c =? 0x23 then
    run! enter sHASH 0 in
    get! n := field lx_bytesReadForToken in
    run! change_context (set_lc_origBytes n) in Hash
  else if isDigit c || (c =? 0x2E) || (c =? 0x2B) then
    run! enter sNUMBER 0 in run! change_context (set_lc_first c) in
    NumberOrPercentageOrDimension
  else if c =? 0x3C then run! enter sCDO 0 in CDO
  else if c =? 0x2D then run! enter sCDC 0 in CDCOrIdentOrFunctionOrNPD
  else if isSpace c then
    run! enter sS 0 in
    run! (if (c =? 0x0A) || (c =? 0x0C) then new_line 1 else give tt) in
    run! set_last_cr (c =? 0x0D) in State_S
  else if c =? 0x2F then
    run! enter sCOMMENT 0 in
    run! set_last_star false in
    run! set_last_cr false in
    get! error := invoke Comment in
    get! hidden := field (hidden_comment error) in
    if hidden : bool then restart else give error
  else if (c =? 0x7E) || (c =? 0x7C) || (c =? 0x5E) || (c =? 0x24) || (c =? 0x2A) then
    run! enter sMATCH 0 in run! change_context (set_lc_first c) in Match
  else if (c =? 0x75) || (c =? 0x55) then
    run! enter sURI 0 in URIOrUnicodeRangeOrIdentOrFunction
  else if is_ascii_letter c || (c =? 0x5F) then enter_ident
  else if c =? bslash then run! enter sESCAPEDIDENT 0 in EscapedIdentOrFunction
  else if c =? 0x3E then Start_gt
  else emitToken CSS_TOKEN_CHAR.

Fixpoint Start (n : nat) : M css_error :=
  match n with
  | O => lex_stuck
  | S n =>
      run! reset_token in
      get! r := look_at 0 in
      match r with
      | None => emitToken CSS_TOKEN_EOF
      | Some (cptr, clen) =>
          run! APPEND cptr clen in
          get! c := octet cptr in
          if (1 <? clen) || (0x80 <=? c) then enter_ident
          else Start_switch (Start n) c
      end
  end.

(** ** The interface *)

(** [token] is the lexer's own token when CSS_OK is answered.  In the state
    sURI the switch calls URI, as for sURL. *)
Definition css__lexer_get_token : M css_error :=
  get! s := field lx_state in
  match s with
  | sSTART => Start fuel
  | sATKEYWORD => AtKeyword
  | sSTRING => State_String
  | sHASH => Hash
  | sNUMBER => NumberOrPercentageOrDimension
  | sCDO => CDO
  | sCDC => CDCOrIdentOrFunctionOrNPD
  | sS => State_S
  | sCOMMENT =>
      get! error := invoke Comment in
      get! hidden := field (hidden_comment error) in
      if hidden : bool then Start fuel else return_error error
  | sMATCH => Match
  | sURI => URI
  | sIDENT => IdentOrFunction
  | sESCAPEDIDENT => EscapedIdentOrFunction
  | sURL => URI
  | sUCR => UnicodeRange
  end.
End Lexer.

(** ** Creation, options, destruction *)

Definition SIZEOF_LEXER : Z := 144.

(** malloc does not clear the lexer: what create does not set is as in [mem]. *)
Definition css__lexer_create {St B} (malloc_ok : Z -> bool) (mem : css_lexer St B) (input : St)
  : css_error * option (css_lexer St B) :=
  if negb (malloc_ok SIZEOF_LEXER) then (CSS_NOMEM, None) else
  (CSS_OK,
   Some {| lx_input := input; lx_bytesReadForToken := 0;
           lx_token := {| tn_type := CSS_TOKEN_EOF; tn_data := None; tn_len := 0;
                          tn_idata := tn_idata (lx_token mem);
                          tn_col := tn_col (lx_token mem); tn_line := tn_line (lx_token mem) |};
           lx_escapeSeen := false; lx_unescapedTokenData := None; lx_state := sSTART;
           lx_substate := 0; lx_context := lx_context mem; lx_emit_comments := false;
           lx_currentCol := 1; lx_currentLine := 1 |}).

Inductive css_lexer_opttype := CSS_LEXER_EMIT_COMMENTS | CSS_LEXER_OTHER (type : Z).

Definition css__lexer_setopt {St B} (lexer : css_lexer St B) (type : css_lexer_opttype)
    (emit_comments : bool) : css_error * css_lexer St B :=
  match type with
  | CSS_LEXER_EMIT_COMMENTS => (CSS_OK, set_lx_emit_comments emit_comments lexer)
  | CSS_LEXER_OTHER _ => (CSS_BADPARM, lexer)
  end.

(** What destroying the lexer frees besides the lexer itself. *)
Definition css__lexer_destroy {St B} (lexer : css_lexer St B) : css_error * option B :=
  (CSS_OK, lx_unescapedTokenData lexer).
