(* ===== verification/CssLexRef.v ===== *)
(** * CssLexRef: what a token of CSS is, on a text that is there as a whole.

    A scanner reads a text from a cursor on, a position and the token's text
    so far, in which escapes are replaced by what they stand for.  It yields
    nothing when it has to look past the end of a text that may still grow;
    [final] says that it will not.  There is no state machine, no buffer and
    nothing to restart here: the productions that the comments of lex.c give
    are read off directly.  CssLexStates.v relates each state function of the lexer
    to them and CssLexProperties.v the lexer as a whole. *)
From S2P Require Import Prelude Errors Utf8 CssLexState.

Definition cursor : Type := Z * bytes.
Definition scan (A : Type) : Type := bytes -> bool -> cursor -> option (A * cursor).

(** ** Scanners *)

Definition sret {A} (a : A) : scan A := fun _ _ cur => Some (a, cur).
Definition sbind {A C} (m : scan A) (k : A -> scan C) : scan C := fun text final cur =>
  match m text final cur with
  | Some (a, cur) => k a text final cur
  | None => None
  end.

Declare Scope scan_scope.
Delimit Scope scan_scope with scan.
Notation "'scan!' x ':=' m 'in' k" := (sbind m (fun x => k))
  (at level 10, x pattern, m at level 100, k at level 200) : scan_scope.
Notation "'then!' m 'in' k" := (sbind m (fun _ => k))
  (at level 10, m at level 100, k at level 200) : scan_scope.
#[local] Open Scope scan_scope.

(** The octet [k] places on, [None] at the end of a final text. *)
Definition next_at (k : Z) : scan (option Z) := fun text final '(p, o) =>
  match znth text (p + k) with
  | Some c => Some (Some c, (p, o))
  | None => if final then Some (None, (p, o)) else None
  end.
Definition next : scan (option Z) := next_at 0.

(** Copy a character; leave one out; write what was not in the text. *)
Definition take_char : scan unit := fun text _ '(p, o) =>
  match znth text p with
  | Some c => Some (tt, (p + char_len c, o ++ ztake (char_len c) (zdrop p text)))
  | None => None
  end.
Definition leave (n : Z) : scan unit := fun _ _ '(p, o) => Some (tt, (p + n, o)).
Definition put (d : bytes) : scan unit := fun _ _ '(p, o) => Some (tt, (p, o ++ d)).

Definition where_now : scan cursor := fun _ _ cur => Some (cur, cur).
Definition back_to (cur : cursor) : scan unit := fun _ _ _ => Some (tt, cur).
(** The last [n] octets are not part of the token. *)
Definition unread (n : Z) : scan unit := fun _ _ '(p, o) =>
  Some (tt, (p - n, ztake (zlen o - n) o)).

(** Repeat a step that goes on with [inl] and ends with [inr]; every step that
    goes on reads something. *)
Fixpoint iter_loop {S A} (n : nat) (step : S -> scan (S + A)) (s : S) : scan A :=
  fun text final cur =>
  match n with
  | O => None
  | Datatypes.S n =>
      match step s text final cur with
      | Some (inl s, cur) => iter_loop n step s text final cur
      | Some (inr a, cur) => Some (a, cur)
      | None => None
      end
  end.
Definition iter {S A} (step : S -> scan (S + A)) (s : S) : scan A := fun text final cur =>
  iter_loop (Datatypes.S (Z.to_nat (zlen text - cur.1))) step s text final cur.

(** As many characters of a class as there are. *)
Definition take_while (f : Z -> bool) : scan unit :=
  iter (fun _ => scan! c := next in
    match c with
    | Some c => if f c then then! take_char in sret (inl tt) else sret (inr tt)
    | None => sret (inr tt)
    end) tt.

(** ** Escapes *)

Inductive escape_result := EscapeOk | EscapeEnd | EscapeBad.

Fixpoint hex_digits (n : nat) (ucs : Z) : scan Z :=
  match n with
  | O => sret ucs
  | S n =>
      scan! c := next in
      match c with
      | Some c =>
          if isHex c then
            then! leave 1 in hex_digits n (Z.lor (u32 (Z.shiftl ucs 4)) (charToHex c))
          else sret ucs
      | None => sret ucs
      end
  end.

(** One white space character, or CR LF, after the digits. *)
Definition space_after : scan unit :=
  scan! c := next in
  match c with
  | Some c =>
      if c =? 0x0D then
        scan! d := next_at 1 in
        leave (if bool_decide (d = Some 0x0A) then 2 else 1)
      else if isSpace c then leave 1 else sret tt
  | None => sret tt
  end.

(** The code point whose first digit was read. *)
Definition code_point (ucs : Z) : scan escape_result :=
  scan! ucs := hex_digits 5 ucs in
  then! space_after in
  then! put (utf8_from_ucs4 (sanitise ucs) SIZEOF_UTF8).2 in
  sret EscapeOk.

(** After the backslash.  In a string a newline may be escaped, and CR LF
    becomes LF. *)
Definition escape (nl : bool) : scan escape_result :=
  scan! c := next in
  match c with
  | None => sret EscapeEnd
  | Some c =>
      if negb nl && isNewline c then sret EscapeBad
      else if isHex c then
        then! leave 1 in code_point (charToHex c)
      else if nl && (c =? 0x0D) then
        scan! d := next_at 1 in
        then! leave (if bool_decide (d = Some 0x0A) then 2 else 1) in
        then! put [0x0A] in
        sret EscapeOk
      else then! take_char in sret EscapeOk
  end.

(** Characters of a class and escapes; a backslash that escapes nothing is not
    read. *)
Definition chars_of (f : Z -> bool) : scan unit :=
  iter (fun _ => scan! c := next in
    match c with
    | None => sret (inr tt)
    | Some c =>
        if c =? bslash then
          scan! cur := where_now in
          then! leave 1 in
          scan! r := escape false in
          match r with
          | EscapeOk => sret (inl tt)
          | _ => then! back_to cur in sret (inr tt)
          end
        else if f c then then! take_char in sret (inl tt)
        else sret (inr tt)
    end) tt.

(** The rest of a string after its opening quote. *)
Definition string_rest (quote : Z) : scan escape_result :=
  iter (fun _ => scan! c := next in
    match c with
    | None => sret (inr EscapeEnd)
    | Some c =>
        if c =? bslash then
          then! leave 1 in
          scan! r := escape true in
          match r with
          | EscapeOk => sret (inl tt)
          | r => sret (inr r)
          end
        else if c =? quote then then! take_char in sret (inr EscapeOk)
        else if isQuote c || startStringChar c then then! take_char in sret (inl tt)
        else sret (inr EscapeBad)
    end) tt.

(** ** The productions *)

Definition token_is (type : css_token_type) : scan css_token_type := sret type.

(** The escape that starts a name, or the token without the backslash. *)
Definition escape_else (type : css_token_type) (k : scan css_token_type) : scan css_token_type :=
  scan! r := escape false in
  match r with
  | EscapeOk => k
  | _ => then! leave (-1) in token_is type
  end.

(** ident '(' or ident *)
Definition bracket : scan css_token_type :=
  scan! c := next in
  if bool_decide (c = Some 0x28) then then! take_char in token_is CSS_TOKEN_FUNCTION
  else token_is CSS_TOKEN_IDENT.
Definition name_rest : scan css_token_type := then! chars_of startNMChar in bracket.

(** '@' ident *)
Definition at_name : scan css_token_type :=
  then! chars_of startNMChar in token_is CSS_TOKEN_ATKEYWORD.
Definition at_escape : scan css_token_type := escape_else CSS_TOKEN_CHAR at_name.
Definition at_rest : scan css_token_type :=
  scan! c := next in
  match c with
  | Some c =>
      if negb (startNMStart c) then token_is CSS_TOKEN_CHAR
      else if c =? bslash then then! leave 1 in at_escape
      else then! take_char in at_name
  | None => token_is CSS_TOKEN_CHAR
  end.

(** num, num '%' and num ident; [first] is the first character after a minus
    sign, and a '.' or '+' alone is no number. *)
Definition lonely (first : Z) (o : bytes) : bool :=
  (zlen o =? 1) && ((first =? 0x2E) || (first =? 0x2B)).
Definition unit_name : scan css_token_type :=
  then! chars_of startNMChar in token_is CSS_TOKEN_DIMENSION.
Definition unit_escape : scan css_token_type := escape_else CSS_TOKEN_NUMBER unit_name.
Definition number_suffix (first : Z) : scan css_token_type :=
  scan! c := next in
  scan! cur := where_now in
  if lonely first cur.2 then token_is CSS_TOKEN_CHAR else
  match c with
  | Some c =>
      if c =? 0x25 then then! take_char in token_is CSS_TOKEN_PERCENTAGE
      else if negb (startNMStart c) then token_is CSS_TOKEN_NUMBER
      else if c =? bslash then then! leave 1 in unit_escape
      else then! take_char in unit_name
  | None => token_is CSS_TOKEN_NUMBER
  end.
(** The digits after a dot at [dot]; a dot without digits is given up. *)
Definition fraction (first dot : Z) : scan css_token_type :=
  then! take_while isDigit in
  scan! cur := where_now in
  then! (if cur.1 - dot =? 1 then unread 1 else sret tt) in
  number_suffix first.
Definition number_dot (first : Z) : scan css_token_type :=
  scan! c := next in
  if bool_decide (c = Some 0x2E) && negb (first =? 0x2E) then
    scan! cur := where_now in then! take_char in fraction first cur.1
  else number_suffix first.
Definition number_rest (first : Z) : scan css_token_type :=
  then! take_while isDigit in number_dot first.

(** A '-': "-->", a number, or an identifier.  With two dashes and no more the
    second is given up, but not when a backslash follows. *)
Definition dash_escape : scan css_token_type := escape_else CSS_TOKEN_CHAR name_rest.
Definition dash_dash : scan css_token_type :=
  scan! c := next in
  match c with
  | Some c =>
      if c =? 0x3E then then! take_char in token_is CSS_TOKEN_CDC
      else if startNMStart c then
        if c =? bslash then then! leave 1 in dash_escape
        else then! take_char in name_rest
      else then! unread 1 in token_is CSS_TOKEN_CHAR
  | None => then! unread 1 in token_is CSS_TOKEN_CHAR
  end.
Definition dash_rest : scan css_token_type :=
  scan! c := next in
  match c with
  | Some c =>
      if isDigit c || (c =? 0x2E) then then! take_char in number_rest c
      else if c =? 0x2D then then! take_char in dash_dash
      else if c =? bslash then then! leave 1 in dash_escape
      else if startNMStart c then then! take_char in name_rest
      else token_is CSS_TOKEN_CHAR
  | None => token_is CSS_TOKEN_CHAR
  end.

(** "<!--", "<=" *)
Definition cdo_dash2 : scan css_token_type :=
  scan! c := next in
  if bool_decide (c = Some 0x2D) then then! take_char in token_is CSS_TOKEN_CDO
  else then! unread 2 in token_is CSS_TOKEN_CHAR.
Definition cdo_dash1 : scan css_token_type :=
  scan! c := next in
  if bool_decide (c = Some 0x2D) then then! take_char in cdo_dash2
  else then! unread 1 in token_is CSS_TOKEN_CHAR.
Definition cdo_rest : scan css_token_type :=
  scan! c := next in
  if bool_decide (c = Some 0x21) then then! take_char in cdo_dash1
  else if bool_decide (c = Some 0x3D) then then! take_char in token_is CSS_TOKEN_CHAR
  else token_is CSS_TOKEN_CHAR.

(** The text of a comment; one that does not end is the end of the input. *)
Definition comment_rest : bool -> scan css_token_type :=
  iter (fun star => scan! c := next in
    match c with
    | Some c =>
        then! take_char in
        if star && (c =? 0x2F) then sret (inr CSS_TOKEN_COMMENT) else sret (inl (c =? 0x2A))
    | None => sret (inr CSS_TOKEN_EOF)
    end).
Definition slash_rest : scan css_token_type :=
  scan! c := next in
  if bool_decide (c = Some 0x2A) then then! take_char in comment_rest false
  else token_is CSS_TOKEN_CHAR.

(** A name that starts with an escape: the backslash is not part of it, but
    alone it is a token. *)
Definition escaped_name : scan css_token_type :=
  then! back_to (1, []) in
  scan! r := escape false in
  match r with
  | EscapeOk => name_rest
  | _ => then! back_to (1, [bslash]) in token_is CSS_TOKEN_CHAR
  end.

Definition hash_rest (start : Z) : scan css_token_type :=
  then! chars_of startNMChar in
  scan! cur := where_now in
  token_is (if start <? cur.1 then CSS_TOKEN_HASH else CSS_TOKEN_CHAR).

Definition match_type (first : Z) : css_token_type :=
  if first =? 0x7E then CSS_TOKEN_INCLUDES
  else if first =? 0x7C then CSS_TOKEN_DASHMATCH
  else if first =? 0x5E then CSS_TOKEN_PREFIXMATCH
  else if first =? 0x24 then CSS_TOKEN_SUFFIXMATCH
  else CSS_TOKEN_SUBSTRINGMATCH.
Definition match_rest (first : Z) : scan css_token_type :=
  scan! c := next in
  if bool_decide (c = Some 0x3D) then then! take_char in token_is (match_type first)
  else token_is CSS_TOKEN_CHAR.

Definition space_rest : scan css_token_type :=
  then! take_while isSpace in token_is CSS_TOKEN_S.

Definition string_token (quote : Z) : scan css_token_type :=
  scan! r := string_rest quote in
  token_is (match r with EscapeOk => CSS_TOKEN_STRING | _ => CSS_TOKEN_INVALID_STRING end).

(** "url(" w (string | urlchar* ) w ')'; when it is none, "url(" alone, the
    first [n] octets of the text and of the token. *)
Definition only_url (n : Z * Z) : scan css_token_type := fun _ _ '(p, o) =>
  Some (CSS_TOKEN_FUNCTION, (n.1, ztake n.2 o)).
Definition url_paren (n : Z * Z) : scan css_token_type :=
  scan! c := next in
  if bool_decide (c = Some 0x29) then then! take_char in token_is CSS_TOKEN_URI
  else only_url n.
Definition url_space (n : Z * Z) : scan css_token_type :=
  then! take_while isSpace in url_paren n.
Definition url_string (n : Z * Z) (quote : Z) : scan css_token_type :=
  scan! r := string_rest quote in
  match r with EscapeBad => only_url n | _ => url_space n end.
Definition url_chars (n : Z * Z) : scan css_token_type :=
  then! chars_of startURLChar in url_space n.
Definition url_quote (n : Z * Z) : scan css_token_type :=
  scan! c := next in
  match c with
  | Some c => if isQuote c then then! take_char in url_string n c else url_chars n
  | None => only_url n
  end.
Definition url_start (n : Z * Z) : scan css_token_type :=
  then! take_while isSpace in url_quote n.
Definition url_lparen : scan css_token_type :=
  scan! c := next in
  match c with
  | Some c =>
      if c =? 0x28 then then! take_char in scan! cur := where_now in url_start (cur.1, zlen cur.2)
      else name_rest
  | None => token_is CSS_TOKEN_IDENT
  end.
Definition url_l : scan css_token_type :=
  scan! c := next in
  match c with
  | Some c => if (c =? 0x6C) || (c =? 0x4C) then then! take_char in url_lparen else name_rest
  | None => token_is CSS_TOKEN_IDENT
  end.

(** [Uu] '+' [0-9a-fA-F?]{1,6} (-[0-9a-fA-F]{1,6})?  [n] digits are still
    possible; the answer is how many are left when they end. *)
Fixpoint up_to (n : nat) (f : Z -> bool) : scan nat :=
  match n with
  | O => sret O
  | S n =>
      scan! c := next in
      match c with
      | Some c => if f c then then! take_char in up_to n f else sret (S n)
      | None => sret (S n)
      end
  end.
Definition range_char (c : Z) : bool := isHex c || (c =? 0x3F).
Definition range_end (n : nat) : scan css_token_type :=
  scan! m := up_to n isHex in
  then! (if (m =? 6)%nat then unread 1 else sret tt) in
  token_is CSS_TOKEN_UNICODE_RANGE.
Definition range_start (n : nat) : scan css_token_type :=
  scan! m := up_to n range_char in
  if (m =? 6)%nat then then! unread 1 in token_is CSS_TOKEN_IDENT else
  scan! c := next in
  if bool_decide (c = Some 0x2D) then then! take_char in range_end 6
  else token_is CSS_TOKEN_UNICODE_RANGE.

Definition u_rest : scan css_token_type :=
  scan! c := next in
  match c with
  | Some c =>
      if (c =? 0x72) || (c =? 0x52) then then! take_char in url_l
      else if c =? 0x2B then then! take_char in range_start 6
      else name_rest
  | None => token_is CSS_TOKEN_IDENT
  end.

Definition gt_rest : scan css_token_type :=
  scan! c := next in
  if bool_decide (c = Some 0x3D) then then! take_char in token_is CSS_TOKEN_CHAR
  else token_is CSS_TOKEN_CHAR.

(** What the first character announces. *)
Definition token_rest (c : Z) : scan css_token_type :=
  if (1 <? char_len c) || (0x80 <=? c) then name_rest
  else if c =? 0x40 then at_rest
  else if isQuote c then string_token c
  else if c =? 0x23 then hash_rest 1
  else if isDigit c || (c =? 0x2E) || (c =? 0x2B) then number_rest c
  else if c =? 0x3C then cdo_rest
  else if c =? 0x2D then dash_rest
  else if isSpace c then space_rest
  else if c =? 0x2F then slash_rest
  else if (c =? 0x7E) || (c =? 0x7C) || (c =? 0x5E) || (c =? 0x24) || (c =? 0x2A) then match_rest c
  else if (c =? 0x75) || (c =? 0x55) then u_rest
  else if is_ascii_letter c || (c =? 0x5F) then name_rest
  else if c =? bslash then escaped_name
  else if c =? 0x3E then gt_rest
  else token_is CSS_TOKEN_CHAR.

Definition token_start : scan css_token_type :=
  scan! c := next in
  match c with
  | Some c => then! take_char in token_rest c
  | None => token_is CSS_TOKEN_EOF
  end.

(** ** What a client is shown of a token *)

Fixpoint without_leading (f : Z -> bool) (s : bytes) : bytes :=
  match s with
  | c :: r => if f c then without_leading f r else s
  | [] => []
  end.
Definition without_trailing (f : Z -> bool) (s : bytes) : bytes :=
  rev (without_leading f (rev s)).
Definition without_first (f : Z -> bool) (s : bytes) : bytes :=
  match s with c :: r => if f c then r else s | [] => [] end.
Definition without_last (f : Z -> bool) (s : bytes) : bytes := rev (without_first f (rev s)).

Definition token_text (type : css_token_type) (o : bytes) : bytes :=
  let any _ := true in
  match type with
  | CSS_TOKEN_ATKEYWORD | CSS_TOKEN_INVALID_STRING | CSS_TOKEN_HASH => zdrop 1 o
  | CSS_TOKEN_STRING => without_last isQuote (zdrop 1 o)
  | CSS_TOKEN_PERCENTAGE | CSS_TOKEN_FUNCTION => without_last any o
  | CSS_TOKEN_URI =>
      without_last isQuote (without_trailing isSpace (without_last any
        (without_first isQuote (without_leading isSpace (zdrop 4 o)))))
  | CSS_TOKEN_UNICODE_RANGE => zdrop 2 o
  | CSS_TOKEN_COMMENT => without_last any (without_last any (zdrop 2 o))
  | CSS_TOKEN_EOF => []
  | _ => o
  end.

(** A token: its type, the length of its input and its text. *)
Definition ref_token : Type := css_token_type * Z * bytes.

Definition finish (r : css_token_type * cursor) : ref_token :=
  (r.1, r.2.1, token_text r.1 r.2.2).

(** The token a client sees next: comments are not for all clients. *)
Definition hides (emit_comments : bool) (type : css_token_type) : bool :=
  negb emit_comments && bool_decide (type = CSS_TOKEN_COMMENT).

Fixpoint next_token_loop (n : nat) (emit_comments : bool) (text : bytes) (final : bool)
  : option ref_token :=
  match n with
  | O => None
  | S n =>
      match token_start text final (0, []) with
      | Some r =>
          if hides emit_comments r.1 then
            next_token_loop n emit_comments (zdrop r.2.1 text) final
          else Some (finish r)
      | None => None
      end
  end.
Definition next_token (emit_comments : bool) (text : bytes) (final : bool) : option ref_token :=
  next_token_loop (S (length text)) emit_comments text final.
