(* ===== verification/CssLexRules.v ===== *)
(** * CssLexRules: weakest preconditions for the functions of the CSS lexer,
    and the steps a scanner of CssLexRef.v makes meanwhile.

    [wp m Q t]: run in [t], [m] is not stuck, and what it yields or returns
    early satisfies [Q].  [steps t R cur R' cur']: whatever text still follows
    what the stream of [t] has available, a scanner [R] at [cur] answers what
    [R'] answers at [cur']. *)
From S2P Require Import Prelude.
From S2P Require Import Errors.
From S2P Require Import Utf8.
From S2P Require Import Interfaces.
From S2P Require Import CssLexState.
From S2P Require Import CssLexRef.

(** ** Scanners over a text that may grow *)

Section Steps.
(** The texts the stream can come to hold, and whether they are all there. *)
Context (completes : bytes -> bool -> Prop).

Definition steps_on {A} (R : scan A) (cur : cursor) (R' : scan A) (cur' : cursor) : Prop :=
  forall text final, completes text final ->
  forall r, R' text final cur' = Some r -> R text final cur = Some r.

Lemma steps_on_refl {A} (R : scan A) cur : steps_on R cur R cur.
Proof. by intros text final _ r. Qed.

Lemma steps_on_trans {A} (R1 R2 R3 : scan A) c1 c2 c3 :
  steps_on R1 c1 R2 c2 -> steps_on R2 c2 R3 c3 -> steps_on R1 c1 R3 c3.
Proof. intros H1 H2 text final Hc r Hr. apply H1; [done|]. by apply H2. Qed.

Lemma steps_on_bind {A C} (R R' : scan A) (K : A -> scan C) cur cur' :
  steps_on R cur R' cur' -> steps_on (sbind R K) cur (sbind R' K) cur'.
Proof.
  intros H text final Hc r. unfold sbind.
  destruct (R' text final cur') as [[a cur1]|] eqn:E; [|done].
  by rewrite (H _ _ Hc _ E).
Qed.

(** A scanner that is done hands over. *)
Lemma steps_on_done {A C} (R : scan A) (a : A) (K : A -> scan C) cur cur' :
  steps_on R cur (sret a) cur' -> steps_on (sbind R K) cur (K a) cur'.
Proof. intros H. exact (steps_on_bind R (sret a) K cur cur' H). Qed.

Lemma steps_on_next {A} k (K : option Z -> scan A) p o c :
  (forall text final, completes text final -> znth text (p + k) = Some c) ->
  steps_on (sbind (next_at k) K) (p, o) (K (Some c)) (p, o).
Proof. intros H text final Hc r Hr. unfold sbind, next_at. by rewrite (H _ _ Hc). Qed.

Lemma steps_on_next_end {A} k (K : option Z -> scan A) p o :
  (forall text final, completes text final -> zlen text <= p + k /\ final = true) ->
  steps_on (sbind (next_at k) K) (p, o) (K None) (p, o).
Proof.
  intros H text final Hc r Hr. unfold sbind, next_at. destruct (H _ _ Hc) as [Hl ->].
  destruct (znth text (p + k)) eqn:E; [|done]. apply znth_Some_range in E. lia.
Qed.

Lemma steps_on_take {A} (K : unit -> scan A) p o c d :
  (forall text final, completes text final ->
     znth text p = Some c /\ ztake (char_len c) (zdrop p text) = d) ->
  steps_on (sbind take_char K) (p, o) (K tt) (p + char_len c, o ++ d).
Proof.
  intros H text final Hc r Hr. unfold sbind, take_char. destruct (H _ _ Hc) as [-> ->]. done.
Qed.

(** ** Repetition *)

Lemma iter_loop_more {S A} (step : S -> scan (S + A)) n m s text final cur r :
  iter_loop n step s text final cur = Some r -> (n <= m)%nat ->
  iter_loop m step s text final cur = Some r.
Proof.
  revert m s cur. induction n as [|n IH]; [done|]. intros [|m] s cur Hr Hm; [lia|].
  cbn [iter_loop] in *. destruct (step s text final cur) as [[[s'|a] cur']|]; [|done..].
  apply IH; [done|lia].
Qed.

Lemma steps_on_iter {S A} (step : S -> scan (S + A)) s s' cur cur' :
  steps_on (step s) cur (sret (inl s')) cur' -> cur.1 < cur'.1 ->
  (forall text final, completes text final -> cur.1 < zlen text) ->
  steps_on (iter step s) cur (iter step s') cur'.
Proof.
  intros H Hp Hl text final Hc r Hr. specialize (Hl _ _ Hc). unfold iter in *. cbn [iter_loop].
  rewrite (H _ _ Hc (inl s', cur') eq_refl). eapply iter_loop_more; [exact Hr|]. lia.
Qed.

Lemma steps_on_iter_end {S A} (step : S -> scan (S + A)) s a cur cur' :
  steps_on (step s) cur (sret (inr a)) cur' -> steps_on (iter step s) cur (sret a) cur'.
Proof.
  intros H text final Hc r Hr. unfold iter. cbn [iter_loop].
  rewrite (H _ _ Hc (inr a, cur') eq_refl). exact Hr.
Qed.
End Steps.

(** ** Weakest preconditions *)

Section Wp.
Context {T : Type}.

Definition wp {A} (m : lexes T A) (Q : A -> T -> Prop) (E : css_error -> T -> Prop) (t : T) : Prop :=
  match m t with
  | Value a t => Q a t
  | Returned e t => E e t
  | LexStuck => False
  end.

Implicit Types E : css_error -> T -> Prop.

Lemma wp_give {A} (a : A) (Q : A -> T -> Prop) E t : Q a t -> wp (give a) Q E t.
Proof. done. Qed.

Lemma wp_seq {A C} (m : lexes T A) (k : A -> lexes T C) Q E t :
  wp m (fun a => wp (k a) Q E) E t -> wp (seq m k) Q E t.
Proof. unfold wp, seq; destruct (m t); done. Qed.

Lemma wp_return {A} e (Q : A -> T -> Prop) E t : E e t -> wp (return_error e) Q E t.
Proof. done. Qed.

Lemma wp_field {A C} (f : T -> A) (k : A -> lexes T C) Q E t :
  wp (k (f t)) Q E t -> wp (seq (field f) k) Q E t.
Proof. done. Qed.

Lemma wp_change {C} (f : T -> T) (k : unit -> lexes T C) Q E t :
  wp (k tt) Q E (f t) -> wp (seq (change f) k) Q E t.
Proof. done. Qed.

Lemma wp_known {A C} (o : option A) a (k : A -> lexes T C) Q E (t : T) :
  o = Some a -> wp (k a) Q E t -> wp (seq (known o) k) Q E t.
Proof. intros ->; done. Qed.

Lemma wp_invoke {C} (m : lexes T css_error) (k : css_error -> lexes T C) Q E t :
  wp m (fun e => wp (k e) Q E) (fun e => wp (k e) Q E) t -> wp (seq (invoke m) k) Q E t.
Proof. unfold wp, seq, invoke; destruct (m t); done. Qed.

Lemma lex_wp_check {C} (m : lexes T css_error) (k : unit -> lexes T C) Q E t :
  let P e t1 := if bool_decide (e = CSS_OK) then wp (k tt) Q E t1 else E e t1 in
  wp m P P t -> wp (seq (check m) k) Q E t.
Proof.
  cbv zeta. unfold wp, seq, check, invoke, seq. destruct (m t) as [e t1|e t1|]; [..|done];
    destruct (bool_decide _); done.
Qed.

Lemma lex_wp_mono {A} (m : lexes T A) (Q Q' : A -> T -> Prop) E E' t :
  wp m Q E t -> (forall a t, Q a t -> Q' a t) -> (forall e t, E e t -> E' e t) -> wp m Q' E' t.
Proof. unfold wp; destruct (m t); auto. Qed.

Lemma lex_wp_run (m : lexes T css_error) (Q : css_error -> T -> Prop) t :
  wp m Q Q t -> exists e t', run_lexer m t = Some (e, t') /\ Q e t'.
Proof. unfold wp, run_lexer; destruct (m t); naive_solver. Qed.
End Wp.

(** Run the setters away. *)
Ltac lx_cbn :=
  cbn [set_lx_input set_lx_bytesReadForToken set_lx_token set_lx_escapeSeen
    set_lx_unescapedTokenData set_lx_state set_lx_substate set_lx_context set_lx_emit_comments
    set_lx_currentCol set_lx_currentLine
    lx_input lx_bytesReadForToken lx_token lx_escapeSeen lx_unescapedTokenData lx_state
    lx_substate lx_context lx_emit_comments lx_currentCol lx_currentLine
    set_tn_type set_tn_data set_tn_len tn_type tn_data tn_len tn_idata tn_col tn_line
    set_lc_first set_lc_origBytes set_lc_lastWasStar set_lc_lastWasCR set_lc_bytesForURL
    set_lc_dataLenForURL set_lc_hexCount
    lc_first lc_origBytes lc_lastWasStar lc_lastWasCR lc_bytesForURL lc_dataLenForURL
    lc_hexCount fst snd] in *.

(** ** The lexer at hand *)

Section Views.
Context {St B : Type} `{!InputStreamOps St} `{!InputStream St} `{!ByteBufferOps B}
  `{!ByteBuffer B} `{!ByteBufferMakeOps B} `{!ByteBufferMake B}.
Local Abbreviation T := (css_lexer St B).
Local Abbreviation M := (lexes (css_lexer St B)).

Definition avail (t : T) : bytes := is_avail (lx_input t).
Definition total (t : T) : Z := is_total (lx_input t).
Definition read (t : T) : Z := lx_bytesReadForToken t.
Definition len (t : T) : Z := tn_len (lx_token t).
Definition unescaped (t : T) : bytes :=
  match lx_unescapedTokenData t with Some b => bb_bytes b | None => [] end.

(** The text of the token so far: the front of the input or of the unescaped
    data. *)
Definition source (t : T) : bytes := if lx_escapeSeen t then unescaped t else avail t.
Definition out (t : T) : bytes := ztake (len t) (source t).
Definition cur (t : T) : cursor := (read t, out t).

(** What the text of a stream can turn out to be, in the end. *)
Definition completes (s : St) (text : bytes) (final : bool) : Prop :=
  exists more, text = is_avail s ++ more /\ (is_ended s -> more = [] /\ final = true).

Definition later (t t1 : T) : Prop :=
  forall text final, completes (lx_input t1) text final -> completes (lx_input t) text final.

Definition steps {A} (t : T) : scan A -> cursor -> scan A -> cursor -> Prop :=
  steps_on (completes (lx_input t)).

Lemma later_refl t : later t t.
Proof. by intros text final. Qed.

Lemma later_trans t1 t2 t3 : later t1 t2 -> later t2 t3 -> later t1 t3.
Proof. unfold later. auto. Qed.

Lemma steps_later {A} t t1 (R R' : scan A) c c' :
  later t t1 -> steps t R c R' c' -> steps t1 R c R' c'.
Proof. intros Hl H text final Hc. apply H. by apply Hl. Qed.

(** The buffers and counters are in order; [k] octets were read that are not
    part of the token's text. *)
Record lexer_ok (k : Z) (t : T) : Prop := {
  lk_input : is_wf (lx_input t);
  lk_read : 0 < read t <= zlen (avail t);
  lk_buffer : match lx_unescapedTokenData t with
              | Some b => bb_wf b
              | None => lx_escapeSeen t = false
              end;
  lk_len : len t = if lx_escapeSeen t then zlen (unescaped t) else read t - k;
  lk_nonneg : 0 <= len t;
  lk_fresh : lx_escapeSeen t = false -> unescaped t = []
}.

Lemma read_bound k t : lexer_ok k t -> 0 < read t < 2 ^ 32.
Proof.
  intros []. pose proof (is_avail_bound _ lk_input0) as Hb. fold (avail t) in Hb. lia.
Qed.

Lemma len_bound k t : lexer_ok k t -> 0 <= k -> 0 <= len t < 2 ^ 63.
Proof.
  intros Hk H0. pose proof (read_bound k t Hk). destruct Hk. split; [done|]. rewrite lk_len0.
  destruct (lx_escapeSeen t); [|lia]. unfold unescaped.
  destruct (lx_unescapedTokenData t) as [b|]; [by apply bb_bound|done].
Qed.

Lemma len_source k t : lexer_ok k t -> 0 <= k -> len t <= zlen (source t).
Proof.
  intros [] H0. unfold source. rewrite lk_len0. destruct (lx_escapeSeen t); lia.
Qed.

Lemma zlen_out k t : lexer_ok k t -> 0 <= k -> zlen (out t) = len t.
Proof.
  intros Hk H0. pose proof (len_source k t Hk H0). pose proof (lk_nonneg k t Hk).
  unfold out. rewrite zlen_ztake. lia.
Qed.

(** ** Peeking *)

(** Only the stream changed, which may have converted more text. *)
Definition extends (t t1 : T) : Prop :=
  exists s, t1 = set_lx_input s t /\ is_wf s /\ total t1 <= total t /\ later t t1 /\
    exists more, avail t1 = avail t ++ more.

Lemma lex_extends_refl t : is_wf (lx_input t) -> extends t t.
Proof.
  intros Hw. exists (lx_input t). split; [by destruct t|]. split; [done|]. split; [lia|].
  split; [apply later_refl|]. exists []. by rewrite app_nil_r.
Qed.

Lemma grown_ok k t s more :
  0 <= k -> is_wf s -> is_avail s = avail t ++ more -> lexer_ok k t -> lexer_ok k (set_lx_input s t).
Proof.
  intros H0 Hw Hm []. unfold avail, read, len, unescaped in *.
  split; unfold avail, read, len, unescaped; lx_cbn; try done.
  rewrite Hm, zlen_app. zlens; lia.
Qed.

Lemma grown_cur k t s more :
  0 <= k -> is_avail s = avail t ++ more -> lexer_ok k t -> cur (set_lx_input s t) = cur t.
Proof.
  intros H0 Hm Hk. pose proof (len_source k t Hk H0) as Hl.
  unfold cur, out, source, len, read, unescaped, avail in *. lx_cbn. f_equal.
  destruct (lx_escapeSeen t); [done|]. by rewrite Hm, ztake_app_le.
Qed.

Lemma extends_ok k t t1 : 0 <= k -> extends t t1 -> lexer_ok k t -> lexer_ok k t1.
Proof. intros H0 (s & -> & Hw & _ & _ & m & Hm). by apply (grown_ok k t s m). Qed.

Lemma extends_cur k t t1 : 0 <= k -> extends t t1 -> lexer_ok k t -> cur t1 = cur t.
Proof. intros H0 (s & -> & Hw & _ & _ & m & Hm). by apply (grown_cur k t s m). Qed.

(** A pointer the stream answers: the available text from [off] on. *)
Definition points_to (t : T) (off : Z) (ptr : bytes) : Prop :=
  exists stale, ptr = zdrop off (avail t) ++ stale.

(** Errors of which nothing is promised but that they are handed on. *)
Definition odd (e : css_error) : Prop :=
  e <> CSS_OK /\ e <> CSS_NEEDDATA /\ e <> CSS_EOF /\ e <> CSS_INVALID.
Definition lenient (E : css_error -> T -> Prop) : Prop := forall e t, odd e -> E e t.

Lemma completes_prefix t text final : completes (lx_input t) text final ->
  exists more, text = avail t ++ more.
Proof. intros (m & -> & _). by exists m. Qed.

Lemma completes_znth t i c text final :
  znth (avail t) i = Some c -> completes (lx_input t) text final -> znth text i = Some c.
Proof.
  intros Hc (m & -> & _). fold (avail t). pose proof (znth_Some_range _ _ _ Hc).
  by rewrite znth_app_l by lia.
Qed.

Lemma wp_peek_input off (Q : peek_result -> T -> Prop) (E : css_error -> T -> Prop) t :
  is_wf (lx_input t) -> 0 <= off <= zlen (avail t) ->
  (forall t1 c ptr, extends t t1 -> znth (avail t1) off = Some c -> points_to t1 off ptr ->
     off + char_len c <= zlen (avail t1) -> Q (PeekOk ptr (char_len c)) t1) ->
  (forall t1, extends t t1 -> is_ended (lx_input t1) -> zlen (avail t1) = off ->
     Q (PeekErr PARSERUTILS_EOF) t1) ->
  (forall t1, extends t t1 -> Q (PeekErr PARSERUTILS_NEEDDATA) t1) ->
  (forall t1 e, odd (css_error_from_parserutils_error e) -> Q (PeekErr e) t1) ->
  wp (peek_input off) Q E t.
Proof.
  intros Hi Hoff Hok Heof Hmore Hodd. unfold wp, peek_input.
  destruct (Z_lt_le_dec off (zlen (avail t))) as [Hlt|Hge].
  - destruct (znth_is_Some (avail t) off) as [c Hcc]; [lia|].
    destruct (is_peek_avail _ off c Hi Hcc) as [stale ->].
    replace (set_lx_input (lx_input t) t) with t by (by destruct t).
    apply Hok; [by apply lex_extends_refl|done|by exists stale|].
    by apply (is_avail_text _ Hi).
  - assert (off = zlen (avail t)) as -> by lia. clear Hge.
    destruct (is_peek_end _ Hi) as (r & s & Hp & Hr). fold (avail t) in Hp. rewrite Hp.
    assert (Hext : is_wf s -> is_total s <= total t -> (exists more, is_avail s = avail t ++ more) ->
              extends t (set_lx_input s t)).
    { intros Hw Ht [more Ha]. exists s. split; [done|]. split; [done|]. split; [done|].
      split; [|by exists more]. intros text final (m & Htx & He). unfold completes. lx_cbn.
      exists (more ++ m). split; [rewrite Htx, Ha; unfold avail; by rewrite <- app_assoc|].
      intros Hend. pose proof (is_peek_ended _ Hi Hend) as Hpe. fold (avail t) in Hpe.
      rewrite Hp in Hpe. injection Hpe as -> ->. destruct (He Hend) as [-> ->].
      assert (Hn : more = []).
      { apply zlen_zero_inv. apply (f_equal zlen) in Ha. unfold avail in Ha.
        rewrite zlen_app in Ha. lia. }
      by rewrite Hn. }
    destruct r as [ptr n|e].
    + destruct Hr as (Hw & Ht & c & more & stale & Ha & -> & ->).
      assert (Hx : extends t (set_lx_input s t)) by (apply Hext; eauto).
      assert (Hn : znth (is_avail s) (zlen (avail t)) = Some c).
      { rewrite Ha, znth_app_r, Z.sub_diag by (unfold avail; lia). done. }
      apply Hok; [done|done| |].
      * exists stale. unfold avail in *. lx_cbn. rewrite Ha, zdrop_app_ge, Z.sub_diag by lia. done.
      * by apply (is_avail_text _ Hw).
    + destruct Hr as (Hne & Hr & He).
      assert (Hx : e = PARSERUTILS_NEEDDATA \/ e = PARSERUTILS_EOF ->
                extends t (set_lx_input s t) /\ avail (set_lx_input s t) = avail t).
      { intros Hor. destruct (Hr Hor) as (? & ? & Ha). split; [|done].
        apply Hext; [done..|]. exists []. by rewrite app_nil_r. }
      destruct e; try done.
      all: try (apply Hodd; split_and!; done).
      * by destruct (is_peek_valid _ s Hi).
      * apply Hmore. by apply Hx; left.
      * destruct (Hx ltac:(by right)) as [? Ha]. apply Heof; [done|by apply He|by rewrite Ha].
Qed.

(** look_at and look, the scanner looking as well. *)
Lemma wp_look_at {C} off (k : option (bytes * Z) -> M C) (Q : C -> T -> Prop) E t :
  is_wf (lx_input t) -> 0 <= off <= zlen (avail t) -> lenient E ->
  (forall t1 c ptr, extends t t1 -> znth (avail t1) off = Some c -> points_to t1 off ptr ->
     off + char_len c <= zlen (avail t1) -> wp (k (Some (ptr, char_len c))) Q E t1) ->
  (forall t1, extends t t1 -> is_ended (lx_input t1) -> zlen (avail t1) = off ->
     wp (k None) Q E t1) ->
  (forall t1, extends t t1 -> E CSS_NEEDDATA t1) ->
  wp (seq (look_at off) k) Q E t.
Proof.
  intros Hi Hoff HE Hok Heof Hmore. apply wp_seq, wp_seq, wp_peek_input; [done..| | |].
  - intros t1 Hx He Hl. by apply Heof.
  - intros t1 Hx. by apply Hmore.
  - intros t1 e He. destruct e; try (by destruct He as (? & ? & ? & ?)); by apply HE.
Qed.

Lemma wp_look {C} k (f : option (bytes * Z) -> M C) (Q : C -> T -> Prop) E t :
  lexer_ok k t -> lenient E ->
  (forall t1 c ptr, extends t t1 -> znth (avail t1) (read t) = Some c ->
     points_to t1 (read t) ptr -> read t + char_len c <= zlen (avail t1) ->
     wp (f (Some (ptr, char_len c))) Q E t1) ->
  (forall t1, extends t t1 -> is_ended (lx_input t1) -> zlen (avail t1) = read t ->
     wp (f None) Q E t1) ->
  (forall t1, extends t t1 -> E CSS_NEEDDATA t1) ->
  wp (seq look f) Q E t.
Proof.
  intros Hk HE Hok Heof Hmore. change (wp (seq (look_at (read t)) f) Q E t).
  pose proof (lk_read k t Hk). apply wp_look_at; [apply Hk|lia|done..].
Qed.

Lemma wp_octet {C} t off ptr c (k : Z -> M C) (Q : C -> T -> Prop) E t0 :
  points_to t off ptr -> 0 <= off -> znth (avail t) off = Some c -> wp (k c) Q E t0 ->
  wp (seq (octet ptr) k) Q E t0.
Proof.
  intros [stale ->] Ho Hc HQ. eapply wp_known; [|done].
  pose proof (znth_Some_range _ _ _ Hc).
  rewrite znth_app_l by (rewrite zlen_zdrop; lia).
  by rewrite znth_zdrop, Z.add_0_r by lia.
Qed.
End Views.

(** * The primitives of the CSS lexer against the scanners:
    appending a character, leaving one out, giving some up, and the emission of
    a token. *)

Section Steps.
Context {St B : Type} `{!InputStreamOps St} `{!InputStream St} `{!ByteBufferOps B}
  `{!ByteBuffer B} `{!ByteBufferMakeOps B} `{!ByteBufferMake B}.
Local Abbreviation T := (css_lexer St B).
Local Abbreviation M := (lexes (css_lexer St B)).
Implicit Types t : T.

(** ** What the primitives leave alone *)

(** The state, the substate and the context, but for [lastWasCR]. *)
Record kept t t1 : Prop := {
  kp_state : lx_state t1 = lx_state t;
  kp_substate : lx_substate t1 = lx_substate t;
  kp_context : exists b, lx_context t1 = set_lc_lastWasCR b (lx_context t);
  kp_emit : lx_emit_comments t1 = lx_emit_comments t;
  kp_later : later t t1;
  kp_total : total t1 <= total t
}.

Lemma same_but_cr t : exists b, lx_context t = set_lc_lastWasCR b (lx_context t).
Proof. exists (lc_lastWasCR (lx_context t)). by destruct (lx_context t). Qed.

Lemma kept_intro t t1 :
  lx_input t1 = lx_input t -> lx_state t1 = lx_state t -> lx_substate t1 = lx_substate t ->
  (exists b, lx_context t1 = set_lc_lastWasCR b (lx_context t)) ->
  lx_emit_comments t1 = lx_emit_comments t -> kept t t1.
Proof.
  intros Hi. split; try done.
  - intros text final. by rewrite Hi.
  - unfold total. rewrite Hi. lia.
Qed.

Lemma lex_kept_refl t : kept t t.
Proof. apply kept_intro; try done. apply same_but_cr. Qed.

Lemma lex_kept_trans t1 t2 t3 : kept t1 t2 -> kept t2 t3 -> kept t1 t3.
Proof.
  intros [? ? [b Hb] ? ? ?] [? ? [b1 Hb1] ? ? ?].
  split; [congruence..| | |by eapply later_trans|lia]; [|congruence].
  exists b1. rewrite Hb1, Hb. done.
Qed.

Lemma kept_extends t t1 : extends t t1 -> kept t t1.
Proof.
  intros (s & -> & Hw & Ht & Hl & _). split; lx_cbn; try done. apply same_but_cr.
Qed.

Lemma cur_eq t t1 : cur t1 = cur t -> read t1 = read t /\ out t1 = out t.
Proof. intros H. split; [exact (f_equal fst H)|exact (f_equal snd H)]. Qed.

(** Nothing but the place in the source and the memory of a CR changed. *)
Definition alike t t1 : Prop :=
  exists b col line, t1 = set_lx_context (set_lc_lastWasCR b (lx_context t))
    (set_lx_currentCol col (set_lx_currentLine line t)).

Lemma alike_kept t t1 : alike t t1 -> kept t t1.
Proof.
  intros (b & col & line & ->). apply kept_intro; lx_cbn; try done. by exists b.
Qed.

Lemma alike_ok k t t1 : alike t t1 -> lexer_ok k t -> lexer_ok k t1.
Proof.
  intros (b & col & line & ->) []. split; done.
Qed.

Lemma alike_cur t t1 : alike t t1 -> cur t1 = cur t.
Proof. by intros (b & col & line & ->). Qed.

Lemma lex_alike_trans t1 t2 t3 : alike t1 t2 -> alike t2 t3 -> alike t1 t3.
Proof.
  intros (b & col & line & ->) (b1 & col1 & line1 & ->). exists b1, col1, line1. done.
Qed.

Lemma lex_alike_refl t : alike t t.
Proof.
  exists (lc_lastWasCR (lx_context t)), (lx_currentCol t), (lx_currentLine t).
  by destruct t as [? ? ? ? ? ? ? [] ? ? ?].
Qed.

Lemma wp_new_line {C} n (k : unit -> M C) (Q : C -> T -> Prop) E t :
  (forall t1, alike t t1 -> wp (k tt) Q E t1) -> wp (seq (new_line n) k) Q E t.
Proof.
  intros H. apply H. exists (lc_lastWasCR (lx_context t)), n, (u32 (lx_currentLine t + 1)).
  by destruct t as [? ? ? ? ? ? ? [] ? ? ?].
Qed.

Lemma wp_add_col {C} n (k : unit -> M C) (Q : C -> T -> Prop) E t :
  (forall t1, alike t t1 -> wp (k tt) Q E t1) -> wp (seq (add_col n) k) Q E t.
Proof.
  intros H. apply H. exists (lc_lastWasCR (lx_context t)), (u32 (lx_currentCol t + n)), (lx_currentLine t).
  by destruct t as [? ? ? ? ? ? ? [] ? ? ?].
Qed.

Lemma wp_set_last_cr {C} b (k : unit -> M C) (Q : C -> T -> Prop) E t :
  (forall t1, alike t t1 -> wp (k tt) Q E t1) -> wp (seq (set_last_cr b) k) Q E t.
Proof.
  intros H. apply H. exists b, (lx_currentCol t), (lx_currentLine t). by destruct t.
Qed.

Lemma wp_new_line_if {C} (b : bool) (k : unit -> M C) (Q : C -> T -> Prop) E t :
  (forall t1, alike t t1 -> wp (k tt) Q E t1) ->
  wp (seq (if b then new_line 1 else give tt) k) Q E t.
Proof. intros H. destruct b; [by apply wp_new_line|apply H, lex_alike_refl]. Qed.

Lemma wp_count_line {C} c (k : unit -> M C) (Q : C -> T -> Prop) E t :
  (forall t1, alike t t1 -> wp (k tt) Q E t1) -> wp (seq (count_line c) k) Q E t.
Proof.
  intros H. unfold count_line. apply wp_seq, wp_new_line_if.
  intros t1 H1. apply wp_field, wp_new_line_if. intros t2 H2.
  apply H. eapply lex_alike_trans; [exact H1|]. eapply lex_alike_trans; [exact H2|].
  exists (c =? 0x0D), (lx_currentCol t2), (lx_currentLine t2). by destruct t2.
Qed.

(** ** Appending *)

(** A buffer of unescaped data takes [d] or memory runs out. *)
Lemma wp_append_unescaped ptr n d b (Q : css_error -> T -> Prop) E t :
  lx_unescapedTokenData t = Some b -> bb_wf b -> lx_escapeSeen t = true ->
  mem_read 0 n ptr = Some d -> lenient E ->
  (forall b1, bb_wf b1 -> bb_bytes b1 = bb_bytes b ++ d ->
     Q CSS_OK (set_lx_token (set_tn_len (u64 (len t + n)) (lx_token t))
                 (set_lx_unescapedTokenData (Some b1) t))) ->
  wp (appendToTokenData ptr n) Q E t.
Proof.
  intros Hb Hw Hs Hr HE HQ. unfold appendToTokenData. apply wp_field. rewrite Hs.
  apply wp_seq. eapply wp_known; [exact Hr|]. apply wp_seq. unfold wp at 1, unescaped_append.
  rewrite Hb. destruct (bb_append_ok b d Hw) as (e & b1 & -> & Hw1 & [[-> Hd]|[-> Hd]]).
  - apply wp_give. unfold change_token. apply wp_change. by apply HQ.
  - by apply HE.
Qed.

(** What copying a character of the input does. *)
Record took (c : Z) t t1 : Prop := {
  tk_kept : kept t t1;
  tk_ok : lexer_ok 0 t1;
  tk_same : lx_input t1 = lx_input t;
  tk_seen : lx_escapeSeen t1 = lx_escapeSeen t;
  tk_cur : cur t1 = (read t + char_len c,
                     out t ++ ztake (char_len c) (zdrop (read t) (avail t)))
}.

Lemma wp_APPEND {C} c ptr (k : unit -> M C) (Q : C -> T -> Prop) E t :
  lexer_ok 0 t -> znth (avail t) (read t) = Some c -> points_to t (read t) ptr ->
  read t + char_len c <= zlen (avail t) -> lenient E ->
  (forall t1, took c t t1 -> wp (k tt) Q E t1) ->
  wp (seq (APPEND ptr (char_len c)) k) Q E t.
Proof.
  intros Hk Hc [stale ->] Hfit HE HQ. pose proof (char_len_range c) as Hp.
  pose proof (read_bound 0 t Hk). pose proof (len_bound 0 t Hk ltac:(lia)).
  pose proof (lk_read 0 t Hk).
  assert (Hd : mem_read 0 (char_len c) (zdrop (read t) (avail t) ++ stale)
                = Some (ztake (char_len c) (zdrop (read t) (avail t)))).
  { rewrite mem_read_in by (rewrite ?zlen_app, ?zlen_zdrop; zlens; lia).
    rewrite zdrop_le0, ztake_app_le by (rewrite ?zlen_zdrop; lia). done. }
  assert (Hz : zlen (ztake (char_len c) (zdrop (read t) (avail t))) = char_len c)
    by (rewrite zlen_ztake, zlen_zdrop; lia).
  unfold APPEND. apply wp_seq, lex_wp_check.
  destruct (lx_escapeSeen t) eqn:Hs.
  - pose proof (lk_buffer 0 t Hk) as Hb. destruct (lx_unescapedTokenData t) as [b|] eqn:Eb; [|congruence].
    pose proof (lk_len 0 t Hk) as Hl. rewrite Hs in Hl. unfold unescaped in Hl. rewrite Eb in Hl.
    eapply wp_append_unescaped; [done..| |].
    { intros e t1 (? & ? & ? & ?). rewrite bool_decide_eq_false_2 by done. by apply HE. }
    intros b1 Hw1 Hb1. rewrite bool_decide_eq_true_2 by done. apply wp_change, wp_give.
    apply HQ. pose proof (bb_bound b1 Hw1). rewrite Hb1, zlen_app, Hz in *.
    split; lx_cbn; try done; unfold read, avail, len in *.
    + apply kept_intro; lx_cbn; try done. apply same_but_cr.
    + split; unfold read, avail, len, unescaped in *; lx_cbn; try done.
      * apply (lk_input 0 t Hk).
      * rewrite u64_small; lia.
      * rewrite Hs, Hb1, zlen_app, Hz, u64_small; lia.
      * apply u64_range.
      * congruence.
    + unfold cur, out, read, len, source, unescaped; lx_cbn. rewrite Hs, Eb, Hb1.
      unfold len in Hl. rewrite !u64_small by lia. rewrite (ztake_ge _ (bb_bytes b)) by lia.
      rewrite ztake_ge by (rewrite zlen_app; unfold avail, read in *; lia). done.
  - unfold appendToTokenData, change_token. apply wp_field. rewrite Hs. apply wp_seq, wp_give, wp_change, wp_give.
    rewrite bool_decide_eq_true_2 by done. apply wp_change, wp_give.
    pose proof (lk_len 0 t Hk) as Hl. rewrite Hs in Hl.
    apply HQ. split; lx_cbn; try done; unfold read, avail, len in *.
    + apply kept_intro; lx_cbn; try done. apply same_but_cr.
    + destruct Hk. split; unfold read, avail, len, unescaped in *; lx_cbn; try done.
      * rewrite u64_small; lia.
      * rewrite Hs, !u64_small; lia.
      * apply u64_range.
    + unfold cur, out, read, len, source, avail in *; lx_cbn. rewrite Hs, !u64_small by lia.
      rewrite ztake_add by lia. rewrite Hl, Z.sub_0_r. done.
Qed.
End Steps.

(** * The emission of a token

    What emitToken strips from the data is what CssLexRef.token_text leaves out. *)

(** The tokens whose text has the length that is stripped. *)
Definition strippable (type : css_token_type) (o : bytes) : Prop :=
  match type with
  | CSS_TOKEN_ATKEYWORD | CSS_TOKEN_INVALID_STRING | CSS_TOKEN_HASH | CSS_TOKEN_STRING
  | CSS_TOKEN_PERCENTAGE | CSS_TOKEN_FUNCTION => 1 <= zlen o
  | CSS_TOKEN_UNICODE_RANGE => 2 <= zlen o
  | CSS_TOKEN_COMMENT => 4 <= zlen o
  | CSS_TOKEN_URI => exists s, o = s ++ [0x29] /\ 4 <= zlen s
  | _ => True
  end.

(** ** Stripping lists *)

Lemma without_last_snoc f s c : without_last f (s ++ [c]) = if f c then s else s ++ [c].
Proof.
  unfold without_last. rewrite rev_app_distr. cbn [rev app without_first].
  destruct (f c); [apply rev_involutive|]. cbn [rev]. by rewrite rev_involutive.
Qed.

Lemma without_trailing_snoc f s c :
  without_trailing f (s ++ [c]) = if f c then without_trailing f s else s ++ [c].
Proof.
  unfold without_trailing. rewrite rev_app_distr. cbn [rev app without_leading].
  destruct (f c); [done|]. cbn [rev]. by rewrite rev_involutive.
Qed.

Lemma without_leading_snoc f s c :
  f c = false -> exists r, without_leading f (s ++ [c]) = r ++ [c].
Proof.
  intros Hc. induction s as [|a s IH]; cbn [app without_leading].
  - rewrite Hc. by exists [].
  - destruct (f a); [done|]. by exists (a :: s).
Qed.

Lemma without_first_snoc f s c :
  f c = false -> exists r, without_first f (s ++ [c]) = r ++ [c].
Proof.
  intros Hc. destruct s as [|a s]; cbn [app without_first].
  - rewrite Hc. by exists [].
  - destruct (f a); [by exists s|]. by exists (a :: s).
Qed.

Lemma snoc_cases (o : bytes) : o = [] \/ exists s c, o = s ++ [c].
Proof. induction o using rev_ind; [by left|right; eauto]. Qed.

Lemma ztake_snoc (s : bytes) c n : n = zlen s -> ztake n (s ++ [c]) = s.
Proof. intros ->. rewrite ztake_app_le, ztake_ge by lia. done. Qed.

Section Emit.
Context {St B : Type} `{!InputStreamOps St} `{!InputStream St} `{!ByteBufferOps B}
  `{!ByteBuffer B} `{!ByteBufferMakeOps B} `{!ByteBufferMake B}.
Local Abbreviation T := (css_lexer St B).
Local Abbreviation M := (lexes (css_lexer St B)).
Implicit Types t : T.

(** The data of the token is [o]. *)
Record holds (o : bytes) (k : css_token) : Prop := {
  hd_len : tn_len k = zlen o;
  hd_bound : zlen o < 2 ^ 63;
  hd_data : exists p stale, tn_data k = Some p /\ p = o ++ stale
}.

(** Only the data of the token changed. *)
Definition redone t t1 : Prop :=
  exists d n, t1 = set_lx_token (set_tn_data d (set_tn_len n (lx_token t))) t.

Lemma redone_trans t1 t2 t3 : redone t1 t2 -> redone t2 t3 -> redone t1 t3.
Proof. intros (d & n & ->) (d1 & n1 & ->). exists d1, n1. done. Qed.

Lemma redone_refl t : redone t t.
Proof. exists (tn_data (lx_token t)), (tn_len (lx_token t)). by destruct t as [? ? [] ? ? ? ? ? ? ? ?]. Qed.

(** [m] turns the data [o] of the token into [o']. *)
Definition strips (m : M unit) (o o' : bytes) : Prop :=
  forall t, holds o (lx_token t) ->
  forall E, wp m (fun _ t1 => holds o' (lx_token t1) /\ redone t t1) E t.

Lemma strips_seq m m' o1 o2 o3 :
  strips m o1 o2 -> strips m' o2 o3 -> strips (seq m (fun _ => m')) o1 o3.
Proof.
  intros H1 H2 t Ho E. apply wp_seq. eapply lex_wp_mono; [by apply H1| |done].
  intros _ t1 [Ho1 Hr]. eapply lex_wp_mono; [by apply H2| |done].
  intros _ t2 [Ho2 Hr2]. split; [done|]. by eapply redone_trans.
Qed.

Lemma strips_nothing o : strips (give tt) o o.
Proof. intros t Ho E. split; [done|]. apply redone_refl. Qed.

Lemma strips_front n o : 0 <= n <= zlen o -> strips (strip_front n) o (zdrop n o).
Proof.
  intros Hn t [Hl Hb (p & stale & Hd & ->)] E. unfold wp, strip_front. rewrite Hd.
  destruct (Z.leb_spec n (zlen (o ++ stale))) as [_|Hle]; [|rewrite zlen_app in Hle; zlens; lia].
  split; [|by eexists _, _].
  split; lx_cbn; rewrite ?zlen_zdrop; try lia.
  - rewrite Hl, u64_small; zlens; lia.
  - eexists _, stale. split; [done|]. by rewrite zdrop_app_le by lia.
Qed.

Lemma strips_shorten n o : 0 <= n <= zlen o -> strips (shorten n) o (ztake (zlen o - n) o).
Proof.
  intros Hn t [Hl Hb (p & stale & Hd & ->)] E. unfold shorten, change_token, wp, change.
  split; [|exists (tn_data (lx_token t)), (u64 (tn_len (lx_token t) - n)); by destruct (lx_token t)].
  split; lx_cbn; rewrite ?zlen_ztake; try lia.
  - rewrite Hl, u64_small; zlens; lia.
  - eexists _, (zdrop (zlen o - n) o ++ stale). split; [done|].
    rewrite app_assoc, ztake_zdrop. done.
Qed.

Lemma strips_shorten1 s c : strips (shorten 1) (s ++ [c]) s.
Proof.
  pose proof (strips_shorten 1 (s ++ [c])) as H. rewrite zlen_app in H. change (zlen [c]) with 1 in H.
  rewrite ztake_snoc in H by lia. apply H. zlens; lia.
Qed.

Lemma wp_token_data {C} o (k : bytes * Z -> M C) (Q : C -> T -> Prop) E t :
  holds o (lx_token t) ->
  (forall stale, zlen o < 2 ^ 63 -> wp (k (o ++ stale, zlen o)) Q E t) ->
  wp (seq token_data k) Q E t.
Proof.
  intros [Hl Hb (p & stale & Hd & ->)] H. unfold token_data. apply wp_seq, wp_field.
  rewrite Hd, Hl. apply wp_seq, wp_give, wp_give. by apply H.
Qed.

Lemma set_token_data_holds o stale t :
  zlen o < 2 ^ 63 ->
  let t1 := set_lx_token (set_tn_data (Some (o ++ stale)) (set_tn_len (zlen o) (lx_token t))) t in
  holds o (lx_token t1) /\ redone t t1.
Proof.
  intros Hb t1. split; [|by eexists _, _]. split; subst t1; lx_cbn; try done. by eexists _, stale.
Qed.

Lemma byte_at_last s c stale : byte_at (s ++ [c] ++ stale) (zlen s) = Some c.
Proof.
  unfold byte_at. rewrite !zlen_app. change (zlen [c]) with 1.
  destruct (Z.ltb_spec (zlen s) (zlen s + (1 + zlen stale))); [|zlens; lia].
  by rewrite znth_app_r, Z.sub_diag by lia.
Qed.

Lemma strips_last_quote o : strips strip_last_quote o (without_last isQuote o).
Proof.
  intros t Ho E. unfold strip_last_quote. eapply wp_token_data; [exact Ho|]. intros stale Hb.
  destruct (snoc_cases o) as [->|(s & c & ->)].
  - change (0 <? zlen (@nil Z)) with false. cbn iota. split; [done|apply redone_refl].
  - rewrite zlen_app. change (zlen [c]) with 1. destruct (Z.ltb_spec 0 (zlen s + 1)); [|zlens; lia].
    rewrite <- app_assoc. replace (zlen s + 1 - 1) with (zlen s) by lia.
    eapply wp_known; [apply byte_at_last|]. rewrite without_last_snoc.
    destruct (isQuote c); [|by split; [|apply redone_refl]].
    rewrite zlen_app in Hb. apply (set_token_data_holds s ([c] ++ stale)). zlens; lia.
Qed.

Lemma skip_spaces_spec o stale :
  zlen o < 2 ^ 63 -> Exists (fun c => isSpace c = false) o ->
  skip_spaces (o ++ stale) (zlen o)
    = Some (without_leading isSpace o ++ stale, zlen (without_leading isSpace o)).
Proof.
  induction o as [|c o IH]; intros Hb He; [by inversion He|].
  cbn [app skip_spaces without_leading]. destruct (isSpace c) eqn:Ec; [|done].
  rewrite zlen_cons in *. rewrite u64_small by (zlens; lia).
  replace (1 + zlen o - 1) with (zlen o) by lia. apply IH; [lia|].
  inversion He; [congruence|done].
Qed.

Lemma drop_spaces_spec o stale n :
  (length o <= n)%nat ->
  drop_spaces n (o ++ stale) (zlen o) = Some (zlen (without_trailing isSpace o)) /\
  exists rest, o = without_trailing isSpace o ++ rest.
Proof.
  revert stale n. induction o as [|c s IH] using rev_ind; intros stale n Hn.
  { destruct n; (split; [done|by exists []]). }
  rewrite without_trailing_snoc. rewrite length_app in Hn. cbn [length] in Hn.
  destruct n as [|n]; [lia|]. cbn [drop_spaces]. rewrite zlen_app. change (zlen [c]) with 1.
  destruct (Z.leb_spec (zlen s + 1) 0); [zlens; lia|].
  rewrite <- app_assoc. replace (zlen s + 1 - 1) with (zlen s) by lia. rewrite byte_at_last.
  cbn [mbind option_bind]. destruct (isSpace c).
  - destruct (IH ([c] ++ stale) n ltac:(lia)) as [-> [rest Hr]]. split; [done|].
    exists (rest ++ [c]). rewrite app_assoc. by rewrite <- Hr.
  - rewrite zlen_app. split; [done|]. exists []. by rewrite app_nil_r.
Qed.

Lemma strips_uri s :
  4 <= zlen s -> strips strip_uri (s ++ [0x29]) (token_text CSS_TOKEN_URI (s ++ [0x29])).
Proof.
  intros Hs. cbn [token_text]. set (c := 0x29). assert (Hsp : isSpace c = false) by done.
  rewrite zdrop_app_le by lia. set (s1 := zdrop 4 s).
  assert (H1 : strips (strip_front 4) (s ++ [c]) (s1 ++ [c])).
  { unfold s1. rewrite <- zdrop_app_le by lia. apply strips_front.
    rewrite zlen_app. zlens; lia. }
  destruct (without_leading_snoc isSpace s1 c Hsp) as [s2 H2].
  destruct (without_first_snoc isQuote s2 c eq_refl) as [s3 H3]. rewrite H2, H3.
  rewrite without_last_snoc. unfold strip_uri.
  eapply strips_seq; [exact H1|]. intros t Ho E. eapply wp_token_data; [exact Ho|]. intros stale Hb.
  eapply wp_known.
  { cbn [fst snd]. apply skip_spaces_spec; [done|]. apply Exists_app. right. by constructor. }
  rewrite H2. apply wp_seq. unfold set_token_data, change_token. cbn [fst snd]. unfold wp at 1, change.
  assert (Hb2 : zlen (s2 ++ [c]) < 2 ^ 63).
  { destruct Ho. rewrite <- H2. clear -hd_bound0.
    assert (Hle : zlen (without_leading isSpace (s1 ++ [c])) <= zlen (s1 ++ [c])).
    { induction (s1 ++ [c]) as [|a l IH]; cbn [without_leading]; [done|].
      destruct (isSpace a); rewrite ?zlen_cons in *; [|lia]. zlens; lia. }
    lia. }
  destruct (set_token_data_holds (s2 ++ [c]) stale t Hb2) as [Ht2 Hr2]. cbv zeta in Ht2, Hr2.
  match goal with |- wp _ _ _ ?t0 => set (t2 := t0) in * end.
  eapply wp_known with (a := match s2 ++ [c] with a :: _ => a | [] => 0 end).
  { destruct s2; done. }
  assert (Hq : strips (if isQuote (match s2 ++ [c] with a :: _ => a | [] => 0 end)
                       then strip_front 1 else give tt) (s2 ++ [c]) (s3 ++ [c])).
  { rewrite <- H3. destruct s2 as [|a s2]; cbn [app without_first].
    - replace (isQuote c) with false by done. apply strips_nothing.
    - destruct (isQuote a); [|apply strips_nothing].
      change (s2 ++ [c]) with (zdrop 1 (a :: s2 ++ [c])) at 2. apply strips_front.
      rewrite zlen_cons. zlens; lia. }
  apply wp_seq. eapply lex_wp_mono; [by apply Hq| |done]. intros _ t3 [Ht3 Hr3].
  apply wp_seq. eapply lex_wp_mono; [apply (strips_shorten1 s3 c t3 Ht3)| |done]. intros _ t4 [Ht4 Hr4].
  eapply wp_token_data; [exact Ht4|]. intros stale4 Hb4. cbn [fst snd].
  destruct (drop_spaces_spec s3 stale4 (length (s3 ++ stale4))) as [Hd [rest Hrest]].
  { rewrite length_app. lia. }
  eapply wp_known; [exact Hd|]. unfold set_token_data, change_token. cbn [fst snd].
  apply wp_change.
  assert (Hb5 : zlen (without_trailing isSpace s3) < 2 ^ 63).
  { rewrite Hrest, zlen_app in Hb4. zlens; lia. }
  destruct (set_token_data_holds (without_trailing isSpace s3) (rest ++ stale4) t4 Hb5) as [Ht5 Hr5].
  cbv zeta in Ht5, Hr5. rewrite app_assoc, <- Hrest in Ht5, Hr5.
  eapply lex_wp_mono; [apply (strips_last_quote _ _ Ht5)| |done].
  intros _ t6 [Ht6 Hr6]. split; [exact Ht6|].
  eapply redone_trans; [exact Hr2|]. eapply redone_trans; [exact Hr3|].
  eapply redone_trans; [exact Hr4|]. eapply redone_trans; [exact Hr5|]. exact Hr6.
Qed.

Lemma strips_token type o :
  strippable type o -> type <> CSS_TOKEN_EOF -> strips (strip_token type) o (token_text type o).
Proof.
  intros Hs Hne.
  assert (Hlast : 1 <= zlen o -> strips (shorten 1) o (without_last (fun _ => true) o)).
  { intros Hl. destruct (snoc_cases o) as [->|(s & c & ->)]; [done|].
    rewrite without_last_snoc. apply strips_shorten1. }
  destruct type; cbn [strip_token token_text strippable] in *; try done;
    try apply strips_nothing; try (by apply strips_front; lia); try (by apply Hlast).
  - eapply strips_seq; [by apply strips_front; lia|]. apply strips_last_quote.
  - destruct Hs as (s & -> & Hs). by apply strips_uri.
  - eapply strips_seq; [by apply strips_front; lia|].
    pose proof (strips_shorten 2 (zdrop 2 o)) as H. rewrite zlen_zdrop in H.
    destruct (snoc_cases (zdrop 2 o)) as [E|(s & c & E)].
    { apply (f_equal zlen) in E. rewrite zlen_zdrop in E. change (zlen (@nil Z)) with 0 in E. lia. }
    rewrite E, without_last_snoc.
    destruct (snoc_cases s) as [->|(s1 & c1 & ->)].
    { apply (f_equal zlen) in E. rewrite zlen_zdrop in E. change (zlen ([] ++ [c])) with 1 in E. lia. }
    rewrite without_last_snoc. rewrite E in H.
    pose proof (f_equal zlen E) as El. rewrite zlen_zdrop, !zlen_app in El.
    change (zlen [c]) with 1 in El. change (zlen [c1]) with 1 in El.
    replace (ztake _ ((s1 ++ [c1]) ++ [c])) with s1 in H; [apply H; zlens; lia|].
    rewrite <- app_assoc, ztake_app_le, ztake_ge by lia. done.
Qed.

(** ** emitToken *)

(** The text of the token that the client is given. *)
Definition token_bytes t : option bytes :=
  match tn_data (lx_token t) with
  | Some p => mem_read 0 (tn_len (lx_token t)) p
  | None => Some []
  end.

(** What a token in the making needs to be emitted; the text of the token may
    be shorter than what was read. *)
Record emittable t : Prop := {
  em_input : is_wf (lx_input t);
  em_read : 0 <= read t <= zlen (avail t);
  em_buffer : match lx_unescapedTokenData t with
              | Some b => bb_wf b
              | None => lx_escapeSeen t = false
              end;
  em_len : 0 <= len t <= zlen (source t)
}.

(** A token was emitted: the lexer is where Start can take over. *)
Record emitted (type : css_token_type) (text : bytes) t t1 : Prop := {
  ed_type : tn_type (lx_token t1) = type;
  ed_text : token_bytes t1 = Some text;
  ed_state : lx_state t1 = sSTART;
  ed_substate : lx_substate t1 = 0;
  ed_input : lx_input t1 = lx_input t;
  ed_read : read t1 = read t;
  ed_unescaped : lx_unescapedTokenData t1 = lx_unescapedTokenData t;
  ed_seen : lx_escapeSeen t1 = lx_escapeSeen t;
  ed_emit : lx_emit_comments t1 = lx_emit_comments t
}.

Lemma source_bound t : emittable t -> zlen (source t) < 2 ^ 63.
Proof.
  intros []. unfold source. destruct (lx_escapeSeen t).
  - unfold unescaped. destruct (lx_unescapedTokenData t); [by apply bb_bound|done].
  - pose proof (is_avail_bound _ em_input0). unfold avail. lia.
Qed.

(** Reading what is available at the front of the stream does not change it. *)
Lemma peek_front t :
  is_wf (lx_input t) -> 0 < zlen (avail t) ->
  exists stale n, is_peek (lx_input t) 0 = Some (PeekOk (avail t ++ stale) n, lx_input t).
Proof.
  intros Hw Hl. destruct (znth_is_Some (avail t) 0) as [c Hc]; [lia|].
  destruct (is_peek_avail _ 0 c Hw Hc) as [stale Hp]. exists stale, (char_len c).
  rewrite Hp. rewrite zdrop_le0 by lia. done.
Qed.

Lemma wp_emitToken type (Q : css_error -> T -> Prop) E t :
  emittable t -> 0 < read t -> strippable type (out t) -> type <> CSS_TOKEN_EOF ->
  (forall t1, emitted type (token_text type (out t)) t t1 -> Q CSS_OK t1) ->
  wp (emitToken type) Q E t.
Proof.
  intros He Hr Hs Hne HQ. pose proof (source_bound t He) as Hsb.
  unfold emitToken. apply wp_change. set (t0 := set_lx_token (set_tn_type type (lx_token t)) t).
  assert (Hptr : wp (token_pointer type) (fun d t1 => t1 = t0 /\ exists stale, d = Some (source t ++ stale)) E t0).
  { unfold token_pointer. apply wp_field. change (lx_escapeSeen t0) with (lx_escapeSeen t).
    unfold source. destruct (lx_escapeSeen t) eqn:Es.
    - apply wp_field. change (lx_unescapedTokenData t0) with (lx_unescapedTokenData t).
      pose proof (em_buffer t He) as Hb. unfold unescaped.
      destruct (lx_unescapedTokenData t) as [b|]; [|congruence].
      split; [done|]. exists []. by rewrite app_nil_r.
    - destruct (peek_front t (em_input t He)) as (stale & n & Hp); [pose proof (em_read t He); lia|].
      unfold wp, seq, peek_input. change (lx_input t0) with (lx_input t). rewrite Hp.
      rewrite bool_decide_eq_false_2 by done. split; [by destruct t|]. by exists stale. }
  apply wp_seq. eapply lex_wp_mono; [exact Hptr| |done]. intros d t1 [-> [stale ->]].
  unfold change_token. apply wp_change.
  match goal with |- wp _ _ _ ?x => set (t2 := x) end.
  assert (Hh : holds (out t) (lx_token t2)).
  { pose proof (em_len t He) as Hl. unfold out. split; unfold t2, t0; lx_cbn.
    - rewrite zlen_ztake. fold (len t). lia.
    - rewrite zlen_ztake. lia.
    - eexists _, (zdrop (len t) (source t) ++ stale). split; [done|].
      by rewrite app_assoc, ztake_zdrop. }
  apply wp_seq. eapply lex_wp_mono; [apply (strips_token _ _ Hs Hne _ Hh)| |done].
  intros _ t3 [Hh3 (d & n & ->)]. apply wp_seq, wp_change, wp_give, HQ.
  unfold t2, t0 in *. lx_cbn. destruct Hh3 as [Hl3 Hb3 (p & stale3 & Hd3 & Hp3)]. lx_cbn.
  split; lx_cbn; try done. unfold token_bytes. lx_cbn. rewrite Hd3, Hl3, Hp3.
  rewrite mem_read_in by (rewrite ?zlen_app; zlens; lia).
  rewrite zdrop_le0, ztake_app_le, ztake_ge by lia. done.
Qed.

(** The end of the input, where a token is emitted without data. *)
Lemma wp_emit_eof (Q : css_error -> T -> Prop) E t :
  is_wf (lx_input t) -> lx_escapeSeen t = false ->
  0 < zlen (avail t) \/ is_ended (lx_input t) /\ zlen (avail t) = 0 ->
  (forall t1, emitted CSS_TOKEN_EOF [] t t1 -> Q CSS_OK t1) ->
  wp (emitToken CSS_TOKEN_EOF) Q E t.
Proof.
  intros Hw Hs Ha HQ. unfold emitToken. apply wp_change, wp_seq.
  unfold token_pointer. apply wp_field. change (lx_escapeSeen _) with (lx_escapeSeen t). rewrite Hs.
  assert (Hp : exists r, is_peek (lx_input t) 0 = Some (r, lx_input t)).
  { destruct Ha as [Ha|[He Ha]].
    - destruct (peek_front t Hw Ha) as (stale & n & Hp). eauto.
    - pose proof (is_peek_ended _ Hw He) as Hp. unfold avail in Ha. rewrite Ha in Hp. eauto. }
  destruct Hp as [r Hp]. unfold wp, seq at 1, peek_input. cbn [lx_input set_lx_token]. rewrite Hp.
  rewrite bool_decide_eq_true_2 by done. apply HQ. split; done.
Qed.
End Emit.
