(* ===== verification/CssLexEscape.v ===== *)
(** * CssLexEscape: consumeEscape and consumeUnicode against the scanner
    [escape]. *)
From S2P Require Import Prelude Errors Utf8 Interfaces CssLexState CssLexRef.
From S2P Require Import CssLexRules.

Section Escape.
Context {St B : Type} `{!InputStreamOps St} `{!InputStream St} `{!ByteBufferOps B}
  `{!ByteBuffer B} `{!ByteBufferMakeOps B} `{!ByteBufferMake B}.
Local Abbreviation T := (css_lexer St B).
Local Abbreviation M := (lexes (css_lexer St B)).
Implicit Types t : T.

(** ** Steps of a scanner at the cursor of a lexer *)

Lemma steps_refl {A} t (R : scan A) c : steps t R c R c.
Proof. apply steps_on_refl. Qed.

Lemma steps_trans {A} t (R1 R2 R3 : scan A) c1 c2 c3 :
  steps t R1 c1 R2 c2 -> steps t R2 c2 R3 c3 -> steps t R1 c1 R3 c3.
Proof. apply steps_on_trans. Qed.

Lemma steps_bind {A C} t (R R' : scan A) (K : A -> scan C) c c' :
  steps t R c R' c' -> steps t (sbind R K) c (sbind R' K) c'.
Proof. apply steps_on_bind. Qed.

Lemma steps_done {A C} t (R : scan A) (a : A) (K : A -> scan C) c c' :
  steps t R c (sret a) c' -> steps t (sbind R K) c (K a) c'.
Proof. apply steps_on_done. Qed.

Lemma steps_next_at {A} t k (K : option Z -> scan A) p o c :
  znth (avail t) (p + k) = Some c -> steps t (sbind (next_at k) K) (p, o) (K (Some c)) (p, o).
Proof. intros H. apply steps_on_next. intros text final Ht. by eapply completes_znth. Qed.

Lemma steps_next {A} t (K : option Z -> scan A) p o c :
  znth (avail t) p = Some c -> steps t (sbind next K) (p, o) (K (Some c)) (p, o).
Proof. intros H. apply steps_next_at. by rewrite Z.add_0_r. Qed.

Lemma steps_end_at {A} t k (K : option Z -> scan A) p o :
  is_ended (lx_input t) -> zlen (avail t) = p + k ->
  steps t (sbind (next_at k) K) (p, o) (K None) (p, o).
Proof.
  intros He Hl. apply steps_on_next_end. intros text final (m & -> & Hm).
  destruct (Hm He) as [-> ->]. rewrite app_nil_r. unfold avail in Hl. split; [lia|done].
Qed.

Lemma steps_end {A} t (K : option Z -> scan A) p o :
  is_ended (lx_input t) -> zlen (avail t) = p -> steps t (sbind next K) (p, o) (K None) (p, o).
Proof. intros He Hl. apply steps_end_at; [done|]. by rewrite Z.add_0_r. Qed.

Lemma steps_char {A} t (K : unit -> scan A) p o c :
  znth (avail t) p = Some c -> p + char_len c <= zlen (avail t) ->
  steps t (sbind take_char K) (p, o) (K tt)
    (p + char_len c, o ++ ztake (char_len c) (zdrop p (avail t))).
Proof.
  intros Hc Hl. apply steps_on_take. intros text final Ht.
  split; [by eapply completes_znth|]. destruct (completes_prefix _ _ _ Ht) as [m ->].
  pose proof (znth_Some_range _ _ _ Hc). pose proof (char_len_range c).
  rewrite zdrop_app_le by lia. rewrite ztake_app_le; [done|]. rewrite zlen_zdrop. lia.
Qed.

Lemma steps_took {A} t t1 (K : unit -> scan A) c :
  took c t t1 -> znth (avail t) (read t) = Some c -> read t + char_len c <= zlen (avail t) ->
  steps t1 (sbind take_char K) (cur t) (K tt) (cur t1).
Proof.
  intros Ht Hc Hl. rewrite (tk_cur _ _ _ Ht). eapply steps_later; [apply Ht|].
  by apply steps_char.
Qed.

(** ** Reading ahead *)

Lemma extends_trans t1 t2 t3 : extends t1 t2 -> extends t2 t3 -> extends t1 t3.
Proof.
  intros (s & -> & Hw & Ht & Hl & m & Hm) (s1 & -> & Hw1 & Ht1 & Hl1 & m1 & Hm1).
  exists s1. split; [done|]. split; [done|]. split; [lia|]. split; [by eapply later_trans|].
  exists (m ++ m1). rewrite Hm1, Hm. by rewrite app_assoc.
Qed.

(** [t1] is [t], but for the stream and the count of what was read. *)
Definition ahead t t1 : Prop := extends t (set_lx_bytesReadForToken (read t) t1).

Lemma ahead_extends t t1 t2 : ahead t t1 -> extends t1 t2 -> ahead t t2.
Proof.
  intros Ha (s & -> & Hw & Ht & Hl & m & Hm). eapply extends_trans; [exact Ha|].
  exists s. split; [done|]. split; [done|]. split; [exact Ht|]. split; [exact Hl|]. by exists m.
Qed.

Lemma ahead_skip t t1 n : ahead t t1 -> ahead t (set_lx_bytesReadForToken n t1).
Proof. done. Qed.

Lemma ahead_refl t : is_wf (lx_input t) -> ahead t t.
Proof.
  intros Hw. unfold ahead. replace (set_lx_bytesReadForToken (read t) t) with t by (by destruct t).
  by apply lex_extends_refl.
Qed.

Lemma ahead_kept t t1 : ahead t t1 -> kept t t1.
Proof.
  intros Ha. pose proof (kept_extends _ _ Ha) as [? ? ? ? Hl Ht]. lx_cbn. split; try done.
Qed.

(** In a lexer that has seen an escape, what is read does not touch the text. *)
Record seen_ok t : Prop := {
  so_ok : lexer_ok 0 t;
  so_seen : lx_escapeSeen t = true
}.

Lemma seen_extends t t1 : extends t t1 -> seen_ok t -> seen_ok t1.
Proof.
  intros Hx [Hk Hs]. split; [by eapply extends_ok|]. destruct Hx as (s & -> & _). done.
Qed.

Lemma seen_read t n : seen_ok t -> 0 < n <= zlen (avail t) -> seen_ok (set_lx_bytesReadForToken n t).
Proof.
  intros [Hk Hs] Hn. split; [|done]. pose proof (lk_len 0 t Hk) as Hl. destruct Hk.
  split; try done. rewrite Hs in Hl. cbn [lx_escapeSeen set_lx_bytesReadForToken]. by rewrite Hs.
Qed.

Lemma seen_out t n : lx_escapeSeen t = true -> out (set_lx_bytesReadForToken n t) = out t.
Proof. done. Qed.

Lemma ahead_out t t1 : seen_ok t -> ahead t t1 -> out t1 = out t.
Proof.
  intros [Hk Hs] Ha. pose proof (extends_cur 0 _ _ ltac:(lia) Ha Hk) as Hc.
  exact (f_equal snd Hc).
Qed.

Lemma ahead_seen t t1 : seen_ok t -> ahead t t1 -> 0 < read t1 <= zlen (avail t1) -> seen_ok t1.
Proof.
  intros Hs Ha Hr. pose proof (seen_extends _ _ Ha Hs) as H1.
  pose proof (seen_read _ (read t1) H1 Hr) as H2. by destruct t1.
Qed.

Lemma wp_look_or_rewind {C} t0 off (k : option (bytes * Z) -> M C) (Q : C -> T -> Prop) E t :
  ahead t0 t -> is_wf (lx_input t) -> 0 <= off <= zlen (avail t) -> lenient E ->
  (forall t1 c ptr, extends t t1 -> znth (avail t1) off = Some c -> points_to t1 off ptr ->
     off + char_len c <= zlen (avail t1) -> wp (k (Some (ptr, char_len c))) Q E t1) ->
  (forall t1, extends t t1 -> is_ended (lx_input t1) -> zlen (avail t1) = off ->
     wp (k None) Q E t1) ->
  (forall t1, extends t0 t1 -> E CSS_NEEDDATA t1) ->
  wp (seq (look_or_rewind off (read t0)) k) Q E t.
Proof.
  intros Ha Hi Hoff HE Hok Heof Hmore. apply wp_seq, wp_seq, wp_peek_input; [done..| | |].
  - intros t1 Hx He Hl. by apply Heof.
  - intros t1 Hx. apply wp_change, wp_return, Hmore. by eapply ahead_extends.
  - intros t1 e He. destruct e; try (by destruct He as (? & ? & ? & ?));
      apply wp_change, wp_return; by apply HE.
Qed.

Lemma isHex_ascii c : isHex c = true -> 0 <= c < 128.
Proof.
  unfold isHex, isDigit. rewrite !orb_true_iff, !andb_true_iff, !Z.leb_le. lia.
Qed.

Lemma isSpace_ascii c : isSpace c = true -> 0 <= c < 128.
Proof. unfold isSpace. rewrite !orb_true_iff, !Z.eqb_eq. lia. Qed.

Lemma wp_more_hex_digits t0 n ucs (Q : Z -> T -> Prop) E t :
  seen_ok t0 -> ahead t0 t -> 0 < read t <= zlen (avail t) -> lenient E ->
  (forall t1, extends t0 t1 -> E CSS_NEEDDATA t1) ->
  (forall v t1, ahead t0 t1 -> read t <= read t1 <= zlen (avail t1) -> later t t1 ->
     (forall o, steps t1 (hex_digits n ucs) (read t, o) (sret v) (read t1, o)) -> Q v t1) ->
  wp (more_hex_digits n (read t0) ucs) Q E t.
Proof.
  intros Hs0. revert ucs t. induction n as [|n IH]; intros ucs t Ha Hr HE Hmore HQ.
  { apply HQ; [done|lia|apply later_refl|]. intros o. apply steps_refl. }
  cbn [more_hex_digits]. apply wp_field. fold (read t).
  pose proof (ahead_seen _ _ Hs0 Ha Hr) as Hs.
  apply wp_look_or_rewind; [done|apply Hs|lia|done| | |done].
  - intros t1 c ptr Hx Hc Hp Hl. pose proof (ahead_extends _ _ _ Ha Hx) as Ha1.
    eapply wp_octet; [exact Hp|lia|exact Hc|].
    assert (Hr1 : read t1 = read t) by (by destruct Hx as (s & -> & _)).
    pose proof (kp_later _ _ (kept_extends _ _ Hx)) as Hl1.
    destruct (isHex c) eqn:Hh.
    + rewrite (char_len_ascii c) by (by apply isHex_ascii). unfold skip_bytes. apply wp_change.
      rewrite (char_len_ascii c) in Hl by (by apply isHex_ascii).
      set (t2 := set_lx_bytesReadForToken _ t1).
      assert (Hr2 : read t2 = read t + 1).
      { unfold t2, read. lx_cbn. fold (read t1). rewrite Hr1, u64_small; [done|].
        pose proof (read_bound 0 _ (so_ok _ Hs)). lia. }
      apply IH; [done|rewrite Hr2; change (avail t2) with (avail t1); lia|done..|].
      intros v t3 Ha3 Hr3 Hl3 Hst. apply HQ; [done|lia|by eapply later_trans|]. intros o.
      eapply steps_trans; [|rewrite Hr2 in Hst; apply Hst].
      eapply steps_later; [exact Hl3|]. cbn [hex_digits].
      eapply steps_trans; [apply steps_next, Hc|]. cbn beta iota. rewrite Hh. intros text final Ht r Hr'. exact Hr'.
    + apply HQ; [done|pose proof (znth_Some_range _ _ _ Hc); lia|done|]. intros o. rewrite Hr1.
      cbn [hex_digits]. eapply steps_trans; [apply steps_next, Hc|]. cbn beta iota. rewrite Hh.
      apply steps_refl.
  - intros t1 Hx He Hl. assert (Hr1 : read t1 = read t) by (by destruct Hx as (s & -> & _)).
    apply HQ; [by eapply ahead_extends|lia|apply (kept_extends _ _ Hx)|]. intros o. rewrite Hr1.
    cbn [hex_digits]. by apply steps_end.
Qed.

(** Where the character [r] tells of ends the space, if it is one. *)
Definition space_end (r : option (bytes * Z)) t : Z :=
  match r with
  | Some (ptr, n) =>
      read t + (match znth ptr 0 with Some c => if isSpace c then n else 0 | None => 0 end)
  | None => read t
  end.

Lemma znth_points t off ptr c :
  points_to t off ptr -> 0 <= off -> znth (avail t) off = Some c -> znth ptr 0 = Some c.
Proof.
  intros [stale ->] Ho Hc. pose proof (znth_Some_range _ _ _ Hc).
  rewrite znth_app_l by (rewrite zlen_zdrop; lia). by rewrite znth_zdrop, Z.add_0_r by lia.
Qed.

Lemma wp_trailing_space {C} t0 (k : option (bytes * Z) -> M C) (Q : C -> T -> Prop) E t :
  seen_ok t0 -> ahead t0 t -> 0 < read t <= zlen (avail t) -> lenient E ->
  (forall t1, extends t0 t1 -> E CSS_NEEDDATA t1) ->
  (forall r t1, ahead t0 t1 -> read t <= read t1 -> later t t1 ->
     (forall ptr n, r = Some (ptr, n) -> exists c, znth ptr 0 = Some c) ->
     read t1 <= space_end r t1 <= zlen (avail t1) ->
     (forall o, steps t1 space_after (read t, o) (sret tt) (space_end r t1, o)) ->
     wp (k r) Q E t1) ->
  wp (seq (trailing_space (read t0)) k) Q E t.
Proof.
  intros Hs0 Ha Hr HE Hmore HQ. apply wp_seq. unfold trailing_space. apply wp_field. fold (read t).
  pose proof (ahead_seen _ _ Hs0 Ha Hr) as Hs.
  apply wp_look_or_rewind; [done|apply Hs|lia|done| | |done].
  2:{ intros t1 Hx He Hl. assert (Hr1 : read t1 = read t) by (by destruct Hx as (s & -> & _)).
      apply wp_give, HQ; [by eapply ahead_extends|lia|apply (kept_extends _ _ Hx)|done|cbn; lia|].
      intros o. cbn [space_end]. rewrite Hr1. by apply steps_end. }
  intros t1 c ptr Hx Hc Hp Hl. pose proof (ahead_extends _ _ _ Ha Hx) as Ha1.
  assert (Hr1 : read t1 = read t) by (by destruct Hx as (s & -> & _)).
  pose proof (kp_later _ _ (kept_extends _ _ Hx)) as Hl1.
  pose proof (znth_points _ _ _ _ Hp ltac:(lia) Hc) as Hpc.
  eapply wp_octet; [exact Hp|lia|exact Hc|].
  destruct (c =? 0x0D) eqn:Ecr.
  - apply Z.eqb_eq in Ecr as ->. rewrite (char_len_ascii 0x0D) in Hl by lia.
    pose proof (read_bound 0 _ (so_ok _ Hs)) as Hb. rewrite u64_small by lia.
    assert (Hs1 : seen_ok t1) by (by eapply seen_extends).
    apply wp_look_or_rewind; [done|apply Hs1|lia|done| | |done].
    + intros t2 d ptr2 Hx2 Hd Hp2 Hl2. pose proof (ahead_extends _ _ _ Ha1 Hx2) as Ha2.
      assert (Hr2 : read t2 = read t) by (destruct Hx2 as (s & -> & _); exact Hr1).
      pose proof (later_trans _ _ _ Hl1 (kp_later _ _ (kept_extends _ _ Hx2))) as Hl3.
      pose proof (znth_points _ _ _ _ Hp2 ltac:(lia) Hd) as Hpd.
      assert (Hc2 : znth (avail t2) (read t) = Some 0x0D).
      { destruct Hx2 as (s & -> & _ & _ & _ & m & Hm). rewrite Hm.
        pose proof (znth_Some_range _ _ _ Hc). by rewrite znth_app_l by lia. }
      eapply wp_octet; [exact Hp2|lia|exact Hd|].
      assert (Hst : forall o, steps t2 space_after (read t, o)
                (sret tt) (read t + (if bool_decide (Some d = Some 0x0A) then 2 else 1), o)).
      { intros o. eapply steps_trans; [apply steps_next, Hc2|]. cbn beta iota.
        change (0x0D =? 0x0D) with true. cbn iota.
        eapply steps_trans; [by apply steps_next_at|]. intros text final _ r Hr'. exact Hr'. }
      pose proof (znth_Some_range _ _ _ Hd) as Hdr.
      destruct (d =? 0x0A) eqn:Elf.
      * apply Z.eqb_eq in Elf as ->. rewrite bool_decide_eq_true_2 in Hst by done.
        rewrite (char_len_ascii 0x0A) in * by lia. unfold skip_bytes. apply wp_change, wp_give.
        set (t3 := set_lx_bytesReadForToken _ t2).
        assert (Hr3 : read t3 = read t + 1).
        { unfold t3, read. lx_cbn. fold (read t2). rewrite Hr2, u64_small by lia. done. }
        assert (Hse : space_end (Some (ptr2, 1)) t3 = read t + 2).
        { cbn [space_end]. rewrite Hpd. change (isSpace 0x0A) with true. cbn iota. lia. }
        apply HQ; [exact Ha2|lia|exact Hl3| | |].
        -- intros p n [= <- <-]. eauto.
        -- rewrite Hse, Hr3. change (avail t3) with (avail t2). lia.
        -- intros o. rewrite Hse. apply Hst.
      * assert (Hse : space_end (Some (ptr, 1)) t2 = read t + 1).
        { cbn [space_end]. rewrite Hpc. change (isSpace 0x0D) with true. cbn iota. lia. }
        apply wp_give, HQ; [exact Ha2|lia|exact Hl3| | |].
        -- intros p n [= <- <-]. eauto.
        -- rewrite Hse, Hr2. lia.
        -- intros o. rewrite Hse. specialize (Hst o). rewrite bool_decide_eq_false_2 in Hst; [done|].
           intros [= ->]. done.
    + intros t2 Hx2 He2 Hl2. pose proof (ahead_extends _ _ _ Ha1 Hx2) as Ha2.
      assert (Hr2 : read t2 = read t) by (destruct Hx2 as (s & -> & _); exact Hr1).
      assert (Hc2 : znth (avail t2) (read t) = Some 0x0D).
      { destruct Hx2 as (s & -> & _ & _ & _ & m & Hm). rewrite Hm.
        pose proof (znth_Some_range _ _ _ Hc). by rewrite znth_app_l by lia. }
      assert (Hse : space_end (Some (ptr, 1)) t2 = read t + 1).
      { cbn [space_end]. rewrite Hpc. change (isSpace 0x0D) with true. cbn iota. lia. }
      apply wp_give, HQ; [exact Ha2|lia| | | |].
      * eapply later_trans; [exact Hl1|]. apply (kept_extends _ _ Hx2).
      * intros p n [= <- <-]. eauto.
      * rewrite Hse, Hr2. lia.
      * intros o. rewrite Hse. eapply steps_trans; [apply steps_next, Hc2|]. cbn beta iota.
        change (0x0D =? 0x0D) with true. cbn iota.
        eapply steps_trans; [by apply steps_end_at|]. intros text final _ r Hr'. exact Hr'.
  - assert (Hse : space_end (Some (ptr, char_len c)) t1 = read t + (if isSpace c then 1 else 0)).
    { cbn [space_end]. rewrite Hpc. destruct (isSpace c) eqn:Es; [|lia].
      rewrite (char_len_ascii c) by (by apply isSpace_ascii). lia. }
    pose proof (char_len_range c).
    apply wp_give, HQ; [exact Ha1|lia|exact Hl1| | |].
    + intros p n [= <- <-]. eauto.
    + rewrite Hse, Hr1. destruct (isSpace c); lia.
    + intros o. rewrite Hse. eapply steps_trans; [apply steps_next, Hc|]. cbn beta iota. rewrite Ecr.
      destruct (isSpace c); intros text final _ r Hr'; [exact Hr'|].
      rewrite Z.add_0_r in Hr'. exact Hr'.
Qed.

(** ** consumeUnicode *)

Lemma sanitise_range ucs : 9 <= sanitise ucs <= 0x10FFFF.
Proof.
  unfold sanitise. destruct (_ || _) eqn:E; [lia|].
  repeat (apply orb_false_elim in E; destruct E as [E ?]). zbool.
  destruct (Z.eqb_spec ucs 0x000D); lia.
Qed.

Lemma sanitised_encodes ucs :
  exists d, utf8_from_ucs4 (sanitise ucs) SIZEOF_UTF8 = (PARSERUTILS_OK, d).
Proof.
  pose proof (sanitise_range ucs) as Hr. unfold utf8_from_ucs4, utf8_encoded_length, SIZEOF_UTF8.
  destruct (Z.ltb_spec (sanitise ucs) 0x80); [eauto|].
  destruct (Z.ltb_spec (sanitise ucs) 0x800); [cbn; eauto|].
  destruct (Z.ltb_spec (sanitise ucs) 0x10000); [cbn; eauto|].
  destruct (Z.ltb_spec (sanitise ucs) 0x200000); [cbn; eauto|lia].
Qed.

(** More text for a token that has seen an escape. *)
Lemma wp_append_seen d (Q : css_error -> T -> Prop) E t :
  seen_ok t -> lenient E ->
  (forall t1, alike t (set_lx_token (lx_token t) (set_lx_unescapedTokenData (lx_unescapedTokenData t) t1)) ->
     seen_ok t1 -> out t1 = out t ++ d -> len t <= len t1 -> Q CSS_OK t1) ->
  wp (appendToTokenData d (zlen d)) Q E t.
Proof.
  intros Hs HE HQ. pose proof (lk_buffer 0 t (so_ok t Hs)) as Hb. rewrite (so_seen t Hs) in Hb.
  destruct (lx_unescapedTokenData t) as [b|] eqn:Eb; [|done].
  pose proof (lk_len 0 t (so_ok t Hs)) as Hl. rewrite (so_seen t Hs) in Hl.
  unfold unescaped in Hl. rewrite Eb in Hl.
  eapply wp_append_unescaped; [done|done|apply Hs| |done|].
  { rewrite mem_read_in by (zlens; lia). rewrite zdrop_le0, ztake_ge by lia. done. }
  intros b1 Hw1 Hb1. pose proof (bb_bound b1 Hw1) as Hbb. rewrite Hb1, zlen_app in Hbb.
  assert (Hu : u64 (len t + zlen d) = zlen (bb_bytes b1)).
  { rewrite Hb1, zlen_app, Hl. apply u64_small. zlens. lia. }
  rewrite Hu. apply HQ.
  - destruct t as [? ? [] ? ? ? ? ? ? ? ?]. lx_cbn. subst. apply lex_alike_refl.
  - destruct Hs as [[] Hs]. split; [|done]. split; try done; lx_cbn.
    + rewrite Hs. unfold unescaped, len. by lx_cbn.
    + unfold len. lx_cbn. zlens. lia.
    + congruence.
  - unfold out, source, len, unescaped. lx_cbn. rewrite (so_seen t Hs), Eb, (ztake_ge (tn_len _)).
    + by rewrite ztake_ge by lia.
    + unfold len in Hl. lia.
  - unfold len at 2. lx_cbn. rewrite Hb1, zlen_app. zlens. lia.
Qed.

Definition unicode_post (ucs : Z) t (e : css_error) t1 : Prop :=
  match e with
  | CSS_OK =>
      kept t t1 /\ seen_ok t1 /\ read t <= read t1 /\ len t <= len t1 /\
      steps t1 (code_point ucs) (cur t) (sret EscapeOk) (cur t1)
  | CSS_NEEDDATA => extends t t1
  | CSS_EOF | CSS_INVALID => False
  | _ => True
  end.

Lemma unicode_lenient ucs t : lenient (unicode_post ucs t).
Proof. intros e t1 (? & ? & ? & ?). by destruct e. Qed.

Lemma consumeUnicode_spec ucs t :
  seen_ok t -> wp (consumeUnicode ucs) (unicode_post ucs t) (unicode_post ucs t) t.
Proof.
  intros Hs. pose proof (lk_read 0 t (so_ok t Hs)) as Hr. pose proof (lk_input 0 t (so_ok t Hs)) as Hi.
  unfold consumeUnicode. apply wp_field. fold (read t). apply wp_seq.
  apply wp_more_hex_digits; [done|by apply ahead_refl|done|apply unicode_lenient|done|].
  intros v t1 Ha1 Hr1 Hl1 Hst1. destruct (sanitised_encodes v) as [d Hd]. rewrite Hd.
  apply wp_seq, wp_give.
  apply wp_trailing_space; [done|done|lia|apply unicode_lenient|done|].
  intros r t2 Ha2 Hr2 Hl2 Hc2 He2 Hst2.
  assert (Hs2 : seen_ok t2) by (eapply ahead_seen; [exact Hs|exact Ha2|lia]).
  pose proof (ahead_out _ _ Hs Ha2) as Ho2.
  apply wp_invoke, wp_append_seen; [done| |].
  { intros e t3 Ho. rewrite bool_decide_eq_false_2 by apply Ho. apply wp_change, wp_return.
    by apply unicode_lenient. }
  intros t3 Hal Hs3 Ho3 Hlen3. rewrite bool_decide_eq_true_2 by done. cbn [negb].
  (* the space, and where the cursor ends *)
  assert (Hin3 : lx_input t3 = lx_input t2 /\ read t3 = read t2 /\ kept t2 t3).
  { destruct Hal as (b & col & line & Hal). assert (Hal' := Hal).
    apply (f_equal (fun x => (lx_input x, lx_bytesReadForToken x))) in Hal. lx_cbn.
    injection Hal as Hin Hrd. split; [done|]. split; [done|]. apply kept_intro.
    - done.
    - exact (f_equal lx_state Hal').
    - exact (f_equal lx_substate Hal').
    - exists b. exact (f_equal lx_context Hal').
    - exact (f_equal lx_emit_comments Hal'). }
  destruct Hin3 as (Hin3 & Hrd3 & Hk3).
  assert (Hfin : forall t4, kept t t4 -> seen_ok t4 -> lx_input t4 = lx_input t2 ->
            read t4 = space_end r t2 -> out t4 = out t3 -> len t4 = len t3 ->
            unicode_post ucs t CSS_OK t4).
  { intros t4 Hk4 Hs4 Hi4 Hr4 Ho4 Hl4. split; [done|]. split; [done|]. split; [lia|].
    split; [pose proof (zlen_out 0 t (so_ok t Hs) ltac:(lia)); pose proof (zlen_out 0 t2 (so_ok _ Hs2) ltac:(lia));
            rewrite Ho2 in *; lia|].
    unfold cur. rewrite Ho4, Ho3, Ho2, Hr4.
    assert (Hl24 : later t2 t4) by (intros text final; by rewrite Hi4).
    assert (Hl14 : later t1 t4) by (by eapply later_trans).
    unfold code_point.
    eapply steps_trans; [eapply steps_later; [exact Hl14|]; apply steps_done, Hst1|].
    eapply steps_trans; [eapply steps_later; [exact Hl24|]; apply (steps_done _ _ tt), Hst2|].
    rewrite Hd. intros text final _ r' Hr'. exact Hr'. }
  assert (Hk03 : kept t t3) by (eapply lex_kept_trans; [by apply ahead_kept|done]).
  destruct r as [[ptr n]|].
  2:{ apply wp_give, Hfin; done. }
  destruct (Hc2 ptr n eq_refl) as [c Hc]. unfold octet. rewrite Hc. apply wp_seq, wp_give.
  cbn [space_end] in Hfin, He2. rewrite Hc in Hfin, He2.
  pose proof (read_bound 0 _ (so_ok _ Hs3)) as Hrb3.
  pose proof (is_avail_bound _ (lk_input 0 _ (so_ok _ Hs2))) as Hab. fold (avail t2) in Hab.
  assert (Hsk : wp (if isSpace c then skip_bytes n else give tt)
            (fun _ t4 => t4 = set_lx_bytesReadForToken (read t2 + if isSpace c then n else 0) t3)
            (unicode_post ucs t) t3).
  { destruct (isSpace c).
    - unfold skip_bytes, wp, change. fold (read t3). rewrite Hrd3, u64_small by lia. done.
    - rewrite Z.add_0_r, <- Hrd3. by destruct t3. }
  apply wp_seq. eapply lex_wp_mono; [exact Hsk| |done]. intros _ t4 ->.
  set (t4 := set_lx_bytesReadForToken _ t3).
  assert (Hs4 : seen_ok t4).
  { apply seen_read; [done|]. unfold avail. rewrite Hin3. fold (avail t2). lia. }
  assert (Hk4 : kept t t4).
  { eapply lex_kept_trans; [exact Hk03|]. apply kept_intro; try done. apply (same_but_cr t3). }
  assert (Hend : forall t5, alike t4 t5 -> wp (give CSS_OK) (unicode_post ucs t) (unicode_post ucs t) t5).
  { intros t5 H5. apply wp_give. pose proof (alike_cur _ _ H5) as Hc5. unfold cur in Hc5.
    assert (Hi5 : lx_input t5 = lx_input t2) by (destruct H5 as (? & ? & ? & ->); exact Hin3).
    apply Hfin; [|split|exact Hi5| | |].
    - eapply lex_kept_trans; [exact Hk4|by apply alike_kept].
    - eapply alike_ok; [exact H5|apply Hs4].
    - destruct H5 as (? & ? & ? & ->). apply Hs4.
    - by apply (f_equal fst) in Hc5.
    - by apply (f_equal snd) in Hc5.
    - by destruct H5 as (? & ? & ? & ->). }
  destruct (_ || _); [by apply wp_new_line|].
  change (wp (seq (add_col (lx_bytesReadForToken t4 - read t + 2)) (fun _ => give CSS_OK))
    (unicode_post ucs t) (unicode_post ucs t) t4).
  by apply wp_add_col.
Qed.

(** ** consumeEscape *)

(** The backslash was read and is not part of the token. *)
Record escaping t : Prop := {
  es_input : is_wf (lx_input t);
  es_read : 0 < read t <= zlen (avail t);
  es_buffer : match lx_unescapedTokenData t with
              | Some b => bb_wf b
              | None => lx_escapeSeen t = false
              end;
  es_len : lx_escapeSeen t = true -> len t = zlen (unescaped t);
  es_fresh : lx_escapeSeen t = false -> unescaped t = []
}.

Definition esc_out t : bytes :=
  if lx_escapeSeen t then unescaped t else ztake (read t - 1) (avail t).

Lemma lexer_escaping k t : lexer_ok k t -> escaping t.
Proof.
  intros Hk. pose proof (lk_len k t Hk) as Hl. destruct Hk. split; try done.
  intros Hs. by rewrite Hs in Hl.
Qed.

Lemma escaping_extends t t1 : extends t t1 -> escaping t ->
  escaping t1 /\ esc_out t1 = esc_out t /\ read t1 = read t.
Proof.
  intros (s & -> & Hw & _ & _ & m & Hm) []. unfold avail, read, len, unescaped in *. lx_cbn.
  split; [split|]; unfold esc_out, avail, read, len, unescaped in *; lx_cbn; try done.
  - rewrite Hm, zlen_app. zlens. lia.
  - rewrite Hm, ztake_app_le by lia. done.
Qed.

(** There is a buffer for unescaped data. *)
Lemma wp_create_unescaped {C} (k : unit -> M C) (Q : C -> T -> Prop) E t :
  escaping t -> lenient E ->
  (forall b, bb_wf b -> bb_bytes b = unescaped t ->
     wp (k tt) Q E (set_lx_unescapedTokenData (Some b) t)) ->
  wp (seq create_unescaped k) Q E t.
Proof.
  intros He HE HQ. unfold create_unescaped. apply wp_seq, wp_field.
  pose proof (es_buffer t He) as Hb. unfold unescaped in *.
  destruct (lx_unescapedTokenData t) as [b|] eqn:Eb.
  - apply wp_give. assert (Ht : t = set_lx_unescapedTokenData (Some b) t) by (rewrite <- Eb; by destruct t).
    rewrite Ht. by apply HQ.
  - destruct bb_create as [e r] eqn:Ec. apply bb_create_ok in Ec. destruct r as [b|].
    + destruct Ec as (-> & Hw & Hbb). unfold wp, seq, change. by apply (HQ b Hw Hbb).
    + subst e. by apply wp_return, HE.
Qed.

Lemma seen_intro t b :
  is_wf (lx_input t) -> 0 < read t <= zlen (avail t) -> lx_unescapedTokenData t = Some b ->
  bb_wf b -> lx_escapeSeen t = true -> len t = zlen (bb_bytes b) ->
  seen_ok t /\ out t = bb_bytes b.
Proof.
  intros Hi Hr Hb Hw Hs Hl. assert (Hu : unescaped t = bb_bytes b) by (unfold unescaped; by rewrite Hb).
  split; [split; [split|]; rewrite ?Hb, ?Hs, ?Hu, ?Hl; try done; zlens; lia|].
  unfold out, source. rewrite Hs, Hu, Hl. apply ztake_ge. lia.
Qed.

Lemma esc_out_seen t : seen_ok t -> esc_out t = out t.
Proof.
  intros [Hk Hs]. pose proof (lk_len 0 t Hk) as Hl. rewrite Hs in Hl.
  unfold esc_out, out, source. rewrite Hs. symmetry. apply ztake_ge. lia.
Qed.

(** From here on the token is made of unescaped data. *)
Lemma wp_start_unescaped {C} b (k : unit -> M C) (Q : C -> T -> Prop) E t :
  escaping t -> lx_unescapedTokenData t = Some b -> bb_wf b -> lenient E ->
  (forall t1, seen_ok t1 -> lx_input t1 = lx_input t -> kept t t1 -> read t1 = read t ->
     out t1 = esc_out t -> wp (k tt) Q E t1) ->
  wp (seq start_unescaped k) Q E t.
Proof.
  intros He Hb Hw HE HQ. pose proof (es_read t He) as Hr. pose proof (es_input t He) as Hi.
  unfold start_unescaped. apply wp_seq, wp_field. unfold esc_out in HQ.
  destruct (lx_escapeSeen t) eqn:Hs.
  - pose proof (es_len t He Hs) as Hl. unfold unescaped in *. rewrite Hb in *.
    destruct (seen_intro t b) as [Hso Ho]; [done..|]. apply wp_give, HQ; try done. apply lex_kept_refl.
  - pose proof (es_fresh t He Hs) as Hf. unfold unescaped in Hf. rewrite Hb in Hf.
    assert (Hfin : forall b1, bb_wf b1 -> bb_bytes b1 = ztake (read t - 1) (avail t) ->
      wp (k tt) Q E (set_lx_escapeSeen true (set_lx_token (set_tn_len (u64 (read t - 1)) (lx_token t))
                       (set_lx_unescapedTokenData (Some b1) t)))).
    { intros b1 Hw1 Hb1. pose proof (is_avail_bound _ Hi) as Ha. fold (avail t) in Ha.
      match goal with |- wp _ _ _ ?x => destruct (seen_intro x b1) as [Hso Ho] end; try done.
      - unfold len. lx_cbn. rewrite Hb1, zlen_ztake, u64_small; lia.
      - apply HQ; try done; [|by rewrite Ho]. apply kept_intro; try done. apply (same_but_cr t). }
    apply wp_field. fold (read t). pose proof (is_avail_bound _ Hi) as Ha. fold (avail t) in Ha.
    apply wp_seq. destruct (Z.ltb_spec 1 (read t)) as [H1|H1].
    + destruct (znth_is_Some (avail t) 0) as [c Hc]; [lia|].
      destruct (is_peek_avail _ 0 c Hi Hc) as [stale Hp]. rewrite zdrop_le0 in Hp by lia.
      unfold wp, seq at 1, peek_input. rewrite Hp.
      replace (set_lx_input (lx_input t) t) with t by (by destruct t).
      change (wp (get! d := known (mem_read 0 (u64 (read t - 1)) (avail t ++ stale)) in
                  get! perror := unescaped_append d in
                  match css_error_from_parserutils_error perror with
                  | CSS_OK => give tt
                  | error => return_error error
                  end)
                (fun _ => wp (run! change_token (set_tn_len (u64 (read t - 1))) in
                              change (set_lx_escapeSeen true)) (fun a => wp (k a) Q E) E) E t).
      rewrite u64_small by lia. eapply wp_known.
      { rewrite mem_read_in by (rewrite ?zlen_app; zlens; lia).
        rewrite zdrop_le0, ztake_app_le by lia. reflexivity. }
      apply wp_seq. unfold wp at 1, unescaped_append. rewrite Hb.
      destruct (bb_append_ok b (ztake (read t - 1) (avail t)) Hw) as (e & b1 & -> & Hw1 & [[-> Hd]|[-> Hd]]).
      * rewrite Hf in Hd. unfold change_token. apply wp_give, wp_change.
        specialize (Hfin b1 Hw1 Hd). rewrite u64_small in Hfin by lia. exact Hfin.
      * by apply wp_return, HE.
    + apply wp_give. unfold change_token. apply wp_change.
      assert (Ht : t = set_lx_unescapedTokenData (Some b) t) by (rewrite <- Hb; by destruct t).
      rewrite Ht. apply Hfin; [done|]. rewrite Hf, ztake_le0 by lia. done.
Qed.

Definition escape_post (nl : bool) t (e : css_error) t1 : Prop :=
  match e with
  | CSS_OK =>
      kept t t1 /\ seen_ok t1 /\ read t < read t1 /\ zlen (esc_out t) <= len t1 /\
      steps t1 (escape nl) (read t, esc_out t) (sret EscapeOk) (cur t1)
  | CSS_EOF =>
      extends t t1 /\ zlen (avail t1) = read t /\ is_ended (lx_input t1) /\
      steps t1 (escape nl) (read t, esc_out t) (sret EscapeEnd) (read t, esc_out t)
  | CSS_INVALID =>
      extends t t1 /\ nl = false /\
      (exists c, znth (avail t1) (read t) = Some c /\ isNewline c = true) /\
      steps t1 (escape nl) (read t, esc_out t) (sret EscapeBad) (read t, esc_out t)
  | CSS_NEEDDATA =>
      kept t t1 /\ escaping t1 /\ read t1 = read t /\ esc_out t1 = esc_out t /\
      (extends t t1 \/
       seen_ok t1 /\ exists c, znth (avail t1) (read t) = Some c /\ (nl = false -> isNewline c = false))
  | _ => True
  end.

Lemma escape_lenient nl t : lenient (escape_post nl t).
Proof. intros e t1 (? & ? & ? & ?). by destruct e. Qed.

(** CR LF in a string. *)
Lemma escaped_cr_spec t t1 :
  (forall e t2, odd e -> escape_post true t e t2) ->
  seen_ok t1 -> kept t t1 -> read t1 = read t -> out t1 = esc_out t ->
  znth (avail t1) (read t) = Some 0x0D ->
  wp (escaped_cr 1) (escape_post true t) (escape_post true t) t1.
Proof.
  intros HE Hs1 Hk1 Hr1 Ho1 Hc. pose proof (lk_read 0 _ (so_ok _ Hs1)) as Hrd.
  pose proof (read_bound 0 _ (so_ok _ Hs1)) as Hb. pose proof (znth_Some_range _ _ _ Hc).
  pose proof (zlen_out 0 _ (so_ok _ Hs1) ltac:(lia)) as Hlo. rewrite Ho1 in Hlo.
  unfold escaped_cr. apply wp_field. fold (read t1). rewrite u64_small by lia.
  (* what was appended, and what is skipped after it *)
  assert (Hgo : forall t2 r, extends t1 t2 ->
    (forall ptr n, r = Some (ptr, n) -> exists d, znth ptr 0 = Some d /\
       znth (avail t2) (read t + 1) = Some d /\ n = char_len d /\
       read t + 1 + n <= zlen (avail t2)) ->
    (r = None -> is_ended (lx_input t2) /\ zlen (avail t2) = read t + 1) ->
    wp (run! APPEND [0x0A] 1 in
        run! new_line 1 in
        run! (match r with
              | None => give tt
              | Some (cptr, clen) =>
                  get! c := octet cptr in if c =? 0x0A then skip_bytes clen else give tt
              end) in
        give CSS_OK) (escape_post true t) (escape_post true t) t2).
  { intros t2 r Hx Hsome Hnone. pose proof (seen_extends _ _ Hx Hs1) as Hs2.
    pose proof (extends_cur 0 _ _ ltac:(lia) Hx (so_ok _ Hs1)) as Hc2. unfold cur in Hc2.
    injection Hc2 as Hr2 Ho2. assert (Ha2 : read t + 1 <= zlen (avail t2)).
    { destruct Hx as (s & -> & _ & _ & _ & m & Hm). rewrite Hm, zlen_app. zlens. lia. }
    assert (Hcr : znth (avail t2) (read t) = Some 0x0D).
    { destruct Hx as (s & -> & _ & _ & _ & m & Hm). rewrite Hm. by rewrite znth_app_l by lia. }
    unfold APPEND. apply wp_seq, lex_wp_check. apply (wp_append_seen [0x0A]); [done| |].
    { intros e t3 Ho. rewrite bool_decide_eq_false_2 by apply Ho. by apply HE. }
    intros t3 Hal Hs3 Ho3 Hl3. rewrite bool_decide_eq_true_2 by done.
    assert (Hin3 : lx_input t3 = lx_input t2 /\ read t3 = read t2 /\ kept t2 t3).
    { destruct Hal as (b & col & line & Hal). assert (Hal' := Hal).
      apply (f_equal (fun x => (lx_input x, lx_bytesReadForToken x))) in Hal. lx_cbn.
      injection Hal as Hin Hrd3. split; [done|]. split; [done|]. apply kept_intro.
      - done.
      - exact (f_equal lx_state Hal').
      - exact (f_equal lx_substate Hal').
      - exists b. exact (f_equal lx_context Hal').
      - exact (f_equal lx_emit_comments Hal'). }
    destruct Hin3 as (Hin3 & Hrd3 & Hk3).
    unfold skip_bytes. apply wp_change.
    assert (Hfin : forall n t4, alike (set_lx_bytesReadForToken n t3) t4 ->
              read t < n <= zlen (avail t2) ->
              steps t2 (escape true) (read t, esc_out t) (sret EscapeOk) (n, esc_out t ++ [0x0A]) ->
              escape_post true t CSS_OK t4).
    { intros n t4 H4 Hn Hst.
      assert (Hs3n : seen_ok (set_lx_bytesReadForToken n t3)).
      { apply seen_read; [done|]. unfold avail. rewrite Hin3. fold (avail t2). lia. }
      assert (Hi4 : lx_input t4 = lx_input t2) by (destruct H4 as (? & ? & ? & ->); exact Hin3).
      pose proof (alike_cur _ _ H4) as Hc4. unfold cur in Hc4. injection Hc4 as Hr4 Ho4.
      assert (Hs4 : seen_ok t4).
      { split; [eapply alike_ok; [exact H4|apply Hs3n]|]. destruct H4 as (? & ? & ? & ->). apply Hs3. }
      split; [|split; [done|split; [|split]]].
      - eapply lex_kept_trans; [exact Hk1|]. eapply lex_kept_trans; [by apply kept_extends|].
        eapply lex_kept_trans; [exact Hk3|]. eapply lex_kept_trans; [|by apply alike_kept].
        apply kept_intro; try done. apply (same_but_cr t3).
      - rewrite Hr4. change (read (set_lx_bytesReadForToken n t3)) with n. lia.
      - pose proof (zlen_out 0 _ (so_ok _ Hs4) ltac:(lia)) as Hz. rewrite <- Hz, Ho4.
        change (out (set_lx_bytesReadForToken n t3)) with (out t3). rewrite Ho3, Ho2, Ho1, zlen_app.
        zlens. lia.
      - unfold cur. rewrite Ho4, Hr4. change (read (set_lx_bytesReadForToken n t3)) with n.
        change (out (set_lx_bytesReadForToken n t3)) with (out t3). rewrite Ho3, Ho2, Ho1.
        eapply steps_later; [|exact Hst]. intros text final. by rewrite Hi4. }
    assert (Hpre : forall (K : option Z -> scan escape_result),
      steps t2 (escape true) (read t, esc_out t)
        (scan! d := next_at 1 in
         then! leave (if bool_decide (d = Some 0x0A) then 2 else 1) in
         then! put [0x0A] in sret EscapeOk)%scan (read t, esc_out t)).
    { intros _. unfold escape. eapply steps_trans; [apply steps_next, Hcr|]. apply steps_refl. }
    specialize (Hpre (fun _ => sret EscapeOk)).
    assert (Hu : u64 (lx_bytesReadForToken t3 + 1) = read t + 1).
    { fold (read t3). rewrite Hrd3, Hr2, Hr1.
      apply u64_small. lia. }
    rewrite Hu. apply wp_add_col. intros t4 H4. apply wp_new_line. intros t5 H5.
    assert (H5' : alike (set_lx_bytesReadForToken (read t + 1) t3) t5) by (by eapply lex_alike_trans).
    apply wp_seq. destruct r as [[ptr n]|].
    - destruct (Hsome ptr n eq_refl) as (d & Hd & Hda & -> & Hfit). unfold octet. rewrite Hd.
      apply wp_seq, wp_give. destruct (Z.eqb_spec d 0x0A) as [->|Hne].
      + rewrite (char_len_ascii 0x0A) in * by lia. unfold wp at 1, change. apply wp_give.
        assert (Hr5 : lx_bytesReadForToken t5 = read t + 1).
        { destruct H5' as (? & ? & ? & ->). done. }
        rewrite Hr5, u64_small by lia.
        apply (Hfin (read t + 1 + 1)); [|lia|].
        * destruct H5' as (b & col & line & ->). by exists b, col, line.
        * eapply steps_trans; [exact Hpre|]. eapply steps_trans; [by apply steps_next_at|].
          rewrite bool_decide_eq_true_2 by done. intros text final _ r Hr.
          replace (read t + 1 + 1) with (read t + 2) in Hr by lia. exact Hr.
      + apply wp_give, (Hfin (read t + 1)); [done|lia|].
        eapply steps_trans; [exact Hpre|]. eapply steps_trans; [by apply steps_next_at|].
        rewrite bool_decide_eq_false_2 by congruence. intros text final _ r Hr. exact Hr.
    - destruct (Hnone eq_refl) as [He Hl]. apply wp_give, wp_give, (Hfin (read t + 1)); [done|lia|].
      eapply steps_trans; [exact Hpre|]. eapply steps_trans; [by apply steps_end_at|].
      intros text final _ r Hr. exact Hr. }
  apply wp_look_at; [apply Hs1|lia|done| | |].
  - intros t2 c ptr Hx Hcc Hp Hl. apply (Hgo t2 (Some (ptr, char_len c))); [done| |done]. intros ptr' n [= <- <-].
    rewrite Hr1 in Hcc, Hp, Hl. exists c. split_and!; try done.
    eapply znth_points; [exact Hp|lia|done].
  - intros t2 Hx He Hl. apply (Hgo t2 None); [done|done|]. intros _. split; [done|lia].
  - intros t2 Hx. pose proof (seen_extends _ _ Hx Hs1) as Hs2.
    pose proof (extends_cur 0 _ _ ltac:(lia) Hx (so_ok _ Hs1)) as Hc2. unfold cur in Hc2.
    injection Hc2 as Hr2 Ho2.
    split; [eapply lex_kept_trans; [exact Hk1|by apply kept_extends]|].
    split; [by apply (lexer_escaping 0), Hs2|]. split; [by rewrite Hr2|].
    split.
    + rewrite esc_out_seen by done. exact (eq_trans Ho2 Ho1).
    + right. split; [done|]. exists 0x0D. split; [|done].
      destruct Hx as (s & -> & _ & _ & _ & m & Hm). rewrite Hm. by rewrite znth_app_l by lia.
Qed.

(** One escape: the token's text grows by what it stands for, or nothing but
    the stream changes, or there is more to come and the lexer can go on from
    after the backslash. *)
Lemma consumeEscape_spec nl t :
  escaping t -> wp (consumeEscape nl) (escape_post nl t) (escape_post nl t) t.
Proof.
  intros He. pose proof (es_read t He) as Hr. pose proof (es_input t He) as Hi.
  unfold consumeEscape.
  match goal with |- wp (seq look ?f) ?Q ?E t => change (wp (seq (look_at (read t)) f) Q E t) end.
  apply wp_look_at; [done|lia|apply escape_lenient| | |].
  2:{ intros t1 Hx Hend Hl. split; [done|]. split; [done|]. split; [done|].
      unfold escape. eapply steps_trans; [by apply steps_end|]. apply steps_refl. }
  2:{ intros t1 Hx. destruct (escaping_extends _ _ Hx He) as (He1 & Ho1 & Hr1).
      split; [by apply kept_extends|]. split; [done|]. split; [done|]. split; [done|]. by left. }
  intros t1 c ptr Hx Hc Hp Hl. destruct (escaping_extends _ _ Hx He) as (He1 & Ho1 & Hr1).
  eapply wp_octet; [exact Hp|lia|exact Hc|].
  assert (Hst : steps t1 (escape nl) (read t, esc_out t)
    ((if negb nl && isNewline c then sret EscapeBad
      else if isHex c then then! leave 1 in code_point (charToHex c)
      else if nl && (c =? 0x0D) then
        scan! d := next_at 1 in
        then! leave (if bool_decide (d = Some 0x0A) then 2 else 1) in
        then! put [0x0A] in sret EscapeOk
      else then! take_char in sret EscapeOk)%scan) (read t, esc_out t)).
  { unfold escape. eapply steps_trans; [apply steps_next, Hc|]. apply steps_refl. }
  destruct (negb nl && isNewline c) eqn:Enl.
  { apply andb_prop in Enl as [Hnl Hn]. apply negb_true_iff in Hnl as ->.
    split; [done|]. split; [done|]. split; [by exists c|done]. }
  apply wp_create_unescaped; [done|apply escape_lenient|]. intros b Hw Hb.
  assert (Heb : escaping (set_lx_unescapedTokenData (Some b) t1)).
  { destruct He1. split; try done; unfold len, unescaped in *; lx_cbn; by rewrite Hb. }
  assert (Hob : esc_out (set_lx_unescapedTokenData (Some b) t1) = esc_out t1).
  { unfold esc_out, unescaped. lx_cbn. by rewrite Hb. }
  eapply wp_start_unescaped; [exact Heb|reflexivity|done|apply escape_lenient|].
  intros t2 Hs2 Hi2 Hk2 Hr2 Ho2. rewrite Hob, Ho1 in Ho2.
  change (read (set_lx_unescapedTokenData (Some b) t1)) with (read t1) in Hr2. rewrite Hr1 in Hr2.
  change (lx_input (set_lx_unescapedTokenData (Some b) t1)) with (lx_input t1) in Hi2.
  assert (Ha2 : avail t2 = avail t1) by (unfold avail; by rewrite Hi2).
  assert (Hk02 : kept t t2).
  { eapply lex_kept_trans; [by apply kept_extends|]. eapply lex_kept_trans; [|exact Hk2].
    apply kept_intro; try done. apply (same_but_cr t1). }
  assert (Hst2 : forall R, steps t1 (escape nl) (read t, esc_out t) R (read t, esc_out t) ->
            steps t2 (escape nl) (read t, esc_out t) R (cur t2)).
  { intros R H. unfold cur. rewrite Hr2, Ho2. eapply steps_later; [|exact H].
    intros text final. by rewrite Hi2. }
  clear He1 Heb Hob Hk2.
  pose proof (zlen_out 0 _ (so_ok _ Hs2) ltac:(lia)) as Hz2. rewrite Ho2 in Hz2.
  destruct (isHex c) eqn:Ehex.
  - pose proof (isHex_ascii c Ehex) as Hasc. rewrite (char_len_ascii c) in * by done.
    unfold skip_bytes. apply wp_change. fold (read t2). rewrite Hr2.
    pose proof (is_avail_bound _ (lk_input 0 _ (so_ok _ Hs2))) as Hab. fold (avail t2) in Hab.
    rewrite Ha2 in Hab. rewrite u64_small by lia.
    set (t3 := set_lx_bytesReadForToken (read t + 1) t2).
    assert (Hs3 : seen_ok t3) by (apply seen_read; [done|rewrite Ha2; lia]).
    assert (Hk3 : kept t t3).
    { eapply lex_kept_trans; [exact Hk02|]. apply kept_intro; try done. apply (same_but_cr t2). }
    apply wp_invoke.
    assert (Hpost : forall e t4, unicode_post (charToHex c) t3 e t4 ->
      wp (run! (if bool_decide (e = CSS_OK) then give tt else rewind 1) in give e)
        (escape_post nl t) (escape_post nl t) t4).
    { intros e t4 H4. destruct (decide (e = CSS_OK)) as [->|Hne].
      - rewrite bool_decide_eq_true_2 by done. destruct H4 as (Hk4 & Hs4 & Hr4 & Hl4 & Hst4).
        change (read t3) with (read t + 1) in Hr4.
        split; [by eapply lex_kept_trans|]. split; [done|]. split; [lia|].
        split; [change (len t3) with (len t2) in Hl4; lia|].
        eapply steps_trans; [eapply steps_later; [apply Hk4|]; apply (Hst2 _ Hst)|].
        eapply steps_trans; [|exact Hst4]. unfold cur. rewrite Hr2.
        intros text final _ r Hr'. exact Hr'.
      - rewrite bool_decide_eq_false_2 by done. unfold rewind. apply wp_change, wp_give.
        destruct e; try exact I; try done. cbn [unicode_post] in H4. pose proof (seen_extends _ _ H4 Hs3) as Hs4.
        pose proof (extends_cur 0 _ _ ltac:(lia) H4 (so_ok _ Hs3)) as Hc4.
        assert (Hr4 : read t4 = read t + 1) by (by apply (f_equal fst) in Hc4).
        assert (Ho4 : out t4 = out t3) by (by apply (f_equal snd) in Hc4).
        fold (read t4). rewrite Hr4, u64_small by lia.
        replace (read t + 1 - 1) with (read t) by lia.
        assert (Hgr : exists m, avail t4 = avail t1 ++ m).
        { destruct H4 as (s & -> & _ & _ & _ & m & Hm). exists m.
          change (avail t3) with (avail t2) in Hm. by rewrite Hm, Ha2. }
        destruct Hgr as [m Hm].
        assert (Hs5 : seen_ok (set_lx_bytesReadForToken (read t) t4)).
        { apply seen_read; [done|]. rewrite Hm, zlen_app. zlens. lia. }
        split; [|split; [by apply (lexer_escaping 0), Hs5|split; [done|split]]].
        + eapply lex_kept_trans; [exact Hk3|]. eapply lex_kept_trans; [by apply kept_extends|].
          apply kept_intro; try done. apply (same_but_cr t4).
        + rewrite esc_out_seen by done. exact (eq_trans Ho4 Ho2).
        + right. split; [done|]. exists c. split; [|by intros ->].
          change (avail (set_lx_bytesReadForToken (read t) t4)) with (avail t4).
          pose proof (znth_Some_range _ _ _ Hc). by rewrite Hm, znth_app_l by lia. }
    eapply lex_wp_mono; [by apply consumeUnicode_spec| |]; intros e t4; apply Hpost.
  - destruct (nl && (c =? 0x0D)) eqn:Ecr.
    + apply andb_prop in Ecr as [-> Ecr]. apply Z.eqb_eq in Ecr as ->.
      rewrite (char_len_ascii 0x0D) by lia.
      apply escaped_cr_spec; try done; [intros; by apply escape_lenient|]. by rewrite Ha2.
    + apply wp_seq.
      assert (Hln : wp (if nl && ((c =? 0x0A) || (c =? 0x0C)) then new_line 0
                        else if negb (isNewline c) then add_col 1 else give tt)
                (fun _ t3 => alike t2 t3) (escape_post nl t) t2).
      { destruct (nl && ((c =? 0x0A) || (c =? 0x0C)));
          [exact (wp_new_line 0 give (fun _ t3 => alike t2 t3) _ t2 (fun t3 H => H))|].
        destruct (negb (isNewline c)); [|apply wp_give, lex_alike_refl].
        exact (wp_add_col 1 give (fun _ t3 => alike t2 t3) _ t2 (fun t3 H => H)). }
      eapply lex_wp_mono; [exact Hln| |done]. intros [] t3 H3; cbn beta in H3.
      pose proof (alike_ok 0 _ _ H3 (so_ok _ Hs2)) as Hk3. pose proof (alike_cur _ _ H3) as Hc3.
      assert (Hr3 : read t3 = read t) by (apply (f_equal fst) in Hc3; exact (eq_trans Hc3 Hr2)).
      assert (Hi3 : lx_input t3 = lx_input t1) by (destruct H3 as (? & ? & ? & ->); exact Hi2).
      assert (Hse3 : lx_escapeSeen t3 = true) by (destruct H3 as (? & ? & ? & ->); apply Hs2).
      assert (Ha3 : avail t3 = avail t1) by (unfold avail; by rewrite Hi3).
      apply wp_APPEND; [done|by rewrite Hr3, Ha3| |by rewrite Hr3, Ha3|apply escape_lenient|].
      { destruct Hp as [stale ->]. exists stale. by rewrite Hr3, Ha3. }
      intros t4 H4. pose proof (tk_cur _ _ _ H4) as Hc4.
      pose proof (f_equal fst Hc4) as Hr4. cbn in Hr4. pose proof (char_len_range c).
      assert (Hs4 : seen_ok t4) by (split; [apply H4|by rewrite (tk_seen _ _ _ H4)]).
      split; [|split; [done|split; [rewrite Hr4; lia|split]]].
      * eapply lex_kept_trans; [exact Hk02|]. eapply lex_kept_trans; [by apply alike_kept|]. apply H4.
      * pose proof (zlen_out 0 _ (so_ok _ Hs4) ltac:(lia)) as Hz4. rewrite <- Hz4.
        pose proof (f_equal snd Hc4) as Ho4. cbn in Ho4. rewrite Ho4, zlen_app.
        pose proof (f_equal snd Hc3) as Ho3. cbn in Ho3. rewrite Ho3, Ho2. zlens. lia.
      * eapply steps_trans; [eapply steps_later; [|apply (Hst2 _ Hst)]|].
        { intros text final. rewrite (tk_same _ _ _ H4), Hi3, <- Hi2. done. }
        rewrite <- Hc3. apply (steps_took t3 t4 (fun _ => sret EscapeOk) c); [done|by rewrite Hr3, Ha3..].
Qed.
End Escape.
