(* ===== verification/CssLexRuns.v ===== *)
(** * CssLexRuns: the loops of the CSS lexer that consume characters, against
    the scanners of CssLexRef.v. *)
From S2P Require Import Prelude.
From S2P Require Import Errors.
From S2P Require Import Utf8.
From S2P Require Import Interfaces.
From S2P Require Import CssLexState.
From S2P Require Import CssLexRef.
From S2P Require Import CssLexRules.
From S2P Require Import CssLexEscape.

Section Runs.
Context {St B : Type} `{!InputStreamOps St} `{!InputStream St} `{!ByteBufferOps B}
  `{!ByteBuffer B} `{!ByteBufferMakeOps B} `{!ByteBufferMake B}.
Local Abbreviation T := (css_lexer St B).
Local Abbreviation M := (lexes (css_lexer St B)).
Implicit Types t : T.
(** A loop goes on, or ends. *)
Local Abbreviation again := (@sret (unit + unit) (inl tt)).
Local Abbreviation stop := (@sret (unit + unit) (inr tt)).

(** Characters were read: the scanner [R] at [t] goes on as [R'] at [t1].  With
    [quiet], no escape was among them. *)
Record reached {A} (quiet : bool) (R R' : scan A) t t1 : Prop := {
  rc_kept : kept t t1;
  rc_ok : lexer_ok 0 t1;
  rc_read : read t <= read t1;
  rc_len : len t <= len t1;
  rc_seen : quiet = true -> lx_escapeSeen t1 = lx_escapeSeen t;
  rc_steps : steps t1 R (cur t) R' (cur t1)
}.

Lemma reached_extends {A} quiet (R : scan A) t t1 :
  lexer_ok 0 t -> extends t t1 -> reached quiet R R t t1.
Proof.
  intros Hk Hx. pose proof (extends_cur 0 _ _ ltac:(lia) Hx Hk) as Hc.
  split; [by apply kept_extends|by eapply extends_ok| | | |].
  - apply (f_equal fst) in Hc. cbn in Hc. lia.
  - destruct Hx as (s & -> & _). done.
  - destruct Hx as (s & -> & _). done.
  - rewrite Hc. apply steps_refl.
Qed.

Lemma reached_trans {A} quiet (R1 R2 R3 : scan A) t1 t2 t3 :
  reached quiet R1 R2 t1 t2 -> reached quiet R2 R3 t2 t3 -> reached quiet R1 R3 t1 t3.
Proof.
  intros [? ? ? ? Hs ?] [Hk ? ? ? Hs1 ?].
  split; [by eapply lex_kept_trans|done|lia|lia| |].
  - intros Hq. rewrite (Hs1 Hq). by apply Hs.
  - eapply steps_trans; [|done]. eapply steps_later; [apply Hk|done].
Qed.

Lemma reached_took {A} quiet (K : unit -> scan A) c t t1 t2 :
  lexer_ok 0 t -> extends t t1 -> znth (avail t1) (read t) = Some c ->
  read t + char_len c <= zlen (avail t1) -> took c t1 t2 ->
  reached quiet (sbind take_char K) (K tt) t t2.
Proof.
  intros Hk Hx Hc Hl Ht. pose proof (extends_cur 0 _ _ ltac:(lia) Hx Hk) as Hcu.
  pose proof (f_equal fst Hcu) as Hr. cbn in Hr. pose proof (tk_cur _ _ _ Ht) as Hc2.
  pose proof (f_equal fst Hc2) as Hr2. cbn in Hr2. pose proof (char_len_range c).
  pose proof (zlen_out 0 _ (tk_ok _ _ _ Ht) ltac:(lia)) as Hz2.
  pose proof (zlen_out 0 _ Hk ltac:(lia)) as Hz.
  pose proof (f_equal snd Hc2) as Ho2. cbn in Ho2. pose proof (f_equal snd Hcu) as Ho. cbn in Ho.
  split.
  - eapply lex_kept_trans; [by apply kept_extends|apply Ht].
  - apply Ht.
  - lia.
  - rewrite <- Hz2, Ho2, zlen_app, Ho. zlens. lia.
  - intros _. rewrite (tk_seen _ _ _ Ht). by destruct Hx as (s & -> & _).
  - rewrite <- Hcu. apply (steps_took t1 t2 K c); [done|by rewrite Hr..].
Qed.

Lemma took_read c t t1 : took c t t1 -> read t1 = read t + char_len c.
Proof. intros Ht. exact (f_equal fst (tk_cur _ _ _ Ht)). Qed.

Lemma extends_read t t1 : extends t t1 -> read t1 = read t.
Proof. by intros (s & -> & _). Qed.

(** What a consumer promises: it ends, and leaves the scanner done, or it waits
    for more input and can be called again. *)
Definition consumer (quiet : bool) (R : scan unit) t (e : css_error) t1 : Prop :=
  match e with
  | CSS_OK => reached quiet R (sret tt) t t1
  | CSS_NEEDDATA => reached quiet R R t t1
  | CSS_EOF | CSS_INVALID => False
  | _ => True
  end.

Lemma consumer_lenient quiet R t : lenient (consumer quiet R t).
Proof. intros e t1 (? & ? & ? & ?). by destruct e. Qed.

(** One turn of a loop. *)
Lemma reached_iter {S A} quiet (step : S -> scan (S + A)) s s' t t1 :
  reached quiet (step s) (sret (inl s')) t t1 -> read t < read t1 ->
  reached quiet (iter step s) (iter step s') t t1.
Proof.
  intros [? Hk ? ? ? Hst] Hr. split; try done.
  eapply steps_on_iter; [exact Hst|exact Hr|]. intros text final Hc.
  destruct (completes_prefix _ _ _ Hc) as [m ->]. rewrite zlen_app. cbn.
  pose proof (lk_read 0 _ Hk). zlens. lia.
Qed.

Lemma reached_iter_end {S A} quiet (step : S -> scan (S + A)) s a t t1 :
  reached quiet (step s) (sret (inr a)) t t1 -> reached quiet (iter step s) (sret a) t t1.
Proof. intros [? ? ? ? ? Hst]. split; try done. by apply steps_on_iter_end. Qed.

Lemma consumer_iter quiet (step : unit -> scan (unit + unit)) t t1 e t2 :
  reached quiet (step tt) again t t1 -> read t < read t1 ->
  consumer quiet (iter step tt) t1 e t2 -> consumer quiet (iter step tt) t e t2.
Proof.
  intros H1 Hr H2. pose proof (reached_iter quiet step tt tt _ _ H1 Hr) as H.
  destruct e; cbn [consumer] in *; try done; by eapply reached_trans.
Qed.

(** The fuel counts what can still be read. *)
Lemma fuel_left t t1 : kept t t1 -> read t < read t1 ->
  total t1 - read t1 < total t - read t.
Proof. intros []. lia. Qed.

Lemma total_left t : lexer_ok 0 t -> 0 <= total t - read t.
Proof.
  intros []. pose proof (is_avail_total _ lk_input). unfold total, avail in *. lia.
Qed.

(** ** Characters of a class without escapes: digits and white space *)

(** The scanner's view of the character at hand. *)
Definition while_step (f : Z -> bool) (_ : unit) : scan (unit + unit) :=
  (scan! c := next in
   match c with
   | Some c => if f c then then! take_char in sret (inl tt) else sret (inr tt)
   | None => sret (inr tt)
   end)%scan.

Lemma while_took f c t t1 t2 :
  lexer_ok 0 t -> extends t t1 -> znth (avail t1) (read t) = Some c ->
  read t + char_len c <= zlen (avail t1) -> f c = true -> took c t1 t2 ->
  reached true (while_step f tt) again t t2.
Proof.
  intros Hk Hx Hc Hl Hf Ht.
  pose proof (reached_took true (fun _ => again) c _ _ _ Hk Hx Hc Hl Ht) as [? ? ? ? ? Hst].
  split; try done. eapply steps_trans; [|exact Hst]. unfold while_step, cur.
  eapply steps_trans.
  - apply steps_next. unfold avail. rewrite (tk_same _ _ _ Ht). exact Hc.
  - cbn beta iota. rewrite Hf. apply steps_refl.
Qed.

Lemma while_stop f t t1 :
  lexer_ok 0 t -> extends t t1 ->
  (exists c, znth (avail t1) (read t) = Some c /\ f c = false) \/
  is_ended (lx_input t1) /\ zlen (avail t1) = read t ->
  reached true (while_step f tt) stop t t1.
Proof.
  intros Hk Hx Hstop. pose proof (reached_extends true stop t t1 Hk Hx) as [? ? ? ? ? _].
  pose proof (extends_cur 0 _ _ ltac:(lia) Hx Hk) as Hcu.
  split; try done. rewrite Hcu. unfold while_step, cur.
  destruct Hstop as [(c & Hc & Hf)|[He Hl]].
  - eapply steps_trans; [apply steps_next, Hc|]. cbn beta iota. rewrite Hf. apply steps_refl.
  - by apply steps_end.
Qed.

Lemma consumeDigits_spec fuel t :
  lexer_ok 0 t -> total t - read t < Z.of_nat fuel ->
  wp (consumeDigits fuel) (consumer true (take_while isDigit) t)
    (consumer true (take_while isDigit) t) t.
Proof.
  change (take_while isDigit) with (iter (while_step isDigit) tt).
  revert t. induction fuel as [|fuel IH]; intros t Hk Hf; [pose proof (total_left t Hk); lia|].
  cbn [consumeDigits]. eapply wp_look; [exact Hk|apply consumer_lenient| | |].
  - intros t1 c ptr Hx Hc Hp Hl. eapply wp_octet; [exact Hp|destruct Hk; lia|exact Hc|].
    pose proof (extends_ok 0 _ _ ltac:(lia) Hx Hk) as Hk1. pose proof (extends_read _ _ Hx) as Hr1.
    destruct (isDigit c) eqn:Hd.
    + apply wp_APPEND; [done|by rewrite Hr1|by rewrite Hr1|by rewrite Hr1|apply consumer_lenient|].
      intros t2 Ht. pose proof (while_took isDigit c _ _ _ Hk Hx Hc Hl Hd Ht) as H2.
      pose proof (took_read _ _ _ Ht). pose proof (char_len_range c).
      pose proof (fuel_left t t2 (rc_kept _ _ _ _ _ H2) ltac:(lia)).
      eapply lex_wp_mono; [apply IH; [apply Ht|lia]| |];
        intros e t3; apply consumer_iter; done || lia.
    + apply reached_iter_end, while_stop; [done..|]. left. by exists c.
  - intros t1 Hx He Hl. apply reached_iter_end, while_stop; [done..|]. by right.
  - intros t1 Hx. by apply reached_extends.
Qed.

Lemma reached_alike {A} quiet (R R' : scan A) t t1 t2 :
  reached quiet R R' t t1 -> alike t1 t2 -> reached quiet R R' t t2.
Proof.
  intros [? ? ? ? ? Hst] Ha. pose proof (alike_cur _ _ Ha) as Hc.
  split; [eapply lex_kept_trans; [done|by apply alike_kept]|by eapply alike_ok|..].
  4:{ rewrite Hc. destruct Ha as (b & col & line & ->). exact Hst. }
  all: destruct Ha as (b & col & line & ->); done.
Qed.

Lemma wchars_loop_spec fuel t :
  lexer_ok 0 t -> total t - read t < Z.of_nat fuel ->
  wp (wchars_loop fuel)
    (fun e t1 => e = CSS_OK /\ reached true (take_while isSpace) (sret tt) t t1)
    (consumer true (take_while isSpace) t) t.
Proof.
  change (take_while isSpace) with (iter (while_step isSpace) tt).
  revert t. induction fuel as [|fuel IH]; intros t Hk Hf; [pose proof (total_left t Hk); lia|].
  cbn [wchars_loop]. eapply wp_look; [exact Hk|apply consumer_lenient| | |].
  - intros t1 c ptr Hx Hc Hp Hl. eapply wp_octet; [exact Hp|destruct Hk; lia|exact Hc|].
    pose proof (extends_ok 0 _ _ ltac:(lia) Hx Hk) as Hk1. pose proof (extends_read _ _ Hx) as Hr1.
    destruct (isSpace c) eqn:Hd.
    + apply wp_APPEND; [done|by rewrite Hr1|by rewrite Hr1|by rewrite Hr1|apply consumer_lenient|].
      intros t2 Ht. apply wp_count_line. intros t3 Ha.
      pose proof (reached_alike _ _ _ _ _ _ (while_took isSpace c _ _ _ Hk Hx Hc Hl Hd Ht) Ha) as H3.
      pose proof (took_read _ _ _ Ht). pose proof (char_len_range c).
      pose proof (f_equal fst (alike_cur _ _ Ha)) as Hr3. cbn in Hr3.
      pose proof (fuel_left t t3 (rc_kept _ _ _ _ _ H3) ltac:(lia)).
      eapply lex_wp_mono; [apply IH; [apply H3|lia]| |].
      * intros e t4 [-> H4]. split; [done|]. eapply (consumer_iter true _ t t3 CSS_OK); done || lia.
      * intros e t4. apply consumer_iter; done || lia.
    + apply wp_seq, wp_give, wp_count_line. intros t2 Ha. split; [done|].
      eapply reached_alike; [|exact Ha]. apply reached_iter_end, while_stop; [done..|].
      left. by exists c.
  - intros t1 Hx He Hl. apply reached_iter_end, while_stop; [done..|]. by right.
  - intros t1 Hx. by apply reached_extends.
Qed.

Lemma consumeWChars_spec fuel t :
  lexer_ok 0 t -> total t - read t < Z.of_nat fuel ->
  wp (consumeWChars fuel) (consumer true (take_while isSpace) t)
    (consumer true (take_while isSpace) t) t.
Proof.
  intros Hk Hf. unfold consumeWChars. apply wp_seq.
  eapply lex_wp_mono; [by apply wchars_loop_spec| |done].
  intros e t1 [-> H1]. apply wp_field. destruct (lc_lastWasCR _).
  - apply wp_new_line. intros t2 Ha. by eapply reached_alike.
  - by apply wp_seq, wp_give, wp_give.
Qed.

(** ** Characters of a class and escapes *)

(** Past the backslash. *)
Lemma after_bslash t :
  lexer_ok 0 t -> read t + 1 <= zlen (avail t) ->
  let t2 := set_lx_bytesReadForToken (u64 (read t + 1)) t in
  read t2 = read t + 1 /\ escaping t2 /\ esc_out t2 = out t.
Proof.
  intros Hk Hl t2. pose proof (read_bound 0 t Hk). assert (Hr : read t2 = read t + 1).
  { unfold t2, read. lx_cbn. fold (read t). rewrite u64_small; lia. }
  split; [done|]. pose proof (lk_len 0 t Hk) as Hln.
  split.
  - destruct Hk. split; try done.
    + rewrite Hr. change (avail t2) with (avail t). lia.
    + intros Hs. change (lx_escapeSeen t2) with (lx_escapeSeen t) in Hs. rewrite Hs in Hln. exact Hln.
  - unfold esc_out, out, source. rewrite Hr.
    change (lx_escapeSeen t2) with (lx_escapeSeen t). destruct (lx_escapeSeen t).
    + change (unescaped t2) with (unescaped t). symmetry. apply ztake_ge. lia.
    + change (avail t2) with (avail t). by replace (read t + 1 - 1) with (len t) by lia.
Qed.

(** An escape that fails, or has to wait, is undone. *)
Lemma escape_undone nl t e t3 :
  lexer_ok 0 t -> read t + 1 <= zlen (avail t) ->
  escape_post nl (set_lx_bytesReadForToken (u64 (read t + 1)) t) e t3 ->
  e = CSS_EOF \/ e = CSS_INVALID \/ e = CSS_NEEDDATA ->
  let t4 := set_lx_bytesReadForToken (u64 (read t3 - 1)) t3 in
  kept t t4 /\ lexer_ok 0 t4 /\ cur t4 = cur t.
Proof.
  intros Hk Hl. destruct (after_bslash t Hk Hl) as (Hr2 & He2 & Ho2). cbv zeta in Hr2, He2, Ho2.
  set (t2 := set_lx_bytesReadForToken _ t) in *. intros Hp He t4.
  pose proof (read_bound 0 t Hk) as Hrb.
  assert (Hk2 : kept t t2) by (apply kept_intro; try done; apply (same_but_cr t)).
  assert (Hread : forall t3, read t3 = read t2 -> u64 (read t3 - 1) = read t).
  { intros x ->. rewrite Hr2, u64_small; lia. }
  assert (Hext : extends t2 t3 -> kept t t4 /\ lexer_ok 0 t4 /\ cur t4 = cur t).
  { intros Hx. unfold t4. rewrite (Hread t3 (extends_read _ _ Hx)).
    assert (Hx4 : extends t (set_lx_bytesReadForToken (read t) t3)).
    { destruct Hx as (s & -> & Hw & Ht & Hla & m & Hm).
      exists s. split; [by destruct t|]. split; [done|]. split; [done|]. split; [exact Hla|].
      by exists m. }
    split; [by apply kept_extends|]. split; [by eapply extends_ok|]. by eapply extends_cur. }
  destruct He as [->|[->| ->]].
  - apply Hext, Hp.
  - apply Hext, Hp.
  - destruct Hp as (Hk3 & He3 & Hr3 & Ho3 & [Hx|[Hs3 _]]); [by apply Hext|].
    unfold t4. rewrite (Hread t3 Hr3).
    assert (Hs4 : seen_ok (set_lx_bytesReadForToken (read t) t3)).
    { apply seen_read; [done|]. pose proof (es_read _ He3). pose proof (lk_read 0 t Hk). lia. }
    split; [|split; [apply Hs4|]].
    + eapply lex_kept_trans; [exact Hk2|]. eapply lex_kept_trans; [exact Hk3|].
      apply kept_intro; try done. apply (same_but_cr t3).
    + unfold cur. f_equal. change (out (set_lx_bytesReadForToken (read t) t3)) with (out t3).
      rewrite <- esc_out_seen by done. congruence.
Qed.

Definition class_step (f : Z -> bool) (_ : unit) : scan (unit + unit) :=
  (scan! c := next in
   match c with
   | None => sret (inr tt)
   | Some c =>
       if c =? bslash then
         scan! cur := where_now in
         then! leave 1 in
         scan! r := escape false in
         match r with
         | EscapeOk => sret (inl tt)
         | _ => then! back_to cur in sret (inr tt)
         end
       else if f c then then! take_char in sret (inl tt)
       else sret (inr tt)
   end)%scan.

(** What the class does with the character at hand. *)
Lemma class_steps f c t :
  znth (avail t) (read t) = Some c ->
  steps t (class_step f tt) (cur t)
    (if c =? bslash then
       scan! here := where_now in
       then! leave 1 in
       scan! r := escape false in
       match r with
       | EscapeOk => again
       | _ => then! back_to here in stop
       end
     else if f c then then! take_char in again else stop)%scan (cur t).
Proof. intros Hc. eapply steps_trans; [apply steps_next, Hc|]. apply steps_refl. Qed.

(** After the backslash, an escape. *)
Lemma class_escape f t t3 r :
  znth (avail t) (read t) = Some bslash -> later t t3 ->
  (forall c, steps t3 (escape false) (read t + 1, out t) (sret r) c ->
   steps t3 (class_step f tt) (cur t)
     (match r with EscapeOk => again | _ => (then! back_to (cur t) in stop)%scan end) c).
Proof.
  intros Hc Hl c Hst. eapply steps_trans; [eapply steps_later; [exact Hl|]; by apply class_steps|].
  change (bslash =? bslash) with true. cbn iota.
  assert (H : steps t3 (scan! here := where_now in
       then! leave 1 in
       scan! r := escape false in
       match r with
       | EscapeOk => again
       | _ => then! back_to here in stop
       end)%scan (cur t)
     (scan! r := escape false in
       match r with
       | EscapeOk => again
       | _ => then! back_to (cur t) in stop
       end)%scan (read t + 1, out t)) by (intros text final _ x Hx; exact Hx).
  eapply steps_trans; [exact H|]. by apply (steps_done _ (escape false) r).
Qed.

Lemma consume_class_spec f fuel t :
  f bslash = true ->
  lexer_ok 0 t -> total t - read t < Z.of_nat fuel ->
  wp (consume_class fuel f) (consumer false (chars_of f) t) (consumer false (chars_of f) t) t.
Proof.
  intros Hb. change (chars_of f) with (iter (class_step f) tt).
  revert t. induction fuel as [|fuel IH]; intros t Hk Hf; [pose proof (total_left t Hk); lia|].
  cbn [consume_class]. eapply wp_look; [exact Hk|apply consumer_lenient| | |].
  2:{ intros t1 Hx He Hl. apply reached_iter_end.
      pose proof (reached_extends false stop t t1 Hk Hx) as [? ? ? ? ? _].
      pose proof (extends_cur 0 _ _ ltac:(lia) Hx Hk) as Hcu. split; try done. rewrite Hcu.
      by apply steps_end. }
  2:{ intros t1 Hx. by apply reached_extends. }
  intros t1 c ptr Hx Hc Hp Hl. eapply wp_octet; [exact Hp|destruct Hk; lia|exact Hc|].
  pose proof (extends_ok 0 _ _ ltac:(lia) Hx Hk) as Hk1. pose proof (extends_read _ _ Hx) as Hr1.
  pose proof (extends_cur 0 _ _ ltac:(lia) Hx Hk) as Hcu1.
  pose proof (reached_extends false (class_step f tt) t t1 Hk Hx) as H01.
  rewrite <- Hr1 in Hc, Hp, Hl. pose proof (class_steps f c t1 Hc) as Hst1.
  destruct (Z.eqb_spec c bslash) as [->|Hne].
  - (* an escape *)
    rewrite Hb. cbn [andb negb]. apply wp_seq, wp_give.
    rewrite (char_len_ascii bslash) in * by (unfold bslash; lia).
    destruct (after_bslash t1 Hk1 Hl) as (Hr2 & He2 & Ho2). cbv zeta in Hr2, He2, Ho2.
    unfold skip_bytes. apply wp_change. fold (read t1).
    set (t2 := set_lx_bytesReadForToken _ t1) in *.
    assert (Hk2 : kept t1 t2) by (apply kept_intro; try done; apply (same_but_cr t1)).
    apply wp_invoke.
    assert (Hgo : forall e t3, escape_post false t2 e t3 ->
      wp (match e with
          | CSS_OK => consume_class fuel f
          | CSS_EOF | CSS_INVALID => run! rewind 1 in return_error CSS_OK
          | _ => run! rewind 1 in return_error e
          end) (consumer false (iter (class_step f) tt) t) (consumer false (iter (class_step f) tt) t) t3).
    { intros e t3 H3.
      assert (Hundo : e = CSS_EOF \/ e = CSS_INVALID \/ e = CSS_NEEDDATA ->
        let t4 := set_lx_bytesReadForToken (u64 (read t3 - 1)) t3 in
        kept t1 t4 /\ lexer_ok 0 t4 /\ cur t4 = cur t1) by (by apply (escape_undone false t1 e t3)).
      assert (Hback : forall R : scan unit, e = CSS_EOF \/ e = CSS_INVALID \/ e = CSS_NEEDDATA ->
        steps (set_lx_bytesReadForToken (u64 (read t3 - 1)) t3) (iter (class_step f) tt) (cur t1) R (cur t1) ->
        reached false (iter (class_step f) tt) R t (set_lx_bytesReadForToken (u64 (read t3 - 1)) t3)).
      { intros R He HR. destruct (Hundo He) as (Hk4 & Hok4 & Hc4).
        eapply reached_trans; [by apply reached_extends|].
        pose proof (zlen_out 0 _ Hok4 ltac:(lia)) as Hz4. pose proof (zlen_out 0 _ Hk1 ltac:(lia)) as Hz1.
        destruct (cur_eq _ _ Hc4) as [Hr4 Ho4].
        rewrite Ho4 in Hz4. split; try done; [lia|lia|]. by rewrite Hc4. }
      assert (Hfail : forall r, steps t3 (escape false) (read t1 + 1, out t1) (sret r) (read t1 + 1, out t1) ->
        later t1 t3 -> r <> EscapeOk ->
        steps t3 (iter (class_step f) tt) (cur t1) (sret tt) (cur t1)).
      { intros r Hst Hla Hr. apply steps_on_iter_end.
        eapply steps_trans; [apply (class_escape f t1 t3 r Hc Hla _ Hst)|].
        destruct r; [done|..]; intros text final _ x Hx'; exact Hx'. }
      destruct e; try exact I; try done; cbn [escape_post] in H3.
      - (* it stands for something *)
        destruct H3 as (Hk3 & Hs3 & Hr3 & Hl3 & Hst3). rewrite Hr2, Ho2 in *.
        pose proof (zlen_out 0 _ Hk1 ltac:(lia)) as Hz1.
        assert (Hk13 : kept t1 t3) by (by eapply lex_kept_trans).
        assert (H3 : reached false (class_step f tt) again t t3).
        { eapply reached_trans; [exact H01|].
          split; [done|apply Hs3|lia|lia|done|].
          by apply (class_escape f t1 t3 EscapeOk Hc (kp_later _ _ Hk13)). }
        pose proof (fuel_left t t3 (rc_kept _ _ _ _ _ H3) ltac:(lia)).
        eapply lex_wp_mono; [apply IH; [apply Hs3|lia]| |]; intros e t4; apply consumer_iter; done || lia.
      - unfold rewind. apply wp_change, wp_return, Hback; [by right; left|].
        destruct H3 as (Hx3 & _ & _ & Hst3). rewrite Hr2, Ho2 in Hst3.
        eapply (Hfail EscapeBad); [exact Hst3| |done].
        eapply later_trans; [apply Hk2|apply (kept_extends _ _ Hx3)].
      - unfold rewind. apply wp_change, wp_return, Hback; [by right; right|]. apply steps_refl.
      - unfold rewind. apply wp_change, wp_return, Hback; [by left|].
        destruct H3 as (Hx3 & _ & _ & Hst3). rewrite Hr2, Ho2 in Hst3.
        eapply (Hfail EscapeEnd); [exact Hst3| |done].
        eapply later_trans; [apply Hk2|apply (kept_extends _ _ Hx3)]. }
    eapply lex_wp_mono; [by apply consumeEscape_spec| |]; intros e t3; apply Hgo.
  - cbn [negb]. rewrite andb_true_r. destruct (f c) eqn:Hfc.
    + apply wp_APPEND; [done..|apply consumer_lenient|].
      intros t2 Ht. pose proof (took_read _ _ _ Ht). pose proof (char_len_range c).
      assert (H2 : reached false (class_step f tt) again t t2).
      { eapply reached_trans; [exact H01|].
        pose proof (reached_took false (fun _ => again) c t1 t1 t2 Hk1
          (lex_extends_refl _ (lk_input _ _ Hk1)) Hc Hl Ht) as [? ? ? ? ? Hst].
        split; try done. eapply steps_trans; [|exact Hst].
        eapply steps_later; [|exact Hst1]. intros text final. by rewrite (tk_same _ _ _ Ht). }
      pose proof (fuel_left t t2 (rc_kept _ _ _ _ _ H2) ltac:(lia)).
      eapply lex_wp_mono; [apply IH; [apply Ht|lia]| |]; intros e t3; apply consumer_iter; done || lia.
    + apply wp_seq, wp_give. apply wp_give. apply reached_iter_end.
      eapply reached_trans; [exact H01|].
      pose proof (reached_extends false stop t1 t1 Hk1 (lex_extends_refl _ (lk_input _ _ Hk1))) as [? ? ? ? ? _].
      by split.
Qed.
End Runs.

(** * consumeString and consumeStringChars against the scanner
    [string_rest]. *)

Section Strings.
Context {St B : Type} `{!InputStreamOps St} `{!InputStream St} `{!ByteBufferOps B}
  `{!ByteBuffer B} `{!ByteBufferMakeOps B} `{!ByteBufferMake B}.
Local Abbreviation T := (css_lexer St B).
Local Abbreviation M := (lexes (css_lexer St B)).
Implicit Types t : T.

(** ** Looking at the next character *)

Lemma reached_look {A} quiet (K : option Z -> scan A) c t t1 :
  lexer_ok 0 t -> extends t t1 -> znth (avail t1) (read t) = Some c ->
  reached quiet (sbind next K) (K (Some c)) t t1.
Proof.
  intros Hk Hx Hc. pose proof (reached_extends quiet (K (Some c)) t t1 Hk Hx) as [? ? ? ? ? _].
  split; try done. rewrite (extends_cur 0 _ _ ltac:(lia) Hx Hk). by apply steps_next.
Qed.

Lemma reached_look_end {A} quiet (K : option Z -> scan A) t t1 :
  lexer_ok 0 t -> extends t t1 -> is_ended (lx_input t1) -> zlen (avail t1) = read t ->
  reached quiet (sbind next K) (K None) t t1.
Proof.
  intros Hk Hx He Hl. pose proof (reached_extends quiet (K None) t t1 Hk Hx) as [? ? ? ? ? _].
  split; try done. rewrite (extends_cur 0 _ _ ltac:(lia) Hx Hk). by apply steps_end.
Qed.

(** A character that was looked at is taken. *)
Lemma reached_take {A} quiet (K : unit -> scan A) c t t1 :
  lexer_ok 0 t -> znth (avail t) (read t) = Some c -> read t + char_len c <= zlen (avail t) ->
  took c t t1 -> reached quiet (sbind take_char K) (K tt) t t1.
Proof.
  intros Hk Hc Hl Ht. eapply (reached_took quiet K c t t); try done.
  apply lex_extends_refl, Hk.
Qed.

(** ** One turn *)

Definition string_step (quote : Z) (_ : unit) : scan (unit + escape_result) :=
  (scan! c := next in
   match c with
   | None => sret (inr EscapeEnd)
   | Some c =>
       if c =? bslash then
         then! leave 1 in
         scan! r := escape true in
         match r with
         | EscapeOk => sret (inl tt)
         | r => sret (inr r)
         end
       else if c =? quote then then! take_char in sret (inr EscapeOk)
       else if isQuote c || startStringChar c then then! take_char in sret (inl tt)
       else sret (inr EscapeBad)
   end)%scan.

Lemma string_rest_iter quote : string_rest quote = iter (string_step quote) tt.
Proof. reflexivity. Qed.

(** An unfinished string at the end of the input; a backslash there was read
    and is not part of the text. *)
Record string_end (R : scan escape_result) t t1 : Prop := {
  sn_kept : kept t t1;
  sn_ok : lexer_ok 0 t1 \/ lexer_ok 1 t1;
  sn_ended : is_ended (lx_input t1);
  sn_read : zlen (avail t1) = read t1;
  sn_more : read t <= read t1;
  sn_len : len t <= len t1;
  sn_steps : steps t1 R (cur t) (sret EscapeEnd) (cur t1)
}.

(** What consumeString promises. *)
Definition string_post (quote : Z) t (e : css_error) t1 : Prop :=
  match e with
  | CSS_OK => reached false (string_rest quote) (sret EscapeOk) t t1
  | CSS_NEEDDATA => reached false (string_rest quote) (string_rest quote) t t1
  | CSS_EOF => string_end (string_rest quote) t t1
  | CSS_INVALID => reached false (string_rest quote) (sret EscapeBad) t t1
  | _ => True
  end.

(** What consumeStringChars promises: a character that may be part of a string
    is read. *)
Definition string_chars_post (quote : Z) t (e : css_error) t1 : Prop :=
  match e with
  | CSS_OK =>
      reached false (string_rest quote) (string_rest quote) t t1 /\
      (forall c, znth (avail t) (read t) = Some c -> startStringChar c = true ->
       read t < read t1)
  | CSS_INVALID => False
  | e => string_post quote t e t1
  end.

Lemma string_lenient quote t : lenient (string_post quote t).
Proof. intros e t1 (? & ? & ? & ?). by destruct e. Qed.

Lemma string_chars_lenient quote t : lenient (string_chars_post quote t).
Proof. intros e t1 (? & ? & ? & ?). by destruct e. Qed.

Lemma string_end_reached R R' t t1 t2 :
  reached false R R' t t1 -> string_end R' t1 t2 -> string_end R t t2.
Proof.
  intros [? ? ? ? ? Hs] [Hk ? ? ? ? ? ?]. split; try done; try lia.
  - by eapply lex_kept_trans.
  - eapply steps_trans; [|done]. eapply steps_later; [apply Hk|done].
Qed.

(** What was read before does not matter. *)
Lemma string_reached quote t t1 e t2 :
  reached false (string_rest quote) (string_rest quote) t t1 ->
  string_post quote t1 e t2 -> string_post quote t e t2.
Proof.
  intros H1 H2. destruct e; cbn [string_post] in *; try done;
    try (by eapply reached_trans). by eapply string_end_reached.
Qed.

Lemma string_chars_reached quote t t1 e t2 :
  reached false (string_rest quote) (string_rest quote) t t1 -> read t < read t1 ->
  string_chars_post quote t1 e t2 -> string_chars_post quote t e t2.
Proof.
  intros H1 Hr H2. destruct e; cbn [string_chars_post] in *; try done;
    try (by eapply string_reached).
  destruct H2 as [H2 _]. split; [by eapply reached_trans|].
  intros _ _ _. pose proof (rc_read _ _ _ _ _ H2). lia.
Qed.

(** A character of the text, or the permitted quote. *)
Lemma string_turn quote c t t1 :
  lexer_ok 0 t -> znth (avail t) (read t) = Some c -> read t + char_len c <= zlen (avail t) ->
  c <> bslash -> c <> quote -> isQuote c || startStringChar c = true -> took c t t1 ->
  reached false (string_rest quote) (string_rest quote) t t1 /\ read t < read t1.
Proof.
  intros Hk Hc Hl Hb Hq Hs Ht. pose proof (took_read _ _ _ Ht) as Hr. pose proof (char_len_range c).
  split; [|lia]. rewrite string_rest_iter. apply reached_iter; [|lia].
  eapply reached_trans; [by apply (reached_look false _ c t t Hk (lex_extends_refl _ (lk_input _ _ Hk)))|].
  apply Z.eqb_neq in Hb, Hq. rewrite Hb, Hq, Hs. by apply (reached_take false (fun _ => sret (inl tt)) c).
Qed.

(** ** An escape *)

(** Past the backslash, the scanner is at the escape. *)
Lemma string_at_escape quote t t3 r c :
  lexer_ok 0 t -> znth (avail t) (read t) = Some bslash -> later t t3 ->
  steps t3 (escape true) (read t + 1, out t) (sret r) c ->
  steps t3 (string_step quote tt) (cur t)
    (match r with EscapeOk => sret (inl tt) | r => sret (inr r) end) c.
Proof.
  intros Hk Hc Hl Hst. eapply steps_trans.
  { eapply steps_later; [exact Hl|]. apply steps_next, Hc. }
  cbn beta iota. change (bslash =? bslash) with true. cbn iota.
  exact (steps_done t3 (escape true) r _ _ _ Hst).
Qed.

(** Past a backslash that is not part of the text. *)
Lemma bslash_ok t :
  lexer_ok 0 t -> read t + 1 <= zlen (avail t) ->
  lexer_ok 1 (set_lx_bytesReadForToken (u64 (read t + 1)) t).
Proof.
  intros Hk Hl. pose proof (read_bound 0 t Hk). destruct Hk.
  split; unfold read, avail, len, unescaped in *; lx_cbn; try done; rewrite ?u64_small by lia; [lia|].
  rewrite lk_len. destruct (lx_escapeSeen t); lia.
Qed.

Lemma extends_len t t1 : extends t t1 -> len t1 = len t.
Proof. by intros (s & -> & _). Qed.

Lemma wp_string_escape quote (Q : unit -> T -> Prop) E t :
  lexer_ok 0 t -> znth (avail t) (read t) = Some bslash -> read t + 1 <= zlen (avail t) ->
  lenient E ->
  (forall t3, reached false (string_rest quote) (string_rest quote) t t3 -> read t < read t3 ->
     Q tt t3) ->
  (forall e t3, e = CSS_EOF \/ e = CSS_NEEDDATA -> string_post quote t e t3 -> E e t3) ->
  wp (run! skip_bytes 1 in
      get! error := invoke (consumeEscape true) in
      match error with
      | CSS_OK => give tt
      | CSS_EOF => return_error error
      | _ => run! rewind 1 in return_error error
      end) Q E t.
Proof.
  intros Hk Hc Hl HE HQ Hend. destruct (after_bslash t Hk Hl) as (Hr2 & He2 & Ho2).
  cbv zeta in Hr2, He2, Ho2. unfold skip_bytes. apply wp_change. fold (read t).
  set (t2 := set_lx_bytesReadForToken _ t) in *.
  assert (Hk2 : kept t t2) by (apply kept_intro; try done; apply (same_but_cr t)).
  pose proof (zlen_out 0 _ Hk ltac:(lia)) as Hz. apply wp_invoke.
  match goal with |- wp _ (fun e => wp (@?k e) _ _) _ _ =>
    assert (Hgo : forall e t3, escape_post true t2 e t3 -> wp (k e) Q E t3) end.
  2: by eapply lex_wp_mono; [by apply consumeEscape_spec|..].
  intros e t3 H3; (destruct e; try (unfold rewind; apply wp_change, wp_return, HE; split_and!; done);
     cbn [escape_post] in H3).
  - apply wp_give. destruct H3 as (Hk3 & Hs3 & Hr3 & Hl3 & Hst). rewrite Hr2, Ho2 in *.
    assert (Hk13 : kept t t3) by (by eapply lex_kept_trans).
    apply HQ; [|lia]. rewrite string_rest_iter. apply reached_iter; [|lia].
    split; [done|apply Hs3|lia|lia|done|]. apply (string_at_escape quote t t3 EscapeOk); [done..|apply Hk13|done].
  - by destruct H3 as (_ & ? & _).
  - destruct (escape_undone true t CSS_NEEDDATA t3 Hk Hl H3 ltac:(by right; right)) as (Hk4 & Hok4 & Hc4).
    unfold rewind. apply wp_change, wp_return, Hend; [by right|]. fold (read t3).
    cbv zeta in Hk4, Hok4, Hc4. destruct (cur_eq _ _ Hc4) as [Hr4 Ho4]. pose proof (zlen_out 0 _ Hok4 ltac:(lia)) as Hz4.
    rewrite Ho4 in Hz4. split; try done; [lia|lia|]. rewrite Hc4. apply steps_refl.
  - destruct H3 as (Hx3 & Hl3 & He3 & Hst). rewrite Hr2, Ho2 in *.
    apply wp_return, Hend; [by left|]. pose proof (extends_read _ _ Hx3) as Hr3.
    assert (Hk13 : kept t t3) by (eapply lex_kept_trans; [exact Hk2|by apply kept_extends]).
    pose proof (bslash_ok t Hk Hl) as Hok2. fold t2 in Hok2.
    pose proof (extends_ok 1 _ _ ltac:(lia) Hx3 Hok2) as Hok3.
    pose proof (extends_cur 1 _ _ ltac:(lia) Hx3 Hok2) as Hc3.
    pose proof (extends_len _ _ Hx3 : len t3 = len t) as Hlen.
    split; [done|by right|done|lia|lia|lia|].
    rewrite string_rest_iter. apply steps_on_iter_end. rewrite Hc3. unfold cur. rewrite Hr2.
    change (out t2) with (out t).
    apply (string_at_escape quote t t3 EscapeEnd); [done..|apply Hk13|done].
Qed.

(** ** The consumers *)

Lemma isQuote_no_char c : isQuote c = true -> startStringChar c = false.
Proof. unfold isQuote. rewrite orb_true_iff, !Z.eqb_eq. by intros [->| ->]. Qed.

Lemma consumeStringChars_spec quote fuel t :
  isQuote quote = true -> lexer_ok 0 t -> total t - read t < Z.of_nat fuel ->
  wp (consumeStringChars fuel) (string_chars_post quote t) (string_chars_post quote t) t.
Proof.
  intros Hq. revert t. induction fuel as [|fuel IH]; intros t Hk Hf;
    [pose proof (total_left t Hk); lia|].
  cbn [consumeStringChars]. eapply wp_look; [exact Hk|apply string_chars_lenient| | |].
  2:{ intros t1 Hx He Hl. split; [by apply reached_extends|]. intros c Hc _.
      apply znth_Some_range in Hc. destruct Hx as (s & -> & _ & _ & _ & m & Hm).
      rewrite Hm, zlen_app in Hl. zlens. lia. }
  2:{ intros t1 Hx. by apply reached_extends. }
  intros t1 c ptr Hx Hc Hp Hl. eapply wp_octet; [exact Hp|destruct Hk; lia|exact Hc|].
  pose proof (extends_ok 0 _ _ ltac:(lia) Hx Hk) as Hk1. pose proof (extends_read _ _ Hx) as Hr1.
  pose proof (reached_extends false (string_rest quote) t t1 Hk Hx) as H01.
  rewrite <- Hr1 in Hc, Hp, Hl.
  assert (Hgo : forall t2, reached false (string_rest quote) (string_rest quote) t1 t2 ->
    read t1 < read t2 ->
    wp (consumeStringChars fuel) (string_chars_post quote t) (string_chars_post quote t) t2).
  { intros t2 H12 Hr. pose proof (reached_trans _ _ _ _ _ _ _ H01 H12) as H02.
    pose proof (fuel_left t t2 (rc_kept _ _ _ _ _ H02) ltac:(lia)).
    eapply lex_wp_mono; [apply IH; [apply H02|lia]|..]; intros e t3;
      (apply string_chars_reached; [done|lia]). }
  destruct (Z.eqb_spec c bslash) as [->|Hb].
  - change (startStringChar bslash) with true. cbn [andb negb]. apply wp_seq, wp_give, wp_seq.
    change (char_len bslash) with 1 in *.
    apply (wp_string_escape quote); [done..|apply string_chars_lenient|done|].
    intros e t3 He H3. destruct He as [->| ->]; cbn [string_chars_post] in *.
    + by eapply (string_reached quote t t1 CSS_EOF).
    + by eapply (string_reached quote t t1 CSS_NEEDDATA).
  - rewrite andb_true_r. destruct (startStringChar c) eqn:Es.
    + apply wp_APPEND; [done..|apply string_chars_lenient|]. intros t2 Ht.
      apply wp_seq, wp_give. destruct (string_turn quote c t1 t2) as [H12 Hr]; [done..| | |done|by apply Hgo].
      * intros ->. by rewrite (isQuote_no_char _ Hq) in Es.
      * by rewrite Es, orb_true_r.
    + apply wp_seq, wp_give. apply wp_seq, wp_give. split; [done|].
      intros d Hd Hs. destruct Hx as (s & -> & _ & _ & _ & m & Hm).
      apply znth_Some_range in Hd as Hdr. rewrite Hm, Hr1, znth_app_l in Hc by lia. congruence.
Qed.

Lemma permitted_quote c quote :
  isQuote quote = true -> (c =? (if quote =? 0x22 then 0x27 else 0x22)) = true ->
  isQuote c = true /\ c <> quote /\ c <> bslash.
Proof.
  unfold isQuote, bslash. rewrite orb_true_iff, !Z.eqb_eq. intros Hq ->. destruct Hq as [->| ->]; done.
Qed.

Lemma no_quote c quote :
  isQuote quote = true -> (c =? (if quote =? 0x22 then 0x27 else 0x22)) = false ->
  (c =? quote) = false -> isQuote c = false.
Proof.
  unfold isQuote. rewrite orb_true_iff, orb_false_iff, !Z.eqb_eq, !Z.eqb_neq.
  intros [->| ->]; cbn; lia.
Qed.

Lemma not_bslash c : startStringChar c = false -> (c =? bslash) = false.
Proof. intros Hs. apply Z.eqb_neq. by intros ->. Qed.

Lemma string_loop_spec quote fuel t :
  isQuote quote = true -> lexer_ok 0 t -> total t - read t < Z.of_nat fuel ->
  wp (string_loop fuel quote) (string_post quote t) (string_post quote t) t.
Proof.
  intros Hq. revert t. induction fuel as [|fuel IH]; intros t Hk Hf;
    [pose proof (total_left t Hk); lia|].
  cbn [string_loop]. eapply wp_look; [exact Hk|apply string_lenient| | |].
  2:{ intros t1 Hx He Hl. pose proof (extends_read _ _ Hx). pose proof (extends_len _ _ Hx).
      destruct (reached_iter_end false (string_step quote) tt EscapeEnd t t1) as [? ? ? ? ? Hst].
      { by apply reached_look_end. }
      split; try done; [by left|lia]. }
  2:{ intros t1 Hx. by apply reached_extends. }
  intros t1 c ptr Hx Hc Hp Hl. eapply wp_octet; [exact Hp|destruct Hk; lia|exact Hc|].
  pose proof (extends_ok 0 _ _ ltac:(lia) Hx Hk) as Hk1. pose proof (extends_read _ _ Hx) as Hr1.
  pose proof (reached_extends false (string_rest quote) t t1 Hk Hx) as H01.
  rewrite <- Hr1 in Hc, Hp, Hl.
  assert (Hgo : forall t2, reached false (string_rest quote) (string_rest quote) t1 t2 ->
    read t1 < read t2 ->
    wp (string_loop fuel quote) (string_post quote t) (string_post quote t) t2).
  { intros t2 H12 Hr. pose proof (reached_trans _ _ _ _ _ _ _ H01 H12) as H02.
    pose proof (fuel_left t t2 (rc_kept _ _ _ _ _ H02) ltac:(lia)).
    eapply lex_wp_mono; [apply IH; [apply H02|lia]|..]; intros e t3; by apply string_reached. }
  destruct (c =? (if quote =? 0x22 then 0x27 else 0x22)) eqn:Ep.
  { destruct (permitted_quote c quote Hq Ep) as (Hcq & Hne & Hb).
    apply wp_APPEND; [done..|apply string_lenient|]. intros t2 Ht.
    destruct (string_turn quote c t1 t2) as [H12 Hr]; [done..| |done|by apply Hgo]. by rewrite Hcq. }
  destruct (startStringChar c) eqn:Es.
  { assert (Hnq : (c =? quote) = false).
    { apply Z.eqb_neq. intros ->. by rewrite (isQuote_no_char _ Hq) in Es. }
    apply lex_wp_check. eapply lex_wp_mono;
      [apply (consumeStringChars_spec quote); [done..|]; destruct (rc_kept _ _ _ _ _ H01); lia|..];
      intros e t2 H2; (destruct e; cbn [string_chars_post] in H2; try done;
        rewrite ?bool_decide_eq_false_2 by done; try (by eapply string_reached));
      (rewrite bool_decide_eq_true_2, Hnq by done; destruct H2 as [H2 Hpr]; apply Hgo; [done|];
       by apply (Hpr c)). }
  assert (H1 : reached false (string_step quote tt)
    (if c =? quote then then! take_char in sret (inr EscapeOk) else sret (inr EscapeBad))%scan t t1).
  { rewrite Hr1 in Hc. eapply reached_trans; [apply (reached_look false _ c t t1 Hk Hx Hc)|].
    cbn beta. rewrite (not_bslash c Es), Es, orb_false_r. destruct (c =? quote) eqn:Eq.
    - by apply reached_extends, lex_extends_refl, Hk1.
    - rewrite (no_quote c quote Hq Ep Eq). by apply reached_extends, lex_extends_refl, Hk1. }
  destruct (Z.eqb_spec c quote) as [->|Hne]; cbn [negb].
  - apply wp_APPEND; [done..|apply string_lenient|]. intros t2 Ht. apply wp_give.
    apply reached_iter_end. eapply reached_trans; [exact H1|].
    by apply (reached_take false (fun _ => sret (inr EscapeOk)) quote).
  - apply wp_return. by apply reached_iter_end.
Qed.

(** consumeString. *)
Lemma consumeString_spec fuel t :
  let quote := lc_first (lx_context t) in
  isQuote quote = true -> lexer_ok 0 t -> total t - read t < Z.of_nat fuel ->
  wp (consumeString fuel) (string_post quote t) (string_post quote t) t.
Proof. intros quote Hq Hk Hf. apply wp_field. by apply string_loop_spec. Qed.
End Strings.
