(* ===== verification/CssLexHandlers.v ===== *)
(** * CssLexHandlers: a CSS lexer in the middle of a token, and the rules for
    its state functions.

    [pending t] is the scanner that reads the rest of the token in the making.
    A state function that pauses leaves a lexer whose pending scanner answers
    what the one it started from answers, but in the three cases [broken]
    names; and one that emits a token emits what the scanner answers. *)
From S2P Require Import Prelude Errors Utf8 Interfaces CssLexState CssLexer CssLexRef.
From S2P Require Import CssLexRules CssLexEscape CssLexRuns.

Section Handlers.
Context {St B : Type} `{!InputStreamOps St} `{!InputStream St} `{!ByteBufferOps B}
  `{!ByteBuffer B} `{!ByteBufferMakeOps B} `{!ByteBufferMake B}.
Local Abbreviation T := (css_lexer St B).
Local Abbreviation M := (lexes (css_lexer St B)).
Implicit Types t : T.

(** ** What a lexer in the middle of a token is about to read *)

Definition first t : Z := lc_first (lx_context t).
Definition orig t : Z := lc_origBytes (lx_context t).
Definition url t : Z * Z := (lc_bytesForURL (lx_context t), lc_dataLenForURL (lx_context t)).
Definition digits_left t : nat := Z.to_nat (6 - lc_hexCount (lx_context t)).

Definition pending t : scan css_token_type :=
  let n := lx_substate t in
  match lx_state t with
  | sSTART => token_start
  | sATKEYWORD => if n =? 0 then at_rest else if n =? 1 then at_escape else at_name
  | sSTRING => string_token (first t)
  | sHASH => hash_rest (orig t)
  | sNUMBER =>
      if n =? 0 then number_rest (first t) else if n =? 1 then number_dot (first t)
      else if n =? 2 then fraction (first t) (orig t)
      else if n =? 3 then number_suffix (first t)
      else if n =? 4 then unit_name else unit_escape
  | sCDO => if n =? 0 then cdo_rest else if n =? 1 then cdo_dash1 else cdo_dash2
  | sCDC => if n =? 0 then dash_rest else if n =? 1 then dash_escape else dash_dash
  | sS => space_rest
  | sCOMMENT =>
      if n =? 0 then slash_rest else comment_rest (lc_lastWasStar (lx_context t))
  | sMATCH => match_rest (first t)
  | sURI => u_rest
  | sIDENT => if n =? 0 then name_rest else bracket
  | sESCAPEDIDENT => escaped_name
  | sURL =>
      if n =? 0 then url_l else if n =? 1 then url_lparen
      else if n =? 2 then url_start (url t) else if n =? 3 then url_quote (url t)
      else if n =? 4 then url_chars (url t) else if n =? 5 then url_space (url t)
      else if n =? 6 then url_paren (url t) else url_string (url t) (first t)
  | sUCR => if n =? 0 then range_start (digits_left t) else range_end (digits_left t)
  end.

(** Octets that were read and are not part of the text: a backslash. *)
Definition slack t : Z :=
  match lx_state t with
  | sATKEYWORD | sCDC => if lx_substate t =? 1 then 1 else 0
  | sNUMBER => if lx_substate t =? 5 then 1 else 0
  | _ => 0
  end.

(** What is known in each state besides. *)
Definition facts t : Prop :=
  let n := lx_substate t in
  let plain := lx_escapeSeen t = false in
  match lx_state t with
  | sSTART | sURI => False
  | sATKEYWORD => 0 <= n <= 2 /\ 1 <= len t
  | sSTRING => isQuote (first t) = true /\ 1 <= len t
  | sHASH => 1 <= len t
  | sNUMBER =>
      0 <= n <= 5 /\ 1 <= len t /\ (n <= 3 -> plain) /\ (n = 2 -> 0 < orig t < read t)
  | sCDO => 0 <= n <= 2 /\ plain /\ n < read t
  | sCDC =>
      0 <= n <= 2 /\ (n = 0 -> plain /\ out t = [0x2D]) /\
      (n = 2 -> plain /\ out t = [0x2D; 0x2D])
  | sS => True
  | sCOMMENT =>
      0 <= n <= 1 /\ plain /\ (n = 0 -> lc_lastWasStar (lx_context t) = false) /\
      (n = 1 -> 2 <= len t /\ (lc_lastWasStar (lx_context t) = true -> 3 <= len t))
  | sMATCH =>
      (first t =? 0x7E) || (first t =? 0x7C) || (first t =? 0x5E) || (first t =? 0x24) ||
      (first t =? 0x2A) = true
  | sIDENT => 0 <= n <= 1
  | sESCAPEDIDENT =>
      read t = 1 /\ (plain -> out t = [bslash]) /\
      (lx_escapeSeen t = true ->
       out t = [] /\ exists c, znth (avail t) 1 = Some c /\ isNewline c = false)
  | sURL =>
      0 <= n <= 7 /\ 2 <= len t /\ (n = 1 -> 3 <= len t) /\
      (2 <= n -> 4 <= len t /\ 0 < (url t).1 <= read t /\ 1 <= (url t).2 <= len t) /\
      (n = 7 -> isQuote (first t) = true)
  | sUCR =>
      0 <= n <= 1 /\ plain /\ 2 + n <= len t /\ 0 <= lc_hexCount (lx_context t) <= 6
  end.

(** A lexer in the middle of a token. *)
Record paused t : Prop := {
  ps_ok : lexer_ok (slack t) t;
  ps_read : 1 + slack t <= read t;
  ps_facts : facts t
}.

(** Pauses after which the lexer forgets where it is: after a '>', in the state
    of a token to come; after a 'u' or 'U', in a state that is taken for sURL;
    and after two dashes and a backslash, in a substate of another state. *)
Definition broken t : Prop :=
  match lx_state t with
  | sSTART => 0 < read t
  | sURI => True
  | sIDENT => lx_substate t = 1 /\ ztake (read t) (avail t) = [0x2D; 0x2D; bslash]
  | _ => False
  end.

(** ** Going on with a scanner *)

(** [t1] is further on than [t]; the scanner [R] at [t] goes on as [R'] at [t1]. *)
Record carried {A} (R R' : scan A) t t1 : Prop := {
  cd_later : later t t1;
  cd_total : total t1 <= total t;
  cd_emit : lx_emit_comments t1 = lx_emit_comments t;
  cd_steps : steps t1 R (cur t) R' (cur t1)
}.

Lemma carried_reached {A} quiet (R R' : scan A) t t1 :
  reached quiet R R' t t1 -> carried R R' t t1.
Proof. intros [[] ? ? ? ? ?]. by split. Qed.

Lemma carried_trans {A} (R1 R2 R3 : scan A) t1 t2 t3 :
  carried R1 R2 t1 t2 -> carried R2 R3 t2 t3 -> carried R1 R3 t1 t3.
Proof.
  intros [] [Hl ? ? ?]. split; [by eapply later_trans|lia|congruence|].
  eapply steps_trans; [|done]. by eapply steps_later.
Qed.

(** The stream is the same. *)
Lemma carried_steps {A} (R R' : scan A) t t1 :
  lx_input t1 = lx_input t -> lx_emit_comments t1 = lx_emit_comments t ->
  steps t R (cur t) R' (cur t1) -> carried R R' t t1.
Proof.
  intros Hi He Hs. split; [|unfold total; rewrite Hi; lia|done|].
  - intros text final. by rewrite Hi.
  - unfold steps in *. by rewrite Hi.
Qed.

Lemma carried_still {A} (R : scan A) t t1 :
  lx_input t1 = lx_input t -> cur t1 = cur t -> lx_emit_comments t1 = lx_emit_comments t ->
  carried R R t t1.
Proof. intros Hi Hc He. apply carried_steps; [done..|]. rewrite Hc. apply steps_refl. Qed.

(** The scanner says what happens at the cursor. *)
Lemma carried_step {A} (R R' : scan A) t :
  (forall text final, R text final (cur t) = R' text final (cur t)) -> carried R R' t t.
Proof.
  intros H. split; [apply later_refl|lia|done|]. intros text final _ r Hr. by rewrite H.
Qed.

(** What a state function promises. *)
Definition answer (R : scan css_token_type) t (e : css_error) t1 : Prop :=
  match e with
  | CSS_OK =>
      exists t0 type, carried R (sret type) t t0 /\ emittable t0 /\ 0 < read t0 /\
        emitted type (token_text type (out t0)) t0 t1
  | CSS_NEEDDATA =>
      later t t1 /\ total t1 <= total t /\ lx_emit_comments t1 = lx_emit_comments t /\
      (broken t1 \/ paused t1 /\ steps t1 R (cur t) (pending t1) (cur t1))
  | CSS_EOF | CSS_INVALID => False
  | _ => True
  end.

Lemma answer_lenient R t : lenient (answer R t).
Proof. intros e t1 (? & ? & ? & ?). by destruct e. Qed.

Lemma answer_carried R R' t t1 e t2 :
  carried R R' t t1 -> answer R' t1 e t2 -> answer R t e t2.
Proof.
  intros Hc H. destruct e; cbn [answer] in *; try done.
  - destruct H as (t0 & ty & H & He). exists t0, ty. split; [by eapply carried_trans|done].
  - destruct Hc as [Hl Ht He Hs], H as (Hl1 & Ht1 & He1 & H).
    split; [by eapply later_trans|]. split; [lia|]. split; [congruence|].
    destruct H as [H|[Hp H]]; [by left|right]. split; [done|].
    eapply steps_trans; [|done]. by eapply steps_later.
Qed.

(** A computation in tail position, from further on. *)
Local Abbreviation answers m R t := (wp m (answer R t) (answer R t) t).

Lemma wp_answer m R R' t t1 :
  carried R R' t t1 -> answers m R' t1 -> wp m (answer R t) (answer R t) t1.
Proof. intros Hc H. eapply lex_wp_mono; [exact H|..]; intros e t2; by apply answer_carried. Qed.

(** To pause is to be pending. *)
Lemma answer_pause R t t1 :
  carried R (pending t1) t t1 -> paused t1 -> answer R t CSS_NEEDDATA t1.
Proof. intros [] Hp. split; [done|]. split; [done|]. split; [done|]. by right. Qed.

Lemma emittable_ok k t : lexer_ok k t -> 0 <= k -> emittable t.
Proof.
  intros Hk H0. pose proof (len_source k t Hk H0). destruct Hk. split; try done; lia.
Qed.

Lemma lex_wp_emit k R type t :
  lexer_ok k t -> 0 <= k -> strippable type (out t) -> type <> CSS_TOKEN_EOF ->
  carried R (sret type) t t -> answers (emitToken type) R t.
Proof.
  intros Hk H0 Hs Ht Hc. pose proof (emittable_ok k t Hk H0) as He. pose proof (lk_read k t Hk).
  apply wp_emitToken; [done|lia|done|done|]. intros t1 H1. exists t, type. split; [done|].
  split; [done|]. split; [lia|done].
Qed.

(** ** The state is kept *)

Lemma kept_context t t1 (f : lexer_context -> lexer_context -> Prop) :
  kept t t1 -> (forall b, f (set_lc_lastWasCR b (lx_context t)) (lx_context t)) ->
  f (lx_context t1) (lx_context t).
Proof. intros [? ? [b ->] ? ? ?] H. apply H. Qed.

Lemma kept_views t t1 : kept t t1 ->
  first t1 = first t /\ orig t1 = orig t /\ url t1 = url t /\
  lc_hexCount (lx_context t1) = lc_hexCount (lx_context t) /\
  lc_lastWasStar (lx_context t1) = lc_lastWasStar (lx_context t).
Proof. intros [? ? [b Hb] ? ? ?]. unfold first, orig, url. by rewrite Hb. Qed.

Lemma pending_kept t t1 : kept t t1 -> pending t1 = pending t.
Proof.
  intros Hk. destruct (kept_views t t1 Hk) as (Hf & Ho & Hu & Hh & Hs). destruct Hk as [Hst Hsub _ _ _ _].
  unfold pending, digits_left. by rewrite Hst, Hsub, Hf, Ho, Hu, Hh, Hs.
Qed.

Lemma slack_kept t t1 : kept t t1 -> slack t1 = slack t.
Proof. intros [Hst Hsub _ _ _ _]. unfold slack. by rewrite Hst, Hsub. Qed.

(** More input does not matter. *)
Lemma facts_grown t s more :
  is_avail s = avail t ++ more -> cur (set_lx_input s t) = cur t -> facts t ->
  facts (set_lx_input s t).
Proof.
  intros Hm Hc Hf. destruct (cur_eq _ _ Hc) as [_ Ho]. unfold facts in *. lx_cbn.
  destruct (lx_state t); try exact Hf; rewrite ?Ho; try exact Hf.
  destruct Hf as (? & ? & H). split_and!; try done.
  intros E. destruct (H E) as (? & c & Hc1 & ?). split; [done|]. exists c. split; [|done].
  unfold avail at 1. lx_cbn. rewrite Hm, znth_app_l; [done|]. apply znth_Some_range in Hc1. lia.
Qed.

Lemma slack_range t : 0 <= slack t <= 1.
Proof. unfold slack. destruct (lx_state t); try lia; destruct (_ =? _); lia. Qed.

Lemma paused_0 t : lexer_ok 0 t -> slack t = 0 -> facts t -> paused t.
Proof. intros Hk Hs Hf. split; rewrite ?Hs; [done| |done]. destruct Hk. lia. Qed.

Lemma paused_grown t s more :
  is_wf s -> is_avail s = avail t ++ more -> paused t ->
  paused (set_lx_input s t) /\ cur (set_lx_input s t) = cur t.
Proof.
  intros Hw Hm [Hk Hr Hf]. pose proof (slack_range t) as H0.
  assert (Hc : cur (set_lx_input s t) = cur t) by (apply (grown_cur (slack t) t s more); lia || done).
  split; [|done]. split; [by apply (grown_ok (slack t) t s more); try lia|done|].
  by apply (facts_grown t s more).
Qed.

Lemma paused_extends t t1 : extends t t1 -> paused t -> paused t1.
Proof. intros (s & -> & Hw & _ & _ & m & Hm) Hp. by destruct (paused_grown t s m Hw Hm Hp). Qed.

(** Characters were read, escapes among them perhaps. *)
Definition grows_in (quiet : bool) t : Prop :=
  match lx_state t with
  | sATKEYWORD | sSTRING | sHASH | sS | sIDENT | sURL => True
  | sNUMBER => quiet = true /\ lx_substate t <> 1 \/ 4 <= lx_substate t
  | _ => False
  end.

Lemma paused_reached {A} quiet (R R' : scan A) t t1 :
  reached quiet R R' t t1 -> slack t = 0 -> grows_in quiet t -> facts t -> paused t1.
Proof.
  intros [Hk Hok Hr Hl Hs _] Hsl Hg Hf. apply paused_0; [done|by rewrite (slack_kept _ _ Hk)|].
  destruct (kept_views t t1 Hk) as (Hfi & Hor & Hu & _ & _). destruct Hk as [Hsta Hsub _ _ _ _].
  unfold facts, grows_in in *. rewrite Hsta, Hsub, Hfi, Hor, Hu.
  destruct (lx_state t); try done; try lia.
  - destruct Hf. split; [done|lia].
  - destruct Hf as (H1 & H2 & H3 & H4).
    destruct Hg as [[-> Hg]|Hg]; [rewrite Hs by done|]; (split_and!; [lia..| |]);
      try done; intros; lia.
  - destruct Hf as (H1 & H2 & H3 & H4 & H5). split_and!; try done; try lia.
Qed.

(** ** Rules for the primitives *)

(** An assignment to what the scanner does not see. *)
Lemma wp_set f m R t :
  lx_input (f t) = lx_input t -> cur (f t) = cur t ->
  lx_emit_comments (f t) = lx_emit_comments t ->
  answers m R (f t) -> answers (run! change f in m) R t.
Proof. intros Hi Hc He H. apply wp_change. eapply wp_answer; [by apply carried_still|done]. Qed.

Lemma wp_enter s n m R t :
  answers m R (set_lx_substate n (set_lx_state s t)) -> answers (run! enter s n in m) R t.
Proof.
  intros H. set (t1 := set_lx_substate n (set_lx_state s t)) in *.
  exact (wp_answer m R R t t1 (carried_still R t t1 eq_refl eq_refl eq_refl) H).
Qed.

(** Looking at the next character. *)
Lemma wp_look_next (K : option Z -> scan css_token_type) f t :
  paused t -> slack t = 0 -> pending t = sbind next K ->
  (forall t1 c ptr, extends t t1 -> paused t1 -> lexer_ok 0 t1 ->
     znth (avail t1) (read t1) = Some c -> points_to t1 (read t1) ptr ->
     read t1 + char_len c <= zlen (avail t1) ->
     answers (f (Some (ptr, char_len c))) (K (Some c)) t1) ->
  (forall t1, extends t t1 -> paused t1 -> lexer_ok 0 t1 -> is_ended (lx_input t1) ->
     zlen (avail t1) = read t1 -> answers (f None) (K None) t1) ->
  answers (seq look f) (sbind next K) t.
Proof.
  intros Hp Hsl Hpe Hsome Hnone. pose proof (ps_ok t Hp) as Hk. rewrite Hsl in Hk.
  eapply wp_look; [exact Hk|apply answer_lenient|..].
  - intros t1 c ptr Hx Hc Hpt Hl. pose proof (paused_extends _ _ Hx Hp) as Hp1.
    pose proof (extends_ok 0 _ _ ltac:(lia) Hx Hk) as Hk1. rewrite <- (extends_read _ _ Hx) in Hpt, Hl.
    eapply wp_answer; [by apply (carried_reached false), (reached_look false K c)|].
    rewrite <- (extends_read _ _ Hx) in Hc. by apply Hsome.
  - intros t1 Hx He Hl. pose proof (paused_extends _ _ Hx Hp) as Hp1.
    pose proof (extends_ok 0 _ _ ltac:(lia) Hx Hk) as Hk1.
    eapply wp_answer; [by apply (carried_reached false), (reached_look_end false K)|].
    rewrite <- (extends_read _ _ Hx) in Hl. by apply Hnone.
  - intros t1 Hx. apply answer_pause; [|by eapply paused_extends].
    rewrite (pending_kept _ _ (kept_extends _ _ Hx)), Hpe.
    by apply (carried_reached false), reached_extends.
Qed.

Lemma wp_octet_at {C} c ptr (k : Z -> M C) (Q : C -> T -> Prop) E t :
  lexer_ok 0 t -> znth (avail t) (read t) = Some c -> points_to t (read t) ptr ->
  wp (k c) Q E t -> wp (seq (octet ptr) k) Q E t.
Proof. intros Hk Hc Hp. eapply wp_octet; [done|destruct Hk; lia|done]. Qed.

(** Copying it. *)
Record taken (c : Z) t t1 : Prop := {
  ta_kept : kept t t1;
  ta_ok : lexer_ok 0 t1;
  ta_read : read t1 = read t + char_len c;
  ta_len : len t1 = len t + char_len c;
  ta_seen : lx_escapeSeen t1 = lx_escapeSeen t;
  ta_more : 1 <= char_len c;
  ta_out : char_len c = 1 -> out t1 = out t ++ [c]
}.

Lemma cur_eq' t p o : cur t = (p, o) -> read t = p /\ out t = o.
Proof. intros [= ? ?]. done. Qed.

Lemma taken_took c t t1 :
  lexer_ok 0 t -> znth (avail t) (read t) = Some c -> read t + char_len c <= zlen (avail t) ->
  took c t t1 -> taken c t t1.
Proof.
  intros Hk Hc Hl Ht. destruct (cur_eq' _ _ _ (tk_cur _ _ _ Ht)) as [Hr Ho].
  pose proof (char_len_range c). pose proof (lk_read 0 t Hk).
  destruct Ht as [? Hk1 _ ? _]. split; try done; try lia.
  - rewrite <- (zlen_out 0 _ Hk1), Ho, zlen_app, (zlen_out 0 t Hk), zlen_ztake, zlen_zdrop by lia. lia.
  - intros Hc1. rewrite Ho, Hc1. f_equal. rewrite (zdrop_cons_znth _ _ c) by (lia || done). done.
Qed.

Lemma wp_take c ptr m (K : unit -> scan css_token_type) t :
  lexer_ok 0 t -> znth (avail t) (read t) = Some c -> points_to t (read t) ptr ->
  read t + char_len c <= zlen (avail t) ->
  (forall t1, taken c t t1 -> answers m (K tt) t1) ->
  answers (run! APPEND ptr (char_len c) in m) (sbind take_char K) t.
Proof.
  intros Hk Hc Hp Hl H. apply wp_APPEND; [done..|apply answer_lenient|]. intros t1 Ht.
  eapply wp_answer; [by apply (carried_reached false), (reached_take false K c)|].
  apply H. by apply taken_took.
Qed.

(** A consumer; a pause in it is a pause of the state function. *)
Lemma wp_consume quiet (S : scan unit) (R : scan css_token_type) m k t :
  wp m (consumer quiet S t) (consumer quiet S t) t ->
  slack t = 0 -> grows_in quiet t -> facts t -> pending t = sbind S (fun _ => R) ->
  (forall t1, reached quiet S (sret tt) t t1 -> paused t1 -> answers k R t1) ->
  answers (run! check m in k) (sbind S (fun _ => R)) t.
Proof.
  intros Hm Hsl Hg Hf Hpe H. apply lex_wp_check.
  assert (Hgo : forall e t1, consumer quiet S t e t1 ->
    if bool_decide (e = CSS_OK)
    then wp k (answer (sbind S (fun _ => R)) t) (answer (sbind S (fun _ => R)) t) t1
    else answer (sbind S (fun _ => R)) t e t1).
  { intros e t1 H1. destruct e; try done.
    - pose proof (paused_reached quiet _ _ _ _ H1 Hsl Hg Hf) as Hp1.
      eapply wp_answer; [|by apply H]. destruct H1 as [[] ? ? ? ? Hst]. split; try done.
      exact (steps_done t1 S tt (fun _ => R) _ _ Hst).
    - pose proof (paused_reached quiet _ _ _ _ H1 Hsl Hg Hf) as Hp1.
      apply answer_pause; [|done]. destruct H1 as [Hk ? ? ? ? Hst].
      rewrite (pending_kept _ _ Hk), Hpe. destruct Hk. split; try done. by apply steps_bind. }
  by eapply lex_wp_mono.
Qed.

(** An escape at the start of a name. *)
Lemma out_esc k t : lexer_ok k t -> k = 1 -> esc_out t = out t.
Proof.
  intros Hk ->. pose proof (lk_len 1 t Hk) as Hl. unfold esc_out, out, source.
  destruct (lx_escapeSeen t); [by rewrite ztake_ge by lia|]. by rewrite Hl.
Qed.

Lemma seen_any k t : seen_ok t -> lexer_ok k t.
Proof. intros [[] Hs]. split; try done. rewrite Hs in *. done. Qed.

Lemma cur_len k t t1 : 0 <= k -> lexer_ok k t -> lexer_ok k t1 -> cur t1 = cur t -> len t1 = len t.
Proof.
  intros H0 Hk Hk1 Hc. rewrite <- (zlen_out k t Hk H0), <- (zlen_out k t1 Hk1 H0).
  by destruct (cur_eq _ _ Hc) as [_ ->].
Qed.

(** An escape that has to wait leaves the lexer before its first character. *)
Lemma escape_waits nl t t1 :
  lexer_ok 1 t -> escape_post nl t CSS_NEEDDATA t1 ->
  kept t t1 /\ lexer_ok 1 t1 /\ cur t1 = cur t.
Proof.
  intros Hk (Hkt & He & Hr & Ho & [Hx|[Hs _]]); (split; [done|]).
  - split; [by apply (extends_ok 1 t)|by apply (extends_cur 1)].
  - split; [by apply seen_any|]. unfold cur. rewrite Hr, <- (esc_out_seen _ Hs), Ho.
    by rewrite (out_esc 1 t).
Qed.

Lemma wp_escape type m R t :
  lexer_ok 1 t -> 2 <= read t -> strippable type (out t) -> type <> CSS_TOKEN_EOF ->
  (forall t1, kept t t1 -> seen_ok t1 -> read t < read t1 -> len t <= len t1 -> answers m R t1) ->
  (forall t1, kept t t1 -> lexer_ok 1 t1 -> cur t1 = cur t ->
     answer (escape_else type R) t CSS_NEEDDATA t1) ->
  answers (escape_or_emit type m) (escape_else type R) t.
Proof.
  intros Hk Hr Hst Hty Hok Hwait. unfold escape_or_emit. apply wp_invoke.
  assert (Hz : zlen (out t) = len t) by (apply (zlen_out 1 t Hk); lia).
  assert (Hback : forall r t1, extends t t1 -> r <> EscapeOk ->
    steps t1 (escape false) (read t, esc_out t) (sret r) (read t, esc_out t) ->
    answers (run! rewind 1 in emitToken type) (escape_else type R) t1).
  { intros r t1 Hx Hne Hs. rewrite (out_esc 1 t Hk eq_refl) in Hs.
    pose proof (extends_ok 1 _ _ ltac:(lia) Hx Hk) as Hk1.
    destruct (cur_eq _ _ (extends_cur 1 _ _ ltac:(lia) Hx Hk)) as [Hr1 Ho1].
    unfold rewind. apply wp_change. fold (read t1). set (t2 := set_lx_bytesReadForToken _ t1).
    pose proof (read_bound 1 t1 Hk1) as Hb.
    assert (Hr2 : read t2 = read t - 1).
    { change (read t2) with (u64 (read t1 - 1)). rewrite Hr1, u64_small; lia. }
    pose proof (emittable_ok 1 t1 Hk1 ltac:(lia)) as He1.
    assert (He : emittable t2).
    { destruct He1. split; try done. rewrite Hr2. change (avail t2) with (avail t1). lia. }
    apply wp_emitToken; [done|lia|change (out t2) with (out t1); by rewrite Ho1|done|].
    intros t3 H3. exists t2, type. split; [|split; [done|split; [lia|done]]].
    apply carried_steps; [done..|]. unfold cur. rewrite Hr1, Ho1, Hr2.
    change (out t2) with (out t1). rewrite Ho1.
    eapply steps_trans; [exact (steps_done t1 (escape false) r _ _ _ Hs)|].
    destruct r; [done|..]; intros text final _ x Hx'; exact Hx'. }
  assert (Hgo : forall e t1, escape_post false t e t1 ->
    wp (match e with
        | CSS_OK => m
        | CSS_EOF | CSS_INVALID => run! rewind 1 in emitToken type
        | _ => return_error e
        end) (answer (escape_else type R) t) (answer (escape_else type R) t) t1).
  { intros e t1 H1. destruct e; try (apply wp_return, answer_lenient; split_and!; done).
    - destruct H1 as (Hk1 & Hs1 & Hr1 & Hl1 & Hst1).
      rewrite (out_esc 1 t Hk eq_refl) in *. eapply wp_answer; [|apply Hok; [done..|lia]].
      destruct Hk1. split; try done. exact (steps_done t1 (escape false) EscapeOk _ _ _ Hst1).
    - destruct H1 as (Hx & _ & _ & Hs). eapply wp_answer; [|by eapply (Hback EscapeBad)].
      pose proof (kept_extends _ _ Hx) as []. split; try done.
      rewrite (extends_cur 1 _ _ ltac:(lia) Hx Hk). apply steps_refl.
    - apply wp_return. destruct (escape_waits false t t1 Hk H1) as (? & ? & ?). by apply Hwait.
    - destruct H1 as (Hx & _ & _ & Hs). eapply wp_answer; [|by eapply (Hback EscapeEnd)].
      pose proof (kept_extends _ _ Hx) as []. split; try done.
      rewrite (extends_cur 1 _ _ ltac:(lia) Hx Hk). apply steps_refl. }
  eapply lex_wp_mono; [by apply consumeEscape_spec, (lexer_escaping 1)|..]; intros e t1; apply Hgo.
Qed.

(** Giving up what was read. *)
Lemma unread_ok n t (R : scan css_token_type) :
  lexer_ok 0 t -> lx_escapeSeen t = false -> 0 <= n < read t ->
  let t1 := set_lx_token (set_tn_len (u64 (len t - n)) (lx_token t))
              (set_lx_bytesReadForToken (u64 (read t - n)) t) in
  lexer_ok 0 t1 /\ read t1 = read t - n /\ len t1 = len t - n /\
  out t1 = ztake (len t - n) (out t) /\ kept t t1 /\ carried (then! unread n in R)%scan R t t1.
Proof.
  intros Hk Hs Hn t1. pose proof (read_bound 0 t Hk) as Hr.
  pose proof (lk_len 0 t Hk) as Hl. rewrite Hs in Hl.
  assert (Hr1 : read t1 = read t - n).
  { change (read t1) with (u64 (read t - n)). rewrite u64_small; lia. }
  assert (Hl1 : len t1 = len t - n).
  { change (len t1) with (u64 (len t - n)). rewrite u64_small; lia. }
  assert (Ho1 : out t1 = ztake (len t - n) (out t)).
  { unfold out. rewrite Hl1. change (source t1) with (source t).
    rewrite ztake_ztake. by rewrite Z.min_l by lia. }
  split; [|split_and!; try done].
  - destruct Hk. split; try done; rewrite ?Hr1, ?Hl1; change (avail t1) with (avail t);
      change (lx_escapeSeen t1) with (lx_escapeSeen t); rewrite ?Hs; try lia.
  - apply kept_intro; try done. apply (same_but_cr t).
  - apply carried_steps; [done..|]. unfold cur. rewrite Hr1, Ho1. intros text final _ r Hr'.
    unfold sbind, unread. rewrite (zlen_out 0 t Hk) by lia. exact Hr'.
Qed.

Lemma wp_assoc {A1 A2 C} (m1 : M A1) (m2 : M A2) (k : M C) (Q : C -> T -> Prop) E t :
  wp (run! m1 in run! m2 in k) Q E t -> wp (run! (run! m1 in m2) in k) Q E t.
Proof. unfold wp, seq. by destruct (m1 t). Qed.

Lemma wp_unread n m (R : scan css_token_type) t :
  lexer_ok 0 t -> lx_escapeSeen t = false -> 0 <= n < read t ->
  (forall t1, lexer_ok 0 t1 -> kept t t1 -> lx_escapeSeen t1 = false -> read t1 = read t - n ->
     len t1 = len t - n -> out t1 = ztake (len t - n) (out t) -> answers m R t1) ->
  answers (run! rewind n in run! shorten n in m) (then! unread n in R)%scan t.
Proof.
  intros Hk Hs Hn H. destruct (unread_ok n t R Hk Hs Hn) as (Hk1 & Hr & Hl & Ho & Hkp & Hc).
  unfold rewind, shorten, change_token. apply wp_change, wp_change.
  eapply wp_answer; [exact Hc|]. by apply H.
Qed.

Lemma wp_drop n type t :
  lexer_ok 0 t -> lx_escapeSeen t = false -> 0 <= n < read t ->
  strippable type (ztake (len t - n) (out t)) -> type <> CSS_TOKEN_EOF ->
  answers (drop_and_emit n type) (then! unread n in sret type)%scan t.
Proof.
  intros Hk Hs Hn Hst Ht. apply wp_unread; [done..|]. intros t1 Hk1 _ _ _ _ Ho.
  apply (lex_wp_emit 0); [done|lia|by rewrite Ho|done|by apply carried_still].
Qed.

Lemma ok_same k t t1 :
  lx_input t1 = lx_input t -> read t1 = read t -> len t1 = len t ->
  lx_unescapedTokenData t1 = lx_unescapedTokenData t -> lx_escapeSeen t1 = lx_escapeSeen t ->
  lexer_ok k t -> lexer_ok k t1.
Proof.
  intros Hi Hr Hl Hu Hs []. split; unfold avail, unescaped in *; rewrite ?Hi, ?Hr, ?Hl, ?Hu, ?Hs; done.
Qed.

(** The character that comes next, or the token that the end of the input
    makes. *)
Lemma wp_look_or_emit type (k : bytes -> Z -> Z -> M css_error) (K : option Z -> scan css_token_type) t :
  paused t -> slack t = 0 -> pending t = sbind next K ->
  strippable type (out t) -> type <> CSS_TOKEN_EOF -> K None = sret type ->
  (forall t1 c ptr, extends t t1 -> paused t1 -> lexer_ok 0 t1 ->
     znth (avail t1) (read t1) = Some c -> points_to t1 (read t1) ptr ->
     read t1 + char_len c <= zlen (avail t1) ->
     answers (k ptr (char_len c) c) (K (Some c)) t1) ->
  answers (look_or_emit type k) (sbind next K) t.
Proof.
  intros Hp Hsl Hpe Hst Hty HK H. apply wp_look_next; [done..| |].
  - intros t1 c ptr Hx Hp1 Hk1 Hc Hpt Hl. eapply wp_octet_at; [done..|]. by apply H.
  - intros t1 Hx Hp1 Hk1 He Hl. apply (lex_wp_emit 0); [done|lia| |done|].
    + assert (Hk : lexer_ok 0 t) by (rewrite <- Hsl; apply Hp).
      destruct (cur_eq _ _ (extends_cur 0 _ _ ltac:(lia) Hx Hk)) as [_ ->]. done.
    + rewrite HK. by apply carried_still.
Qed.

Lemma wp_change_token f (Q : unit -> T -> Prop) E t :
  Q tt (set_lx_token (f (lx_token t)) t) -> wp (change_token f) Q E t.
Proof. done. Qed.

(** [return emitToken(lexer, t->type, token)] *)
Lemma wp_emit_current type R t :
  tn_type (lx_token t) = type -> answers (emitToken type) R t -> answers emit_current_type R t.
Proof. intros <- H. by apply wp_field. Qed.

(** A character was copied, and something else assigned. *)
Lemma carried_took (K : unit -> scan css_token_type) c t t1 t2 :
  lexer_ok 0 t -> znth (avail t) (read t) = Some c -> read t + char_len c <= zlen (avail t) ->
  took c t t1 -> lx_input t2 = lx_input t1 -> cur t2 = cur t1 ->
  lx_emit_comments t2 = lx_emit_comments t1 -> carried (sbind take_char K) (K tt) t t2.
Proof.
  intros Hk Hc Hl Ht Hi Hcu He. eapply carried_trans; [|by apply (carried_still (K tt) t1 t2)].
  by apply (carried_reached false), (reached_take false K c).
Qed.

End Handlers.
