(* ===== verification/CssLexStates.v ===== *)
(** * CssLexStates: every state function of the CSS lexer against the production
    it is in the middle of. *)
From S2P Require Import Prelude Errors Utf8 Interfaces CssLexState CssLexer CssLexRef.
From S2P Require Import CssLexRules CssLexEscape CssLexRuns CssLexHandlers.

Section States.
Context {St B : Type} `{!InputStreamOps St} `{!InputStream St} `{!ByteBufferOps B}
  `{!ByteBuffer B} `{!ByteBufferMakeOps B} `{!ByteBufferMake B}.
Context (fuel : nat).
Local Abbreviation T := (css_lexer St B).
Local Abbreviation M := (lexes (css_lexer St B)).
Implicit Types t : T.
Local Abbreviation answers m R t := (wp m (answer R t) (answer R t) t).
Local Abbreviation fits t := (total t < Z.of_nat fuel).

Lemma fuel_fits k t : lexer_ok k t -> fits t -> total t - read t < Z.of_nat fuel.
Proof. intros [] ?. lia. Qed.

Lemma bool_decide_some (c d : Z) : bool_decide (Some c = Some d) = (c =? d).
Proof.
  destruct (Z.eqb_spec c d) as [->|H]; [by rewrite bool_decide_eq_true_2|].
  rewrite bool_decide_eq_false_2; congruence.
Qed.

(** *** IdentOrFunction *)

Lemma bracket_answer t :
  lexer_ok 0 t -> lx_state t = sIDENT -> answers IdentOrFunction_bracket bracket t.
Proof.
  intros Hk Hs. unfold IdentOrFunction_bracket. apply wp_set; [done..|].
  set (t1 := set_lx_substate 1 t). assert (Hs1 : lx_state t1 = sIDENT) by done.
  assert (Hsl : slack t1 = 0) by (unfold slack; by rewrite Hs1).
  assert (Hp : paused t1).
  { apply paused_0; [by apply (ok_same 0 t)|done|]. unfold facts. by rewrite Hs1. }
  apply wp_look_or_emit; [done..| |done|done|done|].
  { unfold pending. by rewrite Hs1. }
  intros t2 c ptr Hx Hp2 Hk2 Hc Hpt Hl. apply wp_seq. destruct (Z.eqb_spec c 0x28) as [->|Hne].
  - apply wp_APPEND; [done..|apply answer_lenient|]. intros t3 Ht.
    rewrite bool_decide_eq_true_2 by done. apply wp_change_token.
    pose proof (ta_len _ _ _ (taken_took _ _ _ Hk2 Hc Hl Ht)) as Hlen. pose proof (len_bound 0 t2 Hk2 ltac:(lia)).
    change (char_len 0x28) with 1 in *.
    eapply wp_answer; [by eapply (carried_took (fun _ => token_is CSS_TOKEN_FUNCTION))|].
    apply (wp_emit_current CSS_TOKEN_FUNCTION), (lex_wp_emit 0); [done| |lia| |done|by apply carried_still].
    + eapply ok_same, Ht; done.
    + change (1 <= zlen (out t3)). rewrite (zlen_out 0 t3) by (apply Ht || lia). lia.
  - apply wp_change_token. rewrite bool_decide_eq_false_2 by congruence.
    eapply wp_answer; [by apply carried_still|].
    apply (wp_emit_current CSS_TOKEN_IDENT), (lex_wp_emit 0); [done| |lia|done|done|by apply carried_still].
    by apply (ok_same 0 t2).
Qed.

(** A run of characters of a class and escapes, in any state. *)
Lemma wp_chars f m (R : scan css_token_type) t :
  f bslash = true -> lexer_ok 0 t -> fits t -> slack t = 0 -> grows_in false t -> facts t ->
  pending t = sbind (chars_of f) (fun _ => R) ->
  (forall t1, kept t t1 -> lexer_ok 0 t1 -> read t <= read t1 -> len t <= len t1 -> paused t1 ->
     answers m R t1) ->
  answers (run! check (consume_class fuel f) in m) (sbind (chars_of f) (fun _ => R)) t.
Proof.
  intros Hb Hk Hf Hsl Hg Hfa Hpe H. apply (wp_consume false); [|done..|].
  - apply consume_class_spec; [done..|]. by eapply fuel_fits.
  - intros t1 [] Hp. by apply H.
Qed.

(** A run of digits or of white space. *)
Lemma wp_while m' f m (R : scan css_token_type) t :
  (forall t, lexer_ok 0 t -> total t - read t < Z.of_nat fuel ->
     wp m' (consumer true (take_while f) t) (consumer true (take_while f) t) t) ->
  lexer_ok 0 t -> fits t -> slack t = 0 -> grows_in true t -> facts t ->
  pending t = sbind (take_while f) (fun _ => R) ->
  (forall t1, kept t t1 -> lexer_ok 0 t1 -> read t <= read t1 -> len t <= len t1 ->
     lx_escapeSeen t1 = lx_escapeSeen t -> paused t1 -> answers m R t1) ->
  answers (run! check m' in m) (sbind (take_while f) (fun _ => R)) t.
Proof.
  intros Hm Hk Hf Hsl Hg Hfa Hpe H. apply (wp_consume true); [|done..|].
  - apply Hm; [done|]. by eapply fuel_fits.
  - intros t1 [] Hp. by apply H; auto.
Qed.

Lemma fits_kept t t1 : kept t t1 -> fits t -> fits t1.
Proof. intros [] ?. lia. Qed.

Lemma name_answer t :
  lexer_ok 0 t -> fits t -> lx_state t = sIDENT -> lx_substate t = 0 ->
  answers (IdentOrFunction fuel) name_rest t.
Proof.
  intros Hk Hf Hs Hn. unfold IdentOrFunction. apply wp_field. rewrite Hn.
  change (0 =? 0) with true. cbn iota. unfold consumeNMChars, name_rest.
  apply wp_chars; unfold slack, grows_in, facts, pending; rewrite ?Hs, ?Hn; try done.
  intros t1 H1 Hk1 _ _ _. apply bracket_answer; [done|]. by rewrite (kp_state _ _ H1).
Qed.

Lemma enter_ident_answer t :
  lexer_ok 0 t -> fits t -> answers (enter_ident fuel) name_rest t.
Proof. intros Hk Hf. apply wp_enter, name_answer; try done. by apply (ok_same 0 t). Qed.

Lemma ident_answer t :
  paused t -> fits t -> lx_state t = sIDENT -> answers (IdentOrFunction fuel) (pending t) t.
Proof.
  intros [Hk _ Hfa] Hf Hs. unfold slack, facts, pending in *. rewrite Hs in *.
  destruct (Z.eqb_spec (lx_substate t) 0) as [Hn|Hn]; [by apply name_answer|].
  unfold IdentOrFunction. apply wp_field. replace (lx_substate t) with 1 by lia.
  by apply bracket_answer.
Qed.

(** Past a backslash. *)
Lemma wp_bslash m (R : scan css_token_type) t :
  lexer_ok 0 t -> read t + 1 <= zlen (avail t) ->
  (forall t1, kept t t1 -> lexer_ok 1 t1 -> read t1 = read t + 1 -> len t1 = len t ->
     answers m R t1) ->
  answers (run! skip_bytes 1 in m) (then! leave 1 in R)%scan t.
Proof.
  intros Hk Hl H. unfold skip_bytes. apply wp_change. fold (read t).
  destruct (after_bslash t Hk Hl) as (Hr & _ & _). cbv zeta in Hr.
  pose proof (bslash_ok t Hk Hl) as Hk1. set (t1 := set_lx_bytesReadForToken _ t) in *.
  eapply wp_answer; [|apply H; [|done..]].
  - apply carried_steps; [done..|]. unfold cur. rewrite Hr. intros text final _ r Hr'. exact Hr'.
  - apply kept_intro; try done. apply (same_but_cr t).
Qed.

(** A pause in an escape. *)
Lemma escape_pause t t1 :
  paused t -> slack t = 1 -> kept t t1 -> lexer_ok 1 t1 -> cur t1 = cur t ->
  answer (pending t) t CSS_NEEDDATA t1.
Proof.
  intros [Hk Hrd Hfa] Hsl H1 Hk1 Hc. rewrite Hsl in *.
  pose proof (cur_len 1 _ _ ltac:(lia) Hk Hk1 Hc) as Hl. destruct (cur_eq _ _ Hc) as [Hr Ho].
  apply answer_pause.
  - rewrite (pending_kept _ _ H1). destruct H1. split; try done. rewrite Hc. apply steps_refl.
  - split; [by rewrite (slack_kept _ _ H1), Hsl|rewrite (slack_kept _ _ H1); lia|].
    unfold facts, slack in *. rewrite (kp_state _ _ H1), (kp_substate _ _ H1), Hl, Hr.
    destruct (lx_state t); try done;
      [destruct (Z.eqb_spec (lx_substate t) 5)|destruct (Z.eqb_spec (lx_substate t) 1)]; try done;
      split_and!; lia.
Qed.

(** *** AtKeyword *)

Lemma at_name_answer t :
  lexer_ok 0 t -> fits t -> lx_state t = sATKEYWORD -> 1 <= len t ->
  answers (AtKeyword_nmchar fuel) at_name t.
Proof.
  intros Hk Hf Hs Hl. apply wp_set; [done..|]. unfold consumeNMChars, at_name.
  apply wp_chars; unfold slack, grows_in, facts, pending; lx_cbn; rewrite ?Hs; try done.
  - by apply (ok_same 0 t).
  - intros t1 H1 Hk1 _ Hl1 _. apply (lex_wp_emit 0); [done|lia| |done|by apply carried_still].
    change (len (set_lx_substate 2 t)) with (len t) in Hl1.
    cbn [strippable]. rewrite (zlen_out 0 t1) by (done || lia). lia.
Qed.

Lemma at_escape_answer t :
  lexer_ok 1 t -> fits t -> lx_state t = sATKEYWORD -> 1 <= len t -> 2 <= read t ->
  answers (AtKeyword_escape fuel) at_escape t.
Proof.
  intros Hk Hf Hs Hl Hr. apply wp_set; [done..|]. unfold at_escape.
  apply wp_escape; try done; [by apply (ok_same 1 t)|..].
  - intros t1 H1 [Hk1 _] Hr1 Hl1. change (len (set_lx_substate 1 t)) with (len t) in Hl1.
    apply at_name_answer; [done|by eapply fits_kept|by rewrite (kp_state _ _ H1)|lia].
  - intros t1. set (t0 := set_lx_substate 1 t).
    assert (Hpe : pending t0 = at_escape) by (unfold pending; subst t0; lx_cbn; by rewrite Hs).
    assert (Hsl : slack t0 = 1) by (unfold slack; subst t0; lx_cbn; by rewrite Hs).
    unfold at_escape in Hpe. rewrite <- Hpe. apply escape_pause; [|done].
    split; [rewrite Hsl; by apply (ok_same 1 t)|rewrite Hsl; exact Hr|].
    unfold facts. subst t0. lx_cbn. by rewrite Hs.
Qed.

Lemma at_answer t :
  paused t -> fits t -> lx_state t = sATKEYWORD -> answers (AtKeyword fuel) (pending t) t.
Proof.
  intros Hp Hf Hs. destruct (Hp) as [Hk Hr Hfa]. unfold facts in Hfa. rewrite Hs in Hfa.
  unfold AtKeyword. apply wp_field.
  destruct (Z.eqb_spec (lx_substate t) 0) as [Hn|Hn0].
  - assert (Hpe : pending t = at_rest) by (unfold pending; by rewrite Hs, Hn). rewrite Hpe.
    assert (Hsl : slack t = 0) by (unfold slack; by rewrite Hs, Hn). rewrite Hsl in *.
    apply wp_look_or_emit; [done..|].
    intros t1 c ptr Hx Hp1 Hk1 Hc Hpt Hl.
    pose proof (fits_kept _ _ (kept_extends _ _ Hx) Hf) as Hf1.
    pose proof (extends_len _ _ Hx). pose proof (lk_read 0 t1 Hk1).
    assert (Hs1 : lx_state t1 = sATKEYWORD) by (by rewrite (kp_state _ _ (kept_extends _ _ Hx))).
    destruct (startNMStart c); cbn [negb].
    2:{ apply (lex_wp_emit 0); [done|lia|done|done|by apply carried_still]. }
    destruct (Z.eqb_spec c bslash) as [->|Hne]; cbn [negb].
    + apply wp_bslash; [done..|]. intros t2 H2 Hk2 Hr2 Hl2.
      apply at_escape_answer; [done|by eapply fits_kept|by rewrite (kp_state _ _ H2)|lia|lia].
    + apply wp_take; [done..|]. intros t2 [Hkp Hk2 ? ? _ ? _].
      apply at_name_answer; [done|by eapply fits_kept|by rewrite (kp_state _ _ Hkp)|lia].
  - destruct (Z.eqb_spec (lx_substate t) 2) as [Hn|Hn2].
    + assert (Hpe : pending t = at_name) by (unfold pending; by rewrite Hs, Hn). rewrite Hpe.
      assert (Hsl : slack t = 0) by (unfold slack; by rewrite Hs, Hn). rewrite Hsl in *.
      apply at_name_answer; [done..|lia].
    + assert (Hn : lx_substate t = 1) by lia. rewrite Hn. change (1 =? 1) with true. cbn iota.
      assert (Hpe : pending t = at_escape) by (unfold pending; by rewrite Hs, Hn). rewrite Hpe.
      assert (Hsl : slack t = 1) by (unfold slack; by rewrite Hs, Hn). rewrite Hsl in *.
      apply at_escape_answer; [done..|lia|lia].
Qed.

(** *** NumberOrPercentageOrDimension *)

Lemma unit_name_answer t :
  lexer_ok 0 t -> fits t -> lx_state t = sNUMBER -> 1 <= len t ->
  answers (Number_nmchars fuel) unit_name t.
Proof.
  intros Hk Hf Hs Hl. apply wp_set; [done..|]. unfold consumeNMChars, unit_name.
  apply wp_chars; unfold slack, grows_in, facts, pending; lx_cbn; rewrite ?Hs; try done.
  - by apply (ok_same 0 t).
  - by right.
  - intros t1 H1 Hk1 _ _ _. apply (lex_wp_emit 0); [done|lia|done|done|by apply carried_still].
Qed.

Lemma unit_escape_answer t :
  lexer_ok 1 t -> fits t -> lx_state t = sNUMBER -> 1 <= len t -> 2 <= read t ->
  answers (Number_escape fuel) unit_escape t.
Proof.
  intros Hk Hf Hs Hl Hr. apply wp_set; [done..|]. unfold unit_escape.
  apply wp_escape; try done; [by apply (ok_same 1 t)|..].
  - intros t1 H1 [Hk1 _] Hr1 Hl1. change (len (set_lx_substate 5 t)) with (len t) in Hl1.
    apply unit_name_answer; [done|by eapply fits_kept|by rewrite (kp_state _ _ H1)|lia].
  - intros t1. set (t0 := set_lx_substate 5 t).
    assert (Hpe : pending t0 = unit_escape) by (unfold pending; subst t0; lx_cbn; by rewrite Hs).
    assert (Hsl : slack t0 = 1) by (unfold slack; subst t0; lx_cbn; by rewrite Hs).
    unfold unit_escape in Hpe. rewrite <- Hpe. apply escape_pause; [|done].
    split; [rewrite Hsl; by apply (ok_same 1 t)|rewrite Hsl; exact Hr|].
    unfold facts. subst t0. lx_cbn. by rewrite Hs.
Qed.

Lemma solitary_lonely t : lexer_ok 0 t -> solitary t = lonely (first t) (out t).
Proof. intros Hk. unfold solitary, lonely. by rewrite (zlen_out 0 t Hk) by lia. Qed.

Lemma number_end_answer t :
  lexer_ok 0 t ->
  answers Number_end (if lonely (first t) (out t) then token_is CSS_TOKEN_CHAR
                      else token_is CSS_TOKEN_NUMBER) t.
Proof.
  intros Hk. unfold Number_end. apply wp_field. rewrite (solitary_lonely t Hk).
  destruct (lonely _ _); (apply (lex_wp_emit 0); [done|lia|done|done|by apply carried_still]).
Qed.

(** A number in the making, after its first character. *)
Record number_at (n : Z) t : Prop := {
  nb_ok : lexer_ok 0 t;
  nb_fits : fits t;
  nb_state : lx_state t = sNUMBER;
  nb_plain : lx_escapeSeen t = false;
  nb_len : 1 <= len t;
  nb_orig : n = 2 -> 0 < orig t < read t
}.

Lemma number_paused n t :
  number_at n t -> 0 <= n <= 3 -> let t1 := set_lx_substate n t in
  paused t1 /\ slack t1 = 0 /\ facts t1.
Proof.
  intros [Hk Hf Hs Hp Hl Ho] Hn t1.
  assert (Hsl : slack t1 = 0).
  { unfold slack, t1. lx_cbn. rewrite Hs. by destruct (Z.eqb_spec n 5); [lia|]. }
  assert (Hfa : facts t1).
  { unfold facts, t1. lx_cbn. rewrite Hs. split_and!; done || lia. }
  split; [|done]. apply paused_0; [by apply (ok_same 0 t)|done|done].
Qed.

Lemma number_kept n t t1 :
  number_at n t -> kept t t1 -> lexer_ok 0 t1 -> lx_escapeSeen t1 = false ->
  len t <= len t1 -> read t <= read t1 -> number_at n t1.
Proof.
  intros [Hk Hf Hs Hp Hl Ho] H1 Hk1 Hs1 Hl1 Hr1.
  destruct (kept_views t t1 H1) as (_ & Hor & _ & _ & _).
  split; [done|by eapply fits_kept|by rewrite (kp_state _ _ H1)|done|lia|].
  rewrite Hor. intros E. specialize (Ho E). lia.
Qed.

Lemma number_sub n m t : number_at n t -> (m = 2 -> n = 2) -> number_at m (set_lx_substate m t).
Proof. intros [] Hm. split; try done. - by apply (ok_same 0 t). - intros E. auto. Qed.

Lemma number_suffix_answer n t :
  number_at n t -> n <> 2 -> answers (Number_suffix fuel) (number_suffix (first t)) t.
Proof.
  intros Hnb Hn2. pose proof (number_sub n 3 t Hnb ltac:(done)) as H3.
  destruct (number_paused 3 t) as (Hp & Hsl & _); [by destruct Hnb; split|lia|].
  apply wp_set; [done..|]. set (t0 := set_lx_substate 3 t) in *.
  change (first t) with (first t0).
  apply wp_look_next; [done..| | |].
  - unfold pending, t0. lx_cbn. by rewrite (nb_state _ _ Hnb).
  - intros t1 c ptr Hx Hp1 Hk1 Hc Hpt Hl. pose proof (kept_extends _ _ Hx) as Hkx.
    destruct (kept_views _ _ Hkx) as (<- & _).
    assert (H1 : number_at 3 t1).
    { apply (number_kept 3 t0); [done..| |rewrite (extends_len _ _ Hx); lia|rewrite (extends_read _ _ Hx); lia].
      destruct Hx as (s & -> & _). apply H3. }
    eapply wp_octet_at; [done..|]. apply wp_field. rewrite (solitary_lonely t1 Hk1).
    apply (wp_answer _ _ (if lonely (first t1) (out t1) then token_is CSS_TOKEN_CHAR else
       if c =? 0x25 then then! take_char in token_is CSS_TOKEN_PERCENTAGE
       else if negb (startNMStart c) then token_is CSS_TOKEN_NUMBER
       else if c =? bslash then then! leave 1 in unit_escape
       else then! take_char in unit_name)%scan t1 t1).
    { by apply carried_step. }
    destruct (lonely _ _). { apply (lex_wp_emit 0); [done|lia|done|done|by apply carried_still]. }
    destruct (Z.eqb_spec c 0x25) as [->|Hne].
    { apply wp_take; [done..|]. intros t2 [? Hk2 _ Hl2 _ Hm _].
      apply (lex_wp_emit 0); [done|lia| |done|by apply carried_still].
      cbn [strippable]. rewrite (zlen_out 0) by (done || lia). pose proof (nb_len _ _ H1). lia. }
    destruct (startNMStart c); cbn [negb].
    2:{ apply (lex_wp_emit 0); [done|lia|done|done|by apply carried_still]. }
    pose proof (lk_read 0 t1 Hk1). pose proof (nb_len _ _ H1).
    destruct (Z.eqb_spec c bslash) as [->|Hnb']; cbn [negb].
    + apply wp_bslash; [done..|]. intros t2 H2 Hk2 Hr2 Hl2.
      apply unit_escape_answer; [done|by eapply fits_kept, H1|by rewrite (kp_state _ _ H2), (nb_state _ _ H1)|lia|lia].
    + apply wp_take; [done..|]. intros t2 [H2 Hk2 ? ? _ ? _].
      apply unit_name_answer; [done|by eapply fits_kept, H1|by rewrite (kp_state _ _ H2), (nb_state _ _ H1)|lia].
  - intros t1 Hx Hp1 Hk1 He Hl. destruct (kept_views _ _ (kept_extends _ _ Hx)) as (<- & _).
    eapply wp_answer; [|by apply number_end_answer]. by apply carried_step.
Qed.

Lemma number_more_digits_answer t :
  number_at 2 t -> answers (Number_more_digits fuel) (fraction (first t) (orig t)) t.
Proof.
  intros Hnb. pose proof (number_sub 2 2 t Hnb ltac:(done)) as H2.
  destruct (number_paused 2 t Hnb ltac:(lia)) as (Hp & Hsl & Hfa).
  apply wp_set; [done..|]. set (t0 := set_lx_substate 2 t) in *.
  change (first t) with (first t0). change (orig t) with (orig t0).
  unfold fraction. apply wp_while; try done; try apply H2.
  - intros t1. apply consumeDigits_spec.
  - unfold grows_in. rewrite (nb_state _ _ H2). by left.
  - unfold pending, t0. lx_cbn. by rewrite (nb_state _ _ Hnb).
  - intros t1 Hk1 Hok1 Hr1 Hl1 Hs1 _. destruct (kept_views _ _ Hk1) as (Hf1 & Ho1 & _).
    assert (H1 : number_at 2 t1).
    { apply (number_kept 2 t0); try done. rewrite Hs1. apply H2. }
    apply wp_field, wp_field. fold (read t1). fold (orig t1).
    pose proof (nb_orig _ _ H1 eq_refl) as Hor. pose proof (read_bound 0 t1 Hok1).
    rewrite u64_small by lia. rewrite <- Hf1, <- Ho1.
    apply (wp_answer _ _ (then! (if read t1 - orig t1 =? 1 then unread 1 else sret tt) in
       number_suffix (first t1))%scan t1 t1).
    { by apply carried_step. }
    destruct (Z.eqb_spec (read t1 - orig t1) 1) as [He|He].
    + assert (Hl : len t1 = read t1).
      { pose proof (lk_len 0 t1 Hok1) as Hl. rewrite (nb_plain _ _ H1) in Hl. lia. }
      apply wp_assoc, wp_unread; [done|apply H1|lia|]. intros t2 Hk2 Hkp Hs2 Hr2 Hl2 _.
      destruct (kept_views _ _ Hkp) as (<- & _).
      apply (number_suffix_answer 3); [|done]. destruct H1.
      split; [done|by eapply fits_kept|by rewrite (kp_state _ _ Hkp)|done|lia|done].
    + apply wp_seq, wp_give. apply (number_suffix_answer 3); [|done]. destruct H1. by split.
Qed.

Lemma number_dot_answer n t :
  number_at n t -> answers (Number_dot fuel) (number_dot (first t)) t.
Proof.
  intros Hnb. assert (H1 : number_at 1 (set_lx_substate 1 t)).
  { destruct Hnb. split; try done. by apply (ok_same 0 t). }
  destruct (number_paused 1 t) as (Hp & Hsl & _); [by destruct Hnb; split|lia|].
  apply wp_set; [done..|]. set (t0 := set_lx_substate 1 t) in *. change (first t) with (first t0).
  apply wp_look_next; [done..| | |].
  - unfold pending, t0. lx_cbn. by rewrite (nb_state _ _ Hnb).
  - intros t1 c ptr Hx Hp1 Hk1 Hc Hpt Hl. pose proof (kept_extends _ _ Hx) as Hkx.
    destruct (kept_views _ _ Hkx) as (<- & _).
    assert (H2 : number_at 1 t1).
    { apply (number_kept 1 t0); [done..| |rewrite (extends_len _ _ Hx); lia|rewrite (extends_read _ _ Hx); lia].
      destruct Hx as (s & -> & _). apply H1. }
    eapply wp_octet_at; [done..|]. apply wp_field. fold (first t1). rewrite bool_decide_some.
    destruct (Z.eqb_spec c 0x2E) as [->|Hne]; cbn [negb orb andb].
    2:{ by apply (number_suffix_answer 1). }
    destruct (Z.eqb_spec (first t1) 0x2E) as [Hf|Hf]; cbn [negb].
    { by apply (number_suffix_answer 1). }
    apply wp_field. fold (read t1). apply wp_set; [done..|].
    set (t2 := set_lx_context _ t1).
    apply (wp_answer _ _ (then! take_char in fraction (first t2) (orig t2))%scan t2 t2).
    { by apply carried_step. }
    apply wp_take; try done; [by apply (ok_same 0 t1)|].
    intros t3 [Hkp Hk3 Hr3 Hl3 Hs3 Hm _]. destruct (kept_views _ _ Hkp) as (<- & <- & _).
    apply number_more_digits_answer. destruct H2.
    split; [done|by eapply fits_kept|by rewrite (kp_state _ _ Hkp)|by rewrite Hs3| |].
    + change (len t2) with (len t1) in Hl3. lia.
    + intros _. destruct (kept_views _ _ Hkp) as (_ & -> & _). change (orig t2) with (read t1).
      change (read t2) with (read t1) in Hr3. pose proof (lk_read 0 t1 Hk1). lia.
  - intros t1 Hx Hp1 Hk1 He Hl. destruct (kept_views _ _ (kept_extends _ _ Hx)) as (<- & _).
    change (answers Number_end (number_suffix (first t1)) t1).
    eapply wp_answer; [|by apply number_end_answer].
    eapply carried_trans; [apply (carried_reached false), reached_look_end; [done| |done..]|].
    + apply lex_extends_refl, Hk1.
    + by apply carried_step.
Qed.

Lemma number_answer_0 t :
  number_at 0 t -> lx_substate t = 0 ->
  answers (NumberOrPercentageOrDimension fuel) (number_rest (first t)) t.
Proof.
  intros Hnb Hn. unfold NumberOrPercentageOrDimension. apply wp_field. rewrite Hn.
  change (0 =? 0) with true. cbn iota. unfold number_rest.
  pose proof (nb_state _ _ Hnb) as Hs.
  apply wp_while; try apply Hnb; unfold slack, grows_in, pending; rewrite ?Hs, ?Hn; try done.
  - intros t1. apply consumeDigits_spec.
  - by left.
  - unfold facts. rewrite Hs, Hn. destruct Hnb. split_and!; done || lia.
  - intros t1 Hk1 Hok1 Hr1 Hl1 Hs1 _. destruct (kept_views _ _ Hk1) as (<- & _).
    apply (number_dot_answer 0). apply (number_kept 0 t); try done. rewrite Hs1. apply Hnb.
Qed.

Lemma number_answer t :
  paused t -> fits t -> lx_state t = sNUMBER ->
  answers (NumberOrPercentageOrDimension fuel) (pending t) t.
Proof.
  intros [Hk Hr Hfa] Hf Hs. unfold slack, facts, pending in *. rewrite Hs in *.
  destruct Hfa as (Hn & Hl & Hpl & Ho).
  assert (Hnb : lx_substate t <= 3 -> number_at (lx_substate t) t).
  { intros Hn3. destruct (Z.eqb_spec (lx_substate t) 5); [lia|]. split; try done; auto. }
  destruct (Z.eqb_spec (lx_substate t) 0) as [E|E0].
  { apply number_answer_0; [|done]. rewrite E in Hnb. apply Hnb. lia. }
  unfold NumberOrPercentageOrDimension. apply wp_field.
  destruct (Z.eqb_spec (lx_substate t) 0); [done|].
  destruct (Z.eqb_spec (lx_substate t) 1) as [E|E1].
  { apply (number_dot_answer (lx_substate t)), Hnb. lia. }
  destruct (Z.eqb_spec (lx_substate t) 2) as [E|E2].
  { apply number_more_digits_answer. rewrite E in Hnb. apply Hnb. lia. }
  destruct (Z.eqb_spec (lx_substate t) 3) as [E|E3].
  { apply (number_suffix_answer (lx_substate t)); [apply Hnb; lia|lia]. }
  destruct (Z.eqb_spec (lx_substate t) 4) as [E|E4].
  { apply unit_name_answer; try done. by destruct (Z.eqb_spec (lx_substate t) 5); [lia|]. }
  destruct (Z.eqb_spec (lx_substate t) 5) as [E|E5]; [|lia]. apply unit_escape_answer; done || lia.
Qed.

(** *** CDCOrIdentOrFunctionOrNPD *)

Lemma later_avail t t1 : later t t1 -> exists more, avail t1 = avail t ++ more.
Proof.
  intros Hl. destruct (Hl (avail t1) true) as (m & Hm & _); [|by exists m].
  exists []. by rewrite app_nil_r.
Qed.

Lemma cdc_escape t :
  lexer_ok 1 t -> fits t -> 2 <= read t ->
  (forall t1, kept (set_lx_substate 1 t) t1 -> lexer_ok 1 t1 -> cur t1 = cur t ->
     answer dash_escape (set_lx_substate 1 t) CSS_NEEDDATA t1) ->
  answers (CDC_escape fuel) dash_escape t.
Proof.
  intros Hk Hf Hr Hp. apply wp_set; [done..|]. unfold dash_escape in *.
  apply wp_escape; try done; [by apply (ok_same 1 t)|].
  intros t1 H1 [Hk1 _] _ _. apply enter_ident_answer; [done|by eapply fits_kept].
Qed.

Lemma cdc_escape_answer t :
  lexer_ok 1 t -> fits t -> lx_state t = sCDC -> 2 <= read t ->
  answers (CDC_escape fuel) dash_escape t.
Proof.
  intros Hk Hf Hs Hr. apply cdc_escape; [done..|]. set (t0 := set_lx_substate 1 t).
  intros t1 H1 Hk1 Hc. assert (Hpe : pending t0 = dash_escape) by (unfold pending; subst t0; lx_cbn; by rewrite Hs).
  assert (Hsl : slack t0 = 1) by (unfold slack; subst t0; lx_cbn; by rewrite Hs).
  rewrite <- Hpe. apply (escape_pause t0); [|done..].
  split; [rewrite Hsl; by apply (ok_same 1 t)|rewrite Hsl; exact Hr|].
  unfold facts. subst t0. lx_cbn. by rewrite Hs.
Qed.

(** Two dashes and a backslash. *)
Lemma cdc_lost_answer t :
  lexer_ok 1 t -> fits t -> ztake (read t) (avail t) = [0x2D; 0x2D; bslash] ->
  answers (run! enter sIDENT 1 in CDC_escape fuel) dash_escape t.
Proof.
  intros Hk Hf Ht. assert (Hr : read t = 3).
  { apply (f_equal zlen) in Ht. rewrite zlen_ztake in Ht. change (zlen [_; _; _]) with 3 in Ht.
    pose proof (lk_read 1 t Hk). lia. }
  apply wp_enter. set (t0 := set_lx_substate 1 _).
  apply cdc_escape; [by apply (ok_same 1 t)|done|change (2 <= read t); lia|].
  intros t1 H1 Hk1 Hc. destruct (later_avail _ _ (kp_later _ _ H1)) as [m Hm].
  destruct H1 as [Hs Hn _ He Hla Hto]. split; [done|]. split; [done|]. split; [done|]. left.
  unfold broken. rewrite Hs. split; [exact Hn|]. destruct (cur_eq _ _ Hc) as [-> _].
  rewrite Hm. change (avail (set_lx_substate 1 t0)) with (avail t). change (read t0) with (read t).
  rewrite ztake_app_le; [done|]. apply Hk.
Qed.

Lemma plain_read t : lexer_ok 0 t -> lx_escapeSeen t = false -> out t = ztake (read t) (avail t).
Proof.
  intros Hk Hs. pose proof (lk_len 0 t Hk) as Hl. unfold out, source. rewrite Hs in *.
  by rewrite Hl, Z.sub_0_r.
Qed.

Lemma cdc_gt_answer t :
  lexer_ok 0 t -> fits t -> lx_state t = sCDC -> lx_escapeSeen t = false ->
  out t = [0x2D; 0x2D] -> answers (CDC_gt fuel) dash_dash t.
Proof.
  intros Hk Hf Hs Hpl Ho. apply wp_set; [done..|]. set (t0 := set_lx_substate 2 t).
  assert (Hsl : slack t0 = 0) by (unfold slack, t0; lx_cbn; by rewrite Hs).
  assert (Hfa : facts t0) by (unfold facts, t0; lx_cbn; rewrite Hs; split_and!; done).
  assert (Hk0 : lexer_ok 0 t0) by (by apply (ok_same 0 t)).
  assert (Hlen : forall t1, extends t0 t1 -> lexer_ok 0 t1 ->
    out t1 = [0x2D; 0x2D] /\ read t1 = 2 /\ lx_escapeSeen t1 = false).
  { intros t1 Hx Hk1. destruct (cur_eq _ _ (extends_cur 0 _ _ ltac:(lia) Hx Hk0)) as [Hr1 Ho1].
    assert (Hs1 : lx_escapeSeen t1 = false) by (destruct Hx as (s & -> & _); exact Hpl).
    change (out t0) with (out t) in Ho1. rewrite Ho in Ho1. split; [done|]. split; [|done].
    pose proof (zlen_out 0 t1 Hk1 ltac:(lia)) as Hz. rewrite Ho1, (lk_len 0 t1 Hk1), Hs1 in Hz.
    change (zlen [_; _]) with 2 in Hz. lia. }
  apply wp_look_next; [by apply paused_0|done| | |].
  - unfold pending, t0. lx_cbn. by rewrite Hs.
  - intros t1 c ptr Hx Hp1 Hk1 Hc Hpt Hl. destruct (Hlen t1 Hx Hk1) as (Ho1 & Hr1 & Hs1).
    pose proof (fits_kept _ _ (kept_extends _ _ Hx) Hf) as Hf1.
    eapply wp_octet_at; [done..|]. destruct (Z.eqb_spec c 0x3E) as [->|Hne].
    { apply wp_take; [done..|]. intros t2 [_ Hk2 _ _ _ _ _]. apply wp_set; [done..|].
      apply (wp_emit_current CSS_TOKEN_CDC); [done|].
      apply (lex_wp_emit 0); [by apply (ok_same 0 t2)|lia|done|done|by apply carried_still]. }
    destruct (startNMStart c); cbn [negb].
    + destruct (Z.eqb_spec c bslash) as [->|Hnb]; cbn [negb].
      * apply wp_bslash; [done..|]. intros t2 H2 Hk2 Hr2 _.
        apply cdc_lost_answer; [done|by eapply fits_kept|].
        destruct (later_avail _ _ (kp_later _ _ H2)) as [m ->]. rewrite Hr2, ztake_app_le by done.
        rewrite ztake_add, <- plain_read, Ho1 by (done || lia).
        by rewrite (zdrop_cons_znth _ _ bslash) by (done || lia).
      * apply wp_take; [done..|]. intros t2 [H2 Hk2 _ _ _ _ _].
        apply enter_ident_answer; [done|by eapply fits_kept].
    + apply wp_unread; [done..|lia|]. intros t2 Hk2 _ _ _ _ _. apply wp_set; [done..|].
      apply (wp_emit_current CSS_TOKEN_CHAR); [done|].
      apply (lex_wp_emit 0); [by apply (ok_same 0 t2)|lia|done|done|by apply carried_still].
  - intros t1 Hx Hp1 Hk1 He Hl. destruct (Hlen t1 Hx Hk1) as (Ho1 & Hr1 & Hs1).
    apply wp_drop; [done..|lia|done|done].
Qed.

Lemma cdc_answer t :
  paused t -> fits t -> lx_state t = sCDC ->
  answers (CDCOrIdentOrFunctionOrNPD fuel) (pending t) t.
Proof.
  intros Hp Hf Hs. destruct (Hp) as [Hk Hr Hfa]. unfold facts in Hfa. rewrite Hs in Hfa.
  unfold slack in Hk, Hr. rewrite Hs in Hk, Hr.
  destruct Hfa as (Hn & H0 & H2). unfold CDCOrIdentOrFunctionOrNPD. apply wp_field.
  destruct (Z.eqb_spec (lx_substate t) 0) as [E|E0].
  2:{ destruct (Z.eqb_spec (lx_substate t) 1) as [E|E1].
      - rewrite E. change (1 =? 2) with false. cbn iota.
        assert (Hpe : pending t = dash_escape) by (unfold pending; by rewrite Hs, E). rewrite Hpe.
        apply cdc_escape_answer; [done..|lia].
      - assert (E : lx_substate t = 2) by lia. rewrite E. change (2 =? 2) with true. cbn iota.
        assert (Hpe : pending t = dash_dash) by (unfold pending; by rewrite Hs, E). rewrite Hpe.
        destruct (H2 E). by apply cdc_gt_answer. }
  rewrite E in Hk. destruct (H0 E) as [Hpl Ho].
  assert (Hpe : pending t = dash_rest) by (unfold pending; by rewrite Hs, E). rewrite Hpe.
  apply wp_look_or_emit; [done|unfold slack; by rewrite Hs, E|done..|].
  intros t1 c ptr Hx Hp1 Hk1 Hc Hpt Hl. pose proof (kept_extends _ _ Hx) as Hkx.
  pose proof (fits_kept _ _ Hkx Hf) as Hf1. pose proof (lk_read 0 t1 Hk1).
  assert (Hs1 : lx_state t1 = sCDC) by (by rewrite (kp_state _ _ Hkx)).
  assert (Hpl1 : lx_escapeSeen t1 = false) by (destruct Hx as (s & -> & _); exact Hpl).
  destruct (cur_eq _ _ (extends_cur 0 _ _ ltac:(lia) Hx Hk)) as [_ Ho1]. rewrite Ho in Ho1.
  destruct (isDigit c || (c =? 0x2E)).
  { apply wp_take; [done..|]. intros t2 [H2k Hk2 ? Hl2 Hs2 ? _]. apply wp_enter, wp_set; [done..|].
    set (t3 := set_lx_context _ _). change c with (first t3).
    apply number_answer_0; [|done]. split; try done.
    - by apply (ok_same 0 t2).
    - by eapply (fits_kept t1 t2).
    - change (lx_escapeSeen t2 = false). by rewrite Hs2.
    - change (1 <= len t2). pose proof (lk_nonneg 0 t1 Hk1). lia. }
  destruct (Z.eqb_spec c 0x2D) as [->|Hd]; cbn [negb andb].
  { apply wp_take; [done..|]. intros t2 [H2k Hk2 _ _ Hs2 _ Hout].
    apply cdc_gt_answer; [done|by eapply fits_kept|by rewrite (kp_state _ _ H2k)|by rewrite Hs2|].
    by rewrite Hout, Ho1. }
  destruct (startNMStart c) eqn:En; cbn [negb].
  2:{ destruct (Z.eqb_spec c bslash) as [->|_]; [done|].
      apply (lex_wp_emit 0); [done|lia|done|done|by apply carried_still]. }
  destruct (Z.eqb_spec c bslash) as [->|Hb]; cbn [negb].
  - apply wp_seq, wp_give. apply wp_bslash; [done..|]. intros t2 H2k Hk2 Hr2 _.
    apply cdc_escape_answer; [done|by eapply fits_kept|by rewrite (kp_state _ _ H2k)|lia].
  - apply wp_take; [done..|]. intros t2 [H2k Hk2 _ _ _ _ _].
    apply enter_ident_answer; [done|by eapply fits_kept].
Qed.

(** *** CDO *)

(** A few characters that were not escaped. *)
Record plain_at (s : lexer_state) (n : Z) t : Prop := {
  pl_ok : lexer_ok 0 t;
  pl_fits : fits t;
  pl_state : lx_state t = s;
  pl_seen : lx_escapeSeen t = false;
  pl_read : n < read t
}.

Lemma plain_extends s n t t1 : plain_at s n t -> extends t t1 -> plain_at s n t1.
Proof.
  intros [Hk Hf Hs Hp Hr] Hx. pose proof (kept_extends _ _ Hx) as Hkx.
  split; [by apply (extends_ok 0 t)|by eapply fits_kept|by rewrite (kp_state _ _ Hkx)| |].
  - destruct Hx as (x & -> & _). exact Hp.
  - by rewrite (extends_read _ _ Hx).
Qed.

Lemma plain_taken s n c t t1 : plain_at s n t -> taken c t t1 -> plain_at s (n + 1) t1.
Proof.
  intros [Hk Hf Hs Hp Hr] [Hkp Hk1 Hr1 _ Hs1 Hm _].
  split; [done|by eapply fits_kept|by rewrite (kp_state _ _ Hkp)|by rewrite Hs1|lia].
Qed.

Lemma cdo_paused n t :
  plain_at sCDO n t -> 0 <= n <= 2 ->
  plain_at sCDO n (set_lx_substate n t) /\ paused (set_lx_substate n t) /\
  slack (set_lx_substate n t) = 0.
Proof.
  intros [Hk Hf Hs Hp Hr] Hn. assert (Hsl : slack (set_lx_substate n t) = 0) by (unfold slack; lx_cbn; by rewrite Hs).
  split; [split; try done; by apply (ok_same 0 t)|]. split; [|done].
  apply paused_0; [by apply (ok_same 0 t)|done|]. unfold facts. lx_cbn. by rewrite Hs.
Qed.

Lemma cdo_dash2_answer t : plain_at sCDO 2 t -> answers CDO_dash2 cdo_dash2 t.
Proof.
  intros Hpl. destruct (cdo_paused 2 t Hpl ltac:(lia)) as (Hpl0 & Hp & Hsl).
  apply wp_set; [done..|]. set (t0 := set_lx_substate 2 t) in *.
  assert (Hdrop : forall t1, extends t0 t1 ->
    answers (drop_and_emit 2 CSS_TOKEN_CHAR) (then! unread 2 in token_is CSS_TOKEN_CHAR)%scan t1).
  { intros t1 Hx. destruct (plain_extends _ _ _ _ Hpl0 Hx). by apply wp_drop. }
  apply wp_look_next; [done..| | |].
  - unfold pending, t0. lx_cbn. by rewrite (pl_state _ _ _ Hpl).
  - intros t1 c ptr Hx Hp1 Hk1 Hc Hpt Hl. eapply wp_octet_at; [done..|]. rewrite bool_decide_some.
    destruct (Z.eqb_spec c 0x2D) as [->|_]; [|by apply Hdrop].
    apply wp_take; [done..|]. intros t2 [_ Hk2 _ _ _ _ _].
    apply (lex_wp_emit 0); [done|lia|done|done|by apply carried_still].
  - intros t1 Hx _ _ _ _. by apply Hdrop.
Qed.

Lemma cdo_dash1_answer t : plain_at sCDO 1 t -> answers CDO_dash1 cdo_dash1 t.
Proof.
  intros Hpl. destruct (cdo_paused 1 t Hpl ltac:(lia)) as (Hpl0 & Hp & Hsl).
  apply wp_set; [done..|]. set (t0 := set_lx_substate 1 t) in *.
  assert (Hdrop : forall t1, extends t0 t1 ->
    answers (drop_and_emit 1 CSS_TOKEN_CHAR) (then! unread 1 in token_is CSS_TOKEN_CHAR)%scan t1).
  { intros t1 Hx. destruct (plain_extends _ _ _ _ Hpl0 Hx). by apply wp_drop. }
  apply wp_look_next; [done..| | |].
  - unfold pending, t0. lx_cbn. by rewrite (pl_state _ _ _ Hpl).
  - intros t1 c ptr Hx Hp1 Hk1 Hc Hpt Hl. eapply wp_octet_at; [done..|]. rewrite bool_decide_some.
    destruct (Z.eqb_spec c 0x2D) as [->|_]; [|by apply Hdrop].
    apply wp_take; [done..|]. intros t2 Ht.
    apply cdo_dash2_answer, (plain_taken _ 1 0x2D t1); [by eapply plain_extends|done].
  - intros t1 Hx _ _ _ _. by apply Hdrop.
Qed.

Lemma cdo_answer t :
  paused t -> fits t -> lx_state t = sCDO -> answers CDO (pending t) t.
Proof.
  intros Hp Hf Hs. destruct (Hp) as [Hk Hr Hfa]. unfold facts in Hfa. rewrite Hs in Hfa.
  assert (Hsl : slack t = 0) by (unfold slack; by rewrite Hs). rewrite Hsl in *.
  destruct Hfa as (Hn & Hpl & Hrd). unfold CDO. apply wp_field. unfold pending. rewrite Hs.
  destruct (Z.eqb_spec (lx_substate t) 0) as [E|E0].
  2:{ destruct (Z.eqb_spec (lx_substate t) 1) as [E|E1]; [apply cdo_dash1_answer; by split; [..|lia]|].
      assert (E : lx_substate t = 2) by lia. rewrite E. apply cdo_dash2_answer. split; done || lia. }
  apply wp_look_or_emit; [done..| |done|done|done|].
  { unfold pending. by rewrite Hs, E. }
  intros t1 c ptr Hx Hp1 Hk1 Hc Hpt Hl. rewrite !bool_decide_some.
  assert (Hpl1 : plain_at sCDO 0 t1) by (apply (plain_extends _ _ t); [split; done || lia|done]).
  destruct (Z.eqb_spec c 0x21) as [->|_].
  { apply wp_take; [done..|]. intros t2 Ht. by apply cdo_dash1_answer, (plain_taken _ 0 0x21 t1). }
  destruct (Z.eqb_spec c 0x3D) as [->|_].
  { apply wp_take; [done..|]. intros t2 [_ Hk2 _ _ _ _ _].
    apply (lex_wp_emit 0); [done|lia|done|done|by apply carried_still]. }
  apply (lex_wp_emit 0); [done|lia|done|done|by apply carried_still].
Qed.

(** *** Comment *)

Lemma wp_emit_end R t :
  lexer_ok 0 t -> lx_escapeSeen t = false -> carried R (sret CSS_TOKEN_EOF) t t ->
  answers (emitToken CSS_TOKEN_EOF) R t.
Proof.
  intros Hk Hs Hc. pose proof (lk_read 0 t Hk). apply wp_emit_eof; [apply Hk|done|left; lia|].
  intros t1 H1. exists t, CSS_TOKEN_EOF. split; [done|]. split; [by apply (emittable_ok 0)|].
  split; [lia|done].
Qed.

(** In a comment, after a star or not. *)
Record comment_at (star : bool) t : Prop := {
  cm_ok : lexer_ok 0 t;
  cm_fits : fits t;
  cm_state : lx_state t = sCOMMENT;
  cm_sub : lx_substate t = 1;
  cm_seen : lx_escapeSeen t = false;
  cm_len : 2 <= len t;
  cm_star : lc_lastWasStar (lx_context t) = star;
  cm_more : star = true -> 3 <= len t
}.

Lemma comment_paused star t :
  comment_at star t -> paused t /\ slack t = 0 /\ pending t = comment_rest star.
Proof.
  intros [Hk Hf Hs Hn Hp Hl Hst Hm].
  assert (Hsl : slack t = 0) by (unfold slack; by rewrite Hs).
  split; [apply paused_0; [done..|]|split; [done|]].
  - unfold facts. rewrite Hs, Hn, Hst. by split_and!.
  - unfold pending. by rewrite Hs, Hn, Hst.
Qed.

Lemma comment_extends star t t1 : comment_at star t -> extends t t1 -> comment_at star t1.
Proof.
  intros [Hk Hf Hs Hn Hp Hl Hst Hm] Hx. pose proof (kept_extends _ _ Hx) as Hkx.
  destruct (kept_views _ _ Hkx) as (_ & _ & _ & _ & Hst1).
  split; [by apply (extends_ok 0 t)|by eapply fits_kept|by rewrite (kp_state _ _ Hkx)|
    by rewrite (kp_substate _ _ Hkx)| |by rewrite (extends_len _ _ Hx)|congruence|
    by rewrite (extends_len _ _ Hx)].
  destruct Hx as (x & -> & _). exact Hp.
Qed.

(** One turn. *)
Definition comment_step (star : bool) : scan (bool + css_token_type) :=
  (scan! c := next in
   match c with
   | Some c =>
       then! take_char in
       if star && (c =? 0x2F) then sret (inr CSS_TOKEN_COMMENT) else sret (inl (c =? 0x2A))
   | None => sret (inr CSS_TOKEN_EOF)
   end)%scan.

Lemma comment_taken star c t t1 :
  comment_at star t -> znth (avail t) (read t) = Some c -> read t + char_len c <= zlen (avail t) ->
  took c t t1 ->
  reached false (comment_step star)
    (if star && (c =? 0x2F) then sret (inr CSS_TOKEN_COMMENT) else sret (inl (c =? 0x2A))) t t1.
Proof.
  intros [Hk _ _ _ _ _ _ _] Hc Hl Ht.
  eapply reached_trans;
    [exact (reached_look false _ c t t Hk (lex_extends_refl t (lk_input 0 t Hk)) Hc)|].
  by apply (reached_take false (fun _ => if star && (c =? 0x2F) then sret (inr CSS_TOKEN_COMMENT)
    else sret (inl (c =? 0x2A))) c).
Qed.

Lemma comment_again star c t t1 t2 :
  comment_at star t -> taken c t t1 ->
  alike (set_lx_context (set_lc_lastWasStar (c =? 0x2A) (lx_context t1)) t1) t2 ->
  comment_at (c =? 0x2A) t2.
Proof.
  intros [Hk Hf Hs Hn Hp Hl Hst Hm] [Hkp Hk1 _ Hl1 Hs1 Hm1 _] Ha.
  set (t0 := set_lx_context _ t1) in *.
  assert (Hk0 : lexer_ok 0 t0) by (by apply (ok_same 0 t1)).
  pose proof (alike_ok 0 _ _ Ha Hk0) as Hk2. pose proof (fits_kept _ _ Hkp Hf) as Hf1.
  destruct Ha as (b & col & line & ->). split; try done.
  - by rewrite <- (kp_state _ _ Hkp) in Hs.
  - by rewrite <- (kp_substate _ _ Hkp) in Hn.
  - by rewrite <- Hs1 in Hp.
  - change (2 <= len t1). lia.
  - intros _. change (3 <= len t1). lia.
Qed.

Lemma comment_loop_answer n star t :
  comment_at star t -> total t - read t < Z.of_nat n ->
  answers (comment_loop n) (comment_rest star) t.
Proof.
  revert star t. induction n as [|n IH]; intros star t Hcm Hn;
    [pose proof (total_left t (cm_ok _ _ Hcm)); lia|].
  change (comment_rest star) with (iter comment_step star).
  cbn [comment_loop]. unfold look_or_emit. eapply wp_look; [apply Hcm|apply answer_lenient| | |].
  - intros t1 c ptr Hx Hc Hp Hl. pose proof (comment_extends _ _ _ Hcm Hx) as Hcm1.
    pose proof (reached_extends false (iter comment_step star) t t1 (cm_ok _ _ Hcm) Hx) as H01.
    rewrite <- (extends_read _ _ Hx) in *.
    eapply wp_answer; [by apply (carried_reached false)|].
    eapply wp_octet_at; [apply Hcm1|done..|].
    apply wp_APPEND; [apply Hcm1|done..|apply answer_lenient|]. intros t2 Ht.
    pose proof (comment_taken _ _ _ _ Hcm1 Hc Hl Ht) as H12.
    pose proof (taken_took _ _ _ (cm_ok _ _ Hcm1) Hc Hl Ht) as Hta.
    apply wp_field. destruct (kept_views _ _ (ta_kept _ _ _ Hta)) as (_ & _ & _ & _ & ->).
    rewrite (cm_star _ _ Hcm1). destruct (star && (c =? 0x2F)) eqn:Ee.
    + apply andb_prop in Ee as [-> _].
      eapply wp_answer; [by apply (carried_reached false), reached_iter_end|].
      apply (lex_wp_emit 0); [apply Hta|lia| |done|by apply carried_still].
      cbn [strippable]. rewrite (zlen_out 0) by (apply Hta || lia).
      pose proof (cm_more _ _ Hcm1 eq_refl). pose proof (ta_len _ _ _ Hta). pose proof (ta_more _ _ _ Hta). lia.
    + pose proof (ta_read _ _ _ Hta). pose proof (ta_more _ _ _ Hta).
      eapply wp_answer; [by apply (carried_reached false), reached_iter; [|lia]|].
      apply wp_set; [done..|]. apply wp_count_line. intros t3 Ha.
      eapply wp_answer; [apply (carried_still _ _ t3)|].
      * by destruct Ha as (b & col & line & ->).
      * by apply alike_cur.
      * by destruct Ha as (b & col & line & ->).
      * apply IH; [by eapply comment_again|].
        pose proof (kp_total _ _ (rc_kept _ _ _ _ _ H01)). pose proof (kp_total _ _ (ta_kept _ _ _ Hta)).
        assert (total t3 = total t2) as -> by (by destruct Ha as (b & col & line & ->)).
        pose proof (f_equal fst (alike_cur _ _ Ha) : read t3 = read t2). lia.
  - intros t1 Hx He Hl. pose proof (comment_extends _ _ _ Hcm Hx) as Hcm1.
    eapply wp_answer; [apply (carried_reached false), (reached_iter_end false comment_step star CSS_TOKEN_EOF)|].
    + by apply reached_look_end; [apply Hcm|..].
    + apply wp_emit_end; [apply Hcm1..|by apply carried_still].
  - intros t1 Hx. pose proof (comment_extends _ _ _ Hcm Hx) as Hcm1.
    destruct (comment_paused _ _ Hcm1) as (Hp & _ & Hpe). apply answer_pause; [|done].
    rewrite Hpe. apply (carried_reached false), reached_extends; [apply Hcm|done].
Qed.

Lemma comment_answer t :
  paused t -> fits t -> lx_state t = sCOMMENT -> answers (Comment fuel) (pending t) t.
Proof.
  intros Hp Hf Hs. destruct (Hp) as [Hk Hr Hfa]. unfold facts in Hfa. rewrite Hs in Hfa.
  assert (Hsl : slack t = 0) by (unfold slack; by rewrite Hs). rewrite Hsl in *.
  destruct Hfa as (Hn & Hpl & Hst & Hfa). unfold Comment. apply wp_field.
  assert (Hbody : forall star t, comment_at star (set_lx_substate 1 t) ->
    answers (Comment_body fuel) (comment_rest star) t).
  { intros star t1 H1. apply wp_set; [done..|]. apply comment_loop_answer; [done|].
    eapply fuel_fits; apply H1. }
  destruct (Z.eqb_spec (lx_substate t) 0) as [E|E0].
  2:{ assert (E : lx_substate t = 1) by lia. rewrite E. change (1 =? 1) with true. cbn iota.
      unfold pending. rewrite Hs, E. change (1 =? 0) with false. cbn iota.
      destruct (Hfa E) as [Hl Hm]. apply Hbody. split; try done. by apply (ok_same 0 t). }
  unfold pending. rewrite Hs, E. change (0 =? 0) with true. cbn iota.
  apply wp_look_or_emit; [done..| |done|done|done|].
  { unfold pending. by rewrite Hs, E. }
  intros t1 c ptr Hx Hp1 Hk1 Hc Hpt Hl. rewrite bool_decide_some.
  destruct (Z.eqb_spec c 0x2A) as [->|_]; cbn [negb].
  2:{ apply (lex_wp_emit 0); [done|lia|done|done|by apply carried_still]. }
  pose proof (kept_extends _ _ Hx) as Hkx. destruct (kept_views _ _ Hkx) as (_ & _ & _ & _ & Hst1).
  assert (Hpl1 : lx_escapeSeen t1 = false) by (destruct Hx as (s & -> & _); exact Hpl).
  apply wp_take; [done..|]. intros t2 [H2 Hk2 _ Hl2 Hs2 _ _].
  destruct (kept_views _ _ H2) as (_ & _ & _ & _ & Hst2).
  apply Hbody. split; try done.
  - by apply (ok_same 0 t2).
  - eapply (fits_kept t1 t2), fits_kept; done.
  - change (lx_state t2 = sCOMMENT). by rewrite (kp_state _ _ H2), (kp_state _ _ Hkx).
  - change (lx_escapeSeen t2 = false). by rewrite Hs2.
  - change (2 <= len t2). pose proof (lk_len 0 t1 Hk1) as Hln. rewrite Hpl1 in Hln.
    pose proof (lk_read 0 t1 Hk1). change (char_len 0x2A) with 1 in Hl2. lia.
  - change (lc_lastWasStar (lx_context t2) = false). rewrite Hst2, Hst1. by apply Hst.
Qed.

(** *** The states without substates *)

Lemma escaped_answer t :
  paused t -> fits t -> lx_state t = sESCAPEDIDENT ->
  answers (EscapedIdentOrFunction fuel) (pending t) t.
Proof.
  intros Hp Hf Hs. destruct (Hp) as [Hk Hr Hfa]. unfold facts in Hfa. rewrite Hs in Hfa.
  assert (Hsl : slack t = 0) by (unfold slack; by rewrite Hs). rewrite Hsl in *.
  destruct Hfa as (Hr1 & Hpl & Hse).
  assert (Hpe : pending t = escaped_name) by (unfold pending; by rewrite Hs).
  assert (Heo : esc_out t = []).
  { unfold esc_out. rewrite Hr1. destruct (lx_escapeSeen t) eqn:Es; [|by rewrite ztake_le0 by lia].
    destruct (Hse eq_refl) as [Ho _]. unfold out, source in Ho. rewrite Es in Ho.
    pose proof (lk_len 0 t Hk) as Hln. rewrite Es in Hln. by rewrite ztake_ge in Ho by lia. }
  unfold EscapedIdentOrFunction. apply wp_invoke. rewrite Hpe.
  assert (Hbad : forall r t1, extends t t1 -> r <> EscapeOk -> lx_escapeSeen t = false ->
    steps t1 (escape false) (1, []) (sret r) (1, []) ->
    wp (emitToken CSS_TOKEN_CHAR) (answer escaped_name t) (answer escaped_name t) t1).
  { intros r t1 Hx Hne Hsn Hst. destruct (cur_eq _ _ (extends_cur 0 _ _ ltac:(lia) Hx Hk)) as [Hr' Ho'].
    eapply (wp_answer _ _ escaped_name); [|].
    { rewrite <- Hpe. by apply (carried_reached false), (reached_extends false (pending t)). }
    apply (lex_wp_emit 0); [by apply (extends_ok 0 t)|lia|done|done|].
    apply carried_steps; [done..|]. unfold cur. rewrite Hr', Ho', Hr1, (Hpl Hsn).
    intros text final Hcm x Hx'. unfold escaped_name, sbind at 1, back_to at 1.
    unfold sbind at 1. rewrite (Hst text final Hcm (r, (1, [])) eq_refl).
    destruct r; [done|..]; exact Hx'. }
  assert (Hgo : forall e t1, escape_post false t e t1 ->
    wp (match e with
        | CSS_OK => enter_ident fuel
        | CSS_EOF | CSS_INVALID => emitToken CSS_TOKEN_CHAR
        | _ => return_error e
        end) (answer escaped_name t) (answer escaped_name t) t1).
  { intros e t1 H1. destruct e; try (apply wp_return, answer_lenient; split_and!; done).
    - destruct H1 as (H1 & [Hk1 _] & _ & _ & Hst). rewrite Hr1, Heo in Hst.
      eapply (wp_answer _ _ name_rest); [|apply enter_ident_answer; [done|by eapply fits_kept]].
      destruct H1. split; try done. intros text final Hcm x Hx'.
      unfold escaped_name, sbind at 1, back_to at 1. unfold sbind at 1.
      by rewrite (Hst text final Hcm (EscapeOk, cur t1) eq_refl).
    - destruct H1 as (Hx & _ & (c & Hc & Hnl) & Hst). rewrite Hr1, Heo in *.
      apply (Hbad EscapeBad); [done..| |done]. destruct (lx_escapeSeen t) eqn:Es; [|done].
      destruct (Hse eq_refl) as (_ & d & Hd & Hdn). destruct Hx as (s & -> & _ & _ & _ & m & Hm).
      rewrite Hm, znth_app_l in Hc by (apply znth_Some_range in Hd; lia). congruence.
    - apply wp_return. destruct H1 as (H1 & He1 & Hrd & Heo1 & [Hx|[Hs1 (c & Hc & Hnl)]]).
      { apply answer_pause; [|by eapply paused_extends].
        rewrite (pending_kept _ _ H1), Hpe. by apply (carried_reached false), reached_extends. }
      apply answer_pause.
      + rewrite (pending_kept _ _ H1), Hpe. destruct H1. split; try done.
        intros text final _ x Hx. exact Hx.
      + apply paused_0; [apply Hs1|by rewrite (slack_kept _ _ H1)|].
        unfold facts. rewrite (kp_state _ _ H1), Hs. rewrite Hrd, Hr1 in *. split; [done|].
        split; [by rewrite (so_seen _ Hs1)|]. intros _. rewrite <- (esc_out_seen _ Hs1), Heo1.
        split; [done|]. exists c. split; [done|]. by apply Hnl.
    - destruct H1 as (Hx & Hl1 & _ & Hst). rewrite Hr1, Heo in *.
      apply (Hbad EscapeEnd); [done..| |done]. destruct (lx_escapeSeen t) eqn:Es; [|done].
      destruct (Hse eq_refl) as (_ & d & Hd & _). destruct Hx as (s & -> & _ & _ & _ & m & Hm).
      apply znth_Some_range in Hd. rewrite Hm, zlen_app in Hl1. zlens. lia. }
  eapply lex_wp_mono; [by apply consumeEscape_spec, (lexer_escaping 0)|..]; intros e t1; apply Hgo.
Qed.

Lemma hash_answer t :
  paused t -> fits t -> lx_state t = sHASH -> answers (Hash fuel) (pending t) t.
Proof.
  intros Hp Hf Hs. destruct (Hp) as [Hk Hr Hfa].
  assert (Hsl : slack t = 0) by (unfold slack; by rewrite Hs). rewrite Hsl in *.
  assert (Hl : 1 <= len t) by (unfold facts in Hfa; by rewrite Hs in Hfa).
  assert (Hpe : pending t = hash_rest (orig t)) by (unfold pending; by rewrite Hs). rewrite Hpe.
  unfold Hash, consumeNMChars, hash_rest. apply wp_chars; try done.
  { unfold grows_in. by rewrite Hs. }
  intros t1 H1 Hk1 _ Hl1 _. destruct (kept_views _ _ H1) as (_ & <- & _).
  apply wp_field, wp_field. fold (read t1). fold (orig t1).
  apply (wp_answer _ _ (token_is (if orig t1 <? read t1 then CSS_TOKEN_HASH else CSS_TOKEN_CHAR)) t1 t1).
  { by apply carried_step. }
  destruct (orig t1 <? read t1); (apply (lex_wp_emit 0); [done|lia| |done|by apply carried_still]); [|done].
  cbn [strippable]. rewrite (zlen_out 0) by (done || lia). lia.
Qed.

Lemma match_answer t :
  paused t -> fits t -> lx_state t = sMATCH -> answers Match (pending t) t.
Proof.
  intros Hp Hf Hs. destruct (Hp) as [Hk Hr Hfa]. unfold facts in Hfa. rewrite Hs in Hfa.
  assert (Hsl : slack t = 0) by (unfold slack; by rewrite Hs).
  assert (Hpe : pending t = match_rest (first t)) by (unfold pending; by rewrite Hs). rewrite Hpe.
  unfold Match. apply wp_look_or_emit; [done..|].
  intros t1 c ptr Hx Hp1 Hk1 Hc Hpt Hl. rewrite bool_decide_some.
  destruct (Z.eqb_spec c 0x3D) as [->|_]; cbn [negb].
  2:{ apply (lex_wp_emit 0); [done|lia|done|done|by apply carried_still]. }
  apply wp_take; [done..|]. intros t2 [H2 Hk2 _ _ _ _ _].
  destruct (kept_views _ _ (kept_extends _ _ Hx)) as (Hf1 & _). destruct (kept_views _ _ H2) as (Hf2 & _).
  apply wp_field. fold (first t2). rewrite Hf2, Hf1. unfold match_type.
  destruct (first t =? 0x7E); [|destruct (first t =? 0x7C); [|destruct (first t =? 0x5E); [|
    destruct (first t =? 0x24); [|destruct (first t =? 0x2A); [|done]]]]];
    (apply (lex_wp_emit 0); [done|lia|done|done|by apply carried_still]).
Qed.

Lemma space_answer t :
  paused t -> fits t -> lx_state t = sS -> answers (State_S fuel) (pending t) t.
Proof.
  intros Hp Hf Hs. destruct (Hp) as [Hk Hr Hfa].
  assert (Hsl : slack t = 0) by (unfold slack; by rewrite Hs). rewrite Hsl in *.
  assert (Hpe : pending t = space_rest) by (unfold pending; by rewrite Hs). rewrite Hpe.
  unfold State_S, space_rest. apply wp_while; try done.
  - intros t1. apply consumeWChars_spec.
  - unfold grows_in. by rewrite Hs.
  - intros t1 _ Hk1 _ _ _ _. apply (lex_wp_emit 0); [done|lia|done|done|by apply carried_still].
Qed.

(** *** Strings *)

(** What a state function makes of consumeString. *)
Lemma wp_string (K : escape_result -> scan css_token_type) k t :
  paused t -> fits t -> slack t = 0 -> grows_in false t -> isQuote (first t) = true ->
  pending t = sbind (string_rest (first t)) K ->
  (forall e t1, odd e -> wp (k e) (answer (sbind (string_rest (first t)) K) t)
     (answer (sbind (string_rest (first t)) K) t) t1) ->
  (forall t1, k CSS_NEEDDATA t1 = Returned CSS_NEEDDATA t1) ->
  (forall r t1, (r = EscapeOk \/ r = EscapeBad) -> kept t t1 -> lexer_ok 0 t1 -> read t <= read t1 ->
     len t <= len t1 -> paused t1 ->
     answers (k (if r is EscapeOk then CSS_OK else CSS_INVALID)) (K r) t1) ->
  (forall t1, string_end (string_rest (first t)) t t1 -> answers (k CSS_EOF) (K EscapeEnd) t1) ->
  answers (seq (invoke (consumeString fuel)) k) (sbind (string_rest (first t)) K) t.
Proof.
  intros Hp Hf Hsl Hg Hq Hpe Hodd Hwait Hend Heof. destruct (Hp) as [Hk Hr Hfa]. rewrite Hsl in *.
  apply wp_invoke.
  assert (Hgo : forall e t1, string_post (first t) t e t1 ->
    wp (k e) (answer (sbind (string_rest (first t)) K) t) (answer (sbind (string_rest (first t)) K) t) t1).
  { intros e t1 H1.
    assert (Hdone : forall r, reached false (string_rest (first t)) (sret r) t t1 ->
      carried (sbind (string_rest (first t)) K) (K r) t t1).
    { intros r [[] ? ? ? ? Hst]. split; try done. exact (steps_done t1 (string_rest (first t)) r K _ _ Hst). }
    destruct e; try (apply Hodd; split_and!; done); cbn [string_post] in H1.
    - eapply wp_answer; [by apply (Hdone EscapeOk)|].
      pose proof (paused_reached false _ _ _ _ H1 Hsl Hg Hfa). destruct H1.
      apply (Hend EscapeOk); try done. by left.
    - eapply wp_answer; [by apply (Hdone EscapeBad)|].
      pose proof (paused_reached false _ _ _ _ H1 Hsl Hg Hfa). destruct H1.
      apply (Hend EscapeBad); try done. by right.
    - unfold wp. rewrite Hwait. apply answer_pause; [|by eapply paused_reached].
      destruct H1 as [H1 ? ? ? ? Hst]. rewrite (pending_kept _ _ H1), Hpe. destruct H1.
      split; try done. by apply steps_bind.
    - eapply wp_answer; [|by apply Heof]. destruct H1 as [[] ? ? ? ? ? Hst]. split; try done.
      exact (steps_done t1 (string_rest (first t)) EscapeEnd K _ _ Hst). }
  eapply lex_wp_mono; [by apply consumeString_spec; [..|eapply fuel_fits]|..]; intros e t1; apply Hgo.
Qed.

Lemma string_answer t :
  paused t -> fits t -> lx_state t = sSTRING -> answers (State_String fuel) (pending t) t.
Proof.
  intros Hp Hf Hs. destruct (Hp) as [Hk Hr Hfa]. unfold facts in Hfa. rewrite Hs in Hfa.
  destruct Hfa as [Hq Hl].
  assert (Hsl : slack t = 0) by (unfold slack; by rewrite Hs).
  assert (Hpe : pending t = string_token (first t)) by (unfold pending; by rewrite Hs). rewrite Hpe.
  unfold State_String, string_token. apply wp_string; try done.
  - unfold grows_in. by rewrite Hs.
  - intros e t1 He. destruct e; try (by destruct He as (? & ? & ? & ?)); by apply wp_return.
  - intros r t1 Hor H1 Hk1 _ Hl1 _. destruct Hor as [->| ->].
    + apply (lex_wp_emit 0); [done|lia| |done|by apply carried_still].
      cbn [strippable]. rewrite (zlen_out 0) by (done || lia). lia.
    + apply (lex_wp_emit 0); [done|lia| |done|by apply carried_still].
      cbn [strippable]. rewrite (zlen_out 0) by (done || lia). lia.
  - intros t1 [H1 Hok _ _ _ Hl1 _].
    assert (Hst : strippable CSS_TOKEN_INVALID_STRING (out t1)).
    { cbn [strippable]. destruct Hok; [rewrite (zlen_out 0)|rewrite (zlen_out 1)]; done || lia. }
    destruct Hok; [apply (lex_wp_emit 0)|apply (lex_wp_emit 1)]; try done; by apply carried_still.
Qed.

(** *** URI *)

(** Past "url(". *)
Record url_at (n : Z) t : Prop := {
  ur_fits : fits t;
  ur_state : lx_state t = sURL;
  ur_len : 4 <= len t;
  ur_read : 0 < (url t).1 <= read t;
  ur_data : 1 <= (url t).2 <= len t;
  ur_quote : n = 7 -> isQuote (first t) = true
}.

Lemma url_kept n t t1 :
  url_at n t -> kept t t1 -> read t <= read t1 -> len t <= len t1 -> url_at n t1.
Proof.
  intros [] H1 Hr Hl. destruct (kept_views _ _ H1) as (Hf & _ & Hu & _).
  split; rewrite ?Hu, ?Hf; try done; try lia; [by eapply fits_kept|by rewrite (kp_state _ _ H1)].
Qed.

Lemma url_alike n t t1 : url_at n t -> alike t t1 -> url_at n t1 /\ url t1 = url t.
Proof.
  intros H Ha. pose proof (alike_kept _ _ Ha) as Hk.
  destruct (kept_views _ _ Hk) as (_ & _ & Hu & _). split; [|done].
  apply (url_kept n t); [done..| |]; destruct Ha as (b & col & line & ->); apply Z.le_refl.
Qed.

(** The memory of a CR is not seen by the scanner. *)
Lemma wp_last_cr b m R t :
  (forall t1, alike t t1 -> answers m R t1) -> answers (run! set_last_cr b in m) R t.
Proof.
  intros H. apply wp_set_last_cr. intros t1 Ha. eapply wp_answer; [|by apply H].
  apply carried_still; [|by apply alike_cur|]; by destruct Ha as (? & ? & ? & ->).
Qed.

Lemma url_facts n t :
  url_at n t -> lx_substate t = n -> 2 <= n <= 7 ->
  facts t /\ slack t = 0 /\ grows_in false t /\ grows_in true t.
Proof.
  intros [Hf Hs Hl Hr Hd Hq] Hn Hb. unfold facts, slack, grows_in. rewrite Hs, Hn.
  split; [|done]. split; [lia|]. split; [lia|]. split; [lia|]. by split.
Qed.

(** Back to "url(". *)
Lemma rewind_url_answer k n t :
  lexer_ok k t -> 0 <= k -> url_at n t -> answers rewind_url (only_url (url t)) t.
Proof.
  intros Hk H0 [Hf Hs Hl Hr Hd _]. unfold rewind_url, change_token. apply wp_field, wp_change, wp_change.
  set (t1 := set_lx_token _ _). pose proof (lk_read k t Hk). pose proof (emittable_ok k t Hk H0) as [].
  assert (Hr1 : read t1 = (url t).1) by done. assert (Hl1 : len t1 = (url t).2) by done.
  assert (Ho1 : out t1 = ztake (url t).2 (out t)).
  { unfold out. rewrite Hl1. change (source t1) with (source t). rewrite ztake_ztake. by rewrite Z.min_l by lia. }
  assert (He : emittable t1).
  { split; try done; rewrite ?Hr1, ?Hl1; [change (avail t1) with (avail t)|change (source t1) with (source t)]; lia. }
  eapply (wp_answer _ _ (sret CSS_TOKEN_FUNCTION)).
  - apply carried_steps; [done..|]. unfold cur. rewrite Hr1, Ho1. intros text final _ r Hr'. exact Hr'.
  - apply wp_emitToken; [done|lia| |done|].
    + cbn [strippable]. rewrite Ho1, zlen_ztake, (zlen_out k t Hk H0). lia.
    + intros t2 H2. exists t1, CSS_TOKEN_FUNCTION. split; [by apply carried_still|].
      split; [done|]. split; [lia|done].
Qed.

Lemma url_paren_answer n t :
  lexer_ok 0 t -> url_at n t -> answers URI_rparen (url_paren (url t)) t.
Proof.
  intros Hk Hu. assert (Hu0 : url_at 6 (set_lx_substate 6 t)) by (destruct Hu; by split).
  destruct (url_facts 6 _ Hu0 eq_refl ltac:(lia)) as (Hfa & Hsl & _).
  apply wp_set; [done..|]. set (t0 := set_lx_substate 6 t) in *. change (url t) with (url t0).
  assert (Hk0 : lexer_ok 0 t0) by (by apply (ok_same 0 t)).
  assert (Hu1 : forall t1, extends t0 t1 -> url_at 6 t1 /\ url t1 = url t0).
  { intros t1 Hx. pose proof (kept_extends _ _ Hx) as Hkx. destruct (kept_views _ _ Hkx) as (_ & _ & Hu1 & _).
    split; [|done]. apply (url_kept 6 t0); [done..|rewrite (extends_read _ _ Hx)|rewrite (extends_len _ _ Hx)]; lia. }
  apply wp_look_next; [by apply paused_0|done| | |].
  - unfold pending, t0. lx_cbn. by rewrite (ur_state _ _ Hu).
  - intros t1 c ptr Hx Hp1 Hk1 Hc Hpt Hl. destruct (Hu1 t1 Hx) as [Hu1' <-].
    eapply wp_octet_at; [done..|]. rewrite bool_decide_some.
    destruct (Z.eqb_spec c 0x29) as [->|_]; cbn [negb]; [|by apply (rewind_url_answer 0 6)].
    apply wp_take; [done..|]. intros t2 [H2 Hk2 _ _ _ _ Ho2].
    apply (lex_wp_emit 0); [done|lia| |done|by apply carried_still].
    exists (out t1). split; [by apply Ho2|]. rewrite (zlen_out 0) by (done || lia). apply Hu1'.
  - intros t1 Hx Hp1 Hk1 He Hl. destruct (Hu1 t1 Hx) as [Hu1' <-]. by apply (rewind_url_answer 0 6).
Qed.

Lemma url_space_answer n t :
  lexer_ok 0 t -> url_at n t -> answers (URI_w2 fuel) (url_space (url t)) t.
Proof.
  intros Hk Hu. assert (Hu0 : url_at 5 (set_lx_substate 5 t)) by (destruct Hu; by split).
  destruct (url_facts 5 _ Hu0 eq_refl ltac:(lia)) as (Hfa & Hsl & _ & Hg).
  apply wp_set; [done..|]. set (t0 := set_lx_substate 5 t) in *. change (url t) with (url t0).
  unfold url_space. apply wp_while; try done.
  - intros t1. apply consumeWChars_spec.
  - by apply (ok_same 0 t).
  - apply Hu.
  - unfold pending, t0. lx_cbn. by rewrite (ur_state _ _ Hu).
  - intros t1 H1 Hk1 Hr1 Hl1 _ _. destruct (kept_views _ _ H1) as (_ & _ & <- & _).
    apply (url_paren_answer 5); [done|]. by apply (url_kept 5 t0).
Qed.

(** At the end of the input, where a backslash may not be part of the text. *)
Lemma wp_look_ended {C} (f : option (bytes * Z) -> M C) (Q : C -> T -> Prop) E t :
  is_wf (lx_input t) -> is_ended (lx_input t) -> zlen (avail t) = read t ->
  wp (f None) Q E t -> wp (seq look f) Q E t.
Proof.
  intros Hw He Hl H. pose proof (is_peek_ended _ Hw He) as Hp.
  change (wp (seq (look_at (read t)) f) Q E t). unfold look_at. apply wp_seq, wp_seq.
  unfold wp at 1, peek_input. rewrite <- Hl. unfold avail. rewrite Hp.
  replace (set_lx_input (lx_input t) t) with t by (by destruct t). exact H.
Qed.

Lemma steps_while_end f t p o :
  is_ended (lx_input t) -> zlen (avail t) = p -> steps t (take_while f) (p, o) (sret tt) (p, o).
Proof. intros He Hl. apply steps_on_iter_end. by apply steps_end. Qed.

Lemma url_space_end k n t :
  lexer_ok k t -> 0 <= k -> url_at n t -> is_ended (lx_input t) -> zlen (avail t) = read t ->
  answers (URI_w2 fuel) (url_space (url t)) t.
Proof.
  intros Hk H0 Hu He Hl. apply wp_set; [done..|]. set (t0 := set_lx_substate 5 t).
  change (url t) with (url t0). eapply (wp_answer _ _ (url_paren (url t0)) _ t0).
  { apply carried_steps; [done..|].
    exact (steps_done t0 (take_while isSpace) tt _ _ _ (steps_while_end isSpace t0 _ _ He Hl)). }
  destruct fuel as [|n1] eqn:Efuel.
  { pose proof (ur_fits _ _ Hu). pose proof (is_avail_total _ (lk_input _ _ Hk)).
    pose proof (lk_read _ _ Hk). unfold total, avail in *. lia. }
  unfold consumeWChars. apply lex_wp_check. apply wp_seq. cbn [wchars_loop].
  apply wp_look_ended; [apply Hk|done..|]. apply wp_return.
  rewrite bool_decide_eq_true_2 by done. apply wp_set; [done..|]. set (t1 := set_lx_substate 6 t0).
  eapply (wp_answer _ _ (only_url (url t1)) _ t1).
  { apply carried_steps; [done..|]. exact (steps_end t1 _ _ _ He Hl). }
  apply wp_look_ended; [apply Hk|done..|].
  apply (rewind_url_answer k 6); [by apply (ok_same k t)|done|]. destruct Hu. by split.
Qed.

Lemma url_string_answer t :
  lexer_ok 0 t -> url_at 7 t -> answers (URI_string fuel) (url_string (url t) (first t)) t.
Proof.
  intros Hk Hu. assert (Hu0 : url_at 7 (set_lx_substate 7 t)) by (destruct Hu; by split).
  destruct (url_facts 7 _ Hu0 eq_refl ltac:(lia)) as (Hfa & Hsl & Hg & _).
  apply wp_set; [done..|]. set (t0 := set_lx_substate 7 t) in *.
  change (url t) with (url t0). change (first t) with (first t0).
  assert (Hk0 : lexer_ok 0 t0) by (by apply (ok_same 0 t)).
  assert (Hgo : forall k n t1, lexer_ok k t1 -> 0 <= k -> url_at n t1 ->
    (k = 0 \/ is_ended (lx_input t1) /\ zlen (avail t1) = read t1) ->
    answers (run! set_last_cr false in URI_w2 fuel) (url_space (url t1)) t1).
  { intros k n t1 Hk1 H0 Hu1 Hend. apply wp_last_cr. intros t2 Ha.
    destruct (url_alike n _ _ Hu1 Ha) as [Hu2 <-].
    pose proof (alike_ok k _ _ Ha Hk1). destruct Hend as [->|[He Hl]].
    + by apply (url_space_answer n).
    + apply (url_space_end k n); [done..| |]; by destruct Ha as (b & col & line & ->). }
  unfold url_string. apply wp_string; try done.
  - by apply paused_0.
  - apply Hu.
  - by apply (ur_quote 7).
  - unfold pending, t0. lx_cbn. by rewrite (ur_state _ _ Hu).
  - intros e t1 He. destruct e; try (by destruct He as (? & ? & ? & ?)); by apply wp_return.
  - intros r t1 Hor H1 Hk1 Hr1 Hl1 _. destruct (kept_views _ _ H1) as (_ & _ & <- & _).
    pose proof (url_kept 7 t0 t1 Hu0 H1 Hr1 Hl1) as Hu1.
    destruct Hor as [->| ->]; [|by apply (rewind_url_answer 0 7)].
    apply (Hgo 0 7); [done|done|done|by left].
  - intros t1 [H1 Hok He Hl Hr1 Hl1 _]. destruct (kept_views _ _ H1) as (_ & _ & <- & _).
    pose proof (url_kept 7 t0 t1 Hu0 H1 Hr1 Hl1) as Hu1.
    destruct Hok as [Hok|Hok]; [apply (Hgo 0 7)|apply (Hgo 1 7)]; try done; try lia; by right.
Qed.

Lemma url_chars_answer n t :
  lexer_ok 0 t -> url_at n t -> answers (URI_url fuel) (url_chars (url t)) t.
Proof.
  intros Hk Hu. assert (Hu0 : url_at 4 (set_lx_substate 4 t)) by (destruct Hu; by split).
  destruct (url_facts 4 _ Hu0 eq_refl ltac:(lia)) as (Hfa & Hsl & Hg & _).
  apply wp_set; [done..|]. set (t0 := set_lx_substate 4 t) in *. change (url t) with (url t0).
  unfold consumeURLChars, url_chars. apply wp_chars; try done.
  - by apply (ok_same 0 t).
  - apply Hu.
  - unfold pending, t0. lx_cbn. by rewrite (ur_state _ _ Hu).
  - intros t1 H1 Hk1 Hr1 Hl1 _. destruct (kept_views _ _ H1) as (_ & _ & <- & _).
    pose proof (url_kept 4 t0 t1 Hu0 H1 Hr1 Hl1) as Hu1. apply wp_last_cr. intros t2 Ha.
    destruct (url_alike 4 _ _ Hu1 Ha) as [Hu2 <-].
    apply (url_space_answer 4); [by eapply alike_ok|done].
Qed.

Lemma url_quote_answer n t :
  lexer_ok 0 t -> url_at n t -> answers (URI_quote fuel) (url_quote (url t)) t.
Proof.
  intros Hk Hu. assert (Hu0 : url_at 3 (set_lx_substate 3 t)) by (destruct Hu; by split).
  destruct (url_facts 3 _ Hu0 eq_refl ltac:(lia)) as (Hfa & Hsl & _).
  apply wp_set; [done..|]. set (t0 := set_lx_substate 3 t) in *. change (url t) with (url t0).
  assert (Hk0 : lexer_ok 0 t0) by (by apply (ok_same 0 t)).
  assert (Hu1 : forall t1, extends t0 t1 -> url_at 3 t1 /\ url t1 = url t0).
  { intros t1 Hx. pose proof (kept_extends _ _ Hx) as Hkx. destruct (kept_views _ _ Hkx) as (_ & _ & Hu1 & _).
    split; [|done]. apply (url_kept 3 t0); [done..|rewrite (extends_read _ _ Hx)|rewrite (extends_len _ _ Hx)]; lia. }
  apply wp_look_next; [by apply paused_0|done| | |].
  - unfold pending, t0. lx_cbn. by rewrite (ur_state _ _ Hu).
  - intros t1 c ptr Hx Hp1 Hk1 Hc Hpt Hl. destruct (Hu1 t1 Hx) as [Hu1' <-].
    eapply wp_octet_at; [done..|]. destruct (isQuote c) eqn:Eq; [|by apply (url_chars_answer 3)].
    apply wp_take; [done..|]. intros t2 [H2 Hk2 Hr2 Hl2 _ ? _].
    destruct (kept_views _ _ H2) as (_ & _ & <- & _). apply wp_set; [done..|].
    set (t3 := set_lx_context _ t2). change (url t2) with (url t3). change c with (first t3).
    apply url_string_answer; [by apply (ok_same 0 t2)|].
    destruct (url_kept 3 t1 t2) as []; [done..|lia|lia|]. by split.
  - intros t1 Hx Hp1 Hk1 He Hl. destruct (Hu1 t1 Hx) as [Hu1' <-]. by apply (rewind_url_answer 0 3).
Qed.

Lemma url_start_answer n t :
  lexer_ok 0 t -> url_at n t -> answers (URI_w1 fuel) (url_start (url t)) t.
Proof.
  intros Hk Hu. assert (Hu0 : url_at 2 (set_lx_substate 2 t)) by (destruct Hu; by split).
  destruct (url_facts 2 _ Hu0 eq_refl ltac:(lia)) as (Hfa & Hsl & _ & Hg).
  apply wp_set; [done..|]. set (t0 := set_lx_substate 2 t) in *. change (url t) with (url t0).
  unfold url_start. apply wp_while; try done.
  - intros t1. apply consumeWChars_spec.
  - by apply (ok_same 0 t).
  - apply Hu.
  - unfold pending, t0. lx_cbn. by rewrite (ur_state _ _ Hu).
  - intros t1 H1 Hk1 Hr1 Hl1 _ _. destruct (kept_views _ _ H1) as (_ & _ & <- & _).
    apply (url_quote_answer 2); [done|]. by apply (url_kept 2 t0).
Qed.

Lemma url_lparen_answer t :
  lexer_ok 0 t -> fits t -> lx_state t = sURL -> 3 <= len t ->
  answers (URI_lparen fuel) url_lparen t.
Proof.
  intros Hk Hf Hs Hlen. apply wp_set; [done..|]. set (t0 := set_lx_substate 1 t).
  assert (Hk0 : lexer_ok 0 t0) by (by apply (ok_same 0 t)).
  assert (Hsl : slack t0 = 0) by (unfold slack, t0; lx_cbn; by rewrite Hs).
  assert (Hp : paused t0).
  { apply paused_0; [done..|]. unfold facts, t0. lx_cbn. rewrite Hs.
    change (len (set_lx_substate 1 t)) with (len t). split_and!; try done; lia. }
  apply wp_look_or_emit; [done..| |done|done|done|].
  { unfold pending, t0. lx_cbn. by rewrite Hs. }
  intros t1 c ptr Hx Hp1 Hk1 Hc Hpt Hl. pose proof (kept_extends _ _ Hx) as Hkx.
  pose proof (extends_len _ _ Hx : len t1 = len t) as Hl1.
  destruct (Z.eqb_spec c 0x28) as [->|_]; [|apply enter_ident_answer; [done|by eapply fits_kept]].
  apply wp_take; [done..|]. intros t2 [H2 Hk2 Hr2 Hl2 _ _ _]. change (char_len 0x28) with 1 in *.
  apply wp_field, wp_set; [done..|]. set (t3 := set_lx_context _ t2).
  apply (wp_answer _ _ (url_start (url t3)) t3 t3).
  { apply carried_step. intros text final. cbn. by rewrite (zlen_out 0 t3) by (lia || by apply (ok_same 0 t2)). }
  assert (Hk3 : lexer_ok 0 t3) by (by apply (ok_same 0 t2)).
  pose proof (lk_read 0 t3 Hk3).
  assert (Hu3 : url_at 2 t3).
  { split; try done; change (url t3) with (read t2, len t2); cbn [fst snd].
    - by eapply (fits_kept t1 t2), fits_kept.
    - change (lx_state t2 = sURL). by rewrite (kp_state _ _ H2), (kp_state _ _ Hkx).
    - change (4 <= len t2). lia.
    - change (0 < read t2 <= read t2). change (read t3) with (read t2) in *. lia.
    - change (1 <= len t2 <= len t2). lia. }
  apply wp_last_cr. intros t4 Ha. destruct (url_alike 2 _ _ Hu3 Ha) as [Hu4 <-].
  apply (url_start_answer 2); [by eapply alike_ok|done].
Qed.

Lemma url_l_answer t :
  lexer_ok 0 t -> fits t -> lx_state t = sURL -> lx_substate t = 0 -> 2 <= len t ->
  answers (URI fuel) url_l t.
Proof.
  intros Hk Hf Hs Hn Hlen. unfold URI. apply wp_field. rewrite Hn. change (0 =? 0) with true. cbn iota.
  assert (Hsl : slack t = 0) by (unfold slack; by rewrite Hs).
  assert (Hp : paused t).
  { apply paused_0; [done..|]. unfold facts. rewrite Hs, Hn. split_and!; try done; lia. }
  apply wp_look_or_emit; [done..| |done|done|done|].
  { unfold pending. by rewrite Hs, Hn. }
  intros t1 c ptr Hx Hp1 Hk1 Hc Hpt Hl. pose proof (kept_extends _ _ Hx) as Hkx.
  pose proof (extends_len _ _ Hx : len t1 = len t) as Hl1.
  destruct (_ || _); [|apply enter_ident_answer; [done|by eapply fits_kept]].
  apply wp_take; [done..|]. intros t2 [H2 Hk2 Hr2 Hl2 _ ? _].
  apply url_lparen_answer; [done|by eapply (fits_kept t1 t2), fits_kept| |lia].
  by rewrite (kp_state _ _ H2), (kp_state _ _ Hkx).
Qed.

Lemma url_answer t :
  paused t -> fits t -> lx_state t = sURL -> answers (URI fuel) (pending t) t.
Proof.
  intros Hp Hf Hs. destruct (Hp) as [Hk Hr Hfa]. unfold facts in Hfa. rewrite Hs in Hfa.
  assert (Hsl : slack t = 0) by (unfold slack; by rewrite Hs). rewrite Hsl in *.
  destruct Hfa as (Hn & Hl & H1 & H2 & H7). unfold pending. rewrite Hs.
  assert (Hu : 2 <= lx_substate t -> url_at (lx_substate t) t).
  { intros Hn2. destruct (H2 Hn2) as (? & ? & ?). by split. }
  destruct (Z.eqb_spec (lx_substate t) 0) as [E|E0]; [by apply url_l_answer|].
  unfold URI. apply wp_field. destruct (Z.eqb_spec (lx_substate t) 0); [done|].
  destruct (Z.eqb_spec (lx_substate t) 1) as [E|E1]; [apply url_lparen_answer; auto|].
  specialize (Hu ltac:(lia)).
  destruct (Z.eqb_spec (lx_substate t) 2) as [E|E2]; [by eapply url_start_answer|].
  destruct (Z.eqb_spec (lx_substate t) 3) as [E|E3]; [by eapply url_quote_answer|].
  destruct (Z.eqb_spec (lx_substate t) 4) as [E|E4]; [by eapply url_chars_answer|].
  destruct (Z.eqb_spec (lx_substate t) 5) as [E|E5]; [by eapply url_space_answer|].
  destruct (Z.eqb_spec (lx_substate t) 6) as [E|E6]; [by eapply url_paren_answer|].
  assert (E : lx_substate t = 7) by lia. rewrite E in *. change (7 =? 7) with true. cbn iota.
  by apply url_string_answer.
Qed.

(** *** UnicodeRange *)

(** After "u+", or after the dash, in the substate [n]. *)
Record range_at (n : Z) t : Prop := {
  rg_ok : lexer_ok 0 t;
  rg_fits : fits t;
  rg_state : lx_state t = sUCR;
  rg_sub : lx_substate t = n;
  rg_sub_range : 0 <= n <= 1;
  rg_plain : lx_escapeSeen t = false;
  rg_len : 2 + n <= len t;
  rg_count : 0 <= lc_hexCount (lx_context t) <= 6
}.

Lemma range_paused n t : range_at n t ->
  paused t /\ slack t = 0 /\
  pending t = if n =? 0 then range_start (digits_left t) else range_end (digits_left t).
Proof.
  intros [Hk Hf Hs Hn Hb Hp Hl Hc]. assert (Hsl : slack t = 0) by (unfold slack; by rewrite Hs).
  split; [apply paused_0; [done..|]|split; [done|]].
  - unfold facts. rewrite Hs, Hn. split_and!; done || lia.
  - unfold pending. by rewrite Hs, Hn.
Qed.

Lemma range_extends n t t1 : range_at n t -> extends t t1 ->
  range_at n t1 /\ digits_left t1 = digits_left t.
Proof.
  intros [Hk Hf Hs Hn Hb Hp Hl Hc] Hx. pose proof (kept_extends _ _ Hx) as Hkx.
  destruct (kept_views _ _ Hkx) as (_ & _ & _ & Hh & _). unfold digits_left. rewrite Hh.
  split; [|done]. split; rewrite ?Hh, ?(extends_len _ _ Hx); try done.
  - by apply (extends_ok 0 t).
  - by eapply fits_kept.
  - by rewrite (kp_state _ _ Hkx).
  - by rewrite (kp_substate _ _ Hkx).
  - destruct Hx as (x & -> & _). exact Hp.
Qed.

(** How the digits end. *)
Definition range_stop (f : Z -> bool) t (r : option (Z * (bytes * Z))) : Prop :=
  match r with
  | None => is_ended (lx_input t) /\ zlen (avail t) = read t
  | Some (c, (ptr, clen)) =>
      lc_hexCount (lx_context t) = 6 \/
      znth (avail t) (read t) = Some c /\ points_to t (read t) ptr /\ clen = char_len c /\
      read t + char_len c <= zlen (avail t)
  end.

Definition range_error (f : Z -> bool) n t (e : css_error) t1 : Prop :=
  match e with
  | CSS_NEEDDATA =>
      range_at n t1 /\ carried (up_to (digits_left t) f) (up_to (digits_left t1) f) t t1
  | CSS_OK | CSS_EOF | CSS_INVALID => False
  | _ => True
  end.

Lemma range_lenient f n t : lenient (range_error f n t).
Proof. intros e t1 (? & ? & ? & ?). by destruct e. Qed.

(** A digit. *)
Lemma range_taken f n c t t1 :
  range_at n t -> lc_hexCount (lx_context t) < 6 -> f c = true ->
  znth (avail t) (read t) = Some c -> read t + char_len c <= zlen (avail t) -> took c t t1 ->
  let t2 := set_lx_context (set_lc_hexCount (lc_hexCount (lx_context t) + 1) (lx_context t1)) t1 in
  range_at n t2 /\ carried (up_to (digits_left t) f) (up_to (digits_left t2) f) t t2.
Proof.
  intros [Hk Hf Hs Hn Hb Hp Hl Hc] H6 Hfc Hz Hfit Ht t2.
  destruct (taken_took _ _ _ Hk Hz Hfit Ht) as [Hkp Hk1 Hr1 Hl1 Hs1 Hm _]. split.
  - split; try done.
    + by apply (ok_same 0 t1).
    + by eapply (fits_kept t t1).
    + change (lx_state t1 = sUCR). by rewrite (kp_state _ _ Hkp).
    + change (lx_substate t1 = n). by rewrite (kp_substate _ _ Hkp).
    + change (lx_escapeSeen t1 = false). by rewrite Hs1.
    + change (2 + n <= len t1). lia.
    + change (0 <= lc_hexCount (lx_context t) + 1 <= 6). lia.
  - eapply carried_trans; [|by apply (carried_still _ t1 t2)].
    assert (Hd : digits_left t = S (digits_left t2)).
    { unfold digits_left. change (lc_hexCount (lx_context t2)) with (lc_hexCount (lx_context t) + 1). lia. }
    rewrite Hd. apply (carried_reached false). eapply reached_trans.
    { exact (reached_look false _ c t t Hk (lex_extends_refl t (lk_input 0 t Hk)) Hz). }
    cbn beta iota. rewrite Hfc. by apply (reached_take false (fun _ => up_to (digits_left t2) f) c).
Qed.

Lemma range_loop_spec f n k last t :
  range_at n t -> (digits_left t <= k)%nat ->
  wp (range_loop k f last)
    (fun r t1 => range_at n t1 /\ carried (up_to (digits_left t) f) (sret (digits_left t1)) t t1 /\
       range_stop f t1 r) (range_error f n t) t.
Proof.
  revert last t. induction k as [|k IH]; intros last t Hr Hk; cbn [range_loop].
  - pose proof (rg_count _ _ Hr) as Hc. unfold digits_left in Hk.
    assert (E : lc_hexCount (lx_context t) = 6) by lia. apply wp_seq, wp_field, wp_give. rewrite E.
    change (negb (6 <? 6)) with true. cbn iota. apply wp_give. split; [done|].
    assert (Hd : digits_left t = 0%nat) by (unfold digits_left; by rewrite E). rewrite Hd.
    split; [by apply carried_still|]. destruct last as [? []]. by left.
  - apply wp_seq, wp_field, wp_give. destruct (Z.ltb_spec (lc_hexCount (lx_context t)) 6) as [H6|H6]; cbn [negb].
    2:{ apply wp_give. split; [done|]. pose proof (rg_count _ _ Hr).
        assert (Hd : digits_left t = 0%nat) by (unfold digits_left; lia). rewrite Hd.
        split; [by apply carried_still|]. destruct last as [? []]. left. lia. }
    assert (Hd : digits_left t = S (digits_left t - 1)) by (unfold digits_left; lia).
    eapply wp_look; [apply Hr|apply range_lenient| | |].
    + intros t1 c ptr Hx Hc Hp Hl. destruct (range_extends _ _ _ Hr Hx) as [Hr1 Hd1].
      rewrite <- (extends_read _ _ Hx) in *. eapply wp_octet_at; [apply Hr1|done..|].
      destruct (kept_views _ _ (kept_extends _ _ Hx)) as (_ & _ & _ & Hh & _).
      pose proof (reached_extends false (up_to (digits_left t) f) _ _ (rg_ok _ _ Hr) Hx) as H01.
      destruct (f c) eqn:Ef.
      * apply wp_APPEND; [apply Hr1|done..|apply range_lenient|]. intros t2 Ht.
        apply wp_change. rewrite <- Hh in H6 |- *.
        destruct (range_taken f n c t1 t2) as [Hr2 H12]; [done..|]. cbv zeta in Hr2, H12.
        set (t3 := set_lx_context _ t2) in *.
        assert (H03 : carried (up_to (digits_left t) f) (up_to (digits_left t3) f) t t3).
        { eapply carried_trans; [by apply (carried_reached false)|]. by rewrite <- Hd1. }
        assert (Hk3 : (digits_left t3 <= k)%nat).
        { unfold digits_left in *. change (lc_hexCount (lx_context t3)) with (lc_hexCount (lx_context t1) + 1). lia. }
        eapply lex_wp_mono; [by apply IH|..].
        -- intros r t4 (Hr4 & H34 & Hst). split; [done|]. split; [by eapply carried_trans|done].
        -- intros e t4 H4. destruct e; try done. destruct H4 as [Hr4 H34]. split; [done|].
           by eapply carried_trans.
      * apply wp_give. split; [done|]. split; [|by right].
        apply (carried_reached false). rewrite Hd1, Hd. cbn [up_to].
        eapply reached_trans; [exact (reached_look false _ c t t1 (rg_ok _ _ Hr) Hx ltac:(by rewrite <- (extends_read _ _ Hx)))|].
        cbn beta iota. rewrite Ef. apply reached_extends; [apply Hr1|]. apply lex_extends_refl, Hr1.
    + intros t1 Hx He Hl. destruct (range_extends _ _ _ Hr Hx) as [Hr1 Hd1].
      apply wp_give. split; [done|]. rewrite <- (extends_read _ _ Hx) in Hl. split; [|done].
      apply (carried_reached false). rewrite Hd1, Hd. cbn [up_to].
      rewrite (extends_read _ _ Hx) in Hl. exact (reached_look_end false _ t t1 (rg_ok _ _ Hr) Hx He Hl).
    + intros t1 Hx. destruct (range_extends _ _ _ Hr Hx) as [Hr1 Hd1]. split; [done|].
      rewrite Hd1. apply (carried_reached false), reached_extends; [apply Hr|done].
Qed.

Lemma no_digits n t : range_at n t ->
  (digits_left t =? 6)%nat = (lc_hexCount (lx_context t) =? 0).
Proof.
  intros Hr. pose proof (rg_count _ _ Hr). unfold digits_left.
  destruct (Z.eqb_spec (lc_hexCount (lx_context t)) 0) as [->|]; [done|].
  apply Nat.eqb_neq. lia.
Qed.

(** The digits, and what follows them. *)
Lemma wp_range f n k last (K : nat -> scan css_token_type) t :
  range_at n t -> (digits_left t <= 6)%nat ->
  (forall t1, range_at n t1 -> pending t1 = sbind (up_to (digits_left t1) f) K) ->
  (forall r t1, range_at n t1 -> range_stop f t1 r -> answers (k r) (K (digits_left t1)) t1) ->
  answers (seq (range_loop 6 f last) k) (sbind (up_to (digits_left t) f) K) t.
Proof.
  intros Hr Hd Hpe H. apply wp_seq. eapply lex_wp_mono; [by apply (range_loop_spec f n)|..].
  - intros r t1 (Hr1 & Hc & Hst). eapply wp_answer; [|by apply H].
    destruct Hc as [? ? ? Hst1]. split; try done.
    exact (steps_done t1 (up_to (digits_left t) f) _ K _ _ Hst1).
  - intros e t1 H1. destruct e; try done. destruct H1 as [Hr1 [? ? ? Hst]].
    apply answer_pause; [|by apply (range_paused n)]. rewrite (Hpe t1 Hr1). split; try done.
    by apply steps_bind.
Qed.

Lemma range_digits_answer t :
  range_at 1 (set_lx_substate 1 t) ->
  answers UnicodeRange_digits (range_end (digits_left t)) t.
Proof.
  intros Hr. apply wp_set; [done..|]. set (t0 := set_lx_substate 1 t) in *.
  change (digits_left t) with (digits_left t0). unfold range_end.
  apply (wp_range isHex 1); [done|unfold digits_left; destruct Hr; lia|..].
  { intros t1 Hr1. by destruct (range_paused 1 t1 Hr1) as (_ & _ & ->). }
  intros r t1 Hr1 _. apply wp_seq, wp_field, wp_give. rewrite (no_digits 1) by done.
  pose proof (rg_len _ _ Hr1). pose proof (rg_ok _ _ Hr1) as Hk1.
  pose proof (lk_len 0 t1 Hk1) as Hl1. rewrite (rg_plain _ _ Hr1) in Hl1.
  destruct (lc_hexCount (lx_context t1) =? 0).
  - apply wp_drop; [done|apply Hr1|lia| |done]. cbn [strippable].
    rewrite zlen_ztake, (zlen_out 0) by (done || lia). lia.
  - eapply (wp_answer _ _ (sret CSS_TOKEN_UNICODE_RANGE)); [by apply carried_step|].
    apply (lex_wp_emit 0); [done|lia| |done|by apply carried_still].
    cbn [strippable]. rewrite (zlen_out 0) by (done || lia). lia.
Qed.

Lemma range_dash_answer c ptr t :
  range_at 0 t -> znth (avail t) (read t) = Some c -> points_to t (read t) ptr ->
  read t + char_len c <= zlen (avail t) ->
  answers (UnicodeRange_dash c ptr (char_len c))
    (if bool_decide (Some c = Some 0x2D) then then! take_char in range_end 6
     else token_is CSS_TOKEN_UNICODE_RANGE)%scan t.
Proof.
  intros Hr Hc Hp Hl. unfold UnicodeRange_dash. rewrite bool_decide_some.
  pose proof (rg_len _ _ Hr). destruct (Z.eqb_spec c 0x2D) as [->|_]; cbn [negb].
  2:{ apply (lex_wp_emit 0); [apply Hr|lia| |done|by apply carried_still].
      cbn [strippable]. rewrite (zlen_out 0) by (apply Hr || lia). lia. }
  apply wp_take; [apply Hr|done..|]. intros t1 [Hkp Hk1 _ Hl1 Hs1 Hm _]. apply wp_set; [done..|].
  set (t2 := set_lx_context _ t1). change 6%nat with (digits_left t2).
  apply range_digits_answer. destruct Hr. split; try done.
  - by apply (ok_same 0 t1).
  - by eapply (fits_kept t t1).
  - change (lx_state t1 = sUCR). by rewrite (kp_state _ _ Hkp).
  - change (lx_escapeSeen t1 = false). by rewrite Hs1.
  - change (2 + 1 <= len t1). lia.
Qed.

Lemma range_start_answer t :
  range_at 0 t -> answers UnicodeRange (range_start (digits_left t)) t.
Proof.
  intros Hr. unfold UnicodeRange. apply wp_field. rewrite (rg_sub _ _ Hr).
  change (0 =? 0) with true. cbn iota. unfold range_start.
  apply (wp_range range_char 0); [done|unfold digits_left; destruct Hr; lia|..].
  { intros t1 Hr1. by destruct (range_paused 0 t1 Hr1) as (_ & _ & ->). }
  intros r t1 Hr1 Hst. apply wp_seq, wp_field, wp_give. rewrite (no_digits 0) by done.
  pose proof (rg_len _ _ Hr1). pose proof (rg_ok _ _ Hr1) as Hk1.
  pose proof (lk_len 0 t1 Hk1) as Hl1. rewrite (rg_plain _ _ Hr1) in Hl1.
  assert (Hstr : strippable CSS_TOKEN_UNICODE_RANGE (out t1)).
  { cbn [strippable]. rewrite (zlen_out 0) by (done || lia). lia. }
  destruct r as [[c [ptr clen]]|]; destruct (lc_hexCount (lx_context t1) =? 0) eqn:E0;
    try (apply wp_drop; [done|apply Hr1|lia|done|done]).
  - apply Z.eqb_neq in E0. destruct (Z.eqb_spec (lc_hexCount (lx_context t1)) 6) as [E6|E6].
    + destruct (range_paused 0 t1 Hr1) as (Hp & Hsl & Hpe).
      assert (Hd : digits_left t1 = 0%nat) by (unfold digits_left; by rewrite E6).
      apply wp_look_or_emit; [done..| |done|done|done|].
      { rewrite Hpe, Hd. reflexivity. }
      intros t2 d ptr2 Hx _ Hk2 Hd2 Hp2 Hl2. destruct (range_extends _ _ _ Hr1 Hx) as [Hr2 _].
      by apply range_dash_answer.
    + destruct Hst as [Hst|(Hc & Hp & -> & Hl)]; [done|].
      eapply wp_answer; [|by apply range_dash_answer].
      apply (carried_reached false).
      exact (reached_look false _ c t1 t1 Hk1 (lex_extends_refl t1 (lk_input 0 t1 Hk1)) Hc).
  - destruct Hst as [He Hl]. eapply wp_answer.
    + apply (carried_reached false).
      exact (reached_look_end false _ t1 t1 Hk1 (lex_extends_refl t1 (lk_input 0 t1 Hk1)) He Hl).
    + apply (lex_wp_emit 0); [done|lia|done|done|by apply carried_still].
Qed.

Lemma range_answer t :
  paused t -> fits t -> lx_state t = sUCR -> answers UnicodeRange (pending t) t.
Proof.
  intros Hp Hf Hs. destruct (Hp) as [Hk Hrd Hfa]. unfold facts in Hfa. rewrite Hs in Hfa.
  assert (Hsl : slack t = 0) by (unfold slack; by rewrite Hs). rewrite Hsl in *.
  destruct Hfa as (Hn & Hpl & Hl & Hc). unfold pending. rewrite Hs.
  destruct (Z.eqb_spec (lx_substate t) 0) as [E|E0].
  { apply range_start_answer. split; try done; lia. }
  assert (E : lx_substate t = 1) by lia. unfold UnicodeRange. apply wp_field. rewrite E.
  change (1 =? 0) with false. change (1 =? 1) with true. cbn iota.
  apply range_digits_answer. split; try done; [by apply (ok_same 0 t)|].
  change (2 + 1 <= len t). lia.
Qed.

(** *** The first character *)

(** One character was read. *)
Record begun (c : Z) t : Prop := {
  bg_ok : lexer_ok 0 t;
  bg_fits : fits t;
  bg_seen : lx_escapeSeen t = false;
  bg_read : read t = char_len c;
  bg_out : char_len c = 1 -> out t = [c]
}.

Lemma begun_len c t : begun c t -> len t = char_len c.
Proof.
  intros []. pose proof (lk_len 0 t bg_ok0) as Hl. rewrite bg_seen0 in Hl. lia.
Qed.

(** A state that the first character opens: [t1] is [t] but for the state, the
    substate and the context. *)
Lemma opens_answer c m R t t1 :
  begun c t -> lx_input t1 = lx_input t -> read t1 = read t -> len t1 = len t ->
  lx_unescapedTokenData t1 = lx_unescapedTokenData t -> lx_escapeSeen t1 = lx_escapeSeen t ->
  slack t1 = 0 -> facts t1 -> pending t1 = R ->
  (paused t1 -> fits t1 -> answers m (pending t1) t1) -> answers m R t1.
Proof.
  intros [] Hi Hr Hl Hu Hs Hsl Hfa <- H. apply H.
  - apply paused_0; [by apply (ok_same 0 t)|done..].
  - unfold total. by rewrite Hi.
Qed.

Lemma u_answer c t :
  begun c t -> char_len c = 1 ->
  wp (URIOrUnicodeRangeOrIdentOrFunction fuel) (answer u_rest t) (answer u_rest t)
    (set_lx_substate 0 (set_lx_state sURI t)).
Proof.
  intros Hb Hc. destruct (Hb) as [Hk Hf Hs Hr Ho]. pose proof (begun_len c t Hb) as Hl.
  set (t0 := set_lx_substate 0 _). assert (Hk0 : lexer_ok 0 t0) by (by apply (ok_same 0 t)).
  apply (wp_answer _ _ u_rest t t0); [by apply carried_still|].
  unfold URIOrUnicodeRangeOrIdentOrFunction, look_or_emit.
  eapply wp_look; [exact Hk0|apply answer_lenient| | |].
  - intros t1 d ptr Hx Hd Hp Hfit. pose proof (kept_extends _ _ Hx) as Hkx.
    pose proof (extends_ok 0 _ _ ltac:(lia) Hx Hk0) as Hk1. pose proof (fits_kept _ _ Hkx Hf) as Hf1.
    pose proof (extends_len _ _ Hx : len t1 = len t) as Hl1.
    assert (Hs1 : lx_escapeSeen t1 = false) by (destruct Hx as (x & -> & _); exact Hs).
    eapply wp_answer; [by apply (carried_reached false), (reached_look false _ d)|].
    rewrite <- (extends_read _ _ Hx) in *. cbn beta iota. eapply wp_octet_at; [done..|].
    destruct ((d =? 0x72) || (d =? 0x52)).
    { apply wp_take; [done..|]. intros t2 [H2 Hk2 _ Hl2 _ Hm _]. apply wp_enter.
      apply url_l_answer; try done; [by apply (ok_same 0 t2)|by eapply (fits_kept t1 t2)|].
      change (2 <= len t2). lia. }
    destruct (Z.eqb_spec d 0x2B) as [->|_].
    { apply wp_take; [done..|]. intros t2 [H2 Hk2 _ Hl2 Hs2 Hm _]. apply wp_enter, wp_set; [done..|].
      set (t3 := set_lx_context _ _). change 6%nat with (digits_left t3).
      apply range_start_answer. split; try done.
      - by apply (ok_same 0 t2).
      - by eapply (fits_kept t1 t2).
      - change (lx_escapeSeen t2 = false). by rewrite Hs2.
      - change (2 + 0 <= len t2). lia. }
    by apply enter_ident_answer.
  - intros t1 Hx He Hl'. pose proof (extends_ok 0 _ _ ltac:(lia) Hx Hk0) as Hk1.
    eapply wp_answer; [by apply (carried_reached false), (reached_look_end false)|].
    apply (lex_wp_emit 0); [done|lia|done|done|by apply carried_still].
  - intros t1 Hx. pose proof (kept_extends _ _ Hx) as [Hst Hsu _ Hem Hla Hto].
    split; [done|]. split; [done|]. split; [done|]. left. unfold broken. by rewrite Hst.
Qed.

(** '>' and ">=": a pause is not remembered. *)
Lemma gt_answer t :
  lexer_ok 0 t -> lx_state t = sSTART -> answers Start_gt gt_rest t.
Proof.
  intros Hk Hs. unfold Start_gt, look_or_emit. eapply wp_look; [exact Hk|apply answer_lenient| | |].
  - intros t1 d ptr Hx Hd Hp Hfit. pose proof (extends_ok 0 _ _ ltac:(lia) Hx Hk) as Hk1.
    eapply wp_answer; [by apply (carried_reached false), (reached_look false _ d)|].
    rewrite <- (extends_read _ _ Hx) in *. cbn beta iota. rewrite bool_decide_some.
    eapply wp_octet_at; [done..|]. destruct (Z.eqb_spec d 0x3D) as [->|_].
    + apply wp_take; [done..|]. intros t2 [H2 Hk2 _ _ _ _ _].
      apply (lex_wp_emit 0); [done|lia|done|done|by apply carried_still].
    + apply wp_seq, wp_give, (lex_wp_emit 0); [done|lia|done|done|by apply carried_still].
  - intros t1 Hx He Hl. pose proof (extends_ok 0 _ _ ltac:(lia) Hx Hk) as Hk1.
    eapply wp_answer; [by apply (carried_reached false), (reached_look_end false)|].
    apply (lex_wp_emit 0); [done|lia|done|done|by apply carried_still].
  - intros t1 Hx. pose proof (kept_extends _ _ Hx) as [Hst Hsu _ Hem Hla Hto].
    split; [done|]. split; [done|]. split; [done|]. left. unfold broken. rewrite Hst, Hs.
    rewrite (extends_read _ _ Hx). apply (lk_read 0 t Hk).
Qed.

Lemma space_opens c t :
  begun c t ->
  answers (run! enter sS 0 in
           run! (if (c =? 0x0A) || (c =? 0x0C) then new_line 1 else give tt) in
           run! set_last_cr (c =? 0x0D) in State_S fuel) space_rest t.
Proof.
  intros Hb. apply wp_enter. set (t0 := set_lx_substate 0 _).
  apply wp_new_line_if. intros t1 Ha1. apply wp_set_last_cr. intros t2 Ha2.
  pose proof (lex_alike_trans _ _ _ Ha1 Ha2) as Ha.
  destruct Ha as (b & col & line & ->). eapply wp_answer; [by apply carried_still|].
  apply (opens_answer c _ _ t); try done. intros Hp Hf. by apply space_answer.
Qed.

(** A comment, before it is known to be one. *)
Lemma slash_opens {C} c (k : M C) (Q : C -> T -> Prop) E t :
  begun c t ->
  (forall t1, carried slash_rest slash_rest t t1 -> answers (Comment fuel) slash_rest t1 ->
     wp k Q E t1) ->
  wp (run! enter sCOMMENT 0 in
      run! set_last_star false in run! set_last_cr false in k) Q E t.
Proof.
  intros Hb H. set (t0 := set_lx_context (set_lc_lastWasStar false (lx_context t))
                            (set_lx_substate 0 (set_lx_state sCOMMENT t))).
  change (wp (run! set_last_cr false in k) Q E t0).
  apply wp_set_last_cr. intros t1 Ha. destruct Ha as (b & col & line & ->).
  apply H; [by apply carried_still|].
  apply (opens_answer c _ _ t); try done.
  - unfold facts. cbn. split; [lia|]. split; [by destruct Hb|]. split; intros; lia || done.
  - intros Hp Hf. by apply comment_answer.
Qed.

(** The facts of a state that was just opened from [t]. *)
Ltac opened t :=
  unfold facts; lx_cbn;
  repeat match goal with
  | |- context [len ?x] => progress change (len x) with (len t)
  | |- context [read ?x] => progress change (read x) with (read t)
  | |- context [out ?x] => progress change (out x) with (out t)
  | |- context [lx_escapeSeen ?x] => progress change (lx_escapeSeen x) with (lx_escapeSeen t)
  end;
  try split_and!; first [done | lia | congruence | (intros; split_and!; congruence)].

Lemma switch_answer restart c t :
  begun c t -> lx_state t = sSTART -> (1 <? char_len c) || (0x80 <=? c) = false ->
  (c =? 0x2F) = false -> answers (Start_switch fuel restart c) (token_rest c) t.
Proof.
  intros Hb Hst Hc Hsl. assert (Hc1 : char_len c = 1).
  { apply orb_false_elim in Hc as [Hc _]. apply Z.ltb_ge in Hc. pose proof (char_len_range c). lia. }
  pose proof (begun_len c t Hb) as Hl. rewrite Hc1 in Hl. pose proof (bg_ok _ _ Hb) as Hk.
  pose proof (bg_out _ _ Hb Hc1) as Ho. pose proof (bg_seen _ _ Hb) as Hs.
  pose proof (bg_read _ _ Hb) as Hr. rewrite Hc1 in Hr.
  unfold Start_switch, token_rest. rewrite Hc, Hsl.
  destruct (c =? 0x40).
  { apply wp_enter. apply (opens_answer c _ _ t); try done; try (opened t). intros. by apply at_answer. }
  destruct (isQuote c) eqn:Eq.
  { apply wp_enter, wp_set; [done..|]. apply (opens_answer c _ _ t); try done; try (opened t).
    intros. by apply string_answer. }
  destruct (c =? 0x23).
  { apply wp_enter, wp_field, wp_set; [done..|]. set (t1 := set_lx_context _ _).
    apply (opens_answer c _ _ t); try done; try (subst t1; opened t).
    - change (hash_rest (read t) = hash_rest 1). by rewrite Hr.
    - intros. by apply hash_answer. }
  destruct (isDigit c || (c =? 0x2E) || (c =? 0x2B)).
  { apply wp_enter, wp_set; [done..|]. apply (opens_answer c _ _ t); try done; try (opened t).
    intros. by apply number_answer. }
  destruct (c =? 0x3C).
  { apply wp_enter. apply (opens_answer c _ _ t); try done; try (opened t). intros. by apply cdo_answer. }
  destruct (Z.eqb_spec c 0x2D) as [->|_].
  { apply wp_enter. apply (opens_answer 0x2D _ _ t); try done; try (opened t). intros. by apply cdc_answer. }
  destruct (isSpace c); [by apply space_opens|].
  destruct ((c =? 0x7E) || (c =? 0x7C) || (c =? 0x5E) || (c =? 0x24) || (c =? 0x2A)) eqn:Em.
  { apply wp_enter, wp_set; [done..|]. apply (opens_answer c _ _ t); try done.
    intros. by apply match_answer. }
  destruct ((c =? 0x75) || (c =? 0x55)).
  { apply wp_seq, wp_change, wp_change. by apply (u_answer c). }
  destruct (is_ascii_letter c || (c =? 0x5F)).
  { apply enter_ident_answer; [done|apply Hb]. }
  destruct (Z.eqb_spec c bslash) as [->|_].
  { apply wp_enter. apply (opens_answer bslash _ _ t); try done.
    - opened t.
    - intros. by apply escaped_answer. }
  destruct (c =? 0x3E); [by apply gt_answer|].
  apply (lex_wp_emit 0); [done|lia|done|done|by apply carried_still].
Qed.
End States.
