(* ===== verification/CssLexProperties.v ===== *)
(** * CssLexProperties: css__lexer_get_token, whatever the chunks.

    From every state between tokens or in the middle of one the lexer answers;
    and the token that a sequence of calls ends in, with more input after each
    pause, is the token of the whole text.  The exceptions are the pauses that
    [broken] names; what comes of them is shown at the end. *)
From Stdlib Require String.
From stdpp Require Import relations.
From S2P Require Import Prelude Errors Utf8 Interfaces Buffer InputStream InputStreamSpec Concrete.
From S2P Require Import Detect.
From S2P Require Import CssLexState CssLexer CssLexRef CssLexRules CssLexEscape.
From S2P Require Import CssLexRuns CssLexHandlers CssLexStates.
Import String.StringSyntax.

(** ** Scanners that never find a comment *)

Definition never (R : scan css_token_type) : Prop :=
  forall text final c r, R text final c = Some (CSS_TOKEN_COMMENT, r) -> False.

Lemma never_bind {A} (m : scan A) K : (forall a, never (K a)) -> never (sbind m K).
Proof. intros H text final c r. unfold sbind. destruct (m text final c) as [[a c1]|]; [|done]. apply H. Qed.

Lemma never_is type : type <> CSS_TOKEN_COMMENT -> never (token_is type).
Proof. intros H text final c r [=]. by apply H. Qed.

Lemma never_url n : never (only_url n).
Proof. intros text final [p o] r [=]. Qed.

Ltac never :=
  repeat first [apply never_url | apply never_bind; intros ? | case_match
    | (apply never_is; discriminate)].

Lemma never_name : never name_rest.
Proof. never. Qed.

Lemma never_at : never at_rest /\ never at_escape /\ never at_name.
Proof. split_and!; never. Qed.

Lemma never_number n :
  never (number_rest n) /\ never (number_dot n) /\ never (number_suffix n) /\
  (forall o, never (fraction n o)) /\ never unit_name /\ never unit_escape.
Proof. split_and!; intros; never. Qed.

Lemma never_dash : never dash_rest /\ never dash_escape /\ never dash_dash.
Proof. split_and!; never. Qed.

Lemma never_cdo : never cdo_rest /\ never cdo_dash1 /\ never cdo_dash2.
Proof. split_and!; never. Qed.

Lemma never_range n : never (range_start n) /\ never (range_end n).
Proof. split; never. Qed.

Lemma never_url_rest n q :
  never url_l /\ never url_lparen /\ never (url_start n) /\ never (url_quote n) /\
  never (url_chars n) /\ never (url_space n) /\ never (url_paren n) /\ never (url_string n q).
Proof. split_and!; never. Qed.

Lemma never_u : never u_rest.
Proof. never. Qed.

Lemma never_escaped : never escaped_name.
Proof. never. Qed.

Lemma never_match n : never (match_rest n).
Proof. apply never_bind. intros c. case_match; never. apply never_is. unfold match_type. by repeat case_match. Qed.

Lemma never_hash n : never (hash_rest n).
Proof. do 2 (apply never_bind; intros ?). case_match; by apply never_is. Qed.

Lemma never_string q : never (string_token q).
Proof. apply never_bind. intros r. by destruct r; apply never_is. Qed.

Lemma never_space : never space_rest.
Proof. never. Qed.

(** Only a slash opens a comment. *)
Lemma never_token_rest c : (c =? 0x2F) = false -> never (token_rest c).
Proof.
  intros Hc. unfold token_rest. rewrite Hc.
  repeat (case_match; [first [apply never_name | apply never_at | apply never_string | apply never_hash
    | apply never_number | apply never_cdo | apply never_dash | apply never_space | apply never_match
    | apply never_u | apply never_escaped | (unfold gt_rest; never)]|]).
  by apply never_is.
Qed.

Section Lexer.
Context {St B : Type} `{!InputStreamOps St} `{!InputStream St} `{!ByteBufferOps B}
  `{!ByteBuffer B} `{!ByteBufferMakeOps B} `{!ByteBufferMake B}.
Local Abbreviation T := (css_lexer St B).
Local Abbreviation M := (lexes (css_lexer St B)).
Implicit Types t : T.
Local Abbreviation answers m R t := (wp m (answer R t) (answer R t) t).

(** ** The token ahead *)

(** Between tokens: the input of the last one was not given up yet. *)
Record between t : Prop := {
  bt_input : is_wf (lx_input t);
  bt_read : 0 <= read t <= zlen (avail t);
  bt_buffer : match lx_unescapedTokenData t with Some b => bb_wf b | None => True end;
  bt_state : lx_state t = sSTART
}.

(** What a lexer is in when a client calls it. *)
Definition lexing t : Prop := between t \/ paused t.

(** A comment that is not for the client is passed over. *)
Definition resolve (emit : bool) (o : option (css_token_type * cursor)) (text : bytes)
    (final : bool) : option ref_token :=
  match o with
  | Some r =>
      if hides emit r.1 then next_token emit (zdrop r.2.1 text) final else Some (finish r)
  | None => None
  end.

(** The token a lexer is going to answer when its stream turns out to hold
    [text]. *)
Definition token_ahead t (text : bytes) (final : bool) : option ref_token :=
  let emit := lx_emit_comments t in
  match lx_state t with
  | sSTART => next_token emit (zdrop (read t) text) final
  | _ => resolve emit (pending t text final (cur t)) text final
  end.

Lemma paused_ahead t text final : paused t ->
  token_ahead t text final = resolve (lx_emit_comments t) (pending t text final (cur t)) text final.
Proof.
  intros [_ _ Hf]. unfold token_ahead, facts in *. by destruct (lx_state t).
Qed.

Lemma next_loop_more n m emit text final r :
  next_token_loop n emit text final = Some r -> (n <= m)%nat ->
  next_token_loop m emit text final = Some r.
Proof.
  revert m text. induction n as [|n IH]; [done|]. intros [|m] text H Hm; [lia|].
  cbn [next_token_loop] in *. destruct (token_start text final (0, [])) as [x|]; [|done].
  destruct (hides emit x.1); [|done]. apply IH; [done|lia].
Qed.

Lemma start_nothing final r :
  token_start [] final (0, []) = Some r -> r.1 = CSS_TOKEN_EOF.
Proof. destruct final; [by intros [= <-]|done]. Qed.

Lemma resolve_next emit text final r :
  resolve emit (token_start text final (0, [])) text final = Some r ->
  next_token emit text final = Some r.
Proof.
  unfold resolve, next_token. cbn [next_token_loop].
  destruct (token_start text final (0, [])) as [x|] eqn:Ex; [|done].
  destruct (hides emit x.1) eqn:Eh; [|done]. unfold next_token. intros H.
  destruct (Z.leb_spec x.2.1 0) as [Hp|Hp].
  { rewrite zdrop_le0 in H |- * by done. cbn [next_token_loop] in H. rewrite Ex, Eh in H.
    by rewrite zdrop_le0 in H. }
  destruct text as [|c text].
  { rewrite (start_nothing _ _ Ex) in Eh. unfold hides in Eh. by rewrite andb_comm in Eh. }
  apply (next_loop_more (S (length (zdrop x.2.1 (c :: text)))) _ _ _ _ _ H).
  unfold zdrop. rewrite length_drop. cbn [length]. lia.
Qed.

(** ** From one call to the next *)

(** The stream of [t1] is what is left of that of [t] after [d]. *)
Definition after (d : bytes) t t1 : Prop :=
  forall text final, completes (lx_input t1) text final -> completes (lx_input t) (d ++ text) final.

Record leads t t1 : Prop := {
  ld_total : total t1 <= total t;
  ld_emit : lx_emit_comments t1 = lx_emit_comments t;
  ld_text : exists d, after d t t1 /\ forall text final r,
    completes (lx_input t1) text final ->
    token_ahead t1 text final = Some r -> token_ahead t (d ++ text) final = Some r
}.

Definition told t (e : css_error) t1 : Prop :=
  match e with
  | CSS_OK =>
      between t1 /\ total t1 <= total t /\ lx_emit_comments t1 = lx_emit_comments t /\
      exists d data, after d t t1 /\ token_bytes t1 = Some data /\
        forall text final, completes (lx_input t1) text final ->
        token_ahead t (d ++ text) final = Some (tn_type (lx_token t1), read t1, data)
  | CSS_NEEDDATA => broken t1 \/ lexing t1 /\ leads t t1
  | CSS_EOF | CSS_INVALID => False
  | _ => True
  end.

Lemma told_lenient t : lenient (told t).
Proof. intros e t1 (? & ? & ? & ?). by destruct e. Qed.

Lemma after_trans d d1 t t1 t2 : after d t t1 -> after d1 t1 t2 -> after (d ++ d1) t t2.
Proof. intros H1 H2 text final Hc. rewrite <- app_assoc. auto. Qed.

Lemma leads_trans t1 t2 t3 : leads t1 t2 -> leads t2 t3 -> leads t1 t3.
Proof.
  intros [? ? (d & Hd & H)] [? ? (d1 & Hd1 & H1)]. split; [lia|congruence|].
  exists (d ++ d1). split; [by eapply after_trans|]. intros text final r Hc Hr.
  rewrite <- app_assoc. apply H; [by apply Hd1|]. by apply H1.
Qed.

Lemma told_leads t t1 e t2 : leads t t1 -> told t1 e t2 -> told t e t2.
Proof.
  intros Hl H. destruct e; cbn [told] in *; try done.
  - destruct Hl as [Ht He (d & Hd & Hl)], H as (Hb & Ht2 & He2 & d1 & data & Hd1 & Hdata & H).
    split; [done|]. split; [lia|]. split; [congruence|]. exists (d ++ d1), data.
    split; [by eapply after_trans|]. split; [done|]. intros text final Hc.
    rewrite <- app_assoc. apply Hl; [by apply Hd1|]. by apply H.
  - destruct H as [H|[H1 H2]]; [by left|right]. split; [done|]. by eapply leads_trans.
Qed.

(** The scanner [R] at [t1] finds the token that [t] has ahead. *)
Record seeks (R : scan css_token_type) t t1 : Prop := {
  sk_total : total t1 <= total t;
  sk_emit : lx_emit_comments t1 = lx_emit_comments t;
  sk_text : forall text final, completes (lx_input t1) text final ->
    completes (lx_input t) text final /\ forall r,
    resolve (lx_emit_comments t) (R text final (cur t1)) text final = Some r ->
    token_ahead t text final = Some r
}.

Lemma after_nil t t1 : later t t1 -> after [] t t1.
Proof. done. Qed.

Lemma seeks_paused t : paused t -> seeks (pending t) t t.
Proof. intros Hp. split; [lia|done|]. intros text final Hc. split; [done|]. intros r. by rewrite paused_ahead. Qed.

Lemma seeks_carried R R' t t1 t2 : seeks R t t1 -> carried R R' t1 t2 -> seeks R' t t2.
Proof.
  intros [? ? H] [Hl ? He Hs]. split; [lia|congruence|]. intros text final Hc.
  destruct (H text final (Hl _ _ Hc)) as [Hc1 H1]. split; [done|]. intros r Hr. apply H1.
  destruct (R' text final (cur t2)) as [x|] eqn:Ex; [|done]. by rewrite (Hs text final Hc x Ex).
Qed.

(** A token was emitted. *)
Lemma emitted_between type text t0 t1 :
  emittable t0 -> emitted type text t0 t1 -> between t1.
Proof.
  intros [] []. split; [by rewrite ed_input| |rewrite ed_unescaped|done].
  - rewrite ed_read. unfold avail. by rewrite ed_input.
  - by destruct (lx_unescapedTokenData t0).
Qed.

Lemma answer_told R t t1 e t2 :
  seeks R t t1 -> answer R t1 e t2 -> hidden_comment e t2 = false -> told t e t2.
Proof.
  intros Hsk Ha Hh. destruct e; cbn [answer told] in *; try done.
  - destruct Ha as (t0 & type & Hc & Hem & Hr & Hed).
    pose proof (seeks_carried _ _ _ _ _ Hsk Hc) as [Ht He Htx].
    pose proof (emitted_between _ _ _ _ Hem Hed) as Hb. destruct Hed as [Hty Htext _ _ Hin Hrd _ _ Hee].
    split; [done|]. split; [unfold total in *; by rewrite Hin|]. split; [congruence|].
    exists [], (token_text type (out t0)). unfold after. rewrite Hin. split; [intros ? ? Hcm; by apply Htx|].
    split; [done|]. intros text final Hcm. apply (Htx text final Hcm).
    unfold hidden_comment in Hh. rewrite Hty, Hee, He, bool_decide_true, andb_true_r in Hh by done.
    unfold resolve, sret, hides. cbn [fst snd]. rewrite Hh. unfold finish. by rewrite Hty, Hrd.
  - destruct Ha as (Hla & Hto & Hem & [Hb|[Hp Hst]]); [by left|right]. split; [by right|].
    assert (Hc : carried R (pending t2) t1 t2) by (by split).
    pose proof (seeks_carried _ _ _ _ _ Hsk Hc) as [Ht He Htx]. split; [done|done|].
    exists []. split; [intros ? ? Hcm; by apply Htx|]. intros text final r Hcm Hr.
    apply (Htx text final Hcm). by rewrite <- He, <- paused_ahead by done.
Qed.

(** A comment that is passed over. *)
Lemma answer_hidden R t t1 e t2 :
  seeks R t t1 -> answer R t1 e t2 -> hidden_comment e t2 = true ->
  between t2 /\ leads t t2 /\ 0 < read t2 /\ total t2 <= total t1.
Proof.
  intros Hsk Ha Hh. unfold hidden_comment in Hh.
  apply andb_prop in Hh as [Hh Hty]. apply andb_prop in Hh as [Hne Hok].
  apply bool_decide_eq_true in Hty, Hok. subst e. cbn [answer] in Ha.
  destruct Ha as (t0 & type & Hc & Hem & Hr & Hed).
  pose proof (seeks_carried _ _ _ _ _ Hsk Hc) as [Ht He Htx].
  pose proof (emitted_between _ _ _ _ Hem Hed) as Hb.
  destruct Hed as [Hty1 _ Hst _ Hin Hrd _ _ Hee].
  assert (Htot : total t2 = total t0) by (unfold total; by rewrite Hin).
  split; [done|]. rewrite Hrd, Htot. split; [|split; [done|apply Hc]].
  split; [lia|congruence|]. exists []. unfold after. rewrite Hin.
  split; [intros ? ? Hcm; by apply Htx|]. intros text final r Hcm Hahead.
  apply (Htx text final Hcm). unfold resolve, sret, hides. cbn [fst snd].
  rewrite <- He, <- Hee, Hne, <- Hty1, Hty, bool_decide_true by done. cbn [andb].
  unfold token_ahead in Hahead. rewrite Hst, Hrd in Hahead. exact Hahead.
Qed.

Lemma hidden_never R t e t1 :
  never R -> answer R t e t1 -> hidden_comment e t1 = false.
Proof.
  intros Hn Ha. unfold hidden_comment. destruct (bool_decide_reflect (e = CSS_OK)) as [->|_];
    [|by rewrite andb_false_r].
  cbn [answer] in Ha. destruct Ha as (t0 & type & Hc & _ & _ & Hed).
  rewrite (ed_type _ _ _ _ Hed). destruct (bool_decide_reflect (type = CSS_TOKEN_COMMENT)) as [->|_];
    [|by rewrite andb_false_r].
  exfalso. destruct Hc as [_ _ _ Hs].
  apply (Hn (avail t0) true (cur t) (cur t0)). apply Hs; [|done].
  exists []. by rewrite app_nil_r.
Qed.

(** A state function that finds no comment. *)
Lemma told_answers m R t t1 :
  never R -> seeks R t t1 -> answers m R t1 -> wp m (told t) (told t) t1.
Proof.
  intros Hn Hsk H. eapply lex_wp_mono; [exact H|..]; intros e t2 Ha;
    (eapply answer_told; [done..|by eapply hidden_never]).
Qed.

(** ** The start of a token *)

Record fresh t : Prop := {
  fr_input : is_wf (lx_input t);
  fr_read : read t = 0;
  fr_len : len t = 0;
  fr_seen : lx_escapeSeen t = false;
  fr_buffer : match lx_unescapedTokenData t with
              | Some b => bb_wf b /\ bb_bytes b = []
              | None => True
              end;
  fr_state : lx_state t = sSTART
}.

Lemma fresh_extends t t1 : fresh t -> extends t t1 -> fresh t1.
Proof.
  intros [] (s & -> & Hw & _). by split.
Qed.

Lemma fresh_between t : fresh t -> between t.
Proof.
  intros []. split; [done| | |done].
  - rewrite fr_read0. zlens. lia.
  - destruct (lx_unescapedTokenData t); [apply fr_buffer0|done].
Qed.

Lemma wp_reset {C} (k : unit -> M C) (Q : C -> T -> Prop) E t :
  between t ->
  (forall t0, fresh t0 -> leads t t0 -> total t0 = total t - read t -> wp (k tt) Q E t0) ->
  wp (seq reset_token k) Q E t.
Proof.
  intros [Hi Hr Hb Hs] H. apply wp_seq, wp_field.
  fold (read t). set (s := if 0 <? read t then is_advance (lx_input t) (read t) else lx_input t).
  assert (Hadv : is_wf s /\ is_avail s = zdrop (read t) (avail t) /\ is_total s = total t - read t /\
            (is_ended (lx_input t) -> is_ended s)).
  { unfold s. destruct (Z.ltb_spec 0 (read t)) as [Hlt|Hle].
    - by apply is_advance_ok.
    - assert (read t = 0) as -> by lia. rewrite zdrop_le0 by lia. unfold total. split_and!; try done. lia. }
  destruct Hadv as (Hw & Ha & Ht & He).
  assert (Hgo : forall t1, lx_input t1 = s -> lx_bytesReadForToken t1 = 0 -> lx_state t1 = sSTART ->
    lx_unescapedTokenData t1 = lx_unescapedTokenData t -> lx_emit_comments t1 = lx_emit_comments t ->
    wp (change (fun t => set_lx_unescapedTokenData (bb_clear <$> lx_unescapedTokenData t)
      (set_lx_escapeSeen false
        (set_lx_token {| tn_type := CSS_TOKEN_EOF; tn_data := None; tn_len := 0;
                         tn_idata := None; tn_col := lx_currentCol t;
                         tn_line := lx_currentLine t |} t)))) (fun _ => wp (k tt) Q E) E t1).
  { intros t1 Hi1 Hr1 Hs1 Hu1 He1. apply H.
    - split; try done; lx_cbn; [by rewrite Hi1|].
      rewrite Hu1. destruct (lx_unescapedTokenData t) as [b|]; [|done]. by apply bb_clear_ok.
    - split; unfold total in *; lx_cbn; rewrite ?Hi1; [lia|done|].
      exists (ztake (read t) (avail t)). split.
      + intros text final (m & -> & Hm). lx_cbn. rewrite Hi1 in *. exists m. rewrite Ha.
        rewrite app_assoc, ztake_zdrop. split; [done|]. auto.
      + intros text final r _ Hn. unfold token_ahead in *. lx_cbn. rewrite Hs. rewrite Hs1, He1 in Hn.
        unfold read at 1 in Hn. lx_cbn. rewrite Hr1, zdrop_le0 in Hn by done.
        rewrite zdrop_app_ge by (rewrite zlen_ztake; lia). rewrite zlen_ztake.
        rewrite zdrop_le0 by lia. exact Hn.
    - unfold total in *. lx_cbn. by rewrite Hi1. }
  unfold s in Hgo. destruct (0 <? read t) eqn:E0.
  - apply wp_change. by apply Hgo.
  - apply wp_seq, wp_give. apply Hgo; try done. apply Z.ltb_ge in E0. unfold read in *. lia.
Qed.

(** The first character. *)
Lemma wp_first {C} fuel c ptr (k : unit -> M C) (Q : C -> T -> Prop) E t :
  fresh t -> total t < Z.of_nat fuel -> znth (avail t) 0 = Some c -> char_len c <= zlen (avail t) ->
  (forall t1, begun fuel c t1 -> lx_state t1 = sSTART -> lx_input t1 = lx_input t ->
     lx_emit_comments t1 = lx_emit_comments t ->
     cur t1 = (char_len c, ztake (char_len c) (avail t)) -> wp (k tt) Q E t1) ->
  wp (seq (APPEND ptr (char_len c)) k) Q E t.
Proof.
  intros [Hi Hr Hl Hs Hb Hst] Hf Hc Hfit H. pose proof (char_len_range c) as Hcl.
  unfold APPEND, appendToTokenData. apply wp_seq, lex_wp_check, wp_field. rewrite Hs.
  apply wp_seq, wp_give. unfold change_token. apply wp_change, wp_give. cbv beta.
  rewrite bool_decide_eq_true_2 by done. apply wp_change, wp_change. set (t1 := set_lx_currentCol _ _).
  assert (Hr1 : read t1 = char_len c).
  { change (read t1) with (u64 (read t + char_len c)). rewrite Hr, u64_small; lia. }
  assert (Hl1 : len t1 = char_len c).
  { change (len t1) with (u64 (len t + char_len c)). rewrite Hl, u64_small; lia. }
  assert (Ho1 : out t1 = ztake (char_len c) (avail t)).
  { unfold out, source. rewrite Hl1. change (lx_escapeSeen t1) with (lx_escapeSeen t). by rewrite Hs. }
  assert (Hk : lexer_ok 0 t1).
  { split; rewrite ?Hr1, ?Hl1; change (lx_escapeSeen t1) with (lx_escapeSeen t); rewrite ?Hs;
      change (avail t1) with (avail t); try done; try lia.
    - change (lx_unescapedTokenData t1) with (lx_unescapedTokenData t).
      destruct (lx_unescapedTokenData t); [apply Hb|done].
    - intros _. unfold unescaped. change (lx_unescapedTokenData t1) with (lx_unescapedTokenData t).
      destruct (lx_unescapedTokenData t); [apply Hb|done]. }
  apply H; try done; [split; try done|unfold cur; by rewrite Hr1, Ho1].
  intros E1. rewrite Ho1, E1. rewrite <- (zdrop_le0 0 (avail t)) by lia.
  by rewrite (zdrop_cons_znth _ _ c) by (lia || done).
Qed.

(** What the first character announces is what the lexer has ahead. *)
Lemma fresh_seeks c t0 t t1 :
  fresh t0 -> extends t0 t -> znth (avail t) 0 = Some c -> char_len c <= zlen (avail t) ->
  lx_input t1 = lx_input t -> lx_emit_comments t1 = lx_emit_comments t ->
  cur t1 = (char_len c, ztake (char_len c) (avail t)) -> seeks (token_rest c) t0 t1.
Proof.
  intros Hf Hx Hc Hl Hi He Hcu. pose proof (kept_extends _ _ Hx) as [_ _ _ Hem Hla Hto].
  split; [unfold total in *; by rewrite Hi|congruence|]. intros text final Hcm. rewrite Hi in Hcm.
  split; [by apply Hla|]. intros r Hr. unfold token_ahead.
  rewrite (fr_state _ Hf), (fr_read _ Hf), zdrop_le0 by lia. apply resolve_next.
  rewrite <- Hr. f_equal. rewrite Hcu. unfold token_start, sbind, next, next_at, take_char.
  destruct (completes_prefix _ _ _ Hcm) as [m ->]. pose proof (char_len_range c).
  rewrite Z.add_0_r, znth_app_l, Hc by lia. cbn [sbind]. rewrite znth_app_l, Hc by lia.
  rewrite zdrop_le0, ztake_app_le by lia. done.
Qed.

Lemma leads_refl t : leads t t.
Proof. split; [lia|done|]. exists []. exact (conj (fun _ _ H => H) (fun _ _ _ _ H => H)). Qed.

Lemma leads_fresh t t1 : fresh t -> extends t t1 -> leads t t1.
Proof.
  intros Hf Hx. pose proof (fresh_extends _ _ Hf Hx) as Hf1.
  pose proof (kept_extends _ _ Hx) as [_ _ _ Hem Hla Hto]. split; [done|done|].
  exists []. split; [done|]. intros text final r _ Hr. unfold token_ahead in *.
  rewrite (fr_state _ Hf1), (fr_read _ Hf1), Hem in Hr. by rewrite (fr_state _ Hf), (fr_read _ Hf).
Qed.

Lemma told_end t t1 :
  fresh t -> extends t t1 -> is_ended (lx_input t1) -> zlen (avail t1) = 0 ->
  wp (emitToken CSS_TOKEN_EOF) (told t) (told t) t1.
Proof.
  intros Hf Hx He Hl. pose proof (fresh_extends _ _ Hf Hx) as Hf1.
  pose proof (kept_extends _ _ Hx) as [_ _ _ Hem Hla Hto].
  apply wp_emit_eof; [apply Hf1|apply Hf1|by right|]. intros t2 [Hty Htx Hst _ Hin Hrd Hun _ Hee].
  pose proof (fresh_between _ Hf1) as [Hb1 Hb2 Hb3 _].
  split; [split; unfold avail; rewrite ?Hin, ?Hrd, ?Hun; done|].
  split; [unfold total in *; by rewrite Hin|]. split; [congruence|].
  exists [], []. unfold after. rewrite Hin. split; [done|]. split; [done|].
  intros text final (m & -> & Hm). destruct (Hm He) as [-> ->]. apply zlen_zero_inv in Hl.
  unfold avail in Hl. rewrite Hl. cbn [app]. unfold token_ahead.
  rewrite (fr_state _ Hf), (fr_read _ Hf), Hty, Hrd, (fr_read _ Hf1). apply resolve_next.
  change (resolve (lx_emit_comments t) (Some (CSS_TOKEN_EOF, (0, []))) [] true = Some (CSS_TOKEN_EOF, 0, [])).
  unfold resolve, hides. by rewrite andb_comm.
Qed.

Lemma start_told fuel n t :
  between t -> total t - read t < Z.of_nat n -> total t < Z.of_nat fuel ->
  wp (Start fuel n) (told t) (told t) t.
Proof.
  revert t. induction n as [|n IH]; intros t Hb Hn Hf.
  { pose proof (is_avail_total _ (bt_input _ Hb)). pose proof (bt_read _ Hb). unfold total, avail in *. lia. }
  cbn [Start]. apply wp_reset; [done|]. intros t0 Hf0 Hl0 Ht0.
  assert (Hgo : forall m, wp m (told t0) (told t0) t0 -> wp m (told t) (told t) t0).
  { intros m H. eapply lex_wp_mono; [exact H|..]; intros e t1; by apply told_leads. }
  apply Hgo. pose proof (fr_input _ Hf0) as Hi0.
  apply wp_look_at; [done|zlens; lia|apply told_lenient|..].
  2:{ intros t1 Hx He Hl. by apply told_end. }
  2:{ intros t1 Hx. right. split; [left; by eapply fresh_between, fresh_extends|]. by apply leads_fresh. }
  intros t1 c ptr Hx Hc Hp Hl. rewrite Z.add_0_l in Hl. pose proof (fresh_extends _ _ Hf0 Hx) as Hf1.
  pose proof (kept_extends _ _ Hx) as [_ _ _ Hem _ Hto]. pose proof (bt_read _ Hb).
  apply (wp_first fuel c); [done|lia|done|done|]. intros t2 Hbg Hst Hi He Hcu.
  pose proof (fresh_seeks c t0 t1 t2 Hf0 Hx Hc Hl Hi He Hcu) as Hsk.
  eapply wp_octet; [exact Hp|lia|exact Hc|].
  assert (Hname : wp (enter_ident fuel) (answer name_rest t2) (answer name_rest t2) t2).
  { apply enter_ident_answer; apply Hbg. }
  destruct ((1 <? char_len c) || (0x80 <=? c)) eqn:Ec.
  { apply (told_answers _ name_rest); [apply never_name| |done].
    unfold token_rest in Hsk. by rewrite Ec in Hsk. }
  destruct (Z.eqb_spec c 0x2F) as [->|Hne].
  2:{ apply Z.eqb_neq in Hne. apply (told_answers _ (token_rest c)); [by apply never_token_rest|done|].
      by apply switch_answer. }
  change (Start_switch fuel (Start fuel n) 0x2F) with
    (run! enter sCOMMENT 0 in run! set_last_star false in run! set_last_cr false in
     get! error := invoke (Comment fuel) in
     get! hidden := field (hidden_comment error) in
     if hidden : bool then Start fuel n else give error).
  apply (slash_opens fuel 0x2F); [done|]. intros t3 Hc3 Ha3. change (token_rest 0x2F) with slash_rest in Hsk.
  pose proof (seeks_carried _ _ _ _ _ Hsk Hc3) as Hsk3. apply wp_invoke.
  assert (Hfin : forall e t4, answer slash_rest t3 e t4 ->
    wp (get! hidden := field (hidden_comment e) in
        if hidden : bool then Start fuel n else give e) (told t0) (told t0) t4).
  { intros e t4 Ha4. apply wp_field. destruct (hidden_comment e t4) eqn:Eh.
    - destruct (answer_hidden _ _ _ _ _ Hsk3 Ha4 Eh) as (Hb4 & Hl4 & Hr4 & Ht4).
      pose proof (cd_total _ _ _ _ Hc3). assert (total t2 = total t1) by (unfold total; by rewrite Hi).
      eapply lex_wp_mono; [apply IH; [done|lia|lia]|..]; intros e5 t5; by apply told_leads.
    - apply wp_give. by eapply answer_told. }
  eapply lex_wp_mono; [exact Ha3|..]; intros e t4; apply Hfin.
Qed.

(** ** The interface *)

Lemma never_pending t : paused t -> lx_state t <> sCOMMENT -> never (pending t).
Proof.
  intros [_ _ Hf] Hs. unfold pending, facts in *.
  destruct (lx_state t); try done; repeat case_match;
    first [ apply never_at | apply never_string | apply never_hash | apply (never_number (first t))
          | apply never_cdo | apply never_dash | apply never_space | apply never_match
          | apply never_name | apply never_escaped | apply (never_url_rest (url t) (first t))
          | apply (never_range (digits_left t)) | never ].
Qed.

Lemma get_token_told fuel t :
  lexing t -> total t < Z.of_nat fuel ->
  wp (css__lexer_get_token fuel) (told t) (told t) t.
Proof.
  intros [Hb|Hp] Hf; unfold css__lexer_get_token; apply wp_field.
  { rewrite (bt_state _ Hb). apply start_told; [done| |done]. pose proof (bt_read _ Hb). lia. }
  pose proof (seeks_paused t Hp) as Hsk. pose proof (ps_facts _ Hp) as Hfa. unfold facts in Hfa.
  destruct (lx_state t) eqn:Hs; try done;
    try (apply (told_answers _ (pending t)); [apply never_pending; [done|by rewrite Hs]|done|];
         by (apply (at_answer fuel) || apply (string_answer fuel) || apply (hash_answer fuel) || apply (number_answer fuel) ||
             apply (cdo_answer fuel) || apply (cdc_answer fuel) || apply (space_answer fuel) || apply (match_answer fuel) ||
             apply (ident_answer fuel) || apply (escaped_answer fuel) || apply (url_answer fuel) || apply (range_answer fuel))).
  apply wp_invoke.
  assert (Hfin : forall e t1, answer (pending t) t e t1 ->
    wp (get! hidden := field (hidden_comment e) in
        if hidden : bool then Start fuel fuel else return_error e) (told t) (told t) t1).
  { intros e t1 Ha. apply wp_field. destruct (hidden_comment e t1) eqn:Eh.
    - destruct (answer_hidden _ _ _ _ _ Hsk Ha Eh) as (Hb1 & Hl1 & Hr1 & Ht1).
      eapply lex_wp_mono; [apply start_told; [done|lia|lia]|..]; intros e2 t2; by apply told_leads.
    - apply wp_return. by eapply answer_told. }
  eapply lex_wp_mono; [by apply comment_answer|..]; intros e t1; apply Hfin.
Qed.

(** ** More input between the calls *)

(** The stream [s'] is [s] with more input. *)
Definition grows (s s' : St) : Prop :=
  is_wf s' /\ exists more, is_avail s' = is_avail s ++ more /\
    (is_ended s -> more = [] /\ is_ended s').

(** A call that needs more input, which is then there; the pause is not one of
    those after which the lexer is lost. *)
Definition pause (fuel : nat) t t' : Prop :=
  exists t1 s, run_lexer (css__lexer_get_token fuel) t = Some (CSS_NEEDDATA, t1) /\
    ~ broken t1 /\ grows (lx_input t1) s /\ is_total s < Z.of_nat fuel /\ t' = set_lx_input s t1.

(** As [leads], but the input may have grown. *)
Record tells t t1 : Prop := {
  tl_emit : lx_emit_comments t1 = lx_emit_comments t;
  tl_text : exists d, after d t t1 /\ forall text final r,
    completes (lx_input t1) text final ->
    token_ahead t1 text final = Some r -> token_ahead t (d ++ text) final = Some r
}.

Lemma tells_refl t : tells t t.
Proof. by destruct (leads_refl t). Qed.

Lemma tells_trans t1 t2 t3 : tells t1 t2 -> tells t2 t3 -> tells t1 t3.
Proof.
  intros [? (d & Hd & H)] [? (d1 & Hd1 & H1)]. split; [congruence|].
  exists (d ++ d1). split; [by eapply after_trans|]. intros text final r Hc Hr.
  rewrite <- app_assoc. apply H; [by apply Hd1|]. by apply H1.
Qed.

Lemma grows_completes s s' text final : grows s s' -> completes s' text final -> completes s text final.
Proof.
  intros (_ & more & Hm & He) (m & -> & H). exists (more ++ m). rewrite Hm, <- app_assoc.
  split; [done|]. intros Hs. destruct (He Hs) as [-> Hs']. by destruct (H Hs') as [-> ->].
Qed.

Lemma lexing_grows t s :
  lexing t -> grows (lx_input t) s -> lexing (set_lx_input s t) /\ tells t (set_lx_input s t).
Proof.
  intros Hl Hg. set (t1 := set_lx_input s t).
  assert (H : lexing t1 /\ forall text final, token_ahead t1 text final = token_ahead t text final).
  { destruct Hg as (Hw & more & Hm & _), Hl as [[? Hr ? Hs]|Hp].
    - split; [left|].
      + split; try done. unfold avail in *. subst t1. lx_cbn. rewrite Hm, zlen_app.
        pose proof (zlen_nonneg more). change (read (set_lx_input s t)) with (read t). lia.
      + intros text final. unfold token_ahead. change (lx_state t1) with (lx_state t). by rewrite Hs.
    - destruct (paused_grown t s more Hw Hm Hp) as [Hp1 Hc]. split; [by right|].
      intros text final. rewrite !paused_ahead by done. fold t1 in Hc. by rewrite Hc. }
  destruct H as [Hl1 H]. split; [done|]. split; [done|]. exists [].
  split; [intros text final; by apply grows_completes|]. intros text final r _. by rewrite H.
Qed.

Lemma pause_told fuel t t1 :
  lexing t -> total t < Z.of_nat fuel -> pause fuel t t1 ->
  lexing t1 /\ total t1 < Z.of_nat fuel /\ tells t t1.
Proof.
  intros Hl Hf (t2 & s & Hrun & Hnb & Hg & Ht & ->).
  destruct (lex_wp_run _ _ _ (get_token_told fuel t Hl Hf)) as (e & t3 & Hrun' & H).
  rewrite Hrun in Hrun'. injection Hrun' as <- <-. destruct H as [H|[Hl2 [_ He Hld]]]; [done|].
  destruct (lexing_grows t2 s Hl2 Hg) as [Hl3 Htl]. split; [done|]. split; [done|].
  by apply (tells_trans _ t2).
Qed.

Lemma session_told fuel t0 t :
  rtc (pause fuel) t0 t -> lexing t0 -> total t0 < Z.of_nat fuel ->
  lexing t /\ total t < Z.of_nat fuel /\ tells t0 t.
Proof.
  intros Hr. induction Hr as [t|t0 t1 t2 Hp Hr IH]; intros Hl Hf; [by split_and!; try apply tells_refl|].
  destruct (pause_told _ _ _ Hl Hf Hp) as (Hl1 & Hf1 & Ht1). destruct (IH Hl1 Hf1) as (? & ? & ?).
  split_and!; [done..|by eapply tells_trans].
Qed.

(** C5: whatever the lexer is in, between two tokens or in the middle of one,
    with more fuel than octets of input that can become available,
    css__lexer_get_token returns: no pointer is read past the text it points
    to (one that consumeUnicode keeps over a peek being taken to be still good),
    no count wraps, no assertion fails and no loop turns for ever.  After a
    token the lexer is between tokens; when more data is needed it can be
    called again, unless the pause is one that [broken] names.  The end of the
    input is a token and not an error, and no text is invalid. *)
Theorem get_token_answers fuel t :
  lexing t -> total t < Z.of_nat fuel ->
  exists e t1, run_lexer (css__lexer_get_token fuel) t = Some (e, t1) /\
    (e = CSS_OK -> between t1 /\ total t1 <= total t) /\
    (e = CSS_NEEDDATA -> ~ broken t1 -> lexing t1 /\ total t1 <= total t) /\
    e <> CSS_EOF /\ e <> CSS_INVALID.
Proof.
  intros Hl Hf. destruct (lex_wp_run _ _ _ (get_token_told fuel t Hl Hf)) as (e & t1 & -> & H).
  exists e, t1. split; [done|]. split_and!; [intros ->|intros -> Hb|intros ->|intros ->];
    cbn [told] in H; try done; [by destruct H as (? & ? & _)|]. destruct H as [H|[? []]]; [done|by split].
Qed.

(** C1: a token that is asked for between two tokens, in as many calls as it
    takes, with more input after each that needs it, is the one the reference
    scanner finds at the start of the rest of the text, whatever that text turns
    out to be: its type, the octets it takes and its data, in which escapes
    stand for their characters.  How the text was cut into chunks makes no
    difference, but at the pauses that [broken] names.  [d] is what was read
    and dropped, comments among it. *)
Theorem get_token_restarts fuel t0 t t1 :
  between t0 -> total t0 < Z.of_nat fuel -> rtc (pause fuel) t0 t ->
  run_lexer (css__lexer_get_token fuel) t = Some (CSS_OK, t1) ->
  exists d data, token_bytes t1 = Some data /\ forall text final,
    completes (lx_input t1) text final ->
    completes (lx_input t0) (d ++ text) final /\
    next_token (lx_emit_comments t0) (zdrop (read t0) (d ++ text)) final =
      Some (tn_type (lx_token t1), read t1, data).
Proof.
  intros Hb Hf Hr Hrun. destruct (session_told _ _ _ Hr (or_introl Hb) Hf) as (Hl & Hf1 & [_ (d & Hd & H)]).
  destruct (lex_wp_run _ _ _ (get_token_told fuel t Hl Hf1)) as (e & t2 & Hrun' & Ht).
  rewrite Hrun in Hrun'. injection Hrun' as <- <-. destruct Ht as (_ & _ & _ & d1 & data & Hd1 & Hdata & Ht).
  exists (d ++ d1), data. split; [done|]. intros text final Hc.
  pose proof (Hd1 _ _ Hc) as Hc1. rewrite <- app_assoc. split; [by apply Hd|].
  pose proof (H _ _ _ Hc1 (Ht _ _ Hc)) as Ha. unfold token_ahead in Ha. by rewrite (bt_state _ Hb) in Ha.
Qed.
End Lexer.

(** ** Over the input stream *)

Lemma created_between {St B} `{!InputStreamOps St} `{!InputStream St} `{!ByteBufferOps B}
    `{!ByteBuffer B} malloc_ok (mem : css_lexer St B) input e t :
  is_wf input -> css__lexer_create malloc_ok mem input = (e, Some t) -> between t.
Proof.
  intros Hw. unfold css__lexer_create. destruct (malloc_ok _); [|done]. intros [= <- <-].
  split; try done. change (0 <= 0 <= zlen (is_avail input)). zlens. lia.
Qed.

Section Fed.
Context {CD : Type} (iconv_open : bytes -> bytes -> CD + iconv_errno)
  (iconv : CD -> bytes -> Z -> iconv_result CD).
Context (mibenum_from_name : bytes -> Z) (mibenum_to_name : Z -> bytes).
Context (malloc_ok realloc_ok : Z -> bool) (cd_pending : CD -> Z) (K : Z).
Hypothesis env : stream_env iconv_open iconv mibenum_from_name realloc_ok cd_pending K.
Local Abbreviation stream := (parserutils_inputstream CD).

#[local] Instance fed_stream_ops : InputStreamOps stream :=
  parserutils_inputstream_ops iconv_open iconv mibenum_from_name mibenum_to_name realloc_ok.
#[local] Instance fed_stream_iface : InputStream stream :=
  parserutils_inputstream_iface iconv_open iconv mibenum_from_name mibenum_to_name realloc_ok
    cd_pending K env.
#[local] Instance fed_buffer_ops : ByteBufferOps parserutils_buffer :=
  parserutils_buffer_ops realloc_ok.
#[local] Instance fed_buffer_iface : ByteBuffer parserutils_buffer :=
  parserutils_buffer_iface realloc_ok (memory_bounded _ _ _ _ _ _ env).
#[local] Instance fed_make_ops : ByteBufferMakeOps parserutils_buffer :=
  parserutils_buffer_make_ops malloc_ok.
#[local] Instance fed_make : ByteBufferMake parserutils_buffer :=
  parserutils_buffer_make malloc_ok realloc_ok (memory_bounded _ _ _ _ _ _ env).

(** To feed a stream that was not ended, or to end it, is to let it grow. *)
Lemma fed_grows (s s' : stream) data e :
  stream_wf s -> is_had_eof s = false \/ data = None ->
  parserutils_inputstream_append realloc_ok s data = Some (e, s') -> grows s s'.
Proof.
  intros Hw Hd Ha.
  destruct (feed_spec _ _ _ _ _ _ env s data Hw) as (e1 & s1 & Ha1 & Hw1 & Hu & H).
  rewrite Ha in Ha1. injection Ha1 as <- <-. split; [done|]. exists [].
  split; [by rewrite app_nil_r|]. intros [Heof Hraw]. split; [done|].
  destruct Hd as [Hd | ->]; [congruence|]. destruct H as (_ & ? & Hl). by split; [|rewrite Hl].
Qed.

Lemma pause_fed fuel (t t1 : css_lexer stream parserutils_buffer) data e s :
  lexing t -> total t < Z.of_nat fuel ->
  run_lexer (css__lexer_get_token fuel) t = Some (CSS_NEEDDATA, t1) -> ~ broken t1 ->
  is_had_eof (lx_input t1) = false \/ data = None ->
  parserutils_inputstream_append realloc_ok (lx_input t1) data = Some (e, s) ->
  is_total s < Z.of_nat fuel -> pause fuel t (set_lx_input s t1).
Proof.
  intros Hl Hf Hr Hb Hd Ha Ht. exists t1, s. do 2 (split; [done|]). split; [|done].
  destruct (lex_wp_run _ _ _ (get_token_told fuel t Hl Hf)) as (e1 & t2 & Hr' & H).
  rewrite Hr in Hr'. injection Hr' as <- <-. destruct H as [H|[H _]]; [done|].
  eapply fed_grows; [|done..]. destruct H as [H|H]; [apply H|]. apply (lk_input _ _ (ps_ok _ H)).
Qed.
End Fed.

(** ** A lexer *)

Local Open Scope string_scope.
Local Open Scope list_scope.

#[local] Instance sheet_stream_ops : InputStreamOps (parserutils_inputstream unit) :=
  fed_stream_ops ascii_open ascii_iconv one_charset one_name below_4GB.
#[local] Instance sheet_stream_iface : InputStream (parserutils_inputstream unit) :=
  fed_stream_iface ascii_open ascii_iconv one_charset one_name below_4GB (fun _ => 0) 3 concrete_env.
#[local] Instance sheet_buffer_ops : ByteBufferOps parserutils_buffer := fed_buffer_ops below_4GB.
#[local] Instance sheet_buffer_iface : ByteBuffer parserutils_buffer :=
  fed_buffer_iface ascii_open ascii_iconv one_charset below_4GB (fun _ => 0) 3 concrete_env.
#[local] Instance sheet_make_ops : ByteBufferMakeOps parserutils_buffer := fed_make_ops below_4GB.
#[local] Instance sheet_make : ByteBufferMake parserutils_buffer :=
  fed_make ascii_open ascii_iconv one_charset below_4GB below_4GB (fun _ => 0) 3 concrete_env.
Local Abbreviation sheet_lexer := (css_lexer (parserutils_inputstream unit) parserutils_buffer).

Definition sheet_memory : sheet_lexer := {|
  lx_input := fresh_stream [] None;
  lx_bytesReadForToken := 77;
  lx_token := {| tn_type := CSS_TOKEN_S; tn_data := None; tn_len := 0; tn_idata := None;
                 tn_col := 0; tn_line := 0 |};
  lx_escapeSeen := true;
  lx_unescapedTokenData := None;
  lx_state := sMATCH;
  lx_substate := 5;
  lx_context := {| lc_first := 0; lc_origBytes := 0; lc_lastWasStar := false; lc_lastWasCR := false;
                   lc_bytesForURL := 0; lc_dataLenForURL := 0; lc_hexCount := 0 |};
  lx_emit_comments := true;
  lx_currentCol := 3;
  lx_currentLine := 4
|}.

(** A new lexer, the stream of which holds [data]. *)
Definition sheet (data : bytes) : sheet_lexer :=
  default sheet_memory (css__lexer_create below_4GB sheet_memory (fresh_stream data None)).2.

Lemma sheet_between data : zlen data <= DEFAULT_SIZE -> between (sheet data).
Proof.
  intros Hl. apply (created_between below_4GB sheet_memory (fresh_stream data None) CSS_OK); [|done].
  by apply fresh_stream_wf.
Qed.

(** Feeding the stream of a lexer, or ending it. *)
Definition feed_lexer (data : option bytes) (t : sheet_lexer) : option sheet_lexer :=
  '(_, s) ← parserutils_inputstream_append below_4GB (lx_input t) data; Some (set_lx_input s t).

(** A chunk that ends in an escape. *)
Definition in_escape : sheet_lexer := sheet (chars "\6").
Definition stopped : sheet_lexer :=
  (default (CSS_OK, sheet_memory) (run_lexer (css__lexer_get_token 100) in_escape)).2.
Definition past_escape : sheet_lexer := default sheet_memory (feed_lexer (Some (chars "1 (")) stopped).

Lemma in_escape_paused :
  lexing in_escape /\ total in_escape < Z.of_nat 100 /\ pause 100 in_escape past_escape.
Proof.
  assert (Hb : lexing in_escape) by (left; by apply sheet_between).
  assert (Hf : total in_escape < Z.of_nat 100) by (vm_compute; reflexivity).
  split; [exact Hb|]. split; [exact Hf|].
  assert (He : past_escape = set_lx_input (lx_input past_escape) stopped) by (vm_compute; reflexivity).
  rewrite He. clear He.
  eapply (pause_fed ascii_open ascii_iconv one_charset one_name below_4GB below_4GB (fun _ => 0) 3
    concrete_env 100 in_escape stopped (Some (chars "1 (")) PARSERUTILS_OK); [exact Hb|exact Hf|..].
  - vm_compute. reflexivity.
  - assert (lx_state stopped = sESCAPEDIDENT) as Hs by (vm_compute; reflexivity).
    unfold broken. rewrite Hs. intros [].
  - left. vm_compute. reflexivity.
  - vm_compute. reflexivity.
  - vm_compute. reflexivity.
Qed.

Lemma get_token_answers_witness :
  lexing past_escape /\
  exists e t1, run_lexer (css__lexer_get_token 100) past_escape = Some (e, t1) /\
    (e = CSS_OK -> between t1 /\ total t1 <= total past_escape) /\
    (e = CSS_NEEDDATA -> ~ broken t1 -> lexing t1 /\ total t1 <= total past_escape) /\
    e <> CSS_EOF /\ e <> CSS_INVALID.
Proof.
  destruct in_escape_paused as (Hl & Hf & Hp).
  destruct (pause_told 100 in_escape past_escape Hl Hf Hp) as (Hl1 & Hf1 & _).
  split; [exact Hl1|]. exact (get_token_answers 100 past_escape Hl1 Hf1).
Defined.

Lemma get_token_restarts_witness :
  exists t1, rtc (pause 100) in_escape past_escape /\
    run_lexer (css__lexer_get_token 100) past_escape = Some (CSS_OK, t1) /\
    tn_type (lx_token t1) = CSS_TOKEN_FUNCTION /\
    exists d data, token_bytes t1 = Some data /\ forall text final,
      completes (lx_input t1) text final ->
      completes (lx_input in_escape) (d ++ text) final /\
      next_token (lx_emit_comments in_escape) (zdrop (read in_escape) (d ++ text)) final =
        Some (tn_type (lx_token t1), read t1, data).
Proof.
  destruct in_escape_paused as (_ & Hf & Hp).
  set (t1 := (default (CSS_OK, past_escape) (run_lexer (css__lexer_get_token 100) past_escape)).2).
  assert (Hr : run_lexer (css__lexer_get_token 100) past_escape = Some (CSS_OK, t1)) by (vm_compute; reflexivity).
  exists t1. split; [by apply rtc_once|]. split; [exact Hr|]. split; [vm_compute; reflexivity|].
  apply (get_token_restarts 100 in_escape past_escape t1); [|exact Hf|by apply rtc_once|exact Hr].
  by apply sheet_between.
Defined.

(** ** What comes of the pauses that [broken] names *)

(** All the tokens of the text that was fed so far. *)
Fixpoint drain (n : nat) (t : sheet_lexer) (seen : list ref_token)
  : option (css_error * sheet_lexer * list ref_token) :=
  match n with
  | O => None
  | S n =>
      '(e, t) ← run_lexer (css__lexer_get_token 100) t;
      if bool_decide (e = CSS_OK) then
        data ← token_bytes t;
        let seen := seen ++ [(tn_type (lx_token t), read t, data)] in
        if bool_decide (tn_type (lx_token t) = CSS_TOKEN_EOF) then Some (e, t, seen)
        else drain n t seen
      else Some (e, t, seen)
  end.

Fixpoint drain_chunks (chunks : list bytes) (t : sheet_lexer) (seen : list ref_token)
  : option (list ref_token) :=
  '(_, t, seen) ← drain 100 t seen;
  match chunks with
  | [] => t ← feed_lexer None t; '(_, _, seen) ← drain 100 t seen; Some seen
  | data :: chunks => t ← feed_lexer (Some data) t; drain_chunks chunks t seen
  end.

(** The tokens of a style sheet that comes in chunks. *)
Definition sheet_tokens (chunks : list bytes) : option (list ref_token) :=
  drain_chunks chunks (sheet []) [].

(** After a 'u' the lexer takes itself to be in the middle of "url(": the 'r'
    is read as what comes after the 'l', and the data of "u|l()" is shorter
    than what emission strips from it. *)
Example u_at_chunk_end :
  sheet_tokens [chars "url(x)"] =
    Some [(CSS_TOKEN_URI, 6, chars "x"); (CSS_TOKEN_EOF, 0, [])] /\
  sheet_tokens [chars "u"; chars "rl(x)"] =
    Some [(CSS_TOKEN_FUNCTION, 4, chars "url"); (CSS_TOKEN_IDENT, 1, chars "x");
          (CSS_TOKEN_CHAR, 1, chars ")"); (CSS_TOKEN_EOF, 0, [])] /\
  sheet_tokens [chars "u"; chars "l() "] = None.
Proof. vm_compute. auto. Qed.

(** A '>' at the end of a chunk is lost. *)
Example gt_at_chunk_end :
  sheet_tokens [chars "a>b"] =
    Some [(CSS_TOKEN_IDENT, 1, chars "a"); (CSS_TOKEN_CHAR, 1, chars ">");
          (CSS_TOKEN_IDENT, 1, chars "b"); (CSS_TOKEN_EOF, 0, [])] /\
  sheet_tokens [chars "a>"; chars "b"] =
    Some [(CSS_TOKEN_IDENT, 1, chars "a"); (CSS_TOKEN_IDENT, 1, chars "b"); (CSS_TOKEN_EOF, 0, [])].
Proof. vm_compute. auto. Qed.

(** An escape after two dashes, at the end of a chunk, is not an escape. *)
Example dashes_at_chunk_end :
  sheet_tokens [chars "--\61("] =
    Some [(CSS_TOKEN_FUNCTION, 6, chars "--a"); (CSS_TOKEN_EOF, 0, [])] /\
  sheet_tokens [chars "--\"; chars "61("] =
    Some [(CSS_TOKEN_IDENT, 3, chars "--"); (CSS_TOKEN_NUMBER, 2, chars "61");
          (CSS_TOKEN_CHAR, 1, chars "("); (CSS_TOKEN_EOF, 0, [])].
Proof. vm_compute. auto. Qed.

(** Emission strips the quotes of a URI, escaped ones too; and a sign and a
    point are a number. *)
Example escaped_quotes_and_bare_point :
  sheet_tokens [chars "url(\'a\')"] =
    Some [(CSS_TOKEN_URI, 10, chars "a"); (CSS_TOKEN_EOF, 0, [])] /\
  sheet_tokens [chars "-.x"] =
    Some [(CSS_TOKEN_DIMENSION, 3, chars "-.x"); (CSS_TOKEN_EOF, 0, [])].
Proof. vm_compute. auto. Qed.
