(* ===== verification/Bmp.v ===== *)
(** * Bmp: decoding of Windows bitmaps and icons (libnsbmp/src/libnsbmp.c).

    [mem] is the memory that can be read from the first octet of the file on;
    a pointer into it is an offset, [base] the address of offset 0.  The pixels
    of a bitmap are words, a pointer to one is an offset in octets.  A read or
    write outside either, a failed assert and a loop that does not end are all
    [Fault].  The machine is little-endian.  malloc and the client's functions
    that make bitmaps and show their pixels are parameters. *)
From S2P Require Import Prelude.

(** ** Results, images *)

Inductive bmp_result := BMP_OK | BMP_INSUFFICIENT_MEMORY | BMP_INSUFFICIENT_DATA | BMP_DATA_ERROR.

#[export] Instance bmp_result_eq_dec : EqDecision bmp_result.
Proof. solve_decision. Defined.

Definition BMP_ENCODING_RGB : Z := 0.
Definition BMP_ENCODING_RLE8 : Z := 1.
Definition BMP_ENCODING_RLE4 : Z := 2.
Definition BMP_ENCODING_BITFIELDS : Z := 3.

Definition BMP_NEW : Z := 0.
Definition BMP_OPAQUE : Z := 1.
Definition BMP_CLEAR_MEMORY : Z := 2.

Definition BMP_FILE_HEADER_SIZE : Z := 14.
Definition ICO_FILE_HEADER_SIZE : Z := 6.
Definition ICO_DIR_ENTRY_SIZE : Z := 16.
Definition BITMAPCOREHEADER : Z := 12.
Definition INT32_MAX : Z := 2 ^ 31 - 1.

(** Conversion to signed integers. *)
Definition s16 (x : Z) : Z := if u16 x <? 2 ^ 15 then u16 x else u16 x - 2 ^ 16.
Definition s32 (x : Z) : Z := if u32 x <? 2 ^ 31 then u32 x else u32 x - 2 ^ 32.

Record bmp_image := {
  bm_data : Z;
  bm_width : Z;
  bm_height : Z;
  bm_decoded : bool;
  bm_bitmap : option (list Z);
  bm_buffer_size : Z;
  bm_encoding : Z;
  bm_bitmap_offset : Z;
  bm_bpp : Z;
  bm_colours : Z;
  bm_colour_table : option (list Z);
  bm_limited_trans : bool;
  bm_trans_colour : Z;
  bm_reversed : bool;
  bm_ico : bool;
  bm_opaque : bool;
  bm_mask : list Z;
  bm_shift : list Z;
  bm_transparent_index : Z
}.

Definition set_bm_data (v : Z) (b : bmp_image) : bmp_image :=
  {| bm_data := v; bm_width := bm_width b; bm_height := bm_height b; bm_decoded := bm_decoded b;
     bm_bitmap := bm_bitmap b; bm_buffer_size := bm_buffer_size b; bm_encoding := bm_encoding b;
     bm_bitmap_offset := bm_bitmap_offset b; bm_bpp := bm_bpp b; bm_colours := bm_colours b;
     bm_colour_table := bm_colour_table b; bm_limited_trans := bm_limited_trans b;
     bm_trans_colour := bm_trans_colour b; bm_reversed := bm_reversed b; bm_ico := bm_ico b;
     bm_opaque := bm_opaque b; bm_mask := bm_mask b; bm_shift := bm_shift b;
     bm_transparent_index := bm_transparent_index b |}.
Definition set_bm_width (v : Z) (b : bmp_image) : bmp_image :=
  {| bm_data := bm_data b; bm_width := v; bm_height := bm_height b; bm_decoded := bm_decoded b;
     bm_bitmap := bm_bitmap b; bm_buffer_size := bm_buffer_size b; bm_encoding := bm_encoding b;
     bm_bitmap_offset := bm_bitmap_offset b; bm_bpp := bm_bpp b; bm_colours := bm_colours b;
     bm_colour_table := bm_colour_table b; bm_limited_trans := bm_limited_trans b;
     bm_trans_colour := bm_trans_colour b; bm_reversed := bm_reversed b; bm_ico := bm_ico b;
     bm_opaque := bm_opaque b; bm_mask := bm_mask b; bm_shift := bm_shift b;
     bm_transparent_index := bm_transparent_index b |}.
Definition set_bm_height (v : Z) (b : bmp_image) : bmp_image :=
  {| bm_data := bm_data b; bm_width := bm_width b; bm_height := v; bm_decoded := bm_decoded b;
     bm_bitmap := bm_bitmap b; bm_buffer_size := bm_buffer_size b; bm_encoding := bm_encoding b;
     bm_bitmap_offset := bm_bitmap_offset b; bm_bpp := bm_bpp b; bm_colours := bm_colours b;
     bm_colour_table := bm_colour_table b; bm_limited_trans := bm_limited_trans b;
     bm_trans_colour := bm_trans_colour b; bm_reversed := bm_reversed b; bm_ico := bm_ico b;
     bm_opaque := bm_opaque b; bm_mask := bm_mask b; bm_shift := bm_shift b;
     bm_transparent_index := bm_transparent_index b |}.
Definition set_bm_decoded (v : bool) (b : bmp_image) : bmp_image :=
  {| bm_data := bm_data b; bm_width := bm_width b; bm_height := bm_height b; bm_decoded := v;
     bm_bitmap := bm_bitmap b; bm_buffer_size := bm_buffer_size b; bm_encoding := bm_encoding b;
     bm_bitmap_offset := bm_bitmap_offset b; bm_bpp := bm_bpp b; bm_colours := bm_colours b;
     bm_colour_table := bm_colour_table b; bm_limited_trans := bm_limited_trans b;
     bm_trans_colour := bm_trans_colour b; bm_reversed := bm_reversed b; bm_ico := bm_ico b;
     bm_opaque := bm_opaque b; bm_mask := bm_mask b; bm_shift := bm_shift b;
     bm_transparent_index := bm_transparent_index b |}.
Definition set_bm_bitmap (v : option (list Z)) (b : bmp_image) : bmp_image :=
  {| bm_data := bm_data b; bm_width := bm_width b; bm_height := bm_height b;
     bm_decoded := bm_decoded b; bm_bitmap := v; bm_buffer_size := bm_buffer_size b;
     bm_encoding := bm_encoding b; bm_bitmap_offset := bm_bitmap_offset b; bm_bpp := bm_bpp b;
     bm_colours := bm_colours b; bm_colour_table := bm_colour_table b;
     bm_limited_trans := bm_limited_trans b; bm_trans_colour := bm_trans_colour b;
     bm_reversed := bm_reversed b; bm_ico := bm_ico b; bm_opaque := bm_opaque b;
     bm_mask := bm_mask b; bm_shift := bm_shift b;
     bm_transparent_index := bm_transparent_index b |}.
Definition set_bm_buffer_size (v : Z) (b : bmp_image) : bmp_image :=
  {| bm_data := bm_data b; bm_width := bm_width b; bm_height := bm_height b;
     bm_decoded := bm_decoded b; bm_bitmap := bm_bitmap b; bm_buffer_size := v;
     bm_encoding := bm_encoding b; bm_bitmap_offset := bm_bitmap_offset b; bm_bpp := bm_bpp b;
     bm_colours := bm_colours b; bm_colour_table := bm_colour_table b;
     bm_limited_trans := bm_limited_trans b; bm_trans_colour := bm_trans_colour b;
     bm_reversed := bm_reversed b; bm_ico := bm_ico b; bm_opaque := bm_opaque b;
     bm_mask := bm_mask b; bm_shift := bm_shift b;
     bm_transparent_index := bm_transparent_index b |}.
Definition set_bm_encoding (v : Z) (b : bmp_image) : bmp_image :=
  {| bm_data := bm_data b; bm_width := bm_width b; bm_height := bm_height b;
     bm_decoded := bm_decoded b; bm_bitmap := bm_bitmap b; bm_buffer_size := bm_buffer_size b;
     bm_encoding := v; bm_bitmap_offset := bm_bitmap_offset b; bm_bpp := bm_bpp b;
     bm_colours := bm_colours b; bm_colour_table := bm_colour_table b;
     bm_limited_trans := bm_limited_trans b; bm_trans_colour := bm_trans_colour b;
     bm_reversed := bm_reversed b; bm_ico := bm_ico b; bm_opaque := bm_opaque b;
     bm_mask := bm_mask b; bm_shift := bm_shift b;
     bm_transparent_index := bm_transparent_index b |}.
Definition set_bm_bitmap_offset (v : Z) (b : bmp_image) : bmp_image :=
  {| bm_data := bm_data b; bm_width := bm_width b; bm_height := bm_height b;
     bm_decoded := bm_decoded b; bm_bitmap := bm_bitmap b; bm_buffer_size := bm_buffer_size b;
     bm_encoding := bm_encoding b; bm_bitmap_offset := v; bm_bpp := bm_bpp b;
     bm_colours := bm_colours b; bm_colour_table := bm_colour_table b;
     bm_limited_trans := bm_limited_trans b; bm_trans_colour := bm_trans_colour b;
     bm_reversed := bm_reversed b; bm_ico := bm_ico b; bm_opaque := bm_opaque b;
     bm_mask := bm_mask b; bm_shift := bm_shift b;
     bm_transparent_index := bm_transparent_index b |}.
Definition set_bm_bpp (v : Z) (b : bmp_image) : bmp_image :=
  {| bm_data := bm_data b; bm_width := bm_width b; bm_height := bm_height b;
     bm_decoded := bm_decoded b; bm_bitmap := bm_bitmap b; bm_buffer_size := bm_buffer_size b;
     bm_encoding := bm_encoding b; bm_bitmap_offset := bm_bitmap_offset b; bm_bpp := v;
     bm_colours := bm_colours b; bm_colour_table := bm_colour_table b;
     bm_limited_trans := bm_limited_trans b; bm_trans_colour := bm_trans_colour b;
     bm_reversed := bm_reversed b; bm_ico := bm_ico b; bm_opaque := bm_opaque b;
     bm_mask := bm_mask b; bm_shift := bm_shift b;
     bm_transparent_index := bm_transparent_index b |}.
Definition set_bm_colours (v : Z) (b : bmp_image) : bmp_image :=
  {| bm_data := bm_data b; bm_width := bm_width b; bm_height := bm_height b;
     bm_decoded := bm_decoded b; bm_bitmap := bm_bitmap b; bm_buffer_size := bm_buffer_size b;
     bm_encoding := bm_encoding b; bm_bitmap_offset := bm_bitmap_offset b; bm_bpp := bm_bpp b;
     bm_colours := v; bm_colour_table := bm_colour_table b;
     bm_limited_trans := bm_limited_trans b; bm_trans_colour := bm_trans_colour b;
     bm_reversed := bm_reversed b; bm_ico := bm_ico b; bm_opaque := bm_opaque b;
     bm_mask := bm_mask b; bm_shift := bm_shift b;
     bm_transparent_index := bm_transparent_index b |}.
Definition set_bm_colour_table (v : option (list Z)) (b : bmp_image) : bmp_image :=
  {| bm_data := bm_data b; bm_width := bm_width b; bm_height := bm_height b;
     bm_decoded := bm_decoded b; bm_bitmap := bm_bitmap b; bm_buffer_size := bm_buffer_size b;
     bm_encoding := bm_encoding b; bm_bitmap_offset := bm_bitmap_offset b; bm_bpp := bm_bpp b;
     bm_colours := bm_colours b; bm_colour_table := v; bm_limited_trans := bm_limited_trans b;
     bm_trans_colour := bm_trans_colour b; bm_reversed := bm_reversed b; bm_ico := bm_ico b;
     bm_opaque := bm_opaque b; bm_mask := bm_mask b; bm_shift := bm_shift b;
     bm_transparent_index := bm_transparent_index b |}.
Definition set_bm_limited_trans (v : bool) (b : bmp_image) : bmp_image :=
  {| bm_data := bm_data b; bm_width := bm_width b; bm_height := bm_height b;
     bm_decoded := bm_decoded b; bm_bitmap := bm_bitmap b; bm_buffer_size := bm_buffer_size b;
     bm_encoding := bm_encoding b; bm_bitmap_offset := bm_bitmap_offset b; bm_bpp := bm_bpp b;
     bm_colours := bm_colours b; bm_colour_table := bm_colour_table b; bm_limited_trans := v;
     bm_trans_colour := bm_trans_colour b; bm_reversed := bm_reversed b; bm_ico := bm_ico b;
     bm_opaque := bm_opaque b; bm_mask := bm_mask b; bm_shift := bm_shift b;
     bm_transparent_index := bm_transparent_index b |}.
Definition set_bm_trans_colour (v : Z) (b : bmp_image) : bmp_image :=
  {| bm_data := bm_data b; bm_width := bm_width b; bm_height := bm_height b;
     bm_decoded := bm_decoded b; bm_bitmap := bm_bitmap b; bm_buffer_size := bm_buffer_size b;
     bm_encoding := bm_encoding b; bm_bitmap_offset := bm_bitmap_offset b; bm_bpp := bm_bpp b;
     bm_colours := bm_colours b; bm_colour_table := bm_colour_table b;
     bm_limited_trans := bm_limited_trans b; bm_trans_colour := v; bm_reversed := bm_reversed b;
     bm_ico := bm_ico b; bm_opaque := bm_opaque b; bm_mask := bm_mask b; bm_shift := bm_shift b;
     bm_transparent_index := bm_transparent_index b |}.
Definition set_bm_reversed (v : bool) (b : bmp_image) : bmp_image :=
  {| bm_data := bm_data b; bm_width := bm_width b; bm_height := bm_height b;
     bm_decoded := bm_decoded b; bm_bitmap := bm_bitmap b; bm_buffer_size := bm_buffer_size b;
     bm_encoding := bm_encoding b; bm_bitmap_offset := bm_bitmap_offset b; bm_bpp := bm_bpp b;
     bm_colours := bm_colours b; bm_colour_table := bm_colour_table b;
     bm_limited_trans := bm_limited_trans b; bm_trans_colour := bm_trans_colour b;
     bm_reversed := v; bm_ico := bm_ico b; bm_opaque := bm_opaque b; bm_mask := bm_mask b;
     bm_shift := bm_shift b; bm_transparent_index := bm_transparent_index b |}.
Definition set_bm_ico (v : bool) (b : bmp_image) : bmp_image :=
  {| bm_data := bm_data b; bm_width := bm_width b; bm_height := bm_height b;
     bm_decoded := bm_decoded b; bm_bitmap := bm_bitmap b; bm_buffer_size := bm_buffer_size b;
     bm_encoding := bm_encoding b; bm_bitmap_offset := bm_bitmap_offset b; bm_bpp := bm_bpp b;
     bm_colours := bm_colours b; bm_colour_table := bm_colour_table b;
     bm_limited_trans := bm_limited_trans b; bm_trans_colour := bm_trans_colour b;
     bm_reversed := bm_reversed b; bm_ico := v; bm_opaque := bm_opaque b; bm_mask := bm_mask b;
     bm_shift := bm_shift b; bm_transparent_index := bm_transparent_index b |}.
Definition set_bm_opaque (v : bool) (b : bmp_image) : bmp_image :=
  {| bm_data := bm_data b; bm_width := bm_width b; bm_height := bm_height b;
     bm_decoded := bm_decoded b; bm_bitmap := bm_bitmap b; bm_buffer_size := bm_buffer_size b;
     bm_encoding := bm_encoding b; bm_bitmap_offset := bm_bitmap_offset b; bm_bpp := bm_bpp b;
     bm_colours := bm_colours b; bm_colour_table := bm_colour_table b;
     bm_limited_trans := bm_limited_trans b; bm_trans_colour := bm_trans_colour b;
     bm_reversed := bm_reversed b; bm_ico := bm_ico b; bm_opaque := v; bm_mask := bm_mask b;
     bm_shift := bm_shift b; bm_transparent_index := bm_transparent_index b |}.
Definition set_bm_mask (v : list Z) (b : bmp_image) : bmp_image :=
  {| bm_data := bm_data b; bm_width := bm_width b; bm_height := bm_height b;
     bm_decoded := bm_decoded b; bm_bitmap := bm_bitmap b; bm_buffer_size := bm_buffer_size b;
     bm_encoding := bm_encoding b; bm_bitmap_offset := bm_bitmap_offset b; bm_bpp := bm_bpp b;
     bm_colours := bm_colours b; bm_colour_table := bm_colour_table b;
     bm_limited_trans := bm_limited_trans b; bm_trans_colour := bm_trans_colour b;
     bm_reversed := bm_reversed b; bm_ico := bm_ico b; bm_opaque := bm_opaque b; bm_mask := v;
     bm_shift := bm_shift b; bm_transparent_index := bm_transparent_index b |}.
Definition set_bm_shift (v : list Z) (b : bmp_image) : bmp_image :=
  {| bm_data := bm_data b; bm_width := bm_width b; bm_height := bm_height b;
     bm_decoded := bm_decoded b; bm_bitmap := bm_bitmap b; bm_buffer_size := bm_buffer_size b;
     bm_encoding := bm_encoding b; bm_bitmap_offset := bm_bitmap_offset b; bm_bpp := bm_bpp b;
     bm_colours := bm_colours b; bm_colour_table := bm_colour_table b;
     bm_limited_trans := bm_limited_trans b; bm_trans_colour := bm_trans_colour b;
     bm_reversed := bm_reversed b; bm_ico := bm_ico b; bm_opaque := bm_opaque b;
     bm_mask := bm_mask b; bm_shift := v; bm_transparent_index := bm_transparent_index b |}.
Definition set_bm_transparent_index (v : Z) (b : bmp_image) : bmp_image :=
  {| bm_data := bm_data b; bm_width := bm_width b; bm_height := bm_height b;
     bm_decoded := bm_decoded b; bm_bitmap := bm_bitmap b; bm_buffer_size := bm_buffer_size b;
     bm_encoding := bm_encoding b; bm_bitmap_offset := bm_bitmap_offset b; bm_bpp := bm_bpp b;
     bm_colours := bm_colours b; bm_colour_table := bm_colour_table b;
     bm_limited_trans := bm_limited_trans b; bm_trans_colour := bm_trans_colour b;
     bm_reversed := bm_reversed b; bm_ico := bm_ico b; bm_opaque := bm_opaque b;
     bm_mask := bm_mask b; bm_shift := bm_shift b; bm_transparent_index := v |}.

(** What memset leaves. *)
Definition zero_bmp : bmp_image :=
  {| bm_data := 0; bm_width := 0; bm_height := 0; bm_decoded := false; bm_bitmap := None;
     bm_buffer_size := 0; bm_encoding := 0; bm_bitmap_offset := 0; bm_bpp := 0; bm_colours := 0;
     bm_colour_table := None; bm_limited_trans := false; bm_trans_colour := 0;
     bm_reversed := false; bm_ico := false; bm_opaque := false; bm_mask := [0; 0; 0; 0];
     bm_shift := [0; 0; 0; 0]; bm_transparent_index := 0 |}.

(** ** Computations on an image

    They yield a value, return early with a result, or fault. *)

Inductive bmp_outcome (A : Type) :=
  | Goes (a : A) (b : bmp_image)
  | Stops (r : bmp_result) (b : bmp_image)
  | Fault.
Arguments Goes {A}.
Arguments Stops {A}.
Arguments Fault {A}.

Definition decodes (A : Type) : Type := bmp_image -> bmp_outcome A.

Definition yields {A} (a : A) : decodes A := fun b => Goes a b.
Definition andthen {A C} (m : decodes A) (k : A -> decodes C) : decodes C := fun b =>
  match m b with
  | Goes a b => k a b
  | Stops r b => Stops r b
  | Fault => Fault
  end.
Definition stop {A} (r : bmp_result) : decodes A := fun b => Stops r b.
Definition view {A} (f : bmp_image -> A) : decodes A := fun b => Goes (f b) b.
Definition update (f : bmp_image -> bmp_image) : decodes unit := fun b => Goes tt (f b).
Definition sound {A} (o : option A) : decodes A := fun b =>
  match o with Some a => Goes a b | None => Fault end.
Definition bmp_assert (c : bool) : decodes unit := sound (if c then Some tt else None).

(** [res = f(bmp)] *)
Definition result_of (m : decodes bmp_result) (b : bmp_image) : option (bmp_result * bmp_image) :=
  match m b with
  | Goes r b | Stops r b => Some (r, b)
  | Fault => None
  end.

Declare Scope bmp_scope.
Delimit Scope bmp_scope with bmp.
Notation "'let*' x ':=' m 'in' k" := (andthen m (fun x => k))
  (at level 10, x pattern, m at level 100, k at level 200) : bmp_scope.
Notation "'do*' m 'in' k" := (andthen m (fun _ => k))
  (at level 10, m at level 100, k at level 200) : bmp_scope.
Open Scope bmp_scope.

(** [for (i = first; i < first + n; i++)], the loop's variables in [a]. *)
Fixpoint for_loop {A} (n : nat) (i : Z) (body : Z -> A -> decodes A) (a : A) : decodes A :=
  match n with
  | O => yields a
  | S n => let* a := body i a in for_loop n (i + 1) body a
  end.

(** ** Reading the file *)

Section Bmp.
Context (mem : bytes) (base : Z).
Context (malloc_ok : Z -> bool).
Context (bitmap_create : Z -> Z -> Z -> option (list Z)) (bitmap_get_buffer : list Z -> bool).

Definition octet_at (o : Z) : decodes Z := sound (znth mem o).
Definition read_uint8 (data o : Z) : decodes Z := octet_at (data + o).
Definition read_uint16 (data o : Z) : decodes Z :=
  let* a := octet_at (data + o) in
  let* b := octet_at (data + (o + 1)) in
  yields (u16 (Z.lor a (Z.shiftl b 8))).
Definition read_int16 (data o : Z) : decodes Z :=
  let* a := octet_at (data + o) in
  let* b := octet_at (data + (o + 1)) in
  yields (s16 (Z.lor a (Z.shiftl b 8))).

(** The word that four octets are. *)
Definition word_of (a b c d : Z) : Z :=
  u32 (Z.lor (Z.lor (Z.lor a (u32 (Z.shiftl b 8))) (u32 (Z.shiftl c 16))) (u32 (Z.shiftl d 24))).
Definition read_uint32 (data o : Z) : decodes Z :=
  let* a := octet_at (data + o) in
  let* b := octet_at (data + (o + 1)) in
  let* c := octet_at (data + (o + 2)) in
  let* d := octet_at (data + (o + 3)) in
  yields (word_of a b c d).
Definition read_int32 (data o : Z) : decodes Z :=
  let* x := read_uint32 data o in yields (s32 x).

(** [read_uint32((uint8_t * )&x, 0)] *)
Definition reread (x : Z) : Z :=
  word_of (Z.land x 0xFF) (Z.land (Z.shiftr x 8) 0xFF) (Z.land (Z.shiftr x 16) 0xFF)
    (Z.land (Z.shiftr x 24) 0xFF).

(** [data[2] | (data[1] << 8) | (data[0] << 16)] *)
Definition read_colour (data : Z) : decodes Z :=
  let* r := octet_at (data + 2) in
  let* g := octet_at (data + 1) in
  let* b := octet_at data in
  yields (Z.lor (Z.lor r (Z.shiftl g 8)) (Z.shiftl b 16)).

Definition opaque_bits : Z := Z.shiftl 0xFF 24.

(** ** The header *)

(** The width and height that the header says, [minus] being how it negates a
    height. *)
Definition set_dimensions (minus : Z -> Z) (width height : Z) : decodes unit :=
  if (width <=? 0) || (height =? 0) then stop BMP_DATA_ERROR else
  do* (if height <? 0 then update (set_bm_reversed true) else yields tt) in
  let height := if height <? 0 then minus height else height in
  let* ico := view bm_ico in
  if ico : bool then
    if (256 <? width) || (512 <? height) then stop BMP_DATA_ERROR
    else update (fun b => set_bm_height (height / 2) (set_bm_width width b))
  else update (fun b => set_bm_height height (set_bm_width width b)).

Definition default_colours : decodes unit :=
  update (fun b => set_bm_colours (Z.shiftl 1 (bm_bpp b)) b).

Definition rgb_bpp (bpp : Z) : bool :=
  (bpp =? 1) || (bpp =? 4) || (bpp =? 8) || (bpp =? 16) || (bpp =? 24) || (bpp =? 32).

(** OS/2 and Windows 2: it yields the size of a palette entry. *)
Definition core_header (data : Z) : decodes Z :=
  let* width := read_int16 data 4 in
  let* height := read_int16 data 6 in
  do* set_dimensions Z.opp width height in
  let* planes := read_uint16 data 8 in
  if negb (planes =? 1) then stop BMP_DATA_ERROR else
  let* bpp := read_uint16 data 10 in
  do* update (set_bm_bpp bpp) in
  if negb (rgb_bpp bpp) then stop BMP_DATA_ERROR else
  do* (if bpp <? 16 then default_colours else yields tt) in
  yields 3.

(** The highest bit of a mask above bit 0, from [j] down. *)
Fixpoint high_bit (j : nat) (mask : Z) : option Z :=
  match j with
  | O => None
  | S n => if Z.testbit mask (Z.of_nat j) then Some (Z.of_nat j) else high_bit n mask
  end.

(** A mask is cut to eight bits; the shift puts them in their place. *)
Definition align_mask (i mask shift : Z) : Z * Z :=
  match high_bit 31 mask with
  | None => (mask, shift)
  | Some j =>
      (Z.land mask (if 0 <? j - 7 then u32 (Z.shiftl 0xFF (j - 7)) else Z.shiftr 0xFF (- (j - 7))),
       Z.shiftl i 3 - (j - 7))
  end.

(** [for (i = 0; i < 4; i++)], up to the first empty mask. *)
Fixpoint align_masks (i : Z) (masks shifts : list Z) : list Z * list Z :=
  match masks, shifts with
  | m :: ms, s :: ss =>
      if m =? 0 then (masks, shifts) else
      let r := align_masks (i + 1) ms ss in
      let a := align_mask i m s in
      (a.1 :: r.1, a.2 :: r.2)
  | _, _ => (masks, shifts)
  end.

Definition legal_encoding (encoding bpp : Z) : bool :=
  if encoding =? BMP_ENCODING_RGB then rgb_bpp bpp
  else if encoding =? BMP_ENCODING_RLE8 then bpp =? 8
  else if encoding =? BMP_ENCODING_RLE4 then bpp =? 4
  else if encoding =? BMP_ENCODING_BITFIELDS then (bpp =? 16) || (bpp =? 32)
  else false.

(** The masks of the channels; it yields the size of the header with them. *)
Definition bitfields (data header_size : Z) : decodes Z :=
  let set_mask (i : Z) (_ : unit) :=
    let* m := read_uint32 data (40 + Z.shiftl i 2) in
    update (fun b => set_bm_mask (<[Z.to_nat i := m]> (bm_mask b)) b) in
  let* b := view (fun b => b) in
  let* header_size :=
    (if header_size =? 40 then
       let header_size := u32 (header_size + 12) in
       if bm_buffer_size b <? u32 (14 + header_size) then stop BMP_INSUFFICIENT_DATA else
       do* for_loop 3 0 set_mask tt in yields header_size
     else if header_size <? 56 then stop BMP_INSUFFICIENT_DATA
     else do* for_loop 4 0 set_mask tt in yields header_size) in
  do* update (fun b =>
    let r := align_masks 0 (bm_mask b) (bm_shift b) in
    set_bm_shift r.2 (set_bm_mask r.1 b)) in
  yields header_size.

(** Windows 3 and later: it yields the size of the header too. *)
Definition info_header (data header_size : Z) : decodes (Z * Z) :=
  let* width := read_int32 data 4 in
  let* height := read_int32 data 8 in
  do* set_dimensions (fun h => if h <=? - INT32_MAX then INT32_MAX else - h) width height in
  let* planes := read_uint16 data 12 in
  if negb (planes =? 1) then stop BMP_DATA_ERROR else
  let* bpp := read_uint16 data 14 in
  let bpp := if bpp =? 0 then 8 else bpp in
  do* update (set_bm_bpp bpp) in
  let* encoding := read_uint32 data 16 in
  do* update (set_bm_encoding encoding) in
  if negb (legal_encoding encoding bpp) then stop BMP_DATA_ERROR else
  let* header_size :=
    (if encoding =? BMP_ENCODING_BITFIELDS then bitfields data header_size
     else yields header_size) in
  let* colours := read_uint32 data 32 in
  do* update (set_bm_colours colours) in
  do* (if (colours =? 0) && (bpp <? 16) then default_colours else yields tt) in
  yields (header_size, 4).

(** The colours of the palette, and the pointer past it. *)
Definition read_palette (colours palette_size : Z) (opaque : bool) (data : Z)
  : decodes (list Z * Z) :=
  for_loop (Z.to_nat colours) 0 (fun _ '(table, data) =>
    let* colour := read_colour data in
    let colour := if opaque then Z.lor colour opaque_bits else colour in
    yields (table ++ [reread colour], data + palette_size)) ([], data).

Definition palette (data header_size palette_size : Z) : decodes Z :=
  let* b := view (fun b => b) in
  if bm_buffer_size b <? u32 (14 + header_size) + 4 * bm_colours b then stop BMP_INSUFFICIENT_DATA else
  if negb (malloc_ok (u32 (bm_colours b * 4))) then
    do* update (set_bm_colour_table None) in stop BMP_INSUFFICIENT_MEMORY
  else
    let* (table, data) := read_palette (bm_colours b) palette_size (bm_opaque b) data in
    do* update (set_bm_colour_table (Some table)) in
    do* (if (bm_bitmap_offset b <? u32 (data - bm_data b)) &&
            (0 <? bm_buffer_size b - (data - bm_data b))
         then update (set_bm_bitmap_offset (u32 (data - bm_data b))) else yields tt) in
    yields data.

Definition bmp_info_header_parse (data : Z) : decodes bmp_result :=
  let* size := view bm_buffer_size in
  if size <? BMP_FILE_HEADER_SIZE + BITMAPCOREHEADER then stop BMP_INSUFFICIENT_DATA else
  let* header_size := read_uint32 data 0 in
  if u32 (size - BMP_FILE_HEADER_SIZE) <? header_size then stop BMP_INSUFFICIENT_DATA else
  let* (header_size, palette_size) :=
    (if header_size =? BITMAPCOREHEADER then
       let* palette_size := core_header data in yields (header_size, palette_size)
     else if header_size <? 40 then stop BMP_DATA_ERROR
     else info_header data header_size) in
  let data := data + header_size in
  let* solid := view (fun b => negb (bm_ico b) && (default 0 (bm_mask b !! 3%nat) =? 0)) in
  do* (if solid : bool then update (set_bm_opaque true) else yields tt) in
  let flags := if solid then BMP_OPAQUE else 0 in
  let* bpp := view bm_bpp in
  let* data := (if bpp <? 16 then palette data header_size palette_size else yields data) in
  let flags := Z.lor flags (Z.lor BMP_NEW BMP_CLEAR_MEMORY) in
  let* b := view (fun b => b) in
  let bitmap := bitmap_create (s32 (bm_width b)) (s32 (bm_height b)) flags in
  do* update (set_bm_bitmap bitmap) in
  match bitmap with
  | None => do* update (set_bm_colour_table None) in stop BMP_INSUFFICIENT_MEMORY
  | Some _ =>
      do* (if bm_ico b then update (set_bm_bitmap_offset (u32 (data - bm_data b))) else yields tt) in
      yields BMP_OK
  end.

Definition bmp_file_header_parse (data : Z) : decodes bmp_result :=
  let* size := view bm_buffer_size in
  if size <? BMP_FILE_HEADER_SIZE then stop BMP_INSUFFICIENT_DATA else
  let* b0 := octet_at data in
  if negb (b0 =? 0x42) then stop BMP_DATA_ERROR else
  let* b1 := octet_at (data + 1) in
  if negb (b1 =? 0x4D) then stop BMP_DATA_ERROR else
  let* offset := read_uint32 data 10 in
  do* update (set_bm_bitmap_offset offset) in
  if size <=? offset then stop BMP_INSUFFICIENT_DATA else yields BMP_OK.

(** ** The pixels *)

(** A pointer to a pixel is an offset in octets. *)
Definition pixel_at (px : list Z) (o : Z) : option Z := if o mod 4 =? 0 then znth px (o / 4) else None.

Definition load (o : Z) : decodes Z :=
  let* bitmap := view bm_bitmap in
  sound (px ← bitmap; pixel_at px o).

Definition store (o v : Z) : decodes unit :=
  let* bitmap := view bm_bitmap in
  do* sound (px ← bitmap; pixel_at px o) in
  update (set_bm_bitmap ((fun px => <[Z.to_nat (o / 4) := v]> px) <$> bitmap)).

(** [scanline[x]] *)
Definition cell (scanline x : Z) : Z := scanline + 4 * x.

Definition swidth (b : bmp_image) : Z := u32 (4 * bm_width b).
Definition bottom (b : bmp_image) : Z := swidth b * u32 (bm_height b - 1).

(** The scanline of row [y]: from the top, or from the bottom. *)
Definition scanline_of (b : bmp_image) (y : Z) : Z :=
  if bm_reversed b then u32 (y * swidth b) else bottom b - u32 (y * swidth b).

(** The pixels are asked for; then the image counts as decoded. *)
Definition get_buffer : decodes unit :=
  let* bitmap := view bm_bitmap in
  if default false (bitmap_get_buffer <$> bitmap) then yields tt else stop BMP_INSUFFICIENT_MEMORY.
Definition get_buffer_decoded : decodes unit := do* get_buffer in update (set_bm_decoded true).

(** [if (data + n > end) return BMP_INSUFFICIENT_DATA] *)
Definition need (data n stop_at : Z) : decodes unit :=
  if stop_at <? data + n then stop BMP_INSUFFICIENT_DATA else yields tt.

(** [while (addr != (((intptr_t) data) & 3)) data += step] *)
Fixpoint skip_padding (n : nat) (step addr data : Z) : decodes Z :=
  if addr =? Z.land (base + data) 3 then yields data else
  match n with
  | O => fun _ => Fault
  | S n => skip_padding n step addr (data + step)
  end.

(** The channels of [word], put together. *)
Definition blend (word : Z) (masks shifts : list Z) (acc : Z) : Z :=
  fold_left (fun v ms =>
    Z.lor v (if 0 <? ms.2 then u32 (Z.shiftl (Z.land word ms.1) ms.2)
             else Z.shiftr (Z.land word ms.1) (- ms.2))) (zip masks shifts) acc.

(** ** The decoders: each yields the pointer past what it has read *)

Definition rgb32_bitfields_pixel (scanline x data : Z) : decodes Z :=
  let* b := view (fun b => b) in
  let* word := read_uint32 data 0 in
  let* v := load (cell scanline x) in
  let v := blend word (bm_mask b) (bm_shift b) v in
  let v := if bm_opaque b then Z.lor v opaque_bits else v in
  do* store (cell scanline x) (reread v) in
  yields (data + 4).

Definition rgb32_pixel (scanline x data : Z) : decodes Z :=
  let* b := view (fun b => b) in
  let* v := read_colour data in
  let v := if bm_limited_trans b && (v =? bm_transparent_index b) then bm_trans_colour b else v in
  let* v :=
    (if bm_opaque b then yields (Z.lor v opaque_bits)
     else let* alpha := octet_at (data + 3) in yields (Z.lor v (Z.shiftl alpha 24))) in
  do* store (cell scanline x) (reread v) in
  yields (data + 4).

Definition bmp_decode_rgb32 (start bytes : Z) : decodes Z :=
  let* b := view (fun b => b) in
  do* bmp_assert (bm_bpp b =? 32) in
  do* get_buffer_decoded in
  let stop_at := start + bytes in
  do* (if bm_limited_trans b then
         do* need start 4 stop_at in
         let* v := (if bm_encoding b =? BMP_ENCODING_BITFIELDS then read_uint32 start 0
                    else read_colour start) in
         update (set_bm_transparent_index v)
       else yields tt) in
  for_loop (Z.to_nat (bm_height b)) 0 (fun y data =>
    do* need data (u32 (4 * bm_width b)) stop_at in
    for_loop (Z.to_nat (bm_width b)) 0 (fun x data =>
      if bm_encoding b =? BMP_ENCODING_BITFIELDS
      then rgb32_bitfields_pixel (scanline_of b y) x data
      else rgb32_pixel (scanline_of b y) x data) data) start.

Definition rgb24_pixel (scanline x data : Z) : decodes Z :=
  let* b := view (fun b => b) in
  let* v := read_colour data in
  let v := if bm_limited_trans b && (v =? bm_transparent_index b) then bm_trans_colour b
           else Z.lor v opaque_bits in
  do* store (cell scanline x) (reread v) in
  yields (data + 3).

Definition bmp_decode_rgb24 (start bytes : Z) : decodes Z :=
  let* b := view (fun b => b) in
  do* bmp_assert (bm_encoding b =? BMP_ENCODING_RGB) in
  do* bmp_assert (bm_bpp b =? 24) in
  do* get_buffer_decoded in
  let stop_at := start + bytes in
  let addr := Z.land (base + start) 3 in
  do* (if bm_limited_trans b then
         do* need start 3 stop_at in
         let* v := read_colour start in update (set_bm_transparent_index v)
       else yields tt) in
  for_loop (Z.to_nat (bm_height b)) 0 (fun y data =>
    do* need data (u32 (3 * bm_width b)) stop_at in
    let* data := for_loop (Z.to_nat (bm_width b)) 0 (rgb24_pixel (scanline_of b y)) data in
    skip_padding 3 1 addr data) start.

Definition rgb16_bitfields_pixel (scanline x data : Z) : decodes Z :=
  let* b := view (fun b => b) in
  let* word := read_uint16 data 0 in
  let v :=
    if bm_limited_trans b && (word =? bm_transparent_index b) then bm_trans_colour b
    else let v := blend word (bm_mask b) (bm_shift b) 0 in
         if bm_opaque b then Z.lor v opaque_bits else v in
  do* store (cell scanline x) (reread v) in
  yields (data + 2).

(** RGB555 *)
Definition rgb16_pixel (scanline x data : Z) : decodes Z :=
  let* b := view (fun b => b) in
  let* word := read_uint16 data 0 in
  let v :=
    if bm_limited_trans b && (word =? bm_transparent_index b) then bm_trans_colour b
    else Z.lor (Z.lor (Z.shiftl (Z.land word (Z.shiftl 31 0)) 19)
                  (Z.shiftl (Z.land word (Z.shiftl 31 5)) 6))
               (Z.shiftr (Z.land word (Z.shiftl 31 10)) 7) in
  let v := if bm_opaque b then Z.lor v opaque_bits else v in
  do* store (cell scanline x) (reread v) in
  yields (data + 2).

Definition bmp_decode_rgb16 (start bytes : Z) : decodes Z :=
  let* b := view (fun b => b) in
  do* get_buffer_decoded in
  let stop_at := start + bytes in
  let addr := Z.land (base + start) 3 in
  do* (if bm_limited_trans b then
         do* need start 2 stop_at in
         let* v := read_uint16 start 0 in update (set_bm_transparent_index v)
       else yields tt) in
  for_loop (Z.to_nat (bm_height b)) 0 (fun y data =>
    do* need data (u32 (2 * bm_width b)) stop_at in
    let* data := for_loop (Z.to_nat (bm_width b)) 0 (fun x data =>
      if bm_encoding b =? BMP_ENCODING_BITFIELDS
      then rgb16_bitfields_pixel (scanline_of b y) x data
      else rgb16_pixel (scanline_of b y) x data) data in
    skip_padding 3 2 addr data) start.

(** [bmp->colour_table[idx]] *)
Definition colour_of (idx : Z) : decodes Z :=
  let* table := view bm_colour_table in
  sound (t ← table; znth t idx).

(** A pixel of eight bits or fewer; [bit] counts those of the current octet
    that were taken. *)
Definition rgb_pixel (ppb : Z) (bit_shifts : list Z) (bit_mask scanline x : Z)
    (a : Z * Z * Z) : decodes (Z * Z * Z) :=
  let (bc, data) := a in
  let (bit, cur_byte) := bc : Z * Z in
  let* (bit, cur_byte, data) :=
    (if ppb <=? bit then let* c := octet_at data in yields (0, c, data + 1)
     else yields (bit, cur_byte, data)) in
  let* s := sound (znth bit_shifts bit) in
  let idx := Z.land (Z.shiftr cur_byte s) bit_mask in
  let* b := view (fun b => b) in
  do* (if idx <? bm_colours b then
         let* v := colour_of idx in
         store (cell scanline x)
           (if bm_limited_trans b && (v =? bm_transparent_index b) then bm_trans_colour b else v)
       else yields tt) in
  yields (bit + 1, cur_byte, data).

Definition bmp_decode_rgb (start bytes : Z) : decodes Z :=
  let* b := view (fun b => b) in
  do* bmp_assert (negb (bm_bpp b =? 0)) in
  let ppb := u8 (8 / bm_bpp b) in
  let bit_mask := u8 (Z.shiftl 1 (bm_bpp b) - 1) in
  do* bmp_assert (1 <=? ppb) in
  let bit_shifts := map (fun i => u8 (8 - (Z.of_nat i + 1) * bm_bpp b)) (List.seq 0 (Z.to_nat ppb)) in
  do* get_buffer_decoded in
  let stop_at := start + bytes in
  let addr := Z.land (base + start) 3 in
  do* (if bm_limited_trans b then
         let* c := octet_at start in
         let* s := sound (znth bit_shifts 0) in
         let idx := Z.land (Z.shiftr c s) bit_mask in
         if bm_colours b <=? idx then stop BMP_DATA_ERROR else
         let* v := colour_of idx in update (set_bm_transparent_index v)
       else yields tt) in
  let* r := for_loop (Z.to_nat (bm_height b)) 0 (fun y '(cur_byte, data) =>
    do* need data (u32 (bm_width b + ppb - 1) / ppb) stop_at in
    let* (_, cur_byte, data) :=
      for_loop (Z.to_nat (bm_width b)) 0 (rgb_pixel ppb bit_shifts bit_mask (scanline_of b y))
        (8, cur_byte, data) in
    let* data := skip_padding 3 1 addr data in
    yields (cur_byte, data)) (0, start) in
  yields r.2.

(** The mask of an icon has a bit for each pixel; its rows go up. *)
Definition mask_pixel (scanline x : Z) (a : Z * Z) : decodes (Z * Z) :=
  let (cur_byte, data) := a in
  let* (cur_byte, data) :=
    (if Z.land x 7 =? 0 then let* c := octet_at data in yields (c, data + 1)
     else yields (cur_byte, data)) in
  let* v := load (cell scanline x) in
  let v := reread v in
  let v := if Z.land cur_byte 128 =? 0 then Z.lor v opaque_bits else Z.land v 0xFFFFFF in
  do* store (cell scanline x) (reread v) in
  yields (u32 (Z.shiftl cur_byte 1), data).

Definition bmp_decode_mask (start bytes : Z) : decodes bmp_result :=
  let* b := view (fun b => b) in
  do* get_buffer in
  let stop_at := start + bytes in
  let addr := Z.land (base + start) 3 in
  do* for_loop (Z.to_nat (bm_height b)) 0 (fun y '(cur_byte, data) =>
    do* need data (Z.shiftr (bm_width b) 3) stop_at in
    let* (cur_byte, data) :=
      for_loop (Z.to_nat (bm_width b)) 0
        (mask_pixel (bottom b - u32 (y * swidth b))) (cur_byte, data) in
    let* data := skip_padding 3 1 addr data in
    yields (cur_byte, data)) (0, start) in
  yields BMP_OK.

(** ** Run-length encoding *)

(** Where the next pixel goes: [scanline] is that of row [y]. *)
Record cursor := { cu_x : Z; cu_y : Z; cu_scanline : Z }.

(** [if (x >= bmp->width)]: on to the next row. *)
Definition wrap_line (c : cursor) : decodes cursor :=
  let* b := view (fun b => b) in
  if bm_width b <=? cu_x c then
    if bm_height b <=? u32 (cu_y c + 1) then stop BMP_DATA_ERROR else
    yields {| cu_x := 0; cu_y := u32 (cu_y c + 1);
              cu_scanline := if bm_reversed b then cu_scanline c + 4 * bm_width b
                             else cu_scanline c - 4 * bm_width b |}
  else yields c.

(** [scanline[x++] = v] *)
Definition put_pixel (c : cursor) (v : Z) : decodes cursor :=
  do* store (cell (cu_scanline c) (cu_x c)) v in
  yields {| cu_x := u32 (cu_x c + 1); cu_y := cu_y c; cu_scanline := cu_scanline c |}.

Definition pixels_left (b : bmp_image) (x y : Z) : Z :=
  if bm_reversed b then u32 (u32 (u32 (bm_height b - y) * bm_width b) - x)
  else u32 (u32 (u32 (y + 1) * bm_width b) - x).

(** The variables of the loop. *)
Record rle_state := { rl_x : Z; rl_y : Z; rl_last_y : Z; rl_data : Z }.

(** 00 - 00: end of scanline *)
Definition rle_end_of_line (s : rle_state) : decodes rle_state :=
  let* b := view (fun b => b) in
  let* y :=
    (if rl_last_y s =? rl_y s then
       if bm_height b <=? u32 (rl_y s + 1) then stop BMP_DATA_ERROR else yields (u32 (rl_y s + 1))
     else yields (rl_y s)) in
  yields {| rl_x := 0; rl_y := y; rl_last_y := y; rl_data := rl_data s |}.

(** 00 - 02 - XX - YY: move cursor *)
Definition rle_move (stop_at : Z) (s : rle_state) : decodes rle_state :=
  let* b := view (fun b => b) in
  do* need (rl_data s) 2 stop_at in
  let* dx := octet_at (rl_data s) in
  let x := u32 (rl_x s + dx) in
  if bm_width b <=? x then stop BMP_DATA_ERROR else
  let* dy := octet_at (rl_data s + 1) in
  let y := u32 (rl_y s + dy) in
  if bm_height b <=? y then stop BMP_DATA_ERROR else
  yields {| rl_x := x; rl_y := y; rl_last_y := rl_last_y s; rl_data := rl_data s + 2 |}.

Definition rle_cursor (b : bmp_image) (s : rle_state) : cursor :=
  {| cu_x := rl_x s; cu_y := rl_y s; cu_scanline := scanline_of b (rl_y s) |}.
Definition rle_at (c : cursor) (last_y data : Z) : rle_state :=
  {| rl_x := cu_x c; rl_y := cu_y c; rl_last_y := last_y; rl_data := data |}.

(** [if (length > pixels_left) length = pixels_left] *)
Definition cut_length (b : bmp_image) (s : rle_state) (length : Z) : Z :=
  let left := pixels_left b (rl_x s) (rl_y s) in if left <? length then left else length.

(** [if ((length & 1) && ( *data++ != 0x00)) return BMP_DATA_ERROR] *)
Definition rle_pad (length data : Z) : decodes Z :=
  if Z.land length 1 =? 0 then yields data else
  let* c := octet_at data in
  if negb (c =? 0) then stop BMP_DATA_ERROR else yields (data + 1).

(** [do { ... } while (data < end)], a turn being [command first second]. *)
Fixpoint rle_loop (fuel : nat) (stop_at : Z) (turn : Z -> rle_state -> decodes rle_state)
    (escape : Z -> rle_state -> decodes rle_state) (s : rle_state) : decodes bmp_result :=
  match fuel with
  | O => fun _ => Fault
  | S fuel =>
      do* need (rl_data s) 2 stop_at in
      let* length := octet_at (rl_data s) in
      let advance n := {| rl_x := rl_x s; rl_y := rl_y s; rl_last_y := rl_last_y s;
                          rl_data := rl_data s + n |} in
      let next s := if rl_data s <? stop_at then rle_loop fuel stop_at turn escape s
                    else yields BMP_OK in
      if length =? 0 then
        let* length := octet_at (rl_data s + 1) in
        if length =? 0 then let* s := rle_end_of_line (advance 2) in next s
        else if length =? 1 then yields BMP_OK
        else if length =? 2 then let* s := rle_move stop_at (advance 2) in next s
        else let* s := escape length (advance 2) in next s
      else let* s := turn length (advance 1) in next s
  end.

Definition bmp_decode_rle (turn escape : Z -> Z -> rle_state -> decodes rle_state)
    (data bytes : Z) : decodes bmp_result :=
  let* b := view (fun b => b) in
  if bm_ico b then stop BMP_DATA_ERROR else
  do* get_buffer_decoded in
  let stop_at := data + bytes in
  rle_loop (S (Z.to_nat bytes)) stop_at (turn stop_at) (escape stop_at)
    {| rl_x := 0; rl_y := 0; rl_last_y := 0; rl_data := data |}.

(** 00 - NN: NN pixels as they are *)
Definition rle8_escape (stop_at length : Z) (s : rle_state) : decodes rle_state :=
  let* b := view (fun b => b) in
  let length := cut_length b s length in
  do* need (rl_data s) length stop_at in
  let* (c, data) :=
    for_loop (Z.to_nat length) 0 (fun _ '(c, data) =>
      let* idx := octet_at data in
      let* c := wrap_line c in
      if bm_colours b <=? idx then stop BMP_DATA_ERROR else
      let* v := colour_of idx in
      let* c := put_pixel c v in
      yields (c, data + 1)) (rle_cursor b s, rl_data s) in
  let* data := rle_pad length data in
  yields (rle_at c (rl_last_y s) data).

(** NN: the same pixel NN times *)
Definition rle8_run (stop_at length : Z) (s : rle_state) : decodes rle_state :=
  let* b := view (fun b => b) in
  let length := cut_length b s length in
  do* need (rl_data s) 1 stop_at in
  let* idx := octet_at (rl_data s) in
  if bm_colours b <=? idx then stop BMP_DATA_ERROR else
  let* pixel := colour_of idx in
  let* c :=
    for_loop (Z.to_nat length) 0 (fun _ c =>
      let* c := wrap_line c in put_pixel c pixel) (rle_cursor b s) in
  yields (rle_at c (rl_last_y s) (rl_data s + 1)).

Definition bmp_decode_rle8 (data bytes : Z) : decodes bmp_result :=
  bmp_decode_rle rle8_run rle8_escape data bytes.

(** Two pixels in an octet *)
Definition rle4_escape (stop_at length : Z) (s : rle_state) : decodes rle_state :=
  let* b := view (fun b => b) in
  let length := cut_length b s length in
  do* need (rl_data s) (u32 (length + 1) / 2) stop_at in
  let* (c, _, data) :=
    for_loop (Z.to_nat length) 0 (fun i '(c, pixel, data) =>
      let* c := wrap_line c in
      let* (pixel, data) :=
        (if Z.land i 1 =? 0 then let* p := octet_at data in yields (p, data + 1)
         else yields (pixel, data)) in
      let idx := if Z.land i 1 =? 0 then Z.shiftr pixel 4 else Z.land pixel 0xF in
      if bm_colours b <=? idx then stop BMP_DATA_ERROR else
      let* v := colour_of idx in
      let* c := put_pixel c v in
      yields (c, pixel, data)) (rle_cursor b s, 0, rl_data s) in
  let* data := rle_pad (Z.shiftr (u32 (length + 1)) 1) data in
  yields (rle_at c (rl_last_y s) data).

Definition rle4_run (stop_at length : Z) (s : rle_state) : decodes rle_state :=
  let* b := view (fun b => b) in
  let length := cut_length b s length in
  do* need (rl_data s) 1 stop_at in
  let* pixel2 := octet_at (rl_data s) in
  if (bm_colours b <=? Z.shiftr pixel2 4) || (bm_colours b <=? Z.land pixel2 0xF)
  then stop BMP_DATA_ERROR else
  let* pixel := colour_of (Z.shiftr pixel2 4) in
  let* pixel2 := colour_of (Z.land pixel2 0xF) in
  let* c :=
    for_loop (Z.to_nat length) 0 (fun i c =>
      let* c := wrap_line c in
      put_pixel c (if Z.land i 1 =? 0 then pixel else pixel2)) (rle_cursor b s) in
  yields (rle_at c (rl_last_y s) (rl_data s + 1)).

Definition bmp_decode_rle4 (data bytes : Z) : decodes bmp_result :=
  bmp_decode_rle rle4_run rle4_escape data bytes.

(** ** The interface *)

Definition bmp_create : bmp_image := zero_bmp.

Definition bmp_analyse (size data : Z) : decodes bmp_result :=
  let* bitmap := view bm_bitmap in
  if bitmap then yields BMP_OK else
  do* update (fun b => set_bm_data data (set_bm_buffer_size (u32 size) b)) in
  let* res := fun b =>
    match bmp_file_header_parse data b with
    | Stops r b => Goes r b
    | r => r
    end in
  if bool_decide (res = BMP_OK)
  then bmp_info_header_parse (data + BMP_FILE_HEADER_SIZE)
  else yields res.

(** It yields the pointer past the pixels; [bytes] is an int. *)
Definition decode_pixels (data bytes : Z) : decodes Z :=
  let* b := view (fun b => b) in
  let rle m := let* r := m in if bool_decide (r = BMP_OK) then yields data else stop r in
  if bm_encoding b =? BMP_ENCODING_RGB then
    if bm_bpp b =? 32 then bmp_decode_rgb32 data bytes
    else if bm_bpp b =? 24 then bmp_decode_rgb24 data bytes
    else if bm_bpp b =? 16 then bmp_decode_rgb16 data bytes
    else bmp_decode_rgb data bytes
  else if bm_encoding b =? BMP_ENCODING_RLE8 then rle (bmp_decode_rle8 data bytes)
  else if bm_encoding b =? BMP_ENCODING_RLE4 then rle (bmp_decode_rle4 data bytes)
  else if bm_encoding b =? BMP_ENCODING_BITFIELDS then
    if bm_bpp b =? 32 then bmp_decode_rgb32 data bytes
    else if bm_bpp b =? 16 then bmp_decode_rgb16 data bytes
    else stop BMP_DATA_ERROR
  else yields data.

Definition bmp_decode : decodes bmp_result :=
  let* b := view (fun b => b) in
  do* bmp_assert (bool_decide (is_Some (bm_bitmap b))) in
  let* data := decode_pixels (bm_data b + bm_bitmap_offset b)
                 (s32 (u32 (bm_buffer_size b - bm_bitmap_offset b))) in
  if bm_ico b && negb (bm_bpp b =? 32)
  then bmp_decode_mask data (s32 (u32 (bm_data b + bm_buffer_size b - data)))
  else yields BMP_OK.

Definition bmp_decode_trans (colour : Z) : decodes bmp_result :=
  do* update (fun b => set_bm_trans_colour colour (set_bm_limited_trans true b)) in bmp_decode.

Definition bmp_finalise (b : bmp_image) : bmp_image :=
  set_bm_colour_table None (set_bm_bitmap None b).

(** ** Icons *)

(** The images of the linked list, the first one first. *)
Record ico_collection := {
  ic_width : Z;
  ic_height : Z;
  ic_data : Z;
  ic_buffer_size : Z;
  ic_images : list bmp_image
}.
Definition set_ic_images (l : list bmp_image) (i : ico_collection) : ico_collection :=
  {| ic_width := ic_width i; ic_height := ic_height i; ic_data := ic_data i;
     ic_buffer_size := ic_buffer_size i; ic_images := l |}.
Definition set_ic_size (w h : Z) (i : ico_collection) : ico_collection :=
  {| ic_width := w; ic_height := h; ic_data := ic_data i;
     ic_buffer_size := ic_buffer_size i; ic_images := ic_images i |}.

Definition ico_collection_create : ico_collection :=
  {| ic_width := 0; ic_height := 0; ic_data := 0; ic_buffer_size := 0; ic_images := [] |}.

Definition SIZEOF_ICO_IMAGE : Z := 168.

(** What an entry of the directory says, at [data], and the header it points to. *)
Definition ico_entry (ico_data ico_size data : Z) : decodes bmp_result :=
  let* w := read_uint8 data 0 in
  do* update (set_bm_width (if w =? 0 then 256 else w)) in
  let* h := read_uint8 data 1 in
  do* update (set_bm_height (if h =? 0 then 256 else h)) in
  let* size := read_uint32 data 8 in
  do* update (set_bm_buffer_size size) in
  let* offset := read_uint32 data 12 in
  let bmp_data := ico_data + offset in
  do* update (set_bm_data bmp_data) in
  if ico_data + ico_size <? bmp_data + size then stop BMP_INSUFFICIENT_DATA else
  do* update (set_bm_ico true) in
  let data := data + ICO_DIR_ENTRY_SIZE in
  if (0 <=? bmp_data - ico_data) && (ico_size <=? u32 (bmp_data - ico_data))
  then stop BMP_DATA_ERROR else
  if ico_size - (ico_data - data) <=? u32 (size - ICO_DIR_ENTRY_SIZE)
  then stop BMP_INSUFFICIENT_DATA else
  bmp_info_header_parse bmp_data.

(** [n] entries more, from [data] on. *)
Fixpoint ico_entries (n : nat) (data max_area : Z) (ico : ico_collection)
  : option (bmp_result * ico_collection) :=
  match n with
  | O => Some (BMP_OK, ico)
  | S n =>
      if negb (malloc_ok SIZEOF_ICO_IMAGE) then Some (BMP_INSUFFICIENT_MEMORY, ico) else
      '(result, image) ← result_of (ico_entry (ic_data ico) (ic_buffer_size ico) data) bmp_create;
      let ico := set_ic_images (image :: ic_images ico) ico in
      if bool_decide (result = BMP_OK) then
        let area := s32 (u32 (bm_width image * bm_height image)) in
        if max_area <? area
        then ico_entries n (data + ICO_DIR_ENTRY_SIZE) area
               (set_ic_size (u16 (bm_width image)) (u16 (bm_height image)) ico)
        else ico_entries n (data + ICO_DIR_ENTRY_SIZE) max_area ico
      else Some (result, ico)
  end.

(** Reading outside the image that is being made. *)
Definition peek16 (data : Z) : option Z :=
  a ← znth mem data; b ← znth mem (data + 1); Some (u16 (Z.lor a (Z.shiftl b 8))).

Definition ico_header_parse (data : Z) (ico : ico_collection) : option (bmp_result * ico_collection) :=
  if ic_buffer_size ico <? ICO_FILE_HEADER_SIZE then Some (BMP_INSUFFICIENT_DATA, ico) else
  type ← peek16 (data + 2);
  if negb (type =? 1) then Some (BMP_DATA_ERROR, ico) else
  count ← peek16 (data + 4);
  if count =? 0 then Some (BMP_DATA_ERROR, ico) else
  if ic_buffer_size ico <? u32 (ICO_FILE_HEADER_SIZE + ICO_DIR_ENTRY_SIZE * count)
  then Some (BMP_INSUFFICIENT_DATA, ico) else
  ico_entries (Z.to_nat count) (data + ICO_FILE_HEADER_SIZE) 0 ico.

Definition ico_analyse (size data : Z) (ico : ico_collection) : option (bmp_result * ico_collection) :=
  match ic_images ico with
  | _ :: _ => Some (BMP_OK, ico)
  | [] =>
      ico_header_parse data
        {| ic_width := ic_width ico; ic_height := ic_height ico; ic_data := data;
           ic_buffer_size := u32 size; ic_images := [] |}
  end.

(** A signed result that does not fit is undefined. *)
Definition int_of (v : Z) : option Z :=
  if (- 2 ^ 31 <=? v) && (v <? 2 ^ 31) then Some v else None.

(** The image that has the size asked for, or the nearest to it. *)
Fixpoint nearest (images : list bmp_image) (width height distance : Z) (found : option bmp_image)
  : option (option bmp_image) :=
  match images with
  | [] => Some found
  | image :: images =>
      if (bm_width image =? width) && (bm_height image =? height) then Some (Some image) else
      let x := s32 (u32 (bm_width image - width)) in
      let y := s32 (u32 (bm_height image - height)) in
      xx ← int_of (x * x); yy ← int_of (y * y); cur ← int_of (xx + yy);
      if cur <? distance then nearest images width height cur (Some image)
      else nearest images width height distance found
  end.

Definition ico_find (ico : ico_collection) (width height : Z) : option (option bmp_image) :=
  nearest (ic_images ico) (if width =? 0 then ic_width ico else width)
    (if height =? 0 then ic_height ico else height) (Z.shiftl 1 24) None.

Definition ico_finalise (ico : ico_collection) : ico_collection := set_ic_images [] ico.
End Bmp.
