(* ===== verification/BmpSafe.v ===== *)
(** * BmpSafe: the decoders of Bmp.v stay within the file and the bitmap.

    [decodable] is what analysing a bitmap establishes and decoding keeps.  The
    decoders read no further than the octets they are given, but for the one
    octet that [overread] counts. *)
From S2P Require Import Prelude Bmp.

(** ** Rules *)

Definition bwp {A} (m : decodes A) (Q : A -> bmp_image -> Prop)
    (E : bmp_result -> bmp_image -> Prop) (b : bmp_image) : Prop :=
  match m b with
  | Goes a b => Q a b
  | Stops r b => E r b
  | Fault => False
  end.

Section Rules.
Context {A : Type}.
Implicit Types (Q : A -> bmp_image -> Prop) (E : bmp_result -> bmp_image -> Prop).

Lemma bwp_mono (m : decodes A) Q Q' E E' b :
  bwp m Q E b -> (forall a b', Q a b' -> Q' a b') -> (forall r b', E r b' -> E' r b') -> bwp m Q' E' b.
Proof. unfold bwp. destruct (m b); auto. Qed.

Lemma bwp_bind {C} (m : decodes C) (k : C -> decodes A) Q E b :
  bwp m (fun a => bwp (k a) Q E) E b -> bwp (andthen m k) Q E b.
Proof. unfold bwp, andthen. by destruct (m b). Qed.

Lemma bwp_yields (a : A) Q E b : Q a b -> bwp (yields a) Q E b.
Proof. done. Qed.

Lemma bwp_stop r Q E b : E r b -> bwp (stop r) Q E b.
Proof. done. Qed.

Lemma bwp_view {C} (f : bmp_image -> C) (k : C -> decodes A) Q E b :
  bwp (k (f b)) Q E b -> bwp (andthen (view f) k) Q E b.
Proof. done. Qed.

Lemma bwp_update f (k : unit -> decodes A) Q E b :
  bwp (k tt) Q E (f b) -> bwp (andthen (update f) k) Q E b.
Proof. done. Qed.

Lemma bwp_sound {C} (o : option C) c (k : C -> decodes A) Q E b :
  o = Some c -> bwp (k c) Q E b -> bwp (andthen (sound o) k) Q E b.
Proof. by intros ->. Qed.

Lemma bwp_assert c (k : unit -> decodes A) Q E b :
  c = true -> bwp (k tt) Q E b -> bwp (andthen (bmp_assert c) k) Q E b.
Proof. by intros ->. Qed.

Lemma bwp_run (m : decodes bmp_result) (Q : bmp_result -> bmp_image -> Prop) b :
  bwp m Q Q b -> exists r b', result_of m b = Some (r, b') /\ Q r b'.
Proof. unfold bwp, result_of. destruct (m b); naive_solver. Qed.

(** A loop keeps an invariant. *)
Lemma bwp_for (I : Z -> A -> bmp_image -> Prop) n i (body : Z -> A -> decodes A) a Q E b :
  I i a b ->
  (forall j a b, i <= j < i + Z.of_nat n -> I j a b -> bwp (body j a) (I (j + 1)) E b) ->
  (forall a b, I (i + Z.of_nat n) a b -> Q a b) ->
  bwp (for_loop n i body a) Q E b.
Proof.
  revert i a b. induction n as [|n IH]; intros i a b Hi Hb HQ; cbn [for_loop].
  - apply bwp_yields, HQ. by rewrite Z.add_0_r.
  - apply bwp_bind. eapply bwp_mono; [apply Hb; [lia|done]| |auto].
    intros a' b' H. apply (IH (i + 1)); [done|intros; apply Hb; [lia|done]|].
    intros ? ? H'. apply HQ. by replace (i + Z.of_nat (S n)) with (i + 1 + Z.of_nat n) by lia.
Qed.

Lemma bwp_upto (I : Z -> A -> bmp_image -> Prop) n (body : Z -> A -> decodes A) a Q E b :
  0 <= n -> I 0 a b ->
  (forall j a b, 0 <= j < n -> I j a b -> bwp (body j a) (I (j + 1)) E b) ->
  (forall a b, I n a b -> Q a b) ->
  bwp (for_loop (Z.to_nat n) 0 body a) Q E b.
Proof.
  intros Hn H0 Hb HQ. apply (bwp_for I); [done| |]; rewrite Z.add_0_l, Z2Nat.id by done; auto.
Qed.
End Rules.

(** Run the setters away. *)
Ltac bm_cbn := cbn [set_bm_data set_bm_width set_bm_height set_bm_decoded set_bm_bitmap
  set_bm_buffer_size set_bm_encoding set_bm_bitmap_offset set_bm_bpp set_bm_colours
  set_bm_colour_table set_bm_limited_trans set_bm_trans_colour set_bm_reversed set_bm_ico
  set_bm_opaque set_bm_mask set_bm_shift set_bm_transparent_index bm_data bm_width bm_height
  bm_decoded bm_bitmap bm_buffer_size bm_encoding bm_bitmap_offset bm_bpp bm_colours
  bm_colour_table bm_limited_trans bm_trans_colour bm_reversed bm_ico bm_opaque bm_mask bm_shift
  bm_transparent_index] in *.

Lemma bmp_u32_range x : 0 <= u32 x < 2 ^ 32.
Proof. unfold u32. by apply Z.mod_pos_bound. Qed.

Lemma s32_le x : - 2 ^ 31 <= x -> s32 x <= x.
Proof.
  intros Hx. unfold s32, u32. pose proof (Z.mod_pos_bound x (2 ^ 32) ltac:(lia)).
  pose proof (Z.div_mod x (2 ^ 32) ltac:(lia)). destruct (Z.ltb_spec (x mod 2 ^ 32) (2 ^ 31)); nia.
Qed.

Lemma s32_u32_le x : - 2 ^ 31 <= x -> s32 (u32 x) <= x.
Proof.
  intros Hx. unfold s32, u32. rewrite Zmod_mod. pose proof (s32_le x Hx) as H. exact H.
Qed.

Lemma land_3 x : Z.land x 3 = x mod 4.
Proof. change 3 with (Z.ones 2). by rewrite Z.land_ones. Qed.

(** Eight bits hold [ppb] pixels of [bpp] bits. *)
Definition packed bpp ppb : Prop := bpp = 1 /\ ppb = 8 \/ bpp = 4 /\ ppb = 2 \/ bpp = 8 /\ ppb = 1.

(** After [x] pixels of a row that starts at [d]. *)
Definition unpacked ppb d x (a : Z * Z * Z) : Prop :=
  a.2 = d + (x + ppb - 1) / ppb /\ a.1.1 = if x =? 0 then 8 else (x - 1) mod ppb + 1.

Lemma unpacked_step bpp ppb d x a :
  packed bpp ppb -> 0 <= x -> unpacked ppb d x a ->
  (ppb <= a.1.1 /\ (x + 1 + ppb - 1) / ppb = (x + ppb - 1) / ppb + 1 /\ x mod ppb = 0 \/
   a.1.1 < ppb /\ (x + 1 + ppb - 1) / ppb = (x + ppb - 1) / ppb /\ a.1.1 = x mod ppb /\ 0 < a.1.1).
Proof.
  intros Hp Hx [_ Hb]. rewrite Hb. clear Hb a.
  pose proof (Z.eqb_spec x 0) as Hr.
  destruct Hp as [[_ ->]|[[_ ->]|[_ ->]]]; destruct Hr as [->|]; try (by left);
    Z.to_euclidean_division_equations; lia.
Qed.

Section Safe.
Context (mem : bytes) (base : Z).
Hypothesis octets : wf_bytes mem.

(** ** Images that can be decoded *)

(** What the last octets of a run, and those of a mask, are looked for in. *)
Definition overread b : Z :=
  if bm_ico b || (bm_encoding b =? BMP_ENCODING_RLE8) || (bm_encoding b =? BMP_ENCODING_RLE4)
  then 1 else 0.

Record decodable b : Prop := {
  dc_data : 0 <= bm_data b;
  dc_size : 0 <= bm_buffer_size b < 2 ^ 32;
  dc_mem : bm_data b + bm_buffer_size b <= zlen mem;
  dc_offset : 0 <= bm_bitmap_offset b;
  dc_inside : bm_bitmap_offset b + (if bm_ico b then 0 else 1) <= bm_buffer_size b;
  dc_width : 0 < bm_width b /\ 4 * bm_width b < 2 ^ 32;
  dc_height : (if bm_ico b then 0 else 1) <= bm_height b;
  dc_area : 4 * (bm_width b * bm_height b) < 2 ^ 32;
  dc_bitmap : exists px, bm_bitmap b = Some px /\ zlen px = bm_width b * bm_height b;
  dc_legal : legal_encoding (bm_encoding b) (bm_bpp b) = true;
  dc_table : bm_bpp b < 16 -> exists t, bm_colour_table b = Some t /\ zlen t = bm_colours b
}.

(** Decoding changes the pixels, and notes that it was done and what is
    transparent. *)
Definition shaped b0 b : Prop :=
  exists px d ti,
    b = set_bm_bitmap (Some px) (set_bm_decoded d (set_bm_transparent_index ti b0)) /\
    zlen px = bm_width b0 * bm_height b0.

Lemma shaped_refl b : decodable b -> shaped b b.
Proof.
  intros Hd. destruct (dc_bitmap b Hd) as (px & Hpx & Hl).
  exists px, (bm_decoded b), (bm_transparent_index b). split; [|done]. destruct b. bm_cbn. by rewrite Hpx.
Qed.

Lemma shaped_decodable b0 b : decodable b0 -> shaped b0 b -> decodable b.
Proof. intros [] (px & d & ti & -> & Hl). split; bm_cbn; try done. by exists px. Qed.

Lemma shaped_decoded b0 b d : shaped b0 b -> shaped b0 (set_bm_decoded d b).
Proof. intros (px & d' & ti & -> & Hl). by exists px, d, ti. Qed.

Lemma shaped_transparent b0 b ti : shaped b0 b -> shaped b0 (set_bm_transparent_index ti b).
Proof. intros (px & d & ti' & -> & Hl). by exists px, d, ti. Qed.

(** ** Reading *)

Lemma bwp_octet {A} o (k : Z -> decodes A) (Q : A -> bmp_image -> Prop) E b :
  0 <= o < zlen mem ->
  (forall c, znth mem o = Some c -> is_byte c -> bwp (k c) Q E b) ->
  bwp (andthen (octet_at mem o) k) Q E b.
Proof.
  intros Ho H. destruct (znth_is_Some mem o Ho) as [c Hc]. eapply bwp_sound; [done|].
  apply H; [done|]. by eapply (Forall_znth is_byte).
Qed.

Lemma bwp_read_uint16 {A} d o (k : Z -> decodes A) (Q : A -> bmp_image -> Prop) E b :
  0 <= d -> 0 <= o -> d + o + 2 <= zlen mem ->
  (forall x, 0 <= x < 2 ^ 16 -> bwp (k x) Q E b) -> bwp (andthen (read_uint16 mem d o) k) Q E b.
Proof.
  intros Hd Ho Hl H. apply bwp_bind. unfold read_uint16.
  do 2 (apply bwp_octet; [lia|]; intros ? _ _). apply bwp_yields, H. unfold u16. apply Z.mod_pos_bound. lia.
Qed.

Lemma bwp_read_int16 {A} d o (k : Z -> decodes A) (Q : A -> bmp_image -> Prop) E b :
  0 <= d -> 0 <= o -> d + o + 2 <= zlen mem ->
  (forall x, - 2 ^ 15 <= x < 2 ^ 15 -> bwp (k x) Q E b) -> bwp (andthen (read_int16 mem d o) k) Q E b.
Proof.
  intros Hd Ho Hl H. apply bwp_bind. unfold read_int16.
  do 2 (apply bwp_octet; [lia|]; intros ? _ _). apply bwp_yields, H. unfold s16, u16.
  pose proof (Z.mod_pos_bound (Z.lor c (Z.shiftl c0 8)) (2 ^ 16) ltac:(lia)). destruct (_ <? _) eqn:?; zbool; lia.
Qed.

Lemma bwp_read_uint32 {A} d o (k : Z -> decodes A) (Q : A -> bmp_image -> Prop) E b :
  0 <= d -> 0 <= o -> d + o + 4 <= zlen mem ->
  (forall x, 0 <= x < 2 ^ 32 -> bwp (k x) Q E b) -> bwp (andthen (read_uint32 mem d o) k) Q E b.
Proof.
  intros Hd Ho Hl H. apply bwp_bind. unfold read_uint32.
  do 4 (apply bwp_octet; [lia|]; intros ? _ _). apply bwp_yields, H. apply bmp_u32_range.
Qed.

Lemma bwp_read_int32 {A} d o (k : Z -> decodes A) (Q : A -> bmp_image -> Prop) E b :
  0 <= d -> 0 <= o -> d + o + 4 <= zlen mem ->
  (forall x, - 2 ^ 31 <= x < 2 ^ 31 -> bwp (k x) Q E b) -> bwp (andthen (read_int32 mem d o) k) Q E b.
Proof.
  intros Hd Ho Hl H. apply bwp_bind. unfold read_int32, read_uint32. apply bwp_bind.
  do 4 (apply bwp_octet; [lia|]; intros ? _ _). apply bwp_yields, bwp_yields, H. unfold s32.
  pose proof (bmp_u32_range (word_of c c0 c1 c2)). destruct (_ <? _) eqn:?; zbool; lia.
Qed.

Lemma bwp_read_colour {A} d (k : Z -> decodes A) (Q : A -> bmp_image -> Prop) E b :
  0 <= d -> d + 3 <= zlen mem ->
  (forall x, bwp (k x) Q E b) -> bwp (andthen (read_colour mem d) k) Q E b.
Proof.
  intros Hd Hl H. apply bwp_bind. unfold read_colour.
  do 3 (apply bwp_octet; [lia|]; intros ? _ _). apply bwp_yields, H.
Qed.

(** ** Pixels *)

(** The row of the bitmap that row [y] of the file is. *)
Definition row_of b y : Z := if bm_reversed b then y else bm_height b - 1 - y.

Lemma scanline_row b y : decodable b -> 0 <= y < bm_height b ->
  scanline_of b y = 4 * (bm_width b * row_of b y).
Proof.
  intros Hd Hy. pose proof (dc_width b Hd). pose proof (dc_area b Hd).
  unfold scanline_of, bottom, swidth, row_of.
  assert (0 <= y * (4 * bm_width b) <= 4 * (bm_width b * bm_height b)) by nia.
  assert (bm_height b < 2 ^ 32) by nia.
  rewrite (u32_small (4 * bm_width b)), (u32_small (y * (4 * bm_width b))) by lia.
  destruct (bm_reversed b); [ring|]. rewrite u32_small by lia. ring.
Qed.

Lemma row_range b y : 0 <= y < bm_height b -> 0 <= row_of b y < bm_height b.
Proof. unfold row_of. destruct (bm_reversed b); lia. Qed.

Lemma index_range w h r x : 0 <= r < h -> 0 <= x < w -> 0 <= w * r + x < w * h.
Proof. nia. Qed.

Lemma pixel_cell px w r x : pixel_at px (cell (4 * (w * r)) x) = znth px (w * r + x).
Proof.
  unfold pixel_at, cell. replace (4 * (w * r) + 4 * x) with ((w * r + x) * 4) by ring.
  by rewrite Z.mod_mul, Z.eqb_refl, Z.div_mul by lia.
Qed.

Lemma zlen_update (px : list Z) i v : zlen (<[i := v]> px) = zlen px.
Proof. unfold zlen. by rewrite length_insert. Qed.

(** A pixel of the bitmap, as [r] and [x] say. *)
Lemma bwp_load {A} b0 r x (k : Z -> decodes A) (Q : A -> bmp_image -> Prop) E b :
  shaped b0 b -> 0 <= r < bm_height b0 -> 0 <= x < bm_width b0 ->
  (forall v, bwp (k v) Q E b) ->
  bwp (andthen (load (cell (4 * (bm_width b0 * r)) x)) k) Q E b.
Proof.
  intros (px & d & ti & -> & Hl) Hr Hx H. apply bwp_bind. unfold load. apply bwp_view. bm_cbn.
  destruct (znth_is_Some px (bm_width b0 * r + x)) as [v Hv].
  { rewrite Hl. by apply index_range. }
  unfold bwp, sound. cbn [mbind option_bind]. rewrite pixel_cell, Hv. exact (H v).
Qed.

Lemma store_ok b0 r x v E b :
  shaped b0 b -> 0 <= r < bm_height b0 -> 0 <= x < bm_width b0 ->
  bwp (store (cell (4 * (bm_width b0 * r)) x) v) (fun _ => shaped b0) E b.
Proof.
  intros (px & d & ti & -> & Hl) Hr Hx. unfold store. apply bwp_view. bm_cbn.
  destruct (znth_is_Some px (bm_width b0 * r + x)) as [v0 Hv].
  { rewrite Hl. by apply index_range. }
  unfold bwp, andthen, sound. cbn [mbind option_bind]. rewrite pixel_cell, Hv.
  unfold update. eexists _, d, ti. split; [reflexivity|]. by rewrite zlen_update.
Qed.

Lemma bwp_store {A} b0 r x v (k : unit -> decodes A) (Q : A -> bmp_image -> Prop) E b :
  shaped b0 b -> 0 <= r < bm_height b0 -> 0 <= x < bm_width b0 ->
  (forall b1, shaped b0 b1 -> bwp (k tt) Q E b1) ->
  bwp (andthen (store (cell (4 * (bm_width b0 * r)) x) v) k) Q E b.
Proof.
  intros Hs Hr Hx H. apply bwp_bind. eapply bwp_mono; [by apply store_ok| |done]. intros [] b1. apply H.
Qed.

Lemma shaped_views b0 b : shaped b0 b ->
  bm_width b = bm_width b0 /\ bm_height b = bm_height b0 /\ bm_reversed b = bm_reversed b0 /\
  bm_encoding b = bm_encoding b0 /\ bm_bpp b = bm_bpp b0 /\ bm_colours b = bm_colours b0 /\
  bm_colour_table b = bm_colour_table b0 /\ bm_ico b = bm_ico b0.
Proof. by intros (px & d & ti & -> & Hl). Qed.

(** Failing leaves an image that can be decoded again. *)
Definition failed b0 (r : bmp_result) b : Prop := r <> BMP_OK /\ shaped b0 b.

Lemma bwp_need {A} b0 d n e (k : unit -> decodes A) (Q : A -> bmp_image -> Prop) b :
  shaped b0 b -> (d + n <= e -> bwp (k tt) Q (failed b0) b) ->
  bwp (andthen (need d n e) k) Q (failed b0) b.
Proof.
  intros Hs H. apply bwp_bind. unfold need. destruct (Z.ltb_spec e (d + n)); [by apply bwp_stop|].
  apply bwp_yields, H. lia.
Qed.

Lemma bwp_get_buffer {A} show b0 (k : unit -> decodes A) (Q : A -> bmp_image -> Prop) b :
  shaped b0 b -> bwp (k tt) Q (failed b0) b -> bwp (andthen (get_buffer show) k) Q (failed b0) b.
Proof.
  intros Hs H. apply bwp_bind. unfold get_buffer. apply bwp_view.
  destruct (default _ _); [by apply bwp_yields|by apply bwp_stop].
Qed.

Lemma bwp_get_buffer_decoded {A} show b0 (k : unit -> decodes A) (Q : A -> bmp_image -> Prop) b :
  shaped b0 b -> (forall b1, shaped b0 b1 -> bwp (k tt) Q (failed b0) b1) ->
  bwp (andthen (get_buffer_decoded show) k) Q (failed b0) b.
Proof.
  intros Hs H. apply bwp_bind. unfold get_buffer_decoded. apply (bwp_get_buffer _ b0); [done|].
  apply H. by apply shaped_decoded.
Qed.

(** ** Padding *)

Lemma skip_padding_spec step n k addr d (Q : Z -> bmp_image -> Prop) E b :
  0 < step -> 0 <= k <= Z.of_nat n -> addr = Z.land (base + (d + k * step)) 3 ->
  (forall d1, d <= d1 <= d + k * step -> addr = Z.land (base + d1) 3 -> Q d1 b) ->
  bwp (skip_padding base n step addr d) Q E b.
Proof.
  intros Hs. revert d k. induction n as [|n IH]; intros d k Hk Ha H; cbn [skip_padding].
  - assert (k = 0) as -> by lia. rewrite Z.mul_0_l, Z.add_0_r in *. rewrite Ha, Z.eqb_refl.
    apply bwp_yields, H; [lia|done].
  - destruct (Z.eqb_spec addr (Z.land (base + d) 3)) as [E0|E0]; [apply bwp_yields, H; [nia|done]|].
    destruct (Z.eq_dec k 0) as [->|]; [by rewrite Z.mul_0_l, Z.add_0_r in Ha|].
    apply (IH _ (k - 1)); [lia| |].
    + rewrite Ha. do 2 f_equal. ring.
    + intros d1 Hd1. apply H. lia.
Qed.

(** Octet by octet the next multiple of four is reached; in steps of two if an
    even number of octets was read. *)
Lemma skip_1 start d (Q : Z -> bmp_image -> Prop) E b :
  (forall d1, d <= d1 <= d + 3 -> (d1 - start) mod 4 = 0 -> Q d1 b) ->
  bwp (skip_padding base 3 1 (Z.land (base + start) 3) d) Q E b.
Proof.
  intros H. pose proof (Z.mod_pos_bound (start - d) 4 ltac:(lia)).
  apply (skip_padding_spec _ _ ((start - d) mod 4)); [lia|lia| |].
  - rewrite !land_3, Z.mul_1_r, Z.add_assoc, Zplus_mod_idemp_r. f_equal. ring.
  - intros d1 Hd Ha. apply H; [lia|]. rewrite !land_3 in Ha.
    replace (d1 - start) with (base + d1 - (base + start)) by ring.
    rewrite Zminus_mod, <- Ha, Z.sub_diag. done.
Qed.

Lemma skip_2 start d (Q : Z -> bmp_image -> Prop) E b :
  (d - start) mod 2 = 0 ->
  (forall d1, d <= d1 <= d + 3 -> (d1 - start) mod 4 = 0 -> Q d1 b) ->
  bwp (skip_padding base 3 2 (Z.land (base + start) 3) d) Q E b.
Proof.
  intros Hm H. pose proof (Z.div_mod (start - d) 4 ltac:(lia)) as Hq.
  pose proof (Z.mod_pos_bound (start - d) 4 ltac:(lia)).
  assert (Hev : (start - d) mod 4 = 0 \/ (start - d) mod 4 = 2).
  { pose proof (Z.div_mod (d - start) 2 ltac:(lia)). lia. }
  assert (Hk : (start - d) mod 4 / 2 * 2 = (start - d) mod 4) by (destruct Hev as [-> | ->]; done).
  apply (skip_padding_spec _ _ ((start - d) mod 4 / 2)); [lia|destruct Hev as [-> | ->]; split; discriminate| |].
  - rewrite Hk, !land_3, Z.add_assoc, Zplus_mod_idemp_r. f_equal. ring.
  - intros d1 Hd Ha. apply H; [rewrite Hk in Hd; lia|].
    rewrite !land_3 in Ha. replace (d1 - start) with (base + d1 - (base + start)) by ring.
    rewrite Zminus_mod, <- Ha, Z.sub_diag. done.
Qed.

(** ** The uncompressed formats *)

Context (show : list Z -> bool) (b0 : bmp_image).
Hypothesis good : decodable b0.
Local Abbreviation fails := (failed b0).

(** A pixel of [n] octets at [d]. *)
Definition pixel_ok (n : Z) (body : Z -> Z -> Z -> decodes Z) : Prop :=
  forall y x d b, 0 <= y < bm_height b0 -> 0 <= x < bm_width b0 -> shaped b0 b ->
    0 <= d -> d + n <= zlen mem ->
    bwp (body (scanline_of b0 y) x d) (fun d1 b1 => d1 = d + n /\ shaped b0 b1) fails b.

Ltac pixels := intros y x d b Hy Hx Hs Hd Hl; rewrite scanline_row by done;
  pose proof (row_range b0 y Hy) as Hr; apply bwp_view.

Lemma rgb32_bitfields_ok : pixel_ok 4 (rgb32_bitfields_pixel mem).
Proof.
  pixels. apply bwp_read_uint32; [lia..|]. intros word _. apply (bwp_load b0); [done..|]. intros v.
  apply (bwp_store b0); [done..|]. by intros b1 Hs1.
Qed.

Lemma rgb32_ok : pixel_ok 4 (rgb32_pixel mem).
Proof.
  pixels. apply bwp_read_colour; [lia..|]. intros v. apply bwp_bind.
  apply (bwp_mono _ (fun _ b1 => b1 = b) _ fails); [|intros a b1 ->|done].
  - destruct (bm_opaque b); [done|]. apply bwp_octet; [lia|]. done.
  - apply (bwp_store b0); [done..|]. by intros b1 Hs1.
Qed.

Lemma rgb24_ok : pixel_ok 3 (rgb24_pixel mem).
Proof.
  pixels. apply bwp_read_colour; [lia..|]. intros v. apply (bwp_store b0); [done..|]. by intros b1 Hs1.
Qed.

Lemma rgb16_bitfields_ok : pixel_ok 2 (rgb16_bitfields_pixel mem).
Proof.
  pixels. apply bwp_read_uint16; [lia..|]. intros word _. apply (bwp_store b0); [done..|]. by intros b1 Hs1.
Qed.

Lemma rgb16_ok : pixel_ok 2 (rgb16_pixel mem).
Proof.
  pixels. apply bwp_read_uint16; [lia..|]. intros word _. apply (bwp_store b0); [done..|]. by intros b1 Hs1.
Qed.

Lemma row_ok n body y d b Q :
  pixel_ok n body -> 0 <= n -> 0 <= y < bm_height b0 -> shaped b0 b -> 0 <= d ->
  d + n * bm_width b0 <= zlen mem ->
  (forall b1, shaped b0 b1 -> Q (d + n * bm_width b0) b1) ->
  bwp (for_loop (Z.to_nat (bm_width b0)) 0 (body (scanline_of b0 y)) d) Q fails b.
Proof.
  intros Hb Hn Hy Hs Hd Hl H. pose proof (dc_width b0 good).
  apply (bwp_upto (fun x d1 b1 => d1 = d + n * x /\ shaped b0 b1)); [lia|split; [lia|done]| |].
  - intros x d1 b1 Hx [-> Hs1]. eapply bwp_mono; [apply Hb; [done..|nia|nia]| |done].
    intros d2 b2 [-> Hs2]. split; [ring|done].
  - intros d1 b1 [-> Hs1]. by apply H.
Qed.

(** What the callers know of the octets they hand over. *)
Record handed (start bytes : Z) : Prop := {
  hd_start : 0 <= start;
  hd_end : start + bytes <= zlen mem
}.

Lemma u32_width n : 0 <= n <= 4 -> u32 (n * bm_width b0) = n * bm_width b0.
Proof. intros Hn. pose proof (dc_width b0 good). apply u32_small. nia. Qed.

(** Where the pointer can come to, and where it is after a row of [n] octets a
    pixel. *)
Definition reach (start bytes : Z) : Z := Z.max start (start + bytes) + 6.
Definition row_end (n start d d1 : Z) : Prop :=
  d <= d1 <= d + n * bm_width b0 + 6 /\ (d1 - start) mod 4 = 0.

Lemma rows_ok n start bytes (turn : Z -> Z -> decodes Z) b (Q : Z -> bmp_image -> Prop) :
  handed start bytes -> 0 <= n <= 4 -> shaped b0 b ->
  (forall y d b1, 0 <= y < bm_height b0 -> 0 <= d -> (d - start) mod 4 = 0 ->
     d + n * bm_width b0 <= start + bytes -> shaped b0 b1 ->
     bwp (turn y d) (fun d1 b2 => row_end n start d d1 /\ shaped b0 b2) fails b1) ->
  (forall d1 b1, 0 <= d1 <= reach start bytes -> shaped b0 b1 -> Q d1 b1) ->
  bwp (for_loop (Z.to_nat (bm_height b0)) 0 (fun y data =>
         do* need data (u32 (n * bm_width b0)) (start + bytes) in turn y data) start) Q fails b.
Proof.
  intros [Hst He] Hn Hs Hturn H.
  assert (0 <= bm_height b0) by (pose proof (dc_height b0 good); destruct (bm_ico b0); lia).
  apply (bwp_upto (fun _ d b1 => 0 <= d <= reach start bytes /\ (d - start) mod 4 = 0 /\ shaped b0 b1));
    [done|rewrite Z.sub_diag; unfold reach; split; [lia|done]| |by intros d b1 (? & ? & ?); apply H].
  intros y d b1 Hy (Hd & Hm & Hs1). apply bwp_need; [done|]. rewrite u32_width by done. intros Hl.
  eapply bwp_mono; [by apply Hturn; [done|lia|..]| |done]. intros d1 b2 [[Hd1 Hm1] Hs2].
  unfold reach in *. split; [lia|done].
Qed.

(** Rows with padding. *)
Lemma padded_1 n body start y d b :
  pixel_ok n body -> 0 <= n -> 0 <= y < bm_height b0 -> 0 <= d ->
  d + n * bm_width b0 <= zlen mem -> shaped b0 b ->
  bwp (let* data := for_loop (Z.to_nat (bm_width b0)) 0 (body (scanline_of b0 y)) d in
       skip_padding base 3 1 (Z.land (base + start) 3) data)
    (fun d1 b2 => row_end n start d d1 /\ shaped b0 b2) fails b.
Proof.
  intros Hb Hn Hy Hd Hl Hs. pose proof (dc_width b0 good). apply bwp_bind, (row_ok n); try done.
  intros b1 Hs1. apply skip_1. intros d1 Hd1 Hm. split; [split; [nia|done]|done].
Qed.

Lemma padded_2 body start y d b :
  pixel_ok 2 body -> 0 <= y < bm_height b0 -> 0 <= d -> (d - start) mod 4 = 0 ->
  d + 2 * bm_width b0 <= zlen mem -> shaped b0 b ->
  bwp (let* data := for_loop (Z.to_nat (bm_width b0)) 0 (body (scanline_of b0 y)) d in
       skip_padding base 3 2 (Z.land (base + start) 3) data)
    (fun d1 b2 => row_end 2 start d d1 /\ shaped b0 b2) fails b.
Proof.
  intros Hb Hy Hd Hm Hl Hs. pose proof (dc_width b0 good). apply bwp_bind, (row_ok 2); try done.
  intros b1 Hs1. apply skip_2.
  - pose proof (Z.div_mod (d - start) 4 ltac:(lia)).
    replace (d + 2 * bm_width b0 - start) with ((2 * ((d - start) / 4) + bm_width b0) * 2) by lia.
    by rewrite Z.mod_mul.
  - intros d1 Hd1 Hm1. split; [split; [nia|done]|done].
Qed.

(** The transparent colour. *)
Lemma transparent_ok (read : decodes Z) n start bytes b :
  (start + n <= zlen mem -> forall (k : Z -> decodes unit) Q,
     (forall v, bwp (k v) Q fails b) -> bwp (andthen read k) Q fails b) ->
  handed start bytes -> shaped b0 b ->
  bwp (if bm_limited_trans b0 then
         do* need start n (start + bytes) in
         let* v := read in update (set_bm_transparent_index v)
       else yields tt) (fun _ => shaped b0) fails b.
Proof.
  intros Hr [Hst He] Hs. destruct (bm_limited_trans b0); [|by apply bwp_yields].
  apply bwp_need; [done|]. intros Hl. apply Hr; [lia|]. intros v. by apply shaped_transparent.
Qed.

(** The pointer that a decoder yields. *)
Definition decoded (start bytes d : Z) b : Prop := 0 <= d <= reach start bytes /\ shaped b0 b.

Lemma rgb32_safe start bytes :
  handed start bytes -> bm_bpp b0 = 32 ->
  bwp (bmp_decode_rgb32 mem show start bytes) (decoded start bytes) fails b0.
Proof.
  intros Hh Hbpp. apply bwp_view, bwp_assert; [by rewrite Hbpp|].
  apply (bwp_get_buffer_decoded _ b0); [by apply shaped_refl|]. intros b1 Hs1.
  apply bwp_bind. eapply bwp_mono; [apply transparent_ok; [|done|exact Hs1]| |done].
  { intros Hl k Q H. pose proof (hd_start _ _ Hh).
    destruct (_ =? _); [apply bwp_read_uint32|apply bwp_read_colour]; try lia; intros; apply H. }
  intros [] b2 Hs2. apply rows_ok; [done|lia|done| |by split].
  intros y d b3 Hy Hd Hm Hl Hs3.
  destruct (bm_encoding b0 =? BMP_ENCODING_BITFIELDS);
    (eapply (row_ok 4); [apply rgb32_bitfields_ok || apply rgb32_ok|lia|done..|destruct Hh; lia|];
     intros b4 Hs4; pose proof (dc_width b0 good); split; [split; [lia|]|done];
     replace (d + 4 * bm_width b0 - start) with (d - start + bm_width b0 * 4) by ring;
     by rewrite Z.mod_add).
Qed.

Lemma rgb24_safe start bytes :
  handed start bytes -> bm_bpp b0 = 24 -> bm_encoding b0 = BMP_ENCODING_RGB ->
  bwp (bmp_decode_rgb24 mem base show start bytes) (decoded start bytes) fails b0.
Proof.
  intros Hh Hbpp Henc. apply bwp_view, bwp_assert; [by rewrite Henc|]. apply bwp_assert; [by rewrite Hbpp|].
  apply (bwp_get_buffer_decoded _ b0); [by apply shaped_refl|]. intros b1 Hs1.
  apply bwp_bind. eapply bwp_mono; [apply transparent_ok; [|done|exact Hs1]| |done].
  { intros Hl k Q H. pose proof (hd_start _ _ Hh). apply bwp_read_colour; [lia..|]. intros; apply H. }
  intros [] b2 Hs2. apply rows_ok; [done|lia|done| |by split].
  intros y d b3 Hy Hd Hm Hl Hs3. destruct Hh. apply (padded_1 3); try done; [apply rgb24_ok|lia].
Qed.

Lemma rgb16_safe start bytes :
  handed start bytes -> bwp (bmp_decode_rgb16 mem base show start bytes) (decoded start bytes) fails b0.
Proof.
  intros Hh. apply bwp_view.
  apply (bwp_get_buffer_decoded _ b0); [by apply shaped_refl|]. intros b1 Hs1.
  apply bwp_bind. eapply bwp_mono; [apply transparent_ok; [|done|exact Hs1]| |done].
  { intros Hl k Q H. pose proof (hd_start _ _ Hh). apply bwp_read_uint16; [lia..|]. intros; apply H. }
  intros [] b2 Hs2. apply rows_ok; [done|lia|done| |by split].
  intros y d b3 Hy Hd Hm Hl Hs3. destruct Hh.
  destruct (bm_encoding b0 =? BMP_ENCODING_BITFIELDS);
    [apply (padded_2 (rgb16_bitfields_pixel mem))|apply (padded_2 (rgb16_pixel mem))]; try done; try lia;
    [apply rgb16_bitfields_ok|apply rgb16_ok].
Qed.

(** ** Palettes *)

Lemma colour_ok {A} idx (k : Z -> decodes A) (Q : A -> bmp_image -> Prop) E b :
  shaped b0 b -> bm_bpp b0 < 16 -> 0 <= idx < bm_colours b0 ->
  (forall v, (t ← bm_colour_table b0; znth t idx) = Some v -> bwp (k v) Q E b) ->
  bwp (andthen (colour_of idx) k) Q E b.
Proof.
  intros Hs Hb Hi H. apply bwp_bind, bwp_view.
  destruct (shaped_views b0 b Hs) as (_ & _ & _ & _ & _ & _ & -> & _).
  destruct (dc_table b0 good Hb) as (t & Ht & Hl). rewrite Ht in *.
  destruct (znth_is_Some t idx) as [v Hv]; [lia|].
  unfold bwp, sound. cbn [mbind option_bind]. rewrite Hv. by apply H.
Qed.

Lemma zlen_shifts bpp n : zlen (map (fun i => u8 (8 - (Z.of_nat i + 1) * bpp)) (List.seq 0 n)) = Z.of_nat n.
Proof. unfold zlen. by rewrite List.length_map, List.length_seq. Qed.

Section Palette.
Context (ppb : Z) (bit_shifts : list Z) (bit_mask : Z).
Hypothesis pack : packed (bm_bpp b0) ppb.
Hypothesis shifts : zlen bit_shifts = ppb.
Hypothesis nonneg : 0 <= bit_mask.

Lemma few_bits : bm_bpp b0 < 16.
Proof. destruct pack as [[-> _]|[[-> _]|[-> _]]]; lia. Qed.

Lemma rgb_pixel_ok y x d a b :
  0 <= y < bm_height b0 -> 0 <= x < bm_width b0 -> shaped b0 b -> 0 <= d ->
  d + (bm_width b0 + ppb - 1) / ppb <= zlen mem -> unpacked ppb d x a ->
  bwp (rgb_pixel mem ppb bit_shifts bit_mask (scanline_of b0 y) x a)
    (fun a1 b1 => unpacked ppb d (x + 1) a1 /\ shaped b0 b1) fails b.
Proof.
  intros Hy Hx Hs Hd Hl Hu. pose proof (unpacked_step _ _ d x a pack ltac:(lia) Hu) as Hst.
  assert (Hpp : 0 < ppb) by (destruct pack as [[_ ->]|[[_ ->]|[_ ->]]]; lia).
  assert (Hw : (x + ppb - 1) / ppb < (bm_width b0 + ppb - 1) / ppb \/ x mod ppb <> 0).
  { destruct pack as [[_ ->]|[[_ ->]|[_ ->]]]; Z.to_euclidean_division_equations; lia. }
  assert (H0 : 0 <= (x + ppb - 1) / ppb) by (apply Z.div_pos; lia).
  destruct a as [[bit cur] data]. destruct Hu as [Hdata Hbit]. cbn [fst snd] in *.
  unfold rgb_pixel. apply bwp_bind.
  apply (bwp_mono _ (fun a1 b1 => b1 = b /\ a1.1.1 = x mod ppb /\ a1.2 = d + (x + 1 + ppb - 1) / ppb) _ fails);
    [|intros [[bit1 cur1] data1] b1 (-> & Hb1 & Hd1)|done].
  { destruct (Z.leb_spec ppb bit) as [Hle|Hgt]; destruct Hst as [(? & Hn & Hm)|(? & Hn & Hm & ?)]; try lia.
    - apply bwp_octet; [lia|]. intros c _ _. apply bwp_yields. cbn [fst snd]. split; [done|]. split; lia.
    - apply bwp_yields. cbn [fst snd]. split; [done|]. split; lia. }
  cbn [fst snd] in *. pose proof (Z.mod_pos_bound x ppb Hpp) as Hmod.
  destruct (znth_is_Some bit_shifts bit1) as [sh Hsh]; [lia|].
  eapply bwp_sound; [exact Hsh|]. cbv zeta. set (idx := Z.land _ _). apply bwp_view.
  assert (0 <= idx) by (apply Z.land_nonneg; by right).
  assert (Hdone : forall b1, shaped b0 b1 ->
    bwp (yields (bit1 + 1, cur1, data1)) (fun a1 b2 => unpacked ppb d (x + 1) a1 /\ shaped b0 b2) fails b1).
  { intros b1 Hs1. apply bwp_yields. split; [|done]. split; cbn [fst snd]; [done|].
    rewrite (proj2 (Z.eqb_neq (x + 1) 0)) by lia. replace (x + 1 - 1) with x by ring. lia. }
  destruct (shaped_views b0 b Hs) as (_ & _ & _ & _ & _ & Hcol & _ & _). rewrite Hcol.
  destruct (Z.ltb_spec idx (bm_colours b0)); [|by apply Hdone].
  apply bwp_bind. apply colour_ok; [done|apply few_bits|lia|]. intros v _.
  rewrite scanline_row by done. pose proof (row_range b0 y Hy).
  eapply bwp_mono; [by apply (store_ok b0)| |done]. intros [] b1. apply Hdone.
Qed.
End Palette.

Lemma packed_legal :
  bm_encoding b0 = BMP_ENCODING_RGB -> bm_bpp b0 <> 32 -> bm_bpp b0 <> 24 -> bm_bpp b0 <> 16 ->
  packed (bm_bpp b0) (8 / bm_bpp b0).
Proof.
  intros He H1 H2 H3. pose proof (dc_legal b0 good) as Hl. rewrite He in Hl.
  change (rgb_bpp (bm_bpp b0) = true) in Hl. unfold rgb_bpp in Hl.
  assert (Hb : bm_bpp b0 = 1 \/ bm_bpp b0 = 4 \/ bm_bpp b0 = 8).
  { destruct (Z.eqb_spec (bm_bpp b0) 1), (Z.eqb_spec (bm_bpp b0) 4), (Z.eqb_spec (bm_bpp b0) 8),
      (Z.eqb_spec (bm_bpp b0) 16), (Z.eqb_spec (bm_bpp b0) 24), (Z.eqb_spec (bm_bpp b0) 32); try done; lia. }
  unfold packed. destruct Hb as [-> |[-> | ->]]; auto.
Qed.

Lemma rgb_safe start bytes :
  handed start bytes -> start < zlen mem -> packed (bm_bpp b0) (8 / bm_bpp b0) ->
  bwp (bmp_decode_rgb mem base show start bytes) (decoded start bytes) fails b0.
Proof.
  intros Hh Hst Hpk. apply bwp_view.
  assert (Hppb : u8 (8 / bm_bpp b0) = 8 / bm_bpp b0).
  { destruct Hpk as [[_ ->]|[[_ ->]|[_ ->]]]; done. }
  assert (Hpos : 1 <= 8 / bm_bpp b0 <= 8) by (destruct Hpk as [[_ ->]|[[_ ->]|[_ ->]]]; lia).
  apply bwp_assert; [destruct Hpk as [[-> _]|[[-> _]|[-> _]]]; done|].
  cbv zeta. rewrite Hppb. apply bwp_assert; [apply Z.leb_le; lia|].
  set (mask := u8 _). set (shifts := map _ _).
  assert (Hmask : 0 <= mask) by (unfold mask, u8; apply Z.mod_pos_bound; lia).
  assert (Hsh : zlen shifts = 8 / bm_bpp b0) by (unfold shifts; rewrite zlen_shifts; lia).
  pose proof (few_bits _ Hpk) as Hfew. pose proof (dc_width b0 good) as Hw.
  assert (Hh0 : 0 <= bm_height b0) by (pose proof (dc_height b0 good); destruct (bm_ico b0); lia).
  destruct Hh as [Hs0 He].
  apply (bwp_get_buffer_decoded _ b0); [by apply shaped_refl|]. intros b1 Hs1. apply bwp_bind.
  apply (bwp_mono _ (fun _ => shaped b0) _ fails); [|intros [] b2 Hs2|done].
  { destruct (bm_limited_trans b0); [|by apply bwp_yields]. apply bwp_octet; [lia|]. intros c _ _.
    destruct (znth_is_Some shifts 0) as [sh Hs]; [lia|]. eapply bwp_sound; [exact Hs|]. cbv zeta.
    destruct (Z.leb_spec (bm_colours b0) (Z.land (Z.shiftr c sh) mask)); [by apply bwp_stop|].
    apply colour_ok; [done|done|split; [apply Z.land_nonneg; by right|done]|]. intros v _.
    by apply shaped_transparent. }
  apply bwp_bind.
  apply (bwp_upto (fun _ a b3 => 0 <= a.2 <= reach start bytes /\ shaped b0 b3));
    [done|cbn [snd]; unfold reach; split; [lia|done]| |].
  2:{ intros a b3 [? ?]. by apply bwp_yields. }
  intros y [cur d] b3 Hy [Hd Hs3]. cbn [snd] in Hd. apply bwp_need; [done|].
  rewrite u32_small by lia. intros Hl. apply bwp_bind.
  apply (bwp_upto (fun x a b4 => unpacked (8 / bm_bpp b0) d x a /\ shaped b0 b4)); [lia| |..].
  - split; [|done]. split; [|done]. cbn [snd]. rewrite Z.add_0_l.
    rewrite (Z.div_small (_ - 1)) by lia. lia.
  - intros x a b4 Hx [Hu Hs4]. apply rgb_pixel_ok; try done; lia.
  - intros [[bit cur1] d1] b4 [[Hd1 _] Hs4]. cbn [fst snd] in Hd1. apply bwp_bind, skip_1.
    intros d2 Hd2 _. apply bwp_yields. cbn [snd]. split; [|done]. unfold reach in *.
    assert (0 <= (bm_width b0 + 8 / bm_bpp b0 - 1) / (8 / bm_bpp b0)) by (apply Z.div_pos; lia). lia.
Qed.

(** ** The mask of an icon *)

Lemma shiftr_3 x : Z.shiftr x 3 = x / 8.
Proof. by rewrite Z.shiftr_div_pow2. Qed.

Lemma land_7 x : Z.land x 7 = x mod 8.
Proof. change 7 with (Z.ones 3). by rewrite Z.land_ones. Qed.

(** After [x] pixels of a row of the mask that starts at [d]. *)
Lemma mask_pixel_ok y x d cur data b :
  0 <= y < bm_height b0 -> 0 <= x < bm_width b0 -> shaped b0 b -> 0 <= d ->
  d + bm_width b0 / 8 < zlen mem -> data = d + (x + 7) / 8 ->
  bwp (mask_pixel mem (bottom b0 - u32 (y * swidth b0)) x (cur, data))
    (fun a b1 => a.2 = d + (x + 1 + 7) / 8 /\ shaped b0 b1) fails b.
Proof.
  intros Hy Hx Hs Hd Hl ->. unfold mask_pixel. apply bwp_bind.
  apply (bwp_mono _ (fun a b1 => b1 = b /\ a.2 = d + (x + 1 + 7) / 8) _ fails);
    [|intros [cur1 d1] b1 [-> Hd1]|done].
  { rewrite land_7. destruct (Z.eqb_spec (x mod 8) 0).
    - apply bwp_octet; [Z.to_euclidean_division_equations; lia|]. intros c _ _. apply bwp_yields.
      cbn [snd]. split; [done|]. Z.to_euclidean_division_equations; lia.
    - apply bwp_yields. cbn [snd]. split; [done|]. Z.to_euclidean_division_equations; lia. }
  assert (bottom b0 - u32 (y * swidth b0) = 4 * (bm_width b0 * (bm_height b0 - 1 - y))) as ->.
  { pose proof (dc_width b0 good). pose proof (dc_area b0 good). unfold bottom, swidth.
    rewrite (u32_small (4 * bm_width b0)), (u32_small (y * _)) by nia.
    rewrite u32_small by nia. ring. }
  apply (bwp_load b0); [done|lia|lia|]. intros v. apply (bwp_store b0); [done|lia|lia|].
  intros b1 Hs1. apply bwp_yields. by split.
Qed.

Lemma mask_safe start bytes :
  0 <= start -> start + bytes < zlen mem ->
  bwp (bmp_decode_mask mem base show start bytes) (fun r b => r = BMP_OK /\ shaped b0 b) fails b0.
Proof.
  intros Hst He. apply bwp_view. apply (bwp_get_buffer _ b0); [by apply shaped_refl|].
  pose proof (dc_width b0 good) as Hw.
  assert (Hh0 : 0 <= bm_height b0) by (pose proof (dc_height b0 good); destruct (bm_ico b0); lia).
  cbv zeta. apply bwp_bind.
  apply (bwp_upto (fun _ a b => 0 <= a.2 /\ shaped b0 b)); [done|split; [done|by apply shaped_refl]| |].
  2:{ intros a b [? ?]. by apply bwp_yields. }
  intros y [cur d] b Hy [Hd Hs]. cbn [snd] in Hd. apply bwp_need; [done|]. rewrite shiftr_3. intros Hl.
  apply bwp_bind.
  apply (bwp_upto (fun x a b1 => a.2 = d + (x + 7) / 8 /\ shaped b0 b1)); [lia| |..].
  - split; [|done]. cbn [snd]. rewrite Z.add_0_r. lia.
  - intros x [cur1 d1] b1 Hx [Hd1 Hs1]. apply (mask_pixel_ok y x d); try done; lia.
  - intros [cur1 d1] b1 [Hd1 Hs1]. cbn [snd] in Hd1. apply bwp_bind, skip_1. intros d2 Hd2 _.
    apply bwp_yields. cbn [snd]. split; [|done].
    assert (0 <= (bm_width b0 + 7) / 8) by (apply Z.div_pos; lia). lia.
Qed.

(** ** Runs *)

(** A cursor is at a row of the bitmap, or past its last pixel. *)
Record on_row (c : cursor) : Prop := {
  or_x : 0 <= cu_x c <= bm_width b0;
  or_y : 0 <= cu_y c < bm_height b0;
  or_scanline : cu_scanline c = scanline_of b0 (cu_y c)
}.

Lemma height_bound : bm_height b0 < 2 ^ 32.
Proof. pose proof (dc_width b0 good). pose proof (dc_area b0 good). nia. Qed.

Lemma wrap_line_ok {A} c (k : cursor -> decodes A) (Q : A -> bmp_image -> Prop) b :
  on_row c -> shaped b0 b ->
  (forall c1, on_row c1 -> cu_x c1 < bm_width b0 -> bwp (k c1) Q fails b) ->
  bwp (andthen (wrap_line c) k) Q fails b.
Proof.
  intros [Hx Hy Hsc] Hs H. apply bwp_bind. unfold wrap_line. apply bwp_view.
  destruct (shaped_views b0 b Hs) as (-> & -> & -> & _ & _ & _ & _ & _).
  pose proof height_bound. pose proof (dc_width b0 good).
  destruct (Z.leb_spec (bm_width b0) (cu_x c)); [|by apply bwp_yields, H].
  rewrite u32_small by lia.
  destruct (Z.leb_spec (bm_height b0) (cu_y c + 1)); [by apply bwp_stop|].
  apply bwp_yields, H; [|cbn; lia]. split; cbn; try lia.
  rewrite Hsc, !scanline_row by (lia || done). unfold row_of. destruct (bm_reversed b0); ring.
Qed.

Lemma put_pixel_ok c v b :
  on_row c -> cu_x c < bm_width b0 -> shaped b0 b ->
  bwp (put_pixel c v) (fun c1 b1 => on_row c1 /\ shaped b0 b1) fails b.
Proof.
  intros [Hx Hy Hsc] Hlt Hs. unfold put_pixel. rewrite Hsc, scanline_row by done.
  pose proof (row_range b0 _ Hy). pose proof (dc_width b0 good).
  apply (bwp_store b0); [done..|lia|]. intros b1 Hs1. apply bwp_yields. split; [|done].
  split; cbn; [rewrite u32_small; lia|done|by rewrite scanline_row].
Qed.

(** Between two commands. *)
Record rle_ok (s : rle_state) : Prop := {
  ro_x : 0 <= rl_x s <= bm_width b0;
  ro_y : 0 <= rl_y s < bm_height b0;
  ro_data : 0 <= rl_data s
}.

Lemma cursor_ok s : rle_ok s -> on_row (rle_cursor b0 s).
Proof. intros []. by split. Qed.

Lemma cut_range s n : 0 <= n < 256 -> 0 <= cut_length b0 s n < 256.
Proof.
  intros Hn. unfold cut_length, pixels_left. set (l := (if bm_reversed b0 then _ else _) : Z).
  assert (0 <= l) by (unfold l; destruct (bm_reversed b0); apply bmp_u32_range).
  destruct (Z.ltb_spec l n); lia.
Qed.

Lemma end_of_line_ok s b :
  rle_ok s -> shaped b0 b ->
  bwp (rle_end_of_line s) (fun s1 b1 => (rle_ok s1 /\ rl_data s <= rl_data s1) /\ shaped b0 b1) fails b.
Proof.
  intros [Hx Hy Hd] Hs. apply bwp_view.
  destruct (shaped_views b0 b Hs) as (_ & -> & _). pose proof height_bound. pose proof (dc_width b0 good).
  apply bwp_bind. rewrite u32_small by lia.
  destruct (_ =? _); [destruct (Z.leb_spec (bm_height b0) (rl_y s + 1)); [by apply bwp_stop|]|];
    apply bwp_yields, bwp_yields; (split; [split; [split|]|done]); cbn; lia.
Qed.

Lemma move_ok stop_at s b :
  rle_ok s -> stop_at <= zlen mem -> shaped b0 b ->
  bwp (rle_move mem stop_at s) (fun s1 b1 => (rle_ok s1 /\ rl_data s <= rl_data s1) /\ shaped b0 b1) fails b.
Proof.
  intros [Hx Hy Hd] He Hs. apply bwp_view.
  destruct (shaped_views b0 b Hs) as (-> & -> & _). pose proof height_bound. pose proof (dc_width b0 good).
  apply bwp_need; [done|]. intros Hl. apply bwp_octet; [lia|]. intros dx _ Hdx. unfold is_byte in *.
  pose proof (bmp_u32_range (rl_x s + dx)).
  destruct (Z.leb_spec (bm_width b0) (u32 (rl_x s + dx))); [by apply bwp_stop|].
  apply bwp_octet; [lia|]. intros dy _ Hdy. unfold is_byte in *. pose proof (bmp_u32_range (rl_y s + dy)).
  destruct (Z.leb_spec (bm_height b0) (u32 (rl_y s + dy))); [by apply bwp_stop|].
  apply bwp_yields. split; [split; [split|]|done]; cbn; lia.
Qed.

(** A command of the loop: it takes its octets and comes back to a row. *)
Definition command_ok (m : Z -> rle_state -> decodes rle_state) : Prop :=
  forall n s b, 0 <= n < 256 -> rle_ok s -> shaped b0 b ->
    bwp (m n s) (fun s1 b1 => (rle_ok s1 /\ rl_data s <= rl_data s1) /\ shaped b0 b1) fails b.

Lemma rle_loop_ok stop_at turn escape fuel s b :
  command_ok turn -> command_ok escape -> stop_at <= zlen mem ->
  rle_ok s -> shaped b0 b -> stop_at - rl_data s < Z.of_nat fuel -> (0 < fuel)%nat ->
  bwp (rle_loop mem fuel stop_at turn escape s) (fun r b1 => r = BMP_OK /\ shaped b0 b1) fails b.
Proof.
  intros Hturn Hesc He. revert s b. induction fuel as [|fuel IH]; intros s b Hs Hsh Hf H0; [lia|].
  cbn [rle_loop]. apply bwp_need; [done|]. intros Hl. pose proof Hs as [Hx Hy Hd].
  apply bwp_octet; [lia|]. intros n _ Hn. unfold is_byte in Hn.
  set (s1 := {| rl_x := rl_x s; rl_y := rl_y s; rl_last_y := rl_last_y s; rl_data := rl_data s + 1 |}).
  set (s2 := {| rl_x := rl_x s; rl_y := rl_y s; rl_last_y := rl_last_y s; rl_data := rl_data s + 2 |}).
  assert (Hs1 : rle_ok s1) by (split; cbn; lia). assert (Hs2 : rle_ok s2) by (split; cbn; lia).
  assert (Hnext : forall m s', rl_data s < rl_data s' ->
    bwp m (fun s1 b1 => (rle_ok s1 /\ rl_data s' <= rl_data s1) /\ shaped b0 b1) fails b ->
    bwp (let* s := m in
         if rl_data s <? stop_at then rle_loop mem fuel stop_at turn escape s else yields BMP_OK)
      (fun r b1 => r = BMP_OK /\ shaped b0 b1) fails b).
  { intros m s' Hlt Hm. apply bwp_bind. eapply bwp_mono; [exact Hm| |done].
    intros s3 b3 [[Hs3 Hd3] Hsh3]. destruct (Z.ltb_spec (rl_data s3) stop_at); [|by apply bwp_yields].
    apply IH; try done; lia. }
  destruct (Z.eqb_spec n 0) as [->|]; [|apply (Hnext _ s1); [cbn; lia|by apply Hturn]].
  apply bwp_octet; [lia|]. intros n _ Hn1. unfold is_byte in Hn1.
  destruct (n =? 0); [apply (Hnext _ s2); [cbn; lia|by apply end_of_line_ok]|].
  destruct (n =? 1); [by apply bwp_yields|].
  destruct (n =? 2); [apply (Hnext _ s2); [cbn; lia|by apply move_ok]|].
  apply (Hnext _ s2); [cbn; lia|by apply Hesc].
Qed.

Section Runs.
Context (stop_at : Z).
Hypothesis fewer : bm_bpp b0 < 16.
Hypothesis room : stop_at < zlen mem.

Lemma pad_ok n d b :
  0 <= d <= stop_at -> shaped b0 b ->
  bwp (rle_pad mem n d) (fun d1 b1 => d <= d1 /\ shaped b0 b1) fails b.
Proof.
  intros Hd Hs. unfold rle_pad. destruct (_ =? _); [by apply bwp_yields|].
  apply bwp_octet; [lia|]. intros c _ _. destruct (negb _); [by apply bwp_stop|].
  apply bwp_yields. split; [lia|done].
Qed.

(** What a command leaves. *)
Lemma rle_at_ok c last_y d s b :
  on_row c -> 0 <= rl_data s <= d -> shaped b0 b ->
  (rle_ok (rle_at c last_y d) /\ rl_data s <= rl_data (rle_at c last_y d)) /\ shaped b0 b.
Proof. intros [] Hd Hs. split; [split; [split|]|done]; cbn; lia. Qed.

(** The colour of an index, put at the cursor. *)
Lemma put_colour_ok {A} idx c (k : cursor -> decodes A) (Q : A -> bmp_image -> Prop) b :
  0 <= idx -> on_row c -> cu_x c < bm_width b0 -> shaped b0 b ->
  (forall c1 b1, on_row c1 -> shaped b0 b1 -> bwp (k c1) Q fails b1) ->
  bwp (if bm_colours b0 <=? idx then stop BMP_DATA_ERROR else
       let* v := colour_of idx in let* c := put_pixel c v in k c) Q fails b.
Proof.
  intros Hi Hc Hx Hs H. destruct (Z.leb_spec (bm_colours b0) idx); [by apply bwp_stop|].
  apply colour_ok; [done..|]. intros v _. apply bwp_bind.
  eapply bwp_mono; [by apply put_pixel_ok| |done]. intros c1 b1 [? ?]. by apply H.
Qed.

(** A run of one or two colours. *)
Lemma same_run_ok (colour : Z -> Z) n s b :
  0 <= n -> rle_ok s -> shaped b0 b ->
  bwp (for_loop (Z.to_nat n) 0 (fun i c =>
         let* c := wrap_line c in put_pixel c (colour i)) (rle_cursor b0 s))
    (fun c b1 => on_row c /\ shaped b0 b1) fails b.
Proof.
  intros Hn Hs Hsh.
  apply (bwp_upto (fun _ c b1 => on_row c /\ shaped b0 b1)); [done|split; [by apply cursor_ok|done]| |done].
  intros i c b1 _ [Hc Hs1]. apply wrap_line_ok; [done..|]. intros c1 Hc1 Hx. by apply put_pixel_ok.
Qed.

Lemma cut_shaped s n b : shaped b0 b -> cut_length b s n = cut_length b0 s n /\ rle_cursor b s = rle_cursor b0 s.
Proof.
  intros Hs. destruct Hs as (px & d & ti & -> & _). done.
Qed.

Lemma rle8_run_ok : command_ok (rle8_run mem stop_at).
Proof.
  intros n s b Hn Hs Hsh. pose proof (cut_range s n Hn) as Hcut. apply bwp_view.
  destruct (cut_shaped s n b Hsh) as [-> ->]. pose proof Hs as [Hx Hy Hd].
  destruct (shaped_views b0 b Hsh) as (_ & _ & _ & _ & _ & -> & _ & _).
  apply bwp_need; [done|]. intros Hl. apply bwp_octet; [lia|]. intros idx _ Hidx. unfold is_byte in Hidx.
  destruct (Z.leb_spec (bm_colours b0) idx); [by apply bwp_stop|].
  apply colour_ok; [done..|lia|]. intros v _. apply bwp_bind.
  eapply bwp_mono; [apply (same_run_ok (fun _ => v)); [lia|done..]| |done].
  intros c b1 [Hc Hs1]. apply bwp_yields. apply rle_at_ok; [done|lia|done].
Qed.

Lemma rle4_run_ok : command_ok (rle4_run mem stop_at).
Proof.
  intros n s b Hn Hs Hsh. pose proof (cut_range s n Hn) as Hcut. apply bwp_view.
  destruct (cut_shaped s n b Hsh) as [-> ->]. pose proof Hs as [Hx Hy Hd].
  destruct (shaped_views b0 b Hsh) as (_ & _ & _ & _ & _ & -> & _ & _).
  apply bwp_need; [done|]. intros Hl. apply bwp_octet; [lia|]. intros p _ Hp. unfold is_byte in Hp.
  destruct ((bm_colours b0 <=? Z.shiftr p 4) || (bm_colours b0 <=? Z.land p 0xF)) eqn:Ec; [by apply bwp_stop|].
  zbool. assert (0 <= Z.shiftr p 4) by (apply Z.shiftr_nonneg; lia).
  assert (0 <= Z.land p 0xF) by (apply Z.land_nonneg; lia).
  apply colour_ok; [done..|lia|]. intros v _. apply colour_ok; [done..|lia|]. intros v2 _. apply bwp_bind.
  eapply bwp_mono; [apply (same_run_ok (fun i => if Z.land i 1 =? 0 then v else v2)); [lia|done..]| |done].
  intros c b1 [Hc Hs1]. apply bwp_yields. apply rle_at_ok; [done|lia|done].
Qed.

Lemma rle8_escape_ok : command_ok (rle8_escape mem stop_at).
Proof.
  intros n s b Hn Hs Hsh. pose proof (cut_range s n Hn) as Hcut. apply bwp_view.
  destruct (cut_shaped s n b Hsh) as [-> ->]. pose proof Hs as [Hx Hy Hd].
  destruct (shaped_views b0 b Hsh) as (_ & _ & _ & _ & _ & -> & _ & _).
  cbv zeta. apply bwp_need; [done|]. intros Hl. apply bwp_bind.
  apply (bwp_upto (fun j a b1 => on_row a.1 /\ a.2 = rl_data s + j /\ shaped b0 b1)); [lia| | |].
  - split_and!; [by apply cursor_ok|cbn; lia|done].
  - intros j [c d] b1 Hj (Hc & Hd1 & Hs1). cbn [fst snd] in *. subst d. apply bwp_octet; [lia|].
    intros idx _ Hidx. unfold is_byte in Hidx. apply wrap_line_ok; [done..|]. intros c1 Hc1 Hx1.
    apply put_colour_ok; [lia|done..|]. intros c2 b2 Hc2 Hs2. apply bwp_yields. cbn [fst snd]. split_and!; [done|lia|done].
  - intros [c d] b1 (Hc & Hd1 & Hs1). cbn [fst snd] in *. subst d. apply bwp_bind.
    eapply bwp_mono; [apply pad_ok; [lia|done]| |done]. intros d b2 [Hd2 Hs2]. apply bwp_yields.
    apply rle_at_ok; [done|lia|done].
Qed.

Lemma land_1 x : Z.land x 1 = x mod 2.
Proof. change 1 with (Z.ones 1) at 1. by rewrite Z.land_ones. Qed.

Lemma rle4_escape_ok : command_ok (rle4_escape mem stop_at).
Proof.
  intros n s b Hn Hs Hsh. pose proof (cut_range s n Hn) as Hcut. apply bwp_view.
  destruct (cut_shaped s n b Hsh) as [-> ->]. pose proof Hs as [Hx Hy Hd].
  destruct (shaped_views b0 b Hsh) as (_ & _ & _ & _ & _ & -> & _ & _).
  set (m := cut_length b0 s n) in *. cbv zeta. rewrite (u32_small (m + 1)) by lia.
  apply bwp_need; [done|]. intros Hl. apply bwp_bind.
  apply (bwp_upto (fun j a b1 => on_row a.1.1 /\ a.2 = rl_data s + (j + 1) / 2 /\ 0 <= a.1.2 /\ shaped b0 b1));
    [lia| | |].
  - split_and!; [by apply cursor_ok|symmetry; apply Z.add_0_r|done|done].
  - intros j [[c p] d] b1 Hj (Hc & Hd1 & Hp & Hs1). cbn [fst snd] in *. subst d.
    apply wrap_line_ok; [done..|]. intros c1 Hc1 Hx1. apply bwp_bind.
    apply (bwp_mono _ (fun a b2 => b2 = b1 /\ 0 <= a.1 /\ a.2 = rl_data s + (j + 1 + 1) / 2) _ fails);
      [|intros [p1 d1] b2 (-> & Hp1 & Hd1)|done].
    { rewrite land_1. destruct (Z.eqb_spec (j mod 2) 0).
      - apply bwp_octet; [Z.to_euclidean_division_equations; lia|]. intros q _ Hq. unfold is_byte in Hq.
        apply bwp_yields. cbn [fst snd]. split; [done|]. Z.to_euclidean_division_equations; lia.
      - apply bwp_yields. cbn [fst snd]. split; [done|]. Z.to_euclidean_division_equations; lia. }
    cbn [fst snd] in *. cbv zeta. apply put_colour_ok; [|done..|].
    + destruct (_ =? _); [by apply Z.shiftr_nonneg|apply Z.land_nonneg; lia].
    + intros c2 b2 Hc2 Hs2. apply bwp_yields. cbn [fst snd]. by split_and!.
  - intros [[c p] d] b1 (Hc & Hd1 & Hp & Hs1). cbn [fst snd] in *. subst d. apply bwp_bind.
    assert (0 <= (m + 1) / 2) by (apply Z.div_pos; lia).
    eapply bwp_mono; [apply pad_ok; [lia|done]| |done]. intros d b2 [Hd2 Hs2]. apply bwp_yields.
    apply rle_at_ok; [done|lia|done].
Qed.
End Runs.

Lemma rle_safe turn escape start bytes :
  0 <= start -> start + bytes < zlen mem ->
  command_ok (turn (start + bytes)) -> command_ok (escape (start + bytes)) ->
  bwp (bmp_decode_rle mem show turn escape start bytes) (fun r b => r = BMP_OK /\ shaped b0 b) fails b0.
Proof.
  intros Hst He Hturn Hesc. apply bwp_view. pose proof (shaped_refl _ good) as Hs0.
  destruct (bm_ico b0) eqn:Ei; [by apply bwp_stop|].
  apply (bwp_get_buffer_decoded _ b0); [done|]. intros b1 Hs1.
  pose proof (dc_width b0 good). pose proof (dc_height b0 good) as Hh. rewrite Ei in Hh.
  apply rle_loop_ok; try done; try lia; cbn [rl_data]; [split; cbn; lia|lia].
Qed.

(** ** Decoding *)

Lemma rle_result start bytes m :
  bwp m (fun r b => r = BMP_OK /\ shaped b0 b) fails b0 -> 0 <= start ->
  bwp (let* r := m in if bool_decide (r = BMP_OK) then yields start else stop r)
    (decoded start bytes) fails b0.
Proof.
  intros Hm Hst. apply bwp_bind. eapply bwp_mono; [exact Hm| |done]. intros r b [-> Hs].
  rewrite bool_decide_eq_true_2 by done. apply bwp_yields. unfold decoded, reach. split; [lia|done].
Qed.

Lemma legal_cases :
  (bm_encoding b0 = BMP_ENCODING_RGB \/ bm_encoding b0 = BMP_ENCODING_RLE8 /\ bm_bpp b0 = 8 \/
   bm_encoding b0 = BMP_ENCODING_RLE4 /\ bm_bpp b0 = 4 \/ bm_encoding b0 = BMP_ENCODING_BITFIELDS).
Proof.
  pose proof (dc_legal b0 good) as H. unfold legal_encoding in H.
  destruct (Z.eqb_spec (bm_encoding b0) BMP_ENCODING_RGB); [auto|].
  destruct (Z.eqb_spec (bm_encoding b0) BMP_ENCODING_RLE8); [apply Z.eqb_eq in H; auto|].
  destruct (Z.eqb_spec (bm_encoding b0) BMP_ENCODING_RLE4); [apply Z.eqb_eq in H; auto|].
  destruct (Z.eqb_spec (bm_encoding b0) BMP_ENCODING_BITFIELDS); [auto|done].
Qed.

Lemma decode_pixels_safe start bytes :
  handed start bytes -> start < zlen mem -> start + bytes + overread b0 <= zlen mem ->
  bwp (decode_pixels mem base show start bytes) (decoded start bytes) fails b0.
Proof.
  intros Hh Hst Hov. apply bwp_view. cbv zeta. pose proof Hh as [Hs0 _]. unfold overread in Hov.
  destruct legal_cases as [He|[[He Hb]|[[He Hb]|He]]]; rewrite He in *; cbn [Z.eqb BMP_ENCODING_RGB
    BMP_ENCODING_RLE8 BMP_ENCODING_RLE4 BMP_ENCODING_BITFIELDS] in *.
  - destruct (Z.eqb_spec (bm_bpp b0) 32); [by apply rgb32_safe|].
    destruct (Z.eqb_spec (bm_bpp b0) 24); [by apply rgb24_safe|].
    destruct (Z.eqb_spec (bm_bpp b0) 16); [by apply rgb16_safe|].
    apply rgb_safe; [done..|by apply packed_legal].
  - change (BMP_ENCODING_RLE8 =? BMP_ENCODING_RLE8) with true in Hov. rewrite orb_true_r in Hov. cbn in Hov.
    apply rle_result; [|done]. apply rle_safe; [done|lia|apply rle8_run_ok|apply rle8_escape_ok]; lia.
  - change (BMP_ENCODING_RLE4 =? BMP_ENCODING_RLE4) with true in Hov. rewrite orb_true_r in Hov.
    apply rle_result; [|done]. apply rle_safe; [done|lia|apply rle4_run_ok|apply rle4_escape_ok]; lia.
  - destruct (Z.eqb_spec (bm_bpp b0) 32); [by apply rgb32_safe|].
    destruct (Z.eqb_spec (bm_bpp b0) 16); [by apply rgb16_safe|].
    apply bwp_stop. split; [done|by apply shaped_refl].
Qed.
End Safe.

Section Decode.
Context (mem : bytes) (base : Z) (show : list Z -> bool).
Hypothesis octets : wf_bytes mem.

Lemma shaped_trans b b1 b2 : shaped b b1 -> shaped b1 b2 -> shaped b b2.
Proof.
  intros (px & d & ti & -> & Hl) (px1 & d1 & ti1 & -> & Hl1). exists px1, d1, ti1. split; [done|]. exact Hl1.
Qed.

Lemma bmp_decode_ok b :
  decodable mem b -> bm_data b + bm_buffer_size b + overread b <= zlen mem ->
  bwp (bmp_decode mem base show) (fun _ => shaped b) (fun _ => shaped b) b.
Proof.
  intros Hd Hov. pose proof Hd as [? [? ?] Hm ? Hi ? ? ? Hpx ? ?]. apply bwp_view, bwp_assert.
  { destruct Hpx as (px & -> & _). by apply bool_decide_eq_true_2. }
  set (start := bm_data b + bm_bitmap_offset b). set (bytes := s32 _).
  assert (Hb : bytes <= bm_buffer_size b - bm_bitmap_offset b).
  { apply s32_u32_le. destruct (bm_ico b); lia. }
  assert (Hov0 : 0 <= overread b <= 1) by (unfold overread; destruct (_ || _); lia).
  assert (Hst : start < zlen mem).
  { unfold start, overread in *. destruct (bm_ico b); cbn [orb] in Hov; [|lia]. lia. }
  apply bwp_bind. eapply (bwp_mono _ (decoded b start bytes) _ (failed b)); [|intros d b1 [Hd1 Hs1]|by intros r b1 [_ ?]].
  { apply decode_pixels_safe; try done; [split|]; unfold start; lia. }
  destruct (bm_ico b && negb (bm_bpp b =? 32)) eqn:Ei; [|by apply bwp_yields].
  apply andb_prop in Ei as [Ei _].
  assert (Hov1 : overread b = 1) by (unfold overread; by rewrite Ei).
  assert (Hx : s32 (u32 (bm_data b + bm_buffer_size b - d)) <= bm_data b + bm_buffer_size b - d).
  { apply s32_u32_le. unfold reach, start in *. destruct (bm_ico b); lia. }
  eapply bwp_mono; [apply mask_safe; [done|by eapply shaped_decodable|lia|lia]|..].
  - intros r b2 [_ Hs2]. by eapply shaped_trans.
  - intros r b2 [_ Hs2]. by eapply shaped_trans.
Qed.
End Decode.
