(* ===== verification/BmpProperties.v ===== *)
(** * BmpProperties: what an uncompressed bitmap shows, what analysing a file
    establishes, and the theorems about decoding bitmaps and icons. *)
From S2P Require Import Prelude Bmp BmpSafe.

(** * What an uncompressed bitmap shows, pixel by pixel *)

(** ** A word and its octets *)

Lemma u32_land x : u32 x = Z.land x (Z.ones 32).
Proof. unfold u32. by rewrite Z.land_ones. Qed.

Lemma testbit_octet x k n :
  0 <= k -> 0 <= n ->
  Z.testbit (Z.shiftl (Z.land (Z.shiftr x k) 0xFF) k) n = Z.testbit x n && (k <=? n) && (n <? k + 8).
Proof.
  intros Hk Hn. rewrite Z.shiftl_spec by done. change 0xFF with (Z.ones 8).
  destruct (Z.leb_spec k n).
  - rewrite Z.land_spec, Z.shiftr_spec, Z.testbit_ones by lia.
    replace (n - k + k) with n by ring. rewrite andb_true_r. f_equal.
    destruct (Z.leb_spec 0 (n - k)), (Z.ltb_spec (n - k) 8), (Z.ltb_spec n (k + 8)); done || lia.
  - rewrite Z.testbit_neg_r by lia. by rewrite andb_false_r.
Qed.

(** On a little-endian machine reading a word octet by octet does nothing. *)
Lemma reread_id x : 0 <= x < 2 ^ 32 -> reread x = x.
Proof.
  intros Hx. unfold reread, word_of. apply Z.bits_inj'. intros n Hn.
  rewrite <- (Z.shiftl_0_r (Z.land x 0xFF)), <- (Z.shiftr_0_r x) at 1.
  rewrite !u32_land, !Z.land_spec, !Z.lor_spec, !Z.land_spec, !testbit_octet by lia.
  rewrite !Z.testbit_ones by lia.
  destruct (Z.ltb_spec n 32) as [Hlt|Hge].
  - destruct (Z.testbit x n); cbn [andb orb]; [|done].
    destruct (Z.leb_spec 0 n), (Z.leb_spec 8 n), (Z.leb_spec 16 n), (Z.leb_spec 24 n),
      (Z.ltb_spec n (0 + 8)), (Z.ltb_spec n (8 + 8)), (Z.ltb_spec n (16 + 8)), (Z.ltb_spec n (24 + 8));
      try done; lia.
  - rewrite !andb_false_r. symmetry. rewrite <- (Z.mod_small x (2 ^ 32)) by done. by apply Z.mod_pow2_bits_high.
Qed.

(** ** The reference: a pixel as a function of the octets of its row *)

Section Reference.
Context (mem : bytes).

Definition octet (o : Z) : Z := default 0 (znth mem o).
Definition colour24 (o : Z) : Z :=
  Z.lor (Z.lor (octet (o + 2)) (Z.shiftl (octet (o + 1)) 8)) (Z.shiftl (octet o) 16).
Definition word16 (o : Z) : Z := Z.lor (octet o) (Z.shiftl (octet (o + 1)) 8).

(** Five bits to a channel, from [o] on. *)
Definition rgb555 (w : Z) : Z :=
  Z.lor (Z.lor (Z.shiftl (Z.land w 31) 19) (Z.shiftl (Z.land w (Z.shiftl 31 5)) 6))
    (Z.shiftr (Z.land w (Z.shiftl 31 10)) 7).

(** The index of pixel [x], of [bpp] bits, in the octets from [o] on. *)
Definition palette_index (bpp o x : Z) : Z :=
  Z.land (Z.shiftr (octet (o + x / (8 / bpp))) (8 - (x mod (8 / bpp) + 1) * bpp)) (Z.shiftl 1 bpp - 1).

(** The colour of pixel [x] of the row at [o]; an index past the end of the
    palette leaves the bitmap as it is. *)
Definition file_pixel (b : bmp_image) (o x : Z) : option Z :=
  let solid v := if bm_opaque b then Z.lor v opaque_bits else v in
  if bm_bpp b =? 32 then
    let v := colour24 (o + 4 * x) in
    Some (if bm_opaque b then Z.lor v opaque_bits
          else Z.lor v (Z.shiftl (octet (o + 4 * x + 3)) 24))
  else if bm_bpp b =? 24 then Some (Z.lor (colour24 (o + 3 * x)) opaque_bits)
  else if bm_bpp b =? 16 then Some (solid (rgb555 (word16 (o + 2 * x))))
  else
    let i := palette_index (bm_bpp b) o x in
    if i <? bm_colours b then t ← bm_colour_table b; znth t i else None.
End Reference.

(** A row takes a multiple of four octets, of which the last may be padding. *)
Definition row_octets (b : bmp_image) : Z := (bm_width b * bm_bpp b + 7) / 8.
Definition row_stride (b : bmp_image) : Z := 4 * ((row_octets b + 3) / 4).

Section Pixels.
Context (mem : bytes) (base : Z) (show : list Z -> bool) (b0 : bmp_image).
Hypothesis octets : wf_bytes mem.
Hypothesis good : decodable mem b0.
Hypothesis plain : bm_limited_trans b0 = false.
Hypothesis shown : forall px, show px = true.
(** Nothing fails. *)
Definition never_fails (r : bmp_result) (b : bmp_image) : Prop := False.
Local Abbreviation fails := never_fails.
Local Abbreviation w := (bm_width b0).
Local Abbreviation h := (bm_height b0).

Definition paint (px : list Z) : bmp_image := set_bm_bitmap (Some px) (set_bm_decoded true b0).
Definition index (y x : Z) : Z := w * row_of b0 y + x.
Definition over (v o : option Z) : option Z := match v with Some v => Some v | None => o end.
Definition put (y x : Z) (v : option Z) (px : list Z) : list Z :=
  match v with Some v => <[Z.to_nat (index y x) := v]> px | None => px end.

Lemma index_bounds y x : 0 <= y < h -> 0 <= x < w -> 0 <= index y x < w * h.
Proof. intros Hy Hx. apply index_range; [by apply row_range|done]. Qed.

Lemma index_inj y x y1 x1 :
  0 <= x < w -> 0 <= x1 < w -> index y x = index y1 x1 -> y = y1 /\ x = x1.
Proof.
  unfold index. intros Hx Hx1 E.
  assert (row_of b0 y = row_of b0 y1) as Er by nia.
  split; [|nia]. unfold row_of in Er. destruct (bm_reversed b0); lia.
Qed.

Lemma zlen_put y x v px : zlen (put y x v px) = zlen px.
Proof. destruct v; [apply zlen_update|done]. Qed.

Lemma put_spec y x v px y1 x1 :
  zlen px = w * h -> 0 <= y < h -> 0 <= x < w -> 0 <= y1 < h -> 0 <= x1 < w ->
  znth (put y x v px) (index y1 x1) =
    if (y1 =? y) && (x1 =? x) then over v (znth px (index y1 x1)) else znth px (index y1 x1).
Proof.
  intros Hl Hy Hx Hy1 Hx1. pose proof (index_bounds y x Hy Hx). pose proof (index_bounds y1 x1 Hy1 Hx1).
  destruct v as [v|]; cbn [put over]; [|by destruct (_ && _)].
  rewrite !znth_nonneg by lia.
  destruct (Z.eqb_spec y1 y) as [->|Hn]; cbn [andb].
  - destruct (Z.eqb_spec x1 x) as [->|Hn].
    + rewrite list_lookup_insert_eq; [done|]. unfold zlen in Hl. lia.
    + apply list_lookup_insert_ne. intros E. apply Hn.
      destruct (index_inj y x1 y x); [done..|lia|done].
  - apply list_lookup_insert_ne. intros E. apply Hn.
    destruct (index_inj y1 x1 y x); [done..|lia|done].
Qed.

Lemma store_put y x v px E :
  zlen px = w * h -> 0 <= y < h -> 0 <= x < w ->
  bwp (store (cell (scanline_of b0 y) x) v) (fun _ b => b = paint (put y x (Some v) px)) E (paint px).
Proof.
  intros Hl Hy Hx. rewrite (scanline_row mem) by done. unfold store. apply bwp_view.
  cbn [paint set_bm_bitmap bm_bitmap].
  destruct (znth_is_Some px (index y x)) as [v0 Hv]; [rewrite Hl; by apply index_bounds|].
  unfold bwp, andthen, sound. cbn [mbind option_bind]. rewrite pixel_cell. fold (index y x). rewrite Hv.
  unfold update, paint. bm_cbn. unfold cell, put, index.
  replace (4 * (w * row_of b0 y) + 4 * x) with ((w * row_of b0 y + x) * 4) by ring.
  rewrite Z.div_mul by lia. done.
Qed.

(** The first [n] pixels of row [y] are those of [val]. *)
Definition row_upto (y n : Z) (val : Z -> option Z) (px px1 : list Z) : Prop :=
  zlen px1 = w * h /\ forall y1 x1, 0 <= y1 < h -> 0 <= x1 < w ->
    znth px1 (index y1 x1) =
      if (y1 =? y) && (x1 <? n) then over (val x1) (znth px (index y1 x1)) else znth px (index y1 x1).

Lemma row_paints {S} (J : Z -> S -> Prop) (body : Z -> S -> decodes S) val y a px Q :
  0 <= y < h -> zlen px = w * h -> J 0 a ->
  (forall x a px, 0 <= x < w -> J x a -> zlen px = w * h ->
     bwp (body x a) (fun a1 b1 => J (x + 1) a1 /\ b1 = paint (put y x (val x) px)) fails (paint px)) ->
  (forall a1 px1, J w a1 -> row_upto y w val px px1 -> Q a1 (paint px1)) ->
  bwp (for_loop (Z.to_nat w) 0 body a) Q fails (paint px).
Proof.
  intros Hy Hl H0 Hb HQ. pose proof (dc_width _ _ good).
  apply (bwp_upto (fun x a1 b1 => J x a1 /\ exists px1, b1 = paint px1 /\ row_upto y x val px px1)); [lia| | |].
  - split; [done|]. exists px. split; [done|]. split; [done|]. intros y1 x1 Hy1 Hx1.
    destruct (Z.ltb_spec x1 0); [lia|]. by rewrite andb_false_r.
  - intros x a1 b1 Hx (HJ & px1 & -> & Hl1 & Hr). eapply bwp_mono; [by apply Hb| |done].
    intros a2 b2 [HJ2 ->]. split; [done|]. eexists. split; [done|]. split; [by rewrite zlen_put|].
    intros y1 x1 Hy1 Hx1. rewrite put_spec, Hr by done.
    destruct (Z.eqb_spec y1 y); cbn [andb]; [|done].
    destruct (Z.eqb_spec x1 x), (Z.ltb_spec x1 x), (Z.ltb_spec x1 (x + 1)); try lia; try done. by subst x1.
  - intros a1 b1 (HJ & px1 & -> & Hr). by apply HQ.
Qed.

(** All rows before [n]. *)
Definition rows_upto (n : Z) (val : Z -> Z -> option Z) (px px1 : list Z) : Prop :=
  zlen px1 = w * h /\ forall y1 x1, 0 <= y1 < h -> 0 <= x1 < w ->
    znth px1 (index y1 x1) =
      if y1 <? n then over (val y1 x1) (znth px (index y1 x1)) else znth px (index y1 x1).

Lemma rows_paint {S} (D : Z -> S -> Prop) (turn : Z -> S -> decodes S) val a px Q :
  0 <= h -> zlen px = w * h -> D 0 a ->
  (forall y a px, 0 <= y < h -> D y a -> zlen px = w * h ->
     bwp (turn y a) (fun a1 b1 => D (y + 1) a1 /\ exists px1, b1 = paint px1 /\ row_upto y w (val y) px px1)
       fails (paint px)) ->
  (forall a1 px1, rows_upto h val px px1 -> Q a1 (paint px1)) ->
  bwp (for_loop (Z.to_nat h) 0 turn a) Q fails (paint px).
Proof.
  intros Hh Hl H0 Hb HQ.
  apply (bwp_upto (fun y a1 b1 => D y a1 /\ exists px1, b1 = paint px1 /\ rows_upto y val px px1)); [done| | |].
  - split; [done|]. exists px. split; [done|]. split; [done|]. intros y1 x1 Hy1 Hx1.
    by destruct (Z.ltb_spec y1 0); [lia|].
  - intros y a1 b1 Hy (HD & px1 & -> & Hl1 & Hr). eapply bwp_mono; [by apply Hb| |done].
    intros a2 b2 (HD2 & px2 & -> & Hl2 & Hr2). split; [done|]. exists px2. split; [done|]. split; [done|].
    intros y1 x1 Hy1 Hx1. rewrite Hr2, Hr by done.
    destruct (Z.ltb_spec x1 w); [|lia]. rewrite andb_true_r.
    destruct (Z.eqb_spec y1 y), (Z.ltb_spec y1 y), (Z.ltb_spec y1 (y + 1)); try lia; try done. by subst y1.
  - intros a1 b1 (HD & px1 & -> & Hr). by apply HQ.
Qed.

(** ** Reading *)

Local Abbreviation at_ := (octet mem).

Lemma bwp_octet_is {A} o (k : Z -> decodes A) (Q : A -> bmp_image -> Prop) E b :
  0 <= o < zlen mem -> (is_byte (at_ o) -> bwp (k (at_ o)) Q E b) -> bwp (andthen (octet_at mem o) k) Q E b.
Proof.
  intros Ho H. apply (bwp_octet mem octets); [done|]. intros c Hc Hb. unfold octet in H. rewrite Hc in H. by apply H.
Qed.

Lemma bwp_colour_is {A} o (k : Z -> decodes A) (Q : A -> bmp_image -> Prop) E b :
  0 <= o -> o + 3 <= zlen mem -> bwp (k (colour24 mem o)) Q E b -> bwp (andthen (read_colour mem o) k) Q E b.
Proof.
  intros Ho Hl H. apply bwp_bind. unfold read_colour.
  do 3 (apply bwp_octet_is; [lia|]; intros _). apply bwp_yields, H.
Qed.

(** ** Words *)

Definition is_word (x : Z) : Prop := 0 <= x < 2 ^ 32.

Lemma below_pow x n : 0 <= n -> 0 <= x < 2 ^ n <-> 0 <= x /\ Z.land x (Z.ones n) = x.
Proof.
  intros Hn. rewrite Z.land_ones by done. split.
  - intros Hx. split; [lia|by apply Z.mod_small].
  - intros [Hx <-]. apply Z.mod_pos_bound. lia.
Qed.

Lemma lor_word a b : is_word a -> is_word b -> is_word (Z.lor a b).
Proof.
  unfold is_word. intros Ha Hb. apply below_pow in Ha as [Ha1 Ha2], Hb as [Hb1 Hb2]; try lia.
  apply below_pow; [lia|]. split; [apply Z.lor_nonneg; lia|]. by rewrite Z.land_lor_distr_l, Ha2, Hb2.
Qed.

Lemma octet_range o : 0 <= at_ o < 256.
Proof.
  unfold octet. destruct (znth mem o) eqn:E; [|cbn; lia]. apply (Forall_znth _ _ _ _ octets) in E. exact E.
Qed.

Lemma octet_word o k : 0 <= k <= 24 -> is_word (Z.shiftl (at_ o) k).
Proof.
  intros Hk. pose proof (octet_range o). rewrite Z.shiftl_mul_pow2 by lia. split; [nia|].
  pose proof (Z.pow_le_mono_r 2 k 24 ltac:(lia) ltac:(lia)). nia.
Qed.

Lemma colour_word o : is_word (colour24 mem o).
Proof.
  unfold colour24. repeat apply lor_word; try by apply octet_word.
  rewrite <- (Z.shiftl_0_r (at_ _)). by apply octet_word.
Qed.

Lemma opaque_word : is_word opaque_bits.
Proof. done. Qed.

Lemma word16_range o : 0 <= word16 mem o < 2 ^ 16.
Proof.
  unfold word16. pose proof (octet_range o). pose proof (octet_range (o + 1)).
  assert (Ha : 0 <= at_ o < 2 ^ 16) by lia.
  assert (Hb : 0 <= Z.shiftl (at_ (o + 1)) 8 < 2 ^ 16) by (rewrite Z.shiftl_mul_pow2; lia).
  apply below_pow in Ha as [Ha1 Ha2], Hb as [Hb1 Hb2]; try lia.
  apply below_pow; [lia|]. split; [apply Z.lor_nonneg; lia|]. by rewrite Z.land_lor_distr_l, Ha2, Hb2.
Qed.

Lemma land_below a m n : 0 <= n -> 0 <= a < 2 ^ n -> 0 <= Z.land a m < 2 ^ n.
Proof.
  intros Hn Ha. apply below_pow in Ha as [Ha1 Ha2]; [|done]. apply below_pow; [done|].
  split; [apply Z.land_nonneg; by left|]. by rewrite <- Z.land_assoc, (Z.land_comm m), Z.land_assoc, Ha2.
Qed.

Lemma rgb555_word v : 0 <= v < 2 ^ 16 -> is_word (rgb555 v).
Proof.
  intros Hv. unfold rgb555. pose proof (land_below v (Z.shiftl 31 5) 16 ltac:(lia) Hv).
  pose proof (land_below v (Z.shiftl 31 10) 16 ltac:(lia) Hv).
  pose proof (land_below 31 v 5 ltac:(lia) ltac:(lia)) as H3. rewrite Z.land_comm in H3.
  change (Z.shiftl 31 5) with 992 in *. change (Z.shiftl 31 10) with 31744 in *.
  repeat apply lor_word; unfold is_word; rewrite ?Z.shiftl_mul_pow2, ?Z.shiftr_div_pow2 by lia.
  - lia.
  - lia.
  - split; [apply Z.div_pos; lia|apply Z.div_lt_upper_bound; lia].
Qed.

Lemma solid_word v : is_word v -> is_word (if bm_opaque b0 then Z.lor v opaque_bits else v).
Proof. intros Hv. destruct (bm_opaque b0); [by apply lor_word|done]. Qed.

Lemma bwp_uint16_is {A} o (k : Z -> decodes A) (Q : A -> bmp_image -> Prop) E b :
  0 <= o -> o + 2 <= zlen mem -> bwp (k (word16 mem o)) Q E b ->
  bwp (andthen (read_uint16 mem o 0) k) Q E b.
Proof.
  intros Ho Hl H. apply bwp_bind. unfold read_uint16. rewrite Z.add_0_r.
  do 2 (apply bwp_octet_is; [lia|]; intros _). apply bwp_yields. fold (word16 mem o).
  unfold u16. rewrite Z.mod_small by apply word16_range. exact H.
Qed.

(** ** Pixels of a size in octets *)

(** The pixel at [d] shows [val d]. *)
Definition shows (n : Z) (body : Z -> Z -> Z -> decodes Z) (val : Z -> Z) : Prop :=
  forall y x d px, 0 <= y < h -> 0 <= x < w -> zlen px = w * h -> 0 <= d -> d + n <= zlen mem ->
    bwp (body (scanline_of b0 y) x d)
      (fun d1 b1 => d1 = d + n /\ b1 = paint (put y x (Some (val d)) px)) fails (paint px).

Ltac stored := eapply bwp_bind, bwp_mono; [by apply store_put|intros [] b1 ->; by apply bwp_yields|done].

Lemma rgb32_shows :
  shows 4 (rgb32_pixel mem) (fun d =>
    let v := colour24 mem d in
    if bm_opaque b0 then Z.lor v opaque_bits else Z.lor v (Z.shiftl (at_ (d + 3)) 24)).
Proof.
  intros y x d px Hy Hx Hl Hd He. apply bwp_view. apply bwp_colour_is; [lia..|].
  cbn [paint set_bm_bitmap set_bm_decoded bm_limited_trans bm_opaque]. rewrite plain. cbn [andb].
  apply bwp_bind. destruct (bm_opaque b0).
  - apply bwp_yields. rewrite reread_id by (apply lor_word; [apply colour_word|done]). stored.
  - apply bwp_octet_is; [lia|]. intros _. apply bwp_yields.
    rewrite reread_id by (apply lor_word; [apply colour_word|by apply octet_word]). stored.
Qed.

Lemma rgb24_shows :
  shows 3 (rgb24_pixel mem) (fun d => Z.lor (colour24 mem d) opaque_bits).
Proof.
  intros y x d px Hy Hx Hl Hd He. apply bwp_view. apply bwp_colour_is; [lia..|].
  cbn [paint set_bm_bitmap set_bm_decoded bm_limited_trans]. rewrite plain. cbn [andb].
  rewrite reread_id by (apply lor_word; [apply colour_word|done]). stored.
Qed.

Lemma rgb16_shows :
  shows 2 (rgb16_pixel mem) (fun d =>
    let v := rgb555 (word16 mem d) in if bm_opaque b0 then Z.lor v opaque_bits else v).
Proof.
  intros y x d px Hy Hx Hl Hd He. apply bwp_view. apply bwp_uint16_is; [lia..|].
  cbn [paint set_bm_bitmap set_bm_decoded bm_limited_trans bm_opaque]. rewrite plain. cbn [andb]. cbv zeta.
  pose proof (word16_range d) as Hw. fold (rgb555 (word16 mem d)).
  rewrite reread_id by apply solid_word, rgb555_word, Hw. stored.
Qed.

Lemma row_shows n body val y d px Q :
  shows n body val -> 0 <= n -> 0 <= y < h -> zlen px = w * h -> 0 <= d -> d + n * w <= zlen mem ->
  (forall px1, row_upto y w (fun x => Some (val (d + n * x))) px px1 -> Q (d + n * w) (paint px1)) ->
  bwp (for_loop (Z.to_nat w) 0 (body (scanline_of b0 y)) d) Q fails (paint px).
Proof.
  intros Hs Hn Hy Hl Hd He HQ.
  apply (row_paints (fun x d1 => d1 = d + n * x) _ (fun x => Some (val (d + n * x))) y); [done|done|lia| |].
  - intros x d1 px1 Hx -> Hl1. eapply bwp_mono; [apply Hs; [done..|nia|nia]| |done].
    intros d2 b2 [-> ->]. split; [ring|done].
  - intros d1 px1 -> Hr. by apply HQ.
Qed.

(** ** Rows *)

Definition row_end_ok (start y d : Z) : Prop := d = start + row_stride b0 * y.

(** All rows are there. *)
Record fits (start bytes : Z) : Prop := {
  ft_start : 0 <= start;
  ft_end : start + bytes <= zlen mem;
  ft_rows : 0 < h -> row_stride b0 * (h - 1) + row_octets b0 <= bytes
}.

Hypothesis enc : bm_encoding b0 = BMP_ENCODING_RGB.

Lemma bpp_cases :
  bm_bpp b0 = 1 \/ bm_bpp b0 = 4 \/ bm_bpp b0 = 8 \/ bm_bpp b0 = 16 \/ bm_bpp b0 = 24 \/ bm_bpp b0 = 32.
Proof.
  pose proof (dc_legal _ _ good) as Hl. rewrite enc in Hl. change (rgb_bpp (bm_bpp b0) = true) in Hl.
  unfold rgb_bpp in Hl.
  destruct (Z.eqb_spec (bm_bpp b0) 1), (Z.eqb_spec (bm_bpp b0) 4), (Z.eqb_spec (bm_bpp b0) 8),
    (Z.eqb_spec (bm_bpp b0) 16), (Z.eqb_spec (bm_bpp b0) 24), (Z.eqb_spec (bm_bpp b0) 32); auto 7; done.
Qed.

Lemma octets_nonneg : 0 <= row_octets b0 <= row_stride b0 /\ row_stride b0 mod 4 = 0 /\ row_stride b0 < row_octets b0 + 4.
Proof.
  pose proof (dc_width _ _ good). unfold row_stride.
  assert (0 <= row_octets b0) by (unfold row_octets; pose proof bpp_cases; apply Z.div_pos; nia).
  rewrite Z.mul_comm, Z.mod_mul by lia. Z.to_euclidean_division_equations; lia.
Qed.

Lemma fits_row start bytes y :
  fits start bytes -> 0 <= y < h ->
  0 <= start + row_stride b0 * y /\
  start + row_stride b0 * y + row_octets b0 <= start + bytes /\ start + bytes <= zlen mem.
Proof.
  intros [Hs He Hr] Hy. pose proof (Hr ltac:(lia)). pose proof octets_nonneg. nia.
Qed.

(** The padding leads to the next row. *)
Lemma padded_row start d y d1 :
  d = start + row_stride b0 * y + row_octets b0 -> d <= d1 <= d + 3 -> (d1 - start) mod 4 = 0 ->
  d1 = start + row_stride b0 * (y + 1).
Proof.
  intros -> Hd Hm. destruct octets_nonneg as (_ & Hst & Hlt).
  pose proof octets_nonneg as (? & _ & _).
  assert (exists k, row_stride b0 = 4 * k) as [k Hk].
  { exists (row_stride b0 / 4). apply Z.div_exact; lia. }
  assert (exists j, d1 - start = 4 * j) as [j Hj].
  { exists ((d1 - start) / 4). apply Z.div_exact; lia. }
  rewrite Hk in *. assert (j = k * y + k) by nia. lia.
Qed.

(** The value of every pixel, for a decoder that starts at [start]. *)
Definition shown_all (start : Z) (px px1 : list Z) : Prop :=
  rows_upto h (fun y x => file_pixel mem b0 (start + row_stride b0 * y) x) px px1.

Definition decodes_to (start : Z) (px : list Z) (m : decodes Z) : Prop :=
  bwp m (fun _ b1 => exists px1, b1 = paint px1 /\ shown_all start px px1) fails b0.

Lemma height_nonneg : 0 <= h.
Proof. pose proof (dc_height _ _ good). destruct (bm_ico b0); lia. Qed.

Lemma bwp_shown {A} (k : unit -> decodes A) (Q : A -> bmp_image -> Prop) E px :
  bm_bitmap b0 = Some px -> bwp (k tt) Q E (paint px) -> bwp (andthen (get_buffer_decoded show) k) Q E b0.
Proof.
  intros Hp H. apply bwp_bind. unfold get_buffer_decoded, get_buffer. apply bwp_bind, bwp_view.
  rewrite Hp. cbn [fmap option_fmap option_map default]. rewrite shown. apply bwp_yields.
  unfold bwp, update.
  replace (set_bm_decoded true b0) with (paint px); [exact H|]. unfold paint.
  destruct b0. bm_cbn. by rewrite Hp.
Qed.

Lemma u32_row n : 0 <= n <= 4 -> u32 (n * w) = n * w.
Proof. intros Hn. pose proof (dc_width _ _ good). apply u32_small. nia. Qed.

Lemma bwp_need_ok {A} d n e (k : unit -> decodes A) (Q : A -> bmp_image -> Prop) E b :
  d + n <= e -> bwp (k tt) Q E b -> bwp (andthen (need d n e) k) Q E b.
Proof.
  intros Hl H. apply bwp_bind. unfold need. destruct (Z.ltb_spec e (d + n)); [lia|]. by apply bwp_yields.
Qed.

Lemma rgb32_decodes start bytes px :
  fits start bytes -> bm_bpp b0 = 32 -> bm_bitmap b0 = Some px -> zlen px = w * h ->
  decodes_to start px (bmp_decode_rgb32 mem show start bytes).
Proof.
  intros Hf Hb Hp Hl. apply bwp_view, bwp_assert; [by rewrite Hb|]. apply (bwp_shown _ _ _ px); [done|].
  rewrite plain. apply bwp_bind, bwp_yields.
  assert (Hro : row_octets b0 = 4 * w /\ row_stride b0 = 4 * w).
  { unfold row_stride, row_octets. rewrite Hb. Z.to_euclidean_division_equations; lia. }
  destruct Hro as [Hro Hst].
  apply (rows_paint (row_end_ok start) _ (fun y x => file_pixel mem b0 (start + row_stride b0 * y) x));
    [apply height_nonneg|done|unfold row_end_ok; lia| |by eauto].
  intros y d px1 Hy -> Hl1. destruct (fits_row start bytes y Hf Hy) as (H1 & H2 & H3).
  rewrite u32_row by lia. apply bwp_need_ok; [lia|]. rewrite enc.
  apply (row_shows 4 _ _ y _ px1 _ rgb32_shows); [lia|done|done|done|lia|].
  intros px2 Hr. split; [unfold row_end_ok; lia|]. exists px2. split; [done|].
  destruct Hr as [Hl2 Hr]. split; [done|]. intros y1 x1 Hy1 Hx1. rewrite Hr by done.
  unfold file_pixel. by rewrite Hb.
Qed.

Lemma rgb24_decodes start bytes px :
  fits start bytes -> bm_bpp b0 = 24 -> bm_bitmap b0 = Some px -> zlen px = w * h ->
  decodes_to start px (bmp_decode_rgb24 mem base show start bytes).
Proof.
  intros Hf Hb Hp Hl. apply bwp_view, bwp_assert; [by rewrite enc|]. apply bwp_assert; [by rewrite Hb|].
  apply (bwp_shown _ _ _ px); [done|]. rewrite plain. apply bwp_bind, bwp_yields.
  assert (Hro : row_octets b0 = 3 * w).
  { unfold row_octets. rewrite Hb. Z.to_euclidean_division_equations; lia. }
  apply (rows_paint (row_end_ok start) _ (fun y x => file_pixel mem b0 (start + row_stride b0 * y) x));
    [apply height_nonneg|done|unfold row_end_ok; lia| |by eauto].
  intros y d px1 Hy -> Hl1. destruct (fits_row start bytes y Hf Hy) as (H1 & H2 & H3).
  rewrite u32_row by lia. apply bwp_need_ok; [lia|]. apply bwp_bind.
  apply (row_shows 3 _ _ y _ px1 _ rgb24_shows); [lia|done|done|done|lia|].
  intros px2 [Hl2 Hr]. apply skip_1. intros d1 Hd1 Hm.
  split; [eapply padded_row; [reflexivity|lia|done]|]. exists px2. split; [done|]. split; [done|].
  intros y1 x1 Hy1 Hx1. rewrite Hr by done. unfold file_pixel. by rewrite Hb.
Qed.

Lemma rgb16_decodes start bytes px :
  fits start bytes -> bm_bpp b0 = 16 -> bm_bitmap b0 = Some px -> zlen px = w * h ->
  decodes_to start px (bmp_decode_rgb16 mem base show start bytes).
Proof.
  intros Hf Hb Hp Hl. apply bwp_view. apply (bwp_shown _ _ _ px); [done|].
  rewrite plain. apply bwp_bind, bwp_yields.
  assert (Hro : row_octets b0 = 2 * w).
  { unfold row_octets. rewrite Hb. Z.to_euclidean_division_equations; lia. }
  apply (rows_paint (row_end_ok start) _ (fun y x => file_pixel mem b0 (start + row_stride b0 * y) x));
    [apply height_nonneg|done|unfold row_end_ok; lia| |by eauto].
  intros y d px1 Hy -> Hl1. destruct (fits_row start bytes y Hf Hy) as (H1 & H2 & H3).
  rewrite u32_row by lia. apply bwp_need_ok; [lia|]. rewrite enc. apply bwp_bind.
  apply (row_shows 2 _ _ y _ px1 _ rgb16_shows); [lia|done|done|done|lia|].
  intros px2 [Hl2 Hr]. apply skip_2; [|intros d1 Hd1 Hm].
  - pose proof octets_nonneg as (_ & Hm4 & _).
    replace (start + row_stride b0 * y + 2 * w - start) with (row_stride b0 * y + w * 2) by ring.
    rewrite Z.mod_add by lia. apply Z.mod_divide; [lia|]. apply Z.divide_mul_l.
    apply Z.mod_divide in Hm4; [|lia]. eapply Z.divide_trans; [|exact Hm4]. by exists 2.
  - split; [eapply padded_row; [reflexivity|lia|done]|]. exists px2. split; [done|]. split; [done|].
    intros y1 x1 Hy1 Hx1. rewrite Hr by done. unfold file_pixel. by rewrite Hb.
Qed.

(** ** Palettes *)

Section Palette.
Local Abbreviation ppb := (8 / bm_bpp b0).
Hypothesis pack : packed (bm_bpp b0) ppb.

Definition shifts : list Z :=
  map (fun i => u8 (8 - (Z.of_nat i + 1) * bm_bpp b0)) (List.seq 0 (Z.to_nat ppb)).

Lemma znth_shifts i : 0 <= i < ppb -> znth shifts i = Some (8 - (i + 1) * bm_bpp b0).
Proof.
  intros Hi. unfold shifts. rewrite znth_nonneg by lia. rewrite list_lookup_fmap.
  destruct (lookup_lt_is_Some_2 (List.seq 0 (Z.to_nat ppb)) (Z.to_nat i)) as [k Hk].
  { rewrite List.length_seq. lia. }
  rewrite Hk. cbn [fmap option_fmap option_map]. apply lookup_seq in Hk as [-> ?]. f_equal.
  rewrite Nat.add_0_l, Z2Nat.id by lia. unfold u8. apply Z.mod_small.
  destruct pack as [[E1 E2]|[[E1 E2]|[E1 E2]]]; rewrite E2 in Hi; rewrite E1; lia.
Qed.

(** After [x] pixels of the row at [d], the current octet is that of the last. *)
Definition current d x (a : Z * Z * Z) : Prop :=
  unpacked ppb d x a /\ (0 < x -> a.1.2 = at_ (d + (x - 1) / ppb)).

Lemma rgb_pixel_shows y x d a px :
  0 <= y < h -> 0 <= x < w -> zlen px = w * h -> 0 <= d -> d + (w + ppb - 1) / ppb <= zlen mem ->
  current d x a ->
  bwp (rgb_pixel mem ppb shifts (u8 (Z.shiftl 1 (bm_bpp b0) - 1)) (scanline_of b0 y) x a)
    (fun a1 b1 => current d (x + 1) a1 /\ b1 = paint (put y x (file_pixel mem b0 d x) px)) fails (paint px).
Proof.
  intros Hy Hx Hl Hd He [Hu Hcur].
  pose proof (unpacked_step _ _ d x a pack ltac:(lia) Hu) as Hst.
  assert (Hpp : 0 < ppb) by (destruct pack as [[_ ->]|[[_ ->]|[_ ->]]]; lia).
  assert (Hw : x / ppb = (x + ppb - 1) / ppb /\ (x + ppb - 1) / ppb < (w + ppb - 1) / ppb /\ x mod ppb = 0 \/
               0 < x /\ (x - 1) / ppb = x / ppb /\ x mod ppb <> 0).
  { destruct pack as [[_ ->]|[[_ ->]|[_ ->]]]; Z.to_euclidean_division_equations; lia. }
  assert (H0 : 0 <= (x + ppb - 1) / ppb) by (apply Z.div_pos; lia).
  destruct a as [[bit cur] data]. destruct Hu as [Hdata Hbit]. cbn [fst snd] in *.
  unfold rgb_pixel. apply bwp_bind.
  apply (bwp_mono _ (fun a1 b1 => b1 = paint px /\ a1 = (x mod ppb, at_ (d + x / ppb), d + (x + 1 + ppb - 1) / ppb)) _ fails);
    [|intros a1 b1 [-> ->]|done].
  { destruct (Z.leb_spec ppb bit) as [Hle|Hgt]; destruct Hst as [(? & Hn & Hm)|(? & Hn & Hm & ?)]; try lia;
      destruct Hw as [(Hq & Hlt & Hz)|(Hpos & Hq & Hz)]; try lia.
    - apply bwp_octet_is; [lia|]. intros _. apply bwp_yields. split; [done|].
      rewrite Hdata, Hq, Hz, Hn. f_equal; ring.
    - apply bwp_yields. split; [done|]. rewrite Hcur by done.
      rewrite Hq, Hn, <- Hdata, <- Hm. done. }
  pose proof (Z.mod_pos_bound x ppb Hpp) as Hmod.
  eapply bwp_sound; [by apply znth_shifts|]. cbv zeta. apply bwp_view.
  assert (Hmask : u8 (Z.shiftl 1 (bm_bpp b0) - 1) = Z.shiftl 1 (bm_bpp b0) - 1).
  { destruct pack as [[-> _]|[[-> _]|[-> _]]]; done. }
  rewrite Hmask. fold (palette_index mem (bm_bpp b0) d x).
  assert (Hidx : 0 <= palette_index mem (bm_bpp b0) d x).
  { apply Z.land_nonneg. right. destruct pack as [[-> _]|[[-> _]|[-> _]]]; done. }
  assert (Hfp : file_pixel mem b0 d x =
    let i := palette_index mem (bm_bpp b0) d x in
    if i <? bm_colours b0 then t ← bm_colour_table b0; znth t i else None).
  { unfold file_pixel. destruct pack as [[-> _]|[[-> _]|[-> _]]]; done. }
  cbv zeta in Hfp. cbn [paint set_bm_bitmap set_bm_decoded bm_colours].
  assert (Hend : current d (x + 1) (x mod ppb + 1, at_ (d + x / ppb), d + (x + 1 + ppb - 1) / ppb)).
  { split; [split; cbn [fst snd]; [done|]|].
    - rewrite (proj2 (Z.eqb_neq (x + 1) 0)) by lia. by replace (x + 1 - 1) with x by ring.
    - intros _. cbn [fst snd]. by replace (x + 1 - 1) with x by ring. }
  destruct (Z.ltb_spec (palette_index mem (bm_bpp b0) d x) (bm_colours b0)) as [Hlt|Hge].
  2:{ apply bwp_bind, bwp_yields, bwp_yields. rewrite Hfp. by split. }
  apply bwp_bind, bwp_bind, bwp_view. cbn [paint set_bm_bitmap set_bm_decoded bm_colour_table].
  destruct (dc_table _ _ good (few_bits b0 _ pack)) as (t & Ht & Htl). rewrite Ht in *.
  destruct (znth_is_Some t (palette_index mem (bm_bpp b0) d x)) as [v Hv]; [lia|].
  unfold bwp at 1, sound. cbn [mbind option_bind] in *. rewrite Hv in *.
  change (bm_limited_trans (paint px)) with (bm_limited_trans b0). rewrite plain. cbn [andb].
  eapply bwp_mono; [by apply store_put| |done]. intros [] b1 ->. apply bwp_yields. rewrite Hfp. by split.
Qed.

Lemma rgb_decodes start bytes px :
  fits start bytes -> bm_bitmap b0 = Some px -> zlen px = w * h ->
  decodes_to start px (bmp_decode_rgb mem base show start bytes).
Proof.
  intros Hf Hp Hl. apply bwp_view. pose proof (dc_width _ _ good) as Hw.
  assert (Hppb : u8 ppb = ppb) by (destruct pack as [[_ ->]|[[_ ->]|[_ ->]]]; done).
  assert (Hpos : 1 <= ppb <= 8) by (destruct pack as [[_ ->]|[[_ ->]|[_ ->]]]; lia).
  apply bwp_assert; [destruct pack as [[-> _]|[[-> _]|[-> _]]]; done|].
  cbv zeta. rewrite Hppb. apply bwp_assert; [apply Z.leb_le; lia|].
  apply (bwp_shown _ _ _ px); [done|]. rewrite plain. apply bwp_bind, bwp_yields. apply bwp_bind.
  assert (Hro : row_octets b0 = (w + ppb - 1) / ppb).
  { unfold row_octets. destruct pack as [[-> ->]|[[-> ->]|[-> ->]]]; Z.to_euclidean_division_equations; lia. }
  fold shifts.
  apply (rows_paint (fun y a => row_end_ok start y a.2) _ (fun y x => file_pixel mem b0 (start + row_stride b0 * y) x));
    [apply height_nonneg|done|unfold row_end_ok; cbn [snd]; lia| |intros a px1 H; apply bwp_yields; by eauto].
  intros y [cur d] px1 Hy Hd Hl1. cbn [snd] in Hd. unfold row_end_ok in Hd. subst d.
  destruct (fits_row start bytes y Hf Hy) as (H1 & H2 & H3).
  rewrite u32_small by lia. rewrite <- Hro. apply bwp_need_ok; [lia|]. apply bwp_bind.
  apply (row_paints (current (start + row_stride b0 * y)) _ (file_pixel mem b0 (start + row_stride b0 * y)) y);
    [done|done| | |].
  - split; [split; [|done]|intros; lia]. cbn [snd]. rewrite Z.add_0_l, (Z.div_small (_ - 1)) by lia. lia.
  - intros x a px2 Hx Ha Hl2. apply rgb_pixel_shows; try done; lia.
  - intros [[bit cur1] d1] px2 [[Hd1 _] _] Hr. cbn [fst snd] in Hd1. apply bwp_bind, skip_1.
    intros d2 Hd2 Hm. apply bwp_yields. cbn [snd].
    split; [eapply (padded_row start d1); [lia|lia|done]|]. by exists px2.
Qed.
End Palette.
End Pixels.


(** What the client's function promises: a bitmap of the size asked for; one of
    4 GB or more cannot be had. *)
Definition bitmaps_fit (create : Z -> Z -> Z -> option (list Z)) : Prop :=
  forall w h flags px, create w h flags = Some px -> zlen px = w * h /\ 4 * (w * h) < 2 ^ 32.

Section Analyse.
Context (mem : bytes) (malloc_ok : Z -> bool) (create : Z -> Z -> Z -> option (list Z)).
Hypothesis octets : wf_bytes mem.
Hypothesis fit : bitmaps_fit create.

(** An image of which only the file is known. *)
Record raw b : Prop := {
  rw_data : 0 <= bm_data b;
  rw_size : 0 <= bm_buffer_size b < 2 ^ 32;
  rw_mem : bm_data b + bm_buffer_size b <= zlen mem;
  rw_encoding : bm_encoding b = BMP_ENCODING_RGB;
  rw_bitmap : bm_bitmap b = None;
  rw_table : bm_colour_table b = None;
  rw_offset : 0 <= bm_bitmap_offset b /\ (bm_ico b = false -> bm_bitmap_offset b < bm_buffer_size b)
}.

(** The header says nothing about these. *)
Record same_file b b1 : Prop := {
  sf_data : bm_data b1 = bm_data b;
  sf_size : bm_buffer_size b1 = bm_buffer_size b;
  sf_offset : bm_bitmap_offset b1 = bm_bitmap_offset b;
  sf_ico : bm_ico b1 = bm_ico b;
  sf_bitmap : bm_bitmap b1 = bm_bitmap b;
  sf_table : bm_colour_table b1 = bm_colour_table b
}.

Lemma same_file_trans b b1 b2 : same_file b b1 -> same_file b1 b2 -> same_file b b2.
Proof. intros [] []. split; congruence. Qed.

(** Nothing is left behind by a failure. *)
Definition given_up (r : bmp_result) b : Prop :=
  r <> BMP_OK /\ bm_bitmap b = None /\ bm_colour_table b = None.

Lemma given_up_same b b1 r : raw b -> same_file b b1 -> r <> BMP_OK -> given_up r b1.
Proof. intros [] [] Hr. split; [done|]. split; congruence. Qed.

Definition dims_ok b : Prop :=
  if bm_ico b then 0 < bm_width b <= 256 /\ 0 <= bm_height b <= 256
  else 0 < bm_width b < 2 ^ 31 /\ 0 < bm_height b < 2 ^ 31.

Context (b0 : bmp_image).
Hypothesis is_raw : raw b0.

(** After the size, and after the whole header. *)
Definition sized b : Prop := same_file b0 b /\ dims_ok b /\ bm_encoding b = BMP_ENCODING_RGB.
Definition headed b : Prop :=
  same_file b0 b /\ dims_ok b /\ legal_encoding (bm_encoding b) (bm_bpp b) = true /\
  (bm_bpp b < 16 -> 0 <= bm_colours b < 2 ^ 32).

Lemma given_up_sized b r : sized b -> r <> BMP_OK -> given_up r b.
Proof. intros [Hs _]. by apply (given_up_same b0). Qed.

Lemma dimensions_ok minus width height :
  width < 2 ^ 31 -> - 2 ^ 31 <= height < 2 ^ 31 ->
  (height < 0 -> 0 < minus height < 2 ^ 31) ->
  bwp (set_dimensions minus width height) (fun _ => sized) given_up b0.
Proof.
  intros Hw Hh Hm. unfold set_dimensions.
  destruct (Z.leb_spec width 0); cbn [orb]; [by apply bwp_stop, (given_up_same b0)|].
  destruct (Z.eqb_spec height 0); [by apply bwp_stop, (given_up_same b0)|].
  set (b1 := if height <? 0 then set_bm_reversed true b0 else b0).
  assert (Hb1 : same_file b0 b1 /\ bm_encoding b1 = BMP_ENCODING_RGB).
  { pose proof (rw_encoding _ is_raw). unfold b1. by destruct (height <? 0). }
  apply bwp_bind.
  apply (bwp_mono _ (fun _ b => b = b1) _ given_up); [by unfold b1; destruct (height <? 0)|intros _ b ->|done].
  set (h := if height <? 0 then minus height else height).
  assert (Hh1 : 0 < h < 2 ^ 31).
  { unfold h. destruct (Z.ltb_spec height 0); [by apply Hm|lia]. }
  destruct Hb1 as [Hs He]. cbv zeta. fold h. apply bwp_view.
  destruct (bm_ico b1) eqn:Ei.
  - destruct ((256 <? width) || (512 <? h)) eqn:E; [by apply bwp_stop, (given_up_same b0)|]. zbool.
    unfold bwp, update. split; [|split; [|done]]; [by destruct Hs|].
    unfold dims_ok. bm_cbn. rewrite Ei. split; [lia|]. Z.to_euclidean_division_equations; lia.
  - unfold bwp, update. split; [|split; [|done]]; [by destruct Hs|].
    unfold dims_ok. bm_cbn. rewrite Ei. lia.
Qed.

Lemma sized_set_bpp b bpp :
  sized b -> rgb_bpp bpp = true -> 
  let b1 := set_bm_bpp bpp b in
  headed (if bpp <? 16 then set_bm_colours (Z.shiftl 1 (bm_bpp b1)) b1 else b1).
Proof.
  intros (Hs & Hd & He) Hb b1. assert (Hbpp : bpp < 16 -> Z.shiftl 1 bpp < 2 ^ 32 /\ 0 <= Z.shiftl 1 bpp).
  { intros Hlt. unfold rgb_bpp in Hb.
    destruct (Z.eqb_spec bpp 1) as [->|]; [done|]. destruct (Z.eqb_spec bpp 4) as [->|]; [done|].
    destruct (Z.eqb_spec bpp 8) as [->|]; [done|]. zbool. exfalso.
    destruct (Z.eqb_spec bpp 16), (Z.eqb_spec bpp 24), (Z.eqb_spec bpp 32); subst; try done; lia. }
  assert (Hl : legal_encoding (bm_encoding b) bpp = true) by (rewrite He; exact Hb).
  destruct (Z.ltb_spec bpp 16); (split; [by destruct Hs|]); (split; [done|]); (split; [exact Hl|]).
  - intros _. change (0 <= Z.shiftl 1 bpp < 2 ^ 32). by destruct (Hbpp ltac:(lia)).
  - unfold b1. bm_cbn. lia.
Qed.

Lemma core_header_ok d :
  0 <= d -> d + 12 <= zlen mem ->
  bwp (core_header mem d) (fun p b => p = 3 /\ headed b) given_up b0.
Proof.
  intros Hd Hl. unfold core_header.
  apply (bwp_read_int16 mem octets); [lia..|]. intros w Hw. apply (bwp_read_int16 mem octets); [lia..|].
  intros h Hh. apply bwp_bind. eapply bwp_mono; [apply dimensions_ok; intros; lia| |done].
  intros [] b1 Hs. apply (bwp_read_uint16 mem octets); [lia..|]. intros planes _.
  destruct (negb _); [by apply bwp_stop, given_up_sized|].
  apply (bwp_read_uint16 mem octets); [lia..|]. intros bpp _. apply bwp_update.
  destruct (rgb_bpp bpp) eqn:Eb; cbn [negb].
  2:{ apply bwp_stop, given_up_sized; [|done]. by destruct Hs as ([] & ? & ?). }
  pose proof (sized_set_bpp b1 bpp Hs Eb) as Hh1. cbn zeta in Hh1. apply bwp_bind.
  unfold default_colours. destruct (bpp <? 16); by apply bwp_yields.
Qed.

(** ** The masks *)

Lemma same_file_masks b m s : same_file b (set_bm_shift s (set_bm_mask m b)).
Proof. by split. Qed.

(** What the masks do not touch. *)
Definition but_masks b b1 : Prop := exists m s, b1 = set_bm_shift s (set_bm_mask m b).

Lemma set_masks_ok n d b :
  0 <= d -> (n <= 4)%nat -> d + 40 + 4 * Z.of_nat n <= zlen mem ->
  bwp (for_loop n 0 (fun i _ => let* m := read_uint32 mem d (40 + Z.shiftl i 2) in
         update (fun b => set_bm_mask (<[Z.to_nat i := m]> (bm_mask b)) b)) tt)
    (fun _ => but_masks b) given_up b.
Proof.
  intros Hd Hn Hl. apply (bwp_for (fun _ _ => but_masks b)); [|intros i [] b1 Hi (m & s & ->)|done].
  - exists (bm_mask b), (bm_shift b). by destruct b.
  - rewrite Z.shiftl_mul_pow2 by lia. apply (bwp_read_uint32 mem octets); [lia..|]. intros x _.
    unfold bwp, update. eexists _, s. reflexivity.
Qed.

Lemma bitfields_ok d header_size b :
  0 <= d -> 40 <= header_size -> header_size <= bm_buffer_size b - 14 -> bm_buffer_size b < 2 ^ 32 ->
  d + (bm_buffer_size b - 14) <= zlen mem -> bm_bitmap b = None -> bm_colour_table b = None ->
  bwp (bitfields mem d header_size)
    (fun n b1 => header_size <= n <= bm_buffer_size b - 14 /\ but_masks b b1) given_up b.
Proof.
  intros Hd H40 Hn Hsz Hl Hb Ht. apply bwp_view. apply bwp_bind.
  apply (bwp_mono _ (fun n b1 => header_size <= n <= bm_buffer_size b - 14 /\ but_masks b b1) _ given_up);
    [|intros n b1 [Hn1 (m & s & ->)]|done].
  - destruct (Z.eqb_spec header_size 40) as [->|].
    + cbv zeta. change (u32 (14 + u32 (40 + 12))) with 66. destruct (Z.ltb_spec (bm_buffer_size b) 66); [by apply bwp_stop|].
      apply bwp_bind. eapply bwp_mono; [apply set_masks_ok; lia| |done].
      intros [] b1 Hb1. apply bwp_yields. change (u32 (40 + 12)) with 52. split; [lia|done].
    + destruct (Z.ltb_spec header_size 56); [by apply bwp_stop|].
      apply bwp_bind. eapply bwp_mono; [apply set_masks_ok; lia| |done].
      intros [] b1 Hb1. apply bwp_yields. split; [lia|done].
  - apply bwp_update, bwp_yields. split; [done|]. eexists _, _. reflexivity.
Qed.

Lemma info_header_ok d header_size :
  0 <= d -> 40 <= header_size -> header_size <= bm_buffer_size b0 - 14 ->
  d + (bm_buffer_size b0 - 14) <= zlen mem ->
  bwp (info_header mem d header_size)
    (fun r b => header_size <= r.1 <= bm_buffer_size b0 - 14 /\ r.2 = 4 /\ headed b) given_up b0.
Proof.
  intros Hd H40 Hn Hl. unfold info_header. pose proof (rw_size _ is_raw).
  apply (bwp_read_int32 mem octets); [lia..|]. intros w Hw. apply (bwp_read_int32 mem octets); [lia..|].
  intros h Hh. apply bwp_bind. eapply bwp_mono; [apply dimensions_ok; [lia|lia|]| |done].
  { intros Hx. unfold INT32_MAX. destruct (Z.leb_spec h (- (2 ^ 31 - 1))); lia. }
  intros [] b1 (Hs & Hdm & _). pose proof Hs as [? Hsize ? ? Hbm Htb].
  apply (bwp_read_uint16 mem octets); [lia..|]. intros planes _.
  destruct (negb _); [by apply bwp_stop, (given_up_same b0)|].
  apply (bwp_read_uint16 mem octets); [lia..|]. intros bpp0 Hbpp0. cbv zeta.
  set (bpp := if bpp0 =? 0 then 8 else bpp0). apply bwp_update.
  apply (bwp_read_uint32 mem octets); [lia..|]. intros enc _. apply bwp_update.
  set (b2 := set_bm_encoding enc (set_bm_bpp bpp b1)).
  assert (Hs2 : same_file b0 b2) by by destruct Hs.
  destruct (legal_encoding enc bpp) eqn:El; cbn [negb]; [|by apply bwp_stop, (given_up_same b0)].
  apply bwp_bind.
  apply (bwp_mono _ (fun n b => header_size <= n <= bm_buffer_size b0 - 14 /\ but_masks b2 b) _ given_up);
    [|intros n b3 [Hn3 (m & s & ->)]|done].
  { destruct (enc =? BMP_ENCODING_BITFIELDS).
    - pose proof (rw_bitmap _ is_raw). pose proof (rw_table _ is_raw).
      rewrite <- (sf_size _ _ Hs2). destruct Hs2 as [_ E2 _ _ Eb Et].
      apply bitfields_ok; rewrite ?E2, ?Eb, ?Et; lia || done.
    - apply bwp_yields. split; [lia|]. exists (bm_mask b2), (bm_shift b2). by destruct b2. }
  apply (bwp_read_uint32 mem octets); [lia..|]. intros colours Hc. apply bwp_update.
  set (b3 := set_bm_colours _ _).
  assert (Hh3 : headed b3) by (split; [by destruct Hs2|]; split; [exact Hdm|]; split; [exact El|]; by intros _).
  apply bwp_bind.
  apply (bwp_mono _ (fun _ => headed) _ given_up); [|intros [] b4 Hh4; apply bwp_yields; exact (conj Hn3 (conj eq_refl Hh4))|done].
  destruct ((colours =? 0) && (bpp <? 16)) eqn:E0; [|by apply bwp_yields].
  apply andb_prop in E0 as [_ E16]. apply Z.ltb_lt in E16. unfold bwp, default_colours, update.
  split; [by destruct Hs2|]. split; [exact Hdm|]. split; [exact El|]. intros _.
  change (0 <= Z.shiftl 1 bpp < 2 ^ 32).
  assert (0 <= bpp) by (unfold bpp; destruct (bpp0 =? 0); lia).
  rewrite Z.shiftl_mul_pow2 by done. split; [lia|]. rewrite Z.mul_1_l. apply Z.pow_lt_mono_r; lia.
Qed.

(** ** The palette and the bitmap *)

Lemma read_palette_ok n ps opaque d b :
  0 <= n -> 3 <= ps <= 4 -> 0 <= d -> d + 4 * n <= zlen mem ->
  bwp (read_palette mem n ps opaque d)
    (fun r b1 => b1 = b /\ zlen r.1 = n /\ r.2 = d + n * ps) given_up b.
Proof.
  intros Hn Hps Hd Hl. unfold read_palette.
  apply (bwp_upto (fun j r b1 => b1 = b /\ zlen r.1 = j /\ r.2 = d + j * ps)); [done| | |done].
  - split; [done|]. split; [done|]. cbn. lia.
  - intros j [t d1] b1 Hj (-> & Ht & Hd1). cbn [fst snd] in *. subst d1.
    apply (bwp_read_colour mem octets); [nia|nia|]. intros c. apply bwp_yields. cbn [fst snd].
    split; [done|]. split; [rewrite zlen_app, Ht; done|ring].
Qed.

(** All but the bitmap; [d] is where the palette ends. *)
Record stocked (d : Z) b : Prop := {
  st_data : bm_data b = bm_data b0;
  st_size : bm_buffer_size b = bm_buffer_size b0;
  st_ico : bm_ico b = bm_ico b0;
  st_bitmap : bm_bitmap b = None;
  st_dims : dims_ok b;
  st_legal : legal_encoding (bm_encoding b) (bm_bpp b) = true;
  st_table : bm_bpp b < 16 -> exists t, bm_colour_table b = Some t /\ zlen t = bm_colours b;
  st_offset : 0 <= bm_bitmap_offset b /\ (bm_ico b = false -> bm_bitmap_offset b < bm_buffer_size b);
  st_end : 0 <= d - bm_data b <= bm_buffer_size b
}.

Lemma palette_ok d header_size ps b :
  headed b -> bm_bpp b < 16 -> 0 <= header_size <= bm_buffer_size b0 - 14 -> 3 <= ps <= 4 ->
  bm_data b0 <= d <= bm_data b0 + 14 ->
  bwp (palette mem malloc_ok (d + header_size) header_size ps) stocked given_up b.
Proof.
  intros (Hs & Hdm & Hl & Hc) Hb Hh Hps Hd. pose proof Hs as [E1 E2 E3 E4 E5 E6].
  pose proof is_raw as [H0 Hsz Hm _ Hbm Htb Hof]. pose proof (Hc Hb) as Hcol.
  apply bwp_view. rewrite E2, u32_small by lia.
  destruct (Z.ltb_spec (bm_buffer_size b0) (14 + header_size + 4 * bm_colours b));
    [by apply bwp_stop, (given_up_same b0)|].
  destruct (malloc_ok _); cbn [negb].
  2:{ apply bwp_update, bwp_stop. split; [done|]. split; [|done]. change (bm_bitmap b = None). congruence. }
  apply bwp_bind. eapply bwp_mono; [apply read_palette_ok; lia| |done].
  intros [t d1] b1 (-> & Ht & Hd1). cbn [fst snd] in *. apply bwp_update.
  assert (Hd2 : 0 <= d1 - bm_data b <= bm_buffer_size b0) by nia.
  rewrite u32_small by lia. apply bwp_bind. set (b1 := set_bm_colour_table (Some t) b).
  assert (Hst : forall o, 0 <= o /\ (bm_ico b = false -> o < bm_buffer_size b) -> stocked d1 (set_bm_bitmap_offset o b1)).
  { intros o Ho. split; unfold b1; bm_cbn; try congruence; try done; try (by exists t); lia. }
  destruct (_ && _) eqn:Eo; unfold bwp, update, yields.
  - apply andb_prop in Eo as [_ Eo]. apply Z.ltb_lt in Eo. apply Hst. split; [lia|intros _; lia].
  - replace b1 with (set_bm_bitmap_offset (bm_bitmap_offset b) b1) by by destruct b.
    apply Hst. rewrite E3, E2, E4. done.
Qed.

Lemma s32_small x : 0 <= x < 2 ^ 31 -> s32 x = x.
Proof. intros Hx. unfold s32. rewrite u32_small by lia. by destruct (Z.ltb_spec x (2 ^ 31)); [|lia]. Qed.

(** What parsing the header promises. *)
Definition parsed (r : bmp_result) b : Prop :=
  bm_data b = bm_data b0 /\ bm_buffer_size b = bm_buffer_size b0 /\ bm_ico b = bm_ico b0 /\ dims_ok b /\
  r = BMP_OK /\ decodable mem b.

Lemma stocked_ready d b flags px :
  stocked d b -> create (s32 (bm_width b)) (s32 (bm_height b)) flags = Some px ->
  parsed BMP_OK (if bm_ico b then set_bm_bitmap_offset (u32 (d - bm_data b)) (set_bm_bitmap (Some px) b)
                 else set_bm_bitmap (Some px) b).
Proof.
  intros [E1 E2 E3 E4 Hdm Hl Ht [Ho1 Ho2] He] Hpx. pose proof is_raw as [H0 Hsz Hm _ _ _ _].
  assert (Hr : 0 < bm_width b < 2 ^ 31 /\ 0 <= bm_height b < 2 ^ 31 /\
    (bm_ico b = true -> bm_width b <= 256) /\ (bm_ico b = false -> 0 < bm_height b)).
  { unfold dims_ok in Hdm. destruct (bm_ico b); split_and!; try done; try lia. }
  destruct Hr as (Hw & Hh & Hi & Hn). rewrite !s32_small in Hpx by lia.
  destruct (fit _ _ _ _ Hpx) as [Hlen Harea].
  destruct (bm_ico b) eqn:Ei.
  - rewrite u32_small by lia. pose proof (Hi eq_refl).
    split_and!; try done; try (bm_cbn; congruence). split; bm_cbn; rewrite ?Ei; try done; try lia. by exists px.
  - pose proof (Hn eq_refl). pose proof (Ho2 eq_refl).
    split_and!; try done; try (bm_cbn; congruence). split; bm_cbn; rewrite ?Ei; try done; try lia; try nia. by exists px.
Qed.

Lemma info_header_parse_ok d :
  bm_data b0 <= d <= bm_data b0 + 14 -> d + (bm_buffer_size b0 - 14) <= zlen mem ->
  bwp (bmp_info_header_parse mem malloc_ok create d) parsed given_up b0.
Proof.
  intros Hd Hl. pose proof is_raw as [H0 Hsz Hm Henc Hbm Htb Hof]. apply bwp_view.
  unfold BMP_FILE_HEADER_SIZE, BITMAPCOREHEADER.
  destruct (Z.ltb_spec (bm_buffer_size b0) (14 + 12)); [by apply bwp_stop, (given_up_same b0)|].
  apply (bwp_read_uint32 mem octets); [lia..|]. intros n Hn. rewrite u32_small by lia.
  destruct (Z.ltb_spec (bm_buffer_size b0 - 14) n); [by apply bwp_stop, (given_up_same b0)|].
  apply bwp_bind.
  apply (bwp_mono _ (fun r b => 0 <= r.1 <= bm_buffer_size b0 - 14 /\ 3 <= r.2 <= 4 /\ headed b) _ given_up);
    [|intros [hs ps] b (Hhs & Hps & Hhd)|done].
  { destruct (Z.eqb_spec n 12) as [->|].
    - apply bwp_bind. eapply bwp_mono; [apply core_header_ok; lia| |done].
      intros p b [-> Hb]. apply bwp_yields. cbn [fst snd]. split; [lia|]. split; [lia|done].
    - destruct (Z.ltb_spec n 40); [by apply bwp_stop, (given_up_same b0)|].
      eapply bwp_mono; [apply info_header_ok; lia| |done]. intros [hs ps] b (? & -> & ?). cbn [fst snd] in *.
      split; [lia|]. split; [lia|done]. }
  cbn [fst snd] in *. apply bwp_view. set (solid := negb _ && _). apply bwp_bind.
  apply (bwp_mono _ (fun _ => headed) _ given_up); [|intros [] b1 Hh1|done].
  { destruct solid; [|by apply bwp_yields]. unfold bwp, update. destruct Hhd as ([] & Hhd).
    split; [by split|exact Hhd]. }
  cbv zeta. apply bwp_view. apply bwp_bind.
  apply (bwp_mono _ stocked _ given_up); [|intros d1 b2 Hst|done].
  { destruct (Z.ltb_spec (bm_bpp b1) 16); [by apply palette_ok|]. apply bwp_yields.
    destruct Hh1 as ([] & ? & ? & ?). split; try congruence; try done; try lia. }
  apply bwp_view. apply bwp_update. destruct (create _ _ _) as [px|] eqn:Ec.
  - pose proof (stocked_ready _ _ _ _ Hst Ec) as Hp. apply bwp_bind.
    destruct (bm_ico b2); exact Hp.
  - apply bwp_update, bwp_stop. by split.
Qed.
End Analyse.

Section Files.
Context (mem : bytes) (base : Z) (malloc_ok : Z -> bool).
Context (create : Z -> Z -> Z -> option (list Z)) (show : list Z -> bool).

Lemma given_up_none r b : r <> BMP_OK -> bm_bitmap b = None -> bm_colour_table b = None -> given_up r b.
Proof. by split. Qed.

(** ** Bitmaps *)

(** A file whose header was read. *)
Definition opened (size data : Z) (b : bmp_image) : Prop :=
  decodable mem b /\ bm_ico b = false /\ bm_data b = data /\ bm_buffer_size b = size.

Lemma analyse_ok size data :
  wf_bytes mem -> bitmaps_fit create -> 0 <= data -> data + u32 size <= zlen mem ->
  bwp (bmp_analyse mem malloc_ok create size data)
    (fun r b => r = BMP_OK /\ opened (u32 size) data b \/ given_up r b) given_up bmp_create.
Proof.
  intros Ho Hf Hd Hl. unfold bmp_analyse. apply bwp_view. cbn [bmp_create zero_bmp bm_bitmap].
  pose proof (bmp_u32_range size) as Hsz. apply bwp_update.
  set (b0 := set_bm_data _ _). apply bwp_bind.
  apply (bwp_mono _ (fun r b => r = BMP_OK /\ raw mem b /\ bm_data b = data /\ bm_buffer_size b = u32 size /\ bm_ico b = false
    \/ given_up r b) _ given_up); [|intros r b [(-> & Hr & E1 & E2 & E3)|Hg]|done].
  { assert (H : bwp (bmp_file_header_parse mem data) (fun r b => r = BMP_OK /\ raw mem b /\ bm_data b = data /\
      bm_buffer_size b = u32 size /\ bm_ico b = false \/ given_up r b) given_up b0).
    { apply bwp_view. change (bm_buffer_size b0) with (u32 size). unfold BMP_FILE_HEADER_SIZE.
      destruct (Z.ltb_spec (u32 size) 14); [by apply bwp_stop|].
      apply (bwp_octet mem Ho); [lia|]. intros c0 _ _. destruct (negb _); [by apply bwp_stop|].
      apply (bwp_octet mem Ho); [lia|]. intros c1 _ _. destruct (negb _); [by apply bwp_stop|].
      apply (bwp_read_uint32 mem Ho); [lia..|]. intros o Hoff. apply bwp_update.
      destruct (Z.leb_spec (u32 size) o); [by apply bwp_stop|]. apply bwp_yields. left. split; [done|].
      split; [|done]. split; try done. change (0 <= o /\ (false = false -> o < u32 size)). split; [lia|done]. }
    unfold bwp in H |- *. destruct (bmp_file_header_parse mem data b0); [done|by right|done]. }
  - rewrite bool_decide_eq_true_2 by done. unfold BMP_FILE_HEADER_SIZE.
    eapply bwp_mono; [apply info_header_parse_ok; try done; rewrite ?E1, ?E2; lia| |done].
    intros r b1 (P1 & P2 & P3 & _ & -> & P4). left. split; [done|]. split; [done|]. split_and!; congruence.
  - rewrite bool_decide_eq_false_2 by apply Hg. apply bwp_yields. by right.
Qed.

(** C16: a new image that is given the octets of a file, all of them readable, is
    analysed without a read outside the file, whatever they are and whatever
    allocation fails.  If the answer is BMP_OK the image can be decoded: a
    bitmap of the right size, a palette as long as the number of colours, pixels
    that start inside the file, a format the decoders know.  Otherwise neither a
    bitmap nor a palette is left allocated. *)
Theorem bmp_analyse_safe size data :
  wf_bytes mem -> bitmaps_fit create -> 0 <= data -> data + u32 size <= zlen mem ->
  exists r b, result_of (bmp_analyse mem malloc_ok create size data) bmp_create = Some (r, b) /\
    (r = BMP_OK -> opened (u32 size) data b) /\
    (r <> BMP_OK -> bm_bitmap b = None /\ bm_colour_table b = None).
Proof.
  intros Ho Hf Hd Hl.
  destruct (bwp_run (bmp_analyse mem malloc_ok create size data)
    (fun r b => r = BMP_OK /\ opened (u32 size) data b \/ given_up r b) bmp_create) as (r & b & Hr & H).
  { eapply bwp_mono; [by apply analyse_ok|done|]. intros r b H. by right. }
  exists r, b. split; [done|]. destruct H as [[-> H]|(Hn & H)]; by split.
Qed.

(** C9: an image that analysis made decodable is decoded, in each format and as
    often as asked, without a write outside the bitmap, a failed assertion or an
    endless loop, and without a read outside the memory of the file if that is
    one octet longer than the file where runs or the mask of an icon are to be
    decoded ([overread]); otherwise the file is enough.  Only the pixels, the
    transparent colour and the note that it was decoded change, so it can be
    decoded again, also after an error. *)
Theorem bmp_decode_safe b :
  wf_bytes mem -> decodable mem b -> bm_data b + bm_buffer_size b + overread b <= zlen mem ->
  exists r b1, result_of (bmp_decode mem base show) b = Some (r, b1) /\ shaped b b1 /\ decodable mem b1.
Proof.
  intros Ho Hd Hl. destruct (bwp_run _ _ _ (bmp_decode_ok mem base show Ho b Hd Hl)) as (r & b1 & Hr & Hs).
  exists r, b1. split; [done|]. split; [done|]. by eapply shaped_decodable.
Qed.

(** ** Icons *)

(** The images of a collection: each can be decoded, or has nothing allocated. *)
Definition ready b : Prop := decodable mem b /\ bm_ico b = true.
Definition in_file (ico : ico_collection) b : Prop :=
  bm_data b + bm_buffer_size b <= ic_data ico + ic_buffer_size ico.
Definition idle b : Prop := bm_bitmap b = None /\ bm_colour_table b = None.

Lemma ico_entry_ok ico_data ico_size d :
  wf_bytes mem -> bitmaps_fit create -> 0 <= ico_data -> 0 <= ico_size < 2 ^ 32 ->
  ico_data + ico_size <= zlen mem -> ico_data <= d -> d + 16 <= ico_data + ico_size ->
  bwp (ico_entry mem malloc_ok create ico_data ico_size d)
    (fun r b => r = BMP_OK /\ ready b /\ bm_data b + bm_buffer_size b <= ico_data + ico_size)
    (fun r b => r <> BMP_OK /\ idle b) bmp_create.
Proof.
  intros Ho Hf H0 Hsz Hm Hd Hl. unfold ico_entry, read_uint8.
  apply (bwp_octet mem Ho); [lia|]. intros w _ _. apply bwp_update.
  apply (bwp_octet mem Ho); [lia|]. intros h _ _. apply bwp_update.
  apply (bwp_read_uint32 mem Ho); [lia..|]. intros size Hs. apply bwp_update.
  apply (bwp_read_uint32 mem Ho); [lia..|]. intros offset Hof. cbv zeta. apply bwp_update.
  destruct (Z.ltb_spec (ico_data + ico_size) (ico_data + offset + size)); [by apply bwp_stop|].
  apply bwp_update. destruct (_ && _); [by apply bwp_stop|]. destruct (_ <=? _); [by apply bwp_stop|].
  set (b := set_bm_ico true _).
  eapply bwp_mono; [apply (info_header_parse_ok mem malloc_ok create Ho Hf b)|..].
  - split; try done; unfold b; bm_cbn; lia.
  - unfold b. bm_cbn. lia.
  - unfold b. bm_cbn. lia.
  - intros r b1 (P1 & P2 & P3 & _ & -> & P4). split; [done|]. split; [split; [done|exact P3]|].
    rewrite P1, P2. unfold b. bm_cbn. lia.
  - intros r b1 (? & ? & ?). by split.
Qed.

Lemma ico_entries_ok n d area ico :
  wf_bytes mem -> bitmaps_fit create -> 0 <= ic_data ico -> 0 <= ic_buffer_size ico < 2 ^ 32 ->
  ic_data ico + ic_buffer_size ico <= zlen mem -> ic_data ico <= d ->
  d + 16 * Z.of_nat n <= ic_data ico + ic_buffer_size ico ->
  Forall (fun b => ready b /\ in_file ico b) (ic_images ico) ->
  exists r ico1, ico_entries mem malloc_ok create n d area ico = Some (r, ico1) /\
    ic_data ico1 = ic_data ico /\ ic_buffer_size ico1 = ic_buffer_size ico /\
    Forall (fun b => ready b /\ in_file ico b \/ idle b) (ic_images ico1) /\
    (r = BMP_OK -> Forall (fun b => ready b /\ in_file ico b) (ic_images ico1) /\
       length (ic_images ico1) = (n + length (ic_images ico))%nat).
Proof.
  intros Ho Hf. revert d area ico. induction n as [|n IH]; intros d area ico H0 Hsz Hm Hd Hl Himg.
  { exists BMP_OK, ico. do 3 (split; [done|]). split; [|done].
    eapply list.Forall_impl; [exact Himg|]. by left. }
  cbn [ico_entries]. assert (Hall : Forall (fun b => ready b /\ in_file ico b \/ idle b) (ic_images ico)).
  { eapply list.Forall_impl; [exact Himg|]. by left. }
  destruct (malloc_ok _); cbn [negb]; [|by exists BMP_INSUFFICIENT_MEMORY, ico].
  destruct (bwp_run (ico_entry mem malloc_ok create (ic_data ico) (ic_buffer_size ico) d)
    (fun r b => r = BMP_OK /\ ready b /\ in_file ico b \/ r <> BMP_OK /\ idle b) bmp_create)
    as (r & b & -> & H).
  { eapply bwp_mono; [apply ico_entry_ok; try done; lia|by left|by right]. }
  cbn [mbind option_bind]. destruct H as [(-> & Hr & Hin)|[Hn Hi]].
  2:{ rewrite bool_decide_eq_false_2 by done. exists r, (set_ic_images (b :: ic_images ico) ico).
      do 3 (split; [done|]). split; [|done]. constructor; [by right|done]. }
  rewrite bool_decide_eq_true_2 by done. cbv zeta.
  assert (Hgo : forall w h a, exists r ico1,
    ico_entries mem malloc_ok create n (d + ICO_DIR_ENTRY_SIZE) a
      {| ic_width := w; ic_height := h; ic_data := ic_data ico; ic_buffer_size := ic_buffer_size ico;
         ic_images := b :: ic_images ico |} = Some (r, ico1) /\
    ic_data ico1 = ic_data ico /\ ic_buffer_size ico1 = ic_buffer_size ico /\
    Forall (fun b => ready b /\ in_file ico b \/ idle b) (ic_images ico1) /\
    (r = BMP_OK -> Forall (fun b => ready b /\ in_file ico b) (ic_images ico1) /\
       length (ic_images ico1) = (S n + length (ic_images ico))%nat)).
  { intros w h a. unfold ICO_DIR_ENTRY_SIZE.
    edestruct (IH (d + 16) a {| ic_width := w; ic_height := h; ic_data := ic_data ico;
      ic_buffer_size := ic_buffer_size ico; ic_images := b :: ic_images ico |}) as (r & ico1 & He & E1 & E2 & Ha & Hok);
      cbn [ic_data ic_buffer_size ic_images]; try done; try lia; [by constructor|].
    exists r, ico1. split; [exact He|]. do 2 (split; [done|]). split; [exact Ha|]. intros Hr1.
    destruct (Hok Hr1) as [Hf1 Hl1]. split; [exact Hf1|]. rewrite Hl1. cbn. lia. }
  destruct (_ <? _); apply Hgo.
Qed.

Lemma peek16_ok d : 0 <= d -> d + 2 <= zlen mem -> exists x, peek16 mem d = Some x /\ 0 <= x < 2 ^ 16.
Proof.
  intros Hd Hl. unfold peek16. destruct (znth_is_Some mem d) as [a ->]; [lia|].
  destruct (znth_is_Some mem (d + 1)) as [c ->]; [lia|]. eexists. split; [reflexivity|].
  unfold u16. apply Z.mod_pos_bound. lia.
Qed.

(** C17: a new collection that is given the octets of an icon file, all of them
    readable, is analysed without a read outside the file.  Every image in the
    list then lies in the file and can be decoded, or nothing is allocated for
    it; with BMP_OK all of them can, and there is at least one. *)
Theorem ico_analyse_safe size data :
  wf_bytes mem -> bitmaps_fit create -> 0 <= data -> data + u32 size <= zlen mem ->
  exists r ico, ico_analyse mem malloc_ok create size data ico_collection_create = Some (r, ico) /\
    Forall (fun b => ready b /\ bm_data b + bm_buffer_size b <= data + u32 size \/ idle b) (ic_images ico) /\
    (r = BMP_OK -> Forall (fun b => ready b /\ bm_data b + bm_buffer_size b <= data + u32 size) (ic_images ico) /\
       ic_images ico <> []).
Proof.
  intros Ho Hf Hd Hl. unfold ico_analyse, ico_header_parse, ICO_FILE_HEADER_SIZE, ICO_DIR_ENTRY_SIZE.
  cbn [ico_collection_create ic_images ic_buffer_size ic_width ic_height]. pose proof (bmp_u32_range size).
  set (ico := {| ic_width := 0 |}).
  assert (Hfail : forall r, r <> BMP_OK -> exists r0 ico0, Some (r, ico) = Some (r0, ico0) /\
    Forall (fun b => ready b /\ bm_data b + bm_buffer_size b <= data + u32 size \/ idle b) (ic_images ico0) /\
    (r0 = BMP_OK -> Forall (fun b => ready b /\ bm_data b + bm_buffer_size b <= data + u32 size) (ic_images ico0) /\
       ic_images ico0 <> [])).
  { intros r Hr. exists r, ico. split; [done|]. by split. }
  destruct (Z.ltb_spec (u32 size) 6); [by apply Hfail|].
  destruct (peek16_ok (data + 2)) as (type & -> & _); [lia..|]. cbn [mbind option_bind].
  destruct (negb _); [by apply Hfail|].
  destruct (peek16_ok (data + 4)) as (count & -> & Hc); [lia..|]. cbn [mbind option_bind].
  destruct (Z.eqb_spec count 0); [by apply Hfail|]. rewrite (u32_small (6 + 16 * count)) by lia.
  destruct (Z.ltb_spec (u32 size) (6 + 16 * count)); [by apply Hfail|].
  edestruct (ico_entries_ok (Z.to_nat count) (data + 6) 0 ico) as (r & ico1 & Hr & E1 & E2 & Ha & Hok).
  1-2: done. 1-5: unfold ico; cbn [ic_data ic_buffer_size]; lia. { by constructor. }
  rewrite Hr. clear Hr.
  exists r, ico1. split; [done|]. split; [exact Ha|]. intros Hr. destruct (Hok Hr) as [Hall Hlen].
  split; [exact Hall|]. intros E. rewrite E in Hlen. cbn in Hlen. lia.
Qed.

(** ** What a bitmap shows *)

Lemma s32_exact x : 0 <= x < 2 ^ 31 -> s32 (u32 x) = x.
Proof. intros Hx. rewrite u32_small by lia. by apply s32_small. Qed.

Lemma uncompressed_decodes b start bytes px :
  wf_bytes mem -> decodable mem b -> bm_limited_trans b = false -> (forall px, show px = true) ->
  bm_encoding b = BMP_ENCODING_RGB -> fits mem b start bytes ->
  bm_bitmap b = Some px -> zlen px = bm_width b * bm_height b ->
  decodes_to mem b start px (decode_pixels mem base show start bytes).
Proof.
  intros Ho Hd Ht Hs He Hf Hp Hl. unfold decodes_to, decode_pixels. apply bwp_view. rewrite He. cbv zeta.
  cbn [Z.eqb BMP_ENCODING_RGB].
  destruct (Z.eqb_spec (bm_bpp b) 32); [by apply rgb32_decodes|].
  destruct (Z.eqb_spec (bm_bpp b) 24); [by apply rgb24_decodes|].
  destruct (Z.eqb_spec (bm_bpp b) 16); [by apply rgb16_decodes|].
  apply rgb_decodes; try done. by eapply packed_legal.
Qed.

(** C10: an uncompressed bitmap all rows of which are in the file is decoded with
    BMP_OK, and each pixel of the client's bitmap then is the one that the
    octets of its row say: rows start every [row_stride] octets, the first one
    at the bottom unless the height was negative, and a pixel is four octets
    with or without alpha, three octets, five bits to a channel, or an index
    into the palette of one, four or eight bits ([file_pixel]). *)
Theorem bmp_decode_pixels b px :
  wf_bytes mem -> decodable mem b -> (forall px, show px = true) ->
  bm_encoding b = BMP_ENCODING_RGB -> bm_ico b = false -> bm_limited_trans b = false ->
  bm_bitmap b = Some px -> bm_buffer_size b < 2 ^ 31 ->
  row_stride b * (bm_height b - 1) + row_octets b <= bm_buffer_size b - bm_bitmap_offset b ->
  exists b1 px1, result_of (bmp_decode mem base show) b = Some (BMP_OK, b1) /\ bm_bitmap b1 = Some px1 /\
    forall y x, 0 <= y < bm_height b -> 0 <= x < bm_width b ->
    let i := bm_width b * (if bm_reversed b then y else bm_height b - 1 - y) + x in
    znth px1 i =
      match file_pixel mem b (bm_data b + bm_bitmap_offset b + row_stride b * y) x with
      | Some v => Some v
      | None => znth px i
      end.
Proof.
  intros Ho Hd Hs He Hi Ht Hp Hsz Hrows. pose proof Hd as [H0 [? ?] Hm Hoff Hin ? ? ? (px0 & Hp0 & Hl) ? ?].
  rewrite Hp in Hp0. injection Hp0 as <-. rewrite Hi in Hin.
  set (start := bm_data b + bm_bitmap_offset b).
  assert (Hrun : bwp (bmp_decode mem base show)
    (fun r b1 => r = BMP_OK /\ exists px1, b1 = paint b px1 /\ shown_all mem b start px px1) never_fails b).
  { apply bwp_view, bwp_assert; [rewrite Hp; by apply bool_decide_eq_true_2|].
    rewrite s32_exact by lia. apply bwp_bind.
    eapply bwp_mono; [apply uncompressed_decodes; try done|intros d b1 Hd1|done].
    - split; unfold start; [lia|lia|]. intros _. exact Hrows.
    - rewrite Hi. by apply bwp_yields. }
  unfold bwp in Hrun. unfold result_of. destruct (bmp_decode mem base show b) as [r b1|r b1|]; [|done..].
  destruct Hrun as (-> & px1 & -> & _ & Hall). exists (paint b px1), px1. do 2 (split; [done|]).
  intros y x Hy Hx. specialize (Hall y x Hy Hx). destruct (Z.ltb_spec y (bm_height b)); [|lia]. exact Hall.
Qed.
End Files.

(** ** Files *)

(** A client whose bitmaps are black, and shorter than 4 GB. *)
Definition black (w h flags : Z) : option (list Z) :=
  if (0 <=? w * h) && (4 * (w * h) <? 2 ^ 32) then Some (zrep (w * h) 0) else None.
Definition visible (px : list Z) : bool := true.
Definition any_size (n : Z) : bool := true.

Lemma black_fits : bitmaps_fit black.
Proof.
  intros w h flags px. unfold black. destruct (_ && _) eqn:E; [|done]. intros [= <-]. zbool.
  rewrite zlen_zrep. lia.
Qed.

Definition le16 (x : Z) : bytes := [x mod 256; x / 256 mod 256].
Definition le32 (x : Z) : bytes := le16 (x mod 2 ^ 16) ++ le16 (x / 2 ^ 16).
Definition file_header (offset : Z) : bytes := [0x42; 0x4D] ++ le32 0 ++ le32 0 ++ le32 offset.
Definition image_header (w h bpp encoding colours : Z) : bytes :=
  le32 40 ++ le32 w ++ le32 h ++ le16 1 ++ le16 bpp ++ le32 encoding ++ le32 0 ++ le32 0 ++ le32 0 ++
  le32 colours ++ le32 0.

(** Two rows of two pixels of three octets, with padding. *)
Definition two_by_two : bytes :=
  file_header 54 ++ image_header 2 2 24 0 0 ++ [1; 2; 3; 4; 5; 6; 0; 0] ++ [7; 8; 9; 10; 11; 12; 0; 0].

(** A row of three pixels as they are: the octet that evens them out is not in
    the file. *)
Definition three_as_they_are : bytes :=
  file_header 62 ++ image_header 3 1 8 1 2 ++ [0; 0; 255; 0; 255; 0; 0; 0] ++ [0; 3; 0; 1; 0].

(** An icon without its mask. *)
Definition icon_without_mask : bytes :=
  le16 0 ++ le16 1 ++ le16 1 ++ [2; 2; 0; 0] ++ le16 1 ++ le16 24 ++ le32 56 ++ le32 22 ++
  image_header 2 4 24 0 0 ++ [1; 2; 3; 4; 5; 6; 0; 0] ++ [7; 8; 9; 10; 11; 12; 0; 0].

Definition analysed (mem file : bytes) : bmp_image :=
  default bmp_create (snd <$> result_of (bmp_analyse mem any_size black (zlen file) 0) bmp_create).

Lemma octets_of (m : bytes) : forallb (fun c => (0 <=? c) && (c <? 256)) m = true -> wf_bytes m.
Proof.
  rewrite List.forallb_forall. intros H. apply List.Forall_forall. intros c Hc%H. zbool. unfold is_byte. lia.
Qed.

Lemma analysed_opened mem file :
  wf_bytes mem -> zlen file < 2 ^ 32 -> zlen file <= zlen mem ->
  (exists b, result_of (bmp_analyse mem any_size black (zlen file) 0) bmp_create = Some (BMP_OK, b)) ->
  opened mem (zlen file) 0 (analysed mem file).
Proof.
  intros Ho Hl Hm [b Hr]. pose proof (zlen_nonneg file). unfold analysed. rewrite Hr. cbn [fmap option_fmap option_map default snd].
  assert (Hw : u32 (zlen file) = zlen file) by (apply u32_small; lia).
  pose proof (analyse_ok mem any_size black (zlen file) 0 Ho black_fits ltac:(lia) ltac:(lia)) as H1.
  unfold bwp in H1. unfold result_of in Hr.
  destruct (bmp_analyse mem any_size black (zlen file) 0 bmp_create) as [r b1|r b1|]; [| |done];
    injection Hr as -> ->; [|by destruct H1].
  destruct H1 as [[_ H1]|H1]; [by rewrite Hw in H1|by destruct H1].
Qed.

Lemma bmp_analyse_safe_witness :
  wf_bytes two_by_two /\ 0 + u32 (zlen two_by_two) <= zlen two_by_two /\
  exists r b, result_of (bmp_analyse two_by_two any_size black (zlen two_by_two) 0) bmp_create = Some (r, b) /\
    (r = BMP_OK -> opened two_by_two (u32 (zlen two_by_two)) 0 b) /\
    (r <> BMP_OK -> bm_bitmap b = None /\ bm_colour_table b = None).
Proof.
  assert (Ho : wf_bytes two_by_two) by (apply octets_of; vm_compute; reflexivity).
  assert (Hl : 0 + u32 (zlen two_by_two) <= zlen two_by_two) by (vm_compute; discriminate).
  split; [exact Ho|]. split; [exact Hl|].
  exact (bmp_analyse_safe two_by_two any_size black (zlen two_by_two) 0 Ho black_fits (Z.le_refl 0) Hl).
Defined.

(** The octet after the run can be read. *)
Definition padded_run : bmp_image := analysed (three_as_they_are ++ [0]) three_as_they_are.

Lemma bmp_decode_safe_witness :
  decodable (three_as_they_are ++ [0]) padded_run /\ overread padded_run = 1 /\
  exists r b1, result_of (bmp_decode (three_as_they_are ++ [0]) 0 visible) padded_run = Some (r, b1) /\
    shaped padded_run b1 /\ decodable (three_as_they_are ++ [0]) b1.
Proof.
  assert (Ho : wf_bytes (three_as_they_are ++ [0])) by (apply octets_of; vm_compute; reflexivity).
  assert (Hd : decodable (three_as_they_are ++ [0]) padded_run).
  { apply (analysed_opened _ _ Ho); [vm_compute; reflexivity|vm_compute; discriminate|].
    eexists. vm_compute. reflexivity. }
  split; [exact Hd|]. split; [vm_compute; reflexivity|].
  apply (bmp_decode_safe (three_as_they_are ++ [0]) 0 visible padded_run Ho Hd). vm_compute. discriminate.
Defined.

Lemma ico_analyse_safe_witness :
  wf_bytes icon_without_mask /\
  exists r ico, ico_analyse icon_without_mask any_size black (zlen icon_without_mask) 0 ico_collection_create = Some (r, ico) /\
    Forall (fun b => ready icon_without_mask b /\
      bm_data b + bm_buffer_size b <= 0 + u32 (zlen icon_without_mask) \/ idle b) (ic_images ico) /\
    (r = BMP_OK -> Forall (fun b => ready icon_without_mask b /\
      bm_data b + bm_buffer_size b <= 0 + u32 (zlen icon_without_mask)) (ic_images ico) /\ ic_images ico <> []).
Proof.
  assert (Ho : wf_bytes icon_without_mask) by (apply octets_of; vm_compute; reflexivity).
  split; [exact Ho|].
  apply (ico_analyse_safe icon_without_mask any_size black (zlen icon_without_mask) 0 Ho black_fits (Z.le_refl 0)).
  vm_compute. discriminate.
Defined.

Definition small : bmp_image := analysed two_by_two two_by_two.

Lemma bmp_decode_pixels_witness :
  bm_bitmap small = Some (zrep 4 0) /\
  exists b1 px1, result_of (bmp_decode two_by_two 0 visible) small = Some (BMP_OK, b1) /\ bm_bitmap b1 = Some px1 /\
    forall y x, 0 <= y < bm_height small -> 0 <= x < bm_width small ->
    let i := bm_width small * (if bm_reversed small then y else bm_height small - 1 - y) + x in
    znth px1 i =
      match file_pixel two_by_two small (bm_data small + bm_bitmap_offset small + row_stride small * y) x with
      | Some v => Some v
      | None => znth (zrep 4 0) i
      end.
Proof.
  assert (Ho : wf_bytes two_by_two) by (apply octets_of; vm_compute; reflexivity).
  assert (Hd : decodable two_by_two small).
  { apply (analysed_opened _ _ Ho); [vm_compute; reflexivity|vm_compute; discriminate|].
    eexists. vm_compute. reflexivity. }
  split; [vm_compute; reflexivity|].
  apply (bmp_decode_pixels two_by_two 0 visible small (zrep 4 0) Ho Hd); try (vm_compute; reflexivity); try done;
    vm_compute; discriminate.
Defined.

(** ** Reads past the end of the file *)

(** The octet after a run of an odd number of pixels as they are is read
    without asking whether it is there. *)
Example run_is_overread :
  result_of (bmp_decode three_as_they_are 0 visible) (analysed three_as_they_are three_as_they_are) = None /\
  (fst <$> result_of (bmp_decode (three_as_they_are ++ [0]) 0 visible) padded_run) = Some BMP_OK.
Proof. vm_compute. auto. Qed.

(** So is the first octet of each row of a mask narrower than eight pixels. *)
Example mask_is_overread :
  match ico_analyse icon_without_mask any_size black (zlen icon_without_mask) 0 ico_collection_create with
  | Some (BMP_OK, ico) =>
      match ic_images ico with
      | [image] => result_of (bmp_decode icon_without_mask 0 visible) image = None
      | _ => False
      end
  | _ => False
  end.
Proof. vm_compute. reflexivity. Qed.

(** The squares of the differences do not fit an int for a large size. *)
Example icon_sizes_overflow :
  ico_find {| ic_width := 1; ic_height := 1; ic_data := 0; ic_buffer_size := 0;
              ic_images := [set_bm_width 1 (set_bm_height 1 bmp_create)] |} 65535 65535 = None.
Proof. reflexivity. Qed.
